(* ===== verification/_CoqProject ===== *)
-Q . S2P
Prelude.v
Arena.v
Skills.v
Zone.v
Player.v
RoomTypes.v
Room.v
RoomInv.v
RoomSpec.v
Connection.v
Wire.v
FrameCodec.v
Session.v
Outbound.v
OutboundSpec.v
SessionDirectory.v
RouteCoordinator.v
RouteSpec.v
Distribution.v
Ring.v
TransitionChannel.v
TransitionSpec.v
Server.v
Handoff.v
HandoffCalls.v
HandoffSpec.v
RoomEntry.v
RoomStages.v
RoomEntryCalls.v
RoomEntrySpec.v
Gateway.v
GatewaySpec.v
BoundedQueue.v
Persistence.v
PersistenceSpec.v
Identity.v
Lane.v
Barrier.v
BarrierSpec.v
TimerQueue.v
HandleRing.v
SlotTable.v
ActorTable.v
Actor.v
DbClient.v
Scheduler.v
SchedulerInv.v
SchedulerOps.v
SchedulerDeliver.v
SchedulerTurns.v
SchedulerRun.v
SchedulerClock.v
SchedulerSpec.v
WorkerConnection.v
ConnectionTables.v
Network.v
NetworkInv.v
NetworkOps.v
NetworkClose.v
NetworkSend.v
NetworkRead.v
NetworkPoll.v
NetworkWrite.v
NetworkStop.v
NetworkSpec.v
Encoder.v
ClientWire.v
ClientSpec.v
ResultSinks.v
GameMessages.v
ActorAdapters.v
PlayerAdapter.v
PlayerAdapterInv.v
PlayerAdapterTurns.v
PlayerAdapterSpec.v
GameActors.v
GameSink.v
GameSinkSpec.v
SinkClientSpec.v
GameActorSpec.v
