(* ===== verification/Prelude.v ===== *)
(** * Verification of the SnF game server

    SnF is a C++20 server for an online action game.  Clients talk to it in
    length-prefixed frames over TCP; every player, zone and battle room is an
    actor that owns its state and handles one command at a time.  The repository
    holds two servers over the same game rules.  The first has a network thread, a
    pool of actor threads and services behind mutexes: the gateway decodes frames
    and routes commands to actors, the route coordinator with the zone handoff and
    room entry services moves players between zones and rooms, results go back
    through a bounded outbound channel and records are written behind to a
    repository.  The second has one worker per core: each worker polls its own
    connections, runs its own actors, and sends events to other workers through
    lock-free lanes.  This library models the state machines of both from the
    files under [src/] and proves what makes them correct.  Definitions keep the
    names of the source and are executable.

    ** Components and files

    Shared:
    - [Prelude]: machine integers ([u8] .. [u64] after every operation that may
      wrap), the result type [outcome] ([Ret] or the C++ exception thrown),
      sorted vectors with [lower_bound], counting and sums, shared tactics and
      the hint database [snf].

    Game rules ([src/src/game/]):
    - [Arena] ([arena.cpp]): positions, saturating moves, homing steps, range
      tests, spawn formations.
    - [Skills] ([skill_catalog.cppm], [skill_loadout.cpp],
      [street_progression.cpp], [product_catalog.cpp]): catalogues, the owned and
      equipped skills of a player, the level curve.
    - [Zone] ([zone.cpp]): entering, moving, leaving under route epochs, the area
      of interest, the simulation tick and, as a step relation, its scheduling.
    - [Player] ([player.cpp]): the command handlers with the purchase ledger and
      its idempotency evidence, dirty components, snapshot and restore.
    - [RoomTypes], [Room] ([room.cpp]): the battle room with waves, boss, enemies,
      projectiles and event digests; [RoomInv] its invariant, [RoomSpec] the
      theorems.

    Protocol and connections:
    - [Connection], [Wire], [FrameCodec] ([src/src/protocol/]): big-endian
      integers, [encode_frame] and the incremental [FrameDecoder].
    - [Session] ([src/src/net/session.cpp]): the receive side of a connection and
      its bounded queue of bytes to send.

    First server ([src/src/server/], [src/include/snf/runtime/]):
    - [Outbound], [OutboundSpec] ([outbound_channel.cpp]): reservations, waiters,
      grants, commits and cancellation.
    - [SessionDirectory] ([player_session_directory.cpp]): which connection
      serves which player, and the close protocol.
    - [RouteCoordinator], [RouteSpec] ([route_coordinator.cpp]): where a player is
      and the tickets of a transition.
    - [Distribution], [Ring] (latency distributions and [bounded_ring]),
      [TransitionChannel], [TransitionSpec] ([zone_transition_channel.cpp],
      [room_transition_channel.cpp]): the channels on which actors answer.
    - [Server] (routed commands, [command_router.cpp]): the commands, the state
      that the services on the network thread share, and their monad.
    - [Handoff], [HandoffCalls], [HandoffSpec] ([zone_handoff_service.cpp]).
    - [RoomEntry], [RoomStages], [RoomEntryCalls], [RoomEntrySpec]
      ([room_entry_service.cpp]).
    - [Gateway], [GatewaySpec] ([protocol_gateway.cpp], [message_dispatcher.cpp],
      [command_router.cpp]): from frames to commands.
    - [BoundedQueue] ([bounded_queue.hpp]): the FIFO, and the class [Queue] of
      what it promises; [Persistence], [PersistenceSpec]
      ([player_persistence_service.cpp]): the write-behind service over any
      [Queue].

    Second server ([src/src/worker/], [src/include/snf/worker/]):
    - [Identity] ([identity.hpp], [stale.hpp], [poll_token.hpp], [progress.hpp]):
      keys, placement, generations, tokens.
    - [Lane] ([inbox.cpp], [InboxLane]): the lock-free lane, interleaved at every
      load and store.
    - [Barrier], [BarrierSpec] ([barrier.cpp] and the phase B loop of
      [worker.cpp]): the packed word and the workers that agree to stop.
    - [TimerQueue] ([timer_queue.hpp]) over the class [HeapAlgorithms].
    - [HandleRing] ([connection_work_queue.cpp], [ReadyActorQueue]), [SlotTable],
      [ActorTable] ([actor_table.cpp]), [Actor] ([actor.hpp]): queues of handles,
      tables with reservations and generations, actors as trees of turns.
    - [Scheduler] ([worker.cpp], the actors' half): delivery, activation, turns,
      effects, suspension, completions, timers, shutdown, over the classes
      [ActorBehaviour] and [WorkerOutside]; [SchedulerInv], [SchedulerOps],
      [SchedulerDeliver], [SchedulerTurns], [SchedulerRun], [SchedulerClock] hold
      invariant and preservation, [SchedulerSpec] the theorems.
    - [WorkerConnection] ([connection.cpp]), [ConnectionTables]
      ([connection_table.cpp], [poll_registration.cpp], [poller.cpp]): a
      connection with its write buffer, the two tables, the epoll set.
    - [Network] ([worker.cpp], the network half): accepting, reading, posting,
      sending, closing, deadlines and the network steps of the shutdown, over the
      classes [NetKernel] and [RequestSink]; [NetworkInv], [NetworkOps],
      [NetworkClose], [NetworkSend], [NetworkRead], [NetworkPoll],
      [NetworkWrite], [NetworkStop] hold invariant and preservation,
      [NetworkSpec] the theorems.

    Between the game and the two servers ([src/src/adapter/], the result sinks of
    [src/src/server/], [src/game-client/]):
    - [Encoder] ([protocol_encoder.cpp]): every frame the servers answer with;
      [ResultSinks] ([protocol_*_sink.cpp]): how results of the first server's
      actors become frames in the outbound channel.
    - [ClientWire] ([snf_wire.py], the read loop of [snf_session.py]): the Python
      client's requests, parsers and frame decoder; [ClientSpec] has the round
      trips between client and server, [SinkClientSpec] those with a worker.
    - [GameMessages] ([game_payloads.hpp], [to_effects.cpp]): what the actors of a
      worker tell each other, and results as effects; [ActorAdapters]
      ([zone_actor_adapter.cpp], [room_actor_adapter.cpp]): zone and room actors.
    - [PlayerAdapter] ([player_actor_adapter.cpp]): the actor that moves a player
      between zones and rooms by messages, with its timers and the table of
      cleanups; [PlayerAdapterInv] has its program logic and invariant,
      [PlayerAdapterTurns] the handlers, [PlayerAdapterSpec] the cleanups and the
      theorems.
    - [DbClient] ([db_client.cpp]): the SQL of loads and saves, the rows parsed, and
      the operations of a database connection step by step over any driver; what
      MySQL makes of the statements is a parameter, [SqlServer], with [SqlLaws].
    - [GameActors] ([game_actor_factory.cpp]): the three actors as an instance of
      the scheduler's [ActorBehaviour]; [GameActorSpec] composes them with the
      scheduler and has the theorems on rooms and on saved players.
    - [GameSink], [GameSinkSpec] ([game_request_sink.cpp]): the sessions of a
      worker, from frames to actors, over the class [SinkWorker].

    A class is a [Record] with the fields of the source, a method a function that
    returns the new state beside its result; a method that runs under a mutex is
    one atomic step.  The worker's two halves are state monads with a fault: the
    exception that would end the worker.  Commands, results and events are
    inductive types with the source's alternatives.  Hash maps and sets are [gmap]
    and [gset]; where the code enumerates one, either the result is shown not to
    depend on the order or the comment at the definition says which order is
    taken.  Time points and durations are integers; the clock is an argument or an
    answer of the outside.

    ** What the theorems show

    - Room: from every accepted configuration and under every command sequence
      the invariant holds; one outcome at most, reported exactly when the battle
      ends; rewards exactly once; requests applied once and in order; due waves
      and boss always spawned; a decided battle is frozen.
    - Codec and sessions: the incremental decoder refines a reference parser of
      the whole stream, so the cut of TCP reads never matters; end to end no frame
      is lost, duplicated, reordered or torn; all buffers stay bounded.
    - Outbound channel: accounts balance after any calls of any clients, a
      reservation is always honoured, grant turns make progress.
    - Player, zone, arena, skills: purchases balance and are charged at most once
      per key; dirty bits never lose an update of a component that has one (the
      count of handled commands has none); epochs fence stale senders;
      movement stays in the arena and range tests are exact at machine width.
    - Directory, routes, channels: the maps stay inverse; a route follows its state
      machine; the channels refine reservations on a bounded buffer.
    - Zone handoff and room entry: no transfer is ever stuck, each settles with the
      player routed to exactly one place (or none, if disconnected), and every run
      of steps ends.
    - Gateway: a frame that is refused changes nothing; an accepted one reaches the
      actor it names with the values its payload spells.
    - Queue and persistence: FIFO within capacity; final completions exactly once;
      without failures the newest snapshot is kept.
    - Lane, barrier, timers, rings: the lane is a bounded FIFO under every
      interleaving; quiescence is announced only when everybody rests; timers are
      accounted and fire in order; the rings refine bounded lists.
    - Scheduler: whatever actors, factory, database and network do, the books are
      right until the end of phase B of the shutdown or the worker stopped with an
      excused fault; no wake-up is lost; timeouts reach whom they are for; runs end.
    - Network: whatever the kernel and the sink do, no call breaks the books;
      nothing that waits is forgotten; bytes and frames pass in order; a
      connection is closed once; old events and handles do nothing.
    - Client and server: both frame decoders agree on every byte stream; every
      digest and every other answer of the server is read back by the client's
      parsers; every request the client builds reaches the actor it is for, in
      either server.
    - Result sinks: results are queued in order for the connections that serve
      their players, and what is not queued is reported.
    - Player actor: every turn ends; each zone and room the player may be in is
      known, owed a cleanup or said to be left, and a disconnect leaves all of
      them, except in the one case that loses a turn's result; open cleanups are
      told again until they are confirmed.
    - Room actor, factory: turns end within the batch; a battle starts only with
      its timer; a worker that runs these actors keeps its books until the end of
      phase B; a saved player loads as it was, through the statements and the
      parser of the database client.
    - Database client: an accepted operation completes exactly once; what it says
      of a save agrees with the statements the driver acknowledged.
    - Request sink: sessions and records agree; frames stay in their session; a
      close is told again until it is confirmed.

    Theorems that describe behaviour the code does not intend:
    [Zone.zone_ticks_may_double], [OutboundSpec.stale_entries_starve_a_turn],
    [PersistenceSpec.newer_snapshot_can_be_lost],
    [RoomEntrySpec.disconnected_return_leaves_ghost],
    [GatewaySpec.in_room_disconnect_forgets_location],
    [BarrierSpec.rearming_strands_workers],
    [SchedulerSpec.stop_after_db_answer_strands],
    [SchedulerSpec.retired_handles_fill_queue],
    [NetworkSpec.flush_after_stop_reads_again],
    [PlayerAdapterSpec.closed_turn_lost],
    [PlayerAdapterSpec.reentry_timeout_desyncs],
    [RoomEntrySpec.refused_leave_keeps_seat],
    [Player.command_count_untracked].

    ** Assumptions

    Code outside [src/] and code behind an interface is a class with its
    documented behaviour as laws: [HeapAlgorithms] (the heap algorithms of the
    standard library), [NetKernel] (a new descriptor is not in use, no more bytes
    pass than asked for, a call is interrupted a bounded number of times in a row),
    [RequestSink], [ActorBehaviour], [WorkerOutside], [SinkWorker] with the log of
    its calls [SinkLog], [DbDriver] (the MySQL client library, any answers at all),
    and [SqlServer] with [SqlLaws] (after a committed upsert and the skill rows,
    the selects return the values as decimal text, NULL as no cell, skills in
    ascending order).  [setup_ok] and [net_setup_ok] say that the configuration is valid and its sizes fit their
    types; [turns_linear] that a turn uses a timer reservation at most once.  Each
    is shown to hold of a concrete instance by the witnesses.

    ** Loops

    Loops over a list recurse on it.  The others carry a bound that is shown to
    be enough: [decode_loop] runs [S] of the buffered length, and every frame
    takes ten bytes; the wave loop of the tick runs one round per wave and
    [wave_loop_exits] shows that it ends by its own condition; [grant_loop] counts
    down the rotations the source counts down; the drain loops of the services are
    bounded by the turn budget; [expire_loop] by [S] of the count budget;
    [ready_loop] by [(max_count - turns) * (capacity + 1)] and the queue's size;
    [read_loop], [accept_loop] and [send_loop] by their budgets times the
    interruptions allowed between two rounds; [read_queue_loop] by twice the
    connections allowed and the queue's size, [flush_loop] by the queue's size.
    Reaching such a bound is a fault that the theorems exclude.

    ** Not modelled

    Sockets, signals, threads, start-up and the MySQL client are operating system
    or database I/O; a failed memory allocation is not represented.
    Of the first server the actor runtime, the bindings of actors to it and the
    command terminal are not modelled: threads, mailboxes, latches and coroutines
    of a runtime the second server replaces.  Of the second server the scheduler
    sees the database client through [WorkerOutside]; of the client itself the
    poll interests, the connect options, the histograms and the budget of a pass
    are left out, and the MySQL driver and server are parameters.  The inbox
    that drains the lanes in turn is an input of the scheduler, and the worker
    group and the watchdog start and watch threads.  The load client is a tool
    outside the server. *)

From stdpp Require Export base tactics list list_numbers gmap sorting.
From Stdlib Require Export ZArith Lia.

#[global] Open Scope Z_scope.

(** ** Machine integers

    A C++ unsigned integer of width [w] is a [Z] in [[0, 2^w)]; every
    operation of the source that may wrap is followed by the reduction
    [u8], [u16], [u32] or [u64] of its width.  [std::size_t] is 64 bits wide. *)

Declare Scope snf_scope.
Delimit Scope snf_scope with snf.
#[global] Open Scope snf_scope.

Notation "'U8_MAX'" := 255 : snf_scope.
Notation "'U16_MAX'" := 65535 : snf_scope.
Notation "'U32_MAX'" := 4294967295 : snf_scope.
Notation "'U64_MAX'" := 18446744073709551615 : snf_scope.
Notation "'SIZE_MAX'" := 18446744073709551615 : snf_scope.
Notation "'I32_MAX'" := 2147483647 : snf_scope.
Notation "'I32_MIN'" := (-2147483648) : snf_scope.

Definition u8 (z : Z) : Z := z mod 256.
Definition u16 (z : Z) : Z := z mod 65536.
Definition u32 (z : Z) : Z := z mod 4294967296.
Definition u64 (z : Z) : Z := z mod 18446744073709551616.

Abbreviation in_u8 z := (0 <= z <= U8_MAX).
Abbreviation in_u16 z := (0 <= z <= U16_MAX).
Abbreviation in_u32 z := (0 <= z <= U32_MAX).
Abbreviation in_u64 z := (0 <= z <= U64_MAX).
Abbreviation in_i32 z := (I32_MIN <= z <= I32_MAX).

Create HintDb snf discriminated.

Lemma u8_small z : in_u8 z → u8 z = z.
Proof. intros; apply Z.mod_small; lia. Qed.

Lemma u16_small z : in_u16 z → u16 z = z.
Proof. intros; apply Z.mod_small; lia. Qed.

Lemma u32_small z : in_u32 z → u32 z = z.
Proof. intros; apply Z.mod_small; lia. Qed.

Lemma u64_small z : in_u64 z → u64 z = z.
Proof. intros; apply Z.mod_small; lia. Qed.

Lemma u8_range z : in_u8 (u8 z).
Proof. unfold u8; pose proof (Z.mod_pos_bound z 256); lia. Qed.

Lemma u32_range z : in_u32 (u32 z).
Proof. unfold u32; pose proof (Z.mod_pos_bound z 4294967296); lia. Qed.

Lemma u64_range z : in_u64 (u64 z).
Proof. unfold u64; pose proof (Z.mod_pos_bound z 18446744073709551616); lia. Qed.

#[export] Hint Resolve u8_range u32_range u64_range : snf.

(** [nowrap] removes every reduction whose argument is provably in range;
    [nowrap by tac] proves the range with [tac] instead of [lia]. *)
Tactic Notation "nowrap" "by" tactic3(tac) :=
  repeat match goal with
  | |- context [u64 ?z] => rewrite (u64_small z) by tac
  | |- context [u32 ?z] => rewrite (u32_small z) by tac
  | |- context [u16 ?z] => rewrite (u16_small z) by tac
  | |- context [u8 ?z] => rewrite (u8_small z) by tac
  end.

Tactic Notation "nowrap" := nowrap by lia.

(** [lia] that also knows division and modulo. *)
Ltac div_lia := Z.to_euclidean_division_equations; lia.

(** ** Exceptions

    A function that may throw returns an [outcome]; the constructors of [exn]
    are the standard exception classes the source throws. *)

Inductive exn :=
| InvalidArgument
| LengthError
| LogicError
| OutOfRange
| OverflowError.

Inductive outcome (A : Type) :=
| Ret (a : A)
| Throw (e : exn).
Arguments Ret {A} a.
Arguments Throw {A} e.

#[export] Instance exn_eq_dec : EqDecision exn.
Proof. solve_decision. Defined.

Definition outcome_bind {A B} (m : outcome A) (k : A → outcome B) : outcome B :=
  match m with Ret a => k a | Throw e => Throw e end.

(** [throw_if c e k]: [if (c) throw e;] followed by [k]. *)
Definition throw_if {A} (c : bool) (e : exn) (k : outcome A) : outcome A :=
  if c then Throw e else k.

Notation "'let!' x ':=' m 'in' k" := (outcome_bind m (fun x => k))
  (at level 10, x pattern, m at level 100, k at level 200) : snf_scope.

Lemma throw_if_ret {A} (c : bool) e (k : outcome A) a :
  throw_if c e k = Ret a ↔ c = false ∧ k = Ret a.
Proof. unfold throw_if. destruct c; split; [done|by intros [? _]|done|by intros [_ ?]]. Qed.

(** ** Time

    [std::chrono::steady_clock::time_point] counts nanoseconds and
    [std::chrono::milliseconds] counts milliseconds; adding a duration to a
    time point converts it to nanoseconds.  Overflow of the signed 64-bit
    count is undefined in C++ and is not represented. *)

Abbreviation time_point := Z (only parsing).
Abbreviation milliseconds := Z (only parsing).
Definition after (t : time_point) (d : milliseconds) : time_point := t + d * 1000000.

(** ** [std::vector] as a list *)

Definition zlen {A} (l : list A) : Z := Z.of_nat (length l).

Definition insert_at {A} (i : nat) (x : A) (l : list A) : list A :=
  take i l ++ x :: drop i l.

Definition erase_at {A} (i : nat) (l : list A) : list A :=
  take i l ++ drop (S i) l.

(** [std::optional::has_value], and the test of a pointer against [nullptr]. *)
Definition has_value {A} (o : option A) : bool :=
  match o with Some _ => true | None => false end.

(** [std::ranges::lower_bound] with a projection to an integer key: the
    position of the first element whose key is not below [v]. *)
Fixpoint lower_bound {A} (key : A → Z) (v : Z) (l : list A) : nat :=
  match l with
  | [] => 0%nat
  | a :: l' => if key a <? v then S (lower_bound key v l') else 0%nat
  end.

(** The idiom [position != end && position->key == v] after [lower_bound]. *)
Definition find_sorted {A} (key : A → Z) (v : Z) (l : list A) : option A :=
  match l !! lower_bound key v l with
  | Some a => if key a =? v then Some a else None
  | None => None
  end.

(** [std::ranges::find] by an integer key: the first match of a linear scan. *)
Fixpoint find_first {A} (p : A → bool) (l : list A) : option A :=
  match l with
  | [] => None
  | a :: l' => if p a then Some a else find_first p l'
  end.

(** Apply [f] to the first element that satisfies [p] (an update through the
    pointer a linear scan returned). *)
Fixpoint update_first {A} (p : A → bool) (f : A → A) (l : list A) : list A :=
  match l with
  | [] => []
  | a :: l' => if p a then f a :: l' else a :: update_first p f l'
  end.

Abbreviation sorted_by key := (StronglySorted (fun a b => key a < key b)).

(** ** Tactics *)

(** Case analysis on the innermost conditional of the goal or of [H]. *)
Ltac split_if :=
  match goal with
  | |- context [if ?b then _ else _] =>
      lazymatch b with context [if _ then _ else _] => fail | _ => destruct b eqn:? end
  end.

(** Turn the boolean comparisons of the context into propositions. *)
Ltac to_prop :=
  repeat match goal with
  | H : (_ && _)%bool = true |- _ => apply andb_prop in H as [? ?]
  | H : (_ || _)%bool = false |- _ => apply orb_false_elim in H as [? ?]
  | H : negb _ = true |- _ => apply negb_true_iff in H
  | H : negb _ = false |- _ => apply negb_false_iff in H
  | H : (_ <? _) = true |- _ => apply Z.ltb_lt in H
  | H : (_ <? _) = false |- _ => apply Z.ltb_ge in H
  | H : (_ <=? _) = true |- _ => apply Z.leb_le in H
  | H : (_ <=? _) = false |- _ => apply Z.leb_gt in H
  | H : (_ =? _) = true |- _ => apply Z.eqb_eq in H
  | H : (_ =? _) = false |- _ => apply Z.eqb_neq in H
  end.

(** ** Lists *)

Lemma StronglySorted_weaken {A} (R S : relation A) l :
  (∀ a b, R a b → S a b) → StronglySorted R l → StronglySorted S l.
Proof.
  intros HRS. induction 1 as [|a l Hs IH Ha]; constructor; [done|].
  by apply (Forall_impl _ _ _ Ha), HRS.
Qed.

Lemma sublist_fmap {A B} (f : A → B) l l' : sublist l l' → sublist (f <$> l) (f <$> l').
Proof. induction 1; simpl; by constructor. Qed.

Lemma Forall_sublist {A} (P : A → Prop) l l' : sublist l l' → Forall P l' → Forall P l.
Proof. rewrite !Forall_forall. intros Hsub Hl a Ha. apply Hl. by eapply elem_of_sublist. Qed.

Lemma filter_sublist {A} (P : A → Prop) `{!∀ a, Decision (P a)} l : sublist (filter P l) l.
Proof. induction l as [|a l IH]; [done|]. rewrite filter_cons. case_decide; by constructor. Qed.

(** Sorting distinct integers gives a strictly increasing list. *)
Lemma merge_sort_strict (ids : list Z) : NoDup ids → StronglySorted Z.lt (merge_sort (≤) ids).
Proof.
  intros Hnd. rewrite <-(merge_sort_Permutation (≤) ids) in Hnd.
  pose proof (StronglySorted_merge_sort (≤) ids) as Hs. revert Hnd.
  induction Hs as [|s l Hs IH Hall]; intros Hnd; [constructor|].
  apply NoDup_cons in Hnd as [Hn Hnd]. constructor; [auto|].
  rewrite Forall_forall in *. intros t Ht. specialize (Hall t Ht).
  destruct (decide (s = t)) as [->|]; [done|]. lia.
Qed.

Section sorted_vectors.
Context {A : Type} (key : A → Z).
Implicit Types (l : list A) (a : A) (v : Z).

Lemma lower_bound_le v l : (lower_bound key v l <= length l)%nat.
Proof. induction l as [|b l IH]; simpl; [lia|]. split_if; lia. Qed.

Lemma lower_bound_take v l : Forall (fun b => key b < v) (take (lower_bound key v l) l).
Proof.
  induction l as [|b l IH]; simpl; [constructor|].
  split_if; to_prop; simpl; [constructor; auto|constructor].
Qed.

Lemma lower_bound_drop v l :
  sorted_by key l → Forall (fun b => v <= key b) (drop (lower_bound key v l) l).
Proof.
  induction 1 as [|b l Hs IH Hb]; simpl; [constructor|].
  split_if; to_prop; simpl; [done|].
  constructor; [lia|]. eapply Forall_impl; [exact Hb|]. simpl; intros; lia.
Qed.

Lemma sorted_lookup_lt l i j a b :
  sorted_by key l → l !! i = Some a → l !! j = Some b → (i < j)%nat → key a < key b.
Proof.
  intros Hs. revert i j. induction Hs as [|c l Hs IH Hc]; intros [|i] [|j] Hi Hj Hlt; simpl in *; try done; try lia.
  - injection Hi as ->. rewrite Forall_forall in Hc. eauto using list_elem_of_lookup_2.
  - eapply IH; [done|done|lia].
Qed.

(** On a sorted vector the binary-search idiom finds exactly the element
    with the key. *)
Lemma find_sorted_spec v l a :
  sorted_by key l → find_sorted key v l = Some a ↔ a ∈ l ∧ key a = v.
Proof.
  intros Hs. unfold find_sorted. split.
  - destruct (l !! _) as [b|] eqn:E; [|done]. split_if; [|done].
    intros [= <-]. to_prop. eauto using list_elem_of_lookup_2.
  - intros [Hin Hk]. revert Hin. induction Hs as [|b l Hs IH Hb]; simpl.
    { by intros ?%elem_of_nil. }
    intros [->|Hin]%elem_of_cons.
    + rewrite (proj2 (Z.ltb_ge _ _)) by lia. simpl.
      by rewrite (proj2 (Z.eqb_eq _ _)).
    + rewrite Forall_forall in Hb. specialize (Hb a Hin).
      rewrite (proj2 (Z.ltb_lt _ _)) by lia. simpl. by apply IH.
Qed.

Lemma find_sorted_None v l :
  sorted_by key l → find_sorted key v l = None ↔ Forall (fun b => key b ≠ v) l.
Proof.
  intros Hs. rewrite Forall_forall. split.
  - intros E b Hb Hk.
    by rewrite (proj2 (find_sorted_spec v l b Hs) (conj Hb Hk)) in E.
  - intros Hne. destruct (find_sorted key v l) as [b|] eqn:E; [|done].
    apply find_sorted_spec in E as [Hb Hk]; [|done]. by destruct (Hne b Hb).
Qed.

(** Inserting a fresh key at its lower bound keeps the vector sorted. *)
Lemma insert_at_sorted a l :
  sorted_by key l → Forall (fun b => key b ≠ key a) l →
  sorted_by key (insert_at (lower_bound key (key a) l) a l).
Proof.
  intros Hs Hne. unfold insert_at.
  pose proof (lower_bound_take (key a) l) as Ht.
  pose proof (lower_bound_drop (key a) l Hs) as Hd.
  rewrite <-(take_drop (lower_bound key (key a) l) l) in Hs, Hne.
  apply Forall_app in Hne as [_ Hne].
  apply StronglySorted_app in Hs as (Hcross & Hst & Hsd).
  apply StronglySorted_app. split; [|split]; [|done|].
  - intros b c Hb [->|Hc]%elem_of_cons; [|by apply Hcross].
    rewrite Forall_forall in Ht. auto.
  - constructor; [done|]. rewrite Forall_forall in *. intros c Hc.
    specialize (Hd c Hc). specialize (Hne c Hc). lia.
Qed.

Lemma insert_at_perm i a l : insert_at i a l ≡ₚ a :: l.
Proof.
  unfold insert_at. rewrite <-Permutation_middle. by rewrite take_drop.
Qed.

Lemma erase_at_sublist i l : sublist (erase_at i l) l.
Proof.
  unfold erase_at. rewrite <-(take_drop i l) at 3.
  apply sublist_app; [done|].
  replace (S i) with (i + 1)%nat by lia. rewrite <-drop_drop. apply sublist_drop.
Qed.

Lemma sublist_sorted l l' : sublist l l' → sorted_by key l' → sorted_by key l.
Proof.
  induction 1 as [|a l l' Hsub IH|a l l' Hsub IH]; intros Hs; [done| |].
  - apply StronglySorted_inv in Hs as [Hs Hall]. constructor; [auto|].
    rewrite Forall_forall in *. intros b Hb. apply Hall. by eapply elem_of_sublist.
  - apply StronglySorted_inv in Hs as [Hs Hall]. auto.
Qed.
End sorted_vectors.

(** Number of elements that satisfy a boolean predicate. *)
Fixpoint count_if {A} (p : A → bool) (l : list A) : nat :=
  match l with
  | [] => 0
  | a :: l' => (if p a then 1 else 0) + count_if p l'
  end%nat.

Section counting.
Context {A : Type} (p : A → bool).
Implicit Types l k : list A.

Lemma count_if_app l k : count_if p (l ++ k) = (count_if p l + count_if p k)%nat.
Proof. induction l as [|a l IH]; simpl; [done|]. rewrite IH. lia. Qed.

Lemma count_if_insert l i x y :
  l !! i = Some x →
  (count_if p (<[i := y]> l) + (if p x then 1 else 0) = count_if p l + (if p y then 1 else 0))%nat.
Proof.
  revert i. induction l as [|a l IH]; intros [|i] Hi; simpl in *; try done.
  - injection Hi as ->. lia.
  - specialize (IH i Hi). lia.
Qed.

Lemma count_if_zero l : count_if p l = 0%nat ↔ Forall (fun a => p a = false) l.
Proof.
  induction l as [|a l IH]; simpl; [split; [constructor|done]|].
  rewrite Forall_cons, <-IH. destruct (p a); split; try lia; naive_solver lia.
Qed.

Lemma count_if_perm l k : l ≡ₚ k → count_if p l = count_if p k.
Proof. induction 1; simpl; lia. Qed.

Lemma count_if_length l : (count_if p l <= length l)%nat.
Proof. induction l as [|a l IH]; simpl; [lia|]. destruct (p a); lia. Qed.

Lemma count_if_all l : (∀ a, a ∈ l → p a = true) → count_if p l = length l.
Proof.
  induction l as [|a l IH]; intros Hall; simpl; [done|].
  rewrite (Hall a) by left. rewrite IH; [done|]. intros b Hb. apply Hall. by right.
Qed.

Lemma count_if_Forall2 l k : Forall2 (fun a b => p a = p b) l k → count_if p k = count_if p l.
Proof. induction 1 as [|a b l k Hab _ IH]; simpl; [done|]. by rewrite Hab, IH. Qed.
End counting.

Lemma count_if_impl {A} (p q : A → bool) l :
  (∀ a, a ∈ l → p a = true → q a = true) → (count_if p l <= count_if q l)%nat.
Proof.
  induction l as [|a l IH]; intros Himp; simpl; [done|].
  assert (count_if p l <= count_if q l)%nat by (apply IH; intros b Hb; apply Himp; by right).
  pose proof (Himp a ltac:(left)) as Ha. destruct (p a); [rewrite Ha by done; lia|destruct (q a); lia].
Qed.

(** Sum of an integer measure over a list. *)
Fixpoint zsum {A} (f : A → Z) (l : list A) : Z :=
  match l with
  | [] => 0
  | a :: l' => f a + zsum f l'
  end.

Section sums.
Context {A : Type} (f : A → Z).
Implicit Types l : list A.

Lemma zsum_app l k : zsum f (l ++ k) = zsum f l + zsum f k.
Proof. induction l as [|a l IH]; simpl; [done|]. rewrite IH. lia. Qed.

Lemma zsum_insert l i x y : l !! i = Some x → zsum f (<[i := y]> l) = zsum f l - f x + f y.
Proof.
  revert i. induction l as [|a l IH]; intros [|i] Hi; simpl in *; try done.
  - injection Hi as ->. lia.
  - rewrite (IH i Hi). lia.
Qed.

Lemma zsum_delete l i x : l !! i = Some x → zsum f (delete i l) = zsum f l - f x.
Proof.
  revert i. induction l as [|a l IH]; intros [|i] Hi; simpl in *; try done.
  - injection Hi as ->. lia.
  - change (f a + zsum f (delete i l) = f a + zsum f l - f x). rewrite (IH i Hi). lia.
Qed.

Lemma zsum_nonneg l : Forall (fun a => 0 <= f a) l → 0 <= zsum f l.
Proof. induction 1; simpl; lia. Qed.

Lemma zsum_elem_le l x : Forall (fun a => 0 <= f a) l → x ∈ l → f x <= zsum f l.
Proof.
  induction 1 as [|a l Ha Hl IH]; [by intros ?%elem_of_nil|]. pose proof (zsum_nonneg l Hl).
  intros [->|Hx]%elem_of_cons; simpl; [lia|]. specialize (IH Hx). lia.
Qed.

Lemma zsum_zero l : (∀ a, a ∈ l → f a = 0) → zsum f l = 0.
Proof.
  induction l as [|a l IH]; intros Hz; simpl; [done|]. rewrite (Hz a) by left. rewrite IH; [done|].
  intros b Hb. apply Hz. by right.
Qed.
End sums.

Lemma zsum_le {A} (f g : A → Z) l : (∀ a, a ∈ l → f a <= g a) → zsum f l <= zsum g l.
Proof.
  induction l as [|a l IH]; intros Hle; simpl; [done|]. pose proof (Hle a ltac:(left)).
  assert (zsum f l <= zsum g l) by (apply IH; intros b Hb; apply Hle; by right). lia.
Qed.
