(* ===== verification/Arena.v ===== *)
(** * The battle arena: positions, movement, ranges and spawn formations

    Models [src/src/game/arena.cpp] and [src/include/snf/game/arena.hpp].
    Coordinates are 32-bit and distances 64-bit unsigned integers; every
    operation that may wrap in C++ is reduced to its width. *)

From S2P Require Import Prelude.

Record ArenaPosition := mkArenaPosition { pos_x : Z; pos_y : Z }.

#[export] Instance ArenaPosition_eq_dec : EqDecision ArenaPosition.
Proof. solve_decision. Defined.

Inductive MoveDirection :=
| Stop | North | NorthEast | East | SouthEast | South | SouthWest | West | NorthWest.

#[export] Instance MoveDirection_eq_dec : EqDecision MoveDirection.
Proof. solve_decision. Defined.

(** The wire value of a direction ([enum class MoveDirection : std::uint8_t]). *)
Definition direction_of_u8 (value : Z) : MoveDirection :=
  match value with
  | 1 => North | 2 => NorthEast | 3 => East | 4 => SouthEast
  | 5 => South | 6 => SouthWest | 7 => West | 8 => NorthWest
  | _ => Stop
  end.

Definition direction_to_u8 (d : MoveDirection) : Z :=
  match d with
  | Stop => 0 | North => 1 | NorthEast => 2 | East => 3 | SouthEast => 4
  | South => 5 | SouthWest => 6 | West => 7 | NorthWest => 8
  end.

Definition isValidMoveDirection (value : Z) : bool := value <=? direction_to_u8 NorthWest.

(** ** Movement *)

Definition decrease (value amount : Z) : Z := u32 (value - Z.min value amount).

Definition increase (value amount maximum : Z) : Z :=
  u32 (value + Z.min amount (u32 (maximum - value))).

Definition stepToward (value target amount : Z) : Z :=
  if target <? value then u32 (value - Z.min amount (u32 (value - target)))
  else u32 (value + Z.min amount (u32 (target - value))).

Definition moveInDirection (position : ArenaPosition) (direction : MoveDirection)
    (speed width height : Z) : ArenaPosition :=
  let max_x := u32 (width - 1) in
  let max_y := u32 (height - 1) in
  let px := pos_x position in
  let py := pos_y position in
  match direction with
  | Stop => position
  | North => mkArenaPosition px (decrease py speed)
  | NorthEast => mkArenaPosition (increase px speed max_x) (decrease py speed)
  | East => mkArenaPosition (increase px speed max_x) py
  | SouthEast => mkArenaPosition (increase px speed max_x) (increase py speed max_y)
  | South => mkArenaPosition px (increase py speed max_y)
  | SouthWest => mkArenaPosition (decrease px speed) (increase py speed max_y)
  | West => mkArenaPosition (decrease px speed) py
  | NorthWest => mkArenaPosition (decrease px speed) (decrease py speed)
  end.

Definition moveToward (position target : ArenaPosition) (speed width height : Z) : ArenaPosition :=
  mkArenaPosition
    (Z.min (stepToward (pos_x position) (pos_x target) speed) (u32 (width - 1)))
    (Z.min (stepToward (pos_y position) (pos_y target) speed) (u32 (height - 1))).

(** ** Distances *)

Definition squaredDistance (left right : ArenaPosition) : Z :=
  let delta_x := if pos_x left <? pos_x right then u64 (pos_x right - pos_x left)
                 else u64 (pos_x left - pos_x right) in
  let delta_y := if pos_y left <? pos_y right then u64 (pos_y right - pos_y left)
                 else u64 (pos_y left - pos_y right) in
  let x_squared := u64 (delta_x * delta_x) in
  let y_squared := u64 (delta_y * delta_y) in
  if u64 (U64_MAX - x_squared) <? y_squared then U64_MAX else u64 (x_squared + y_squared).

Definition isWithinRange (left right : ArenaPosition) (range : Z) : bool :=
  squaredDistance left right <=? u64 (range * range).

(** ** Spawn formations *)

Definition productQuotient (value multiplier divisor : Z) : Z :=
  u64 (u64 (value / divisor * multiplier) + u64 (value mod divisor * multiplier) / divisor).

Definition centeredParticipantPosition (index count width height spacing : Z) : ArenaPosition :=
  let span := u64 (spacing * u64 (count - 1)) in
  let start_x := u64 (width / 2 - span / 2) in
  mkArenaPosition (u32 (u64 (start_x + u64 (spacing * index)))) (height / 2).

Definition squarePerimeterPosition (index count width height radius : Z) : ArenaPosition :=
  let center_x := width / 2 in
  let center_y := height / 2 in
  let perimeter := u64 (radius * 8) in
  let offset := productQuotient perimeter index count in
  let top := u64 (center_y - radius) in
  let right := u64 (center_x + radius) in
  let bottom := u64 (center_y + radius) in
  let left := u64 (center_x - radius) in
  if offset <? radius then
    mkArenaPosition (u32 (u64 (center_x + offset))) (u32 top)
  else if offset <? u64 (radius * 3) then
    mkArenaPosition (u32 right) (u32 (u64 (u64 (top + offset) - radius)))
  else if offset <? u64 (radius * 5) then
    mkArenaPosition (u32 (u64 (right - u64 (offset - u64 (radius * 3))))) (u32 bottom)
  else if offset <? u64 (radius * 7) then
    mkArenaPosition (u32 left) (u32 (u64 (bottom - u64 (offset - u64 (radius * 5)))))
  else
    mkArenaPosition (u32 (u64 (u64 (left + offset) - u64 (radius * 7)))) (u32 top).

Definition bossSpawnPosition (width : Z) : ArenaPosition := mkArenaPosition (width / 2) 0.

(** ** Specification vocabulary *)

(** A position inside a [width] x [height] arena. *)
Definition in_arena (width height : Z) (p : ArenaPosition) : Prop :=
  0 <= pos_x p < width ∧ 0 <= pos_y p < height.

(** Any representable position. *)
Definition u32_position (p : ArenaPosition) : Prop := in_u32 (pos_x p) ∧ in_u32 (pos_y p).

(** The exact squared Euclidean distance, and the Chebyshev distance. *)
Definition exact_distance2 (p q : ArenaPosition) : Z :=
  (pos_x p - pos_x q) ^ 2 + (pos_y p - pos_y q) ^ 2.

Definition chebyshev (p q : ArenaPosition) : Z :=
  Z.max (Z.abs (pos_x p - pos_x q)) (Z.abs (pos_y p - pos_y q)).

(** The arenas [Room::Room] accepts: positive extents that fit a signed 32-bit integer. *)
Definition arena_extents (width height : Z) : Prop := 0 < width <= I32_MAX ∧ 0 < height <= I32_MAX.

(** ** Movement stays inside the arena *)

Section movement.
Context (width height : Z) (Hext : arena_extents width height).

Lemma decrease_spec v a : in_u32 v → in_u32 a → decrease v a = Z.max 0 (v - a).
Proof. intros. unfold decrease. nowrap. lia. Qed.

Lemma increase_spec v a m :
  in_u32 v → in_u32 a → v <= m <= U32_MAX → increase v a m = Z.min m (v + a).
Proof. intros. unfold increase. nowrap. lia. Qed.

Lemma stepToward_spec v t a :
  in_u32 v → in_u32 t → in_u32 a →
  stepToward v t a = if t <? v then Z.max t (v - a) else Z.min t (v + a).
Proof. intros. unfold stepToward. split_if; to_prop; nowrap; lia. Qed.

Lemma moveInDirection_in_arena p d speed :
  in_u32 speed → in_arena width height p →
  in_arena width height (moveInDirection p d speed width height).
Proof using Hext.
  unfold in_arena, arena_extents in *. intros Hs Hp. unfold moveInDirection. nowrap.
  destruct d; simpl; rewrite ?decrease_spec, ?increase_spec by lia; lia.
Qed.

Lemma moveToward_in_arena p q speed :
  in_u32 speed → in_arena width height p → in_arena width height q →
  in_arena width height (moveToward p q speed width height).
Proof using Hext.
  unfold in_arena, arena_extents in *. intros Hs Hp Hq. unfold moveToward; simpl. nowrap.
  rewrite !stepToward_spec by lia. repeat split_if; to_prop; lia.
Qed.

(** A chaser gains exactly its speed per step, until it stands on the target. *)
Lemma moveToward_chebyshev p q speed :
  in_u32 speed → in_arena width height p → in_arena width height q →
  chebyshev (moveToward p q speed width height) q = Z.max 0 (chebyshev p q - speed).
Proof using Hext.
  unfold in_arena, arena_extents, chebyshev in *. intros Hs Hp Hq.
  unfold moveToward; simpl. nowrap.
  rewrite !stepToward_spec by lia. repeat split_if; to_prop; lia.
Qed.
End movement.

#[export] Hint Resolve moveInDirection_in_arena moveToward_in_arena : snf.

(** [n] consecutive steps toward a target that stands still. *)
Fixpoint chase (n : nat) (p q : ArenaPosition) (speed width height : Z) : ArenaPosition :=
  match n with
  | O => p
  | S n' => chase n' (moveToward p q speed width height) q speed width height
  end.

Lemma chase_chebyshev n p q speed width height :
  arena_extents width height → in_u32 speed →
  in_arena width height p → in_arena width height q →
  chebyshev (chase n p q speed width height) q
  = Z.max 0 (chebyshev p q - Z.of_nat n * speed).
Proof.
  intros He Hs Hp Hq. revert p Hp. induction n as [|n IH]; intros p Hp.
  - simpl. unfold chebyshev. lia.
  - cbn [chase]. rewrite IH by auto using moveToward_in_arena.
    rewrite moveToward_chebyshev by done. lia.
Qed.

(** ** Distances are exact *)

Lemma squaredDistance_exact p q :
  u32_position p → u32_position q →
  squaredDistance p q = Z.min U64_MAX (exact_distance2 p q).
Proof.
  unfold u32_position, squaredDistance, exact_distance2. intros [Hpx Hpy] [Hqx Hqy].
  assert (Hdelta : ∀ a b, in_u32 a → in_u32 b →
    (if a <? b then u64 (b - a) else u64 (a - b)) = Z.abs (a - b)).
  { intros a b Ha Hb. split_if; to_prop; rewrite u64_small; lia. }
  rewrite !Hdelta by done.
  set (dx := Z.abs _). set (dy := Z.abs (pos_y p - pos_y q)).
  replace ((pos_x p - pos_x q) ^ 2) with (dx * dx) by (unfold dx; lia).
  replace ((pos_y p - pos_y q) ^ 2) with (dy * dy) by (unfold dy; lia).
  assert (0 <= dx <= U32_MAX) by lia. assert (0 <= dy <= U32_MAX) by lia.
  assert (0 <= dx * dx <= U32_MAX * U32_MAX) by nia.
  assert (0 <= dy * dy <= U32_MAX * U32_MAX) by nia.
  rewrite !(u64_small (dx * dx)), !(u64_small (dy * dy)), (u64_small (U64_MAX - _)) by lia.
  split_if; to_prop; [lia|]. rewrite u64_small; lia.
Qed.

(** Despite the saturation, the range test is the exact geometric one. *)
Lemma isWithinRange_spec p q range :
  u32_position p → u32_position q → in_u32 range →
  isWithinRange p q range = true ↔ exact_distance2 p q <= range ^ 2.
Proof.
  intros Hp Hq Hr. unfold isWithinRange. rewrite squaredDistance_exact by done.
  assert (0 <= range * range <= U32_MAX * U32_MAX) by nia.
  rewrite u64_small by lia. rewrite Z.leb_le, Z.pow_2_r. lia.
Qed.

Lemma squaredDistance_sym p q :
  u32_position p → u32_position q → squaredDistance p q = squaredDistance q p.
Proof.
  intros. rewrite !squaredDistance_exact by done. unfold exact_distance2. f_equal. lia.
Qed.

Lemma in_arena_u32 width height p :
  arena_extents width height → in_arena width height p → u32_position p.
Proof. unfold arena_extents, in_arena, u32_position. lia. Qed.

#[export] Hint Resolve in_arena_u32 : snf.

(** ** Spawn formations fit the arena *)

Lemma productQuotient_exact value multiplier divisor :
  0 < divisor → 0 <= value → 0 <= multiplier < divisor → divisor * value <= U64_MAX →
  productQuotient value multiplier divisor = value * multiplier / divisor.
Proof.
  intros Hd Hv Hm Hb. unfold productQuotient.
  pose proof (Z.div_mod value divisor ltac:(lia)) as Hdm.
  pose proof (Z.mod_pos_bound value divisor Hd) as Hr.
  set (q := value / divisor) in *. set (r := value mod divisor) in *.
  assert (0 <= q) by (apply Z.div_pos; lia).
  assert (0 <= q * multiplier <= value) by nia.
  assert (0 <= r * multiplier <= divisor * value).
  { destruct (decide (q = 0)) as [Hq|Hq]; [rewrite Hq in *; nia|nia]. }
  rewrite (u64_small (q * multiplier)), (u64_small (r * multiplier)) by nia.
  rewrite Hdm at 1.
  replace ((divisor * q + r) * multiplier) with (r * multiplier + (q * multiplier) * divisor) by ring.
  rewrite Z.div_add by lia. rewrite Z.add_comm.
  rewrite u64_small; [done|].
  assert (r * multiplier / divisor <= r) by (apply Z.div_le_upper_bound; nia).
  assert (0 <= r * multiplier / divisor) by (apply Z.div_pos; nia).
  nia.
Qed.

(** The quotient stays below [value] for every index of the formation, even
    where the intermediate product wraps. *)
Lemma productQuotient_lt value multiplier divisor :
  0 < value <= U64_MAX → 0 <= multiplier < divisor →
  0 <= productQuotient value multiplier divisor < value.
Proof.
  intros Hv Hm. unfold productQuotient.
  pose proof (Z.div_mod value divisor ltac:(lia)) as Hdm.
  pose proof (Z.mod_pos_bound value divisor ltac:(lia)) as Hr.
  set (q := value / divisor) in *. set (r := value mod divisor) in *.
  assert (0 <= q) by (apply Z.div_pos; lia).
  assert (0 <= q * multiplier <= value) by nia.
  rewrite (u64_small (q * multiplier)) by lia.
  assert (Hw : 0 <= u64 (r * multiplier) <= r * multiplier).
  { split; [apply u64_range|]. apply Z.mod_le; nia. }
  set (t := u64 (r * multiplier) / divisor).
  assert (0 <= t) by (apply Z.div_pos; lia).
  assert (t * divisor <= r * multiplier).
  { pose proof (Z.mul_div_le (u64 (r * multiplier)) divisor ltac:(lia)). unfold t. lia. }
  assert (q * multiplier + t < value) by nia.
  rewrite u64_small; lia.
Qed.

(** The spawn radius [Room::Room] accepts: the square around the centre fits. *)
Definition radius_fits (width height radius : Z) : Prop :=
  0 < radius ∧ radius <= width / 2 ∧ radius <= height / 2 ∧
  radius <= width - 1 - width / 2 ∧ radius <= height - 1 - height / 2.

Definition arena_center (width height : Z) : ArenaPosition := mkArenaPosition (width / 2) (height / 2).

Lemma squarePerimeterPosition_on_square index count width height radius :
  arena_extents width height → radius_fits width height radius → 0 <= index < count →
  in_arena width height (squarePerimeterPosition index count width height radius) ∧
  chebyshev (squarePerimeterPosition index count width height radius) (arena_center width height) = radius.
Proof.
  unfold arena_extents, radius_fits. intros He Hr Hi.
  unfold squarePerimeterPosition, in_arena, chebyshev, arena_center.
  assert (0 <= width / 2 <= width) by (split; [apply Z.div_pos|apply Z.div_le_upper_bound]; lia).
  assert (0 <= height / 2 <= height) by (split; [apply Z.div_pos|apply Z.div_le_upper_bound]; lia).
  set (cx := width / 2) in *. set (cy := height / 2) in *.
  rewrite (u64_small (radius * 8)) by lia.
  pose proof (productQuotient_lt (radius * 8) index count ltac:(lia) ltac:(lia)) as Ho.
  set (o := productQuotient _ _ _) in *. clearbody o cx cy.
  rewrite (u64_small (radius * 3)), (u64_small (radius * 5)), (u64_small (radius * 7)) by lia.
  repeat split_if; to_prop; simpl; nowrap; lia.
Qed.

(** The formation [Room::Room] accepts for up to [max] participants. *)
Definition formation_fits (width max spacing : Z) : Prop :=
  0 < spacing ∧ 0 < max ∧ spacing * (max - 1) <= U64_MAX ∧
  spacing * (max - 1) / 2 <= width / 2 ∧
  width / 2 - spacing * (max - 1) / 2 + spacing * (max - 1) < width.

Lemma centeredParticipantPosition_fits index count max width height spacing :
  arena_extents width height → formation_fits width max spacing →
  0 <= index < count → count <= max →
  centeredParticipantPosition index count width height spacing
  = mkArenaPosition (width / 2 - spacing * (count - 1) / 2 + spacing * index) (height / 2) ∧
  in_arena width height (centeredParticipantPosition index count width height spacing).
Proof.
  unfold arena_extents, formation_fits. intros He (Hs & Hm & Hsm & Hf1 & Hf2) Hi Hc.
  assert (0 <= spacing * (count - 1) <= spacing * (max - 1)) by nia.
  assert (0 <= spacing * index <= spacing * (count - 1)) by nia.
  assert (count - 1 <= U64_MAX) by nia.
  unfold centeredParticipantPosition, in_arena.
  rewrite (u64_small (count - 1)) by lia.
  rewrite (u64_small (spacing * (count - 1))), (u64_small (spacing * index)) by lia.
  set (s := spacing * (count - 1)) in *. set (m := spacing * (max - 1)) in *.
  set (k := spacing * index) in *. clearbody s m k.
  assert (s / 2 <= m / 2) by (apply Z.div_le_mono; lia).
  pose proof (Z.div_mod s 2 ltac:(lia)). pose proof (Z.mod_pos_bound s 2 ltac:(lia)).
  pose proof (Z.div_mod m 2 ltac:(lia)). pose proof (Z.mod_pos_bound m 2 ltac:(lia)).
  pose proof (Z.div_mod width 2 ltac:(lia)). pose proof (Z.mod_pos_bound width 2 ltac:(lia)).
  pose proof (Z.div_mod height 2 ltac:(lia)). pose proof (Z.mod_pos_bound height 2 ltac:(lia)).
  nowrap. split; [done|simpl; lia].
Qed.

Lemma bossSpawnPosition_in_arena width height :
  arena_extents width height → in_arena width height (bossSpawnPosition width).
Proof.
  unfold arena_extents, in_arena; simpl. intros.
  pose proof (Z.div_mod width 2 ltac:(lia)). pose proof (Z.mod_pos_bound width 2 ltac:(lia)). lia.
Qed.

#[export] Hint Resolve bossSpawnPosition_in_arena : snf.

(** ** Properties *)

(** A player's move in any direction and an enemy's or projectile's step
    toward a target both keep a position of the arena inside the arena, for
    every speed and every arena the room accepts. *)
Theorem movement_stays_in_arena width height p q d speed :
  arena_extents width height → in_u32 speed →
  in_arena width height p → in_arena width height q →
  in_arena width height (moveInDirection p d speed width height) ∧
  in_arena width height (moveToward p q speed width height).
Proof. auto with snf. Qed.

Lemma movement_stays_in_arena_witness :
  in_arena 100 100 (moveInDirection (mkArenaPosition 98 1) NorthEast 4 100 100) ∧
  in_arena 100 100 (moveToward (mkArenaPosition 98 1) (mkArenaPosition 0 99) 4 100 100).
Proof.
  apply (movement_stays_in_arena 100 100 (mkArenaPosition 98 1) (mkArenaPosition 0 99) NorthEast 4);
    unfold arena_extents, in_arena; simpl; lia.
Defined.

(** A chaser of positive speed stands on a target that does not move
    after [ceil (chebyshev p q / speed)] steps, and on no earlier step: the
    homing loop makes progress of exactly its speed at every step. *)
Theorem chase_reaches_target width height p q speed n :
  arena_extents width height → 0 < speed <= U32_MAX →
  in_arena width height p → in_arena width height q →
  chase n p q speed width height = q ↔ chebyshev p q <= Z.of_nat n * speed.
Proof.
  intros He Hs Hp Hq.
  pose proof (chase_chebyshev n p q speed width height He ltac:(lia) Hp Hq) as Hc.
  transitivity (chebyshev (chase n p q speed width height) q = 0); [|lia].
  unfold chebyshev in *. destruct (chase n p q speed width height) as [cx cy], q as [qx qy].
  simpl in *. split; [intros [= -> ->]; lia|]. intros. f_equal; lia.
Qed.

Lemma chase_reaches_target_witness :
  chase 3 (mkArenaPosition 10 10) (mkArenaPosition 20 13) 4 100 100 = mkArenaPosition 20 13.
Proof.
  apply (chase_reaches_target 100 100 (mkArenaPosition 10 10) (mkArenaPosition 20 13) 4 3);
    unfold arena_extents, in_arena, chebyshev; simpl; lia.
Defined.

(** The saturating 64-bit distance never distorts a range test: for all
    32-bit coordinates and ranges [isWithinRange] decides the exact Euclidean
    comparison, and it is symmetric in its two positions. *)
Theorem range_test_exact p q range :
  u32_position p → u32_position q → in_u32 range →
  isWithinRange p q range = bool_decide (exact_distance2 p q <= range ^ 2) ∧
  isWithinRange p q range = isWithinRange q p range.
Proof.
  intros Hp Hq Hr. split.
  - apply eq_true_iff_eq. rewrite bool_decide_eq_true. by apply isWithinRange_spec.
  - unfold isWithinRange. by rewrite squaredDistance_sym.
Qed.

Lemma range_test_exact_witness :
  isWithinRange (mkArenaPosition 0 0) (mkArenaPosition U32_MAX U32_MAX) U32_MAX
  = bool_decide (exact_distance2 (mkArenaPosition 0 0) (mkArenaPosition U32_MAX U32_MAX) <= U32_MAX ^ 2).
Proof.
  apply (range_test_exact (mkArenaPosition 0 0) (mkArenaPosition U32_MAX U32_MAX) U32_MAX);
    unfold u32_position; simpl; lia.
Defined.

(** Every spawn point of an accepted configuration lies inside the
    arena; minions stand exactly on the square of the spawn radius around the
    centre, and neighbouring participants stand exactly [spacing] apart. *)
Theorem spawn_formations_fit index count max width height spacing radius :
  arena_extents width height → radius_fits width height radius →
  formation_fits width max spacing → 0 <= index < count → count <= max →
  let minion := squarePerimeterPosition index count width height radius in
  let seat := centeredParticipantPosition index count width height spacing in
  in_arena width height minion ∧
  chebyshev minion (arena_center width height) = radius ∧
  in_arena width height seat ∧
  pos_x seat = pos_x (centeredParticipantPosition 0 count width height spacing) + spacing * index ∧
  in_arena width height (bossSpawnPosition width).
Proof.
  intros He Hr Hf Hi Hc minion seat.
  destruct (squarePerimeterPosition_on_square index count width height radius He Hr Hi).
  destruct (centeredParticipantPosition_fits index count max width height spacing He Hf Hi Hc) as [Hs ?].
  destruct (centeredParticipantPosition_fits 0 count max width height spacing He Hf ltac:(lia) Hc) as [Hz _].
  split_and!; [done..| |by apply bossSpawnPosition_in_arena].
  unfold seat. rewrite Hs, Hz. simpl. lia.
Qed.

Lemma spawn_formations_fit_witness :
  in_arena 100 100 (squarePerimeterPosition 3 4 100 100 25).
Proof.
  apply (spawn_formations_fit 3 4 4 100 100 4 25);
    unfold arena_extents, radius_fits, formation_fits; vm_compute; intuition discriminate.
Defined.
