(* ===== verification/Skills.v ===== *)
(** * Static game data and skill loadouts

    Models [src/src/game/skill_catalog.cppm] (the skill catalogue and damage),
    [src/src/game/skill_loadout.cpp] (owned and equipped skills),
    [src/src/game/street_progression.cpp] (levels and combat stats) and
    [src/src/game/product_catalog.cpp] (the shop).  The one-field id structs
    [SkillId] and [ProductId] are their 32-bit values. *)

From S2P Require Import Prelude.

Abbreviation SkillId := Z (only parsing).
Definition SLASH_SKILL_ID : SkillId := 1.
Definition ARCANE_BOLT_SKILL_ID : SkillId := 2.

(** ** Street progression *)

Definition EXPERIENCE_PER_STREET_LEVEL := 1000.
Definition MAX_STREET_LEVEL := 30.
Definition BASE_ATTACK := 10.
Definition BASE_HEALTH := 100.
Definition STAT_GROWTH_NUMERATOR := 1.
Definition STAT_GROWTH_DENOMINATOR := 10.

Record CombatStats := mkCombatStats { stat_attack : Z; stat_health : Z }.

#[export] Instance CombatStats_eq_dec : EqDecision CombatStats.
Proof. solve_decision. Defined.

Definition grown (base levels_gained : Z) : Z :=
  u64 (base + u64 (u64 (levels_gained * base) * STAT_GROWTH_NUMERATOR) / STAT_GROWTH_DENOMINATOR).

Definition streetLevel (experience : Z) : Z :=
  Z.min (u64 (experience / EXPERIENCE_PER_STREET_LEVEL + 1)) MAX_STREET_LEVEL.

(** [std::clamp (level, 1, MAX_STREET_LEVEL)]. *)
Definition clamp_level (level : Z) : Z :=
  if level <? 1 then 1 else if MAX_STREET_LEVEL <? level then MAX_STREET_LEVEL else level.

Definition combatStats (level : Z) : CombatStats :=
  let levels_gained := u64 (clamp_level level - 1) in
  mkCombatStats (grown BASE_ATTACK levels_gained) (grown BASE_HEALTH levels_gained).

(** ** Skill catalogue *)

Inductive AttackBehavior :=
| AreaAttackBehavior (attack_percent range : Z)
| HomingProjectileAttackBehavior
    (attack_percent acquisition_range speed_per_tick hit_range : Z) (lifetime : milliseconds).

Record SkillDefinition := mkSkillDefinition {
  skill_id : SkillId;
  skill_cooldown : milliseconds;
  skill_behavior : AttackBehavior
}.

Definition SLASH := SLASH_SKILL_ID.
Definition SLASH_ATTACK_PERCENT := 100.
Definition SLASH_COOLDOWN : milliseconds := 1000.
Definition SLASH_RANGE := 12.
Definition ARCANE_BOLT := ARCANE_BOLT_SKILL_ID.
Definition ARCANE_BOLT_ATTACK_PERCENT := 160.
Definition ARCANE_BOLT_COOLDOWN : milliseconds := 1500.
Definition ARCANE_BOLT_ACQUISITION_RANGE := 40.
Definition ARCANE_BOLT_SPEED_PER_TICK := 4.
Definition ARCANE_BOLT_HIT_RANGE := 1.
Definition ARCANE_BOLT_LIFETIME : milliseconds := 3000.
Definition ATTACK_PERCENT_DENOMINATOR := 100.

Definition makeSlash : SkillDefinition :=
  mkSkillDefinition SLASH SLASH_COOLDOWN (AreaAttackBehavior SLASH_ATTACK_PERCENT SLASH_RANGE).

Definition makeArcaneBolt : SkillDefinition :=
  mkSkillDefinition ARCANE_BOLT ARCANE_BOLT_COOLDOWN
    (HomingProjectileAttackBehavior ARCANE_BOLT_ATTACK_PERCENT ARCANE_BOLT_ACQUISITION_RANGE
       ARCANE_BOLT_SPEED_PER_TICK ARCANE_BOLT_HIT_RANGE ARCANE_BOLT_LIFETIME).

Definition findDefinition (id : SkillId) : option SkillDefinition :=
  if id =? SLASH then Some makeSlash
  else if id =? ARCANE_BOLT then Some makeArcaneBolt
  else None.

Definition findSkill (id : SkillId) : option SkillDefinition := findDefinition id.

Definition behavior_attack_percent (b : AttackBehavior) : Z :=
  match b with
  | AreaAttackBehavior p _ => p
  | HomingProjectileAttackBehavior p _ _ _ _ => p
  end.

Definition calculateSkillDamage (skill : SkillDefinition) (attack : Z) : Z :=
  u64 (attack * behavior_attack_percent (skill_behavior skill)) / ATTACK_PERCENT_DENOMINATOR.

(** ** Product catalogue *)

Abbreviation ProductId := Z (only parsing).
Definition BASIC_PRODUCT : ProductId := 1.
Definition BASIC_PRODUCT_PRICE := 100.
Definition BASIC_PRODUCT_GRANT_COUNT := 1.
Definition ARCANE_BOLT_PRODUCT : ProductId := 2.
Definition ARCANE_BOLT_PRODUCT_PRICE := 500.
Definition INITIAL_CURRENCY_BALANCE := 1000.

Inductive ProductReward :=
| AddPurchasedItemCountReward (item_count : Z)
| AddOwnedSkillReward (skill : SkillId).

Record ProductDefinition := mkProductDefinition {
  product_id : ProductId;
  product_price : Z;
  product_reward : ProductReward
}.

Definition findProduct (product : ProductId) : option ProductDefinition :=
  if product =? BASIC_PRODUCT then
    Some (mkProductDefinition BASIC_PRODUCT BASIC_PRODUCT_PRICE
            (AddPurchasedItemCountReward BASIC_PRODUCT_GRANT_COUNT))
  else if product =? ARCANE_BOLT_PRODUCT then
    Some (mkProductDefinition ARCANE_BOLT_PRODUCT ARCANE_BOLT_PRODUCT_PRICE
            (AddOwnedSkillReward ARCANE_BOLT_SKILL_ID))
  else None.

(** ** Skill loadout *)

Inductive AddOwnedSkillResult := Added | AlreadyOwned | AddUnknownSkill.

Inductive EquipSkillResult := Equipped | AlreadyEquipped | SkillNotOwned | EquipUnknownSkill.

Record SkillLoadout := mkSkillLoadout {
  owned_skill_ids : list SkillId;
  equipped_skill_id : SkillId
}.

#[export] Instance SkillLoadout_eq_dec : EqDecision SkillLoadout.
Proof. solve_decision. Defined.

(** [SkillLoadout::SkillLoadout()]. *)
Definition defaultLoadout : SkillLoadout := mkSkillLoadout [SLASH] SLASH.

Definition is_known (id : SkillId) : bool := has_value (findSkill id).

Definition hasOwnedSkillId (l : SkillLoadout) (id : SkillId) : bool :=
  has_value (find_sorted (fun s => s) id (owned_skill_ids l)).

(** The validation loop of the constructor: [previous] is the element before
    the current one, [None] at index 0. *)
Fixpoint check_owned (previous : option SkillId) (ids : list SkillId) : outcome unit :=
  match ids with
  | [] => Ret tt
  | id :: rest =>
      if negb (is_known id) then Throw InvalidArgument
      else if match previous with Some p => p =? id | None => false end then Throw InvalidArgument
      else check_owned (Some id) rest
  end.

(** [SkillLoadout::SkillLoadout(std::vector<SkillId>, SkillId)]. *)
Definition makeLoadout (owned : list SkillId) (equipped : SkillId) : outcome SkillLoadout :=
  let ids := merge_sort (≤) owned in
  match ids with
  | [] => Throw InvalidArgument
  | _ =>
      let! _ := check_owned None ids in
      let loadout := mkSkillLoadout ids equipped in
      if negb (hasOwnedSkillId loadout equipped) then Throw InvalidArgument else Ret loadout
  end.

Definition addOwnedSkillId (l : SkillLoadout) (id : SkillId) : AddOwnedSkillResult * SkillLoadout :=
  if negb (is_known id) then (AddUnknownSkill, l)
  else if hasOwnedSkillId l id then (AlreadyOwned, l)
  else
    let position := lower_bound (fun s => s) id (owned_skill_ids l) in
    (Added, mkSkillLoadout (insert_at position id (owned_skill_ids l)) (equipped_skill_id l)).

Definition equipSkillId (l : SkillLoadout) (id : SkillId) : EquipSkillResult * SkillLoadout :=
  if negb (is_known id) then (EquipUnknownSkill, l)
  else if negb (hasOwnedSkillId l id) then (SkillNotOwned, l)
  else if equipped_skill_id l =? id then (AlreadyEquipped, l)
  else (Equipped, mkSkillLoadout (owned_skill_ids l) id).

(** ** Progression is monotone, bounded and free of overflow *)

Lemma grown_exact base levels :
  0 <= base <= 1000 → 0 <= levels <= 1000 →
  grown base levels = base + levels * base / 10.
Proof.
  intros Hb Hl. unfold grown, STAT_GROWTH_NUMERATOR, STAT_GROWTH_DENOMINATOR.
  assert (0 <= levels * base <= 1000000) by nia.
  rewrite (u64_small (levels * base)) by lia. rewrite Z.mul_1_r, (u64_small (levels * base)) by lia.
  assert (0 <= levels * base / 10 <= 1000000).
  { split; [apply Z.div_pos; lia|apply Z.div_le_upper_bound; lia]. }
  rewrite u64_small; lia.
Qed.

Lemma streetLevel_range e : in_u64 e → 1 <= streetLevel e <= MAX_STREET_LEVEL.
Proof.
  intros He. unfold streetLevel, EXPERIENCE_PER_STREET_LEVEL, MAX_STREET_LEVEL.
  assert (0 <= e / 1000 <= e) by (split; [apply Z.div_pos; lia|apply Z.div_le_upper_bound; lia]).
  pose proof (Z.div_mod e 1000 ltac:(lia)). pose proof (Z.mod_pos_bound e 1000 ltac:(lia)).
  rewrite u64_small; lia.
Qed.

Lemma combatStats_exact level :
  1 <= level <= MAX_STREET_LEVEL →
  combatStats level = mkCombatStats (10 + (level - 1)) (100 + 10 * (level - 1)).
Proof.
  unfold MAX_STREET_LEVEL. intros Hl. unfold combatStats, clamp_level, MAX_STREET_LEVEL.
  rewrite (proj2 (Z.ltb_ge _ _)), (proj2 (Z.ltb_ge _ _)) by lia.
  rewrite u64_small by lia. unfold BASE_ATTACK, BASE_HEALTH.
  rewrite !grown_exact by lia. rewrite Z.div_mul by lia.
  f_equal. replace ((level - 1) * 100) with ((level - 1) * 10 * 10) by lia.
  rewrite Z.div_mul; lia.
Qed.

(** ** Loadout invariant *)

(** What [BY_SKILL_ID] lookups rely on and the constructor establishes. *)
Record loadout_ok (l : SkillLoadout) : Prop := {
  lo_sorted : sorted_by (fun s => s) (owned_skill_ids l);
  lo_known : Forall (fun s => is_known s = true) (owned_skill_ids l);
  lo_equipped : equipped_skill_id l ∈ owned_skill_ids l
}.

Lemma has_value_Some {A} (o : option A) : has_value o = true ↔ is_Some o.
Proof. destruct o; simpl; split; [eauto|done|done|]. by intros [? ?]. Qed.

Lemma hasOwnedSkillId_spec l id :
  sorted_by (fun s => s) (owned_skill_ids l) →
  hasOwnedSkillId l id = true ↔ id ∈ owned_skill_ids l.
Proof.
  intros Hs. unfold hasOwnedSkillId. rewrite has_value_Some. split.
  - intros [s E]. apply find_sorted_spec in E as [? ->]; done.
  - intros Hin. exists id. by apply find_sorted_spec.
Qed.

Lemma check_owned_spec prev ids :
  StronglySorted Z.le ids → Forall (fun s => match prev with Some p => p <= s | None => True end) ids →
  check_owned prev ids = Ret tt ↔
  Forall (fun s => is_known s = true) ids ∧ sorted_by (fun s => s) ids ∧
  Forall (fun s => match prev with Some p => p < s | None => True end) ids.
Proof.
  intros Hs. revert prev. induction Hs as [|id ids Hs IH Hid]; intros prev Hp; simpl.
  { split; [repeat split; constructor|done]. }
  apply Forall_cons in Hp as [Hp1 Hp2]. rewrite !Forall_cons, StronglySorted_cons.
  destruct (is_known id) eqn:Ek; simpl; [|naive_solver].
  specialize (IH (Some id) Hid). simpl in IH.
  destruct prev as [p|].
  - destruct (p =? id) eqn:Epi; to_prop; [subst; split; [done|lia]|].
    rewrite IH. split; intros; destruct_and?; split_and?; try done; try lia.
    eapply Forall_impl; [done|]. simpl; intros; lia.
  - rewrite IH. naive_solver.
Qed.

Lemma sorted_NoDup (l : list SkillId) : sorted_by (fun s => s) l → NoDup l.
Proof.
  induction 1 as [|s l Hs IH Hall]; constructor; [|done].
  rewrite Forall_forall in Hall. intros Hin. specialize (Hall s Hin). lia.
Qed.

Lemma makeLoadout_spec owned equipped l :
  makeLoadout owned equipped = Ret l ↔
  owned ≠ [] ∧ NoDup owned ∧ Forall (fun s => is_known s = true) owned ∧
  equipped ∈ owned ∧ l = mkSkillLoadout (merge_sort (≤) owned) equipped.
Proof.
  unfold makeLoadout.
  pose proof (merge_sort_Permutation (≤) owned) as Hp.
  pose proof (StronglySorted_merge_sort (≤) owned) as Hs.
  pose proof (check_owned_spec None (merge_sort (≤) owned) Hs) as Hc.
  specialize (Hc (proj2 (Forall_forall _ _) (fun _ _ => I))).
  assert (Hne : owned = [] ↔ merge_sort (≤) owned = []).
  { split; intros E; [by rewrite E|]. rewrite E in Hp. by apply Permutation_nil in Hp. }
  assert (Hnd : sorted_by (fun s => s) (merge_sort (≤) owned) ↔ NoDup owned).
  { split; [|apply merge_sort_strict]. intros Hst%sorted_NoDup. by rewrite Hp in Hst. }
  assert (Hk : Forall (fun s => is_known s = true) (merge_sort (≤) owned)
               ↔ Forall (fun s => is_known s = true) owned) by (by rewrite Hp).
  assert (Hin : ∀ e, e ∈ merge_sort (≤) owned ↔ e ∈ owned) by (intros e; by rewrite Hp).
  destruct (merge_sort (≤) owned) as [|i ids] eqn:Em; [naive_solver|].
  rewrite <-Em in *. destruct (check_owned None _) as [[]|e] eqn:Ec.
  - simpl. destruct (proj1 Hc eq_refl) as (Hkn & Hst & _).
    pose proof (hasOwnedSkillId_spec (mkSkillLoadout (merge_sort (≤) owned) equipped) equipped Hst) as Ho.
    simpl in Ho. destruct (hasOwnedSkillId _ _); simpl.
    + split; [intros [= <-]|naive_solver]. rewrite Em in Hne. split_and!; naive_solver.
    + split; [done|]. intros (? & ? & ? & Hi & ?). apply Hin, Ho in Hi. done.
  - simpl. split; [done|]. intros (? & Hnd' & Hk' & ? & ?).
    apply proj2 in Hc. unshelve epose proof (Hc _) as Hc'; [|congruence].
    split_and!; [by apply Hk|by apply Hnd|by apply Forall_true].
Qed.

Lemma makeLoadout_ok owned equipped l : makeLoadout owned equipped = Ret l → loadout_ok l.
Proof.
  intros (_ & Hnd & Hk & He & ->)%makeLoadout_spec. constructor; simpl.
  - by apply merge_sort_strict.
  - by rewrite merge_sort_Permutation.
  - by rewrite merge_sort_Permutation.
Qed.

Lemma defaultLoadout_ok : loadout_ok defaultLoadout.
Proof. constructor; simpl; [repeat constructor|by repeat constructor|set_solver]. Qed.

Lemma addOwnedSkillId_spec l id :
  loadout_ok l →
  let '(result, l') := addOwnedSkillId l id in
  loadout_ok l' ∧ equipped_skill_id l' = equipped_skill_id l ∧
  match result with
  | Added => is_known id = true ∧ id ∉ owned_skill_ids l ∧ owned_skill_ids l' ≡ₚ id :: owned_skill_ids l
  | AlreadyOwned => id ∈ owned_skill_ids l ∧ l' = l
  | AddUnknownSkill => is_known id = false ∧ l' = l
  end.
Proof.
  intros [Hs Hk He]. unfold addOwnedSkillId.
  destruct (is_known id) eqn:Ek; simpl; [|by repeat split].
  pose proof (hasOwnedSkillId_spec l id Hs) as Ho. destruct (hasOwnedSkillId l id).
  { split_and!; try done. by apply Ho. }
  assert (Hn : id ∉ owned_skill_ids l) by (intros Hin; by apply Ho in Hin).
  split_and!; try done; simpl; [|apply insert_at_perm].
  constructor; simpl.
  - apply (insert_at_sorted (fun s => s) id (owned_skill_ids l)); [done|].
    apply Forall_forall. by intros s Hin ->.
  - rewrite insert_at_perm. by constructor.
  - rewrite insert_at_perm. by right.
Qed.

Lemma equipSkillId_spec l id :
  loadout_ok l →
  let '(result, l') := equipSkillId l id in
  loadout_ok l' ∧ owned_skill_ids l' = owned_skill_ids l ∧
  match result with
  | Equipped => id ∈ owned_skill_ids l ∧ equipped_skill_id l ≠ id ∧ equipped_skill_id l' = id
  | AlreadyEquipped => equipped_skill_id l = id ∧ l' = l
  | SkillNotOwned => id ∉ owned_skill_ids l ∧ l' = l
  | EquipUnknownSkill => is_known id = false ∧ l' = l
  end.
Proof.
  intros Hok. pose proof Hok as [Hs Hk He]. unfold equipSkillId.
  destruct (is_known id) eqn:Ek; simpl; [|by repeat split].
  pose proof (hasOwnedSkillId_spec l id Hs) as Ho.
  destruct (hasOwnedSkillId l id); simpl.
  - assert (id ∈ owned_skill_ids l) by (by apply Ho).
    split_if; to_prop; [done|]. split_and!; done || by constructor.
  - split_and!; try done. intros Hin. by apply Ho in Hin.
Qed.

(** ** Properties *)

(** The constructor accepts exactly the loadouts that own at least one
    skill, own no skill twice, own only catalogue skills and equip an owned
    one; it stores the owned skills sorted, which is what later binary
    searches rely on. *)
Theorem makeLoadout_accepts owned equipped l :
  makeLoadout owned equipped = Ret l ↔
  owned ≠ [] ∧ NoDup owned ∧ Forall (fun s => is_known s = true) owned ∧ equipped ∈ owned ∧
  loadout_ok l ∧ owned_skill_ids l ≡ₚ owned ∧ equipped_skill_id l = equipped.
Proof.
  split.
  - intros H. pose proof (makeLoadout_ok _ _ _ H) as Hok.
    apply makeLoadout_spec in H as (?&?&?&?&->). split_and!; try done. apply merge_sort_Permutation.
  - intros (?&?&?&?&Hok&Hp&<-). apply makeLoadout_spec. split_and!; try done.
    destruct l as [ids e]; simpl in *. f_equal.
    apply (StronglySorted_unique (≤)); [|apply (StronglySorted_merge_sort (≤))|].
    + eapply StronglySorted_weaken; [|apply Hok]. simpl; intros; lia.
    + by rewrite merge_sort_Permutation.
Qed.

(** Adding and equipping skills keep a loadout well formed (sorted,
    duplicate-free, catalogue skills only, the equipped skill owned), report
    the true reason of every refusal, and change nothing when they refuse. *)
Theorem loadout_operations_sound l id :
  loadout_ok l →
  (let '(result, l') := addOwnedSkillId l id in
   loadout_ok l' ∧ equipped_skill_id l' = equipped_skill_id l ∧
   match result with
   | Added => is_known id = true ∧ id ∉ owned_skill_ids l ∧ owned_skill_ids l' ≡ₚ id :: owned_skill_ids l
   | AlreadyOwned => id ∈ owned_skill_ids l ∧ l' = l
   | AddUnknownSkill => is_known id = false ∧ l' = l
   end) ∧
  (let '(result, l') := equipSkillId l id in
   loadout_ok l' ∧ owned_skill_ids l' = owned_skill_ids l ∧
   match result with
   | Equipped => id ∈ owned_skill_ids l ∧ equipped_skill_id l ≠ id ∧ equipped_skill_id l' = id
   | AlreadyEquipped => equipped_skill_id l = id ∧ l' = l
   | SkillNotOwned => id ∉ owned_skill_ids l ∧ l' = l
   | EquipUnknownSkill => is_known id = false ∧ l' = l
   end).
Proof. split; [by apply addOwnedSkillId_spec|by apply equipSkillId_spec]. Qed.

Lemma loadout_operations_sound_witness :
  loadout_ok (addOwnedSkillId defaultLoadout ARCANE_BOLT).2 ∧
  owned_skill_ids (addOwnedSkillId defaultLoadout ARCANE_BOLT).2 = [1; 2].
Proof.
  split; [|reflexivity].
  exact (proj1 (proj1 (loadout_operations_sound defaultLoadout ARCANE_BOLT defaultLoadout_ok))).
Defined.

(** For every 64-bit experience total the level is in [1, 30] and grows
    with experience, the stats are exactly linear in the level with no
    overflow, and no catalogue skill used with such stats overflows the
    64-bit damage product. *)
Theorem progression_bounded e e' skill sd :
  in_u64 e → in_u64 e' → e <= e' → findSkill skill = Some sd →
  1 <= streetLevel e <= streetLevel e' ∧ streetLevel e' <= 30 ∧
  combatStats (streetLevel e)
    = mkCombatStats (9 + streetLevel e) (90 + 10 * streetLevel e) ∧
  calculateSkillDamage sd (stat_attack (combatStats (streetLevel e)))
    = (9 + streetLevel e) * behavior_attack_percent (skill_behavior sd) / 100.
Proof.
  intros He He' Hle Hsd.
  pose proof (streetLevel_range e He) as Hl. pose proof (streetLevel_range e' He') as Hl'.
  unfold MAX_STREET_LEVEL in *. rewrite combatStats_exact by (unfold MAX_STREET_LEVEL; lia).
  split_and!; try lia.
  - unfold streetLevel, EXPERIENCE_PER_STREET_LEVEL, MAX_STREET_LEVEL.
    assert (e / 1000 <= e' / 1000) by (apply Z.div_le_mono; lia).
    pose proof (Z.div_mod e 1000 ltac:(lia)). pose proof (Z.mod_pos_bound e 1000 ltac:(lia)).
    pose proof (Z.div_mod e' 1000 ltac:(lia)). pose proof (Z.mod_pos_bound e' 1000 ltac:(lia)).
    nowrap. lia.
  - f_equal; lia.
  - unfold calculateSkillDamage, ATTACK_PERCENT_DENOMINATOR; simpl.
    replace (10 + (streetLevel e - 1)) with (9 + streetLevel e) by lia.
    unfold findSkill, findDefinition in Hsd.
    repeat case_match; simplify_eq; simpl; rewrite u64_small; try done;
      unfold SLASH_ATTACK_PERCENT, ARCANE_BOLT_ATTACK_PERCENT; lia.
Qed.

Lemma progression_bounded_witness :
  calculateSkillDamage makeArcaneBolt (stat_attack (combatStats (streetLevel 29000))) = 62.
Proof.
  destruct (progression_bounded 29000 29000 ARCANE_BOLT makeArcaneBolt) as (_ & _ & _ & ->);
    [lia|lia|lia|reflexivity|reflexivity].
Defined.
