(* ===== verification/Zone.v ===== *)
(** * The Zone: positions, area of interest and route epochs

    Models [src/src/game/zone.cpp], [src/include/snf/game/zone.hpp],
    [zone_command.hpp] and [zone_result.hpp].  The one-field id structs
    [PlayerId] and [ZoneId] are their 64-bit values; the unordered map of
    players is a [gmap]. *)

From S2P Require Import Prelude.

Abbreviation PlayerId := Z (only parsing).
Abbreviation ZoneId := Z (only parsing).

Record ZonePosition := mkZonePosition { zone_x : Z; zone_y : Z }.

#[export] Instance ZonePosition_eq_dec : EqDecision ZonePosition.
Proof. solve_decision. Defined.

Inductive ZoneCommand :=
| EnterZoneCommand (player : PlayerId) (route_epoch : Z) (position : ZonePosition)
| LeaveZoneCommand (player : PlayerId) (route_epoch : Z)
| MoveInZoneCommand (player : PlayerId) (route_epoch : Z) (position : ZonePosition)
| ZoneSimulationTick.

Inductive ZoneCommandStatus :=
| ZoneApplied | AlreadyPresent | PlayerMissing | StaleRoute
| TransitionInProgress | TransferFailed | InRoom.

#[export] Instance ZoneCommandStatus_eq_dec : EqDecision ZoneCommandStatus.
Proof. solve_decision. Defined.

Record ZoneResult := mkZoneResult {
  zr_status : ZoneCommandStatus;
  zr_player : option PlayerId;
  zr_position : option ZonePosition;
  zr_route_epoch : Z;
  zr_tick : Z;
  zr_visible_players : list PlayerId;
  zr_tick_after : option milliseconds
}.

Record ZoneConfig := mkZoneConfig {
  zc_aoi_radius : Z;
  zc_tick_interval : milliseconds
}.

Record Entity := mkEntity { entity_position : ZonePosition; entity_route_epoch : Z }.

Record Zone := mkZone {
  zone_id : ZoneId;
  aoi_radius : Z;
  zone_tick_interval : milliseconds;
  last_tick : Z;
  zone_players : gmap PlayerId Entity
}.

(** [Zone::Zone]. *)
Definition makeZone (zone : ZoneId) (config : ZoneConfig) : outcome Zone :=
  throw_if (zone =? 0) InvalidArgument
  (throw_if (zc_aoi_radius config <? 0) InvalidArgument
  (throw_if (zc_tick_interval config <=? 0) InvalidArgument
  (Ret (mkZone zone (zc_aoi_radius config) (zc_tick_interval config) 0 ∅)))).

Definition with_players (z : Zone) (players : gmap PlayerId Entity) : Zone :=
  mkZone (zone_id z) (aoi_radius z) (zone_tick_interval z) (last_tick z) players.

Definition playerCount (z : Zone) : Z := Z.of_nat (base.size (zone_players z)).

Definition positionOf (z : Zone) (player : PlayerId) : option ZonePosition :=
  entity_position <$> zone_players z !! player.

Definition isVisible (z : Zone) (left right : ZonePosition) : bool :=
  let x := zone_x left - zone_x right in
  let y := zone_y left - zone_y right in
  let radius := aoi_radius z in
  if (radius <? Z.abs x) || (radius <? Z.abs y) then false
  else x * x + y * y <=? radius * radius.

(** The loop of [visiblePlayers] over one enumeration of the map, and the sort
    of what it collected. *)
Definition visible_in (z : Zone) (player : PlayerId) (subject : ZonePosition)
    (order : list (PlayerId * Entity)) : list PlayerId :=
  merge_sort (≤)
    (fst <$> filter (fun entry => entry.1 ≠ player ∧ isVisible z subject (entity_position entry.2) = true) order).

Definition visiblePlayers (z : Zone) (player : PlayerId) : list PlayerId :=
  match zone_players z !! player with
  | None => []
  | Some subject => visible_in z player (entity_position subject) (map_to_list (zone_players z))
  end.

(** The result of a command that found the player but not its route. *)
Definition existing_result (z : Zone) (status : ZoneCommandStatus) (player : PlayerId) (existing : Entity)
    : ZoneResult :=
  mkZoneResult status (Some player) (Some (entity_position existing)) (entity_route_epoch existing)
    (last_tick z) (visiblePlayers z player) None.

Definition applyEnter (z : Zone) (player : PlayerId) (epoch : Z) (position : ZonePosition)
    : ZoneResult * Zone :=
  let was_empty := bool_decide (zone_players z = ∅) in
  let z' := with_players z (<[player := mkEntity position epoch]> (zone_players z)) in
  let tick_after := if was_empty && negb (bool_decide (zone_players z' = ∅))
                    then Some (zone_tick_interval z) else None in
  (mkZoneResult ZoneApplied (Some player) (Some position) epoch (last_tick z')
     (visiblePlayers z' player) tick_after, z').

Definition handleEnter (z : Zone) (player : PlayerId) (epoch : Z) (position : ZonePosition)
    : ZoneResult * Zone :=
  match zone_players z !! player with
  | Some existing =>
      if epoch <? entity_route_epoch existing then (existing_result z StaleRoute player existing, z)
      else if epoch =? entity_route_epoch existing then (existing_result z AlreadyPresent player existing, z)
      else applyEnter z player epoch position
  | None => applyEnter z player epoch position
  end.

Definition handleLeave (z : Zone) (player : PlayerId) (epoch : Z) : ZoneResult * Zone :=
  match zone_players z !! player with
  | None => (mkZoneResult PlayerMissing (Some player) None epoch (last_tick z) [] None, z)
  | Some existing =>
      if negb (epoch =? entity_route_epoch existing) then (existing_result z StaleRoute player existing, z)
      else
        let z' := with_players z (delete player (zone_players z)) in
        (mkZoneResult ZoneApplied (Some player) (Some (entity_position existing)) epoch (last_tick z') [] None, z')
  end.

Definition handleMove (z : Zone) (player : PlayerId) (epoch : Z) (position : ZonePosition)
    : ZoneResult * Zone :=
  match zone_players z !! player with
  | None => (mkZoneResult PlayerMissing (Some player) (Some position) epoch (last_tick z) [] None, z)
  | Some existing =>
      if negb (epoch =? entity_route_epoch existing) then (existing_result z StaleRoute player existing, z)
      else
        let z' := with_players z (<[player := mkEntity position (entity_route_epoch existing)]> (zone_players z)) in
        (mkZoneResult ZoneApplied (Some player) (Some position) epoch (last_tick z')
           (visiblePlayers z' player) None, z')
  end.

Definition handleTick (z : Zone) : ZoneResult * Zone :=
  let z' := mkZone (zone_id z) (aoi_radius z) (zone_tick_interval z) (u64 (last_tick z + 1)) (zone_players z) in
  let tick_after := if bool_decide (zone_players z' = ∅) then None else Some (zone_tick_interval z) in
  (mkZoneResult ZoneApplied None None 0 (last_tick z') [] tick_after, z').

(** [Zone::handle]. *)
Definition zone_handle (z : Zone) (command : ZoneCommand) : ZoneResult * Zone :=
  match command with
  | EnterZoneCommand player epoch position => handleEnter z player epoch position
  | LeaveZoneCommand player epoch => handleLeave z player epoch
  | MoveInZoneCommand player epoch position => handleMove z player epoch position
  | ZoneSimulationTick => handleTick z
  end.

(** ** Visibility *)

Definition i32_position (p : ZonePosition) : Prop := in_i32 (zone_x p) ∧ in_i32 (zone_y p).

Lemma isVisible_spec z p q :
  0 <= aoi_radius z →
  isVisible z p q = true ↔
  (zone_x p - zone_x q) ^ 2 + (zone_y p - zone_y q) ^ 2 <= aoi_radius z ^ 2.
Proof.
  intros Hr. unfold isVisible. rewrite !Z.pow_2_r.
  set (dx := zone_x p - zone_x q). set (dy := zone_y p - zone_y q).
  destruct (_ || _) eqn:Eg.
  - split; [done|]. intros Hd. apply orb_prop in Eg as [Eg|Eg]; to_prop; nia.
  - by rewrite Z.leb_le.
Qed.

Lemma isVisible_sym z p q : 0 <= aoi_radius z → isVisible z p q = isVisible z q p.
Proof.
  intros Hr. apply eq_true_iff_eq. rewrite !isVisible_spec by done. lia.
Qed.

(** The 64-bit intermediates of [isVisible] never leave the signed range. *)
Lemma isVisible_no_overflow z p q :
  i32_position p → i32_position q → 0 <= aoi_radius z <= I32_MAX →
  let x := zone_x p - zone_x q in
  let y := zone_y p - zone_y q in
  Z.abs x < 2 ^ 33 ∧ Z.abs y < 2 ^ 33 ∧
  (Z.abs x <= aoi_radius z → Z.abs y <= aoi_radius z → x * x + y * y < 2 ^ 63 ∧ aoi_radius z * aoi_radius z < 2 ^ 63).
Proof.
  intros [Hpx Hpy] [Hqx Hqy] Hr x y. split_and!; [lia|lia|]. intros Hx Hy.
  assert (x * x <= I32_MAX * I32_MAX) by nia. assert (y * y <= I32_MAX * I32_MAX) by nia. nia.
Qed.

Lemma visible_in_Permutation z player subject order order' :
  order ≡ₚ order' → visible_in z player subject order = visible_in z player subject order'.
Proof.
  intros Hp. unfold visible_in.
  apply (StronglySorted_unique (≤)); [apply (StronglySorted_merge_sort (≤))..|].
  rewrite !merge_sort_Permutation. by rewrite Hp.
Qed.

Lemma elem_of_visiblePlayers z player other subject :
  zone_players z !! player = Some subject →
  other ∈ visiblePlayers z player ↔
  other ≠ player ∧ ∃ e, zone_players z !! other = Some e ∧
    isVisible z (entity_position subject) (entity_position e) = true.
Proof.
  intros Hs. unfold visiblePlayers, visible_in. rewrite Hs, merge_sort_Permutation, list_elem_of_fmap.
  split.
  - intros ([i e] & -> & Hin). apply list_elem_of_filter in Hin as [[Hne Hv] Hin].
    apply elem_of_map_to_list in Hin. eauto.
  - intros (Hne & e & He & Hv). exists (other, e). split; [done|].
    apply list_elem_of_filter. split; [done|]. by apply elem_of_map_to_list.
Qed.

Lemma visiblePlayers_sorted z player : StronglySorted Z.lt (visiblePlayers z player).
Proof.
  unfold visiblePlayers. destruct (zone_players z !! player) as [s|]; [|constructor].
  apply merge_sort_strict. eapply sublist_NoDup; [apply (NoDup_fst_map_to_list (zone_players z))|].
  apply sublist_fmap, sublist_filter.
Qed.

(** ** Route epochs fence stale commands *)

(** The epoch that owns [player] according to the history of applied commands
    (most recent first): the epoch of the last applied entry, unless an applied
    leave followed it. *)
Fixpoint owner_epoch (history : list (ZoneCommand * ZoneCommandStatus)) (player : PlayerId) : option Z :=
  match history with
  | [] => None
  | (EnterZoneCommand p e _, ZoneApplied) :: h => if p =? player then Some e else owner_epoch h player
  | (LeaveZoneCommand p _, ZoneApplied) :: h => if p =? player then None else owner_epoch h player
  | _ :: h => owner_epoch h player
  end.

(** The position a client last saw acknowledged for [player]. *)
Fixpoint owner_position (history : list (ZoneCommand * ZoneCommandStatus)) (player : PlayerId)
    : option ZonePosition :=
  match history with
  | [] => None
  | (EnterZoneCommand p _ pos, ZoneApplied) :: h => if p =? player then Some pos else owner_position h player
  | (MoveInZoneCommand p _ pos, ZoneApplied) :: h => if p =? player then Some pos else owner_position h player
  | (LeaveZoneCommand p _, ZoneApplied) :: h => if p =? player then None else owner_position h player
  | _ :: h => owner_position h player
  end.

(** Run a command sequence; the history lists the answered commands, last first. *)
Fixpoint zone_run (z : Zone) (history : list (ZoneCommand * ZoneCommandStatus)) (commands : list ZoneCommand)
    : Zone * list (ZoneCommand * ZoneCommandStatus) :=
  match commands with
  | [] => (z, history)
  | c :: cs => let '(r, z') := zone_handle z c in zone_run z' ((c, zr_status r) :: history) cs
  end.

(** The map of players is exactly what the applied commands say. *)
Definition history_matches (z : Zone) (history : list (ZoneCommand * ZoneCommandStatus)) : Prop :=
  ∀ player, (entity_route_epoch <$> zone_players z !! player) = owner_epoch history player ∧
            (entity_position <$> zone_players z !! player) = owner_position history player.

Lemma lookup_after_insert (m : gmap PlayerId Entity) p q e :
  <[p := e]> m !! q = if p =? q then Some e else m !! q.
Proof.
  rewrite lookup_insert. destruct (Z.eqb_spec p q); [by rewrite decide_True|by rewrite decide_False].
Qed.

Lemma lookup_after_delete (m : gmap PlayerId Entity) p q :
  delete p m !! q = if p =? q then None else m !! q.
Proof.
  rewrite lookup_delete. destruct (Z.eqb_spec p q); [by rewrite decide_True|by rewrite decide_False].
Qed.

Lemma zone_handle_history z history c :
  history_matches z history →
  history_matches (zone_handle z c).2 ((c, zr_status (zone_handle z c).1) :: history).
Proof.
  intros Hm player. specialize (Hm player) as [He Hp].
  destruct c as [p e pos|p e|p e pos|]; simpl.
  - unfold handleEnter. destruct (zone_players z !! p) as [ex|] eqn:Ep; [repeat split_if|]; simpl;
      rewrite ?lookup_after_insert; try done; by split_if.
  - unfold handleLeave. destruct (zone_players z !! p) as [ex|] eqn:Ep; [repeat split_if|]; simpl;
      rewrite ?lookup_after_delete; try done; by split_if.
  - unfold handleMove. destruct (zone_players z !! p) as [ex|] eqn:Ep; [split_if|]; simpl; try done.
    rewrite lookup_after_insert. split_if; simpl; [|done]. to_prop. subst.
    rewrite Ep in He. done.
  - done.
Qed.

Lemma zone_run_history z history cs :
  history_matches z history →
  history_matches (zone_run z history cs).1 (zone_run z history cs).2.
Proof.
  revert z history. induction cs as [|c cs IH]; intros z history Hm; simpl; [done|].
  pose proof (zone_handle_history z history c Hm) as H.
  destruct (zone_handle z c) as [r z']. by apply IH.
Qed.

(** ** Simulation ticks *)

(** The zone together with the number of its tick timers that are scheduled
    and have not fired: a result with [tick_after] schedules one, and only a
    scheduled timer delivers a [ZoneSimulationTick]. *)
Definition ticks_of (r : ZoneResult) : nat := if has_value (zr_tick_after r) then 1%nat else 0%nat.

Inductive zone_step : Zone * nat → Zone * nat → Prop :=
| zone_step_command z n c :
    c ≠ ZoneSimulationTick →
    zone_step (z, n) ((zone_handle z c).2, (n + ticks_of (zone_handle z c).1)%nat)
| zone_step_tick z n :
    zone_step (z, S n) ((zone_handle z ZoneSimulationTick).2,
                        (n + ticks_of (zone_handle z ZoneSimulationTick).1)%nat).

Definition tick_pending (s : Zone * nat) : Prop := zone_players s.1 ≠ ∅ → (1 <= s.2)%nat.

(** Entering an empty zone populates it and schedules its first tick. *)
Lemma enter_empty z p e pos :
  zone_players z = ∅ →
  zone_handle z (EnterZoneCommand p e pos)
  = (mkZoneResult ZoneApplied (Some p) (Some pos) e (last_tick z)
       (visiblePlayers (with_players z {[ p := mkEntity pos e ]}) p) (Some (zone_tick_interval z)),
     with_players z {[ p := mkEntity pos e ]}).
Proof.
  intros Hz. simpl. unfold handleEnter, applyEnter. rewrite Hz, lookup_empty, insert_empty.
  rewrite bool_decide_eq_true_2 by done. cbn [andb zone_players with_players].
  by rewrite bool_decide_eq_false_2 by apply map_non_empty_singleton.
Qed.

(** A command that finds the zone empty and leaves it populated schedules a tick. *)
Lemma first_entry_schedules z c :
  zone_players z = ∅ → zone_players (zone_handle z c).2 ≠ ∅ → ticks_of (zone_handle z c).1 = 1%nat.
Proof.
  intros Hz. assert (Hl : ∀ p, zone_players z !! p = None) by (intros p; by rewrite Hz, lookup_empty).
  destruct c as [p e pos|p e|p e pos|]; simpl.
  - pose proof (enter_empty z p e pos Hz) as E. simpl in E. by rewrite E.
  - unfold handleLeave. by rewrite Hl.
  - unfold handleMove. by rewrite Hl.
  - done.
Qed.

Lemma zone_step_tick_pending s s' : zone_step s s' → tick_pending s → tick_pending s'.
Proof.
  unfold tick_pending. destruct 1 as [z n c Hc|z n]; simpl; intros Hp Hne.
  - destruct (decide (zone_players z = ∅)) as [E|E]; [|specialize (Hp E); lia].
    rewrite (first_entry_schedules z c E Hne). lia.
  - rewrite bool_decide_eq_false_2 by done. unfold ticks_of; simpl. lia.
Qed.

(** ** Properties *)

(** The area of interest is exact: the players a player sees are listed in
    strictly increasing id order, are exactly the other players within the
    Euclidean radius, do not depend on the enumeration order of the hash map,
    and seeing is mutual. *)
Theorem visibility_exact z player other subject order :
  0 <= aoi_radius z → zone_players z !! player = Some subject →
  order ≡ₚ map_to_list (zone_players z) →
  StronglySorted Z.lt (visiblePlayers z player) ∧
  visiblePlayers z player = visible_in z player (entity_position subject) order ∧
  (other ∈ visiblePlayers z player ↔
     other ≠ player ∧ ∃ e, zone_players z !! other = Some e ∧
       (zone_x (entity_position subject) - zone_x (entity_position e)) ^ 2
       + (zone_y (entity_position subject) - zone_y (entity_position e)) ^ 2 <= aoi_radius z ^ 2) ∧
  (other ∈ visiblePlayers z player → player ∈ visiblePlayers z other).
Proof.
  intros Hr Hs Ho. split_and!.
  - apply visiblePlayers_sorted.
  - unfold visiblePlayers. rewrite Hs. by apply visible_in_Permutation.
  - rewrite (elem_of_visiblePlayers _ _ _ _ Hs). by setoid_rewrite isVisible_spec.
  - rewrite (elem_of_visiblePlayers _ _ _ _ Hs). intros (Hne & e & He & Hv).
    rewrite (elem_of_visiblePlayers _ _ _ _ He). split; [done|]. exists subject.
    by rewrite isVisible_sym.
Qed.

Definition demo_zone : Zone :=
  mkZone 7 1000 100 0 {[ 1 := mkEntity (mkZonePosition 0 0) 1; 2 := mkEntity (mkZonePosition 600 800) 1;
                         3 := mkEntity (mkZonePosition 700 800) 1 ]}.

Lemma visibility_exact_witness :
  visiblePlayers demo_zone 1 = [2] ∧ 1 ∈ visiblePlayers demo_zone 2.
Proof.
  split; [vm_compute; reflexivity|].
  apply (visibility_exact demo_zone 1 2 (mkEntity (mkZonePosition 0 0) 1) (map_to_list (zone_players demo_zone)));
    [vm_compute; discriminate|vm_compute; reflexivity|reflexivity|].
  vm_compute. left.
Defined.

(** C38: route epochs fence stale senders.  After any command sequence the
    zone holds exactly the players, epochs and positions the applied commands
    of the history dictate; so a Move or Leave is applied only under the epoch
    of the latest applied entry, and every command that is not applied leaves
    the players untouched. *)
Theorem zone_epochs_fence zone config z0 cs c z h :
  makeZone zone config = Ret z0 → zone_run z0 [] cs = (z, h) →
  let '(r, z') := zone_handle z c in
  history_matches z h ∧
  (zr_status r ≠ ZoneApplied → z' = z) ∧
  (zr_status r = ZoneApplied →
   match c with
   | MoveInZoneCommand p e _ | LeaveZoneCommand p e => owner_epoch h p = Some e
   | EnterZoneCommand p e _ => ∀ e', owner_epoch h p = Some e' → e' < e
   | ZoneSimulationTick => True
   end).
Proof.
  intros Hz Hrun.
  assert (Hm : history_matches z h).
  { pose proof (zone_run_history z0 [] cs) as H. rewrite Hrun in H. apply H.
    unfold makeZone in Hz. rewrite !throw_if_ret in Hz. destruct Hz as (_ & _ & _ & [= <-]). done. }
  destruct c as [p e pos|p e|p e pos|]; simpl; [| | |done].
  - destruct (Hm p) as [He _].
    unfold handleEnter. destruct (zone_players z !! p) as [ex|]; [repeat split_if|];
      simpl in *; to_prop; split_and!; try done; intros _ e' E; rewrite E in He; [|done].
    injection He as He. lia.
  - destruct (Hm p) as [He _].
    unfold handleLeave. destruct (zone_players z !! p) as [ex|]; [split_if|];
      simpl in *; to_prop; split_and!; try done. intros _. by subst.
  - destruct (Hm p) as [He _].
    unfold handleMove. destruct (zone_players z !! p) as [ex|]; [split_if|];
      simpl in *; to_prop; split_and!; try done. intros _. by subst.
Qed.

Lemma zone_epochs_fence_witness :
  let cs := [EnterZoneCommand 5 2 (mkZonePosition 1 1); EnterZoneCommand 5 1 (mkZonePosition 9 9)] in
  let z0 := mkZone 7 1000 100 0 ∅ in
  history_matches (zone_run z0 [] cs).1 (zone_run z0 [] cs).2.
Proof.
  intros cs z0.
  exact (proj1 (zone_epochs_fence 7 (mkZoneConfig 1000 100) z0 cs ZoneSimulationTick _ _ eq_refl
    (surjective_pairing (zone_run z0 [] cs)))).
Defined.

(** A populated zone is never without a scheduled simulation tick,
    whatever commands and ticks arrive in whatever order. *)
Theorem zone_tick_never_lost zone config z0 s :
  makeZone zone config = Ret z0 → rtc zone_step (z0, 0%nat) s →
  zone_players s.1 ≠ ∅ → (1 <= s.2)%nat.
Proof.
  intros Hz Hr. change (tick_pending s). revert Hr.
  apply (rtc_ind_r tick_pending); [|eauto using zone_step_tick_pending].
  unfold makeZone in Hz. rewrite !throw_if_ret in Hz. destruct Hz as (_ & _ & _ & [= <-]). by intros [].
Qed.

Lemma zone_tick_never_lost_witness :
  let z0 := mkZone 7 1000 100 0 ∅ in
  let c := EnterZoneCommand 5 2 (mkZonePosition 1 1) in
  (1 <= 0 + ticks_of (zone_handle z0 c).1)%nat.
Proof.
  intros z0 c.
  apply (zone_tick_never_lost 7 (mkZoneConfig 1000 100) z0
           ((zone_handle z0 c).2, (0 + ticks_of (zone_handle z0 c).1)%nat)); [reflexivity| |].
  - apply rtc_once. by constructor.
  - simpl. apply insert_non_empty.
Defined.

(** The zone itself does not keep its ticks unique: when the last player
    leaves and another enters before the pending tick fires, the second entry
    schedules a second tick while the first is still pending, and both chains
    reschedule themselves from then on. *)
Theorem zone_ticks_may_double zone config z0 (q e : Z) pos :
  makeZone zone config = Ret z0 →
  ∃ z, rtc zone_step (z0, 0%nat) (z, 2%nat) ∧
       rtc zone_step (z, 2%nat) ((zone_handle (zone_handle z ZoneSimulationTick).2 ZoneSimulationTick).2, 2%nat) ∧
       zone_players z = {[ q := mkEntity pos e ]} ∧ last_tick z = 0.
Proof.
  intros Hz. unfold makeZone in Hz. rewrite !throw_if_ret in Hz. destruct Hz as (_ & _ & _ & [= <-]).
  set (z0 := mkZone zone _ _ 0 ∅).
  set (z1 := with_players z0 {[ q := mkEntity pos e ]}). exists z1.
  assert (Henter : ∀ n, zone_step (z0, n) (z1, (n + 1)%nat)).
  { intros n. pose proof (zone_step_command z0 n (EnterZoneCommand q e pos)) as H.
    rewrite enter_empty in H by done. by apply H. }
  assert (Hleave : ∀ n, zone_step (z1, n) (z0, (n + 0)%nat)).
  { intros n. pose proof (zone_step_command z1 n (LeaveZoneCommand q e)) as H.
    simpl in H. unfold handleLeave in H. simpl in H. rewrite lookup_singleton_eq in H. simpl in H.
    rewrite Z.eqb_refl in H. simpl in H. unfold with_players in H. simpl in H.
    rewrite delete_singleton_eq in H. by apply H. }
  assert (Htick : ∀ z, zone_players z ≠ ∅ → zone_step (z, 2%nat) ((zone_handle z ZoneSimulationTick).2, 2%nat)).
  { intros z Hz. pose proof (zone_step_tick z 1) as H. unfold ticks_of in H. simpl in H.
    by rewrite bool_decide_eq_false_2 in H. }
  split_and!; try done.
  - eapply rtc_l; [apply Henter|]. eapply rtc_l; [apply Hleave|]. eapply rtc_l; [apply Henter|]. done.
  - eapply rtc_l; [apply Htick; apply map_non_empty_singleton|].
    apply rtc_once, Htick. apply map_non_empty_singleton.
Qed.

Lemma zone_ticks_may_double_witness :
  ∃ z, rtc zone_step (mkZone 7 1000 100 0 ∅, 0%nat) (z, 2%nat) ∧ last_tick z = 0.
Proof.
  destruct (zone_ticks_may_double 7 (mkZoneConfig 1000 100) (mkZone 7 1000 100 0 ∅) 2 1 (mkZonePosition 0 0) eq_refl)
    as (z & H & _ & _ & Ht). by exists z.
Defined.
