(* ===== verification/Player.v ===== *)
(** * The Player: commands, purchases, dirty tracking and snapshots

    Models [src/src/game/player.cpp] and [src/include/snf/game/player.hpp]
    with the command, response and record types of [player_command.hpp],
    [player_result.hpp], [player_record.hpp], [purchase.hpp] and
    [equip_skill.hpp].  The evidence map is a [gmap]; a handler that throws
    returns [Throw] and has then not changed the player. *)

From S2P Require Import Prelude Skills Zone.

Abbreviation RoomId := Z (only parsing).

Record PlayerLocation := mkPlayerLocation { loc_zone : ZoneId; loc_position : ZonePosition }.

Inductive PlayerStateComponent := SessionComponent | EconomyComponent | ProgressionComponent | SkillsComponent.

Definition componentMask (c : PlayerStateComponent) : Z :=
  match c with
  | SessionComponent => 1
  | EconomyComponent => 2
  | ProgressionComponent => 4
  | SkillsComponent => 8
  end.

Definition DEFAULT_PURCHASE_IDEMPOTENCY_CAPACITY := 1024.

(** ** Purchases *)

Inductive PurchaseStatus :=
| Committed | InsufficientFunds | ProductNotFound | InventoryCapacityExceeded
| IdempotencyConflict | IdempotencyCapacityExceeded | Unavailable | ProductAlreadyOwned.

#[export] Instance PurchaseStatus_eq_dec : EqDecision PurchaseStatus.
Proof. solve_decision. Defined.

Record PurchaseTransactionResult := mkPurchaseTransactionResult {
  pt_status : PurchaseStatus;
  pt_player : PlayerId;
  pt_idempotency_key : Z;
  pt_product : ProductId;
  pt_currency_balance : Z;
  pt_purchased_item_count : Z;
  pt_replayed : bool
}.

Record PurchaseEvidence := mkPurchaseEvidence {
  evidence_product : ProductId;
  evidence_result : PurchaseTransactionResult
}.

(** ** Commands and results *)

Inductive PlayerCommand :=
| PingCommand (payload : list Z)
| AuthenticateCommand (player : PlayerId)
| PurchaseCommand (idempotency_key : Z) (product : ProductId)
| JoinRoomRequest (room : RoomId)
| EquipSkillCommand (skill : SkillId).

Inductive EquipSkillStatus := EquipStatusEquipped | EquipStatusAlreadyEquipped | EquipStatusNotOwned | EquipStatusUnknown.

Inductive PlayerResponse :=
| PongResponse (payload : list Z)
| AuthenticatedResponse (player : PlayerId)
| PurchaseResponse (result : PurchaseTransactionResult)
| EquipSkillResponse (status : EquipSkillStatus) (equipped : SkillId).

Record RoomJoinRequest := mkRoomJoinRequest {
  rj_room : RoomId;
  rj_stats : CombatStats;
  rj_equipped_skill_id : SkillId
}.

Record PlayerResult := mkPlayerResult {
  responses : list PlayerResponse;
  room_join : option RoomJoinRequest
}.

(** ** State *)

Record Session := mkSession {
  identity : option PlayerId;
  handled_command_count : Z;
  last_location : option PlayerLocation
}.

Record Economy := mkEconomy { currency_balance : Z; purchased_item_count : Z }.

Record PlayerState := mkPlayerState {
  session : Session;
  economy : Economy;
  street_experience : Z;
  skill_loadout : SkillLoadout;
  dirty_components : Z
}.

Record PlayerRecord := mkPlayerRecord {
  rec_player : PlayerId;
  rec_handled_command_count : Z;
  rec_last_location : option PlayerLocation;
  rec_currency_balance : Z;
  rec_purchased_item_count : Z;
  rec_street_experience : Z;
  rec_skill_loadout : SkillLoadout
}.

Record Player := mkPlayer {
  state : PlayerState;
  max_purchase_idempotency_records : Z;
  purchase_evidence : gmap Z PurchaseEvidence
}.

Definition with_state (p : Player) (s : PlayerState) : Player :=
  mkPlayer s (max_purchase_idempotency_records p) (purchase_evidence p).

Definition mark_dirty (c : PlayerStateComponent) (s : PlayerState) : PlayerState :=
  mkPlayerState (session s) (economy s) (street_experience s) (skill_loadout s)
    (Z.lor (dirty_components s) (componentMask c)).

Definition with_economy (e : Economy) (s : PlayerState) : PlayerState :=
  mkPlayerState (session s) e (street_experience s) (skill_loadout s) (dirty_components s).

Definition with_loadout (l : SkillLoadout) (s : PlayerState) : PlayerState :=
  mkPlayerState (session s) (economy s) (street_experience s) l (dirty_components s).

Definition with_session (n : Session) (s : PlayerState) : PlayerState :=
  mkPlayerState n (economy s) (street_experience s) (skill_loadout s) (dirty_components s).

Definition with_dirty (mask : Z) (s : PlayerState) : PlayerState :=
  mkPlayerState (session s) (economy s) (street_experience s) (skill_loadout s) mask.

(** [Player::Player(std::optional<PlayerId>, std::size_t)]; the default
    capacity gives the one-argument constructor. *)
Definition makePlayer (id : option PlayerId) (max_records : Z) : outcome Player :=
  throw_if (max_records =? 0) InvalidArgument
  (Ret (mkPlayer
     (mkPlayerState (mkSession id 0 None) (mkEconomy INITIAL_CURRENCY_BALANCE 0) 0 defaultLoadout 0)
     max_records ∅)).

(** ** Persistence interface *)

Definition restore (p : Player) (r : PlayerRecord) : outcome Player :=
  throw_if (negb (bool_decide (identity (session (state p)) = Some (rec_player r)))) InvalidArgument
  (Ret (mkPlayer
     (mkPlayerState
        (mkSession (identity (session (state p))) (rec_handled_command_count r) (rec_last_location r))
        (mkEconomy (rec_currency_balance r) (rec_purchased_item_count r))
        (rec_street_experience r) (rec_skill_loadout r) 0)
     (max_purchase_idempotency_records p) ∅)).

Definition setLastLocation (p : Player) (location : option PlayerLocation) : Player :=
  let s := state p in
  with_state p (mark_dirty SessionComponent
    (with_session (mkSession (identity (session s)) (handled_command_count (session s)) location) s)).

Definition grantStreetExperience (p : Player) (experience : Z) : Player :=
  let s := state p in
  let total := street_experience s in
  let total' := if u64 (U64_MAX - total) <? experience then U64_MAX else u64 (total + experience) in
  with_state p (mark_dirty ProgressionComponent
    (mkPlayerState (session s) (economy s) total' (skill_loadout s) (dirty_components s))).

Definition flushable : Z :=
  Z.lor (Z.lor (componentMask EconomyComponent) (componentMask ProgressionComponent))
        (componentMask SkillsComponent).

Definition hasFlushableDirtyState (p : Player) : bool :=
  negb (Z.land (dirty_components (state p)) flushable =? 0).

Definition snapshot (p : Player) : outcome PlayerRecord :=
  let s := state p in
  match identity (session s) with
  | None => Throw LogicError
  | Some player =>
      Ret (mkPlayerRecord player (handled_command_count (session s)) (last_location (session s))
             (currency_balance (economy s)) (purchased_item_count (economy s))
             (street_experience s) (skill_loadout s))
  end.

(** The second component is the mask stored through [cleared_components]. *)
Definition takeDirtySnapshot (p : Player) : outcome (option PlayerRecord * Z * Player) :=
  if negb (hasFlushableDirtyState p) then Ret (None, 0, p)
  else
    let components := dirty_components (state p) in
    let! record := snapshot p in
    Ret (Some record, components, with_state p (with_dirty 0 (state p))).

Definition restoreDirtyComponents (p : Player) (components : Z) : Player :=
  with_state p (with_dirty (Z.lor (dirty_components (state p)) components) (state p)).

(** ** Command handlers *)

Definition respond (r : PlayerResponse) : PlayerResult := mkPlayerResult [r] None.

Definition handlePing (p : Player) (payload : list Z) : outcome (PlayerResult * Player) :=
  Ret (respond (PongResponse payload), p).

Definition handleAuthenticate (p : Player) (player : PlayerId) : outcome (PlayerResult * Player) :=
  throw_if (negb (bool_decide (identity (session (state p)) = Some player))) LogicError
  (Ret (respond (AuthenticatedResponse player), p)).

Definition handleJoinRoom (p : Player) (room : RoomId) : outcome (PlayerResult * Player) :=
  throw_if (negb (has_value (identity (session (state p))))) LogicError
  (Ret (mkPlayerResult []
          (Some (mkRoomJoinRequest room (combatStats (streetLevel (street_experience (state p))))
                   (equipped_skill_id (skill_loadout (state p))))), p)).

Definition handleEquipSkill (p : Player) (skill : SkillId) : outcome (PlayerResult * Player) :=
  throw_if (negb (has_value (identity (session (state p))))) LogicError
  (let s := state p in
   let '(result, loadout) := equipSkillId (skill_loadout s) skill in
   let s' := with_loadout loadout s in
   let '(status, s'') :=
     match result with
     | Equipped => (EquipStatusEquipped, mark_dirty SkillsComponent s')
     | AlreadyEquipped => (EquipStatusAlreadyEquipped, s')
     | SkillNotOwned => (EquipStatusNotOwned, s')
     | EquipUnknownSkill => (EquipStatusUnknown, s')
     end in
   Ret (respond (EquipSkillResponse status (equipped_skill_id (skill_loadout s''))), with_state p s'')).

(** The working copies of the purchase transaction: status, balance, item
    count, loadout, and whether the loadout changed. *)
Record PurchaseWork := mkPurchaseWork {
  work_status : PurchaseStatus;
  work_balance : Z;
  work_item_count : Z;
  work_loadout : SkillLoadout;
  work_skills_changed : bool
}.

(** The visitor over [definition->reward]. *)
Definition applyReward (definition : ProductDefinition) (balance item_count : Z) (loadout : SkillLoadout)
    : PurchaseWork :=
  match product_reward definition with
  | AddPurchasedItemCountReward granted =>
      if balance <? product_price definition then
        mkPurchaseWork InsufficientFunds balance item_count loadout false
      else if u64 (U64_MAX - granted) <? item_count then
        mkPurchaseWork InventoryCapacityExceeded balance item_count loadout false
      else
        mkPurchaseWork Committed (u64 (balance - product_price definition)) (u64 (item_count + granted)) loadout false
  | AddOwnedSkillReward skill =>
      let '(added, next_loadout) := addOwnedSkillId loadout skill in
      match added with
      | AlreadyOwned => mkPurchaseWork ProductAlreadyOwned balance item_count next_loadout false
      | AddUnknownSkill => mkPurchaseWork ProductNotFound balance item_count next_loadout false
      | Added =>
          if balance <? product_price definition then
            mkPurchaseWork InsufficientFunds balance item_count next_loadout false
          else
            mkPurchaseWork Committed (u64 (balance - product_price definition)) item_count next_loadout true
      end
  end.

Definition commitPurchase (w : PurchaseWork) (s : PlayerState) : PlayerState :=
  if bool_decide (work_status w = Committed) then
    let s1 := mark_dirty EconomyComponent (with_economy (mkEconomy (work_balance w) (work_item_count w)) s) in
    if work_skills_changed w then mark_dirty SkillsComponent (with_loadout (work_loadout w) s1) else s1
  else s.

Definition handlePurchase (p : Player) (key : Z) (product : ProductId) : outcome (PlayerResult * Player) :=
  let s := state p in
  match identity (session s) with
  | None => Throw LogicError
  | Some player =>
      let balance := currency_balance (economy s) in
      let item_count := purchased_item_count (economy s) in
      let result status := mkPurchaseTransactionResult status player key product balance item_count false in
      match purchase_evidence p !! key with
      | Some existing =>
          if negb (evidence_product existing =? product) then
            Ret (respond (PurchaseResponse (result IdempotencyConflict)), p)
          else
            let r := evidence_result existing in
            Ret (respond (PurchaseResponse
                   (mkPurchaseTransactionResult (pt_status r) (pt_player r) (pt_idempotency_key r) (pt_product r)
                      balance item_count true)), p)
      | None =>
          match findProduct product with
          | None => Ret (respond (PurchaseResponse (result ProductNotFound)), p)
          | Some definition =>
              if max_purchase_idempotency_records p <=? Z.of_nat (size (purchase_evidence p)) then
                Ret (respond (PurchaseResponse (result IdempotencyCapacityExceeded)), p)
              else
                let w := applyReward definition balance item_count (skill_loadout s) in
                let r := mkPurchaseTransactionResult (work_status w) player key product
                           (work_balance w) (work_item_count w) false in
                Ret (respond (PurchaseResponse r),
                     mkPlayer (commitPurchase w s) (max_purchase_idempotency_records p)
                       (<[key := mkPurchaseEvidence product r]> (purchase_evidence p)))
          end
      end
  end.

Definition handleCommand (p : Player) (command : PlayerCommand) : outcome (PlayerResult * Player) :=
  match command with
  | PingCommand payload => handlePing p payload
  | AuthenticateCommand player => handleAuthenticate p player
  | PurchaseCommand key product => handlePurchase p key product
  | JoinRoomRequest room => handleJoinRoom p room
  | EquipSkillCommand skill => handleEquipSkill p skill
  end.

Definition count_command (s : PlayerState) : PlayerState :=
  with_session (mkSession (identity (session s)) (u64 (handled_command_count (session s) + 1))
                  (last_location (session s))) s.

(** [Player::handle]. *)
Definition handle (p : Player) (command : PlayerCommand) : outcome (PlayerResult * Player) :=
  let! (result, p') := handleCommand p command in
  Ret (result, with_state p' (count_command (state p'))).

(** ** Dirty bits *)

Definition component_bit (c : PlayerStateComponent) : Z :=
  match c with SessionComponent => 0 | EconomyComponent => 1 | ProgressionComponent => 2 | SkillsComponent => 3 end.

Definition is_dirty (c : PlayerStateComponent) (s : PlayerState) : bool :=
  Z.testbit (dirty_components s) (component_bit c).

#[export] Instance PlayerStateComponent_eq_dec : EqDecision PlayerStateComponent.
Proof. solve_decision. Defined.

Lemma is_dirty_mark c c' s : is_dirty c' (mark_dirty c s) = is_dirty c' s || bool_decide (c = c').
Proof.
  unfold is_dirty, mark_dirty; simpl. rewrite Z.lor_spec. f_equal. by destruct c, c'.
Qed.

Lemma is_dirty_restore c p mask :
  is_dirty c (state (restoreDirtyComponents p mask)) = is_dirty c (state p) || Z.testbit mask (component_bit c).
Proof. unfold is_dirty; simpl. by rewrite Z.lor_spec. Qed.

Lemma hasFlushableDirtyState_spec p :
  hasFlushableDirtyState p = true ↔ ∃ c, c ≠ SessionComponent ∧ is_dirty c (state p) = true.
Proof.
  unfold hasFlushableDirtyState, is_dirty. rewrite negb_true_iff, Z.eqb_neq.
  set (m := dirty_components (state p)). split.
  - intros Hne. destruct (Z.testbit m 1) eqn:E1; [by exists EconomyComponent|].
    destruct (Z.testbit m 2) eqn:E2; [by exists ProgressionComponent|].
    destruct (Z.testbit m 3) eqn:E3; [by exists SkillsComponent|].
    destruct Hne. apply Z.bits_inj'. intros n Hn. rewrite Z.land_spec, Z.bits_0.
    destruct (decide (n = 1)) as [->|]; [by rewrite E1|].
    destruct (decide (n = 2)) as [->|]; [by rewrite E2|].
    destruct (decide (n = 3)) as [->|]; [by rewrite E3|].
    destruct (decide (n = 0)) as [->|]; [by rewrite andb_false_r|].
    rewrite (Z.bits_above_log2 flushable n); [by rewrite andb_false_r|done|].
    change (Z.log2 flushable) with 3. lia.
  - intros (c & Hc & Hd) E. assert (Hb : Z.testbit (Z.land m flushable) (component_bit c) = true).
    { rewrite Z.land_spec, Hd. by destruct c. }
    by rewrite E, Z.bits_0 in Hb.
Qed.

(** ** Invariant *)

Record player_ok (p : Player) : Prop := {
  ok_balance : in_u64 (currency_balance (economy (state p)));
  ok_items : in_u64 (purchased_item_count (economy (state p)));
  ok_experience : in_u64 (street_experience (state p));
  ok_loadout : loadout_ok (skill_loadout (state p));
  ok_capacity : Z.of_nat (size (purchase_evidence p)) <= max_purchase_idempotency_records p;
  ok_evidence : ∀ key ev, purchase_evidence p !! key = Some ev →
    pt_idempotency_key (evidence_result ev) = key ∧
    pt_product (evidence_result ev) = evidence_product ev ∧
    identity (session (state p)) = Some (pt_player (evidence_result ev))
}.

(** The static data of the shop is itself well formed. *)
Lemma findProduct_reward product d :
  findProduct product = Some d →
  0 < product_price d <= U64_MAX ∧ product_id d = product ∧
  match product_reward d with
  | AddPurchasedItemCountReward n => 0 < n <= U64_MAX
  | AddOwnedSkillReward s => is_known s = true
  end.
Proof.
  unfold findProduct. repeat split_if; intros [= <-]; to_prop; subst; vm_compute; intuition discriminate.
Qed.

Definition reward_items (d : ProductDefinition) : Z :=
  match product_reward d with AddPurchasedItemCountReward n => n | AddOwnedSkillReward _ => 0 end.

(** What one purchase does to the working copies. *)
Lemma applyReward_spec product d balance items loadout :
  findProduct product = Some d → in_u64 balance → in_u64 items → loadout_ok loadout →
  let w := applyReward d balance items loadout in
  if bool_decide (work_status w = Committed) then
    work_balance w + product_price d = balance ∧ work_item_count w = items + reward_items d ∧
    in_u64 (work_balance w) ∧ in_u64 (work_item_count w) ∧
    (if work_skills_changed w then loadout_ok (work_loadout w) else work_loadout w = loadout)
  else work_balance w = balance ∧ work_item_count w = items.
Proof.
  intros Hd Hb Hi Hl. destruct (findProduct_reward _ _ Hd) as (Hp & _ & Hr).
  unfold applyReward, reward_items. destruct (product_reward d) as [n|s].
  - destruct (balance <? product_price d) eqn:E1; [by rewrite bool_decide_eq_false_2|].
    destruct (u64 (U64_MAX - n) <? items) eqn:E2; [by rewrite bool_decide_eq_false_2|].
    rewrite bool_decide_eq_true_2 by done. to_prop. rewrite u64_small in * by lia. simpl.
    rewrite !u64_small by lia. split_and!; lia || done.
  - pose proof (addOwnedSkillId_spec loadout s Hl) as Ha.
    destruct (addOwnedSkillId loadout s) as [[] l']; try (by rewrite bool_decide_eq_false_2).
    destruct (balance <? product_price d) eqn:E1; [by rewrite bool_decide_eq_false_2|].
    rewrite bool_decide_eq_true_2 by done. to_prop. simpl. rewrite !u64_small by lia.
    split_and!; lia || apply Ha.
Qed.

Lemma commitPurchase_session w s : session (commitPurchase w s) = session s.
Proof. unfold commitPurchase. repeat split_if; done. Qed.

Lemma commitPurchase_experience w s : street_experience (commitPurchase w s) = street_experience s.
Proof. unfold commitPurchase. repeat split_if; done. Qed.

Lemma handle_ret p c res p' :
  handle p c = Ret (res, p') ↔
  ∃ p1, handleCommand p c = Ret (res, p1) ∧ p' = with_state p1 (count_command (state p1)).
Proof.
  unfold handle. destruct (handleCommand p c) as [[r p1]|e]; simpl; naive_solver.
Qed.

(** A response that reports a purchase executed just now. *)
Definition fresh_commit (r : PurchaseTransactionResult) : bool :=
  bool_decide (pt_status r = Committed) && negb (pt_replayed r).

(** A purchase either answers from what is known and changes nothing, or runs
    the transaction once and records its evidence. *)
Lemma handlePurchase_cases p key product res p' :
  handlePurchase p key product = Ret (res, p') →
  ∃ player r, identity (session (state p)) = Some player ∧ res = respond (PurchaseResponse r) ∧
    ((p' = p ∧ fresh_commit r = false) ∨
     ∃ d, let s := state p in
       let w := applyReward d (currency_balance (economy s)) (purchased_item_count (economy s)) (skill_loadout s) in
       purchase_evidence p !! key = None ∧ findProduct product = Some d ∧
       Z.of_nat (size (purchase_evidence p)) < max_purchase_idempotency_records p ∧
       r = mkPurchaseTransactionResult (work_status w) player key product (work_balance w) (work_item_count w) false ∧
       p' = mkPlayer (commitPurchase w s) (max_purchase_idempotency_records p)
              (<[key := mkPurchaseEvidence product r]> (purchase_evidence p))).
Proof.
  unfold handlePurchase. destruct (identity (session (state p))) as [player|]; [|done].
  destruct (purchase_evidence p !! key) as [ev|] eqn:Ev.
  - split_if; intros [= <- <-]; eexists player, _; split_and!; try done; left; split; try done.
    unfold fresh_commit. simpl. by rewrite andb_false_r.
  - destruct (findProduct product) as [d|] eqn:Ed.
    + split_if; intros [= <- <-]; eexists player, _; split_and!; try done; [by left|].
      right. exists d. to_prop. by split_and!.
    + intros [= <- <-]. eexists player, _. split_and!; try done. by left.
Qed.

Lemma handleCommand_ok p c res p' :
  player_ok p → handleCommand p c = Ret (res, p') →
  player_ok p' ∧ identity (session (state p')) = identity (session (state p)).
Proof.
  intros Hok. destruct c as [bytes|player|key product|room|skill]; simpl.
  - by intros [= <- <-].
  - unfold handleAuthenticate. rewrite throw_if_ret. by intros [_ [= <- <-]].
  - intros (player & r & Hid & -> & [[-> _]|(d & Hnone & Hd & Hcap & -> & ->)])%handlePurchase_cases; [done|].
    destruct Hok as [Hb Hi Hx Hl Hc He].
    pose proof (applyReward_spec product d _ _ _ Hd Hb Hi Hl) as Hw. simpl in Hw.
    set (w := applyReward d _ _ _) in *.
    split; [|simpl; by rewrite commitPurchase_session].
    constructor; simpl; rewrite ?commitPurchase_session, ?commitPurchase_experience; try done.
    1-3: unfold commitPurchase; destruct (bool_decide _); [|done];
         destruct (work_skills_changed w); simpl; apply Hw || apply Hl.
    + rewrite map_size_insert_None by done. lia.
    + intros k ev. rewrite lookup_insert. destruct (decide (key = k)) as [<-|]; [|apply He].
      by intros [= <-].
  - unfold handleJoinRoom. rewrite throw_if_ret. by intros [_ [= <- <-]].
  - unfold handleEquipSkill. rewrite throw_if_ret. intros [_ Heq].
    pose proof (equipSkillId_spec (skill_loadout (state p)) skill (ok_loadout p Hok)) as Hs.
    destruct (equipSkillId _ skill) as [[] l']; destruct Hs as [Hl' _];
      injection Heq as <- <-; (split; [|done]); destruct Hok; by constructor.
Qed.

Lemma handle_ok p c res p' :
  player_ok p → handle p c = Ret (res, p') →
  player_ok p' ∧ identity (session (state p')) = identity (session (state p)).
Proof.
  intros Hok (p1 & Hc & ->)%handle_ret. destruct (handleCommand_ok _ _ _ _ Hok Hc) as [[] ?].
  split; [by constructor|done].
Qed.

Lemma makePlayer_ok id n p : 0 <= n → makePlayer id n = Ret p → player_ok p.
Proof.
  intros Hn. unfold makePlayer. rewrite throw_if_ret. intros [_ [= <-]].
  unfold INITIAL_CURRENCY_BALANCE.
  constructor; simpl; [lia..|apply defaultLoadout_ok|by rewrite map_size_empty|done].
Qed.

(** ** Runs of commands and the purchase ledger *)

Fixpoint player_run (p : Player) (commands : list PlayerCommand) : outcome (list PlayerResult * Player) :=
  match commands with
  | [] => Ret ([], p)
  | c :: cs =>
      let! (r, p1) := handle p c in
      let! (rs, p2) := player_run p1 cs in
      Ret (r :: rs, p2)
  end.

Definition fresh_purchase (r : PlayerResponse) : option PurchaseTransactionResult :=
  match r with
  | PurchaseResponse t => if fresh_commit t then Some t else None
  | _ => None
  end.

(** The purchases a run executed, in order. *)
Definition executed (results : list PlayerResult) : list PurchaseTransactionResult :=
  omap fresh_purchase (results ≫= responses).

Definition price_of (t : PurchaseTransactionResult) : Z :=
  match findProduct (pt_product t) with Some d => product_price d | None => 0 end.

Definition items_of (t : PurchaseTransactionResult) : Z :=
  match findProduct (pt_product t) with Some d => reward_items d | None => 0 end.

Definition total (f : PurchaseTransactionResult → Z) (ts : list PurchaseTransactionResult) : Z :=
  foldr (fun t acc => f t + acc) 0 ts.

Lemma total_app f ts us : total f (ts ++ us) = total f ts + total f us.
Proof. induction ts as [|t ts IH]; simpl; [done|]. fold (total f). rewrite IH. lia. Qed.

Lemma executed_cons r rs : executed (r :: rs) = executed [r] ++ executed rs.
Proof. unfold executed. simpl. by rewrite app_nil_r, omap_app. Qed.

(** Every command but a purchase leaves economy, experience, evidence and
    session as they are and executes no purchase. *)
Lemma handleCommand_cases p c res p1 :
  handleCommand p c = Ret (res, p1) →
  (∃ key product, c = PurchaseCommand key product ∧ handlePurchase p key product = Ret (res, p1)) ∨
  (purchase_evidence p1 = purchase_evidence p ∧ executed [res] = [] ∧
   economy (state p1) = economy (state p) ∧ street_experience (state p1) = street_experience (state p) ∧
   session (state p1) = session (state p)).
Proof.
  destruct c as [bytes|player|key product|room|skill]; simpl.
  - intros [= <- <-]. by right.
  - unfold handleAuthenticate. rewrite throw_if_ret. intros [_ [= <- <-]]. by right.
  - intros. left. eauto.
  - unfold handleJoinRoom. rewrite throw_if_ret. intros [_ [= <- <-]]. by right.
  - unfold handleEquipSkill. rewrite throw_if_ret. intros [_ Hc]. right.
    destruct (equipSkillId _ skill) as [[] l']; by injection Hc as <- <-.
Qed.

(** One command moves the balance and the inventory by exactly what its
    response reports as executed. *)
Lemma handle_ledger p c res p' :
  player_ok p → handle p c = Ret (res, p') →
  currency_balance (economy (state p')) + total price_of (executed [res]) = currency_balance (economy (state p)) ∧
  purchased_item_count (economy (state p')) = purchased_item_count (economy (state p)) + total items_of (executed [res]).
Proof.
  intros Hok (p1 & Hc & ->)%handle_ret. cbn [state with_state count_command with_session economy].
  apply handleCommand_cases in Hc as [(key & product & -> & Hc)|(_ & -> & -> & _)]; [|simpl; lia].
  apply handlePurchase_cases in Hc as (player & r & Hid & -> & [[-> Hf]|(d & Hnone & Hd & Hcap & Hr & ->)]).
  { unfold executed, total. simpl. rewrite Hf. simpl. lia. }
  destruct Hok as [Hb Hi Hx Hl _ _].
  pose proof (applyReward_spec product d _ _ _ Hd Hb Hi Hl) as Hw. simpl in Hw.
  set (w := applyReward d _ _ _) in *. unfold commitPurchase, executed, total; simpl.
  assert (Hf : fresh_commit r = bool_decide (work_status w = Committed)).
  { subst r. unfold fresh_commit. simpl. by rewrite andb_true_r. }
  rewrite Hf. destruct (bool_decide (work_status w = Committed)); simpl; [|lia].
  unfold price_of, items_of. rewrite Hr. simpl. rewrite Hd.
  destruct (work_skills_changed w); simpl; lia.
Qed.

Lemma player_run_cons p c cs rs p' :
  player_run p (c :: cs) = Ret (rs, p') ↔
  ∃ r p1 rs', handle p c = Ret (r, p1) ∧ player_run p1 cs = Ret (rs', p') ∧ rs = r :: rs'.
Proof.
  simpl. destruct (handle p c) as [[r p1]|]; simpl; [|naive_solver].
  destruct (player_run p1 cs) as [[rs' p2]|] eqn:E; simpl; split.
  - intros [= <- <-]. eauto 10.
  - intros (r' & q & rs2 & [= <- <-] & E2 & ->). congruence.
  - done.
  - intros (r' & q & rs2 & [= <- <-] & E2 & ->). congruence.
Qed.

Lemma player_run_ok p cs rs p' :
  player_ok p → player_run p cs = Ret (rs, p') →
  player_ok p' ∧ identity (session (state p')) = identity (session (state p)).
Proof.
  revert p rs. induction cs as [|c cs IH]; intros p rs Hok.
  - by intros [= <- <-].
  - intros (r & p1 & rs' & Hh & Hr & ->)%player_run_cons.
    destruct (handle_ok _ _ _ _ Hok Hh) as [Hok1 Hid1]. destruct (IH _ _ Hok1 Hr) as [? ?]. split; [done|congruence].
Qed.

Lemma player_run_ledger p cs rs p' :
  player_ok p → player_run p cs = Ret (rs, p') →
  currency_balance (economy (state p')) + total price_of (executed rs) = currency_balance (economy (state p)) ∧
  purchased_item_count (economy (state p')) = purchased_item_count (economy (state p)) + total items_of (executed rs).
Proof.
  revert p rs. induction cs as [|c cs IH]; intros p rs Hok.
  - intros [= <- <-]. simpl. lia.
  - intros (r & p1 & rs' & Hh & Hr & ->)%player_run_cons.
    destruct (handle_ledger _ _ _ _ Hok Hh). destruct (IH _ _ (proj1 (handle_ok _ _ _ _ Hok Hh)) Hr).
    rewrite executed_cons, !total_app. lia.
Qed.

(** Evidence is never overwritten or dropped by a command. *)
Lemma handle_evidence p c res p' key ev :
  handle p c = Ret (res, p') → purchase_evidence p !! key = Some ev → purchase_evidence p' !! key = Some ev.
Proof.
  intros (p1 & Hc & ->)%handle_ret Hev. simpl.
  apply handleCommand_cases in Hc as [(k & product & -> & Hc)|(-> & _)]; [|done].
  apply handlePurchase_cases in Hc as (player & r & Hid & -> & [[-> Hf]|(d & Hnone & Hd & Hcap & Hr & ->)]); [done|].
  simpl. rewrite lookup_insert_ne; [done|]. intros ->. congruence.
Qed.

Lemma player_run_evidence p cs rs p' key ev :
  player_run p cs = Ret (rs, p') → purchase_evidence p !! key = Some ev → purchase_evidence p' !! key = Some ev.
Proof.
  revert p rs. induction cs as [|c cs IH]; intros p rs.
  - by intros [= <- <-].
  - intros (r & p1 & rs' & Hh & Hr & ->)%player_run_cons Hev. eauto using handle_evidence.
Qed.

(** An executed purchase leaves evidence under its key, and had none before. *)
Lemma executed_evidence p c res p' t :
  handle p c = Ret (res, p') → t ∈ executed [res] →
  c = PurchaseCommand (pt_idempotency_key t) (pt_product t) ∧
  purchase_evidence p !! pt_idempotency_key t = None ∧
  purchase_evidence p' !! pt_idempotency_key t = Some (mkPurchaseEvidence (pt_product t) t).
Proof.
  intros (p1 & Hc & ->)%handle_ret Ht. simpl.
  apply handleCommand_cases in Hc as [(k & product & -> & Hc)|(_ & E & _)];
    [|rewrite E in Ht; by apply elem_of_nil in Ht].
  apply handlePurchase_cases in Hc as (player & r & Hid & -> & [[-> Hf]|(d & Hnone & Hd & Hcap & Hr & ->)]);
    unfold executed in Ht; simpl in Ht; [rewrite Hf in Ht; by apply elem_of_nil in Ht|].
  destruct (fresh_commit r); simpl in Ht; [|by apply elem_of_nil in Ht].
  apply list_elem_of_singleton in Ht as ->. rewrite Hr. simpl. split_and!; try done.
  by rewrite lookup_insert_eq.
Qed.

(** ** Write-back *)

(** The component of the state is the one the record holds.  The session
    component is the location: the count of handled commands is in the record
    too, but no component stands for it ([command_count_untracked]). *)
Definition component_saved (c : PlayerStateComponent) (r : PlayerRecord) (s : PlayerState) : Prop :=
  match c with
  | SessionComponent => rec_last_location r = last_location (session s)
  | EconomyComponent => rec_currency_balance r = currency_balance (economy s) ∧
                        rec_purchased_item_count r = purchased_item_count (economy s)
  | ProgressionComponent => rec_street_experience r = street_experience s
  | SkillsComponent => rec_skill_loadout r = skill_loadout s
  end.

(** Every component that differs from the stored record is marked dirty. *)
Definition synced (r : PlayerRecord) (s : PlayerState) : Prop :=
  ∀ c, is_dirty c s = false → component_saved c r s.

(** Everything that changes a player between two flushes. *)
Inductive player_step : Player → Player → Prop :=
| step_handle p c res p' : handle p c = Ret (res, p') → player_step p p'
| step_location p location : player_step p (setLastLocation p location)
| step_experience p experience : player_step p (grantStreetExperience p experience).

(** A step leaves every component it does not mark as it was, and unmarks none. *)
Definition tracked (s s' : PlayerState) : Prop :=
  ∀ c, (is_dirty c s = true → is_dirty c s' = true) ∧
       (is_dirty c s' = false → ∀ r, component_saved c r s → component_saved c r s').

Lemma tracked_refl s : tracked s s.
Proof. by intros c. Qed.

Lemma tracked_trans s1 s2 s3 : tracked s1 s2 → tracked s2 s3 → tracked s1 s3.
Proof.
  intros H12 H23 c. destruct (H12 c) as [Hd12 Hs12], (H23 c) as [Hd23 Hs23]. split; [auto|].
  intros Hd r Hr. apply Hs23; [done|]. apply Hs12; [|done].
  destruct (is_dirty c s2) eqn:E; [|done]. by rewrite Hd23 in Hd.
Qed.

(** Marking one component dirty covers any change confined to it. *)
Lemma tracked_mark c s s' :
  dirty_components s' = dirty_components s →
  (∀ c' r, c' ≠ c → component_saved c' r s → component_saved c' r s') →
  tracked s (mark_dirty c s').
Proof.
  intros Hdirty Hsame c'. rewrite is_dirty_mark. unfold is_dirty at 2 3. rewrite Hdirty. split.
  - intros Hd. unfold is_dirty in Hd. by rewrite Hd.
  - intros [_ Hne]%orb_false_elim r Hr. apply bool_decide_eq_false in Hne.
    specialize (Hsame c' r ltac:(congruence) Hr). by destruct c'.
Qed.

Lemma tracked_commit w s : tracked s (commitPurchase w s).
Proof.
  unfold commitPurchase. destruct (bool_decide _); [|apply tracked_refl].
  assert (H1 : tracked s (mark_dirty EconomyComponent
    (with_economy (mkEconomy (work_balance w) (work_item_count w)) s))).
  { apply tracked_mark; [done|]. by intros [] r. }
  destruct (work_skills_changed w); [|done].
  eapply tracked_trans; [exact H1|]. apply tracked_mark; [done|]. by intros [] r.
Qed.

Lemma handle_tracked p c res p' : handle p c = Ret (res, p') → tracked (state p) (state p').
Proof.
  intros (p1 & Hc & ->)%handle_ret.
  apply tracked_trans with (state p1); [|by intros []].
  destruct c as [bytes|player|key product|room|skill]; simpl in Hc.
  - injection Hc as <- <-. apply tracked_refl.
  - unfold handleAuthenticate in Hc. apply throw_if_ret in Hc as [_ [= <- <-]]. apply tracked_refl.
  - apply handlePurchase_cases in Hc as (player & r & Hid & -> & [[-> Hf]|(d & Hnone & Hd & Hcap & Hr & ->)]);
      [apply tracked_refl|apply tracked_commit].
  - unfold handleJoinRoom in Hc. apply throw_if_ret in Hc as [_ [= <- <-]]. apply tracked_refl.
  - unfold handleEquipSkill in Hc. apply throw_if_ret in Hc as [_ Hc].
    unfold equipSkillId in Hc. repeat case_match; simplify_eq; simpl;
      try (intros []; by split); apply tracked_mark; try done; by intros [] r.
Qed.

Lemma player_step_tracked p p' : player_step p p' → tracked (state p) (state p').
Proof.
  destruct 1 as [p c res p' H|p location|p experience].
  - by eapply handle_tracked.
  - apply tracked_mark; [done|]. by intros [] r.
  - apply tracked_mark; [done|]. by intros [] r.
Qed.

Lemma player_steps_tracked p p' : rtc player_step p p' → tracked (state p) (state p').
Proof.
  induction 1; [apply tracked_refl|]. eauto using tracked_trans, player_step_tracked.
Qed.

Lemma tracked_synced r s s' : tracked s s' → synced r s → synced r s'.
Proof.
  intros Ht Hs c Hd. destruct (Ht c) as [Hmono Hsame]. apply Hsame; [done|]. apply Hs.
  destruct (is_dirty c s); [by rewrite Hmono in Hd|done].
Qed.

Lemma snapshot_synced p r : snapshot p = Ret r → ∀ c, component_saved c r (state p).
Proof.
  unfold snapshot. destruct (identity _); [|done]. intros [= <-] []; simpl; done.
Qed.

Definition demo_player : Player :=
  mkPlayer (mkPlayerState (mkSession (Some 42) 0 None) (mkEconomy 1000 0) 0 defaultLoadout 0) 1024 ∅.

Lemma demo_player_ok : player_ok demo_player.
Proof. apply (makePlayer_ok (Some 42) 1024); [lia|reflexivity]. Qed.

(** ** Properties *)

(** Over any run of commands the account balances: the final balance plus
    the prices of the purchases reported as freshly committed is the initial
    balance, the inventory grows by exactly their grants, and the player stays
    well formed (so the balance never wraps below zero and the evidence map
    never exceeds its capacity). *)
Theorem purchase_ledger_balances p cs rs p' :
  player_ok p → player_run p cs = Ret (rs, p') →
  player_ok p' ∧
  currency_balance (economy (state p')) + total price_of (executed rs) = currency_balance (economy (state p)) ∧
  purchased_item_count (economy (state p'))
    = purchased_item_count (economy (state p)) + total items_of (executed rs).
Proof.
  intros Hok Hr. split; [by eapply player_run_ok|]. by eapply player_run_ledger.
Qed.

Lemma purchase_ledger_balances_witness :
  ∃ rs p', player_run demo_player [PurchaseCommand 1 2; PurchaseCommand 1 2; PurchaseCommand 2 1; PurchaseCommand 3 9]
           = Ret (rs, p') ∧ currency_balance (economy (state p')) + total price_of (executed rs) = 1000 ∧
           total price_of (executed rs) = 600.
Proof.
  eexists _, _. split; [vm_compute; reflexivity|]. split; [|vm_compute; reflexivity].
  refine (proj1 (proj2 (purchase_ledger_balances demo_player
    [PurchaseCommand 1 2; PurchaseCommand 1 2; PurchaseCommand 2 1; PurchaseCommand 3 9] _ _ demo_player_ok _))).
  vm_compute; reflexivity.
Defined.

(** C5: an idempotency key is charged at most once: in any run the executed
    purchases carry pairwise distinct keys, and none of them is a key whose
    evidence the player already held. *)
Theorem purchase_at_most_once p cs rs p' :
  player_run p cs = Ret (rs, p') →
  NoDup (pt_idempotency_key <$> executed rs) ∧
  ∀ t, t ∈ executed rs → purchase_evidence p !! pt_idempotency_key t = None.
Proof.
  revert p rs. induction cs as [|c cs IH]; intros p rs.
  - intros [= <- <-]. split; [constructor|]. by intros t ?%elem_of_nil.
  - intros (r & p1 & rs' & Hh & Hr & ->)%player_run_cons.
    destruct (IH _ _ Hr) as [Hnd Hnone]. rewrite executed_cons, fmap_app.
    assert (Hlater : ∀ t, t ∈ executed rs' → purchase_evidence p !! pt_idempotency_key t = None).
    { intros t Ht. destruct (purchase_evidence p !! _) as [ev|] eqn:E; [|done].
      apply (handle_evidence _ _ _ _ _ _ Hh) in E. by rewrite Hnone in E. }
    split.
    + apply NoDup_app. split_and!; [|intros k|done].
      * destruct (handle_ret p c r p1) as [Hinv _]. destruct (Hinv Hh) as (q & Hc & _).
        apply handleCommand_cases in Hc as [(key & product & -> & Hc)|(_ & -> & _)]; [|constructor].
        apply handlePurchase_cases in Hc as (player & t & _ & -> & _). unfold executed; simpl.
        destruct (fresh_commit t); repeat constructor. by intros ?%elem_of_nil.
      * intros (t & -> & Ht)%list_elem_of_fmap (u & Hk & Hu)%list_elem_of_fmap.
        destruct (executed_evidence _ _ _ _ _ Hh Ht) as (_ & _ & E).
        rewrite Hk, Hnone in E; done.
    + intros t [Ht|Ht]%elem_of_app; [|auto]. by destruct (executed_evidence _ _ _ _ _ Hh Ht) as (_ & ? & _).
Qed.

Lemma purchase_at_most_once_witness :
  ∃ rs p', player_run demo_player [PurchaseCommand 1 2; PurchaseCommand 1 2; PurchaseCommand 2 1] = Ret (rs, p') ∧
           length (executed rs) = 2%nat ∧ NoDup (pt_idempotency_key <$> executed rs).
Proof.
  eexists _, _. split; [vm_compute; reflexivity|]. split; [reflexivity|].
  refine (proj1 (purchase_at_most_once demo_player [PurchaseCommand 1 2; PurchaseCommand 1 2; PurchaseCommand 2 1] _ _ _)).
  vm_compute; reflexivity.
Defined.

(** A retried purchase is a faithful replay: once a key's transaction ran,
    repeating the command after any further commands answers with the same
    status, player, key and product, flags the answer as replayed, reports the
    current balance and changes nothing but the command counter. *)
Theorem purchase_replay_faithful p key product ev cs rs p1 :
  player_ok p → purchase_evidence p !! key = Some ev → evidence_product ev = product →
  player_run p cs = Ret (rs, p1) →
  handle p1 (PurchaseCommand key product)
  = Ret (respond (PurchaseResponse
           (mkPurchaseTransactionResult (pt_status (evidence_result ev)) (pt_player (evidence_result ev)) key product
              (currency_balance (economy (state p1))) (purchased_item_count (economy (state p1))) true)),
         with_state p1 (count_command (state p1))).
Proof.
  intros Hok Hev Hprod Hrun.
  destruct (ok_evidence p Hok _ _ Hev) as (Hkey & Hp & Hid).
  destruct (player_run_ok _ _ _ _ Hok Hrun) as [_ Hid1]. rewrite Hid in Hid1.
  pose proof (player_run_evidence _ _ _ _ _ _ Hrun Hev) as Hev1.
  unfold handle, handleCommand, handlePurchase. rewrite Hid1, Hev1, Hprod, Z.eqb_refl. simpl.
  rewrite Hkey, Hp, Hprod. done.
Qed.

Lemma purchase_replay_faithful_witness :
  ∃ p res p', handle demo_player (PurchaseCommand 1 2) = Ret (res, p) ∧
    handle p (PurchaseCommand 1 2) = Ret (respond (PurchaseResponse
      (mkPurchaseTransactionResult Committed 42 1 2 500 0 true)), p').
Proof.
  eexists _, _, _. split; [vm_compute; reflexivity|].
  etransitivity; [refine (purchase_replay_faithful _ 1 2
    (mkPurchaseEvidence 2 (mkPurchaseTransactionResult Committed 42 1 2 500 0 false)) [] [] _ _ _ _ _)|].
  - eapply (handle_ok demo_player (PurchaseCommand 1 2)); [apply demo_player_ok|vm_compute; reflexivity].
  - vm_compute; reflexivity.
  - reflexivity.
  - reflexivity.
  - reflexivity.
Defined.

(** A command throws exactly when it reaches the wrong actor: an
    authentication for another player, or a purchase, room join or equip on a
    provisional actor; nothing else fails. *)
Theorem handle_throws_iff p c e :
  handle p c = Throw e ↔
  e = LogicError ∧
  match c with
  | PingCommand _ => False
  | AuthenticateCommand player => identity (session (state p)) ≠ Some player
  | PurchaseCommand _ _ | JoinRoomRequest _ | EquipSkillCommand _ => identity (session (state p)) = None
  end.
Proof.
  unfold handle. destruct c as [bytes|player|key product|room|skill]; simpl.
  - naive_solver.
  - unfold handleAuthenticate, throw_if. case_bool_decide; simpl; naive_solver.
  - unfold handlePurchase. repeat case_match; simpl; naive_solver.
  - unfold handleJoinRoom, throw_if. destruct (identity _); simpl; naive_solver.
  - unfold handleEquipSkill, throw_if. destruct (identity _); simpl; [|naive_solver].
    destruct (equipSkillId _ _) as [[] l']; simpl; naive_solver.
Qed.

(** The count of handled commands has no dirty bit: a command may change it and
    leave the player clean, so that no write-back is due; the next write-back
    for another reason carries it along. *)
Lemma command_count_untracked :
  ∃ res p', handle demo_player (PingCommand []) = Ret (res, p') ∧ handled_command_count (session (state p')) = 1 ∧
    handled_command_count (session (state demo_player)) = 0 ∧ dirty_components (state p') = 0 ∧ hasFlushableDirtyState p' = false.
Proof. eexists _, _. split; [vm_compute; reflexivity|]. by vm_compute. Qed.

(** C39: the dirty bits never lose an update of the location, the balance, the
    items, the experience or the skills (the count of handled commands has no
    bit).  If every one of these components that differs from the stored record
    is marked, then a flush returns the complete current state, the count of
    handled commands included, leaves the player clean against it, and, should
    that save fail after any further activity, re-marking the cleared components
    makes the bits sound against the old record again. *)
Theorem writeback_never_loses r p rec cleared p1 p2 :
  synced r (state p) → takeDirtySnapshot p = Ret (Some rec, cleared, p1) → rtc player_step p1 p2 →
  snapshot p = Ret rec ∧ rec_handled_command_count rec = handled_command_count (session (state p)) ∧
  synced rec (state p1) ∧ synced rec (state p2) ∧
  synced r (state (restoreDirtyComponents p2 cleared)).
Proof.
  intros Hs Htake Hsteps. unfold takeDirtySnapshot in Htake.
  destruct (hasFlushableDirtyState p); [|done]. simpl in Htake.
  destruct (snapshot p) as [rec'|] eqn:Esnap; [|done]. simpl in Htake.
  injection Htake as -> <- <-.
  assert (Hcount : rec_handled_command_count rec = handled_command_count (session (state p))).
  { unfold snapshot in Esnap. destruct (identity _); [|done]. by injection Esnap as <-. }
  assert (Hp1 : ∀ c, component_saved c rec (with_dirty 0 (state p))).
  { intros c. pose proof (snapshot_synced _ _ Esnap c) as H. by destruct c. }
  pose proof (player_steps_tracked _ _ Hsteps) as Ht. split_and!.
  - done.
  - done.
  - by intros c _.
  - eapply tracked_synced; [exact Ht|]. by intros c _.
  - intros c. rewrite is_dirty_restore. intros [Hd2 Hd]%orb_false_elim.
    assert (Hold : component_saved c r (state p)) by (by apply Hs).
    destruct (Ht c) as [_ Hsame]. specialize (Hsame Hd2 r). by destruct c; apply Hsame.
Qed.

Lemma writeback_never_loses_witness :
  let p := grantStreetExperience demo_player 300 in
  let r := mkPlayerRecord 42 0 None 1000 0 0 defaultLoadout in
  ∃ rec p1, takeDirtySnapshot p = Ret (Some rec, 4, p1) ∧ rec_street_experience rec = 300 ∧
    synced r (state (restoreDirtyComponents (setLastLocation p1 None) 4)).
Proof.
  intros p r. eexists _, _. split; [vm_compute; reflexivity|]. split; [reflexivity|].
  refine (proj2 (proj2 (proj2 (proj2 (writeback_never_loses r p _ 4 _ _ _ _ _))))).
  - intros []; vm_compute; done.
  - vm_compute; reflexivity.
  - apply rtc_once. constructor.
Defined.

(** Restoring a snapshot into a fresh actor of the same player gives back
    every persistent field, clean, and a second snapshot is the same record;
    a record of any other player is refused. *)
Theorem snapshot_restore_roundtrip p r q :
  snapshot p = Ret r →
  (identity (session (state q)) = identity (session (state p)) →
   ∃ q', restore q r = Ret q' ∧ snapshot q' = Ret r ∧ hasFlushableDirtyState q' = false ∧
     session (state q') = session (state p) ∧ economy (state q') = economy (state p) ∧
     street_experience (state q') = street_experience (state p) ∧
     skill_loadout (state q') = skill_loadout (state p) ∧ purchase_evidence q' = ∅) ∧
  (identity (session (state q)) ≠ identity (session (state p)) → restore q r = Throw InvalidArgument).
Proof.
  unfold snapshot. destruct (identity (session (state p))) as [player|] eqn:Hid; [|done].
  intros [= <-]. split.
  - intros Hq. unfold restore, throw_if. simpl. rewrite bool_decide_eq_true_2 by done. simpl.
    eexists. split; [done|]. rewrite Hq. split_and!; try done; simpl.
    + rewrite <-Hid. by destruct (session (state p)).
    + by destruct (economy (state p)).
  - intros Hq. unfold restore, throw_if. simpl. by rewrite bool_decide_eq_false_2.
Qed.

Lemma snapshot_restore_roundtrip_witness :
  ∃ q', restore demo_player (mkPlayerRecord 42 0 None 1000 0 300 defaultLoadout) = Ret q' ∧
        street_experience (state q') = 300.
Proof.
  destruct (proj1 (snapshot_restore_roundtrip (grantStreetExperience demo_player 300)
    (mkPlayerRecord 42 0 None 1000 0 300 defaultLoadout) demo_player eq_refl) eq_refl)
    as (q' & Hr & _ & _ & _ & _ & Hx & _). by exists q'.
Defined.
