(* ===== verification/RoomTypes.v ===== *)
(** * The battle Room: data

    The types of [src/include/snf/game/room.hpp], [room_command.hpp],
    [room_result.hpp], [enemy.hpp] and [projectile.hpp], and the accessors and
    field updates the operations use.  Id structs are their integer values,
    vectors are lists, and a pointer into a vector is an index. *)

From S2P Require Import Prelude Arena Skills.

Abbreviation PlayerId := Z (only parsing).
Abbreviation RoomId := Z (only parsing).
Abbreviation EnemyId := Z (only parsing).
Abbreviation ProjectileId := Z (only parsing).

(** ** Enemies and projectiles *)

Inductive EnemyKind := Minion | Boss.

#[export] Instance EnemyKind_eq_dec : EqDecision EnemyKind.
Proof. solve_decision. Defined.

Record Enemy := mkEnemy {
  enemy_id : EnemyId;
  enemy_kind : EnemyKind;
  enemy_health : Z;
  enemy_position : ArenaPosition;
  attack_ready_at : time_point
}.

Record Projectile := mkProjectile {
  projectile_id : ProjectileId;
  projectile_owner : PlayerId;
  projectile_skill : SkillId;
  projectile_target : EnemyId;
  projectile_position : ArenaPosition;
  speed_per_tick : Z;
  hit_range : Z;
  projectile_damage : Z;
  expires_at : time_point
}.

(** ** Commands *)

Inductive RoomCommand :=
| JoinRoom (player : PlayerId) (stats : CombatStats) (equipped : SkillId)
| LeaveRoom (player : PlayerId)
| StartBattle
| UseSkill (player : PlayerId) (skill : SkillId) (request_sequence : Z)
| BattleDeadline
| RoomSimulationTick
| SetMoveIntent (player : PlayerId) (direction : MoveDirection) (request_sequence : Z).

(** ** Results *)

Inductive RoomPhase := Waiting | Running | Cleared | Failed.

#[export] Instance RoomPhase_eq_dec : EqDecision RoomPhase.
Proof. solve_decision. Defined.

Inductive RoomCommandStatus :=
| Applied | AlreadyJoined | RoomFull | WrongPhase | NotJoined | EntryFailed | DuplicateRequest
| SkillOnCooldown | UnknownSkill | BattleExpired | ParticipantDead | RuntimeOverloaded
| ProjectileCapacityExceeded | SkillNotEquipped.

#[export] Instance RoomCommandStatus_eq_dec : EqDecision RoomCommandStatus.
Proof. solve_decision. Defined.

Inductive BattleOutcome := OutcomeCleared | OutcomeFailed.

Inductive BattleFailureReason := Deadline | ParticipantsDefeated.

Inductive ProjectileRemovalReason := Hit | TargetLost | Expired.

Inductive BattleEvent :=
| EnemySpawned (id : EnemyId) (kind : EnemyKind) (health : Z)
| EnemyDamaged (target : EnemyId) (actor : PlayerId) (skill : SkillId) (amount health : Z)
| EnemyDied (id : EnemyId)
| SkillWhiffed (actor : PlayerId) (skill : SkillId)
| ArenaStarted (width height : Z)
| ParticipantSpawned (player : PlayerId) (position : ArenaPosition) (health : Z)
| ParticipantMoved (player : PlayerId) (position : ArenaPosition)
| EnemyPositioned (enemy : EnemyId) (position : ArenaPosition)
| ParticipantDamaged (target : PlayerId) (attacker : EnemyId) (amount health : Z)
| ParticipantDied (player : PlayerId)
| ParticipantLeft (player : PlayerId)
| ProjectileSpawned (projectile : ProjectileId) (owner : PlayerId) (skill : SkillId) (target : EnemyId)
    (position : ArenaPosition)
| ProjectileMoved (projectile : ProjectileId) (position : ArenaPosition)
| ProjectileRemoved (projectile : ProjectileId) (reason : ProjectileRemovalReason).

Record BattleDigest := mkBattleDigest { sequence : Z; events : list BattleEvent }.

Record StreetExperienceGrant := mkStreetExperienceGrant { grant_player : PlayerId; grant_experience : Z }.

Record RoomResult := mkRoomResult {
  rr_status : RoomCommandStatus;
  rr_phase : RoomPhase;
  rr_player : option PlayerId;
  rr_deadline_after : option milliseconds;
  rr_tick_after : option milliseconds;
  rr_boss_health : Z;
  rr_boss_spawned : bool;
  rr_digest : option BattleDigest;
  rr_outcome : option BattleOutcome;
  rr_failure_reason : option BattleFailureReason;
  rr_audience : list PlayerId;
  rr_grants : list StreetExperienceGrant
}.

(** ** Configuration and state *)

Record RoomConfig := mkRoomConfig {
  battle_duration : milliseconds;
  max_participants : Z;
  clear_experience : Z;
  cfg_boss_health : Z;
  tick_interval : milliseconds;
  wave_interval : milliseconds;
  wave_count : Z;
  minions_per_wave : Z;
  minion_health : Z;
  boss_spawn_after : milliseconds;
  max_spawned_enemies : Z;
  digest_flush_threshold : Z;
  max_active_projectiles : Z;
  arena_width : Z;
  arena_height : Z;
  player_move_speed : Z;
  participant_spawn_spacing : Z;
  minion_spawn_radius : Z;
  minion_move_speed : Z;
  boss_move_speed : Z;
  minion_attack_damage : Z;
  boss_attack_damage : Z;
  minion_attack_range : Z;
  boss_attack_range : Z;
  minion_attack_cooldown : milliseconds;
  boss_attack_cooldown : milliseconds
}.

(** The default member initialisers of [RoomConfig]. *)
Definition default_config : RoomConfig :=
  mkRoomConfig 90000 4 300 500 100 20000 2 10 60 40000 64 512 128 100 100 4 4 25 1 1 3 10 3 5 1000 2000.

Record SkillCooldown := mkSkillCooldown { cooldown_skill : SkillId; ready_at : time_point }.

Record Participant := mkParticipant {
  player_id : PlayerId;
  stats : CombatStats;
  equipped_skill : SkillId;
  current_health : Z;
  position : ArenaPosition;
  move_intent : MoveDirection;
  applied_skill_sequence : Z;
  applied_movement_sequence : Z;
  cooldowns : list SkillCooldown
}.

Record Room := mkRoom {
  room_id : RoomId;
  config : RoomConfig;
  phase : RoomPhase;
  battle_deadline_at : time_point;
  next_wave_at : time_point;
  boss_spawn_at : time_point;
  spawned_wave_count : Z;
  next_enemy_id : Z;
  next_projectile_id : Z;
  digest_sequence : Z;
  boss_spawned : bool;
  participants : list Participant;
  enemies : list Enemy;
  projectiles : list Projectile;
  pending_events : list BattleEvent
}.

(** ** Field updates *)

Definition set_enemy_health (h : Z) (e : Enemy) : Enemy :=
  mkEnemy (enemy_id e) (enemy_kind e) h (enemy_position e) (attack_ready_at e).
Definition set_enemy_position (p : ArenaPosition) (e : Enemy) : Enemy :=
  mkEnemy (enemy_id e) (enemy_kind e) (enemy_health e) p (attack_ready_at e).
Definition set_attack_ready_at (t : time_point) (e : Enemy) : Enemy :=
  mkEnemy (enemy_id e) (enemy_kind e) (enemy_health e) (enemy_position e) t.

Definition set_projectile_position (pos : ArenaPosition) (p : Projectile) : Projectile :=
  mkProjectile (projectile_id p) (projectile_owner p) (projectile_skill p) (projectile_target p) pos
    (speed_per_tick p) (hit_range p) (projectile_damage p) (expires_at p).

Definition set_health (h : Z) (p : Participant) : Participant :=
  mkParticipant (player_id p) (stats p) (equipped_skill p) h (position p) (move_intent p)
    (applied_skill_sequence p) (applied_movement_sequence p) (cooldowns p).
Definition set_position (pos : ArenaPosition) (p : Participant) : Participant :=
  mkParticipant (player_id p) (stats p) (equipped_skill p) (current_health p) pos (move_intent p)
    (applied_skill_sequence p) (applied_movement_sequence p) (cooldowns p).
Definition set_move_intent (d : MoveDirection) (p : Participant) : Participant :=
  mkParticipant (player_id p) (stats p) (equipped_skill p) (current_health p) (position p) d
    (applied_skill_sequence p) (applied_movement_sequence p) (cooldowns p).
Definition set_skill_sequence (n : Z) (p : Participant) : Participant :=
  mkParticipant (player_id p) (stats p) (equipped_skill p) (current_health p) (position p) (move_intent p)
    n (applied_movement_sequence p) (cooldowns p).
Definition set_movement_sequence (n : Z) (p : Participant) : Participant :=
  mkParticipant (player_id p) (stats p) (equipped_skill p) (current_health p) (position p) (move_intent p)
    (applied_skill_sequence p) n (cooldowns p).
Definition set_cooldowns (c : list SkillCooldown) (p : Participant) : Participant :=
  mkParticipant (player_id p) (stats p) (equipped_skill p) (current_health p) (position p) (move_intent p)
    (applied_skill_sequence p) (applied_movement_sequence p) c.

Definition set_phase (ph : RoomPhase) (r : Room) : Room :=
  mkRoom (room_id r) (config r) ph (battle_deadline_at r) (next_wave_at r) (boss_spawn_at r)
    (spawned_wave_count r) (next_enemy_id r) (next_projectile_id r) (digest_sequence r) (boss_spawned r)
    (participants r) (enemies r) (projectiles r) (pending_events r).
Definition set_schedule (deadline wave boss : time_point) (r : Room) : Room :=
  mkRoom (room_id r) (config r) (phase r) deadline wave boss
    (spawned_wave_count r) (next_enemy_id r) (next_projectile_id r) (digest_sequence r) (boss_spawned r)
    (participants r) (enemies r) (projectiles r) (pending_events r).
Definition set_spawned_wave_count (n : Z) (r : Room) : Room :=
  mkRoom (room_id r) (config r) (phase r) (battle_deadline_at r) (next_wave_at r) (boss_spawn_at r)
    n (next_enemy_id r) (next_projectile_id r) (digest_sequence r) (boss_spawned r)
    (participants r) (enemies r) (projectiles r) (pending_events r).
Definition set_next_enemy_id (n : Z) (r : Room) : Room :=
  mkRoom (room_id r) (config r) (phase r) (battle_deadline_at r) (next_wave_at r) (boss_spawn_at r)
    (spawned_wave_count r) n (next_projectile_id r) (digest_sequence r) (boss_spawned r)
    (participants r) (enemies r) (projectiles r) (pending_events r).
Definition set_next_projectile_id (n : Z) (r : Room) : Room :=
  mkRoom (room_id r) (config r) (phase r) (battle_deadline_at r) (next_wave_at r) (boss_spawn_at r)
    (spawned_wave_count r) (next_enemy_id r) n (digest_sequence r) (boss_spawned r)
    (participants r) (enemies r) (projectiles r) (pending_events r).
Definition set_digest_sequence (n : Z) (r : Room) : Room :=
  mkRoom (room_id r) (config r) (phase r) (battle_deadline_at r) (next_wave_at r) (boss_spawn_at r)
    (spawned_wave_count r) (next_enemy_id r) (next_projectile_id r) n (boss_spawned r)
    (participants r) (enemies r) (projectiles r) (pending_events r).
Definition set_boss_spawned (b : bool) (r : Room) : Room :=
  mkRoom (room_id r) (config r) (phase r) (battle_deadline_at r) (next_wave_at r) (boss_spawn_at r)
    (spawned_wave_count r) (next_enemy_id r) (next_projectile_id r) (digest_sequence r) b
    (participants r) (enemies r) (projectiles r) (pending_events r).
Definition set_participants (ps : list Participant) (r : Room) : Room :=
  mkRoom (room_id r) (config r) (phase r) (battle_deadline_at r) (next_wave_at r) (boss_spawn_at r)
    (spawned_wave_count r) (next_enemy_id r) (next_projectile_id r) (digest_sequence r) (boss_spawned r)
    ps (enemies r) (projectiles r) (pending_events r).
Definition set_enemies (es : list Enemy) (r : Room) : Room :=
  mkRoom (room_id r) (config r) (phase r) (battle_deadline_at r) (next_wave_at r) (boss_spawn_at r)
    (spawned_wave_count r) (next_enemy_id r) (next_projectile_id r) (digest_sequence r) (boss_spawned r)
    (participants r) es (projectiles r) (pending_events r).
Definition set_projectiles (ps : list Projectile) (r : Room) : Room :=
  mkRoom (room_id r) (config r) (phase r) (battle_deadline_at r) (next_wave_at r) (boss_spawn_at r)
    (spawned_wave_count r) (next_enemy_id r) (next_projectile_id r) (digest_sequence r) (boss_spawned r)
    (participants r) (enemies r) ps (pending_events r).
Definition set_pending_events (evs : list BattleEvent) (r : Room) : Room :=
  mkRoom (room_id r) (config r) (phase r) (battle_deadline_at r) (next_wave_at r) (boss_spawn_at r)
    (spawned_wave_count r) (next_enemy_id r) (next_projectile_id r) (digest_sequence r) (boss_spawned r)
    (participants r) (enemies r) (projectiles r) evs.

(** [_pending_events.push_back] of each event in order. *)
Definition push_events (evs : list BattleEvent) (r : Room) : Room :=
  set_pending_events (pending_events r ++ evs) r.

Definition set_digest (d : option BattleDigest) (x : RoomResult) : RoomResult :=
  mkRoomResult (rr_status x) (rr_phase x) (rr_player x) (rr_deadline_after x) (rr_tick_after x)
    (rr_boss_health x) (rr_boss_spawned x) d (rr_outcome x) (rr_failure_reason x) (rr_audience x) (rr_grants x).
Definition set_audience (a : list PlayerId) (x : RoomResult) : RoomResult :=
  mkRoomResult (rr_status x) (rr_phase x) (rr_player x) (rr_deadline_after x) (rr_tick_after x)
    (rr_boss_health x) (rr_boss_spawned x) (rr_digest x) (rr_outcome x) (rr_failure_reason x) a (rr_grants x).
Definition set_timers (deadline tick : option milliseconds) (x : RoomResult) : RoomResult :=
  mkRoomResult (rr_status x) (rr_phase x) (rr_player x) deadline tick
    (rr_boss_health x) (rr_boss_spawned x) (rr_digest x) (rr_outcome x) (rr_failure_reason x) (rr_audience x)
    (rr_grants x).
Definition set_outcome (o : BattleOutcome) (reason : option BattleFailureReason)
    (grants : list StreetExperienceGrant) (x : RoomResult) : RoomResult :=
  mkRoomResult (rr_status x) (rr_phase x) (rr_player x) (rr_deadline_after x) (rr_tick_after x)
    (rr_boss_health x) (rr_boss_spawned x) (rr_digest x) (Some o) reason (rr_audience x) grants.
