(* ===== verification/Room.v ===== *)
(** * The battle Room: operations

    Every method of [src/src/game/room.cpp].  A method that changes the room
    takes and returns it; a loop over a vector is a [Fixpoint] that returns the
    rewritten vector together with the events it pushed, in push order.  A
    pointer to a participant is its index in the vector. *)

From S2P Require Import Prelude Arena Skills RoomTypes.

(** ** Construction *)

Definition waves_before_boss (c : RoomConfig) : Z := boss_spawn_after c / wave_interval c.
Definition total_enemies (c : RoomConfig) : Z := u64 (u64 (wave_count c * minions_per_wave c) + 1).
Definition formation_members (c : RoomConfig) : Z := u64 (max_participants c - 1).
Definition formation_span (c : RoomConfig) : Z := u64 (participant_spawn_spacing c * formation_members c).
Definition reserve_base (c : RoomConfig) : Z := u64 (digest_flush_threshold c + max_participants c).
Definition MAX_EVENTS_PER_ENEMY := 3.
Definition MAX_EVENTS_PER_PROJECTILE := 4.
Definition MAX_ARENA_EXTENT := I32_MAX.

(** [Room::Room]: the checks in the order of the source. *)
Definition makeRoom (room : RoomId) (c : RoomConfig) : outcome Room :=
  let center_x := arena_width c / 2 in
  let center_y := arena_height c / 2 in
  let right_space := u64 (u32 (arena_width c - 1) - center_x) in
  let bottom_space := u64 (u32 (arena_height c - 1) - center_y) in
  let radius := minion_spawn_radius c in
  let enemy_event_reserve := u64 (MAX_EVENTS_PER_ENEMY * max_spawned_enemies c) in
  let remaining_event_capacity := u64 (u64 (SIZE_MAX - reserve_base c) - enemy_event_reserve) in
  throw_if (room =? 0) InvalidArgument
  (throw_if (battle_duration c <=? 0) InvalidArgument
  (throw_if (max_participants c =? 0) InvalidArgument
  (throw_if (cfg_boss_health c =? 0) InvalidArgument
  (throw_if (tick_interval c <=? 0) InvalidArgument
  (throw_if (wave_interval c <=? 0) InvalidArgument
  (throw_if (minion_health c =? 0) InvalidArgument
  (throw_if ((boss_spawn_after c <=? 0) || (battle_duration c <=? boss_spawn_after c)) InvalidArgument
  (throw_if ((max_spawned_enemies c =? 0) || (U32_MAX <? max_spawned_enemies c)) InvalidArgument
  (throw_if ((max_active_projectiles c =? 0) || (U32_MAX <? max_active_projectiles c)) InvalidArgument
  (throw_if (digest_flush_threshold c =? 0) InvalidArgument
  (throw_if (negb (eqb (wave_count c =? 0) (minions_per_wave c =? 0))) InvalidArgument
  (throw_if (negb (wave_count c =? 0) && (u64 (SIZE_MAX - 1) / wave_count c <? minions_per_wave c)) InvalidArgument
  (throw_if (max_spawned_enemies c <? total_enemies c) InvalidArgument
  (throw_if ((1 <? wave_count c) && (u64 (waves_before_boss c) <? u64 (wave_count c - 1))) InvalidArgument
  (throw_if ((arena_width c =? 0) || (arena_height c =? 0)
             || (MAX_ARENA_EXTENT <? arena_width c) || (MAX_ARENA_EXTENT <? arena_height c)) InvalidArgument
  (throw_if ((player_move_speed c =? 0) || (minion_move_speed c =? 0) || (boss_move_speed c =? 0)) InvalidArgument
  (throw_if ((participant_spawn_spacing c =? 0) || (minion_spawn_radius c =? 0)) InvalidArgument
  (throw_if ((minion_attack_damage c =? 0) || (boss_attack_damage c =? 0)
             || (minion_attack_range c =? 0) || (boss_attack_range c =? 0)) InvalidArgument
  (throw_if ((minion_attack_cooldown c <=? 0) || (boss_attack_cooldown c <=? 0)) InvalidArgument
  (throw_if ((center_x <? radius) || (center_y <? radius) || (right_space <? radius) || (bottom_space <? radius))
     InvalidArgument
  (throw_if (U64_MAX / participant_spawn_spacing c <? formation_members c) InvalidArgument
  (throw_if ((center_x <? formation_span c / 2)
             || (arena_width c <=? u64 (u64 (center_x - formation_span c / 2) + formation_span c))) InvalidArgument
  (throw_if (u64 (SIZE_MAX - digest_flush_threshold c) <? max_participants c) InvalidArgument
  (throw_if (u64 (SIZE_MAX - reserve_base c) / MAX_EVENTS_PER_ENEMY <? max_spawned_enemies c) InvalidArgument
  (throw_if (remaining_event_capacity / MAX_EVENTS_PER_PROJECTILE <? max_active_projectiles c) InvalidArgument
  (Ret (mkRoom room c Waiting 0 0 0 0 1 1 0 false [] [] [] []))))))))))))))))))))))))))).

(** ** Queries *)

Definition canStartBattle (r : Room) : bool :=
  bool_decide (phase r = Waiting) && negb (bool_decide (length (participants r) = 0%nat)).

Definition is_boss (e : Enemy) : bool := bool_decide (enemy_kind e = Boss).

Definition boss (r : Room) : option Enemy := find_first is_boss (enemies r).

Definition bossHealth (r : Room) : Z :=
  match boss r with None => 0 | Some e => enemy_health e end.

(** [findParticipant]: the index and the participant it points to. *)
Definition findParticipant (r : Room) (player : PlayerId) : option (nat * Participant) :=
  let i := lower_bound player_id player (participants r) in
  match participants r !! i with
  | Some p => if player_id p =? player then Some (i, p) else None
  | None => None
  end.

Definition statsOf (r : Room) (player : PlayerId) : option CombatStats :=
  (fun ip => stats ip.2) <$> findParticipant r player.
Definition healthOf (r : Room) (player : PlayerId) : option Z :=
  (fun ip => current_health ip.2) <$> findParticipant r player.
Definition positionOf (r : Room) (player : PlayerId) : option ArenaPosition :=
  (fun ip => position ip.2) <$> findParticipant r player.

Definition projectileById (r : Room) (id : ProjectileId) : option Projectile :=
  find_first (fun p => projectile_id p =? id) (projectiles r).

(** The scan of [nearestLivingParticipant]: [i] is the index of the head of
    [ps], [nearest] the best candidate so far with its distance. *)
Fixpoint nearest_loop (origin : ArenaPosition) (i : nat) (nearest : option (nat * Participant)) (distance : Z)
    (ps : list Participant) : option (nat * Participant) :=
  match ps with
  | [] => nearest
  | p :: ps' =>
      if current_health p =? 0 then nearest_loop origin (S i) nearest distance ps'
      else
        let d := squaredDistance origin (position p) in
        let better := match nearest with
                      | None => true
                      | Some (_, n) => (d <? distance) || ((d =? distance) && (player_id p <? player_id n))
                      end in
        if better then nearest_loop origin (S i) (Some (i, p)) d ps'
        else nearest_loop origin (S i) nearest distance ps'
  end.

Definition nearestLivingParticipant (ps : list Participant) (origin : ArenaPosition) : option (nat * Participant) :=
  nearest_loop origin 0 None U64_MAX ps.

(** [findLivingEnemy]: index of the first enemy with the id, if it lives. *)
Fixpoint find_enemy (target : EnemyId) (es : list Enemy) : option (nat * Enemy) :=
  match es with
  | [] => None
  | e :: es' => if enemy_id e =? target then Some (0%nat, e)
                else (fun ie => (S ie.1, ie.2)) <$> find_enemy target es'
  end.

Definition findLivingEnemy (es : list Enemy) (target : EnemyId) : option (nat * Enemy) :=
  match find_enemy target es with
  | Some (i, e) => if enemy_health e =? 0 then None else Some (i, e)
  | None => None
  end.

Fixpoint target_loop (origin : ArenaPosition) (acquisition_range : Z) (nearest : option Enemy) (distance : Z)
    (es : list Enemy) : option Enemy :=
  match es with
  | [] => nearest
  | e :: es' =>
      if (enemy_health e =? 0) || negb (isWithinRange origin (enemy_position e) acquisition_range)
      then target_loop origin acquisition_range nearest distance es'
      else
        let d := squaredDistance origin (enemy_position e) in
        let better := match nearest with
                      | None => true
                      | Some n => (d <? distance) || ((d =? distance) && (enemy_id e <? enemy_id n))
                      end in
        if better then target_loop origin acquisition_range (Some e) d es'
        else target_loop origin acquisition_range nearest distance es'
  end.

Definition findTargetEnemy (r : Room) (origin : ArenaPosition) (acquisition_range : Z) : option Enemy :=
  target_loop origin acquisition_range None U64_MAX (enemies r).

Definition allParticipantsDead (ps : list Participant) : bool :=
  negb (bool_decide (length ps = 0%nat)) && negb (existsb (fun p => 0 <? current_health p) ps).

Definition enemyMoveSpeed (c : RoomConfig) (k : EnemyKind) : Z :=
  match k with Minion => minion_move_speed c | Boss => boss_move_speed c end.
Definition enemyAttackRange (c : RoomConfig) (k : EnemyKind) : Z :=
  match k with Minion => minion_attack_range c | Boss => boss_attack_range c end.
Definition enemyAttackDamage (c : RoomConfig) (k : EnemyKind) : Z :=
  match k with Minion => minion_attack_damage c | Boss => boss_attack_damage c end.
Definition enemyAttackCooldown (c : RoomConfig) (k : EnemyKind) : milliseconds :=
  match k with Minion => minion_attack_cooldown c | Boss => boss_attack_cooldown c end.

Definition audience (r : Room) : list PlayerId := player_id <$> participants r.

(** ** Results, digests and the end of a battle *)

Definition baseResult (r : Room) (status : RoomCommandStatus) (player : option PlayerId) : RoomResult :=
  mkRoomResult status (phase r) player None None (bossHealth r) (boss_spawned r) None None None [] [].

Definition takeDigest (r : Room) : option BattleDigest * Room :=
  match pending_events r with
  | [] => (None, r)
  | evs =>
      let n := u64 (digest_sequence r + 1) in
      (Some (mkBattleDigest n evs), set_pending_events [] (set_digest_sequence n r))
  end.

Definition failBattle (r : Room) (status : RoomCommandStatus) (player : option PlayerId)
    (reason : BattleFailureReason) : RoomResult * Room :=
  let r1 := set_projectiles [] (set_phase Failed r) in
  let result := baseResult r1 status player in
  let '(digest, r2) := takeDigest r1 in
  (set_audience (audience r2) (set_outcome OutcomeFailed (Some reason) [] (set_digest digest result)), r2).

Definition rewardClear (r : Room) : list StreetExperienceGrant :=
  (fun p => mkStreetExperienceGrant (player_id p) (clear_experience (config r))) <$> participants r.

Definition clearBattle (r : Room) (player : option PlayerId) : RoomResult * Room :=
  let r1 := set_projectiles [] (set_phase Cleared r) in
  let result := baseResult r1 Applied player in
  let '(digest, r2) := takeDigest r1 in
  (set_audience (audience r2) (set_outcome OutcomeCleared None (rewardClear r2) (set_digest digest result)), r2).

(** ** Battle set-up *)

Fixpoint initialize_loop (c : RoomConfig) (count : Z) (index : Z) (ps : list Participant)
    : list Participant * list BattleEvent :=
  match ps with
  | [] => ([], [])
  | p :: ps' =>
      let spawn := centeredParticipantPosition index count (arena_width c) (arena_height c)
                     (participant_spawn_spacing c) in
      let p' := set_move_intent Stop (set_position spawn (set_health (stat_health (stats p)) p)) in
      let '(qs, evs) := initialize_loop c count (index + 1) ps' in
      (p' :: qs, ParticipantSpawned (player_id p') (position p') (current_health p') :: evs)
  end.

Definition initializeArena (r : Room) : Room :=
  let c := config r in
  let '(ps, evs) := initialize_loop c (zlen (participants r)) 0 (participants r) in
  push_events (ArenaStarted (arena_width c) (arena_height c) :: evs) (set_participants ps r).

(** ** The simulation tick *)

Fixpoint move_loop (c : RoomConfig) (ps : list Participant) : list Participant * list BattleEvent :=
  match ps with
  | [] => ([], [])
  | p :: ps' =>
      let '(qs, evs) := move_loop c ps' in
      if current_health p =? 0 then (p :: qs, evs)
      else
        let moved := moveInDirection (position p) (move_intent p) (player_move_speed c) (arena_width c)
                       (arena_height c) in
        if bool_decide (moved = position p) then (p :: qs, evs)
        else (set_position moved p :: qs, ParticipantMoved (player_id p) moved :: evs)
  end.

Definition moveParticipants (r : Room) : Room :=
  let '(ps, evs) := move_loop (config r) (participants r) in
  push_events evs (set_participants ps r).

(** One enemy's approach: it moves when its target is out of attack range. *)
Definition approach (c : RoomConfig) (e : Enemy) (target : ArenaPosition) : Enemy * list BattleEvent :=
  if negb (isWithinRange (enemy_position e) target (enemyAttackRange c (enemy_kind e))) then
    let moved := moveToward (enemy_position e) target (enemyMoveSpeed c (enemy_kind e)) (arena_width c)
                   (arena_height c) in
    if negb (bool_decide (moved = enemy_position e))
    then (set_enemy_position moved e, [EnemyPositioned (enemy_id e) moved])
    else (e, [])
  else (e, []).

(** The loop of [actEnemies]: the result also says whether the battle goes on. *)
Fixpoint act_loop (c : RoomConfig) (now : time_point) (es : list Enemy) (ps : list Participant)
    : list Enemy * list Participant * list BattleEvent * bool :=
  match es with
  | [] => ([], ps, [], true)
  | e :: es' =>
      if enemy_health e =? 0 then
        let '(fs, qs, evs, alive) := act_loop c now es' ps in (e :: fs, qs, evs, alive)
      else
        match nearestLivingParticipant ps (enemy_position e) with
        | None => (e :: es', ps, [], negb (allParticipantsDead ps))
        | Some (i, target) =>
            let '(e1, moved) := approach c e (position target) in
            if (now <? attack_ready_at e1)
               || negb (isWithinRange (enemy_position e1) (position target) (enemyAttackRange c (enemy_kind e1)))
            then
              let '(fs, qs, evs, alive) := act_loop c now es' ps in (e1 :: fs, qs, moved ++ evs, alive)
            else
              let damage := Z.min (enemyAttackDamage c (enemy_kind e1)) (current_health target) in
              let t1 := set_health (u64 (current_health target - damage)) target in
              let e2 := set_attack_ready_at (after now (enemyAttackCooldown c (enemy_kind e1))) e1 in
              let hurt := moved ++ [ParticipantDamaged (player_id t1) (enemy_id e2) damage (current_health t1)] in
              if current_health t1 =? 0 then
                let t2 := set_move_intent Stop t1 in
                let ps1 := <[i := t2]> ps in
                let killed := hurt ++ [ParticipantDied (player_id t2)] in
                if allParticipantsDead ps1 then (e2 :: es', ps1, killed, false)
                else
                  let '(fs, qs, evs, alive) := act_loop c now es' ps1 in (e2 :: fs, qs, killed ++ evs, alive)
              else
                let '(fs, qs, evs, alive) := act_loop c now es' (<[i := t1]> ps) in
                (e2 :: fs, qs, hurt ++ evs, alive)
        end
  end.

Definition actEnemies (r : Room) (now : time_point) : bool * Room :=
  let '(es, ps, evs, alive) := act_loop (config r) now (enemies r) (participants r) in
  (alive, push_events evs (set_participants ps (set_enemies es r))).

(** The minions of one wave: [n] of them are left, [index] is the next. *)
Fixpoint spawn_loop (c : RoomConfig) (now : time_point) (n : nat) (index : Z) (next_id : Z)
    : list Enemy * list BattleEvent * Z :=
  match n with
  | O => ([], [], next_id)
  | S n' =>
      let e := mkEnemy next_id Minion (minion_health c)
                 (squarePerimeterPosition index (minions_per_wave c) (arena_width c) (arena_height c)
                    (minion_spawn_radius c))
                 (after now (minion_attack_cooldown c)) in
      let '(es, evs, next') := spawn_loop c now n' (index + 1) (u32 (next_id + 1)) in
      (e :: es,
       EnemySpawned (enemy_id e) (enemy_kind e) (enemy_health e) :: EnemyPositioned (enemy_id e) (enemy_position e)
         :: evs,
       next')
  end.

Definition spawnWave (r : Room) (now : time_point) : Room :=
  if wave_count (config r) <=? spawned_wave_count r then r
  else
    let '(es, evs, next) := spawn_loop (config r) now (Z.to_nat (minions_per_wave (config r))) 0 (next_enemy_id r) in
    set_spawned_wave_count (u64 (spawned_wave_count r + 1))
      (push_events evs (set_next_enemy_id next (set_enemies (enemies r ++ es) r))).

Definition spawnBoss (r : Room) (now : time_point) : Room :=
  if boss_spawned r then r
  else
    let c := config r in
    let e := mkEnemy (next_enemy_id r) Boss (cfg_boss_health c) (bossSpawnPosition (arena_width c))
               (after now (boss_attack_cooldown c)) in
    set_boss_spawned true
      (push_events [EnemySpawned (enemy_id e) (enemy_kind e) (enemy_health e);
                    EnemyPositioned (enemy_id e) (enemy_position e)]
        (set_next_enemy_id (u32 (next_enemy_id r + 1)) (set_enemies (enemies r ++ [e]) r))).

(** [while (_spawned_wave_count < wave_count && now >= _next_wave_at)]. *)
Definition wave_due (r : Room) (now : time_point) : bool :=
  (spawned_wave_count r <? wave_count (config r)) && (next_wave_at r <=? now).

Definition spawn_due_wave (r : Room) (now : time_point) : Room :=
  let r1 := spawnWave r now in
  set_schedule (battle_deadline_at r1) (after (next_wave_at r1) (wave_interval (config r1))) (boss_spawn_at r1) r1.

Fixpoint wave_loop (fuel : nat) (r : Room) (now : time_point) : Room :=
  match fuel with
  | O => r
  | S n => if wave_due r now then wave_loop n (spawn_due_wave r now) now else r
  end.

(** Every iteration spawns one of the remaining waves, so this many suffice. *)
Definition wave_fuel (r : Room) : nat := Z.to_nat (wave_count (config r) - spawned_wave_count r).

(** ** Projectiles *)

Inductive ProjectileAdvanceResult := Active | Removed | BossKilled.

#[export] Instance ProjectileAdvanceResult_eq_dec : EqDecision ProjectileAdvanceResult.
Proof. solve_decision. Defined.

(** A homing step: the projectile moves while its target is out of hit range. *)
Definition home (c : RoomConfig) (p : Projectile) (target : ArenaPosition) : Projectile * list BattleEvent :=
  if negb (isWithinRange (projectile_position p) target (hit_range p)) then
    let moved := moveToward (projectile_position p) target (speed_per_tick p) (arena_width c) (arena_height c) in
    if negb (bool_decide (moved = projectile_position p))
    then (set_projectile_position moved p, [ProjectileMoved (projectile_id p) moved])
    else (p, [])
  else (p, []).

Definition advanceProjectile (c : RoomConfig) (now : time_point) (p : Projectile) (es : list Enemy)
    : ProjectileAdvanceResult * Projectile * list Enemy * list BattleEvent :=
  if expires_at p <=? now then (Removed, p, es, [ProjectileRemoved (projectile_id p) Expired])
  else
    match findLivingEnemy es (projectile_target p) with
    | None => (Removed, p, es, [ProjectileRemoved (projectile_id p) TargetLost])
    | Some (i, target) =>
        let '(p1, moved) := home c p (enemy_position target) in
        if negb (isWithinRange (projectile_position p1) (enemy_position target) (hit_range p1))
        then (Active, p1, es, moved)
        else
          let damage := Z.min (projectile_damage p1) (enemy_health target) in
          let t1 := set_enemy_health (u64 (enemy_health target - damage)) target in
          let died := if enemy_health t1 =? 0 then [EnemyDied (enemy_id t1)] else [] in
          let evs := moved
            ++ [EnemyDamaged (enemy_id t1) (projectile_owner p1) (projectile_skill p1) damage (enemy_health t1)]
            ++ died ++ [ProjectileRemoved (projectile_id p1) Hit] in
          (if (enemy_health t1 =? 0) && is_boss t1 then BossKilled else Removed, p1, <[i := t1]> es, evs)
    end.

(** The erase loop; on [BossKilled] the rest of the vector is left as it is. *)
Fixpoint advance_loop (c : RoomConfig) (now : time_point) (ps : list Projectile) (es : list Enemy)
    : list Projectile * list Enemy * list BattleEvent * bool :=
  match ps with
  | [] => ([], es, [], false)
  | p :: ps' =>
      let '(result, p1, es1, evs1) := advanceProjectile c now p es in
      match result with
      | Active =>
          let '(qs, es2, evs2, killed) := advance_loop c now ps' es1 in (p1 :: qs, es2, evs1 ++ evs2, killed)
      | Removed =>
          let '(qs, es2, evs2, killed) := advance_loop c now ps' es1 in (qs, es2, evs1 ++ evs2, killed)
      | BossKilled => (p1 :: ps', es1, evs1, true)
      end
  end.

Definition advanceProjectiles (r : Room) (now : time_point) : bool * Room :=
  let '(ps, es, evs, killed) := advance_loop (config r) now (projectiles r) (enemies r) in
  (killed, push_events evs (set_projectiles ps (set_enemies es r))).

(** ** Skills *)

(** [SkillCastContext]: the participant is a reference into the vector. *)
Record SkillCastContext := mkSkillCastContext {
  ctx_index : nat;
  ctx_participant : Participant;
  ctx_player : PlayerId;
  ctx_skill : SkillId;
  ctx_sequence : Z;
  ctx_observed_at : time_point;
  ctx_cooldown : milliseconds;
  ctx_damage : Z
}.

Definition update_cooldowns (cs : list SkillCooldown) (skill : SkillId) (ready : time_point) : list SkillCooldown :=
  let i := lower_bound cooldown_skill skill cs in
  match cs !! i with
  | Some c => if cooldown_skill c =? skill then <[i := mkSkillCooldown skill ready]> cs
              else insert_at i (mkSkillCooldown skill ready) cs
  | None => insert_at i (mkSkillCooldown skill ready) cs
  end.

Definition commitSkillUse (r : Room) (x : SkillCastContext) : Room :=
  let p := ctx_participant x in
  let cds := update_cooldowns (cooldowns p) (ctx_skill x) (after (ctx_observed_at x) (ctx_cooldown x)) in
  set_participants (<[ctx_index x := set_skill_sequence (ctx_sequence x) (set_cooldowns cds p)]> (participants r)) r.

Definition finishSkillUse (r : Room) (player : PlayerId) : RoomResult * Room :=
  let result := baseResult r Applied (Some player) in
  if digest_flush_threshold (config r) <=? zlen (pending_events r) then
    let '(digest, r1) := takeDigest r in
    (set_audience (audience r1) (set_digest digest result), r1)
  else (result, r).

(** The loop of [applyAreaAttack]: the enemies, the events, whether any enemy
    was hit and whether the boss died. *)
Fixpoint area_loop (origin : ArenaPosition) (range damage : Z) (player : PlayerId) (skill : SkillId) (es : list Enemy)
    : list Enemy * list BattleEvent * bool * bool :=
  match es with
  | [] => ([], [], false, false)
  | e :: es' =>
      let '(fs, evs, hit, killed) := area_loop origin range damage player skill es' in
      if (enemy_health e =? 0) || negb (isWithinRange origin (enemy_position e) range)
      then (e :: fs, evs, hit, killed)
      else
        let amount := Z.min damage (enemy_health e) in
        let e1 := set_enemy_health (u64 (enemy_health e - amount)) e in
        let damaged := EnemyDamaged (enemy_id e1) player skill amount (enemy_health e1) in
        if enemy_health e1 =? 0
        then (e1 :: fs, damaged :: EnemyDied (enemy_id e1) :: evs, true, is_boss e1 || killed)
        else (e1 :: fs, damaged :: evs, true, killed)
  end.

Definition applyAreaAttack (r : Room) (x : SkillCastContext) (range : Z) : RoomResult * Room :=
  let r1 := commitSkillUse r x in
  let '(es, evs, any_enemy_hit, boss_killed) :=
    area_loop (position (ctx_participant x)) range (ctx_damage x) (ctx_player x) (ctx_skill x) (enemies r1) in
  let r2 := push_events evs (set_enemies es r1) in
  if negb any_enemy_hit then
    finishSkillUse (push_events [SkillWhiffed (ctx_player x) (ctx_skill x)] r2) (ctx_player x)
  else if boss_killed then clearBattle r2 (Some (ctx_player x))
  else finishSkillUse r2 (ctx_player x).

Definition spawnHomingProjectile (r : Room) (x : SkillCastContext) (acquisition_range speed hit : Z)
    (lifetime : milliseconds) : RoomResult * Room :=
  match findTargetEnemy r (position (ctx_participant x)) acquisition_range with
  | None =>
      finishSkillUse (push_events [SkillWhiffed (ctx_player x) (ctx_skill x)] (commitSkillUse r x)) (ctx_player x)
  | Some target =>
      if (max_active_projectiles (config r) <=? zlen (projectiles r)) || (next_projectile_id r =? 0)
      then (baseResult r ProjectileCapacityExceeded (Some (ctx_player x)), r)
      else
        let r1 := commitSkillUse r x in
        let id := next_projectile_id r1 in
        let next := if id =? U32_MAX then 0 else u32 (id + 1) in
        let p := mkProjectile id (ctx_player x) (ctx_skill x) (enemy_id target) (position (ctx_participant x))
                   speed hit (ctx_damage x) (after (ctx_observed_at x) lifetime) in
        finishSkillUse
          (push_events [ProjectileSpawned (projectile_id p) (projectile_owner p) (projectile_skill p)
                          (projectile_target p) (projectile_position p)]
             (set_projectiles (projectiles r1 ++ [p]) (set_next_projectile_id next r1)))
          (ctx_player x)
  end.

(** ** Command handlers *)

Definition handleJoinRoom (r : Room) (player : PlayerId) (st : CombatStats) (equipped : SkillId)
    : RoomResult * Room :=
  if negb (bool_decide (phase r = Waiting)) then (baseResult r WrongPhase (Some player), r)
  else
    match findParticipant r player with
    | Some _ => (baseResult r AlreadyJoined (Some player), r)
    | None =>
        if max_participants (config r) <=? zlen (participants r)
        then (baseResult r RoomFull (Some player), r)
        else
          let p := mkParticipant player st equipped (stat_health st) (mkArenaPosition 0 0) Stop 0 0 [] in
          let i := lower_bound player_id player (participants r) in
          let r1 := set_participants (insert_at i p (participants r)) r in
          (baseResult r1 Applied (Some player), r1)
    end.

Definition handleLeaveRoom (r : Room) (player : PlayerId) : RoomResult * Room :=
  if bool_decide (phase r = Cleared) || bool_decide (phase r = Failed)
  then (baseResult r WrongPhase (Some player), r)
  else
    match findParticipant r player with
    | None => (baseResult r NotJoined (Some player), r)
    | Some (i, _) =>
        let running := bool_decide (phase r = Running) in
        let r1 := set_participants (erase_at i (participants r)) r in
        if negb running then (baseResult r1 Applied (Some player), r1)
        else if bool_decide (length (participants r1) = 0%nat) then
          let r2 := set_projectiles [] (set_pending_events [] r1) in
          (baseResult r2 Applied (Some player), r2)
        else
          let r2 := push_events [ParticipantLeft player] r1 in
          if allParticipantsDead (participants r2) then failBattle r2 Applied (Some player) ParticipantsDefeated
          else
            let result := baseResult r2 Applied (Some player) in
            let '(digest, r3) := takeDigest r2 in
            (set_audience (audience r3) (set_digest digest result), r3)
    end.

Definition handleStartBattle (r : Room) (now : time_point) : RoomResult * Room :=
  if negb (canStartBattle r) then (baseResult r WrongPhase None, r)
  else
    let c := config r in
    let r1 := set_schedule (after now (battle_duration c)) (after now (wave_interval c))
                (after now (boss_spawn_after c)) (set_phase Running r) in
    let r2 := spawnWave (initializeArena r1) now in
    let result := set_timers (Some (battle_duration c)) (Some (tick_interval c)) (baseResult r2 Applied None) in
    let '(digest, r3) := takeDigest r2 in
    (if has_value digest then set_audience (audience r3) (set_digest digest result) else set_digest digest result, r3).

Definition handleUseSkill (r : Room) (player : PlayerId) (skill : SkillId) (request_sequence : Z) (now : time_point)
    : RoomResult * Room :=
  if negb (bool_decide (phase r = Running)) then (baseResult r WrongPhase (Some player), r)
  else if battle_deadline_at r <=? now then failBattle r BattleExpired (Some player) Deadline
  else
    match findParticipant r player with
    | None => (baseResult r NotJoined (Some player), r)
    | Some (i, p) =>
        if request_sequence <=? applied_skill_sequence p then (baseResult r DuplicateRequest (Some player), r)
        else if current_health p =? 0 then (baseResult r ParticipantDead (Some player), r)
        else
          match findSkill skill with
          | None => (baseResult r UnknownSkill (Some player), r)
          | Some definition =>
              if negb (skill =? equipped_skill p) then (baseResult r SkillNotEquipped (Some player), r)
              else
                let on_cooldown := match find_sorted cooldown_skill skill (cooldowns p) with
                                   | Some cd => now <? ready_at cd
                                   | None => false
                                   end in
                if on_cooldown then (baseResult r SkillOnCooldown (Some player), r)
                else
                  let x := mkSkillCastContext i p player skill request_sequence now (skill_cooldown definition)
                             (calculateSkillDamage definition (stat_attack (stats p))) in
                  match skill_behavior definition with
                  | AreaAttackBehavior _ range => applyAreaAttack r x range
                  | HomingProjectileAttackBehavior _ acquisition speed hit lifetime =>
                      spawnHomingProjectile r x acquisition speed hit lifetime
                  end
          end
    end.

Definition handleSetMoveIntent (r : Room) (player : PlayerId) (direction : MoveDirection) (request_sequence : Z)
    (now : time_point) : RoomResult * Room :=
  if negb (bool_decide (phase r = Running)) then (baseResult r WrongPhase (Some player), r)
  else if battle_deadline_at r <=? now then failBattle r BattleExpired (Some player) Deadline
  else
    match findParticipant r player with
    | None => (baseResult r NotJoined (Some player), r)
    | Some (i, p) =>
        if request_sequence <=? applied_movement_sequence p then (baseResult r DuplicateRequest (Some player), r)
        else if current_health p =? 0 then (baseResult r ParticipantDead (Some player), r)
        else
          let p1 := set_move_intent direction (set_movement_sequence request_sequence p) in
          let r1 := set_participants (<[i := p1]> (participants r)) r in
          (baseResult r1 Applied (Some player), r1)
    end.

Definition handleBattleDeadline (r : Room) (now : time_point) : RoomResult * Room :=
  if negb (bool_decide (phase r = Running)) || (now <? battle_deadline_at r)
  then (baseResult r WrongPhase None, r)
  else failBattle r Applied None Deadline.

Definition living (es : list Enemy) : list Enemy := filter (fun e => negb (enemy_health e =? 0) = true) es.

Definition handleRoomSimulationTick (r : Room) (now : time_point) : RoomResult * Room :=
  if negb (bool_decide (phase r = Running)) then (baseResult r WrongPhase None, r)
  else if battle_deadline_at r <=? now then failBattle r Applied None Deadline
  else
    let r1 := moveParticipants (set_enemies (living (enemies r)) r) in
    let '(boss_killed, r2) := advanceProjectiles r1 now in
    if boss_killed then clearBattle r2 None
    else
      let '(alive, r3) := actEnemies r2 now in
      if negb alive then failBattle r3 Applied None ParticipantsDefeated
      else
        let r4 := wave_loop (wave_fuel r3) r3 now in
        let r5 := if negb (boss_spawned r4) && (boss_spawn_at r4 <=? now) then spawnBoss r4 now else r4 in
        let result := baseResult r5 Applied None in
        let '(digest, r6) := takeDigest r5 in
        let result1 := set_digest digest result in
        let result2 := if has_value digest then set_audience (audience r6) result1 else result1 in
        (set_timers None (Some (tick_interval (config r6))) result2, r6).

(** [Room::handle]. *)
Definition room_handle (r : Room) (command : RoomCommand) (now : time_point) : RoomResult * Room :=
  match command with
  | JoinRoom player st equipped => handleJoinRoom r player st equipped
  | LeaveRoom player => handleLeaveRoom r player
  | StartBattle => handleStartBattle r now
  | UseSkill player skill seq => handleUseSkill r player skill seq now
  | BattleDeadline => handleBattleDeadline r now
  | RoomSimulationTick => handleRoomSimulationTick r now
  | SetMoveIntent player direction seq => handleSetMoveIntent r player direction seq now
  end.

(** A short battle that exercises joins, ticks, both skills and the outcome. *)
Definition demo_room : Room := mkRoom 1 default_config Waiting 0 0 0 0 1 1 0 false [] [] [] [].

Example demo_room_made : makeRoom 1 default_config = Ret demo_room.
Proof. vm_compute. reflexivity. Qed.

Fixpoint room_run (r : Room) (cs : list (RoomCommand * time_point)) : list RoomResult * Room :=
  match cs with
  | [] => ([], r)
  | (c, t) :: cs' =>
      let '(res, r1) := room_handle r c t in
      let '(rs, r2) := room_run r1 cs' in (res :: rs, r2)
  end.
