(* ===== verification/RoomInv.v ===== *)
(** * The battle Room: well-formedness

    What [Room::Room] guarantees of an accepted configuration, the invariant
    of a room, and the proof that every command keeps it. *)

From S2P Require Import Prelude Arena Skills RoomTypes Room.

(** ** Configurations *)

(** The ranges the C++ types of the fields impose. *)
Record config_typed (c : RoomConfig) : Prop := {
  ct_max_participants : in_u64 (max_participants c);
  ct_boss_health : in_u64 (cfg_boss_health c);
  ct_wave_count : in_u64 (wave_count c);
  ct_minions : in_u64 (minions_per_wave c);
  ct_minion_health : in_u64 (minion_health c);
  ct_max_spawned : in_u64 (max_spawned_enemies c);
  ct_threshold : in_u64 (digest_flush_threshold c);
  ct_max_projectiles : in_u64 (max_active_projectiles c);
  ct_width : in_u32 (arena_width c);
  ct_height : in_u32 (arena_height c);
  ct_player_speed : in_u32 (player_move_speed c);
  ct_spacing : in_u32 (participant_spawn_spacing c);
  ct_radius : in_u32 (minion_spawn_radius c);
  ct_minion_speed : in_u32 (minion_move_speed c);
  ct_boss_speed : in_u32 (boss_move_speed c);
  ct_minion_damage : in_u64 (minion_attack_damage c);
  ct_boss_damage : in_u64 (boss_attack_damage c);
  ct_minion_range : in_u32 (minion_attack_range c);
  ct_boss_range : in_u32 (boss_attack_range c)
}.

(** What the rest of the room relies on. *)
Record config_ok (c : RoomConfig) : Prop := {
  co_typed : config_typed c;
  co_extents : arena_extents (arena_width c) (arena_height c);
  co_radius : radius_fits (arena_width c) (arena_height c) (minion_spawn_radius c);
  co_formation : formation_fits (arena_width c) (max_participants c) (participant_spawn_spacing c);
  co_enemies : wave_count c * minions_per_wave c + 1 <= max_spawned_enemies c <= U32_MAX;
  co_waves : wave_count c = 0 ↔ minions_per_wave c = 0;
  co_minion_health : 0 < minion_health c;
  co_boss_health : 0 < cfg_boss_health c;
  co_threshold : 0 < digest_flush_threshold c;
  co_projectiles : 0 < max_active_projectiles c <= U32_MAX;
  co_times : 0 < tick_interval c ∧ 0 < wave_interval c ∧ 0 < boss_spawn_after c < battle_duration c;
  co_wave_schedule : (wave_count c - 1) * wave_interval c <= boss_spawn_after c;
  co_speeds : 0 < player_move_speed c ∧ 0 < minion_move_speed c ∧ 0 < boss_move_speed c;
  co_damage : 0 < minion_attack_damage c ∧ 0 < boss_attack_damage c
}.

Lemma makeRoom_config_ok room c r :
  config_typed c → makeRoom room c = Ret r →
  config_ok c ∧ room ≠ 0 ∧ r = mkRoom room c Waiting 0 0 0 0 1 1 0 false [] [] [] [].
Proof.
  intros Ht. pose proof Ht as []. unfold makeRoom. rewrite !throw_if_ret.
  intros (? & ? & ? & ? & ? & ? & ? & ? & ? & ? & ? & Hw & Hmul & Htot & Hsched & ? & ? & ? & ? & ? & Hrad & Hfm & Hfs
          & _ & _ & _ & [= <-]).
  to_prop. unfold MAX_ARENA_EXTENT in *.
  assert (Hprod : 0 <= wave_count c * minions_per_wave c < SIZE_MAX).
  { apply andb_false_iff in Hmul as [Hmul|Hmul]; to_prop; [nia|].
    rewrite u64_small in Hmul by lia.
    destruct (decide (wave_count c = 0)) as [E|E]; [nia|].
    pose proof (Z.mul_div_le (SIZE_MAX - 1) (wave_count c) ltac:(lia)). nia. }
  unfold total_enemies in *. rewrite !u64_small in Htot by (rewrite ?u64_small; lia).
  assert (Hwm : wave_count c = 0 ↔ minions_per_wave c = 0).
  { apply eqb_prop in Hw. rewrite <-!Z.eqb_eq. by rewrite Hw. }
  split; [|split; [lia|done]]. constructor; try done; try lia.
  - unfold arena_extents. lia.
  - assert (Hhalf : ∀ w, 0 < w <= U32_MAX → 0 <= w - 1 - w / 2 <= U64_MAX) by (intros; div_lia).
    rewrite (u32_small (arena_width c - 1)), (u32_small (arena_height c - 1)) in * by lia.
    pose proof (Hhalf (arena_width c) ltac:(lia)). pose proof (Hhalf (arena_height c) ltac:(lia)).
    rewrite (u64_small (arena_width c - 1 - arena_width c / 2)) in * by lia.
    rewrite (u64_small (arena_height c - 1 - arena_height c / 2)) in * by lia.
    unfold radius_fits. lia.
  - unfold formation_span, formation_members in *. rewrite (u64_small (max_participants c - 1)) in * by lia.
    assert (Hsp : 0 <= participant_spawn_spacing c * (max_participants c - 1) <= U64_MAX).
    { pose proof (Z.mul_div_le U64_MAX (participant_spawn_spacing c) ltac:(lia)). nia. }
    rewrite (u64_small (participant_spawn_spacing c * (max_participants c - 1))) in * by lia.
    set (s := participant_spawn_spacing c * (max_participants c - 1)) in *.
    pose proof (Z.div_mod s 2 ltac:(lia)). pose proof (Z.mod_pos_bound s 2 ltac:(lia)).
    assert (0 <= arena_width c / 2 <= arena_width c) by (clear -ct_width0; div_lia).
    rewrite (u64_small (arena_width c / 2 - s / 2)) in * by lia.
    unfold formation_fits. fold s. split_and!; try lia.
    rewrite (u64_small (arena_width c / 2 - s / 2 + s)) in * by lia. lia.
  - apply andb_false_iff in Hsched as [Hsched|Hsched]; to_prop; [nia|].
    unfold waves_before_boss in *.
    pose proof (Z.mul_div_le (boss_spawn_after c) (wave_interval c) ltac:(lia)).
    assert (0 <= boss_spawn_after c / wave_interval c) by (apply Z.div_pos; lia).
    destruct (decide (wave_count c = 0)); [nia|].
    rewrite (u64_small (wave_count c - 1)) in Hsched by lia.
    assert (u64 (boss_spawn_after c / wave_interval c) <= boss_spawn_after c / wave_interval c)
      by (apply Z.mod_le; lia).
    nia.
Qed.

(** ** How one step may change an enemy or a participant *)

Section evolution.
Context (c : RoomConfig) (Hc : config_ok c).
Notation inside := (in_arena (arena_width c) (arena_height c)).

Record enemy_evolves (e e' : Enemy) : Prop := {
  ee_id : enemy_id e' = enemy_id e;
  ee_kind : enemy_kind e' = enemy_kind e;
  ee_health : 0 <= enemy_health e' <= enemy_health e;
  ee_position : inside (enemy_position e')
}.

Record participant_evolves (p p' : Participant) : Prop := {
  pe_id : player_id p' = player_id p;
  pe_stats : stats p' = stats p;
  pe_health : 0 <= current_health p' <= current_health p;
  pe_position : inside (position p');
  pe_cooldowns : sorted_by cooldown_skill (cooldowns p')
}.

(** [Forall2] along an update of one element. *)
Lemma Forall2_insert_refl {A} (R : relation A) (l : list A) i x y :
  Forall (fun a => R a a) l → l !! i = Some x → R x y → Forall2 R l (<[i := y]> l).
Proof.
  intros Hrefl Hi Hxy. apply Forall2_same_length_lookup. split; [by rewrite length_insert|].
  intros j a b Ha Hb. destruct (decide (i = j)) as [<-|Hne].
  - rewrite list_lookup_insert_eq in Hb by (by eapply lookup_lt_Some). congruence.
  - rewrite list_lookup_insert_ne in Hb by done. simplify_eq.
    rewrite Forall_forall in Hrefl. eauto using list_elem_of_lookup_2.
Qed.

(** Well-formed elements, on which "no change" is an evolution. *)
Definition enemy_ok (e : Enemy) : Prop := 0 <= enemy_health e <= U64_MAX ∧ inside (enemy_position e).

Definition participant_ok (p : Participant) : Prop :=
  0 <= current_health p <= stat_health (stats p) ∧ 0 < stat_health (stats p) <= U64_MAX ∧
  inside (position p) ∧ sorted_by cooldown_skill (cooldowns p).

Lemma enemy_evolves_refl e : enemy_ok e → enemy_evolves e e.
Proof. intros [? ?]. constructor; done || lia. Qed.

Lemma enemy_evolves_ok e e' : enemy_ok e → enemy_evolves e e' → enemy_ok e'.
Proof. intros [? ?] []. split; [lia|done]. Qed.

Lemma enemy_evolves_trans e1 e2 e3 : enemy_evolves e1 e2 → enemy_evolves e2 e3 → enemy_evolves e1 e3.
Proof. intros [] []. constructor; congruence || done || lia. Qed.

Lemma participant_evolves_refl p : participant_ok p → participant_evolves p p.
Proof. intros (? & ? & ? & ?). constructor; done || lia. Qed.

Lemma participant_evolves_ok p p' : participant_ok p → participant_evolves p p' → participant_ok p'.
Proof. intros (? & ? & ? & ?) []. unfold participant_ok. rewrite pe_stats0. split_and!; done || lia. Qed.

Lemma participant_evolves_trans p1 p2 p3 :
  participant_evolves p1 p2 → participant_evolves p2 p3 → participant_evolves p1 p3.
Proof. intros [] []. constructor; congruence || done || lia. Qed.

Lemma Forall2_enemy_refl es : Forall enemy_ok es → Forall2 enemy_evolves es es.
Proof. induction 1; constructor; auto using enemy_evolves_refl. Qed.

Lemma Forall2_participant_refl ps : Forall participant_ok ps → Forall2 participant_evolves ps ps.
Proof. induction 1; constructor; auto using participant_evolves_refl. Qed.

Lemma Forall2_enemy_ok es es' : Forall2 enemy_evolves es es' → Forall enemy_ok es → Forall enemy_ok es'.
Proof.
  induction 1 as [|x y l k Hxy Hl IH]; intros Hok; [constructor|].
  apply Forall_cons in Hok as [? ?]. constructor; eauto using enemy_evolves_ok.
Qed.

Lemma Forall2_participant_ok ps ps' :
  Forall2 participant_evolves ps ps' → Forall participant_ok ps → Forall participant_ok ps'.
Proof.
  induction 1 as [|x y l k Hxy Hl IH]; intros Hok; [constructor|].
  apply Forall_cons in Hok as [? ?]. constructor; eauto using participant_evolves_ok.
Qed.

Lemma Forall2_enemy_trans es1 es2 es3 :
  Forall2 enemy_evolves es1 es2 → Forall2 enemy_evolves es2 es3 → Forall2 enemy_evolves es1 es3.
Proof. apply Forall2_trans. apply enemy_evolves_trans. Qed.

Lemma Forall2_participant_trans ps1 ps2 ps3 :
  Forall2 participant_evolves ps1 ps2 → Forall2 participant_evolves ps2 ps3 → Forall2 participant_evolves ps1 ps3.
Proof. apply Forall2_trans. apply participant_evolves_trans. Qed.

(** Ids, and therefore the sorted order, survive an evolution. *)
Lemma Forall2_enemy_ids es es' : Forall2 enemy_evolves es es' → enemy_id <$> es' = enemy_id <$> es.
Proof. induction 1 as [|e e' es es' He Hes IH]; [done|]. rewrite !fmap_cons, IH. by rewrite (ee_id _ _ He). Qed.

Lemma Forall2_participant_ids ps ps' : Forall2 participant_evolves ps ps' → player_id <$> ps' = player_id <$> ps.
Proof. induction 1 as [|p p' ps ps' Hp Hps IH]; [done|]. rewrite !fmap_cons, IH. by rewrite (pe_id _ _ Hp). Qed.
End evolution.

(** A vector is sorted by a key exactly when its keys are increasing. *)
Lemma sorted_by_fmap {A} (key : A → Z) l : sorted_by key l ↔ StronglySorted Z.lt (key <$> l).
Proof.
  induction l as [|a l IH]; simpl; [split; constructor|].
  rewrite !StronglySorted_cons, IH, Forall_fmap. done.
Qed.

Lemma sorted_by_same_keys {A} (key : A → Z) l l' :
  key <$> l' = key <$> l → sorted_by key l → sorted_by key l'.
Proof. rewrite (sorted_by_fmap key l), (sorted_by_fmap key l'). by intros ->. Qed.

(** ** Searches *)

Lemma nearest_loop_lookup origin i best d qs j q (ps : list Participant) :
  (∀ n p, best = Some (n, p) → ps !! n = Some p ∧ current_health p ≠ 0) →
  (∀ k p, qs !! k = Some p → ps !! (i + k)%nat = Some p) →
  nearest_loop origin i best d qs = Some (j, q) → ps !! j = Some q ∧ current_health q ≠ 0.
Proof.
  revert i best d. induction qs as [|p qs IH]; intros i best d Hb Hq; simpl; [by apply Hb|].
  assert (Hq' : ∀ k q', qs !! k = Some q' → ps !! (S i + k)%nat = Some q').
  { intros k q' Hk. rewrite <-(Hq (S k)); [f_equal; lia|done]. }
  assert (Hp : ps !! i = Some p) by (rewrite <-(Nat.add_0_r i); by apply (Hq 0%nat)).
  split_if; [by apply IH|]. to_prop. destruct (match best with None => true | Some _ => _ end); apply IH; auto.
  intros n p' [= <- <-]. done.
Qed.

Lemma nearestLivingParticipant_Some ps origin i p :
  nearestLivingParticipant ps origin = Some (i, p) → ps !! i = Some p ∧ current_health p ≠ 0.
Proof. apply nearest_loop_lookup; [done|]. by intros k q. Qed.

Lemma nearest_loop_None origin i best d qs :
  nearest_loop origin i best d qs = None → best = None ∧ Forall (fun p => current_health p = 0) qs.
Proof.
  revert i best d. induction qs as [|p qs IH]; intros i best d; simpl; [done|].
  split_if; to_prop.
  - intros [? ?]%IH. split; [done|]. by constructor.
  - destruct (match best with None => true | Some _ => _ end) eqn:E.
    + by intros [? ?]%IH.
    + intros [-> ?]%IH. discriminate.
Qed.

Lemma find_enemy_lookup t es i e : find_enemy t es = Some (i, e) → es !! i = Some e ∧ enemy_id e = t.
Proof.
  revert i. induction es as [|f es IH]; intros i; simpl; [done|].
  split_if; to_prop; [intros [= <- <-]; done|].
  destruct (find_enemy t es) as [[j f']|]; simpl; [|done]. intros [= <- <-]. by apply IH.
Qed.

Lemma findLivingEnemy_Some es t i e :
  findLivingEnemy es t = Some (i, e) → es !! i = Some e ∧ enemy_id e = t ∧ enemy_health e ≠ 0.
Proof.
  unfold findLivingEnemy. destruct (find_enemy t es) as [[j f]|] eqn:E; [|done].
  apply find_enemy_lookup in E as [? ?]. split_if; [done|]. to_prop. by intros [= <- <-].
Qed.

Lemma findParticipant_lookup r player i p :
  findParticipant r player = Some (i, p) →
  participants r !! i = Some p ∧ player_id p = player ∧ i = lower_bound player_id player (participants r).
Proof.
  unfold findParticipant. destruct (participants r !! _) as [q|] eqn:E; [|done].
  split_if; [|done]. to_prop. by intros [= <- <-].
Qed.

Lemma findParticipant_find_sorted r player :
  snd <$> findParticipant r player = find_sorted player_id player (participants r).
Proof.
  unfold findParticipant, find_sorted. destruct (participants r !! _) as [q|]; [|done]. by split_if.
Qed.

Lemma target_loop_elem origin range best d es e :
  target_loop origin range best d es = Some e →
  best = Some e ∨ (e ∈ es ∧ enemy_health e ≠ 0 ∧ isWithinRange origin (enemy_position e) range = true).
Proof.
  revert best d. induction es as [|f es IH]; intros best d; simpl; [by left|].
  destruct (_ || _) eqn:Eg; [intros [?|(? & ? & ?)]%IH; [by left|]; right; split_and!; try done; by right|].
  apply orb_false_elim in Eg as [E1 E2]. apply negb_false_iff in E2. to_prop.
  destruct (match best with None => true | Some _ => _ end); intros [E|(? & ? & ?)]%IH.
  - injection E as <-. right. split_and!; try done. left.
  - right. split_and!; try done. by right.
  - by left.
  - right. split_and!; try done. by right.
Qed.

(** ** Death of the party *)

Lemma allParticipantsDead_false ps :
  allParticipantsDead ps = false ↔ ps = [] ∨ ∃ p, p ∈ ps ∧ 0 < current_health p.
Proof.
  unfold allParticipantsDead. destruct ps as [|p ps]; [simpl; naive_solver|].
  cbn [length]. rewrite bool_decide_eq_false_2 by done. simpl negb at 1. rewrite andb_true_l.
  rewrite negb_false_iff, existsb_exists. setoid_rewrite Z.ltb_lt. setoid_rewrite <-list_elem_of_In.
  naive_solver.
Qed.

(** No battle runs on with a party of corpses. *)
Definition party_alive (ps : list Participant) : Prop := allParticipantsDead ps = false.

Lemma party_alive_same_health ps ps' :
  current_health <$> ps' = current_health <$> ps → party_alive ps → party_alive ps'.
Proof.
  unfold party_alive. rewrite !allParticipantsDead_false. intros Hh [->|(p & Hp & Hh0)].
  - left. by apply fmap_nil_inv in Hh.
  - right. assert (Hin : current_health p ∈ current_health <$> ps') by (rewrite Hh; by apply list_elem_of_fmap_2).
    apply list_elem_of_fmap in Hin as (p' & Heq & Hp'). exists p'. split; [done|lia].
Qed.

Lemma party_alive_insert ps i p :
  (i < length ps)%nat → 0 < current_health p → party_alive (<[i := p]> ps).
Proof.
  intros Hi Hp. apply allParticipantsDead_false. right. exists p. split; [|done].
  apply list_elem_of_lookup_2 with i. by apply list_lookup_insert_eq.
Qed.

Section loops.
Context (c : RoomConfig) (Hc : config_ok c).
Notation inside := (in_arena (arena_width c) (arena_height c)).

Lemma move_loop_spec ps :
  Forall (participant_ok c) ps →
  Forall2 (participant_evolves c) ps (move_loop c ps).1 ∧
  current_health <$> (move_loop c ps).1 = current_health <$> ps.
Proof using Hc.
  induction 1 as [|p ps Hp Hps [IH1 IH2]]; simpl; [done|].
  destruct (move_loop c ps) as [qs evs]; simpl in *.
  pose proof (participant_evolves_refl c p Hp).
  repeat split_if; simpl; (split; [constructor; [|done]|simpl; f_equal; done]); try done.
  destruct Hp as (? & ? & ? & ?). constructor; simpl; try done; try lia.
  apply moveInDirection_in_arena; [apply Hc| |done]. destruct Hc as [[] ? ? ? ? ? ? ? ? ? ? ? ? ?]. lia.
Qed.

Lemma approach_spec e target :
  enemy_ok c e → inside target →
  enemy_evolves c e (approach c e target).1 ∧ enemy_health (approach c e target).1 = enemy_health e.
Proof using Hc.
  intros He Ht. pose proof (enemy_evolves_refl c e He). unfold approach.
  repeat split_if; simpl; try done. split; [|done]. destruct He as [? ?].
  constructor; simpl; try done; try lia.
  apply moveToward_in_arena; try done; [apply Hc|].
  destruct Hc as [[] ? ? ? ? ? ? ? ? ? ? ? ? ?]. destruct (enemy_kind e); simpl; lia.
Qed.

(** An attack takes no more health than there is, whether the target survives or not. *)
Lemma struck_evolves ps i target e :
  Forall (participant_ok c) ps → ps !! i = Some target →
  let damage := Z.min (enemyAttackDamage c (enemy_kind e)) (current_health target) in
  let health := current_health target - damage in
  0 <= damage <= current_health target ∧ u64 health = health ∧
  Forall2 (participant_evolves c) ps (<[i := set_health health target]> ps) ∧
  Forall2 (participant_evolves c) ps (<[i := set_move_intent Stop (set_health health target)]> ps).
Proof using Hc.
  intros Hps Hi damage health.
  assert (Htok : participant_ok c target) by (rewrite Forall_forall in Hps; eauto using list_elem_of_lookup_2).
  destruct Htok as (Hh & Hst & Hpos & Hcd).
  assert (Hdmg : 0 <= damage <= current_health target).
  { destruct Hc as [[] ? ? ? ? ? ? ? ? ? ? ? ? ?]. unfold damage, enemyAttackDamage. destruct (enemy_kind e); lia. }
  assert (Hins : ∀ t', participant_evolves c target t' → Forall2 (participant_evolves c) ps (<[i := t']> ps)).
  { intros t' Ht'. eapply Forall2_insert_refl; [|done|done].
    eapply Forall_impl; [exact Hps|]. intros. by apply participant_evolves_refl. }
  split_and!; [lia|lia|apply u64_small; unfold health; lia| |]; apply Hins; constructor; simpl; done || lia.
Qed.

Lemma act_loop_spec now es ps fs qs evs alive :
  Forall (enemy_ok c) es → Forall (participant_ok c) ps → party_alive ps →
  act_loop c now es ps = (fs, qs, evs, alive) →
  Forall2 (enemy_evolves c) es fs ∧ enemy_health <$> fs = enemy_health <$> es ∧
  Forall2 (participant_evolves c) ps qs ∧ (if alive then party_alive qs else allParticipantsDead qs = true).
Proof using Hc.
  intros Hes. revert ps fs qs evs alive.
  induction Hes as [|e es He Hes IH]; intros ps fs qs evs alive Hps Hal; simpl.
  { intros [= <- <- <- <-]. split_and!; try done. by apply Forall2_participant_refl. }
  assert (Hstep : ∀ e1 ps1 fs' qs' evs' alive', enemy_evolves c e e1 → enemy_health e1 = enemy_health e →
    Forall2 (participant_evolves c) ps ps1 → party_alive ps1 → act_loop c now es ps1 = (fs', qs', evs', alive') →
    Forall2 (enemy_evolves c) (e :: es) (e1 :: fs') ∧ enemy_health <$> (e1 :: fs') = enemy_health <$> (e :: es) ∧
    Forall2 (participant_evolves c) ps qs' ∧ (if alive' then party_alive qs' else allParticipantsDead qs' = true)).
  { intros e1 ps1 fs' qs' evs' alive' He1 Hh Hp1 Hal1 E.
    apply IH in E as (H1 & H2 & H3 & H4); [|by eapply Forall2_participant_ok|done].
    split_and!; [by constructor|simpl; f_equal; done|by eapply Forall2_participant_trans|done]. }
  pose proof (enemy_evolves_refl c e He) as Hrefl.
  pose proof (Forall2_participant_refl c ps Hps) as Hprefl.
  destruct (enemy_health e =? 0).
  { destruct (act_loop c now es ps) as [[[fs' qs'] evs'] al'] eqn:E. intros [= <- <- <- <-]. by eapply Hstep. }
  destruct (nearestLivingParticipant ps (enemy_position e)) as [[i target]|] eqn:En.
  2:{ intros [= <- <- <- <-]. unfold party_alive in Hal. rewrite Hal.
      split_and!; try done. constructor; [done|]. by apply Forall2_enemy_refl. }
  apply nearestLivingParticipant_Some in En as [Hi Hlive].
  assert (Htok : participant_ok c target) by (rewrite Forall_forall in Hps; eauto using list_elem_of_lookup_2).
  pose proof (approach_spec e (position target) He ltac:(apply Htok)) as [Ha Hah].
  destruct (approach c e (position target)) as [e1 moved]; simpl in Ha, Hah.
  destruct (_ || _).
  { destruct (act_loop c now es ps) as [[[fs' qs'] evs'] al'] eqn:E. intros [= <- <- <- <-]. by eapply Hstep. }
  destruct (struck_evolves ps i target e1 Hps Hi) as (Hdmg & Hsmall & Hhurt & Hdead). simpl in Hdmg, Hsmall, Hhurt, Hdead.
  set (damage := Z.min _ _) in *. rewrite Hsmall.
  set (e2 := set_attack_ready_at _ e1).
  assert (He2 : enemy_evolves c e e2) by (destruct Ha; constructor; done).
  assert (Hlt : (i < length ps)%nat) by (by eapply lookup_lt_Some).
  simpl. destruct (current_health target - damage =? 0) eqn:Ez; to_prop.
  - split_if.
    + intros [= <- <- <- <-]. split_and!; try done; [|simpl; f_equal; done].
      constructor; [done|]. by apply Forall2_enemy_refl.
    + destruct (act_loop c now es _) as [[[fs' qs'] evs'] al'] eqn:E. intros [= <- <- <- <-]. by eapply Hstep.
  - destruct (act_loop c now es _) as [[[fs' qs'] evs'] al'] eqn:E. intros [= <- <- <- <-].
    eapply (Hstep e2 _ _ _ _ _ He2 Hah Hhurt); [|done]. apply party_alive_insert; [done|simpl; lia].
Qed.

Lemma initialize_loop_spec ps k index :
  Forall (participant_ok c) ps → 0 <= index → index + zlen ps = k → k <= max_participants c →
  let '(qs, evs) := initialize_loop c k index ps in
  Forall2 (fun p q => player_id q = player_id p ∧ stats q = stats p ∧ current_health q = stat_health (stats p)) ps qs ∧
  Forall (participant_ok c) qs.
Proof using Hc.
  intros Hps. revert index. induction Hps as [|p ps Hp Hps IH]; intros index Hi Hk Hm; simpl; [done|].
  unfold zlen in *. cbn [length] in Hk.
  specialize (IH (index + 1) ltac:(lia) ltac:(lia) ltac:(lia)).
  destruct (initialize_loop c k (index + 1) ps) as [qs evs]. destruct IH as [IH1 IH2].
  split; constructor; try done. destruct Hp as (? & ? & ? & ?).
  unfold participant_ok; simpl. split_and!; try done; try lia.
  eapply centeredParticipantPosition_fits; [apply Hc|apply Hc|lia|lia].
Qed.

(** A wave gets consecutive ids, stands inside the arena and has full
    health; its last id may be the largest one. *)
Lemma spawn_loop_spec now n index k es evs next :
  1 <= k → k + Z.of_nat n - 1 <= U32_MAX → 0 <= index → index + Z.of_nat n <= minions_per_wave c →
  spawn_loop c now n index (u32 k) = (es, evs, next) →
  next = u32 (k + Z.of_nat n) ∧ enemy_id <$> es = seqZ k (Z.of_nat n) ∧ Forall (enemy_ok c) es ∧
  Forall (fun e => is_boss e = false ∧ 0 < enemy_health e) es.
Proof using Hc.
  revert index k es evs next. induction n as [|n IH]; intros index k es evs next Hk Hn Hi Him; cbn [spawn_loop].
  { intros [= <- <- <-]. split_and!; try done. f_equal; lia. }
  destruct (spawn_loop c now n (index + 1) (u32 (u32 k + 1))) as [[es' evs'] next'] eqn:E.
  intros [= <- <- <-]. rewrite (u32_small k) in E |- * by lia.
  apply IH in E as (-> & Hids & Hok & Hb); try lia.
  pose proof Hc as [[] ? ? ? ? ? ? ? ? ? ? ? ? ?]. split_and!.
  - f_equal; lia.
  - rewrite fmap_cons, Hids. rewrite (seqZ_cons k (Z.of_nat (S n))) by lia. simpl. f_equal. f_equal; lia.
  - constructor; [|done]. split; simpl; [lia|].
    apply squarePerimeterPosition_on_square; try done. lia.
  - constructor; [|done]. simpl. split; [done|lia].
Qed.
End loops.

(** ** Bosses *)

Definition live_boss (e : Enemy) : bool := is_boss e && negb (enemy_health e =? 0).

Section damage.
Context (c : RoomConfig) (Hc : config_ok c).
Notation inside := (in_arena (arena_width c) (arena_height c)).

(** Damage never exceeds the health it is taken from. *)
Lemma damaged_evolves e damage :
  enemy_ok c e → 0 <= damage →
  u64 (enemy_health e - Z.min damage (enemy_health e)) = enemy_health e - Z.min damage (enemy_health e) ∧
  enemy_evolves c e (set_enemy_health (enemy_health e - Z.min damage (enemy_health e)) e).
Proof. intros [? ?] ?. split; [nowrap; done|]. constructor; simpl; done || lia. Qed.

Lemma area_loop_spec origin range damage player skill es fs evs hit killed :
  Forall (enemy_ok c) es → 0 <= damage →
  area_loop origin range damage player skill es = (fs, evs, hit, killed) →
  Forall2 (enemy_evolves c) es fs ∧
  (if killed then count_if live_boss fs < count_if live_boss es
   else count_if live_boss fs = count_if live_boss es)%nat ∧
  (hit = false → fs = es ∧ evs = [] ∧ killed = false).
Proof.
  intros Hes Hd. revert fs evs hit killed.
  induction Hes as [|e es He Hes IH]; intros fs evs hit killed; cbn [area_loop]; [by intros [= <- <- <- <-]|].
  destruct (area_loop origin range damage player skill es) as [[[fs' evs'] hit'] killed'].
  destruct (IH _ _ _ _ eq_refl) as (IH1 & IH2 & IH3). clear IH.
  pose proof (enemy_evolves_refl c e He) as Hrefl.
  destruct (_ || _) eqn:Eg.
  { intros [= <- <- <- <-]. split_and!; [by constructor| |naive_solver].
    simpl. destruct killed'; lia. }
  apply orb_false_elim in Eg as [E0 _]. destruct (damaged_evolves e damage He Hd) as [-> Hev].
  set (e1 := set_enemy_health _ e) in *.
  assert (Hb : is_boss e1 = is_boss e) by done.
  destruct (enemy_health e1 =? 0) eqn:E1; intros [= <- <- <- <-]; (split_and!; [by constructor| |done]);
    simpl; unfold live_boss in *; rewrite Hb, E0, E1; destruct (is_boss e); simpl; destruct killed'; simpl; lia.
Qed.

(** *** Projectiles *)

Definition projectile_ok (p : Projectile) : Prop :=
  inside (projectile_position p) ∧ in_u32 (speed_per_tick p) ∧ 0 <= projectile_damage p.

Lemma home_spec p target :
  projectile_ok p → inside target →
  projectile_ok (home c p target).1 ∧ projectile_id (home c p target).1 = projectile_id p ∧
  projectile_damage (home c p target).1 = projectile_damage p.
Proof using Hc.
  intros Hp Ht. unfold home. repeat split_if; simpl; try done. destruct Hp as (? & ? & ?).
  split; [|done]. unfold projectile_ok; simpl. split; [|done]. apply moveToward_in_arena; try done. apply Hc.
Qed.

Lemma advanceProjectile_spec now p es result p1 fs evs :
  projectile_ok p → Forall (enemy_ok c) es →
  advanceProjectile c now p es = (result, p1, fs, evs) →
  projectile_ok p1 ∧ projectile_id p1 = projectile_id p ∧ Forall2 (enemy_evolves c) es fs ∧
  (if bool_decide (result = BossKilled) then count_if live_boss fs < count_if live_boss es
   else count_if live_boss fs = count_if live_boss es)%nat.
Proof using Hc.
  intros Hp Hes. unfold advanceProjectile. pose proof (Forall2_enemy_refl c es Hes) as Hrefl.
  split_if; [by intros [= <- <- <- <-]|].
  destruct (findLivingEnemy es (projectile_target p)) as [[i target]|] eqn:Ef; [|by intros [= <- <- <- <-]].
  apply findLivingEnemy_Some in Ef as (Hi & _ & Hlive).
  assert (Ht : enemy_ok c target) by (rewrite Forall_forall in Hes; eauto using list_elem_of_lookup_2).
  pose proof (home_spec p (enemy_position target) Hp ltac:(apply Ht)) as (Hh1 & Hh2 & Hh3).
  destruct (home c p (enemy_position target)) as [p2 moved]; simpl in Hh1, Hh2, Hh3.
  split_if; [by intros [= <- <- <- <-]|].
  destruct (damaged_evolves target (projectile_damage p2) Ht ltac:(apply Hh1)) as [-> Hev].
  set (h := enemy_health target - _) in *. set (t1 := set_enemy_health h target) in *.
  intros [= <- <- <- <-]. split_and!; try done.
  - eapply Forall2_insert_refl; [|done|done]. eapply Forall_impl; [exact Hes|]. intros. by apply enemy_evolves_refl.
  - pose proof (count_if_insert live_boss es i target t1 Hi) as Hcnt.
    change (live_boss t1) with (is_boss target && negb (h =? 0)) in Hcnt.
    change (live_boss target) with (is_boss target && negb (enemy_health target =? 0)) in Hcnt.
    change (is_boss t1) with (is_boss target). rewrite (proj2 (Z.eqb_neq _ _) Hlive) in Hcnt.
    case_bool_decide as Hk; destruct (h =? 0), (is_boss target); simpl in *; try done; lia.
Qed.

Lemma advance_loop_spec now ps es qs fs evs killed :
  Forall projectile_ok ps → Forall (enemy_ok c) es →
  advance_loop c now ps es = (qs, fs, evs, killed) →
  Forall projectile_ok qs ∧ sublist (projectile_id <$> qs) (projectile_id <$> ps) ∧
  Forall2 (enemy_evolves c) es fs ∧
  (if killed then count_if live_boss fs < count_if live_boss es
   else count_if live_boss fs = count_if live_boss es)%nat.
Proof using Hc.
  intros Hps. revert es qs fs evs killed.
  induction Hps as [|p ps Hp Hps IH]; intros es qs fs evs killed Hes; simpl.
  { intros [= <- <- <- <-]. split_and!; try done. by apply Forall2_enemy_refl. }
  destruct (advanceProjectile c now p es) as [[[result p1] es1] evs1] eqn:Ea.
  apply advanceProjectile_spec in Ea as (Hp1 & Hid & Hev & Hcnt); [|done|done].
  assert (Hes1 := Forall2_enemy_ok c _ _ Hev Hes).
  destruct result; simpl in Hcnt.
  3:{ intros [= <- <- <- <-]. split_and!; try done; [by constructor|]. simpl. by rewrite Hid. }
  all: destruct (advance_loop c now ps es1) as [[[qs' es2] evs2] killed'] eqn:E; intros [= <- <- <- <-];
    apply IH in E as (Hq & Hsub & Hev2 & Hk); [|done]; split_and!; try (by eapply Forall2_enemy_trans);
    try done; try (by destruct killed'; lia).
  - by constructor.
  - simpl. rewrite Hid. by constructor.
  - simpl. by constructor.
Qed.
End damage.

(** ** The invariant *)

(** Enemies ever spawned by a room with [waves] waves out. *)
Definition spawned_count (c : RoomConfig) (waves : Z) (boss : bool) : Z :=
  waves * minions_per_wave c + (if boss then 1 else 0).

(** The enemies: ids are unique, increasing in spawn order, and the next id is
    still free (it wraps to 0 only when the last possible enemy is out). *)
Record army_ok (c : RoomConfig) (waves : Z) (boss : bool) (next : Z) (es : list Enemy) : Prop := {
  ao_sorted : sorted_by enemy_id es;
  ao_enemies : Forall (enemy_ok c) es;
  ao_ids : Forall (fun e => 1 <= enemy_id e <= spawned_count c waves boss) es;
  ao_next : next = u32 (1 + spawned_count c waves boss);
  ao_waves : 0 <= waves <= wave_count c;
  ao_bosses : (count_if is_boss es <= if boss then 1 else 0)%nat
}.

(** The projectiles: bounded in number, unique ids below the next one (0 when
    the ids are used up). *)
Record volley_ok (c : RoomConfig) (next : Z) (ps : list Projectile) : Prop := {
  vo_sorted : sorted_by projectile_id ps;
  vo_projectiles : Forall (projectile_ok c) ps;
  vo_ids : Forall (fun p => next = 0 ∨ projectile_id p < next) ps;
  vo_next : in_u32 next;
  vo_bound : zlen ps <= max_active_projectiles c
}.

(** The party. *)
Record party_ok (c : RoomConfig) (ps : list Participant) : Prop := {
  po_sorted : sorted_by player_id ps;
  po_seats : zlen ps <= max_participants c;
  po_participants : Forall (participant_ok c) ps
}.

(** What holds in every phase, also in the middle of a command. *)
Record core_ok (r : Room) : Prop := {
  cr_config : config_ok (config r);
  cr_party : party_ok (config r) (participants r);
  cr_army : army_ok (config r) (spawned_wave_count r) (boss_spawned r) (next_enemy_id r) (enemies r);
  cr_volley : volley_ok (config r) (next_projectile_id r) (projectiles r)
}.

(** A battle that goes on: the boss, once out, lives, and so does the party. *)
Record battle_ok (r : Room) : Prop := {
  bo_core : core_ok r;
  bo_phase : phase r = Running;
  bo_boss : count_if live_boss (enemies r) = if boss_spawned r then 1%nat else 0%nat;
  bo_party : party_alive (participants r)
}.

Definition phase_ok (r : Room) : Prop :=
  match phase r with
  | Waiting => enemies r = [] ∧ projectiles r = [] ∧ pending_events r = [] ∧
               spawned_wave_count r = 0 ∧ boss_spawned r = false ∧ digest_sequence r = 0 ∧
               Forall (fun p => current_health p = stat_health (stats p)) (participants r)
  | Running => battle_ok r ∧ zlen (pending_events r) < digest_flush_threshold (config r)
  | Cleared => boss_spawned r = true ∧ count_if live_boss (enemies r) = 0%nat ∧
               projectiles r = [] ∧ pending_events r = []
  | Failed => projectiles r = [] ∧ pending_events r = []
  end.

Definition room_ok (r : Room) : Prop := core_ok r ∧ phase_ok r.

(** The arguments a session can put into a command. *)
Definition command_ok (command : RoomCommand) : Prop :=
  match command with
  | JoinRoom _ st _ => 0 < stat_health st <= U64_MAX
  | _ => True
  end.

Section preservation.
Context (c : RoomConfig) (Hc : config_ok c).

Lemma party_evolves ps qs : party_ok c ps → Forall2 (participant_evolves c) ps qs → party_ok c qs.
Proof.
  intros [] Hev. constructor.
  - eapply sorted_by_same_keys; [by eapply Forall2_participant_ids|done].
  - unfold zlen in *. by rewrite <-(Forall2_length _ _ _ Hev).
  - by eapply Forall2_participant_ok.
Qed.

Lemma army_evolves waves b next es fs :
  army_ok c waves b next es → Forall2 (enemy_evolves c) es fs → army_ok c waves b next fs.
Proof.
  intros [] Hev. constructor; try done.
  - eapply sorted_by_same_keys; [by eapply Forall2_enemy_ids|done].
  - by eapply Forall2_enemy_ok.
  - rewrite Forall_forall in ao_ids0 |- *. intros f Hf.
    apply list_elem_of_lookup in Hf as [i Hi].
    destruct (Forall2_lookup_r _ _ _ _ _ Hev Hi) as (e & He & [Hid _ _ _]). rewrite Hid.
    apply ao_ids0. by eapply list_elem_of_lookup_2.
  - rewrite (count_if_Forall2 is_boss es fs); [done|]. eapply Forall2_impl; [exact Hev|].
    intros e f [_ Hk _ _]. unfold is_boss. by rewrite Hk.
Qed.

Lemma army_living waves b next es :
  army_ok c waves b next es →
  army_ok c waves b next (living es) ∧ count_if live_boss (living es) = count_if live_boss es.
Proof.
  intros []. unfold living. split.
  - constructor; try done.
    + eapply sublist_sorted; [|done]. apply filter_sublist.
    + eapply Forall_sublist; [apply filter_sublist|done].
    + eapply Forall_sublist; [apply filter_sublist|done].
    + etransitivity; [|exact ao_bosses0]. clear.
      induction es as [|e es IH]; simpl; [lia|]. rewrite filter_cons.
      destruct (decide _); simpl; destruct (is_boss e); lia.
  - clear. induction es as [|e es IH]; [done|]. rewrite filter_cons.
    destruct (decide (negb (enemy_health e =? 0) = true)) as [E|E]; simpl; [by rewrite IH|].
    rewrite IH. unfold live_boss at 2. destruct (enemy_health e =? 0); [|done].
    simpl. by rewrite andb_false_r.
Qed.

Lemma volley_sub next ps qs :
  volley_ok c next ps → Forall (projectile_ok c) qs → sublist (projectile_id <$> qs) (projectile_id <$> ps) →
  volley_ok c next qs.
Proof.
  intros [] Hq Hsub. constructor; try done.
  - apply sorted_by_fmap. apply sorted_by_fmap in vo_sorted0.
    by apply (sublist_sorted (fun z => z) _ _ Hsub).
  - rewrite Forall_forall in vo_ids0 |- *. intros q Hin.
    assert (Hin' : projectile_id q ∈ projectile_id <$> ps)
      by (eapply elem_of_sublist; [by apply list_elem_of_fmap_2|done]).
    apply list_elem_of_fmap in Hin' as (p & -> & Hp). auto.
  - apply sublist_length in Hsub. rewrite !length_fmap in Hsub. unfold zlen in *. lia.
Qed.

Lemma volley_nil next ps : volley_ok c next ps → volley_ok c next [].
Proof. intros Hv. eapply volley_sub; [exact Hv|constructor|]. simpl. apply sublist_nil_l. Qed.
End preservation.

(** ** Steps of a running battle *)

Lemma battle_events r evs : battle_ok r → battle_ok (push_events evs r).
Proof. intros [[] ? ? ?]. by constructor. Qed.

Lemma battle_participants r qs :
  battle_ok r → Forall2 (participant_evolves (config r)) (participants r) qs → party_alive qs →
  battle_ok (set_participants qs r).
Proof. intros [[] ? ? ?] Hev Ha. constructor; try done. constructor; try done. by eapply party_evolves. Qed.

Lemma battle_enemies r fs :
  battle_ok r → Forall2 (enemy_evolves (config r)) (enemies r) fs →
  count_if live_boss fs = count_if live_boss (enemies r) → battle_ok (set_enemies fs r).
Proof.
  intros [[] ? ? ?] Hev Hcnt. constructor; try done; [|by simpl; rewrite Hcnt].
  constructor; try done. by eapply army_evolves.
Qed.

Lemma core_killed r fs :
  battle_ok r → Forall2 (enemy_evolves (config r)) (enemies r) fs →
  (count_if live_boss fs < count_if live_boss (enemies r))%nat →
  core_ok (set_enemies fs r) ∧ boss_spawned r = true ∧ count_if live_boss fs = 0%nat.
Proof.
  intros [[] ? Hb ?] Hev Hcnt. split; [|destruct (boss_spawned r); split; try done; lia].
  constructor; try done. by eapply army_evolves.
Qed.

Lemma battle_moved r :
  battle_ok r → battle_ok (moveParticipants (set_enemies (living (enemies r)) r)).
Proof.
  intros [[Hc Hp Ha Hv] Hph Hb Hal]. unfold moveParticipants. simpl.
  destruct (army_living _ _ _ _ _ Ha) as [Ha' Hcnt].
  pose proof (move_loop_spec (config r) Hc _ (po_participants _ _ Hp)) as [Hev Hh].
  destruct (move_loop (config r) (participants r)) as [qs evs]; simpl in Hev, Hh.
  constructor; simpl; try done; [|by rewrite Hcnt|by eapply party_alive_same_health].
  constructor; simpl; try done. by eapply party_evolves.
Qed.

Lemma advanceProjectiles_ok r now killed r' :
  battle_ok r → advanceProjectiles r now = (killed, r') →
  if killed then core_ok r' ∧ boss_spawned r' = true ∧ count_if live_boss (enemies r') = 0%nat
  else battle_ok r'.
Proof.
  intros Hr. pose proof Hr as [[Hc Hp Ha Hv] Hph Hb Hal]. unfold advanceProjectiles.
  destruct (advance_loop (config r) now (projectiles r) (enemies r)) as [[[ps es] evs] k] eqn:E.
  apply advance_loop_spec in E as (Hps & Hsub & Hev & Hcnt); [|done|apply Hv|apply Ha].
  assert (Hv' : volley_ok (config r) (next_projectile_id r) ps) by (by eapply volley_sub).
  intros [= <- <-]. destruct k.
  - destruct (core_killed r es Hr Hev Hcnt) as ([? ? ? ?] & ? & ?). by split.
  - destruct (battle_enemies r es Hr Hev Hcnt) as [[? ? ? ?] ? ? ?]. by constructor.
Qed.

Lemma actEnemies_ok r now alive r' :
  battle_ok r → actEnemies r now = (alive, r') → core_ok r' ∧ (if alive then battle_ok r' else True).
Proof.
  intros Hr. pose proof Hr as [[Hc Hp Ha Hv] Hph Hb Hal]. unfold actEnemies.
  destruct (act_loop (config r) now (enemies r) (participants r)) as [[[es ps] evs] k] eqn:E.
  apply act_loop_spec in E as (Hev & Hh & Hpev & Hk); [|done|apply Ha|apply Hp|done].
  assert (Hp' : party_ok (config r) ps) by (by eapply party_evolves).
  assert (Ha' := army_evolves _ _ _ _ _ _ Ha Hev). intros [= <- <-]. split; [by constructor|].
  destruct k; [|done]. constructor; [by constructor|done| |done]. simpl. rewrite <-Hb.
  apply count_if_Forall2. clear -Hev Hh. revert Hh.
  induction Hev as [|e f es fs [? Hk ? ?] _ IH]; [constructor|]. intros [= Hh ?]. constructor; auto.
  unfold live_boss, is_boss. by rewrite Hk, Hh.
Qed.

Lemma seqZ_sorted m n : StronglySorted Z.lt (seqZ m (Z.of_nat n)).
Proof.
  revert m. induction n as [|n IH]; intros m; [constructor|].
  rewrite seqZ_cons by lia. replace (Z.pred (Z.of_nat (S n))) with (Z.of_nat n) by lia.
  constructor; [apply IH|]. apply Forall_seqZ. lia.
Qed.

(** A new enemy gets the next id; appending it keeps the army in order. *)
Lemma army_append c waves b next es waves' b' es' n :
  army_ok c waves b next es → config_ok c →
  0 <= waves' <= wave_count c →
  spawned_count c waves' b' = spawned_count c waves b + n → 0 <= n →
  enemy_id <$> es' = seqZ (1 + spawned_count c waves b) n → Forall (enemy_ok c) es' →
  (count_if is_boss es + count_if is_boss es' <= if b' then 1 else 0)%nat →
  army_ok c waves' b' (u32 (1 + spawned_count c waves b + n)) (es ++ es').
Proof.
  intros [] Hc Hw Hs Hn Hids Hok Hb.
  assert (Hids' : ∀ e, e ∈ es' → 1 + spawned_count c waves b <= enemy_id e < 1 + spawned_count c waves b + n).
  { intros e He. assert (Hin : enemy_id e ∈ enemy_id <$> es') by (by apply list_elem_of_fmap_2).
    rewrite Hids in Hin. apply elem_of_seqZ in Hin. lia. }
  rewrite Forall_forall in ao_ids0. constructor; try done.
  - apply StronglySorted_app. split_and!; [|done|].
    + intros e e' He He'. apply ao_ids0 in He. apply Hids' in He'. lia.
    + apply sorted_by_fmap. rewrite Hids, <-(Z2Nat.id n) by done. apply seqZ_sorted.
  - by apply Forall_app.
  - apply Forall_app. rewrite !Forall_forall. pose proof Hc as [[] ? ? ? ? ? ? ? ? ? ? ? ? ?].
    assert (0 <= spawned_count c waves b) by (unfold spawned_count; destruct b; nia).
    split; intros e He; [apply ao_ids0 in He|apply Hids' in He]; lia.
  - f_equal. lia.
  - rewrite count_if_app. lia.
Qed.

Lemma spawnWave_ok r now :
  core_ok r →
  let r' := spawnWave r now in
  core_ok r' ∧ count_if live_boss (enemies r') = count_if live_boss (enemies r) ∧
  spawned_wave_count r' = Z.min (wave_count (config r)) (spawned_wave_count r + 1) ∧
  (config r', phase r', participants r', boss_spawned r', next_wave_at r', projectiles r')
  = (config r, phase r, participants r, boss_spawned r, next_wave_at r, projectiles r).
Proof.
  intros [Hc Hp Ha Hv]. unfold spawnWave. pose proof (ao_waves _ _ _ _ _ Ha) as Hw.
  pose proof Hc as [[] ? ? ? He ? ? ? ? ? ? ? ? ?].
  split_if; to_prop; [split_and!; try done; lia|].
  destruct (spawn_loop _ _ _ _ _) as [[es evs] next] eqn:E.
  assert (Hsc : 0 <= spawned_count (config r) (spawned_wave_count r) (boss_spawned r) ∧
    spawned_count (config r) (spawned_wave_count r) (boss_spawned r) + minions_per_wave (config r)
    <= max_spawned_enemies (config r)) by (unfold spawned_count; destruct (boss_spawned r); nia).
  rewrite (ao_next _ _ _ _ _ Ha) in E. apply spawn_loop_spec in E as (-> & Hids & Hok & Hm); [|done|lia..].
  rewrite Z2Nat.id in * by lia. rewrite Forall_forall in Hm.
  assert (Hz : count_if is_boss es = 0%nat ∧ count_if live_boss es = 0%nat).
  { rewrite !count_if_zero, !Forall_forall. split; intros e He'; unfold live_boss; by destruct (Hm e He') as [-> _]. }
  simpl. rewrite (u64_small (spawned_wave_count r + 1)) by lia. split_and!; try done.
  - constructor; try done. simpl. eapply army_append; try done; try lia.
    + unfold spawned_count. destruct (boss_spawned r); lia.
    + destruct Hz as [-> _]. pose proof (ao_bosses _ _ _ _ _ Ha). lia.
  - rewrite count_if_app. lia.
  - lia.
Qed.

Lemma spawn_due_wave_ok r now : battle_ok r → battle_ok (spawn_due_wave r now).
Proof.
  intros [Hcore Hph Hb Hal]. destruct (spawnWave_ok r now Hcore) as ([] & Hl & _ & [= E1 E2 E3 E4 E5 E6]).
  unfold spawn_due_wave. constructor; simpl; [by constructor|congruence| |by rewrite E3].
  by rewrite Hl, E4.
Qed.

Lemma wave_loop_ok fuel r now : battle_ok r → battle_ok (wave_loop fuel r now).
Proof.
  revert r. induction fuel as [|n IH]; intros r Hr; simpl; [done|].
  split_if; [|done]. apply IH. by apply spawn_due_wave_ok.
Qed.

(** The fuel is enough: the loop always ends by its own condition. *)
Lemma wave_loop_exits r now :
  core_ok r → wave_due (wave_loop (wave_fuel r) r now) now = false.
Proof.
  intros Hr. remember (wave_fuel r) as n eqn:Hn. unfold wave_fuel in Hn.
  assert (Hle : wave_count (config r) - spawned_wave_count r <= Z.of_nat n) by lia. clear Hn. revert r Hr Hle.
  induction n as [|n IH]; intros r Hr Hle; simpl.
  - unfold wave_due. rewrite (proj2 (Z.ltb_ge _ _)) by lia. done.
  - destruct (wave_due r now) eqn:Ed; [|done].
    destruct (spawnWave_ok r now Hr) as ([] & _ & Hw & [= E1 E2 E3 E4 E5 E6]).
    apply IH; [by constructor|]. simpl. rewrite E1, Hw.
    unfold wave_due in Ed. to_prop. lia.
Qed.

Lemma spawnBoss_ok r now : battle_ok r → battle_ok (spawnBoss r now).
Proof.
  intros Hr. pose proof Hr as [[Hc Hp Ha Hv] Hph Hb Hal]. unfold spawnBoss.
  destruct (boss_spawned r) eqn:Ebs; [done|]. pose proof Hc as [[] ? ? ? He ? ? ? ? ? ? ? ? ?].
  pose proof (ao_waves _ _ _ _ _ Ha) as Hw. pose proof (ao_bosses _ _ _ _ _ Ha) as Hnb.
  assert (Hsc : 0 <= spawned_count (config r) (spawned_wave_count r) false < U32_MAX) by (unfold spawned_count; nia).
  rewrite (ao_next _ _ _ _ _ Ha) in *. rewrite (u32_small (1 + spawned_count _ _ _)) in * by lia.
  constructor; simpl; try done.
  - constructor; try done. simpl. eapply army_append; try done; try lia.
    + unfold spawned_count. lia.
    + simpl. constructor; [|constructor]. split; simpl; [lia|]. by apply bossSpawnPosition_in_arena.
    + simpl in *. lia.
  - rewrite count_if_app, Hb. simpl. unfold live_boss. simpl. rewrite (proj2 (Z.eqb_neq _ _)) by lia. done.
Qed.

(** ** The end of a command *)

Lemma takeDigest_ok r : battle_ok r → room_ok (takeDigest r).2.
Proof.
  intros Hr. pose proof Hr as [Hcore Hph Hb Hal]. unfold room_ok, phase_ok, takeDigest.
  pose proof (co_threshold _ (cr_config _ Hcore)) as Ht.
  destruct (pending_events r) eqn:E; simpl; rewrite Hph; destruct Hcore.
  - split_and!; [by constructor|done|by rewrite E].
  - split_and!; [by constructor| |done]. constructor; simpl; by try constructor.
Qed.

Lemma finishSkillUse_ok r player : battle_ok r → room_ok (finishSkillUse r player).2.
Proof.
  intros Hr. pose proof (takeDigest_ok r Hr) as Ht. unfold finishSkillUse. split_if; to_prop.
  - by destruct (takeDigest r).
  - pose proof Hr as [Hcore Hph _ _]. simpl. split; [done|]. unfold phase_ok. by rewrite Hph.
Qed.

Lemma failBattle_ok r status player reason : core_ok r → room_ok (failBattle r status player reason).2.
Proof.
  intros [Hc Hp Ha Hv]. apply volley_nil in Hv. unfold failBattle, takeDigest, room_ok, phase_ok. simpl.
  destruct (pending_events r) eqn:E; simpl; (split; [by constructor|]); by rewrite ?E.
Qed.

Lemma clearBattle_ok r player :
  core_ok r → boss_spawned r = true → count_if live_boss (enemies r) = 0%nat → room_ok (clearBattle r player).2.
Proof.
  intros [Hc Hp Ha Hv] Hb Hz. apply volley_nil in Hv. unfold clearBattle, takeDigest, room_ok, phase_ok. simpl.
  destruct (pending_events r) eqn:E; simpl; (split; [by constructor|]); by rewrite ?E.
Qed.

(** ** Every command keeps the invariant *)

Lemma handleJoinRoom_ok r player st equipped :
  room_ok r → 0 < stat_health st <= U64_MAX → room_ok (handleJoinRoom r player st equipped).2.
Proof.
  intros Hr Hst. pose proof Hr as [[Hc [Hso Hse Hpa] Ha Hv] Hph]. unfold handleJoinRoom.
  case_bool_decide as Hw; [|done]. unfold phase_ok in Hph. rewrite Hw in Hph. simpl negb.
  destruct (findParticipant r player) as [[i p]|] eqn:Ef; [done|]. cbn match. split_if; to_prop; [done|].
  destruct Hph as (? & ? & ? & ? & ? & ? & Hfull).
  assert (Hne : Forall (fun b => player_id b ≠ player) (participants r)).
  { apply find_sorted_None; [done|]. by rewrite <-findParticipant_find_sorted, Ef. }
  set (p := mkParticipant _ _ _ _ _ _ _ _ _).
  pose proof (insert_at_perm (lower_bound player_id player (participants r)) p (participants r)) as Hperm.
  assert (Hp : participant_ok (config r) p).
  { destruct (co_extents _ Hc). unfold participant_ok, in_arena; simpl. split_and!; try lia. constructor. }
  split; [constructor; try done; constructor|]; simpl.
  - by apply (insert_at_sorted player_id p).
  - unfold zlen in *. rewrite Hperm. simpl. lia.
  - rewrite Hperm. by constructor.
  - unfold phase_ok; simpl. rewrite Hw. split_and!; try done. rewrite Hperm. by constructor.
Qed.

Lemma battle_left r i :
  room_ok r → phase r = Running → party_alive (erase_at i (participants r)) →
  battle_ok (set_participants (erase_at i (participants r)) r).
Proof.
  intros [Hcore Hph] Hrun Hal. unfold phase_ok in Hph. rewrite Hrun in Hph. destruct Hph as [[_ _ Hb _] _].
  destruct Hcore as [Hc [Hso Hse Hpa] Ha Hv]. pose proof (erase_at_sublist i (participants r)) as Hsub.
  constructor; try done. constructor; try done. constructor; simpl.
  - by eapply sublist_sorted.
  - apply sublist_length in Hsub. unfold zlen in *. lia.
  - by eapply Forall_sublist.
Qed.

Lemma core_left r i : core_ok r → core_ok (set_participants (erase_at i (participants r)) r).
Proof.
  intros [Hc [Hso Hse Hpa] Ha Hv]. pose proof (erase_at_sublist i (participants r)) as Hsub.
  constructor; try done. constructor; simpl.
  - by eapply sublist_sorted.
  - apply sublist_length in Hsub. unfold zlen in *. lia.
  - by eapply Forall_sublist.
Qed.

Lemma handleLeaveRoom_ok r player : room_ok r → room_ok (handleLeaveRoom r player).2.
Proof.
  intros Hr. pose proof Hr as [Hcore Hph]. unfold handleLeaveRoom.
  destruct (bool_decide (phase r = Cleared) || bool_decide (phase r = Failed)) eqn:Ep; [done|].
  apply orb_false_elim in Ep as [Hn1%bool_decide_eq_false Hn2%bool_decide_eq_false].
  destruct (findParticipant r player) as [[i p]|] eqn:Ef; [|done].
  pose proof (core_left r i Hcore) as Hleft.
  case_bool_decide as Hrun; simpl negb; cbn match.
  - case_bool_decide as Hempty.
    + assert (Hnil : erase_at i (participants r) = []) by (by apply nil_length_inv).
      assert (Hb := battle_left r i Hr Hrun). rewrite Hnil in Hb. specialize (Hb eq_refl).
      destruct Hb as [[Hc Hp Ha Hv] _ Hbo Hal]. rewrite <-Hnil in Hp, Hal. apply volley_nil in Hv.
      split; [by constructor|]. unfold phase_ok; simpl. rewrite Hrun.
      split; [constructor; try done; by constructor|apply (co_threshold _ Hc)].
    + simpl participants. destruct (allParticipantsDead (erase_at i (participants r))) eqn:Ed.
      * apply failBattle_ok. by destruct Hleft.
      * pose proof (takeDigest_ok _ (battle_events _ [ParticipantLeft player] (battle_left r i Hr Hrun Ed))) as Ht.
        by destruct (takeDigest _).
  - unfold phase_ok in Hph. destruct (phase r) eqn:E; try done.
    split; [done|]. unfold phase_ok; simpl. rewrite E. destruct Hph as (? & ? & ? & ? & ? & ? & ?).
    split_and!; try done. by eapply Forall_sublist; [apply erase_at_sublist|].
Qed.

Lemma initializeArena_ok r deadline wave boss :
  room_ok r → canStartBattle r = true →
  battle_ok (initializeArena (set_schedule deadline wave boss (set_phase Running r))).
Proof.
  intros [[Hc [Hso Hse Hpa] Ha Hv] Hph] Hs. unfold canStartBattle in Hs. apply andb_prop in Hs as [Hw Hne].
  apply bool_decide_eq_true in Hw. apply negb_true_iff, bool_decide_eq_false in Hne.
  unfold phase_ok in Hph. rewrite Hw in Hph. destruct Hph as (He & Hpr & Hpe & Hsw & Hbs & _ & Hfull).
  unfold initializeArena; simpl.
  pose proof (initialize_loop_spec (config r) Hc (participants r) _ 0 Hpa ltac:(lia) eq_refl Hse) as Hi.
  rewrite Z.add_0_l in Hi. destruct (initialize_loop _ _ _ _) as [qs evs]. destruct Hi as [Hq Hqok].
  assert (Hids : player_id <$> qs = player_id <$> participants r).
  { clear -Hq. induction Hq as [|p q ps qs (Hpq & _) _ IH]; [done|]. by rewrite !fmap_cons, IH, Hpq. }
  constructor; simpl; try done.
  - constructor; try done. constructor; simpl; try done.
    + by eapply sorted_by_same_keys.
    + unfold zlen in *. by rewrite <-(Forall2_length _ _ _ Hq).
  - by rewrite He, Hbs.
  - apply allParticipantsDead_false. destruct Hq as [|p q ps qs (_ & Hs & Hh) _]; [done|]. right. exists q.
    split; [left|]. apply Forall_cons in Hpa as [(_ & ? & _) _]. lia.
Qed.

Lemma handleStartBattle_ok r now : room_ok r → room_ok (handleStartBattle r now).2.
Proof.
  intros Hr. unfold handleStartBattle. destruct (canStartBattle r) eqn:Ecan; [|done]. cbn [negb].
  set (r1 := set_schedule _ _ _ _).
  pose proof (initializeArena_ok r (after now (battle_duration (config r))) (after now (wave_interval (config r)))
    (after now (boss_spawn_after (config r))) Hr Ecan) as Hb. fold r1 in Hb.
  assert (Hw : battle_ok (spawnWave (initializeArena r1) now)).
  { destruct Hb as [Hcore Hph Hb Hal].
    destruct (spawnWave_ok (initializeArena r1) now Hcore) as (Hc' & Hl & _ & [= E1 E2 E3 E4 E5 E6]).
    constructor; [done|congruence| |by rewrite E3]. by rewrite Hl, E4. }
  pose proof (takeDigest_ok _ Hw) as Ht. by destruct (takeDigest _).
Qed.

Lemma update_cooldowns_sorted cs skill ready :
  sorted_by cooldown_skill cs → sorted_by cooldown_skill (update_cooldowns cs skill ready).
Proof.
  intros Hs. unfold update_cooldowns.
  destruct (cs !! lower_bound cooldown_skill skill cs) as [cd|] eqn:E.
  - split_if; to_prop.
    + eapply sorted_by_same_keys; [|done]. rewrite list_fmap_insert. simpl.
      apply list_insert_id. rewrite list_lookup_fmap, E. simpl. by f_equal.
    + apply (insert_at_sorted cooldown_skill (mkSkillCooldown skill ready)); [done|].
      apply find_sorted_None; [done|]. unfold find_sorted; simpl. rewrite E. by rewrite (proj2 (Z.eqb_neq _ _)).
  - apply (insert_at_sorted cooldown_skill (mkSkillCooldown skill ready)); [done|].
    apply find_sorted_None; [done|]. unfold find_sorted; simpl. by rewrite E.
Qed.

(** A participant replaced by one of the same health. *)
Lemma battle_update r i p q :
  battle_ok r → participants r !! i = Some p → current_health q = current_health p →
  participant_evolves (config r) p q → battle_ok (set_participants (<[i := q]> (participants r)) r).
Proof.
  intros Hr Hi Hh Hev. pose proof Hr as [[Hc Hp _ _] _ _ Hal]. apply battle_participants; [done| |].
  - eapply Forall2_insert_refl; [|done|done]. eapply Forall_impl; [apply Hp|].
    intros. by apply participant_evolves_refl.
  - eapply party_alive_same_health; [|done]. rewrite list_fmap_insert, Hh. apply list_insert_id.
    by rewrite list_lookup_fmap, Hi.
Qed.

Lemma room_ok_battle r : room_ok r → phase r = Running → battle_ok r.
Proof. intros [_ Hph] Hrun. unfold phase_ok in Hph. rewrite Hrun in Hph. apply Hph. Qed.

Lemma commitSkillUse_ok r x :
  battle_ok r → participants r !! ctx_index x = Some (ctx_participant x) → battle_ok (commitSkillUse r x).
Proof.
  intros Hr Hi. unfold commitSkillUse. eapply battle_update; [done|done|done|].
  pose proof Hr as [[Hc [_ _ Hp] _ _] _ _ _]. rewrite Forall_forall in Hp.
  destruct (Hp (ctx_participant x)) as (? & ? & ? & ?); [by eapply list_elem_of_lookup_2|].
  constructor; simpl; try done; [lia|]. by apply update_cooldowns_sorted.
Qed.

Lemma applyAreaAttack_ok r x range :
  battle_ok r → participants r !! ctx_index x = Some (ctx_participant x) → 0 <= ctx_damage x →
  room_ok (applyAreaAttack r x range).2.
Proof.
  intros Hr Hi Hd. pose proof (commitSkillUse_ok r x Hr Hi) as H1. unfold applyAreaAttack.
  set (r1 := commitSkillUse r x) in *.
  destruct (area_loop _ _ _ _ _ _) as [[[es evs] hit] killed] eqn:E.
  apply (area_loop_spec (config r1)) in E as (Hev & Hcnt & Hmiss); [|apply H1|done].
  destruct hit; cbn [negb].
  - destruct killed.
    + destruct (core_killed r1 es H1 Hev Hcnt) as ([] & Hb & Hz). by apply clearBattle_ok.
    + apply finishSkillUse_ok, battle_events. by apply battle_enemies.
  - destruct (Hmiss eq_refl) as (-> & _ & ->).
    apply finishSkillUse_ok, battle_events, battle_events. by apply battle_enemies.
Qed.

Lemma spawnHomingProjectile_ok r x acquisition speed hit lifetime :
  room_ok r → battle_ok r → participants r !! ctx_index x = Some (ctx_participant x) → 0 <= ctx_damage x →
  in_u32 speed → room_ok (spawnHomingProjectile r x acquisition speed hit lifetime).2.
Proof.
  intros Hok Hr Hi Hd Hsp. pose proof (commitSkillUse_ok r x Hr Hi) as H1. unfold spawnHomingProjectile.
  destruct (findTargetEnemy _ _ _) as [target|]; [|by apply finishSkillUse_ok, battle_events].
  destruct (_ || _) eqn:Eg; [done|]. to_prop. apply finishSkillUse_ok, battle_events.
  pose proof H1 as [[Hc Hp Ha Hv] Hph Hb Hal]. constructor; try done. constructor; try done. simpl.
  destruct Hv as [Hs Hpr Hids Hn Hbd]. simpl in *. rewrite Forall_forall in Hids.
  set (next := next_projectile_id r) in *.
  assert (Hids' : ∀ p, p ∈ projectiles r → projectile_id p < next).
  { intros p Hin. destruct (Hids p Hin); lia. }
  pose proof Hr as [[_ [_ _ Hpp] _ _] _ _ _]. rewrite Forall_forall in Hpp.
  destruct (Hpp (ctx_participant x)) as (_ & _ & Hpos & _); [by eapply list_elem_of_lookup_2|].
  constructor.
  - apply StronglySorted_app. split_and!; [|done|by repeat constructor].
    intros p q Hp' ->%list_elem_of_singleton. simpl. auto.
  - apply Forall_app. split; [done|]. constructor; [|constructor]. unfold projectile_ok; simpl. done.
  - apply Forall_app. split.
    + apply Forall_forall. intros p Hin%Hids'. split_if; to_prop; [by left|]. rewrite u32_small by lia. lia.
    + constructor; [|constructor]. simpl. split_if; to_prop; [by left|]. rewrite u32_small by lia. lia.
  - split_if; to_prop; [lia|]. rewrite u32_small by lia. lia.
  - unfold zlen in *. rewrite length_app. simpl. lia.
Qed.

Lemma calculateSkillDamage_nonneg sd attack : 0 <= calculateSkillDamage sd attack.
Proof. apply Z.div_pos; [apply u64_range|done]. Qed.

Lemma handleUseSkill_ok r player skill seq now : room_ok r → room_ok (handleUseSkill r player skill seq now).2.
Proof.
  intros Hr. unfold handleUseSkill. case_bool_decide as Hrun; [|done]. cbn [negb].
  pose proof (room_ok_battle r Hr Hrun) as Hb.
  split_if; [apply failBattle_ok, Hr|].
  destruct (findParticipant r player) as [[i p]|] eqn:Ef; [|done].
  apply findParticipant_lookup in Ef as (Hi & _ & _).
  split_if; [done|]. split_if; [done|]. destruct (findSkill skill) as [sd|] eqn:Es; [|done].
  split_if; [done|]. split_if; [done|].
  destruct (skill_behavior sd) as [pct range|pct acq speed hit life] eqn:Ebh.
  - apply applyAreaAttack_ok; try done. apply calculateSkillDamage_nonneg.
  - apply spawnHomingProjectile_ok; try done; [apply calculateSkillDamage_nonneg|].
    clear -Es Ebh. unfold findSkill, findDefinition in Es. repeat (case_match; simplify_eq); simpl in Ebh; simplify_eq;
      unfold ARCANE_BOLT_SPEED_PER_TICK; lia.
Qed.

Lemma handleSetMoveIntent_ok r player direction seq now :
  room_ok r → room_ok (handleSetMoveIntent r player direction seq now).2.
Proof.
  intros Hr. unfold handleSetMoveIntent. case_bool_decide as Hrun; [|done]. cbn [negb].
  pose proof (room_ok_battle r Hr Hrun) as Hb.
  split_if; [apply failBattle_ok, Hr|].
  destruct (findParticipant r player) as [[i p]|] eqn:Ef; [|done].
  apply findParticipant_lookup in Ef as (Hi & _ & _).
  split_if; [done|]. split_if; [done|]. simpl.
  set (q := set_move_intent _ _). pose proof Hb as [[Hc [_ _ Hp] _ _] _ _ _]. rewrite Forall_forall in Hp.
  destruct (Hp p) as (? & ? & ? & ?); [by eapply list_elem_of_lookup_2|].
  assert (Hb' := battle_update r i p q Hb Hi eq_refl ltac:(constructor; simpl; done || lia)).
  split; [apply Hb'|]. destruct Hr as [_ Hph]. unfold phase_ok in *; simpl. rewrite Hrun in Hph |- *.
  split; [exact Hb'|apply Hph].
Qed.

Lemma handleBattleDeadline_ok r now : room_ok r → room_ok (handleBattleDeadline r now).2.
Proof. intros Hr. unfold handleBattleDeadline. split_if; [done|]. apply failBattle_ok, Hr. Qed.

Lemma handleRoomSimulationTick_ok r now : room_ok r → room_ok (handleRoomSimulationTick r now).2.
Proof.
  intros Hr. unfold handleRoomSimulationTick. case_bool_decide as Hrun; [|done]. cbn [negb].
  split_if; [apply failBattle_ok, Hr|].
  pose proof (battle_moved r (room_ok_battle r Hr Hrun)) as H1. set (r1 := moveParticipants _) in *.
  destruct (advanceProjectiles r1 now) as [killed r2] eqn:E2. apply advanceProjectiles_ok in E2; [|done].
  destruct killed; [destruct E2 as (? & ? & ?); by apply clearBattle_ok|].
  destruct (actEnemies r2 now) as [alive r3] eqn:E3. apply actEnemies_ok in E3 as [Hcore H3]; [|done].
  destruct alive; cbn [negb]; [|by apply failBattle_ok].
  pose proof (wave_loop_ok (wave_fuel r3) r3 now H3) as H4. set (r4 := wave_loop _ _ _) in *.
  match goal with |- context [takeDigest ?x] => set (r5 := x) end.
  assert (H5 : battle_ok r5) by (unfold r5; split_if; [by apply spawnBoss_ok|done]).
  pose proof (takeDigest_ok r5 H5) as Ht. by destruct (takeDigest r5).
Qed.

Lemma room_handle_ok r command now : room_ok r → command_ok command → room_ok (room_handle r command now).2.
Proof.
  intros Hr Hc. destruct command; simpl; eauto using handleJoinRoom_ok, handleLeaveRoom_ok, handleStartBattle_ok,
    handleUseSkill_ok, handleBattleDeadline_ok, handleRoomSimulationTick_ok, handleSetMoveIntent_ok.
Qed.

Lemma makeRoom_ok room c r : config_typed c → makeRoom room c = Ret r → room_ok r.
Proof.
  intros Ht Hm. apply makeRoom_config_ok in Hm as (Hc & _ & ->); [|done].
  pose proof Hc as [[] ? ? ? ? ? ? ? ? ? ? ? ? ?].
  split; [|by split_and!]. constructor; simpl; [done| | |].
  - constructor; simpl; [constructor|unfold zlen; simpl; lia|constructor].
  - constructor; simpl; try constructor; try done; lia.
  - constructor; simpl; try constructor; try done; try lia. unfold zlen; simpl; lia.
Qed.

Lemma room_run_ok r cs rs r' :
  room_ok r → Forall (fun ct => command_ok ct.1) cs → room_run r cs = (rs, r') → room_ok r'.
Proof.
  intros Hr Hcs. revert r rs Hr. induction Hcs as [|[cmd t] cs Hc Hcs IH]; intros r rs Hr; simpl.
  { by intros [= <- <-]. }
  pose proof (room_handle_ok r cmd t Hr Hc) as Hok. destruct (room_handle r cmd t) as [res r1].
  destruct (room_run r1 cs) as [rs' r2] eqn:E. intros [= <- <-]. by eapply IH.
Qed.
