(* ===== verification/RoomSpec.v ===== *)
(** * The battle Room: what a battle promises

    The theorems about whole commands and whole runs of a room: the invariant,
    the phase machine, the outcome and its rewards, the wave schedule, the
    numbering of digests, and the exactly-once and cooldown rules of requests. *)

From S2P Require Import Prelude Arena Skills RoomTypes Room RoomInv.

(** ** Results of the closing operations *)

Lemma takeDigest_frame r :
  let r' := (takeDigest r).2 in
  (phase r', participants r', enemies r', projectiles r', boss_spawned r', config r')
  = (phase r, participants r, enemies r, projectiles r, boss_spawned r, config r) ∧
  pending_events r' = [].
Proof. unfold takeDigest. by destruct (pending_events r) eqn:E. Qed.

Lemma failBattle_result r status player reason :
  let '(res, r') := failBattle r status player reason in
  rr_status res = status ∧ rr_outcome res = Some OutcomeFailed ∧ rr_failure_reason res = Some reason ∧
  rr_grants res = [] ∧ rr_audience res = audience r ∧
  (phase r', participants r', enemies r') = (Failed, participants r, enemies r).
Proof. unfold failBattle, takeDigest; simpl. by destruct (pending_events r). Qed.

Lemma clearBattle_result r player :
  let '(res, r') := clearBattle r player in
  rr_status res = Applied ∧ rr_outcome res = Some OutcomeCleared ∧ rr_failure_reason res = None ∧
  rr_grants res = rewardClear r ∧ rr_audience res = audience r ∧
  (phase r', participants r', enemies r') = (Cleared, participants r, enemies r).
Proof. unfold clearBattle, takeDigest; simpl. by destruct (pending_events r). Qed.

Lemma finishSkillUse_result r player :
  let '(res, r') := finishSkillUse r player in
  rr_status res = Applied ∧ rr_outcome res = None ∧ rr_failure_reason res = None ∧ rr_grants res = [] ∧
  (phase r', participants r', enemies r', boss_spawned r') = (phase r, participants r, enemies r, boss_spawned r).
Proof. unfold finishSkillUse, takeDigest; simpl. split_if; [|done]. by destruct (pending_events r). Qed.

(** ** What one command may report *)

Definition live_bosses (r : Room) : nat := count_if live_boss (enemies r).

(** The report of one command: an outcome is reported exactly when the phase
    becomes final, with its reason and rewards. *)
Definition reported (r : Room) (now : time_point) (res : RoomResult) (r' : Room) : Prop :=
  match rr_outcome res with
  | None =>
      rr_grants res = [] ∧ rr_failure_reason res = None ∧
      (phase r' = phase r ∨ (phase r = Waiting ∧ phase r' = Running))
  | Some OutcomeCleared =>
      phase r = Running ∧ phase r' = Cleared ∧ rr_failure_reason res = None ∧
      live_bosses r = 1%nat ∧ live_bosses r' = 0%nat ∧ now < battle_deadline_at r ∧
      player_id <$> participants r' = player_id <$> participants r ∧
      rr_grants res = (fun p => mkStreetExperienceGrant (player_id p) (clear_experience (config r))) <$> participants r
  | Some OutcomeFailed =>
      phase r = Running ∧ phase r' = Failed ∧ rr_grants res = [] ∧
      match rr_failure_reason res with
      | Some Deadline => battle_deadline_at r <= now
      | Some ParticipantsDefeated => participants r' ≠ [] ∧ Forall (fun p => current_health p = 0) (participants r')
      | None => False
      end
  end.

Lemma allParticipantsDead_true c ps :
  Forall (participant_ok c) ps → allParticipantsDead ps = true →
  ps ≠ [] ∧ Forall (fun p => current_health p = 0) ps.
Proof.
  intros Hok Hd. destruct (decide (ps = [])) as [->|Hne]; [done|]. split; [done|].
  rewrite Forall_forall in *. intros p Hp. destruct (Hok p Hp) as (? & _).
  destruct (decide (0 < current_health p)) as [Hh|]; [|lia].
  assert (party_alive ps) by (apply allParticipantsDead_false; eauto). unfold party_alive in *. congruence.
Qed.

Lemma rewardClear_same_ids c (ps qs : list Participant) :
  player_id <$> qs = player_id <$> ps →
  (fun p => mkStreetExperienceGrant (player_id p) c) <$> qs = (fun p => mkStreetExperienceGrant (player_id p) c) <$> ps.
Proof.
  intros Hids. change (fun p => mkStreetExperienceGrant (player_id p) c)
    with ((fun i => mkStreetExperienceGrant i c) ∘ player_id). by rewrite !list_fmap_compose, Hids.
Qed.

Lemma reported_unchanged r now status player : reported r now (baseResult r status player) r.
Proof. unfold reported; simpl. auto. Qed.

Lemma failBattle_reported r r1 now status player reason :
  phase r = Running →
  match reason with
  | Deadline => battle_deadline_at r <= now
  | ParticipantsDefeated => participants r1 ≠ [] ∧ Forall (fun p => current_health p = 0) (participants r1)
  end →
  let '(res, r') := failBattle r1 status player reason in reported r now res r'.
Proof.
  intros Hrun Hreason. pose proof (failBattle_result r1 status player reason) as Hf.
  destruct (failBattle r1 status player reason) as [res r'].
  destruct Hf as (_ & Ho & Hr & Hg & _ & [= Hp Hps _]). unfold reported. rewrite Ho, Hr, Hps.
  destruct reason; auto.
Qed.

Lemma clearBattle_reported r r1 now player :
  phase r = Running → now < battle_deadline_at r → live_bosses r = 1%nat → live_bosses r1 = 0%nat →
  player_id <$> participants r1 = player_id <$> participants r → config r1 = config r →
  let '(res, r') := clearBattle r1 player in reported r now res r'.
Proof.
  intros Hrun Hdl Hl Hl1 Hids Hcfg. pose proof (clearBattle_result r1 player) as Hf.
  destruct (clearBattle r1 player) as [res r'].
  destruct Hf as (_ & Ho & Hr & Hg & _ & [= Hp Hps Hes]). unfold reported, live_bosses. rewrite Ho, Hr, Hps, Hg, Hes.
  split_and!; try done. unfold rewardClear. rewrite Hcfg. by apply rewardClear_same_ids.
Qed.

(** The fields the simulation steps leave alone. *)
Lemma moveParticipants_frame r :
  let r' := moveParticipants r in
  (phase r', config r', boss_spawned r', battle_deadline_at r', enemies r', projectiles r')
  = (phase r, config r, boss_spawned r, battle_deadline_at r, enemies r, projectiles r).
Proof. unfold moveParticipants. by destruct (move_loop _ _). Qed.

Lemma moveParticipants_ids r : player_id <$> participants (moveParticipants r) = player_id <$> participants r.
Proof.
  unfold moveParticipants. destruct (move_loop (config r) (participants r)) as [qs evs] eqn:E. simpl.
  revert qs evs E. induction (participants r) as [|p ps IH]; simpl; intros qs evs; [by intros [= <- <-]|].
  destruct (move_loop (config r) ps) as [qs' evs']. specialize (IH _ _ eq_refl).
  repeat split_if; intros [= <- <-]; rewrite !fmap_cons, IH; done.
Qed.

Lemma advanceProjectiles_frame r now :
  let r' := (advanceProjectiles r now).2 in
  (phase r', config r', boss_spawned r', battle_deadline_at r', participants r')
  = (phase r, config r, boss_spawned r, battle_deadline_at r, participants r).
Proof. unfold advanceProjectiles. by destruct (advance_loop _ _ _ _) as [[[? ?] ?] ?]. Qed.

Lemma actEnemies_frame r now :
  let r' := (actEnemies r now).2 in
  (phase r', config r', boss_spawned r', battle_deadline_at r')
  = (phase r, config r, boss_spawned r, battle_deadline_at r).
Proof. unfold actEnemies. by destruct (act_loop _ _ _ _) as [[[? ?] ?] ?]. Qed.

Lemma actEnemies_dead r now r' : battle_ok r → actEnemies r now = (false, r') → allParticipantsDead (participants r') = true.
Proof.
  intros [[Hc Hp Ha Hv] Hph Hb Hal]. unfold actEnemies.
  destruct (act_loop (config r) now (enemies r) (participants r)) as [[[es ps] evs] k] eqn:E.
  apply act_loop_spec in E as (_ & _ & _ & Hk); [|done|apply Ha|apply Hp|done]. by intros [= -> <-].
Qed.

Lemma handleLeaveRoom_reported r player now :
  room_ok r → let '(res, r') := handleLeaveRoom r player in reported r now res r'.
Proof.
  intros Hr. pose proof Hr as [Hcore _]. unfold handleLeaveRoom.
  match goal with |- context [if ?b then _ else _] => destruct b end; [apply reported_unchanged|].
  destruct (findParticipant r player) as [[i p]|]; [|apply reported_unchanged].
  pose proof (cr_party _ (core_left r i Hcore)) as [_ _ Hpa]. simpl in Hpa.
  case_bool_decide as Hrun; cbn [negb]; [|by unfold reported; simpl; auto].
  split_if; [by unfold reported; simpl; auto|].
  destruct (allParticipantsDead _) eqn:Ed.
  - apply failBattle_reported; [done|]. by eapply allParticipantsDead_true.
  - unfold takeDigest; simpl. destruct (pending_events r); by unfold reported; simpl; auto.
Qed.

Lemma handleUseSkill_reported r player skill seq now :
  room_ok r → let '(res, r') := handleUseSkill r player skill seq now in reported r now res r'.
Proof.
  intros Hr. unfold handleUseSkill. case_bool_decide as Hrun; cbn [negb]; [|apply reported_unchanged].
  pose proof (room_ok_battle r Hr Hrun) as Hb. destruct (battle_deadline_at r <=? now) eqn:Edl; to_prop.
  { by apply failBattle_reported. }
  destruct (findParticipant r player) as [[i p]|] eqn:Ef; [|apply reported_unchanged].
  apply findParticipant_lookup in Ef as (Hi & _ & _).
  split_if; [apply reported_unchanged|]. split_if; [apply reported_unchanged|].
  destruct (findSkill skill) as [sd|]; [|apply reported_unchanged].
  split_if; [apply reported_unchanged|]. split_if; [apply reported_unchanged|].
  set (x := mkSkillCastContext _ _ _ _ _ _ _ _).
  assert (Hfin : ∀ r1 q, phase r1 = Running → let '(res, r') := finishSkillUse r1 q in reported r now res r').
  { intros r1 q Hp1. pose proof (finishSkillUse_result r1 q) as Hf. destruct (finishSkillUse r1 q) as [res r'].
    destruct Hf as (_ & Ho & Hfr & Hg & [= Hph _ _ _]). unfold reported. rewrite Ho, Hph. auto with congruence. }
  destruct (skill_behavior sd) as [pct range|pct acq speed hit life].
  - pose proof (commitSkillUse_ok r x Hb Hi) as H1. unfold applyAreaAttack.
    set (r1 := commitSkillUse r x) in *.
    destruct (area_loop _ _ _ _ _ _) as [[[es evs] hit] killed] eqn:E.
    apply (area_loop_spec (config r1)) in E as (Hev & Hcnt & _); [|apply H1|apply calculateSkillDamage_nonneg].
    destruct hit; cbn [negb]; [|by apply Hfin]. destruct killed; [|by apply Hfin].
    destruct (core_killed r1 es H1 Hev Hcnt) as (_ & Hbs & Hz).
    apply clearBattle_reported; try done.
    + unfold live_bosses. rewrite (bo_boss _ Hb). change (boss_spawned r = true) in Hbs. by rewrite Hbs.
    + simpl. rewrite list_fmap_insert. apply list_insert_id. by rewrite list_lookup_fmap, Hi.
  - unfold spawnHomingProjectile. destruct (findTargetEnemy _ _ _); [|by apply Hfin].
    split_if; [apply reported_unchanged|]. by apply Hfin.
Qed.

Lemma handleRoomSimulationTick_reported r now :
  room_ok r → let '(res, r') := handleRoomSimulationTick r now in reported r now res r'.
Proof.
  intros Hr. unfold handleRoomSimulationTick.
  case_bool_decide as Hrun; cbn [negb]; [|apply reported_unchanged].
  pose proof (room_ok_battle r Hr Hrun) as Hb. destruct (battle_deadline_at r <=? now) eqn:Edl; to_prop.
  { by apply failBattle_reported. }
  pose proof (battle_moved r Hb) as H1. pose proof (moveParticipants_frame (set_enemies (living (enemies r)) r)) as F1.
  pose proof (moveParticipants_ids (set_enemies (living (enemies r)) r)) as I1.
  set (r1 := moveParticipants _) in *. simpl in F1, I1. injection F1 as F11 F12 F13 F14 F15 F16.
  pose proof (advanceProjectiles_frame r1 now) as F2.
  destruct (advanceProjectiles r1 now) as [killed r2] eqn:E2. simpl in F2. injection F2 as F21 F22 F23 F24 F25.
  apply advanceProjectiles_ok in E2; [|done]. destruct killed.
  { destruct E2 as (_ & Hbs & Hz). apply clearBattle_reported; try done; try congruence.
    unfold live_bosses. rewrite (bo_boss _ Hb), <-F13, <-F23. by rewrite Hbs. }
  pose proof (actEnemies_frame r2 now) as F3.
  destruct (actEnemies r2 now) as [alive r3] eqn:E3. simpl in F3. injection F3 as F31 F32 F33 F34.
  pose proof (actEnemies_ok _ _ _ _ E2 E3) as [Hcore H3]. destruct alive; cbn [negb].
  2:{ apply failBattle_reported; [done|]. apply actEnemies_dead in E3; [|done].
      eapply allParticipantsDead_true; [apply Hcore|done]. }
  pose proof (wave_loop_ok (wave_fuel r3) r3 now H3) as H4. set (r4 := wave_loop _ _ _) in *.
  match goal with |- context [takeDigest ?x] => set (r5 := x) end.
  assert (H5 : battle_ok r5) by (unfold r5; split_if; [by apply spawnBoss_ok|done]).
  pose proof (takeDigest_frame r5) as [[= E51 _ _ _ _ _] _]. destruct (takeDigest r5) as [d r6]. simpl in E51.
  unfold reported. split_if; simpl; (split_and!; [done|done|left; rewrite E51, Hrun; apply H5]).
Qed.

Lemma room_handle_reported r command now res r' :
  room_ok r → room_handle r command now = (res, r') → reported r now res r'.
Proof.
  intros Hr. destruct command as [player st eq|player| |player skill seq| | |player dir seq]; simpl.
  - unfold handleJoinRoom. repeat (split_if || case_match); intros [= <- <-]; by unfold reported; simpl; auto.
  - pose proof (handleLeaveRoom_reported r player now Hr). by destruct (handleLeaveRoom _ _); intros [= <- <-].
  - unfold handleStartBattle. destruct (canStartBattle r) eqn:Ecan; cbn [negb].
    2:{ intros [= <- <-]. apply reported_unchanged. }
    match goal with |- context [takeDigest ?x] => set (r2 := x) end.
    pose proof (takeDigest_frame r2) as [[= Ep _ _ _ _ _] _].
    assert (Hp2 : phase r2 = Running).
    { unfold r2, spawnWave, initializeArena. simpl. destruct (initialize_loop _ _ _ _). simpl.
      split_if; [done|]. by destruct (spawn_loop _ _ _ _ _) as [[? ?] ?]. }
    destruct (takeDigest r2) as [d r3]. simpl in Ep. intros [= <- <-].
    unfold canStartBattle in Ecan. apply andb_prop in Ecan as [Hw%bool_decide_eq_true _].
    unfold reported. split_if; simpl; (split_and!; try done; right; split; congruence).
  - pose proof (handleUseSkill_reported r player skill seq now Hr).
    by destruct (handleUseSkill _ _ _ _ _); intros [= <- <-].
  - unfold handleBattleDeadline. destruct (_ || _) eqn:E; [intros [= <- <-]; apply reported_unchanged|].
    apply orb_false_elim in E as [E1%negb_false_iff%bool_decide_eq_true E2]. to_prop.
    pose proof (failBattle_reported r r now Applied None Deadline E1 E2).
    by destruct (failBattle _ _ _ _); intros [= <- <-].
  - pose proof (handleRoomSimulationTick_reported r now Hr).
    by destruct (handleRoomSimulationTick _ _); intros [= <- <-].
  - unfold handleSetMoveIntent. case_bool_decide as Hrun; cbn [negb].
    2:{ intros [= <- <-]. apply reported_unchanged. }
    destruct (battle_deadline_at r <=? now) eqn:Edl; to_prop.
    { pose proof (failBattle_reported r r now BattleExpired (Some player) Deadline Hrun Edl).
      by destruct (failBattle _ _ _ _); intros [= <- <-]. }
    repeat (split_if || case_match); intros [= <- <-]; by unfold reported; simpl; auto.
Qed.

(** ** Digests *)

(** The fields no simulation step touches. *)
Definition fixed (r : Room) : RoomId * RoomConfig * RoomPhase * time_point * Z :=
  (room_id r, config r, phase r, battle_deadline_at r, digest_sequence r).

Lemma moveParticipants_fixed r : fixed (moveParticipants r) = fixed r.
Proof. unfold moveParticipants. by destruct (move_loop _ _). Qed.

Lemma advanceProjectiles_fixed r now : fixed (advanceProjectiles r now).2 = fixed r.
Proof. unfold advanceProjectiles. by destruct (advance_loop _ _ _ _) as [[[? ?] ?] ?]. Qed.

Lemma actEnemies_fixed r now : fixed (actEnemies r now).2 = fixed r.
Proof. unfold actEnemies. by destruct (act_loop _ _ _ _) as [[[? ?] ?] ?]. Qed.

Lemma spawnWave_fixed r now : fixed (spawnWave r now) = fixed r.
Proof. unfold spawnWave. split_if; [done|]. by destruct (spawn_loop _ _ _ _ _) as [[? ?] ?]. Qed.

Lemma wave_loop_fixed fuel r now : fixed (wave_loop fuel r now) = fixed r.
Proof.
  revert r. induction fuel as [|n IH]; intros r; simpl; [done|]. split_if; [|done].
  rewrite IH. rewrite <-(spawnWave_fixed r now). done.
Qed.

Lemma spawnBoss_fixed r now : fixed (spawnBoss r now) = fixed r.
Proof. unfold spawnBoss. by destruct (boss_spawned r). Qed.

Lemma initializeArena_fixed r : fixed (initializeArena r) = fixed r.
Proof. unfold initializeArena. by destruct (initialize_loop _ _ _ _). Qed.

(** What a command does to the numbering of digests. *)
Definition digest_numbered (r : Room) (res : RoomResult) (r' : Room) : Prop :=
  config r' = config r ∧
  match rr_digest res with
  | None => digest_sequence r' = digest_sequence r
  | Some d => sequence d = u64 (digest_sequence r + 1) ∧ digest_sequence r' = sequence d ∧
              events d ≠ [] ∧ rr_audience res = player_id <$> participants r'
  end.

(** Closing with a digest numbers it, whatever the fields of the report. *)
Lemma takeDigest_numbered r r1 (f : option BattleDigest → Room → RoomResult) :
  config r1 = config r → digest_sequence r1 = digest_sequence r →
  (∀ d r2, rr_digest (f d r2) = d) →
  (∀ d r2, d ≠ None → rr_audience (f d r2) = audience r2) →
  let '(d, r2) := takeDigest r1 in digest_numbered r (f d r2) r2.
Proof.
  intros Hc Hs Hd Ha. unfold takeDigest, digest_numbered. destruct (pending_events r1) eqn:E.
  - by rewrite Hd.
  - rewrite Hd, Ha by done. simpl. by rewrite Hs.
Qed.

Lemma failBattle_numbered r r1 status player reason :
  config r1 = config r → digest_sequence r1 = digest_sequence r →
  let '(res, r') := failBattle r1 status player reason in digest_numbered r res r'.
Proof.
  intros Hc Hs. unfold failBattle. set (r2 := set_projectiles _ _).
  pose proof (takeDigest_numbered r r2 (fun d r3 => set_audience (audience r3)
    (set_outcome OutcomeFailed (Some reason) [] (set_digest d (baseResult r2 status player)))) Hc Hs
    ltac:(done) ltac:(done)). by destruct (takeDigest r2).
Qed.

Lemma clearBattle_numbered r r1 player :
  config r1 = config r → digest_sequence r1 = digest_sequence r →
  let '(res, r') := clearBattle r1 player in digest_numbered r res r'.
Proof.
  intros Hc Hs. unfold clearBattle. set (r2 := set_projectiles _ _).
  pose proof (takeDigest_numbered r r2 (fun d r3 => set_audience (audience r3)
    (set_outcome OutcomeCleared None (rewardClear r3) (set_digest d (baseResult r2 Applied player)))) Hc Hs
    ltac:(done) ltac:(done)). by destruct (takeDigest r2).
Qed.

Lemma finishSkillUse_numbered r r1 player :
  config r1 = config r → digest_sequence r1 = digest_sequence r →
  let '(res, r') := finishSkillUse r1 player in digest_numbered r res r'.
Proof.
  intros Hc Hs. unfold finishSkillUse. split_if; [|by split].
  pose proof (takeDigest_numbered r r1 (fun d r3 => set_audience (audience r3)
    (set_digest d (baseResult r1 Applied (Some player)))) Hc Hs ltac:(done) ltac:(done)). by destruct (takeDigest r1).
Qed.

Lemma unchanged_numbered r status player : digest_numbered r (baseResult r status player) r.
Proof. by split. Qed.

Lemma handleUseSkill_numbered r player skill seq now :
  let '(res, r') := handleUseSkill r player skill seq now in digest_numbered r res r'.
Proof.
  unfold handleUseSkill. split_if; [apply unchanged_numbered|]. split_if; [by apply failBattle_numbered|].
  destruct (findParticipant r player) as [[i p]|]; [|apply unchanged_numbered].
  do 2 (split_if; [apply unchanged_numbered|]). destruct (findSkill skill) as [sd|]; [|apply unchanged_numbered].
  do 2 (split_if; [apply unchanged_numbered|]). destruct (skill_behavior sd).
  - unfold applyAreaAttack. destruct (area_loop _ _ _ _ _ _) as [[[es evs] hit] killed].
    repeat split_if; [by apply finishSkillUse_numbered|by apply clearBattle_numbered|by apply finishSkillUse_numbered].
  - unfold spawnHomingProjectile. destruct (findTargetEnemy _ _ _); [|by apply finishSkillUse_numbered].
    destruct (_ || _); [apply unchanged_numbered|by apply finishSkillUse_numbered].
Qed.

Lemma handleRoomSimulationTick_numbered r now :
  let '(res, r') := handleRoomSimulationTick r now in digest_numbered r res r'.
Proof.
  unfold handleRoomSimulationTick. split_if; [apply unchanged_numbered|]. split_if; [by apply failBattle_numbered|].
  pose proof (moveParticipants_fixed (set_enemies (living (enemies r)) r)) as F1. set (r1 := moveParticipants _) in *.
  pose proof (advanceProjectiles_fixed r1 now) as F2. destruct (advanceProjectiles r1 now) as [killed r2].
  rewrite F1 in F2. injection F2 as _ Hc2 _ _ Hs2. simpl in Hc2, Hs2.
  destruct killed; [by apply clearBattle_numbered|].
  pose proof (actEnemies_fixed r2 now) as F3. destruct (actEnemies r2 now) as [alive r3].
  injection F3 as _ Hc3 _ _ Hs3. destruct alive; cbn [negb]; [|apply failBattle_numbered; congruence].
  pose proof (wave_loop_fixed (wave_fuel r3) r3 now) as F4. set (r4 := wave_loop _ _ _) in *.
  injection F4 as _ Hc4 _ _ Hs4. match goal with |- context [takeDigest ?x] => set (r5 := x) end.
  assert (F5 : fixed r5 = fixed r4) by (unfold r5; split_if; [apply spawnBoss_fixed|done]).
  injection F5 as _ Hc5 _ _ Hs5.
  pose proof (takeDigest_numbered r r5 (fun d r6 => set_timers None (Some (tick_interval (config r6)))
    (if has_value d then set_audience (audience r6) (set_digest d (baseResult r5 Applied None))
     else set_digest d (baseResult r5 Applied None))) ltac:(congruence) ltac:(congruence)
    ltac:(by intros []) ltac:(by intros [])). by destruct (takeDigest r5).
Qed.

Lemma room_handle_numbered r command now res r' :
  room_handle r command now = (res, r') → digest_numbered r res r'.
Proof.
  destruct command as [player st eq|player| |player skill seq| | |player dir seq]; simpl.
  - unfold handleJoinRoom. repeat (split_if || case_match); by intros [= <- <-].
  - unfold handleLeaveRoom. split_if; [by intros [= <- <-]|].
    destruct (findParticipant r player) as [[i p]|]; [|by intros [= <- <-]].
    do 2 (split_if; [by intros [= <- <-]|]). destruct (allParticipantsDead _).
    + set (r2 := push_events _ _). pose proof (failBattle_numbered r r2 Applied (Some player) ParticipantsDefeated
        eq_refl eq_refl). by destruct (failBattle _ _ _ _); intros [= <- <-].
    + set (r2 := push_events _ _). pose proof (takeDigest_numbered r r2 (fun d r3 => set_audience (audience r3)
        (set_digest d (baseResult r2 Applied (Some player)))) eq_refl eq_refl ltac:(done) ltac:(done)).
      by destruct (takeDigest r2); intros [= <- <-].
  - unfold handleStartBattle. split_if; [by intros [= <- <-]|]. set (r1 := set_schedule _ _ _ _).
    pose proof (spawnWave_fixed (initializeArena r1) now) as F. rewrite initializeArena_fixed in F.
    set (r2 := spawnWave _ _) in *. injection F as _ Hc _ _ Hs. simpl in Hc, Hs.
    pose proof (takeDigest_numbered r r2 (fun d r3 => let result := set_timers (Some (battle_duration (config r)))
      (Some (tick_interval (config r))) (baseResult r2 Applied None) in
      if has_value d then set_audience (audience r3) (set_digest d result) else set_digest d result)
      Hc Hs ltac:(by intros []) ltac:(by intros [])). by destruct (takeDigest r2); intros [= <- <-].
  - pose proof (handleUseSkill_numbered r player skill seq now).
    by destruct (handleUseSkill _ _ _ _ _); intros [= <- <-].
  - unfold handleBattleDeadline. split_if; [by intros [= <- <-]|].
    pose proof (failBattle_numbered r r Applied None Deadline eq_refl eq_refl).
    by destruct (failBattle _ _ _ _); intros [= <- <-].
  - pose proof (handleRoomSimulationTick_numbered r now).
    by destruct (handleRoomSimulationTick _ _); intros [= <- <-].
  - unfold handleSetMoveIntent. split_if; [by intros [= <- <-]|]. split_if.
    + pose proof (failBattle_numbered r r BattleExpired (Some player) Deadline eq_refl eq_refl).
      by destruct (failBattle _ _ _ _); intros [= <- <-].
    + repeat (split_if || case_match); by intros [= <- <-].
Qed.

(** ** Requests of a participant *)

(** What a room remembers of a participant's requests. *)
Definition requests (p : Participant) : PlayerId * SkillId * Z * Z * list SkillCooldown :=
  (player_id p, equipped_skill p, applied_skill_sequence p, applied_movement_sequence p, cooldowns p).

Lemma move_loop_requests c ps : requests <$> (move_loop c ps).1 = requests <$> ps.
Proof.
  induction ps as [|p ps IH]; simpl; [done|]. destruct (move_loop c ps) as [qs evs]. simpl in IH.
  repeat split_if; simpl; by f_equal.
Qed.

Lemma act_loop_requests c now es ps fs qs evs alive :
  act_loop c now es ps = (fs, qs, evs, alive) → requests <$> qs = requests <$> ps.
Proof.
  revert ps fs qs evs alive. induction es as [|e es IH]; intros ps fs qs evs alive; cbn [act_loop].
  { by intros [= <- <- <- <-]. }
  assert (Hstep : ∀ i p q, ps !! i = Some p → requests q = requests p → requests <$> <[i := q]> ps = requests <$> ps).
  { intros i p q Hi Hq. rewrite list_fmap_insert. apply list_insert_id. by rewrite list_lookup_fmap, Hi, Hq. }
  destruct (enemy_health e =? 0).
  { destruct (act_loop c now es ps) as [[[? ?] ?] ?] eqn:E. intros [= <- <- <- <-]. by eapply IH. }
  destruct (nearestLivingParticipant ps (enemy_position e)) as [[i t]|] eqn:En; [|by intros [= <- <- <- <-]].
  apply nearestLivingParticipant_Some in En as [Hi _]. destruct (approach c e (position t)) as [e1 moved].
  destruct (_ || _).
  { destruct (act_loop c now es ps) as [[[? ?] ?] ?] eqn:E. intros [= <- <- <- <-]. by eapply IH. }
  split_if.
  - split_if; [intros [= <- <- <- <-]; by eapply Hstep|].
    destruct (act_loop c now es _) as [[[? ?] ?] ?] eqn:E. intros [= <- <- <- <-].
    rewrite (IH _ _ _ _ _ E). by eapply Hstep.
  - destruct (act_loop c now es _) as [[[? ?] ?] ?] eqn:E. intros [= <- <- <- <-].
    rewrite (IH _ _ _ _ _ E). by eapply Hstep.
Qed.

Lemma wave_loop_participants fuel r now : participants (wave_loop fuel r now) = participants r.
Proof.
  revert r. induction fuel as [|n IH]; intros r; simpl; [done|]. split_if; [|done]. rewrite IH. simpl.
  unfold spawnWave. split_if; [done|]. by destruct (spawn_loop _ _ _ _ _) as [[? ?] ?].
Qed.

Lemma tick_requests r now :
  requests <$> participants (handleRoomSimulationTick r now).2 = requests <$> participants r.
Proof.
  unfold handleRoomSimulationTick. split_if; [done|]. split_if.
  { pose proof (failBattle_result r Applied None Deadline) as Hf. destruct (failBattle _ _ _ _).
    destruct Hf as (_ & _ & _ & _ & _ & [= _ Hp _]). simpl. by rewrite Hp. }
  set (r1 := moveParticipants _).
  assert (H1 : requests <$> participants r1 = requests <$> participants r).
  { unfold r1, moveParticipants. simpl. pose proof (move_loop_requests (config r) (participants r)) as Hm.
    by destruct (move_loop _ _). }
  pose proof (advanceProjectiles_frame r1 now) as [= _ _ _ _ H2]. destruct (advanceProjectiles r1 now) as [killed r2].
  simpl in H2. destruct killed.
  { pose proof (clearBattle_result r2 None) as Hf. destruct (clearBattle r2 None).
    destruct Hf as (_ & _ & _ & _ & _ & [= _ Hp _]). simpl. by rewrite Hp, H2. }
  destruct (actEnemies r2 now) as [alive r3] eqn:E3.
  assert (H3 : requests <$> participants r3 = requests <$> participants r2).
  { unfold actEnemies in E3. destruct (act_loop _ _ _ _) as [[[? ?] ?] ?] eqn:E. injection E3 as <- <-.
    by eapply act_loop_requests. }
  destruct alive; cbn [negb].
  2:{ pose proof (failBattle_result r3 Applied None ParticipantsDefeated) as Hf. destruct (failBattle _ _ _ _).
      destruct Hf as (_ & _ & _ & _ & _ & [= _ Hp _]). simpl. by rewrite Hp, H3, H2. }
  match goal with |- context [takeDigest ?x] => set (r5 := x) end.
  assert (H5 : participants r5 = participants r3).
  { unfold r5. rewrite <-(wave_loop_participants (wave_fuel r3) r3 now). unfold spawnBoss. by repeat split_if. }
  pose proof (takeDigest_frame r5) as [[= _ Hp _ _ _ _] _]. destruct (takeDigest r5). simpl in *.
  by rewrite Hp, H5, H3, H2.
Qed.

(** The update of one participant's requests by an applied command. *)
Definition requests_after (command : RoomCommand) (now : time_point) (p : Participant) (q : Participant) : Prop :=
  match command with
  | UseSkill player skill seq =>
      ∃ sd, findSkill skill = Some sd ∧ skill = equipped_skill p ∧ applied_skill_sequence p < seq ∧
      (∀ cd, find_sorted cooldown_skill skill (cooldowns p) = Some cd → ready_at cd <= now) ∧
      requests q = (player_id p, equipped_skill p, seq, applied_movement_sequence p,
                    update_cooldowns (cooldowns p) skill (after now (skill_cooldown sd)))
  | SetMoveIntent player _ seq =>
      applied_movement_sequence p < seq ∧
      requests q = (player_id p, equipped_skill p, applied_skill_sequence p, seq, cooldowns p)
  | _ => False
  end.

(** The player of a request. *)
Definition requester (command : RoomCommand) : option PlayerId :=
  match command with
  | UseSkill player _ _ | SetMoveIntent player _ _ => Some player
  | _ => None
  end.

(** How a command of a started battle changes what is remembered: nothing, or
    one participant is gone, or the requester's applied request is recorded. *)
Inductive requests_step (command : RoomCommand) (now : time_point) (status : RoomCommandStatus)
    (ps qs : list Participant) : Prop :=
| rs_same : requester command = None ∨ status ≠ Applied → requests <$> qs = requests <$> ps →
    requests_step command now status ps qs
| rs_left : requester command = None → sublist qs ps → requests_step command now status ps qs
| rs_applied i p q : status = Applied → requester command = Some (player_id p) → ps !! i = Some p →
    requests_after command now p q → qs = <[i := q]> ps → requests_step command now status ps qs.

Lemma handleUseSkill_requests r player skill seq now :
  let '(res, r') := handleUseSkill r player skill seq now in
  requests_step (UseSkill player skill seq) now (rr_status res) (participants r) (participants r').
Proof.
  unfold handleUseSkill.
  assert (Hsame : ∀ status, status ≠ Applied → requests_step (UseSkill player skill seq) now status (participants r) (participants r)).
  { intros status Hs. apply rs_same; auto. }
  split_if; [by apply Hsame|]. split_if.
  { pose proof (failBattle_result r BattleExpired (Some player) Deadline) as Hf. destruct (failBattle _ _ _ _).
    destruct Hf as (-> & _ & _ & _ & _ & [= _ -> _]). by apply Hsame. }
  destruct (findParticipant r player) as [[i p]|] eqn:Ef; [|by apply Hsame].
  apply findParticipant_lookup in Ef as (Hi & <- & _).
  split_if; [by apply Hsame|]. to_prop. split_if; [by apply Hsame|].
  destruct (findSkill skill) as [sd|] eqn:Esk; [|by apply Hsame]. split_if; [by apply Hsame|].
  destruct (match find_sorted cooldown_skill skill (cooldowns p) with Some cd => now <? ready_at cd | None => false end)
    eqn:Ecd; [by apply Hsame|]. to_prop.
  set (x := mkSkillCastContext _ _ _ _ _ _ _ _).
  assert (Happ : requests_step (UseSkill (player_id p) skill seq) now Applied (participants r)
    (participants (commitSkillUse r x))).
  { eapply rs_applied; [done|done|done| |done]. exists sd. split_and!; try done.
    intros cd Hcd. rewrite Hcd in Ecd. by to_prop. }
  assert (Hfin : ∀ r1, participants r1 = participants (commitSkillUse r x) →
    let '(res, r') := finishSkillUse r1 (player_id p) in
    requests_step (UseSkill (player_id p) skill seq) now (rr_status res) (participants r) (participants r')).
  { intros r1 H1. pose proof (finishSkillUse_result r1 (player_id p)) as Hf. destruct (finishSkillUse _ _).
    destruct Hf as (-> & _ & _ & _ & [= _ -> _ _]). by rewrite H1. }
  destruct (skill_behavior sd).
  - unfold applyAreaAttack. destruct (area_loop _ _ _ _ _ _) as [[[es evs] hit] killed].
    destruct hit, killed; cbn [negb]; try by apply Hfin.
    match goal with |- context [clearBattle ?r1 ?q] => pose proof (clearBattle_result r1 q) as Hf;
      destruct (clearBattle r1 q) end.
    by destruct Hf as (-> & _ & _ & _ & _ & [= _ -> _]).
  - unfold spawnHomingProjectile. destruct (findTargetEnemy _ _ _); [|by apply Hfin].
    destruct (_ || _); [by apply Hsame|by apply Hfin].
Qed.

Lemma room_handle_requests r command now res r' :
  phase r ≠ Waiting → room_handle r command now = (res, r') →
  requests_step command now (rr_status res) (participants r) (participants r').
Proof.
  intros Hw. assert (Hsame : ∀ status, requester command = None ∨ status ≠ Applied →
    requests_step command now status (participants r) (participants r)) by (intros; by apply rs_same).
  destruct command as [player st eq|player| |player skill seq| | |player dir seq]; simpl.
  - unfold handleJoinRoom. rewrite bool_decide_eq_false_2 by done. intros [= <- <-]. apply Hsame; auto.
  - unfold handleLeaveRoom. split_if; [intros [= <- <-]; apply Hsame; auto|].
    destruct (findParticipant r player) as [[i p]|]; [|intros [= <- <-]; apply Hsame; auto].
    pose proof (erase_at_sublist i (participants r)) as Hsub.
    do 2 (split_if; [intros [= <- <-]; by apply rs_left|]). set (r2 := push_events _ _).
    destruct (allParticipantsDead _).
    + pose proof (failBattle_result r2 Applied (Some player) ParticipantsDefeated) as Hf.
      destruct (failBattle _ _ _ _). intros [= <- <-]. destruct Hf as (_ & _ & _ & _ & _ & [= _ -> _]). by apply rs_left.
    + pose proof (takeDigest_frame r2) as [[= _ Hp _ _ _ _] _]. destruct (takeDigest r2). simpl in Hp.
      intros [= <- <-]. rewrite Hp. by apply rs_left.
  - unfold handleStartBattle, canStartBattle. rewrite bool_decide_eq_false_2 by done.
    intros [= <- <-]. apply Hsame; auto.
  - pose proof (handleUseSkill_requests r player skill seq now).
    by destruct (handleUseSkill _ _ _ _ _); intros [= <- <-].
  - unfold handleBattleDeadline. split_if; [intros [= <- <-]; apply Hsame; auto|].
    pose proof (failBattle_result r Applied None Deadline) as Hf. destruct (failBattle _ _ _ _).
    intros [= <- <-]. destruct Hf as (_ & _ & _ & _ & _ & [= _ -> _]). apply Hsame; auto.
  - pose proof (tick_requests r now) as Ht. destruct (handleRoomSimulationTick r now). intros [= <- <-].
    apply rs_same; auto.
  - unfold handleSetMoveIntent. split_if; [intros [= <- <-]; apply Hsame; auto|]. split_if.
    { pose proof (failBattle_result r BattleExpired (Some player) Deadline) as Hf. destruct (failBattle _ _ _ _).
      intros [= <- <-]. destruct Hf as (-> & _ & _ & _ & _ & [= _ -> _]). apply Hsame; auto. }
    destruct (findParticipant r player) as [[i p]|] eqn:Ef; [|intros [= <- <-]; apply Hsame; auto].
    apply findParticipant_lookup in Ef as (Hi & <- & _).
    split_if; [intros [= <- <-]; apply Hsame; auto|]. split_if; [intros [= <- <-]; apply Hsame; auto|].
    to_prop. intros [= <- <-]. eapply rs_applied; [done|done|done| |done]. by split.
Qed.

(** The applied skill uses and movements of one player in a run. *)
Record AppliedRequest := mkAppliedRequest { ar_sequence : Z; ar_skill : SkillId; ar_time : time_point }.

Definition applied_skill (player : PlayerId) (ct : RoomCommand * time_point) (res : RoomResult) : list AppliedRequest :=
  match ct.1 with
  | UseSkill q skill seq =>
      if (q =? player) && bool_decide (rr_status res = Applied) then [mkAppliedRequest seq skill ct.2] else []
  | _ => []
  end.

Definition applied_move (player : PlayerId) (ct : RoomCommand * time_point) (res : RoomResult) : list Z :=
  match ct.1 with
  | SetMoveIntent q _ seq => if (q =? player) && bool_decide (rr_status res = Applied) then [seq] else []
  | _ => []
  end.

Fixpoint collect {A} (f : RoomCommand * time_point → RoomResult → list A) (cs : list (RoomCommand * time_point))
    (rs : list RoomResult) : list A :=
  match cs, rs with
  | ct :: cs', res :: rs' => f ct res ++ collect f cs' rs'
  | _, _ => []
  end.

(** A use after another one: a later number, the same skill, and not before
    the cooldown is over. *)
Definition spaced (u v : AppliedRequest) : Prop :=
  ar_sequence u < ar_sequence v ∧ ar_skill v = ar_skill u ∧
  ∀ sd, findSkill (ar_skill u) = Some sd → after (ar_time u) (skill_cooldown sd) <= ar_time v.

(** What a participant still allows. *)
Definition allows (p : Participant) (u : AppliedRequest) : Prop :=
  applied_skill_sequence p < ar_sequence u ∧ ar_skill u = equipped_skill p ∧
  ∀ cd, find_sorted cooldown_skill (ar_skill u) (cooldowns p) = Some cd → ready_at cd <= ar_time u.

Lemma find_update_cooldowns cs skill ready :
  sorted_by cooldown_skill cs →
  find_sorted cooldown_skill skill (update_cooldowns cs skill ready) = Some (mkSkillCooldown skill ready).
Proof.
  intros Hs. apply find_sorted_spec; [by apply update_cooldowns_sorted|]. split; [|done].
  unfold update_cooldowns. destruct (cs !! _) as [cd|] eqn:E; [split_if|].
  - apply list_elem_of_lookup_2 with (lower_bound cooldown_skill skill cs).
    apply list_lookup_insert_eq. by eapply lookup_lt_Some.
  - rewrite insert_at_perm. left.
  - rewrite insert_at_perm. left.
Qed.

Lemma allows_requests p q u : requests q = requests p → allows q u → allows p u.
Proof. unfold allows, requests. intros [= _ -> -> _ ->]. done. Qed.

Lemma findSkill_cooldown_pos skill sd : findSkill skill = Some sd → 0 < skill_cooldown sd.
Proof. unfold findSkill, findDefinition. intros Hf. repeat (case_match; simplify_eq); done. Qed.

(** The use that is applied, and the uses a participant allows after it. *)
Lemma applied_use_allowed player skill seq now p q u :
  sorted_by cooldown_skill (cooldowns p) → requests_after (UseSkill player skill seq) now p q →
  allows p (mkAppliedRequest seq skill now) ∧
  (allows q u → spaced (mkAppliedRequest seq skill now) u ∧ allows p u).
Proof.
  intros Hs (sd & Hsd & -> & Hlt & Hcd & [= Eid Eeq Eseq Emv Ecds]). split; [done|].
  intros (Ha1 & Ha2 & Ha3). rewrite Eseq in Ha1. rewrite Eeq in Ha2. rewrite Ecds, Ha2 in Ha3.
  specialize (Ha3 _ (find_update_cooldowns _ _ _ Hs)). simpl in Ha3.
  pose proof (findSkill_cooldown_pos _ _ Hsd) as Hpos. split.
  - split_and!; try done. intros sd' Hsd'. simpl in *. rewrite Hsd in Hsd'. by injection Hsd' as <-.
  - split_and!; [simpl in *; lia|done|]. intros cd Hc. rewrite Ha2 in Hc. specialize (Hcd cd Hc).
    unfold after in Ha3. lia.
Qed.

Lemma room_handle_started r command now res r' :
  room_ok r → phase r ≠ Waiting → room_handle r command now = (res, r') → phase r' ≠ Waiting.
Proof.
  intros Hr Hw Hh. apply room_handle_reported in Hh; [|done]. unfold reported in Hh.
  destruct (rr_outcome res) as [[]|]; [destruct Hh as (_ & -> & _); done..|].
  by destruct Hh as (_ & _ & [->|[? _]]).
Qed.

Lemma requester_waiting r command now res r' player :
  phase r = Waiting → room_handle r command now = (res, r') → requester command = Some player → rr_status res ≠ Applied.
Proof.
  intros Hw. destruct command; try done; simpl; unfold handleUseSkill, handleSetMoveIntent;
    rewrite bool_decide_eq_false_2 by congruence; by intros [= <- <-].
Qed.

(** Unique ids: an id and its place determine each other. *)
Lemma same_id_same_place (ps : list Participant) i j p q :
  sorted_by player_id ps → ps !! i = Some p → ps !! j = Some q → player_id p = player_id q → i = j.
Proof.
  intros Hs Hi Hj Heq. destruct (lt_eq_lt_dec i j) as [[Hlt|]|Hlt]; [|done|].
  - pose proof (sorted_lookup_lt player_id _ _ _ _ _ Hs Hi Hj Hlt). lia.
  - pose proof (sorted_lookup_lt player_id _ _ _ _ _ Hs Hj Hi Hlt). lia.
Qed.

Lemma requests_after_id command now p q : requests_after command now p q → player_id q = player_id p.
Proof.
  destruct command; simpl; try done.
  - intros (sd & _ & _ & _ & _ & Hq). unfold requests in Hq. congruence.
  - intros [_ Hq]. unfold requests in Hq. congruence.
Qed.

(** Requests collected along a run are ordered by [R], when [R] orders each
    applied request before whatever its participant allows afterwards. *)
Section collected.
Context {A : Type} (player : PlayerId) (f : RoomCommand * time_point → RoomResult → list A).
Context (R : relation A) (allowed : Participant → A → Prop).
Context (f_nil : ∀ ct res, requester ct.1 ≠ Some player ∨ rr_status res ≠ Applied → f ct res = []).
Context (f_one : ∀ ct res, f ct res = [] ∨ ∃ a, f ct res = [a]).
Context (allowed_requests : ∀ p q u, requests q = requests p → allowed q u → allowed p u).
Context (allowed_after : ∀ ct p q res a u,
  sorted_by cooldown_skill (cooldowns p) → requests_after ct.1 ct.2 p q →
  (allowed q u → allowed p u) ∧ (a ∈ f ct res → allowed p a ∧ (allowed q u → R a u))).

Lemma collected_ordered r cs rs r' :
  room_ok r → Forall (fun ct => command_ok ct.1) cs → room_run r cs = (rs, r') →
  StronglySorted R (collect f cs rs) ∧
  (phase r ≠ Waiting → ∀ u, u ∈ collect f cs rs → ∃ p, p ∈ participants r ∧ player_id p = player ∧ allowed p u).
Proof using f_nil f_one allowed_requests allowed_after.
  intros Hr Hcs. revert r rs Hr. induction Hcs as [|[cmd t] cs Hc Hcs IH]; intros r rs Hr; cbn [room_run].
  { intros [= <- <-]. split; [constructor|]. by intros _ u ?%elem_of_nil. }
  pose proof (room_handle_ok r cmd t Hr Hc) as Hok. destruct (room_handle r cmd t) as [res r1] eqn:Eh. simpl in Hok.
  destruct (room_run r1 cs) as [rs' r2] eqn:E. intros [= <- <-].
  destruct (IH _ _ Hok E) as [IH1 IH2]. cbn [collect]. clear IH.
  destruct (decide (phase r = Waiting)) as [Hw|Hw].
  { rewrite f_nil; [by split|]. destruct (decide (requester cmd = Some player)) as [Hq|]; [right|by left].
    by eapply requester_waiting. }
  specialize (IH2 (room_handle_started _ _ _ _ _ Hr Hw Eh)).
  destruct (room_handle_requests _ _ _ _ _ Hw Eh) as [Hn Hsame|Hn Hsub|i p q Hst Hq Hi Hafter Hqs].
  - rewrite (f_nil (cmd, t) res) by (simpl; destruct Hn as [->|]; [by left|by right]). split; [done|]. intros _ u Hu.
    destruct (IH2 u Hu) as (p1 & Hp1 & Hid & Hal).
    apply (list_elem_of_fmap_2 requests) in Hp1. rewrite Hsame in Hp1.
    apply list_elem_of_fmap in Hp1 as (p & Hreq & Hp). exists p. split_and!; [done| |by eapply allowed_requests].
    unfold requests in Hreq. congruence.
  - rewrite (f_nil (cmd, t) res) by (simpl; left; by rewrite Hn). split; [done|]. intros _ u Hu.
    destruct (IH2 u Hu) as (p1 & Hp1 & Hid & Hal). exists p1. split_and!; try done. by eapply elem_of_sublist.
  - pose proof Hr as [[_ [Hso _ Hpa] _ _] _]. rewrite Forall_forall in Hpa.
    assert (Hsc : sorted_by cooldown_skill (cooldowns p)) by (apply Hpa; by eapply list_elem_of_lookup_2).
    assert (Hlater : ∀ u, u ∈ collect f cs rs' → ∃ p1, p1 ∈ participants r ∧ player_id p1 = player ∧ allowed p1 u ∧
      (player_id p = player → allowed q u)).
    { intros u Hu. destruct (IH2 u Hu) as (p1 & Hp1 & Hid & Hal). rewrite Hqs in Hp1.
      pose proof (requests_after_id _ _ _ _ Hafter) as Hqid.
      apply list_elem_of_lookup in Hp1 as [j Hj]. destruct (decide (i = j)) as [<-|Hne].
      - rewrite list_lookup_insert_eq in Hj by (by eapply lookup_lt_Some). injection Hj as <-. exists p.
        split_and!; [by eapply list_elem_of_lookup_2|congruence| |done].
        pose proof (allowed_after (cmd, t) p q res u u Hsc Hafter) as [Hback _]. auto.
      - rewrite list_lookup_insert_ne in Hj by done. exists p1.
        split_and!; [by eapply list_elem_of_lookup_2|done|done|].
        intros Hpid. destruct Hne. eapply same_id_same_place; [done|done|done|congruence]. }
    destruct (f_one (cmd, t) res) as [->|[a Ha]].
    + split; [done|]. intros _ u Hu. destruct (Hlater u Hu) as (p1 & ? & ? & ? & _). eauto.
    + assert (Hpid : player_id p = player).
      { destruct (decide (player_id p = player)); [done|]. rewrite f_nil in Ha; [done|]. left. simpl. congruence. }
      assert (Hin : a ∈ f (cmd, t) res) by (rewrite Ha; left). rewrite Ha. split.
      * constructor; [done|]. apply Forall_forall. intros u Hu. destruct (Hlater u Hu) as (_ & _ & _ & _ & Hal).
        apply (proj2 (allowed_after (cmd, t) p q res a u Hsc Hafter) Hin); auto.
      * intros _ u [->|Hu]%elem_of_cons.
        -- exists p. split_and!; [by eapply list_elem_of_lookup_2|done|].
           apply (proj2 (allowed_after (cmd, t) p q res a a Hsc Hafter) Hin).
        -- destruct (Hlater u Hu) as (p1 & ? & ? & ? & _). eauto.
Qed.
End collected.

Lemma finished_room_frozen_step r command now :
  phase r = Cleared ∨ phase r = Failed →
  ∃ res, room_handle r command now = (res, r) ∧ rr_status res = WrongPhase ∧ rr_digest res = None ∧
    rr_outcome res = None ∧ rr_grants res = [].
Proof.
  intros Hph. assert (Hn : phase r ≠ Waiting ∧ phase r ≠ Running) by (destruct Hph as [-> | ->]; done).
  destruct Hn as [Hw Hr]. destruct command as [player st eq|player| |player skill seq| | |player dir seq]; simpl.
  - unfold handleJoinRoom. rewrite bool_decide_eq_false_2 by done. by eexists.
  - unfold handleLeaveRoom. destruct Hph as [-> | ->]; by eexists.
  - unfold handleStartBattle, canStartBattle. rewrite bool_decide_eq_false_2 by done. by eexists.
  - unfold handleUseSkill. rewrite bool_decide_eq_false_2 by done. by eexists.
  - unfold handleBattleDeadline. rewrite bool_decide_eq_false_2 by done. by eexists.
  - unfold handleRoomSimulationTick. rewrite bool_decide_eq_false_2 by done. by eexists.
  - unfold handleSetMoveIntent. rewrite bool_decide_eq_false_2 by done. by eexists.
Qed.

(** The reported boss health is the health of the one boss. *)
Lemma live_boss_health c r :
  Forall (enemy_ok c) (enemies r) → count_if live_boss (enemies r) = 1%nat → (count_if is_boss (enemies r) <= 1)%nat →
  0 < bossHealth r.
Proof.
  unfold bossHealth, boss. induction 1 as [|e es He Hes IH]; simpl; [lia|]. intros Hl Hb.
  destruct (is_boss e) eqn:Eb; simpl in *.
  - assert (Hz : count_if is_boss es = 0%nat) by lia.
    assert (Hlz : count_if live_boss es = 0%nat).
    { apply count_if_zero in Hz. apply count_if_zero. eapply Forall_impl; [exact Hz|]. unfold live_boss.
      by intros f ->. }
    unfold live_boss in Hl at 1. rewrite Eb in Hl. destruct (enemy_health e =? 0) eqn:E0; simpl in Hl; [lia|].
    to_prop. destruct He as [? _]. lia.
  - apply IH; [|lia]. unfold live_boss in Hl at 1. by rewrite Eb in Hl.
Qed.

(** ** Theorems *)

(** C1: every configuration the constructor accepts makes a room whose
    invariant holds after any run of commands at any times: participants and
    enemies keep unique sorted ids and stay inside the arena, seats, spawned
    enemies and projectiles stay within their configured limits, health never
    exceeds its maximum or wraps, at most one boss ever appears, and the
    pending events never reach the flush threshold between commands. *)
Theorem room_invariant room c r0 cs rs r :
  config_typed c → makeRoom room c = Ret r0 → Forall (fun ct => command_ok ct.1) cs →
  room_run r0 cs = (rs, r) → room_ok r.
Proof. intros Ht Hm Hcs Hrun. eapply room_run_ok; [by eapply makeRoom_ok|done|done]. Qed.

(** A battle of one player: join, start, a slash that hits nothing, movement,
    twenty seconds of ticks. *)
Definition demo_stats : CombatStats := combatStats 30.

Definition demo_commands : list (RoomCommand * time_point) :=
  [(JoinRoom 7 demo_stats 1, 0); (StartBattle, 0); (UseSkill 7 1 1, 1000000); (SetMoveIntent 7 East 1, 2000000);
   (UseSkill 7 1 1, 3000000); (RoomSimulationTick, 100000000); (RoomSimulationTick, 20000000000);
   (UseSkill 7 1 2, 20000000001)].

Lemma default_config_typed : config_typed default_config.
Proof. constructor; simpl; lia. Qed.

Lemma demo_commands_ok : Forall (fun ct => command_ok ct.1) demo_commands.
Proof. repeat constructor; simpl; vm_compute; done. Qed.

Lemma room_invariant_witness :
  makeRoom 1 default_config = Ret demo_room ∧ room_ok (room_run demo_room demo_commands).2.
Proof.
  split; [exact demo_room_made|].
  apply (room_invariant 1 default_config demo_room demo_commands (room_run demo_room demo_commands).1);
    [exact default_config_typed|exact demo_room_made|exact demo_commands_ok|apply surjective_pairing].
Defined.

(** A command reports an outcome exactly when it ends the battle.  Cleared
    is reported exactly when the one living boss dies before the deadline, and
    grants the clear experience once to each participant; Failed is reported
    only after the deadline or with the whole party dead, and grants nothing;
    any other command keeps the phase or starts a waiting room. *)
Theorem battle_outcome_sound r command now res r' :
  room_ok r → room_handle r command now = (res, r') → reported r now res r'.
Proof. apply room_handle_reported. Qed.

Lemma battle_outcome_sound_witness :
  let r := (room_run demo_room demo_commands).2 in
  rr_outcome (room_handle r BattleDeadline 90000000000).1 = Some OutcomeFailed ∧
  reported r 90000000000 (room_handle r BattleDeadline 90000000000).1 (room_handle r BattleDeadline 90000000000).2.
Proof.
  split; [vm_compute; reflexivity|].
  apply (battle_outcome_sound _ BattleDeadline); [|apply surjective_pairing].
  apply (room_run_ok demo_room demo_commands (room_run demo_room demo_commands).1);
    [apply (makeRoom_ok 1 default_config); [exact default_config_typed|exact demo_room_made]
    |exact demo_commands_ok|apply surjective_pairing].
Defined.

(** A decided battle is final: after Cleared or Failed every command is
    answered with WrongPhase and changes nothing. *)
Theorem finished_room_frozen r command now :
  phase r = Cleared ∨ phase r = Failed →
  (room_handle r command now).2 = r ∧
  rr_status (room_handle r command now).1 = WrongPhase ∧ rr_digest (room_handle r command now).1 = None.
Proof.
  intros Hph. destruct (finished_room_frozen_step r command now Hph) as (res & -> & Hst & Hd & _). done.
Qed.

Lemma finished_room_frozen_witness :
  (room_handle (set_phase Cleared demo_room) RoomSimulationTick 5).2 = set_phase Cleared demo_room.
Proof. apply (finished_room_frozen (set_phase Cleared demo_room) RoomSimulationTick 5). left. reflexivity. Defined.

(** The outcomes and grants of a run. *)
Definition outcomes (rs : list RoomResult) : list BattleOutcome := omap rr_outcome rs.
Definition grants (rs : list RoomResult) : list StreetExperienceGrant := rs ≫= rr_grants.

Definition decided (ph : RoomPhase) : list BattleOutcome :=
  match ph with Cleared => [OutcomeCleared] | Failed => [OutcomeFailed] | _ => [] end.

Lemma outcomes_cons res rs :
  outcomes (res :: rs) = match rr_outcome res with Some o => o :: outcomes rs | None => outcomes rs end.
Proof. reflexivity. Qed.

Lemma grants_cons res rs : grants (res :: rs) = rr_grants res ++ grants rs.
Proof. reflexivity. Qed.

Lemma room_run_finished r cs rs r' :
  room_ok r → phase r = Cleared ∨ phase r = Failed → room_run r cs = (rs, r') →
  r' = r ∧ outcomes rs = [] ∧ grants rs = [].
Proof.
  intros Hr Hph. revert rs. induction cs as [|[cmd t] cs IH]; intros rs; cbn [room_run]; [by intros [= <- <-]|].
  destruct (finished_room_frozen_step r cmd t Hph) as (res & Eh & _ & _ & Ho & Hg). rewrite Eh.
  destruct (room_run r cs) as [rs' r2]. intros [= <- <-]. destruct (IH _ eq_refl) as (-> & IHo & IHg).
  by rewrite outcomes_cons, grants_cons, Ho, Hg, IHo, IHg.
Qed.

Lemma room_run_decided r cs rs r' :
  room_ok r → phase r = Waiting ∨ phase r = Running → Forall (fun ct => command_ok ct.1) cs →
  room_run r cs = (rs, r') →
  config r' = config r ∧ outcomes rs = decided (phase r') ∧
  grants rs = match phase r' with
              | Cleared => (fun p => mkStreetExperienceGrant (player_id p) (clear_experience (config r))) <$> participants r'
              | _ => []
              end.
Proof.
  intros Hr Hph Hcs. revert r rs Hr Hph.
  induction Hcs as [|[cmd t] cs Hc Hcs IH]; intros r rs Hr Hph; cbn [room_run].
  { intros [= <- <-]. by destruct Hph as [-> | ->]. }
  pose proof (room_handle_ok r cmd t Hr Hc) as Hok. destruct (room_handle r cmd t) as [res r1] eqn:Eh. simpl in Hok.
  pose proof (room_handle_reported _ _ _ _ _ Hr Eh) as Hrep.
  pose proof (room_handle_numbered _ _ _ _ _ Eh) as [Hcfg _].
  destruct (room_run r1 cs) as [rs' r2] eqn:E. intros [= <- <-].
  rewrite outcomes_cons, grants_cons. unfold reported in Hrep. destruct (rr_outcome res) as [[]|].
  - destruct Hrep as (Hrun & Hcl & _ & _ & _ & _ & Hids & Hg).
    destruct (room_run_finished r1 cs rs' r2 Hok ltac:(auto) E) as (-> & Ho & Hgs).
    rewrite Hcl, Ho, Hgs, Hg, app_nil_r. split_and!; try done.
    symmetry. by apply rewardClear_same_ids.
  - destruct Hrep as (Hrun & Hf & Hg & _).
    destruct (room_run_finished r1 cs rs' r2 Hok ltac:(auto) E) as (-> & Ho & Hgs).
    by rewrite Hf, Ho, Hgs, Hg.
  - destruct Hrep as (Hg & _ & Hp). destruct (IH r1 rs' Hok ltac:(intuition congruence) E) as (IHc & IHo & IHg).
    rewrite Hg, IHo, IHg, IHc, Hcfg. done.
Qed.

(** C2: over the whole life of a room at most one outcome is ever reported, it
    is the one of the final phase, and the clear experience is granted exactly
    once to each participant of a cleared battle and to nobody otherwise. *)
Theorem battle_decided_once room c r0 cs rs r :
  config_typed c → makeRoom room c = Ret r0 → Forall (fun ct => command_ok ct.1) cs →
  room_run r0 cs = (rs, r) →
  outcomes rs = decided (phase r) ∧ NoDup (grant_player <$> grants rs) ∧
  (phase r = Cleared → grant_player <$> grants rs = player_id <$> participants r) ∧
  (phase r ≠ Cleared → grants rs = []) ∧
  Forall (fun g => grant_experience g = clear_experience c) (grants rs).
Proof.
  intros Ht Hm Hcs Hrun. pose proof (makeRoom_ok _ _ _ Ht Hm) as Hr0.
  pose proof (room_run_ok _ _ _ _ Hr0 Hcs Hrun) as [[_ [Hso _ _] _ _] _].
  apply makeRoom_config_ok in Hm as (_ & _ & ->); [|done].
  apply room_run_decided in Hrun as (Hc & Ho & Hg); [|done|by left|done]. simpl in Hg.
  assert (Hnd : NoDup (player_id <$> participants r)) by (apply (sorted_by_fmap player_id) in Hso; by apply sorted_NoDup).
  assert (Hids : ∀ ps : list Participant, grant_player <$> ((fun p => mkStreetExperienceGrant (player_id p)
    (clear_experience c)) <$> ps) = player_id <$> ps) by (intros ps; by rewrite <-list_fmap_compose).
  rewrite Hg. split_and!; [done| | | |].
  - destruct (phase r); [constructor|constructor| |constructor]. by rewrite Hids.
  - intros ->. apply Hids.
  - by destruct (phase r).
  - destruct (phase r); [constructor|constructor| |constructor]. by apply Forall_fmap, Forall_true.
Qed.

(** A short victory: one minion-free wave schedule and a boss of one health. *)
Definition duel_config : RoomConfig :=
  mkRoomConfig 90000 4 300 1 100 20000 0 0 60 100 64 512 128 9 9 4 1 1 1 1 3 10 3 9 1000 2000.

Definition duel_room : Room := mkRoom 1 duel_config Waiting 0 0 0 0 1 1 0 false [] [] [] [].

Definition duel_commands : list (RoomCommand * time_point) :=
  [(JoinRoom 7 demo_stats 1, 0); (JoinRoom 3 demo_stats 1, 0); (StartBattle, 0); (RoomSimulationTick, 100000000);
   (UseSkill 3 1 1, 100000001); (RoomSimulationTick, 200000000)].

Example duel_is_won :
  outcomes (room_run duel_room duel_commands).1 = [OutcomeCleared] ∧
  grants (room_run duel_room duel_commands).1 = [mkStreetExperienceGrant 3 300; mkStreetExperienceGrant 7 300].
Proof. vm_compute. done. Qed.

Example duel_room_made : makeRoom 1 duel_config = Ret duel_room.
Proof. vm_compute. reflexivity. Qed.

Lemma duel_config_typed : config_typed duel_config.
Proof. constructor; simpl; lia. Qed.

Lemma duel_commands_ok : Forall (fun ct => command_ok ct.1) duel_commands.
Proof. repeat constructor; simpl; vm_compute; done. Qed.

Lemma battle_decided_once_witness :
  outcomes (room_run duel_room duel_commands).1 = decided Cleared ∧
  NoDup (grant_player <$> grants (room_run duel_room duel_commands).1).
Proof.
  destruct (battle_decided_once 1 duel_config duel_room duel_commands (room_run duel_room duel_commands).1
    (room_run duel_room duel_commands).2 duel_config_typed duel_room_made duel_commands_ok (surjective_pairing _))
    as (Ho & Hnd & _).
  split; [|exact Hnd]. rewrite Ho. vm_compute. reflexivity.
Defined.

Lemma tick_spawns_due r now res r' :
  room_ok r → handleRoomSimulationTick r now = (res, r') → phase r = Running → phase r' = Running →
  wave_due r' now = false ∧ (boss_spawn_at r' <= now → boss_spawned r' = true).
Proof.
  intros Hr. unfold handleRoomSimulationTick. intros Hh Hrun Hrun'. revert Hh.
  rewrite bool_decide_eq_true_2 by done. cbn [negb].
  assert (Hfail : ∀ r1 status player reason, failBattle r1 status player reason = (res, r') → False).
  { intros r1 status player reason Ef. pose proof (failBattle_result r1 status player reason) as Hf. rewrite Ef in Hf.
    destruct Hf as (_ & _ & _ & _ & _ & [= Hp _ _]). congruence. }
  split_if; [by intros ?%Hfail|].
  pose proof (battle_moved r (room_ok_battle r Hr Hrun)) as H1. set (r1 := moveParticipants _) in *.
  destruct (advanceProjectiles r1 now) as [killed r2] eqn:E2. apply advanceProjectiles_ok in E2; [|done].
  destruct killed.
  { intros Ec. pose proof (clearBattle_result r2 None) as Hf. rewrite Ec in Hf.
    destruct Hf as (_ & _ & _ & _ & _ & [= Hp _ _]). congruence. }
  destruct (actEnemies r2 now) as [alive r3] eqn:E3. apply actEnemies_ok in E3 as [Hcore H3]; [|done].
  destruct alive; cbn [negb]; [|by intros ?%Hfail].
  pose proof (wave_loop_exits r3 now Hcore) as Hexit. set (r4 := wave_loop _ _ _) in *.
  match goal with |- context [takeDigest ?x] => set (r5 := x) end.
  assert (H5 : wave_due r5 now = false ∧ (boss_spawn_at r5 <= now → boss_spawned r5 = true)).
  { unfold r5. destruct (boss_spawned r4) eqn:Eb; simpl; [by rewrite Eb|]. split_if; to_prop; [|split; [done|lia]].
    unfold spawnBoss. by rewrite Eb. }
  unfold takeDigest. destruct (pending_events r5); by intros [= <- <-].
Qed.

(** The spawn schedule never falls behind: after a tick that leaves the
    battle running, every wave and the boss whose time has come are out, however
    late the tick is; the loop over the due waves always ends by its own
    condition. *)
Theorem spawn_schedule_kept r now res r' :
  room_ok r → room_handle r RoomSimulationTick now = (res, r') → phase r = Running → phase r' = Running →
  (spawned_wave_count r' = wave_count (config r') ∨ now < next_wave_at r') ∧
  (boss_spawn_at r' <= now → boss_spawned r' = true ∧ 0 < bossHealth r').
Proof.
  intros Hr Hh Hrun Hrun'. pose proof (room_handle_ok r RoomSimulationTick now Hr I) as Hr'. rewrite Hh in Hr'.
  destruct (tick_spawns_due r now res r' Hr Hh Hrun Hrun') as [Hw Hb].
  pose proof (room_ok_battle r' Hr' Hrun') as [[_ _ Ha _] _ Hlive _]. split.
  - pose proof (ao_waves _ _ _ _ _ Ha). unfold wave_due in Hw.
    apply andb_false_iff in Hw as [Hw|Hw]; to_prop; [left; lia|by right].
  - intros Hs. specialize (Hb Hs). split; [done|]. rewrite Hb in Hlive.
    pose proof (ao_bosses _ _ _ _ _ Ha) as Hone. rewrite Hb in Hone.
    by eapply live_boss_health; [apply Ha| |].
Qed.

(** The room in the middle of the demonstration battle. *)
Definition demo_battle : Room := (room_run demo_room demo_commands).2.

Lemma demo_battle_ok : room_ok demo_battle.
Proof.
  apply (room_run_ok demo_room demo_commands (room_run demo_room demo_commands).1);
    [apply (makeRoom_ok 1 default_config); [exact default_config_typed|exact demo_room_made]
    |exact demo_commands_ok|apply surjective_pairing].
Qed.

Lemma spawn_schedule_kept_witness :
  let r' := (room_handle demo_battle RoomSimulationTick 40000000000).2 in
  spawned_wave_count r' = wave_count (config r') ∧ boss_spawned r' = true ∧ 0 < bossHealth r'.
Proof.
  split; [vm_compute; reflexivity|].
  apply (spawn_schedule_kept demo_battle 40000000000 (room_handle demo_battle RoomSimulationTick 40000000000).1);
    [exact demo_battle_ok|apply surjective_pairing|vm_compute; reflexivity..|vm_compute; discriminate].
Defined.

Lemma digests_numbered r cs rs r' :
  in_u64 (digest_sequence r) → digest_sequence r + zlen cs <= U64_MAX → room_run r cs = (rs, r') →
  digest_sequence r <= digest_sequence r' <= digest_sequence r + zlen cs ∧
  sequence <$> omap rr_digest rs = seqZ (digest_sequence r + 1) (digest_sequence r' - digest_sequence r) ∧
  Forall (fun d => events d ≠ []) (omap rr_digest rs).
Proof.
  revert r rs. induction cs as [|[cmd t] cs IH]; intros r rs H0 Hb; cbn [room_run].
  { intros [= <- <-]. rewrite seqZ_nil by lia. unfold zlen; simpl. split_and!; try done; lia. }
  destruct (room_handle r cmd t) as [res r1] eqn:Eh. destruct (room_run r1 cs) as [rs' r2] eqn:E. intros [= <- <-].
  apply room_handle_numbered in Eh as [_ Hd]. unfold zlen in *. cbn [length] in *.
  assert (Hsimp : omap rr_digest (res :: rs')
    = match rr_digest res with Some d => d :: omap rr_digest rs' | None => omap rr_digest rs' end) by done.
  rewrite Hsimp. destruct (rr_digest res) as [d|].
  - destruct Hd as (Hs1 & Hs2 & Hne & _). rewrite u64_small in Hs1 by lia. rewrite Hs1 in Hs2.
    destruct (IH r1 rs' ltac:(lia) ltac:(lia) E) as (IH1 & IH2 & IH3). split_and!; [lia|lia| |by constructor].
    rewrite fmap_cons, IH2, Hs1, Hs2. rewrite (seqZ_cons (digest_sequence r + 1) (digest_sequence r2 - digest_sequence r)) by lia.
    f_equal. f_equal; lia.
  - destruct (IH r1 rs' ltac:(lia) ltac:(lia) E) as (IH1 & IH2 & IH3). rewrite Hd in *. split_and!; try done; lia.
Qed.

(** The digests a room sends are numbered 1, 2, 3, ... without gap or
    repetition and are never empty, so a client that checks the numbers misses
    nothing. *)
Theorem digests_consecutive room c r0 cs rs r :
  config_typed c → makeRoom room c = Ret r0 → zlen cs <= U64_MAX → room_run r0 cs = (rs, r) →
  sequence <$> omap rr_digest rs = seqZ 1 (digest_sequence r) ∧
  Forall (fun d => events d ≠ []) (omap rr_digest rs).
Proof.
  intros Ht Hm Hl Hrun. apply makeRoom_config_ok in Hm as (_ & _ & ->); [|done].
  apply digests_numbered in Hrun as (_ & Hs & He); simpl in *; [|lia|lia]. by rewrite Z.sub_0_r in Hs.
Qed.

Lemma digests_consecutive_witness :
  sequence <$> omap rr_digest (room_run demo_room demo_commands).1 = [1; 2; 3] ∧
  Forall (fun d => events d ≠ []) (omap rr_digest (room_run demo_room demo_commands).1).
Proof.
  split; [vm_compute; reflexivity|].
  apply (digests_consecutive 1 default_config demo_room demo_commands _ (room_run demo_room demo_commands).2);
    [exact default_config_typed|exact demo_room_made|vm_compute; discriminate|apply surjective_pairing].
Defined.

Lemma applied_skills_spaced player r cs rs r' :
  room_ok r → Forall (fun ct => command_ok ct.1) cs → room_run r cs = (rs, r') →
  StronglySorted spaced (collect (applied_skill player) cs rs).
Proof.
  intros Hr Hcs Hrun.
  eapply (collected_ordered player (applied_skill player) spaced allows); [..|exact Hr|exact Hcs|exact Hrun].
  - intros [cmd t] res Hn. unfold applied_skill. destruct cmd; try done. simpl in *.
    split_if; [|done]. to_prop. apply bool_decide_eq_true in H0. destruct Hn; congruence.
  - intros [cmd t] res. unfold applied_skill; simpl. destruct cmd; eauto. split_if; eauto.
  - apply allows_requests.
  - intros [cmd t] p q res a u Hs Ha. destruct cmd as [| | |pl skill seq| | |pl dir seq]; try done; simpl in *.
    + destruct (applied_use_allowed pl skill seq t p q u Hs Ha) as [H1 H2]. split; [intros Hq; apply (H2 Hq)|].
      unfold applied_skill; simpl. split_if; [|by intros ?%elem_of_nil]. intros ->%list_elem_of_singleton.
      split; [done|]. intros Hq; apply (H2 Hq).
    + split; [|by intros ?%elem_of_nil]. destruct Ha as [_ Hq]. unfold requests, allows in *.
      by injection Hq as _ -> -> _ ->.
Qed.

Lemma applied_moves_increase player r cs rs r' :
  room_ok r → Forall (fun ct => command_ok ct.1) cs → room_run r cs = (rs, r') →
  StronglySorted Z.lt (collect (applied_move player) cs rs).
Proof.
  intros Hr Hcs Hrun.
  eapply (collected_ordered player (applied_move player) Z.lt (fun p u => applied_movement_sequence p < u));
    [..|exact Hr|exact Hcs|exact Hrun].
  - intros [cmd t] res Hn. unfold applied_move. destruct cmd; try done. simpl in *.
    split_if; [|done]. to_prop. apply bool_decide_eq_true in H0. destruct Hn; congruence.
  - intros [cmd t] res. unfold applied_move; simpl. destruct cmd; eauto. split_if; eauto.
  - intros p q u [= _ _ _ -> _]. done.
  - intros [cmd t] p q res a u Hs Ha. destruct cmd as [| | |pl skill seq| | |pl dir seq]; try done; simpl in *.
    + split; [|by intros ?%elem_of_nil]. destruct Ha as (sd & _ & _ & _ & _ & [= _ _ _ -> _]). done.
    + destruct Ha as (Hlt & [= _ _ _ Hm _]). rewrite Hm. split; [lia|].
      unfold applied_move; simpl. split_if; [|by intros ?%elem_of_nil]. intros ->%list_elem_of_singleton. lia.
Qed.

(** Requests are applied exactly once and in order: over the life of a room
    the applied skill uses of a player carry strictly increasing sequence
    numbers, so a retransmitted request never acts twice; they use one and the
    same skill, and any two of them are a full cooldown apart; the applied
    movements carry strictly increasing numbers of their own. *)
Theorem requests_apply_once player room c r0 cs rs r :
  config_typed c → makeRoom room c = Ret r0 → Forall (fun ct => command_ok ct.1) cs →
  room_run r0 cs = (rs, r) →
  StronglySorted spaced (collect (applied_skill player) cs rs) ∧
  StronglySorted Z.lt (collect (applied_move player) cs rs).
Proof.
  intros Ht Hm Hcs Hrun. pose proof (makeRoom_ok _ _ _ Ht Hm).
  split; [by eapply applied_skills_spaced|by eapply applied_moves_increase].
Qed.

Lemma requests_apply_once_witness :
  collect (applied_skill 7) demo_commands (room_run demo_room demo_commands).1
  = [mkAppliedRequest 1 1 1000000; mkAppliedRequest 2 1 20000000001] ∧
  StronglySorted spaced (collect (applied_skill 7) demo_commands (room_run demo_room demo_commands).1) ∧
  StronglySorted Z.lt (collect (applied_move 7) demo_commands (room_run demo_room demo_commands).1).
Proof.
  split; [vm_compute; reflexivity|].
  apply (requests_apply_once 7 1 default_config demo_room demo_commands _ (room_run demo_room demo_commands).2);
    [exact default_config_typed|exact demo_room_made|exact demo_commands_ok|apply surjective_pairing].
Defined.
