(* ===== verification/Connection.v ===== *)
(** * Connection identity

    [ConnectionId] of [src/include/snf/net/connection_id.hpp]: a descriptor may
    be reused, its generation tells the uses apart.  Hash maps keyed by it are
    finite maps, so only its equality matters, not [ConnectionIdHash]. *)

From S2P Require Import Prelude.

Record ConnectionId := mkConnectionId { descriptor : Z; generation : Z }.

#[export] Instance ConnectionId_eq_dec : EqDecision ConnectionId.
Proof. solve_decision. Defined.

#[export] Instance ConnectionId_countable : Countable ConnectionId.
Proof.
  apply (inj_countable' (fun c => (descriptor c, generation c)) (fun p => mkConnectionId p.1 p.2)). by intros [].
Defined.
