(* ===== verification/Wire.v ===== *)
(** * Integers on the wire

    The big-endian writers of [src/include/snf/protocol/payload_writer.hpp] and
    the readers of [src/src/protocol/frame_codec.cpp].  A byte is a [Z] in
    [[0, 255]]; [std::vector<std::byte>] is a list of them.  A read outside the
    buffer, undefined in C++, is [None]. *)

From S2P Require Import Prelude.

Abbreviation bytes := (list Z).
Definition bytes_ok (bs : bytes) : Prop := Forall (fun b => in_u8 b) bs.

(** [append_big_endian<Integer>] with [n = sizeof(Integer)] bytes left. *)
Fixpoint append_big_endian (n : nat) (bs : bytes) (value : Z) : bytes :=
  match n with
  | O => bs
  | S m => append_big_endian m (bs ++ [Z.land (Z.shiftr value (Z.of_nat m * 8)) 255]) value
  end.

Definition append_u16 (bs : bytes) (value : Z) : bytes := append_big_endian 2 bs value.
Definition append_u32 (bs : bytes) (value : Z) : bytes := append_big_endian 4 bs value.
Definition append_u64 (bs : bytes) (value : Z) : bytes := append_big_endian 8 bs value.

Definition read_u32_big_endian (bs : bytes) (offset : nat) : option Z :=
  b0 ← bs !! offset; b1 ← bs !! (offset + 1)%nat; b2 ← bs !! (offset + 2)%nat; b3 ← bs !! (offset + 3)%nat;
  Some (Z.lor (Z.lor (Z.lor (Z.shiftl b0 24) (Z.shiftl b1 16)) (Z.shiftl b2 8)) b3).

Definition read_u16_big_endian (bs : bytes) (offset : nat) : option Z :=
  b0 ← bs !! offset; b1 ← bs !! (offset + 1)%nat;
  Some (u16 (Z.lor (Z.shiftl b0 8) b1)).

(** ** The number a byte string denotes *)

Definition be_value (bs : bytes) : Z := foldl (fun acc b => acc * 256 + b) 0 bs.
Definition be_bytes (n : nat) (v : Z) : bytes := append_big_endian n [] v.

Lemma append_big_endian_app n bs v : append_big_endian n bs v = bs ++ be_bytes n v.
Proof.
  unfold be_bytes. revert bs. induction n as [|n IH]; intros bs; simpl; [by rewrite app_nil_r|].
  rewrite IH, (IH [_]). by rewrite <-app_assoc.
Qed.

Lemma be_bytes_S n v : be_bytes (S n) v = (v / 256 ^ Z.of_nat n) mod 256 :: be_bytes n v.
Proof.
  unfold be_bytes at 1. cbn [append_big_endian]. rewrite append_big_endian_app. simpl. f_equal.
  change 255 with (Z.ones 8). rewrite Z.land_ones, Z.shiftr_div_pow2 by lia.
  change 256 with (2 ^ 8) at 1. rewrite <-Z.pow_mul_r by lia. do 3 f_equal. lia.
Qed.

Lemma be_bytes_length n v : length (be_bytes n v) = n.
Proof. induction n as [|n IH]; [done|]. rewrite be_bytes_S. simpl. by rewrite IH. Qed.

Lemma be_bytes_ok n v : bytes_ok (be_bytes n v).
Proof.
  induction n as [|n IH]; [constructor|]. rewrite be_bytes_S. constructor; [|done].
  pose proof (Z.mod_pos_bound (v / 256 ^ Z.of_nat n) 256 ltac:(lia)). lia.
Qed.

Lemma be_value_acc acc bs :
  foldl (fun acc b => acc * 256 + b) acc bs = acc * 256 ^ Z.of_nat (length bs) + be_value bs.
Proof.
  unfold be_value. revert acc. induction bs as [|b bs IH]; intros acc; cbn [foldl length]; [simpl; lia|].
  rewrite (IH (acc * 256 + b)), (IH (0 * 256 + b)). rewrite (Nat2Z.inj_succ (length bs)), Z.pow_succ_r by lia. ring.
Qed.

Lemma be_value_cons b bs : be_value (b :: bs) = b * 256 ^ Z.of_nat (length bs) + be_value bs.
Proof. unfold be_value at 1. simpl. by rewrite be_value_acc. Qed.

Lemma be_value_range bs : bytes_ok bs → 0 <= be_value bs < 256 ^ Z.of_nat (length bs).
Proof.
  induction 1 as [|b bs Hb Hbs IH]; [done|]. rewrite be_value_cons. cbn [length].
  rewrite Nat2Z.inj_succ, Z.pow_succ_r by lia. nia.
Qed.

(** Writing then reading, and reading then writing. *)
Lemma be_value_bytes n v : be_value (be_bytes n v) = v mod 256 ^ Z.of_nat n.
Proof.
  induction n as [|n IH]; [by rewrite Z.mod_1_r|].
  rewrite be_bytes_S, be_value_cons, IH, be_bytes_length. rewrite Nat2Z.inj_succ, Z.pow_succ_r by lia.
  assert (0 < 256 ^ Z.of_nat n) by (apply Z.pow_pos_nonneg; lia).
  rewrite (Z.mul_comm 256), Z.rem_mul_r by lia. lia.
Qed.

Lemma be_bytes_value bs : bytes_ok bs → be_bytes (length bs) (be_value bs) = bs.
Proof.
  intros Hok. enough (Hgen : ∀ k, be_bytes (length bs) (k * 256 ^ Z.of_nat (length bs) + be_value bs) = bs)
    by (specialize (Hgen 0); by rewrite Z.mul_0_l, Z.add_0_l in Hgen).
  induction Hok as [|b bs Hb Hbs IH]; intros k; [done|]. cbn [length]. rewrite be_bytes_S, be_value_cons.
  pose proof (be_value_range bs Hbs) as Hr. set (w := 256 ^ Z.of_nat (length bs)) in *.
  assert (Hw : 0 < w) by lia. rewrite Nat2Z.inj_succ, Z.pow_succ_r by lia. fold w.
  replace (k * (256 * w) + (b * w + be_value bs)) with ((k * 256 + b) * w + be_value bs) by ring. f_equal.
  - rewrite Z.div_add_l, (Z.div_small (be_value bs)) by lia. rewrite Z.add_0_r, Z.add_comm, Z.mod_add by lia.
    by apply Z.mod_small; lia.
  - apply IH.
Qed.

(** ** The readers compute the denoted number *)

Lemma lor_shiftl_add a b n : 0 <= n → 0 <= b < 2 ^ n → Z.lor (Z.shiftl a n) b = a * 2 ^ n + b.
Proof.
  intros Hn Hb. pose proof (Z.add_lor_land (Z.shiftl a n) b) as H.
  assert (Hz : Z.land (Z.shiftl a n) b = 0).
  { apply Z.bits_inj_iff'. intros i Hi. rewrite Z.land_spec, Z.bits_0. destruct (decide (i < n)).
    - by rewrite Z.shiftl_spec_low.
    - apply andb_false_iff. right.
      destruct (decide (b = 0)) as [->|]; [apply Z.bits_0|]. apply Z.bits_above_log2; [lia|].
      apply Z.log2_lt_pow2; [lia|]. assert (2 ^ n <= 2 ^ i) by (apply Z.pow_le_mono_r; lia). lia. }
  rewrite Z.shiftl_mul_pow2 in * by lia. lia.
Qed.

Lemma read_u32_value bs offset :
  bytes_ok bs → (offset + 4 <= length bs)%nat →
  read_u32_big_endian bs offset = Some (be_value (take 4 (drop offset bs))).
Proof.
  intros Hok Hlen. unfold read_u32_big_endian.
  destruct (lookup_lt_is_Some_2 bs offset ltac:(lia)) as [b0 H0].
  destruct (lookup_lt_is_Some_2 bs (offset + 1) ltac:(lia)) as [b1 H1].
  destruct (lookup_lt_is_Some_2 bs (offset + 2) ltac:(lia)) as [b2 H2].
  destruct (lookup_lt_is_Some_2 bs (offset + 3) ltac:(lia)) as [b3 H3].
  rewrite H0, H1, H2, H3. simpl. f_equal.
  rewrite (drop_S _ _ _ H0). replace (S offset) with (offset + 1)%nat by lia. rewrite (drop_S _ _ _ H1).
  replace (S (offset + 1)) with (offset + 2)%nat by lia. rewrite (drop_S _ _ _ H2).
  replace (S (offset + 2)) with (offset + 3)%nat by lia. rewrite (drop_S _ _ _ H3). simpl.
  unfold bytes_ok in Hok. rewrite Forall_lookup in Hok.
  pose proof (Hok _ _ H0). pose proof (Hok _ _ H1). pose proof (Hok _ _ H2). pose proof (Hok _ _ H3).
  rewrite <-!Z.lor_assoc.
  rewrite (lor_shiftl_add b2 b3 8) by lia.
  rewrite (lor_shiftl_add b1 (b2 * 2 ^ 8 + b3) 16) by lia.
  rewrite (lor_shiftl_add b0 (b1 * 2 ^ 16 + (b2 * 2 ^ 8 + b3)) 24) by lia.
  unfold be_value; simpl. lia.
Qed.

Lemma read_u16_value bs offset :
  bytes_ok bs → (offset + 2 <= length bs)%nat →
  read_u16_big_endian bs offset = Some (be_value (take 2 (drop offset bs))).
Proof.
  intros Hok Hlen. unfold read_u16_big_endian.
  destruct (lookup_lt_is_Some_2 bs offset ltac:(lia)) as [b0 H0].
  destruct (lookup_lt_is_Some_2 bs (offset + 1) ltac:(lia)) as [b1 H1].
  rewrite H0, H1. simpl. f_equal.
  rewrite (drop_S _ _ _ H0). replace (S offset) with (offset + 1)%nat by lia. rewrite (drop_S _ _ _ H1). simpl.
  unfold bytes_ok in Hok. rewrite Forall_lookup in Hok. pose proof (Hok _ _ H0). pose proof (Hok _ _ H1).
  rewrite (lor_shiftl_add b0 b1 8) by lia. unfold be_value; simpl. rewrite u16_small; lia.
Qed.
