(* ===== verification/FrameCodec.v ===== *)
(** * Frame codec

    [encode_frame] and [FrameDecoder] of [src/src/protocol/frame_codec.cpp],
    over the constants of [src/include/snf/protocol/frame.hpp].  The decoder is
    a buffer and a read offset; [None] stands for a read outside the buffer and,
    in [append], for a loop that did not end, so that a result [Some _] rules
    both out.  [std::size_t] offsets into the buffer are naturals. *)

From S2P Require Import Prelude Wire.

(** ** Frames *)

Definition FRAME_LENGTH_FIELD_SIZE := 4.
Definition FRAME_TYPE_SIZE := 2.
Definition FRAME_REQUEST_ID_SIZE := 4.
Definition MIN_BODY_SIZE := FRAME_TYPE_SIZE + FRAME_REQUEST_ID_SIZE.
Definition MAX_BODY_SIZE := 64 * 1024.
Definition MAX_PAYLOAD_SIZE := MAX_BODY_SIZE - MIN_BODY_SIZE.
Definition MAX_FRAME_SIZE := FRAME_LENGTH_FIELD_SIZE + MAX_BODY_SIZE.

(** The enumerators; a [MessageType] read from the wire may have any 16-bit
    value, so the type itself is the number. *)
Module MessageType.
Definition Ping := 1.
Definition Pong := 2.
Definition Authenticate := 3.
Definition Authenticated := 4.
Definition EnterZone := 5.
Definition ZoneEntered := 6.
Definition Move := 7.
Definition Moved := 8.
Definition LeaveZone := 9.
Definition ZoneLeft := 10.
Definition Purchase := 11.
Definition PurchaseResult := 12.
Definition RoomJoin := 17.
Definition RoomJoined := 18.
Definition BattleStart := 19.
Definition BattleStarted := 20.
Definition BattleCleared := 21.
Definition RoomLeave := 22.
Definition RoomLeft := 23.
Definition ReturnedToZone := 24.
Definition UseSkill := 25.
Definition SkillApplied := 26.
Definition BattleFailed := 27.
Definition BattleDigest := 28.
Definition SkillAcknowledged := 29.
Definition SetMoveIntent := 30.
Definition MoveAcknowledged := 31.
Definition EquipSkill := 32.
Definition EquipSkillResult := 33.

(** The labels of the switch in [is_known_message_type], in source order. *)
Definition known : list Z :=
  [Ping; Pong; Authenticate; Authenticated; EnterZone; ZoneEntered; Move; Moved; LeaveZone; ZoneLeft; Purchase;
   PurchaseResult; RoomJoin; RoomJoined; BattleStart; BattleStarted; BattleCleared; RoomLeave; RoomLeft;
   ReturnedToZone; UseSkill; SkillApplied; BattleFailed; BattleDigest; SkillAcknowledged; SetMoveIntent;
   MoveAcknowledged; EquipSkill; EquipSkillResult].
End MessageType.

Definition is_known_message_type (type : Z) : bool := existsb (Z.eqb type) MessageType.known.

Record Frame := mkFrame { frame_type : Z; request_id : Z; payload : bytes }.

#[export] Instance Frame_eq_dec : EqDecision Frame.
Proof. solve_decision. Defined.

Definition encode_frame (frame : Frame) : outcome bytes :=
  throw_if (negb (is_known_message_type (frame_type frame))) InvalidArgument
  (throw_if (MAX_PAYLOAD_SIZE <? zlen (payload frame)) LengthError
  (let body_size := u32 (MIN_BODY_SIZE + zlen (payload frame)) in
   Ret (append_u32 (append_u16 (append_u32 [] body_size) (frame_type frame)) (request_id frame) ++ payload frame))).

(** ** The decoder *)

Inductive DecodeError := InvalidBodyLength | BodyTooLarge | UnknownMessageType.

Record FrameDecoder := mkFrameDecoder { buffer : bytes; read_offset : nat }.

Record DecodeNextResult := mkDecodeNextResult { next_frame : option Frame; next_error : option DecodeError }.

Record DecodeResult := mkDecodeResult { frames : list Frame; decode_error : option DecodeError }.

Definition bufferedByteCount (d : FrameDecoder) : nat := length (buffer d) - read_offset d.

Definition reset (d : FrameDecoder) : FrameDecoder := mkFrameDecoder [] 0.

Definition compactConsumedPrefix (d : FrameDecoder) : FrameDecoder :=
  if bool_decide (read_offset d = 0%nat) then d
  else if bool_decide (read_offset d = length (buffer d)) then mkFrameDecoder [] 0
  else mkFrameDecoder (drop (read_offset d) (buffer d)) 0.

Definition fail (d : FrameDecoder) (error : DecodeError) : DecodeNextResult * FrameDecoder :=
  (mkDecodeNextResult None (Some error), reset d).

Definition push (d : FrameDecoder) (bs : bytes) : FrameDecoder :=
  let d1 := compactConsumedPrefix d in mkFrameDecoder (buffer d1 ++ bs) (read_offset d1).

Definition tryDecodeNext (d : FrameDecoder) : option (DecodeNextResult * FrameDecoder) :=
  let available_bytes := Z.of_nat (length (buffer d) - read_offset d) in
  if available_bytes <? FRAME_LENGTH_FIELD_SIZE
  then Some (mkDecodeNextResult None None, compactConsumedPrefix d)
  else
    body_size ← read_u32_big_endian (buffer d) (read_offset d);
    if body_size <? MIN_BODY_SIZE then Some (fail d InvalidBodyLength)
    else if MAX_BODY_SIZE <? body_size then Some (fail d BodyTooLarge)
    else
      let full_frame_size := FRAME_LENGTH_FIELD_SIZE + body_size in
      if available_bytes <? full_frame_size
      then Some (mkDecodeNextResult None None, compactConsumedPrefix d)
      else
        request_type ← read_u16_big_endian (buffer d) (read_offset d + Z.to_nat FRAME_LENGTH_FIELD_SIZE);
        if negb (is_known_message_type request_type) then Some (fail d UnknownMessageType)
        else
          id ← read_u32_big_endian (buffer d)
                 (read_offset d + Z.to_nat FRAME_LENGTH_FIELD_SIZE + Z.to_nat FRAME_TYPE_SIZE);
          let payload_begin := (read_offset d + Z.to_nat FRAME_LENGTH_FIELD_SIZE + Z.to_nat MIN_BODY_SIZE)%nat in
          let payload_size := Z.to_nat (body_size - MIN_BODY_SIZE) in
          let frame := mkFrame request_type id (take payload_size (drop payload_begin (buffer d))) in
          let d1 := mkFrameDecoder (buffer d) (read_offset d + Z.to_nat full_frame_size) in
          let d2 := if bool_decide (read_offset d1 = length (buffer d1)) then compactConsumedPrefix d1 else d1 in
          Some (mkDecodeNextResult (Some frame) None, d2).

(** The loop of [append]; a frame takes at least ten bytes, so [S (length)]
    rounds are more than enough. *)
Fixpoint decode_loop (fuel : nat) (d : FrameDecoder) : option (DecodeResult * FrameDecoder) :=
  match fuel with
  | O => None
  | S n =>
      '(next, d1) ← tryDecodeNext d;
      match next_frame next with
      | Some frame =>
          '(result, d2) ← decode_loop n d1;
          Some (mkDecodeResult (frame :: frames result) (decode_error result), d2)
      | None => Some (mkDecodeResult [] (next_error next), d1)
      end
  end.

Definition append (d : FrameDecoder) (bs : bytes) : option (DecodeResult * FrameDecoder) :=
  let d1 := push d bs in decode_loop (S (length (buffer d1))) d1.

(** ** Reference: what a byte stream means *)

Inductive ParseStep :=
| NeedMore
| Malformed (e : DecodeError)
| Parsed (f : Frame) (rest : bytes).

(** The first frame of a stream, read off the format. *)
Definition parse_frame (bs : bytes) : ParseStep :=
  if (length bs <? 4)%nat then NeedMore
  else
    let size := be_value (take 4 bs) in
    if size <? 6 then Malformed InvalidBodyLength
    else if 65536 <? size then Malformed BodyTooLarge
    else if zlen bs <? 4 + size then NeedMore
    else
      let body := take (Z.to_nat size) (drop 4 bs) in
      let type := be_value (take 2 body) in
      if negb (is_known_message_type type) then Malformed UnknownMessageType
      else Parsed (mkFrame type (be_value (take 4 (drop 2 body))) (drop 6 body)) (drop (Z.to_nat size + 4) bs).

(** All frames of a stream, the error that ends them and the bytes left. *)
Fixpoint parse_loop (fuel : nat) (bs : bytes) : list Frame * option DecodeError * bytes :=
  match fuel with
  | O => ([], None, bs)
  | S n =>
      match parse_frame bs with
      | NeedMore => ([], None, bs)
      | Malformed e => ([], Some e, [])
      | Parsed f rest => let '(fs, e, tail) := parse_loop n rest in (f :: fs, e, tail)
      end
  end.

Definition parse_stream (bs : bytes) : list Frame * option DecodeError * bytes := parse_loop (S (length bs)) bs.

(** A connection feeds chunks until the first error. *)
Fixpoint feed (d : FrameDecoder) (chunks : list bytes) : option (DecodeResult * FrameDecoder) :=
  match chunks with
  | [] => Some (mkDecodeResult [] None, d)
  | bs :: chunks' =>
      '(result, d1) ← append d bs;
      match decode_error result with
      | Some e => Some (result, d1)
      | None =>
          '(result', d2) ← feed d1 chunks';
          Some (mkDecodeResult (frames result ++ frames result') (decode_error result'), d2)
      end
  end.

(** ** The decoder implements the reference *)

Definition unread (d : FrameDecoder) : bytes := drop (read_offset d) (buffer d).

Record decoder_ok (d : FrameDecoder) : Prop := {
  do_offset : (read_offset d <= length (buffer d))%nat;
  do_bytes : bytes_ok (buffer d)
}.

Lemma bytes_ok_app bs cs : bytes_ok (bs ++ cs) ↔ bytes_ok bs ∧ bytes_ok cs.
Proof. apply Forall_app. Qed.

Lemma bytes_ok_take n bs : bytes_ok bs → bytes_ok (take n bs).
Proof. apply Forall_take. Qed.

Lemma bytes_ok_drop n bs : bytes_ok bs → bytes_ok (drop n bs).
Proof. apply Forall_drop. Qed.

#[export] Hint Resolve bytes_ok_take bytes_ok_drop : snf.

Lemma compact_spec d : decoder_ok d → compactConsumedPrefix d = mkFrameDecoder (unread d) 0.
Proof.
  intros [Ho _]. unfold compactConsumedPrefix, unread. destruct d as [bs o]; simpl in *.
  case_bool_decide as E1; [by subst|]. case_bool_decide as E2; [|done]. subst. by rewrite drop_all.
Qed.

Lemma unread_length d : decoder_ok d → length (unread d) = bufferedByteCount d.
Proof. intros _. unfold unread, bufferedByteCount. by rewrite length_drop. Qed.

Lemma parse_frame_bound bs f rest : parse_frame bs = Parsed f rest → (length rest + 10 <= length bs)%nat.
Proof.
  unfold parse_frame. repeat split_if; try done. intros [= _ <-]. to_prop. unfold zlen in *. rewrite length_drop. lia.
Qed.

Lemma tryDecodeNext_spec d :
  decoder_ok d →
  ∃ res d', tryDecodeNext d = Some (res, d') ∧ decoder_ok d' ∧
    match parse_frame (unread d) with
    | NeedMore => res = mkDecodeNextResult None None ∧ d' = mkFrameDecoder (unread d) 0
    | Malformed e => res = mkDecodeNextResult None (Some e) ∧ d' = mkFrameDecoder [] 0
    | Parsed f rest => res = mkDecodeNextResult (Some f) None ∧ unread d' = rest
    end.
Proof.
  intros Hd. pose proof Hd as [Ho Hb]. pose proof (unread_length d Hd) as Hlen. unfold bufferedByteCount in Hlen.
  pose proof (bytes_ok_drop (read_offset d) _ Hb) as Hub. fold (unread d) in Hub.
  assert (Hcompact : decoder_ok (mkFrameDecoder (unread d) 0)) by (constructor; simpl; [lia|done]).
  assert (Hempty : decoder_ok (mkFrameDecoder [] 0)) by (constructor; simpl; [lia|constructor]).
  unfold tryDecodeNext, parse_frame. rewrite <-Hlen, compact_spec by done.
  unfold FRAME_LENGTH_FIELD_SIZE, FRAME_TYPE_SIZE, MIN_BODY_SIZE, FRAME_TYPE_SIZE, FRAME_REQUEST_ID_SIZE.
  destruct (Nat.ltb_spec (length (unread d)) 4) as [Hs|Hs].
  { rewrite (proj2 (Z.ltb_lt _ _)) by lia. by do 2 eexists. }
  rewrite (proj2 (Z.ltb_ge _ _)) by lia.
  rewrite (read_u32_value (buffer d) (read_offset d)) by (done || lia). fold (unread d). cbn [mbind option_bind].
  set (size := be_value (take 4 (unread d))). change (2 + 4) with 6.
  destruct (size <? 6) eqn:E1; [by do 2 eexists|].
  change MAX_BODY_SIZE with 65536. destruct (65536 <? size) eqn:E2; [by do 2 eexists|]. to_prop. unfold zlen.
  destruct (Z.of_nat (length (unread d)) <? 4 + size) eqn:E3; [by do 2 eexists|]. to_prop.
  rewrite read_u16_value by (done || lia). cbn [mbind option_bind].
  change (Z.to_nat 4) with 4%nat. change (Z.to_nat 2) with 2%nat.
  assert (Hdrop : ∀ k, drop (read_offset d + k) (buffer d) = drop k (unread d)) by (intros k; unfold unread; by rewrite drop_drop).
  rewrite (Hdrop 4%nat).
  assert (Ht2 : take 2 (take (Z.to_nat size) (drop 4 (unread d))) = take 2 (drop 4 (unread d)))
    by (rewrite take_take; f_equal; lia).
  rewrite Ht2. destruct (is_known_message_type _); cbn [negb]; [|by do 2 eexists].
  rewrite read_u32_value by (done || lia). cbn [mbind option_bind].
  replace (read_offset d + 4 + 2)%nat with (read_offset d + 6)%nat by lia. rewrite (Hdrop 6%nat).
  replace (read_offset d + 4 + Z.to_nat 6)%nat with (read_offset d + 10)%nat by lia. rewrite (Hdrop 10%nat).
  do 2 eexists. split; [reflexivity|]. set (d1 := mkFrameDecoder _ _).
  assert (Hd1 : decoder_ok d1) by (constructor; simpl; [unfold unread in *; rewrite length_drop in *; lia|done]).
  assert (Hu1 : unread d1 = drop (Z.to_nat size + 4) (unread d)).
  { unfold unread at 1; simpl. rewrite Hdrop. f_equal. lia. }
  split; [case_bool_decide; [by rewrite compact_spec; [constructor; simpl; [lia|apply bytes_ok_drop, Hb]|]|done]|].
  split.
  - do 2 f_equal. f_equal.
    + rewrite skipn_firstn_comm, drop_drop, take_take. f_equal. f_equal. lia.
    + rewrite skipn_firstn_comm, drop_drop. f_equal. lia.
  - case_bool_decide; [rewrite compact_spec by done; unfold unread at 1; simpl|]; done.
Qed.

Lemma decode_loop_spec fuel d fs e tail :
  decoder_ok d → (length (unread d) < fuel)%nat → parse_loop fuel (unread d) = (fs, e, tail) →
  decode_loop fuel d = Some (mkDecodeResult fs e, mkFrameDecoder tail 0).
Proof.
  revert d fs e tail. induction fuel as [|n IH]; intros d fs e tail Hd Hf; [lia|]. simpl.
  destruct (tryDecodeNext_spec d Hd) as (res & d' & -> & Hd' & Hm). simpl.
  destruct (parse_frame (unread d)) as [|err|f rest] eqn:Ep.
  - destruct Hm as [-> ->]. by intros [= <- <- <-].
  - destruct Hm as [-> ->]. by intros [= <- <- <-].
  - destruct Hm as [-> <-]. apply parse_frame_bound in Ep. simpl.
    destruct (parse_loop n (unread d')) as [[fs' e'] tail'] eqn:El. intros [= <- <- <-].
    rewrite (IH d' fs' e' tail') by (done || lia). done.
Qed.

Lemma parse_loop_fuel n m bs : (length bs < n)%nat → (length bs < m)%nat → parse_loop n bs = parse_loop m bs.
Proof.
  revert m bs. induction n as [|n IH]; intros [|m] bs Hn Hm; try lia. simpl.
  destruct (parse_frame bs) as [|e|f rest] eqn:E; try done. apply parse_frame_bound in E.
  by rewrite (IH m rest) by lia.
Qed.

Lemma append_spec d bs fs e tail :
  decoder_ok d → bytes_ok bs → parse_stream (unread d ++ bs) = (fs, e, tail) →
  append d bs = Some (mkDecodeResult fs e, mkFrameDecoder tail 0).
Proof.
  intros Hd Hbs Hp. pose proof Hd as [Ho Hb]. unfold append, push. rewrite compact_spec by done. cbn [buffer read_offset].
  apply decode_loop_spec.
  - constructor; simpl; [lia|]. apply bytes_ok_app. split; [|done]. by apply bytes_ok_drop.
  - change (length (unread d ++ bs) < S (length (unread d ++ bs)))%nat. lia.
  - exact Hp.
Qed.

(** *** Streams in pieces *)

Lemma parse_frame_app_malformed bs cs e : parse_frame bs = Malformed e → parse_frame (bs ++ cs) = Malformed e.
Proof.
  unfold parse_frame. destruct (Nat.ltb_spec (length bs) 4) as [|Hl]; [done|].
  destruct (Nat.ltb_spec (length (bs ++ cs)) 4); [rewrite length_app in *; lia|].
  rewrite (take_app_le bs cs 4) by lia. set (size := be_value (take 4 bs)).
  split_if; [done|]. split_if; [done|]. destruct (zlen bs <? 4 + size) eqn:E3; [done|]. to_prop. unfold zlen in *.
  rewrite (proj2 (Z.ltb_ge _ _)) by (rewrite length_app; lia).
  rewrite (drop_app_le bs cs 4) by lia. rewrite (take_app_le (drop 4 bs) cs) by (rewrite length_drop; lia).
  by split_if.
Qed.

Lemma parse_frame_app_parsed bs cs f rest :
  parse_frame bs = Parsed f rest → parse_frame (bs ++ cs) = Parsed f (rest ++ cs).
Proof.
  unfold parse_frame. destruct (Nat.ltb_spec (length bs) 4) as [|Hl]; [done|].
  destruct (Nat.ltb_spec (length (bs ++ cs)) 4); [rewrite length_app in *; lia|].
  rewrite (take_app_le bs cs 4) by lia. set (size := be_value (take 4 bs)).
  split_if; [done|]. split_if; [done|]. destruct (zlen bs <? 4 + size) eqn:E3; [done|]. to_prop. unfold zlen in *.
  rewrite (proj2 (Z.ltb_ge _ _)) by (rewrite length_app; lia).
  rewrite (drop_app_le bs cs 4) by lia. rewrite (take_app_le (drop 4 bs) cs) by (rewrite length_drop; lia).
  split_if; [done|]. intros [= <- <-]. f_equal. rewrite drop_app_le by lia. done.
Qed.

Lemma parse_stream_unfold bs :
  parse_stream bs = match parse_frame bs with
                    | NeedMore => ([], None, bs)
                    | Malformed e => ([], Some e, [])
                    | Parsed f rest => let '(fs, e, tail) := parse_stream rest in (f :: fs, e, tail)
                    end.
Proof.
  unfold parse_stream at 1. simpl. destruct (parse_frame bs) as [|e|f rest] eqn:E; try done.
  apply parse_frame_bound in E. unfold parse_stream. by rewrite (parse_loop_fuel (length bs) (S (length rest))) by lia.
Qed.

(** A stream is parsed the same whether it comes at once or in two pieces. *)
Lemma parse_stream_app bs cs :
  parse_stream (bs ++ cs)
  = let '(fs, e, tail) := parse_stream bs in
    match e with
    | Some _ => (fs, e, tail)
    | None => let '(fs', e', tail') := parse_stream (tail ++ cs) in (fs ++ fs', e', tail')
    end.
Proof.
  remember (length bs) as n eqn:Hn. revert bs Hn. induction n as [n IH] using lt_wf_ind. intros bs ->.
  rewrite (parse_stream_unfold bs). destruct (parse_frame bs) as [|e|f rest] eqn:E.
  - by destruct (parse_stream (bs ++ cs)) as [[? ?] ?].
  - rewrite parse_stream_unfold. by rewrite (parse_frame_app_malformed _ _ _ E).
  - rewrite parse_stream_unfold, (parse_frame_app_parsed _ _ _ _ E).
    rewrite (IH (length rest)) by (apply parse_frame_bound in E; done || lia).
    destruct (parse_stream rest) as [[fs [e|]] tail]; [done|].
    by destruct (parse_stream (tail ++ cs)) as [[? ?] ?].
Qed.

(** What is left of a stream asks for more data and is short. *)
Lemma parse_frame_rest_ok bs f rest : bytes_ok bs → parse_frame bs = Parsed f rest → bytes_ok rest.
Proof. unfold parse_frame. intros Hok. repeat split_if; try done. intros [= _ <-]. by apply bytes_ok_drop. Qed.

Lemma parse_frame_need_more bs : bytes_ok bs → parse_frame bs = NeedMore → zlen bs < MAX_FRAME_SIZE.
Proof.
  unfold parse_frame, MAX_FRAME_SIZE. intros Hok. destruct (Nat.ltb_spec (length bs) 4) as [Hl|Hl].
  { intros _. unfold zlen. change (FRAME_LENGTH_FIELD_SIZE + MAX_BODY_SIZE) with 65540. lia. }
  repeat split_if; try done. to_prop. intros _. change (FRAME_LENGTH_FIELD_SIZE + MAX_BODY_SIZE) with 65540. lia.
Qed.

Lemma parse_stream_tail bs fs tail :
  bytes_ok bs → parse_stream bs = (fs, None, tail) → bytes_ok tail ∧ parse_frame tail = NeedMore ∧ zlen tail < MAX_FRAME_SIZE.
Proof.
  remember (length bs) as n eqn:Hn. revert bs fs Hn. induction n as [n IH] using lt_wf_ind. intros bs fs -> Hok.
  rewrite parse_stream_unfold. destruct (parse_frame bs) as [|e|f rest] eqn:E; [|done|].
  - intros [= <- <-]. split_and!; try done. by apply parse_frame_need_more.
  - pose proof (parse_frame_bound _ _ _ E). pose proof (parse_frame_rest_ok _ _ _ Hok E).
    destruct (parse_stream rest) as [[fs' e'] tail'] eqn:Er. intros [= <- -> ->].
    by apply (IH (length rest) ltac:(lia) rest fs').
Qed.

(** A connection sees the frames of the whole stream, however it is cut. *)
Lemma feed_spec d chunks fs e tail :
  decoder_ok d → read_offset d = 0%nat → parse_frame (buffer d) = NeedMore → Forall bytes_ok chunks →
  parse_stream (buffer d ++ concat chunks) = (fs, e, tail) →
  feed d chunks = Some (mkDecodeResult fs e, mkFrameDecoder tail 0).
Proof.
  intros Hd Ho Hn Hcs. revert d fs e tail Hd Ho Hn.
  induction Hcs as [|bs cs Hbs Hcs IH]; intros d fs e tail Hd Ho Hn Hp; cbn [feed concat] in *.
  { rewrite app_nil_r, parse_stream_unfold, Hn in Hp. injection Hp as <- <- <-. destruct d; simpl in *. by subst. }
  assert (Hu : unread d = buffer d) by (unfold unread; by rewrite Ho).
  destruct (parse_stream (buffer d ++ bs)) as [[fs1 e1] tail1] eqn:E1.
  rewrite (append_spec d bs fs1 e1 tail1) by (rewrite ?Hu; done). simpl.
  rewrite app_assoc, parse_stream_app, E1 in Hp. destruct e1 as [e1|]; [by injection Hp as <- <- <-|].
  destruct (parse_stream (tail1 ++ concat cs)) as [[fs2 e2] tail2] eqn:E2. injection Hp as <- <- <-.
  assert (Hok1 : bytes_ok (buffer d ++ bs)) by (apply bytes_ok_app; split; [apply Hd|done]).
  destruct (parse_stream_tail _ _ _ Hok1 E1) as (Hok2 & Hneed & _).
  rewrite (IH (mkFrameDecoder tail1 0) fs2 e2 tail2); try done. constructor; simpl; [lia|done].
Qed.

(** ** Encoding *)

Record frame_ok (f : Frame) : Prop := {
  fo_type : is_known_message_type (frame_type f) = true;
  fo_id : in_u32 (request_id f);
  fo_size : zlen (payload f) <= MAX_PAYLOAD_SIZE;
  fo_payload : bytes_ok (payload f)
}.

Definition encoding (f : Frame) : bytes :=
  be_bytes 4 (6 + zlen (payload f)) ++ be_bytes 2 (frame_type f) ++ be_bytes 4 (request_id f) ++ payload f.

Lemma known_type_range t : is_known_message_type t = true → in_u16 t.
Proof.
  unfold is_known_message_type. rewrite existsb_exists. intros (x & Hin & Hx). to_prop. subst.
  simpl in Hin. repeat (destruct Hin as [<-|Hin]; [vm_compute; split; discriminate|]). done.
Qed.

Lemma encode_frame_encoding f : frame_ok f → encode_frame f = Ret (encoding f).
Proof.
  intros [Ht Hi Hs Hp]. unfold encode_frame, throw_if. rewrite Ht. simpl negb. cbn match.
  rewrite (proj2 (Z.ltb_ge _ _)) by done. unfold append_u32, append_u16. rewrite !append_big_endian_app.
  unfold encoding. change MIN_BODY_SIZE with 6. change MAX_PAYLOAD_SIZE with 65530 in Hs.
  rewrite u32_small by (unfold zlen in *; lia).
  by rewrite app_nil_l, <-!app_assoc.
Qed.

Lemma be_bytes_small n v : 0 <= v < 256 ^ Z.of_nat n → be_value (be_bytes n v) = v.
Proof. intros. rewrite be_value_bytes. by apply Z.mod_small. Qed.

(** The encoding of a frame is parsed back, whatever follows it. *)
Lemma parse_encoding f rest : frame_ok f → parse_frame (encoding f ++ rest) = Parsed f rest.
Proof.
  intros [Ht Hi Hs Hp]. pose proof (known_type_range _ Ht) as Htr. set (n := zlen (payload f)) in *.
  assert (Hn : 0 <= n) by (unfold n, zlen; lia). change MAX_PAYLOAD_SIZE with 65530 in Hs.
  unfold parse_frame, encoding. fold n. rewrite <-!app_assoc.
  assert (L4 : ∀ v, length (be_bytes 4 v) = 4%nat) by (intros; apply be_bytes_length).
  assert (L2 : length (be_bytes 2 (frame_type f)) = 2%nat) by apply be_bytes_length.
  destruct (Nat.ltb_spec (length (be_bytes 4 (6 + n) ++ be_bytes 2 (frame_type f) ++ be_bytes 4 (request_id f) ++
    payload f ++ rest)) 4) as [Hlt|_]; [rewrite length_app, L4 in Hlt; lia|].
  rewrite (take_app_length' _ _ 4) by (by rewrite L4). rewrite be_bytes_small by (simpl; lia).
  rewrite (proj2 (Z.ltb_ge _ _)) by lia. rewrite (proj2 (Z.ltb_ge _ _)) by lia.
  rewrite (proj2 (Z.ltb_ge _ _)) by (unfold zlen; rewrite !length_app, !L4, L2; unfold n, zlen; lia).
  rewrite (drop_app_length' (be_bytes 4 (6 + n)) _ 4) by (by rewrite L4).
  assert (Hbody : take (Z.to_nat (6 + n)) (be_bytes 2 (frame_type f) ++ be_bytes 4 (request_id f) ++ payload f ++ rest)
    = be_bytes 2 (frame_type f) ++ be_bytes 4 (request_id f) ++ payload f).
  { rewrite !app_assoc. apply take_app_length'. rewrite !length_app, L4, L2. unfold n, zlen. lia. }
  rewrite Hbody. rewrite (take_app_length' _ _ 2) by (by rewrite L2). rewrite be_bytes_small by (simpl; lia).
  rewrite Ht. cbn [negb].
  rewrite (drop_app_length' (be_bytes 2 _) _ 2) by (by rewrite L2).
  rewrite (take_app_length' _ _ 4) by (by rewrite L4). rewrite be_bytes_small by (simpl; lia).
  assert (Hd6 : drop 6 (be_bytes 2 (frame_type f) ++ be_bytes 4 (request_id f) ++ payload f) = payload f).
  { rewrite app_assoc. apply drop_app_length'. by rewrite length_app, L4, L2. }
  assert (Hrest : drop (Z.to_nat (6 + n) + 4) (be_bytes 4 (6 + n) ++ be_bytes 2 (frame_type f) ++ be_bytes 4 (request_id f) ++
    payload f ++ rest) = rest).
  { rewrite !app_assoc. apply drop_app_length'. rewrite !length_app, !L4, L2. unfold n, zlen. lia. }
  rewrite Hd6, Hrest. by destruct f.
Qed.

Lemma be_bytes_read n bs : length bs = n → bytes_ok bs → be_bytes n (be_value bs) = bs.
Proof. intros <-. apply be_bytes_value. Qed.

(** And only encodings are parsed. *)
Lemma parse_frame_canonical bs f rest :
  bytes_ok bs → parse_frame bs = Parsed f rest → frame_ok f ∧ bs = encoding f ++ rest.
Proof.
  intros Hok. unfold parse_frame. destruct (Nat.ltb_spec (length bs) 4) as [|Hl]; [done|].
  set (size := be_value (take 4 bs)). destruct (size <? 6) eqn:E1; [done|]. destruct (65536 <? size) eqn:E2; [done|].
  destruct (zlen bs <? 4 + size) eqn:E3; [done|]. to_prop. unfold zlen in *.
  set (body := take (Z.to_nat size) (drop 4 bs)).
  assert (Hbl : length body = Z.to_nat size) by (unfold body; rewrite length_take, length_drop; lia).
  assert (Hbok : bytes_ok body) by (unfold body; auto with snf).
  destruct (is_known_message_type (be_value (take 2 body))) eqn:Ek; [|done]. cbn [negb]. intros [= <- <-].
  assert (H4 : length (take 4 bs) = 4%nat) by (rewrite length_take; lia).
  assert (H2 : length (take 2 body) = 2%nat) by (rewrite length_take; lia).
  assert (H24 : length (take 4 (drop 2 body)) = 4%nat) by (rewrite length_take, length_drop; lia).
  assert (Hpl : zlen (drop 6 body) = size - 6) by (unfold zlen; rewrite length_drop; lia).
  split.
  - constructor; simpl; [done| | |auto with snf].
    + pose proof (be_value_range (take 4 (drop 2 body)) ltac:(auto with snf)) as Hr. rewrite H24 in Hr. simpl in Hr. lia.
    + change MAX_PAYLOAD_SIZE with 65530. lia.
  - unfold encoding. cbn [frame_type request_id payload]. rewrite Hpl. replace (6 + (size - 6)) with size by lia. unfold size.
    rewrite (be_bytes_read 4 (take 4 bs)), (be_bytes_read 2 (take 2 body)), (be_bytes_read 4 (take 4 (drop 2 body)))
      by auto with snf.
    rewrite <-!app_assoc.
    rewrite <-(take_drop 4 bs) at 1. f_equal. rewrite <-(take_drop (Z.to_nat size) (drop 4 bs)) at 1. fold body.
    rewrite <-(take_drop 2 body) at 1. rewrite <-(take_drop 4 (drop 2 body)) at 1. rewrite !drop_drop, <-!app_assoc.
    do 4 f_equal. lia.
Qed.

Lemma parse_stream_canonical bs fs e tail :
  bytes_ok bs → parse_stream bs = (fs, e, tail) →
  Forall frame_ok fs ∧ ∃ rest, bs = concat (encoding <$> fs) ++ rest ∧
    match e with None => tail = rest | Some err => tail = [] ∧ parse_frame rest = Malformed err end.
Proof.
  remember (length bs) as n eqn:Hn. revert bs fs Hn. induction n as [n IH] using lt_wf_ind. intros bs fs -> Hok.
  rewrite parse_stream_unfold. destruct (parse_frame bs) as [|err|f rest] eqn:E.
  - intros [= <- <- <-]. split; [constructor|]. by exists bs.
  - intros [= <- <- <-]. split; [constructor|]. by exists bs.
  - pose proof (parse_frame_bound _ _ _ E). pose proof (parse_frame_rest_ok _ _ _ Hok E) as Hr.
    apply parse_frame_canonical in E as [Hf ->]; [|done].
    destruct (parse_stream rest) as [[fs' e'] tail'] eqn:Er. intros [= <- -> ->].
    destruct (IH (length rest) ltac:(lia) rest fs' eq_refl Hr Er) as (Hfs & rest' & -> & Hm).
    split; [by constructor|]. exists rest'. split; [|done]. by rewrite fmap_cons; simpl; rewrite app_assoc.
Qed.

Lemma parse_stream_encodings fs rest :
  Forall frame_ok fs → parse_frame rest = NeedMore →
  parse_stream (concat (encoding <$> fs) ++ rest) = (fs, None, rest).
Proof.
  intros Hfs Hr. induction Hfs as [|f fs Hf Hfs IH]; rewrite parse_stream_unfold; [simpl; by rewrite Hr|].
  rewrite fmap_cons. cbn [concat]. rewrite <-app_assoc. rewrite parse_encoding by done. by rewrite IH.
Qed.

Lemma concat_bytes_ok chunks : Forall bytes_ok chunks ↔ bytes_ok (concat chunks).
Proof.
  induction chunks as [|c cs IH]; simpl; [split; constructor|]. by rewrite Forall_cons, bytes_ok_app, IH.
Qed.

Lemma encoding_ok f : frame_ok f → bytes_ok (encoding f).
Proof. intros [_ _ _ Hp]. unfold encoding. rewrite !bytes_ok_app. split_and!; auto using be_bytes_ok. Qed.

Definition empty_decoder : FrameDecoder := mkFrameDecoder [] 0.

Lemma empty_decoder_ok : decoder_ok empty_decoder.
Proof. constructor; simpl; [lia|constructor]. Qed.

(** ** Theorems *)

(** C3: the incremental decoder computes the frames of the byte stream: fed
    any sequence of network reads, it always ends, never reads outside its
    buffer, and returns exactly the frames, the error and the unread bytes that
    the reference parser finds in the concatenation, so how TCP cuts the stream
    never matters. *)
Theorem decoder_implements_stream chunks :
  Forall bytes_ok chunks →
  feed empty_decoder chunks
  = let '(fs, e, tail) := parse_stream (concat chunks) in Some (mkDecodeResult fs e, mkFrameDecoder tail 0).
Proof.
  intros Hcs. destruct (parse_stream (concat chunks)) as [[fs e] tail] eqn:E.
  by apply feed_spec; [exact empty_decoder_ok| | | |].
Qed.

Definition demo_frame : Frame := mkFrame MessageType.Ping 7 [1; 2; 3].
Definition demo_chunks : list bytes := [[0; 0]; [0; 9; 0]; [1; 0; 0; 0; 7; 1; 2]; [3; 0]].

Lemma demo_chunks_ok : Forall bytes_ok demo_chunks.
Proof. repeat constructor; simpl; discriminate. Qed.

Lemma decoder_implements_stream_witness :
  parse_stream (concat demo_chunks) = ([demo_frame], None, [0]) ∧
  feed empty_decoder demo_chunks = Some (mkDecodeResult [demo_frame] None, mkFrameDecoder [0] 0).
Proof.
  split; [vm_compute; reflexivity|].
  rewrite (decoder_implements_stream demo_chunks demo_chunks_ok). vm_compute. reflexivity.
Defined.

(** Round trip: whatever frames a peer encodes, and however the encoded
    bytes are cut into reads, the decoder returns the same frames in the same
    order, reports no error and keeps nothing back. *)
Theorem frames_roundtrip fs encoded chunks :
  Forall (fun f => in_u32 (request_id f) ∧ bytes_ok (payload f)) fs →
  Forall2 (fun f bs => encode_frame f = Ret bs) fs encoded → concat chunks = concat encoded →
  feed empty_decoder chunks = Some (mkDecodeResult fs None, empty_decoder).
Proof.
  intros Hok Henc Hcut.
  assert (Hfs : Forall frame_ok fs ∧ encoded = encoding <$> fs).
  { clear Hcut. induction Henc as [|f bs fs bss Hf _ IH]; [done|]. apply Forall_cons in Hok as [[Hid Hpl] Hok].
    destruct (IH Hok) as [Hall ->]. pose proof Hf as Hg. unfold encode_frame in Hg. rewrite !throw_if_ret in Hg.
    destruct Hg as (Hk & Hs & _). to_prop. assert (Hfo : frame_ok f) by (by constructor).
    split; [by constructor|]. rewrite encode_frame_encoding in Hf by done. by injection Hf as <-. }
  destruct Hfs as [Hfs ->].
  assert (Hcs : Forall bytes_ok chunks).
  { apply concat_bytes_ok. rewrite Hcut. apply concat_bytes_ok. apply Forall_fmap. eapply Forall_impl; [exact Hfs|].
    intros f. apply encoding_ok. }
  pose proof (parse_stream_encodings fs [] Hfs eq_refl) as Hp. rewrite app_nil_r, <-Hcut in Hp.
  by apply feed_spec; [exact empty_decoder_ok| | | |].
Qed.

Lemma frames_roundtrip_witness :
  feed empty_decoder [[0; 0; 0; 9; 0; 1; 0; 0; 0]; [7; 1; 2; 3]] = Some (mkDecodeResult [demo_frame] None, empty_decoder).
Proof.
  apply (frames_roundtrip [demo_frame] [[0; 0; 0; 9; 0; 1; 0; 0; 0; 7; 1; 2; 3]]).
  - repeat constructor; simpl; discriminate.
  - repeat constructor.
  - reflexivity.
Defined.

(** The decoder accepts only well-formed input and bounds what it keeps:
    every byte fed is accounted for, in order, as the canonical encoding of a
    returned frame or as the rest; the frames have known types and legal sizes;
    without an error the rest is exactly what is buffered, less than one maximal
    frame; with an error the rest begins with the offending header. *)
Theorem decoder_sound chunks result d :
  Forall bytes_ok chunks → feed empty_decoder chunks = Some (result, d) →
  Forall frame_ok (frames result) ∧
  ∃ rest, concat chunks = concat (encoding <$> frames result) ++ rest ∧
    match decode_error result with
    | None => unread d = rest ∧ zlen (buffer d) < MAX_FRAME_SIZE ∧ parse_frame rest = NeedMore
    | Some e => unread d = [] ∧ parse_frame rest = Malformed e
    end.
Proof.
  intros Hcs Hf. destruct (parse_stream (concat chunks)) as [[fs e] tail] eqn:E.
  rewrite (feed_spec empty_decoder chunks fs e tail) in Hf; try done; [|exact empty_decoder_ok].
  injection Hf as <- <-. simpl. apply concat_bytes_ok in Hcs.
  pose proof (parse_stream_canonical _ _ _ _ Hcs E) as (Hfs & rest & Hrest & Hm).
  split; [done|]. exists rest. split; [done|]. destruct e as [e|].
  - by destruct Hm as [-> Hm].
  - subst tail. destruct (parse_stream_tail _ _ _ Hcs E) as (_ & Hn & Hl). done.
Qed.

Lemma decoder_sound_witness :
  ∃ rest, concat demo_chunks = concat (encoding <$> [demo_frame]) ++ rest ∧
    unread (mkFrameDecoder [0] 0) = rest ∧ zlen [0] < MAX_FRAME_SIZE ∧ parse_frame rest = NeedMore.
Proof.
  apply (decoder_sound demo_chunks (mkDecodeResult [demo_frame] None) (mkFrameDecoder [0] 0)).
  - exact demo_chunks_ok.
  - vm_compute. reflexivity.
Defined.

(** [encode_frame] fails exactly on an unknown type or an oversized payload,
    with the exception of that case, and otherwise produces a frame within the
    wire limits. *)
Theorem encode_frame_total f :
  match encode_frame f with
  | Ret bs => is_known_message_type (frame_type f) = true ∧ zlen (payload f) <= MAX_PAYLOAD_SIZE ∧
              bs = encoding f ∧ zlen bs = zlen (payload f) + 10 ∧ zlen bs <= MAX_FRAME_SIZE
  | Throw InvalidArgument => is_known_message_type (frame_type f) = false
  | Throw e => e = LengthError ∧ is_known_message_type (frame_type f) = true ∧ MAX_PAYLOAD_SIZE < zlen (payload f)
  end.
Proof.
  unfold encode_frame, throw_if. destruct (is_known_message_type (frame_type f)) eqn:Ek; simpl negb; cbn match; [|done].
  destruct (MAX_PAYLOAD_SIZE <? zlen (payload f)) eqn:Es; to_prop; [done|].
  unfold append_u32, append_u16. rewrite !append_big_endian_app. change MIN_BODY_SIZE with 6.
  change MAX_PAYLOAD_SIZE with 65530 in *. change MAX_FRAME_SIZE with 65540.
  rewrite u32_small by (unfold zlen in *; lia).
  unfold encoding, zlen in *. rewrite app_nil_l, <-!app_assoc, !length_app, !be_bytes_length. split_and!; lia || done.
Qed.
