(* ===== verification/Session.v ===== *)
(** * Network session

    [Session] of [src/src/net/session.cpp]: the receive side is the frame
    decoder, the send side a queue of encoded frames of which the first may be
    partly sent.  Sizes are [std::size_t]; offsets into a frame are naturals. *)

From S2P Require Import Prelude Connection Wire FrameCodec.

Definition MAX_PENDING_SEND_BYTES := 1024 * 1024.

Record PendingSend := mkPendingSend { send_bytes : bytes; send_offset : nat }.

Record Session := mkSession {
  connection_id : ConnectionId;
  frame_decoder : FrameDecoder;
  send_queue : list PendingSend;
  pending_send_byte_count : Z;
  max_pending_send_bytes : Z
}.

Definition makeSession (connection : ConnectionId) (max : Z) : Session :=
  mkSession connection empty_decoder [] 0 max.

Definition with_sends (s : Session) (q : list PendingSend) (count : Z) : Session :=
  mkSession (connection_id s) (frame_decoder s) q count (max_pending_send_bytes s).

Definition appendReceivedBytes (s : Session) (bs : bytes) : option (DecodeResult * Session) :=
  '(result, d) ← append (frame_decoder s) bs;
  Some (result, mkSession (connection_id s) d (send_queue s) (pending_send_byte_count s) (max_pending_send_bytes s)).

Definition enqueueFrame (s : Session) (frame : Frame) : outcome (bool * Session) :=
  let! encoded_frame := encode_frame frame in
  if (max_pending_send_bytes s <? pending_send_byte_count s)
     || (u64 (max_pending_send_bytes s - pending_send_byte_count s) <? zlen encoded_frame)
  then Ret (false, s)
  else Ret (true, with_sends s (send_queue s ++ [mkPendingSend encoded_frame 0])
                    (u64 (pending_send_byte_count s + zlen encoded_frame))).

Definition hasPendingSend (s : Session) : bool := negb (bool_decide (length (send_queue s) = 0%nat)).

Definition getPendingSendByteCount (s : Session) : Z := pending_send_byte_count s.

Definition getPendingSendBytes (s : Session) : bytes :=
  match send_queue s with
  | [] => []
  | pending :: _ => drop (send_offset pending) (send_bytes pending)
  end.

Definition consumeSentBytes (s : Session) (byte_count : nat) : outcome (bool * Session) :=
  match send_queue s with
  | [] => Throw OutOfRange
  | pending :: rest =>
      throw_if (length (getPendingSendBytes s) <? byte_count)%nat OutOfRange
      (let pending1 := mkPendingSend (send_bytes pending) (send_offset pending + byte_count) in
       let count1 := u64 (pending_send_byte_count s - Z.of_nat byte_count) in
       if bool_decide (send_offset pending1 = length (send_bytes pending1))
       then Ret (true, with_sends s rest count1)
       else Ret (false, with_sends s (pending1 :: rest) count1))
  end.

(** ** Specification: a bounded FIFO of bytes *)

Definition unsent (p : PendingSend) : bytes := drop (send_offset p) (send_bytes p).
Definition outgoing (s : Session) : bytes := send_queue s ≫= unsent.

Record session_ok (s : Session) : Prop := {
  so_count : pending_send_byte_count s = zlen (outgoing s);
  so_bound : pending_send_byte_count s <= max_pending_send_bytes s <= SIZE_MAX;
  so_entries : Forall (fun p => (send_offset p < length (send_bytes p))%nat) (send_queue s)
}.

Lemma outgoing_app s p count :
  outgoing (with_sends s (send_queue s ++ [p]) count) = outgoing s ++ unsent p.
Proof. unfold outgoing; simpl. rewrite bind_app. simpl. by rewrite app_nil_r. Qed.

Lemma outgoing_cons s p rest count : outgoing (with_sends s (p :: rest) count) = unsent p ++ (rest ≫= unsent).
Proof. reflexivity. Qed.

Lemma enqueueFrame_spec s f :
  session_ok s →
  match enqueueFrame s f with
  | Throw e => encode_frame f = Throw e
  | Ret (accepted, s') =>
      ∃ bs, encode_frame f = Ret bs ∧ session_ok s' ∧ max_pending_send_bytes s' = max_pending_send_bytes s ∧
      frame_decoder s' = frame_decoder s ∧
      accepted = bool_decide (zlen (outgoing s) + zlen bs <= max_pending_send_bytes s) ∧
      if accepted then outgoing s' = outgoing s ++ bs else s' = s
  end.
Proof.
  intros Hs. pose proof Hs as [Hc Hb He]. unfold enqueueFrame.
  pose proof (encode_frame_total f) as Ht. destruct (encode_frame f) as [bs|e]; simpl; [|done].
  assert (Hnn : 0 <= pending_send_byte_count s) by (rewrite Hc; unfold zlen; lia).
  rewrite (proj2 (Z.ltb_ge _ _)) by lia. rewrite u64_small by lia. rewrite orb_false_l.
  destruct (_ <? zlen bs) eqn:E; to_prop; exists bs.
  - split_and!; try done. rewrite bool_decide_eq_false_2; [done|]. lia.
  - assert (Hout : ∀ n, outgoing (with_sends s (send_queue s ++ [mkPendingSend bs 0]) n) = outgoing s ++ bs)
      by (intros; rewrite outgoing_app; done).
    rewrite u64_small by (unfold zlen in *; lia). split_and!; try done.
    + constructor; [|simpl; lia|]; simpl.
      * rewrite Hout, Hc. unfold zlen. rewrite length_app. lia.
      * apply Forall_app. split; [done|]. constructor; [|constructor]. simpl.
        destruct Ht as (_ & _ & _ & Hl & _). unfold zlen in Hl. lia.
    + rewrite bool_decide_eq_true_2; [done|]. lia.
Qed.

Lemma consumeSentBytes_spec s n :
  session_ok s →
  match consumeSentBytes s n with
  | Throw e => e = OutOfRange ∧ (send_queue s = [] ∨ (length (getPendingSendBytes s) < n)%nat)
  | Ret (finished, s') =>
      (n <= length (getPendingSendBytes s))%nat ∧ session_ok s' ∧
      max_pending_send_bytes s' = max_pending_send_bytes s ∧ frame_decoder s' = frame_decoder s ∧
      outgoing s = take n (getPendingSendBytes s) ++ outgoing s' ∧
      finished = bool_decide (n = length (getPendingSendBytes s)) ∧
      length (send_queue s') = (length (send_queue s) - if finished then 1 else 0)%nat
  end.
Proof.
  intros [Hc Hb He]. unfold consumeSentBytes, getPendingSendBytes, outgoing in *.
  destruct (send_queue s) as [|p rest] eqn:Eq; [auto|]. apply Forall_cons in He as [Hp He].
  cbn [mbind list_bind] in Hc. fold (rest ≫= unsent) in Hc. unfold unsent at 1 in Hc.
  unfold throw_if. destruct (Nat.ltb_spec (length (drop (send_offset p) (send_bytes p))) n) as [Hlt|Hge]; [auto|].
  rewrite length_drop in Hge.
  assert (Hcount : pending_send_byte_count s = Z.of_nat (length (send_bytes p) - send_offset p) + zlen (rest ≫= unsent)).
  { rewrite Hc. unfold zlen. rewrite length_app, length_drop. lia. }
  assert (Hnn : 0 <= zlen (rest ≫= unsent)) by (unfold zlen; lia).
  rewrite u64_small by lia. cbn [send_offset send_bytes].
  case_bool_decide as Ef; simpl.
  - assert (Hn : n = length (drop (send_offset p) (send_bytes p))) by (rewrite length_drop; lia).
    split_and!; try done; try lia.
    + constructor; simpl; [unfold outgoing; simpl; lia|lia|done].
    + unfold unsent at 1. rewrite Hn at 1. by rewrite take_ge by lia.
    + by rewrite bool_decide_eq_true_2.
  - split_and!; try done; try (rewrite length_drop; lia).
    + constructor; simpl.
      * rewrite outgoing_cons. unfold zlen in *. unfold unsent at 1; cbn [send_offset send_bytes].
        rewrite length_app, length_drop. lia.
      * lia.
      * constructor; [simpl; lia|done].
    + unfold unsent; simpl. rewrite app_assoc. f_equal.
      rewrite <-(take_drop n (drop (send_offset p) (send_bytes p))) at 1. by rewrite drop_drop.
    + rewrite bool_decide_eq_false_2; [done|]. rewrite length_drop. lia.
Qed.

(** ** A sending session and a receiving one *)

(** What a connection does to the send side: queue a frame, or report that the
    kernel took [n] bytes of the pending ones. *)
Inductive SendOp := Enqueue (f : Frame) | Sent (n : nat).

(** The accepted frames, and the byte strings handed to the kernel, of a run. *)
Fixpoint session_run (s : Session) (ops : list SendOp) : outcome (list Frame * list bytes * Session) :=
  match ops with
  | [] => Ret ([], [], s)
  | Enqueue f :: ops' =>
      let! (accepted, s1) := enqueueFrame s f in
      let! (fs, cs, s2) := session_run s1 ops' in
      Ret ((if accepted then [f] else []) ++ fs, cs, s2)
  | Sent n :: ops' =>
      let chunk := take n (getPendingSendBytes s) in
      let! (_, s1) := consumeSentBytes s n in
      let! (fs, cs, s2) := session_run s1 ops' in
      Ret (fs, chunk :: cs, s2)
  end.

(** The arguments a caller can pass. *)
Definition op_ok (op : SendOp) : Prop :=
  match op with
  | Enqueue f => in_u32 (request_id f) ∧ bytes_ok (payload f)
  | Sent _ => True
  end.

Lemma session_run_stream s ops fs cs s' :
  session_ok s → Forall op_ok ops → session_run s ops = Ret (fs, cs, s') →
  session_ok s' ∧ max_pending_send_bytes s' = max_pending_send_bytes s ∧ Forall frame_ok fs ∧
  outgoing s ++ concat (encoding <$> fs) = concat cs ++ outgoing s'.
Proof.
  intros Hs Hops. revert s fs cs Hs. induction Hops as [|op ops Hop Hops IH]; intros s fs cs Hs; cbn [session_run].
  { intros [= <- <- <-]. simpl. by rewrite app_nil_r. }
  destruct op as [f|n].
  - pose proof (enqueueFrame_spec s f Hs) as He. destruct (enqueueFrame s f) as [[accepted s1]|e]; [|done].
    destruct He as (bs & Hbs & Hs1 & Hm & _ & _ & Hout). cbn [outcome_bind].
    destruct (session_run s1 ops) as [[[fs1 cs1] s2]|e] eqn:E; [|done]. intros [= <- <- <-].
    destruct (IH _ _ _ Hs1 E) as (Hs2 & Hm2 & Hf1 & Hst). rewrite Hm in Hm2. split_and!; try done.
    + apply Forall_app. split; [|done]. destruct accepted; [|constructor]. constructor; [|constructor].
      pose proof (encode_frame_total f) as Ht. rewrite Hbs in Ht. destruct Ht as (? & ? & _), Hop. by constructor.
    + destruct accepted; [|by subst s1]. rewrite Hout in Hst. rewrite fmap_app, concat_app, app_assoc, <-Hst. f_equal. f_equal.
      cbn [fmap list_fmap concat]. rewrite app_nil_r. pose proof (encode_frame_total f) as Ht. rewrite Hbs in Ht.
      by destruct Ht as (_ & _ & -> & _).
  - pose proof (consumeSentBytes_spec s n Hs) as Hc. destruct (consumeSentBytes s n) as [[finished s1]|e]; [|done].
    destruct Hc as (_ & Hs1 & Hm & _ & Hout & _). cbn [outcome_bind].
    destruct (session_run s1 ops) as [[[fs1 cs1] s2]|e] eqn:E; [|done]. intros [= <- <- <-].
    destruct (IH _ _ _ Hs1 E) as (Hs2 & Hm2 & Hf1 & Hst). rewrite Hm in Hm2. split_and!; try done.
    rewrite Hout. cbn [concat]. rewrite <-!app_assoc. by rewrite Hst.
Qed.

Lemma makeSession_ok connection max : in_u64 max → session_ok (makeSession connection max).
Proof. intros. constructor; simpl; [done|lia|constructor]. Qed.

(** A prefix of a stream of encodings yields a prefix of the frames. *)
Lemma parse_stream_prefix fs bs rest :
  Forall frame_ok fs → concat (encoding <$> fs) = bs ++ rest →
  ∃ fs1 fs2 tail, parse_stream bs = (fs1, None, tail) ∧ fs = fs1 ++ fs2 ∧ (rest = [] → fs2 = [] ∧ tail = []).
Proof.
  intros Hfs Hcut. pose proof (parse_stream_encodings fs [] Hfs eq_refl) as Hp. rewrite app_nil_r, Hcut in Hp.
  pose proof Hp as Hp'. rewrite parse_stream_app in Hp. destruct (parse_stream bs) as [[fs1 [e|]] tail] eqn:E; [done|].
  destruct (parse_stream (tail ++ rest)) as [[fs2 e2] tail2] eqn:E2. injection Hp as Hf He Ht.
  exists fs1, fs2, tail. split_and!; [done|done|]. intros ->. rewrite app_nil_r in Hp', E2.
  rewrite E in Hp'. injection Hp' as -> ->. split; [|done]. apply (app_inv_head fs). by rewrite app_nil_r.
Qed.

(** ** Theorems *)

(** A session's send side is a bounded FIFO of bytes.  Queueing a frame
    appends exactly its encoding when it fits the limit and otherwise changes
    nothing; reporting sent bytes removes exactly those from the front and says
    whether a frame was finished; over-reporting is an [out_of_range] error; the
    byte counter is always the true number of unsent bytes and never exceeds the
    limit. *)
Theorem session_send_fifo s f n :
  session_ok s →
  match enqueueFrame s f with
  | Throw e => encode_frame f = Throw e
  | Ret (accepted, s') =>
      ∃ bs, encode_frame f = Ret bs ∧ session_ok s' ∧
      accepted = bool_decide (zlen (outgoing s) + zlen bs <= max_pending_send_bytes s) ∧
      if accepted then outgoing s' = outgoing s ++ bs else s' = s
  end ∧
  match consumeSentBytes s n with
  | Throw e => e = OutOfRange ∧ (send_queue s = [] ∨ (length (getPendingSendBytes s) < n)%nat)
  | Ret (finished, s') =>
      (n <= length (getPendingSendBytes s))%nat ∧ session_ok s' ∧
      outgoing s = take n (getPendingSendBytes s) ++ outgoing s' ∧
      finished = bool_decide (n = length (getPendingSendBytes s)) ∧
      length (send_queue s') = (length (send_queue s) - if finished then 1 else 0)%nat
  end.
Proof.
  intros Hs. split.
  - pose proof (enqueueFrame_spec s f Hs) as He. destruct (enqueueFrame s f) as [[accepted s']|e]; [|done].
    destruct He as (bs & ? & ? & _ & _ & ? & ?). by exists bs.
  - pose proof (consumeSentBytes_spec s n Hs) as Hc. destruct (consumeSentBytes s n) as [[finished s']|e]; [|done].
    by destruct Hc as (? & ? & _ & _ & ? & ? & ?).
Qed.

Definition demo_session : Session := makeSession (mkConnectionId 5 1) 20.

Lemma session_send_fifo_witness :
  ∃ s', enqueueFrame demo_session demo_frame = Ret (true, s') ∧
  match enqueueFrame s' demo_frame with
  | Throw e => encode_frame demo_frame = Throw e
  | Ret (accepted, s'') =>
      ∃ bs, encode_frame demo_frame = Ret bs ∧ session_ok s'' ∧
      accepted = bool_decide (zlen (outgoing s') + zlen bs <= max_pending_send_bytes s') ∧
      if accepted then outgoing s'' = outgoing s' ++ bs else s'' = s'
  end.
Proof.
  eexists. split; [vm_compute; reflexivity|].
  apply (session_send_fifo _ demo_frame 0).
  constructor; [vm_compute; reflexivity|vm_compute; split; discriminate|repeat constructor].
Defined.

(** End to end, frames are neither lost, duplicated, reordered nor torn: for
    any mix of queueing and partial sends on one session, and any way the peer's
    reads cut the bytes sent so far, the peer's decoder returns exactly an
    initial part of the accepted frames without error, and all of them once the
    send queue is empty. *)
Theorem sessions_deliver connection max ops fs sent s reads :
  in_u64 max → Forall op_ok ops → session_run (makeSession connection max) ops = Ret (fs, sent, s) →
  concat reads = concat sent →
  ∃ received d, feed empty_decoder reads = Some (mkDecodeResult received None, d) ∧
    received `prefix_of` fs ∧ (send_queue s = [] → received = fs ∧ d = empty_decoder) ∧
    pending_send_byte_count s <= max.
Proof.
  intros Hmax Hops Hrun Hcut.
  destruct (session_run_stream _ _ _ _ _ (makeSession_ok connection max Hmax) Hops Hrun) as (Hs & Hm & Hfs & Hst).
  simpl in Hst, Hm. destruct (parse_stream_prefix fs (concat sent) (outgoing s) Hfs Hst)
    as (fs1 & fs2 & tail & Hp & -> & Hall).
  assert (Hreads : Forall bytes_ok reads).
  { apply concat_bytes_ok. rewrite Hcut. assert (Hok : bytes_ok (concat sent ++ outgoing s)).
    { rewrite <-Hst. apply concat_bytes_ok, Forall_fmap. eapply Forall_impl; [exact Hfs|]. intros. by apply encoding_ok. }
    by apply bytes_ok_app in Hok as [? _]. }
  exists fs1, (mkFrameDecoder tail 0). split_and!.
  - apply feed_spec; try done; [exact empty_decoder_ok|]. by rewrite Hcut.
  - by exists fs2.
  - intros Hq. destruct Hall as [-> ->]; [unfold outgoing; by rewrite Hq|]. by rewrite app_nil_r.
  - destruct Hs. lia.
Qed.

Definition demo_ops : list SendOp := [Enqueue demo_frame; Enqueue demo_frame; Sent 5; Sent 8].

Lemma sessions_deliver_witness :
  ∃ sent s, session_run demo_session demo_ops = Ret ([demo_frame], sent, s) ∧
  ∃ received d, feed empty_decoder [[0]; [0; 0; 9; 0; 1; 0; 0; 0; 7; 1; 2; 3]] = Some (mkDecodeResult received None, d) ∧
    received `prefix_of` [demo_frame] ∧ (send_queue s = [] → received = [demo_frame] ∧ d = empty_decoder) ∧
    pending_send_byte_count s <= 20.
Proof.
  do 2 eexists. split; [vm_compute; reflexivity|].
  eapply (sessions_deliver (mkConnectionId 5 1) 20 demo_ops [demo_frame]).
  - lia.
  - repeat constructor; simpl; discriminate.
  - vm_compute. reflexivity.
  - reflexivity.
Defined.
