(* ===== verification/Outbound.v ===== *)
(** * Outbound channel

    [OutboundChannel] of [src/src/server/outbound_channel.cpp]: a bounded queue
    of actions for the network thread, into which callers first reserve slots
    and wait, in turn, when none are free.  Every public method runs under the
    channel's mutex, so a method is one atomic step; the eventfd write of
    [signalWakeUp] is not part of the state.  A waiter's producer is a number;
    completing it is part of a method's result. *)

From S2P Require Import Prelude Connection Wire FrameCodec.

(** ** Actions and reservations *)

Inductive CloseReason := ProtocolError.

Inductive OutboundAction :=
| SendFrame (connection : ConnectionId) (frame : Frame)
| CloseConnection (connection : ConnectionId) (reason : CloseReason).

Record PostedOutboundAction := mkPosted { action : OutboundAction; posted_at : time_point }.

(** [valid] is [_channel != nullptr]. *)
Record OutboundReservation := mkReservation { valid : bool; connection : ConnectionId; remainingSlots : Z }.

Definition no_connection : ConnectionId := mkConnectionId (-1) 0.
Definition emptyReservation : OutboundReservation := mkReservation false no_connection 0.

Record ReservationTicket := mkTicket { ticket_value : Z; ticket_connection : ConnectionId }.

Definition ticket_valid (t : ReservationTicket) : bool := negb (ticket_value t =? 0).

(** ** State *)

Record OutboundChannelConfig := mkOutboundConfig {
  capacity : Z;
  max_slots_per_connection : Z;
  max_grants_per_turn : Z;
  max_waiters : Z;
  max_pending_admission_failures : Z
}.

Record Waiter := mkWaiter { waiter_ticket : Z; waiter_slots : Z; waiter_producer : Z }.

Record ConnectionUsage := mkUsage {
  queued : Z;
  reserved : Z;
  waiters : list Waiter;
  queued_for_grant : bool;
  erase_when_idle : bool
}.

(** The default member initialisers, which [operator[]] uses. *)
Definition freshUsage : ConnectionUsage := mkUsage 0 0 [] false true.

Record QueuedAction := mkQueued { queued_posted : PostedOutboundAction; queued_connection : ConnectionId }.

Record OutboundChannel := mkChannel {
  channel_config : OutboundChannelConfig;
  items : list QueuedAction;
  connections : gmap ConnectionId ConnectionUsage;
  grant_order : list ConnectionId;
  admission_failures : gset ConnectionId;
  reserved_slots : Z;
  waiter_count : Z;
  high_water_mark : Z;
  next_ticket : Z;
  admission_failure_overflowed : bool;
  cancelled : bool
}.

Definition set_items (q : list QueuedAction) (ch : OutboundChannel) : OutboundChannel :=
  mkChannel (channel_config ch) q (connections ch) (grant_order ch) (admission_failures ch) (reserved_slots ch)
    (waiter_count ch) (high_water_mark ch) (next_ticket ch) (admission_failure_overflowed ch) (cancelled ch).
Definition set_connections (m : gmap ConnectionId ConnectionUsage) (ch : OutboundChannel) : OutboundChannel :=
  mkChannel (channel_config ch) (items ch) m (grant_order ch) (admission_failures ch) (reserved_slots ch)
    (waiter_count ch) (high_water_mark ch) (next_ticket ch) (admission_failure_overflowed ch) (cancelled ch).
Definition set_usage (c : ConnectionId) (u : ConnectionUsage) (ch : OutboundChannel) : OutboundChannel :=
  set_connections (<[c := u]> (connections ch)) ch.
Definition set_grant_order (l : list ConnectionId) (ch : OutboundChannel) : OutboundChannel :=
  mkChannel (channel_config ch) (items ch) (connections ch) l (admission_failures ch) (reserved_slots ch)
    (waiter_count ch) (high_water_mark ch) (next_ticket ch) (admission_failure_overflowed ch) (cancelled ch).
Definition set_failures (s : gset ConnectionId) (overflowed : bool) (ch : OutboundChannel) : OutboundChannel :=
  mkChannel (channel_config ch) (items ch) (connections ch) (grant_order ch) s (reserved_slots ch)
    (waiter_count ch) (high_water_mark ch) (next_ticket ch) overflowed (cancelled ch).
Definition set_reserved_slots (n : Z) (ch : OutboundChannel) : OutboundChannel :=
  mkChannel (channel_config ch) (items ch) (connections ch) (grant_order ch) (admission_failures ch) n
    (waiter_count ch) (high_water_mark ch) (next_ticket ch) (admission_failure_overflowed ch) (cancelled ch).
Definition set_waiter_count (n : Z) (ch : OutboundChannel) : OutboundChannel :=
  mkChannel (channel_config ch) (items ch) (connections ch) (grant_order ch) (admission_failures ch) (reserved_slots ch)
    n (high_water_mark ch) (next_ticket ch) (admission_failure_overflowed ch) (cancelled ch).
Definition set_high_water_mark (n : Z) (ch : OutboundChannel) : OutboundChannel :=
  mkChannel (channel_config ch) (items ch) (connections ch) (grant_order ch) (admission_failures ch) (reserved_slots ch)
    (waiter_count ch) n (next_ticket ch) (admission_failure_overflowed ch) (cancelled ch).
Definition set_next_ticket (n : Z) (ch : OutboundChannel) : OutboundChannel :=
  mkChannel (channel_config ch) (items ch) (connections ch) (grant_order ch) (admission_failures ch) (reserved_slots ch)
    (waiter_count ch) (high_water_mark ch) n (admission_failure_overflowed ch) (cancelled ch).
Definition set_cancelled (ch : OutboundChannel) : OutboundChannel :=
  mkChannel (channel_config ch) (items ch) (connections ch) (grant_order ch) (admission_failures ch) (reserved_slots ch)
    (waiter_count ch) (high_water_mark ch) (next_ticket ch) (admission_failure_overflowed ch) true.

Definition with_queued (n : Z) (u : ConnectionUsage) : ConnectionUsage :=
  mkUsage n (reserved u) (waiters u) (queued_for_grant u) (erase_when_idle u).
Definition with_reserved (n : Z) (u : ConnectionUsage) : ConnectionUsage :=
  mkUsage (queued u) n (waiters u) (queued_for_grant u) (erase_when_idle u).
Definition with_waiters (l : list Waiter) (u : ConnectionUsage) : ConnectionUsage :=
  mkUsage (queued u) (reserved u) l (queued_for_grant u) (erase_when_idle u).
Definition with_queued_for_grant (b : bool) (u : ConnectionUsage) : ConnectionUsage :=
  mkUsage (queued u) (reserved u) (waiters u) b (erase_when_idle u).
Definition with_erase_when_idle (b : bool) (u : ConnectionUsage) : ConnectionUsage :=
  mkUsage (queued u) (reserved u) (waiters u) (queued_for_grant u) b.

(** [_connections[connection]], and the entry a lookup finds. *)
Definition usage_of (ch : OutboundChannel) (c : ConnectionId) : ConnectionUsage :=
  default freshUsage (connections ch !! c).

(** ** Operations *)

Definition makeOutboundChannel (config : OutboundChannelConfig) (wake_descriptor : Z) : outcome OutboundChannel :=
  throw_if ((capacity config =? 0) || (max_grants_per_turn config =? 0) || (max_waiters config =? 0)
            || (max_pending_admission_failures config =? 0) || (wake_descriptor <? 0)) InvalidArgument
  (throw_if ((max_slots_per_connection config =? 0) || (capacity config <? max_slots_per_connection config))
     InvalidArgument
  (Ret (mkChannel config [] ∅ [] ∅ 0 0 0 1 false false))).

Definition canEverReserve (ch : OutboundChannel) (slots : Z) : bool :=
  slots <=? max_slots_per_connection (channel_config ch).

Definition fits (ch : OutboundChannel) (u : ConnectionUsage) (slots : Z) : bool :=
  (u64 (u64 (zlen (items ch) + reserved_slots ch) + slots) <=? capacity (channel_config ch))
  && (u64 (u64 (queued u + reserved u) + slots) <=? max_slots_per_connection (channel_config ch)).

(** [markGrantable] on an entry of the map. *)
Definition markGrantable (ch : OutboundChannel) (c : ConnectionId) : OutboundChannel :=
  let u := usage_of ch c in
  if bool_decide (length (waiters u) = 0%nat) || queued_for_grant u then ch
  else set_grant_order (grant_order ch ++ [c]) (set_usage c (with_queued_for_grant true u) ch).

Definition idle (u : ConnectionUsage) : bool :=
  erase_when_idle u && (queued u =? 0) && (reserved u =? 0) && bool_decide (length (waiters u) = 0%nat)
  && negb (queued_for_grant u).

Definition eraseUsageIfIdle (ch : OutboundChannel) (c : ConnectionId) : OutboundChannel :=
  match connections ch !! c with
  | None => ch
  | Some u => if idle u then set_connections (delete c (connections ch)) ch else ch
  end.

Definition tryReserve (ch : OutboundChannel) (c : ConnectionId) (slots : Z)
    : option OutboundReservation * OutboundChannel :=
  if negb (canEverReserve ch slots) then (None, ch)
  else if cancelled ch then (None, ch)
  else if slots =? 0 then (Some (mkReservation true c 0), ch)
  else if negb (waiter_count ch =? 0) then (None, ch)
  else
    let u := usage_of ch c in
    let ch1 := set_usage c u ch in
    if negb (fits ch1 u slots) then (None, eraseUsageIfIdle ch1 c)
    else
      (Some (mkReservation true c slots),
       set_reserved_slots (u64 (reserved_slots ch1 + slots))
         (set_usage c (with_reserved (u64 (reserved u + slots)) u) ch1)).

(** The completed producers are part of the result.  (The ticket counter would
    have to wrap to 0 for the code to complete a producer it has moved from;
    completing such a producer is not represented.) *)
Definition registerWaiter (ch : OutboundChannel) (c : ConnectionId) (slots : Z) (producer : Z)
    : outcome (ReservationTicket * list (Z * OutboundReservation) * OutboundChannel) :=
  throw_if ((slots =? 0) || negb (canEverReserve ch slots)) LogicError
  (if cancelled ch then Ret (mkTicket 0 no_connection, [(producer, emptyReservation)], ch)
   else
     throw_if (waiter_count ch =? max_waiters (channel_config ch)) LogicError
     (let u := usage_of ch c in
      let ticket := mkTicket (next_ticket ch) c in
      let ch1 := set_next_ticket (u64 (next_ticket ch + 1))
                   (set_usage c (with_waiters (waiters u ++ [mkWaiter (ticket_value ticket) slots producer]) u) ch) in
      let ch2 := markGrantable (set_waiter_count (u64 (waiter_count ch1 + 1)) ch1) c in
      Ret (ticket, [], ch2))).

Fixpoint erase_waiter (ticket : Z) (l : list Waiter) : list Waiter :=
  match l with
  | [] => []
  | w :: l' => if waiter_ticket w =? ticket then l' else w :: erase_waiter ticket l'
  end.

Definition withdrawWaiter (ch : OutboundChannel) (t : ReservationTicket) : OutboundChannel :=
  if negb (ticket_valid t) then ch
  else
    match connections ch !! ticket_connection t with
    | None => ch
    | Some u =>
        if has_value (find_first (fun w => waiter_ticket w =? ticket_value t) (waiters u)) then
          let ch1 := set_usage (ticket_connection t) (with_waiters (erase_waiter (ticket_value t) (waiters u)) u) ch in
          eraseUsageIfIdle (set_waiter_count (u64 (waiter_count ch1 - 1)) ch1) (ticket_connection t)
        else ch
    end.

(** The clock reading is an argument. *)
Definition commit (ch : OutboundChannel) (r : OutboundReservation) (a : OutboundAction) (now : time_point)
    : outcome (bool * OutboundReservation * OutboundChannel) :=
  throw_if (negb (valid r) || (remainingSlots r =? 0)) LogicError
  (if cancelled ch then Ret (false, r, ch)
   else
     match connections ch !! connection r with
     | None => Throw LogicError
     | Some u =>
         throw_if (reserved u =? 0) LogicError
         (let ch1 := set_items (items ch ++ [mkQueued (mkPosted a now) (connection r)]) ch in
          let u1 := with_queued (u64 (queued u + 1)) (with_reserved (u64 (reserved u - 1)) u) in
          let ch2 := set_reserved_slots (u64 (reserved_slots ch1 - 1)) (set_usage (connection r) u1 ch1) in
          let r1 := mkReservation (valid r) (connection r) (u64 (remainingSlots r - 1)) in
          let ch3 := if high_water_mark ch2 <? zlen (items ch2) then set_high_water_mark (zlen (items ch2)) ch2
                     else ch2 in
          Ret (true, r1, ch3))
     end).

Definition takeFront (ch : OutboundChannel) : option PostedOutboundAction * OutboundChannel :=
  match items ch with
  | [] => (None, ch)
  | q :: rest =>
      let ch1 := set_items rest ch in
      let c := queued_connection q in
      match connections ch1 !! c with
      | None => (Some (queued_posted q), ch1)
      | Some u =>
          let u1 := if queued u =? 0 then u else with_queued (u64 (queued u - 1)) u in
          (Some (queued_posted q), eraseUsageIfIdle (markGrantable (set_usage c u1 ch1) c) c)
      end
  end.

Definition tryPop : OutboundChannel → option PostedOutboundAction * OutboundChannel := takeFront.

Fixpoint drainInto (ch : OutboundChannel) (max_actions : nat) : list PostedOutboundAction * OutboundChannel :=
  match max_actions with
  | O => ([], ch)
  | S n =>
      match takeFront ch with
      | (None, ch1) => ([], ch1)
      | (Some posted, ch1) => let '(rest, ch2) := drainInto ch1 n in (posted :: rest, ch2)
      end
  end.

Definition trackConnection (ch : OutboundChannel) (c : ConnectionId) : OutboundChannel :=
  set_usage c (with_erase_when_idle false (usage_of ch c)) ch.

Definition forgetConnection (ch : OutboundChannel) (c : ConnectionId) : OutboundChannel :=
  match connections ch !! c with
  | None => ch
  | Some u => eraseUsageIfIdle (set_usage c (with_erase_when_idle true u) ch) c
  end.

(** An award: the producer to complete and the reservation it receives. *)
Abbreviation Award := (Z * OutboundReservation)%type.

Definition requeue (c : ConnectionId) (u : ConnectionUsage) (ch : OutboundChannel) : OutboundChannel :=
  set_grant_order (grant_order ch ++ [c]) (set_usage c (with_queued_for_grant true u) ch).

(** The loop of [grantPending]; [remaining_rotations] decreases every round. *)
Fixpoint grant_loop (remaining_rotations : nat) (examined : Z) (awards : list Award) (ch : OutboundChannel)
    : list Award * OutboundChannel :=
  match remaining_rotations with
  | O => (awards, ch)
  | S n =>
      if (zlen awards <? max_grants_per_turn (channel_config ch)) && (examined <? max_grants_per_turn (channel_config ch))
      then
        match grant_order ch with
        | [] => (awards, ch)
        | c :: order =>
            let ch1 := set_grant_order order ch in
            match connections ch1 !! c with
            | None => grant_loop n (examined + 1) awards ch1
            | Some u =>
                let u1 := with_queued_for_grant false u in
                let ch2 := set_usage c u1 ch1 in
                match waiters u1 with
                | [] => grant_loop n (examined + 1) awards (eraseUsageIfIdle ch2 c)
                | head :: others =>
                    if negb (fits ch2 u1 (waiter_slots head))
                    then grant_loop n (examined + 1) awards (requeue c u1 ch2)
                    else
                      let u2 := with_waiters others (with_reserved (u64 (reserved u1 + waiter_slots head)) u1) in
                      let ch3 := set_waiter_count (u64 (waiter_count ch2 - 1))
                                   (set_reserved_slots (u64 (reserved_slots ch2 + waiter_slots head))
                                      (set_usage c u2 ch2)) in
                      let award := (waiter_producer head, mkReservation true c (waiter_slots head)) in
                      let ch4 := if bool_decide (length others = 0%nat) then ch3 else requeue c u2 ch3 in
                      grant_loop n (examined + 1) (awards ++ [award]) ch4
                end
            end
        end
      else (awards, ch)
  end.

Definition grantPending (ch : OutboundChannel) : list Award * OutboundChannel :=
  if cancelled ch then ([], ch) else grant_loop (length (grant_order ch)) 0 [] ch.

(** The order in which the hash set enumerates is unspecified; [elements] is one. *)
Definition takePendingAdmissionFailures (ch : OutboundChannel) : list ConnectionId * bool * OutboundChannel :=
  (elements (admission_failures ch), admission_failure_overflowed ch, set_failures ∅ false ch).

Definition reportAdmissionFailure (ch : OutboundChannel) (c : ConnectionId) : OutboundChannel :=
  if bool_decide (c ∈ admission_failures ch) then ch
  else if Z.of_nat (size (admission_failures ch)) =? max_pending_admission_failures (channel_config ch)
  then set_failures (admission_failures ch) true ch
  else set_failures ({[ c ]} ∪ admission_failures ch) (admission_failure_overflowed ch) ch.

(** The discarded actions' number and the producers to complete with an empty
    reservation, in the enumeration order of the hash map. *)
Definition clear_usage (u : ConnectionUsage) : ConnectionUsage :=
  mkUsage 0 (reserved u) [] false (erase_when_idle u).

Definition cancel (ch : OutboundChannel) : Z * list Award * OutboundChannel :=
  let producers := map_to_list (connections ch) ≫= (fun cu => waiter_producer <$> waiters cu.2) in
  (zlen (items ch), (fun p => (p, emptyReservation)) <$> producers,
   set_waiter_count 0 (set_connections (clear_usage <$> connections ch)
     (set_grant_order [] (set_items [] (set_cancelled ch))))).

Definition returnSlots (ch : OutboundChannel) (c : ConnectionId) (slots : Z) : OutboundChannel :=
  let ch1 := set_reserved_slots (if slots <=? reserved_slots ch then u64 (reserved_slots ch - slots) else 0) ch in
  match connections ch1 !! c with
  | None => ch1
  | Some u =>
      let u1 := with_reserved (if slots <=? reserved u then u64 (reserved u - slots) else 0) u in
      eraseUsageIfIdle (markGrantable (set_usage c u1 ch1) c) c
  end.

(** [OutboundReservation::returnRemainingSlots], which the destructor runs. *)
Definition returnRemainingSlots (ch : OutboundChannel) (r : OutboundReservation)
    : OutboundReservation * OutboundChannel :=
  (mkReservation false (connection r) 0,
   if valid r && negb (remainingSlots r =? 0) then returnSlots ch (connection r) (remainingSlots r) else ch).

(** [send_one_frame] of [outbound_sink.hpp]: the reservation it does not use up
    is destroyed on return. *)
Definition send_one_frame (ch : OutboundChannel) (c : ConnectionId) (f : Frame) (now : time_point)
    : outcome (bool * OutboundChannel) :=
  match tryReserve ch c 1 with
  | (None, ch1) => Ret (false, reportAdmissionFailure ch1 c)
  | (Some r, ch1) =>
      let! (ok, r1, ch2) := commit ch1 r (SendFrame c f) now in
      let ch3 := if ok then ch2 else reportAdmissionFailure ch2 c in
      Ret (ok, (returnRemainingSlots ch3 r1).2)
  end.
