(* ===== verification/OutboundSpec.v ===== *)
(** * Outbound channel: accounting, order and progress

    The invariant ties the channel's counters to its queue and to the
    reservations its clients hold; every operation keeps it. *)

From S2P Require Import Prelude Connection Wire FrameCodec Outbound.

(** ** Accounting *)

Definition queued_by (c : ConnectionId) (q : list QueuedAction) : Z :=
  zsum (fun a => if decide (queued_connection a = c) then 1 else 0) q.

Definition held_by (c : ConnectionId) (held : list OutboundReservation) : Z :=
  zsum (fun r => if decide (connection r = c) then remainingSlots r else 0) held.

Definition held_total (held : list OutboundReservation) : Z := zsum remainingSlots held.

Definition total_waiters (m : gmap ConnectionId ConnectionUsage) : Z :=
  map_fold (fun _ u n => zlen (waiters u) + n) 0 m.

Record channel_config_ok (c : OutboundChannelConfig) : Prop := {
  cc_capacity : 0 < capacity c ∧ 2 * capacity c <= U64_MAX;
  cc_slots : 0 < max_slots_per_connection c <= capacity c;
  cc_grants : 0 < max_grants_per_turn c;
  cc_waiters : 0 < max_waiters c < U64_MAX;
  cc_failures : 0 < max_pending_admission_failures c
}.

(** One connection's counters against the queue, the reservations and the
    grant order. *)
Record usage_ok (ch : OutboundChannel) (held : list OutboundReservation) (c : ConnectionId) (u : ConnectionUsage) : Prop := {
  uo_queued : queued u = queued_by c (items ch);
  uo_reserved : reserved u = held_by c held;
  uo_limit : queued u + reserved u <= max_slots_per_connection (channel_config ch);
  uo_waiters : Forall (fun w => 0 < waiter_slots w <= max_slots_per_connection (channel_config ch)) (waiters u);
  uo_listed : waiters u ≠ [] → queued_for_grant u = true;
  uo_order : queued_for_grant u = true ↔ c ∈ grant_order ch
}.

Record channel_ok (ch : OutboundChannel) (held : list OutboundReservation) : Prop := {
  ch_config : channel_config_ok (channel_config ch);
  ch_reserved : reserved_slots ch = held_total held;
  ch_capacity : zlen (items ch) + reserved_slots ch <= capacity (channel_config ch);
  ch_usage : ∀ c, usage_ok ch held c (usage_of ch c);
  ch_order : NoDup (grant_order ch);
  ch_waiters : waiter_count ch = total_waiters (connections ch);
  ch_waiter_limit : waiter_count ch <= max_waiters (channel_config ch);
  ch_held : Forall (fun r => 0 <= remainingSlots r ∧ (valid r = false → remainingSlots r = 0)) held;
  ch_high : zlen (items ch) <= high_water_mark ch <= capacity (channel_config ch);
  ch_failures : Z.of_nat (size (admission_failures ch)) <= max_pending_admission_failures (channel_config ch)
}.

Lemma usage_of_set ch c u c' : usage_of (set_usage c u ch) c' = if decide (c = c') then u else usage_of ch c'.
Proof. unfold usage_of; simpl. rewrite lookup_insert. by destruct (decide (c = c')). Qed.

Lemma usage_of_lookup ch c u : connections ch !! c = Some u → usage_of ch c = u.
Proof. unfold usage_of. by intros ->. Qed.

Lemma total_waiters_insert m c u :
  total_waiters (<[c := u]> m) = total_waiters m - zlen (waiters (default freshUsage (m !! c))) + zlen (waiters u).
Proof.
  unfold total_waiters. destruct (m !! c) as [v|] eqn:E; simpl.
  - rewrite <-(insert_delete_id m c v E) at 2. rewrite <-insert_delete_eq.
    rewrite !map_fold_insert_L by (try apply lookup_delete_eq; intros; lia). lia.
  - rewrite map_fold_insert_L by (done || (intros; lia)). unfold zlen; simpl. lia.
Qed.

Lemma total_waiters_nonneg m : 0 <= total_waiters m.
Proof.
  induction m as [|c u m Hm IH] using map_ind; [done|].
  rewrite total_waiters_insert, Hm. unfold zlen in *; simpl. lia.
Qed.

Lemma total_waiters_delete m c u :
  m !! c = Some u → waiters u = [] → total_waiters (delete c m) = total_waiters m.
Proof.
  intros Hu Hw. pose proof (total_waiters_insert (delete c m) c u) as Hi.
  rewrite insert_delete_id, lookup_delete_eq, Hw in Hi by done. unfold zlen in Hi; simpl in Hi. lia.
Qed.

(** Erasing an idle entry changes nothing observable: the entry equals the one
    a later lookup would create. *)
Lemma idle_fresh u : idle u = true → u = freshUsage.
Proof.
  unfold idle. intros. to_prop. destruct u as [q r w g e]; simpl in *.
  apply bool_decide_eq_true, nil_length_inv in H1. unfold freshUsage. congruence.
Qed.

Lemma eraseUsageIfIdle_frame ch c :
  let ch' := eraseUsageIfIdle ch c in
  (∀ c', usage_of ch' c' = usage_of ch c') ∧ total_waiters (connections ch') = total_waiters (connections ch) ∧
  (channel_config ch', items ch', grant_order ch', admission_failures ch', reserved_slots ch', waiter_count ch',
   high_water_mark ch', next_ticket ch', admission_failure_overflowed ch', cancelled ch')
  = (channel_config ch, items ch, grant_order ch, admission_failures ch, reserved_slots ch, waiter_count ch,
     high_water_mark ch, next_ticket ch, admission_failure_overflowed ch, cancelled ch).
Proof.
  unfold eraseUsageIfIdle. destruct (connections ch !! c) as [u|] eqn:E; [|done].
  destruct (idle u) eqn:Ei; [|done]. apply idle_fresh in Ei. subst u. split_and!; [|by eapply total_waiters_delete|done].
  intros c'. unfold usage_of; simpl. rewrite lookup_delete. destruct (decide (c = c')) as [<-|]; [by rewrite E|done].
Qed.

(** Two channels with the same observations satisfy the invariant together. *)
Lemma channel_ok_observed ch ch' held :
  (∀ c, usage_of ch' c = usage_of ch c) → total_waiters (connections ch') = total_waiters (connections ch) →
  (channel_config ch', items ch', grant_order ch', admission_failures ch', reserved_slots ch', waiter_count ch',
   high_water_mark ch')
  = (channel_config ch, items ch, grant_order ch, admission_failures ch, reserved_slots ch, waiter_count ch,
     high_water_mark ch) →
  channel_ok ch held → channel_ok ch' held.
Proof.
  intros Hu Ht [= E1 E2 E3 E4 E5 E6 E7] []. constructor; rewrite ?E1, ?E2, ?E3, ?E4, ?E5, ?E6, ?E7, ?Ht; try done.
  intros c. rewrite Hu. destruct (ch_usage0 c). constructor; by rewrite ?E1, ?E2, ?E3.
Qed.

Lemma channel_ok_erase ch c held : channel_ok ch held → channel_ok (eraseUsageIfIdle ch c) held.
Proof.
  destruct (eraseUsageIfIdle_frame ch c) as (Hu & Ht & [= E1 E2 E3 E4 E5 E6 E7 E8 E9 E10]).
  apply channel_ok_observed; congruence.
Qed.

(** A connection whose waiters are listed needs no marking. *)
Lemma markGrantable_listed ch c :
  (waiters (usage_of ch c) ≠ [] → queued_for_grant (usage_of ch c) = true) → markGrantable ch c = ch.
Proof.
  intros Hl. unfold markGrantable. destruct (waiters (usage_of ch c)) as [|w l]; [done|].
  rewrite Hl by done. by rewrite orb_true_r.
Qed.

(** The sums are bounded and do not wrap. *)
Lemma held_by_bounds c held :
  Forall (fun r => 0 <= remainingSlots r ∧ (valid r = false → remainingSlots r = 0)) held →
  0 <= held_by c held <= held_total held.
Proof.
  intros Hh. unfold held_by, held_total. split.
  - apply zsum_nonneg. eapply Forall_impl; [exact Hh|]. intros r [? _]. simpl. case_decide; lia.
  - apply zsum_le. rewrite Forall_forall in Hh. intros r Hr. destruct (Hh r Hr). case_decide; lia.
Qed.

Lemma held_by_elem r held :
  Forall (fun r => 0 <= remainingSlots r ∧ (valid r = false → remainingSlots r = 0)) held → r ∈ held →
  remainingSlots r <= held_by (connection r) held.
Proof.
  induction 1 as [|x held [Hx _] Hh IH]; [by intros ?%elem_of_nil|].
  pose proof (held_by_bounds (connection r) held Hh). unfold held_by in *.
  intros [->|Hr]%elem_of_cons; simpl; [rewrite decide_True by done; lia|]. specialize (IH Hr). case_decide; lia.
Qed.

Lemma queued_by_bounds c q : 0 <= queued_by c q <= zlen q.
Proof.
  unfold queued_by, zlen. induction q as [|a q IH]; simpl; [lia|]. case_decide; lia.
Qed.

(** The numeric facts every step uses. *)
Record channel_bounds (ch : OutboundChannel) (held : list OutboundReservation) : Prop := {
  cb_items : 0 <= zlen (items ch);
  cb_reserved : 0 <= reserved_slots ch;
  cb_sum : zlen (items ch) + reserved_slots ch <= capacity (channel_config ch);
  cb_capacity : 2 * capacity (channel_config ch) <= U64_MAX;
  cb_slots : 0 < max_slots_per_connection (channel_config ch) <= capacity (channel_config ch)
}.

Lemma channel_ok_bounds ch held : channel_ok ch held → channel_bounds ch held.
Proof.
  intros []. pose proof (held_by_bounds no_connection held ch_held0). destruct ch_config0.
  constructor; try lia. unfold zlen; lia.
Qed.

Lemma fits_spec ch held c slots :
  channel_ok ch held → 0 <= slots <= max_slots_per_connection (channel_config ch) →
  fits ch (usage_of ch c) slots = true ↔
  zlen (items ch) + reserved_slots ch + slots <= capacity (channel_config ch) ∧
  queued (usage_of ch c) + reserved (usage_of ch c) + slots <= max_slots_per_connection (channel_config ch).
Proof.
  intros Hok Hs. destruct (channel_ok_bounds ch held Hok). destruct (ch_usage _ _ Hok c) as [Hq Hr Hl _ _ _].
  pose proof (queued_by_bounds c (items ch)). pose proof (held_by_bounds c held (ch_held _ _ Hok)).
  unfold fits. rewrite (u64_small (zlen (items ch) + reserved_slots ch)) by lia.
  rewrite (u64_small (queued (usage_of ch c) + reserved (usage_of ch c))) by lia.
  rewrite !u64_small by lia. rewrite andb_true_iff, !Z.leb_le. done.
Qed.

(** ** Every operation keeps the accounts *)

(** An operation that touches one connection's entry. *)
Lemma channel_ok_update ch ch' held held' c u :
  channel_ok ch held → channel_config ch' = channel_config ch →
  connections ch' = <[c := u]> (connections ch) →
  usage_ok ch' held' c u →
  (∀ c', c' ≠ c → queued_by c' (items ch') = queued_by c' (items ch) ∧ held_by c' held' = held_by c' held ∧
     (c' ∈ grant_order ch' ↔ c' ∈ grant_order ch)) →
  reserved_slots ch' = held_total held' →
  zlen (items ch') + reserved_slots ch' <= capacity (channel_config ch) →
  NoDup (grant_order ch') →
  waiter_count ch' = waiter_count ch - zlen (waiters (usage_of ch c)) + zlen (waiters u) →
  waiter_count ch' <= max_waiters (channel_config ch) →
  Forall (fun r => 0 <= remainingSlots r ∧ (valid r = false → remainingSlots r = 0)) held' →
  zlen (items ch') <= high_water_mark ch' <= capacity (channel_config ch) →
  admission_failures ch' = admission_failures ch →
  channel_ok ch' held'.
Proof.
  intros [] Hcfg Hconn Hu Hother Hr Hcap Hnd Hw Hwl Hh Hhw Hf. constructor; rewrite ?Hcfg, ?Hf; try done.
  - intros c'. assert (Huse : usage_of ch' c' = if decide (c = c') then u else usage_of ch c').
    { unfold usage_of. rewrite Hconn, lookup_insert. by destruct (decide (c = c')). }
    rewrite Huse. destruct (decide (c = c')) as [<-|Hne]; [done|].
    destruct (Hother c' ltac:(done)) as (Hq & Hhb & Ho). destruct (ch_usage0 c').
    constructor; by rewrite ?Hcfg, ?Hq, ?Hhb, ?Ho.
  - rewrite Hconn, total_waiters_insert. fold (usage_of ch c). lia.
Qed.

(** Installing an entry that is already there. *)
Lemma channel_ok_touch ch c held : channel_ok ch held → channel_ok (set_usage c (usage_of ch c) ch) held.
Proof.
  apply channel_ok_observed; [|simpl|done].
  - intros c'. rewrite usage_of_set. by destruct (decide (c = c')) as [->|].
  - rewrite total_waiters_insert. fold (usage_of ch c). lia.
Qed.

Lemma held_by_cons c r held :
  held_by c (r :: held) = (if decide (connection r = c) then remainingSlots r else 0) + held_by c held.
Proof. reflexivity. Qed.

Lemma tryReserve_ok ch held c slots o ch' :
  channel_ok ch held → 0 <= slots → tryReserve ch c slots = (o, ch') →
  match o with
  | Some r => r = mkReservation true c slots ∧ channel_ok ch' (r :: held)
  | None => channel_ok ch' held
  end.
Proof.
  intros Hok Hs. unfold tryReserve, canEverReserve. split_if; to_prop; [by intros [= <- <-]|].
  split_if; [by intros [= <- <-]|]. destruct (slots =? 0) eqn:E0; to_prop.
  { intros [= <- <-]. subst slots. split; [done|]. destruct Hok. constructor; try done.
    - intros c'. destruct (ch_usage0 c'). constructor; try done. rewrite held_by_cons. cbn [connection remainingSlots emptyReservation]. case_decide; lia.
    - constructor; [|done]. simpl. lia. }
  split_if; [by intros [= <- <-]|]. set (u := usage_of ch c). pose proof (channel_ok_touch ch c held Hok) as Ht.
  fold u in Ht. set (ch1 := set_usage c u ch) in *.
  assert (Hu1 : usage_of ch1 c = u) by (unfold ch1; rewrite usage_of_set; by rewrite decide_True).
  destruct (fits ch1 u slots) eqn:Ef; cbn [negb].
  2:{ intros [= <- <-]. by apply channel_ok_erase. }
  intros [= <- <-]. split; [done|]. rewrite <-Hu1 in Ef. apply (fits_spec ch1 held) in Ef as [F1 F2]; [|done|simpl; lia].
  rewrite Hu1 in F2. pose proof (channel_ok_bounds _ _ Ht) as [B1 B2 B3 B4 B5].
  pose proof (ch_usage _ _ Ht c) as Huo. rewrite Hu1 in Huo. pose proof Huo as [Hq Hr Hl Hw Hli Ho].
  pose proof (held_by_bounds c held (ch_held _ _ Hok)) as Hhb. pose proof (queued_by_bounds c (items ch)) as Hqb.
  pose proof (ch_reserved _ _ Hok) as Hres. simpl in *.
  rewrite (u64_small (reserved_slots ch + slots)), (u64_small (reserved u + slots)) by lia.
  eapply (channel_ok_update ch1 _ held _ c); try done; simpl; try apply Hok.
  - constructor; simpl; try done; [rewrite held_by_cons; simpl; rewrite decide_True by done; lia|lia].
  - intros c' Hne. split_and!; try done. rewrite held_by_cons; simpl. rewrite decide_False by congruence. lia.
  - unfold held_total in *. simpl. lia.
  - lia.
  - rewrite Hu1. lia.
  - constructor; [simpl; lia|apply Hok].
Qed.

Lemma registerWaiter_ok ch held c slots producer t done ch' :
  channel_ok ch held → 0 <= slots → registerWaiter ch c slots producer = Ret (t, done, ch') →
  channel_ok ch' (done.*2 ++ held).
Proof.
  intros Hok Hs. unfold registerWaiter, canEverReserve. rewrite throw_if_ret. intros [Hg Hr].
  apply orb_false_elim in Hg as [Hz Hcan]. to_prop. destruct (cancelled ch).
  { injection Hr as <- <- <-. simpl. destruct Hok. constructor; try done.
    - intros c'. destruct (ch_usage0 c'). constructor; try done. rewrite held_by_cons. cbn [connection remainingSlots emptyReservation]. case_decide; lia.
    - constructor; [|done]. simpl. lia. }
  rewrite throw_if_ret in Hr. destruct Hr as [Hlim Hr]. to_prop. injection Hr as <- <- <-. cbn [fmap list_fmap app ticket_value].
  set (u := usage_of ch c). set (w := mkWaiter (next_ticket ch) slots producer).
  pose proof (ch_usage _ _ Hok c) as Huo. fold u in Huo. pose proof Huo as [Hq Hr Hl Hw Hli Ho].
  pose proof Hok as [Hc _ _ _ Hnd Hwc Hwl _ Hhw _]. destruct Hc.
  assert (Hwn : 0 <= waiter_count ch).
  { rewrite Hwc. apply total_waiters_nonneg. }
  unfold markGrantable. match goal with |- context [usage_of ?x c] =>
    change (usage_of x c) with (usage_of (set_usage c (with_waiters (waiters u ++ [w]) u) ch) c) end.
  rewrite usage_of_set, decide_True by done. simpl. rewrite (u64_small (waiter_count ch + 1)) by lia.
  rewrite bool_decide_eq_false_2 by (rewrite length_app; simpl; lia). rewrite orb_false_l.
  assert (Hws : Forall (fun w => 0 < waiter_slots w <= max_slots_per_connection (channel_config ch)) (waiters u ++ [w])).
  { apply Forall_app. split; [done|]. constructor; [simpl; lia|constructor]. }
  assert (Hlen : zlen (waiters u ++ [w]) = zlen (waiters u) + 1) by (unfold zlen; rewrite length_app; simpl; lia).
  destruct (queued_for_grant u) eqn:Eg; simpl.
  - eapply (channel_ok_update ch _ held _ c); try done; simpl; try apply Hok; try lia.
    + constructor; simpl; rewrite ?Eg; done.
    + fold u. lia.
  - eapply (channel_ok_update ch _ held _ c (with_queued_for_grant true (with_waiters (waiters u ++ [w]) u)));
      try done; simpl; try apply Hok; try lia.
    + by rewrite insert_insert_eq.
    + constructor; simpl; try done. split; [intros _|done]. apply elem_of_app. right. by apply list_elem_of_singleton.
    + intros c' Hne. split_and!; try done. rewrite elem_of_app, list_elem_of_singleton. naive_solver.
    + apply NoDup_app. split_and!; [done| |apply NoDup_singleton].
      intros x Hx ->%list_elem_of_singleton. apply Ho in Hx. congruence.
    + fold u. lia.
Qed.

Lemma erase_waiter_spec ticket l :
  has_value (find_first (fun w => waiter_ticket w =? ticket) l) = true →
  sublist (erase_waiter ticket l) l ∧ zlen (erase_waiter ticket l) = zlen l - 1.
Proof.
  unfold zlen. induction l as [|w l IH]; simpl; [done|]. split_if; [intros _; split; [by apply sublist_cons|simpl; lia]|].
  intros Hf. destruct (IH Hf) as [Hs Hl]. split; [by constructor|]. simpl. lia.
Qed.

Lemma withdrawWaiter_ok ch held t : channel_ok ch held → channel_ok (withdrawWaiter ch t) held.
Proof.
  intros Hok. unfold withdrawWaiter. split_if; [done|].
  destruct (connections ch !! ticket_connection t) as [u|] eqn:E; [|done]. apply usage_of_lookup in E.
  destruct (has_value _) eqn:Ef; [|done]. apply erase_waiter_spec in Ef as [Hsub Hlen]. apply channel_ok_erase.
  pose proof (ch_usage _ _ Hok (ticket_connection t)) as Huo. rewrite E in Huo. pose proof Huo as [Hq Hr Hl Hw Hli Ho].
  pose proof Hok as [Hc _ _ _ Hnd Hwc Hwl _ Hhw _]. destruct Hc.
  assert (Hwn : zlen (waiters u) <= waiter_count ch).
  { rewrite Hwc. pose proof (total_waiters_insert (connections ch) (ticket_connection t) freshUsage) as Hi.
    fold (usage_of ch (ticket_connection t)) in Hi. rewrite E in Hi.
    pose proof (total_waiters_nonneg (<[ticket_connection t := freshUsage]> (connections ch))).
    unfold zlen in *; simpl in *. lia. }
  assert (0 <= zlen (erase_waiter (ticket_value t) (waiters u))) by (unfold zlen; lia).
  simpl. rewrite (u64_small (waiter_count ch - 1)) by lia.
  eapply (channel_ok_update ch _ held _ (ticket_connection t)); try done; simpl; try apply Hok; try lia.
  - constructor; simpl; try done.
    + by eapply Forall_sublist.
    + intros Hne. apply Hli. intros Hnil. by rewrite Hnil in Hne.
  - rewrite E. lia.
Qed.

(** A held reservation is worth its slots: committing through it succeeds
    unless the channel is cancelled. *)
Lemma commit_ok ch held i r a now :
  channel_ok ch held → held !! i = Some r →
  match commit ch r a now with
  | Throw e => e = LogicError ∧ remainingSlots r = 0
  | Ret (ok, r', ch') =>
      channel_ok ch' (<[i := r']> held) ∧ 0 < remainingSlots r ∧ ok = negb (cancelled ch) ∧
      cancelled ch' = cancelled ch ∧ grant_order ch' = grant_order ch ∧
      if ok then remainingSlots r' = remainingSlots r - 1 ∧ connection r' = connection r ∧
                 items ch' = items ch ++ [mkQueued (mkPosted a now) (connection r)]
      else r' = r ∧ ch' = ch
  end.
Proof.
  intros Hok Hi. unfold commit, throw_if.
  assert (Hr : 0 <= remainingSlots r ∧ (valid r = false → remainingSlots r = 0)).
  { pose proof (ch_held _ _ Hok) as Hh. rewrite Forall_forall in Hh. apply Hh. by eapply list_elem_of_lookup_2. }
  destruct (negb (valid r) || (remainingSlots r =? 0)) eqn:Eg.
  { split; [done|]. apply orb_true_iff in Eg as [Eg|Eg]; to_prop; [by apply Hr|done]. }
  to_prop. destruct (cancelled ch) eqn:Ec.
  { rewrite list_insert_id by done. split_and!; try done. lia. }
  set (c := connection r). pose proof (ch_usage _ _ Hok c) as [Hq Hre Hl Hw Hli Ho].
  pose proof (ch_held _ _ Hok) as Hh.
  assert (Hge : remainingSlots r <= held_by c held).
  { apply held_by_elem; [done|]. by eapply list_elem_of_lookup_2. }
  destruct (connections ch !! c) as [u|] eqn:E.
  2:{ unfold usage_of in Hre. rewrite E in Hre. simpl in Hre. lia. }
  apply usage_of_lookup in E. rewrite E in *. rewrite (proj2 (Z.eqb_neq _ _)) by lia.
  pose proof (channel_ok_bounds _ _ Hok) as [B1 B2 B3 B4 B5]. pose proof (queued_by_bounds c (items ch)) as Hqb.
  pose proof (held_by_bounds c held Hh) as Hhb. pose proof (ch_reserved _ _ Hok) as Hres.
  pose proof (ch_high _ _ Hok) as Hhw. simpl.
  rewrite (u64_small (queued u + 1)), (u64_small (reserved u - 1)), (u64_small (reserved_slots ch - 1)),
    (u64_small (remainingSlots r - 1)) by lia.
  set (q := mkQueued (mkPosted a now) c). set (r1 := mkReservation (valid r) c (remainingSlots r - 1)).
  assert (Hlen : zlen (items ch ++ [q]) = zlen (items ch) + 1) by (unfold zlen; rewrite length_app; simpl; lia).
  assert (Hupd : ∀ hw, zlen (items ch) + 1 <= hw <= capacity (channel_config ch) →
    channel_ok (mkChannel (channel_config ch) (items ch ++ [q]) (<[c := with_queued (queued u + 1) (with_reserved (reserved u - 1) u)]>
      (connections ch)) (grant_order ch) (admission_failures ch) (reserved_slots ch - 1) (waiter_count ch) hw
      (next_ticket ch) (admission_failure_overflowed ch) (cancelled ch)) (<[i := r1]> held)).
  { intros hw Hhw'. eapply (channel_ok_update ch _ held _ c); try done; simpl; try apply Hok; try lia.
    - constructor; simpl; try done; try lia.
      + unfold queued_by in *. rewrite zsum_app. simpl. rewrite decide_True by done. lia.
      + unfold held_by in *. rewrite (zsum_insert _ _ _ _ _ Hi). simpl. rewrite !decide_True by done. lia.
    - intros c' Hne. split_and!; try done.
      + unfold queued_by. rewrite zsum_app. simpl. rewrite decide_False by congruence. lia.
      + unfold held_by. rewrite (zsum_insert _ _ _ _ _ Hi). simpl. rewrite !decide_False by (unfold c in *; congruence). lia.
    - unfold held_total in *. rewrite (zsum_insert _ _ _ _ _ Hi). simpl. lia.
    - rewrite E. simpl. lia.
    - apply Forall_insert; [done|]. simpl. split; [lia|]. intros. lia || congruence. }
  rewrite Hlen. rewrite <-Ec. destruct (Z.ltb_spec (high_water_mark ch) (zlen (items ch) + 1));
    split_and!; try done; try lia; apply Hupd; simpl; lia.
Qed.

Lemma takeFront_ok ch held :
  channel_ok ch held →
  match takeFront ch with
  | (None, ch') => items ch = [] ∧ ch' = ch
  | (Some posted, ch') =>
      channel_ok ch' held ∧ cancelled ch' = cancelled ch ∧
      ∃ c, items ch = mkQueued posted c :: items ch'
  end.
Proof.
  intros Hok. unfold takeFront. destruct (items ch) as [|[posted c] rest] eqn:Ei; [done|]. simpl.
  pose proof (ch_usage _ _ Hok c) as [Hq Hr Hl Hw Hli Ho]. rewrite Ei in Hq. unfold queued_by in Hq. simpl in Hq.
  rewrite decide_True in Hq by done. fold (queued_by c rest) in Hq. pose proof (queued_by_bounds c rest) as Hqb.
  pose proof (channel_ok_bounds _ _ Hok) as [B1 B2 B3 B4 B5]. pose proof (ch_high _ _ Hok) as Hhw.
  pose proof (held_by_bounds c held (ch_held _ _ Hok)) as Hhb. rewrite Ei in *. unfold zlen in *. cbn [length] in *.
  destruct (connections ch !! c) as [u|] eqn:E.
  2:{ unfold usage_of in Hq. rewrite E in Hq. simpl in Hq. lia. }
  apply usage_of_lookup in E. rewrite E in *. rewrite (proj2 (Z.eqb_neq (queued u) 0)) by lia.
  rewrite (u64_small (queued u - 1)) by lia.
  set (ch1 := set_usage c (with_queued (queued u - 1) u) (set_items rest ch)).
  assert (Huse : usage_of ch1 c = with_queued (queued u - 1) u)
    by (unfold ch1; rewrite usage_of_set; by rewrite decide_True).
  rewrite (markGrantable_listed ch1 c) by (by rewrite Huse).
  destruct (eraseUsageIfIdle_frame ch1 c) as (_ & _ & [= E1 E2 E3 E4 E5 E6 E7 E8 E9 E10]).
  split_and!; [|by rewrite E10|exists c; by rewrite E2]. apply channel_ok_erase.
  eapply (channel_ok_update ch _ held _ c); try done; simpl; try apply Hok; unfold zlen; try lia.
  - constructor; simpl; try done; lia.
  - intros c' Hne. split_and!; try done. rewrite Ei. unfold queued_by at 2; simpl. rewrite decide_False by done. done.
  - rewrite E. lia.
Qed.

Lemma drainInto_ok n ch held :
  channel_ok ch held →
  let '(posted, ch') := drainInto ch n in
  channel_ok ch' held ∧ cancelled ch' = cancelled ch ∧
  queued_posted <$> items ch = posted ++ (queued_posted <$> items ch') ∧
  (length posted <= n)%nat ∧ ((length posted < n)%nat → items ch' = []).
Proof.
  revert ch. induction n as [|n IH]; intros ch Hok; cbn [drainInto]; [split_and!; try done; lia|].
  pose proof (takeFront_ok ch held Hok) as Ht. destruct (takeFront ch) as [[posted|] ch1].
  - destruct Ht as (Hok1 & Hc1 & c & Hi). specialize (IH ch1 Hok1). destruct (drainInto ch1 n) as [rest ch2].
    destruct IH as (Hok2 & Hc2 & Hr & Hl & He). split_and!; [done|congruence| |simpl; lia|simpl; intros; apply He; lia].
    rewrite Hi, fmap_cons. simpl. by rewrite Hr.
  - destruct Ht as [Hi ->]. split_and!; try done; [simpl; lia].
Qed.

Lemma trackConnection_ok ch held c : channel_ok ch held → channel_ok (trackConnection ch c) held.
Proof.
  intros Hok. unfold trackConnection. pose proof (ch_usage _ _ Hok c) as [].
  eapply (channel_ok_update ch _ held _ c); try done; simpl; try apply Hok; try lia.
Qed.

Lemma forgetConnection_ok ch held c : channel_ok ch held → channel_ok (forgetConnection ch c) held.
Proof.
  intros Hok. unfold forgetConnection. destruct (connections ch !! c) as [u|] eqn:E; [|done].
  apply usage_of_lookup in E. apply channel_ok_erase. pose proof (ch_usage _ _ Hok c) as Hu. rewrite E in Hu.
  destruct Hu. eapply (channel_ok_update ch _ held _ c); try done; simpl; try apply Hok; try lia.
  rewrite E. lia.
Qed.

Lemma failures_ok ch held s b :
  channel_ok ch held → Z.of_nat (size s) <= max_pending_admission_failures (channel_config ch) →
  channel_ok (set_failures s b ch) held.
Proof. intros [] Hs. constructor; try done. intros c. destruct (ch_usage0 c). by constructor. Qed.

Lemma reportAdmissionFailure_ok ch held c : channel_ok ch held → channel_ok (reportAdmissionFailure ch c) held.
Proof.
  intros Hok. unfold reportAdmissionFailure. case_bool_decide as Hc; [done|]. pose proof (ch_failures _ _ Hok).
  split_if; to_prop; apply failures_ok; try done. rewrite size_union by set_solver. rewrite size_singleton. lia.
Qed.

Lemma takePendingAdmissionFailures_ok ch held :
  channel_ok ch held → channel_ok (takePendingAdmissionFailures ch).2 held.
Proof. intros Hok. apply failures_ok; [done|]. rewrite size_empty. destruct (ch_config _ _ Hok). lia. Qed.

Lemma returnRemainingSlots_ok ch held i r :
  channel_ok ch held → held !! i = Some r → channel_ok (returnRemainingSlots ch r).2 (delete i held).
Proof.
  intros Hok Hi. unfold returnRemainingSlots; simpl.
  pose proof (ch_held _ _ Hok) as Hh. assert (Hrin : r ∈ held) by (by eapply list_elem_of_lookup_2).
  assert (Hdel : Forall (fun r => 0 <= remainingSlots r ∧ (valid r = false → remainingSlots r = 0)) (delete i held))
    by (by apply Forall_delete).
  assert (Hr : 0 <= remainingSlots r ∧ (valid r = false → remainingSlots r = 0))
    by (rewrite Forall_forall in Hh; by apply Hh).
  assert (Hby : ∀ c, held_by c (delete i held) = held_by c held - if decide (connection r = c) then remainingSlots r else 0)
    by (intros c; unfold held_by; by rewrite (zsum_delete _ _ _ _ Hi)).
  assert (Htot : held_total (delete i held) = held_total held - remainingSlots r)
    by (unfold held_total; by rewrite (zsum_delete _ _ _ _ Hi)).
  destruct (valid r && negb (remainingSlots r =? 0)) eqn:Eg.
  2:{ assert (Hz : remainingSlots r = 0).
      { apply andb_false_iff in Eg as [Eg|Eg]; [by apply Hr|]. by to_prop. }
      destruct Hok. constructor; try done; [lia|]. intros c. destruct (ch_usage0 c). constructor; try done.
      rewrite Hby, uo_reserved0. case_decide; lia. }
  to_prop. set (c := connection r) in *. pose proof (held_by_elem r held Hh Hrin) as Hge. fold c in Hge.
  pose proof (ch_usage _ _ Hok c) as [Hq Hre Hl Hw Hli Ho]. pose proof (held_by_bounds c held Hh) as Hhb.
  pose proof (channel_ok_bounds _ _ Hok) as [B1 B2 B3 B4 B5]. pose proof (ch_reserved _ _ Hok) as Hres.
  unfold returnSlots. cbn [set_reserved_slots connections].
  destruct (connections ch !! c) as [u|] eqn:E.
  2:{ unfold usage_of in Hre. rewrite E in Hre. simpl in Hre. lia. }
  apply usage_of_lookup in E. rewrite E in *. pose proof (queued_by_bounds c (items ch)) as Hqb.
  rewrite (proj2 (Z.leb_le (remainingSlots r) (reserved_slots ch))), (proj2 (Z.leb_le (remainingSlots r) (reserved u))) by lia.
  rewrite (u64_small (reserved_slots ch - remainingSlots r)), (u64_small (reserved u - remainingSlots r)) by lia.
  set (ch1 := set_usage c _ _).
  assert (Huse : usage_of ch1 c = with_reserved (reserved u - remainingSlots r) u)
    by (unfold ch1; rewrite usage_of_set; by rewrite decide_True).
  rewrite (markGrantable_listed ch1 c) by (by rewrite Huse). apply channel_ok_erase.
  eapply (channel_ok_update ch _ held _ c); try done; simpl; try apply Hok; try lia.
  - constructor; simpl; try done; try lia. rewrite Hby, decide_True by done. lia.
  - intros c' Hne. split_and!; try done. rewrite Hby, decide_False by done. lia.
  - rewrite E. simpl. lia.
Qed.

Lemma cancel_ok ch held :
  channel_ok ch held → let '(n, done, ch') := cancel ch in channel_ok ch' (done.*2 ++ held) ∧ cancelled ch' = true.
Proof.
  intros Hok. unfold cancel. split; [|done]. pose proof (channel_ok_bounds _ _ Hok) as [B1 B2 B3 B4 B5].
  set (ps := map_to_list _ ≫= _).
  assert (Hempty : ∀ c, held_by c (((fun p => (p, emptyReservation)) <$> ps).*2 ++ held) = held_by c held).
  { intros c. unfold held_by. rewrite zsum_app, zsum_zero; [done|]. intros a Ha.
    rewrite <-list_fmap_compose in Ha. apply list_elem_of_fmap in Ha as (p & -> & _). simpl. by case_decide. }
  assert (Htot : held_total (((fun p => (p, emptyReservation)) <$> ps).*2 ++ held) = held_total held).
  { unfold held_total. rewrite zsum_app, zsum_zero; [done|]. intros a Ha.
    rewrite <-list_fmap_compose in Ha. by apply list_elem_of_fmap in Ha as (p & -> & _). }
  destruct Hok. constructor; simpl; try done.
  - by rewrite Htot.
  - unfold zlen; simpl. lia.
  - intros c. destruct (ch_usage0 c). pose proof (queued_by_bounds c (items ch)).
    assert (Huse : usage_of (set_waiter_count 0 (set_connections (clear_usage <$> connections ch)
      (set_grant_order [] (set_items [] (set_cancelled ch))))) c = clear_usage (usage_of ch c)).
    { unfold usage_of; simpl. rewrite lookup_fmap. by destruct (connections ch !! c). }
    rewrite Huse. constructor; simpl; try done; [by rewrite Hempty|lia|]. split; [done|]. by intros ?%elem_of_nil.
  - constructor.
  - clear. induction (connections ch) as [|c u m Hm IH] using map_ind; [done|].
    rewrite fmap_insert, total_waiters_insert, <-IH, lookup_fmap, Hm. done.
  - destruct ch_config0. lia.
  - apply Forall_app. split; [|done]. apply Forall_fmap, Forall_fmap, Forall_true. done.
  - unfold zlen in *; simpl. lia.
Qed.

(** ** Granting *)

Lemma held_by_award c (awards : list Award) a held :
  held_by c ((awards ++ [a]).*2 ++ held) = held_by c (awards.*2 ++ held)
    + (if decide (connection a.2 = c) then remainingSlots a.2 else 0).
Proof. unfold held_by. rewrite fmap_app, !zsum_app. simpl. lia. Qed.

Lemma held_total_award (awards : list Award) a held :
  held_total ((awards ++ [a]).*2 ++ held) = held_total (awards.*2 ++ held) + remainingSlots a.2.
Proof. unfold held_total. rewrite fmap_app, !zsum_app. simpl. lia. Qed.

(** One round of the loop on a connection of the grant order. *)
Section round.
Context (ch : OutboundChannel) (held : list OutboundReservation) (awards : list Award).
Context (c : ConnectionId) (order : list ConnectionId).
Context (Hok : channel_ok ch (awards.*2 ++ held)) (Horder : grant_order ch = c :: order).

Lemma round_entry : ∃ u, connections ch !! c = Some u ∧ usage_of ch c = u ∧ queued_for_grant u = true ∧ c ∉ order.
Proof using Hok Horder.
  pose proof (ch_usage _ _ Hok c) as [_ _ _ _ _ Ho]. pose proof (ch_order _ _ Hok) as Hnd.
  rewrite Horder in *. apply NoDup_cons in Hnd as [Hn _].
  assert (Hq : queued_for_grant (usage_of ch c) = true) by (apply Ho; left).
  destruct (connections ch !! c) as [u|] eqn:E; [|unfold usage_of in Hq; by rewrite E in Hq].
  exists u. rewrite (usage_of_lookup _ _ _ E) in Hq. split_and!; try done. by apply usage_of_lookup.
Qed.

(** Drop the entry of a connection nobody waits on. *)
Lemma round_drop u :
  usage_of ch c = u → waiters u = [] →
  channel_ok (eraseUsageIfIdle (set_usage c (with_queued_for_grant false u) (set_grant_order order ch)) c)
    (awards.*2 ++ held).
Proof using Hok Horder.
  intros Hu Hw. destruct round_entry as (u' & _ & Hu' & _ & Hn). apply channel_ok_erase.
  pose proof (ch_usage _ _ Hok c) as [Hq Hr Hl Hws Hli Ho]. pose proof (ch_order _ _ Hok) as Hnd.
  rewrite Hu in *. rewrite Horder in *. apply NoDup_cons in Hnd as [_ Hnd].
  eapply (channel_ok_update ch _ (awards.*2 ++ held) _ c); try done; simpl; try apply Hok; try lia.
  - intros c' Hne. split_and!; try done. rewrite Horder, elem_of_cons. naive_solver.
  - rewrite Hu. lia.
Qed.

(** Put a connection back to the end. *)
Lemma round_requeue u :
  usage_of ch c = u → waiters u ≠ [] →
  channel_ok (requeue c (with_queued_for_grant false u)
                (set_usage c (with_queued_for_grant false u) (set_grant_order order ch))) (awards.*2 ++ held).
Proof using Hok Horder.
  intros Hu Hw. destruct round_entry as (u' & _ & Hu' & Hg & Hn).
  pose proof (ch_usage _ _ Hok c) as [Hq Hr Hl Hws Hli Ho]. pose proof (ch_order _ _ Hok) as Hnd.
  rewrite Hu in *. rewrite Horder in *. apply NoDup_cons in Hnd as [_ Hnd]. unfold requeue.
  eapply (channel_ok_update ch _ (awards.*2 ++ held) _ c (with_queued_for_grant true (with_queued_for_grant false u)));
    try done; simpl; try apply Hok; try lia.
  - by rewrite insert_insert_eq.
  - constructor; simpl; try done. split; [intros _|done]. apply elem_of_app. right. by apply list_elem_of_singleton.
  - intros c' Hne. split_and!; try done. rewrite Horder, elem_of_app, list_elem_of_singleton, elem_of_cons. naive_solver.
  - apply NoDup_app. split_and!; [done| |apply NoDup_singleton]. by intros x Hx ->%list_elem_of_singleton.
  - rewrite Hu. lia.
Qed.

Lemma round_waiters : zlen (waiters (usage_of ch c)) <= waiter_count ch.
Proof using Hok.
  pose proof Hok as [_ _ _ _ _ Hwc _ _ _ _]. rewrite Hwc.
  pose proof (total_waiters_insert (connections ch) c freshUsage) as Hi. fold (usage_of ch c) in Hi.
  pose proof (total_waiters_nonneg (<[c := freshUsage]> (connections ch))). unfold zlen in *; simpl in *. lia.
Qed.

(** Award the oldest waiter of a connection. *)
Lemma round_award u head others :
  usage_of ch c = u → waiters u = head :: others → fits ch u (waiter_slots head) = true →
  let u2 := with_waiters others (with_reserved (u64 (reserved u + waiter_slots head)) (with_queued_for_grant false u)) in
  let ch2 := set_usage c (with_queued_for_grant false u) (set_grant_order order ch) in
  let ch3 := set_waiter_count (u64 (waiter_count ch2 - 1))
               (set_reserved_slots (u64 (reserved_slots ch2 + waiter_slots head)) (set_usage c u2 ch2)) in
  channel_ok (if bool_decide (length others = 0%nat) then ch3 else requeue c u2 ch3)
    ((awards ++ [(waiter_producer head, mkReservation true c (waiter_slots head))]).*2 ++ held).
Proof using Hok Horder.
  intros Hu Hw Hf u2 ch2 ch3. destruct round_entry as (u' & _ & _ & Hg & Hn).
  pose proof (ch_usage _ _ Hok c) as [Hq Hr Hl Hws Hli Ho]. pose proof (ch_order _ _ Hok) as Hnd.
  rewrite Hu in *. rewrite Horder in *. apply NoDup_cons in Hnd as [_ Hnd].
  rewrite Hw in Hws. apply Forall_cons in Hws as [Hs Hws].
  rewrite <-Hu in Hf. apply (fits_spec ch (awards.*2 ++ held)) in Hf as [F1 F2]; [|done|lia]. rewrite Hu in F2.
  pose proof (channel_ok_bounds _ _ Hok) as [B1 B2 B3 B4 B5]. pose proof (queued_by_bounds c (items ch)) as Hqb.
  pose proof (held_by_bounds c _ (ch_held _ _ Hok)) as Hhb. pose proof (ch_reserved _ _ Hok) as Hres.
  pose proof Hok as [Hcfg _ _ _ _ Hwc Hwl _ _ _]. destruct Hcfg.
  pose proof round_waiters as Hcount. rewrite Hu in Hcount.
  rewrite Hw in Hcount. unfold zlen in Hcount; cbn [length] in Hcount.
  set (award := (waiter_producer head, mkReservation true c (waiter_slots head))).
  assert (Hheld : Forall (fun r => 0 <= remainingSlots r ∧ (valid r = false → remainingSlots r = 0))
    ((awards ++ [award]).*2 ++ held)).
  { pose proof (ch_held _ _ Hok) as Hh. apply Forall_app in Hh as [Hh1 Hh2]. rewrite fmap_app, !Forall_app.
    split_and!; try done. constructor; [simpl; lia|constructor]. }
  assert (E1 : u64 (reserved u + waiter_slots head) = reserved u + waiter_slots head) by (apply u64_small; lia).
  assert (E2 : u64 (reserved_slots ch2 + waiter_slots head) = reserved_slots ch + waiter_slots head)
    by (simpl; apply u64_small; lia).
  assert (E3 : u64 (waiter_count ch2 - 1) = waiter_count ch - 1) by (simpl; apply u64_small; lia).
  unfold ch3, u2. rewrite E1, E2, E3. clear E1 E2 E3 u2 ch3.
  assert (Hby : ∀ c', held_by c' ((awards ++ [award]).*2 ++ held) = held_by c' (awards.*2 ++ held) +
    (if decide (c = c') then waiter_slots head else 0)) by (intros c'; apply held_by_award).
  assert (Htot : held_total ((awards ++ [award]).*2 ++ held) = held_total (awards.*2 ++ held) + waiter_slots head)
    by apply held_total_award.
  case_bool_decide as Hnil.
  - apply nil_length_inv in Hnil. subst others.
    eapply (channel_ok_update ch _ (awards.*2 ++ held) _ c); [done|done|by simpl; rewrite insert_insert_eq| | |simpl..];
      try done; try apply Hok; try lia.
    + constructor; simpl; try done; [rewrite Hby, decide_True by done; lia|lia].
    + intros c' Hne. simpl. rewrite Hby, decide_False by done. split_and!; [done|lia|].
      rewrite Horder, elem_of_cons. naive_solver.
    + rewrite Hu, Hw. unfold zlen; simpl. lia.
  - unfold requeue. eapply (channel_ok_update ch _ (awards.*2 ++ held) _ c
      (with_queued_for_grant true (with_waiters others (with_reserved (reserved u + waiter_slots head) (with_queued_for_grant false u)))));
      [done|done|by simpl; rewrite !insert_insert_eq| | |simpl..]; try done; try apply Hok; try lia.
    + constructor; simpl; try done; [rewrite Hby, decide_True by done; lia|lia|].
      split; [intros _|done]. apply elem_of_app. right. by apply list_elem_of_singleton.
    + intros c' Hne. simpl. rewrite Hby, decide_False by done. split_and!; [done|lia|].
      rewrite Horder, elem_of_app, list_elem_of_singleton, elem_of_cons. naive_solver.
    + apply NoDup_app. split_and!; [done| |apply NoDup_singleton]. by intros x Hx ->%list_elem_of_singleton.
    + rewrite Hu, Hw. unfold zlen; cbn [length waiters with_queued_for_grant with_waiters]. lia.
Qed.
End round.

Lemma grant_loop_ok n examined awards ch held :
  channel_ok ch (awards.*2 ++ held) →
  let '(awards', ch') := grant_loop n examined awards ch in
  channel_ok ch' (awards'.*2 ++ held) ∧ items ch' = items ch ∧ cancelled ch' = cancelled ch ∧ awards `prefix_of` awards'.
Proof.
  revert examined awards ch. induction n as [|n IH]; intros examined awards ch Hok; cbn [grant_loop]; [done|].
  split_if; [|done]. destruct (grant_order ch) as [|c order] eqn:Eo; [done|].
  destruct (round_entry ch held awards c order Hok Eo) as (u & Hlk & Hu & Hg & Hn).
  cbn [set_grant_order connections]. rewrite Hlk. set (ch2 := set_usage _ _ _).
  destruct (waiters (with_queued_for_grant false u)) as [|head others] eqn:Ew; cbn [waiters with_queued_for_grant] in Ew.
  - pose proof (round_drop ch held awards c order Hok Eo u Hu Ew) as Hok'.
    specialize (IH (examined + 1) awards _ Hok'). fold ch2 in IH.
    destruct (eraseUsageIfIdle_frame ch2 c) as (_ & _ & [= E1 E2 E3 E4 E5 E6 E7 E8 E9 E10]).
    destruct (grant_loop n _ awards _). by rewrite E2, E10 in IH.
  - change (fits ch2 (with_queued_for_grant false u) (waiter_slots head)) with (fits ch u (waiter_slots head)).
    destruct (fits ch u (waiter_slots head)) eqn:Ef; cbn [negb].
    + pose proof (round_award ch held awards c order Hok Eo u head others Hu Ew Ef) as Hok'. cbv zeta in Hok'.
      fold ch2 in Hok'. specialize (IH (examined + 1) _ _ Hok'). destruct (grant_loop n _ _ _) as [awards' ch'].
      destruct IH as (H1 & H2 & H3 & H4). split_and!; [done| | |].
      * by case_bool_decide.
      * by case_bool_decide.
      * etransitivity; [|done]. by apply prefix_app_r.
    + pose proof (round_requeue ch held awards c order Hok Eo u Hu ltac:(by rewrite Ew)) as Hok'.
      specialize (IH (examined + 1) awards _ Hok'). fold ch2 in IH. by destruct (grant_loop n _ awards _).
Qed.

(** ** Whole runs *)

(** The calls of the server, in any order; an index names a held reservation. *)
Inductive ChannelOp :=
| OpReserve (c : ConnectionId) (slots : Z)
| OpRegister (c : ConnectionId) (slots producer : Z)
| OpWithdraw (t : ReservationTicket)
| OpCommit (i : nat) (a : OutboundAction) (now : time_point)
| OpRelease (i : nat)
| OpDrain (n : nat)
| OpTrack (c : ConnectionId)
| OpForget (c : ConnectionId)
| OpGrant
| OpReport (c : ConnectionId)
| OpTakeFailures
| OpCancel.

(** The channel, the reservations clients hold, and the history. *)
Record System := mkSystem {
  sys_channel : OutboundChannel;
  sys_held : list OutboundReservation;
  sys_committed : list PostedOutboundAction;
  sys_delivered : list PostedOutboundAction
}.

(** One call; [None] when it throws or names no reservation. *)
Definition system_step (s : System) (op : ChannelOp) : option System :=
  let ch := sys_channel s in
  let held := sys_held s in
  match op with
  | OpReserve c slots =>
      let '(o, ch') := tryReserve ch c slots in
      Some (mkSystem ch' (match o with Some r => r :: held | None => held end) (sys_committed s) (sys_delivered s))
  | OpRegister c slots producer =>
      match registerWaiter ch c slots producer with
      | Ret (_, completed, ch') => Some (mkSystem ch' (completed.*2 ++ held) (sys_committed s) (sys_delivered s))
      | Throw _ => None
      end
  | OpWithdraw t => Some (mkSystem (withdrawWaiter ch t) held (sys_committed s) (sys_delivered s))
  | OpCommit i a now =>
      r ← held !! i;
      match commit ch r a now with
      | Ret (ok, r', ch') =>
          Some (mkSystem ch' (<[i := r']> held) (sys_committed s ++ if ok then [mkPosted a now] else [])
                  (sys_delivered s))
      | Throw _ => None
      end
  | OpRelease i =>
      r ← held !! i;
      Some (mkSystem (returnRemainingSlots ch r).2 (delete i held) (sys_committed s) (sys_delivered s))
  | OpDrain n =>
      let '(posted, ch') := drainInto ch n in
      Some (mkSystem ch' held (sys_committed s) (sys_delivered s ++ posted))
  | OpTrack c => Some (mkSystem (trackConnection ch c) held (sys_committed s) (sys_delivered s))
  | OpForget c => Some (mkSystem (forgetConnection ch c) held (sys_committed s) (sys_delivered s))
  | OpGrant =>
      let '(awards, ch') := grantPending ch in
      Some (mkSystem ch' (awards.*2 ++ held) (sys_committed s) (sys_delivered s))
  | OpReport c => Some (mkSystem (reportAdmissionFailure ch c) held (sys_committed s) (sys_delivered s))
  | OpTakeFailures =>
      Some (mkSystem (takePendingAdmissionFailures ch).2 held (sys_committed s) (sys_delivered s))
  | OpCancel =>
      let '(_, completed, ch') := cancel ch in
      Some (mkSystem ch' (completed.*2 ++ held) (sys_committed s) (sys_delivered s))
  end.

Fixpoint system_run (s : System) (ops : list ChannelOp) : option System :=
  match ops with
  | [] => Some s
  | op :: ops' => s' ← system_step s op; system_run s' ops'
  end.

(** Slot counts are unsigned. *)
Definition channel_op_ok (op : ChannelOp) : Prop :=
  match op with OpReserve _ slots | OpRegister _ slots _ => 0 <= slots | _ => True end.

(** What was committed is what was delivered followed by what is queued. *)
Definition in_order (s : System) : Prop :=
  ∃ dropped, sys_committed s = sys_delivered s ++ (queued_posted <$> items (sys_channel s)) ++ dropped ∧
  (cancelled (sys_channel s) = false → dropped = []) ∧
  (cancelled (sys_channel s) = true → items (sys_channel s) = []).

Definition system_ok (s : System) : Prop := channel_ok (sys_channel s) (sys_held s) ∧ in_order s.

(** Operations that leave the queue and the history alone. *)
Lemma in_order_frame s ch' held' :
  in_order s → items ch' = items (sys_channel s) → cancelled ch' = cancelled (sys_channel s) →
  in_order (mkSystem ch' held' (sys_committed s) (sys_delivered s)).
Proof. intros (d & ? & ? & ?) Hi Hc. exists d. simpl. by rewrite Hi, Hc. Qed.

Lemma erase_queue ch c : items (eraseUsageIfIdle ch c) = items ch ∧ cancelled (eraseUsageIfIdle ch c) = cancelled ch.
Proof. destruct (eraseUsageIfIdle_frame ch c) as (_ & _ & [= _ -> _ _ _ _ _ _ _ ->]). done. Qed.

Lemma mark_queue ch c : items (markGrantable ch c) = items ch ∧ cancelled (markGrantable ch c) = cancelled ch.
Proof. unfold markGrantable. by split_if. Qed.

Lemma returnSlots_queue ch c n : items (returnSlots ch c n) = items ch ∧ cancelled (returnSlots ch c n) = cancelled ch.
Proof.
  unfold returnSlots. simpl. destruct (connections ch !! c) as [u|]; [|done].
  match goal with |- context [eraseUsageIfIdle ?x ?y] => destruct (erase_queue x y) as [-> ->] end.
  match goal with |- context [markGrantable ?x ?y] => destruct (mark_queue x y) as [-> ->] end. done.
Qed.

Lemma tryReserve_queue ch c n :
  items (tryReserve ch c n).2 = items ch ∧ cancelled (tryReserve ch c n).2 = cancelled ch.
Proof.
  unfold tryReserve. repeat (split_if; [done|]). split_if; [|done].
  match goal with |- context [eraseUsageIfIdle ?x ?y] => destruct (erase_queue x y) as [E1 E2] end.
  simpl. by rewrite E1, E2.
Qed.

Lemma withdrawWaiter_queue ch t : items (withdrawWaiter ch t) = items ch ∧ cancelled (withdrawWaiter ch t) = cancelled ch.
Proof.
  unfold withdrawWaiter. split_if; [done|]. destruct (connections ch !! _) as [u|]; [|done]. split_if; [|done].
  match goal with |- context [eraseUsageIfIdle ?x ?y] => destruct (erase_queue x y) as [-> ->] end. done.
Qed.

Lemma registerWaiter_queue ch c slots producer t completed ch' :
  registerWaiter ch c slots producer = Ret (t, completed, ch') → items ch' = items ch ∧ cancelled ch' = cancelled ch.
Proof.
  unfold registerWaiter. rewrite throw_if_ret. intros [_ Hr]. destruct (cancelled ch) eqn:Ec.
  { injection Hr as <- <- <-. by rewrite Ec. }
  rewrite throw_if_ret in Hr. destruct Hr as [_ Hr]. injection Hr as <- <- <-.
  match goal with |- context [markGrantable ?x ?y] => destruct (mark_queue x y) as [-> ->] end. by rewrite <-Ec.
Qed.

Lemma forgetConnection_queue ch c : items (forgetConnection ch c) = items ch ∧ cancelled (forgetConnection ch c) = cancelled ch.
Proof.
  unfold forgetConnection. destruct (connections ch !! c); [|done].
  match goal with |- context [eraseUsageIfIdle ?x ?y] => destruct (erase_queue x y) as [-> ->] end. done.
Qed.

Lemma reportAdmissionFailure_queue ch c :
  items (reportAdmissionFailure ch c) = items ch ∧ cancelled (reportAdmissionFailure ch c) = cancelled ch.
Proof. unfold reportAdmissionFailure. by repeat split_if. Qed.

Lemma system_step_ok s op s' : system_ok s → channel_op_ok op → system_step s op = Some s' → system_ok s'.
Proof.
  intros [Hok Hin] Hop. destruct op as [c slots|c slots producer|t|i a now|i|n|c|c| |c| |]; simpl in *.
  - pose proof (tryReserve_queue (sys_channel s) c slots) as [Hi Hc].
    destruct (tryReserve _ c slots) as [o ch'] eqn:E. intros [= <-]. simpl in *.
    pose proof (tryReserve_ok _ _ _ _ _ _ Hok Hop E) as Ho. split; [|by apply in_order_frame].
    simpl. destruct o; [by destruct Ho|done].
  - destruct (registerWaiter _ c slots producer) as [[[t completed] ch']|] eqn:E; [|done]. intros [= <-].
    destruct (registerWaiter_queue _ _ _ _ _ _ _ E). split; [by eapply registerWaiter_ok|by apply in_order_frame].
  - intros [= <-]. destruct (withdrawWaiter_queue (sys_channel s) t). split; [by apply withdrawWaiter_ok|by apply in_order_frame].
  - destruct (sys_held s !! i) as [r|] eqn:Er; [|done]. simpl. pose proof (commit_ok _ _ i r a now Hok Er) as Hc.
    destruct (commit _ r a now) as [[[ok r'] ch']|]; [|done]. intros [= <-].
    destruct Hc as (Hok' & _ & Hval & Hcan & _ & Hm). split; [done|]. destruct Hin as (d & Hd & Hd1 & Hd2).
    destruct ok; [|destruct Hm as [-> ->]; exists d; simpl; by rewrite app_nil_r].
    destruct Hm as (_ & _ & Hi). symmetry in Hval. apply negb_true_iff in Hval. exists []. simpl.
    rewrite Hi, Hcan, Hval, Hd, (Hd1 Hval), !app_nil_r, fmap_app, app_assoc. done.
  - destruct (sys_held s !! i) as [r|] eqn:Er; [|done]. simpl. intros [= <-].
    split; [by apply returnRemainingSlots_ok|]. unfold returnRemainingSlots; simpl.
    destruct (returnSlots_queue (sys_channel s) (connection r) (remainingSlots r)).
    split_if; by apply in_order_frame.
  - pose proof (drainInto_ok n _ _ Hok) as Hd. destruct (drainInto _ n) as [posted ch']. intros [= <-].
    destruct Hd as (Hok' & Hc & Hi & _). split; [done|]. destruct Hin as (d & Hd & Hd1 & Hd2). exists d. simpl.
    rewrite Hd, Hi, Hc, <-!app_assoc. split_and!; try done. intros Hcan. rewrite (Hd2 Hcan) in Hi.
    symmetry in Hi. apply app_eq_nil in Hi as [_ Hi]. by apply fmap_nil_inv in Hi.
  - intros [= <-]. split; [by apply trackConnection_ok|by apply in_order_frame].
  - intros [= <-]. destruct (forgetConnection_queue (sys_channel s) c). split; [by apply forgetConnection_ok|by apply in_order_frame].
  - unfold grantPending. destruct (cancelled (sys_channel s)) eqn:Ec.
    { intros [= <-]. split; [done|]. by apply in_order_frame. }
    pose proof (grant_loop_ok (length (grant_order (sys_channel s))) 0 [] _ _ Hok) as Hg.
    destruct (grant_loop _ _ _ _) as [awards ch']. intros [= <-]. destruct Hg as (Hok' & Hi & Hc & _).
    split; [done|by apply in_order_frame].
  - intros [= <-]. destruct (reportAdmissionFailure_queue (sys_channel s) c).
    split; [by apply reportAdmissionFailure_ok|by apply in_order_frame].
  - intros [= <-]. split; [by apply takePendingAdmissionFailures_ok|by apply in_order_frame].
  - pose proof (cancel_ok _ _ Hok) as Hc. unfold cancel in *. intros [= <-]. destruct Hc as [Hok' _]. split; [done|].
    destruct Hin as (d & Hd & _). exists ((queued_posted <$> items (sys_channel s)) ++ d). simpl. by rewrite Hd.
Qed.

Lemma system_run_ok s ops s' :
  system_ok s → Forall channel_op_ok ops → system_run s ops = Some s' → system_ok s'.
Proof.
  intros Hs Hops. revert s Hs. induction Hops as [|op ops Hop Hops IH]; intros s Hs; simpl; [by intros [= <-]|].
  destruct (system_step s op) as [s1|] eqn:E; simpl; [|done]. apply IH. by eapply system_step_ok.
Qed.

(** The configuration never changes. *)
Lemma erase_config ch c : channel_config (eraseUsageIfIdle ch c) = channel_config ch.
Proof. destruct (eraseUsageIfIdle_frame ch c) as (_ & _ & [= -> _ _ _ _ _ _ _ _ _]). done. Qed.

Lemma mark_config ch c : channel_config (markGrantable ch c) = channel_config ch.
Proof. unfold markGrantable. by split_if. Qed.

Lemma takeFront_config ch : channel_config (takeFront ch).2 = channel_config ch.
Proof.
  unfold takeFront. destruct (items ch) as [|q rest]; [done|]. simpl. destruct (connections ch !! _); [|done].
  simpl. by rewrite erase_config, mark_config.
Qed.

Lemma drainInto_config n ch : channel_config (drainInto ch n).2 = channel_config ch.
Proof.
  revert ch. induction n as [|n IH]; intros ch; simpl; [done|]. pose proof (takeFront_config ch) as Ht.
  destruct (takeFront ch) as [[posted|] ch1]; [|done]. specialize (IH ch1). destruct (drainInto ch1 n). simpl in *. congruence.
Qed.

Lemma grant_loop_config n examined awards ch : channel_config (grant_loop n examined awards ch).2 = channel_config ch.
Proof.
  revert examined awards ch. induction n as [|n IH]; intros examined awards ch; cbn [grant_loop]; [done|].
  split_if; [|done]. destruct (grant_order ch) as [|c order]; [done|]. cbn [set_grant_order connections].
  destruct (connections ch !! c) as [u|]; [|by rewrite IH]. destruct (waiters _) as [|head others].
  - by rewrite IH, erase_config.
  - split_if; rewrite IH; [done|]. by case_bool_decide.
Qed.

Lemma system_step_config s op s' :
  system_step s op = Some s' → channel_config (sys_channel s') = channel_config (sys_channel s).
Proof.
  destruct op as [c slots|c slots producer|t|i a now|i|n|c|c| |c| |]; simpl.
  - unfold tryReserve. repeat (split_if; [by intros [= <-]|]). split_if; intros [= <-]; simpl; by rewrite ?erase_config.
  - destruct (registerWaiter _ _ _ _) as [[[t completed] ch']|] eqn:E; [|done]. intros [= <-]. simpl. revert E.
    unfold registerWaiter. rewrite throw_if_ret. intros [_ E]. destruct (cancelled _); [by injection E as <- <- <-|].
    rewrite throw_if_ret in E. destruct E as [_ E]. injection E as <- <- <-. by rewrite mark_config.
  - intros [= <-]. unfold withdrawWaiter. simpl. split_if; [done|]. destruct (connections _ !! _); [|done].
    split_if; [|done]. by rewrite erase_config.
  - destruct (_ !! i) as [r|]; [|done]. simpl. destruct (commit _ _ _ _) as [[[ok r'] ch']|] eqn:E; [|done].
    intros [= <-]. simpl. revert E. unfold commit. rewrite throw_if_ret. intros [_ E].
    destruct (cancelled _); [by injection E as <- <- <-|]. destruct (connections _ !! _); [|done].
    rewrite throw_if_ret in E. destruct E as [_ E]. injection E as <- <- <-. by split_if.
  - destruct (_ !! i) as [r|]; [|done]. simpl. intros [= <-]. simpl. split_if; [|done]. unfold returnSlots. simpl.
    destruct (connections _ !! _); [|done]. by rewrite erase_config, mark_config.
  - pose proof (drainInto_config n (sys_channel s)) as Hd. destruct (drainInto _ _). intros [= <-]. done.
  - by intros [= <-].
  - intros [= <-]. unfold forgetConnection. simpl. destruct (connections _ !! _); [|done]. by rewrite erase_config.
  - unfold grantPending. destruct (cancelled _); [by intros [= <-]|].
    pose proof (grant_loop_config (length (grant_order (sys_channel s))) 0 [] (sys_channel s)) as Hg.
    destruct (grant_loop _ _ _ _). intros [= <-]. done.
  - intros [= <-]. unfold reportAdmissionFailure. simpl. by repeat split_if.
  - by intros [= <-].
  - by intros [= <-].
Qed.

Lemma system_run_config s ops s' :
  system_run s ops = Some s' → channel_config (sys_channel s') = channel_config (sys_channel s).
Proof.
  revert s. induction ops as [|op ops IH]; intros s; simpl; [by intros [= <-]|].
  destruct (system_step s op) as [s1|] eqn:E; simpl; [|done]. intros Hr. rewrite (IH _ Hr). by eapply system_step_config.
Qed.

Lemma makeOutboundChannel_ok config d ch :
  makeOutboundChannel config d = Ret ch → in_u64 (capacity config) → in_u64 (max_slots_per_connection config) →
  in_u64 (max_grants_per_turn config) → in_u64 (max_waiters config) →
  in_u64 (max_pending_admission_failures config) → 2 * capacity config <= U64_MAX → max_waiters config < U64_MAX →
  system_ok (mkSystem ch [] [] []).
Proof.
  unfold makeOutboundChannel. rewrite !throw_if_ret. intros (Hg1 & Hg2 & [= <-]) ? ? ? ? ? ? ?.
  to_prop. split; [|by exists []]. constructor; simpl; try done; try lia.
  - constructor; lia.
  - unfold zlen; simpl; lia.
  - intros c. assert (Hf : usage_of (mkChannel config [] ∅ [] ∅ 0 0 0 1 false false) c = freshUsage)
      by (unfold usage_of; simpl; by rewrite lookup_empty).
    rewrite Hf. constructor; simpl; try done; [lia|]. split; [done|]. by intros ?%elem_of_nil.
  - constructor.
  - unfold zlen; simpl; lia.
  - change (Z.of_nat (size (∅ : gset ConnectionId)) <= max_pending_admission_failures config). rewrite size_empty. lia.
Qed.

(** A live connection in the order gets the award, once the idle ones in front
    of it are out of the way. *)
Lemma grant_loop_progress stale c rest ch held n examined u :
  channel_ok ch held → items ch = [] → reserved_slots ch = 0 →
  grant_order ch = stale ++ c :: rest → Forall (fun s => waiters (usage_of ch s) = []) stale →
  usage_of ch c = u → waiters u ≠ [] → (length stale < n)%nat →
  0 <= examined → examined + zlen stale < max_grants_per_turn (channel_config ch) →
  (grant_loop n examined [] ch).1 ≠ [].
Proof.
  revert ch n examined. induction stale as [|s stale IH]; intros ch n examined Hok Hi Hr Ho Hst Hu Hw Hn He Hex;
    (destruct n as [|n]; [simpl in Hn; lia|]); cbn [grant_loop]; unfold zlen in *; cbn [length app] in *.
  - rewrite (proj2 (Z.ltb_lt _ _)), (proj2 (Z.ltb_lt _ _)) by lia. cbn [andb]. rewrite Ho. cbn [set_grant_order connections].
    destruct (round_entry ch held [] c rest Hok Ho) as (u' & Hlk & Hu' & Hg & Hnin). rewrite Hlk.
    rewrite Hu' in Hu. subst u'. cbn [waiters with_queued_for_grant]. destruct (waiters u) as [|head others] eqn:Ew; [done|].
    pose proof (ch_usage _ _ Hok c) as [Hq Hre Hl Hws _ _]. rewrite Hu', Ew in Hws. apply Forall_cons in Hws as [Hs _].
    pose proof (held_by_bounds c held (ch_held _ _ Hok)) as Hhb. pose proof (ch_reserved _ _ Hok) as Hres.
    change (fits (set_usage c _ _) _ _) with (fits ch u (waiter_slots head)).
    rewrite Hi in Hq. unfold queued_by in Hq. simpl in Hq. rewrite Hu' in *.
    assert (Hf : fits ch u (waiter_slots head) = true).
    { rewrite <-Hu'. apply (fits_spec ch held); [done|lia|]. rewrite Hu', Hi, Hr, Hq, Hre. unfold zlen; cbn [length].
      destruct (ch_config _ _ Hok). lia. }
    rewrite Hf. cbn [negb].
    pose proof (round_award ch held [] c rest Hok Ho u head others Hu' Ew Hf) as Hok'. cbv zeta in Hok'.
    match goal with |- (grant_loop _ _ _ ?x).1 ≠ _ => pose proof (grant_loop_ok n (examined + 1) _ x held Hok') as Hl' end.
    destruct (grant_loop _ _ _ _) as [awards ch']. destruct Hl' as (_ & _ & _ & [k ->]). done.
  - rewrite (proj2 (Z.ltb_lt _ _)), (proj2 (Z.ltb_lt _ _)) by lia. cbn [andb]. rewrite Ho. cbn [set_grant_order connections].
    apply Forall_cons in Hst as [Hs Hst].
    destruct (round_entry ch held [] s (stale ++ c :: rest) Hok Ho) as (u' & Hlk & Hu' & Hg & Hnin). rewrite Hlk.
    cbn [waiters with_queued_for_grant]. rewrite Hu' in Hs. rewrite Hs.
    pose proof (round_drop ch held [] s _ Hok Ho u' Hu' Hs) as Hok'.
    set (ch2 := set_usage s (with_queued_for_grant false u') (set_grant_order (stale ++ c :: rest) ch)) in *.
    destruct (eraseUsageIfIdle_frame ch2 s) as (Hus & _ & [= E1 E2 E3 E4 E5 E6 E7 E8 E9 E10]).
    assert (Husage : ∀ x, x ≠ s → usage_of (eraseUsageIfIdle ch2 s) x = usage_of ch x).
    { intros x Hx. rewrite Hus. unfold ch2. rewrite usage_of_set, decide_False by done. done. }
    apply IH; try done; rewrite ?E1, ?E2, ?E3, ?E5; try done; try lia.
    + apply Forall_forall. intros x Hx. rewrite Forall_forall in Hst. rewrite Husage; [by apply Hst|].
      intros ->. apply Hnin. apply elem_of_app. by left.
    + rewrite Husage; [done|]. intros ->. apply Hnin. apply elem_of_app. right. left.
Qed.

(** ** Theorems *)

(** C4: the channel's accounts always balance.  After any sequence of calls by
    any mix of clients the shared counter equals the slots of the reservations
    actually held, every connection's counters equal its queued actions and held
    slots, neither the shared capacity nor any connection's limit is exceeded,
    waiting connections are exactly the ones listed for a grant and listed once,
    and actions leave in the order they were committed, none lost or duplicated
    unless the channel is cancelled. *)
Theorem outbound_accounting config d ch0 ops s :
  makeOutboundChannel config d = Ret ch0 → in_u64 (capacity config) → in_u64 (max_slots_per_connection config) →
  in_u64 (max_grants_per_turn config) → in_u64 (max_waiters config) →
  in_u64 (max_pending_admission_failures config) → 2 * capacity config <= U64_MAX → max_waiters config < U64_MAX →
  Forall channel_op_ok ops → system_run (mkSystem ch0 [] [] []) ops = Some s →
  channel_ok (sys_channel s) (sys_held s) ∧ in_order s ∧
  zlen (items (sys_channel s)) + held_total (sys_held s) <= capacity config.
Proof.
  intros Hm ? ? ? ? ? ? ? Hops Hrun.
  assert (Hs0 := makeOutboundChannel_ok config d ch0 Hm ltac:(done) ltac:(done) ltac:(done) ltac:(done) ltac:(done)
    ltac:(done) ltac:(done)).
  pose proof (system_run_ok _ _ _ Hs0 Hops Hrun) as [Hok Hin]. split_and!; [done|done|].
  pose proof (ch_capacity _ _ Hok) as Hc. rewrite (ch_reserved _ _ Hok) in Hc.
  rewrite (system_run_config _ _ _ Hrun) in Hc. unfold makeOutboundChannel in Hm. rewrite !throw_if_ret in Hm.
  destruct Hm as (_ & _ & [= <-]). done.
Qed.

Definition demo_channel_config : OutboundChannelConfig := mkOutboundConfig 4 2 64 16 8.
Definition demo_channel : OutboundChannel := mkChannel demo_channel_config [] ∅ [] ∅ 0 0 0 1 false false.
Definition conn (n : Z) : ConnectionId := mkConnectionId n 1.
Definition close_action : OutboundAction := CloseConnection (conn 1) ProtocolError.

(** Fill one connection, make another wait, deliver, and grant. *)
Definition demo_channel_ops : list ChannelOp :=
  [OpReserve (conn 1) 2; OpReserve (conn 2) 2; OpRegister (conn 3) 1 77; OpGrant; OpCommit 1 close_action 5;
   OpDrain 8; OpGrant; OpRelease 1].

Lemma outbound_accounting_witness :
  match system_run (mkSystem demo_channel [] [] []) demo_channel_ops with
  | Some s => channel_ok (sys_channel s) (sys_held s) ∧ in_order s ∧
              zlen (items (sys_channel s)) + held_total (sys_held s) <= 4
  | None => False
  end.
Proof.
  destruct (system_run (mkSystem demo_channel [] [] []) demo_channel_ops) as [s|] eqn:E.
  - apply (outbound_accounting demo_channel_config 3 demo_channel demo_channel_ops s);
      [vm_compute; reflexivity|simpl; lia..|repeat constructor; simpl; lia|exact E].
  - vm_compute in E. discriminate.
Defined.

Lemma demo_system_ok ops s :
  Forall channel_op_ok ops → system_run (mkSystem demo_channel [] [] []) ops = Some s → system_ok s.
Proof.
  apply system_run_ok. apply (makeOutboundChannel_ok demo_channel_config 3); [vm_compute; reflexivity|simpl; lia..].
Qed.

(** A reservation is a promise: while the channel is not cancelled, every
    slot of every held reservation can be committed, at the end of the queue and
    without an error, whatever other connections do in between; after a
    cancellation a commit is refused and changes nothing. *)
Theorem reservation_honoured ch held i r a now :
  channel_ok ch held → held !! i = Some r → 0 < remainingSlots r →
  ∃ ok r' ch', commit ch r a now = Ret (ok, r', ch') ∧ ok = negb (cancelled ch) ∧ channel_ok ch' (<[i := r']> held) ∧
    if ok then remainingSlots r' = remainingSlots r - 1 ∧
               items ch' = items ch ++ [mkQueued (mkPosted a now) (connection r)]
    else r' = r ∧ ch' = ch.
Proof.
  intros Hok Hi Hs. pose proof (commit_ok ch held i r a now Hok Hi) as Hc.
  destruct (commit ch r a now) as [[[ok r'] ch']|e]; [|destruct Hc; lia].
  destruct Hc as (Hok' & _ & Hv & _ & _ & Hm). exists ok, r', ch'. split_and!; try done. destruct ok; [|done].
  by destruct Hm as (? & _ & ?).
Qed.

Lemma reservation_honoured_witness :
  match system_run (mkSystem demo_channel [] [] []) [OpReserve (conn 1) 2] with
  | Some s => ∃ ok r' ch', commit (sys_channel s) (mkReservation true (conn 1) 2) close_action 9 = Ret (ok, r', ch') ∧ ok = true
  | None => False
  end.
Proof.
  destruct (system_run (mkSystem demo_channel [] [] []) [OpReserve (conn 1) 2]) as [s|] eqn:E.
  - assert (Hh : sys_held s !! 0%nat = Some (mkReservation true (conn 1) 2)) by (vm_compute in E; injection E as <-; reflexivity).
    assert (Hc : cancelled (sys_channel s) = false) by (vm_compute in E; injection E as <-; reflexivity).
    pose proof E as E'. apply demo_system_ok in E' as [Hok _]; [|repeat constructor; simpl; lia].
    destruct (reservation_honoured (sys_channel s) (sys_held s) 0 (mkReservation true (conn 1) 2) close_action 9 Hok Hh
      ltac:(simpl; lia)) as (ok & r' & ch' & H1 & H2 & _).
    exists ok, r', ch'. split; [exact H1|]. rewrite H2, Hc. reflexivity.
  - vm_compute in E. discriminate.
Defined.

(** Granting makes progress: when the channel is empty and some connection
    with a waiter comes, in the grant order, after fewer stale entries than one
    turn examines, the turn grants at least one reservation. *)
Theorem grants_make_progress ch held stale c rest :
  channel_ok ch held → cancelled ch = false → items ch = [] → reserved_slots ch = 0 →
  grant_order ch = stale ++ c :: rest → Forall (fun s => waiters (usage_of ch s) = []) stale →
  waiters (usage_of ch c) ≠ [] → zlen stale < max_grants_per_turn (channel_config ch) →
  (grantPending ch).1 ≠ [].
Proof.
  intros Hok Hc Hi Hr Ho Hst Hw Hex. unfold grantPending. rewrite Hc.
  eapply (grant_loop_progress stale c rest ch held); try done; [|lia..].
  rewrite Ho, length_app. simpl. lia.
Qed.

Lemma grants_make_progress_witness :
  match system_run (mkSystem demo_channel [] [] []) [OpRegister (conn 1) 1 70; OpRegister (conn 2) 1 71;
          OpWithdraw (mkTicket 1 (conn 1))] with
  | Some s => (grantPending (sys_channel s)).1 ≠ []
  | None => False
  end.
Proof.
  destruct (system_run _ _) as [s|] eqn:E.
  - pose proof E as E'. apply demo_system_ok in E' as [Hok _]; [|repeat constructor; simpl; lia].
    apply (grants_make_progress (sys_channel s) (sys_held s) [conn 1] (conn 2) [] Hok);
      vm_compute in E; injection E as <-; try reflexivity.
    + repeat constructor.
    + discriminate.
  - vm_compute in E. discriminate.
Defined.

(** The constructor's defaults. *)
Definition default_channel_config : OutboundChannelConfig := mkOutboundConfig 4096 64 64 4096 4096.
Definition default_channel : OutboundChannel := mkChannel default_channel_config [] ∅ [] ∅ 0 0 0 1 false false.

(** [n] connections register a waiter each and withdraw it again; then one more
    registers and stays. *)
Fixpoint abandoned (n : nat) (k : Z) : list ChannelOp :=
  match n with
  | O => [OpRegister (conn k) 1 k]
  | S n' => OpRegister (conn k) 1 k :: OpWithdraw (mkTicket k (conn k)) :: abandoned n' (k + 1)
  end.

(** Stale entries can use up a whole turn.  With the default configuration,
    after 64 connections have withdrawn their waiters a further connection waits
    on a completely empty channel and the next grant turn still grants nothing,
    although one slot would fit; only the turn after it would. *)
Theorem stale_entries_starve_a_turn :
  ∃ s, system_run (mkSystem default_channel [] [] []) (abandoned 64 1) = Some s ∧
    items (sys_channel s) = [] ∧ reserved_slots (sys_channel s) = 0 ∧ waiter_count (sys_channel s) = 1 ∧
    cancelled (sys_channel s) = false ∧ (grantPending (sys_channel s)).1 = [] ∧
    length (grantPending (grantPending (sys_channel s)).2).1 = 1%nat.
Proof.
  assert (Hrun : (fun s => let ch := sys_channel s in
      (length (items ch), reserved_slots ch, waiter_count ch, cancelled ch, length (grantPending ch).1,
       length (grantPending (grantPending ch).2).1)) <$> system_run (mkSystem default_channel [] [] []) (abandoned 64 1)
      = Some (0%nat, 0, 1, false, 0%nat, 1%nat)) by (vm_compute; reflexivity).
  destruct (system_run (mkSystem default_channel [] [] []) (abandoned 64 1)) as [s|]; [|done].
  injection Hrun as H1 H2 H3 H4 H5 H6. exists s. split_and!; try done; by apply nil_length_inv.
Qed.
