(* ===== verification/SessionDirectory.v ===== *)
(** * Player session directory

    [PlayerSessionDirectory] of [src/src/server/player_session_directory.cpp]:
    which connection serves which player, and how far its close has come.  Every
    method runs under one mutex and is one atomic step; a failed allocation is
    not represented. *)

From S2P Require Import Prelude Zone Player Connection.

Inductive PlayerAttachResult :=
| Attached | AlreadyAttached | ConnectionConflict | PlayerConflict | ProvisionalActivity | ClosingSession.

Inductive State := Active | Closing.

#[export] Instance State_eq_dec : EqDecision State.
Proof. solve_decision. Defined.

Record Session := mkSession {
  session_player : PlayerId;
  session_state : State;
  location_known : bool;
  session_location : option PlayerLocation
}.

Record PlayerLocationSnapshot := mkSnapshot { known : bool; location : option PlayerLocation }.

Record PlayerSessionDirectory := mkDirectory {
  sessions_by_connection : gmap ConnectionId Session;
  connections_by_player : gmap Z ConnectionId;
  provisional_activity : gset ConnectionId
}.

Definition empty_directory : PlayerSessionDirectory := mkDirectory ∅ ∅ ∅.

Definition with_session_of (d : PlayerSessionDirectory) (c : ConnectionId) (s : Session) : PlayerSessionDirectory :=
  mkDirectory (<[c := s]> (sessions_by_connection d)) (connections_by_player d) (provisional_activity d).

Definition detach (d : PlayerSessionDirectory) (c : ConnectionId) (player : PlayerId) : PlayerSessionDirectory :=
  mkDirectory (delete c (sessions_by_connection d)) (delete player (connections_by_player d)) (provisional_activity d).

(** ** Operations *)

Definition tryAttach (d : PlayerSessionDirectory) (c : ConnectionId) (player : PlayerId)
    : PlayerAttachResult * PlayerSessionDirectory :=
  if bool_decide (c ∈ provisional_activity d) then (ProvisionalActivity, d)
  else
    match sessions_by_connection d !! c with
    | Some s =>
        if bool_decide (session_state s = Closing) then (ClosingSession, d)
        else if session_player s =? player then (AlreadyAttached, d) else (ConnectionConflict, d)
    | None =>
        if has_value (connections_by_player d !! player) then (PlayerConflict, d)
        else (Attached, mkDirectory (<[c := mkSession player Active false None]> (sessions_by_connection d))
                          (<[player := c]> (connections_by_player d)) (provisional_activity d))
    end.

Definition rollbackAttach (d : PlayerSessionDirectory) (c : ConnectionId) (player : PlayerId) : PlayerSessionDirectory :=
  match sessions_by_connection d !! c with
  | None => d
  | Some s => if negb (session_player s =? player) || negb (bool_decide (session_state s = Active)) then d
              else detach d c player
  end.

Definition noteProvisionalActivity (d : PlayerSessionDirectory) (c : ConnectionId) : bool * PlayerSessionDirectory :=
  if has_value (sessions_by_connection d !! c) then (false, d)
  else (negb (bool_decide (c ∈ provisional_activity d)),
        mkDirectory (sessions_by_connection d) (connections_by_player d) ({[ c ]} ∪ provisional_activity d)).

Definition clearProvisionalActivity (d : PlayerSessionDirectory) (c : ConnectionId) : PlayerSessionDirectory :=
  mkDirectory (sessions_by_connection d) (connections_by_player d) (provisional_activity d ∖ {[ c ]}).

Definition playerFor (d : PlayerSessionDirectory) (c : ConnectionId) : option PlayerId :=
  session_player <$> sessions_by_connection d !! c.

Definition connectionFor (d : PlayerSessionDirectory) (player : PlayerId) : option ConnectionId :=
  match connections_by_player d !! player with
  | None => None
  | Some c =>
      match sessions_by_connection d !! c with
      | None => None
      | Some s => if bool_decide (session_state s = Active) then Some c else None
      end
  end.

Definition locationFor (d : PlayerSessionDirectory) (c : ConnectionId) : option PlayerLocation :=
  match sessions_by_connection d !! c with None => None | Some s => session_location s end.

Definition locationSnapshotFor (d : PlayerSessionDirectory) (c : ConnectionId) : PlayerLocationSnapshot :=
  match sessions_by_connection d !! c with
  | None => mkSnapshot false None
  | Some s => if location_known s then mkSnapshot true (session_location s) else mkSnapshot false None
  end.

Definition noteLocation (d : PlayerSessionDirectory) (c : ConnectionId) (l : option PlayerLocation)
    : PlayerSessionDirectory :=
  match sessions_by_connection d !! c with
  | None => d
  | Some s => with_session_of d c (mkSession (session_player s) (session_state s) true l)
  end.

Definition set_state (s : Session) (st : State) : Session :=
  mkSession (session_player s) st (location_known s) (session_location s).

Definition beginClose (d : PlayerSessionDirectory) (c : ConnectionId) : bool * PlayerSessionDirectory :=
  match sessions_by_connection d !! c with
  | None => (false, d)
  | Some s => (true, with_session_of d c (set_state s Closing))
  end.

Definition rollbackClose (d : PlayerSessionDirectory) (c : ConnectionId) : PlayerSessionDirectory :=
  match sessions_by_connection d !! c with
  | None => d
  | Some s => with_session_of d c (set_state s Active)
  end.

Definition completePassivation (d : PlayerSessionDirectory) (player : PlayerId) (c : ConnectionId)
    : PlayerSessionDirectory :=
  if negb (bool_decide (connections_by_player d !! player = Some c)) then d
  else
    match sessions_by_connection d !! c with
    | None => d
    | Some s => if negb (bool_decide (session_state s = Closing)) then d else detach d c player
    end.

Definition abandon (d : PlayerSessionDirectory) (c : ConnectionId) : PlayerSessionDirectory :=
  let d1 := clearProvisionalActivity d c in
  match sessions_by_connection d1 !! c with
  | None => d1
  | Some s => detach d1 c (session_player s)
  end.

(** ** Calls in any order *)

Inductive DirectoryOp :=
| DAttach (c : ConnectionId) (player : PlayerId)
| DRollbackAttach (c : ConnectionId) (player : PlayerId)
| DNoteProvisional (c : ConnectionId)
| DClearProvisional (c : ConnectionId)
| DNoteLocation (c : ConnectionId) (l : option PlayerLocation)
| DBeginClose (c : ConnectionId)
| DRollbackClose (c : ConnectionId)
| DCompletePassivation (player : PlayerId) (c : ConnectionId)
| DAbandon (c : ConnectionId).

Definition directory_step (d : PlayerSessionDirectory) (op : DirectoryOp) : PlayerSessionDirectory :=
  match op with
  | DAttach c player => (tryAttach d c player).2
  | DRollbackAttach c player => rollbackAttach d c player
  | DNoteProvisional c => (noteProvisionalActivity d c).2
  | DClearProvisional c => clearProvisionalActivity d c
  | DNoteLocation c l => noteLocation d c l
  | DBeginClose c => (beginClose d c).2
  | DRollbackClose c => rollbackClose d c
  | DCompletePassivation player c => completePassivation d player c
  | DAbandon c => abandon d c
  end.

(** ** The two maps are inverse to each other *)

Record directory_ok (d : PlayerSessionDirectory) : Prop := {
  dk_inverse : ∀ c player, connections_by_player d !! player = Some c ↔ playerFor d c = Some player;
  dk_provisional : ∀ c, c ∈ provisional_activity d → sessions_by_connection d !! c = None
}.

Lemma playerFor_insert d c s c' :
  playerFor (with_session_of d c s) c' = if decide (c = c') then Some (session_player s) else playerFor d c'.
Proof. unfold playerFor; simpl. rewrite lookup_insert. by destruct (decide (c = c')). Qed.

(** Rewriting a session without changing its player. *)
Lemma directory_ok_same d c s s' :
  directory_ok d → sessions_by_connection d !! c = Some s → session_player s' = session_player s →
  directory_ok (with_session_of d c s').
Proof.
  intros [Hinv Hpr] Hs Hp. constructor.
  - intros c' player. rewrite playerFor_insert. simpl. rewrite Hinv. destruct (decide (c = c')) as [<-|]; [|done].
    unfold playerFor. rewrite Hs. simpl. by rewrite Hp.
  - intros c' Hc. simpl. rewrite lookup_insert_ne; [by apply Hpr|]. intros ->. apply Hpr in Hc. congruence.
Qed.

Lemma directory_ok_detach d c player :
  directory_ok d → playerFor d c = Some player → directory_ok (detach d c player).
Proof.
  intros [Hinv Hpr] Hp. constructor.
  - intros c' q. unfold playerFor; simpl. rewrite !lookup_delete.
    destruct (decide (player = q)) as [<-|Hq], (decide (c = c')) as [<-|Hc]; simpl.
    + done.
    + split; [done|]. intros Hq. fold (playerFor d c') in Hq. apply Hinv in Hp, Hq. congruence.
    + split; [|done]. intros Hq'. apply Hinv in Hq'. congruence.
    + apply Hinv.
  - intros c' Hc. simpl. rewrite lookup_delete. destruct (decide (c = c')); [done|]. by apply Hpr.
Qed.

Lemma directory_ok_provisional d s :
  directory_ok d → (∀ c, c ∈ s → sessions_by_connection d !! c = None) →
  directory_ok (mkDirectory (sessions_by_connection d) (connections_by_player d) s).
Proof. by intros [Hinv _] Hs. Qed.

Lemma tryAttach_ok d c player : directory_ok d → directory_ok (tryAttach d c player).2.
Proof.
  intros Hd. pose proof Hd as [Hinv Hpr]. unfold tryAttach. case_bool_decide as Hpc; [done|].
  destruct (sessions_by_connection d !! c) as [s|] eqn:Es; [by repeat split_if|].
  destruct (connections_by_player d !! player) as [c0|] eqn:Ep; [done|]. simpl. constructor.
  - intros c' q. simpl. rewrite lookup_insert. unfold playerFor; simpl. rewrite lookup_insert.
    destruct (decide (player = q)) as [<-|Hq], (decide (c = c')) as [<-|Hc]; simpl.
    + done.
    + split; [congruence|]. intros Hp. fold (playerFor d c') in Hp. apply Hinv in Hp. congruence.
    + split; [|congruence]. intros Hp. apply Hinv in Hp. unfold playerFor in Hp. rewrite Es in Hp. done.
    + apply Hinv.
  - intros c' Hc. simpl. rewrite lookup_insert_ne; [by apply Hpr|]. by intros ->.
Qed.

Lemma directory_step_ok d op : directory_ok d → directory_ok (directory_step d op).
Proof.
  intros Hd. pose proof Hd as [Hinv Hpr]. destruct op as [c p|c p|c|c|c l|c|c|p c|c]; simpl.
  - by apply tryAttach_ok.
  - unfold rollbackAttach. destruct (sessions_by_connection d !! c) as [s|] eqn:Es; [|done].
    destruct (_ || _) eqn:Eg; [done|]. to_prop. subst p. apply directory_ok_detach; [done|].
    unfold playerFor. by rewrite Es.
  - unfold noteProvisionalActivity. destruct (sessions_by_connection d !! c) eqn:Es; [done|].
    apply directory_ok_provisional; [done|]. intros c'. rewrite elem_of_union, elem_of_singleton. naive_solver.
  - apply directory_ok_provisional; [done|]. intros c'. rewrite elem_of_difference. naive_solver.
  - unfold noteLocation. destruct (sessions_by_connection d !! c) eqn:Es; [|done]. by eapply directory_ok_same.
  - unfold beginClose. destruct (sessions_by_connection d !! c) eqn:Es; [|done]. by eapply directory_ok_same.
  - unfold rollbackClose. destruct (sessions_by_connection d !! c) eqn:Es; [|done]. by eapply directory_ok_same.
  - unfold completePassivation. case_bool_decide as Hp; [|done]. simpl negb. cbn match.
    destruct (sessions_by_connection d !! c) eqn:Es; [|done]. case_bool_decide; [|done]. simpl.
    apply directory_ok_detach; [done|]. by apply Hinv.
  - assert (Hd1 : directory_ok (clearProvisionalActivity d c)).
    { apply directory_ok_provisional; [done|]. intros c'. rewrite elem_of_difference. naive_solver. }
    unfold abandon. destruct (sessions_by_connection (clearProvisionalActivity d c) !! c) as [s|] eqn:Es; [|done].
    apply directory_ok_detach; [done|]. unfold playerFor. by rewrite Es.
Qed.

Definition directory_run (d : PlayerSessionDirectory) (ops : list DirectoryOp) : PlayerSessionDirectory :=
  fold_left directory_step ops d.

Lemma directory_run_ok d ops : directory_ok d → directory_ok (directory_run d ops).
Proof.
  revert d. induction ops as [|op ops IH]; intros d Hd; [done|]. by apply IH, directory_step_ok.
Qed.

Lemma empty_directory_ok : directory_ok empty_directory.
Proof. constructor; [intros c p; unfold playerFor; simpl; by rewrite !lookup_empty|]. intros c; set_solver. Qed.

(** The session of [c] is in state [st] and belongs to [player]. *)
Definition serves (st : State) (d : PlayerSessionDirectory) (c : ConnectionId) (player : PlayerId) : Prop :=
  ∃ s, sessions_by_connection d !! c = Some s ∧ session_player s = player ∧ session_state s = st.

Lemma serves_playerFor st d c player : serves st d c player → playerFor d c = Some player.
Proof. intros (s & Hs & Hp & _). unfold playerFor. rewrite Hs. simpl. by rewrite Hp. Qed.

Lemma connectionFor_serves d c player :
  directory_ok d → connectionFor d player = Some c ↔ serves Active d c player.
Proof.
  intros [Hinv _]. unfold connectionFor. split.
  - destruct (connections_by_player d !! player) as [c'|] eqn:Ep; [|done].
    destruct (sessions_by_connection d !! c') as [s|] eqn:Es; [|done]. case_bool_decide; [|done].
    intros [= <-]. apply Hinv in Ep. unfold playerFor in Ep. rewrite Es in Ep. injection Ep as Ep. by exists s.
  - intros Hs. pose proof (serves_playerFor _ _ _ _ Hs) as Hp. apply Hinv in Hp. rewrite Hp.
    destruct Hs as (s & -> & _ & Hst). by rewrite bool_decide_true.
Qed.

(** Operations that end the close of [player]'s session on [c]. *)
Definition releases (c : ConnectionId) (player : PlayerId) (op : DirectoryOp) : bool :=
  match op with
  | DRollbackClose c' | DAbandon c' => bool_decide (c' = c)
  | DCompletePassivation player' c' => (player' =? player) && bool_decide (c' = c)
  | _ => false
  end.

Lemma closing_step d c player op :
  directory_ok d → serves Closing d c player → releases c player op = false →
  serves Closing (directory_step d op) c player.
Proof.
  intros [Hinv Hpr] (s & Hs & Hp & Hst) Hr.
  assert (Hsame : ∀ c' s', c' ≠ c → serves Closing (with_session_of d c' s') c player).
  { intros c' s' Hc. exists s. simpl. by rewrite lookup_insert_ne. }
  assert (Hother : ∀ c' q, c' ≠ c → serves Closing (detach d c' q) c player).
  { intros c' q Hc. exists s. simpl. by rewrite lookup_delete_ne. }
  assert (Hkeep : serves Closing d c player) by by exists s.
  destruct op as [c' p|c' p|c'|c'|c' l|c'|c'|p c'|c']; simpl in Hr |- *.
  - unfold tryAttach. case_bool_decide; [done|]. destruct (sessions_by_connection d !! c') as [s'|] eqn:Es.
    { by repeat split_if. }
    destruct (has_value _); [done|]. exists s. simpl. rewrite lookup_insert_ne; [done|congruence].
  - unfold rollbackAttach. destruct (sessions_by_connection d !! c') as [s'|] eqn:Es; [|done].
    destruct (_ || _) eqn:Eg; [done|]. apply orb_false_elim in Eg as [_ Ea]. apply negb_false_iff, bool_decide_eq_true in Ea. apply Hother. intros ->. congruence.
  - unfold noteProvisionalActivity. by destruct (has_value _).
  - done.
  - unfold noteLocation. destruct (sessions_by_connection d !! c') as [s'|] eqn:Es; [|done].
    destruct (decide (c' = c)) as [->|Hc]; [|by apply Hsame]. simplify_eq.
    eexists. simpl. rewrite lookup_insert_eq. by split_and!.
  - unfold beginClose. destruct (sessions_by_connection d !! c') as [s'|] eqn:Es; [|done]. simpl.
    destruct (decide (c' = c)) as [->|Hc]; [|by apply Hsame]. simplify_eq.
    eexists. simpl. rewrite lookup_insert_eq. by split_and!.
  - unfold rollbackClose. apply bool_decide_eq_false in Hr.
    destruct (sessions_by_connection d !! c') as [s'|]; [by apply Hsame|done].
  - assert (Hr' : p ≠ player ∨ c' ≠ c).
    { apply andb_false_iff in Hr as [Hr|Hr]; [left; by apply Z.eqb_neq|right; by apply bool_decide_eq_false in Hr]. }
    clear Hr. unfold completePassivation. case_bool_decide as Hq; [|done]. simpl negb. cbn match.
    destruct (sessions_by_connection d !! c') as [s'|] eqn:Es; [|done]. destruct (negb _); [done|].
    apply Hother. intros ->. apply Hinv in Hq. unfold playerFor in Hq. rewrite Hs in Hq. injection Hq as Hq.
    destruct Hr'; congruence.
  - unfold abandon. simpl. apply bool_decide_eq_false in Hr.
    destruct (sessions_by_connection d !! c') as [s'|]; [|done]. exists s. simpl. by rewrite lookup_delete_ne.
Qed.

Lemma closing_run ops d c player :
  directory_ok d → serves Closing d c player → Forall (λ op, releases c player op = false) ops →
  serves Closing (directory_run d ops) c player.
Proof.
  revert d. induction ops as [|op ops IH]; intros d Hd Hc Hops; [done|].
  apply Forall_cons in Hops as [Hop Hops]. apply IH; [by apply directory_step_ok|by apply closing_step|done].
Qed.

Lemma tryAttach_served st d c c' player :
  directory_ok d → serves st d c player → (tryAttach d c' player).1 ≠ Attached ∧ (tryAttach d c' player).2 = d.
Proof.
  intros [Hinv _] Hs%serves_playerFor. apply Hinv in Hs. unfold tryAttach.
  case_bool_decide; [done|]. destruct (sessions_by_connection d !! c'); [by repeat split_if|]. by rewrite Hs.
Qed.

Lemma completePassivation_closing d c player :
  directory_ok d → serves Closing d c player → completePassivation d player c = detach d c player.
Proof.
  intros [Hinv _] Hc. pose proof (serves_playerFor _ _ _ _ Hc) as Hp. apply Hinv in Hp.
  unfold completePassivation. rewrite bool_decide_true by done. simpl negb. cbn match.
  destruct Hc as (s & -> & _ & ->). by rewrite bool_decide_true.
Qed.

(** ** Properties *)

(** Whatever the order of attaches, rollbacks, closes, passivations and
    abandons, starting from the empty directory: the connection the directory
    names for a player is exactly the one whose active session is that player's;
    no two connections serve the same player; and a connection with
    provisional activity has no session. *)
Theorem directory_bijective (ops : list DirectoryOp) :
  let d := directory_run empty_directory ops in
  (∀ c player, connectionFor d player = Some c ↔ serves Active d c player) ∧
  (∀ c c' player, playerFor d c = Some player → playerFor d c' = Some player → c = c') ∧
  (∀ c player, (noteProvisionalActivity d c).1 = true → playerFor d c ≠ Some player).
Proof.
  intros d. assert (Hd : directory_ok d) by apply directory_run_ok, empty_directory_ok. split_and!.
  - intros c player. by apply connectionFor_serves.
  - intros c c' player H1%(dk_inverse _ Hd) H2%(dk_inverse _ Hd). congruence.
  - intros c player. unfold noteProvisionalActivity, playerFor. by destruct (sessions_by_connection d !! c).
Qed.

(** A successful attach makes the connection the player's active one
    and leaves every other player's connection alone; a refused attach
    changes nothing and names a conflict that exists; and rolling back an
    attach restores the directory exactly as it was. *)
Theorem attach_exact (d : PlayerSessionDirectory) (c : ConnectionId) (player : PlayerId) :
  directory_ok d →
  match tryAttach d c player with
  | (Attached, d') =>
      connectionFor d' player = Some c ∧ rollbackAttach d' c player = d ∧
      (∀ c' q, q ≠ player → connectionFor d' q = Some c' ↔ connectionFor d q = Some c')
  | (AlreadyAttached, d') => d' = d ∧ connectionFor d player = Some c
  | (ConnectionConflict, d') => d' = d ∧ ∃ q, q ≠ player ∧ connectionFor d q = Some c
  | (PlayerConflict, d') => d' = d ∧ ∃ c', c' ≠ c ∧ playerFor d c' = Some player
  | (ProvisionalActivity, d') => d' = d ∧ playerFor d c = None ∧ (noteProvisionalActivity d c).1 = false
  | (ClosingSession, d') => d' = d ∧ ∃ q, serves Closing d c q
  end.
Proof.
  intros Hd. pose proof Hd as [Hinv Hpr]. pose proof (tryAttach_ok d c player Hd) as Hd'. revert Hd'.
  unfold tryAttach. case_bool_decide as Hpc.
  { intros _. split; [done|]. unfold playerFor, noteProvisionalActivity. rewrite (Hpr c Hpc). simpl.
    by rewrite bool_decide_true. }
  destruct (sessions_by_connection d !! c) as [s|] eqn:Es.
  { case_bool_decide as Hst; [intros _; split; [done|]; by exists (session_player s), s|].
    assert (Hact : serves Active d c (session_player s)) by (exists s; by destruct (session_state s)).
    apply connectionFor_serves in Hact; [|done].
    destruct (session_player s =? player) eqn:Ep; intros _; split; try done; to_prop; [congruence|].
    exists (session_player s). split; [lia|done]. }
  destruct (connections_by_player d !! player) as [c0|] eqn:Ep; simpl; intros Hd'.
  { split; [done|]. exists c0. apply Hinv in Ep. split; [|done]. intros ->. unfold playerFor in Ep.
    by rewrite Es in Ep. }
  split_and!.
  - unfold connectionFor. simpl. by rewrite !lookup_insert_eq.
  - unfold rollbackAttach. simpl. rewrite lookup_insert_eq. simpl. rewrite Z.eqb_refl. simpl.
    unfold detach. simpl. rewrite !delete_insert_id by done. by destruct d.
  - intros c' q Hq. rewrite !connectionFor_serves by done. unfold serves. simpl. rewrite lookup_insert.
    destruct (decide (c = c')) as [<-|]; [|done].
    split; [intros (s & Hs & Hp & _); injection Hs as <-; simpl in Hp; lia|]. rewrite Es. by intros (s & Hs & _).
Qed.

(** While a player's session is closing, nothing but the end of its
    own close (passivation completed, close rolled back or the connection
    abandoned) releases the player: whatever else happens meanwhile, the
    player has no connection, cannot be attached to any, and the
    session waits; completing the passivation then frees the player, so an
    unused connection can attach it. *)
Theorem closing_player_fenced (d : PlayerSessionDirectory) (c : ConnectionId) (player : PlayerId)
    (ops : list DirectoryOp) :
  directory_ok d → serves Closing d c player → Forall (λ op, releases c player op = false) ops →
  let d' := directory_run d ops in
  connectionFor d' player = None ∧
  (∀ c', (tryAttach d' c' player).1 ≠ Attached ∧ (tryAttach d' c' player).2 = d') ∧
  let d'' := completePassivation d' player c in
  playerFor d'' c = None ∧
  ∀ c', playerFor d'' c' = None → (noteProvisionalActivity d'' c').1 = true → (tryAttach d'' c' player).1 = Attached.
Proof.
  intros Hd Hc Hops d'. assert (Hd' : directory_ok d') by by apply directory_run_ok.
  assert (Hc' : serves Closing d' c player) by by apply closing_run.
  split_and!.
  - destruct (connectionFor d' player) as [c'|] eqn:Ec; [|done]. apply connectionFor_serves in Ec; [|done].
    assert (c' = c) as ->.
    { apply serves_playerFor, (dk_inverse _ Hd') in Ec. apply serves_playerFor, (dk_inverse _ Hd') in Hc'. congruence. }
    destruct Ec as (s & Hs & _ & Ha), Hc' as (s' & Hs' & _ & Hcl). congruence.
  - intros c'. by eapply tryAttach_served.
  - rewrite (completePassivation_closing d' c player) by done. split.
    + unfold playerFor. simpl. by rewrite lookup_delete_eq.
    + intros c' Hn Hp. unfold playerFor in Hn. unfold noteProvisionalActivity in Hp. unfold tryAttach.
      destruct (sessions_by_connection (detach d' c player) !! c'); [done|]. simpl in Hp.
      apply negb_true_iff in Hp. simpl provisional_activity. rewrite Hp. simpl. by rewrite lookup_delete_eq.
Qed.

(** ** Witnesses *)

Definition first_connection : ConnectionId := mkConnectionId 7 1.
Definition second_connection : ConnectionId := mkConnectionId 8 1.

Definition closing_directory : PlayerSessionDirectory :=
  directory_run empty_directory [DAttach first_connection 42; DBeginClose first_connection].

Lemma closing_directory_ok : directory_ok closing_directory.
Proof. apply directory_run_ok, empty_directory_ok. Qed.

Lemma directory_bijective_witness :
  let d := directory_run empty_directory [DAttach first_connection 42; DNoteProvisional second_connection] in
  connectionFor d 42 = Some first_connection ∧ serves Active d first_connection 42.
Proof.
  split; [by vm_compute|].
  apply (directory_bijective [DAttach first_connection 42; DNoteProvisional second_connection]). by vm_compute.
Defined.

Lemma attach_exact_witness :
  rollbackAttach (tryAttach closing_directory second_connection 9).2 second_connection 9 = closing_directory.
Proof. exact (proj1 (proj2 (attach_exact closing_directory second_connection 9 closing_directory_ok))). Defined.

Lemma closing_player_fenced_witness :
  serves Closing closing_directory first_connection 42 ∧
  connectionFor (directory_run closing_directory [DAttach second_connection 42; DAttach second_connection 9]) 42 = None.
Proof.
  assert (Hs : serves Closing closing_directory first_connection 42)
    by (exists (mkSession 42 Closing false None); by vm_compute).
  split; [exact Hs|].
  apply (closing_player_fenced closing_directory first_connection 42
           [DAttach second_connection 42; DAttach second_connection 9] closing_directory_ok Hs).
  by repeat constructor.
Defined.
