(* ===== verification/RouteCoordinator.v ===== *)
(** * Route coordinator

    [RouteCoordinator] of [src/src/server/route_coordinator.cpp] with the types
    of [route_coordinator.hpp], [zone_handoff.hpp] and [room_entry.hpp]: which
    zone serves a connection, under which epoch, and how far a move to another
    zone, into a room or back has come.  Every method runs under one mutex and
    is one atomic step; the one-field id structs are their 64-bit values.  A
    method that throws leaves the coordinator as it was, since the epoch that
    cannot be incremented is already in the map. *)

From S2P Require Import Prelude Zone Connection.

Abbreviation RoomId := Z (only parsing).
Abbreviation ZoneHandoffId := Z (only parsing).
Abbreviation RoomEntryId := Z (only parsing).
Abbreviation RoomReturnId := Z (only parsing).

(** ** Data *)

Inductive ZoneHandoffStep := LeaveSource | EnterTarget | RestoreSource | CleanupTarget | CleanupSource.

#[export] Instance ZoneHandoffStep_eq_dec : EqDecision ZoneHandoffStep.
Proof. solve_decision. Defined.

Inductive RoomEntryStep := RequestSnapshot | EntryJoinRoom | EntryLeaveSource | ReturnZone.

#[export] Instance RoomEntryStep_eq_dec : EqDecision RoomEntryStep.
Proof. solve_decision. Defined.

Record SessionRoute := mkRoute {
  route_connection : ConnectionId;
  route_player : PlayerId;
  route_zone : ZoneId;
  route_epoch : Z
}.

#[export] Instance SessionRoute_eq_dec : EqDecision SessionRoute.
Proof. solve_decision. Defined.

Record RouteAdmission := mkAdmission { admission_route : SessionRoute; created : bool }.

Record ZoneHandoff := mkHandoff {
  handoff_id : ZoneHandoffId;
  handoff_source : SessionRoute;
  target_zone : ZoneId;
  target_epoch : Z;
  restore_epoch : Z;
  last_source_position : ZonePosition;
  requested_target_position : ZonePosition;
  handoff_request_id : Z;
  handoff_step : ZoneHandoffStep
}.

Record RoomEntry := mkRoomEntry {
  entry_id : RoomEntryId;
  entry_source : SessionRoute;
  entry_room : RoomId;
  entry_request_id : Z;
  entry_step : RoomEntryStep
}.

Record InRoomState := mkInRoom {
  in_room_connection : ConnectionId;
  in_room_player : PlayerId;
  in_room : RoomId;
  in_room_return_zone : ZoneId;
  in_room_return_position : ZonePosition
}.

Record RoomReturn := mkRoomReturn {
  return_id : RoomReturnId;
  return_connection : ConnectionId;
  return_player : PlayerId;
  return_room : RoomId;
  return_zone : ZoneId;
  return_epoch : Z;
  return_position : ZonePosition
}.

(** The statistics members, by name. *)
Inductive RouteCounter :=
| HandoffsStarted | HandoffsCompleted | HandoffsRestored | HandoffsRolledBack | HandoffsAbandoned | HandoffsRejected
| HandoffHighWaterMark
| RoomEntriesStarted | RoomEntriesCompleted | RoomEntriesRolledBack | RoomEntriesAbandoned | RoomEntriesRejected
| RoomEntryHighWaterMark
| RoomReturnsStarted | RoomReturnsCompleted | RoomReturnsAbandoned | RoomReturnHighWaterMark.

#[export] Instance RouteCounter_eq_dec : EqDecision RouteCounter.
Proof. solve_decision. Defined.

Record RouteCoordinator := mkCoordinator {
  max_handoffs : Z;
  routes : gmap ConnectionId SessionRoute;
  handoffs : gmap ConnectionId ZoneHandoff;
  room_entries : gmap ConnectionId RoomEntry;
  in_rooms : gmap ConnectionId InRoomState;
  room_returns : gmap ConnectionId RoomReturn;
  last_epochs : gmap Z Z;
  next_handoff_id : Z;
  next_room_entry_id : Z;
  next_room_return_id : Z;
  route_counters : RouteCounter → Z
}.

Definition set_routes (m : gmap ConnectionId SessionRoute) (rc : RouteCoordinator) : RouteCoordinator :=
  mkCoordinator (max_handoffs rc) m (handoffs rc) (room_entries rc) (in_rooms rc) (room_returns rc) (last_epochs rc)
    (next_handoff_id rc) (next_room_entry_id rc) (next_room_return_id rc) (route_counters rc).
Definition set_handoffs (m : gmap ConnectionId ZoneHandoff) (rc : RouteCoordinator) : RouteCoordinator :=
  mkCoordinator (max_handoffs rc) (routes rc) m (room_entries rc) (in_rooms rc) (room_returns rc) (last_epochs rc)
    (next_handoff_id rc) (next_room_entry_id rc) (next_room_return_id rc) (route_counters rc).
Definition set_room_entries (m : gmap ConnectionId RoomEntry) (rc : RouteCoordinator) : RouteCoordinator :=
  mkCoordinator (max_handoffs rc) (routes rc) (handoffs rc) m (in_rooms rc) (room_returns rc) (last_epochs rc)
    (next_handoff_id rc) (next_room_entry_id rc) (next_room_return_id rc) (route_counters rc).
Definition set_in_rooms (m : gmap ConnectionId InRoomState) (rc : RouteCoordinator) : RouteCoordinator :=
  mkCoordinator (max_handoffs rc) (routes rc) (handoffs rc) (room_entries rc) m (room_returns rc) (last_epochs rc)
    (next_handoff_id rc) (next_room_entry_id rc) (next_room_return_id rc) (route_counters rc).
Definition set_room_returns (m : gmap ConnectionId RoomReturn) (rc : RouteCoordinator) : RouteCoordinator :=
  mkCoordinator (max_handoffs rc) (routes rc) (handoffs rc) (room_entries rc) (in_rooms rc) m (last_epochs rc)
    (next_handoff_id rc) (next_room_entry_id rc) (next_room_return_id rc) (route_counters rc).
Definition set_last_epochs (m : gmap Z Z) (rc : RouteCoordinator) : RouteCoordinator :=
  mkCoordinator (max_handoffs rc) (routes rc) (handoffs rc) (room_entries rc) (in_rooms rc) (room_returns rc) m
    (next_handoff_id rc) (next_room_entry_id rc) (next_room_return_id rc) (route_counters rc).
Definition set_next_ids (h e r : Z) (rc : RouteCoordinator) : RouteCoordinator :=
  mkCoordinator (max_handoffs rc) (routes rc) (handoffs rc) (room_entries rc) (in_rooms rc) (room_returns rc)
    (last_epochs rc) h e r (route_counters rc).
Definition set_counters (f : RouteCounter → Z) (rc : RouteCoordinator) : RouteCoordinator :=
  mkCoordinator (max_handoffs rc) (routes rc) (handoffs rc) (room_entries rc) (in_rooms rc) (room_returns rc)
    (last_epochs rc) (next_handoff_id rc) (next_room_entry_id rc) (next_room_return_id rc) f.

(** [++counter], and [mark = std::max(mark, size)]. *)
Definition bump (c : RouteCounter) (rc : RouteCoordinator) : RouteCoordinator :=
  set_counters (fun c' => if decide (c = c') then u64 (route_counters rc c + 1) else route_counters rc c') rc.
Definition raise (c : RouteCounter) (size : nat) (rc : RouteCoordinator) : RouteCoordinator :=
  set_counters (fun c' => if decide (c = c') then Z.max (route_counters rc c) (Z.of_nat size) else route_counters rc c') rc.

(** ** Operations *)

Definition makeRouteCoordinator (max : Z) : outcome RouteCoordinator :=
  throw_if (max =? 0) InvalidArgument (Ret (mkCoordinator max ∅ ∅ ∅ ∅ ∅ ∅ 1 1 1 (fun _ => 0))).

(** A connection in one of the four transitional states. *)
Definition in_transition (rc : RouteCoordinator) (c : ConnectionId) : bool :=
  has_value (handoffs rc !! c) || has_value (room_entries rc !! c) || has_value (in_rooms rc !! c)
  || has_value (room_returns rc !! c).

Definition last_epoch (rc : RouteCoordinator) (player : PlayerId) : Z := default 0 (last_epochs rc !! player).

(** [++_last_epoch[player]], which throws when the epochs are used up. *)
Definition next_epoch (rc : RouteCoordinator) (player : PlayerId) : outcome (Z * RouteCoordinator) :=
  throw_if (last_epoch rc player =? U64_MAX) OverflowError
    (let epoch := u64 (last_epoch rc player + 1) in
     Ret (epoch, set_last_epochs (<[player := epoch]> (last_epochs rc)) rc)).

Definition tryEnter (rc : RouteCoordinator) (c : ConnectionId) (player : PlayerId) (zone : ZoneId)
    : outcome (option RouteAdmission * RouteCoordinator) :=
  if zone =? 0 then Ret (None, rc)
  else if in_transition rc c then Ret (None, rc)
  else
    match routes rc !! c with
    | Some existing =>
        if negb (route_player existing =? player) || negb (route_zone existing =? zone) then Ret (None, rc)
        else Ret (Some (mkAdmission existing false), rc)
    | None =>
        let! (epoch, rc1) := next_epoch rc player in
        let route := mkRoute c player zone epoch in
        Ret (Some (mkAdmission route true), set_routes (<[c := route]> (routes rc1)) rc1)
    end.

Definition tryBeginHandoff (rc : RouteCoordinator) (c : ConnectionId) (player : PlayerId) (target : ZoneId)
    (source_position requested_position : ZonePosition) (request_id : Z)
    : outcome (option ZoneHandoff * RouteCoordinator) :=
  let reject := Ret (None, bump HandoffsRejected rc) in
  match routes rc !! c with
  | None => reject
  | Some source =>
      if (target =? 0) || negb (route_player source =? player) || (route_zone source =? target) || in_transition rc c
         || (Z.of_nat (size (handoffs rc)) =? max_handoffs rc) || (next_handoff_id rc =? U64_MAX)
      then reject
      else
        let! (epoch, rc1) := next_epoch rc player in
        let handoff := mkHandoff (next_handoff_id rc1) source target epoch 0 source_position requested_position request_id
                         LeaveSource in
        let rc2 := set_next_ids (u64 (next_handoff_id rc1 + 1)) (next_room_entry_id rc1) (next_room_return_id rc1) rc1 in
        let rc3 := bump HandoffsStarted (set_handoffs (<[c := handoff]> (handoffs rc2)) rc2) in
        Ret (Some handoff, raise HandoffHighWaterMark (size (handoffs rc3)) rc3)
  end.

Definition handoffFor (rc : RouteCoordinator) (c : ConnectionId) : option ZoneHandoff := handoffs rc !! c.

Definition findHandoff (rc : RouteCoordinator) (c : ConnectionId) (id : ZoneHandoffId) : option ZoneHandoff :=
  match handoffs rc !! c with
  | Some h => if handoff_id h =? id then Some h else None
  | None => None
  end.

Definition with_step (step : ZoneHandoffStep) (h : ZoneHandoff) : ZoneHandoff :=
  mkHandoff (handoff_id h) (handoff_source h) (target_zone h) (target_epoch h) (restore_epoch h) (last_source_position h)
    (requested_target_position h) (handoff_request_id h) step.
Definition with_source_position (p : ZonePosition) (h : ZoneHandoff) : ZoneHandoff :=
  mkHandoff (handoff_id h) (handoff_source h) (target_zone h) (target_epoch h) (restore_epoch h) p
    (requested_target_position h) (handoff_request_id h) (handoff_step h).
Definition with_restore_epoch (e : Z) (h : ZoneHandoff) : ZoneHandoff :=
  mkHandoff (handoff_id h) (handoff_source h) (target_zone h) (target_epoch h) e (last_source_position h)
    (requested_target_position h) (handoff_request_id h) (handoff_step h).

Definition noteSourceLeft (rc : RouteCoordinator) (c : ConnectionId) (id : ZoneHandoffId) (position : ZonePosition)
    : bool * RouteCoordinator :=
  match findHandoff rc c id with
  | None => (false, rc)
  | Some h =>
      if negb (bool_decide (handoff_step h = LeaveSource)) then (false, rc)
      else (true, set_handoffs (<[c := with_step EnterTarget (with_source_position position h)]> (handoffs rc)) rc)
  end.

Definition beginSourceRestore (rc : RouteCoordinator) (c : ConnectionId) (id : ZoneHandoffId)
    : outcome (option Z * RouteCoordinator) :=
  match findHandoff rc c id with
  | None => Ret (None, rc)
  | Some h =>
      if negb (bool_decide (handoff_step h = EnterTarget)) then Ret (None, rc)
      else
        let! (epoch, rc1) := next_epoch rc (route_player (handoff_source h)) in
        Ret (Some epoch, set_handoffs (<[c := with_step RestoreSource (with_restore_epoch epoch h)]> (handoffs rc1)) rc1)
  end.

Definition beginCleanup (rc : RouteCoordinator) (c : ConnectionId) (id : ZoneHandoffId) (cleanup_step : ZoneHandoffStep)
    : bool * RouteCoordinator :=
  match findHandoff rc c id with
  | None => (false, rc)
  | Some h =>
      let cleans_target := bool_decide (cleanup_step = CleanupTarget) && bool_decide (handoff_step h = EnterTarget) in
      let cleans_source := bool_decide (cleanup_step = CleanupSource) && bool_decide (handoff_step h = RestoreSource) in
      if negb cleans_target && negb cleans_source then (false, rc)
      else (true, set_handoffs (<[c := with_step cleanup_step h]> (handoffs rc)) rc)
  end.

(** The end of a handoff: the new route replaces the old one. *)
Definition settle (rc : RouteCoordinator) (c : ConnectionId) (route : SessionRoute) (counter : RouteCounter)
    : RouteCoordinator :=
  bump counter (set_handoffs (delete c (handoffs rc)) (set_routes (<[route_connection route := route]> (routes rc)) rc)).

Definition completeTargetEnter (rc : RouteCoordinator) (c : ConnectionId) (id : ZoneHandoffId)
    : option SessionRoute * RouteCoordinator :=
  match findHandoff rc c id with
  | None => (None, rc)
  | Some h =>
      if negb (bool_decide (handoff_step h = EnterTarget)) then (None, rc)
      else
        let source := handoff_source h in
        let route := mkRoute (route_connection source) (route_player source) (target_zone h) (target_epoch h) in
        (Some route, settle rc c route HandoffsCompleted)
  end.

Definition completeSourceRestore (rc : RouteCoordinator) (c : ConnectionId) (id : ZoneHandoffId)
    : option SessionRoute * RouteCoordinator :=
  match findHandoff rc c id with
  | None => (None, rc)
  | Some h =>
      if negb (bool_decide (handoff_step h = RestoreSource)) || (restore_epoch h =? 0) then (None, rc)
      else
        let source := handoff_source h in
        let route := mkRoute (route_connection source) (route_player source) (route_zone source) (restore_epoch h) in
        (Some route, settle rc c route HandoffsRestored)
  end.

Definition rollbackHandoffBeforeLeave (rc : RouteCoordinator) (c : ConnectionId) (id : ZoneHandoffId)
    : bool * RouteCoordinator :=
  match findHandoff rc c id with
  | None => (false, rc)
  | Some h =>
      if negb (bool_decide (handoff_step h = LeaveSource)) then (false, rc)
      else (true, bump HandoffsRolledBack (set_handoffs (delete c (handoffs rc)) rc))
  end.

Definition tryBeginRoomEntry (rc : RouteCoordinator) (c : ConnectionId) (player : PlayerId) (room : RoomId)
    (request_id : Z) : option RoomEntry * RouteCoordinator :=
  let reject := (None, bump RoomEntriesRejected rc) in
  match routes rc !! c with
  | None => reject
  | Some source =>
      if (room =? 0) || negb (route_player source =? player) || in_transition rc c
         || (Z.of_nat (size (room_entries rc)) =? max_handoffs rc) || (next_room_entry_id rc =? U64_MAX)
      then reject
      else
        let entry := mkRoomEntry (next_room_entry_id rc) source room request_id RequestSnapshot in
        let rc1 := set_next_ids (next_handoff_id rc) (u64 (next_room_entry_id rc + 1)) (next_room_return_id rc) rc in
        let rc2 := bump RoomEntriesStarted (set_room_entries (<[c := entry]> (room_entries rc1)) rc1) in
        (Some entry, raise RoomEntryHighWaterMark (size (room_entries rc2)) rc2)
  end.

Definition roomEntryFor (rc : RouteCoordinator) (c : ConnectionId) : option RoomEntry := room_entries rc !! c.

Definition findRoomEntry (rc : RouteCoordinator) (c : ConnectionId) (id : RoomEntryId) : option RoomEntry :=
  match room_entries rc !! c with
  | Some e => if entry_id e =? id then Some e else None
  | None => None
  end.

Definition with_entry_step (step : RoomEntryStep) (e : RoomEntry) : RoomEntry :=
  mkRoomEntry (entry_id e) (entry_source e) (entry_room e) (entry_request_id e) step.

Definition noteRoomSnapshotReady (rc : RouteCoordinator) (c : ConnectionId) (id : RoomEntryId) : bool * RouteCoordinator :=
  match findRoomEntry rc c id with
  | None => (false, rc)
  | Some e =>
      if negb (bool_decide (entry_step e = RequestSnapshot)) then (false, rc)
      else (true, set_room_entries (<[c := with_entry_step EntryJoinRoom e]> (room_entries rc)) rc)
  end.

Definition noteRoomJoined (rc : RouteCoordinator) (c : ConnectionId) (id : RoomEntryId) : bool * RouteCoordinator :=
  match findRoomEntry rc c id with
  | None => (false, rc)
  | Some e =>
      if negb (bool_decide (entry_step e = EntryJoinRoom)) && negb (bool_decide (entry_step e = RequestSnapshot))
      then (false, rc)
      else (true, set_room_entries (<[c := with_entry_step EntryLeaveSource e]> (room_entries rc)) rc)
  end.

Definition completeRoomEntry (rc : RouteCoordinator) (c : ConnectionId) (id : RoomEntryId) (position : ZonePosition)
    : option InRoomState * RouteCoordinator :=
  match findRoomEntry rc c id with
  | None => (None, rc)
  | Some e =>
      let state := mkInRoom c (route_player (entry_source e)) (entry_room e) (route_zone (entry_source e)) position in
      (Some state,
       bump RoomEntriesCompleted
         (set_in_rooms (<[c := state]> (in_rooms rc))
            (set_room_entries (delete c (room_entries rc)) (set_routes (delete c (routes rc)) rc))))
  end.

Definition rollbackRoomEntryBeforeLeave (rc : RouteCoordinator) (c : ConnectionId) (id : RoomEntryId)
    : bool * RouteCoordinator :=
  match findRoomEntry rc c id with
  | None => (false, rc)
  | Some e => (true, bump RoomEntriesRolledBack (set_room_entries (delete c (room_entries rc)) rc))
  end.

Definition inRoomFor (rc : RouteCoordinator) (c : ConnectionId) : option InRoomState := in_rooms rc !! c.

(** The number of entries of a map that satisfy a test. *)
Definition count_entries {A} (p : ConnectionId → A → bool) (m : gmap ConnectionId A) : Z :=
  zlen (filter (fun x => p x.1 x.2 = true) (map_to_list m)).

Definition inRoomCountFor (rc : RouteCoordinator) (room : RoomId) : Z :=
  u64 (count_entries (fun _ s => in_room s =? room) (in_rooms rc)
       + count_entries (fun _ e => entry_room e =? room) (room_entries rc)).

Definition tryBeginRoomReturn (rc : RouteCoordinator) (c : ConnectionId) (room : RoomId)
    : outcome (option RoomReturn * RouteCoordinator) :=
  match in_rooms rc !! c with
  | None => Ret (None, rc)
  | Some s =>
      if negb (in_room s =? room) || has_value (room_returns rc !! c)
         || (Z.of_nat (size (room_returns rc)) =? max_handoffs rc) || (next_room_return_id rc =? U64_MAX)
      then Ret (None, rc)
      else
        let! (epoch, rc1) := next_epoch rc (in_room_player s) in
        let ret := mkRoomReturn (next_room_return_id rc1) c (in_room_player s) (in_room s) (in_room_return_zone s) epoch
                     (in_room_return_position s) in
        let rc2 := set_next_ids (next_handoff_id rc1) (next_room_entry_id rc1) (u64 (next_room_return_id rc1 + 1)) rc1 in
        let rc3 := set_room_returns (<[c := ret]> (room_returns rc2)) (set_in_rooms (delete c (in_rooms rc2)) rc2) in
        let rc4 := bump RoomReturnsStarted rc3 in
        Ret (Some ret, raise RoomReturnHighWaterMark (size (room_returns rc4)) rc4)
  end.

Definition roomReturnFor (rc : RouteCoordinator) (c : ConnectionId) : option RoomReturn := room_returns rc !! c.

Definition findRoomReturn (rc : RouteCoordinator) (c : ConnectionId) (id : RoomReturnId) : option RoomReturn :=
  match room_returns rc !! c with
  | Some r => if return_id r =? id then Some r else None
  | None => None
  end.

Definition completeRoomReturn (rc : RouteCoordinator) (c : ConnectionId) (id : RoomReturnId)
    : option SessionRoute * RouteCoordinator :=
  match findRoomReturn rc c id with
  | None => (None, rc)
  | Some r =>
      let route := mkRoute (return_connection r) (return_player r) (return_zone r) (return_epoch r) in
      (Some route,
       bump RoomReturnsCompleted
         (set_room_returns (delete c (room_returns rc)) (set_routes (<[route_connection route := route]> (routes rc)) rc)))
  end.

Definition abandonRoomReturn (rc : RouteCoordinator) (c : ConnectionId) (id : RoomReturnId) : bool * RouteCoordinator :=
  match findRoomReturn rc c id with
  | None => (false, rc)
  | Some r => (true, bump RoomReturnsAbandoned (set_room_returns (delete c (room_returns rc)) rc))
  end.

(** [_routes.erase] of the entry equal to [route]. *)
Definition erase_route (rc : RouteCoordinator) (route : SessionRoute) : RouteCoordinator :=
  if bool_decide (routes rc !! route_connection route = Some route)
  then set_routes (delete (route_connection route) (routes rc)) rc else rc.

Definition rollbackEnter (rc : RouteCoordinator) (a : RouteAdmission) : RouteCoordinator :=
  if negb (created a) then rc else erase_route rc (admission_route a).

(** The three states in which [routeFor] hides the route. *)
Definition moving (rc : RouteCoordinator) (c : ConnectionId) : bool :=
  has_value (handoffs rc !! c) || has_value (room_entries rc !! c) || has_value (room_returns rc !! c).

Definition routeFor (rc : RouteCoordinator) (c : ConnectionId) : option SessionRoute :=
  if moving rc c then None else routes rc !! c.

Definition routeCountFor (rc : RouteCoordinator) (zone : ZoneId) : Z :=
  u64 (count_entries (fun c r => negb (moving rc c) && (route_zone r =? zone)) (routes rc)
       + count_entries (fun _ h => (route_zone (handoff_source h) =? zone) || (target_zone h =? zone)) (handoffs rc)
       + count_entries (fun _ e => route_zone (entry_source e) =? zone) (room_entries rc)
       + count_entries (fun _ r => return_zone r =? zone) (room_returns rc)).

Definition completeLeave (rc : RouteCoordinator) (route : SessionRoute) : RouteCoordinator :=
  if moving rc (route_connection route) then rc else erase_route rc route.

Definition bump_if (b : bool) (c : RouteCounter) (rc : RouteCoordinator) : RouteCoordinator := if b then bump c rc else rc.

Definition abandon (rc : RouteCoordinator) (c : ConnectionId) : RouteCoordinator :=
  let rc1 := bump_if (has_value (handoffs rc !! c)) HandoffsAbandoned (set_handoffs (delete c (handoffs rc)) rc) in
  let rc2 := bump_if (has_value (room_entries rc1 !! c)) RoomEntriesAbandoned
               (set_room_entries (delete c (room_entries rc1)) rc1) in
  let rc3 := set_in_rooms (delete c (in_rooms rc2)) rc2 in
  let rc4 := bump_if (has_value (room_returns rc3 !! c)) RoomReturnsAbandoned
               (set_room_returns (delete c (room_returns rc3)) rc3) in
  set_routes (delete c (routes rc4)) rc4.
