(* ===== verification/RouteSpec.v ===== *)
(** * Route coordinator: invariant and theorems

    The life of a connection as a state machine: idle, with or without a route;
    in a handoff; entering a room; in a room; returning.  Every operation of
    [RouteCoordinator], called in any order with any arguments, keeps each
    connection in exactly one of these states. *)

From S2P Require Import Prelude Zone Connection RouteCoordinator.

(** ** Calls in any order *)

Inductive RouteOp :=
| REnter (c : ConnectionId) (player : PlayerId) (zone : ZoneId)
| RRollbackEnter (a : RouteAdmission)
| RBeginHandoff (c : ConnectionId) (player : PlayerId) (target : ZoneId) (source requested : ZonePosition) (request : Z)
| RSourceLeft (c : ConnectionId) (id : ZoneHandoffId) (position : ZonePosition)
| RBeginRestore (c : ConnectionId) (id : ZoneHandoffId)
| RBeginCleanup (c : ConnectionId) (id : ZoneHandoffId) (step : ZoneHandoffStep)
| RCompleteTarget (c : ConnectionId) (id : ZoneHandoffId)
| RCompleteRestore (c : ConnectionId) (id : ZoneHandoffId)
| RRollbackHandoff (c : ConnectionId) (id : ZoneHandoffId)
| RBeginEntry (c : ConnectionId) (player : PlayerId) (room : RoomId) (request : Z)
| RSnapshotReady (c : ConnectionId) (id : RoomEntryId)
| RRoomJoined (c : ConnectionId) (id : RoomEntryId)
| RCompleteEntry (c : ConnectionId) (id : RoomEntryId) (position : ZonePosition)
| RRollbackEntry (c : ConnectionId) (id : RoomEntryId)
| RBeginReturn (c : ConnectionId) (room : RoomId)
| RCompleteReturn (c : ConnectionId) (id : RoomReturnId)
| RAbandonReturn (c : ConnectionId) (id : RoomReturnId)
| RCompleteLeave (route : SessionRoute)
| RAbandon (c : ConnectionId).

(** The epochs a call hands out, with their player, and the coordinator after
    it; a call that throws changes nothing. *)
Definition route_step (rc : RouteCoordinator) (op : RouteOp) : list (PlayerId * Z) * RouteCoordinator :=
  let fallible {A} (grant : A → list (PlayerId * Z)) (r : outcome (option A * RouteCoordinator)) :=
    match r with
    | Ret (Some a, rc') => (grant a, rc')
    | Ret (None, rc') => ([], rc')
    | Throw _ => ([], rc)
    end in
  match op with
  | REnter c player zone =>
      fallible (fun a => if created a then [(player, route_epoch (admission_route a))] else []) (tryEnter rc c player zone)
  | RRollbackEnter a => ([], rollbackEnter rc a)
  | RBeginHandoff c player target source requested request =>
      fallible (fun h => [(player, target_epoch h)]) (tryBeginHandoff rc c player target source requested request)
  | RSourceLeft c id position => ([], (noteSourceLeft rc c id position).2)
  | RBeginRestore c id =>
      fallible (fun e => match handoffFor rc c with Some h => [(route_player (handoff_source h), e)] | None => [] end)
        (beginSourceRestore rc c id)
  | RBeginCleanup c id step => ([], (beginCleanup rc c id step).2)
  | RCompleteTarget c id => ([], (completeTargetEnter rc c id).2)
  | RCompleteRestore c id => ([], (completeSourceRestore rc c id).2)
  | RRollbackHandoff c id => ([], (rollbackHandoffBeforeLeave rc c id).2)
  | RBeginEntry c player room request => ([], (tryBeginRoomEntry rc c player room request).2)
  | RSnapshotReady c id => ([], (noteRoomSnapshotReady rc c id).2)
  | RRoomJoined c id => ([], (noteRoomJoined rc c id).2)
  | RCompleteEntry c id position => ([], (completeRoomEntry rc c id position).2)
  | RRollbackEntry c id => ([], (rollbackRoomEntryBeforeLeave rc c id).2)
  | RBeginReturn c room => fallible (fun r => [(return_player r, return_epoch r)]) (tryBeginRoomReturn rc c room)
  | RCompleteReturn c id => ([], (completeRoomReturn rc c id).2)
  | RAbandonReturn c id => ([], (abandonRoomReturn rc c id).2)
  | RCompleteLeave route => ([], completeLeave rc route)
  | RAbandon c => ([], abandon rc c)
  end.

Fixpoint route_run (rc : RouteCoordinator) (ops : list RouteOp) : list (PlayerId * Z) * RouteCoordinator :=
  match ops with
  | [] => ([], rc)
  | op :: rest =>
      let '(granted, rc1) := route_step rc op in
      let '(later, rc2) := route_run rc1 rest in (granted ++ later, rc2)
  end.

(** ** The states of a connection *)

Definition route_ok (last : PlayerId → Z) (c : ConnectionId) (r : SessionRoute) : Prop :=
  route_connection r = c ∧ 1 <= route_epoch r <= last (route_player r).

Record handoff_ok (last : PlayerId → Z) (next : Z) (c : ConnectionId) (h : ZoneHandoff) : Prop := {
  hk_source : route_ok last c (handoff_source h);
  hk_zones : target_zone h ≠ route_zone (handoff_source h);
  hk_target : route_epoch (handoff_source h) < target_epoch h <= last (route_player (handoff_source h));
  hk_id : 1 <= handoff_id h < next;
  hk_restore : match handoff_step h with
               | LeaveSource | EnterTarget | CleanupTarget => restore_epoch h = 0
               | RestoreSource | CleanupSource =>
                   target_epoch h < restore_epoch h <= last (route_player (handoff_source h))
               end
}.

Inductive session_state (last : PlayerId → Z) (next : Z) (c : ConnectionId)
  : option SessionRoute → option ZoneHandoff → option RoomEntry → option InRoomState → option RoomReturn → Prop :=
| session_idle r :
    (∀ x, r = Some x → route_ok last c x) → session_state last next c r None None None None
| session_handoff r h :
    handoff_ok last next c h → r = None ∨ r = Some (handoff_source h) → session_state last next c r (Some h) None None None
| session_entry r e :
    route_ok last c (entry_source e) → r = None ∨ r = Some (entry_source e) →
    session_state last next c r None (Some e) None None
| session_in_room s :
    in_room_connection s = c → session_state last next c None None None (Some s) None
| session_return t :
    return_connection t = c → 1 <= return_epoch t <= last (return_player t) →
    session_state last next c None None None None (Some t).

Definition session_ok (rc : RouteCoordinator) (c : ConnectionId) : Prop :=
  session_state (last_epoch rc) (next_handoff_id rc) c (routes rc !! c) (handoffs rc !! c) (room_entries rc !! c)
    (in_rooms rc !! c) (room_returns rc !! c).

Record coordinator_ok (rc : RouteCoordinator) : Prop := {
  ck_sessions : ∀ c, session_ok rc c;
  ck_epochs : ∀ p, in_u64 (last_epoch rc p);
  ck_next : 1 <= next_handoff_id rc <= U64_MAX;
  ck_handoffs : Z.of_nat (size (handoffs rc)) <= max_handoffs rc;
  ck_entries : Z.of_nat (size (room_entries rc)) <= max_handoffs rc;
  ck_returns : Z.of_nat (size (room_returns rc)) <= max_handoffs rc
}.

Lemma session_state_mono last last' next next' c r h e s t :
  (∀ p, last p <= last' p) → next <= next' →
  session_state last next c r h e s t → session_state last' next' c r h e s t.
Proof.
  intros Hl Hn.
  assert (Hr : ∀ x, route_ok last c x → route_ok last' c x).
  { intros x [? ?]. specialize (Hl (route_player x)). split; [done|lia]. }
  destruct 1 as [r Hx|r h [Hs Hz Ht Hi Hres] Hor|r e He Hor|s Hs|t Ht1 Ht2]; constructor; try done; eauto.
  - pose proof (Hl (route_player (handoff_source h))). constructor; auto; try lia. destruct (handoff_step h); lia.
  - pose proof (Hl (return_player t)). lia.
Qed.

(** Every operation touches the entries of one connection only. *)
Definition same_session (rc rc' : RouteCoordinator) (c : ConnectionId) : Prop :=
  routes rc' !! c = routes rc !! c ∧ handoffs rc' !! c = handoffs rc !! c ∧ room_entries rc' !! c = room_entries rc !! c ∧
  in_rooms rc' !! c = in_rooms rc !! c ∧ room_returns rc' !! c = room_returns rc !! c.

Lemma sessions_update rc rc' c :
  (∀ c, session_ok rc c) → (∀ c', c' ≠ c → same_session rc rc' c') → session_ok rc' c →
  (∀ p, last_epoch rc p <= last_epoch rc' p) → next_handoff_id rc <= next_handoff_id rc' → ∀ c', session_ok rc' c'.
Proof.
  intros Hok Hsame Hc Hl Hn c'. destruct (decide (c' = c)) as [->|Hne]; [done|].
  destruct (Hsame c' Hne) as (E1 & E2 & E3 & E4 & E5). unfold session_ok. rewrite E1, E2, E3, E4, E5.
  eapply session_state_mono; [done|done|apply Hok].
Qed.

Lemma in_transition_false rc c :
  in_transition rc c = false →
  handoffs rc !! c = None ∧ room_entries rc !! c = None ∧ in_rooms rc !! c = None ∧ room_returns rc !! c = None.
Proof. unfold in_transition. intros H. to_prop. by repeat destruct (_ !! c). Qed.

Lemma findHandoff_Some rc c id h : findHandoff rc c id = Some h → handoffs rc !! c = Some h ∧ handoff_id h = id.
Proof. unfold findHandoff. destruct (handoffs rc !! c); [|done]. split_if; [|done]. to_prop. naive_solver. Qed.

Lemma findRoomEntry_Some rc c id e : findRoomEntry rc c id = Some e → room_entries rc !! c = Some e ∧ entry_id e = id.
Proof. unfold findRoomEntry. destruct (room_entries rc !! c); [|done]. split_if; [|done]. to_prop. naive_solver. Qed.

Lemma findRoomReturn_Some rc c id r : findRoomReturn rc c id = Some r → room_returns rc !! c = Some r ∧ return_id r = id.
Proof. unfold findRoomReturn. destruct (room_returns rc !! c); [|done]. split_if; [|done]. to_prop. naive_solver. Qed.

(** Handing out an epoch. *)
Lemma next_epoch_spec rc p e rc1 :
  in_u64 (last_epoch rc p) → next_epoch rc p = Ret (e, rc1) →
  e = last_epoch rc p + 1 ∧ in_u64 e ∧ rc1 = set_last_epochs (<[p := e]> (last_epochs rc)) rc ∧
  ∀ q, last_epoch rc1 q = if decide (p = q) then e else last_epoch rc q.
Proof.
  intros Hr Hn. unfold next_epoch in Hn. apply throw_if_ret in Hn as [Hm Hn]. to_prop. injection Hn as <- <-.
  rewrite (u64_small (last_epoch rc p + 1)) by lia. split_and!; try done; try lia.
  intros q. unfold last_epoch at 1. simpl. rewrite lookup_insert. by destruct (decide (p = q)).
Qed.

(** ** Preservation *)

Lemma coordinator_update rc rc' c :
  coordinator_ok rc → max_handoffs rc' = max_handoffs rc → (∀ c', c' ≠ c → same_session rc rc' c') → session_ok rc' c →
  (∀ p, last_epoch rc p <= last_epoch rc' p <= U64_MAX) → next_handoff_id rc <= next_handoff_id rc' <= U64_MAX →
  Z.of_nat (size (handoffs rc')) <= max_handoffs rc → Z.of_nat (size (room_entries rc')) <= max_handoffs rc →
  Z.of_nat (size (room_returns rc')) <= max_handoffs rc → coordinator_ok rc'.
Proof.
  intros [Hs He Hn H1 H2 H3] Hm Hsame Hc Hl Hid S1 S2 S3. constructor; rewrite ?Hm; try done; try lia.
  - eapply sessions_update; try done; [intros p; apply Hl|lia].
  - intros p. specialize (He p). specialize (Hl p). lia.
Qed.

Ltac others := intros ? ?; unfold same_session; simpl; rewrite ?lookup_insert_ne, ?lookup_delete_ne by done; by split_and!.

Lemma size_insert_same {A} (m : gmap ConnectionId A) c a b : m !! c = Some a → size (<[c := b]> m) = size m.
Proof. intros H. by rewrite map_size_insert, H. Qed.

Lemma size_delete_le {A} (m : gmap ConnectionId A) c : (size (delete c m) <= size m)%nat.
Proof. rewrite map_size_delete. destruct (m !! c); unfold id; simpl; lia. Qed.

(** Operations that only change the handoff of a connection. *)
Lemma handoff_replaced rc c h h' :
  coordinator_ok rc → handoffs rc !! c = Some h → handoff_source h' = handoff_source h →
  handoff_ok (last_epoch rc) (next_handoff_id rc) c h' →
  coordinator_ok (set_handoffs (<[c := h']> (handoffs rc)) rc).
Proof.
  intros Hok Hh Hsrc Hh'. pose proof Hok as [Hs He Hn H1 H2 H3].
  apply (coordinator_update rc _ c); try done; try others.
  - specialize (Hs c). unfold session_ok in *. simpl. rewrite lookup_insert_eq. rewrite Hh in Hs.
    change (session_state (last_epoch rc) (next_handoff_id rc) c (routes rc !! c) (Some h') (room_entries rc !! c)
              (in_rooms rc !! c) (room_returns rc !! c)).
    inversion Hs; subst. apply session_handoff; [done|]. by rewrite Hsrc.
  - intros p. specialize (He p). simpl. change (last_epoch (set_handoffs _ rc) p) with (last_epoch rc p). lia.
  - simpl. lia.
  - simpl. by rewrite (size_insert_same _ _ _ _ Hh).
Qed.

Lemma handoff_of rc c h :
  coordinator_ok rc → handoffs rc !! c = Some h → handoff_ok (last_epoch rc) (next_handoff_id rc) c h.
Proof. intros Hok Hh. pose proof (ck_sessions _ Hok c) as Hs. unfold session_ok in Hs. rewrite Hh in Hs. by inversion Hs. Qed.

(** The statistics are not part of the invariant. *)
Lemma coordinator_ok_counters rc f : coordinator_ok rc → coordinator_ok (set_counters f rc).
Proof. by intros []. Qed.

Lemma bump_ok k rc : coordinator_ok rc → coordinator_ok (bump k rc).
Proof. apply coordinator_ok_counters. Qed.

Lemma noteSourceLeft_ok rc c id p : coordinator_ok rc → coordinator_ok (noteSourceLeft rc c id p).2.
Proof.
  intros Hok. unfold noteSourceLeft. destruct (findHandoff rc c id) as [h|] eqn:Ef; [|done].
  case_bool_decide as Hst; [|done]. simpl. apply findHandoff_Some in Ef as [Hh _].
  apply (handoff_replaced _ _ h); try done. destruct (handoff_of _ _ _ Hok Hh) as [? ? ? ? Hr]. rewrite Hst in Hr. by constructor.
Qed.

Lemma beginCleanup_ok rc c id step : coordinator_ok rc → coordinator_ok (beginCleanup rc c id step).2.
Proof.
  intros Hok. unfold beginCleanup. destruct (findHandoff rc c id) as [h|] eqn:Ef; [|done].
  apply findHandoff_Some in Ef as [Hh _]. destruct (handoff_of _ _ _ Hok Hh) as [? ? ? ? Hr].
  destruct (_ && _) eqn:Eg; [done|]. apply (handoff_replaced _ _ h); try done. constructor; try done. simpl.
  rewrite andb_false_iff, !negb_false_iff, !andb_true_iff, !bool_decide_eq_true in Eg.
  destruct Eg as [[-> Hst]|[-> Hst]]; by rewrite Hst in Hr.
Qed.

Lemma epochs_range rc p e rc1 :
  coordinator_ok rc → next_epoch rc p = Ret (e, rc1) →
  e = last_epoch rc p + 1 ∧ rc1 = set_last_epochs (<[p := e]> (last_epochs rc)) rc ∧
  (∀ q, last_epoch rc q <= last_epoch rc1 q <= U64_MAX) ∧ last_epoch rc1 p = e ∧ 1 <= e.
Proof.
  intros Hok Hn. destruct (next_epoch_spec rc p e rc1) as (He & Hr & -> & Hl); [apply Hok|done|].
  split_and!; try done.
  - intros q. rewrite Hl. pose proof (ck_epochs _ Hok q). destruct (decide (p = q)) as [<-|]; lia.
  - rewrite Hl. by rewrite decide_True.
  - pose proof (ck_epochs _ Hok p). lia.
Qed.

Lemma next_epoch_ok rc p e rc1 : coordinator_ok rc → next_epoch rc p = Ret (e, rc1) → coordinator_ok rc1.
Proof.
  intros Hok Hn. destruct (epochs_range _ _ _ _ Hok Hn) as (_ & -> & Hl & _ & _). pose proof Hok as [Hs He Hnx H1 H2 H3].
  constructor; try done.
  - intros c. eapply session_state_mono; [|reflexivity|apply Hs]. intros q. apply Hl.
  - intros q. specialize (Hl q). specialize (He q). lia.
Qed.

Lemma beginSourceRestore_ok rc c id r rc' :
  coordinator_ok rc → beginSourceRestore rc c id = Ret (r, rc') → coordinator_ok rc'.
Proof.
  intros Hok. unfold beginSourceRestore. destruct (findHandoff rc c id) as [h|] eqn:Ef; [|by intros [= <- <-]].
  case_bool_decide as Hst; simpl; [|by intros [= <- <-]]. apply findHandoff_Some in Ef as [Hh _].
  destruct (next_epoch _ _) as [[e rc1]|] eqn:En; simpl; [|done]. intros [= <- <-].
  pose proof (next_epoch_ok _ _ _ _ Hok En) as Hok1.
  destruct (epochs_range _ _ _ _ Hok En) as (He & E1 & Hl & Hlast & _).
  assert (Hh1 : handoffs rc1 !! c = Some h) by by rewrite E1.
  apply (handoff_replaced _ _ h); try done. destruct (handoff_of _ _ _ Hok1 Hh1) as [? ? ? ? _].
  destruct (handoff_of _ _ _ Hok Hh) as [_ _ Ht _ _]. constructor; try done. simpl. lia.
Qed.

Lemma tryEnter_ok rc c p z r rc' : coordinator_ok rc → tryEnter rc c p z = Ret (r, rc') → coordinator_ok rc'.
Proof.
  intros Hok. unfold tryEnter. destruct (z =? 0); [by intros [= <- <-]|].
  destruct (in_transition rc c) eqn:Et; [by intros [= <- <-]|].
  destruct (routes rc !! c) as [x|] eqn:Er; [destruct (_ || _); by intros [= <- <-]|].
  destruct (next_epoch rc p) as [[e rc1]|] eqn:En; simpl; [|done]. intros [= <- <-].
  pose proof (next_epoch_ok _ _ _ _ Hok En) as Hok1.
  destruct (epochs_range _ _ _ _ Hok En) as (He & E1 & Hl & Hlast & Hpos).
  apply in_transition_false in Et as (T1 & T2 & T3 & T4). pose proof Hok1 as [_ He1 Hn H1 H2 H3].
  apply (coordinator_update rc1 _ c); try done; try others; try lia.
  - unfold session_ok. simpl. rewrite lookup_insert_eq.
    replace (handoffs rc1) with (handoffs rc) by by rewrite E1.
    replace (room_entries rc1) with (room_entries rc) by by rewrite E1.
    replace (in_rooms rc1) with (in_rooms rc) by by rewrite E1.
    replace (room_returns rc1) with (room_returns rc) by by rewrite E1. rewrite T1, T2, T3, T4.
    apply session_idle. intros x [= <-]. split; [done|]. simpl.
    change (last_epoch (set_routes _ rc1) p) with (last_epoch rc1 p). lia.
  - intros q. change (last_epoch (set_routes _ rc1) q) with (last_epoch rc1 q). specialize (He1 q). lia.
  - simpl. lia.
Qed.

(** Operations on one connection that hand out no epoch and no handoff id. *)
Lemma coordinator_local rc rc' c :
  coordinator_ok rc → max_handoffs rc' = max_handoffs rc → last_epochs rc' = last_epochs rc →
  next_handoff_id rc' = next_handoff_id rc → (∀ c', c' ≠ c → same_session rc rc' c') →
  session_state (last_epoch rc) (next_handoff_id rc) c (routes rc' !! c) (handoffs rc' !! c) (room_entries rc' !! c)
    (in_rooms rc' !! c) (room_returns rc' !! c) →
  Z.of_nat (size (handoffs rc')) <= max_handoffs rc → Z.of_nat (size (room_entries rc')) <= max_handoffs rc →
  Z.of_nat (size (room_returns rc')) <= max_handoffs rc → coordinator_ok rc'.
Proof.
  intros Hok Hm Hl Hn Hsame Hs S1 S2 S3. pose proof Hok as [_ He Hnx _ _ _].
  assert (Hlast : ∀ p, last_epoch rc' p = last_epoch rc p) by (intros p; unfold last_epoch; by rewrite Hl).
  apply (coordinator_update rc rc' c); try done.
  - unfold session_ok. eapply session_state_mono; [|by rewrite Hn|exact Hs]. intros p. by rewrite Hlast.
  - intros p. rewrite Hlast. specialize (He p). lia.
  - lia.
Qed.

Ltac sizes := simpl; repeat match goal with
  | |- context [size (delete ?c ?m)] => pose proof (size_delete_le m c); generalize dependent (size (delete c m)); intros
  end; lia.

Lemma settle_ok rc c h route k :
  coordinator_ok rc → handoffs rc !! c = Some h → route_connection route = c → route_ok (last_epoch rc) c route →
  coordinator_ok (settle rc c route k).
Proof.
  intros Hok Hh Hc Hr. pose proof Hok as [Hs _ _ H1 H2 H3]. apply bump_ok.
  apply (coordinator_local rc _ c); try done; try sizes.
  - intros c' Hne. unfold same_session. simpl. rewrite Hc, lookup_insert_ne, lookup_delete_ne by done. by split_and!.
  - specialize (Hs c). unfold session_ok in Hs. rewrite Hh in Hs. simpl. rewrite Hc, lookup_insert_eq, lookup_delete_eq.
    inversion Hs; subst. apply session_idle. by intros x [= <-].
Qed.

Lemma completeTargetEnter_ok rc c id : coordinator_ok rc → coordinator_ok (completeTargetEnter rc c id).2.
Proof.
  intros Hok. unfold completeTargetEnter. destruct (findHandoff rc c id) as [h|] eqn:Ef; [|done].
  case_bool_decide as Hst; [|done]. apply findHandoff_Some in Ef as [Hh _].
  destruct (handoff_of _ _ _ Hok Hh) as [[Hc ?] ? ? ? Hr]. apply (settle_ok _ _ h); try done. split; [done|]. simpl. lia.
Qed.

Lemma completeSourceRestore_ok rc c id : coordinator_ok rc → coordinator_ok (completeSourceRestore rc c id).2.
Proof.
  intros Hok. unfold completeSourceRestore. destruct (findHandoff rc c id) as [h|] eqn:Ef; [|done].
  destruct (_ || _) eqn:Eg; [done|]. apply orb_false_elim in Eg as [Hst _]. apply negb_false_iff, bool_decide_eq_true in Hst.
  apply findHandoff_Some in Ef as [Hh _]. destruct (handoff_of _ _ _ Hok Hh) as [[Hc ?] ? ? ? Hr]. rewrite Hst in Hr.
  apply (settle_ok _ _ h); try done. split; [done|]. simpl. lia.
Qed.

Lemma rollbackHandoff_ok rc c id : coordinator_ok rc → coordinator_ok (rollbackHandoffBeforeLeave rc c id).2.
Proof.
  intros Hok. unfold rollbackHandoffBeforeLeave. destruct (findHandoff rc c id) as [h|] eqn:Ef; [|done].
  case_bool_decide as Hst; [|done]. apply findHandoff_Some in Ef as [Hh _]. pose proof Hok as [Hs _ _ H1 H2 H3].
  apply bump_ok. apply (coordinator_local rc _ c); try done; try others; try sizes.
  specialize (Hs c). unfold session_ok in Hs. rewrite Hh in Hs. simpl. rewrite lookup_delete_eq. inversion Hs; subst.
  apply session_idle. intros x Hx. destruct (handoff_of _ _ _ Hok Hh). naive_solver.
Qed.

Lemma tryBeginHandoff_ok rc c p z sp rp req r rc' :
  coordinator_ok rc → tryBeginHandoff rc c p z sp rp req = Ret (r, rc') → coordinator_ok rc'.
Proof.
  intros Hok. unfold tryBeginHandoff. destruct (routes rc !! c) as [x|] eqn:Er; [|intros [= <- <-]; by apply bump_ok].
  destruct (_ || _) eqn:Eg; [intros [= <- <-]; by apply bump_ok|]. to_prop.
  destruct (next_epoch rc p) as [[e rc1]|] eqn:En; simpl; [|done]. intros [= <- <-].
  pose proof (next_epoch_ok _ _ _ _ Hok En) as Hok1.
  destruct (epochs_range _ _ _ _ Hok En) as (He & E1 & Hl & Hlast & Hpos).
  match goal with H : in_transition _ _ = false |- _ => apply in_transition_false in H as (T1 & T2 & T3 & T4) end.
  pose proof Hok1 as [_ He1 Hn H1' H2' H3']. do 2 apply coordinator_ok_counters.
  assert (Hnext : next_handoff_id rc1 = next_handoff_id rc) by by rewrite E1.
  assert (Hmax : max_handoffs rc1 = max_handoffs rc) by by rewrite E1.
  assert (Hho : handoffs rc1 = handoffs rc) by by rewrite E1.
  assert (Hroutes : routes rc1 !! c = Some x) by by rewrite E1.
  assert (Hrx : route_ok (last_epoch rc) c x).
  { pose proof (ck_sessions _ Hok c) as Hs. unfold session_ok in Hs. rewrite Er, T1, T2, T3, T4 in Hs. inversion Hs; eauto. }
  apply (coordinator_update rc1 _ c); try done; try others; simpl.
  - unfold session_ok. simpl. rewrite lookup_insert_eq, Hroutes.
    replace (room_entries rc1) with (room_entries rc) by by rewrite E1.
    replace (in_rooms rc1) with (in_rooms rc) by by rewrite E1.
    replace (room_returns rc1) with (room_returns rc) by by rewrite E1. rewrite T2, T3, T4.
    apply session_handoff; [|by right]. destruct Hrx as [Hxc Hxe]. rewrite (u64_small (next_handoff_id rc1 + 1)) by lia.
    assert (Hlx : route_player x = p) by done. rewrite Hlx in Hxe.
    constructor; simpl; try done; try lia; change (last_epoch (set_handoffs _ _) ?q) with (last_epoch rc1 q);
      rewrite ?Hlx, ?Hlast; try lia.
    split; [done|]. rewrite Hlx. change (last_epoch (set_handoffs _ _) ?q) with (last_epoch rc1 q). lia.
  - intros q. change (last_epoch (set_handoffs _ _) q) with (last_epoch rc1 q). specialize (He1 q). lia.
  - rewrite u64_small by lia. lia.
  - rewrite Hho in H1' |- *. rewrite map_size_insert, T1. lia.
Qed.

Lemma entry_of rc c e :
  coordinator_ok rc → room_entries rc !! c = Some e →
  handoffs rc !! c = None ∧ in_rooms rc !! c = None ∧ room_returns rc !! c = None ∧
  route_ok (last_epoch rc) c (entry_source e) ∧ (routes rc !! c = None ∨ routes rc !! c = Some (entry_source e)).
Proof.
  intros Hok He. pose proof (ck_sessions _ Hok c) as Hs. unfold session_ok in Hs. rewrite He in Hs. by inversion Hs.
Qed.

Lemma entry_replaced rc c e step :
  coordinator_ok rc → room_entries rc !! c = Some e →
  coordinator_ok (set_room_entries (<[c := with_entry_step step e]> (room_entries rc)) rc).
Proof.
  intros Hok He. destruct (entry_of _ _ _ Hok He) as (T1 & T2 & T3 & Hr & Hor). pose proof Hok as [_ _ _ H1 H2 H3].
  apply (coordinator_local rc _ c); try done; try others; simpl.
  - rewrite lookup_insert_eq, T1, T2, T3. by apply session_entry.
  - by rewrite (size_insert_same _ _ _ _ He).
Qed.

Lemma entry_steps_ok rc c id :
  coordinator_ok rc → coordinator_ok (noteRoomSnapshotReady rc c id).2 ∧ coordinator_ok (noteRoomJoined rc c id).2.
Proof.
  intros Hok. unfold noteRoomSnapshotReady, noteRoomJoined. destruct (findRoomEntry rc c id) as [e|] eqn:Ef; [|done].
  apply findRoomEntry_Some in Ef as [He _]. split.
  - destruct (negb _); [done|]. by apply entry_replaced.
  - destruct (negb _ && negb _); [done|]. by apply entry_replaced.
Qed.

Lemma tryBeginRoomEntry_ok rc c p room req : coordinator_ok rc → coordinator_ok (tryBeginRoomEntry rc c p room req).2.
Proof.
  intros Hok. unfold tryBeginRoomEntry. destruct (routes rc !! c) as [x|] eqn:Er; [|by apply bump_ok].
  destruct (_ || _) eqn:Eg; [by apply bump_ok|]. to_prop. pose proof Hok as [Hs _ _ H1' H2' H3']. simpl.
  match goal with H : in_transition _ _ = false |- _ => apply in_transition_false in H as (T1 & T2 & T3 & T4) end.
  do 2 apply coordinator_ok_counters. apply (coordinator_local rc _ c); try done; try others; simpl.
  - rewrite lookup_insert_eq, Er, T1, T3, T4. apply session_entry; [|by right].
    specialize (Hs c). unfold session_ok in Hs. rewrite Er, T1, T2, T3, T4 in Hs. inversion Hs; eauto.
  - rewrite map_size_insert, T2. lia.
Qed.

Lemma completeRoomEntry_ok rc c id pos : coordinator_ok rc → coordinator_ok (completeRoomEntry rc c id pos).2.
Proof.
  intros Hok. unfold completeRoomEntry. destruct (findRoomEntry rc c id) as [e|] eqn:Ef; [|done].
  apply findRoomEntry_Some in Ef as [He _]. destruct (entry_of _ _ _ Hok He) as (T1 & T2 & T3 & Hr & Hor).
  pose proof Hok as [_ _ _ H1 H2 H3]. apply bump_ok. apply (coordinator_local rc _ c); try done; try others; try sizes.
  simpl. rewrite !lookup_delete_eq, lookup_insert_eq, T1, T3. by apply session_in_room.
Qed.

Lemma rollbackRoomEntry_ok rc c id : coordinator_ok rc → coordinator_ok (rollbackRoomEntryBeforeLeave rc c id).2.
Proof.
  intros Hok. unfold rollbackRoomEntryBeforeLeave. destruct (findRoomEntry rc c id) as [e|] eqn:Ef; [|done].
  apply findRoomEntry_Some in Ef as [He _]. destruct (entry_of _ _ _ Hok He) as (T1 & T2 & T3 & Hr & Hor).
  pose proof Hok as [_ _ _ H1 H2 H3]. apply bump_ok. apply (coordinator_local rc _ c); try done; try others; try sizes.
  simpl. rewrite lookup_delete_eq, T1, T2, T3. apply session_idle. naive_solver.
Qed.

Lemma in_room_of rc c s :
  coordinator_ok rc → in_rooms rc !! c = Some s →
  routes rc !! c = None ∧ handoffs rc !! c = None ∧ room_entries rc !! c = None ∧ room_returns rc !! c = None ∧
  in_room_connection s = c.
Proof.
  intros Hok He. pose proof (ck_sessions _ Hok c) as Hs. unfold session_ok in Hs. rewrite He in Hs. by inversion Hs.
Qed.

Lemma tryBeginRoomReturn_ok rc c room r rc' :
  coordinator_ok rc → tryBeginRoomReturn rc c room = Ret (r, rc') → coordinator_ok rc'.
Proof.
  intros Hok. unfold tryBeginRoomReturn. destruct (in_rooms rc !! c) as [s|] eqn:Es; [|by intros [= <- <-]].
  destruct (in_room_of _ _ _ Hok Es) as (T1 & T2 & T3 & T4 & Hc). destruct (_ || _) eqn:Eg; [by intros [= <- <-]|]. to_prop.
  destruct (next_epoch rc _) as [[e rc1]|] eqn:En; simpl; [|done]. intros [= <- <-].
  pose proof (next_epoch_ok _ _ _ _ Hok En) as Hok1.
  destruct (epochs_range _ _ _ _ Hok En) as (He & E1 & Hl & Hlast & Hpos).
  assert (Hr : room_returns rc1 = room_returns rc) by by rewrite E1.
  assert (Hmax : max_handoffs rc1 = max_handoffs rc) by by rewrite E1.
  pose proof Hok1 as [_ _ _ H1' H2' H3']. do 2 apply coordinator_ok_counters.
  apply (coordinator_local rc1 _ c); try done; try others; simpl.
  - rewrite lookup_insert_eq, lookup_delete_eq.
    replace (routes rc1) with (routes rc) by by rewrite E1. replace (handoffs rc1) with (handoffs rc) by by rewrite E1.
    replace (room_entries rc1) with (room_entries rc) by by rewrite E1. rewrite T1, T2, T3.
    apply session_return; simpl; [done|lia].
  - rewrite Hr in H3' |- *. rewrite map_size_insert, T4. lia.
Qed.

Lemma return_of rc c t :
  coordinator_ok rc → room_returns rc !! c = Some t →
  routes rc !! c = None ∧ handoffs rc !! c = None ∧ room_entries rc !! c = None ∧ in_rooms rc !! c = None ∧
  return_connection t = c ∧ 1 <= return_epoch t <= last_epoch rc (return_player t).
Proof.
  intros Hok He. pose proof (ck_sessions _ Hok c) as Hs. unfold session_ok in Hs. rewrite He in Hs. by inversion Hs.
Qed.

Lemma room_return_ends_ok rc c id :
  coordinator_ok rc → coordinator_ok (completeRoomReturn rc c id).2 ∧ coordinator_ok (abandonRoomReturn rc c id).2.
Proof.
  intros Hok. unfold completeRoomReturn, abandonRoomReturn. destruct (findRoomReturn rc c id) as [t|] eqn:Ef; [|done].
  apply findRoomReturn_Some in Ef as [He _]. destruct (return_of _ _ _ Hok He) as (T1 & T2 & T3 & T4 & Hc & Ht).
  pose proof Hok as [_ _ _ H1 H2 H3]. split; apply bump_ok; apply (coordinator_local rc _ c); try done; try others; try sizes.
  - intros c' Hne. unfold same_session. simpl. rewrite Hc, lookup_insert_ne, lookup_delete_ne by done. by split_and!.
  - simpl. rewrite Hc, lookup_insert_eq, lookup_delete_eq, T2, T3, T4. apply session_idle. intros x [= <-]. by split.
  - simpl. rewrite lookup_delete_eq, T1, T2, T3, T4. by apply session_idle.
Qed.

Lemma erase_route_ok rc route : coordinator_ok rc → coordinator_ok (erase_route rc route).
Proof.
  intros Hok. unfold erase_route. case_bool_decide as Hr; [|done]. pose proof Hok as [Hs _ _ H1 H2 H3].
  apply (coordinator_local rc _ (route_connection route)); try done; try others. simpl. rewrite lookup_delete_eq.
  specialize (Hs (route_connection route)). unfold session_ok in Hs. rewrite Hr in Hs.
  inversion Hs; subst; constructor; try done; by left.
Qed.

Lemma abandon_ok rc c : coordinator_ok rc → coordinator_ok (abandon rc c).
Proof.
  intros Hok. pose proof Hok as [Hs _ _ H1 H2 H3]. unfold abandon, bump_if.
  set (rc1 := mkCoordinator (max_handoffs rc) (delete c (routes rc)) (delete c (handoffs rc)) (delete c (room_entries rc))
    (delete c (in_rooms rc)) (delete c (room_returns rc)) (last_epochs rc) (next_handoff_id rc) (next_room_entry_id rc)
    (next_room_return_id rc) (route_counters rc)).
  assert (Hok1 : coordinator_ok rc1).
  { apply (coordinator_local rc _ c); try done; try others; try sizes. simpl. rewrite !lookup_delete_eq. by apply session_idle. }
  destruct (has_value (handoffs rc !! c)); simpl; destruct (has_value (room_entries rc !! c)); simpl;
    destruct (has_value (room_returns rc !! c)); simpl; by destruct Hok1.
Qed.

Lemma route_step_ok rc op : coordinator_ok rc → coordinator_ok (route_step rc op).2.
Proof.
  intros Hok. destruct op; cbn [route_step].
  - destruct (tryEnter _ _ _ _) as [[[a|] rc']|] eqn:E; simpl; [..|done]; by eapply tryEnter_ok.
  - unfold rollbackEnter. destruct (negb _); [done|]. by apply erase_route_ok.
  - destruct (tryBeginHandoff _ _ _ _ _ _ _) as [[[a|] rc']|] eqn:E; simpl; [..|done]; by eapply tryBeginHandoff_ok.
  - by apply noteSourceLeft_ok.
  - destruct (beginSourceRestore _ _ _) as [[[a|] rc']|] eqn:E; simpl; [..|done]; by eapply beginSourceRestore_ok.
  - by apply beginCleanup_ok.
  - by apply completeTargetEnter_ok.
  - by apply completeSourceRestore_ok.
  - by apply rollbackHandoff_ok.
  - by apply tryBeginRoomEntry_ok.
  - by apply entry_steps_ok.
  - by apply entry_steps_ok.
  - by apply completeRoomEntry_ok.
  - by apply rollbackRoomEntry_ok.
  - destruct (tryBeginRoomReturn _ _ _) as [[[a|] rc']|] eqn:E; simpl; [..|done]; by eapply tryBeginRoomReturn_ok.
  - by apply room_return_ends_ok.
  - by apply room_return_ends_ok.
  - unfold completeLeave. destruct (moving _ _); [done|]. by apply erase_route_ok.
  - by apply abandon_ok.
Qed.

(** ** Epochs *)

(** What a call hands out: nothing, or the next epoch of one player. *)
Definition grants (rc : RouteCoordinator) (g : list (PlayerId * Z)) (rc' : RouteCoordinator) : Prop :=
  (g = [] ∧ ∀ p, last_epoch rc' p = last_epoch rc p) ∨
  (∃ q, g = [(q, last_epoch rc q + 1)] ∧ ∀ p, last_epoch rc' p = if decide (q = p) then last_epoch rc q + 1 else last_epoch rc p).

Lemma grants_next rc q e rc1 rc' :
  coordinator_ok rc → next_epoch rc q = Ret (e, rc1) → last_epochs rc' = last_epochs rc1 → grants rc [(q, e)] rc'.
Proof.
  intros Hok Hn Hl. destruct (next_epoch_spec rc q e rc1 (ck_epochs _ Hok q) Hn) as (-> & _ & -> & Hp).
  right. exists q. split; [done|]. intros p. rewrite <-Hp. unfold last_epoch. by rewrite Hl.
Qed.

Lemma grants_none rc rc' : last_epochs rc' = last_epochs rc → grants rc [] rc'.
Proof. intros Hl. left. split; [done|]. intros p. unfold last_epoch. by rewrite Hl. Qed.

Ltac no_epochs := apply grants_none; repeat (case_match || split_if); done.

Lemma route_step_grants rc op : coordinator_ok rc → grants rc (route_step rc op).1 (route_step rc op).2.
Proof.
  intros Hok. destruct op as [c p z|a|c p z sp rp req|c id pos|c id|c id st|c id|c id|c id|c p room req|c id|c id|c id pos|c id|c room|c id|c id|route|c];
    cbn [route_step fst snd].
  - unfold tryEnter. destruct (z =? 0); [by apply grants_none|]. destruct (in_transition rc c); [by apply grants_none|].
    destruct (routes rc !! c); [destruct (_ || _); simpl; by apply grants_none|].
    destruct (next_epoch rc p) as [[e rc1]|] eqn:En; simpl; [by eapply grants_next|by apply grants_none].
  - unfold rollbackEnter, erase_route. no_epochs.
  - unfold tryBeginHandoff. destruct (routes rc !! c); simpl; [|by apply grants_none].
    destruct (_ || _); simpl; [by apply grants_none|].
    destruct (next_epoch rc p) as [[e rc1]|] eqn:En; simpl; [by eapply grants_next|by apply grants_none].
  - unfold noteSourceLeft. no_epochs.
  - unfold beginSourceRestore, handoffFor. destruct (findHandoff rc c id) as [h|] eqn:Ef; simpl; [|by apply grants_none].
    apply findHandoff_Some in Ef as [Hh _]. destruct (negb _); simpl; [by apply grants_none|]. rewrite Hh.
    destruct (next_epoch rc _) as [[e rc1]|] eqn:En; simpl; [by eapply grants_next|by apply grants_none].
  - unfold beginCleanup. no_epochs.
  - unfold completeTargetEnter. no_epochs.
  - unfold completeSourceRestore. no_epochs.
  - unfold rollbackHandoffBeforeLeave. no_epochs.
  - unfold tryBeginRoomEntry. no_epochs.
  - unfold noteRoomSnapshotReady. no_epochs.
  - unfold noteRoomJoined. no_epochs.
  - unfold completeRoomEntry. no_epochs.
  - unfold rollbackRoomEntryBeforeLeave. no_epochs.
  - unfold tryBeginRoomReturn. destruct (in_rooms rc !! c) as [s|]; simpl; [|by apply grants_none].
    destruct (_ || _); simpl; [by apply grants_none|].
    destruct (next_epoch rc _) as [[e rc1]|] eqn:En; simpl; [by eapply grants_next|by apply grants_none].
  - unfold completeRoomReturn. no_epochs.
  - unfold abandonRoomReturn. no_epochs.
  - unfold completeLeave, erase_route. no_epochs.
  - unfold abandon, bump_if. apply grants_none. simpl. repeat (destruct (has_value _); simpl); done.
Qed.

Lemma route_run_grants ops rc g rc' :
  coordinator_ok rc → route_run rc ops = (g, rc') →
  coordinator_ok rc' ∧
  ∀ p, last_epoch rc p <= last_epoch rc' p ∧
    (filter (fun x => x.1 = p) g).*2 = seqZ (last_epoch rc p + 1) (last_epoch rc' p - last_epoch rc p).
Proof.
  revert rc g. induction ops as [|op ops IH]; intros rc g Hok; simpl.
  { intros [= <- <-]. split; [done|]. intros p. split; [lia|]. by rewrite Z.sub_diag. }
  pose proof (route_step_ok rc op Hok) as Hok1. pose proof (route_step_grants rc op Hok) as Hg.
  destruct (route_step rc op) as [g1 rc1]. destruct (route_run rc1 ops) as [g2 rc2] eqn:E. simpl in *.
  intros [= <- <-]. destruct (IH _ _ Hok1 E) as [Hok2 IHp]. split; [done|]. intros p. destruct (IHp p) as [Hle IHg].
  rewrite filter_app, fmap_app, IHg. destruct Hg as [[-> Hl]|(q & -> & Hl)]; rewrite Hl in *; [by split|].
  destruct (decide (q = p)) as [->|Hne].
  - rewrite filter_cons_True by done. simpl. split; [lia|].
    replace (last_epoch rc2 p - last_epoch rc p) with (1 + (last_epoch rc2 p - (last_epoch rc p + 1))) by lia.
    by rewrite seqZ_app by lia.
  - rewrite filter_cons_False by done. by split.
Qed.

(** ** Accounts *)

(** What the statistics leave unexplained; the counters are 64 bits wide, so
    this is a multiple of [2^64]. *)
Definition handoff_debt (rc : RouteCoordinator) : Z :=
  route_counters rc HandoffsStarted - route_counters rc HandoffsCompleted - route_counters rc HandoffsRestored
  - route_counters rc HandoffsRolledBack - route_counters rc HandoffsAbandoned - Z.of_nat (size (handoffs rc)).
Definition entry_debt (rc : RouteCoordinator) : Z :=
  route_counters rc RoomEntriesStarted - route_counters rc RoomEntriesCompleted - route_counters rc RoomEntriesRolledBack
  - route_counters rc RoomEntriesAbandoned - Z.of_nat (size (room_entries rc)).
Definition return_debt (rc : RouteCoordinator) : Z :=
  route_counters rc RoomReturnsStarted - route_counters rc RoomReturnsCompleted - route_counters rc RoomReturnsAbandoned
  - Z.of_nat (size (room_returns rc)).

Definition balanced (rc : RouteCoordinator) : Prop :=
  u64 (handoff_debt rc) = 0 ∧ u64 (entry_debt rc) = 0 ∧ u64 (return_debt rc) = 0.

(** Only the maps' sizes and these counters matter. *)
Lemma balanced_same rc rc' :
  balanced rc → route_counters rc' = route_counters rc → size (handoffs rc') = size (handoffs rc) →
  size (room_entries rc') = size (room_entries rc) → size (room_returns rc') = size (room_returns rc) → balanced rc'.
Proof. intros Hb E1 E2 E3 E4. unfold balanced, handoff_debt, entry_debt, return_debt. by rewrite E1, E2, E3, E4. Qed.

Ltac counters := unfold balanced, handoff_debt, entry_debt, return_debt; simpl;
  repeat first [rewrite decide_True by done | rewrite decide_False by done];
  unfold u64 in *; split_and!; div_lia.
Ltac open_balance := match goal with H : balanced _ |- _ =>
  unfold balanced, handoff_debt, entry_debt, return_debt in H; destruct H as (? & ? & ?) end.

Lemma size_delete_some {A} (m : gmap ConnectionId A) c a :
  m !! c = Some a → Z.of_nat (size (delete c m)) = Z.of_nat (size m) - 1.
Proof.
  intros H. rewrite map_size_delete, H. assert (size m ≠ 0%nat); [|lia].
  intros Hz. apply map_size_empty_iff in Hz. subst m. done.
Qed.

Lemma balanced_handoff_done rc c h k m :
  balanced rc → handoffs rc !! c = Some h →
  k = HandoffsCompleted ∨ k = HandoffsRestored ∨ k = HandoffsRolledBack ∨ k = HandoffsAbandoned →
  balanced (bump k (set_handoffs (delete c (handoffs rc)) (set_routes m rc))).
Proof.
  intros Hb Hh Hk. open_balance. pose proof (size_delete_some _ _ _ Hh) as Hz.
  destruct Hk as [->|[->|[->| ->]]]; unfold balanced, handoff_debt, entry_debt, return_debt; simpl; rewrite Hz; counters.
Qed.

Lemma balanced_entry_done rc c e k m r :
  balanced rc → room_entries rc !! c = Some e →
  k = RoomEntriesCompleted ∨ k = RoomEntriesRolledBack ∨ k = RoomEntriesAbandoned →
  balanced (bump k (set_in_rooms m (set_room_entries (delete c (room_entries rc)) (set_routes r rc)))).
Proof.
  intros Hb Hh Hk. open_balance. pose proof (size_delete_some _ _ _ Hh) as Hz.
  destruct Hk as [->|[->| ->]]; unfold balanced, handoff_debt, entry_debt, return_debt; simpl; rewrite Hz; counters.
Qed.

Lemma balanced_return_done rc c t k m :
  balanced rc → room_returns rc !! c = Some t → k = RoomReturnsCompleted ∨ k = RoomReturnsAbandoned →
  balanced (bump k (set_room_returns (delete c (room_returns rc)) (set_routes m rc))).
Proof.
  intros Hb Hh Hk. open_balance. pose proof (size_delete_some _ _ _ Hh) as Hz.
  destruct Hk as [->| ->]; unfold balanced, handoff_debt, entry_debt, return_debt; simpl; rewrite Hz; counters.
Qed.

Lemma balanced_rejected rc k : balanced rc → k = HandoffsRejected ∨ k = RoomEntriesRejected → balanced (bump k rc).
Proof. intros Hb Hk. open_balance. destruct Hk as [->| ->]; counters. Qed.

Lemma next_epoch_balanced rc p e rc1 : balanced rc → next_epoch rc p = Ret (e, rc1) → balanced rc1.
Proof. intros Hb Hn. unfold next_epoch in Hn. apply throw_if_ret in Hn as [_ Hn]. injection Hn as <- <-. done. Qed.

Lemma next_epoch_maps rc p e rc1 :
  next_epoch rc p = Ret (e, rc1) → handoffs rc1 = handoffs rc ∧ in_rooms rc1 = in_rooms rc ∧ room_returns rc1 = room_returns rc.
Proof. intros Hn. unfold next_epoch in Hn. apply throw_if_ret in Hn as [_ Hn]. by injection Hn as <- <-. Qed.

Lemma tryBeginHandoff_balanced rc c p z sp rp req r rc' :
  balanced rc → tryBeginHandoff rc c p z sp rp req = Ret (r, rc') → balanced rc'.
Proof.
  intros Hb. unfold tryBeginHandoff. destruct (routes rc !! c) as [x|]; [|intros [= <- <-]; apply balanced_rejected; auto].
  destruct (_ || _) eqn:Eg; [intros [= <- <-]; apply balanced_rejected; auto|]. to_prop.
  match goal with H : in_transition _ _ = false |- _ => apply in_transition_false in H as (T1 & _) end.
  destruct (next_epoch rc p) as [[e rc1]|] eqn:En; simpl; [|done]. intros [= <- <-].
  apply next_epoch_maps in En as Hm. destruct Hm as (Hho & _ & _). apply next_epoch_balanced in En; [|done]. open_balance.
  unfold balanced, handoff_debt, entry_debt, return_debt. simpl. rewrite Hho in *. rewrite !map_size_insert, T1. counters.
Qed.

Lemma tryBeginRoomEntry_balanced rc c p room req : balanced rc → balanced (tryBeginRoomEntry rc c p room req).2.
Proof.
  intros Hb. unfold tryBeginRoomEntry. destruct (routes rc !! c) as [x|]; [|apply balanced_rejected; auto].
  destruct (_ || _) eqn:Eg; [apply balanced_rejected; auto|]. to_prop.
  match goal with H : in_transition _ _ = false |- _ => apply in_transition_false in H as (_ & T2 & _) end. open_balance.
  unfold balanced, handoff_debt, entry_debt, return_debt. simpl. rewrite !map_size_insert, T2. counters.
Qed.

Lemma tryBeginRoomReturn_balanced rc c room r rc' :
  coordinator_ok rc → balanced rc → tryBeginRoomReturn rc c room = Ret (r, rc') → balanced rc'.
Proof.
  intros Hok Hb. unfold tryBeginRoomReturn. destruct (in_rooms rc !! c) as [s|] eqn:Es; [|by intros [= <- <-]].
  destruct (in_room_of _ _ _ Hok Es) as (_ & _ & _ & T4 & _). destruct (_ || _); [by intros [= <- <-]|].
  destruct (next_epoch rc _) as [[e rc1]|] eqn:En; simpl; [|done]. intros [= <- <-].
  apply next_epoch_maps in En as Hm. destruct Hm as (_ & _ & Hr). apply next_epoch_balanced in En; [|done]. open_balance.
  unfold balanced, handoff_debt, entry_debt, return_debt. simpl. rewrite Hr in *. rewrite !map_size_insert, T4. counters.
Qed.

Lemma abandon_balanced rc c : balanced rc → balanced (abandon rc c).
Proof.
  intros Hb. unfold abandon, bump_if.
  set (rc1 := if has_value (handoffs rc !! c) then _ else _).
  assert (H1 : balanced rc1 ∧ room_entries rc1 = room_entries rc ∧ room_returns rc1 = room_returns rc).
  { unfold rc1. destruct (handoffs rc !! c) as [h|] eqn:E; simpl.
    - split_and!; try done. apply (balanced_handoff_done rc c h HandoffsAbandoned (routes rc)); auto 6.
    - split_and!; try done. apply (balanced_same rc); try done. simpl. by rewrite delete_id. }
  clearbody rc1. destruct H1 as (B1 & E1 & E2).
  set (rc2 := if has_value (room_entries rc1 !! c) then _ else _).
  assert (H2 : balanced rc2 ∧ room_returns rc2 = room_returns rc1).
  { unfold rc2. destruct (room_entries rc1 !! c) as [e|] eqn:E; simpl.
    - split_and!; try done. apply (balanced_entry_done rc1 c e RoomEntriesAbandoned (in_rooms rc1) (routes rc1)); auto.
    - split_and!; try done. apply (balanced_same rc1); try done. simpl. by rewrite delete_id. }
  clearbody rc2. destruct H2 as (B2 & E3). simpl. destruct (room_returns rc2 !! c) as [t|] eqn:E; simpl.
  - apply (balanced_same (bump RoomReturnsAbandoned (set_room_returns (delete c (room_returns rc2)) (set_routes (routes rc2) rc2))));
      try done. apply (balanced_return_done rc2 c t); auto.
  - apply (balanced_same rc2); try done. simpl. by rewrite delete_id.
Qed.

Lemma route_step_balanced rc op : coordinator_ok rc → balanced rc → balanced (route_step rc op).2.
Proof.
  intros Hok Hb. destruct op as [c p z|a|c p z sp rp req|c id pos|c id|c id st|c id|c id|c id|c p room req|c id|c id|c id pos|c id|c room|c id|c id|route|c];
    cbn [route_step fst snd].
  - unfold tryEnter. destruct (z =? 0); [done|]. destruct (in_transition rc c); [done|].
    destruct (routes rc !! c); [by destruct (_ || _)|].
    destruct (next_epoch rc p) as [[e rc1]|] eqn:En; simpl; [by apply next_epoch_balanced in En|done].
  - unfold rollbackEnter, erase_route. by repeat (case_match || split_if).
  - destruct (tryBeginHandoff _ _ _ _ _ _ _) as [[[a|] rc']|] eqn:E; simpl; [..|done]; by eapply tryBeginHandoff_balanced.
  - unfold noteSourceLeft. destruct (findHandoff rc c id) as [h|] eqn:Ef; [|done]. apply findHandoff_Some in Ef as [Hh _].
    destruct (negb _); [done|]. apply (balanced_same rc); try done. by apply (size_insert_same _ _ h).
  - unfold beginSourceRestore. destruct (findHandoff rc c id) as [h|] eqn:Ef; [|done]. apply findHandoff_Some in Ef as [Hh _].
    destruct (negb _); [done|]. destruct (next_epoch rc _) as [[e rc1]|] eqn:En; simpl; [|done].
    apply next_epoch_maps in En as Hm. destruct Hm as (Hho & _ & _). apply next_epoch_balanced in En; [|done].
    apply (balanced_same rc1); try done. simpl. apply (size_insert_same _ _ h). by rewrite Hho.
  - unfold beginCleanup. destruct (findHandoff rc c id) as [h|] eqn:Ef; [|done]. apply findHandoff_Some in Ef as [Hh _].
    destruct (_ && _); [done|]. apply (balanced_same rc); try done. by apply (size_insert_same _ _ h).
  - unfold completeTargetEnter. destruct (findHandoff rc c id) as [h|] eqn:Ef; [|done]. apply findHandoff_Some in Ef as [Hh _].
    destruct (negb _); [done|]. apply (balanced_handoff_done rc c h); auto.
  - unfold completeSourceRestore. destruct (findHandoff rc c id) as [h|] eqn:Ef; [|done]. apply findHandoff_Some in Ef as [Hh _].
    destruct (_ || _); [done|]. apply (balanced_handoff_done rc c h); auto.
  - unfold rollbackHandoffBeforeLeave. destruct (findHandoff rc c id) as [h|] eqn:Ef; [|done]. apply findHandoff_Some in Ef as [Hh _].
    destruct (negb _); [done|]. apply (balanced_handoff_done rc c h HandoffsRolledBack (routes rc)); auto.
  - by apply tryBeginRoomEntry_balanced.
  - unfold noteRoomSnapshotReady. destruct (findRoomEntry rc c id) as [e|] eqn:Ef; [|done]. apply findRoomEntry_Some in Ef as [He _].
    destruct (negb _); [done|]. apply (balanced_same rc); try done. by apply (size_insert_same _ _ e).
  - unfold noteRoomJoined. destruct (findRoomEntry rc c id) as [e|] eqn:Ef; [|done]. apply findRoomEntry_Some in Ef as [He _].
    destruct (negb _ && negb _); [done|]. apply (balanced_same rc); try done. by apply (size_insert_same _ _ e).
  - unfold completeRoomEntry. destruct (findRoomEntry rc c id) as [e|] eqn:Ef; [|done]. apply findRoomEntry_Some in Ef as [He _].
    apply (balanced_entry_done rc c e); auto.
  - unfold rollbackRoomEntryBeforeLeave. destruct (findRoomEntry rc c id) as [e|] eqn:Ef; [|done].
    apply findRoomEntry_Some in Ef as [He _]. apply (balanced_entry_done rc c e RoomEntriesRolledBack (in_rooms rc) (routes rc)); auto.
  - destruct (tryBeginRoomReturn _ _ _) as [[[a|] rc']|] eqn:E; simpl; [..|done]; by eapply tryBeginRoomReturn_balanced.
  - unfold completeRoomReturn. destruct (findRoomReturn rc c id) as [t|] eqn:Ef; [|done]. apply findRoomReturn_Some in Ef as [Ht _].
    apply (balanced_return_done rc c t); auto.
  - unfold abandonRoomReturn. destruct (findRoomReturn rc c id) as [t|] eqn:Ef; [|done]. apply findRoomReturn_Some in Ef as [Ht _].
    apply (balanced_return_done rc c t RoomReturnsAbandoned (routes rc)); auto.
  - unfold completeLeave, erase_route. by repeat (case_match || split_if).
  - by apply abandon_balanced.
Qed.

Lemma route_run_balanced ops rc g rc' : coordinator_ok rc → balanced rc → route_run rc ops = (g, rc') → balanced rc'.
Proof.
  revert rc g. induction ops as [|op ops IH]; intros rc g Hok Hb; simpl; [by intros [= <- <-]|].
  pose proof (route_step_ok rc op Hok) as Hok1. pose proof (route_step_balanced rc op Hok Hb) as Hb1.
  destruct (route_step rc op) as [g1 rc1]. destruct (route_run rc1 ops) as [g2 rc2] eqn:E. simpl in *.
  intros [= <- <-]. by eapply IH.
Qed.

Lemma makeRouteCoordinator_ok max rc :
  0 <= max → makeRouteCoordinator max = Ret rc → coordinator_ok rc ∧ balanced rc ∧ ∀ p, last_epoch rc p = 0.
Proof.
  intros Hm Hr. unfold makeRouteCoordinator in Hr. apply throw_if_ret in Hr as [_ Hr]. injection Hr as <-.
  split_and!; try done. constructor; simpl; try done; try lia.
  intros c. apply session_idle. by intros x Hx.
Qed.

(** ** Properties *)

(** C37: whatever methods are called in whatever order and with whatever
    arguments, each connection is always in exactly one state: idle with or
    without a route, in a handoff from its route, entering a room from it, in a
    room without one, or returning without one; the epochs of a handoff increase
    from source to target to restoration, and its step tells whether a
    restoration epoch exists; the number of transitions of each kind stays within the
    configured limit; and the statistics account for every transition started. *)
Theorem routes_state_machine max rc0 ops g rc :
  0 <= max → makeRouteCoordinator max = Ret rc0 → route_run rc0 ops = (g, rc) →
  (∀ c, session_ok rc c) ∧ balanced rc ∧
  Z.of_nat (size (handoffs rc)) <= max_handoffs rc ∧ Z.of_nat (size (room_entries rc)) <= max_handoffs rc ∧
  Z.of_nat (size (room_returns rc)) <= max_handoffs rc.
Proof.
  intros Hm Hr Hrun. destruct (makeRouteCoordinator_ok _ _ Hm Hr) as (Hok & Hb & _).
  destruct (route_run_grants _ _ _ _ Hok Hrun) as [[Hs _ _ H1 H2 H3] _]. split_and!; try done.
  by eapply route_run_balanced.
Qed.

(** The route epochs of a player are handed out as 1, 2, 3, ... without gap
    or repetition, whoever asks for them and whatever happens in between, and no
    visible route carries an epoch beyond the last; so a route handed out later
    always fences the earlier ones. *)
Theorem route_epochs_consecutive max rc0 ops g rc p :
  0 <= max → makeRouteCoordinator max = Ret rc0 → route_run rc0 ops = (g, rc) →
  (filter (fun x => x.1 = p) g).*2 = seqZ 1 (last_epoch rc p) ∧
  ∀ c r, routeFor rc c = Some r → route_connection r = c ∧ 1 <= route_epoch r <= last_epoch rc (route_player r).
Proof.
  intros Hm Hr Hrun. destruct (makeRouteCoordinator_ok _ _ Hm Hr) as (Hok & _ & Hz).
  destruct (route_run_grants _ _ _ _ Hok Hrun) as [Hok' Hg]. split.
  - destruct (Hg p) as [_ Hp]. rewrite Hp, Hz. f_equal; lia.
  - intros c r Hc. unfold routeFor in Hc. destruct (moving rc c) eqn:Em; [done|].
    pose proof (ck_sessions _ Hok' c) as Hs. unfold session_ok in Hs. rewrite Hc in Hs. unfold moving in Em.
    inversion Hs as [x Hx Ex E1 E2 E3 E4|x h Hh Hor Ex E1 E2 E3 E4|x e He Hor Ex E1 E2 E3 E4|s Hs'|t Ht]; subst;
      [by apply Hx|rewrite <-E1 in Em|rewrite <-E2 in Em]; by simpl in Em; rewrite ?orb_true_r in Em.
Qed.

(** ** Witnesses *)

Definition route_demo_connection : ConnectionId := mkConnectionId 5 1.
Definition route_demo : list RouteOp :=
  [REnter route_demo_connection 42 1; RBeginHandoff route_demo_connection 42 2 (mkZonePosition 0 0) (mkZonePosition 3 3) 9;
   RSourceLeft route_demo_connection 1 (mkZonePosition 0 0); RCompleteTarget route_demo_connection 1].

Lemma routes_state_machine_witness :
  ∃ rc0 rc, makeRouteCoordinator 4096 = Ret rc0 ∧ route_run rc0 route_demo = ([(42, 1); (42, 2)], rc) ∧
    Z.of_nat (size (handoffs rc)) <= max_handoffs rc.
Proof.
  eexists. destruct (route_run (mkCoordinator 4096 ∅ ∅ ∅ ∅ ∅ ∅ 1 1 1 (fun _ => 0)) route_demo) as [g rc] eqn:E.
  assert (Hg : (route_run (mkCoordinator 4096 ∅ ∅ ∅ ∅ ∅ ∅ 1 1 1 (fun _ => 0)) route_demo).1 = [(42, 1); (42, 2)])
    by (vm_compute; reflexivity).
  rewrite E in Hg. simpl in Hg. subst g. exists rc. split; [reflexivity|]. split; [exact E|].
  assert (Hm : 0 <= 4096) by lia.
  exact (proj1 (proj2 (proj2 (routes_state_machine 4096 _ route_demo _ rc Hm eq_refl E)))).
Defined.

Lemma route_epochs_consecutive_witness :
  ∃ rc0 rc, makeRouteCoordinator 4096 = Ret rc0 ∧ route_run rc0 route_demo = ([(42, 1); (42, 2)], rc) ∧
    [1; 2] = seqZ 1 (last_epoch rc 42).
Proof.
  eexists. destruct (route_run (mkCoordinator 4096 ∅ ∅ ∅ ∅ ∅ ∅ 1 1 1 (fun _ => 0)) route_demo) as [g rc] eqn:E.
  assert (Hg : (route_run (mkCoordinator 4096 ∅ ∅ ∅ ∅ ∅ ∅ 1 1 1 (fun _ => 0)) route_demo).1 = [(42, 1); (42, 2)])
    by (vm_compute; reflexivity).
  rewrite E in Hg. simpl in Hg. subst g. exists rc. split; [reflexivity|]. split; [exact E|].
  assert (Hm : 0 <= 4096) by lia.
  exact (proj1 (route_epochs_consecutive 4096 _ route_demo _ rc 42 Hm eq_refl E)).
Defined.
