(* ===== verification/Distribution.v ===== *)
(** * Latency distributions

    [Distribution] of [src/include/snf/runtime/distribution.hpp], which the
    server's channels record their waiting times in, and [LatencyHistogram] of
    [src/include/snf/worker/latency_histogram.hpp], which mirrors its buckets on
    the worker's own thread.  Values below sixteen have a bucket each; above,
    every power of two is divided into eight buckets, up to a last bucket that
    also takes everything larger.

    The buckets of [Distribution] are atomic counters; [record] is one step, as
    the loop on [compare_exchange_weak] ends with the maximum of both values
    and the additions of concurrent calls commute. *)

From S2P Require Import Prelude.

(** ** Buckets *)

Definition EXACT_BUCKET_BITS : Z := 4.
Definition EXACT_BUCKET_COUNT : Z := Z.shiftl 1 EXACT_BUCKET_BITS.
Definition SCALED_BUCKET_COUNT_PER_SCALE : Z := EXACT_BUCKET_COUNT / 2.
Definition MAX_SCALE : Z := 30.
Definition BUCKET_COUNT : Z := EXACT_BUCKET_COUNT + MAX_SCALE * SCALED_BUCKET_COUNT_PER_SCALE.
Definition REPRESENTABLE_UPPER_BOUND : Z := Z.shiftl (2 * SCALED_BUCKET_COUNT_PER_SCALE) MAX_SCALE - 1.

(** [std::bit_width]. *)
Definition bit_width (value : Z) : Z := if value =? 0 then 0 else Z.log2 value + 1.

Definition bucketOf (value : Z) : Z :=
  if value <? EXACT_BUCKET_COUNT then value
  else
    let scale := bit_width value - EXACT_BUCKET_BITS in
    if MAX_SCALE <? scale then BUCKET_COUNT - 1
    else
      let offset := Z.shiftr value scale - SCALED_BUCKET_COUNT_PER_SCALE in
      EXACT_BUCKET_COUNT + (scale - 1) * SCALED_BUCKET_COUNT_PER_SCALE + offset.

Definition lastValueOf (bucket : Z) : Z :=
  if bucket <? EXACT_BUCKET_COUNT then bucket
  else
    let scaled := bucket - EXACT_BUCKET_COUNT in
    let scale := scaled / SCALED_BUCKET_COUNT_PER_SCALE + 1 in
    let offset := scaled mod SCALED_BUCKET_COUNT_PER_SCALE in
    let first_value := Z.shiftl (SCALED_BUCKET_COUNT_PER_SCALE + offset) scale in
    first_value + Z.shiftl 1 scale - 1.

(** [++buckets[bucket]]: the index is below [BUCKET_COUNT], the length of the
    array, for every 64-bit value ([bucketOf_range]). *)
Definition count_in (buckets : list Z) (bucket : Z) : list Z :=
  alter (fun c => u64 (c + 1)) (Z.to_nat bucket) buckets.

(** The loop of both [percentileOf]: the first bucket whose running total
    reaches the rank. *)
Fixpoint find_rank (rank cumulative bucket : Z) (counts : list Z) : Z :=
  match counts with
  | [] => lastValueOf (BUCKET_COUNT - 1)
  | c :: rest =>
      let cumulative := u64 (cumulative + c) in
      if rank <=? cumulative then lastValueOf bucket else find_rank rank cumulative (bucket + 1) rest
  end.

(** [value.count() <= 0 ? 0 : value.count()] of a duration. *)
Definition nanoseconds_value (d : Z) : Z := if d <=? 0 then 0 else d.

(** ** [Distribution] *)

Record Distribution := mkDistribution { dist_buckets : list Z; dist_max : Z }.

Definition makeDistribution : Distribution := mkDistribution (replicate (Z.to_nat BUCKET_COUNT) 0) 0.

Definition dist_record (d : Distribution) (value : Z) : Distribution :=
  mkDistribution (count_in (dist_buckets d) (bucketOf value)) (Z.max (dist_max d) value).

Definition dist_recordNanoseconds (d : Distribution) (elapsed : Z) : Distribution :=
  dist_record d (nanoseconds_value elapsed).

Record DistributionSnapshot := mkDistSnapshot {
  sample_count : Z; dist_p50 : Z; dist_p95 : Z; dist_p99 : Z; snapshot_max : Z
}.

Definition percentileOf (counts : list Z) (sample_count percentile : Z) : Z :=
  find_rank (u64 (u64 (sample_count * percentile) + 99) / 100) 0 0 counts.

Definition dist_snapshot (d : Distribution) : DistributionSnapshot :=
  let counts := dist_buckets d in
  let n := foldl (fun s c => u64 (s + c)) 0 counts in
  if n =? 0 then mkDistSnapshot n 0 0 0 (dist_max d)
  else mkDistSnapshot n (Z.min (percentileOf counts n 50) (dist_max d))
         (Z.min (percentileOf counts n 95) (dist_max d)) (Z.min (percentileOf counts n 99) (dist_max d)) (dist_max d).

(** ** [LatencyHistogram] *)

Record LatencyHistogram := mkHistogram { hist_buckets : list Z; hist_count : Z; hist_sum : Z; hist_max : Z }.

Definition makeLatencyHistogram : LatencyHistogram := mkHistogram (replicate (Z.to_nat BUCKET_COUNT) 0) 0 0 0.

Definition hist_record (h : LatencyHistogram) (value : Z) : LatencyHistogram :=
  mkHistogram (count_in (hist_buckets h) (bucketOf value)) (u64 (hist_count h + 1)) (u64 (hist_sum h + value))
    (Z.max (hist_max h) value).

Definition hist_recordNanoseconds (h : LatencyHistogram) (elapsed : Z) : LatencyHistogram :=
  hist_record h (nanoseconds_value elapsed).

Record LatencyHistogramSnapshot := mkHistSnapshot {
  latency_count : Z; latency_sum : Z; latency_max : Z; latency_p50 : Z; latency_p95 : Z; latency_p99 : Z
}.

Definition hist_percentileOf (h : LatencyHistogram) (percentile : Z) : Z :=
  let rank := u64 (u64 (hist_count h / 100 * percentile) + (hist_count h mod 100 * percentile + 99) / 100) in
  find_rank rank 0 0 (hist_buckets h).

Definition hist_snapshot (h : LatencyHistogram) : LatencyHistogramSnapshot :=
  if hist_count h =? 0 then mkHistSnapshot (hist_count h) (hist_sum h) (hist_max h) 0 0 0
  else mkHistSnapshot (hist_count h) (hist_sum h) (hist_max h) (Z.min (hist_percentileOf h 50) (hist_max h))
         (Z.min (hist_percentileOf h 95) (hist_max h)) (Z.min (hist_percentileOf h 99) (hist_max h)).

(** ** Bucket geometry *)

Lemma bucketOf_small v : v < 16 → bucketOf v = v.
Proof. intros Hv. unfold bucketOf. change EXACT_BUCKET_COUNT with 16. by rewrite (proj2 (Z.ltb_lt _ _)). Qed.

Lemma bucketOf_large v : 17179869184 <= v → bucketOf v = 255.
Proof.
  intros Hv. unfold bucketOf, bit_width. change EXACT_BUCKET_COUNT with 16. change EXACT_BUCKET_BITS with 4.
  rewrite (proj2 (Z.ltb_ge _ _)), (proj2 (Z.eqb_neq _ _)) by lia. cbv zeta.
  assert (34 <= Z.log2 v) by (apply Z.log2_le_pow2; lia).
  rewrite (proj2 (Z.ltb_lt _ _)); [done|unfold MAX_SCALE; lia].
Qed.

(** A value between is [s] bits above the eight buckets of its power of two. *)
Lemma bucketOf_scaled v : 16 <= v < 17179869184 →
  ∃ s o, 1 <= s <= 30 ∧ 0 <= o < 8 ∧ bucketOf v = 16 + (s - 1) * 8 + o ∧
         (8 + o) * 2 ^ s <= v < (8 + o + 1) * 2 ^ s.
Proof.
  intros Hv. exists (Z.log2 v - 3), (Z.shiftr v (Z.log2 v - 3) - 8).
  assert (4 <= Z.log2 v) by (apply Z.log2_le_pow2; lia).
  assert (Z.log2 v < 34) by (apply Z.log2_lt_pow2; lia).
  pose proof (Z.log2_spec v ltac:(lia)) as [Hlo Hhi].
  rewrite Z.shiftr_div_pow2 by lia.
  assert (Hp : 2 ^ Z.log2 v = 8 * 2 ^ (Z.log2 v - 3)).
  { change 8 with (2 ^ 3). rewrite <-Z.pow_add_r by lia. f_equal. lia. }
  rewrite Z.pow_succ_r in Hhi by lia. rewrite Hp in Hlo, Hhi.
  assert (0 < 2 ^ (Z.log2 v - 3)) by (apply Z.pow_pos_nonneg; lia).
  pose proof (Z.div_mod v (2 ^ (Z.log2 v - 3)) ltac:(lia)) as Hdm.
  pose proof (Z.mod_pos_bound v (2 ^ (Z.log2 v - 3)) ltac:(lia)) as Hmb.
  split; [lia|]. split; [nia|]. split; [|nia].
  unfold bucketOf, bit_width. change EXACT_BUCKET_COUNT with 16. change EXACT_BUCKET_BITS with 4.
  change MAX_SCALE with 30. change SCALED_BUCKET_COUNT_PER_SCALE with 8.
  rewrite (proj2 (Z.ltb_ge v 16)), (proj2 (Z.eqb_neq v 0)) by lia. cbv zeta.
  replace (Z.log2 v + 1 - 4) with (Z.log2 v - 3) by lia.
  rewrite (proj2 (Z.ltb_ge 30 _)) by lia. by rewrite Z.shiftr_div_pow2 by lia.
Qed.

Lemma lastValueOf_scaled s o : 1 <= s → 0 <= o < 8 → lastValueOf (16 + (s - 1) * 8 + o) = (8 + o + 1) * 2 ^ s - 1.
Proof.
  intros Hs Ho. unfold lastValueOf. change EXACT_BUCKET_COUNT with 16. change SCALED_BUCKET_COUNT_PER_SCALE with 8.
  rewrite (proj2 (Z.ltb_ge _ _)) by lia. cbv zeta.
  replace (16 + (s - 1) * 8 + o - 16) with (o + (s - 1) * 8) by lia.
  rewrite Z.div_add, Z.mod_add, Z.div_small, Z.mod_small by lia.
  replace (0 + (s - 1) + 1) with s by lia. rewrite !Z.shiftl_mul_pow2 by lia. lia.
Qed.

Lemma lastValueOf_small b : b < 16 → lastValueOf b = b.
Proof. intros Hb. unfold lastValueOf. change EXACT_BUCKET_COUNT with 16. by rewrite (proj2 (Z.ltb_lt _ _)). Qed.

(** Cases of a 64-bit value: exact, scaled, or beyond the last bucket. *)
Lemma bucketOf_cases v : 0 <= v →
  (v < 16 ∧ bucketOf v = v ∧ lastValueOf (bucketOf v) = v) ∨
  (17179869184 <= v ∧ bucketOf v = 255) ∨
  (16 <= v < 17179869184 ∧ ∃ s o, 1 <= s <= 30 ∧ 0 <= o < 8 ∧ bucketOf v = 16 + (s - 1) * 8 + o ∧
     (8 + o) * 2 ^ s <= v < (8 + o + 1) * 2 ^ s ∧ lastValueOf (bucketOf v) = (8 + o + 1) * 2 ^ s - 1).
Proof.
  intros Hv. destruct (decide (v < 16)); [left; by rewrite bucketOf_small, lastValueOf_small by lia|].
  destruct (decide (17179869184 <= v)); [right; left; by rewrite bucketOf_large by lia|].
  right; right. split; [lia|]. destruct (bucketOf_scaled v) as (s & o & Hs & Ho & Hb & Hr); [lia|].
  exists s, o. rewrite Hb. rewrite lastValueOf_scaled by lia. auto.
Qed.

Lemma bucketOf_range v : 0 <= v → 0 <= bucketOf v < BUCKET_COUNT.
Proof.
  intros Hv. change BUCKET_COUNT with 256.
  destruct (bucketOf_cases v Hv) as [(?&->&_)|[(?&->)|(?&s&o&?&?&->&_)]]; lia.
Qed.

(** A bucket stands for its largest value, at most an eighth above any other
    value in it. *)
Lemma lastValueOf_close v : 0 <= v <= REPRESENTABLE_UPPER_BOUND →
  v <= lastValueOf (bucketOf v) /\ 8 * (lastValueOf (bucketOf v) - v) <= v.
Proof.
  change REPRESENTABLE_UPPER_BOUND with 17179869183. intros Hv.
  destruct (bucketOf_cases v ltac:(lia)) as [(?&_&->)|[(?&_)|(?&s&o&?&?&_&?&->)]]; [lia|lia|].
  assert (0 < 2 ^ s) by (apply Z.pow_pos_nonneg; lia). nia.
Qed.

Lemma bucketOf_mono v w : 0 <= v <= w → bucketOf v <= bucketOf w.
Proof.
  intros Hvw.
  destruct (bucketOf_cases v ltac:(lia)) as [(?&->&_)|[(?&->)|(?&s&o&?&?&->&?&_)]];
    destruct (bucketOf_cases w ltac:(lia)) as [(?&->&_)|[(?&->)|(?&s'&o'&?&?&->&?&_)]]; try lia.
  destruct (decide (s' < s)) as [Hlt|]; [|destruct (decide (s' = s)) as [->|]; [|lia]].
  - assert (2 ^ (s' + 1) <= 2 ^ s) as Hle by (apply Z.pow_le_mono_r; lia).
    rewrite Z.pow_add_r in Hle by lia. assert (0 < 2 ^ s') by (apply Z.pow_pos_nonneg; lia). nia.
  - assert (0 < 2 ^ s) by (apply Z.pow_pos_nonneg; lia). nia.
Qed.

(** ** Samples *)

Section samples.
Variable vs : list Z.

Definition in_bucket (b : Z) : Z := Z.of_nat (count_if (fun v => bucketOf v =? b) vs).
Definition below_bucket (b : Z) : Z := Z.of_nat (count_if (fun v => bucketOf v <? b) vs).

(** [v] is the [r]-th smallest sample, counting from one. *)
Definition order_statistic (r : Z) (v : Z) : Prop :=
  v ∈ vs ∧ Z.of_nat (count_if (fun w => w <? v) vs) < r <= Z.of_nat (count_if (fun w => w <=? v) vs).

Lemma below_bucket_succ b : below_bucket (b + 1) = below_bucket b + in_bucket b.
Proof.
  unfold below_bucket, in_bucket. induction vs as [|v l IH]; simpl; [done|].
  destruct (Z.ltb_spec (bucketOf v) (b + 1)), (Z.ltb_spec (bucketOf v) b), (Z.eqb_spec (bucketOf v) b); lia.
Qed.

Lemma below_bucket_le b b' : b <= b' → below_bucket b <= below_bucket b'.
Proof.
  intros Hb. unfold below_bucket. apply inj_le, count_if_impl. intros v _ Hv. to_prop. apply Z.ltb_lt. lia.
Qed.

Lemma below_bucket_len b : below_bucket b <= zlen vs.
Proof. unfold below_bucket, zlen. apply inj_le, count_if_length. Qed.

Lemma order_statistic_exists r : 1 <= r <= zlen vs → ∃ v, order_statistic r v.
Proof.
  unfold zlen. intros Hr. set (l := merge_sort (≤) vs).
  assert (Hp : l ≡ₚ vs) by apply merge_sort_Permutation.
  assert (Hs : StronglySorted (≤) l) by apply (StronglySorted_merge_sort (≤)).
  destruct (lookup_lt_is_Some_2 l (Z.to_nat (r - 1))) as [v Hv]; [rewrite Hp; lia|].
  exists v. pose proof (take_drop_middle l _ _ Hv) as Hm. rewrite <-Hm in Hs.
  apply StronglySorted_app in Hs as (Hcross & _ & Hd). apply StronglySorted_inv in Hd as [_ Hd].
  assert (Hlen : length (take (Z.to_nat (r - 1)) l) = Z.to_nat (r - 1)).
  { rewrite length_take. apply lookup_lt_Some in Hv. lia. }
  split; [rewrite <-Hp; by eapply list_elem_of_lookup_2|].
  rewrite <-!(count_if_perm _ _ _ Hp), <-Hm, !count_if_app. cbn [count_if].
  rewrite Z.ltb_irrefl, (proj2 (Z.leb_le v v)) by lia.
  rewrite (count_if_all (fun w => w <=? v) (take _ l)).
  2:{ intros w Hw. apply Z.leb_le. apply (Hcross w v Hw). left. }
  rewrite (proj2 (count_if_zero (fun w => w <? v) (drop _ l))).
  2:{ eapply Forall_impl; [exact Hd|]. simpl. intros w Hw. by apply Z.ltb_ge. }
  pose proof (count_if_length (fun w => w <? v) (take (Z.to_nat (r - 1)) l)). lia.
Qed.

(** The loop stops at the bucket of the sample of its rank. *)
Lemma find_rank_bucket r n k :
  zlen vs <= U64_MAX → below_bucket k < r <= below_bucket (k + Z.of_nat n) →
  ∃ b, find_rank r (below_bucket k) k (in_bucket <$> seqZ k (Z.of_nat n)) = lastValueOf b ∧
       below_bucket b < r <= below_bucket (b + 1).
Proof.
  intros Hlen. revert k. induction n as [|n IH]; intros k Hr; [replace (k + Z.of_nat 0) with k in Hr by lia; lia|].
  rewrite seqZ_cons by lia. cbn [fmap list_fmap find_rank].
  rewrite <-below_bucket_succ. pose proof (below_bucket_len (k + 1)).
  assert (0 <= below_bucket (k + 1)) by (unfold below_bucket; lia).
  rewrite u64_small by lia. destruct (Z.leb_spec r (below_bucket (k + 1))); [exists k; split; [done|lia]|].
  replace (Z.succ k) with (k + 1) by lia. replace (Z.pred (Z.of_nat (S n))) with (Z.of_nat n) by lia.
  apply IH. replace (k + 1 + Z.of_nat n) with (k + Z.of_nat (S n)) by lia. lia.
Qed.

Lemma bucket_of_order_statistic r b v :
  Forall (fun w => 0 <= w) vs → order_statistic r v → below_bucket b < r <= below_bucket (b + 1) → bucketOf v = b.
Proof.
  intros Hpos [Hin Hv] Hb. rewrite Forall_forall in Hpos. pose proof (Hpos v Hin) as Hv0. simpl in Hv0.
  assert (below_bucket (bucketOf v) < r) as Hlo.
  { eapply Z.le_lt_trans; [|apply Hv]. apply inj_le, count_if_impl. intros w Hw Hlt. to_prop. apply Z.ltb_lt.
    destruct (decide (w < v)); [done|]. pose proof (bucketOf_mono v w ltac:(lia)). lia. }
  assert (r <= below_bucket (bucketOf v + 1)) as Hhi.
  { etransitivity; [apply Hv|]. apply inj_le, count_if_impl. intros w Hw Hle. to_prop. apply Z.ltb_lt.
    pose proof (Hpos w Hw) as Hw0; simpl in Hw0. pose proof (bucketOf_mono w v ltac:(lia)). lia. }
  destruct (decide (bucketOf v < b)); [|destruct (decide (b < bucketOf v)); [|lia]].
  - pose proof (below_bucket_le (bucketOf v + 1) b ltac:(lia)). lia.
  - pose proof (below_bucket_le (b + 1) (bucketOf v) ltac:(lia)). lia.
Qed.
End samples.

Definition counts_of (vs : list Z) : list Z := in_bucket vs <$> seqZ 0 BUCKET_COUNT.

Lemma counts_of_snoc vs v :
  0 <= v → zlen vs < U64_MAX → count_in (counts_of vs) (bucketOf v) = counts_of (vs ++ [v]).
Proof.
  intros Hv Hlen. pose proof (bucketOf_range v Hv) as Hb. unfold count_in, counts_of.
  apply list_eq. intros i.
  destruct (decide (i < 256)%nat) as [Hi|Hi].
  2:{ rewrite !lookup_ge_None_2; [done| |]; rewrite ?length_alter, length_fmap, length_seqZ; change BUCKET_COUNT with 256; lia. }
  assert (Hl : ∀ us, (in_bucket us <$> seqZ 0 BUCKET_COUNT) !! i = Some (in_bucket us (Z.of_nat i))).
  { intros us. rewrite list_lookup_fmap, lookup_seqZ_lt by (change BUCKET_COUNT with 256; lia). done. }
  assert (Hs : in_bucket (vs ++ [v]) (Z.of_nat i) = in_bucket vs (Z.of_nat i) + (if bucketOf v =? Z.of_nat i then 1 else 0)).
  { unfold in_bucket. rewrite count_if_app. simpl. destruct (bucketOf v =? Z.of_nat i); lia. }
  rewrite Hl, Hs. destruct (Z.eqb_spec (bucketOf v) (Z.of_nat i)) as [He|He].
  - rewrite He, Nat2Z.id, list_lookup_alter_eq, Hl. simpl. f_equal. apply u64_small.
    unfold in_bucket. pose proof (count_if_length (fun w => bucketOf w =? Z.of_nat i) vs). unfold zlen in Hlen. lia.
  - rewrite list_lookup_alter_ne by lia. rewrite Hl. f_equal. lia.
Qed.

Definition zmax_list (vs : list Z) : Z := foldl Z.max 0 vs.

Lemma dist_recorded vs :
  Forall (fun v => 0 <= v) vs → zlen vs <= U64_MAX →
  foldl dist_record makeDistribution vs = mkDistribution (counts_of vs) (zmax_list vs).
Proof.
  induction vs as [|v vs IH] using rev_ind; intros Hpos Hlen; [vm_compute; reflexivity|].
  apply Forall_app in Hpos as [Hpos Hv]. apply Forall_cons in Hv as [Hv _]. simpl in Hv.
  unfold zlen in Hlen. rewrite length_app in Hlen. simpl in Hlen.
  rewrite foldl_app, IH by (done || (unfold zlen; lia)). simpl. unfold dist_record. cbn [dist_buckets dist_max].
  rewrite counts_of_snoc by (done || (unfold zlen; lia)). f_equal. unfold zmax_list. by rewrite foldl_app.
Qed.

Lemma hist_recorded vs :
  Forall (fun v => 0 <= v) vs → zlen vs <= U64_MAX →
  let h := foldl hist_record makeLatencyHistogram vs in
  hist_buckets h = counts_of vs ∧ hist_max h = zmax_list vs ∧ hist_count h = zlen vs.
Proof.
  induction vs as [|v vs IH] using rev_ind; intros Hpos Hlen; [vm_compute; auto|].
  apply Forall_app in Hpos as [Hpos Hv]. apply Forall_cons in Hv as [Hv _]. simpl in Hv.
  unfold zlen in Hlen. rewrite length_app in Hlen. simpl in Hlen.
  cbv zeta in *. rewrite foldl_app. simpl.
  destruct IH as (Hb & Hm & Hc); [done|unfold zlen; lia|].
  rewrite Hb, Hm, Hc. rewrite counts_of_snoc by (done || (unfold zlen; lia)).
  split; [done|]. split; [unfold zmax_list; by rewrite foldl_app|].
  unfold zlen. rewrite length_app. simpl. rewrite u64_small by lia. lia.
Qed.

Lemma counts_total vs : Forall (fun v => 0 <= v) vs → zlen vs <= U64_MAX →
  foldl (fun s c => u64 (s + c)) 0 (counts_of vs) = zlen vs.
Proof.
  intros Hpos Hlen. assert (Hall : below_bucket vs 256 = zlen vs).
  { unfold below_bucket, zlen. f_equal. apply count_if_all. intros v Hv. apply Z.ltb_lt.
    rewrite Forall_forall in Hpos. apply bucketOf_range, Hpos, Hv. }
  assert (Hz : below_bucket vs 0 = 0).
  { unfold below_bucket. rewrite (proj2 (count_if_zero _ _)); [done|]. eapply Forall_impl; [exact Hpos|].
    simpl. intros v Hv. apply Z.ltb_ge. by apply bucketOf_range. }
  assert (Hgen : ∀ (n : nat) k, foldl (fun s c => u64 (s + c)) (below_bucket vs k) (in_bucket vs <$> seqZ k (Z.of_nat n)) =
                          below_bucket vs (k + Z.of_nat n)).
  { induction n as [|n IH]; intros k; [simpl; f_equal; lia|].
    rewrite seqZ_cons by lia. cbn [fmap list_fmap foldl]. rewrite <-below_bucket_succ.
    pose proof (below_bucket_len vs (k + 1)). rewrite u64_small by (unfold below_bucket in *; lia).
    replace (Z.succ k) with (k + 1) by lia. replace (Z.pred (Z.of_nat (S n))) with (Z.of_nat n) by lia.
    rewrite IH. f_equal. lia. }
  unfold counts_of. rewrite <-Hz at 1. change BUCKET_COUNT with (Z.of_nat 256). by rewrite Hgen, <-Hall.
Qed.

(** The two formulas for the rank agree and do not wrap. *)
Lemma ranks_agree n p (Hn : 0 <= n) (Hb : 100 * n <= U64_MAX - 99) (Hp : 0 <= p <= 100) :
  u64 (u64 (n * p) + 99) / 100 = (n * p + 99) / 100 ∧
  u64 (u64 (n / 100 * p) + (n mod 100 * p + 99) / 100) = (n * p + 99) / 100.
Proof.
  assert (n * p <= 100 * n) by nia. rewrite !(u64_small (n * p)) by nia.
  split; [by rewrite u64_small by nia|].
  pose proof (Z.div_mod n 100 ltac:(lia)) as Hdm. pose proof (Z.mod_pos_bound n 100 ltac:(lia)).
  assert (0 <= n / 100) by (apply Z.div_pos; lia).
  rewrite (u64_small (n / 100 * p)) by nia.
  assert (He : (n * p + 99) / 100 = n / 100 * p + (n mod 100 * p + 99) / 100).
  { rewrite Hdm at 1. replace ((100 * (n / 100) + n mod 100) * p + 99) with ((n mod 100 * p + 99) + (n / 100 * p) * 100) by lia.
    rewrite Z.div_add by lia. lia. }
  rewrite <-He. apply u64_small. split; [apply Z.div_pos; nia|].
  transitivity (n * p + 99); [apply Z.div_le_upper_bound; nia|nia].
Qed.

Lemma rank_distribution n p : 0 <= n → 100 * n <= U64_MAX - 99 → 0 <= p <= 100 →
  u64 (u64 (n * p) + 99) / 100 = (n * p + 99) / 100.
Proof. intros Hn Hb Hp. apply (ranks_agree n p Hn Hb Hp). Qed.

Lemma rank_histogram n p : 0 <= n → 100 * n <= U64_MAX - 99 → 0 <= p <= 100 →
  u64 (u64 (n / 100 * p) + (n mod 100 * p + 99) / 100) = (n * p + 99) / 100.
Proof. intros Hn Hb Hp. apply (ranks_agree n p Hn Hb Hp). Qed.

(** The running maximum is at least every sample and is one of them. *)
Lemma zmax_list_bounds vs v : v ∈ vs → v <= zmax_list vs.
Proof.
  unfold zmax_list. induction vs as [|w vs IH] using rev_ind; [by intros ?%elem_of_nil|].
  rewrite foldl_app. simpl. intros [Hv| ->%list_elem_of_singleton]%elem_of_app; [specialize (IH Hv)|]; lia.
Qed.

(** What a percentile means: the sample of its rank, rounded up to the end of
    its bucket. *)
Definition percentile_of_samples (vs : list Z) (p result : Z) : Prop :=
  ∃ v, order_statistic vs ((zlen vs * p + 99) / 100) v ∧
       (v <= REPRESENTABLE_UPPER_BOUND → v <= result ∧ 8 * (result - v) <= v) ∧
       (REPRESENTABLE_UPPER_BOUND < v → result = REPRESENTABLE_UPPER_BOUND).

Lemma find_rank_percentile vs p :
  Forall (fun v => 0 <= v) vs → 0 < zlen vs <= U64_MAX → 1 <= p <= 100 →
  percentile_of_samples vs p (Z.min (find_rank ((zlen vs * p + 99) / 100) 0 0 (counts_of vs)) (zmax_list vs)).
Proof.
  intros Hpos Hlen Hp. set (r := (zlen vs * p + 99) / 100).
  assert (Hr : 1 <= r <= zlen vs).
  { unfold r. split; [apply Z.div_le_lower_bound; nia|apply Z.lt_succ_r, Z.div_lt_upper_bound; nia]. }
  destruct (order_statistic_exists vs r Hr) as [v Hv]. exists v. split; [done|].
  assert (Hall : below_bucket vs (0 + Z.of_nat 256) = zlen vs).
  { unfold below_bucket, zlen. f_equal. apply count_if_all. intros w Hw. apply Z.ltb_lt.
    rewrite Forall_forall in Hpos. apply bucketOf_range, Hpos, Hw. }
  assert (Hz : below_bucket vs 0 = 0).
  { unfold below_bucket. rewrite (proj2 (count_if_zero _ _)); [done|]. eapply Forall_impl; [exact Hpos|].
    simpl. intros w Hw. apply Z.ltb_ge. by apply bucketOf_range. }
  destruct (find_rank_bucket vs r 256 0) as (b & Hf & Hb); [lia|rewrite Hall, Hz; lia|].
  rewrite Hz in Hf. unfold counts_of. change BUCKET_COUNT with (Z.of_nat 256). rewrite Hf.
  pose proof (bucket_of_order_statistic vs r b v Hpos Hv Hb) as <-. destruct Hv as [Hin _].
  pose proof (zmax_list_bounds vs v Hin). rewrite Forall_forall in Hpos. pose proof (Hpos v Hin) as Hv0. simpl in Hv0.
  split; intros Hrep; [pose proof (lastValueOf_close v ltac:(lia)); lia|].
  change REPRESENTABLE_UPPER_BOUND with 17179869183 in *. rewrite bucketOf_large by lia.
  change (lastValueOf 255) with 17179869183. lia.
Qed.

(** ** Theorems *)

(** After any samples (fewer than 2^64/100 of them), a snapshot of either
    histogram counts them all, reports their maximum and reports for p50, p95
    and p99 the sample of that rank rounded up by at most an eighth (and the
    largest representable value for samples beyond it). *)
Theorem percentiles_accurate vs :
  Forall (fun v => 0 <= v) vs → 0 < zlen vs → 100 * zlen vs <= U64_MAX - 99 →
  let s := dist_snapshot (foldl dist_record makeDistribution vs) in
  sample_count s = zlen vs ∧ snapshot_max s = zmax_list vs ∧ percentile_of_samples vs 50 (dist_p50 s) ∧
  percentile_of_samples vs 95 (dist_p95 s) ∧ percentile_of_samples vs 99 (dist_p99 s).
Proof.
  intros Hpos Hn Hlen. cbv zeta. rewrite dist_recorded by (done || lia). unfold dist_snapshot. cbn [dist_buckets dist_max].
  rewrite counts_total by (done || lia). rewrite (proj2 (Z.eqb_neq _ _)) by lia.
  cbn [sample_count snapshot_max dist_p50 dist_p95 dist_p99]. unfold percentileOf.
  rewrite !rank_distribution by lia.
  split_and!; [done|done|apply find_rank_percentile..]; done || lia.
Qed.

Lemma percentiles_accurate_witness :
  let vs := [3; 40; 41; 1000; 20000000000] in
  percentile_of_samples vs 50 (dist_p50 (dist_snapshot (foldl dist_record makeDistribution vs))) ∧
  dist_p50 (dist_snapshot (foldl dist_record makeDistribution vs)) = 43.
Proof.
  cbv zeta. split; [|vm_compute; reflexivity].
  apply percentiles_accurate; [repeat constructor; lia|reflexivity|vm_compute; discriminate].
Defined.

(** The worker's [LatencyHistogram] reports the same count, maximum and
    percentiles as [Distribution] for the same samples. *)
Theorem histogram_mirrors_distribution vs :
  Forall (fun v => 0 <= v) vs → 100 * zlen vs <= U64_MAX - 99 →
  let d := dist_snapshot (foldl dist_record makeDistribution vs) in
  let h := hist_snapshot (foldl hist_record makeLatencyHistogram vs) in
  latency_count h = sample_count d ∧ latency_max h = snapshot_max d ∧
  latency_p50 h = dist_p50 d ∧ latency_p95 h = dist_p95 d ∧ latency_p99 h = dist_p99 d.
Proof.
  intros Hpos Hlen. assert (zlen vs <= U64_MAX) by lia. cbv zeta. rewrite dist_recorded by done.
  destruct (hist_recorded vs) as (Hb & Hm & Hc); [done..|]. unfold dist_snapshot, hist_snapshot. cbn [dist_buckets dist_max].
  rewrite counts_total by done. rewrite Hm, Hc. unfold percentileOf, hist_percentileOf. rewrite Hb, Hc.
  assert (0 <= zlen vs) by (unfold zlen; lia).
  destruct (Z.eqb_spec (zlen vs) 0); cbn [latency_count latency_max latency_p50 latency_p95 latency_p99 sample_count
    snapshot_max dist_p50 dist_p95 dist_p99]; [done|].
  by rewrite !rank_distribution, !rank_histogram by lia.
Qed.

Lemma histogram_mirrors_distribution_witness :
  latency_p99 (hist_snapshot (foldl hist_record makeLatencyHistogram [7; 900])) =
  dist_p99 (dist_snapshot (foldl dist_record makeDistribution [7; 900])).
Proof.
  apply (histogram_mirrors_distribution [7; 900]); [repeat constructor; lia|vm_compute; discriminate].
Defined.
