(* ===== verification/Ring.v ===== *)
(** * Ring of optional slots

    The circular buffer that both transition channels keep three times over
    ([_slots], [_head], [_tail], [_queued] of
    [src/src/server/zone_transition_channel.cpp] and
    [room_transition_channel.cpp]): a vector of optional values, the positions
    of the next value to take and of the next free slot, and a count. *)

From S2P Require Import Prelude.

Section ring.
Context {A : Type}.

Record Ring := mkRing {
  ring_slots : list (option A);
  ring_head : Z;
  ring_tail : Z;
  ring_queued : Z
}.

Definition makeRing (capacity : Z) : Ring := mkRing (replicate (Z.to_nat capacity) None) 0 0 0.

(** [slots[i]]: reading outside the vector is undefined; [ring_repr] keeps both
    indices inside. *)
Definition slot_at (r : Ring) (i : Z) : option A := mjoin (ring_slots r !! Z.to_nat i).

(** [_queued == _capacity || _slots[_tail]]. *)
Definition ring_blocked (capacity : Z) (r : Ring) : bool :=
  (ring_queued r =? capacity) || has_value (slot_at r (ring_tail r)).

Definition ring_emplace (capacity : Z) (r : Ring) (a : A) : Ring :=
  mkRing (<[Z.to_nat (ring_tail r) := Some a]> (ring_slots r)) (ring_head r)
    ((ring_tail r + 1) mod capacity) (ring_queued r + 1).

(** The front of the ring taken out; an empty front slot throws. *)
Definition ring_take (capacity : Z) (r : Ring) : outcome (A * Ring) :=
  match slot_at r (ring_head r) with
  | None => Throw LogicError
  | Some a =>
      Ret (a, mkRing (<[Z.to_nat (ring_head r) := None]> (ring_slots r)) ((ring_head r + 1) mod capacity)
                (ring_tail r) (ring_queued r - 1))
  end.

(** Every slot reset, the positions and the count back to zero. *)
Definition ring_clear (r : Ring) : Ring := mkRing ((fun _ => None) <$> ring_slots r) 0 0 0.

(** The values in the ring, oldest first. *)
Definition ring_contents (capacity : Z) (r : Ring) : list A :=
  omap (fun i => slot_at r ((ring_head r + i) mod capacity)) (seqZ 0 (ring_queued r)).

(** The ring holds exactly [items], in this order. *)
Record ring_repr (capacity : Z) (r : Ring) (items : list A) : Prop := {
  rr_length : zlen (ring_slots r) = capacity;
  rr_head : 0 <= ring_head r < capacity;
  rr_queued : ring_queued r = zlen items;
  rr_bound : zlen items <= capacity;
  rr_tail : ring_tail r = (ring_head r + zlen items) mod capacity;
  rr_slots : ∀ i, 0 <= i < capacity → slot_at r ((ring_head r + i) mod capacity) = items !! Z.to_nat i
}.

Lemma slot_at_insert r i j (a : option A) h t q :
  0 <= i < zlen (ring_slots r) → 0 <= j →
  slot_at (mkRing (<[Z.to_nat i := a]> (ring_slots r)) h t q) j = if decide (i = j) then a else slot_at r j.
Proof.
  unfold slot_at, zlen. cbn [ring_slots]. intros Hi Hj. case_decide as E.
  - subst j. by rewrite list_lookup_insert_eq by lia.
  - rewrite list_lookup_insert_ne by lia. done.
Qed.

Lemma mod_add_inj h i j c : 0 <= i < c → 0 <= j < c → (h + i) mod c = (h + j) mod c → i = j.
Proof.
  intros Hi Hj He. pose proof (Z.div_mod (h + i) c ltac:(lia)). pose proof (Z.div_mod (h + j) c ltac:(lia)).
  rewrite He in *. assert ((h + i) / c = (h + j) / c) by nia. lia.
Qed.

Context (capacity : Z) (Hcap : 0 < capacity).

Lemma makeRing_repr : ring_repr capacity (makeRing capacity) [].
Proof using Hcap.
  constructor; cbn [ring_slots ring_head ring_tail ring_queued makeRing]; unfold zlen; rewrite ?length_replicate; simpl;
    rewrite ?Z.mod_0_l by lia; try lia.
  intros i Hi. unfold slot_at, makeRing. cbn [ring_slots]. rewrite lookup_nil, lookup_replicate_2; [done|].
  pose proof (Z.mod_pos_bound (0 + i) capacity ltac:(lia)). lia.
Qed.

Lemma ring_clear_repr r items : ring_repr capacity r items → ring_repr capacity (ring_clear r) [].
Proof using Hcap.
  intros [Hl _ _ _ _ _]. constructor; cbn [ring_slots ring_head ring_tail ring_queued ring_clear];
    unfold zlen in *; rewrite ?length_fmap; simpl; rewrite ?Z.mod_0_l by lia; try lia.
  intros i Hi. unfold slot_at, ring_clear. cbn [ring_slots]. rewrite list_lookup_fmap, lookup_nil.
  by destruct (ring_slots r !! _).
Qed.

Lemma ring_blocked_iff r items : ring_repr capacity r items → ring_blocked capacity r = (zlen items =? capacity).
Proof using Hcap.
  intros [Hl Hh Hq Hb Ht Hs]. unfold ring_blocked. rewrite Hq.
  destruct (Z.eqb_spec (zlen items) capacity); [done|]. simpl. rewrite Ht, Hs by (unfold zlen in *; lia).
  rewrite lookup_ge_None_2; [done|unfold zlen; lia].
Qed.

Lemma ring_emplace_repr r items a :
  ring_repr capacity r items → zlen items < capacity → ring_repr capacity (ring_emplace capacity r a) (items ++ [a]).
Proof using Hcap.
  intros [Hl Hh Hq Hb Ht Hs] Hlt.
  assert (Hz : zlen (items ++ [a]) = zlen items + 1) by (unfold zlen; rewrite length_app; simpl; lia).
  assert (0 <= zlen items) by (unfold zlen; lia).
  pose proof (Z.mod_pos_bound (ring_head r + zlen items) capacity ltac:(lia)).
  constructor; unfold ring_emplace; cbn [ring_slots ring_head ring_tail ring_queued]; try lia.
  - unfold zlen. by rewrite length_insert.
  - rewrite Ht, Hz, Zplus_mod_idemp_l. f_equal. lia.
  - intros i Hi. pose proof (Z.mod_pos_bound (ring_head r + i) capacity ltac:(lia)).
    rewrite slot_at_insert by lia. case_decide as E.
    + rewrite Ht in E. apply mod_add_inj in E as <-; [|lia..].
      rewrite lookup_app_r by (unfold zlen; lia).
      replace (Z.to_nat (zlen items) - length items)%nat with 0%nat by (unfold zlen; lia). done.
    + rewrite Hs by lia. assert (i ≠ zlen items) by (intros ->; by rewrite Ht in E).
      destruct (decide (i < zlen items)); [by rewrite lookup_app_l by (unfold zlen in *; lia)|].
      rewrite !lookup_ge_None_2; [done| |]; rewrite ?length_app; simpl; unfold zlen in *; lia.
Qed.

Lemma ring_take_repr r a items :
  ring_repr capacity r (a :: items) →
  ∃ r', ring_take capacity r = Ret (a, r') ∧ ring_repr capacity r' items.
Proof using Hcap.
  intros [Hl Hh Hq Hb Ht Hs]. unfold ring_take.
  assert (Hz : zlen (a :: items) = zlen items + 1) by (unfold zlen; simpl; lia).
  assert (0 <= zlen items) by (unfold zlen; lia).
  pose proof (Hs 0 ltac:(lia)) as Hfront. rewrite Z.add_0_r, Z.mod_small in Hfront by lia. rewrite Hfront. simpl.
  eexists. split; [done|].
  constructor; cbn [ring_slots ring_head ring_tail ring_queued]; try lia.
  - unfold zlen. by rewrite length_insert.
  - pose proof (Z.mod_pos_bound (ring_head r + 1) capacity ltac:(lia)). lia.
  - rewrite Ht, Hz, Zplus_mod_idemp_l. f_equal. lia.
  - intros i Hi. rewrite Zplus_mod_idemp_l. pose proof (Z.mod_pos_bound (ring_head r + 1 + i) capacity ltac:(lia)).
    rewrite slot_at_insert by lia. replace (ring_head r + 1 + i) with (ring_head r + (i + 1)) by lia.
    destruct (decide (i + 1 = capacity)) as [He|He].
    + rewrite He. replace (ring_head r + capacity) with (ring_head r + 1 * capacity) by lia.
      rewrite Z.mod_add, Z.mod_small, decide_True by (done || lia). rewrite lookup_ge_None_2; [done|unfold zlen in *; lia].
    + rewrite decide_False, Hs by lia || (intros E; rewrite <-(Z.mod_small (ring_head r) capacity) in E at 1 by lia;
        rewrite <-(Z.add_0_r (ring_head r)) in E at 1; apply mod_add_inj in E; lia).
      replace (Z.to_nat (i + 1)) with (S (Z.to_nat i)) by lia. done.
Qed.

Lemma ring_contents_repr r items : ring_repr capacity r items → ring_contents capacity r = items.
Proof using Hcap.
  intros [Hl Hh Hq Hb Ht Hs]. unfold ring_contents. rewrite Hq.
  assert (Hgen : ∀ l k, 0 <= k → k + zlen l <= capacity →
            (∀ i, 0 <= i < zlen l → slot_at r ((ring_head r + (k + i)) mod capacity) = l !! Z.to_nat i) →
            omap (fun i => slot_at r ((ring_head r + i) mod capacity)) (seqZ k (zlen l)) = l).
  { induction l as [|a l IH]; intros k Hk Hle Hslots; [done|].
    assert (Hz : zlen (a :: l) = zlen l + 1) by (unfold zlen; simpl; lia). assert (0 <= zlen l) by (unfold zlen; lia).
    rewrite Hz, seqZ_cons by lia. simpl. pose proof (Hslots 0 ltac:(lia)) as H0. rewrite Z.add_0_r in H0. rewrite H0. simpl.
    f_equal. replace (Z.succ k) with (k + 1) by lia. replace (Z.pred (zlen l + 1)) with (zlen l) by lia.
    apply IH; [lia|lia|]. intros i Hi. replace (k + 1 + i) with (k + (i + 1)) by lia. rewrite Hslots by lia.
    replace (Z.to_nat (i + 1)) with (S (Z.to_nat i)) by lia. done. }
  apply Hgen; [lia|lia|]. intros i Hi. rewrite Z.add_0_l. apply Hs. lia.
Qed.
End ring.
Arguments Ring : clear implicits.
