(* ===== verification/TransitionChannel.v ===== *)
(** * Transition channels

    [ZoneTransitionChannel] and [RoomTransitionChannel] of
    [src/src/server/zone_transition_channel.cpp] and
    [room_transition_channel.cpp]: how an actor thread hands the completion of
    a step of a transfer back to the network thread.  A transfer reserves a
    ticket first, and every step publishes its completion under the ticket, so
    that there is always a slot for it.

    Both classes have the same members and methods up to the type of the
    completion and the id that must match the reservation; [Channel] is that
    common part, with [completion_id] for the id, and the room channel adds the
    ring of return requests.  Every method is one atomic step under the mutex.
    [publish] and [tryPublishReturnRequest] write to the wake-up descriptor
    exactly when they return [true], [cancel] always does. *)

From S2P Require Import Prelude Zone RoomTypes Connection RouteCoordinator Distribution Ring.

(** ** Data *)

Record ZoneHandoffContext := mkHandoffContext {
  context_handoff_id : ZoneHandoffId;
  context_ticket : Z;
  context_connection : ConnectionId;
  context_player : PlayerId;
  context_step : ZoneHandoffStep;
  context_route_epoch : Z
}.

Record ZoneHandoffCompletion := mkHandoffCompletion {
  completion_handoff_id : ZoneHandoffId;
  completion_connection : ConnectionId;
  completion_player : PlayerId;
  completion_zone : ZoneId;
  completion_route_epoch : Z;
  completion_step : ZoneHandoffStep;
  completion_status : ZoneCommandStatus;
  completion_position : option ZonePosition
}.

Record RoomEntryContext := mkEntryContext {
  entry_context_entry_id : RoomEntryId;
  entry_context_return_id : RoomReturnId;
  entry_context_ticket : Z;
  entry_context_connection : ConnectionId;
  entry_context_player : PlayerId;
  entry_context_step : RoomEntryStep
}.

Record RoomTransitionCompletion := mkRoomCompletion {
  rt_entry_id : RoomEntryId;
  rt_return_id : RoomReturnId;
  rt_connection : ConnectionId;
  rt_player : PlayerId;
  rt_room : RoomId;
  rt_zone : ZoneId;
  rt_route_epoch : Z;
  rt_step : RoomEntryStep;
  rt_room_status : RoomCommandStatus;
  rt_zone_status : ZoneCommandStatus;
  rt_position : option ZonePosition
}.

Definition completionFrom (context : RoomEntryContext) : RoomTransitionCompletion :=
  mkRoomCompletion (entry_context_entry_id context) (entry_context_return_id context) (entry_context_connection context)
    (entry_context_player context) 0 0 0 (entry_context_step context) Applied ZoneApplied None.

(** [completion.return_id.valid() ? completion.return_id : completion.entry_id]. *)
Definition expected_id (c : RoomTransitionCompletion) : Z :=
  if negb (rt_return_id c =? 0) then rt_return_id c else rt_entry_id c.

Record RoomReturnRequest := mkReturnRequest { request_room : RoomId; request_player : PlayerId }.

Record Reservation := mkReservation {
  reserved_for : Z;
  reservation_queued : bool;
  release_when_consumed : bool
}.

Inductive ChannelCounter :=
| ReservationsCreated | ReservationsRejected | CompletionsPublished | CompletionsConsumed | InvalidPublishes
| ReservationHighWaterMark | QueueHighWaterMark.

#[export] Instance ChannelCounter_eq_dec : EqDecision ChannelCounter.
Proof. solve_decision. Defined.

(** ** The common part *)

Section channel.
Context {C : Type}.

Record QueuedCompletion := mkQueued { queued_ticket : Z; queued_completion : C; posted_at : time_point }.

Record Channel := mkChannel {
  chan_capacity : Z;
  chan_slots : Ring QueuedCompletion;
  reservations : gmap Z Reservation;
  next_ticket : Z;
  chan_counters : ChannelCounter → Z;
  queue_wait_nanoseconds : Distribution;
  chan_cancelled : bool
}.

Definition set_chan (slots : Ring QueuedCompletion) (res : gmap Z Reservation) (ch : Channel) : Channel :=
  mkChannel (chan_capacity ch) slots res (next_ticket ch) (chan_counters ch) (queue_wait_nanoseconds ch) (chan_cancelled ch).

(** [++counter], and [mark = std::max(mark, size)]. *)
Definition chan_bump (c : ChannelCounter) (ch : Channel) : Channel :=
  mkChannel (chan_capacity ch) (chan_slots ch) (reservations ch) (next_ticket ch)
    (fun c' => if decide (c = c') then u64 (chan_counters ch c + 1) else chan_counters ch c')
    (queue_wait_nanoseconds ch) (chan_cancelled ch).
Definition chan_raise (c : ChannelCounter) (size : Z) (ch : Channel) : Channel :=
  mkChannel (chan_capacity ch) (chan_slots ch) (reservations ch) (next_ticket ch)
    (fun c' => if decide (c = c') then Z.max (chan_counters ch c) size else chan_counters ch c')
    (queue_wait_nanoseconds ch) (chan_cancelled ch).

Definition makeChannel (capacity wake_descriptor : Z) : outcome Channel :=
  throw_if ((capacity =? 0) || (wake_descriptor <? 0)) InvalidArgument
    (Ret (mkChannel capacity (makeRing capacity) ∅ 1 (fun _ => 0) makeDistribution false)).

Definition tryReserve (ch : Channel) (id : Z) : option Z * Channel :=
  if chan_cancelled ch || (id =? 0) || (Z.of_nat (size (reservations ch)) =? chan_capacity ch) || (next_ticket ch =? U64_MAX)
  then (None, chan_bump ReservationsRejected ch)
  else
    let ticket := next_ticket ch in
    let res := <[ticket := mkReservation id false false]> (reservations ch) in
    let ch' := mkChannel (chan_capacity ch) (chan_slots ch) res (ticket + 1) (chan_counters ch)
                 (queue_wait_nanoseconds ch) (chan_cancelled ch) in
    (Some ticket, chan_raise ReservationHighWaterMark (Z.of_nat (size res)) (chan_bump ReservationsCreated ch')).

Definition release (ch : Channel) (ticket : Z) : Channel :=
  match reservations ch !! ticket with
  | None => ch
  | Some r =>
      if reservation_queued r
      then set_chan (chan_slots ch) (<[ticket := mkReservation (reserved_for r) (reservation_queued r) true]> (reservations ch)) ch
      else set_chan (chan_slots ch) (delete ticket (reservations ch)) ch
  end.

Definition tryPop (ch : Channel) (now : time_point) : outcome (option C * Channel) :=
  if ring_queued (chan_slots ch) =? 0 then Ret (None, ch)
  else
    let! (queued, slots) := ring_take (chan_capacity ch) (chan_slots ch) in
    let ch := chan_bump CompletionsConsumed (set_chan slots (reservations ch) ch) in
    match reservations ch !! queued_ticket queued with
    | None => Throw LogicError
    | Some r =>
        if negb (reservation_queued r) then Throw LogicError
        else
          let res := if release_when_consumed r then delete (queued_ticket queued) (reservations ch)
                     else <[queued_ticket queued := mkReservation (reserved_for r) false (release_when_consumed r)]> (reservations ch) in
          let wait := dist_recordNanoseconds (queue_wait_nanoseconds ch) (now - posted_at queued) in
          Ret (Some (queued_completion queued),
               mkChannel (chan_capacity ch) slots res (next_ticket ch) (chan_counters ch) wait (chan_cancelled ch))
    end.

(** Whether the wake-up descriptor is written. *)
Definition wakeIfPending (ch : Channel) : bool := negb (ring_queued (chan_slots ch) =? 0).

Definition cancel (ch : Channel) : Channel :=
  mkChannel (chan_capacity ch) (ring_clear (chan_slots ch)) ∅ (next_ticket ch) (chan_counters ch)
    (queue_wait_nanoseconds ch) true.

Definition drained (ch : Channel) : bool :=
  (ring_queued (chan_slots ch) =? 0) && bool_decide (reservations ch = ∅).

Context (completion_id : C → Z).

Definition publish (ch : Channel) (ticket : Z) (completion : C) (now : time_point) : bool * Channel :=
  match reservations ch !! ticket with
  | None => (false, chan_bump InvalidPublishes ch)
  | Some r =>
      if chan_cancelled ch || (ticket =? 0) || negb (reserved_for r =? completion_id completion) || reservation_queued r ||
         ring_blocked (chan_capacity ch) (chan_slots ch)
      then (false, chan_bump InvalidPublishes ch)
      else
        let slots := ring_emplace (chan_capacity ch) (chan_slots ch) (mkQueued ticket completion now) in
        let res := <[ticket := mkReservation (reserved_for r) true (release_when_consumed r)]> (reservations ch) in
        (true, chan_raise QueueHighWaterMark (ring_queued slots) (chan_bump CompletionsPublished (set_chan slots res ch)))
  end.
End channel.
Arguments QueuedCompletion : clear implicits.
Arguments Channel : clear implicits.

(** ** The two channels *)

Abbreviation ZoneTransitionChannel := (Channel ZoneHandoffCompletion).

Inductive ReturnCounter :=
| ReturnRequestsPublished | ReturnRequestsConsumed | ReturnRequestsRejected | ReturnRequestHighWaterMark.

#[export] Instance ReturnCounter_eq_dec : EqDecision ReturnCounter.
Proof. solve_decision. Defined.

(** [_capacity] and [_cancelled] are those of [completions]. *)
Record RoomTransitionChannel := mkRoomChannel {
  completions : Channel RoomTransitionCompletion;
  return_requests : Ring RoomReturnRequest;
  return_counters : ReturnCounter → Z
}.

Definition makeRoomTransitionChannel (capacity wake_descriptor : Z) : outcome RoomTransitionChannel :=
  let! ch := makeChannel capacity wake_descriptor in Ret (mkRoomChannel ch (makeRing capacity) (fun _ => 0)).

Definition on_completions (ch : Channel RoomTransitionCompletion) (rc : RoomTransitionChannel) : RoomTransitionChannel :=
  mkRoomChannel ch (return_requests rc) (return_counters rc).

Definition tryReserveEntry (rc : RoomTransitionChannel) (entry : RoomEntryId) : option Z * RoomTransitionChannel :=
  let '(ticket, ch) := tryReserve (completions rc) entry in (ticket, on_completions ch rc).

Definition tryReserveReturn (rc : RoomTransitionChannel) (return_id : RoomReturnId) : option Z * RoomTransitionChannel :=
  let '(ticket, ch) := tryReserve (completions rc) return_id in (ticket, on_completions ch rc).

Definition room_publish (rc : RoomTransitionChannel) (ticket : Z) (completion : RoomTransitionCompletion) (now : time_point) :
    bool * RoomTransitionChannel :=
  let '(ok, ch) := publish expected_id (completions rc) ticket completion now in (ok, on_completions ch rc).

Definition room_tryPop (rc : RoomTransitionChannel) (now : time_point) :
    outcome (option RoomTransitionCompletion * RoomTransitionChannel) :=
  let! (c, ch) := tryPop (completions rc) now in Ret (c, on_completions ch rc).

Definition room_release (rc : RoomTransitionChannel) (ticket : Z) : RoomTransitionChannel :=
  on_completions (release (completions rc) ticket) rc.

Definition return_bump (c : ReturnCounter) (rc : RoomTransitionChannel) : RoomTransitionChannel :=
  mkRoomChannel (completions rc) (return_requests rc)
    (fun c' => if decide (c = c') then u64 (return_counters rc c + 1) else return_counters rc c').

Definition tryPublishReturnRequest (rc : RoomTransitionChannel) (request : RoomReturnRequest) : bool * RoomTransitionChannel :=
  let capacity := chan_capacity (completions rc) in
  if chan_cancelled (completions rc) || (request_room request =? 0) || (request_player request =? 0) ||
     ring_blocked capacity (return_requests rc)
  then (false, return_bump ReturnRequestsRejected rc)
  else
    let ring := ring_emplace capacity (return_requests rc) request in
    let rc := return_bump ReturnRequestsPublished (mkRoomChannel (completions rc) ring (return_counters rc)) in
    (true, mkRoomChannel (completions rc) ring
             (fun c => if decide (c = ReturnRequestHighWaterMark)
                       then Z.max (return_counters rc ReturnRequestHighWaterMark) (ring_queued ring)
                       else return_counters rc c)).

Definition tryPopReturnRequest (rc : RoomTransitionChannel) : outcome (option RoomReturnRequest * RoomTransitionChannel) :=
  if ring_queued (return_requests rc) =? 0 then Ret (None, rc)
  else
    let! (request, ring) := ring_take (chan_capacity (completions rc)) (return_requests rc) in
    Ret (Some request, return_bump ReturnRequestsConsumed (mkRoomChannel (completions rc) ring (return_counters rc))).

Definition room_wakeIfPending (rc : RoomTransitionChannel) : bool :=
  negb (ring_queued (chan_slots (completions rc)) =? 0) || negb (ring_queued (return_requests rc) =? 0).

Definition room_cancel (rc : RoomTransitionChannel) : RoomTransitionChannel :=
  mkRoomChannel (cancel (completions rc)) (ring_clear (return_requests rc)) (return_counters rc).

Definition room_drained (rc : RoomTransitionChannel) : bool :=
  (ring_queued (chan_slots (completions rc)) =? 0) && (ring_queued (return_requests rc) =? 0) &&
  bool_decide (reservations (completions rc) = ∅).
