(* ===== verification/TransitionSpec.v ===== *)
(** * Specification of the transition channels

    What a channel promises: a queue of completions in the order of their
    publication, and a set of reservations, each with at most one completion in
    the queue.  The rings, flags and bounds of [TransitionChannel] implement it:
    both give the same results under every sequence of calls. *)

From S2P Require Import Prelude Zone RoomTypes Connection RouteCoordinator Distribution Ring TransitionChannel.

Section spec.
Context {C : Type} (completion_id : C → Z).

(** ** The abstract channel: no ring, no flags, no room to run out of *)

Record AChannel := mkA {
  a_capacity : Z;
  a_queue : list (Z * C);
  a_reserved : gmap Z (Z * bool);
  a_next : Z;
  a_cancelled : bool
}.

Definition a_init (capacity : Z) : AChannel := mkA capacity [] ∅ 1 false.

Definition a_set (q : list (Z * C)) (res : gmap Z (Z * bool)) (a : AChannel) : AChannel :=
  mkA (a_capacity a) q res (a_next a) (a_cancelled a).

Definition a_reserve (a : AChannel) (id : Z) : option Z * AChannel :=
  if a_cancelled a || (id =? 0) || (Z.of_nat (size (a_reserved a)) =? a_capacity a) || (a_next a =? U64_MAX)
  then (None, a)
  else (Some (a_next a), mkA (a_capacity a) (a_queue a) (<[a_next a := (id, false)]> (a_reserved a)) (a_next a + 1) (a_cancelled a)).

Definition a_publish (a : AChannel) (ticket : Z) (c : C) : bool * AChannel :=
  match a_reserved a !! ticket with
  | Some (id, _) =>
      if (id =? completion_id c) && negb (bool_decide (ticket ∈ (a_queue a).*1))
      then (true, a_set (a_queue a ++ [(ticket, c)]) (a_reserved a) a) else (false, a)
  | None => (false, a)
  end.

Definition a_pop (a : AChannel) : option C * AChannel :=
  match a_queue a with
  | [] => (None, a)
  | (ticket, c) :: rest =>
      (Some c, match a_reserved a !! ticket with
               | Some (_, true) => a_set rest (delete ticket (a_reserved a)) a
               | _ => a_set rest (a_reserved a) a
               end)
  end.

Definition a_release (a : AChannel) (ticket : Z) : AChannel :=
  match a_reserved a !! ticket with
  | None => a
  | Some (id, _) =>
      if bool_decide (ticket ∈ (a_queue a).*1) then a_set (a_queue a) (<[ticket := (id, true)]> (a_reserved a)) a
      else a_set (a_queue a) (delete ticket (a_reserved a)) a
  end.

Definition a_cancel (a : AChannel) : AChannel := mkA (a_capacity a) [] ∅ (a_next a) true.

(** ** Calls *)

Inductive ChannelOp :=
| OReserve (id : Z) | OPublish (ticket : Z) (c : C) (now : time_point) | OPop (now : time_point)
| ORelease (ticket : Z) | OCancel | OWake | ODrained.

Inductive ChannelResult :=
| RTicket (ticket : option Z) | RFlag (b : bool) | RCompletion (c : option C) | RUnit.

Definition chan_step (ch : Channel C) (op : ChannelOp) : outcome (ChannelResult * Channel C) :=
  match op with
  | OReserve id => let '(t, ch) := tryReserve ch id in Ret (RTicket t, ch)
  | OPublish t c now => let '(ok, ch) := publish completion_id ch t c now in Ret (RFlag ok, ch)
  | OPop now => let! (c, ch) := tryPop ch now in Ret (RCompletion c, ch)
  | ORelease t => Ret (RUnit, release ch t)
  | OCancel => Ret (RUnit, cancel ch)
  | OWake => Ret (RFlag (wakeIfPending ch), ch)
  | ODrained => Ret (RFlag (drained ch), ch)
  end.

Definition a_step (a : AChannel) (op : ChannelOp) : ChannelResult * AChannel :=
  match op with
  | OReserve id => let '(t, a) := a_reserve a id in (RTicket t, a)
  | OPublish t c _ => let '(ok, a) := a_publish a t c in (RFlag ok, a)
  | OPop _ => let '(c, a) := a_pop a in (RCompletion c, a)
  | ORelease t => (RUnit, a_release a t)
  | OCancel => (RUnit, a_cancel a)
  | OWake => (RFlag (negb (bool_decide (length (a_queue a) = 0%nat))), a)
  | ODrained => (RFlag (bool_decide (length (a_queue a) = 0%nat) && bool_decide (a_reserved a = ∅)), a)
  end.

Fixpoint chan_run (ch : Channel C) (ops : list ChannelOp) : outcome (list ChannelResult * Channel C) :=
  match ops with
  | [] => Ret ([], ch)
  | op :: rest =>
      let! (r, ch) := chan_step ch op in let! (rs, ch) := chan_run ch rest in Ret (r :: rs, ch)
  end.

Fixpoint a_run (a : AChannel) (ops : list ChannelOp) : list ChannelResult * AChannel :=
  match ops with
  | [] => ([], a)
  | op :: rest => let '(r, a) := a_step a op in let '(rs, a) := a_run a rest in (r :: rs, a)
  end.

(** ** Simulation *)

Definition abstract_reservation (q : list (Z * C)) (t : Z) (p : Z * bool) : Reservation :=
  mkReservation p.1 (bool_decide (t ∈ q.*1)) p.2.

Record simulates (ch : Channel C) (a : AChannel) : Prop := {
  sim_capacity : 0 < chan_capacity ch ∧ a_capacity a = chan_capacity ch;
  sim_cancelled : chan_cancelled ch = a_cancelled a ∧ (a_cancelled a = true → a_reserved a = ∅);
  sim_next : next_ticket ch = a_next a ∧ 1 <= a_next a;
  sim_slots : ∃ items, ring_repr (chan_capacity ch) (chan_slots ch) items ∧
                a_queue a = (fun q => (queued_ticket q, queued_completion q)) <$> items;
  sim_reserved : ∀ t, reservations ch !! t = abstract_reservation (a_queue a) t <$> a_reserved a !! t;
  sim_size : Z.of_nat (size (a_reserved a)) <= chan_capacity ch;
  sim_nodup : NoDup (a_queue a).*1;
  sim_queued : ∀ t, t ∈ (a_queue a).*1 → is_Some (a_reserved a !! t);
  sim_tickets : ∀ t p, a_reserved a !! t = Some p → 1 <= t < a_next a
}.

Lemma sim_same_size ch a : simulates ch a → size (reservations ch) = size (a_reserved a).
Proof.
  intros Hs. rewrite <-!size_dom. f_equal. apply leibniz_equiv, set_equiv. intros t.
  rewrite !elem_of_dom, (sim_reserved _ _ Hs). by rewrite fmap_is_Some.
Qed.

Lemma sim_empty ch a : simulates ch a → bool_decide (reservations ch = ∅) = bool_decide (a_reserved a = ∅).
Proof.
  intros Hs. apply bool_decide_ext. pose proof (sim_same_size _ _ Hs) as He.
  split; intros E; rewrite E, map_size_empty in He; apply map_size_empty_inv; done.
Qed.

Lemma sim_count ch a : simulates ch a → ring_queued (chan_slots ch) = zlen (a_queue a).
Proof.
  intros Hs. destruct (sim_slots _ _ Hs) as (items & Hr & ->). rewrite (rr_queued _ _ _ Hr).
  unfold zlen. by rewrite length_fmap.
Qed.

(** The tickets and completions waiting in the channel, oldest first. *)
Definition queued_completions (ch : Channel C) : list (Z * C) :=
  (fun q => (queued_ticket q, queued_completion q)) <$> ring_contents (chan_capacity ch) (chan_slots ch).

Lemma sim_contents ch a : simulates ch a → queued_completions ch = a_queue a.
Proof.
  intros Hs. destruct (sim_slots _ _ Hs) as (items & Hr & ->). unfold queued_completions.
  by rewrite (ring_contents_repr _ (proj1 (sim_capacity _ _ Hs)) _ _ Hr).
Qed.

(** A reservation with nothing queued guarantees a free slot. *)
Lemma sim_space ch a t p :
  simulates ch a → a_reserved a !! t = Some p → t ∉ (a_queue a).*1 → zlen (a_queue a) < chan_capacity ch.
Proof.
  intros Hs Ht Hq. eapply Z.lt_le_trans; [|exact (sim_size _ _ Hs)].
  rewrite <-size_dom. pose proof (sim_nodup _ _ Hs) as Hnd.
  assert (list_to_set (t :: (a_queue a).*1) ⊆ dom (a_reserved a)) as Hsub.
  { intros u [->|Hu]%elem_of_list_to_set%elem_of_cons; apply elem_of_dom; [by eexists|by apply (sim_queued _ _ Hs)]. }
  apply subseteq_size in Hsub. rewrite size_list_to_set in Hsub by (by constructor).
  simpl in Hsub. rewrite length_fmap in Hsub. unfold zlen. lia.
Qed.

Lemma sim_counter ch a f d :
  simulates ch a →
  simulates (mkChannel (chan_capacity ch) (chan_slots ch) (reservations ch) (next_ticket ch) f d (chan_cancelled ch)) a.
Proof. by intros [????????]; constructor. Qed.

Lemma tryReserve_sim ch a i : simulates ch a →
  (tryReserve ch i).1 = (a_reserve a i).1 ∧ simulates (tryReserve ch i).2 (a_reserve a i).2.
Proof.
  intros Hs. unfold tryReserve, a_reserve.
  rewrite (sim_same_size _ _ Hs), (proj1 (sim_cancelled _ _ Hs)), (proj2 (sim_capacity _ _ Hs)), (proj1 (sim_next _ _ Hs)).
  split_if; cbn [fst snd]; [split; [done|by apply sim_counter]|]. split; [done|]. apply sim_counter, (sim_counter (mkChannel _ _ _ _ _ _ _)).
  to_prop. destruct Hs as [Hc [Hx Hx'] [Hn Hn'] Hi Hr Hz Hd Hq Ht].
  assert (Hfresh : a_reserved a !! a_next a = None).
  { destruct (a_reserved a !! a_next a) eqn:E; [|done]. apply Ht in E. lia. }
  constructor; cbn [chan_capacity chan_cancelled next_ticket chan_slots reservations a_capacity a_cancelled a_next
    a_queue a_reserved]; try done.
  - by destruct Hc.
  - split; [congruence|]. intros E; congruence.
  - split; [done|lia].
  - intros t. destruct (decide (a_next a = t)) as [<-|Hne]; [|rewrite !lookup_insert_ne by done; apply Hr].
    rewrite !lookup_insert_eq. simpl. unfold abstract_reservation. simpl. f_equal. f_equal.
    symmetry. apply bool_decide_eq_false. intros Hin. apply Hq in Hin as [? Hin]. congruence.
  - rewrite map_size_insert, Hfresh. unfold id. simpl. lia.
  - intros t Hin. destruct (Hq t Hin) as [p Hp]. destruct (decide (a_next a = t)) as [<-|]; [congruence|].
    rewrite lookup_insert_ne by done. by eexists.
  - intros t p. destruct (decide (a_next a = t)) as [<-|]; [rewrite lookup_insert_eq; intros _; lia|].
    rewrite lookup_insert_ne by done. intros E%Ht. lia.
Qed.

Lemma publish_sim ch a t c now : simulates ch a →
  (publish completion_id ch t c now).1 = (a_publish a t c).1 ∧
  simulates (publish completion_id ch t c now).2 (a_publish a t c).2.
Proof.
  intros Hs. unfold publish, a_publish. rewrite (sim_reserved _ _ Hs).
  destruct (a_reserved a !! t) as [[id rel]|] eqn:E; simpl; [|split; [done|by apply sim_counter]].
  pose proof (sim_tickets _ _ Hs t _ E) as Htk.
  assert (Hnc : chan_cancelled ch = false).
  { rewrite (proj1 (sim_cancelled _ _ Hs)). destruct (a_cancelled a) eqn:Ec; [|done].
    rewrite (proj2 (sim_cancelled _ _ Hs) Ec), lookup_empty in E. done. }
  rewrite Hnc, (proj2 (Z.eqb_neq t 0)) by lia. cbn [orb].
  destruct (Z.eqb_spec id (completion_id c)); cbn [negb orb andb]; [|split; [done|by apply sim_counter]].
  case_bool_decide as Hq; cbn [negb orb fst snd]; [split; [done|by apply sim_counter]|].
  pose proof (sim_space _ _ t _ Hs E Hq) as Hsp. destruct (sim_slots _ _ Hs) as (items & Hr & Hitems).
  assert (zlen items = zlen (a_queue a)) as Hlen by (rewrite Hitems; unfold zlen; by rewrite length_fmap).
  rewrite (ring_blocked_iff _ (proj1 (sim_capacity _ _ Hs)) _ _ Hr), (proj2 (Z.eqb_neq _ _)) by lia. cbn [fst snd].
  split; [done|]. apply sim_counter, (sim_counter (set_chan _ _ ch)).
  destruct Hs as [Hc [Hx Hx'] [Hn Hn'] Hi Hres Hz Hd Hqd Ht].
  constructor; cbn [chan_capacity chan_cancelled next_ticket chan_slots reservations set_chan a_set a_capacity a_cancelled a_next
    a_queue a_reserved]; try done.
  - eexists. split; [apply ring_emplace_repr; [apply Hc|exact Hr|lia]|]. rewrite fmap_app, <-Hitems. done.
  - intros u. destruct (decide (t = u)) as [<-|Hne].
    + rewrite lookup_insert_eq, E. simpl. unfold abstract_reservation. simpl. f_equal. f_equal.
      symmetry. apply bool_decide_eq_true. rewrite fmap_app. apply elem_of_app. right. left.
    + rewrite lookup_insert_ne, Hres by done. destruct (a_reserved a !! u) as [p|]; [|done]. simpl. f_equal.
      unfold abstract_reservation. f_equal. apply bool_decide_ext. rewrite fmap_app. simpl. rewrite elem_of_app, list_elem_of_singleton.
      split; [by left|]. intros [?|?]; [done|congruence].
  - rewrite fmap_app. simpl. apply NoDup_app. split; [done|]. split; [|apply NoDup_singleton].
    intros u Hu ->%list_elem_of_singleton. done.
  - intros u. rewrite fmap_app. simpl. rewrite elem_of_app, list_elem_of_singleton. intros [Hu| ->]; [by apply Hqd|by eexists].
Qed.

Lemma tryPop_sim ch a now : simulates ch a →
  ∃ ch', tryPop ch now = Ret ((a_pop a).1, ch') ∧ simulates ch' (a_pop a).2.
Proof.
  intros Hs. unfold tryPop, a_pop. rewrite (sim_count _ _ Hs).
  destruct (a_queue a) as [|[t c] rest] eqn:Eq; [eexists; split; [done|exact Hs]|].
  rewrite (proj2 (Z.eqb_neq _ _)) by (unfold zlen; simpl; lia).
  destruct (sim_slots _ _ Hs) as (items & Hr & Hitems). rewrite Eq in Hitems.
  destruct items as [|[t' c' at_] items]; [done|]. injection Hitems as <- <- Hrest.
  destruct (ring_take_repr _ (proj1 (sim_capacity _ _ Hs)) _ _ _ Hr) as (slots & -> & Hr').
  cbn [outcome_bind chan_bump set_chan reservations queued_ticket queued_completion posted_at].
  destruct Hs as [Hc [Hx Hx'] [Hn Hn'] Hi Hres Hz Hd Hqd Ht]. rewrite Eq in Hres, Hd, Hqd. simpl in Hd.
  apply NoDup_cons in Hd as [Hnin Hd]. destruct (Hqd t ltac:(left)) as [[id rel] Hp].
  assert (Hself : ∀ u p, u ≠ t → abstract_reservation ((t, c) :: rest) u p = abstract_reservation rest u p).
  { intros u p Hne. unfold abstract_reservation. f_equal. apply bool_decide_ext. simpl. rewrite elem_of_cons. split; [intros [?|?]; [congruence|done]|by right]. }
  rewrite Hres, Hp. cbn [fmap option_fmap option_map abstract_reservation reservation_queued release_when_consumed reserved_for fst snd].
  rewrite bool_decide_true by (simpl; left). cbn [negb].
  eexists. split; [done|].
  destruct rel; (constructor; cbn [chan_capacity chan_cancelled next_ticket chan_slots reservations set_chan chan_bump a_set
    a_capacity a_cancelled a_next a_queue a_reserved snd]; try done); try (by eexists).
  - split; [done|]. intros E. rewrite (Hx' E) in Hp. done.
  - intros u. destruct (decide (t = u)) as [<-|Hne]; [by rewrite !lookup_delete_eq|].
    rewrite !lookup_delete_ne, Hres by done. destruct (a_reserved a !! u); [|done]. simpl. by rewrite Hself.
  - rewrite map_size_delete, Hp. simpl. lia.
  - intros u Hu. destruct (decide (t = u)) as [<-|]; [done|]. rewrite lookup_delete_ne by done. apply Hqd. by right.
  - intros u p [_ Hu]%lookup_delete_Some. by eapply Ht.
  - intros u. destruct (decide (t = u)) as [<-|Hne].
    + rewrite lookup_insert_eq, Hp. simpl. unfold abstract_reservation. simpl. by rewrite bool_decide_false.
    + rewrite lookup_insert_ne, Hres by done. destruct (a_reserved a !! u); [|done]. simpl. by rewrite Hself.
  - intros u Hu. apply Hqd. by right.
Qed.

Lemma release_sim ch a t : simulates ch a → simulates (release ch t) (a_release a t).
Proof.
  intros Hs. unfold release, a_release. rewrite (sim_reserved _ _ Hs).
  destruct (a_reserved a !! t) as [[id rel]|] eqn:E; simpl; [|done].
  destruct Hs as [Hc [Hx Hx'] [Hn Hn'] Hi Hres Hz Hd Hqd Ht].
  case_bool_decide as Hq; (constructor; cbn [chan_capacity chan_cancelled next_ticket chan_slots reservations set_chan a_set
    a_capacity a_cancelled a_next a_queue a_reserved]; try done).
  - split; [done|]. intros Ec. by rewrite (Hx' Ec), lookup_empty in E.
  - intros u. destruct (decide (t = u)) as [<-|Hne]; [|by rewrite !lookup_insert_ne, Hres by done].
    rewrite !lookup_insert_eq. simpl. unfold abstract_reservation. simpl. by rewrite bool_decide_true.
  - rewrite map_size_insert, E. done.
  - intros u Hu. destruct (decide (t = u)) as [<-|]; [rewrite lookup_insert_eq; by eexists|].
    rewrite lookup_insert_ne by done. by apply Hqd.
  - intros u p [[<- _]|[_ Hu]]%lookup_insert_Some; by eapply Ht.
  - split; [done|]. intros Ec. by rewrite (Hx' Ec), lookup_empty in E.
  - intros u. destruct (decide (t = u)) as [<-|Hne]; [by rewrite !lookup_delete_eq|by rewrite !lookup_delete_ne, Hres by done].
  - rewrite map_size_delete, E. simpl. lia.
  - intros u Hu. rewrite lookup_delete_ne by congruence. by apply Hqd.
  - intros u p [_ Hu]%lookup_delete_Some. by eapply Ht.
Qed.

Lemma cancel_sim ch a : simulates ch a → simulates (cancel ch) (a_cancel a).
Proof.
  intros Hs. destruct (sim_slots _ _ Hs) as (items & Hr & _).
  destruct Hs as [Hc [Hx Hx'] [Hn Hn'] Hi Hres Hz Hd Hqd Ht].
  constructor; cbn [chan_capacity chan_cancelled next_ticket chan_slots reservations cancel a_cancel
    a_capacity a_cancelled a_next a_queue a_reserved]; try done.
  - exists []. split; [|done]. eapply ring_clear_repr; [apply Hc|exact Hr].
  - rewrite map_size_empty. lia.
  - constructor.
  - intros t Ht'. by apply elem_of_nil in Ht'.
Qed.

Lemma chan_step_sim ch a op : simulates ch a →
  ∃ ch', chan_step ch op = Ret ((a_step a op).1, ch') ∧ simulates ch' (a_step a op).2.
Proof.
  intros Hs. assert (Hpend : (ring_queued (chan_slots ch) =? 0) = bool_decide (length (a_queue a) = 0%nat)).
  { rewrite (sim_count _ _ Hs). unfold zlen. case_bool_decide; [apply Z.eqb_eq|apply Z.eqb_neq]; lia. }
  destruct op as [id|t c now|now|t| | |]; simpl.
  - destruct (tryReserve_sim ch a id Hs). destruct (tryReserve ch id), (a_reserve a id); simpl in *; subst; eauto.
  - destruct (publish_sim ch a t c now Hs). destruct (publish completion_id ch t c now), (a_publish a t c); simpl in *; subst; eauto.
  - destruct (tryPop_sim ch a now Hs) as (ch' & -> & Hs'). destruct (a_pop a); simpl in *; eauto.
  - eauto using release_sim.
  - eauto using cancel_sim.
  - unfold wakeIfPending. rewrite Hpend. eauto.
  - unfold drained. rewrite Hpend, (sim_empty _ _ Hs). eauto.
Qed.

Lemma chan_run_sim ops ch a : simulates ch a →
  ∃ ch', chan_run ch ops = Ret ((a_run a ops).1, ch') ∧ simulates ch' (a_run a ops).2.
Proof.
  revert ch a. induction ops as [|op ops IH]; intros ch a Hs; simpl; [eauto|].
  destruct (chan_step_sim ch a op Hs) as (ch1 & -> & Hs1). destruct (a_step a op) as [r a1]. simpl in *.
  destruct (IH ch1 a1 Hs1) as (ch2 & -> & Hs2). destruct (a_run a1 ops) as [rs a2]. simpl in *. eauto.
Qed.

Lemma makeChannel_sim capacity fd ch :
  0 <= capacity → makeChannel capacity fd = Ret ch → simulates ch (a_init capacity).
Proof.
  intros Hc [Hg [= <-]]%throw_if_ret. to_prop. constructor; simpl; try done; try lia.
  - exists []. split; [apply makeRing_repr; lia|done].
  - constructor.
  - intros t Ht'. by apply elem_of_nil in Ht'.
Qed.
End spec.
Arguments AChannel : clear implicits.
Arguments ChannelOp : clear implicits.
Arguments ChannelResult : clear implicits.

(** ** The room channel: completions, and return requests beside them *)

Inductive RoomChannelOp :=
| REntry (id : RoomEntryId) | RReturn (id : RoomReturnId)
| RPublish (ticket : Z) (c : RoomTransitionCompletion) (now : time_point) | RPop (now : time_point)
| RRequest (request : RoomReturnRequest) | RPopRequest | RRelease (ticket : Z) | RCancel | RWake | RDrained.

Inductive RoomChannelResult :=
| RCompletionResult (r : ChannelResult RoomTransitionCompletion) | RRequestResult (r : option RoomReturnRequest).

Definition room_chan_step (rc : RoomTransitionChannel) (op : RoomChannelOp) : outcome (RoomChannelResult * RoomTransitionChannel) :=
  let ok r rc := Ret (RCompletionResult r, rc) in
  match op with
  | REntry id => let '(t, rc) := tryReserveEntry rc id in ok (RTicket t) rc
  | RReturn id => let '(t, rc) := tryReserveReturn rc id in ok (RTicket t) rc
  | RPublish t c now => let '(b, rc) := room_publish rc t c now in ok (RFlag b) rc
  | RPop now => let! (c, rc) := room_tryPop rc now in ok (RCompletion c) rc
  | RRequest request => let '(b, rc) := tryPublishReturnRequest rc request in ok (RFlag b) rc
  | RPopRequest => let! (r, rc) := tryPopReturnRequest rc in Ret (RRequestResult r, rc)
  | RRelease t => ok RUnit (room_release rc t)
  | RCancel => ok RUnit (room_cancel rc)
  | RWake => ok (RFlag (room_wakeIfPending rc)) rc
  | RDrained => ok (RFlag (room_drained rc)) rc
  end.

(** The abstract room channel: the abstract channel and a list of at most
    [capacity] requests. *)
Abbreviation ARoomChannel := (AChannel RoomTransitionCompletion * list RoomReturnRequest)%type.

Definition a_request (a : ARoomChannel) (request : RoomReturnRequest) : bool * ARoomChannel :=
  if a_cancelled a.1 || (request_room request =? 0) || (request_player request =? 0) || (zlen a.2 =? a_capacity a.1)
  then (false, a) else (true, (a.1, a.2 ++ [request])).

Definition a_room_step (a : ARoomChannel) (op : RoomChannelOp) : RoomChannelResult * ARoomChannel :=
  let via o := let '(r, ch) := a_step expected_id a.1 o in (RCompletionResult r, (ch, a.2)) in
  let none := bool_decide (length (a_queue a.1) = 0%nat) && bool_decide (length a.2 = 0%nat) in
  match op with
  | REntry id => via (OReserve id)
  | RReturn id => via (OReserve id)
  | RPublish t c now => via (OPublish t c now)
  | RPop now => via (OPop now)
  | RRequest request => let '(b, a) := a_request a request in (RCompletionResult (RFlag b), a)
  | RPopRequest => (RRequestResult (head a.2), (a.1, tail a.2))
  | RRelease t => via (ORelease t)
  | RCancel => (RCompletionResult RUnit, (a_cancel a.1, []))
  | RWake => (RCompletionResult (RFlag (negb none)), a)
  | RDrained => (RCompletionResult (RFlag (none && bool_decide (a_reserved a.1 = ∅))), a)
  end.

Fixpoint room_chan_run (rc : RoomTransitionChannel) (ops : list RoomChannelOp) :
    outcome (list RoomChannelResult * RoomTransitionChannel) :=
  match ops with
  | [] => Ret ([], rc)
  | op :: rest =>
      let! (r, rc) := room_chan_step rc op in let! (rs, rc) := room_chan_run rc rest in Ret (r :: rs, rc)
  end.

Fixpoint a_room_run (a : ARoomChannel) (ops : list RoomChannelOp) : list RoomChannelResult * ARoomChannel :=
  match ops with
  | [] => ([], a)
  | op :: rest => let '(r, a) := a_room_step a op in let '(rs, a) := a_room_run a rest in (r :: rs, a)
  end.

Definition room_simulates (rc : RoomTransitionChannel) (a : ARoomChannel) : Prop :=
  simulates (completions rc) a.1 ∧ ring_repr (chan_capacity (completions rc)) (return_requests rc) a.2.

Lemma chan_step_capacity {C} (cid : C → Z) ch op r ch' :
  chan_step cid ch op = Ret (r, ch') → chan_capacity ch' = chan_capacity ch.
Proof.
  destruct op as [id|t c now|now|t| | |]; simpl.
  - unfold tryReserve. split_if; by intros [= _ <-].
  - unfold publish. destruct (reservations ch !! t); [split_if|]; by intros [= _ <-].
  - unfold tryPop. split_if; [by intros [= _ <-]|]. destruct (ring_take _ _) as [[q slots]|]; [|done]. simpl.
    destruct (reservations ch !! _); [|done]. split_if; [done|]. by intros [= _ <-].
  - unfold release. intros [= _ <-]. destruct (reservations ch !! t); [|done]. by split_if.
  - by intros [= _ <-].
  - by intros [= _ <-].
  - by intros [= _ <-].
Qed.

(** A call that only concerns the completions. *)
Lemma room_via rc a op : room_simulates rc a →
  ∃ ch', chan_step expected_id (completions rc) op = Ret ((a_step expected_id a.1 op).1, ch') ∧
         room_simulates (on_completions ch' rc) ((a_step expected_id a.1 op).2, a.2).
Proof.
  intros [Hs Hr]. destruct (chan_step_sim expected_id _ _ op Hs) as (ch' & He & Hs'). exists ch'. split; [done|].
  split; [done|]. simpl. by rewrite (chan_step_capacity _ _ _ _ _ He).
Qed.

Lemma room_request_sim rc a request : room_simulates rc a →
  (tryPublishReturnRequest rc request).1 = (a_request a request).1 ∧
  room_simulates (tryPublishReturnRequest rc request).2 (a_request a request).2.
Proof.
  intros [Hs Hr]. unfold tryPublishReturnRequest, a_request. pose proof (sim_capacity _ _ Hs) as [Hc Hca].
  rewrite (proj1 (sim_cancelled _ _ Hs)), (ring_blocked_iff _ Hc _ _ Hr), Hca.
  split_if; [by split; [|split]|]. to_prop. split; [done|]. split; [done|].
  apply ring_emplace_repr; [done..|]. pose proof (rr_bound _ _ _ Hr). lia.
Qed.

Lemma room_pop_request_sim rc a : room_simulates rc a →
  ∃ rc', tryPopReturnRequest rc = Ret (head a.2, rc') ∧ room_simulates rc' (a.1, tail a.2).
Proof.
  intros [Hs Hr]. unfold tryPopReturnRequest. rewrite (rr_queued _ _ _ Hr).
  destruct a as [a rs]. cbn [fst snd] in *. destruct rs as [|r rs]; simpl; [by eexists|].
  destruct (ring_take_repr _ (proj1 (sim_capacity _ _ Hs)) _ _ _ Hr) as (ring & -> & Hr'). simpl. by eexists.
Qed.

Lemma room_chan_step_sim rc a op : room_simulates rc a →
  ∃ rc', room_chan_step rc op = Ret ((a_room_step a op).1, rc') ∧ room_simulates rc' (a_room_step a op).2.
Proof.
  intros Hs. pose proof Hs as [Hc Hr].
  assert (Hpend : (ring_queued (chan_slots (completions rc)) =? 0) = bool_decide (length (a_queue a.1) = 0%nat)).
  { rewrite (sim_count _ _ Hc). unfold zlen. case_bool_decide; [apply Z.eqb_eq|apply Z.eqb_neq]; lia. }
  assert (Hpend' : (ring_queued (return_requests rc) =? 0) = bool_decide (length a.2 = 0%nat)).
  { clear Hpend. rewrite (rr_queued _ _ _ Hr). unfold zlen. case_bool_decide; [apply Z.eqb_eq|apply Z.eqb_neq]; lia. }
  destruct op as [id|id|t c now|now|request| |t| | |].
  - destruct (room_via rc a (OReserve id) Hs) as (ch' & He & Hs'). simpl in *. unfold tryReserveEntry.
    destruct (tryReserve (completions rc) id), (a_reserve a.1 id). simpl in *. simplify_eq. eauto.
  - destruct (room_via rc a (OReserve id) Hs) as (ch' & He & Hs'). simpl in *. unfold tryReserveReturn.
    destruct (tryReserve (completions rc) id), (a_reserve a.1 id). simpl in *. simplify_eq. eauto.
  - destruct (room_via rc a (OPublish t c now) Hs) as (ch' & He & Hs'). simpl in *. unfold room_publish.
    destruct (publish expected_id (completions rc) t c now), (a_publish expected_id a.1 t c). simpl in *. simplify_eq. eauto.
  - destruct (room_via rc a (OPop now) Hs) as (ch' & He & Hs'). simpl in *. unfold room_tryPop.
    destruct (tryPop (completions rc) now) as [[c ch]|], (a_pop a.1); simpl in *; simplify_eq. eauto.
  - destruct (room_request_sim rc a request Hs) as [H1 H2]. simpl.
    destruct (tryPublishReturnRequest rc request), (a_request a request). simpl in *. subst. eauto.
  - destruct (room_pop_request_sim rc a Hs) as (rc' & He & Hs'). simpl. rewrite He. simpl. eauto.
  - destruct (room_via rc a (ORelease t) Hs) as (ch' & He & Hs'). simpl in *. simplify_eq. eauto.
  - simpl. eexists. split; [done|]. split; simpl; [by apply cancel_sim|].
    eapply ring_clear_repr; [apply (sim_capacity _ _ Hc)|exact Hr].
  - simpl. unfold room_wakeIfPending. rewrite Hpend, Hpend', <-negb_andb. eauto.
  - simpl. unfold room_drained. rewrite Hpend, Hpend', (sim_empty _ _ Hc). eauto.
Qed.

Lemma room_chan_run_sim ops rc a : room_simulates rc a →
  ∃ rc', room_chan_run rc ops = Ret ((a_room_run a ops).1, rc') ∧ room_simulates rc' (a_room_run a ops).2.
Proof.
  revert rc a. induction ops as [|op ops IH]; intros rc a Hs; simpl; [eauto|].
  destruct (room_chan_step_sim rc a op Hs) as (rc1 & -> & Hs1). destruct (a_room_step a op) as [r a1]. simpl in *.
  destruct (IH rc1 a1 Hs1) as (rc2 & -> & Hs2). destruct (a_room_run a1 ops) as [rs a2]. simpl in *. eauto.
Qed.

(** ** Theorems *)

(** The zone transition channel implements the abstract one: under every
    sequence of calls it returns the same tickets, flags and completions and
    never throws.  So completions come out in the order they went in, a live
    reservation always finds room for its completion, and a release of a queued
    ticket waits for the completion to be taken. *)
Theorem zone_channel_refines capacity fd ch :
  0 <= capacity → makeChannel capacity fd = Ret ch →
  ∀ ops, ∃ ch', chan_run completion_handoff_id ch ops = Ret ((a_run completion_handoff_id (a_init capacity) ops).1, ch') ∧
                simulates ch' (a_run completion_handoff_id (a_init capacity) ops).2.
Proof. intros Hc Hm ops. apply chan_run_sim. by eapply makeChannel_sim. Qed.

Definition sample_completion (id : Z) : ZoneHandoffCompletion :=
  mkHandoffCompletion id (mkConnectionId 1 1) 7 3 2 LeaveSource ZoneApplied None.

Definition sample_channel : ZoneTransitionChannel :=
  mkChannel 2 (makeRing 2) ∅ 1 (fun _ => 0) makeDistribution false.

Definition sample_ops : list (ChannelOp ZoneHandoffCompletion) :=
  [OReserve 5; OReserve 6; OReserve 7; OPublish 2 (sample_completion 6) 0; OPublish 1 (sample_completion 5) 1;
   OPublish 1 (sample_completion 5) 2; ORelease 2; OPop 3; OReserve 8; OPop 4; ODrained].

Lemma zone_channel_refines_witness :
  ∃ ch', chan_run completion_handoff_id sample_channel sample_ops =
    Ret ([RTicket (Some 1); RTicket (Some 2); RTicket None; RFlag true; RFlag true; RFlag false; RUnit;
          RCompletion (Some (sample_completion 6)); RTicket (Some 3); RCompletion (Some (sample_completion 5)); RFlag false], ch').
Proof.
  destruct (zone_channel_refines 2 4 sample_channel ltac:(lia) eq_refl sample_ops) as (ch' & He & _).
  exists ch'. rewrite He. vm_compute. reflexivity.
Defined.

(** The room transition channel implements its abstract one, completions
    and return requests, and never throws. *)
Theorem room_channel_refines capacity fd rc :
  0 <= capacity → makeRoomTransitionChannel capacity fd = Ret rc →
  ∀ ops, ∃ rc', room_chan_run rc ops = Ret ((a_room_run (a_init capacity, []) ops).1, rc') ∧
                room_simulates rc' (a_room_run (a_init capacity, []) ops).2.
Proof.
  intros Hc Hm ops. apply room_chan_run_sim. unfold makeRoomTransitionChannel in Hm.
  destruct (makeChannel capacity fd) as [ch|] eqn:E; simplify_eq/=.
  pose proof (makeChannel_sim capacity fd ch Hc E) as Hs. pose proof (sim_capacity _ _ Hs) as [Hp He]. simpl in He.
  split; [exact Hs|]. cbn [completions return_requests snd]. rewrite <-He in *. by apply makeRing_repr.
Qed.

Lemma room_channel_refines_witness :
  ∃ rc', room_chan_run (mkRoomChannel (mkChannel 1 (makeRing 1) ∅ 1 (fun _ => 0) makeDistribution false) (makeRing 1) (fun _ => 0))
           [RRequest (mkReturnRequest 3 7); RRequest (mkReturnRequest 3 8); RWake; RPopRequest; RPopRequest] =
    Ret ([RCompletionResult (RFlag true); RCompletionResult (RFlag false); RCompletionResult (RFlag true);
          RRequestResult (Some (mkReturnRequest 3 7)); RRequestResult None], rc').
Proof.
  destruct (room_channel_refines 1 4 _ ltac:(lia) eq_refl
    [RRequest (mkReturnRequest 3 7); RRequest (mkReturnRequest 3 8); RWake; RPopRequest; RPopRequest]) as (rc' & He & _).
  exists rc'. rewrite He. vm_compute. reflexivity.
Defined.
