(* ===== verification/Server.v ===== *)
(** * Commands, effects and the shared state of the network thread

    The gateway and the two transfer services run on the network thread and
    share the session directory, the route coordinator and the transition
    channels.  This file has the commands they post
    ([src/include/snf/server/routed_command.hpp] and the [*_inbound_command.hpp]
    headers), the router that hands them to the actors
    ([src/src/server/command_router.cpp]), the state they share, and the monad
    their methods are written in: a method changes the state, may throw, and
    leaves a list of effects (commands posted, replies sent, tokens released)
    in the order of the source.

    The actor runtime behind [_commands.tryPost] is a parameter [post]: it may
    accept or refuse a command, or throw, depending on the command and on
    everything that happened before. *)

From S2P Require Import Prelude Zone Player RoomTypes Connection SessionDirectory RouteCoordinator Distribution Ring TransitionChannel.

(** ** Commands *)

Inductive PostResult := Accepted | Full | Closed.

#[export] Instance PostResult_eq_dec : EqDecision PostResult.
Proof. solve_decision. Defined.

Inductive FramePostResult := FrameAccepted | UnsupportedMessage | InvalidPayload | FrameFull | FrameClosed.

#[export] Instance FramePostResult_eq_dec : EqDecision FramePostResult.
Proof. solve_decision. Defined.

Inductive ZoneReplyKind := Entered | Moved | Left.

Record ZoneReplyContext := mkZoneReply {
  zone_reply_connection : ConnectionId;
  zone_reply_request_id : Z;
  zone_reply_kind : ZoneReplyKind
}.

Record ZoneInboundCommand := mkZoneInbound {
  inbound_zone : ZoneId;
  inbound_zone_command : ZoneCommand;
  inbound_zone_reply : option ZoneReplyContext;
  inbound_handoff : option ZoneHandoffContext;
  inbound_room_entry : option RoomEntryContext
}.

Inductive RoomReplyKind := Joined | BattleStarted | SkillAcknowledged | MoveAcknowledged.

#[export] Instance RoomReplyKind_eq_dec : EqDecision RoomReplyKind.
Proof. solve_decision. Defined.

Record RoomReplyContext := mkRoomReply {
  room_reply_connection : ConnectionId;
  room_reply_request_id : Z;
  room_reply_kind : RoomReplyKind
}.

Record RoomInboundCommand := mkRoomInbound {
  inbound_room : RoomId;
  inbound_room_command : RoomCommand;
  inbound_room_reply : option RoomReplyContext;
  inbound_entry : option RoomEntryContext
}.

(** [PlayerActorId]: a provisional actor of a connection or a player's own. *)
Inductive PlayerActorId := ProvisionalActor (value : Z) | PlayerActor (player : PlayerId).

Definition provisionalActorIdFor (c : ConnectionId) : PlayerActorId := ProvisionalActor (generation c).

Record PlayerInboundCommand := mkPlayerInbound {
  inbound_actor : PlayerActorId;
  inbound_connection : ConnectionId;
  inbound_command : PlayerCommand;
  inbound_request_id : Z;
  inbound_player_entry : option RoomEntryContext
}.

Inductive ConnectionCloseCause := PeerClosed | ProtocolError | Overflow | ServerShutdown.

Record ConnectionClosed := mkConnectionClosed {
  closed_connection : ConnectionId;
  close_cause : ConnectionCloseCause;
  has_location_snapshot : bool;
  closed_last_location : option PlayerLocation
}.

Inductive CommandRoute :=
| PlayerCommandRoute (actor : PlayerActorId) (command : PlayerCommand) (request_id : Z) (room_entry : option RoomEntryContext)
| ConnectionClosedRoute (actor : PlayerActorId) (cause : ConnectionCloseCause) (has_snapshot : bool)
    (last_location : option PlayerLocation)
| ZoneCommandRoute (zone : ZoneId) (command : ZoneCommand) (reply_kind : option ZoneReplyKind) (request_id : Z)
| ZoneHandoffCommandRoute (command : ZoneInboundCommand)
| RoomCommandRoute (room : RoomId) (command : RoomCommand) (reply_kind : option RoomReplyKind) (request_id : Z).

Record RoutedCommand := mkRouted { routed_connection : ConnectionId; routed_route : CommandRoute }.

(** ** The command router

    What the three actor ingresses receive, or [None] where the router answers
    [Closed] itself.  [has_zones] and [has_rooms] tell whether the router was
    given those ingresses. *)

Inductive ActorCommand :=
| ToPlayer (command : PlayerInboundCommand)
| ToPlayerClosed (actor : PlayerActorId) (closed : ConnectionClosed)
| ToZone (command : ZoneInboundCommand)
| ToRoom (command : RoomInboundCommand).

Definition route_command (has_zones has_rooms : bool) (c : RoutedCommand) : option ActorCommand :=
  let connection := routed_connection c in
  match routed_route c with
  | PlayerCommandRoute actor command request_id entry =>
      Some (ToPlayer (mkPlayerInbound actor connection command request_id entry))
  | ConnectionClosedRoute actor cause known last => Some (ToPlayerClosed actor (mkConnectionClosed connection cause known last))
  | ZoneCommandRoute zone command kind request_id =>
      if negb has_zones then None
      else Some (ToZone (mkZoneInbound zone command (mkZoneReply connection request_id <$> kind) None None))
  | RoomCommandRoute room command kind request_id =>
      if negb has_rooms then None
      else Some (ToRoom (mkRoomInbound room command (mkRoomReply connection request_id <$> kind) None))
  | ZoneHandoffCommandRoute command =>
      if negb has_zones || (negb (has_value (inbound_handoff command)) && negb (has_value (inbound_room_entry command))) ||
         has_value (inbound_zone_reply command)
      then None else Some (ToZone command)
  end.

(** ** Effects *)

Inductive Effect :=
| Post (command : RoutedCommand) (result : PostResult)
| ReplyZone (connection : ConnectionId) (player : PlayerId) (zone : ZoneId) (route_epoch : Z) (position : ZonePosition)
    (request_id : Z) (kind : ZoneReplyKind) (status : ZoneCommandStatus)
| ReplyJoined (connection : ConnectionId) (request_id : Z) (room : RoomId) (status : RoomCommandStatus)
| ReplyReturned (connection : ConnectionId) (zone : ZoneId) (position : ZonePosition)
| AdmissionFailure (connection : ConnectionId)
| CommandReleased (connection : ConnectionId)
| WakeUp
| IngressClosed
| IngressCancelled.

(** ** State *)

(** An [ActiveHandoff] owns a [CommandReleaseToken]: erasing it releases the
    command of its connection. *)
Record ActiveHandoff := mkActive { active_ticket : Z; active_disconnecting : bool; active_started_at : time_point }.

Inductive HandoffCounter :=
| FailuresBeforeSourceLeave | TargetFailures | Compensated | FatalHandoffs | TransitionBusyReplies | StaleCompletions
| DisconnectCleanups | ShutdownCancels.

#[export] Instance HandoffCounter_eq_dec : EqDecision HandoffCounter.
Proof. solve_decision. Defined.

Record ZoneHandoffService := mkHandoffService {
  handoff_turn : Z;
  active : gmap ConnectionId ActiveHandoff;
  transition_nanoseconds : Distribution;
  handoff_counters : HandoffCounter → Z;
  handoff_admission_closed : bool
}.

Record ActiveEntry := mkActiveEntry {
  ae_connection : ConnectionId;
  ae_ticket : Z;
  ae_entry_id : RoomEntryId;
  ae_player : PlayerId;
  ae_room : RoomId;
  ae_source_zone : ZoneId;
  ae_source_epoch : Z;
  ae_request_id : Z;
  ae_disconnecting : bool;
  ae_started_at : time_point
}.

Record ActiveReturn := mkActiveReturn {
  ar_connection : ConnectionId;
  ar_ticket : Z;
  ar_return_id : RoomReturnId;
  ar_player : PlayerId;
  ar_room : RoomId;
  ar_return_zone : ZoneId;
  ar_return_epoch : Z;
  ar_return_position : ZonePosition;
  ar_disconnecting : bool;
  ar_started_at : time_point
}.

Inductive EntryCounter :=
| EntryFailuresBeforeLeave | SourceLeaveFailures | ReturnFailures | EntriesCompensated | EntryBusyReplies | EntryStaleCompletions
| EntryDisconnectCleanups | EntryShutdownCancels.

#[export] Instance EntryCounter_eq_dec : EqDecision EntryCounter.
Proof. solve_decision. Defined.

Record RoomEntryService := mkEntryService {
  entry_turn : Z;
  active_entries : gmap ConnectionId ActiveEntry;
  active_returns : gmap ConnectionId ActiveReturn;
  entry_nanoseconds : Distribution;
  entry_counters : EntryCounter → Z;
  entry_admission_closed : bool
}.

Record Server := mkServer {
  sessions : PlayerSessionDirectory;
  coordinator : RouteCoordinator;
  zone_transitions : ZoneTransitionChannel;
  room_transitions : RoomTransitionChannel;
  handoff_service : ZoneHandoffService;
  entry_service : RoomEntryService
}.

Definition set_sessions (x : PlayerSessionDirectory) (s : Server) : Server :=
  mkServer x (coordinator s) (zone_transitions s) (room_transitions s) (handoff_service s) (entry_service s).
Definition set_coordinator (x : RouteCoordinator) (s : Server) : Server :=
  mkServer (sessions s) x (zone_transitions s) (room_transitions s) (handoff_service s) (entry_service s).
Definition set_zone_transitions (x : ZoneTransitionChannel) (s : Server) : Server :=
  mkServer (sessions s) (coordinator s) x (room_transitions s) (handoff_service s) (entry_service s).
Definition set_room_transitions (x : RoomTransitionChannel) (s : Server) : Server :=
  mkServer (sessions s) (coordinator s) (zone_transitions s) x (handoff_service s) (entry_service s).
Definition set_handoff_service (x : ZoneHandoffService) (s : Server) : Server :=
  mkServer (sessions s) (coordinator s) (zone_transitions s) (room_transitions s) x (entry_service s).
Definition set_entry_service (x : RoomEntryService) (s : Server) : Server :=
  mkServer (sessions s) (coordinator s) (zone_transitions s) (room_transitions s) (handoff_service s) x.

(** ** The monad *)

Definition M (A : Type) : Type := Server → outcome A * list Effect * Server.

#[export] Instance M_ret : MRet M := fun A a s => (Ret a, [], s).

#[export] Instance M_bind : MBind M := fun A B f m s =>
  match m s with
  | (Ret a, es, s1) => let '(r, es', s2) := f a s1 in (r, es ++ es', s2)
  | (Throw e, es, s1) => (Throw e, es, s1)
  end.

Definition throw {A} (e : exn) : M A := fun s => (Throw e, [], s).
Definition gets {A} (f : Server → A) : M A := fun s => (Ret (f s), [], s).
Definition emit (e : Effect) : M unit := fun s => (Ret tt, [e], s).
Definition when (b : bool) (m : M unit) : M unit := if b then m else mret tt.

(** [try { m } catch (...) { h; throw; }]. *)
Definition rethrowing {A} (m : M A) (h : M unit) : M A := fun s =>
  match m s with
  | (Ret a, es, s1) => (Ret a, es, s1)
  | (Throw e, es, s1) =>
      match h s1 with (Ret _, es', s2) => (Throw e, es ++ es', s2) | (Throw e', es', s2) => (Throw e', es ++ es', s2) end
  end.

(** A method of a shared object as an action: the ones that return a value, the
    ones that only change the object, the ones that may throw. *)
Definition on_routes {A} (f : RouteCoordinator → A * RouteCoordinator) : M A := fun s =>
  let '(a, x) := f (coordinator s) in (Ret a, [], set_coordinator x s).
Definition on_routes_throwing {A} (f : RouteCoordinator → outcome (A * RouteCoordinator)) : M A := fun s =>
  match f (coordinator s) with Ret (a, x) => (Ret a, [], set_coordinator x s) | Throw e => (Throw e, [], s) end.
Definition on_sessions {A} (f : PlayerSessionDirectory → A * PlayerSessionDirectory) : M A := fun s =>
  let '(a, x) := f (sessions s) in (Ret a, [], set_sessions x s).
Definition on_zone_transitions {A} (f : ZoneTransitionChannel → A * ZoneTransitionChannel) : M A := fun s =>
  let '(a, x) := f (zone_transitions s) in (Ret a, [], set_zone_transitions x s).
Definition on_zone_transitions_throwing {A} (f : ZoneTransitionChannel → outcome (A * ZoneTransitionChannel)) : M A := fun s =>
  match f (zone_transitions s) with Ret (a, x) => (Ret a, [], set_zone_transitions x s) | Throw e => (Throw e, [], s) end.
Definition on_room_transitions {A} (f : RoomTransitionChannel → A * RoomTransitionChannel) : M A := fun s =>
  let '(a, x) := f (room_transitions s) in (Ret a, [], set_room_transitions x s).
Definition on_room_transitions_throwing {A} (f : RoomTransitionChannel → outcome (A * RoomTransitionChannel)) : M A := fun s =>
  match f (room_transitions s) with Ret (a, x) => (Ret a, [], set_room_transitions x s) | Throw e => (Throw e, [], s) end.
Definition modify (f : Server → Server) : M unit := fun s => (Ret tt, [], f s).

Definition noteLocation_ (c : ConnectionId) (l : option PlayerLocation) : M unit :=
  on_sessions (fun d => (tt, noteLocation d c l)).

(** [_commands.tryPost]. *)
Definition tryPost_ (post : Server → RoutedCommand → outcome PostResult) (command : RoutedCommand) : M PostResult := fun s =>
  match post s command with
  | Ret r => (Ret r, [Post command r], s)
  | Throw e => (Throw e, [], s)
  end.
