(* ===== verification/Handoff.v ===== *)
(** * Zone handoff service

    [ZoneHandoffService] of [src/src/server/zone_handoff_service.cpp]: moving a
    connected player from one zone to another.  The player leaves the source,
    enters the target, and is put back into the source when the target refuses;
    a connection that closes on the way is cleaned up where the player is.
    Every stage is a command to a zone actor, which answers through the
    transition channel.

    The methods are actions of the monad of [Server]; [now] is the clock at the
    call.  [unordered_map] iterates in no particular order: [cancel] takes that
    of the finite map. *)

From S2P Require Import Prelude Zone Player Connection SessionDirectory RouteCoordinator Distribution Ring TransitionChannel Server.

Section service.
Context (post : Server → RoutedCommand → outcome PostResult) (now : time_point).

Definition set_active (m : gmap ConnectionId ActiveHandoff) : M unit := modify (fun s =>
  let h := handoff_service s in
  set_handoff_service (mkHandoffService (handoff_turn h) m (transition_nanoseconds h) (handoff_counters h)
                         (handoff_admission_closed h)) s).

Definition count_handoff (c : HandoffCounter) (n : Z) : M unit := modify (fun s =>
  let h := handoff_service s in
  set_handoff_service
    (mkHandoffService (handoff_turn h) (active h) (transition_nanoseconds h)
       (fun c' => if decide (c = c') then u64 (handoff_counters h c + n) else handoff_counters h c')
       (handoff_admission_closed h)) s).

Definition record_transition (started_at : time_point) : M unit := modify (fun s =>
  let h := handoff_service s in
  set_handoff_service
    (mkHandoffService (handoff_turn h) (active h) (dist_recordNanoseconds (transition_nanoseconds h) (now - started_at))
       (handoff_counters h) (handoff_admission_closed h)) s).

(** [_active.find(connection)]. *)
Definition find_active (c : ConnectionId) : M (option ActiveHandoff) := gets (fun s => active (handoff_service s) !! c).

(** [_active.erase(active)]; the token of the entry is released. *)
Definition erase_active (c : ConnectionId) : M unit :=
  m ← gets (fun s => active (handoff_service s));
  _ ← set_active (delete c m);
  emit (CommandReleased c).

Definition makeZoneHandoffService (channel : ZoneTransitionChannel) (max_completions_per_turn : Z) : outcome ZoneHandoffService :=
  throw_if ((max_completions_per_turn =? 0) || (chan_capacity channel <? max_completions_per_turn)) InvalidArgument
    (Ret (mkHandoffService max_completions_per_turn ∅ makeDistribution (fun _ => 0) false)).

Definition tryReplyTransitionInProgress (c : ConnectionId) (request_id : Z) (kind : ZoneReplyKind) : M bool :=
  found ← gets (fun s => handoffFor (coordinator s) c);
  match found with
  | None => mret false
  | Some h =>
      _ ← emit (ReplyZone c (route_player (handoff_source h)) (target_zone h) (target_epoch h) (requested_target_position h)
                  request_id kind TransitionInProgress);
      _ ← count_handoff TransitionBusyReplies 1;
      _ ← emit (CommandReleased c);
      mret true
  end.

Definition noteDisconnect (c : ConnectionId) : M bool :=
  found ← find_active c;
  match found with
  | None => mret false
  | Some a =>
      m ← gets (fun s => active (handoff_service s));
      _ ← set_active (<[c := mkActive (active_ticket a) true (active_started_at a)]> m);
      mret true
  end.

Definition handoff_close : M unit := modify (fun s =>
  let h := handoff_service s in
  set_handoff_service (mkHandoffService (handoff_turn h) (active h) (transition_nanoseconds h) (handoff_counters h) true) s).

Definition abandon_ (c : ConnectionId) : M unit := on_routes (fun rc => (tt, RouteCoordinator.abandon rc c)).
Definition release_ (ticket : Z) : M unit := on_zone_transitions (fun ch => (tt, release ch ticket)).

Definition mapM_ {A} (f : A → M unit) : list A → M unit :=
  fix go l := match l with [] => mret tt | a :: rest => _ ← f a; go rest end.

Definition handoff_cancel : M unit :=
  _ ← handoff_close;
  _ ← on_zone_transitions (fun ch => (tt, cancel ch));
  m ← gets (fun s => active (handoff_service s));
  _ ← count_handoff ShutdownCancels (Z.of_nat (size m));
  _ ← mapM_ (fun '(c, _) => _ ← noteLocation_ c None; abandon_ c) (map_to_list m);
  _ ← set_active ∅;
  mapM_ (fun '(c, _) => emit (CommandReleased c)) (map_to_list m).

(** The zone, epoch and command of a stage; [None] where the source answers
    [Closed]. *)
Definition stage_command (h : ZoneHandoff) (step : ZoneHandoffStep) : option (ZoneId * Z * ZoneCommand) :=
  let source := handoff_source h in
  let player := route_player source in
  match step with
  | LeaveSource => Some (route_zone source, route_epoch source, LeaveZoneCommand player (route_epoch source))
  | EnterTarget => Some (target_zone h, target_epoch h, EnterZoneCommand player (target_epoch h) (requested_target_position h))
  | RestoreSource =>
      if restore_epoch h =? 0 then None
      else Some (route_zone source, restore_epoch h, EnterZoneCommand player (restore_epoch h) (last_source_position h))
  | CleanupTarget => Some (target_zone h, target_epoch h, LeaveZoneCommand player (target_epoch h))
  | CleanupSource =>
      if restore_epoch h =? 0 then None
      else Some (route_zone source, restore_epoch h, LeaveZoneCommand player (restore_epoch h))
  end.

(** The routed command of a stage under a ticket. *)
Definition stage_inbound (h : ZoneHandoff) (step : ZoneHandoffStep) (ticket zone epoch : Z) (command : ZoneCommand) : ZoneInboundCommand :=
  let source := handoff_source h in
  mkZoneInbound zone command None
    (Some (mkHandoffContext (handoff_id h) ticket (route_connection source) (route_player source) step epoch)) None.

Definition postStage (h : ZoneHandoff) (step : ZoneHandoffStep) : M PostResult :=
  found ← find_active (route_connection (handoff_source h));
  match found, stage_command h step with
  | Some a, Some (zone, epoch, command) =>
      tryPost_ post (mkRouted (route_connection (handoff_source h))
                       (ZoneHandoffCommandRoute (stage_inbound h step (active_ticket a) zone epoch command)))
  | _, _ => mret Closed
  end.

Definition failHandoffBeforeSourceLeave (c : ConnectionId) (id : ZoneHandoffId) (status : ZoneCommandStatus) : M unit :=
  found ← gets (fun s => handoffFor (coordinator s) c);
  entry ← find_active c;
  match found, entry with
  | Some h, Some a =>
      if negb (handoff_id h =? id) then throw LogicError
      else
        rolled_back ← on_routes (fun rc => rollbackHandoffBeforeLeave rc c id);
        if negb rolled_back then throw LogicError
        else
          let source := handoff_source h in
          _ ← release_ (active_ticket a);
          _ ← emit (ReplyZone c (route_player source) (route_zone source) (route_epoch source) (last_source_position h)
                      (handoff_request_id h) Entered status);
          _ ← record_transition (active_started_at a);
          _ ← count_handoff FailuresBeforeSourceLeave 1;
          erase_active c
  | _, _ => throw LogicError
  end.

(** In the handler of [catch (...)], [inserted_active] holds exactly when the
    entry found has the new ticket, as tickets are never reused. *)
Definition tryStart (c : ConnectionId) (request_id : Z) (player : PlayerId) (target : ZoneId) (requested : ZonePosition)
    (source : SessionRoute) : M FramePostResult :=
  closed ← gets (fun s => handoff_admission_closed (handoff_service s));
  if closed : bool then mret InvalidPayload
  else
    location ← gets (fun s => locationFor (sessions s) c);
    match location with
    | None => mret InvalidPayload
    | Some l =>
        if negb (loc_zone l =? route_zone source) then mret InvalidPayload
        else
          let refused :=
            _ ← emit (ReplyZone c player (route_zone source) (route_epoch source) (loc_position l) request_id Entered TransferFailed);
            _ ← count_handoff FailuresBeforeSourceLeave 1;
            _ ← emit (CommandReleased c);
            mret FrameAccepted in
          begun ← on_routes_throwing (fun rc => tryBeginHandoff rc c player target (loc_position l) requested request_id);
          match begun with
          | None => refused
          | Some h =>
              reserved ← on_zone_transitions (fun ch => tryReserve ch (handoff_id h));
              match reserved with
              | None =>
                  _ ← on_routes (fun rc => rollbackHandoffBeforeLeave rc c (handoff_id h));
                  refused
              | Some ticket =>
                  _ ← rethrowing
                    (m ← gets (fun s => active (handoff_service s));
                     if has_value (m !! c) then (_ ← emit (CommandReleased c); throw LogicError)
                     else
                       _ ← set_active (<[c := mkActive ticket false now]> m);
                       result ← postStage h LeaveSource;
                       when (negb (bool_decide (result = Accepted))) (failHandoffBeforeSourceLeave c (handoff_id h) TransferFailed))
                    (found ← find_active c;
                     _ ← release_ ticket;
                     _ ← when (bool_decide (active_ticket <$> found = Some ticket)) (erase_active c);
                     _ ← on_routes (fun rc => rollbackHandoffBeforeLeave rc c (handoff_id h));
                     mret tt);
                  mret FrameAccepted
              end
          end
    end.

Definition finishActiveHandoff (c : ConnectionId) : M unit :=
  found ← find_active c;
  match found with
  | None => mret tt
  | Some a =>
      _ ← release_ (active_ticket a);
      _ ← record_transition (active_started_at a);
      erase_active c
  end.

Definition finishDisconnectedHandoff (h : ZoneHandoff) : M unit :=
  let c := route_connection (handoff_source h) in
  found ← find_active c;
  match found with
  | None => mret tt
  | Some _ =>
      _ ← noteLocation_ c None;
      _ ← abandon_ c;
      _ ← count_handoff DisconnectCleanups 1;
      finishActiveHandoff c
  end.

Definition finishFatalHandoff (h : ZoneHandoff) : M unit :=
  let c := route_connection (handoff_source h) in
  found ← find_active c;
  match found with
  | None => mret tt
  | Some a =>
      _ ← noteLocation_ c None;
      _ ← abandon_ c;
      _ ← when (negb (active_disconnecting a)) (emit (AdmissionFailure c));
      _ ← count_handoff FatalHandoffs 1;
      finishActiveHandoff c
  end.

Definition beginSourceRestore_ (h : ZoneHandoff) : M unit :=
  let c := route_connection (handoff_source h) in
  _ ← count_handoff TargetFailures 1;
  epoch ← on_routes_throwing (fun rc => RouteCoordinator.beginSourceRestore rc c (handoff_id h));
  match epoch with
  | None => finishFatalHandoff h
  | Some _ =>
      restore ← gets (fun s => handoffFor (coordinator s) c);
      match restore with
      | None => finishFatalHandoff h
      | Some h' =>
          result ← postStage h' RestoreSource;
          when (negb (bool_decide (result = Accepted))) (finishFatalHandoff h')
      end
  end.

Definition beginDisconnectCleanup (h : ZoneHandoff) (cleanup_step : ZoneHandoffStep) : M unit :=
  let c := route_connection (handoff_source h) in
  begun ← on_routes (fun rc => beginCleanup rc c (handoff_id h) cleanup_step);
  if negb begun then finishFatalHandoff h
  else
    cleanup ← gets (fun s => handoffFor (coordinator s) c);
    match cleanup with
    | None => finishFatalHandoff h
    | Some h' =>
        result ← postStage h' cleanup_step;
        when (negb (bool_decide (result = Accepted))) (finishFatalHandoff h')
    end.

Definition finishSourceRestore (h : ZoneHandoff) (position : ZonePosition) : M unit :=
  let c := route_connection (handoff_source h) in
  found ← find_active c;
  match found with
  | None => mret tt
  | Some a =>
      if active_disconnecting a then beginDisconnectCleanup h CleanupSource
      else
        restored ← on_routes (fun rc => completeSourceRestore rc c (handoff_id h));
        match restored with
        | None => finishFatalHandoff h
        | Some route =>
            _ ← noteLocation_ c (Some (mkPlayerLocation (route_zone route) position));
            _ ← emit (ReplyZone c (route_player route) (route_zone route) (route_epoch route) position (handoff_request_id h)
                        Entered TransferFailed);
            _ ← count_handoff Compensated 1;
            finishActiveHandoff c
        end
  end.

Definition isValidCompletion (h : ZoneHandoff) (completion : ZoneHandoffCompletion) : bool :=
  let source := handoff_source h in
  bool_decide (completion_handoff_id completion = handoff_id h) &&
  bool_decide (completion_connection completion = route_connection source) &&
  bool_decide (completion_player completion = route_player source) &&
  bool_decide (completion_step completion = handoff_step h) &&
  match completion_step completion with
  | LeaveSource => (completion_zone completion =? route_zone source) && (completion_route_epoch completion =? route_epoch source)
  | EnterTarget => (completion_zone completion =? target_zone h) && (completion_route_epoch completion =? target_epoch h)
  | RestoreSource | CleanupSource =>
      (completion_zone completion =? route_zone source) && negb (restore_epoch h =? 0) &&
      (completion_route_epoch completion =? restore_epoch h)
  | CleanupTarget => (completion_zone completion =? target_zone h) && (completion_route_epoch completion =? target_epoch h)
  end.

Definition entered (status : ZoneCommandStatus) : bool :=
  bool_decide (status = ZoneApplied) || bool_decide (status = AlreadyPresent).

Definition handleLeaveSource (h : ZoneHandoff) (a : ActiveHandoff) (completion : ZoneHandoffCompletion) : M unit :=
  let c := completion_connection completion in
  match completion_position completion with
  | Some position =>
      if negb (bool_decide (completion_status completion = ZoneApplied)) then finishFatalHandoff h
      else
        left ← on_routes (fun rc => noteSourceLeft rc c (completion_handoff_id completion) position);
        if negb left then finishFatalHandoff h
        else
          next ← gets (fun s => handoffFor (coordinator s) c);
          match next with
          | None => finishFatalHandoff h
          | Some h' =>
              if active_disconnecting a then finishDisconnectedHandoff h'
              else
                result ← postStage h' EnterTarget;
                when (negb (bool_decide (result = Accepted))) (beginSourceRestore_ h')
          end
  | None => finishFatalHandoff h
  end.

Definition handleEnterTarget (h : ZoneHandoff) (a : ActiveHandoff) (completion : ZoneHandoffCompletion) : M unit :=
  let c := completion_connection completion in
  match completion_position completion, entered (completion_status completion) with
  | Some position, true =>
      if active_disconnecting a then beginDisconnectCleanup h CleanupTarget
      else
        route ← on_routes (fun rc => completeTargetEnter rc c (completion_handoff_id completion));
        match route with
        | None => finishFatalHandoff h
        | Some route =>
            _ ← noteLocation_ c (Some (mkPlayerLocation (route_zone route) position));
            _ ← emit (ReplyZone c (route_player route) (route_zone route) (route_epoch route) position (handoff_request_id h)
                        Entered (completion_status completion));
            finishActiveHandoff c
        end
  | _, _ =>
      if active_disconnecting a then (_ ← count_handoff TargetFailures 1; finishDisconnectedHandoff h)
      else beginSourceRestore_ h
  end.

Definition handleCompletion (completion : ZoneHandoffCompletion) : M unit :=
  found ← gets (fun s => handoffFor (coordinator s) (completion_connection completion));
  entry ← find_active (completion_connection completion);
  match found, entry with
  | Some h, Some a =>
      if negb (isValidCompletion h completion) then count_handoff StaleCompletions 1
      else
        match completion_step completion with
        | LeaveSource => handleLeaveSource h a completion
        | EnterTarget => handleEnterTarget h a completion
        | RestoreSource =>
            match completion_position completion, entered (completion_status completion) with
            | Some position, true => finishSourceRestore h position
            | _, _ => finishFatalHandoff h
            end
        | CleanupTarget | CleanupSource =>
            if negb (bool_decide (completion_status completion = ZoneApplied)) &&
               negb (bool_decide (completion_status completion = PlayerMissing))
            then finishFatalHandoff h else finishDisconnectedHandoff h
        end
  | _, _ => count_handoff StaleCompletions 1
  end.

(** The loop of [drain], [n] rounds left. *)
Fixpoint drain_loop (n : nat) : M unit :=
  match n with
  | O => mret tt
  | S n =>
      popped ← on_zone_transitions_throwing (fun ch => tryPop ch now);
      match popped with
      | None => mret tt
      | Some completion => _ ← handleCompletion completion; drain_loop n
      end
  end.

Definition drain : M unit :=
  turn ← gets (fun s => handoff_turn (handoff_service s));
  _ ← drain_loop (Z.to_nat turn);
  pending ← gets (fun s => wakeIfPending (zone_transitions s));
  when pending (emit WakeUp).

Definition handoffs_drained (s : Server) : bool :=
  bool_decide (active (handoff_service s) = ∅) && drained (zone_transitions s).
End service.

(** What the zone actor's [on_result] callback publishes for a stage
    ([src/src/server/game_server.cpp]). *)
Definition stage_completion (command : ZoneInboundCommand) (context : ZoneHandoffContext) (result : ZoneResult) : ZoneHandoffCompletion :=
  mkHandoffCompletion (context_handoff_id context) (context_connection context) (context_player context) (inbound_zone command)
    (context_route_epoch context) (context_step context) (zr_status result) (zr_position result).
