(* ===== verification/HandoffCalls.v ===== *)
(** * Zone handoffs: the calls of the service

    What every method of [ZoneHandoffService] does to the handoff it works on:
    it ends the handoff and releases its ticket, or it moves the handoff to a
    later stage and posts the command of that stage. *)

From S2P Require Import Prelude Zone Player Connection SessionDirectory RouteCoordinator RouteSpec Distribution Ring TransitionChannel TransitionSpec Server Handoff.

(** ** Stages *)

(** The command of the current stage of a handoff, under the ticket [t]. *)
Definition stage_of (h : ZoneHandoff) (t : Z) (cmd : ZoneInboundCommand) : Prop :=
  ∃ zone epoch command, stage_command h (handoff_step h) = Some (zone, epoch, command) ∧
    cmd = stage_inbound h (handoff_step h) t zone epoch command.

(** How far a handoff is from its end. *)
Definition rank (step : ZoneHandoffStep) : nat :=
  match step with LeaveSource => 3 | EnterTarget => 2 | RestoreSource => 1 | CleanupTarget | CleanupSource => 0 end.

(** The stages a list of effects gave to the actors. *)
Definition posted (es : list Effect) : list ZoneInboundCommand :=
  omap (fun e => match e with
                 | Post (mkRouted _ (ZoneHandoffCommandRoute cmd)) Accepted => Some cmd
                 | _ => None
                 end) es.

Lemma posted_app es es' : posted (es ++ es') = posted es ++ posted es'.
Proof. apply omap_app. Qed.

Definition stale (s : Server) : Z := handoff_counters (handoff_service s) StaleCompletions.

(** What the steps of a handoff leave alone. *)
Record frame (s s' : Server) : Prop := {
  fr_turn : handoff_turn (handoff_service s') = handoff_turn (handoff_service s);
  fr_closed : handoff_admission_closed (handoff_service s') = handoff_admission_closed (handoff_service s);
  fr_stale : stale s' = stale s
}.

(** The handoff of [c] is over, and its ticket released. *)
Record ended (c : ConnectionId) (t : Z) (s s' : Server) : Prop := {
  en_active : active (handoff_service s') = delete c (active (handoff_service s));
  en_channel : zone_transitions s' = release (zone_transitions s) t;
  en_handoffs : handoffs (coordinator s') = delete c (handoffs (coordinator s));
  en_ok : coordinator_ok (coordinator s');
  en_frame : frame s s'
}.

(** The handoff of [c] is in the later state [h']. *)
Record advanced (c : ConnectionId) (h h' : ZoneHandoff) (s s' : Server) : Prop := {
  ad_active : active (handoff_service s') = active (handoff_service s);
  ad_channel : zone_transitions s' = zone_transitions s;
  ad_handoffs : handoffs (coordinator s') = <[c := h']> (handoffs (coordinator s));
  ad_ok : coordinator_ok (coordinator s');
  ad_rank : (rank (handoff_step h') < rank (handoff_step h))%nat;
  ad_id : handoff_id h' = handoff_id h;
  ad_frame : frame s s'
}.

(** A call that works on the handoff [h] of [c] ends it, or posts its next
    stage; it fails only when the player's epochs are used up. *)
Definition handled (c : ConnectionId) (t : Z) (h : ZoneHandoff) (s : Server) (r : outcome unit * list Effect * Server) : Prop :=
  match r with
  | (Ret _, es, s') =>
      (ended c t s s' ∧ posted es = []) ∨
      (∃ h' cmd, advanced c h h' s s' ∧ posted es = [cmd] ∧ stage_of h' t cmd)
  | (Throw e, _, _) => e = OverflowError
  end.

Section service.
Context (accept : Server → RoutedCommand → PostResult) (now : time_point).
Abbreviation post := (fun s c => Ret (accept s c)).

Lemma frame_refl s : frame s s.
Proof. done. Qed.

Lemma frame_trans s s1 s2 : frame s s1 → frame s1 s2 → frame s s2.
Proof. intros [] []. constructor; congruence. Qed.

(** Ending after advancing is ending. *)
Lemma handled_after c t h h1 s s1 r es1 :
  advanced c h h1 s s1 → posted es1 = [] → handled c t h1 s1 r →
  handled c t h s (let '(o, es, s') := r in (o, es1 ++ es, s')).
Proof.
  intros Ha He. destruct r as [[[u|e] es] s']; simpl; [|done].
  intros [[Hen Hp]|(h' & cmd & Had & Hp & Hst)].
  - left. rewrite posted_app, He. split; [|done]. destruct Ha, Hen. constructor.
    + congruence.
    + congruence.
    + rewrite en_handoffs0, ad_handoffs0. apply delete_insert_eq.
    + done.
    + by eapply frame_trans.
  - right. exists h', cmd. rewrite posted_app, He. split_and!; [|done|done]. destruct Ha, Had. constructor; try congruence; try lia.
    + rewrite ad_handoffs1, ad_handoffs0. apply insert_insert_eq.
    + by eapply frame_trans.
Qed.

Lemma finishActive_run s c a :
  active (handoff_service s) !! c = Some a →
  ∃ es s', finishActiveHandoff now c s = (Ret tt, es, s') ∧ posted es = [] ∧
    active (handoff_service s') = delete c (active (handoff_service s)) ∧
    zone_transitions s' = release (zone_transitions s) (active_ticket a) ∧
    coordinator s' = coordinator s ∧ frame s s'.
Proof.
  intros Ha. unfold finishActiveHandoff, find_active, mbind, M_bind, gets. rewrite Ha. simpl.
  do 2 eexists. split; [reflexivity|]. simpl. split_and!; try done.
Qed.

Lemma abandon_handoffs rc c : handoffs (RouteCoordinator.abandon rc c) = delete c (handoffs rc).
Proof. unfold RouteCoordinator.abandon, bump_if. by repeat case_match. Qed.

(** The last call of a handoff's end, after the connection's routes were
    abandoned. *)
Lemma abandon_ended s s1 c a :
  active (handoff_service s) !! c = Some a → coordinator_ok (coordinator s) →
  active (handoff_service s1) = active (handoff_service s) → zone_transitions s1 = zone_transitions s →
  coordinator s1 = RouteCoordinator.abandon (coordinator s) c → frame s s1 →
  ∃ es s', finishActiveHandoff now c s1 = (Ret tt, es, s') ∧ ended c (active_ticket a) s s' ∧ posted es = [].
Proof.
  intros Ha Hok E1 E2 E3 Hf.
  destruct (finishActive_run s1 c a) as (es & s' & -> & Hp' & F1 & F2 & F3 & F4); [congruence|].
  do 2 eexists. split; [reflexivity|]. split; [|done]. constructor.
  - congruence.
  - congruence.
  - by rewrite F3, E3, abandon_handoffs.
  - rewrite F3, E3. by apply abandon_ok.
  - by eapply frame_trans.
Qed.

(** Run the actions up to the final [finishActiveHandoff]. *)
Ltac finish_with s c a Ha Hok :=
  match goal with |- context [finishActiveHandoff now c ?s1] =>
    destruct (abandon_ended s s1 c a Ha Hok) as (es & s' & -> & Hen & Hp); [done..|]
  end; do 2 eexists; split; [reflexivity|]; done.

Lemma finishFatal_run s c a h :
  active (handoff_service s) !! c = Some a → coordinator_ok (coordinator s) → route_connection (handoff_source h) = c →
  ∃ es s', finishFatalHandoff now h s = (Ret tt, es, s') ∧ ended c (active_ticket a) s s' ∧ posted es = [].
Proof.
  intros Ha Hok Hc. unfold finishFatalHandoff. rewrite Hc. unfold find_active, mbind, M_bind, gets at 1. rewrite Ha.
  destruct (active_disconnecting a); simpl; finish_with s c a Ha Hok.
Qed.

Lemma finishDisconnected_run s c a h :
  active (handoff_service s) !! c = Some a → coordinator_ok (coordinator s) → route_connection (handoff_source h) = c →
  ∃ es s', finishDisconnectedHandoff now h s = (Ret tt, es, s') ∧ ended c (active_ticket a) s s' ∧ posted es = [].
Proof.
  intros Ha Hok Hc. unfold finishDisconnectedHandoff. rewrite Hc. unfold find_active, mbind, M_bind, gets at 1. rewrite Ha.
  simpl. finish_with s c a Ha Hok.
Qed.

(** Posting the current stage of [h]: the actor has it, or nothing happened. *)
Lemma postStage_run s c a h last next :
  active (handoff_service s) !! c = Some a → handoff_ok last next c h → (∀ p, 0 <= last p) →
  ∃ r es, postStage post h (handoff_step h) s = (Ret r, es, s) ∧
    ((r = Accepted ∧ ∃ cmd, posted es = [cmd] ∧ stage_of h (active_ticket a) cmd) ∨ (r ≠ Accepted ∧ posted es = [])).
Proof.
  intros Ha [[Hc Hs] Hz Ht Hi Hr] Hl. unfold postStage. rewrite Hc. unfold find_active, mbind, M_bind, gets. rewrite Ha. simpl.
  assert (∃ zone epoch command, stage_command h (handoff_step h) = Some (zone, epoch, command)) as (zone & epoch & command & E).
  { unfold stage_command. destruct (handoff_step h); try (by do 3 eexists);
      (destruct (Z.eqb_spec (restore_epoch h) 0); [lia|by do 3 eexists]). }
  rewrite E. unfold tryPost_. simpl.
  destruct (accept s _) eqn:Er; do 2 eexists; (split; [reflexivity|]); [left|right..]; try done.
  split; [done|]. eexists. split; [reflexivity|]. by exists zone, epoch, command.
Qed.

Lemma ended_after c t h h1 s s1 s' : advanced c h h1 s s1 → ended c t s1 s' → ended c t s s'.
Proof.
  intros [] []. constructor; try congruence.
  - rewrite en_handoffs0, ad_handoffs0. apply delete_insert_eq.
  - by eapply frame_trans.
Qed.

Lemma last_nonneg rc p : coordinator_ok rc → 0 <= last_epoch rc p.
Proof. intros Hok. apply (ck_epochs _ Hok). Qed.

Lemma advanced_handoff c h h' s s' :
  advanced c h h' s s' → handoff_ok (last_epoch (coordinator s')) (next_handoff_id (coordinator s')) c h'.
Proof. intros []. apply handoff_of; [done|]. rewrite ad_handoffs0. apply lookup_insert_eq. Qed.

(** A result without effects before it. *)
Ltac pass H := let Hfin := fresh in pose proof H as Hfin; simpl in Hfin;
  match type of Hfin with
  | context [match ?r with pair _ _ => _ end] => destruct r as [[? ?] ?]; exact Hfin
  | handled _ _ _ _ ?r => destruct r as [[? ?] ?]; exact Hfin
  end.

(** The end of every method that moves a handoff on: post the stage, and give
    up when it is refused. *)
Lemma stage_or_fatal s s1 c a h h' :
  active (handoff_service s) !! c = Some a → advanced c h h' s s1 →
  handled c (active_ticket a) h s
    ((r ← postStage post h' (handoff_step h'); when (negb (bool_decide (r = Accepted))) (finishFatalHandoff now h')) s1).
Proof.
  intros Ha Had. pose proof (advanced_handoff _ _ _ _ _ Had) as Hh. pose proof (ad_ok _ _ _ _ _ Had) as Hok.
  assert (Ha1 : active (handoff_service s1) !! c = Some a) by by rewrite (ad_active _ _ _ _ _ Had).
  destruct (postStage_run s1 c a h' _ _ Ha1 Hh ltac:(intros; by apply last_nonneg)) as (r & es & E & Hcase).
  unfold mbind, M_bind. rewrite E. destruct Hcase as [(-> & cmd & Hp & Hst)|(Hr & Hp)].
  - rewrite bool_decide_true by done. simpl. right. exists h', cmd. by rewrite app_nil_r.
  - rewrite bool_decide_false by done. simpl.
    destruct (finishFatal_run s1 c a h' Ha1 Hok (proj1 (hk_source _ _ _ _ Hh))) as (es2 & s2 & E2 & Hen & Hp2).
    rewrite E2. simpl. left. rewrite posted_app, Hp, Hp2. split; [|done]. by eapply ended_after.
Qed.

Lemma fatal_handled s c a h :
  active (handoff_service s) !! c = Some a → coordinator_ok (coordinator s) → route_connection (handoff_source h) = c →
  handled c (active_ticket a) h s (finishFatalHandoff now h s).
Proof. intros Ha Hok Hc. destruct (finishFatal_run s c a h Ha Hok Hc) as (es & s' & -> & ? & ?). by left. Qed.

Lemma disconnected_handled s c a h :
  active (handoff_service s) !! c = Some a → coordinator_ok (coordinator s) → route_connection (handoff_source h) = c →
  handled c (active_ticket a) h s (finishDisconnectedHandoff now h s).
Proof. intros Ha Hok Hc. destruct (finishDisconnected_run s c a h Ha Hok Hc) as (es & s' & -> & ? & ?). by left. Qed.

Lemma findHandoff_of rc c h : handoffs rc !! c = Some h → findHandoff rc c (handoff_id h) = Some h.
Proof. intros E. unfold findHandoff. by rewrite E, Z.eqb_refl. Qed.

(** A new route settles the handoff: the common end of both completions. *)
Lemma settled_handled s c a h route k s1 :
  active (handoff_service s) !! c = Some a → coordinator_ok (settle (coordinator s) c route k) →
  active (handoff_service s1) = active (handoff_service s) → zone_transitions s1 = zone_transitions s →
  coordinator s1 = settle (coordinator s) c route k → frame s s1 →
  handled c (active_ticket a) h s (finishActiveHandoff now c s1).
Proof.
  intros Ha Hok1 E1 E2 E3 Hf.
  destruct (finishActive_run s1 c a) as (es & s' & -> & Hp' & F1 & F2 & F3 & F4); [congruence|]. left. split; [|done].
  constructor; [congruence|congruence|by rewrite F3, E3|by rewrite F3, E3|by eapply frame_trans].
Qed.

Ltac settle_with s c a h Ha Hok1 :=
  match goal with |- context [finishActiveHandoff now c ?s1] =>
    let Hfin := fresh in
    assert (handled c (active_ticket a) h s (finishActiveHandoff now c s1)) as Hfin
      by (by apply (settled_handled s c a h _ _ s1 Ha Hok1));
    destruct (finishActiveHandoff now c s1) as [[[] ?] ?]; exact Hfin
  end.

Section on_handoff.
Context (s : Server) (c : ConnectionId) (a : ActiveHandoff) (h : ZoneHandoff).
Context (Ha : active (handoff_service s) !! c = Some a) (Hok : coordinator_ok (coordinator s))
        (Hh : handoffs (coordinator s) !! c = Some h).

Lemma source_connection : route_connection (handoff_source h) = c.
Proof using Hok Hh. apply (handoff_of _ _ _ Hok Hh). Qed.

Lemma sourceRestore_handled : handoff_step h = EnterTarget →
  handled c (active_ticket a) h s (beginSourceRestore_ post now h s).
Proof using Ha Hok Hh.
  intros Hst. unfold beginSourceRestore_. rewrite source_connection.
  unfold count_handoff, modify, mbind at 1, M_bind at 1. set (s0 := set_handoff_service _ s).
  unfold mbind at 1, M_bind at 1. unfold on_routes_throwing at 1.
  change (coordinator s0) with (coordinator s). destruct (beginSourceRestore (coordinator s) c (handoff_id h)) as [[r rc1]|e] eqn:E.
  2:{ unfold beginSourceRestore in E. rewrite (findHandoff_of _ _ _ Hh), bool_decide_true in E by done. simpl in E.
      unfold next_epoch, throw_if in E. destruct (_ =? _); simpl in E; [|done]. by injection E as <-. }
  pose proof (beginSourceRestore_ok _ _ _ _ _ Hok E) as Hok1.
  unfold beginSourceRestore in E. rewrite (findHandoff_of _ _ _ Hh), bool_decide_true in E by done. simpl in E.
  destruct (next_epoch _ _) as [[epoch rc0]|] eqn:En; [|done]. simpl in E. injection E as <- <-.
  destruct (epochs_range _ _ _ _ Hok En) as (_ & Erc & _ & _ & _).
  set (h' := with_step RestoreSource (with_restore_epoch epoch h)) in *.
  unfold mbind at 1, M_bind at 1, gets. unfold handoffFor. cbn [coordinator set_coordinator set_handoffs handoffs].
  rewrite lookup_insert_eq.
  match goal with |- context [set_coordinator ?x s0] => set (s1 := set_coordinator x s0) in * end.
  assert (Had : advanced c h h' s s1).
  { constructor; try done; simpl; [by rewrite Erc|rewrite Hst; simpl; lia]. }
  pass (stage_or_fatal s s1 c a h h' Ha Had).
Qed.

Lemma cleanup_handled step :
  (step = CleanupTarget ∧ handoff_step h = EnterTarget) ∨ (step = CleanupSource ∧ handoff_step h = RestoreSource) →
  handled c (active_ticket a) h s (beginDisconnectCleanup post now h step s).
Proof using Ha Hok Hh.
  intros Hst. unfold beginDisconnectCleanup. rewrite source_connection.
  pose proof (beginCleanup_ok _ c (handoff_id h) step Hok) as Hok1. set (h' := with_step step h) in *.
  assert (E : beginCleanup (coordinator s) c (handoff_id h) step =
              (true, set_handoffs (<[c := h']> (handoffs (coordinator s))) (coordinator s))).
  { unfold beginCleanup. rewrite (findHandoff_of _ _ _ Hh). destruct Hst as [[-> ->]|[-> ->]]; done. }
  rewrite E in Hok1. unfold mbind at 1, M_bind at 1, on_routes. rewrite E. cbn [negb].
  unfold mbind at 1, M_bind at 1, gets, handoffFor. cbn [coordinator set_coordinator set_handoffs handoffs].
  rewrite lookup_insert_eq.
  match goal with |- context [set_coordinator ?x s] => set (s1 := set_coordinator x s) in * end.
  assert (Had : advanced c h h' s s1).
  { constructor; try done. destruct Hst as [[-> Hst]|[-> Hst]]; rewrite Hst; simpl; lia. }
  pass (stage_or_fatal s s1 c a h h' Ha Had).
Qed.

Lemma finishSourceRestore_handled position : handoff_step h = RestoreSource →
  handled c (active_ticket a) h s (finishSourceRestore post now h position s).
Proof using Ha Hok Hh.
  intros Hst. unfold finishSourceRestore. rewrite source_connection. unfold find_active. unfold mbind at 1, M_bind at 1, gets.
  rewrite Ha. destruct (active_disconnecting a); [pass (cleanup_handled CleanupSource (or_intror (conj eq_refl Hst)))|].
  pose proof (completeSourceRestore_ok _ c (handoff_id h) Hok) as Hok1.
  destruct (handoff_of _ _ _ Hok Hh) as [[_ Hs] _ Ht _ Hr]. rewrite Hst in Hr.
  unfold completeSourceRestore in Hok1. unfold mbind at 1, M_bind at 1, on_routes, completeSourceRestore.
  rewrite (findHandoff_of _ _ _ Hh), Hst, bool_decide_true, (proj2 (Z.eqb_neq _ _)) in Hok1 |- * by (done || lia).
  cbn [negb orb] in *. cbn [snd] in Hok1. unfold mbind, M_bind. simpl.
  settle_with s c a h Ha Hok1.
Qed.
End on_handoff.

Section on_completion.
Context (s : Server) (c : ConnectionId) (a : ActiveHandoff) (h : ZoneHandoff).
Context (Ha : active (handoff_service s) !! c = Some a) (Hok : coordinator_ok (coordinator s))
        (Hh : handoffs (coordinator s) !! c = Some h).

Lemma leaveSource_handled completion :
  handoff_step h = LeaveSource → completion_connection completion = c → completion_handoff_id completion = handoff_id h →
  handled c (active_ticket a) h s (handleLeaveSource post now h a completion s).
Proof using Ha Hok Hh.
  intros Hst Hc Hid. unfold handleLeaveSource. rewrite Hc, Hid.
  pose proof (fatal_handled s c a h Ha Hok (source_connection s c h Hok Hh)) as Hfatal.
  destruct (completion_position completion) as [position|]; [|done]. case_bool_decide; [|done]. cbn [negb].
  set (h' := with_step EnterTarget (with_source_position position h)) in *.
  pose proof (noteSourceLeft_ok _ c (handoff_id h) position Hok) as Hok1.
  assert (E : noteSourceLeft (coordinator s) c (handoff_id h) position =
              (true, set_handoffs (<[c := h']> (handoffs (coordinator s))) (coordinator s))).
  { unfold noteSourceLeft. rewrite (findHandoff_of _ _ _ Hh), Hst. done. }
  rewrite E in Hok1. unfold mbind at 1, M_bind at 1, on_routes. rewrite E. cbn [negb].
  unfold mbind at 1, M_bind at 1, gets, handoffFor. cbn [coordinator set_coordinator set_handoffs handoffs].
  rewrite lookup_insert_eq.
  match goal with |- context [set_coordinator ?x s] => set (s1 := set_coordinator x s) in * end.
  assert (Had : advanced c h h' s s1) by (constructor; try done; rewrite Hst; simpl; lia).
  assert (Hc1 : route_connection (handoff_source h') = c) by exact (source_connection s c h Hok Hh).
  destruct (active_disconnecting a).
  { pose proof (handled_after _ _ _ _ _ _ _ [] Had eq_refl (disconnected_handled s1 c a h' Ha Hok1 Hc1)) as Hfin.
    pass Hfin. }
  destruct (postStage_run s1 c a h' _ _ Ha (advanced_handoff _ _ _ _ _ Had) ltac:(intros; by apply last_nonneg))
    as (r & es & Ep & Hcase). simpl in Ep. unfold mbind at 1, M_bind at 1. rewrite Ep.
  destruct Hcase as [(-> & cmd & Hp & Hcmd)|(Hr & Hp)].
  - rewrite bool_decide_true by done. simpl. right. exists h', cmd. by rewrite app_nil_r.
  - rewrite bool_decide_false by done. cbn [negb when].
    assert (Hh1 : handoffs (coordinator s1) !! c = Some h') by apply lookup_insert_eq.
    pose proof (handled_after _ _ _ _ _ _ _ es Had Hp (sourceRestore_handled s1 c a h' Ha Hok1 Hh1 eq_refl)) as Hfin.
    pass Hfin.
Qed.

Lemma enterTarget_handled completion :
  handoff_step h = EnterTarget → completion_connection completion = c → completion_handoff_id completion = handoff_id h →
  handled c (active_ticket a) h s (handleEnterTarget post now h a completion s).
Proof using Ha Hok Hh.
  intros Hst Hc Hid. unfold handleEnterTarget. rewrite Hc, Hid.
  pose proof (source_connection s c h Hok Hh) as Hsrc.
  assert (Hfail : handled c (active_ticket a) h s
    ((if active_disconnecting a then (_ ← count_handoff TargetFailures 1; finishDisconnectedHandoff now h)
      else beginSourceRestore_ post now h) s)).
  { destruct (active_disconnecting a); [|by apply sourceRestore_handled].
    unfold mbind, M_bind, count_handoff, modify.
    match goal with |- context [finishDisconnectedHandoff now h ?s0] => set (s1 := s0) end.
    pose proof (disconnected_handled s1 c a h Ha Hok Hsrc) as Hfin.
    destruct (finishDisconnectedHandoff now h s1) as [[[] ?] ?]; [|exact Hfin].
    destruct Hfin as [[Hen Hp]|(h' & cmd & Had & Hrest)]; 
      [left; split; [|done]; destruct Hen; constructor; try done; by apply (frame_trans s s1)|].
    right. exists h', cmd. split; [|done]. destruct Had. constructor; try done. by apply (frame_trans s s1). }
  destruct (completion_position completion) as [position|]; [|exact Hfail].
  destruct (entered (completion_status completion)); [|exact Hfail].
  destruct (active_disconnecting a) eqn:Ed; [apply cleanup_handled; auto|].
  pose proof (completeTargetEnter_ok _ c (handoff_id h) Hok) as Hok1.
  unfold mbind at 1, M_bind at 1, on_routes. unfold completeTargetEnter in *.
  rewrite (findHandoff_of _ _ _ Hh), Hst, bool_decide_true in Hok1 |- * by done.
  cbn [negb] in *. cbn [snd] in Hok1. unfold mbind, M_bind. simpl. settle_with s c a h Ha Hok1.
Qed.

Lemma handleCompletion_handled completion :
  isValidCompletion h completion = true → handled c (active_ticket a) h s (handleCompletion post now completion s).
Proof using Ha Hok Hh.
  intros Hv. unfold handleCompletion. pose proof Hv as Hv'. unfold isValidCompletion in Hv'. to_prop.
  rewrite !bool_decide_eq_true in *. pose proof (source_connection s c h Hok Hh) as Hsrc.
  assert (Hc : completion_connection completion = c) by congruence.
  unfold mbind, M_bind, gets, find_active, handoffFor. unfold gets. rewrite Hc, Hh, Ha, Hv. cbn [negb].
  match goal with H : completion_step completion = handoff_step h |- _ => rename H into Hst end.
  pose proof (fatal_handled s c a h Ha Hok Hsrc) as Hfatal.
  pose proof (disconnected_handled s c a h Ha Hok Hsrc) as Hdisc.
  destruct (completion_step completion) eqn:E; symmetry in Hst.
  - pass (leaveSource_handled completion Hst Hc ltac:(done)).
  - pass (enterTarget_handled completion Hst Hc ltac:(done)).
  - destruct (completion_position completion) as [position|]; [|pass Hfatal].
    destruct (entered (completion_status completion)); [|pass Hfatal].
    pass (finishSourceRestore_handled s c a h Ha Hok Hh position Hst).
  - destruct (negb _ && negb _); [pass Hfatal|pass Hdisc].
  - destruct (negb _ && negb _); [pass Hfatal|pass Hdisc].
Qed.
End on_completion.
End service.
