(* ===== verification/HandoffSpec.v ===== *)
(** * Zone handoffs: invariant and theorems

    The handoff service, the route coordinator, the transition channel and the
    zone actors together: a stage of a handoff is posted to an actor, the actor
    answers with whatever result it has and publishes the completion, and a
    later turn of the network thread handles it.  These steps interleave with
    new handoffs, disconnects, the other operations on routes and sessions,
    and shutdown. *)

From S2P Require Import Prelude Zone Player Connection SessionDirectory RouteCoordinator RouteSpec Distribution Ring TransitionChannel TransitionSpec Server Handoff HandoffCalls.

(** ** The system *)

(** The stages posted to actors and not yet executed, and whether an actor ever
    failed to publish a completion while the channel was open. *)
Record HandoffSystem := mkSystem {
  server : Server;
  in_flight : list ZoneInboundCommand;
  publish_failed : bool
}.

Inductive HandoffOp :=
| HStart (accept : Server → RoutedCommand → PostResult) (now : time_point) (c : ConnectionId) (request_id : Z) (player : PlayerId)
    (target : ZoneId) (requested : ZonePosition) (source : SessionRoute)
| HBusy (c : ConnectionId) (request_id : Z) (kind : ZoneReplyKind)
| HDisconnect (c : ConnectionId)
| HExecute (i : nat) (result : ZoneResult) (now : time_point)
| HDrain (accept : Server → RoutedCommand → PostResult) (now : time_point)
| HRoutes (op : RouteOp)
| HSessions (op : DirectoryOp)
| HClose
| HCancel.

(** The operations on routes that other components call: all but those of
    handoffs, and [abandon] only for a connection that has none. *)
Definition outside_handoffs (rc : RouteCoordinator) (op : RouteOp) : bool :=
  match op with
  | RBeginHandoff _ _ _ _ _ _ | RSourceLeft _ _ _ | RBeginRestore _ _ | RBeginCleanup _ _ _
  | RCompleteTarget _ _ | RCompleteRestore _ _ | RRollbackHandoff _ _ => false
  | RAbandon c => negb (has_value (handoffs rc !! c))
  | _ => true
  end.

(** A call of the service: its effects put stages in flight. *)
Definition call {A} (m : M A) (sys : HandoffSystem) : outcome HandoffSystem :=
  match m (server sys) with
  | (Ret _, es, s) => Ret (mkSystem s (in_flight sys ++ posted es) (publish_failed sys))
  | (Throw e, _, _) => Throw e
  end.

(** The actor executes a stage and publishes the completion. *)
Definition execute (i : nat) (result : ZoneResult) (now : time_point) (sys : HandoffSystem) : HandoffSystem :=
  match in_flight sys !! i with
  | Some cmd =>
      match inbound_handoff cmd with
      | Some context =>
          let ch := zone_transitions (server sys) in
          let '(ok, ch') := publish completion_handoff_id ch (context_ticket context) (stage_completion cmd context result) now in
          mkSystem (set_zone_transitions ch' (server sys)) (delete i (in_flight sys))
            (publish_failed sys || (negb ok && negb (chan_cancelled ch)))
      | None => sys
      end
  | None => sys
  end.

Definition hstep (sys : HandoffSystem) (op : HandoffOp) : outcome HandoffSystem :=
  let s := server sys in
  match op with
  | HStart accept now c request_id player target requested source =>
      call (tryStart (fun s c => Ret (accept s c)) now c request_id player target requested source) sys
  | HBusy c request_id kind => call (tryReplyTransitionInProgress c request_id kind) sys
  | HDisconnect c => call (noteDisconnect c) sys
  | HExecute i result now => Ret (execute i result now sys)
  | HDrain accept now => call (drain (fun s c => Ret (accept s c)) now) sys
  | HRoutes op =>
      if outside_handoffs (coordinator s) op
      then Ret (mkSystem (set_coordinator (route_step (coordinator s) op).2 s) (in_flight sys) (publish_failed sys))
      else Ret sys
  | HSessions op => Ret (mkSystem (set_sessions (directory_step (sessions s) op) s) (in_flight sys) (publish_failed sys))
  | HClose => call handoff_close sys
  | HCancel => call handoff_cancel sys
  end.

Fixpoint hrun (sys : HandoffSystem) (ops : list HandoffOp) : outcome HandoffSystem :=
  match ops with
  | [] => Ret sys
  | op :: rest => let! sys := hstep sys op in hrun sys rest
  end.

(** ** Invariant *)

Definition cmd_ticket (cmd : ZoneInboundCommand) : Z :=
  match inbound_handoff cmd with Some x => context_ticket x | None => 0 end.

Definition outstanding (fl : list ZoneInboundCommand) (q : list (Z * ZoneHandoffCompletion)) : list Z :=
  (cmd_ticket <$> fl) ++ q.*1.

(** The one outstanding stage of a handoff: its command, or its completion. *)
Definition has_stage (fl : list ZoneInboundCommand) (q : list (Z * ZoneHandoffCompletion)) (h : ZoneHandoff) (t : Z) : Prop :=
  (∃ cmd, cmd ∈ fl ∧ stage_of h t cmd) ∨ (∃ completion, (t, completion) ∈ q ∧ isValidCompletion h completion = true).

Abbreviation Abs := (AChannel ZoneHandoffCompletion).

(** The handoff of the connection [hole], if any, has no stage at present. *)
Definition conn_ok (hole : option ConnectionId) (s : Server) (fl : list ZoneInboundCommand) (a : Abs) (c : ConnectionId) : Prop :=
  match active (handoff_service s) !! c, handoffs (coordinator s) !! c with
  | None, None => True
  | Some x, Some h =>
      a_reserved a !! active_ticket x = Some (handoff_id h, false) ∧
      (if decide (hole = Some c) then active_ticket x ∉ outstanding fl (a_queue a) else has_stage fl (a_queue a) h (active_ticket x))
  | _, _ => False
  end.

Record live_ok (hole : option ConnectionId) (s : Server) (fl : list ZoneInboundCommand) (a : Abs) : Prop := {
  lv_conn : ∀ c, conn_ok hole s fl a c;
  lv_nodup : NoDup (outstanding fl (a_queue a));
  lv_owned : ∀ t, t ∈ outstanding fl (a_queue a) → ∃ c x, active (handoff_service s) !! c = Some x ∧ active_ticket x = t;
  lv_reserved : ∀ t p, a_reserved a !! t = Some p → ∃ c x, active (handoff_service s) !! c = Some x ∧ active_ticket x = t;
  lv_inj : ∀ c c' x x', active (handoff_service s) !! c = Some x → active (handoff_service s) !! c' = Some x' →
             active_ticket x = active_ticket x' → c = c';
  lv_handoff : ∀ cmd, cmd ∈ fl → is_Some (inbound_handoff cmd)
}.

Record base_ok (s : Server) (a : Abs) : Prop := {
  bs_coord : coordinator_ok (coordinator s);
  bs_sim : simulates (zone_transitions s) a;
  bs_stale : stale s = 0;
  bs_turn : 1 <= handoff_turn (handoff_service s);
  bs_closed : a_cancelled a = true → handoff_admission_closed (handoff_service s) = true ∧
                active (handoff_service s) = ∅ ∧ handoffs (coordinator s) = ∅
}.

Definition system_ok (sys : HandoffSystem) (a : Abs) : Prop :=
  base_ok (server sys) a ∧ publish_failed sys = false ∧
  (a_cancelled a = false → live_ok None (server sys) (in_flight sys) a).

Lemma conn_ok_both hole s fl a c x :
  conn_ok hole s fl a c → active (handoff_service s) !! c = Some x →
  ∃ h, handoffs (coordinator s) !! c = Some h ∧ a_reserved a !! active_ticket x = Some (handoff_id h, false) ∧
    (if decide (hole = Some c) then active_ticket x ∉ outstanding fl (a_queue a) else has_stage fl (a_queue a) h (active_ticket x)).
Proof. unfold conn_ok. intros Hc Hx. rewrite Hx in Hc. destruct (handoffs _ !! c) as [h|]; [|done]. eauto. Qed.

Lemma stage_ticket h t cmd : stage_of h t cmd → cmd_ticket cmd = t.
Proof. by intros (? & ? & ? & _ & ->). Qed.

(** The steps still to be taken for the outstanding stages: two for the actor
    and the network thread, for every stage that may follow. *)
Definition cmd_weight (cmd : ZoneInboundCommand) : Z :=
  match inbound_handoff cmd with Some x => 2 * Z.of_nat (rank (context_step x)) + 2 | None => 0 end.
Definition completion_weight (p : Z * ZoneHandoffCompletion) : Z := 2 * Z.of_nat (rank (completion_step p.2)) + 1.
Definition work (fl : list ZoneInboundCommand) (q : list (Z * ZoneHandoffCompletion)) : Z :=
  zsum cmd_weight fl + zsum completion_weight q.

Lemma stage_weight h t cmd : stage_of h t cmd → cmd_weight cmd = 2 * Z.of_nat (rank (handoff_step h)) + 2.
Proof. by intros (? & ? & ? & _ & ->). Qed.

Lemma work_zero fl q : (∀ cmd, cmd ∈ fl → is_Some (inbound_handoff cmd)) →
  0 <= work fl q ∧ (work fl q = 0 ↔ fl = [] ∧ q = []).
Proof.
  intros Hfl. unfold work.
  assert (0 <= zsum completion_weight q ∧ (zsum completion_weight q = 0 → q = [])) as [Hq0 Hq].
  { split; [apply zsum_nonneg, Forall_true; intros; unfold completion_weight; lia|].
    destruct q as [|p q]; [done|]. simpl. pose proof (zsum_nonneg completion_weight q).
    assert (0 <= zsum completion_weight q) by (apply zsum_nonneg, Forall_true; intros; unfold completion_weight; lia).
    unfold completion_weight at 1. lia. }
  assert (Hw : ∀ cmd, cmd ∈ fl → 2 <= cmd_weight cmd).
  { intros cmd Hin. destruct (Hfl cmd Hin) as [x Hx]. unfold cmd_weight. rewrite Hx. lia. }
  assert (0 <= zsum cmd_weight fl ∧ (zsum cmd_weight fl = 0 → fl = [])) as [Hf0 Hf].
  { clear Hfl. induction fl as [|cmd fl IH]; [done|]. simpl. pose proof (Hw cmd ltac:(left)).
    destruct IH as [IH _]; [intros c Hc; apply Hw; by right|]. split; [lia|lia]. }
  split; [lia|]. split; [intros Hz; split; [apply Hf|apply Hq]; lia|]. by intros [-> ->].
Qed.

(** ** Closing the hole *)

Section hole.
Context (s s' : Server) (fl : list ZoneInboundCommand) (a : Abs) (c : ConnectionId) (x : ActiveHandoff).
Context (Hlive : live_ok (Some c) s fl a) (Hx : active (handoff_service s) !! c = Some x).

Lemma other_ticket c' x' : active (handoff_service s) !! c' = Some x' → c' ≠ c → active_ticket x' ≠ active_ticket x.
Proof using Hlive Hx. intros Hx' Hne E. apply Hne. by eapply (lv_inj _ _ _ _ Hlive). Qed.

Lemma hole_unqueued : active_ticket x ∉ outstanding fl (a_queue a).
Proof using Hlive Hx.
  destruct (conn_ok_both _ _ _ _ _ _ (lv_conn _ _ _ _ Hlive c) Hx) as (h & _ & _ & Hn). by rewrite decide_True in Hn.
Qed.

Lemma hole_end : ended c (active_ticket x) s s' → live_ok None s' fl (a_release a (active_ticket x)).
Proof using Hlive Hx.
  intros [E1 E2 E3 _ _]. pose proof hole_unqueued as Hn. pose proof Hlive as [Hc Hnd Ho Hr Hi Hh].
  destruct (conn_ok_both _ _ _ _ _ _ (Hc c) Hx) as (h & Hhc & Hres & _).
  assert (Hq : a_queue (a_release a (active_ticket x)) = a_queue a).
  { unfold a_release. rewrite Hres. by case_bool_decide. }
  assert (Hd : a_reserved (a_release a (active_ticket x)) = delete (active_ticket x) (a_reserved a)).
  { unfold a_release. rewrite Hres. rewrite bool_decide_false; [done|].
    intros Hin. apply Hn. apply elem_of_app. by right. }
  constructor; rewrite ?Hq, ?Hd; try done.
  - intros c'. specialize (Hc c'). unfold conn_ok in *. rewrite E1, E3, Hq, Hd.
    destruct (decide (c = c')) as [<-|Hne]; [by rewrite !lookup_delete_eq|]. rewrite !lookup_delete_ne by done.
    destruct (active (handoff_service s) !! c') as [x'|] eqn:Ex'; [|done]. destruct (handoffs _ !! c') as [h'|]; [|done].
    rewrite decide_False in Hc by congruence. rewrite decide_False by done.
    rewrite lookup_delete_ne; [done|]. intros E. by apply (other_ticket c' x').
  - intros t Ht. destruct (Ho t Ht) as (c' & x' & Hx' & <-). exists c', x'. split; [|done]. rewrite E1.
    rewrite lookup_delete_ne; [done|]. intros <-. rewrite Hx in Hx'. by injection Hx' as <-.
  - intros t p [Hne Ht]%lookup_delete_Some. destruct (Hr t p Ht) as (c' & x' & Hx' & <-). exists c', x'. split; [|done].
    rewrite E1, lookup_delete_ne; [done|]. intros <-. rewrite Hx in Hx'. by injection Hx' as <-.
  - intros c1 c2 x1 x2. rewrite E1. intros [_ H1]%lookup_delete_Some [_ H2]%lookup_delete_Some. by eapply Hi.
Qed.

Lemma hole_post h h' cmd :
  handoffs (coordinator s) !! c = Some h →
  active (handoff_service s') = active (handoff_service s) → handoffs (coordinator s') = <[c := h']> (handoffs (coordinator s)) →
  handoff_id h' = handoff_id h → stage_of h' (active_ticket x) cmd →
  live_ok None s' (fl ++ [cmd]) a.
Proof using Hlive Hx.
  intros Hhc E1 E3 Hid Hst. pose proof hole_unqueued as Hn. pose proof Hlive as [Hc Hnd Ho Hr Hi Hh].
  destruct (conn_ok_both _ _ _ _ _ _ (Hc c) Hx) as (h0 & Hhc' & Hres & _). rewrite Hhc in Hhc'. injection Hhc' as <-.
  assert (Hout : outstanding (fl ++ [cmd]) (a_queue a) ≡ₚ active_ticket x :: outstanding fl (a_queue a)).
  { unfold outstanding. rewrite fmap_app. simpl. rewrite (stage_ticket _ _ _ Hst), <-app_assoc. simpl.
    by rewrite <-Permutation_middle. }
  constructor; rewrite ?Hout; rewrite ?E1; try done.
  - intros c'. specialize (Hc c'). unfold conn_ok in *. rewrite E1, E3.
    destruct (decide (c = c')) as [<-|Hne].
    + rewrite Hx, lookup_insert_eq, decide_False by done. rewrite Hid. split; [done|]. left. exists cmd.
      split; [apply elem_of_app; right; left|done].
    + rewrite lookup_insert_ne by done. destruct (active (handoff_service s) !! c') as [x'|]; [|done].
      destruct (handoffs _ !! c') as [h1|]; [|done]. rewrite decide_False in Hc by congruence. rewrite decide_False by done.
      destruct Hc as [? [(cmd' & Hin & ?)|?]]; (split; [done|]); [left|by right].
      exists cmd'. split; [apply elem_of_app; by left|done].
  - by constructor.
  - intros t. rewrite Hout. intros [->|Ht]%elem_of_cons; [by exists c, x|by apply Ho].
  - intros cmd' [Hin| ->%list_elem_of_singleton]%elem_of_app; [by apply Hh|]. by destruct Hst as (? & ? & ? & _ & ->).
Qed.
End hole.

Lemma handled_ok c x h s fl a es s' :
  base_ok s a → a_cancelled a = false → live_ok (Some c) s fl a → active (handoff_service s) !! c = Some x →
  handoffs (coordinator s) !! c = Some h → handled c (active_ticket x) h s (Ret tt, es, s') →
  ∃ a', base_ok s' a' ∧ a_cancelled a' = false ∧ live_ok None s' (fl ++ posted es) a' ∧
        a_queue a' = a_queue a ∧ zsum cmd_weight (posted es) <= 2 * Z.of_nat (rank (handoff_step h)).
Proof.
  intros [B1 B2 B3 Bt B4] Hnc Hl Hx Hh [[Hen Hp]|(h' & cmd & Had & Hp & Hst)].
  - exists (a_release a (active_ticket x)). rewrite Hp, app_nil_r. pose proof (hole_end s s' fl a c x Hl Hx Hen) as Hl'.
    assert (Hc : a_cancelled (a_release a (active_ticket x)) = false ∧ a_queue (a_release a (active_ticket x)) = a_queue a).
    { unfold a_release. destruct (a_reserved a !! _) as [[]|]; [|done]. by case_bool_decide. }
    destruct Hc as [Hc Hq]. destruct Hen as [E1 E2 E3 E4 [Et _ Es]].
    split_and!; try done; [|simpl; lia]. constructor; try done.
    + rewrite E2. by apply release_sim.
    + congruence.
    + by rewrite Et.
    + rewrite Hc. done.
  - exists a. rewrite Hp. pose proof (hole_post s s' fl a c x Hl Hx h h' cmd Hh) as Hpost.
    destruct Had as [E1 E2 E3 E4 Hrk Eid [Et _ Es]].
    split_and!; auto; [|simpl; rewrite (stage_weight _ _ _ Hst); lia]. constructor; try done; [by rewrite E2|congruence|by rewrite Et|congruence].
Qed.

Lemma pop_hole s fl a now t completion rest :
  base_ok s a → a_cancelled a = false → live_ok None s fl a → a_queue a = (t, completion) :: rest →
  ∃ ch' c x h, tryPop (zone_transitions s) now = Ret (Some completion, ch') ∧
    active (handoff_service s) !! c = Some x ∧ handoffs (coordinator s) !! c = Some h ∧
    isValidCompletion h completion = true ∧
    base_ok (set_zone_transitions ch' s) (a_set rest (a_reserved a) a) ∧
    live_ok (Some c) (set_zone_transitions ch' s) fl (a_set rest (a_reserved a) a).
Proof.
  intros [B1 B2 B3 Bt B4] Hnc [Hc Hnd Ho Hr Hi Hh] Hq.
  destruct (tryPop_sim _ _ now B2) as (ch' & Hpop & Hsim). unfold a_pop in Hpop, Hsim. rewrite Hq in Hpop, Hsim. simpl in Hpop, Hsim.
  assert (Hin : t ∈ outstanding fl (a_queue a)) by (unfold outstanding; rewrite Hq; apply elem_of_app; right; left).
  destruct (Ho t Hin) as (c & x & Hx & Ht). pose proof (Hc c) as Hcc.
  destruct (conn_ok_both _ _ _ _ _ _ Hcc Hx) as (h & Hhc & Hres & Hst). rewrite decide_False in Hst by done.
  rewrite Ht in Hres, Hst. rewrite Hres in Hsim.
  assert (Hout : outstanding fl (a_queue a) ≡ₚ t :: outstanding fl rest).
  { unfold outstanding. rewrite Hq. simpl. by rewrite <-Permutation_middle. }
  rewrite Hout in Hnd. apply NoDup_cons in Hnd as [Hnin Hnd].
  exists ch', c, x, h. split_and!; try done.
  - destruct Hst as [(cmd & Hcmd & Hstg)|(cpl & Hcpl & Hv)].
    + exfalso. apply Hnin. apply elem_of_app. left. rewrite <-(stage_ticket _ _ _ Hstg). by apply list_elem_of_fmap_2.
    + rewrite Hq in Hcpl. apply elem_of_cons in Hcpl as [[= ->]|Hcpl]; [done|].
      exfalso. apply Hnin. apply elem_of_app. right. change t with (t, cpl).1. by apply list_elem_of_fmap_2.
  - constructor; cbn [a_set a_queue a_reserved set_zone_transitions handoff_service coordinator]; try done.
    + intros c'. specialize (Hc c'). unfold conn_ok in *.
      cbn [a_set a_queue a_reserved set_zone_transitions handoff_service coordinator].
      destruct (active (handoff_service s) !! c') as [x'|] eqn:Ex'; [|done]. destruct (handoffs _ !! c') as [h'|] eqn:Eh'; [|done].
      destruct Hc as [Hc1 Hc2]. split; [done|]. rewrite decide_False in Hc2 by done.
      destruct (decide (c = c')) as [<-|Heq].
      * rewrite decide_True by done. assert (x' = x) as -> by congruence. by rewrite Ht.
      * rewrite decide_False by congruence. destruct Hc2 as [?|(cpl & Hcpl & Hv)]; [by left|]. right. exists cpl. split; [|done].
        rewrite Hq in Hcpl. apply elem_of_cons in Hcpl as [[= E _]|Hcpl]; [|done].
        exfalso. apply Heq. apply (Hi c c' x x' Hx Ex'). congruence.
    + intros u Hu. apply Ho. rewrite Hout. by right.
Qed.

(** ** Preservation *)

(** A call that touches no handoff, channel or stage. *)
Lemma untouched_ok s s' fl a :
  base_ok s a → (a_cancelled a = false → live_ok None s fl a) → coordinator_ok (coordinator s') →
  handoffs (coordinator s') = handoffs (coordinator s) → active (handoff_service s') = active (handoff_service s) →
  simulates (zone_transitions s') a → frame s s' →
  base_ok s' a ∧ (a_cancelled a = false → live_ok None s' fl a).
Proof.
  intros [B1 B2 B3 Bt B4] Hl Hok E1 E2 E3 [Ft Fc Fs]. split.
  - constructor; [done|done|congruence|by rewrite Ft|]. intros Hc. destruct (B4 Hc) as (? & ? & ?). split_and!; congruence.
  - intros Hnc. destruct (Hl Hnc) as [Hc Hnd Ho Hr Hi Hh]. constructor; rewrite ?E2; try done.
    intros c. specialize (Hc c). unfold conn_ok in *. by rewrite E1, E2.
Qed.

Lemma completion_step_of h completion : isValidCompletion h completion = true → completion_step completion = handoff_step h.
Proof. unfold isValidCompletion. intros H. to_prop. by rewrite !bool_decide_eq_true in *. Qed.

Lemma drain_loop_ok accept now n s fl a :
  base_ok s a → a_cancelled a = false → live_ok None s fl a →
  match drain_loop (fun s c => Ret (accept s c)) now n s with
  | (Ret _, es, s') =>
      ∃ a', base_ok s' a' ∧ a_cancelled a' = false ∧ live_ok None s' (fl ++ posted es) a' ∧
        work (fl ++ posted es) (a_queue a') <= work fl (a_queue a) ∧
        (n ≠ 0%nat → a_queue a ≠ [] → work (fl ++ posted es) (a_queue a') < work fl (a_queue a))
  | (Throw e, _, _) => e = OverflowError
  end.
Proof.
  revert s fl a. induction n as [|n IH]; intros s fl a Hb Hnc Hl.
  { simpl. exists a. simpl. rewrite app_nil_r. split_and!; try done. }
  cbn [drain_loop]. unfold mbind at 1, M_bind at 1, on_zone_transitions_throwing.
  destruct (a_queue a) as [|[t completion] rest] eqn:Eq.
  { destruct (tryPop_sim _ _ now (bs_sim _ _ Hb)) as (ch' & Hpop & Hsim). unfold a_pop in Hpop, Hsim. rewrite Eq in Hpop, Hsim.
    rewrite Hpop. simpl. exists a. simpl. rewrite app_nil_r, Eq. destruct Hb, Hl. by split_and!. }
  destruct (pop_hole s fl a now t completion rest Hb Hnc Hl Eq) as (ch' & c & x & h & Hpop & Hx & Hh & Hv & Hb1 & Hl1).
  rewrite Hpop. set (s1 := set_zone_transitions ch' s) in *.
  unfold mbind, M_bind. pose proof (handleCompletion_handled accept now s1 c x h Hx (bs_coord _ _ Hb1) Hh completion Hv) as Hhd.
  destruct (handleCompletion _ now completion s1) as [[[[]|e] es1] s2]; [|exact Hhd].
  destruct (handled_ok c x h s1 fl _ es1 s2 Hb1 Hnc Hl1 Hx Hh Hhd) as (a2 & Hb2 & Hnc2 & Hl2 & Hq2 & Hw).
  cbn [a_set a_queue] in Hq2. specialize (IH s2 (fl ++ posted es1) a2 Hb2 Hnc2 Hl2).
  destruct (drain_loop _ now n s2) as [[[[]|e] es2] s3]; [|exact IH].
  destruct IH as (a3 & Hb3 & Hnc3 & Hl3 & Hw3 & _). exists a3. simpl. rewrite posted_app, app_assoc.
  assert (Hdec : work (fl ++ posted es1) (a_queue a2) < work fl ((t, completion) :: rest)).
  { unfold work. rewrite zsum_app, Hq2. simpl. unfold completion_weight at 2. simpl. rewrite (completion_step_of _ _ Hv). lia. }
  split_and!; try done; lia.
Qed.

Lemma drain_ok accept now s fl a :
  base_ok s a → (a_cancelled a = false → live_ok None s fl a) →
  match drain (fun s c => Ret (accept s c)) now s with
  | (Ret _, es, s') =>
      ∃ a', base_ok s' a' ∧ (a_cancelled a' = false → live_ok None s' (fl ++ posted es) a') ∧
        (a_cancelled a = false → 1 <= handoff_turn (handoff_service s) → a_queue a ≠ [] →
         a_cancelled a' = false ∧ work (fl ++ posted es) (a_queue a') < work fl (a_queue a))
  | (Throw e, _, _) => e = OverflowError
  end.
Proof.
  intros Hb Hl. unfold drain. unfold mbind at 1, M_bind at 1, gets at 1. unfold mbind at 1, M_bind at 1.
  set (n := Z.to_nat _). assert (Hwake : ∀ s' es, posted (es ++ (if wakeIfPending (zone_transitions s') then [WakeUp] else [])) = posted es).
  { intros s' es. rewrite posted_app. destruct (wakeIfPending _); simpl; by rewrite app_nil_r. }
  destruct (a_cancelled a) eqn:Ec.
  - assert (Hd : drain_loop (fun s c => Ret (accept s c)) now n s = (Ret tt, [], s)).
    { assert (a_queue a = []) as Eq.
      { destruct (a_queue a) as [|[t cpl] q] eqn:Eq; [done|]. destruct (sim_queued _ _ (bs_sim _ _ Hb) t) as [p Hp].
        - rewrite Eq. left.
        - rewrite (proj2 (sim_cancelled _ _ (bs_sim _ _ Hb)) Ec) in Hp. done. }
      destruct n; [done|]. cbn [drain_loop]. unfold mbind, M_bind, on_zone_transitions_throwing, tryPop.
      rewrite (sim_count _ _ (bs_sim _ _ Hb)), Eq. simpl. by destruct s. }
    rewrite Hd. unfold mbind, M_bind, gets, when. simpl.
    destruct (wakeIfPending (zone_transitions s)); simpl; exists a; simpl; rewrite ?app_nil_r, ?Ec; by split_and!.
  - pose proof (drain_loop_ok accept now n s fl a Hb Ec (Hl eq_refl)) as Hd.
    destruct (drain_loop _ now n s) as [[[[]|e] es] s']; [|exact Hd]. destruct Hd as (a' & Hb' & Hnc' & Hl' & _ & Hw).
    unfold mbind, M_bind, gets, when.
    destruct (wakeIfPending (zone_transitions s')) eqn:Ew; cbn [app]; exists a';
      [rewrite posted_app; simpl; rewrite app_nil_r|rewrite !app_nil_r]; split_and!; try done;
      intros _ Hn Hq; (split; [done|]); apply Hw; try done; unfold n; lia.
Qed.

Lemma next_epoch_throws rc p e : next_epoch rc p = Throw e → e = OverflowError.
Proof. unfold next_epoch, throw_if. destruct (_ =? _); by intros [= <-]. Qed.

Lemma tryBeginHandoff_spec rc c p z sp rp req :
  coordinator_ok rc →
  match tryBeginHandoff rc c p z sp rp req with
  | Ret (Some h, rc') => coordinator_ok rc' ∧ handoffs rc !! c = None ∧ handoffs rc' = <[c := h]> (handoffs rc) ∧ handoff_step h = LeaveSource
  | Ret (None, rc') => coordinator_ok rc' ∧ handoffs rc' = handoffs rc
  | Throw e => e = OverflowError
  end.
Proof.
  intros Hok. pose proof (tryBeginHandoff_ok rc c p z sp rp req) as Hok'.
  destruct (tryBeginHandoff rc c p z sp rp req) as [[[h|] rc']|e] eqn:E; [specialize (Hok' _ _ Hok eq_refl)..|];
    unfold tryBeginHandoff in E; destruct (routes rc !! c) as [x|]; try done; try (by injection E as <-);
    destruct (_ || _) eqn:Eg; try done; try (by injection E as <-);
    destruct (next_epoch rc p) as [[e' rc1]|] eqn:En; simpl in E; try done.
  - to_prop. match goal with H : in_transition _ _ = false |- _ => apply in_transition_false in H as (T1 & _) end.
    destruct (epochs_range _ _ _ _ Hok En) as (_ & E1 & _). injection E as <- <-. split_and!; try done. simpl. by rewrite E1.
  - injection E as <-. by apply next_epoch_throws in En.
Qed.

Lemma rollback_spec rc c h :
  coordinator_ok rc → handoffs rc !! c = Some h → handoff_step h = LeaveSource →
  ∃ rc', rollbackHandoffBeforeLeave rc c (handoff_id h) = (true, rc') ∧ coordinator_ok rc' ∧ handoffs rc' = delete c (handoffs rc).
Proof.
  intros Hok Hh Hst. pose proof (rollbackHandoff_ok rc c (handoff_id h) Hok) as Hok'. unfold rollbackHandoffBeforeLeave in *.
  rewrite (findHandoff_of _ _ _ Hh), Hst in *. by eexists.
Qed.

Lemma failHandoff_run now s c x h status :
  coordinator_ok (coordinator s) → active (handoff_service s) !! c = Some x → handoffs (coordinator s) !! c = Some h →
  handoff_step h = LeaveSource →
  ∃ es s', failHandoffBeforeSourceLeave now c (handoff_id h) status s = (Ret tt, es, s') ∧
    ended c (active_ticket x) s s' ∧ posted es = [].
Proof.
  intros Hok Hx Hh Hst. destruct (rollback_spec _ _ _ Hok Hh Hst) as (rc' & E & Hok' & Hd).
  unfold failHandoffBeforeSourceLeave, handoffFor, find_active, mbind, M_bind, gets, on_routes.
  rewrite Hh, Hx, Z.eqb_refl. cbn [negb]. rewrite E. cbn [negb]. simpl. do 2 eexists. split; [reflexivity|]. split; [|done].
  by constructor.
Qed.

Section start.
Context (s : Server) (fl : list ZoneInboundCommand) (a : Abs) (now : time_point).
Context (Hb : base_ok s a) (Hnc : a_cancelled a = false) (Hl : live_ok None s fl a).
Context (c : ConnectionId) (h : ZoneHandoff) (rc1 : RouteCoordinator).
Context (Hok1 : coordinator_ok rc1) (Hnone : handoffs (coordinator s) !! c = None)
        (Hh1 : handoffs rc1 = <[c := h]> (handoffs (coordinator s))).

Lemma start_inactive : active (handoff_service s) !! c = None.
Proof using Hl Hnone.
  pose proof (lv_conn _ _ _ _ Hl c) as Hc. unfold conn_ok in Hc. rewrite Hnone in Hc. by destruct (active _ !! c).
Qed.

(** A handoff begun, with its ticket, before its first stage. *)
Lemma start_hole t ch1 s2 :
  tryReserve (zone_transitions s) (handoff_id h) = (Some t, ch1) →
  coordinator s2 = rc1 → zone_transitions s2 = ch1 →
  active (handoff_service s2) = <[c := mkActive t false now]> (active (handoff_service s)) → frame s s2 →
  ∃ a1, base_ok s2 a1 ∧ a_cancelled a1 = false ∧ a_queue a1 = a_queue a ∧ live_ok (Some c) s2 fl a1.
Proof using Hb Hnc Hl Hok1 Hnone Hh1.
  intros Hres E1 E2 E3 [Ft Fc Fs]. pose proof start_inactive as Hin.
  destruct (tryReserve_sim _ _ (handoff_id h) (bs_sim _ _ Hb)) as [Hr1 Hr2]. rewrite Hres in Hr1, Hr2. simpl in Hr1, Hr2.
  exists (a_reserve a (handoff_id h)).2. unfold a_reserve in *.
  destruct (_ || _) eqn:Eg; [done|]. cbn [fst snd] in *. injection Hr1 as ->.
  pose proof (bs_sim _ _ Hb) as Hsim. set (t := a_next a) in *.
  assert (Hfresh : a_reserved a !! t = None).
  { destruct (a_reserved a !! t) eqn:E; [|done]. apply (sim_tickets _ _ Hsim) in E. lia. }
  pose proof Hl as [Hc Hnd Ho Hr Hi Hh].
  assert (Hnot : ∀ c' x', active (handoff_service s) !! c' = Some x' → active_ticket x' ≠ t).
  { intros c' x' Hx' E. destruct (conn_ok_both _ _ _ _ _ _ (Hc c') Hx') as (? & _ & Hr' & _). congruence. }
  split_and!; try done.
  - constructor; try done; [by rewrite E1|by rewrite E2|rewrite Fs; apply Hb|rewrite Ft; apply Hb|].
    cbn [a_cancelled]. rewrite Hnc. done.
  - constructor; cbn [a_queue a_reserved]; rewrite ?E3; try done.
    + intros c'. specialize (Hc c'). unfold conn_ok in *. rewrite E1, E3, Hh1. cbn [a_queue a_reserved].
      destruct (decide (c = c')) as [<-|Hne].
      * rewrite !lookup_insert_eq, decide_True by done. cbn [active_ticket]. split; [done|].
        intros Hin'. destruct (Ho _ Hin') as (c' & x' & Hx' & E). by apply (Hnot c' x').
      * rewrite !lookup_insert_ne by done. destruct (active (handoff_service s) !! c') as [x'|] eqn:Ex'; [|done].
        destruct (handoffs _ !! c') as [h'|]; [|done]. destruct Hc as [Hc1 Hc2]. rewrite decide_False in Hc2 by done.
        rewrite decide_False by congruence. rewrite lookup_insert_ne; [done|]. intros E. by apply (Hnot c' x').
    + intros u Hu. destruct (Ho u Hu) as (c' & x' & Hx' & <-). exists c', x'. split; [|done].
      rewrite lookup_insert_ne; [done|]. intros <-. congruence.
    + intros u p [[<- _]|[_ Hu]]%lookup_insert_Some; [exists c, (mkActive t false now); split; [apply lookup_insert_eq|done]|].
      destruct (Hr u p Hu) as (c' & x' & Hx' & <-). exists c', x'. split; [|done].
      rewrite lookup_insert_ne; [done|]. intros <-. congruence.
    + intros c1 c2 x1 x2 [[<- <-]|[_ H1]]%lookup_insert_Some [[<- <-]|[_ H2]]%lookup_insert_Some E; try done.
      * exfalso. by apply (Hnot c2 x2).
      * exfalso. by apply (Hnot c1 x1).
      * by eapply Hi.
Qed.
End start.

(** A call that refused the handoff. *)
Ltac untouched s fl a Hb Hl Hok Hh Hsim :=
  match goal with |- ∃ a', base_ok ?s' a' ∧ _ =>
    destruct (untouched_ok s s' fl a Hb (fun _ => Hl) Hok Hh eq_refl Hsim) as [Hb' Hl']; [by constructor|];
    exists a; simpl; rewrite app_nil_r; split; [exact Hb'|exact Hl']
  end.

Lemma tryStart_ok accept now c req player target requested source s fl a :
  base_ok s a → (a_cancelled a = false → live_ok None s fl a) →
  match tryStart (fun s c => Ret (accept s c)) now c req player target requested source s with
  | (Ret _, es, s') => ∃ a', base_ok s' a' ∧ (a_cancelled a' = false → live_ok None s' (fl ++ posted es) a')
  | (Throw e, _, _) => e = OverflowError
  end.
Proof.
  intros Hb Hl. unfold tryStart. unfold mbind at 1, M_bind at 1, gets at 1.
  assert (Hsame : ∃ a', base_ok s a' ∧ (a_cancelled a' = false → live_ok None s (fl ++ posted []) a')).
  { exists a. simpl. by rewrite app_nil_r. }
  destruct (handoff_admission_closed (handoff_service s)) eqn:Ecl; [exact Hsame|].
  assert (Hnc : a_cancelled a = false).
  { destruct (a_cancelled a) eqn:Ec; [|done]. destruct (bs_closed _ _ Hb Ec) as [? _]. congruence. }
  specialize (Hl Hnc). unfold mbind at 1, M_bind at 1, gets at 1.
  destruct (locationFor (sessions s) c) as [l|]; [|exact Hsame]. destruct (loc_zone l =? route_zone source); [|exact Hsame].
  cbn [negb]. unfold mbind at 1, M_bind at 1, on_routes_throwing.
  pose proof (tryBeginHandoff_spec (coordinator s) c player target (loc_position l) requested req (bs_coord _ _ Hb)) as Hspec.
  destruct (tryBeginHandoff _ _ _ _ _ _ _) as [[[h|] rc1]|e]; [|destruct Hspec as [Hok1 Hh1]|exact Hspec].
  2:{ simpl. untouched s fl a Hb Hl Hok1 Hh1 (bs_sim _ _ Hb). }
  destruct Hspec as (Hok1 & Hnone & Hh1 & Hst). unfold mbind at 1, M_bind at 1, on_zone_transitions.
  cbn [zone_transitions set_coordinator].
  assert (Hlook : handoffs rc1 !! c = Some h) by (rewrite Hh1; apply lookup_insert_eq).
  destruct (tryReserve (zone_transitions s) (handoff_id h)) as [[t|] ch1] eqn:Eres.
  2:{ destruct (tryReserve_sim _ _ (handoff_id h) (bs_sim _ _ Hb)) as [R1 R2]. rewrite Eres in R1, R2. simpl in R1, R2.
      assert ((a_reserve a (handoff_id h)).2 = a) as Ea by (unfold a_reserve in *; destruct (_ || _); done). rewrite Ea in R2.
      destruct (rollback_spec _ _ _ Hok1 Hlook Hst) as (rc2 & E & Hok2 & Hd). unfold on_routes, mbind, M_bind. simpl. rewrite E. simpl.
      assert (Hh2 : handoffs rc2 = handoffs (coordinator s)) by (rewrite Hd, Hh1; by apply delete_insert_id).
      untouched s fl a Hb Hl Hok2 Hh2 R2. }
  pose proof (start_inactive s fl a Hl c Hnone) as Hin.
  unfold mbind at 1, M_bind at 1, rethrowing. unfold mbind at 1, M_bind at 1, gets at 1.
  cbn [handoff_service set_zone_transitions set_coordinator]. rewrite Hin. cbn [has_value].
  unfold mbind at 1, M_bind at 1, set_active at 1, modify at 1.
  match goal with |- context [(postStage _ h LeaveSource ≫= _) ?x] => set (s2 := x) end.
  destruct (start_hole s fl a now Hb Hnc Hl c h rc1 Hok1 Hnone Hh1 t ch1 s2 Eres eq_refl eq_refl eq_refl ltac:(by constructor))
    as (a1 & Hb1 & Hnc1 & _ & Hl1).
  assert (Hx2 : active (handoff_service s2) !! c = Some (mkActive t false now)) by apply lookup_insert_eq.
  destruct (postStage_run accept s2 c _ h _ _ Hx2 (handoff_of _ _ _ (bs_coord _ _ Hb1) Hlook)
              ltac:(intros; by apply last_nonneg, (bs_coord _ _ Hb1))) as (r & es & Ep & Hcase).
  rewrite Hst in Ep. unfold mbind, M_bind. rewrite Ep. destruct Hcase as [(-> & cmd & Hp & Hcmd)|(Hr & Hp)].
  - rewrite bool_decide_true by done. simpl. exists a1. split; [exact Hb1|]. intros _.
    rewrite !app_nil_r, Hp. apply (hole_post s2 s2 fl a1 c _ Hl1 Hx2 h h cmd Hlook); try done. simpl. by rewrite insert_id.
  - rewrite bool_decide_false by done. cbn [negb when].
    destruct (failHandoff_run now s2 c _ h TransferFailed (bs_coord _ _ Hb1) Hx2 Hlook Hst) as (es2 & s3 & Ef & Hen & Hp2).
    rewrite Ef. simpl. rewrite ?app_nil_r.
    destruct (handled_ok c _ h s2 fl a1 (es ++ es2) s3 Hb1 Hnc1 Hl1 Hx2 Hlook) as (a3 & Hb3 & _ & Hl3 & _).
    { left. by rewrite posted_app, Hp, Hp2. }
    exists a3. by split.
Qed.

Lemma completion_valid h t cmd context result :
  stage_of h t cmd → inbound_handoff cmd = Some context → isValidCompletion h (stage_completion cmd context result) = true.
Proof.
  intros (zone & epoch & command & E & ->) [= <-]. unfold isValidCompletion, stage_completion. simpl.
  rewrite !bool_decide_true by done. simpl. unfold stage_command in E.
  destruct (handoff_step h); try (injection E as <- <- <-; by rewrite !Z.eqb_refl);
    destruct (restore_epoch h =? 0); try done; injection E as <- <- <-; by rewrite !Z.eqb_refl.
Qed.

(** The stage in flight under a ticket is the one its handoff waits for. *)
Lemma in_flight_owner s fl a cmd context :
  live_ok None s fl a → cmd ∈ fl → inbound_handoff cmd = Some context →
  ∃ c x h, active (handoff_service s) !! c = Some x ∧ active_ticket x = context_ticket context ∧
    handoffs (coordinator s) !! c = Some h ∧ a_reserved a !! context_ticket context = Some (handoff_id h, false) ∧
    stage_of h (context_ticket context) cmd ∧ context_ticket context ∉ (a_queue a).*1.
Proof.
  intros [Hc Hnd Ho Hr Hi Hh] Hin Hctx. assert (Ht : cmd_ticket cmd = context_ticket context) by (unfold cmd_ticket; by rewrite Hctx).
  destruct (Ho (cmd_ticket cmd)) as (c & x & Hx & Et); [apply elem_of_app; left; by apply list_elem_of_fmap_2|].
  destruct (conn_ok_both _ _ _ _ _ _ (Hc c) Hx) as (h & Hhc & Hres & Hst). rewrite decide_False in Hst by done.
  rewrite Et, Ht in Hres, Hst. apply NoDup_app in Hnd as (Hnd & Hdis & _).
  assert (Hnq : context_ticket context ∉ (a_queue a).*1).
  { rewrite <-Ht. apply Hdis. by apply list_elem_of_fmap_2. }
  exists c, x, h. split_and!; try done; [congruence|].
  destruct Hst as [(cmd' & Hin' & Hst)|(cpl & Hcpl & _)].
  - apply list_elem_of_lookup in Hin as [i Hi1]. apply list_elem_of_lookup in Hin' as [j Hj].
    assert (i = j) as <-; [|congruence]. eapply (NoDup_lookup _ _ _ (context_ticket context) Hnd).
    + rewrite list_lookup_fmap, Hi1. simpl. by rewrite Ht.
    + rewrite list_lookup_fmap, Hj. simpl. by rewrite (stage_ticket _ _ _ Hst).
  - exfalso. apply Hnq. change (context_ticket context) with (context_ticket context, cpl).1. by apply list_elem_of_fmap_2.
Qed.

Lemma execute_ok i result now sys a :
  system_ok sys a →
  ∃ a', system_ok (execute i result now sys) a' ∧ a_cancelled a' = a_cancelled a ∧
    (a_cancelled a = false → (i < length (in_flight sys))%nat →
     work (in_flight (execute i result now sys)) (a_queue a') < work (in_flight sys) (a_queue a)).
Proof.
  intros (Hb & Hf & Hl). unfold execute. destruct (in_flight sys !! i) as [cmd|] eqn:Ei.
  2:{ exists a. split_and!; try done. intros _ Hlt. apply lookup_ge_None in Ei. lia. }
  pose proof (list_elem_of_lookup_2 _ _ _ Ei) as Hin.
  destruct (inbound_handoff cmd) as [context|] eqn:Ectx.
  2:{ exists a. split_and!; try done. intros Hnc _. destruct (lv_handoff _ _ _ _ (Hl Hnc) cmd Hin). congruence. }
  set (cpl := stage_completion cmd context result).
  destruct (publish_sim completion_handoff_id _ _ (context_ticket context) cpl now (bs_sim _ _ Hb)) as [P1 P2].
  destruct (publish completion_handoff_id _ _ cpl now) as [ok ch'] eqn:Ep. simpl in P1, P2.
  rewrite (proj1 (sim_cancelled _ _ (bs_sim _ _ Hb))).
  destruct (a_cancelled a) eqn:Ec.
  - assert (a_publish completion_handoff_id a (context_ticket context) cpl = (false, a)) as Ea.
    { unfold a_publish. by rewrite (proj2 (sim_cancelled _ _ (bs_sim _ _ Hb)) Ec), lookup_empty. }
    rewrite Ea in P1, P2. simpl in P1, P2. subst ok. exists a. rewrite Hf. simpl. split; [|done].
    split; [destruct Hb as [B1 B2 B3 Bt B4]; by constructor|]. split; [done|]. by rewrite Ec.
  - pose proof (Hl eq_refl) as Hlive.
    destruct (in_flight_owner _ _ _ _ _ Hlive Hin Ectx) as (c & x & h & Hx & Ht & Hh & Hres & Hst & Hnq).
    pose proof (completion_valid h _ cmd context result Hst Ectx) as Hv. fold cpl in Hv.
    assert (Hid : handoff_id h = completion_handoff_id cpl).
    { unfold isValidCompletion in Hv. to_prop. by rewrite !bool_decide_eq_true in *. }
    assert (a_publish completion_handoff_id a (context_ticket context) cpl =
            (true, a_set (a_queue a ++ [(context_ticket context, cpl)]) (a_reserved a) a)) as Ea.
    { unfold a_publish. by rewrite Hres, Hid, Z.eqb_refl, bool_decide_false by done. }
    rewrite Ea in P1, P2. simpl in P1. subst ok. simpl in P2.
    exists (a_set (a_queue a ++ [(context_ticket context, cpl)]) (a_reserved a) a). split; [split; [|split]|split; [exact Ec|]].
    + destruct Hb as [B1 B2 B3 Bt B4]. by constructor.
    + simpl. by rewrite Hf.
    + intros _. destruct Hlive as [Hc Hnd Ho Hr Hi Hh'].
      pose proof (delete_Permutation _ _ _ Ei) as Hperm.
      assert (Hout : outstanding (delete i (in_flight sys)) (a_queue a ++ [(context_ticket context, cpl)]) ≡ₚ
                     outstanding (in_flight sys) (a_queue a)).
      { unfold outstanding. rewrite fmap_app. simpl. rewrite app_assoc, <-Permutation_cons_append.
        rewrite (fmap_Permutation cmd_ticket _ _ Hperm). simpl. by rewrite (stage_ticket _ _ _ Hst). }
      constructor; cbn [server in_flight set_zone_transitions handoff_service coordinator a_set a_queue a_reserved];
        rewrite ?Hout; try done.
      * intros c'. specialize (Hc c'). unfold conn_ok in *.
        cbn [server set_zone_transitions handoff_service coordinator a_set a_queue a_reserved].
        destruct (active _ !! c') as [x'|] eqn:Ex'; [|done]. destruct (handoffs _ !! c') as [h'|] eqn:Eh'; [|done].
        destruct Hc as [Hc1 Hc2]. split; [done|]. rewrite decide_False in Hc2 |- * by done.
        destruct (decide (c = c')) as [<-|Hne].
        -- assert (x' = x) as -> by congruence. assert (h' = h) as -> by congruence. right. exists cpl. split; [|done].
           apply elem_of_app. right. rewrite Ht. left.
        -- destruct Hc2 as [(cmd' & Hin' & Hst')|(cpl' & Hcpl' & Hv')].
           ++ left. exists cmd'. split; [|done]. rewrite Hperm in Hin'. apply elem_of_cons in Hin' as [->|]; [|done].
              exfalso. apply Hne, (Hi c c' x x' Hx Ex'). rewrite Ht, <-(stage_ticket _ _ _ Hst). apply (stage_ticket _ _ _ Hst').
           ++ right. exists cpl'. split; [|done]. apply elem_of_app. by left.
      * intros t. rewrite Hout. apply Ho.
      * intros cmd' Hcmd'. apply Hh'. rewrite Hperm. by right.
    + intros _ _. assert (completion_weight (context_ticket context, cpl) = 2 * Z.of_nat (rank (handoff_step h)) + 1) as Hw.
      { unfold completion_weight. cbn [snd]. by rewrite (completion_step_of _ _ Hv). }
      unfold work. cbn [in_flight a_set a_queue]. rewrite zsum_app, (zsum_delete cmd_weight _ _ _ Ei). cbn [zsum].
      rewrite Hw, (stage_weight _ _ _ Hst). lia.
Qed.

(** The loop of [cancel] over the active handoffs. *)
Lemma cancel_loop (l : list (ConnectionId * ActiveHandoff)) s :
  coordinator_ok (coordinator s) →
  ∃ s', mapM_ (fun '(c, _) => _ ← noteLocation_ c None; abandon_ c) l s = (Ret tt, [], s') ∧
    zone_transitions s' = zone_transitions s ∧ handoff_service s' = handoff_service s ∧ coordinator_ok (coordinator s') ∧
    (∀ c, handoffs (coordinator s') !! c = if bool_decide (c ∈ l.*1) then None else handoffs (coordinator s) !! c).
Proof.
  revert s. induction l as [|[c x] l IH]; intros s Hok; [by exists s|].
  cbn [mapM_]. unfold mbind at 1, M_bind at 1. unfold mbind at 1, M_bind at 1. cbn [noteLocation_ on_sessions abandon_ on_routes].
  match goal with |- context [mapM_ _ l ?s1] => destruct (IH s1) as (s' & E & E1 & E2 & Hok' & Hl); [by apply abandon_ok|] end.
  exists s'. unfold mbind, M_bind in E. unfold mbind, M_bind. rewrite E. split_and!; try done.
  intros c'. rewrite Hl. cbn [coordinator set_coordinator set_sessions fmap list_fmap fst]. rewrite abandon_handoffs. destruct (decide (c = c')) as [<-|Hne].
  - rewrite lookup_delete_eq, (bool_decide_true (c ∈ c :: l.*1)) by left. by case_bool_decide.
  - rewrite lookup_delete_ne by done. do 2 case_bool_decide; try done; exfalso;
      [by match goal with H : _ ∉ _ :: _ |- _ => apply H; right end|].
    match goal with H : _ ∈ _ :: _ |- _ => apply elem_of_cons in H as [->|] end; done.
Qed.

Lemma release_loop (l : list (ConnectionId * ActiveHandoff)) s :
  ∃ es, mapM_ (fun '(c, _) => emit (CommandReleased c)) l s = (Ret tt, es, s) ∧ posted es = [].
Proof.
  induction l as [|[c x] l (es & E & Hp)]; [by exists []|]. exists (CommandReleased c :: es). split; [|done].
  cbn [mapM_]. unfold mbind, M_bind in *. unfold emit at 1. by rewrite E.
Qed.

Lemma handoff_cancel_ok sys a :
  system_ok sys a → ∃ sys' a', call handoff_cancel sys = Ret sys' ∧ system_ok sys' a'.
Proof.
  intros (Hb & Hf & Hl). unfold call, handoff_cancel. cbv zeta.
  unfold mbind at 1, M_bind at 1, handoff_close at 1, modify at 1. set (s1 := set_handoff_service _ _).
  unfold mbind at 1, M_bind at 1, on_zone_transitions at 1. unfold mbind at 1, M_bind at 1, gets at 1.
  unfold mbind at 1, M_bind at 1, count_handoff at 1, modify at 1. unfold mbind at 1, M_bind at 1.
  match goal with |- context [mapM_ _ ?l ?s2] =>
    destruct (cancel_loop l s2 ltac:(simpl; apply Hb)) as (s3 & E3 & F1 & F2 & Hok3 & Hh3) end.
  rewrite E3. unfold mbind at 1, M_bind at 1, set_active at 1, modify at 1.
  match goal with |- context [mapM_ (fun '(c, _) => emit _) ?l ?s4] =>
    destruct (release_loop l s4) as (es & E5 & Hp5) end.
  rewrite E5. eexists. exists (a_cancel a). split; [reflexivity|]. cbn [app]. rewrite Hp5, app_nil_r.
  assert (Hempty : handoffs (coordinator s3) = ∅).
  { apply map_eq. intros c. rewrite Hh3, lookup_empty. case_bool_decide as Hin; [done|]. simpl.
    destruct (handoffs (coordinator (server sys)) !! c) as [h|] eqn:Eh; [|done]. exfalso. apply Hin.
    destruct (a_cancelled a) eqn:Ec; [destruct (bs_closed _ _ Hb Ec) as (_ & _ & E); by rewrite E in Eh|].
    pose proof (lv_conn _ _ _ _ (Hl eq_refl) c) as Hc. unfold conn_ok in Hc. rewrite Eh in Hc.
    destruct (active _ !! c) as [x|] eqn:Ex; [|done]. simpl. apply elem_of_map_to_list in Ex.
    change c with (c, x).1. by apply list_elem_of_fmap_2. }
  split; [|by split]. constructor; simpl.
  - done.
  - rewrite F1. simpl. apply cancel_sim, Hb.
  - unfold stale. simpl. rewrite F2. simpl. apply Hb.
  - rewrite F2. simpl. apply Hb.
  - intros _. split_and!; [by rewrite F2|done|done].
Qed.

Lemma outside_handoffs_keeps rc op :
  coordinator_ok rc → outside_handoffs rc op = true → handoffs (route_step rc op).2 = handoffs rc.
Proof.
  assert (Hn : ∀ p e rc1, next_epoch rc p = Ret (e, rc1) → handoffs rc1 = handoffs rc).
  { intros p e rc1. unfold next_epoch. intros [_ [= _ <-]]%throw_if_ret. done. }
  intros Hok Ho. destruct op; simpl in *; try done.
  - unfold tryEnter. repeat (split_if; [done|]). destruct (routes rc !! c); [by split_if|].
    destruct (next_epoch rc player) as [[e rc1]|] eqn:En; simpl; [|done]. by eapply Hn.
  - unfold rollbackEnter, erase_route. by repeat split_if.
  - unfold tryBeginRoomEntry. destruct (routes rc !! c); [|done]. by split_if.
  - unfold noteRoomSnapshotReady. destruct (findRoomEntry rc c id); [|done]. by split_if.
  - unfold noteRoomJoined. destruct (findRoomEntry rc c id); [|done]. by split_if.
  - unfold completeRoomEntry. by destruct (findRoomEntry rc c id).
  - unfold rollbackRoomEntryBeforeLeave. by destruct (findRoomEntry rc c id).
  - unfold tryBeginRoomReturn. destruct (in_rooms rc !! c) as [s|]; [|done]. split_if; [done|].
    destruct (next_epoch rc (in_room_player s)) as [[e rc1]|] eqn:En; simpl; [|done]. by eapply Hn.
  - unfold completeRoomReturn. by destruct (findRoomReturn rc c id).
  - unfold abandonRoomReturn. by destruct (findRoomReturn rc c id).
  - unfold completeLeave, erase_route. by repeat split_if.
  - change (handoffs (RouteCoordinator.abandon rc c) = handoffs rc). rewrite abandon_handoffs. destruct (handoffs rc !! c) eqn:E; [done|]. by apply delete_id.
Qed.

(** Marking a connection as disconnecting keeps its ticket. *)
Lemma disconnect_ok c sys a : system_ok sys a → ∃ sys', call (noteDisconnect c) sys = Ret sys' ∧ system_ok sys' a.
Proof.
  intros (Hb & Hf & Hl). unfold call, noteDisconnect, find_active, mbind, M_bind, gets.
  destruct (active (handoff_service (server sys)) !! c) as [x|] eqn:Ex; simpl.
  2:{ eexists. split; [reflexivity|]. by rewrite app_nil_r. }
  eexists. split; [reflexivity|]. rewrite app_nil_r. destruct Hb as [B1 B2 B3 Bt B4]. split; [|split; [done|]].
  - constructor; try done. intros Hc. destruct (B4 Hc) as (? & E & ?). rewrite E, lookup_empty in Ex. done.
  - intros Hnc. destruct (Hl Hnc) as [Hc Hnd Ho Hr Hi Hh].
    assert (Hsame : ∀ c' x', <[c := mkActive (active_ticket x) true (active_started_at x)]> (active (handoff_service (server sys))) !! c' = Some x' →
              ∃ y, active (handoff_service (server sys)) !! c' = Some y ∧ active_ticket y = active_ticket x').
    { intros c' x' [[<- <-]|[_ Hx']]%lookup_insert_Some; eauto. }
    assert (Hback : ∀ c' y, active (handoff_service (server sys)) !! c' = Some y → ∃ x',
              <[c := mkActive (active_ticket x) true (active_started_at x)]> (active (handoff_service (server sys))) !! c' = Some x' ∧
              active_ticket x' = active_ticket y).
    { intros c' y Hy. destruct (decide (c = c')) as [<-|]; [|rewrite lookup_insert_ne by done; eauto].
      rewrite lookup_insert_eq. eexists. split; [reflexivity|]. simpl. congruence. }
    constructor; simpl; try done.
    + intros c'. specialize (Hc c'). unfold conn_ok in *. simpl. destruct (decide (c = c')) as [<-|].
      * rewrite lookup_insert_eq. rewrite Ex in Hc. exact Hc.
      * by rewrite lookup_insert_ne.
    + intros t Ht. destruct (Ho t Ht) as (c' & y & Hy & <-). destruct (Hback c' y Hy) as (x' & ? & ?). eauto.
    + intros t p Ht. destruct (Hr t p Ht) as (c' & y & Hy & <-). destruct (Hback c' y Hy) as (x' & ? & ?). eauto.
    + intros c1 c2 x1 x2 H1 H2 E. destruct (Hsame _ _ H1) as (y1 & ? & ?), (Hsame _ _ H2) as (y2 & ? & ?).
      eapply Hi; [done|done|congruence].
Qed.

Lemma call_untouched {A} (m : M A) sys a es r s' :
  system_ok sys a → m (server sys) = (Ret r, es, s') → posted es = [] →
  coordinator s' = coordinator (server sys) → active (handoff_service s') = active (handoff_service (server sys)) →
  zone_transitions s' = zone_transitions (server sys) → frame (server sys) s' →
  ∃ sys', call m sys = Ret sys' ∧ system_ok sys' a.
Proof.
  intros (Hb & Hf & Hl) E Hp E1 E2 E3 Hfr. unfold call. rewrite E, Hp, app_nil_r. eexists. split; [reflexivity|].
  destruct (untouched_ok (server sys) s' (in_flight sys) a Hb Hl) as [Hb' Hl']; try done; rewrite ?E1, ?E3; try done; apply Hb.
Qed.

Lemma hstep_ok sys a op : system_ok sys a →
  match hstep sys op with
  | Ret sys' => ∃ a', system_ok sys' a'
  | Throw e => e = OverflowError
  end.
Proof.
  intros Hok. pose proof Hok as (Hb & Hf & Hl). destruct op as [accept now c req player target requested source|c req kind|c|i result now|accept now|op|op| |]; cbn [hstep].
  - unfold call. pose proof (tryStart_ok accept now c req player target requested source _ _ a Hb Hl) as H.
    destruct (tryStart _ _ _ _ _ _ _ _ _) as [[[r|e] es] s']; [|exact H]. destruct H as (a' & ? & ?). by exists a'.
  - destruct (handoffFor (coordinator (server sys)) c) as [h|] eqn:E.
    + destruct (call_untouched (tryReplyTransitionInProgress c req kind) sys a
                  [ReplyZone c (route_player (handoff_source h)) (target_zone h) (target_epoch h) (requested_target_position h)
                     req kind TransitionInProgress; CommandReleased c] true
                  (count_handoff TransitionBusyReplies 1 (server sys)).2 Hok) as (sys' & -> & ?); try done; [|by exists a].
      unfold tryReplyTransitionInProgress, mbind, M_bind, gets. rewrite E. reflexivity.
    + destruct (call_untouched (tryReplyTransitionInProgress c req kind) sys a [] false (server sys) Hok) as (sys' & -> & ?);
        try done; [|by exists a].
      unfold tryReplyTransitionInProgress, mbind, M_bind, gets. rewrite E. reflexivity.
  - destruct (disconnect_ok c sys a Hok) as (sys' & -> & ?). by exists a.
  - destruct (execute_ok i result now sys a Hok) as (a' & ? & _). by exists a'.
  - unfold call. pose proof (drain_ok accept now _ _ a Hb Hl) as H.
    destruct (drain _ _ _) as [[[r|e] es] s']; [|exact H]. destruct H as (a' & ? & ? & _). by exists a'.
  - destruct (outside_handoffs _ op) eqn:Eo; [|by exists a]. exists a.
    pose proof (outside_handoffs_keeps _ _ (bs_coord _ _ Hb) Eo) as Hh. pose proof (route_step_ok _ op (bs_coord _ _ Hb)) as Hok1.
    destruct (untouched_ok (server sys) (set_coordinator (route_step (coordinator (server sys)) op).2 (server sys)) (in_flight sys) a Hb Hl)
      as [Hb' Hl']; try done. apply Hb.
  - exists a. destruct (untouched_ok (server sys) (set_sessions (directory_step (sessions (server sys)) op) (server sys)) (in_flight sys) a Hb Hl)
      as [Hb' Hl']; try done; apply Hb.
  - unfold call. simpl. exists a. rewrite app_nil_r. destruct Hb as [B1 B2 B3 Bt B4]. split; [|split; [done|]].
    + constructor; try done. intros Hc. destruct (B4 Hc) as (_ & ? & ?). done.
    + intros Hnc. destruct (Hl Hnc). by constructor.
  - destruct (handoff_cancel_ok sys a Hok) as (sys' & a' & -> & ?). by exists a'.
Qed.

Lemma hrun_ok ops sys a : system_ok sys a →
  match hrun sys ops with Ret sys' => ∃ a', system_ok sys' a' | Throw e => e = OverflowError end.
Proof.
  revert sys a. induction ops as [|op ops IH]; intros sys a Hok; cbn [hrun]; [by exists a|].
  pose proof (hstep_ok sys a op Hok) as H. destruct (hstep sys op) as [sys1|e]; [|exact H].
  destruct H as [a1 H1]. exact (IH sys1 a1 H1).
Qed.

(** A server as the constructors leave it. *)
Definition fresh_server (max capacity fd turn : Z) (d : PlayerSessionDirectory) (rooms : RoomTransitionChannel)
    (entries : RoomEntryService) : outcome HandoffSystem :=
  let! rc := makeRouteCoordinator max in
  let! ch := makeChannel capacity fd in
  let! service := makeZoneHandoffService ch turn in
  Ret (mkSystem (mkServer d rc ch rooms service entries) [] false).

Lemma fresh_server_ok max capacity fd turn d rooms entries sys :
  0 <= max → 0 <= capacity → 0 <= turn →
  fresh_server max capacity fd turn d rooms entries = Ret sys → system_ok sys (a_init capacity).
Proof.
  intros Hm Hc Ht. unfold fresh_server. destruct (makeRouteCoordinator max) as [rc|] eqn:E1; simpl; [|done].
  destruct (makeChannel capacity fd) as [ch|] eqn:E2; simpl; [|done].
  destruct (makeZoneHandoffService ch turn) as [service|] eqn:E3; simpl; [|done]. intros [= <-].
  pose proof (makeChannel_sim capacity fd ch Hc E2) as Hsim.
  apply throw_if_ret in E3 as [Eg [= <-]]. to_prop.
  assert (Hrc : coordinator_ok rc ∧ handoffs rc = ∅).
  { split; [by apply (makeRouteCoordinator_ok max rc Hm E1)|]. apply throw_if_ret in E1 as [_ [= <-]]. done. }
  destruct Hrc as [Hok Hh]. split; [|split; [done|]].
  - constructor; simpl; try done. lia.
  - intros _. constructor; simpl; try done.
    + intros c. unfold conn_ok. simpl. by rewrite lookup_empty, Hh, lookup_empty.
    + constructor.
    + intros t Hin. by apply elem_of_nil in Hin.
    + intros cmd Hin. by apply elem_of_nil in Hin.
Qed.

(** ** Theorems *)

(** C36: handoffs never get stuck.  From a fresh server, through every
    interleaving of new handoffs, actors that answer with any result, turns of
    the network thread, disconnects, posts that are refused, operations on other
    routes and sessions, and shutdown: no call fails (short of 2^64 epochs for
    one player), no completion is lost or found stale, and until shutdown every
    handoff of the coordinator is active in the service and waits for exactly
    one stage, the one of its current step, which is with an actor or in the
    channel. *)
Theorem handoffs_never_stuck max capacity fd turn d rooms entries sys0 ops :
  0 <= max → 0 <= capacity → 0 <= turn → fresh_server max capacity fd turn d rooms entries = Ret sys0 →
  match hrun sys0 ops with
  | Throw e => e = OverflowError
  | Ret sys =>
      let s := server sys in
      let q := queued_completions (zone_transitions s) in
      publish_failed sys = false ∧ stale s = 0 ∧
      (chan_cancelled (zone_transitions s) = false →
       NoDup (outstanding (in_flight sys) q) ∧
       (∀ c, is_Some (active (handoff_service s) !! c) ↔ is_Some (handoffs (coordinator s) !! c)) ∧
       ∀ c x h, active (handoff_service s) !! c = Some x → handoffs (coordinator s) !! c = Some h →
                has_stage (in_flight sys) q h (active_ticket x))
  end.
Proof.
  intros Hm Hc Ht Hf. pose proof (hrun_ok ops sys0 _ (fresh_server_ok _ _ _ _ _ _ _ _ Hm Hc Ht Hf)) as H.
  destruct (hrun sys0 ops) as [sys|e]; [|exact H]. destruct H as (a & Hb & Hpf & Hl). cbv zeta.
  rewrite (sim_contents _ _ (bs_sim _ _ Hb)), (proj1 (sim_cancelled _ _ (bs_sim _ _ Hb))).
  split; [done|]. split; [apply Hb|]. intros Hnc. specialize (Hl Hnc). split; [apply Hl|]. split.
  - intros c. pose proof (lv_conn _ _ _ _ Hl c) as Hcc. unfold conn_ok in Hcc.
    destruct (active _ !! c), (handoffs _ !! c); try done; (split; [by intros [? [=]]|by intros [? [=]]]).
  - intros c x h Hx Hh. pose proof (lv_conn _ _ _ _ Hl c) as Hcc. unfold conn_ok in Hcc.
    rewrite Hx, Hh, decide_False in Hcc by done. apply Hcc.
Qed.

(** Handoffs terminate.  In every reachable state before shutdown, while a
    handoff is active an actor has a stage to execute or the network thread a
    completion to handle; executing a stage, whatever the result, and a turn
    with something queued both strictly decrease [work], and without work no
    handoff is left and every ticket is free again. *)
Theorem handoffs_terminate max capacity fd turn d rooms entries sys0 ops sys :
  0 <= max → 0 <= capacity → 0 <= turn → fresh_server max capacity fd turn d rooms entries = Ret sys0 →
  hrun sys0 ops = Ret sys → chan_cancelled (zone_transitions (server sys)) = false →
  let pending sys := queued_completions (zone_transitions (server sys)) in
  let left sys := work (in_flight sys) (pending sys) in
  0 <= left sys ∧
  (left sys = 0 ↔ active (handoff_service (server sys)) = ∅) ∧
  (left sys = 0 → handoffs_drained (server sys) = true) ∧
  (∀ i result now, (i < length (in_flight sys))%nat → left (execute i result now sys) < left sys) ∧
  (∀ accept now, pending sys ≠ [] →
     match hstep sys (HDrain accept now) with Ret sys' => left sys' < left sys | Throw e => e = OverflowError end).
Proof.
  intros Hm Hc Ht Hf Hrun Hnc. pose proof (hrun_ok ops sys0 _ (fresh_server_ok _ _ _ _ _ _ _ _ Hm Hc Ht Hf)) as H.
  rewrite Hrun in H. destruct H as (a & Hok). pose proof Hok as (Hb & Hpf & Hl). cbv zeta beta.
  rewrite (proj1 (sim_cancelled _ _ (bs_sim _ _ Hb))) in Hnc. specialize (Hl Hnc).
  rewrite (sim_contents _ _ (bs_sim _ _ Hb)).
  destruct (work_zero (in_flight sys) (a_queue a) (lv_handoff _ _ _ _ Hl)) as [Hpos Hzero].
  assert (Hempty : work (in_flight sys) (a_queue a) = 0 ↔ active (handoff_service (server sys)) = ∅).
  { rewrite Hzero. split.
    - intros [Efl Eq]. apply map_eq. intros c. rewrite lookup_empty. destruct (active _ !! c) as [x|] eqn:Ex; [|done]. exfalso.
      destruct (conn_ok_both _ _ _ _ _ _ (lv_conn _ _ _ _ Hl c) Ex) as (h & _ & _ & Hst). rewrite decide_False in Hst by done.
      rewrite Efl, Eq in Hst. destruct Hst as [(? & Hin & _)|(? & Hin & _)]; by apply elem_of_nil in Hin.
    - intros E. pose proof (lv_owned _ _ _ _ Hl) as Ho. rewrite E in Ho. unfold outstanding in Ho.
      destruct (in_flight sys) as [|cmd fl]; [|destruct (Ho (cmd_ticket cmd)) as (? & ? & [=] & _); left].
      destruct (a_queue a) as [|[t cpl] q]; [done|]. destruct (Ho t) as (? & ? & [=] & _). left. }
  split_and!; [done|exact Hempty| | |].
  - intros Hw. pose proof (proj1 Hempty Hw) as Ea. apply Hzero in Hw as [_ Eq]. unfold handoffs_drained, drained.
    rewrite (sim_count _ _ (bs_sim _ _ Hb)), Eq, (sim_empty _ _ (bs_sim _ _ Hb)), bool_decide_true by done. simpl.
    apply bool_decide_eq_true. apply map_eq. intros t. rewrite lookup_empty. destruct (a_reserved a !! t) as [p|] eqn:Er; [|done].
    destruct (lv_reserved _ _ _ _ Hl t p Er) as (c & x & Hx & _). by rewrite Ea in Hx.
  - intros i result now Hi. destruct (execute_ok i result now sys a Hok) as (a' & (Hb' & _) & _ & Hlt).
    rewrite (sim_contents _ _ (bs_sim _ _ Hb')). by apply Hlt.
  - intros accept now Hq. cbn [hstep]. unfold call. pose proof (drain_ok accept now _ _ a Hb (fun _ => Hl)) as H.
    destruct (drain _ _ _) as [[[r|e] es] s']; [|exact H]. destruct H as (a' & Hb' & _ & Hlt). cbn [server in_flight].
    rewrite (sim_contents _ _ (bs_sim _ _ Hb')). apply Hlt; try done. apply Hb.
Qed.

(** ** Witnesses: a handoff whose target refuses, so that the player is put back *)

Definition demo_connection : ConnectionId := mkConnectionId 5 1.

Definition demo_directory : PlayerSessionDirectory :=
  directory_run empty_directory
    [DAttach demo_connection 7; DNoteLocation demo_connection (Some (mkPlayerLocation 3 (mkZonePosition 10 20)))].

Definition demo_rooms : RoomTransitionChannel :=
  mkRoomChannel (mkChannel 1 (makeRing 1) ∅ 1 (fun _ => 0) makeDistribution false) (makeRing 1) (fun _ => 0).

Definition demo_entries : RoomEntryService := mkEntryService 1 ∅ ∅ makeDistribution (fun _ => 0) false.

Definition demo_system : HandoffSystem :=
  mkSystem (mkServer demo_directory (mkCoordinator 4 ∅ ∅ ∅ ∅ ∅ ∅ 1 1 1 (fun _ => 0))
              (mkChannel 2 (makeRing 2) ∅ 1 (fun _ => 0) makeDistribution false) demo_rooms
              (mkHandoffService 1 ∅ makeDistribution (fun _ => 0) false) demo_entries) [] false.

Definition demo_accept : Server → RoutedCommand → PostResult := fun _ _ => Accepted.

Definition demo_result (status : ZoneCommandStatus) (x y : Z) : ZoneResult :=
  mkZoneResult status (Some 7) (Some (mkZonePosition x y)) 1 0 [] None.

(** Enter zone 3, move to zone 4, leave zone 3; zone 4 refuses. *)
Definition demo_ops : list HandoffOp :=
  [HRoutes (REnter demo_connection 7 3);
   HStart demo_accept 100 demo_connection 9 7 4 (mkZonePosition 1 2) (mkRoute demo_connection 7 3 1);
   HExecute 0 (demo_result ZoneApplied 10 20) 101; HDrain demo_accept 102;
   HExecute 0 (demo_result StaleRoute 0 0) 103; HDrain demo_accept 104].

Definition demo_finish : list HandoffOp :=
  demo_ops ++ [HExecute 0 (demo_result ZoneApplied 10 20) 105; HDrain demo_accept 106].

Definition in_flight_count (r : outcome HandoffSystem) : option nat :=
  match r with Ret sys => Some (length (in_flight sys)) | Throw _ => None end.

Lemma handoffs_never_stuck_witness :
  match hrun demo_system demo_ops with
  | Ret sys => publish_failed sys = false ∧ length (in_flight sys) = 1%nat
  | Throw _ => False
  end.
Proof.
  pose proof (handoffs_never_stuck 4 2 3 1 demo_directory demo_rooms demo_entries demo_system demo_ops
                ltac:(lia) ltac:(lia) ltac:(lia) eq_refl) as H.
  assert (E : in_flight_count (hrun demo_system demo_ops) = Some 1%nat) by (vm_compute; reflexivity).
  destruct (hrun demo_system demo_ops) as [sys|e]; [|done]. injection E as E. by destruct H.
Defined.

Definition demo_end : HandoffSystem :=
  match hrun demo_system demo_finish with Ret sys => sys | Throw _ => demo_system end.

Lemma handoffs_terminate_witness :
  handoffs_drained (server demo_end) = true ∧ routeFor (coordinator (server demo_end)) demo_connection =
    Some (mkRoute demo_connection 7 3 3).
Proof.
  assert (Hrun : hrun demo_system demo_finish = Ret demo_end) by (vm_compute; reflexivity).
  assert (Hopen : chan_cancelled (zone_transitions (server demo_end)) = false) by (vm_compute; reflexivity).
  split; [|vm_compute; reflexivity].
  destruct (handoffs_terminate 4 2 3 1 demo_directory demo_rooms demo_entries demo_system demo_finish demo_end
              ltac:(lia) ltac:(lia) ltac:(lia) eq_refl Hrun Hopen) as (_ & _ & Hdrained & _).
  apply Hdrained. vm_compute. reflexivity.
Defined.
