(* ===== verification/RoomEntry.v ===== *)
(** * Room entry service

    [RoomEntryService] of [src/src/server/room_entry_service.cpp]: taking a
    connected player from its zone into a room and back.  On the way in the room
    is asked first, through the player's actor, and the player leaves the zone
    only when the room has given it a seat; a seat that turns out useless is
    given back by a [LeaveRoom].  On the way back the player enters the zone it
    came from.  Stages and completions travel as in the handoff service, through
    the room transition channel.

    The methods are actions of the monad of [Server]; [now] is the clock at the
    call.  The phase in a reply is always [Waiting] and left out of
    [ReplyJoined]. *)

From S2P Require Import Prelude Zone Player RoomTypes Connection SessionDirectory RouteCoordinator Distribution Ring TransitionChannel Server Handoff.

Section service.
Context (post : Server → RoutedCommand → outcome PostResult) (now : time_point).

Definition modify_entries (f : RoomEntryService → RoomEntryService) : M unit :=
  modify (fun s => set_entry_service (f (entry_service s)) s).

Definition set_active_entries (m : gmap ConnectionId ActiveEntry) : M unit := modify_entries (fun e =>
  mkEntryService (entry_turn e) m (active_returns e) (entry_nanoseconds e) (entry_counters e) (entry_admission_closed e)).

Definition set_active_returns (m : gmap ConnectionId ActiveReturn) : M unit := modify_entries (fun e =>
  mkEntryService (entry_turn e) (active_entries e) m (entry_nanoseconds e) (entry_counters e) (entry_admission_closed e)).

Definition count_entry (c : EntryCounter) (n : Z) : M unit := modify_entries (fun e =>
  mkEntryService (entry_turn e) (active_entries e) (active_returns e) (entry_nanoseconds e)
    (fun c' => if decide (c = c') then u64 (entry_counters e c + n) else entry_counters e c') (entry_admission_closed e)).

Definition record_entry (started_at : time_point) : M unit := modify_entries (fun e =>
  mkEntryService (entry_turn e) (active_entries e) (active_returns e)
    (dist_recordNanoseconds (entry_nanoseconds e) (now - started_at)) (entry_counters e) (entry_admission_closed e)).

Definition find_entry (c : ConnectionId) : M (option ActiveEntry) := gets (fun s => active_entries (entry_service s) !! c).
Definition find_return (c : ConnectionId) : M (option ActiveReturn) := gets (fun s => active_returns (entry_service s) !! c).

(** [_active_entries.erase]; the token of the entry is released. *)
Definition erase_entry (c : ConnectionId) : M unit :=
  m ← gets (fun s => active_entries (entry_service s));
  _ ← set_active_entries (delete c m);
  emit (CommandReleased c).

(** [_active_returns.erase]; a return has no token. *)
Definition erase_return (c : ConnectionId) : M unit :=
  m ← gets (fun s => active_returns (entry_service s));
  set_active_returns (delete c m).

Definition release_room (ticket : Z) : M unit := on_room_transitions (fun ch => (tt, room_release ch ticket)).
Definition rollback_entry (c : ConnectionId) (id : RoomEntryId) : M unit :=
  _ ← on_routes (fun rc => rollbackRoomEntryBeforeLeave rc c id); mret tt.
Definition abandon_return (c : ConnectionId) (id : RoomReturnId) : M unit :=
  _ ← on_routes (fun rc => abandonRoomReturn rc c id); mret tt.

(** [LeaveRoom] to the room, whatever becomes of it. *)
Definition post_leave_room (c : ConnectionId) (room : RoomId) (player : PlayerId) : M unit :=
  _ ← tryPost_ post (mkRouted c (RoomCommandRoute room (LeaveRoom player) None 0)); mret tt.

Definition makeRoomEntryService (channel : RoomTransitionChannel) (max_completions_per_turn : Z) : outcome RoomEntryService :=
  throw_if ((max_completions_per_turn =? 0) || (chan_capacity (completions channel) <? max_completions_per_turn)) InvalidArgument
    (Ret (mkEntryService max_completions_per_turn ∅ ∅ makeDistribution (fun _ => 0) false)).

Definition failEntryBeforeSourceLeave (c : ConnectionId) (room : RoomId) (request_id : Z) (status : RoomCommandStatus) : M unit :=
  found ← find_entry c;
  match found with
  | None => mret tt
  | Some a =>
      _ ← rollback_entry c (ae_entry_id a);
      _ ← release_room (ae_ticket a);
      _ ← emit (ReplyJoined c request_id room status);
      _ ← record_entry (ae_started_at a);
      _ ← count_entry EntryFailuresBeforeLeave 1;
      erase_entry c
  end.

(** The contexts of the three stages. *)
Definition join_context (a : ActiveEntry) : RoomEntryContext :=
  mkEntryContext (ae_entry_id a) 0 (ae_ticket a) (ae_connection a) (ae_player a) EntryJoinRoom.
Definition leave_context (a : ActiveEntry) : RoomEntryContext :=
  mkEntryContext (ae_entry_id a) 0 (ae_ticket a) (ae_connection a) (ae_player a) EntryLeaveSource.
Definition return_context (r : ActiveReturn) : RoomEntryContext :=
  mkEntryContext 0 (ar_return_id r) (ar_ticket r) (ar_connection r) (ar_player r) ReturnZone.

(** In the handler of [catch (...)], [inserted_active] holds exactly when the
    entry found has the new ticket, as tickets are never reused. *)
Definition entry_tryStart (c : ConnectionId) (request_id : Z) (player : PlayerId) (room : RoomId) : M FramePostResult :=
  closed ← gets (fun s => entry_admission_closed (entry_service s));
  if closed : bool then mret InvalidPayload
  else
    source_route ← gets (fun s => routeFor (coordinator s) c);
    let refused :=
      _ ← emit (ReplyJoined c request_id room EntryFailed);
      _ ← count_entry EntryFailuresBeforeLeave 1;
      _ ← emit (CommandReleased c);
      mret FrameAccepted in
    match source_route with
    | None => refused
    | Some source =>
        if negb (route_player source =? player) then mret InvalidPayload
        else
          begun ← on_routes (fun rc => tryBeginRoomEntry rc c player room request_id);
          match begun with
          | None => refused
          | Some entry =>
              reserved ← on_room_transitions (fun ch => tryReserveEntry ch (entry_id entry));
              match reserved with
              | None => _ ← rollback_entry c (entry_id entry); refused
              | Some ticket =>
                  let a := mkActiveEntry c ticket (entry_id entry) player room (route_zone source) (route_epoch source) request_id
                             false now in
                  _ ← rethrowing
                    (m ← gets (fun s => active_entries (entry_service s));
                     if has_value (m !! c) then (_ ← emit (CommandReleased c); throw LogicError)
                     else
                       _ ← set_active_entries (<[c := a]> m);
                       result ← tryPost_ post (mkRouted c (PlayerCommandRoute (PlayerActor player) (JoinRoomRequest room) request_id
                                                            (Some (join_context a))));
                       when (negb (bool_decide (result = Accepted))) (failEntryBeforeSourceLeave c room request_id EntryFailed))
                    (found ← find_entry c;
                     _ ← release_room ticket;
                     _ ← when (bool_decide (ae_ticket <$> found = Some ticket)) (erase_entry c);
                     rollback_entry c (entry_id entry));
                  mret FrameAccepted
              end
          end
    end.

Definition tryReplyRoomBusy (c : ConnectionId) (request_id : Z) (kind : RoomReplyKind) : M bool :=
  let busy reply :=
    _ ← (reply : M unit);
    _ ← count_entry EntryBusyReplies 1;
    _ ← emit (CommandReleased c);
    mret true in
  let joined := bool_decide (kind = Joined) in
  entry ← gets (fun s => roomEntryFor (coordinator s) c);
  match entry with
  | Some e => busy (emit (ReplyJoined c request_id (entry_room e) WrongPhase))
  | None =>
      inside ← gets (fun s => inRoomFor (coordinator s) c);
      match inside with
      | Some r => busy (when joined (emit (ReplyJoined c request_id (in_room r) AlreadyJoined)))
      | None =>
          ret ← gets (fun s => roomReturnFor (coordinator s) c);
          match ret with
          | Some r => busy (when joined (emit (ReplyJoined c request_id (return_room r) WrongPhase)))
          | None => mret false
          end
      end
  end.

Definition tryReplyZoneBlockedByRoom (c : ConnectionId) (request_id : Z) (kind : ZoneReplyKind) : M bool :=
  let busy player zone epoch position status :=
    _ ← emit (ReplyZone c player zone epoch position request_id kind status);
    _ ← count_entry EntryBusyReplies 1;
    _ ← emit (CommandReleased c);
    mret true in
  entry ← gets (fun s => roomEntryFor (coordinator s) c);
  match entry with
  | Some e =>
      busy (route_player (entry_source e)) (route_zone (entry_source e)) (route_epoch (entry_source e)) (mkZonePosition 0 0)
        TransitionInProgress
  | None =>
      inside ← gets (fun s => inRoomFor (coordinator s) c);
      match inside with
      | Some r => busy (in_room_player r) (in_room_return_zone r) 0 (in_room_return_position r) InRoom
      | None =>
          ret ← gets (fun s => roomReturnFor (coordinator s) c);
          match ret with
          | Some r => busy (return_player r) (return_zone r) (return_epoch r) (return_position r) TransitionInProgress
          | None => mret false
          end
      end
  end.

Definition disconnect_entry (a : ActiveEntry) : ActiveEntry :=
  mkActiveEntry (ae_connection a) (ae_ticket a) (ae_entry_id a) (ae_player a) (ae_room a) (ae_source_zone a) (ae_source_epoch a)
    (ae_request_id a) true (ae_started_at a).
Definition disconnect_return (r : ActiveReturn) : ActiveReturn :=
  mkActiveReturn (ar_connection r) (ar_ticket r) (ar_return_id r) (ar_player r) (ar_room r) (ar_return_zone r) (ar_return_epoch r)
    (ar_return_position r) true (ar_started_at r).

Definition entry_noteDisconnect (c : ConnectionId) : M bool :=
  entry ← find_entry c;
  match entry with
  | Some a =>
      m ← gets (fun s => active_entries (entry_service s));
      _ ← set_active_entries (<[c := disconnect_entry a]> m);
      mret true
  | None =>
      ret ← find_return c;
      match ret with
      | Some r =>
          m ← gets (fun s => active_returns (entry_service s));
          _ ← set_active_returns (<[c := disconnect_return r]> m);
          mret true
      | None =>
          inside ← gets (fun s => inRoomFor (coordinator s) c);
          match inside with
          | Some r =>
              _ ← post_leave_room c (in_room r) (in_room_player r);
              _ ← abandon_ c;
              _ ← noteLocation_ c None;
              mret false
          | None => mret false
          end
      end
  end.

(** The [EnterZone] of a return. *)
Definition return_inbound (r : ActiveReturn) : ZoneInboundCommand :=
  mkZoneInbound (ar_return_zone r) (EnterZoneCommand (ar_player r) (ar_return_epoch r) (ar_return_position r)) None None
    (Some (return_context r)).

Definition startReturn (c : ConnectionId) (room : RoomId) : M unit :=
  begun ← on_routes_throwing (fun rc => tryBeginRoomReturn rc c room);
  match begun with
  | None => mret tt
  | Some ret =>
      reserved ← on_room_transitions (fun ch => tryReserveReturn ch (return_id ret));
      match reserved with
      | None =>
          _ ← abandon_return c (return_id ret);
          _ ← noteLocation_ c None;
          emit (AdmissionFailure c)
      | Some ticket =>
          let r := mkActiveReturn c ticket (return_id ret) (return_player ret) (return_room ret) (return_zone ret) (return_epoch ret)
                     (return_position ret) false now in
          m ← gets (fun s => active_returns (entry_service s));
          _ ← set_active_returns (<[c := r]> m);
          result ← tryPost_ post (mkRouted c (ZoneHandoffCommandRoute (return_inbound r)));
          when (negb (bool_decide (result = Accepted)))
            (_ ← abandon_return c (return_id ret);
             _ ← release_room ticket;
             _ ← erase_return c;
             _ ← noteLocation_ c None;
             _ ← emit (AdmissionFailure c);
             count_entry ReturnFailures 1)
      end
  end.

Definition compensateFailedSourceLeave (a : ActiveEntry) : M unit :=
  _ ← post_leave_room (ae_connection a) (ae_room a) (ae_player a);
  _ ← rollback_entry (ae_connection a) (ae_entry_id a);
  _ ← release_room (ae_ticket a);
  _ ← emit (ReplyJoined (ae_connection a) (ae_request_id a) (ae_room a) EntryFailed);
  _ ← record_entry (ae_started_at a);
  _ ← count_entry EntriesCompensated 1;
  _ ← count_entry SourceLeaveFailures 1;
  erase_entry (ae_connection a).

(** The [LeaveZone] of an entry. *)
Definition leave_inbound (a : ActiveEntry) : ZoneInboundCommand :=
  mkZoneInbound (ae_source_zone a) (LeaveZoneCommand (ae_player a) (ae_source_epoch a)) None None (Some (leave_context a)).

Definition handleJoinRoomCompletion (completion : RoomTransitionCompletion) (a : ActiveEntry) : M unit :=
  let c := ae_connection a in
  if negb (bool_decide (rt_room_status completion = Applied)) then
    _ ← rollback_entry c (ae_entry_id a);
    _ ← release_room (ae_ticket a);
    _ ← emit (ReplyJoined c (ae_request_id a) (ae_room a) (rt_room_status completion));
    _ ← record_entry (ae_started_at a);
    erase_entry c
  else
    _ ← on_routes (fun rc => noteRoomJoined rc c (ae_entry_id a));
    if ae_disconnecting a then
      _ ← post_leave_room c (ae_room a) (ae_player a);
      _ ← rollback_entry c (ae_entry_id a);
      _ ← release_room (ae_ticket a);
      _ ← erase_entry c;
      count_entry EntryDisconnectCleanups 1
    else
      result ← tryPost_ post (mkRouted c (ZoneHandoffCommandRoute (leave_inbound a)));
      when (negb (bool_decide (result = Accepted))) (compensateFailedSourceLeave a).

Definition handleLeaveSourceCompletion (completion : RoomTransitionCompletion) (a : ActiveEntry) : M unit :=
  let c := ae_connection a in
  match rt_position completion with
  | Some position =>
      if negb (bool_decide (rt_zone_status completion = ZoneApplied)) then compensateFailedSourceLeave a
      else
        inside ← on_routes (fun rc => completeRoomEntry rc c (ae_entry_id a) position);
        match inside with
        | None => compensateFailedSourceLeave a
        | Some _ =>
            _ ← release_room (ae_ticket a);
            _ ← record_entry (ae_started_at a);
            if ae_disconnecting a then
              _ ← post_leave_room c (ae_room a) (ae_player a);
              _ ← abandon_ c;
              _ ← noteLocation_ c None;
              _ ← erase_entry c;
              count_entry EntryDisconnectCleanups 1
            else
              _ ← emit (ReplyJoined c (ae_request_id a) (ae_room a) Applied);
              erase_entry c
        end
  | None => compensateFailedSourceLeave a
  end.

Definition handleReturnZoneCompletion (completion : RoomTransitionCompletion) (r : ActiveReturn) : M unit :=
  let c := ar_connection r in
  if negb (bool_decide (rt_zone_status completion = ZoneApplied)) && negb (bool_decide (rt_zone_status completion = AlreadyPresent))
  then
    _ ← abandon_return c (ar_return_id r);
    _ ← release_room (ar_ticket r);
    _ ← noteLocation_ c None;
    _ ← emit (AdmissionFailure c);
    _ ← count_entry ReturnFailures 1;
    erase_return c
  else
    restored ← on_routes (fun rc => completeRoomReturn rc c (ar_return_id r));
    match restored with
    | None =>
        _ ← release_room (ar_ticket r);
        _ ← noteLocation_ c None;
        _ ← emit (AdmissionFailure c);
        _ ← count_entry ReturnFailures 1;
        erase_return c
    | Some _ =>
        let position := default (ar_return_position r) (rt_position completion) in
        _ ← noteLocation_ c (Some (mkPlayerLocation (ar_return_zone r) position));
        _ ← release_room (ar_ticket r);
        _ ← (if ar_disconnecting r
             then _ ← noteLocation_ c None; _ ← abandon_ c; count_entry EntryDisconnectCleanups 1
             else emit (ReplyReturned c (ar_return_zone r) position));
        erase_return c
    end.

Definition entry_handleCompletion (completion : RoomTransitionCompletion) : M unit :=
  let stale := count_entry EntryStaleCompletions 1 in
  if bool_decide (rt_step completion = ReturnZone) then
    found ← find_return (rt_connection completion);
    match found with
    | Some r => handleReturnZoneCompletion completion r
    | None => stale
    end
  else
    found ← find_entry (rt_connection completion);
    match found with
    | Some a =>
        if bool_decide (rt_step completion = EntryJoinRoom) then handleJoinRoomCompletion completion a
        else if bool_decide (rt_step completion = EntryLeaveSource) then handleLeaveSourceCompletion completion a
        else stale
    | None => stale
    end.

(** The two loops of [drain], [n] rounds left. *)
Fixpoint completion_loop (n : nat) : M unit :=
  match n with
  | O => mret tt
  | S n =>
      popped ← on_room_transitions_throwing (fun ch => room_tryPop ch now);
      match popped with
      | None => mret tt
      | Some completion => _ ← entry_handleCompletion completion; completion_loop n
      end
  end.

Fixpoint request_loop (n : nat) : M unit :=
  match n with
  | O => mret tt
  | S n =>
      popped ← on_room_transitions_throwing tryPopReturnRequest;
      match popped with
      | None => mret tt
      | Some request =>
          connection ← gets (fun s => connectionFor (sessions s) (request_player request));
          match connection with
          | None => request_loop n
          | Some c => _ ← startReturn c (request_room request); request_loop n
          end
      end
  end.

Definition entry_drain : M unit :=
  turn ← gets (fun s => entry_turn (entry_service s));
  _ ← completion_loop (Z.to_nat turn);
  _ ← request_loop (Z.to_nat turn);
  pending ← gets (fun s => room_wakeIfPending (room_transitions s));
  when pending (emit WakeUp).

Definition entry_close : M unit := modify_entries (fun e =>
  mkEntryService (entry_turn e) (active_entries e) (active_returns e) (entry_nanoseconds e) (entry_counters e) true).

Definition forget (c : ConnectionId) : M unit := _ ← noteLocation_ c None; abandon_ c.

Definition entry_cancel : M unit :=
  _ ← entry_close;
  _ ← on_room_transitions (fun ch => (tt, room_cancel ch));
  entries ← gets (fun s => active_entries (entry_service s));
  returns ← gets (fun s => active_returns (entry_service s));
  _ ← count_entry EntryShutdownCancels (Z.of_nat (size entries) + Z.of_nat (size returns));
  _ ← mapM_ (fun '(c, _) => forget c) (map_to_list entries);
  _ ← set_active_entries ∅;
  _ ← mapM_ (fun '(c, _) => emit (CommandReleased c)) (map_to_list entries);
  _ ← mapM_ (fun '(c, _) => forget c) (map_to_list returns);
  set_active_returns ∅.

Definition entries_drained (s : Server) : bool :=
  bool_decide (active_entries (entry_service s) = ∅) && bool_decide (active_returns (entry_service s) = ∅) &&
  room_drained (room_transitions s).
End service.

(** What the callbacks of [src/src/server/game_server.cpp] publish for a stage:
    the player's actor when the room could not be told, the room, and the zones. *)
Inductive StageAnswer :=
| JoinUndelivered (room : RoomId)
| RoomAnswer (room : RoomId) (status : RoomCommandStatus)
| ZoneAnswer (zone : ZoneId) (status : ZoneCommandStatus) (position : option ZonePosition).

Definition entry_completion (context : RoomEntryContext) (answer : StageAnswer) : RoomTransitionCompletion :=
  let base := completionFrom context in
  let with_answer room zone room_status zone_status position :=
    mkRoomCompletion (rt_entry_id base) (rt_return_id base) (rt_connection base) (rt_player base) room zone (rt_route_epoch base)
      (rt_step base) room_status zone_status position in
  match answer with
  | JoinUndelivered room => with_answer room (rt_zone base) EntryFailed (rt_zone_status base) (rt_position base)
  | RoomAnswer room status => with_answer room (rt_zone base) status (rt_zone_status base) (rt_position base)
  | ZoneAnswer zone status position => with_answer (rt_room base) zone (rt_room_status base) status position
  end.
