(* ===== verification/RoomStages.v ===== *)
(** * Stages of room transfers

    A room transfer, an entry or a return, owns a ticket of the room transition
    channel and waits for one stage at a time: a command with an actor, or its
    completion in the channel.  This file has that invariant, over the map from
    connections to the contexts of the stages they wait for, and how the moves
    of a transfer keep it. *)

From S2P Require Import Prelude Zone RoomTypes Connection RouteCoordinator Ring TransitionChannel TransitionSpec RoomEntry.

(** The id a context reserves under, as [expected_id] of its completion. *)
Definition context_id (x : RoomEntryContext) : Z := expected_id (completionFrom x).

(** A completion that answers a stage. *)
Record answers (x : RoomEntryContext) (k : RoomTransitionCompletion) : Prop := {
  an_entry : rt_entry_id k = entry_context_entry_id x;
  an_return : rt_return_id k = entry_context_return_id x;
  an_connection : rt_connection k = entry_context_connection x;
  an_step : rt_step k = entry_context_step x
}.

Lemma entry_completion_answers x answer : answers x (entry_completion x answer).
Proof. by destruct answer. Qed.

Lemma answers_id x k : answers x k → expected_id k = context_id x.
Proof. intros [E1 E2 _ _]. unfold context_id, expected_id. by rewrite E1, E2. Qed.

Abbreviation ARoom := (AChannel RoomTransitionCompletion).
Abbreviation Waiting := (ConnectionId → option RoomEntryContext).

Definition tickets_out (fl : list RoomEntryContext) (q : list (Z * RoomTransitionCompletion)) : list Z :=
  (entry_context_ticket <$> fl) ++ q.*1.

(** The stage is with an actor, or answered in the channel. *)
Definition stage_out (fl : list RoomEntryContext) (q : list (Z * RoomTransitionCompletion)) (x : RoomEntryContext) : Prop :=
  x ∈ fl ∨ ∃ k, (entry_context_ticket x, k) ∈ q ∧ answers x k.

(** [W] tells the stage every connection waits for; the one of [hole], if any,
    has not been posted yet. *)
Record stages_ok (hole : option ConnectionId) (W : Waiting) (fl : list RoomEntryContext) (a : ARoom) : Prop := {
  st_conn : ∀ c x, W c = Some x →
    a_reserved a !! entry_context_ticket x = Some (context_id x, false) ∧
    (if decide (hole = Some c) then entry_context_ticket x ∉ tickets_out fl (a_queue a) else stage_out fl (a_queue a) x);
  st_nodup : NoDup (tickets_out fl (a_queue a));
  st_owned : ∀ t, t ∈ tickets_out fl (a_queue a) → ∃ c x, W c = Some x ∧ entry_context_ticket x = t;
  st_reserved : ∀ t p, a_reserved a !! t = Some p → ∃ c x, W c = Some x ∧ entry_context_ticket x = t;
  st_inj : ∀ c c' x x', W c = Some x → W c' = Some x' → entry_context_ticket x = entry_context_ticket x' → c = c'
}.

Lemma stages_ext hole W W' fl a : (∀ c, W' c = W c) → stages_ok hole W fl a → stages_ok hole W' fl a.
Proof.
  intros E [Hc Hnd Ho Hr Hi]. constructor.
  - intros c x. rewrite E. apply Hc.
  - done.
  - intros t Ht. destruct (Ho t Ht) as (c & x & Hx). exists c, x. by rewrite E.
  - intros t p Ht. destruct (Hr t p Ht) as (c & x & Hx). exists c, x. by rewrite E.
  - intros c c' x x'. rewrite !E. apply Hi.
Qed.

Section moves.
Context (W W' : Waiting) (fl : list RoomEntryContext) (a : ARoom) (c : ConnectionId).
Context (Hothers : ∀ c', c' ≠ c → W' c' = W c').

Lemma other_tickets x c' x' :
  stages_ok (Some c) W fl a → W c = Some x → W c' = Some x' → c' ≠ c → entry_context_ticket x' ≠ entry_context_ticket x.
Proof. intros Hs Hx Hx' Hne E. apply Hne. by eapply (st_inj _ _ _ _ Hs). Qed.

(** The transfer is over and its ticket released. *)
Lemma stages_end x :
  stages_ok (Some c) W fl a → W c = Some x → W' c = None →
  let a' := a_release a (entry_context_ticket x) in
  stages_ok None W' fl a' ∧ a_cancelled a' = a_cancelled a ∧ a_queue a' = a_queue a.
Proof using Hothers.
  intros Hs Hx Hn. pose proof Hs as [Hc Hnd Ho Hr Hi]. destruct (Hc c x Hx) as [Hres Hout]. rewrite decide_True in Hout by done.
  assert (E : a_release a (entry_context_ticket x) = a_set (a_queue a) (delete (entry_context_ticket x) (a_reserved a)) a).
  { unfold a_release. rewrite Hres, bool_decide_false; [done|]. intros Hin. apply Hout, elem_of_app. by right. }
  cbv zeta. rewrite E. split; [|done].
  assert (Hsub : ∀ c' y, W' c' = Some y → c' ≠ c ∧ W c' = Some y).
  { intros c' y Hy. destruct (decide (c' = c)) as [->|Hne]; [congruence|]. by rewrite <-Hothers. }
  assert (Hsup : ∀ c' y, W c' = Some y → entry_context_ticket y ≠ entry_context_ticket x → W' c' = Some y).
  { intros c' y Hy Ht. rewrite Hothers; [done|]. intros ->. congruence. }
  constructor; cbn [a_set a_queue a_reserved]; try done.
  - intros c' y Hy. destruct (Hsub c' y Hy) as [Hne Hy']. destruct (Hc c' y Hy') as [H1 H2].
    rewrite decide_False in H2 by congruence. rewrite decide_False by done. split; [|done].
    rewrite lookup_delete_ne; [done|]. intros Et. by apply (other_tickets x c' y Hs Hx Hy' Hne).
  - intros t Ht. destruct (Ho t Ht) as (c' & y & Hy & <-). exists c', y. split; [|done]. apply Hsup; [done|].
    intros Et. apply Hout. by rewrite <-Et.
  - intros t p [Hne Ht]%lookup_delete_Some. destruct (Hr t p Ht) as (c' & y & Hy & <-). exists c', y. split; [|done]. by apply Hsup.
  - intros c1 c2 y1 y2 [_ H1]%Hsub [_ H2]%Hsub. by apply Hi.
Qed.

(** The next stage is posted. *)
Lemma stages_post x x' :
  stages_ok (Some c) W fl a → W c = Some x → W' c = Some x' →
  entry_context_ticket x' = entry_context_ticket x → context_id x' = context_id x →
  stages_ok None W' (fl ++ [x']) a.
Proof using Hothers.
  intros Hs Hx Hx' Ht Hid. pose proof Hs as [Hc Hnd Ho Hr Hi]. destruct (Hc c x Hx) as [Hres Hout]. rewrite decide_True in Hout by done.
  assert (Hp : tickets_out (fl ++ [x']) (a_queue a) ≡ₚ entry_context_ticket x :: tickets_out fl (a_queue a)).
  { unfold tickets_out. rewrite fmap_app. simpl. rewrite Ht, <-app_assoc. simpl. by rewrite <-Permutation_middle. }
  assert (Hto : ∀ c' y, W c' = Some y → ∃ y', W' c' = Some y' ∧ entry_context_ticket y' = entry_context_ticket y).
  { intros c' y Hy. destruct (decide (c' = c)) as [->|Hne]; [|rewrite Hothers by done; eauto]. exists x'. split; [done|]. congruence. }
  assert (Hfrom : ∀ c' y, W' c' = Some y → ∃ y', W c' = Some y' ∧ entry_context_ticket y' = entry_context_ticket y).
  { intros c' y Hy. destruct (decide (c' = c)) as [->|Hne]; [exists x; split; [done|congruence]|].
    exists y. by rewrite <-Hothers. }
  constructor; rewrite ?Hp.
  - intros c' y Hy. rewrite decide_False by done. destruct (decide (c' = c)) as [->|Hne].
    + assert (y = x') as -> by congruence. rewrite Ht, Hid. split; [done|]. left. apply elem_of_app. right. left.
    + rewrite Hothers in Hy by done. destruct (Hc c' y Hy) as [H1 H2]. rewrite decide_False in H2 by congruence. split; [done|].
      destruct H2 as [H2|H2]; [left; apply elem_of_app; by left|by right].
  - by constructor.
  - intros t. rewrite Hp. intros [->|Hin]%elem_of_cons; [by exists c, x'|].
    destruct (Ho t Hin) as (c' & y & Hy & <-). destruct (Hto c' y Hy) as (y' & ? & ?). by exists c', y'.
  - intros t p Hin. destruct (Hr t p Hin) as (c' & y & Hy & <-). destruct (Hto c' y Hy) as (y' & ? & ?). by exists c', y'.
  - intros c1 c2 y1 y2 H1 H2 E. destruct (Hfrom _ _ H1) as (z1 & ? & ?), (Hfrom _ _ H2) as (z2 & ? & ?).
    eapply Hi; [done|done|congruence].
Qed.

(** A transfer begins with a new ticket. *)
Lemma stages_start id t a' ch x :
  simulates ch a → stages_ok None W fl a → W c = None → a_reserve a id = (Some t, a') → W' c = Some x →
  entry_context_ticket x = t → context_id x = id →
  stages_ok (Some c) W' fl a' ∧ a_cancelled a' = a_cancelled a ∧ a_queue a' = a_queue a.
Proof using Hothers.
  intros Hsim [Hc Hnd Ho Hr Hi] Hn Hres Hx Ht Hid. unfold a_reserve in Hres. destruct (_ || _); [done|]. injection Hres as E <-.
  rewrite E in *. split; [|done].
  assert (Hfresh : a_reserved a !! t = None).
  { destruct (a_reserved a !! t) as [p|] eqn:Ep; [|done]. apply (sim_tickets _ _ Hsim) in Ep. lia. }
  assert (Hnot : ∀ c' y, W c' = Some y → entry_context_ticket y ≠ t).
  { intros c' y Hy Et. destruct (Hc c' y Hy) as [H1 _]. congruence. }
  assert (Hsup : ∀ c' y, W c' = Some y → W' c' = Some y).
  { intros c' y Hy. rewrite Hothers; [done|]. intros ->. congruence. }
  constructor; cbn [a_queue a_reserved]; try done.
  - intros c' y Hy. destruct (decide (c' = c)) as [->|Hne].
    + assert (y = x) as -> by congruence. rewrite Ht, Hid, lookup_insert_eq, decide_True by done. split; [done|].
      intros Hin. destruct (Ho t Hin) as (c' & y & Hy' & Ey). by apply (Hnot c' y).
    + rewrite Hothers in Hy by done. destruct (Hc c' y Hy) as [H1 H2]. rewrite decide_False in H2 by done.
      rewrite decide_False by congruence. split; [|done]. rewrite lookup_insert_ne; [done|]. intros Et. by apply (Hnot c' y).
  - intros u Hu. destruct (Ho u Hu) as (c' & y & Hy & <-). exists c', y. by split; [apply Hsup|].
  - intros u p [[<- _]|[_ Hu]]%lookup_insert_Some; [by exists c, x|].
    destruct (Hr u p Hu) as (c' & y & Hy & <-). exists c', y. by split; [apply Hsup|].
  - intros c1 c2 y1 y2 H1 H2 Ey. destruct (decide (c1 = c)) as [->|N1], (decide (c2 = c)) as [->|N2]; try done.
    + rewrite Hothers in H2 by done. exfalso. apply (Hnot c2 y2 H2). congruence.
    + rewrite Hothers in H1 by done. exfalso. apply (Hnot c1 y1 H1). congruence.
    + rewrite Hothers in H1, H2 by done. by eapply Hi.
Qed.
End moves.

(** The network thread takes a completion. *)
Lemma stages_pop W fl a t k rest :
  stages_ok None W fl a → a_queue a = (t, k) :: rest →
  ∃ c x, W c = Some x ∧ answers x k ∧ a_pop a = (Some k, a_set rest (a_reserved a) a) ∧
    stages_ok (Some c) W fl (a_set rest (a_reserved a) a).
Proof.
  intros [Hc Hnd Ho Hr Hi] Hq.
  assert (Hp : tickets_out fl (a_queue a) ≡ₚ t :: tickets_out fl rest).
  { unfold tickets_out. rewrite Hq. simpl. by rewrite <-Permutation_middle. }
  destruct (Ho t) as (c & x & Hx & Ht); [rewrite Hp; left|]. destruct (Hc c x Hx) as [Hres Hst]. rewrite decide_False in Hst by done.
  rewrite Hp in Hnd. apply NoDup_cons in Hnd as [Hnin Hnd]. exists c, x. split_and!; [done| | |].
  - destruct Hst as [Hst|(k' & Hk & Hv)].
    + exfalso. apply Hnin, elem_of_app. left. rewrite <-Ht. by apply list_elem_of_fmap_2.
    + rewrite Hq, Ht in Hk. apply elem_of_cons in Hk as [[= ->]|Hk]; [done|].
      exfalso. apply Hnin, elem_of_app. right. change t with (t, k').1. by apply list_elem_of_fmap_2.
  - unfold a_pop. by rewrite Hq, <-Ht, Hres.
  - constructor; cbn [a_set a_queue a_reserved]; try done.
    + intros c' y Hy. destruct (Hc c' y Hy) as [H1 H2]. rewrite decide_False in H2 by done. split; [done|].
      destruct (decide (c' = c)) as [->|Hne].
      * rewrite decide_True by done. assert (y = x) as -> by congruence. by rewrite Ht.
      * rewrite decide_False by congruence. destruct H2 as [?|(k' & Hk & Hv)]; [by left|]. right. exists k'. split; [|done].
        rewrite Hq in Hk. apply elem_of_cons in Hk as [[= E _]|Hk]; [|done]. exfalso. apply Hne, (Hi c' c y x Hy Hx). congruence.
    + intros u Hu. apply Ho. rewrite Hp. by right.
Qed.

(** An actor answers a stage. *)
Lemma stages_execute W fl a i x k :
  stages_ok None W fl a → fl !! i = Some x → answers x k →
  let a' := a_set (a_queue a ++ [(entry_context_ticket x, k)]) (a_reserved a) a in
  a_publish expected_id a (entry_context_ticket x) k = (true, a') ∧ stages_ok None W (delete i fl) a'.
Proof.
  intros [Hc Hnd Ho Hr Hi] Hx Hk. cbv zeta. pose proof (list_elem_of_lookup_2 _ _ _ Hx) as Hin.
  pose proof (delete_Permutation _ _ _ Hx) as Hperm.
  assert (Hnq : entry_context_ticket x ∉ (a_queue a).*1).
  { pose proof Hnd as Hnd'. unfold tickets_out in Hnd'. apply NoDup_app in Hnd' as (_ & Hdis & _). apply Hdis.
    by apply list_elem_of_fmap_2. }
  destruct (Ho (entry_context_ticket x)) as (c & y & Hy & Et); [apply elem_of_app; left; by apply list_elem_of_fmap_2|].
  destruct (Hc c y Hy) as [Hres Hst]. rewrite decide_False in Hst by done.
  assert (y = x) as ->.
  { destruct Hst as [Hst|(k' & Hk' & _)].
    - unfold tickets_out in Hnd. apply NoDup_app in Hnd as (Hnd & _ & _). apply list_elem_of_lookup in Hst as [j Hj].
      assert (i = j) as <-; [|congruence]. eapply (NoDup_lookup _ _ _ (entry_context_ticket x) Hnd).
      + by rewrite list_lookup_fmap, Hx.
      + rewrite list_lookup_fmap, Hj. simpl. by rewrite Et.
    - exfalso. apply Hnq. rewrite <-Et. change (entry_context_ticket y) with (entry_context_ticket y, k').1.
      by apply list_elem_of_fmap_2. }
  split.
  { unfold a_publish. rewrite Hres, (answers_id _ _ Hk), Z.eqb_refl, bool_decide_false by done. done. }
  assert (Hp : tickets_out (delete i fl) (a_queue a ++ [(entry_context_ticket x, k)]) ≡ₚ tickets_out fl (a_queue a)).
  { unfold tickets_out. rewrite fmap_app. simpl. rewrite app_assoc, <-Permutation_cons_append.
    by rewrite (fmap_Permutation entry_context_ticket _ _ Hperm). }
  constructor; cbn [a_set a_queue a_reserved]; rewrite ?Hp; try done.
  - intros c' z Hz. destruct (Hc c' z Hz) as [H1 H2]. rewrite decide_False in H2 |- * by done. split; [done|].
    destruct (decide (c' = c)) as [->|Hne].
    + assert (z = x) as -> by congruence. right. exists k. split; [apply elem_of_app; right; left|done].
    + destruct H2 as [H2|(k' & Hk' & Hv)]; [|right; exists k'; split; [apply elem_of_app; by left|done]].
      left. rewrite Hperm in H2. apply elem_of_cons in H2 as [->|]; [|done]. exfalso. by apply Hne, (Hi c' c x x).
  - intros t. rewrite Hp. apply Ho.
Qed.

(** ** The work left: two steps for the actor and the network thread, for every
    stage that may follow *)

Definition stage_rank (step : RoomEntryStep) : Z := match step with EntryLeaveSource | ReturnZone => 0 | _ => 1 end.
Definition context_weight (x : RoomEntryContext) : Z := 2 * stage_rank (entry_context_step x) + 2.
Definition answer_weight (p : Z * RoomTransitionCompletion) : Z := 2 * stage_rank (rt_step p.2) + 1.

(** A return request may still become a return. *)
Definition room_work (fl : list RoomEntryContext) (q : list (Z * RoomTransitionCompletion)) (requests : list RoomReturnRequest) : Z :=
  zsum context_weight fl + zsum answer_weight q + 3 * zlen requests.

Lemma zsum_positive {A} (f : A → Z) l : (∀ x, 0 < f x) → 0 <= zsum f l ∧ (zsum f l = 0 → l = []).
Proof.
  intros Hf. assert (Hn : ∀ l, 0 <= zsum f l) by (intros; apply zsum_nonneg, Forall_true; intros x; specialize (Hf x); lia).
  split; [apply Hn|]. destruct l as [|x l]; [done|]. simpl. specialize (Hf x). specialize (Hn l). lia.
Qed.

Lemma room_work_zero fl q requests : 0 <= room_work fl q requests ∧
  (room_work fl q requests = 0 ↔ fl = [] ∧ q = [] ∧ requests = []).
Proof.
  assert (Hr : ∀ step, 0 <= stage_rank step) by by intros [].
  destruct (zsum_positive context_weight fl) as [F1 F2]; [intros x; specialize (Hr (entry_context_step x)); unfold context_weight; lia|].
  destruct (zsum_positive answer_weight q) as [Q1 Q2]; [intros x; specialize (Hr (rt_step x.2)); unfold answer_weight; lia|].
  unfold room_work. assert (0 <= zlen requests) by (unfold zlen; lia). split; [lia|]. split.
  - intros E. split_and!; [apply F2; lia|apply Q2; lia|]. destruct requests; [done|]. unfold zlen in E. simpl in E. lia.
  - by intros (-> & -> & ->).
Qed.
