(* ===== verification/RoomEntryCalls.v ===== *)
(** * Room transfers: the calls of the service

    What every method of [RoomEntryService] does to the transfer it works on: it
    ends the transfer and releases its ticket, or it posts the next stage. *)

From S2P Require Import Prelude Zone Player RoomTypes Connection SessionDirectory RouteCoordinator RouteSpec Distribution Ring TransitionChannel TransitionSpec Server Handoff RoomEntry RoomStages.

(** ** Transfers *)

Abbreviation entries s := (active_entries (entry_service s)).
Abbreviation returns s := (active_returns (entry_service s)).

(** The service and the coordinator agree on a connection. *)
Definition entry_match (c : ConnectionId) (a : option ActiveEntry) (e : option RoomEntry) : Prop :=
  match a, e with
  | None, None => True
  | Some a, Some e =>
      ae_connection a = c ∧ ae_entry_id a = entry_id e ∧ ae_room a = entry_room e ∧ ae_player a = route_player (entry_source e) ∧
      ae_source_zone a = route_zone (entry_source e) ∧ ae_source_epoch a = route_epoch (entry_source e) ∧
      ae_request_id a = entry_request_id e ∧ (entry_step e = RequestSnapshot ∨ entry_step e = EntryLeaveSource)
  | _, _ => False
  end.

Definition return_match (c : ConnectionId) (r : option ActiveReturn) (t : option RoomReturn) : Prop :=
  match r, t with
  | None, None => True
  | Some r, Some t =>
      ar_connection r = c ∧ ar_return_id r = return_id t ∧ ar_room r = return_room t ∧ ar_player r = return_player t ∧
      ar_return_zone r = return_zone t ∧ ar_return_epoch r = return_epoch t ∧ ar_return_position r = return_position t
  | _, _ => False
  end.

Definition transfers_ok (s : Server) : Prop := ∀ c,
  entry_match c (entries s !! c) (room_entries (coordinator s) !! c) ∧
  return_match c (returns s !! c) (room_returns (coordinator s) !! c).

(** The stage an entry waits for. *)
Definition entry_stage (e : option RoomEntry) (a : ActiveEntry) : RoomEntryContext :=
  if decide (entry_step <$> e = Some EntryLeaveSource) then leave_context a else join_context a.

Definition waiting (s : Server) : Waiting := fun c =>
  match entries s !! c with
  | Some a => Some (entry_stage (room_entries (coordinator s) !! c) a)
  | None => return_context <$> returns s !! c
  end.

(** The stages a list of effects gave to the actors. *)
Definition command_context (command : RoutedCommand) : option RoomEntryContext :=
  match routed_route command with
  | PlayerCommandRoute _ _ _ x => x
  | ZoneHandoffCommandRoute cmd => inbound_room_entry cmd
  | _ => None
  end.

Definition contexts (es : list Effect) : list RoomEntryContext :=
  omap (fun e => match e with
                 | Post command r =>
                     match command_context command with
                     | Some x => if bool_decide (r = Accepted) then Some x else None
                     | None => None
                     end
                 | _ => None
                 end) es.

Lemma contexts_app es es' : contexts (es ++ es') = contexts es ++ contexts es'.
Proof. apply omap_app. Qed.

Definition entry_stale (s : Server) : Z := entry_counters (entry_service s) EntryStaleCompletions.

Record entry_frame (s s' : Server) : Prop := {
  ef_turn : entry_turn (entry_service s') = entry_turn (entry_service s);
  ef_closed : entry_admission_closed (entry_service s') = entry_admission_closed (entry_service s);
  ef_stale : entry_stale s' = entry_stale s
}.

Lemma entry_frame_trans s s1 s2 : entry_frame s s1 → entry_frame s1 s2 → entry_frame s s2.
Proof. intros [] []. constructor; congruence. Qed.

(** The transfer of [c] is over and its ticket released, or it waits for [x]. *)
Record over (c : ConnectionId) (t : Z) (s s' : Server) : Prop := {
  ov_waiting : waiting s' c = None;
  ov_others : ∀ c', c' ≠ c → waiting s' c' = waiting s c';
  ov_channel : room_transitions s' = room_release (room_transitions s) t;
  ov_transfers : transfers_ok s';
  ov_ok : coordinator_ok (coordinator s');
  ov_frame : entry_frame s s'
}.

Record waits (c : ConnectionId) (x : RoomEntryContext) (s s' : Server) : Prop := {
  wt_waiting : waiting s' c = Some x;
  wt_others : ∀ c', c' ≠ c → waiting s' c' = waiting s c';
  wt_channel : room_transitions s' = room_transitions s;
  wt_transfers : transfers_ok s';
  wt_ok : coordinator_ok (coordinator s');
  wt_frame : entry_frame s s'
}.

(** A call that works on the transfer of [c], which waited for [x]. *)
Definition room_handled (c : ConnectionId) (x : RoomEntryContext) (s : Server) (r : outcome unit * list Effect * Server) : Prop :=
  match r with
  | (Ret _, es, s') =>
      (over c (entry_context_ticket x) s s' ∧ contexts es = []) ∨
      (∃ x', waits c x' s s' ∧ contexts es = [x'] ∧ entry_context_ticket x' = entry_context_ticket x ∧
             context_id x' = context_id x ∧ stage_rank (entry_context_step x') < stage_rank (entry_context_step x))
  | (Throw _, _, _) => False
  end.

(** ** How the maps change *)

Lemma entry_of_active s c a :
  transfers_ok s → entries s !! c = Some a → ∃ e, room_entries (coordinator s) !! c = Some e ∧ entry_match c (Some a) (Some e).
Proof.
  intros Ht Ha. destruct (Ht c) as [He _]. rewrite Ha in He. destruct (room_entries _ !! c) as [e|]; [|done]. eauto.
Qed.

Lemma return_of_active s c r :
  transfers_ok s → returns s !! c = Some r → ∃ t, room_returns (coordinator s) !! c = Some t ∧ return_match c (Some r) (Some t).
Proof.
  intros Ht Hr. destruct (Ht c) as [_ He]. rewrite Hr in He. destruct (room_returns _ !! c) as [t|]; [|done]. eauto.
Qed.

(** A connection has an entry or a return, not both. *)
Lemma entry_excludes_return s c a :
  transfers_ok s → coordinator_ok (coordinator s) → entries s !! c = Some a →
  returns s !! c = None ∧ room_returns (coordinator s) !! c = None.
Proof.
  intros Ht Hok Ha. destruct (entry_of_active _ _ _ Ht Ha) as (e & He & _).
  destruct (entry_of _ _ _ Hok He) as (_ & _ & Hn & _ & _). split; [|done]. destruct (Ht c) as [_ Hr]. rewrite Hn in Hr.
  by destruct (returns s !! c).
Qed.

Lemma return_excludes_entry s c r :
  transfers_ok s → coordinator_ok (coordinator s) → returns s !! c = Some r →
  entries s !! c = None ∧ room_entries (coordinator s) !! c = None.
Proof.
  intros Ht Hok Hr. destruct (return_of_active _ _ _ Ht Hr) as (t & He & _).
  destruct (return_of _ _ _ Hok He) as (_ & _ & Hn & _). split; [|done]. destruct (Ht c) as [Hx _]. rewrite Hn in Hx.
  by destruct (entries s !! c).
Qed.

Section update.
Context (s s' : Server) (c : ConnectionId) (Ht : transfers_ok s) (Hok : coordinator_ok (coordinator s)).

(** A connection whose four entries are unchanged. *)
Definition same_transfer (c' : ConnectionId) : Prop :=
  entries s' !! c' = entries s !! c' ∧ room_entries (coordinator s') !! c' = room_entries (coordinator s) !! c' ∧
  returns s' !! c' = returns s !! c' ∧ room_returns (coordinator s') !! c' = room_returns (coordinator s) !! c'.

Lemma same_waiting c' : same_transfer c' → waiting s' c' = waiting s c'.
Proof. intros (E1 & E2 & E3 & _). unfold waiting. by rewrite E1, E2, E3. Qed.

Lemma transfers_update :
  (∀ c', c' ≠ c → same_transfer c') →
  entry_match c (entries s' !! c) (room_entries (coordinator s') !! c) →
  return_match c (returns s' !! c) (room_returns (coordinator s') !! c) → transfers_ok s'.
Proof using Ht.
  intros Hs He Hr c'. destruct (decide (c' = c)) as [->|Hne]; [done|]. destruct (Hs c' Hne) as (E1 & E2 & E3 & E4).
  rewrite E1, E2, E3, E4. apply Ht.
Qed.

Lemma entry_over a x :
  waiting s c = Some x → entries s !! c = Some a →
  entries s' = delete c (entries s) → room_entries (coordinator s') = delete c (room_entries (coordinator s)) →
  returns s' = returns s → room_returns (coordinator s') = room_returns (coordinator s) →
  room_transitions s' = room_release (room_transitions s) (ae_ticket a) → coordinator_ok (coordinator s') → entry_frame s s' →
  over c (entry_context_ticket x) s s'.
Proof using Ht Hok.
  intros Hx Ha E1 E2 E3 E4 Ech Hok' Hf. destruct (entry_excludes_return _ _ _ Ht Hok Ha) as [N1 N2].
  assert (Hs : ∀ c', c' ≠ c → same_transfer c').
  { intros c' Hne. unfold same_transfer. by rewrite E1, E2, E3, E4, !lookup_delete_ne by done. }
  constructor; try done.
  - unfold waiting. by rewrite E1, E3, lookup_delete_eq, N1.
  - intros c' Hne. by apply same_waiting, Hs.
  - rewrite Ech. unfold waiting in Hx. rewrite Ha in Hx. injection Hx as <-. unfold entry_stage. by destruct (decide _).
  - apply transfers_update; [done|by rewrite E1, E2, !lookup_delete_eq|by rewrite E3, E4, N1, N2].
Qed.

Lemma return_over r x :
  waiting s c = Some x → returns s !! c = Some r →
  returns s' = delete c (returns s) → room_returns (coordinator s') = delete c (room_returns (coordinator s)) →
  entries s' = entries s → room_entries (coordinator s') = room_entries (coordinator s) →
  room_transitions s' = room_release (room_transitions s) (ar_ticket r) → coordinator_ok (coordinator s') → entry_frame s s' →
  over c (entry_context_ticket x) s s'.
Proof using Ht Hok.
  intros Hx Hr E1 E2 E3 E4 Ech Hok' Hf. destruct (return_excludes_entry _ _ _ Ht Hok Hr) as [N1 N2].
  assert (Hs : ∀ c', c' ≠ c → same_transfer c').
  { intros c' Hne. unfold same_transfer. by rewrite E1, E2, E3, E4, !lookup_delete_ne by done. }
  constructor; try done.
  - unfold waiting. by rewrite E1, E3, N1, lookup_delete_eq.
  - intros c' Hne. by apply same_waiting, Hs.
  - rewrite Ech. unfold waiting in Hx. rewrite N1, Hr in Hx. by injection Hx as <-.
  - apply transfers_update; [done|by rewrite E3, E4, N1, N2|by rewrite E1, E2, !lookup_delete_eq].
Qed.

Lemma entry_inserted a e :
  entry_match c (Some a) (Some e) →
  entries s' = <[c := a]> (entries s) → room_entries (coordinator s') = <[c := e]> (room_entries (coordinator s)) →
  returns s' = returns s → room_returns (coordinator s') = room_returns (coordinator s) →
  waiting s' c = Some (entry_stage (Some e) a) ∧ (∀ c', c' ≠ c → waiting s' c' = waiting s c') ∧ transfers_ok s'.
Proof using Ht.
  intros Hm E1 E2 E3 E4.
  assert (Hs : ∀ c', c' ≠ c → same_transfer c').
  { intros c' Hne. unfold same_transfer. by rewrite E1, E2, E3, E4, !lookup_insert_ne by done. }
  split_and!.
  - unfold waiting. by rewrite E1, E2, !lookup_insert_eq.
  - intros c' Hne. by apply same_waiting, Hs.
  - apply transfers_update; [done|by rewrite E1, E2, !lookup_insert_eq|rewrite E3, E4; apply Ht].
Qed.

Lemma return_inserted r t :
  return_match c (Some r) (Some t) → entries s !! c = None →
  returns s' = <[c := r]> (returns s) → room_returns (coordinator s') = <[c := t]> (room_returns (coordinator s)) →
  entries s' = entries s → room_entries (coordinator s') = room_entries (coordinator s) →
  waiting s' c = Some (return_context r) ∧ (∀ c', c' ≠ c → waiting s' c' = waiting s c') ∧ transfers_ok s'.
Proof using Ht.
  intros Hm Hn E1 E2 E3 E4.
  assert (Hs : ∀ c', c' ≠ c → same_transfer c').
  { intros c' Hne. unfold same_transfer. by rewrite E1, E2, E3, E4, !lookup_insert_ne by done. }
  split_and!.
  - unfold waiting. by rewrite E1, E3, Hn, lookup_insert_eq.
  - intros c' Hne. by apply same_waiting, Hs.
  - apply transfers_update; [done|rewrite E3, E4; apply Ht|by rewrite E1, E2, !lookup_insert_eq].
Qed.

(** Nothing changed for any connection. *)
Lemma transfers_same : (∀ c', same_transfer c') → transfers_ok s' ∧ ∀ c', waiting s' c' = waiting s c'.
Proof using Ht.
  intros Hs. split; [|intros c'; by apply same_waiting]. intros c'. destruct (Hs c') as (E1 & E2 & E3 & E4).
  rewrite E1, E2, E3, E4. apply Ht.
Qed.
End update.

(** ** The coordinator's part *)

Lemma findRoomEntry_of rc c e : room_entries rc !! c = Some e → findRoomEntry rc c (entry_id e) = Some e.
Proof. intros E. unfold findRoomEntry. by rewrite E, Z.eqb_refl. Qed.

Lemma findRoomReturn_of rc c t : room_returns rc !! c = Some t → findRoomReturn rc c (return_id t) = Some t.
Proof. intros E. unfold findRoomReturn. by rewrite E, Z.eqb_refl. Qed.

Lemma abandon_rooms rc c :
  room_entries (RouteCoordinator.abandon rc c) = delete c (room_entries rc) ∧
  room_returns (RouteCoordinator.abandon rc c) = delete c (room_returns rc).
Proof. unfold RouteCoordinator.abandon, bump_if. by repeat case_match. Qed.

(** ** Handlers *)

Section service.
Context (accept : Server → RoutedCommand → PostResult) (now : time_point).
Abbreviation post := (fun s c => Ret (accept s c)).

Section on_entry.
Context (s : Server) (c : ConnectionId) (a : ActiveEntry) (e : RoomEntry) (x : RoomEntryContext).
Context (Ht : transfers_ok s) (Hok : coordinator_ok (coordinator s)) (Ha : entries s !! c = Some a)
        (He : room_entries (coordinator s) !! c = Some e) (Hm : entry_match c (Some a) (Some e))
        (Hx : waiting s c = Some x).

Lemma entry_names : ae_connection a = c ∧ ae_entry_id a = entry_id e.
Proof using Hm. by destruct Hm as (? & ? & _). Qed.

(** The entry taken back before the player left its zone. *)
Lemma rolled_back : ∃ rc', rollbackRoomEntryBeforeLeave (coordinator s) c (entry_id e) = (true, rc') ∧ coordinator_ok rc' ∧
  room_entries rc' = delete c (room_entries (coordinator s)) ∧ room_returns rc' = room_returns (coordinator s) ∧
  routes rc' = routes (coordinator s) ∧ in_rooms rc' = in_rooms (coordinator s).
Proof using Hok He.
  pose proof (rollbackRoomEntry_ok (coordinator s) c (entry_id e) Hok) as Hok'.
  unfold rollbackRoomEntryBeforeLeave in *. rewrite (findRoomEntry_of _ _ _ He) in *. eexists. split; [reflexivity|]. by split_and!.
Qed.

Lemma compensate_handled : ∃ es s', compensateFailedSourceLeave post now a s = (Ret tt, es, s') ∧
  over c (entry_context_ticket x) s s' ∧ contexts es = [].
Proof using Ht Hok Ha He Hm Hx.
  destruct entry_names as [Hc Hid]. destruct rolled_back as (rc' & E & Hok' & E1 & E2 & _).
  unfold compensateFailedSourceLeave, post_leave_room, rollback_entry, on_routes, mbind, M_bind, tryPost_. simpl.
  rewrite Hc, Hid, E. simpl. do 2 eexists. split; [reflexivity|]. split; [|done]. by apply (entry_over s _ c Ht Hok a).
Qed.

End on_entry.

Section on_entry_completion.
Context (s : Server) (c : ConnectionId) (a : ActiveEntry) (e : RoomEntry) (x : RoomEntryContext).
Context (Ht : transfers_ok s) (Hok : coordinator_ok (coordinator s)) (Ha : entries s !! c = Some a)
        (He : room_entries (coordinator s) !! c = Some e) (Hm : entry_match c (Some a) (Some e))
        (Hx : waiting s c = Some x).

Lemma leaveSource_completed completion :
  room_handled c x s (handleLeaveSourceCompletion post now completion a s).
Proof using Ht Hok Ha He Hm Hx.
  destruct (entry_names c a e Hm) as [Hc Hid]. unfold handleLeaveSourceCompletion.
  assert (Hcomp : room_handled c x s (compensateFailedSourceLeave post now a s)).
  { destruct (compensate_handled s c a e x Ht Hok Ha He Hm Hx) as (es & s' & -> & ? & ?). by left. }
  destruct (rt_position completion) as [position|]; [|exact Hcomp]. case_bool_decide; [|exact Hcomp]. cbn [negb].
  pose proof (completeRoomEntry_ok (coordinator s) c (entry_id e) position Hok) as Hok1.
  destruct (entry_of _ _ _ Hok He) as (_ & _ & Hnr & _ & _).
  unfold mbind at 1, M_bind at 1, on_routes. rewrite Hc, Hid. unfold completeRoomEntry in *.
  rewrite (findRoomEntry_of _ _ _ He) in *. cbn [snd] in Hok1.
  match type of Hok1 with coordinator_ok ?r => set (rc1 := r) in * end.
  unfold mbind, M_bind, post_leave_room, tryPost_. destruct (ae_disconnecting a); simpl.
  - left. split; [|done].
    assert (E : room_entries (RouteCoordinator.abandon rc1 c) = delete c (room_entries (coordinator s)) ∧
                room_returns (RouteCoordinator.abandon rc1 c) = room_returns (coordinator s)).
    { destruct (abandon_rooms rc1 c) as [-> ->]. simpl. split; [apply delete_delete_eq|by apply delete_id]. }
    destruct E as [E1 E2]. apply (entry_over s _ c Ht Hok a); try done. simpl. by apply abandon_ok.
  - left. split; [|done]. by apply (entry_over s _ c Ht Hok a).
Qed.

Lemma joinRoom_completed completion :
  entry_step e = RequestSnapshot → room_handled c x s (handleJoinRoomCompletion post now completion a s).
Proof using Ht Hok Ha He Hm Hx.
  intros Hst. destruct (entry_names c a e Hm) as [Hc Hid]. unfold handleJoinRoomCompletion. rewrite Hc, Hid.
  destruct (rolled_back s c e Hok He) as (rc' & E & Hok' & E1 & E2 & _).
  case_bool_decide; cbn [negb].
  2:{ unfold rollback_entry, on_routes, mbind, M_bind. rewrite E. simpl. left. split; [|done].
      by apply (entry_over s _ c Ht Hok a). }
  pose proof (proj2 (entry_steps_ok (coordinator s) c (entry_id e) Hok)) as Hok1.
  unfold mbind at 1, M_bind at 1, on_routes. unfold noteRoomJoined in *. rewrite (findRoomEntry_of _ _ _ He), Hst in *. simpl in Hok1.
  rewrite (bool_decide_false (RequestSnapshot = EntryJoinRoom)), (bool_decide_true (RequestSnapshot = RequestSnapshot)) by done.
  cbn [negb andb]. set (rc1 := set_room_entries _ _) in *. set (e1 := with_entry_step EntryLeaveSource e) in *.
  assert (He1 : room_entries rc1 !! c = Some e1) by apply lookup_insert_eq.
  assert (Hm1 : entry_match c (Some a) (Some e1)).
  { destruct Hm as (?&?&?&?&?&?&?&_). unfold entry_match. split_and!; try done. by right. }
  assert (Hw : waits c (leave_context a) s (set_coordinator rc1 s)).
  { assert (Hins : entries (set_coordinator rc1 s) = <[c := a]> (entries s)) by (simpl; by rewrite insert_id).
    destruct (entry_inserted s (set_coordinator rc1 s) c Ht a e1 Hm1 Hins) as (? & ? & ?); [done..|]. by constructor. }
  assert (Hold : x = join_context a).
  { unfold waiting in Hx. rewrite Ha, He in Hx. injection Hx as <-. unfold entry_stage. simpl. by rewrite Hst. }
  destruct (ae_disconnecting a).
  - pose proof (rollbackRoomEntry_ok rc1 c (entry_id e1) Hok1) as Hok2.
    unfold post_leave_room, rollback_entry, on_routes, mbind, M_bind, tryPost_. simpl. change (entry_id e) with (entry_id e1).
    unfold rollbackRoomEntryBeforeLeave in *. rewrite (findRoomEntry_of _ _ _ He1) in *. simpl in *. left. split; [|done].
    apply (entry_over s _ c Ht Hok a); try done. simpl. apply delete_insert_eq.
  - unfold mbind, M_bind, tryPost_. set (s1 := set_coordinator rc1 s) in *. set (cmd := mkRouted c _).
    case_bool_decide as Hacc; cbn [negb when].
    + right. exists (leave_context a). split_and!; [exact Hw| |by rewrite Hold..|by rewrite Hold].
      simpl. by rewrite bool_decide_true.
    + assert (Hx1 : waiting s1 c = Some (leave_context a)) by apply Hw.
      destruct (compensate_handled s1 c a e1 (leave_context a) (wt_transfers _ _ _ _ Hw) Hok1 Ha He1 Hm1 Hx1) as (es & s' & -> & Hov & Hes).
      left. split.
      * destruct Hov as [O1 O2 O3 O4 O5 O6]. constructor; try done.
        -- intros c' Hne. rewrite O2 by done. by apply Hw.
        -- rewrite O3, Hold. done.
        -- by eapply entry_frame_trans; [apply Hw|].
      * simpl. rewrite bool_decide_false by done. done.
Qed.
End on_entry_completion.

Lemma returnZone_completed s c r t x completion :
  transfers_ok s → coordinator_ok (coordinator s) → returns s !! c = Some r → room_returns (coordinator s) !! c = Some t →
  return_match c (Some r) (Some t) → waiting s c = Some x →
  room_handled c x s (handleReturnZoneCompletion completion r s).
Proof.
  intros Ht Hok Hr Hrt (Hc & Hid & _) Hx. unfold handleReturnZoneCompletion. rewrite Hc, Hid.
  destruct (room_return_ends_ok (coordinator s) c (return_id t) Hok) as [Hok1 Hok2].
  unfold completeRoomReturn, abandonRoomReturn in *. pose proof (findRoomReturn_of _ _ _ Hrt) as Hf. rewrite Hf in Hok1, Hok2.
  destruct (return_of _ _ _ Hok Hrt) as (_ & _ & Hne & _ & _).
  destruct (negb _ && negb _).
  - unfold abandon_return, abandonRoomReturn, on_routes, mbind, M_bind. rewrite Hf. simpl. left. split; [|done].
    by apply (return_over s _ c Ht Hok r).
  - unfold mbind at 1, M_bind at 1, on_routes. rewrite Hf. cbn [fst snd] in Hok1.
    match type of Hok1 with coordinator_ok ?x => set (rc1 := x) in * end. unfold mbind, M_bind.
    destruct (ar_disconnecting r); simpl; left; (split; [|done]).
    + assert (E : room_returns (RouteCoordinator.abandon rc1 c) = delete c (room_returns (coordinator s)) ∧
                  room_entries (RouteCoordinator.abandon rc1 c) = room_entries (coordinator s)).
      { destruct (abandon_rooms rc1 c) as [-> ->]. simpl. split; [apply delete_delete_eq|by apply delete_id]. }
      destruct E as [E1 E2]. apply (return_over s _ c Ht Hok r); try done. simpl. by apply abandon_ok.
    + by apply (return_over s _ c Ht Hok r).
Qed.

(** A completion that answers the stage of a transfer moves it on. *)
Lemma completion_handled s c x completion :
  transfers_ok s → coordinator_ok (coordinator s) → waiting s c = Some x → answers x completion →
  room_handled c x s (entry_handleCompletion post now completion s).
Proof.
  intros Ht Hok Hx [_ _ Hc Hst]. unfold entry_handleCompletion, find_return, find_entry. pose proof Hx as Hx'. unfold waiting in Hx'.
  destruct (entries s !! c) as [a|] eqn:Ea.
  - destruct (entry_of_active _ _ _ Ht Ea) as (e & He & Hm). injection Hx' as Ex. pose proof Hm as (Hac & _ & _ & _ & _ & _ & _ & Hstep).
    assert (Hconn : entry_context_connection x = c ∧ ((entry_context_step x = EntryJoinRoom ∧ entry_step e = RequestSnapshot) ∨
              entry_context_step x = EntryLeaveSource)).
    { rewrite <-Ex, He. unfold entry_stage. simpl. destruct Hstep as [-> | ->]; simpl; (split; [done|]); [by left|by right]. }
    destruct Hconn as [Hxc Hk]. rewrite Hc, Hst, Hxc. unfold mbind, M_bind, gets. 
    destruct Hk as [[-> Hsnap]| ->]; rewrite (bool_decide_false (_ = ReturnZone)) by done; rewrite Ea.
    + rewrite bool_decide_true by done. pose proof (joinRoom_completed s c a e x Ht Hok Ea He Hm Hx completion Hsnap) as H.
      by destruct (handleJoinRoomCompletion _ _ _ _ _) as [[[] ?] ?].
    + rewrite bool_decide_false, bool_decide_true by done. pose proof (leaveSource_completed s c a e x Ht Hok Ea He Hm Hx completion) as H.
      by destruct (handleLeaveSourceCompletion _ _ _ _ _) as [[[] ?] ?].
  - destruct (returns s !! c) as [r|] eqn:Er; [|done]. injection Hx' as Ex.
    destruct (return_of_active _ _ _ Ht Er) as (t & Hrt & Hm). pose proof Hm as (Hrc & _).
    rewrite Hc, Hst, <-Ex. simpl. rewrite Hrc. unfold mbind, M_bind, gets. rewrite Er.
    pose proof (returnZone_completed s c r t x completion Ht Hok Er Hrt Hm Hx) as H.
    rewrite Ex. by destruct (handleReturnZoneCompletion _ _ _) as [[[] ?] ?].
Qed.
End service.
