(* ===== verification/RoomEntrySpec.v ===== *)
(** * Room transfers: invariant and theorems

    The room entry service, the route coordinator, the room transition channel
    and the actors together, as in [HandoffSpec]: stages posted to actors, any
    answers to them, turns of the network thread, requests of rooms to send
    their players back, disconnects, refused posts, operations of the other
    components, and shutdown, in any order. *)

From S2P Require Import Prelude Zone Player RoomTypes Connection SessionDirectory RouteCoordinator RouteSpec Distribution Ring TransitionChannel TransitionSpec Server Handoff RoomEntry RoomStages RoomEntryCalls.

(** ** The system *)

(** The stages with actors, and whether an actor ever failed to publish a
    completion while the channel was open. *)
Record RoomSystem := mkRoomSystem {
  room_server : Server;
  room_in_flight : list RoomEntryContext;
  room_publish_failed : bool
}.

Inductive RoomTransferOp :=
| TStart (accept : Server → RoutedCommand → PostResult) (now : time_point) (c : ConnectionId) (request_id : Z) (player : PlayerId)
    (room : RoomId)
| TReturn (accept : Server → RoutedCommand → PostResult) (now : time_point) (c : ConnectionId) (room : RoomId)
| TRoomBusy (c : ConnectionId) (request_id : Z) (kind : RoomReplyKind)
| TZoneBlocked (c : ConnectionId) (request_id : Z) (kind : ZoneReplyKind)
| TDisconnect (accept : Server → RoutedCommand → PostResult) (c : ConnectionId)
| TExecute (i : nat) (answer : StageAnswer) (now : time_point)
| TRequest (request : RoomReturnRequest)
| TDrain (accept : Server → RoutedCommand → PostResult) (now : time_point)
| TRoutes (op : RouteOp)
| TOthers (d : PlayerSessionDirectory) (channel : ZoneTransitionChannel) (service : ZoneHandoffService)
| TClose
| TCancel.

(** The operations on routes that other components call: all but those of room
    transfers, and [abandon] only for a connection that has none. *)
Definition outside_rooms (rc : RouteCoordinator) (op : RouteOp) : bool :=
  match op with
  | RBeginEntry _ _ _ _ | RSnapshotReady _ _ | RRoomJoined _ _ | RCompleteEntry _ _ _ | RRollbackEntry _ _
  | RBeginReturn _ _ | RCompleteReturn _ _ | RAbandonReturn _ _ => false
  | RAbandon c => negb (has_value (room_entries rc !! c)) && negb (has_value (room_returns rc !! c))
  | _ => true
  end.

Definition room_call {A} (m : M A) (sys : RoomSystem) : outcome RoomSystem :=
  match m (room_server sys) with
  | (Ret _, es, s) => Ret (mkRoomSystem s (room_in_flight sys ++ contexts es) (room_publish_failed sys))
  | (Throw e, _, _) => Throw e
  end.

(** An actor answers a stage and publishes the completion. *)
Definition room_execute (i : nat) (answer : StageAnswer) (now : time_point) (sys : RoomSystem) : RoomSystem :=
  match room_in_flight sys !! i with
  | Some x =>
      let s := room_server sys in
      let '(ok, ch) := room_publish (room_transitions s) (entry_context_ticket x) (entry_completion x answer) now in
      mkRoomSystem (set_room_transitions ch s) (delete i (room_in_flight sys))
        (room_publish_failed sys || (negb ok && negb (chan_cancelled (completions (room_transitions s)))))
  | None => sys
  end.

Definition room_set (s : Server) (sys : RoomSystem) : RoomSystem := mkRoomSystem s (room_in_flight sys) (room_publish_failed sys).

Definition tstep (sys : RoomSystem) (op : RoomTransferOp) : outcome RoomSystem :=
  let s := room_server sys in
  match op with
  | TStart accept now c request_id player room =>
      room_call (entry_tryStart (fun s c => Ret (accept s c)) now c request_id player room) sys
  | TReturn accept now c room => room_call (startReturn (fun s c => Ret (accept s c)) now c room) sys
  | TRoomBusy c request_id kind => room_call (tryReplyRoomBusy c request_id kind) sys
  | TZoneBlocked c request_id kind => room_call (tryReplyZoneBlockedByRoom c request_id kind) sys
  | TDisconnect accept c => room_call (entry_noteDisconnect (fun s c => Ret (accept s c)) c) sys
  | TExecute i answer now => Ret (room_execute i answer now sys)
  | TRequest request => Ret (room_set (set_room_transitions (tryPublishReturnRequest (room_transitions s) request).2 s) sys)
  | TDrain accept now => room_call (entry_drain (fun s c => Ret (accept s c)) now) sys
  | TRoutes op =>
      if outside_rooms (coordinator s) op then Ret (room_set (set_coordinator (route_step (coordinator s) op).2 s) sys) else Ret sys
  | TOthers d channel service =>
      Ret (room_set (set_handoff_service service (set_zone_transitions channel (set_sessions d s))) sys)
  | TClose => room_call entry_close sys
  | TCancel => room_call entry_cancel sys
  end.

Fixpoint trun (sys : RoomSystem) (ops : list RoomTransferOp) : outcome RoomSystem :=
  match ops with
  | [] => Ret sys
  | op :: rest => let! sys := tstep sys op in trun sys rest
  end.

(** ** Invariant *)

Record room_base (s : Server) (a : ARoomChannel) : Prop := {
  rb_coord : coordinator_ok (coordinator s);
  rb_sim : room_simulates (room_transitions s) a;
  rb_stale : entry_stale s = 0;
  rb_turn : 1 <= entry_turn (entry_service s);
  rb_transfers : transfers_ok s;
  rb_closed : a_cancelled a.1 = true → entry_admission_closed (entry_service s) = true ∧ entries s = ∅ ∧ returns s = ∅
}.

Definition room_live (s : Server) (fl : list RoomEntryContext) (a : ARoomChannel) : Prop :=
  a_cancelled a.1 = false → stages_ok None (waiting s) fl a.1.

Definition room_ok (s : Server) (fl : list RoomEntryContext) (a : ARoomChannel) : Prop := room_base s a ∧ room_live s fl a.

Definition transfer_ok (sys : RoomSystem) (a : ARoomChannel) : Prop :=
  room_ok (room_server sys) (room_in_flight sys) a ∧ room_publish_failed sys = false.

Lemma room_release_sim rc a t : room_simulates rc a → room_simulates (room_release rc t) (a_release a.1 t, a.2).
Proof. intros Hs. destruct (room_via rc a (ORelease t) Hs) as (ch' & E & Hs'). simpl in *. by injection E as <-. Qed.

(** Nothing changed but what the invariant does not see. *)
Lemma room_untouched s s' fl a a' :
  room_ok s fl a → coordinator_ok (coordinator s') → (∀ c, same_transfer s s' c) → entry_frame s s' →
  room_simulates (room_transitions s') a' → a'.1 = a.1 → room_ok s' fl a'.
Proof.
  intros [[B1 B2 B3 Bt Bf B4] Hl] Hok Hs [Et Ec Es] Hsim Ea. destruct (transfers_same s s' Bf Hs) as [Ht Hw]. split.
  - constructor; try done; [congruence|by rewrite Et|]. rewrite Ea. intros Hc. destruct (B4 Hc) as (C1 & C2 & C3).
    split_and!; [congruence|apply map_eq; intros c; destruct (Hs c) as (-> & _)..|]; [by rewrite C2|].
    apply map_eq. intros c. destruct (Hs c) as (_ & _ & -> & _). by rewrite C3.
  - unfold room_live. rewrite Ea. intros Hnc. eapply stages_ext; [exact Hw|by apply Hl].
Qed.

(** A handled transfer leaves the invariant, without a hole. *)
Lemma room_handled_ok s fl a c x es s' :
  room_base s a → a_cancelled a.1 = false → stages_ok (Some c) (waiting s) fl a.1 → waiting s c = Some x →
  room_handled c x s (Ret tt, es, s') →
  ∃ a', room_ok s' (fl ++ contexts es) a' ∧ a_cancelled a'.1 = false ∧ a_queue a'.1 = a_queue a.1 ∧ a'.2 = a.2 ∧
        zsum context_weight (contexts es) <= 2 * stage_rank (entry_context_step x).
Proof.
  intros [B1 B2 B3 Bt Bf B4] Hnc Hst Hx [[[O1 O2 O3 O4 O5 [Et Ec Es]] Hes]|(x' & [O1 O2 O3 O4 O5 [Et Ec Es]] & Hes & Htk & Hid & Hrk)].
  - destruct (stages_end (waiting s) (waiting s') fl a.1 c O2 x Hst Hx O1) as (Hst' & Hc' & Hq').
    exists (a_release a.1 (entry_context_ticket x), a.2). rewrite Hes, app_nil_r. cbn [fst snd] in *. split_and!; try done; try congruence.
    + split; [|by intros _]. constructor; try done; [rewrite O3; by apply room_release_sim|congruence|by rewrite Et|].
      cbn [fst]. rewrite Hc', Hnc. done.
    + simpl. destruct (entry_context_step x); simpl; lia.
  - exists a. rewrite Hes. split_and!; try done.
    + split; [|intros _; by eapply stages_post]. constructor; try done; [by rewrite O3|congruence|by rewrite Et|].
      rewrite Hnc. done.
    + simpl. unfold context_weight. lia.
Qed.

(** ** Starting a transfer *)

Lemma room_cancelled_empty s fl a : room_ok s fl a → a_cancelled a.1 = true → a_queue a.1 = [].
Proof.
  intros [Hb _] Hc. destruct (rb_sim _ _ Hb) as [Hsim _]. destruct (a_queue a.1) as [|[t k] q] eqn:Eq; [done|].
  destruct (sim_queued _ _ Hsim t) as [p Hp]; [rewrite Eq; left|]. by rewrite (proj2 (sim_cancelled _ _ Hsim) Hc) in Hp.
Qed.

Lemma tryBeginRoomReturn_spec rc c room :
  coordinator_ok rc →
  match tryBeginRoomReturn rc c room with
  | Ret (Some t, rc') =>
      coordinator_ok rc' ∧ room_returns rc !! c = None ∧ room_entries rc !! c = None ∧
      room_returns rc' = <[c := t]> (room_returns rc) ∧ room_entries rc' = room_entries rc
  | Ret (None, rc') => rc' = rc
  | Throw e => e = OverflowError
  end.
Proof.
  intros Hok. destruct (tryBeginRoomReturn rc c room) as [[[t|] rc']|e] eqn:E.
  - pose proof (tryBeginRoomReturn_ok _ _ _ _ _ Hok E) as Hok'. unfold tryBeginRoomReturn in E.
    destruct (in_rooms rc !! c) as [i|] eqn:Ei; [|done]. destruct (in_room_of _ _ _ Hok Ei) as (_ & _ & T1 & T2 & _).
    destruct (_ || _); [done|]. destruct (next_epoch rc _) as [[epoch rc1]|] eqn:En; [|done]. simpl in E.
    destruct (epochs_range _ _ _ _ Hok En) as (_ & E1 & _). injection E as <- <-. rewrite E1 in *. by split_and!.
  - unfold tryBeginRoomReturn in E. destruct (in_rooms rc !! c); [|by injection E as <-]. destruct (_ || _); [by injection E as <-|].
    by destruct (next_epoch rc _) as [[? ?]|].
  - unfold tryBeginRoomReturn in E. destruct (in_rooms rc !! c); [|done]. destruct (_ || _); [done|].
    unfold next_epoch, throw_if in E. destruct (_ =? _); simpl in E; [|done]. by injection E as <-.
Qed.

Lemma tryBeginRoomEntry_spec rc c player room request :
  coordinator_ok rc →
  match tryBeginRoomEntry rc c player room request with
  | (Some e, rc') =>
      coordinator_ok rc' ∧ room_returns rc !! c = None ∧ room_entries rc !! c = None ∧
      room_entries rc' = <[c := e]> (room_entries rc) ∧ room_returns rc' = room_returns rc ∧
      ∃ source, routes rc !! c = Some source ∧ route_player source = player ∧ e = mkRoomEntry (entry_id e) source room request RequestSnapshot
  | (None, rc') => coordinator_ok rc' ∧ room_entries rc' = room_entries rc ∧ room_returns rc' = room_returns rc
  end.
Proof.
  intros Hok. pose proof (tryBeginRoomEntry_ok rc c player room request Hok) as Hok'. unfold tryBeginRoomEntry in *.
  destruct (routes rc !! c) as [source|] eqn:Er; [|done]. destruct (_ || _) eqn:Eg; [done|]. to_prop.
  match goal with H : in_transition _ _ = false |- _ => apply in_transition_false in H as (T1 & T2 & T3 & T4) end.
  split_and!; try done. by exists source.
Qed.

(** The reserved ticket in the abstract channel. *)
Lemma room_reserve_sim rc a id : room_simulates rc a →
  ∃ rc', tryReserveEntry rc id = ((a_reserve a.1 id).1, rc') ∧ tryReserveReturn rc id = ((a_reserve a.1 id).1, rc') ∧
         room_simulates rc' ((a_reserve a.1 id).2, a.2).
Proof.
  intros Hs. destruct (room_via rc a (OReserve id) Hs) as (ch' & E & Hs'). unfold tryReserveEntry, tryReserveReturn. simpl in *.
  destruct (tryReserve (completions rc) id), (a_reserve a.1 id). simpl in *. simplify_eq. by eexists.
Qed.

Lemma reserve_None (a : ARoom) id : (a_reserve a id).1 = None → (a_reserve a id).2 = a.
Proof. unfold a_reserve. by destruct (_ || _). Qed.

Lemma reserve_open (a : ARoom) id t : (a_reserve a id).1 = Some t → a_cancelled a = false.
Proof. unfold a_reserve. by destruct (a_cancelled a). Qed.

Section start.
Context (s s2 : Server) (fl : list RoomEntryContext) (a : ARoomChannel) (Hok : room_ok s fl a).
Context (c : ConnectionId) (id t : Z) (x : RoomEntryContext).
Context (Hnone : waiting s c = None) (Hres : (a_reserve a.1 id).1 = Some t).
Context (Hx : waiting s2 c = Some x) (Hothers : ∀ c', c' ≠ c → waiting s2 c' = waiting s c') (Ht2 : transfers_ok s2).
Context (Htk : entry_context_ticket x = t) (Hid : context_id x = id).
Context (Hok2 : coordinator_ok (coordinator s2)) (Hsim : room_simulates (room_transitions s2) ((a_reserve a.1 id).2, a.2))
        (Hf : entry_frame s s2).

(** A transfer begun, before its first stage. *)
Lemma room_start_hole : let a1 := ((a_reserve a.1 id).2, a.2) in
  room_base s2 a1 ∧ a_cancelled a1.1 = false ∧ a_queue a1.1 = a_queue a.1 ∧ stages_ok (Some c) (waiting s2) fl a1.1.
Proof using Type*.
  cbv zeta. cbn [fst]. pose proof (reserve_open _ _ _ Hres) as Hnc. destruct Hok as [[B1 B2 B3 Bt Bf B4] Hl].
  assert (E : a_reserve a.1 id = (Some t, (a_reserve a.1 id).2)) by (rewrite <-Hres; by destruct (a_reserve a.1 id)).
  destruct (stages_start (waiting s) (waiting s2) fl a.1 c Hothers id t _ (completions (room_transitions s)) x
              (proj1 B2) (Hl Hnc) Hnone E Hx Htk Hid) as (Hst & Hc & Hq).
  destruct Hf as [Et Ec Es]. split_and!; try done; [|by rewrite Hc].
  constructor; try done; [congruence|by rewrite Et|]. cbn [fst]. rewrite Hc, Hnc. done.
Qed.
End start.

Lemma not_waiting s fl a c :
  room_ok s fl a → room_entries (coordinator s) !! c = None → room_returns (coordinator s) !! c = None →
  entries s !! c = None ∧ returns s !! c = None ∧ waiting s c = None.
Proof.
  intros [Hb _] He Hr. destruct (rb_transfers _ _ Hb c) as [H1 H2]. rewrite He in H1. rewrite Hr in H2.
  destruct (entries s !! c) eqn:E1; [done|]. destruct (returns s !! c) eqn:E2; [done|]. unfold waiting. by rewrite E1, E2.
Qed.

(** A call that starts stages of weight [w] at most. *)
Definition room_call_ok (w : Z) (fl : list RoomEntryContext) (a : ARoomChannel) {A} (r : outcome A * list Effect * Server) : Prop :=
  match r with
  | (Ret _, es, s') =>
      ∃ a', room_ok s' (fl ++ contexts es) a' ∧ a_cancelled a'.1 = a_cancelled a.1 ∧ a_queue a'.1 = a_queue a.1 ∧ a'.2 = a.2 ∧
            zsum context_weight (contexts es) <= w
  | (Throw e, _, _) => e = OverflowError
  end.

Lemma startReturn_ok accept now c room s fl a :
  room_ok s fl a → room_call_ok 2 fl a (startReturn (fun s c => Ret (accept s c)) now c room s).
Proof.
  intros Hok. pose proof Hok as [Hb Hl]. unfold startReturn. unfold mbind at 1, M_bind at 1, on_routes_throwing.
  pose proof (tryBeginRoomReturn_spec (coordinator s) c room (rb_coord _ _ Hb)) as Hspec.
  destruct (tryBeginRoomReturn (coordinator s) c room) as [[[t|] rc1]|e]; [..|done].
  2:{ subst rc1. simpl. exists a. rewrite app_nil_r. destruct s. by split_and!. }
  destruct Hspec as (Hok1 & Hn1 & Hn2 & E1 & E2). destruct (not_waiting s fl a c Hok Hn2 Hn1) as (N1 & N2 & N3).
  destruct (room_reserve_sim _ _ (return_id t) (rb_sim _ _ Hb)) as (ch1 & _ & Er & Hsim).
  assert (Habandon : ∃ rc2, abandonRoomReturn rc1 c (return_id t) = (true, rc2) ∧ coordinator_ok rc2 ∧
            room_returns rc2 = room_returns (coordinator s) ∧ room_entries rc2 = room_entries (coordinator s)).
  { pose proof (proj2 (room_return_ends_ok rc1 c (return_id t) Hok1)) as Hok2. unfold abandonRoomReturn in *.
    rewrite (findRoomReturn_of rc1 c t) in * by (rewrite E1; apply lookup_insert_eq). simpl in *. eexists. split; [reflexivity|].
    split_and!; [done| |done]. simpl. rewrite E1. by apply delete_insert_id. }
  destruct Habandon as (rc2 & Ea & Hok2 & F1 & F2).
  unfold mbind at 1, M_bind at 1, on_room_transitions. cbn [room_transitions set_coordinator]. rewrite Er.
  destruct (a_reserve a.1 (return_id t)).1 as [ticket|] eqn:Eres.
  2:{ pose proof (reserve_None _ _ Eres) as Esame. rewrite Esame in Hsim. destruct a as [a q].
      unfold abandon_return, on_routes, mbind, M_bind. simpl. rewrite Ea. simpl. exists (a, q). rewrite app_nil_r.
      split_and!; try done. eapply room_untouched; [exact Hok|done| |done|exact Hsim|done].
      intros c'. unfold same_transfer. simpl. by rewrite F1, F2. }
  cbv zeta. unfold mbind at 1, M_bind at 1, gets at 1. unfold mbind at 1, M_bind at 1, set_active_returns, modify_entries, modify.
  set (r := mkActiveReturn _ _ _ _ _ _ _ _ _ _).
  match goal with |- context [(tryPost_ _ _ ≫= _) ?x] => set (s2 := x) end.
  assert (Hm : return_match c (Some r) (Some t)) by done.
  destruct (return_inserted s s2 c (rb_transfers _ _ Hb) r t Hm N1 eq_refl E1 eq_refl E2) as (W1 & W2 & W3).
  assert (Hcid : context_id (return_context r) = return_id t).
  { unfold context_id, expected_id, completionFrom. simpl. by destruct (Z.eqb_spec (return_id t) 0) as [->|]. }
  destruct (room_start_hole s s2 fl a Hok c (return_id t) ticket (return_context r) N3 Eres W1 W2 W3 eq_refl Hcid Hok1 Hsim)
    as (Hb1 & Hnc1 & Hq1 & Hst1); [done|]. cbn [fst] in *. set (a1 := ((a_reserve a.1 (return_id t)).2, a.2)) in *.
  pose proof (reserve_open _ _ _ Eres) as Hnc. unfold mbind at 1, M_bind at 1, tryPost_.
  case_bool_decide as Hacc; cbn [negb when].
  - simpl. rewrite (bool_decide_true _ Hacc). simpl.
    exists a1. split_and!; [|by rewrite Hnc|done|done|unfold context_weight; simpl; lia].
    split; [done|]. intros _. eapply (stages_post (waiting s2)); [done|exact Hst1|exact W1|exact W1|done|done].
  - unfold abandon_return, release_room, erase_return, on_routes, on_room_transitions, mbind, M_bind. simpl.
    change (coordinator s2) with rc1. rewrite Ea. simpl. rewrite (bool_decide_false _ Hacc).
    match goal with |- ∃ a', room_ok ?s' _ a' ∧ _ =>
      destruct (room_handled_ok s2 fl a1 c (return_context r) [] s' Hb1 Hnc1 Hst1 W1) as (a' & ? & ? & Hq' & ? & ?) end.
    { left. split; [|done]. apply (return_over s2 _ c W3 Hok1 r); try done; simpl; [apply lookup_insert_eq| |].
      - by rewrite F1, E1, delete_insert_id.
      - by rewrite F2, E2. }
    exists a'. split_and!; try done; [congruence|by rewrite Hq'].
Qed.

Lemma routeFor_Some rc c r : routeFor rc c = Some r → routes rc !! c = Some r.
Proof. unfold routeFor. by destruct (moving rc c). Qed.

Lemma entry_tryStart_ok accept now c req player room s fl a :
  room_ok s fl a → room_call_ok 4 fl a (entry_tryStart (fun s c => Ret (accept s c)) now c req player room s).
Proof.
  intros Hok. pose proof Hok as [Hb Hl]. unfold entry_tryStart. unfold mbind at 1, M_bind at 1, gets at 1.
  assert (Hsame : room_call_ok 4 fl a (Ret InvalidPayload, [] : list Effect, s)).
  { exists a. simpl. rewrite app_nil_r. by split_and!. }
  destruct (entry_admission_closed (entry_service s)); [exact Hsame|].
  unfold mbind at 1, M_bind at 1, gets at 1. destruct (routeFor (coordinator s) c) as [source|] eqn:Esrc; cbv zeta.
  2:{ simpl. exists a. rewrite app_nil_r. split_and!; try done. eapply room_untouched; [exact Hok|apply Hb|done|done|apply Hb|done]. }
  apply routeFor_Some in Esrc. destruct (Z.eqb_spec (route_player source) player) as [Hp|]; [|exact Hsame]. cbn [negb].
  unfold mbind at 1, M_bind at 1, on_routes.
  pose proof (tryBeginRoomEntry_spec (coordinator s) c player room req (rb_coord _ _ Hb)) as Hspec.
  destruct (tryBeginRoomEntry (coordinator s) c player room req) as [[e|] rc1].
  2:{ destruct Hspec as (Hok1 & E1 & E2). simpl. exists a. rewrite app_nil_r. split_and!; try done.
      eapply room_untouched; [exact Hok|done| |done|apply Hb|done]. intros c'. unfold same_transfer. simpl. by rewrite E1, E2. }
  destruct Hspec as (Hok1 & Hn1 & Hn2 & E1 & E2 & source' & Hsrc & Hpl & He).
  assert (source' = source) as -> by congruence. clear Hpl.
  destruct (not_waiting s fl a c Hok Hn2 Hn1) as (N1 & N2 & N3).
  destruct (room_reserve_sim _ _ (entry_id e) (rb_sim _ _ Hb)) as (ch1 & Er & _ & Hsim).
  assert (Hlook : room_entries rc1 !! c = Some e) by (rewrite E1; apply lookup_insert_eq).
  assert (Hback : ∃ rc2, rollbackRoomEntryBeforeLeave rc1 c (entry_id e) = (true, rc2) ∧ coordinator_ok rc2 ∧
            room_returns rc2 = room_returns (coordinator s) ∧ room_entries rc2 = room_entries (coordinator s)).
  { pose proof (rollbackRoomEntry_ok rc1 c (entry_id e) Hok1) as Hok2. unfold rollbackRoomEntryBeforeLeave in *.
    rewrite (findRoomEntry_of _ _ _ Hlook) in *. simpl in *. eexists. split; [reflexivity|].
    split_and!; [done|done|]. simpl. rewrite E1. by apply delete_insert_id. }
  destruct Hback as (rc2 & Ea & Hok2 & F1 & F2).
  unfold mbind at 1, M_bind at 1, on_room_transitions. cbn [room_transitions set_coordinator]. rewrite Er.
  destruct (a_reserve a.1 (entry_id e)).1 as [ticket|] eqn:Eres.
  2:{ pose proof (reserve_None _ _ Eres) as Esame. rewrite Esame in Hsim. destruct a as [a q].
      unfold rollback_entry, on_routes, mbind, M_bind. simpl. rewrite Ea. simpl. exists (a, q). rewrite app_nil_r.
      split_and!; try done. eapply room_untouched; [exact Hok|done| |done|exact Hsim|done].
      intros c'. unfold same_transfer. simpl. by rewrite F1, F2. }
  unfold mbind at 1, M_bind at 1, rethrowing. unfold mbind at 1, M_bind at 1, gets at 1.
  cbn [entry_service set_room_transitions set_coordinator]. rewrite N1. cbn [has_value].
  unfold mbind at 1, M_bind at 1, set_active_entries at 1, modify_entries, modify.
  set (x := mkActiveEntry _ _ _ _ _ _ _ _ _ _). match goal with |- context [(tryPost_ _ _ ≫= _) ?x] => set (s2 := x) end.
  assert (Hm : entry_match c (Some x) (Some e)) by (rewrite He; simpl; split_and!; try done; by left).
  destruct (entry_inserted s s2 c (rb_transfers _ _ Hb) x e Hm eq_refl E1 eq_refl E2) as (W1 & W2 & W3).
  assert (Hstage : entry_stage (Some e) x = join_context x) by (rewrite He; done). rewrite Hstage in W1.
  destruct (room_start_hole s s2 fl a Hok c (entry_id e) ticket (join_context x) N3 Eres W1 W2 W3 eq_refl eq_refl Hok1 Hsim)
    as (Hb1 & Hnc1 & Hq1 & Hst1); [done|]. cbn [fst] in *. set (a1 := ((a_reserve a.1 (entry_id e)).2, a.2)) in *.
  pose proof (reserve_open _ _ _ Eres) as Hnc. unfold mbind at 1, M_bind at 1, tryPost_.
  case_bool_decide as Hacc; cbn [negb when].
  - simpl. rewrite (bool_decide_true _ Hacc). simpl. exists a1. split_and!; [|by rewrite Hnc|done|done|unfold context_weight; simpl; lia].
    split; [done|]. intros _. eapply (stages_post (waiting s2)); [done|exact Hst1|exact W1|exact W1|done|done].
  - unfold failEntryBeforeSourceLeave, find_entry, rollback_entry, release_room, erase_entry, on_routes, on_room_transitions, mbind, M_bind, gets.
    change (entries s2) with (<[c := x]> (entries s)). rewrite lookup_insert_eq. simpl.
    change (coordinator s2) with rc1. rewrite Ea. simpl. rewrite (bool_decide_false _ Hacc).
    match goal with |- ∃ a', room_ok ?s' _ a' ∧ _ =>
      destruct (room_handled_ok s2 fl a1 c (join_context x) [] s' Hb1 Hnc1 Hst1 W1) as (a' & ? & ? & Hq' & ? & ?) end.
    { left. split; [|done]. apply (entry_over s2 _ c W3 Hok1 x); try done; simpl; [apply lookup_insert_eq| |].
      - by rewrite F2, E1, delete_insert_id.
      - by rewrite F1, E2. }
    exists a'. split_and!; try done; [congruence|by rewrite Hq'].
Qed.

(** ** Turns of the network thread *)

Lemma completion_loop_ok accept now n s fl a :
  room_ok s fl a → a_cancelled a.1 = false →
  match completion_loop (fun s c => Ret (accept s c)) now n s with
  | (Ret _, es, s') =>
      ∃ a', room_ok s' (fl ++ contexts es) a' ∧ a_cancelled a'.1 = false ∧ a'.2 = a.2 ∧
        room_work (fl ++ contexts es) (a_queue a'.1) a'.2 <= room_work fl (a_queue a.1) a.2 ∧
        (n ≠ 0%nat → a_queue a.1 ≠ [] →
         room_work (fl ++ contexts es) (a_queue a'.1) a'.2 < room_work fl (a_queue a.1) a.2)
  | (Throw _, _, _) => False
  end.
Proof.
  revert s fl a. induction n as [|n IH]; intros s fl a Hok Hnc.
  { simpl. exists a. simpl. rewrite app_nil_r. by split_and!. }
  pose proof Hok as [Hb Hl]. pose proof (Hl Hnc) as Hst. cbn [completion_loop].
  unfold mbind at 1, M_bind at 1, on_room_transitions_throwing.
  destruct (room_chan_step_sim (room_transitions s) a (RPop now) (rb_sim _ _ Hb)) as (rc' & Epop & Hsim). simpl in Epop, Hsim.
  destruct (a_queue a.1) as [|[t k] rest] eqn:Eq.
  { unfold a_pop in Epop, Hsim. rewrite Eq in Epop, Hsim. simpl in Epop, Hsim.
    destruct (room_tryPop (room_transitions s) now) as [[o rc'']|] eqn:Er; simpl in Epop; [|done].
    injection Epop as -> ->. simpl. exists a. rewrite app_nil_r, Eq. split_and!; try done.
    eapply room_untouched; [exact Hok|apply Hb|done|done|destruct a; exact Hsim|done]. }
  destruct (stages_pop (waiting s) fl a.1 t k rest Hst Eq) as (c & x & Hx & Hk & Ep & Hhole). rewrite Ep in Epop, Hsim. simpl in Epop, Hsim.
  destruct (room_tryPop (room_transitions s) now) as [[o rc'']|]; simpl in Epop; [|done]. injection Epop as -> ->.
  set (s1 := set_room_transitions rc' s). set (a1 := (a_set rest (a_reserved a.1) a.1, a.2)) in *.
  assert (Hb1 : room_base s1 a1) by (destruct Hb; by constructor).
  pose proof (completion_handled accept now s1 c x k (rb_transfers _ _ Hb1) (rb_coord _ _ Hb1) Hx Hk) as Hh.
  unfold mbind, M_bind. destruct (entry_handleCompletion _ now k s1) as [[[[]|e] es1] s2]; [|done].
  destruct (room_handled_ok s1 fl a1 c x es1 s2 Hb1 Hnc Hhole Hx Hh) as (a2 & Hok2 & Hnc2 & Hq2 & Hr2 & Hw).
  specialize (IH s2 (fl ++ contexts es1) a2 Hok2 Hnc2).
  destruct (completion_loop _ now n s2) as [[[[]|e] es2] s3]; [|done]. destruct IH as (a3 & Hok3 & Hnc3 & Hr3 & Hw3 & _).
  exists a3. simpl. rewrite contexts_app, app_assoc.
  assert (Hdec : room_work (fl ++ contexts es1) (a_queue a2.1) a2.2 < room_work fl ((t, k) :: rest) a.2).
  { unfold room_work. rewrite zsum_app, Hq2, Hr2. simpl. unfold answer_weight at 2. simpl. rewrite (an_step _ _ Hk). lia. }
  split_and!; try done; try lia. by rewrite Hr3, Hr2.
Qed.

Lemma request_loop_ok accept now n s fl a :
  room_ok s fl a →
  match request_loop (fun s c => Ret (accept s c)) now n s with
  | (Ret _, es, s') =>
      ∃ a', room_ok s' (fl ++ contexts es) a' ∧ a_cancelled a'.1 = a_cancelled a.1 ∧
        room_work (fl ++ contexts es) (a_queue a'.1) a'.2 <= room_work fl (a_queue a.1) a.2 ∧
        (n ≠ 0%nat → a.2 ≠ [] → room_work (fl ++ contexts es) (a_queue a'.1) a'.2 < room_work fl (a_queue a.1) a.2)
  | (Throw e, _, _) => e = OverflowError
  end.
Proof.
  revert s fl a. induction n as [|n IH]; intros s fl a Hok.
  { simpl. exists a. simpl. rewrite app_nil_r. by split_and!. }
  pose proof Hok as [Hb Hl]. cbn [request_loop]. unfold mbind at 1, M_bind at 1, on_room_transitions_throwing.
  destruct (room_pop_request_sim (room_transitions s) a (rb_sim _ _ Hb)) as (rc' & Epop & Hsim). rewrite Epop.
  destruct a as [a q]. cbn [fst snd] in *. set (s1 := set_room_transitions rc' s).
  assert (Hok1 : room_ok s1 fl (a, tail q)) by (eapply room_untouched; [exact Hok|apply Hb|done|done|exact Hsim|done]).
  destruct q as [|request q].
  { simpl. exists (a, []). rewrite app_nil_r. by split_and!. }
  change (head (request :: q)) with (Some request). unfold mbind at 1, M_bind at 1, gets. cbv beta iota.
  assert (Hq : ∀ fl q', room_work fl q' (request :: q) = room_work fl q' q + 3).
  { intros. unfold room_work. unfold zlen. simpl. lia. }
  destruct (connectionFor (sessions s1) (request_player request)) as [c|].
  - unfold mbind, M_bind. pose proof (startReturn_ok accept now c (request_room request) s1 fl (a, q) Hok1) as Hs.
    destruct (startReturn _ now c _ s1) as [[[[]|e] es1] s2]; [|exact Hs]. destruct Hs as (a2 & Hok2 & Hc2 & Hq2 & Hr2 & Hw).
    specialize (IH s2 (fl ++ contexts es1) a2 Hok2). destruct (request_loop _ now n s2) as [[[[]|e] es2] s3]; [|exact IH].
    destruct IH as (a3 & Hok3 & Hc3 & Hw3 & _). exists a3. simpl. rewrite contexts_app, app_assoc, Hq.
    assert (Hdec : room_work (fl ++ contexts es1) (a_queue a2.1) a2.2 <= room_work fl (a_queue a) q + 2).
    { unfold room_work. rewrite zsum_app, Hq2, Hr2. simpl. lia. }
    split_and!; try done; [by rewrite Hc3, Hc2|lia|lia].
  - specialize (IH s1 fl (a, q) Hok1). destruct (request_loop _ now n s1) as [[[[]|e] es2] s3]; [|exact IH].
    destruct IH as (a3 & Hok3 & Hc3 & Hw3 & _). exists a3. simpl in *. rewrite Hq. split_and!; try done; lia.
Qed.

Lemma entry_drain_ok accept now s fl a :
  room_ok s fl a →
  match entry_drain (fun s c => Ret (accept s c)) now s with
  | (Ret _, es, s') =>
      ∃ a', room_ok s' (fl ++ contexts es) a' ∧ a_cancelled a'.1 = a_cancelled a.1 ∧
        (a_cancelled a.1 = false → a_queue a.1 ≠ [] ∨ a.2 ≠ [] →
         room_work (fl ++ contexts es) (a_queue a'.1) a'.2 < room_work fl (a_queue a.1) a.2)
  | (Throw e, _, _) => e = OverflowError
  end.
Proof.
  intros Hok. pose proof Hok as [Hb Hl]. unfold entry_drain. unfold mbind at 1, M_bind at 1, gets at 1.
  set (n := Z.to_nat _). assert (Hn : n ≠ 0%nat) by (pose proof (rb_turn _ _ Hb); unfold n; lia).
  unfold mbind at 1, M_bind at 1.
  assert (Hfirst : ∃ es s1 a1, completion_loop (fun s c => Ret (accept s c)) now n s = (Ret tt, es, s1) ∧
            room_ok s1 (fl ++ contexts es) a1 ∧ a_cancelled a1.1 = a_cancelled a.1 ∧
            (a_cancelled a.1 = false → a1.2 = a.2 ∧
               room_work (fl ++ contexts es) (a_queue a1.1) a1.2 <= room_work fl (a_queue a.1) a.2 ∧
               (a_queue a.1 ≠ [] → room_work (fl ++ contexts es) (a_queue a1.1) a1.2 < room_work fl (a_queue a.1) a.2))).
  { destruct (a_cancelled a.1) eqn:Ec.
    - destruct n as [|n']; [done|]. cbn [completion_loop]. unfold mbind at 1, M_bind at 1, on_room_transitions_throwing, room_tryPop, tryPop.
      destruct (rb_sim _ _ Hb) as [Hsim _]. rewrite (sim_count _ _ Hsim), (room_cancelled_empty _ _ _ Hok Ec). simpl.
      do 2 eexists. exists a. split; [reflexivity|]. simpl. rewrite app_nil_r. split_and!; try done.
      eapply room_untouched; [exact Hok|apply Hb|done|done| |done]. simpl. pose proof (rb_sim _ _ Hb) as Hr. by destruct (room_transitions s).
    - pose proof (completion_loop_ok accept now n s fl a Hok Ec) as H.
      destruct (completion_loop _ now n s) as [[[[]|e] es] s1]; [|done]. destruct H as (a1 & ? & ? & ? & ? & ?).
      exists es, s1, a1. split_and!; try done. intros _. split_and!; try done. auto. }
  destruct Hfirst as (es1 & s1 & a1 & -> & Hok1 & Hc1 & Hw1). unfold mbind at 1, M_bind at 1.
  pose proof (request_loop_ok accept now n s1 (fl ++ contexts es1) a1 Hok1) as H2.
  destruct (request_loop _ now n s1) as [[[[]|e] es2] s2]; [|exact H2]. destruct H2 as (a2 & Hok2 & Hc2 & Hw2 & Hw2').
  unfold mbind, M_bind, gets, when. rewrite <-app_assoc in Hok2, Hw2, Hw2'.
  assert (Hes : ∀ tail, contexts tail = [] → contexts (es1 ++ es2 ++ tail) = contexts es1 ++ contexts es2).
  { intros tl Htl. by rewrite !contexts_app, Htl, app_nil_r. }
  assert (Hfin : a_cancelled a.1 = false → a_queue a.1 ≠ [] ∨ a.2 ≠ [] →
            room_work (fl ++ contexts es1 ++ contexts es2) (a_queue a2.1) a2.2 < room_work fl (a_queue a.1) a.2).
  { intros Hnc Hp. destruct (Hw1 Hnc) as (E & Hle & Hlt). rewrite app_assoc in *. destruct Hp as [Hp|Hp]; [specialize (Hlt Hp); lia|].
    rewrite <-E in Hp. specialize (Hw2' Hn Hp). lia. }
  destruct (room_wakeIfPending (room_transitions s2)); simpl; exists a2; rewrite Hes by done; (split_and!; [done|congruence|done]).
Qed.

(** ** The other steps *)

Lemma room_execute_ok i answer now sys a :
  transfer_ok sys a →
  ∃ a', transfer_ok (room_execute i answer now sys) a' ∧ a_cancelled a'.1 = a_cancelled a.1 ∧ a'.2 = a.2 ∧
    (a_cancelled a.1 = false → (i < length (room_in_flight sys))%nat →
     room_work (room_in_flight (room_execute i answer now sys)) (a_queue a'.1) a'.2 <
     room_work (room_in_flight sys) (a_queue a.1) a.2).
Proof.
  intros [Hok Hf]. pose proof Hok as [Hb Hl]. unfold room_execute. destruct (room_in_flight sys !! i) as [x|] eqn:Ei.
  2:{ exists a. split_and!; try done. intros _ Hlt. apply lookup_ge_None in Ei. lia. }
  pose proof (entry_completion_answers x answer) as Hk. set (k := entry_completion x answer) in *.
  destruct (room_chan_step_sim _ a (RPublish (entry_context_ticket x) k now) (rb_sim _ _ Hb)) as (rc' & E & Hsim).
  simpl in E, Hsim. destruct (room_publish _ _ k now) as [ok rc''].
  rewrite (proj1 (sim_cancelled _ _ (proj1 (rb_sim _ _ Hb)))). destruct (a_cancelled a.1) eqn:Ec.
  - assert (Ea : a_publish expected_id a.1 (entry_context_ticket x) k = (false, a.1)).
    { unfold a_publish. by rewrite (proj2 (sim_cancelled _ _ (proj1 (rb_sim _ _ Hb))) Ec), lookup_empty. }
    rewrite Ea in E, Hsim. injection E as -> ->. exists a. rewrite Hf. simpl. split_and!; try done. split; [|done].
    assert (room_ok (set_room_transitions rc' (room_server sys)) (room_in_flight sys) a) as [Hb' Hl'].
    { eapply room_untouched; [exact Hok|apply Hb|done|done|destruct a; exact Hsim|done]. }
    split; [exact Hb'|]. intros Hnc. congruence.
  - destruct (stages_execute (waiting (room_server sys)) _ a.1 i x k (Hl Ec) Ei Hk) as [Ea Hst].
    rewrite Ea in E, Hsim. injection E as -> ->. simpl in Hsim.
    exists (a_set (a_queue a.1 ++ [(entry_context_ticket x, k)]) (a_reserved a.1) a.1, a.2). rewrite Hf. simpl. split; [split; [|done]|].
    + split; [|intros _; exact Hst]. destruct Hb as [B1 B2 B3 Bt Bf B4]. by constructor.
    + simpl. split_and!; try done. intros _ _. unfold room_work.
      rewrite zsum_app, (zsum_delete context_weight _ _ _ Ei). simpl. unfold answer_weight at 2, context_weight at 2. simpl.
      rewrite (an_step _ _ Hk). lia.
Qed.

(** A call that changes counters only. *)
Definition quiet {A} (s : Server) (r : outcome A * list Effect * Server) : Prop :=
  match r with
  | (Ret _, es, s') =>
      contexts es = [] ∧ coordinator s' = coordinator s ∧ room_transitions s' = room_transitions s ∧ entries s' = entries s ∧
      returns s' = returns s ∧ entry_frame s s'
  | (Throw _, _, _) => False
  end.

Definition call_keeps {A} (m : M A) (sys : RoomSystem) : Prop := ∃ sys' a', room_call m sys = Ret sys' ∧ transfer_ok sys' a'.

Lemma quiet_ok {A} (m : M A) sys a : transfer_ok sys a → quiet (room_server sys) (m (room_server sys)) → call_keeps m sys.
Proof.
  intros [Hok Hf]. unfold call_keeps, room_call. destruct (m (room_server sys)) as [[[r|e] es] s']; [|done].
  intros (Hes & E1 & E2 & E3 & E4 & Hfr). rewrite Hes, app_nil_r. exists (room_set s' sys), a. split; [done|].
  split; [|done]. cbn [room_server room_set room_in_flight]. eapply room_untouched; [exact Hok| | |done| |done].
  - rewrite E1. apply Hok.
  - intros c. unfold same_transfer. by rewrite E1, E3, E4.
  - rewrite E2. apply Hok.
Qed.

Lemma replies_quiet c req zkind rkind s :
  quiet s (tryReplyRoomBusy c req rkind s) ∧ quiet s (tryReplyZoneBlockedByRoom c req zkind s).
Proof.
  unfold tryReplyRoomBusy, tryReplyZoneBlockedByRoom, roomEntryFor, inRoomFor, roomReturnFor, mbind, M_bind, gets, when.
  destruct (room_entries (coordinator s) !! c), (in_rooms (coordinator s) !! c), (room_returns (coordinator s) !! c),
    (bool_decide (rkind = Joined)); by split; simpl; split_and!.
Qed.

Lemma keeps_routes s rc fl a :
  room_ok s fl a → coordinator_ok rc → room_entries rc = room_entries (coordinator s) → room_returns rc = room_returns (coordinator s) →
  room_ok (set_coordinator rc s) fl a.
Proof.
  intros Hok Hrc E1 E2. eapply room_untouched; [exact Hok|done| |done|apply Hok|done].
  intros c. unfold same_transfer. simpl. by rewrite E1, E2.
Qed.

Lemma room_disconnect_ok accept c sys a :
  transfer_ok sys a → call_keeps (entry_noteDisconnect (fun s c => Ret (accept s c)) c) sys.
Proof.
  intros [Hok Hf]. pose proof Hok as [Hb Hl]. unfold call_keeps, room_call, entry_noteDisconnect, find_entry, find_return, mbind, M_bind, gets.
  set (s := room_server sys) in *.
  assert (Hmark : ∀ s', coordinator s' = coordinator s → room_transitions s' = room_transitions s → entry_frame s s' →
            (∀ c', waiting s' c' = waiting s c') → transfers_ok s' → (entries s = ∅ → entries s' = ∅) → (returns s = ∅ → returns s' = ∅) →
            room_ok s' (room_in_flight sys ++ []) a).
  { intros s' E1 E2 [Et Ec Es] Hw Ht N1 N2. rewrite app_nil_r. destruct Hb as [B1 B2 B3 Bt Bf B4]. split.
    - constructor; rewrite ?E1, ?E2; try done; [congruence|by rewrite Et|]. intros Hc. destruct (B4 Hc) as (? & ? & ?).
      split_and!; [congruence|auto..].
    - intros Hnc. eapply stages_ext; [exact Hw|by apply Hl]. }
  destruct (entries s !! c) as [x|] eqn:Ex; [|destruct (returns s !! c) as [r|] eqn:Er].
  - simpl. eexists _, a. split; [reflexivity|]. split; [|done]. apply Hmark; try done.
    + intros c'. unfold waiting. simpl. destruct (decide (c = c')) as [<-|]; [|by rewrite lookup_insert_ne].
      rewrite lookup_insert_eq, Ex. unfold entry_stage. by destruct (decide _).
    + intros c'. simpl. destruct (rb_transfers _ _ Hb c') as [H1 H2]. split; [|done].
      destruct (decide (c = c')) as [<-|]; [|by rewrite lookup_insert_ne]. rewrite lookup_insert_eq, Ex in *. done.
    + intros E. by rewrite E in Ex.
  - simpl. eexists _, a. split; [reflexivity|]. split; [|done]. apply Hmark; try done.
    + intros c'. unfold waiting. simpl. destruct (decide (c = c')) as [<-|]; [|by rewrite lookup_insert_ne].
      by rewrite lookup_insert_eq, Ex, Er.
    + intros c'. simpl. destruct (rb_transfers _ _ Hb c') as [H1 H2]. split; [done|].
      destruct (decide (c = c')) as [<-|]; [|by rewrite lookup_insert_ne]. rewrite lookup_insert_eq, Er in *. done.
    + intros E. by rewrite E in Er.
  - unfold inRoomFor. destruct (in_rooms (coordinator s) !! c) as [i|] eqn:Ei; simpl;
      [|eexists _, a; split; [reflexivity|]; rewrite app_nil_r; by split].
    eexists _, a. split; [reflexivity|]. rewrite app_nil_r. split; [|done].
    destruct (in_room_of _ _ _ (rb_coord _ _ Hb) Ei) as (_ & _ & T1 & T2 & _). destruct (abandon_rooms (coordinator s) c) as [A1 A2].
    assert (room_ok (set_coordinator (RouteCoordinator.abandon (coordinator s) c) s) (room_in_flight sys) a) as Hok'.
    { apply keeps_routes; [done|apply abandon_ok, Hb|rewrite A1; by apply delete_id|rewrite A2; by apply delete_id]. }
    eapply room_untouched; [exact Hok'|apply Hok'|done|done|apply Hok'|done].
Qed.

Lemma outside_rooms_keeps rc op :
  coordinator_ok rc → outside_rooms rc op = true →
  room_entries (route_step rc op).2 = room_entries rc ∧ room_returns (route_step rc op).2 = room_returns rc.
Proof.
  assert (Hn : ∀ p e rc1, next_epoch rc p = Ret (e, rc1) → room_entries rc1 = room_entries rc ∧ room_returns rc1 = room_returns rc).
  { intros p e rc1. unfold next_epoch. intros [_ [= _ <-]]%throw_if_ret. done. }
  intros Hok Ho. destruct op; simpl in Ho; try done; cbn [route_step].
  - unfold tryEnter. repeat (split_if; [done|]). destruct (routes rc !! c); [by split_if|].
    destruct (next_epoch rc player) as [[e rc1]|] eqn:En; simpl; [|done]. by eapply Hn.
  - unfold rollbackEnter, erase_route. by repeat split_if.
  - unfold tryBeginHandoff. destruct (routes rc !! c); [|done]. split_if; [done|].
    destruct (next_epoch rc player) as [[e rc1]|] eqn:En; simpl; [|done]. by eapply Hn.
  - unfold noteSourceLeft. destruct (findHandoff rc c id); [|done]. by split_if.
  - unfold beginSourceRestore. destruct (findHandoff rc c id) as [h|]; [|done]. split_if; [done|].
    destruct (next_epoch rc _) as [[e rc1]|] eqn:En; simpl; [|done]. by eapply Hn.
  - unfold beginCleanup. destruct (findHandoff rc c id); [|done]. by split_if.
  - unfold completeTargetEnter. destruct (findHandoff rc c id); [|done]. by split_if.
  - unfold completeSourceRestore. destruct (findHandoff rc c id); [|done]. by split_if.
  - unfold rollbackHandoffBeforeLeave. destruct (findHandoff rc c id); [|done]. by split_if.
  - unfold completeLeave, erase_route. by repeat split_if.
  - destruct (abandon_rooms rc c) as [A1 A2]. cbn [snd]. rewrite A1, A2.
    destruct (room_entries rc !! c) eqn:E1; [done|]. destruct (room_returns rc !! c) eqn:E2; [done|].
    split; by apply delete_id.
Qed.

(** The loops of [cancel]. *)
Lemma forget_loop {A} (l : list (ConnectionId * A)) s :
  coordinator_ok (coordinator s) →
  ∃ s', mapM_ (fun '(c, _) => forget c) l s = (Ret tt, [], s') ∧ room_transitions s' = room_transitions s ∧
    entry_service s' = entry_service s ∧ coordinator_ok (coordinator s') ∧
    (∀ c, c ∉ l.*1 → room_entries (coordinator s') !! c = room_entries (coordinator s) !! c ∧
                     room_returns (coordinator s') !! c = room_returns (coordinator s) !! c) ∧
    (∀ c, c ∈ l.*1 → room_entries (coordinator s') !! c = None ∧ room_returns (coordinator s') !! c = None).
Proof.
  revert s. induction l as [|[c x] l IH]; intros s Hok; [exists s; split_and!; try done; intros c Hc; by apply elem_of_nil in Hc|].
  cbn [mapM_]. unfold mbind at 1, M_bind at 1, forget at 1. unfold mbind at 1, M_bind at 1. cbn [noteLocation_ on_sessions abandon_ on_routes].
  match goal with |- context [mapM_ _ l ?s1] => destruct (IH s1) as (s' & E & E1 & E2 & Hok' & Hout & Hin); [by apply abandon_ok|] end.
  exists s'. rewrite E. destruct (abandon_rooms (coordinator s) c) as [A1 A2].
  cbn [coordinator set_coordinator set_sessions] in Hout. rewrite A1, A2 in Hout. split_and!; try done.
  - intros c' Hn. apply not_elem_of_cons in Hn as [Hne Hn].
    specialize (Hout c' Hn). by rewrite !lookup_delete_ne in Hout.
  - intros c' Hc'. destruct (decide (c' ∈ l.*1)) as [Hl|Hl]; [by apply Hin|].
    apply elem_of_cons in Hc' as [->|]; [|done]. cbn [fst] in *. destruct (Hout c Hl) as [-> ->]. by rewrite !lookup_delete_eq.
Qed.

Lemma emit_loop {A} (l : list (ConnectionId * A)) s :
  ∃ es, mapM_ (fun '(c, _) => emit (CommandReleased c)) l s = (Ret tt, es, s) ∧ contexts es = [].
Proof.
  induction l as [|[c x] l (es & E & Hp)]; [by exists []|]. exists (CommandReleased c :: es). split; [|done].
  cbn [mapM_]. unfold mbind, M_bind in *. unfold emit at 1. by rewrite E.
Qed.

Lemma in_keys {A} (m : gmap ConnectionId A) c : c ∈ (map_to_list m).*1 ↔ is_Some (m !! c).
Proof.
  rewrite list_elem_of_fmap. split.
  - intros ([c' x] & -> & Hin). apply elem_of_map_to_list in Hin. by exists x.
  - intros [x Hx]. exists (c, x). split; [done|]. by apply elem_of_map_to_list.
Qed.

Lemma entry_cancel_ok sys a : transfer_ok sys a → call_keeps entry_cancel sys.
Proof.
  intros [Hok Hf]. pose proof Hok as [Hb Hl]. unfold call_keeps, room_call, entry_cancel. set (s := room_server sys) in *.
  unfold mbind at 1, M_bind at 1, entry_close at 1, modify_entries at 1, modify at 1.
  unfold mbind at 1, M_bind at 1, on_room_transitions at 1. unfold mbind at 1, M_bind at 1, gets at 1.
  unfold mbind at 1, M_bind at 1, gets at 1. unfold mbind at 1, M_bind at 1, count_entry at 1, modify_entries at 1, modify at 1.
  unfold mbind at 1, M_bind at 1. cbn [entry_service set_entry_service set_room_transitions active_entries active_returns].
  match goal with |- context [mapM_ _ (map_to_list (entries s)) ?s2] =>
    destruct (forget_loop (map_to_list (entries s)) s2 (rb_coord _ _ Hb)) as (s3 & E3 & F1 & F2 & Hok3 & Hout3 & Hin3) end.
  rewrite E3. unfold mbind at 1, M_bind at 1, set_active_entries at 1, modify_entries at 1, modify at 1.
  unfold mbind at 1, M_bind at 1. set (s4 := set_entry_service _ s3).
  destruct (emit_loop (map_to_list (entries s)) s4) as (es & E4 & Hes). rewrite E4. unfold mbind at 1, M_bind at 1.
  destruct (forget_loop (map_to_list (returns s)) s4 Hok3) as (s5 & E5 & G1 & G2 & Hok5 & Hout5 & Hin5). rewrite E5.
  unfold set_active_returns, modify_entries, modify. cbn [app]. rewrite !app_nil_r.
  assert (Hnone : ∀ c, room_entries (coordinator s5) !! c = None ∧ room_returns (coordinator s5) !! c = None).
  { intros c. destruct (decide (c ∈ (map_to_list (returns s)).*1)) as [Hr|Hr]; [by apply Hin5|].
    destruct (Hout5 c Hr) as [-> ->]. change (coordinator s4) with (coordinator s3).
    destruct (decide (c ∈ (map_to_list (entries s)).*1)) as [He|He]; [by apply Hin3|].
    destruct (Hout3 c He) as [-> ->]. simpl. destruct (rb_transfers _ _ Hb c) as [H1 H2].
    destruct (entries s !! c) eqn:Ee; [by destruct He; apply in_keys; rewrite Ee|].
    destruct (returns s !! c) eqn:Er; [by destruct Hr; apply in_keys; rewrite Er|].
    destruct (room_entries (coordinator s) !! c); [done|]. by destruct (room_returns (coordinator s) !! c). }
  eexists _, (a_cancel a.1, []). split; [reflexivity|]. split; [|done]. cbn [room_server room_in_flight]. split.
  - assert (Esv : entry_service s5 = entry_service s4) by done.
    constructor; cbn [fst snd coordinator set_entry_service room_transitions entry_service].
    + done.
    + rewrite G1. unfold s4. simpl. rewrite F1. simpl.
      destruct (room_chan_step_sim _ a RCancel (rb_sim _ _ Hb)) as (rc' & E & Hsim). simpl in E, Hsim. by injection E as <-.
    + unfold entry_stale. simpl. rewrite Esv. simpl. rewrite F2. simpl. apply Hb.
    + rewrite Esv. simpl. rewrite F2. simpl. apply Hb.
    + intros c. simpl. destruct (Hnone c) as [-> ->]. by rewrite Esv.
    + intros _. rewrite Esv. simpl. rewrite F2. done.
  - intros [=].
Qed.

Lemma room_call_keeps {A} (m : M A) w sys a :
  transfer_ok sys a → room_call_ok w (room_in_flight sys) a (m (room_server sys)) →
  match room_call m sys with Ret sys' => ∃ a', transfer_ok sys' a' | Throw e => e = OverflowError end.
Proof.
  intros [Hok Hf] H. unfold room_call. destruct (m (room_server sys)) as [[[r|e] es] s']; [|exact H].
  destruct H as (a' & Hok' & _). by exists a'.
Qed.

Lemma kept {A} (m : M A) sys :
  call_keeps m sys → match room_call m sys with Ret sys' => ∃ a', transfer_ok sys' a' | Throw e => e = OverflowError end.
Proof. intros (sys' & a' & -> & H). by exists a'. Qed.

Lemma tstep_ok sys a op : transfer_ok sys a →
  match tstep sys op with
  | Ret sys' => ∃ a', transfer_ok sys' a'
  | Throw e => e = OverflowError
  end.
Proof.
  intros Hok. pose proof Hok as [[Hb Hl] Hf].
  destruct op as [accept now c req player room|accept now c room|c req kind|c req kind|accept c|i answer now|request|accept now|op|d ch sv| |];
    cbn [tstep].
  - eapply room_call_keeps; [exact Hok|]. by apply entry_tryStart_ok.
  - eapply room_call_keeps; [exact Hok|]. by apply startReturn_ok.
  - apply kept. eapply quiet_ok; [exact Hok|]. apply (replies_quiet c req Entered kind).
  - apply kept. eapply quiet_ok; [exact Hok|]. apply (replies_quiet c req kind Joined).
  - apply kept. by eapply room_disconnect_ok.
  - destruct (room_execute_ok i answer now sys a Hok) as (a' & ? & _). by exists a'.
  - exists (a_request a request).2. split; [|done]. destruct (room_request_sim _ _ request (rb_sim _ _ Hb)) as [_ Hs].
    eapply room_untouched; [by split|apply Hb|done|done|exact Hs|]. unfold a_request. by destruct (_ || _).
  - unfold room_call. pose proof (entry_drain_ok accept now _ _ a (conj Hb Hl)) as H.
    destruct (entry_drain _ _ _) as [[[r|e] es] s']; [|exact H]. destruct H as (a' & ? & _). by exists a'.
  - destruct (outside_rooms (coordinator (room_server sys)) op) eqn:Eo; [|by exists a]. exists a. split; [|done].
    destruct (outside_rooms_keeps _ _ (rb_coord _ _ Hb) Eo) as [E1 E2].
    apply keeps_routes; [by split|apply route_step_ok, Hb|done|done].
  - exists a. split; [|done]. eapply room_untouched; [by split|apply Hb|done|done|apply Hb|done].
  - unfold room_call. simpl. exists a. rewrite app_nil_r. split; [|done]. destruct Hb as [B1 B2 B3 Bt Bf B4]. split; [|done].
    constructor; try done. intros Hc. by destruct (B4 Hc) as (_ & ? & ?).
  - apply kept. by eapply entry_cancel_ok.
Qed.

Lemma trun_ok ops sys a : transfer_ok sys a →
  match trun sys ops with Ret sys' => ∃ a', transfer_ok sys' a' | Throw e => e = OverflowError end.
Proof.
  revert sys a. induction ops as [|op ops IH]; intros sys a Hok; cbn [trun]; [by exists a|].
  pose proof (tstep_ok sys a op Hok) as H. destruct (tstep sys op) as [sys1|e]; [|exact H].
  destruct H as [a1 H1]. exact (IH sys1 a1 H1).
Qed.

(** A server as the constructors leave it. *)
Definition fresh_room_server (max capacity fd turn : Z) (d : PlayerSessionDirectory) (zones : ZoneTransitionChannel)
    (handoff : ZoneHandoffService) : outcome RoomSystem :=
  let! rc := makeRouteCoordinator max in
  let! ch := makeRoomTransitionChannel capacity fd in
  let! service := makeRoomEntryService ch turn in
  Ret (mkRoomSystem (mkServer d rc zones ch handoff service) [] false).

Lemma fresh_room_server_ok max capacity fd turn d zones handoff sys :
  0 <= max → 0 <= capacity → 0 <= turn →
  fresh_room_server max capacity fd turn d zones handoff = Ret sys → transfer_ok sys (a_init capacity, []).
Proof.
  intros Hm Hc Ht. unfold fresh_room_server, makeRoomTransitionChannel. destruct (makeRouteCoordinator max) as [rc|] eqn:E1; simpl; [|done].
  destruct (makeChannel capacity fd) as [ch|] eqn:E2; simpl; [|done].
  destruct (makeRoomEntryService _ turn) as [service|] eqn:E3; simpl; [|done]. intros [= <-].
  pose proof (makeChannel_sim capacity fd ch Hc E2) as Hsim. apply throw_if_ret in E3 as [Eg [= <-]]. to_prop.
  destruct (makeRouteCoordinator_ok max rc Hm E1) as [Hrc _]. apply throw_if_ret in E1 as [_ [= E1]].
  assert (Hcap : chan_capacity ch = capacity) by (apply throw_if_ret in E2 as [_ [= <-]]; done).
  split; [|done]. split.
  - constructor; simpl; try done; [|lia|].
    + split; [done|]. simpl. rewrite Hcap. apply makeRing_repr. rewrite <-Hcap. apply Hsim.
    + intros c. simpl. by rewrite <-E1.
  - intros _. constructor; simpl; try done; try (intros; done).
    + constructor.
    + intros t Hin. by apply elem_of_nil in Hin.
Qed.

(** ** How an entry ends *)

Definition joined_replies (es : list Effect) : list (ConnectionId * Z * RoomId * RoomCommandStatus) :=
  omap (fun e => match e with ReplyJoined c request room status => Some (c, request, room, status) | _ => None end) es.
Definition releases (es : list Effect) : list ConnectionId :=
  omap (fun e => match e with CommandReleased c => Some c | _ => None end) es.

(** The requests to rooms to take a player out, with what the room's ingress
    answered.  The code does not look at the answer: the seat is free once the
    request was accepted, and stays taken when it was refused
    ([refused_leave_keeps_seat]). *)
Definition leaves_posted (es : list Effect) : list (RoomId * PlayerId * PostResult) :=
  omap (fun e => match e with
                 | Post (mkRouted _ (RoomCommandRoute room (LeaveRoom player) _ _)) result => Some (room, player, result)
                 | _ => None
                 end) es.

(** One request to the room of the entry, with the answer [accept] gives. *)
Definition leave_requested (accept : Server → RoutedCommand → PostResult) (a : ActiveEntry) (es : list Effect) : Prop :=
  ∃ s1, leaves_posted es =
    [(ae_room a, ae_player a, accept s1 (mkRouted (ae_connection a) (RoomCommandRoute (ae_room a) (LeaveRoom (ae_player a)) None 0)))].

(** The room has given the player a seat: it has answered [Applied], now or
    before. *)
Definition has_seat (x : RoomEntryContext) (k : RoomTransitionCompletion) : bool :=
  bool_decide (entry_context_step x = EntryLeaveSource) || bool_decide (rt_room_status k = Applied).

(** The player is in the room. *)
Definition entered_room (a : ActiveEntry) (k : RoomTransitionCompletion) (es : list Effect) (s' : Server) : Prop :=
  ∃ position, rt_zone_status k = ZoneApplied ∧ rt_position k = Some position ∧
    in_rooms (coordinator s') !! ae_connection a =
      Some (mkInRoom (ae_connection a) (ae_player a) (ae_room a) (ae_source_zone a) position) ∧
    routes (coordinator s') !! ae_connection a = None ∧
    joined_replies es = [(ae_connection a, ae_request_id a, ae_room a, Applied)] ∧ leaves_posted es = [].

(** The player stays in its zone, on the same route, and asks the room to take
    it out if it has a seat there. *)
Definition stayed_in_zone (accept : Server → RoutedCommand → PostResult) (seat : bool) (a : ActiveEntry) (es : list Effect) (s s' : Server) : Prop :=
  routes (coordinator s') = routes (coordinator s) ∧ in_rooms (coordinator s') = in_rooms (coordinator s) ∧
  (if seat then leave_requested accept a es else leaves_posted es = []) ∧
  ((∃ status, status ≠ Applied ∧ joined_replies es = [(ae_connection a, ae_request_id a, ae_room a, status)]) ∨
   (ae_disconnecting a = true ∧ joined_replies es = [])).

(** The connection closed while the player left its zone: the player has neither
    a route nor a room, and asks the room to take it out. *)
Definition disconnected_entry (accept : Server → RoutedCommand → PostResult) (a : ActiveEntry) (es : list Effect) (s' : Server) : Prop :=
  ae_disconnecting a = true ∧ routes (coordinator s') !! ae_connection a = None ∧ in_rooms (coordinator s') !! ae_connection a = None ∧
  leave_requested accept a es ∧ joined_replies es = [].

Definition entry_settled (accept : Server → RoutedCommand → PostResult) (a : ActiveEntry) (x : RoomEntryContext) (k : RoomTransitionCompletion) (es : list Effect) (s s' : Server) : Prop :=
  waiting s' (ae_connection a) = None ∧ releases es = [ae_connection a] ∧
  (entered_room a k es s' ∨ stayed_in_zone accept (has_seat x k) a es s s' ∨ disconnected_entry accept a es s').

(** The player waits for its zone to let it go. *)
Definition entry_goes_on (a : ActiveEntry) (x : RoomEntryContext) (k : RoomTransitionCompletion) (es : list Effect) (s s' : Server) : Prop :=
  entry_context_step x = EntryJoinRoom ∧ rt_room_status k = Applied ∧ waiting s' (ae_connection a) = Some (leave_context a) ∧
  routes (coordinator s') = routes (coordinator s) ∧
  releases es = [] ∧ joined_replies es = [] ∧ leaves_posted es = [] ∧ contexts es = [leave_context a].

Definition entry_outcome (accept : Server → RoutedCommand → PostResult) (a : ActiveEntry) (x : RoomEntryContext) (k : RoomTransitionCompletion) (s : Server)
    (r : outcome unit * list Effect * Server) : Prop :=
  match r with
  | (Ret _, es, s') => entry_settled accept a x k es s s' ∨ entry_goes_on a x k es s s'
  | (Throw _, _, _) => False
  end.

Section settles.
Context (accept : Server → RoutedCommand → PostResult) (now : time_point).
Abbreviation post := (fun s c => Ret (accept s c)).

(** The end of [compensateFailedSourceLeave]. *)
Lemma compensate_effects s c a e :
  coordinator_ok (coordinator s) → entry_match c (Some a) (Some e) → room_entries (coordinator s) !! c = Some e → returns s !! c = None →
  ∃ es s', compensateFailedSourceLeave post now a s = (Ret tt, es, s') ∧ waiting s' c = None ∧ releases es = [c] ∧
    stayed_in_zone accept true a es s s'.
Proof.
  intros Hok Hm He Hr. destruct (entry_names c a e Hm) as [Hc Hid]. destruct (rolled_back s c e Hok He) as (rc' & E & _ & _ & _ & E1 & E2).
  unfold compensateFailedSourceLeave, post_leave_room, rollback_entry, on_routes, mbind, M_bind, tryPost_. simpl.
  rewrite Hc, Hid, E. simpl. do 2 eexists. split; [reflexivity|]. split_and!.
  - unfold waiting. simpl. by rewrite lookup_delete_eq, Hr.
  - done.
  - unfold stayed_in_zone. simpl. rewrite E1, E2. split_and!; try done; [unfold leave_requested; rewrite Hc; by eexists|].
    left. exists EntryFailed. by rewrite Hc.
Qed.

Context (s : Server) (c : ConnectionId) (a : ActiveEntry) (e : RoomEntry) (x : RoomEntryContext) (k : RoomTransitionCompletion).
Context (Ht : transfers_ok s) (Hok : coordinator_ok (coordinator s)) (Ha : entries s !! c = Some a)
        (He : room_entries (coordinator s) !! c = Some e) (Hm : entry_match c (Some a) (Some e)).

Lemma no_return : returns s !! c = None.
Proof using Ht Hok Ha. by destruct (entry_excludes_return _ _ _ Ht Hok Ha). Qed.

Lemma leaveSource_settles :
  entry_context_step x = EntryLeaveSource → entry_outcome accept a x k s (handleLeaveSourceCompletion post now k a s).
Proof using Ht Hok Ha He Hm.
  intros Hst. destruct (entry_names c a e Hm) as [Hc Hid]. pose proof no_return as Hr.
  assert (Hseat : has_seat x k = true) by (unfold has_seat; by rewrite Hst).
  assert (Hcomp : entry_outcome accept a x k s (compensateFailedSourceLeave post now a s)).
  { destruct (compensate_effects s c a e Hok Hm He Hr) as (es & s' & -> & ? & ? & ?). left. unfold entry_settled. rewrite Hc, Hseat. auto. }
  unfold handleLeaveSourceCompletion. destruct (rt_position k) as [position|] eqn:Ep; [|exact Hcomp].
  case_bool_decide as Hz; [|exact Hcomp]. cbn [negb]. destruct (entry_of _ _ _ Hok He) as (_ & Hni & _).
  unfold mbind at 1, M_bind at 1, on_routes. unfold completeRoomEntry. rewrite Hc, Hid, (findRoomEntry_of _ _ _ He).
  set (rc1 := bump _ _). destruct Hm as (_ & _ & Hroom & Hpl & Hzone & _).
  unfold mbind, M_bind, post_leave_room, tryPost_. destruct (ae_disconnecting a) eqn:Ed; simpl; left; unfold entry_settled; rewrite ?Hc; split_and!; try done.
  - unfold waiting. simpl. by rewrite lookup_delete_eq, Hr.
  - right. right. unfold disconnected_entry, leave_requested. rewrite Hc. split_and!; try done; try (by eexists);
      unfold RouteCoordinator.abandon, bump_if; repeat case_match; simpl; apply lookup_delete_eq.
  - unfold waiting. simpl. by rewrite lookup_delete_eq, Hr.
  - left. exists position. rewrite Hc. split_and!; try done; simpl.
    + rewrite lookup_insert_eq. by rewrite Hroom, Hpl, Hzone.
    + apply lookup_delete_eq.
Qed.

Lemma joinRoom_settles :
  entry_context_step x = EntryJoinRoom → entry_step e = RequestSnapshot →
  entry_outcome accept a x k s (handleJoinRoomCompletion post now k a s).
Proof using Ht Hok Ha He Hm.
  intros Hst Hsnap. destruct (entry_names c a e Hm) as [Hc Hid]. pose proof no_return as Hr.
  unfold handleJoinRoomCompletion. rewrite Hc, Hid. case_bool_decide as Happ; cbn [negb].
  2:{ destruct (rolled_back s c e Hok He) as (rc' & E & _ & _ & _ & E1 & E2).
      unfold rollback_entry, on_routes, mbind, M_bind. rewrite E. simpl. left. unfold entry_settled. rewrite Hc. split_and!; try done.
      - unfold waiting. simpl. by rewrite lookup_delete_eq, Hr.
      - right. left. unfold stayed_in_zone, has_seat. rewrite Hst, (bool_decide_false (rt_room_status k = Applied)) by done. simpl.
        rewrite E1, E2, Hc. split_and!; try done. left. by exists (rt_room_status k). }
  assert (Hseat : has_seat x k = true) by (unfold has_seat; rewrite Happ; apply orb_true_r).
  pose proof (proj2 (entry_steps_ok (coordinator s) c (entry_id e) Hok)) as Hok1.
  unfold mbind at 1, M_bind at 1, on_routes. unfold noteRoomJoined in *. rewrite (findRoomEntry_of _ _ _ He), Hsnap in *. simpl in Hok1.
  rewrite (bool_decide_false (RequestSnapshot = EntryJoinRoom)), (bool_decide_true (RequestSnapshot = RequestSnapshot)) by done.
  cbn [negb andb]. set (rc1 := set_room_entries _ _) in *. set (e1 := with_entry_step EntryLeaveSource e) in *.
  assert (He1 : room_entries rc1 !! c = Some e1) by apply lookup_insert_eq.
  assert (Hm1 : entry_match c (Some a) (Some e1)).
  { destruct Hm as (?&?&?&?&?&?&?&_). unfold entry_match. split_and!; try done. by right. }
  destruct (ae_disconnecting a) eqn:Ed.
  - destruct (rolled_back (set_coordinator rc1 s) c e1 Hok1 He1) as (rc' & E & _ & _ & _ & E1 & E2). simpl in E, E1, E2.
    unfold post_leave_room, rollback_entry, on_routes, mbind, M_bind, tryPost_. simpl. rewrite E.
    simpl. left. unfold entry_settled. rewrite Hc, Hseat. split_and!; try done.
    + unfold waiting. simpl. by rewrite lookup_delete_eq, Hr.
    + right. left. unfold stayed_in_zone. simpl. rewrite E1, E2. split_and!; try done; [unfold leave_requested; rewrite Hc; by eexists|by right].
  - unfold mbind, M_bind, tryPost_. set (s1 := set_coordinator rc1 s) in *. case_bool_decide as Hacc; cbn [negb when].
    + right. unfold entry_goes_on. rewrite Hc. split_and!; try done.
      * unfold waiting, s1. simpl. rewrite Ha, lookup_insert_eq. done.
      * simpl. by rewrite bool_decide_true.
    + destruct (compensate_effects s1 c a e1 Hok1 Hm1 He1 Hr) as (es & s' & -> & Hw & Hrel & Hz). left.
      unfold entry_settled. rewrite Hc, Hseat. split_and!; try done. right. left. exact Hz.
Qed.
End settles.

(** ** Theorems *)

(** C33: room transfers never get stuck.  From a fresh server, through every
    interleaving of entries, returns, actors that give any answer, turns of the
    network thread, return requests of rooms, disconnects, refused posts,
    operations of the other components, and shutdown: no call fails (short of
    2^64 epochs for one player), no completion is lost or found stale, and until
    shutdown the service and the coordinator agree on who enters and who
    returns, and each transfer waits for exactly one stage, the one of its
    current step, which is with an actor or in the channel. *)
Theorem room_transfers_never_stuck max capacity fd turn d zones handoff sys0 ops :
  0 <= max → 0 <= capacity → 0 <= turn → fresh_room_server max capacity fd turn d zones handoff = Ret sys0 →
  match trun sys0 ops with
  | Throw e => e = OverflowError
  | Ret sys =>
      let s := room_server sys in
      let q := queued_completions (completions (room_transitions s)) in
      room_publish_failed sys = false ∧ entry_stale s = 0 ∧ transfers_ok s ∧
      (chan_cancelled (completions (room_transitions s)) = false →
       NoDup (tickets_out (room_in_flight sys) q) ∧
       (∀ t, t ∈ tickets_out (room_in_flight sys) q ↔ ∃ c x, waiting s c = Some x ∧ entry_context_ticket x = t) ∧
       ∀ c x, waiting s c = Some x → stage_out (room_in_flight sys) q x)
  end.
Proof.
  intros Hm Hc Ht Hf. pose proof (trun_ok ops sys0 _ (fresh_room_server_ok _ _ _ _ _ _ _ _ Hm Hc Ht Hf)) as H.
  destruct (trun sys0 ops) as [sys|e]; [|exact H]. destruct H as (a & [Hb Hl] & Hpf). cbv zeta.
  destruct (rb_sim _ _ Hb) as [Hsim _]. rewrite (sim_contents _ _ Hsim), (proj1 (sim_cancelled _ _ Hsim)).
  split_and!; [done|apply Hb|apply Hb|]. intros Hnc. destruct (Hl Hnc) as [H1 H2 H3 H4 H5].
  assert (Hst : ∀ c x, waiting (room_server sys) c = Some x → stage_out (room_in_flight sys) (a_queue a.1) x).
  { intros c x Hx. destruct (H1 c x Hx) as [_ Hs]. by rewrite decide_False in Hs by done. }
  split_and!; [done| |done]. intros t. split; [apply H3|]. intros (c & x & Hx & <-). apply elem_of_app.
  destruct (Hst c x Hx) as [Hin|(k & Hin & _)]; [left; by apply list_elem_of_fmap_2|]. right.
  change (entry_context_ticket x) with (entry_context_ticket x, k).1. by apply list_elem_of_fmap_2.
Qed.

(** The return requests waiting in the channel, oldest first. *)
Definition queued_requests (rc : RoomTransitionChannel) : list RoomReturnRequest :=
  ring_contents (chan_capacity (completions rc)) (return_requests rc).

Lemma sim_requests rc a : room_simulates rc a → queued_requests rc = a.2.
Proof. intros [Hs Hr]. apply ring_contents_repr; [apply Hs|done]. Qed.

(** Room transfers terminate.  In every reachable state before shutdown,
    [room_work] counts the steps still to be taken; executing a stage, whatever
    the answer, and a turn with a completion or a return request queued both
    strictly decrease it, and without work left no transfer is under way, every
    ticket is free and [drained] answers [true]. *)
Theorem room_transfers_terminate max capacity fd turn d zones handoff sys0 ops sys :
  0 <= max → 0 <= capacity → 0 <= turn → fresh_room_server max capacity fd turn d zones handoff = Ret sys0 →
  trun sys0 ops = Ret sys → chan_cancelled (completions (room_transitions (room_server sys))) = false →
  let answers sys := queued_completions (completions (room_transitions (room_server sys))) in
  let requests sys := queued_requests (room_transitions (room_server sys)) in
  let left sys := room_work (room_in_flight sys) (answers sys) (requests sys) in
  0 <= left sys ∧
  (left sys = 0 → entries_drained (room_server sys) = true) ∧
  (∀ i answer now, (i < length (room_in_flight sys))%nat → left (room_execute i answer now sys) < left sys) ∧
  (∀ accept now, answers sys ≠ [] ∨ requests sys ≠ [] →
     match tstep sys (TDrain accept now) with Ret sys' => left sys' < left sys | Throw e => e = OverflowError end).
Proof.
  intros Hm Hc Ht Hf Hrun Hnc. pose proof (trun_ok ops sys0 _ (fresh_room_server_ok _ _ _ _ _ _ _ _ Hm Hc Ht Hf)) as H.
  rewrite Hrun in H. destruct H as (a & Hok). pose proof Hok as [[Hb Hl] Hpf]. cbv zeta beta. pose proof (rb_sim _ _ Hb) as Hsim.
  rewrite (proj1 (sim_cancelled _ _ (proj1 Hsim))) in Hnc. destruct (Hl Hnc) as [H1 H2 H3 H4 H5].
  rewrite (sim_contents _ _ (proj1 Hsim)), (sim_requests _ _ Hsim).
  destruct (room_work_zero (room_in_flight sys) (a_queue a.1) a.2) as [Hpos Hzero]. split_and!; [done| | |].
  - intros Hw. apply Hzero in Hw as (Efl & Eq & Er). unfold entries_drained.
    assert (Hnone : ∀ c, waiting (room_server sys) c = None).
    { intros c. destruct (waiting _ c) as [x|] eqn:Ex; [|done]. destruct (H1 c x Ex) as [_ Hs]. rewrite decide_False, Efl, Eq in Hs by done.
      destruct Hs as [Hs|(k & Hs & _)]; by apply elem_of_nil in Hs. }
    destruct (room_chan_step_sim _ a RDrained Hsim) as (rc' & E & _). simpl in E. injection E as -> _. rewrite Eq, Er. simpl.
    rewrite !andb_true_iff, !bool_decide_eq_true. split_and!; apply map_eq; intros c; rewrite lookup_empty.
    + specialize (Hnone c). unfold waiting in Hnone. by destruct (entries _ !! c).
    + specialize (Hnone c). unfold waiting in Hnone. destruct (entries _ !! c); [done|]. by destruct (returns _ !! c).
    + destruct (a_reserved a.1 !! c) as [p|] eqn:Ep; [|done]. destruct (H4 c p Ep) as (c' & x & Hx & _). by rewrite Hnone in Hx.
  - intros i answer now Hi. destruct (room_execute_ok i answer now sys a Hok) as (a' & [[Hb' _] _] & _ & _ & Hlt).
    rewrite (sim_contents _ _ (proj1 (rb_sim _ _ Hb'))), (sim_requests _ _ (rb_sim _ _ Hb')). by apply Hlt.
  - intros accept now Hp. cbn [tstep]. unfold room_call. pose proof (entry_drain_ok accept now _ _ a (conj Hb Hl)) as H.
    destruct (entry_drain _ _ _) as [[[r|e] es] s']; [|exact H]. destruct H as (a' & [Hb' _] & _ & Hlt).
    cbn [room_server room_in_flight]. rewrite (sim_contents _ _ (proj1 (rb_sim _ _ Hb'))), (sim_requests _ _ (rb_sim _ _ Hb')). by apply Hlt.
Qed.

(** C34: an entry settles in one of three ways.  In every reachable state, when a
    stage of an entry is answered, the entry goes on to leave its zone, or it is
    over: its command is released exactly once, and the player is in the room
    and off its route, with one reply that says so; or it is still on its route,
    has asked the room once to take it out if the room had given it a seat, and
    got one reply that refuses the entry (none if the connection had closed); or
    the connection had closed, and the player has neither route nor room, and has
    asked the room once to take it out.  Such a request to the room is posted
    with whatever answer the room's ingress gives; the service does not look at
    the answer. *)
Theorem room_entry_settles max capacity fd turn d zones handoff sys0 ops sys accept now c a answer :
  0 <= max → 0 <= capacity → 0 <= turn → fresh_room_server max capacity fd turn d zones handoff = Ret sys0 →
  trun sys0 ops = Ret sys → let s := room_server sys in entries s !! c = Some a →
  ∃ x, waiting s c = Some x ∧ ae_connection a = c ∧
    entry_outcome accept a x (entry_completion x answer) s
      (entry_handleCompletion (fun s c => Ret (accept s c)) now (entry_completion x answer) s).
Proof.
  intros Hm Hc Ht Hf Hrun s Ha. pose proof (trun_ok ops sys0 _ (fresh_room_server_ok _ _ _ _ _ _ _ _ Hm Hc Ht Hf)) as H.
  rewrite Hrun in H. destruct H as (abs & [Hb _] & _). fold s in Hb. clearbody s. pose proof (rb_transfers _ _ Hb) as Htr. pose proof (rb_coord _ _ Hb) as Hok.
  destruct (entry_of_active _ _ _ Htr Ha) as (e & He & Hmt). pose proof Hmt as (Hac & _ & _ & _ & _ & _ & _ & Hstep).
  exists (entry_stage (Some e) a). unfold waiting. rewrite Ha, He. split; [done|]. split; [done|].
  unfold entry_handleCompletion, find_entry, find_return, mbind, M_bind, gets.
  set (x := entry_stage (Some e) a). set (k := entry_completion x answer).
  assert (Hx : entry_context_connection x = c ∧ ((entry_context_step x = EntryJoinRoom ∧ entry_step e = RequestSnapshot) ∨
                entry_context_step x = EntryLeaveSource)).
  { unfold x, entry_stage. simpl. destruct Hstep as [-> | ->]; simpl; (split; [done|]); [by left|by right]. }
  destruct (entry_completion_answers x answer) as [_ _ Hkc Hks]. fold k in Hkc, Hks. destruct Hx as [Hxc Hk]. rewrite Hkc, Hks, Hxc.
  destruct Hk as [[Hst Hsnap]|Hst]; rewrite Hst; rewrite (bool_decide_false (_ = ReturnZone)) by done; rewrite Ha.
  - rewrite bool_decide_true by done. pose proof (joinRoom_settles accept now s c a e x k Htr Hok Ha He Hmt Hst Hsnap) as H.
    by destruct (handleJoinRoomCompletion _ _ _ _ _) as [[[] ?] ?].
  - rewrite bool_decide_false, bool_decide_true by done. pose proof (leaveSource_settles accept now s c a e x k Htr Hok Ha He Hmt Hst) as H.
    by destruct (handleLeaveSourceCompletion _ _ _ _ _) as [[[] ?] ?].
Qed.

(** A connection that closes while its player returns to a zone: the zone has
    let the player in, yet its route is dropped and no [LeaveZone] is posted,
    then or later, so the player stays in the zone.  (The handoff service cleans
    up the same situation with [CleanupTarget].) *)
Theorem disconnected_return_leaves_ghost s c r t completion :
  coordinator_ok (coordinator s) → transfers_ok s →
  returns s !! c = Some r → room_returns (coordinator s) !! c = Some t → ar_disconnecting r = true →
  rt_zone_status completion = ZoneApplied →
  match handleReturnZoneCompletion completion r s with
  | (Ret _, es, s') => es = [] ∧ waiting s' c = None ∧ routeFor (coordinator s') c = None ∧ inRoomFor (coordinator s') c = None
  | (Throw _, _, _) => False
  end.
Proof.
  intros Hok Htr Hr Ht Hd Hz. destruct (Htr c) as [_ Hm]. rewrite Hr, Ht in Hm. destruct Hm as (Hc & Hid & _).
  destruct (return_excludes_entry s c r Htr Hok Hr) as [Hn _]. unfold handleReturnZoneCompletion. rewrite Hz, Hc, Hid.
  rewrite bool_decide_true by done. cbn [negb andb]. unfold mbind, M_bind, on_routes, completeRoomReturn. rewrite (findRoomReturn_of _ _ _ Ht), Hd. simpl. split_and!; try done.
  - unfold waiting. simpl. by rewrite Hn, lookup_delete_eq.
  - set (rc1 := bump _ _). pose proof (abandon_ok rc1 c) as Ha. unfold routeFor. destruct (moving _ _); [done|].
    unfold RouteCoordinator.abandon, bump_if. repeat case_match; simpl; apply lookup_delete_eq.
  - unfold inRoomFor, RouteCoordinator.abandon, bump_if. repeat case_match; simpl; apply lookup_delete_eq.
Qed.

(** ** Witnesses: into room 50 and back *)

Definition visitor : ConnectionId := mkConnectionId 5 1.
Definition visit_accept : Server → RoutedCommand → PostResult := fun _ _ => Accepted.
Definition visit_zones : ZoneTransitionChannel := mkChannel 2 (makeRing 2) ∅ 1 (fun _ => 0) makeDistribution false.
Definition visit_handoffs : ZoneHandoffService := mkHandoffService 1 ∅ makeDistribution (fun _ => 0) false.
Definition visit_sessions : PlayerSessionDirectory := directory_run empty_directory [DAttach visitor 7].

Definition visit_start : RoomSystem :=
  mkRoomSystem (mkServer visit_sessions (mkCoordinator 4 ∅ ∅ ∅ ∅ ∅ ∅ 1 1 1 (fun _ => 0)) visit_zones
                  (mkRoomChannel (mkChannel 2 (makeRing 2) ∅ 1 (fun _ => 0) makeDistribution false) (makeRing 2) (fun _ => 0))
                  visit_handoffs (mkEntryService 1 ∅ ∅ makeDistribution (fun _ => 0) false)) [] false.

(** The room has given the seat; the zone has not let the player go yet. *)
Definition visit_entering : list RoomTransferOp :=
  [TRoutes (REnter visitor 7 3); TStart visit_accept 100 visitor 9 7 50; TExecute 0 (RoomAnswer 50 Applied) 101;
   TDrain visit_accept 102].

(** In the room, and back in the zone after the battle. *)
Definition visit_all : list RoomTransferOp :=
  visit_entering ++
  [TExecute 0 (ZoneAnswer 3 ZoneApplied (Some (mkZonePosition 1 2))) 103; TDrain visit_accept 104;
   TRequest (mkReturnRequest 50 7); TDrain visit_accept 105;
   TExecute 0 (ZoneAnswer 3 ZoneApplied (Some (mkZonePosition 1 2))) 106; TDrain visit_accept 107].

Definition visit_at (ops : list RoomTransferOp) : RoomSystem :=
  match trun visit_start ops with Ret sys => sys | Throw _ => visit_start end.

Lemma room_transfers_never_stuck_witness :
  stage_out (room_in_flight (visit_at visit_entering))
    (queued_completions (completions (room_transitions (room_server (visit_at visit_entering)))))
    (mkEntryContext 1 0 1 visitor 7 EntryLeaveSource).
Proof.
  pose proof (room_transfers_never_stuck 4 2 3 1 visit_sessions visit_zones visit_handoffs visit_start visit_entering
                ltac:(lia) ltac:(lia) ltac:(lia) eq_refl) as H.
  assert (Hw : waiting (room_server (visit_at visit_entering)) visitor = Some (mkEntryContext 1 0 1 visitor 7 EntryLeaveSource))
    by (vm_compute; reflexivity).
  assert (Hopen : chan_cancelled (completions (room_transitions (room_server (visit_at visit_entering)))) = false)
    by (vm_compute; reflexivity).
  assert (E : trun visit_start visit_entering = Ret (visit_at visit_entering)) by (vm_compute; reflexivity).
  rewrite E in H. destruct H as (_ & _ & _ & H). destruct (H Hopen) as (_ & _ & Hst). exact (Hst visitor _ Hw).
Defined.

Lemma room_transfers_terminate_witness :
  entries_drained (room_server (visit_at visit_all)) = true ∧
  routeFor (coordinator (room_server (visit_at visit_all))) visitor = Some (mkRoute visitor 7 3 2).
Proof.
  assert (Hrun : trun visit_start visit_all = Ret (visit_at visit_all)) by (vm_compute; reflexivity).
  assert (Hopen : chan_cancelled (completions (room_transitions (room_server (visit_at visit_all)))) = false) by (vm_compute; reflexivity).
  split; [|vm_compute; reflexivity].
  destruct (room_transfers_terminate 4 2 3 1 visit_sessions visit_zones visit_handoffs visit_start visit_all (visit_at visit_all)
              ltac:(lia) ltac:(lia) ltac:(lia) eq_refl Hrun Hopen) as (_ & Hdrained & _).
  apply Hdrained. vm_compute. reflexivity.
Defined.

(** The zone lets the visitor go: it is in the room. *)
Lemma room_entry_settles_witness :
  let s := room_server (visit_at visit_entering) in
  let a := mkActiveEntry visitor 1 1 7 50 3 1 9 false 100 in
  let answer := ZoneAnswer 3 ZoneApplied (Some (mkZonePosition 1 2)) in
  ∃ x es s', waiting s visitor = Some x ∧ entry_context_step x = EntryLeaveSource ∧
    entry_handleCompletion (fun s c => Ret (visit_accept s c)) 103 (entry_completion x answer) s = (Ret tt, es, s') ∧
    entry_settled visit_accept a x (entry_completion x answer) es s s' ∧
    in_rooms (coordinator s') !! visitor = Some (mkInRoom visitor 7 50 3 (mkZonePosition 1 2)) ∧
    joined_replies es = [(visitor, 9, 50, Applied)].
Proof.
  intros s a answer. assert (Hrun : trun visit_start visit_entering = Ret (visit_at visit_entering)) by (vm_compute; reflexivity).
  destruct (room_entry_settles 4 2 3 1 visit_sessions visit_zones visit_handoffs visit_start visit_entering (visit_at visit_entering)
              visit_accept 103 visitor a answer
              ltac:(lia) ltac:(lia) ltac:(lia) eq_refl Hrun ltac:(vm_compute; reflexivity)) as (x & Hx & _ & Ho).
  fold s in Hx, Ho. assert (Ex : x = mkEntryContext 1 0 1 visitor 7 EntryLeaveSource) by (vm_compute in Hx; by injection Hx as <-).
  subst x. destruct (entry_handleCompletion _ 103 _ s) as [[r es] s'] eqn:E.
  assert (Hend : r = Ret tt ∧ in_rooms (coordinator s') !! visitor = Some (mkInRoom visitor 7 50 3 (mkZonePosition 1 2)) ∧
                 joined_replies es = [(visitor, 9, 50, Applied)]).
  { vm_compute in E. injection E as <- <- <-. by vm_compute. }
  destruct Hend as (-> & H1 & H2). eexists _, es, s'. split; [exact Hx|]. split; [done|]. split; [exact E|].
  split; [|by split]. destruct Ho as [Ho|(Hj & _)]; [exact Ho|done].
Defined.

(** ** A seat that stays taken *)

(** The room has given the visitor a seat, its connection closes, and the zone
    lets it go, while the room's mailbox is full: the one request to the room is
    refused, and afterwards the service knows nothing of the visitor and has
    nothing left to do. *)
Theorem refused_leave_keeps_seat :
  let full : Server → RoutedCommand → PostResult := fun _ _ => Full in
  let answer := ZoneAnswer 3 ZoneApplied (Some (mkZonePosition 1 2)) in
  let closed := visit_entering ++ [TDisconnect visit_accept visitor; TExecute 0 answer 103] in
  (∃ sys es s', trun visit_start closed = Ret sys ∧ entry_drain (fun s c => Ret (full s c)) 104 (room_server sys) = (Ret tt, es, s') ∧
     leaves_posted es = [(50, 7, Full)]) ∧
  ∃ sys, trun visit_start (closed ++ [TDrain full 104]) = Ret sys ∧
    let s := room_server sys in
    waiting s visitor = None ∧ inRoomFor (coordinator s) visitor = None ∧ routeFor (coordinator s) visitor = None ∧
    room_in_flight sys = [] ∧ entries_drained s = true.
Proof.
  intros full answer closed. split.
  - eexists _, _, _. do 2 (split; [vm_compute; reflexivity|]). by vm_compute.
  - eexists. split; [vm_compute; reflexivity|]. by vm_compute.
Qed.
