(* ===== verification/Gateway.v ===== *)
(** * Protocol gateway

    [ProtocolGateway] of [src/src/server/protocol_gateway.cpp] with the
    [MessageDispatcher] of [src/src/server/message_dispatcher.cpp]: what the
    network thread does with a decoded frame and with a closed connection.  The
    branches of [tryPost] on the message type are definitions of their own, in
    the order of the source.  A read outside the payload, undefined in C++, is
    the exception [OutOfRange]. *)

From S2P Require Import Prelude Arena Zone Player RoomTypes Connection Wire FrameCodec SessionDirectory RouteCoordinator Ring TransitionChannel Server Handoff RoomEntry.

(** ** Reading payloads *)

(** The same expression as in the frame codec. *)
Definition read_u32 (bs : bytes) (offset : nat) : option Z := read_u32_big_endian bs offset.

Definition read_u64 (bs : bytes) (offset : nat) : option Z :=
  high ← read_u32 bs offset; low ← read_u32 bs (offset + 4); Some (Z.lor (Z.shiftl high 32) low).

(** [static_cast<std::int32_t>] of a 32-bit value. *)
Definition to_i32 (z : Z) : Z := if z <=? I32_MAX then z else z - 2 ^ 32.

(** The loops of the handlers: [value = (value << 8U) | byte], in [width] bits. *)
Definition fold_bytes (width : Z) (bs : bytes) : Z :=
  foldl (fun value byte => Z.lor (Z.shiftl value 8 mod 2 ^ width) byte) 0 bs.

(** ** The dispatcher *)

Inductive DispatchStatus := Handled | HandlerNotFound | DispatchInvalidPayload.

Record DispatchResult := mkDispatch { dispatch_status : DispatchStatus; dispatch_command : option PlayerCommand }.

Abbreviation Handler := (Frame → option PlayerCommand).
Definition MessageDispatcher := gmap Z Handler.

(** [_handlers.emplace(type, handler).second]. *)
Definition registerHandler (d : MessageDispatcher) (type : Z) (handler : Handler) : bool * MessageDispatcher :=
  match d !! type with
  | Some _ => (false, d)
  | None => (true, <[type := handler]> d)
  end.

Definition handle_ping (request : Frame) : option PlayerCommand := Some (PingCommand (payload request)).

Definition handle_authenticate (request : Frame) : option PlayerCommand :=
  if negb (zlen (payload request) =? 8) then None
  else
    let player_value := fold_bytes 64 (payload request) in
    if player_value =? 0 then None else Some (AuthenticateCommand player_value).

Definition handle_purchase (request : Frame) : option PlayerCommand :=
  if negb (zlen (payload request) =? 12) then None
  else
    let key := fold_bytes 64 (take 8 (payload request)) in
    let product := fold_bytes 32 (drop 8 (payload request)) in
    if (key =? 0) || (product =? 0) then None else Some (PurchaseCommand key product).

Definition handle_equip_skill (request : Frame) : option PlayerCommand :=
  if negb (zlen (payload request) =? 4) then None
  else
    let skill_id := fold_bytes 32 (payload request) in
    if skill_id =? 0 then None else Some (EquipSkillCommand skill_id).

Definition makeMessageDispatcher : outcome MessageDispatcher :=
  let '(ping, d) := registerHandler ∅ MessageType.Ping handle_ping in
  let '(authenticate, d) := registerHandler d MessageType.Authenticate handle_authenticate in
  let '(purchase, d) := registerHandler d MessageType.Purchase handle_purchase in
  let '(equip_skill, d) := registerHandler d MessageType.EquipSkill handle_equip_skill in
  throw_if (negb ping || negb authenticate || negb purchase || negb equip_skill) LogicError (Ret d).

Definition dispatch (d : MessageDispatcher) (request : Frame) : DispatchResult :=
  match d !! frame_type request with
  | None => mkDispatch HandlerNotFound None
  | Some handler =>
      match handler request with
      | Some command => mkDispatch Handled (Some command)
      | None => mkDispatch DispatchInvalidPayload None
      end
  end.

(** ** The gateway *)

Definition frame_post_result (result : PostResult) : FramePostResult :=
  match result with Accepted => FrameAccepted | Full => FrameFull | Closed => FrameClosed end.

Definition requires_persistent_player (command : PlayerCommand) : bool :=
  match command with PurchaseCommand _ _ | EquipSkillCommand _ => true | _ => false end.

Section gateway.
Context (post : Server → RoutedCommand → outcome PostResult) (now : time_point) (dispatcher : MessageDispatcher).

Definition post_route (c : ConnectionId) (route : CommandRoute) : M FramePostResult :=
  result ← tryPost_ post (mkRouted c route); mret (frame_post_result result).

(** A read that is in bounds, or the exception. *)
Definition reading {A B} (o : option A) (k : A → M B) : M B :=
  match o with Some a => k a | None => throw OutOfRange end.

(** [playerFor] and the size of the payload, then the room the player is in. *)
Definition with_player (c : ConnectionId) (bs : bytes) (size : Z) (k : PlayerId → M FramePostResult) : M FramePostResult :=
  player ← gets (fun s => playerFor (sessions s) c);
  match player with
  | None => mret InvalidPayload
  | Some player => if negb (zlen bs =? size) then mret InvalidPayload else k player
  end.

Definition with_room_player (c : ConnectionId) (bs : bytes) (size : Z) (k : PlayerId → InRoomState → M FramePostResult) : M FramePostResult :=
  with_player c bs size (fun player =>
    inside ← gets (fun s => inRoomFor (coordinator s) c);
    match inside with
    | None => mret InvalidPayload
    | Some r => if negb (in_room_player r =? player) then mret InvalidPayload else k player r
    end).

Definition post_RoomJoin (c : ConnectionId) (frame : Frame) : M FramePostResult :=
  with_player c (payload frame) 8 (fun player =>
    reading (read_u64 (payload frame) 0) (fun room =>
    if room =? 0 then mret InvalidPayload
    else
      busy ← tryReplyRoomBusy c (request_id frame) Joined;
      if busy : bool then mret FrameAccepted
      else entry_tryStart post now c (request_id frame) player room)).

Definition post_BattleStart (c : ConnectionId) (frame : Frame) : M FramePostResult :=
  with_room_player c (payload frame) 8 (fun player r =>
    reading (read_u64 (payload frame) 0) (fun room =>
    if (room =? 0) || negb (in_room r =? room) then mret InvalidPayload
    else post_route c (RoomCommandRoute room StartBattle (Some BattleStarted) (request_id frame)))).

Definition post_UseSkill (c : ConnectionId) (frame : Frame) : M FramePostResult :=
  with_room_player c (payload frame) 20 (fun player r =>
    reading (read_u64 (payload frame) 0) (fun room =>
    reading (read_u32 (payload frame) 8) (fun skill_id =>
    reading (read_u64 (payload frame) 12) (fun request_sequence =>
    if (room =? 0) || negb (in_room r =? room) || (skill_id =? 0) || (request_sequence =? 0) then mret InvalidPayload
    else post_route c (RoomCommandRoute room (UseSkill player skill_id request_sequence) (Some SkillAcknowledged) (request_id frame)))))).

Definition post_SetMoveIntent (c : ConnectionId) (frame : Frame) : M FramePostResult :=
  with_room_player c (payload frame) 17 (fun player r =>
    reading (read_u64 (payload frame) 0) (fun room =>
    reading (payload frame !! 8%nat) (fun raw_direction =>
    reading (read_u64 (payload frame) 9) (fun request_sequence =>
    if (room =? 0) || negb (in_room r =? room) || negb (isValidMoveDirection raw_direction) || (request_sequence =? 0)
    then mret InvalidPayload
    else post_route c (RoomCommandRoute room (SetMoveIntent player (direction_of_u8 raw_direction) request_sequence)
                         (Some MoveAcknowledged) (request_id frame)))))).

Definition post_RoomLeave (c : ConnectionId) (frame : Frame) : M FramePostResult :=
  if negb (zlen (payload frame) =? 0) then mret InvalidPayload
  else
    inside ← gets (fun s => inRoomFor (coordinator s) c);
    match inside with
    | None => mret InvalidPayload
    | Some r =>
        result ← post_route c (RoomCommandRoute (in_room r) (LeaveRoom (in_room_player r)) None (request_id frame));
        _ ← when (bool_decide (result = FrameAccepted)) (startReturn post now c (in_room r));
        mret result
    end.

(** The replies to a zone command of a connection on the move. *)
Definition unless_moving (c : ConnectionId) (request_id : Z) (kind : ZoneReplyKind) (k : M FramePostResult) : M FramePostResult :=
  blocked ← tryReplyZoneBlockedByRoom c request_id kind;
  if blocked : bool then mret FrameAccepted
  else
    moving ← tryReplyTransitionInProgress c request_id kind;
    if moving : bool then mret FrameAccepted else k.

Definition post_EnterZone (c : ConnectionId) (frame : Frame) : M FramePostResult :=
  with_player c (payload frame) 16 (fun player =>
    blocked ← tryReplyZoneBlockedByRoom c (request_id frame) Entered;
    if blocked : bool then mret FrameAccepted
    else
      reading (read_u64 (payload frame) 0) (fun zone =>
      reading (read_u32 (payload frame) 8) (fun x =>
      reading (read_u32 (payload frame) 12) (fun y =>
      restored ← gets (fun s => locationFor (sessions s) c);
      let position :=
        match restored with
        | Some l => if loc_zone l =? zone then loc_position l else mkZonePosition (to_i32 x) (to_i32 y)
        | None => mkZonePosition (to_i32 x) (to_i32 y)
        end in
      moving ← tryReplyTransitionInProgress c (request_id frame) Entered;
      if moving : bool then mret FrameAccepted
      else
        source ← gets (fun s => routeFor (coordinator s) c);
        let enter :=
          admission ← on_routes_throwing (fun rc => tryEnter rc c player zone);
          match admission with
          | None => mret InvalidPayload
          | Some a =>
              result ← rethrowing
                (post_route c (ZoneCommandRoute zone (EnterZoneCommand player (route_epoch (admission_route a)) position)
                                 (Some Entered) (request_id frame)))
                (on_routes (fun rc => (tt, rollbackEnter rc a)));
              _ ← (if negb (bool_decide (result = FrameAccepted)) then on_routes (fun rc => (tt, rollbackEnter rc a))
                   else when (created a) (noteLocation_ c (Some (mkPlayerLocation zone position))));
              mret result
          end in
        match source with
        | Some source =>
            if negb (route_zone source =? zone) then Handoff.tryStart post now c (request_id frame) player zone position source
            else enter
        | None => enter
        end)))).

Definition post_LeaveZone (c : ConnectionId) (frame : Frame) : M FramePostResult :=
  if negb (zlen (payload frame) =? 0) then mret InvalidPayload
  else
    unless_moving c (request_id frame) Left
      (route ← gets (fun s => routeFor (coordinator s) c);
       match route with
       | None => mret InvalidPayload
       | Some route =>
           result ← post_route c (ZoneCommandRoute (route_zone route) (LeaveZoneCommand (route_player route) (route_epoch route))
                                    (Some Left) (request_id frame));
           _ ← when (negb (bool_decide (result = FrameFull)))
                 (_ ← on_routes (fun rc => (tt, completeLeave rc route)); noteLocation_ c None);
           mret result
       end).

Definition post_Move (c : ConnectionId) (frame : Frame) : M FramePostResult :=
  if negb (zlen (payload frame) =? 8) then mret InvalidPayload
  else
    unless_moving c (request_id frame) Moved
      (route ← gets (fun s => routeFor (coordinator s) c);
       match route with
       | None => mret InvalidPayload
       | Some route =>
           reading (read_u32 (payload frame) 0) (fun x =>
           reading (read_u32 (payload frame) 4) (fun y =>
           let position := mkZonePosition (to_i32 x) (to_i32 y) in
           result ← post_route c (ZoneCommandRoute (route_zone route)
                                    (MoveInZoneCommand (route_player route) (route_epoch route) position) (Some Moved) (request_id frame));
           _ ← when (bool_decide (result = FrameAccepted)) (noteLocation_ c (Some (mkPlayerLocation (route_zone route) position)));
           mret result))
       end).

(** [if (new_attachment) _sessions.rollbackAttach(...)]. *)
Definition rollback_attachment (c : ConnectionId) (attachment : option PlayerId) : M unit :=
  match attachment with
  | Some player => on_sessions (fun d => (tt, rollbackAttach d c player))
  | None => mret tt
  end.

(** The end of [tryPost]: a command for the player's actor. *)
Definition post_player_command (c : ConnectionId) (request_id : Z) (command : PlayerCommand) (actor : PlayerActorId)
    (attachment : option PlayerId) : M FramePostResult :=
  result ← rethrowing (tryPost_ post (mkRouted c (PlayerCommandRoute actor command request_id None)))
             (rollback_attachment c attachment);
  _ ← (if bool_decide (result = Accepted)
       then match actor with
            | ProvisionalActor _ => _ ← on_sessions (fun d => noteProvisionalActivity d c); mret tt
            | PlayerActor _ => mret tt
            end
       else rollback_attachment c attachment);
  mret (frame_post_result result).

Definition post_dispatched (c : ConnectionId) (frame : Frame) : M FramePostResult :=
  match dispatch dispatcher frame with
  | mkDispatch HandlerNotFound _ => mret UnsupportedMessage
  | mkDispatch DispatchInvalidPayload _ | mkDispatch Handled None => mret InvalidPayload
  | mkDispatch Handled (Some command) =>
      match command with
      | AuthenticateCommand player =>
          attached ← on_sessions (fun d => SessionDirectory.tryAttach d c player);
          match attached with
          | Attached => post_player_command c (request_id frame) command (PlayerActor player) (Some player)
          | AlreadyAttached => post_player_command c (request_id frame) command (PlayerActor player) None
          | _ => mret InvalidPayload
          end
      | _ =>
          player ← gets (fun s => playerFor (sessions s) c);
          match player with
          | Some player => post_player_command c (request_id frame) command (PlayerActor player) None
          | None =>
              if requires_persistent_player command then mret InvalidPayload
              else post_player_command c (request_id frame) command (provisionalActorIdFor c) None
          end
      end
  end.

Definition gateway_tryPost (c : ConnectionId) (frame : Frame) : M FramePostResult :=
  let type := frame_type frame in
  if type =? MessageType.RoomJoin then post_RoomJoin c frame
  else if type =? MessageType.BattleStart then post_BattleStart c frame
  else if type =? MessageType.UseSkill then post_UseSkill c frame
  else if type =? MessageType.SetMoveIntent then post_SetMoveIntent c frame
  else if type =? MessageType.RoomLeave then post_RoomLeave c frame
  else if type =? MessageType.EnterZone then post_EnterZone c frame
  else if type =? MessageType.LeaveZone then post_LeaveZone c frame
  else if type =? MessageType.Move then post_Move c frame
  else post_dispatched c frame.

(** ** Closed connections *)

(** The parts of [tryPostConnectionClosed]: out of the zone, out of the room, to
    the player's actor.  [None] goes on. *)
Definition close_zone (c : ConnectionId) : M (option PostResult) :=
  route ← gets (fun s => routeFor (coordinator s) c);
  match route with
  | None => mret None
  | Some route =>
      result ← tryPost_ post (mkRouted c (ZoneCommandRoute (route_zone route)
                                            (LeaveZoneCommand (route_player route) (route_epoch route)) None 0));
      if bool_decide (result = Full) then mret (Some Full)
      else _ ← on_routes (fun rc => (tt, completeLeave rc route)); mret None
  end.

Definition close_room (c : ConnectionId) : M (option PostResult) :=
  inside ← gets (fun s => inRoomFor (coordinator s) c);
  match inside with
  | None => mret None
  | Some r =>
      result ← tryPost_ post (mkRouted c (RoomCommandRoute (in_room r) (LeaveRoom (in_room_player r)) None 0));
      if bool_decide (result = Full) then mret (Some Full)
      else _ ← abandon_ c; mret None
  end.

Definition close_player (closed : ConnectionClosed) : M PostResult :=
  let c := closed_connection closed in
  player ← gets (fun s => playerFor (sessions s) c);
  let actor := match player with Some player => PlayerActor player | None => provisionalActorIdFor c end in
  began ← (if has_value player then on_sessions (fun d => beginClose d c) else mret false);
  let rollback := when began (on_sessions (fun d => (tt, rollbackClose d c))) in
  result ← rethrowing
    (tryPost_ post (mkRouted c (ConnectionClosedRoute actor (close_cause closed) (has_location_snapshot closed)
                                  (closed_last_location closed)))) rollback;
  match result with
  | Full => _ ← rollback; mret Full
  | Closed => _ ← on_sessions (fun d => (tt, SessionDirectory.abandon d c)); mret Closed
  | Accepted => _ ← when (negb (has_value player)) (on_sessions (fun d => (tt, clearProvisionalActivity d c))); mret Accepted
  end.

Definition tryPostConnectionClosed (closed : ConnectionClosed) : M PostResult :=
  let c := closed_connection closed in
  in_handoff ← noteDisconnect c;
  busy ← (if in_handoff : bool then mret true else entry_noteDisconnect post c);
  if busy : bool then mret Full
  else
    snapshot ← gets (fun s => locationSnapshotFor (sessions s) c);
    let closed :=
      if has_location_snapshot closed then closed
      else mkConnectionClosed c (close_cause closed) (known snapshot) (location snapshot) in
    zone_result ← close_zone c;
    match zone_result with
    | Some result => mret result
    | None =>
        room_result ← close_room c;
        match room_result with
        | Some result => mret result
        | None => close_player closed
        end
    end.

(** ** Turns and shutdown *)

Definition drainTransitions : M unit := _ ← drain post now; entry_drain post now.

Definition transitionsDrained (s : Server) : bool := handoffs_drained s && entries_drained s.

Definition gateway_close : M unit := _ ← handoff_close; _ ← entry_close; emit IngressClosed.

Definition gateway_cancel : M unit := _ ← handoff_cancel; _ ← entry_cancel; emit IngressCancelled.
End gateway.
