(* ===== verification/GatewaySpec.v ===== *)
(** * Protocol gateway: theorems

    Frames the gateway refuses change nothing; frames it takes reach the actors
    as the commands they encode; payloads are never read out of bounds. *)

From S2P Require Import Prelude Arena Zone Player RoomTypes Connection Wire FrameCodec SessionDirectory RouteCoordinator Distribution Ring TransitionChannel Server Handoff RoomEntry Gateway.

(** ** Refused frames *)

Definition rejected (r : FramePostResult) : Prop := r = InvalidPayload ∨ r = UnsupportedMessage.

(** An action that refuses only with the state and the effects untouched. *)
Definition refuses_cleanly (m : M FramePostResult) : Prop := ∀ s,
  match m s with
  | (Ret r, es, s') => rejected r → es = [] ∧ s' = s
  | (Throw _, _, _) => True
  end.

(** An action that never refuses. *)
Definition never_refuses (m : M FramePostResult) : Prop := ∀ s,
  match m s with
  | (Ret r, _, _) => ¬ rejected r
  | (Throw _, _, _) => True
  end.

(** An action without effects when it answers [false]. *)
Definition silent_when_false (m : M bool) : Prop := ∀ s,
  match m s with
  | (Ret false, es, s') => es = [] ∧ s' = s
  | _ => True
  end.

Lemma never_cleanly m : never_refuses m → refuses_cleanly m.
Proof. intros H s. specialize (H s). by destruct (m s) as [[[r|e] es] s']. Qed.

Lemma refuse_ret r : refuses_cleanly (mret r).
Proof. by intros s. Qed.

Lemma never_accepted : never_refuses (mret FrameAccepted).
Proof. intros s [?|?]; done. Qed.

Lemma never_bind {A} (m : M A) (k : A → M FramePostResult) : (∀ a, never_refuses (k a)) → never_refuses (m ≫= k).
Proof.
  intros H s. unfold mbind, M_bind. destruct (m s) as [[[a|e] es] s1]; [|done]. specialize (H a s1).
  by destruct (k a s1) as [[[r|e] es'] s2].
Qed.

Lemma never_posted post c route : never_refuses (post_route post c route).
Proof.
  apply never_bind. intros r s. unfold mret, M_ret, rejected. destruct r; intros [?|?]; done.
Qed.

Lemma refuse_gets {A} (f : Server → A) (k : A → M FramePostResult) :
  (∀ a, refuses_cleanly (k a)) → refuses_cleanly (gets f ≫= k).
Proof.
  intros H s. unfold mbind, M_bind, gets. specialize (H (f s) s). by destruct (k (f s) s) as [[[r|e] es'] s2].
Qed.

Lemma refuse_reply (m : M bool) (k : M FramePostResult) :
  silent_when_false m → refuses_cleanly k → refuses_cleanly (b ← m; if b : bool then mret FrameAccepted else k).
Proof.
  intros Hm Hk s. specialize (Hm s). unfold mbind, M_bind. destruct (m s) as [[[[]|e] es] s1]; [|destruct Hm as [-> ->]|done].
  - simpl. intros [?|?]; done.
  - specialize (Hk s). by destruct (k s) as [[[r|e] es'] s2].
Qed.

Lemma refuse_reading {A} (o : option A) (k : A → M FramePostResult) :
  (∀ a, refuses_cleanly (k a)) → refuses_cleanly (reading o k).
Proof. intros H. by destruct o; simpl. Qed.

Lemma refuse_if (b : bool) m m' : refuses_cleanly m → refuses_cleanly m' → refuses_cleanly (if b then m else m').
Proof. by destruct b. Qed.

Lemma silent_room_busy c req kind : silent_when_false (tryReplyRoomBusy c req kind).
Proof.
  intros s. unfold tryReplyRoomBusy, mbind, M_bind, gets, when. destruct (roomEntryFor _ _); [done|].
  destruct (inRoomFor _ _); [by destruct (bool_decide _)|]. destruct (roomReturnFor _ _); [by destruct (bool_decide _)|done].
Qed.

Lemma silent_zone_blocked c req kind : silent_when_false (tryReplyZoneBlockedByRoom c req kind).
Proof.
  intros s. unfold tryReplyZoneBlockedByRoom, mbind, M_bind, gets. destruct (roomEntryFor _ _); [done|].
  destruct (inRoomFor _ _); [done|]. by destruct (roomReturnFor _ _).
Qed.

Lemma silent_in_progress c req kind : silent_when_false (tryReplyTransitionInProgress c req kind).
Proof. intros s. unfold tryReplyTransitionInProgress, mbind, M_bind, gets. by destruct (handoffFor _ _). Qed.

Create HintDb refuse.
#[export] Hint Resolve refuse_ret never_accepted never_posted refuse_gets refuse_reading refuse_if silent_room_busy silent_zone_blocked
  silent_in_progress never_cleanly : refuse.

Lemma refuse_with_player c bs size k : (∀ p, refuses_cleanly (k p)) → refuses_cleanly (with_player c bs size k).
Proof. intros H. apply refuse_gets. intros [p|]; auto with refuse. Qed.

Lemma refuse_with_room_player c bs size k : (∀ p r, refuses_cleanly (k p r)) → refuses_cleanly (with_room_player c bs size k).
Proof. intros H. apply refuse_with_player. intros p. apply refuse_gets. intros [r|]; auto with refuse. Qed.

Lemma refuse_handoff post now c req player zone position source :
  refuses_cleanly (Handoff.tryStart post now c req player zone position source).
Proof.
  apply refuse_gets. intros closed. apply refuse_if; [apply refuse_ret|]. apply refuse_gets. intros [l|]; [|apply refuse_ret].
  apply refuse_if; [apply refuse_ret|]. apply never_cleanly, never_bind.
  assert (Hacc : ∀ m : M unit, never_refuses (_ ← m; mret FrameAccepted)) by (intros m; apply never_bind; intros; apply never_accepted).
  intros [h|]; [apply never_bind; intros [t|]|].
  - apply Hacc.
  - do 4 (apply never_bind; intros ?). apply never_accepted.
  - do 3 (apply never_bind; intros ?). apply never_accepted.
Qed.

Lemma refuse_entry post now c req player room : refuses_cleanly (entry_tryStart post now c req player room).
Proof.
  apply refuse_gets. intros closed. apply refuse_if; [apply refuse_ret|]. apply refuse_gets.
  assert (Hrefused : never_refuses (_ ← emit (ReplyJoined c req room EntryFailed); _ ← count_entry EntryFailuresBeforeLeave 1;
            _ ← emit (CommandReleased c); mret FrameAccepted)).
  { do 3 (apply never_bind; intros ?). apply never_accepted. }
  intros [source|]; [|by apply never_cleanly]. apply refuse_if; [apply refuse_ret|]. apply never_cleanly, never_bind.
  intros [e|]; [apply never_bind; intros [t|]|exact Hrefused]; apply never_bind; intros ?; [apply never_accepted|exact Hrefused].
Qed.

(** A lookup of a shared object that fails leaves it as it was. *)
Lemma tryEnter_None rc c player zone rc' : tryEnter rc c player zone = Ret (None, rc') → rc' = rc.
Proof.
  unfold tryEnter. destruct (zone =? 0); [by intros [= <-]|]. destruct (in_transition rc c); [by intros [= <-]|].
  destruct (routes rc !! c); [destruct (_ || _); by intros [= <-]|]. by destruct (next_epoch rc player) as [[? ?]|].
Qed.

Lemma set_coordinator_same s : set_coordinator (coordinator s) s = s.
Proof. by destruct s. Qed.

Lemma set_sessions_same s : set_sessions (sessions s) s = s.
Proof. by destruct s. Qed.

Lemma refuse_enter post c frame player zone position :
  refuses_cleanly
    (admission ← on_routes_throwing (fun rc => tryEnter rc c player zone);
     match admission with
     | None => mret InvalidPayload
     | Some a =>
         result ← rethrowing
           (post_route post c (ZoneCommandRoute zone (EnterZoneCommand player (route_epoch (admission_route a)) position)
                                 (Some Entered) (request_id frame)))
           (on_routes (fun rc => (tt, rollbackEnter rc a)));
         _ ← (if negb (bool_decide (result = FrameAccepted)) then on_routes (fun rc => (tt, rollbackEnter rc a))
              else when (created a) (noteLocation_ c (Some (mkPlayerLocation zone position))));
         mret result
     end).
Proof.
  intros s. unfold mbind at 1, M_bind at 1, on_routes_throwing. destruct (tryEnter _ _ _ _) as [[[a|] rc']|] eqn:E; [| |done].
  - match goal with |- context [(?m ≫= ?k) ?s1] => assert (never_refuses (m ≫= k)) as H end.
    { intros s1. unfold mbind at 1, M_bind at 1, rethrowing. pose proof (never_posted post c
        (ZoneCommandRoute zone (EnterZoneCommand player (route_epoch (admission_route a)) position) (Some Entered) (request_id frame)) s1) as Hp.
      destruct (post_route _ _ _ s1) as [[[r|e] es] s2]; [|by destruct (on_routes _ _) as [[[|] ?] ?]].
      unfold mbind, M_bind. destruct (_ s2) as [[[[]|e] es2] s3]; [exact Hp|done]. }
    match goal with |- context [(?m ≫= ?k) ?s1] => specialize (H s1); destruct ((m ≫= k) s1) as [[[r|e] es] s2] end; [|done].
    intros Hr. by destruct (H Hr).
  - apply tryEnter_None in E as ->. simpl. intros _. by rewrite set_coordinator_same.
Qed.

Lemma refuse_dispatched post d c frame : refuses_cleanly (post_dispatched post d c frame).
Proof.
  assert (Hp : ∀ command actor attachment, refuses_cleanly (post_player_command post c (request_id frame) command actor attachment)).
  { intros command actor attachment. apply never_cleanly, never_bind. intros r. apply never_bind. intros [] s.
    unfold mret, M_ret, rejected. destruct r; intros [?|?]; done. }
  unfold post_dispatched. destruct (dispatch d frame) as [[] [command|]]; try apply refuse_ret.
  destruct command as [bs|player|key product|room|skill];
    try (apply refuse_gets; intros [player|]; [apply Hp|]; try apply Hp; apply refuse_ret).
  intros s. unfold mbind, M_bind, on_sessions. destruct (SessionDirectory.tryAttach (sessions s) c player) as [r dir] eqn:E.
  assert (Hsame : r ≠ Attached → dir = sessions s).
  { unfold SessionDirectory.tryAttach in E. repeat case_match; simplify_eq; done. }
  destruct r; try (intros _; rewrite Hsame by done; simpl; by rewrite set_sessions_same).
  - pose proof (never_bind (rethrowing (tryPost_ post (mkRouted c (PlayerCommandRoute (PlayerActor player) (AuthenticateCommand player)
       (request_id frame) None))) (rollback_attachment c (Some player)))
       (fun result => _ ← (if bool_decide (result = Accepted) then mret tt else rollback_attachment c (Some player));
                      mret (frame_post_result result))) as H.
    assert (Hn : never_refuses (post_player_command post c (request_id frame) (AuthenticateCommand player) (PlayerActor player) (Some player))).
    { apply H. intros r. apply never_bind. intros [] s1. unfold mret, M_ret, rejected. destruct r; intros [?|?]; done. }
    specialize (Hn (set_sessions dir s)).
    destruct (post_player_command _ _ _ _ _ _ _) as [[[r|e] es] s2]; [|done]. intros Hr. by destruct (Hn Hr).
  - rewrite Hsame, set_sessions_same by done. specialize (Hp (AuthenticateCommand player) (PlayerActor player) None s).
    by destruct (post_player_command _ _ _ _ _ _ _) as [[[r|e] es] s2].
Qed.

(** A post followed by bookkeeping never refuses. *)
Lemma never_post_then post c route (f : FramePostResult → M unit) :
  never_refuses (result ← post_route post c route; _ ← f result; mret result).
Proof.
  intros s. unfold mbind at 1, M_bind at 1. pose proof (never_posted post c route s) as Hp.
  destruct (post_route post c route s) as [[[x|e] es] s1]; [|done]. unfold mbind, M_bind. by destruct (f x s1) as [[[[]|e] es1] s2].
Qed.

Lemma refuse_leave_room post now c frame : refuses_cleanly (post_RoomLeave post now c frame).
Proof.
  apply refuse_if; [apply refuse_ret|]. apply refuse_gets. intros [r|]; [|apply refuse_ret]. apply never_cleanly.
  apply (never_post_then _ _ _ (fun result => when (bool_decide (result = FrameAccepted)) (startReturn post now c (in_room r)))).
Qed.

(** One goal per message type. *)
Ltac by_type frame := repeat match goal with |- context [if frame_type frame =? ?x then _ else _] => destruct (frame_type frame =? x) end.

Lemma tryPost_refuses_cleanly post now d c frame : refuses_cleanly (gateway_tryPost post now d c frame).
Proof.
  unfold gateway_tryPost. cbv zeta. by_type frame.
  - apply refuse_with_player. intros p. apply refuse_reading. intros room. apply refuse_if; [apply refuse_ret|].
    apply refuse_reply; [apply silent_room_busy|]. apply refuse_entry.
  - apply refuse_with_room_player. intros p r. auto with refuse.
  - apply refuse_with_room_player. intros p r. do 3 (apply refuse_reading; intros ?). auto with refuse.
  - apply refuse_with_room_player. intros p r. do 3 (apply refuse_reading; intros ?). auto with refuse.
  - apply refuse_leave_room.
  - apply refuse_with_player. intros p. apply refuse_reply; [apply silent_zone_blocked|].
    do 3 (apply refuse_reading; intros ?). apply refuse_gets. intros l. apply refuse_reply; [apply silent_in_progress|].
    apply refuse_gets. intros [source|]; [apply refuse_if; [apply refuse_handoff|]|]; apply refuse_enter.
  - apply refuse_if; [apply refuse_ret|]. apply refuse_reply; [apply silent_zone_blocked|]. apply refuse_reply; [apply silent_in_progress|].
    apply refuse_gets. intros [route|]; [|apply refuse_ret]. apply never_cleanly.
    apply (never_post_then _ _ _ (fun result => when (negb (bool_decide (result = FrameFull)))
             (_ ← on_routes (fun rc => (tt, completeLeave rc route)); noteLocation_ c None))).
  - apply refuse_if; [apply refuse_ret|]. apply refuse_reply; [apply silent_zone_blocked|]. apply refuse_reply; [apply silent_in_progress|].
    apply refuse_gets. intros [route|]; [|apply refuse_ret]. do 2 (apply refuse_reading; intros ?). apply never_cleanly.
    apply (never_post_then _ _ _ (fun result => when (bool_decide (result = FrameAccepted))
             (noteLocation_ c (Some (mkPlayerLocation (route_zone route) (mkZonePosition (to_i32 _) (to_i32 _))))))).
  - apply refuse_dispatched.
Qed.

(** ** Reads in bounds *)

(** An action that never reads out of bounds. *)
Definition in_bounds {A} (m : M A) : Prop := ∀ s, match m s with (Throw OutOfRange, _, _) => False | _ => True end.

Lemma bounds_bind {A B} (m : M A) (k : A → M B) : in_bounds m → (∀ a, in_bounds (k a)) → in_bounds (m ≫= k).
Proof.
  intros Hm Hk s. specialize (Hm s). unfold mbind, M_bind. destruct (m s) as [[[a|e] es] s1]; [|exact Hm].
  specialize (Hk a s1). by destruct (k a s1) as [[[b|e] es'] s2].
Qed.

Lemma bounds_ret {A} (a : A) : in_bounds (mret a).
Proof. by intros s. Qed.
Lemma bounds_gets {A} (f : Server → A) : in_bounds (gets f).
Proof. by intros s. Qed.
Lemma bounds_emit e : in_bounds (emit e).
Proof. by intros s. Qed.
Lemma bounds_modify f : in_bounds (modify f).
Proof. by intros s. Qed.
Lemma bounds_logic {A} : in_bounds (throw (A := A) LogicError).
Proof. by intros s. Qed.
Lemma bounds_routes {A} (f : RouteCoordinator → A * RouteCoordinator) : in_bounds (on_routes f).
Proof. intros s. unfold on_routes. by destruct (f _). Qed.
Lemma bounds_sessions {A} (f : PlayerSessionDirectory → A * PlayerSessionDirectory) : in_bounds (on_sessions f).
Proof. intros s. unfold on_sessions. by destruct (f _). Qed.
Lemma bounds_zone {A} (f : ZoneTransitionChannel → A * ZoneTransitionChannel) : in_bounds (on_zone_transitions f).
Proof. intros s. unfold on_zone_transitions. by destruct (f _). Qed.
Lemma bounds_room {A} (f : RoomTransitionChannel → A * RoomTransitionChannel) : in_bounds (on_room_transitions f).
Proof. intros s. unfold on_room_transitions. by destruct (f _). Qed.
Lemma bounds_routes_throwing {A} (f : RouteCoordinator → outcome (A * RouteCoordinator)) :
  (∀ rc, f rc ≠ Throw OutOfRange) → in_bounds (on_routes_throwing f).
Proof. intros H s. unfold on_routes_throwing. specialize (H (coordinator s)). destruct (f (coordinator s)) as [[a rc]|e]; [done|]. by destruct e. Qed.
Lemma bounds_if {A} (b : bool) (m m' : M A) : in_bounds m → in_bounds m' → in_bounds (if b then m else m').
Proof. by destruct b. Qed.
Lemma bounds_when b m : in_bounds m → in_bounds (when b m).
Proof. by destruct b. Qed.
Lemma bounds_rethrowing {A} (m : M A) h : in_bounds m → in_bounds h → in_bounds (rethrowing m h).
Proof.
  intros Hm Hh s. specialize (Hm s). unfold rethrowing. destruct (m s) as [[[a|e] es] s1]; [done|].
  specialize (Hh s1). destruct (h s1) as [[[b|e'] es'] s2]; [|exact Hh]. by destruct e.
Qed.

Create HintDb bounds.
#[export] Hint Resolve bounds_bind bounds_ret bounds_gets bounds_emit bounds_modify bounds_logic bounds_routes bounds_sessions bounds_zone
  bounds_room bounds_if bounds_when bounds_rethrowing : bounds.

Lemma epoch_in_range rc p : next_epoch rc p ≠ Throw OutOfRange.
Proof. unfold next_epoch, throw_if. by destruct (_ =? _). Qed.

Lemma coordinator_in_range rc c p z pos pos' req room :
  tryEnter rc c p z ≠ Throw OutOfRange ∧ tryBeginHandoff rc c p z pos pos' req ≠ Throw OutOfRange ∧
  tryBeginRoomReturn rc c room ≠ Throw OutOfRange.
Proof.
  split_and!.
  - unfold tryEnter. do 2 (case_match; [done|]). destruct (routes rc !! c); [by case_match|].
    pose proof (epoch_in_range rc p). destruct (next_epoch rc p) as [[? ?]|e]; [done|]. by destruct e.
  - unfold tryBeginHandoff. destruct (routes rc !! c); [|done]. case_match; [done|].
    pose proof (epoch_in_range rc p). destruct (next_epoch rc p) as [[? ?]|e]; [done|]. by destruct e.
  - unfold tryBeginRoomReturn. destruct (in_rooms rc !! c) as [i|]; [|done]. case_match; [done|].
    pose proof (epoch_in_range rc (in_room_player i)). destruct (next_epoch rc _) as [[? ?]|e]; [done|]. by destruct e.
Qed.

Ltac bounds := repeat first
  [ solve [auto 2 with bounds] | apply bounds_bind; [|intros ?] | apply bounds_if | apply bounds_when | apply bounds_rethrowing
  | case_match | progress auto with bounds ].

Section bounds.
Context (post : Server → RoutedCommand → outcome PostResult) (now : time_point) (d : MessageDispatcher).
Context (Hpost : ∀ s command, post s command ≠ Throw OutOfRange).

Lemma bounds_post command : in_bounds (tryPost_ post command).
Proof using Hpost. intros s. unfold tryPost_. specialize (Hpost s command). destruct (post s command) as [r|e]; [done|]. by destruct e. Qed.
Hint Resolve bounds_post : bounds.

Lemma bounds_post_route c route : in_bounds (post_route post c route).
Proof using Hpost. unfold post_route. bounds. Qed.
Hint Resolve bounds_post_route : bounds.

Lemma bounds_reply_room c req kind : in_bounds (tryReplyRoomBusy c req kind).
Proof. unfold tryReplyRoomBusy, count_entry, modify_entries. cbv zeta. bounds. Qed.
Lemma bounds_reply_zone c req kind : in_bounds (tryReplyZoneBlockedByRoom c req kind).
Proof. unfold tryReplyZoneBlockedByRoom, count_entry, modify_entries. cbv zeta. bounds. Qed.
Lemma bounds_reply_transition c req kind : in_bounds (tryReplyTransitionInProgress c req kind).
Proof. unfold tryReplyTransitionInProgress, count_handoff. bounds. Qed.
Hint Resolve bounds_reply_room bounds_reply_zone bounds_reply_transition : bounds.

Lemma bounds_entry c req player room : in_bounds (entry_tryStart post now c req player room).
Proof using Hpost.
  unfold entry_tryStart, failEntryBeforeSourceLeave, rollback_entry, release_room, record_entry, count_entry, erase_entry, find_entry,
    set_active_entries, modify_entries. cbv zeta. bounds.
Qed.

Lemma bounds_handoff c req player zone position source : in_bounds (Handoff.tryStart post now c req player zone position source).
Proof using Hpost.
  unfold Handoff.tryStart, failHandoffBeforeSourceLeave, postStage, release_, record_transition, count_handoff, erase_active, find_active,
    set_active. cbv zeta. bounds. apply bounds_routes_throwing. intros rc. by apply coordinator_in_range.
Qed.

Lemma bounds_return c room : in_bounds (startReturn post now c room).
Proof using Hpost.
  unfold startReturn, abandon_return, release_room, erase_return, noteLocation_, count_entry, set_active_returns, modify_entries.
  cbv zeta. bounds. apply bounds_routes_throwing. intros rc. by apply (coordinator_in_range rc c 0 0 (mkZonePosition 0 0) (mkZonePosition 0 0) 0).
Qed.

Hint Resolve bounds_entry bounds_handoff bounds_return : bounds.

Lemma read_u32_Some bs offset : (offset + 4 <= length bs)%nat → is_Some (read_u32 bs offset).
Proof.
  intros Hl. unfold read_u32, read_u32_big_endian.
  destruct (lookup_lt_is_Some_2 bs offset ltac:(lia)) as [b0 ->]. destruct (lookup_lt_is_Some_2 bs (offset + 1) ltac:(lia)) as [b1 ->].
  destruct (lookup_lt_is_Some_2 bs (offset + 2) ltac:(lia)) as [b2 ->]. destruct (lookup_lt_is_Some_2 bs (offset + 3) ltac:(lia)) as [b3 ->].
  by eexists.
Qed.

Lemma read_u64_Some bs offset : (offset + 8 <= length bs)%nat → is_Some (read_u64 bs offset).
Proof.
  intros Hl. unfold read_u64. destruct (read_u32_Some bs offset ltac:(lia)) as [h ->].
  destruct (read_u32_Some bs (offset + 4) ltac:(lia)) as [l ->]. by eexists.
Qed.

Lemma bounds_reading {A B} (o : option A) (k : A → M B) : is_Some o → (∀ a, in_bounds (k a)) → in_bounds (reading o k).
Proof. intros [a ->] H. apply H. Qed.

Lemma bounds_with_player c bs size k :
  (∀ p, length bs = Z.to_nat size → in_bounds (k p)) → in_bounds (with_player c bs size k).
Proof.
  intros H. unfold with_player. apply bounds_bind; [apply bounds_gets|]. intros [p|]; [|apply bounds_ret].
  destruct (Z.eqb_spec (zlen bs) size) as [E|]; [|apply bounds_ret]. apply H. unfold zlen in E. lia.
Qed.

Lemma bounds_with_room_player c bs size k :
  (∀ p r, length bs = Z.to_nat size → in_bounds (k p r)) → in_bounds (with_room_player c bs size k).
Proof.
  intros H. apply bounds_with_player. intros p Hl. apply bounds_bind; [apply bounds_gets|]. intros [r|]; [|apply bounds_ret].
  apply bounds_if; [apply bounds_ret|by apply H].
Qed.

Ltac read := apply bounds_reading; [first [apply read_u64_Some; lia | apply read_u32_Some; lia | apply lookup_lt_is_Some_2; lia]|intros ?].

Lemma tryPost_in_bounds c frame : in_bounds (gateway_tryPost post now d c frame).
Proof using Hpost.
  unfold gateway_tryPost. cbv zeta. by_type frame.
  - apply bounds_with_player. intros p Hl. read. apply bounds_if; [apply bounds_ret|]. apply bounds_bind; [auto with bounds|]. intros [];
      [apply bounds_ret|apply bounds_entry].
  - apply bounds_with_room_player. intros p r Hl. read. bounds.
  - apply bounds_with_room_player. intros p r Hl. do 3 read. bounds.
  - apply bounds_with_room_player. intros p r Hl. do 3 read. bounds.
  - unfold post_RoomLeave. bounds.
  - apply bounds_with_player. intros p Hl. apply bounds_bind; [auto with bounds|]. intros []; [apply bounds_ret|]. do 3 read.
    assert (He : ∀ position (zone : Z), in_bounds (admission ← on_routes_throwing (fun rc => tryEnter rc c p zone);
      match admission with
      | None => mret InvalidPayload
      | Some a =>
          result ← rethrowing (post_route post c (ZoneCommandRoute zone (EnterZoneCommand p (route_epoch (admission_route a)) position)
                                 (Some Entered) (request_id frame))) (on_routes (fun rc => (tt, rollbackEnter rc a)));
          _ ← (if negb (bool_decide (result = FrameAccepted)) then on_routes (fun rc => (tt, rollbackEnter rc a))
               else when (created a) (noteLocation_ c (Some (mkPlayerLocation zone position))));
          mret result
      end)).
    { intros position zone. unfold noteLocation_. bounds. apply bounds_routes_throwing. intros rc.
      by apply (coordinator_in_range rc c p zone position position 0 0). }
    apply bounds_bind; [apply bounds_gets|]. intros l. cbv zeta. apply bounds_bind; [auto with bounds|]. intros []; [apply bounds_ret|].
    apply bounds_bind; [apply bounds_gets|]. intros [source|]; [|apply He]. apply bounds_if; [apply bounds_handoff|apply He].
  - unfold post_LeaveZone, unless_moving, noteLocation_. bounds.
  - unfold post_Move. destruct (Z.eqb_spec (zlen (payload frame)) 8) as [E|]; [|apply bounds_ret]. unfold zlen in E. cbn [negb].
    unfold unless_moving. apply bounds_bind; [auto with bounds|]. intros []; [apply bounds_ret|]. apply bounds_bind; [auto with bounds|].
    intros []; [apply bounds_ret|]. apply bounds_bind; [apply bounds_gets|]. intros [route|]; [|apply bounds_ret]. do 2 read.
    unfold noteLocation_. bounds.
  - unfold post_dispatched, post_player_command, rollback_attachment. bounds.
Qed.
End bounds.

(** ** Frames reach the actors as the commands they encode *)

Lemma bytes_ok_concat bs bs' : bytes_ok bs → bytes_ok bs' → bytes_ok (bs ++ bs').
Proof. apply Forall_app_2. Qed.
#[export] Hint Resolve bytes_ok_concat be_bytes_ok : bounds.

Lemma read_u32_written bs v bs' :
  bytes_ok bs → bytes_ok bs' → in_u32 v → read_u32 (bs ++ be_bytes 4 v ++ bs') (length bs) = Some v.
Proof.
  intros H1 H2 Hv. unfold read_u32. rewrite read_u32_value.
  - rewrite drop_app_length, take_app_length' by (by rewrite be_bytes_length). rewrite be_value_bytes. f_equal. apply Z.mod_small. simpl. lia.
  - auto with bounds.
  - rewrite !length_app, be_bytes_length. lia.
Qed.

(** Eight bytes are four and four. *)
Lemma be_bytes_split v : be_bytes 8 v = be_bytes 4 (v / 2 ^ 32) ++ be_bytes 4 v.
Proof.
  rewrite !be_bytes_S. simpl. rewrite !Z.div_div by lia. done.
Qed.

Lemma be_bytes_mod n v : be_bytes n (v mod 256 ^ Z.of_nat n) = be_bytes n v.
Proof. rewrite <-be_value_bytes. rewrite <-(be_bytes_length n v) at 1. apply be_bytes_value, be_bytes_ok. Qed.

Lemma read_u64_written bs v bs' :
  bytes_ok bs → bytes_ok bs' → in_u64 v → read_u64 (bs ++ be_bytes 8 v ++ bs') (length bs) = Some v.
Proof.
  intros H1 H2 Hv. unfold read_u64. rewrite be_bytes_split, <-app_assoc.
  rewrite read_u32_written by first [solve [auto with bounds]|div_lia]. cbn [mbind option_bind].
  replace (length bs + 4)%nat with (length (bs ++ be_bytes 4 (v / 2 ^ 32))) by (rewrite length_app, be_bytes_length; lia).
  rewrite app_assoc.
  assert (Hlow : be_bytes 4 v = be_bytes 4 (v mod 2 ^ 32)).
  { symmetry. apply (be_bytes_mod 4). }
  rewrite Hlow, read_u32_written by first [solve [auto with bounds]|div_lia]. cbn [mbind option_bind]. f_equal.
  rewrite lor_shiftl_add by (Z.to_euclidean_division_equations; lia). Z.to_euclidean_division_equations; lia.
Qed.

Lemma read_u64_head v bs : bytes_ok bs → in_u64 v → read_u64 (be_bytes 8 v ++ bs) 0 = Some v.
Proof. intros Hb Hv. apply (read_u64_written [] v bs); [constructor|done..]. Qed.

Lemma read_u32_head v bs : bytes_ok bs → in_u32 v → read_u32 (be_bytes 4 v ++ bs) 0 = Some v.
Proof. intros Hb Hv. apply (read_u32_written [] v bs); [constructor|done..]. Qed.

Lemma fold_bytes_value width bs :
  bytes_ok bs → 8 * Z.of_nat (length bs) <= width → fold_bytes width bs = be_value bs.
Proof.
  intros Hok Hw. unfold fold_bytes, be_value.
  assert (Hgen : ∀ acc, 0 <= acc → acc * 256 ^ Z.of_nat (length bs) + 256 ^ Z.of_nat (length bs) <= 2 ^ width →
            foldl (fun value byte => Z.lor (Z.shiftl value 8 mod 2 ^ width) byte) acc bs = foldl (fun acc b => acc * 256 + b) acc bs).
  { clear Hw. induction Hok as [|b bs Hb Hbs IH]; intros acc Ha Hacc; [done|]. cbn [foldl length] in *.
    rewrite Nat2Z.inj_succ, Z.pow_succ_r in Hacc by lia. set (w := 256 ^ Z.of_nat (length bs)) in *.
    assert (1 <= w) by (pose proof (Z.pow_pos_nonneg 256 (Z.of_nat (length bs)) ltac:(lia) ltac:(lia)); lia).
    assert (E : Z.lor (Z.shiftl acc 8 mod 2 ^ width) b = acc * 256 + b).
    { rewrite Z.shiftl_mul_pow2 by lia. rewrite Z.mod_small by nia. rewrite <-Z.shiftl_mul_pow2 by lia.
      rewrite lor_shiftl_add by lia. lia. }
    rewrite E. apply IH; nia. }
  apply Hgen; [lia|]. change 256 with (2 ^ 8). rewrite <-Z.pow_mul_r by lia. rewrite Z.mul_0_l, Z.add_0_l. apply Z.pow_le_mono_r; lia.
Qed.

Lemma fold_bytes_written width n v :
  8 * Z.of_nat n <= width → 0 <= v < 256 ^ Z.of_nat n → fold_bytes width (be_bytes n v) = v.
Proof.
  intros Hw Hv. rewrite fold_bytes_value by (rewrite ?be_bytes_length; auto with bounds). rewrite be_value_bytes. by apply Z.mod_small.
Qed.

Lemma to_i32_u32 z : in_i32 z → to_i32 (u32 z) = z.
Proof.
  intros Hz. unfold to_i32, u32. destruct (decide (0 <= z)).
  - rewrite Z.mod_small by lia. by rewrite (proj2 (Z.leb_le _ _)) by lia.
  - rewrite <-(Z.mod_add z 1), Z.mod_small by lia. rewrite (proj2 (Z.leb_gt _ _)) by lia. lia.
Qed.

(** What clients put into a payload. *)
Definition skill_payload (room skill sequence : Z) : bytes := append_u64 (append_u32 (append_u64 [] room) skill) sequence.
Definition intent_payload (room : Z) (direction : MoveDirection) (sequence : Z) : bytes :=
  append_u64 (append_u64 [] room ++ [direction_to_u8 direction]) sequence.
Definition move_payload (position : ZonePosition) : bytes :=
  append_u32 (append_u32 [] (u32 (zone_x position))) (u32 (zone_y position)).
Definition purchase_payload (key product : Z) : bytes := append_u32 (append_u64 [] key) product.

Lemma payload_forms room skill sequence direction position key product :
  skill_payload room skill sequence = be_bytes 8 room ++ be_bytes 4 skill ++ be_bytes 8 sequence ∧
  intent_payload room direction sequence = be_bytes 8 room ++ [direction_to_u8 direction] ++ be_bytes 8 sequence ∧
  move_payload position = be_bytes 4 (u32 (zone_x position)) ++ be_bytes 4 (u32 (zone_y position)) ∧
  purchase_payload key product = be_bytes 8 key ++ be_bytes 4 product.
Proof.
  unfold skill_payload, intent_payload, move_payload, purchase_payload, append_u64, append_u32.
  rewrite !append_big_endian_app. cbn [app]. rewrite <-!app_assoc. done.
Qed.

(** The action posts [route] for [c] and nothing before it. *)
Definition posts_first {A} (m : M A) (s : Server) (c : ConnectionId) (route : CommandRoute) : Prop :=
  ∃ o r es s', m s = (o, Post (mkRouted c route) r :: es, s').

Lemma built_in_handlers d : makeMessageDispatcher = Ret d →
  d !! MessageType.Ping = Some handle_ping ∧ d !! MessageType.Purchase = Some handle_purchase ∧
  d !! MessageType.EquipSkill = Some handle_equip_skill.
Proof. by intros [= <-]. Qed.

Section frames.
Context (post : Server → RoutedCommand → outcome PostResult) (now : time_point) (d : MessageDispatcher).
Context (Haccept : ∀ s command, ∃ r, post s command = Ret r) (Hd : makeMessageDispatcher = Ret d).
Context (s : Server) (c : ConnectionId) (req : Z).

Lemma route_posts route : posts_first (post_route post c route) s c route.
Proof using Haccept.
  unfold posts_first, post_route, mbind, M_bind, tryPost_. destruct (Haccept s (mkRouted c route)) as [r ->]. by do 4 eexists.
Qed.

Lemma then_posts {A} (f : FramePostResult → M A) route : posts_first (result ← post_route post c route; f result) s c route.
Proof using Haccept.
  unfold posts_first, post_route, mbind, M_bind, tryPost_. destruct (Haccept s (mkRouted c route)) as [r ->]. simpl.
  destruct (f (frame_post_result r) s) as [[o es] s']. by do 4 eexists.
Qed.

Lemma room_frame_posts (player : PlayerId) (r : InRoomState) bs size k route :
  playerFor (sessions s) c = Some player → inRoomFor (coordinator s) c = Some r → in_room_player r = player →
  Z.of_nat (length bs) = size → posts_first (k player r) s c route → posts_first (with_room_player c bs size k) s c route.
Proof.
  intros Hp Hr Hrp Hl (o & x & es & s' & E). unfold with_room_player, with_player, posts_first, mbind, M_bind, gets. rewrite Hp.
  unfold zlen. rewrite Hl, Z.eqb_refl. cbn [negb]. rewrite Hr, Hrp, Z.eqb_refl. cbn [negb]. rewrite E. simpl. by do 4 eexists.
Qed.

Lemma player_posts command actor attachment :
  posts_first (post_player_command post c req command actor attachment) s c (PlayerCommandRoute actor command req None).
Proof using Haccept.
  unfold posts_first, post_player_command, mbind at 1, M_bind at 1, rethrowing, tryPost_.
  destruct (Haccept s (mkRouted c (PlayerCommandRoute actor command req None))) as [r ->]. simpl.
  match goal with |- context [(?m ≫= ?k) s] => destruct ((m ≫= k) s) as [[o es] s'] end. by do 4 eexists.
Qed.

Lemma dispatched_posts frame command player :
  handle_ping frame = Some command ∧ frame_type frame = MessageType.Ping ∨
  handle_purchase frame = Some command ∧ frame_type frame = MessageType.Purchase ∨
  handle_equip_skill frame = Some command ∧ frame_type frame = MessageType.EquipSkill →
  request_id frame = req → playerFor (sessions s) c = Some player →
  posts_first (gateway_tryPost post now d c frame) s c (PlayerCommandRoute (PlayerActor player) command req None).
Proof using Haccept Hd.
  intros Hh Hreq Hp. unfold gateway_tryPost. cbv zeta.
  assert (Hdis : dispatch d frame = mkDispatch Handled (Some command) ∧ (∀ p, command ≠ AuthenticateCommand p)).
  { destruct (built_in_handlers d Hd) as (H1 & H2 & H3). unfold dispatch.
    destruct Hh as [[Hh Ht]|[[Hh Ht]|[Hh Ht]]]; rewrite Ht, ?H1, ?H2, ?H3, Hh; (split; [done|]); intros p ->; revert Hh;
      unfold handle_ping, handle_purchase, handle_equip_skill; repeat case_match; done. }
  destruct Hdis as [Hdis Hnot].
  assert (Hgo : posts_first (post_dispatched post d c frame) s c (PlayerCommandRoute (PlayerActor player) command req None)).
  { unfold post_dispatched. rewrite Hdis, Hreq. destruct (player_posts command (PlayerActor player) None) as (o & r & es & s' & E).
    destruct command; try (by destruct (Hnot _ eq_refl)); unfold posts_first, mbind, M_bind, gets; rewrite Hp, E; by do 4 eexists. }
  destruct Hh as [[_ Ht]|[[_ Ht]|[_ Ht]]]; rewrite Ht; exact Hgo.
Qed.
End frames.

Section encoded.
Context (post : Server → RoutedCommand → outcome PostResult) (now : time_point) (d : MessageDispatcher).
Context (Hacc : ∀ s command, ∃ r, post s command = Ret r) (Hd : makeMessageDispatcher = Ret d).
Context (s : Server) (c : ConnectionId) (req : Z) (player : PlayerId) (Hp : playerFor (sessions s) c = Some player).

(** The frame of a type and payload is posted as the route. *)
Definition sends (type : Z) (bs : bytes) (route : CommandRoute) : Prop :=
  posts_first (gateway_tryPost post now d c (mkFrame type req bs)) s c route.

Section in_room.
Context (r : InRoomState) (Hr : inRoomFor (coordinator s) c = Some r) (Hrp : in_room_player r = player)
        (Hroom : 1 <= in_room r <= U64_MAX).

Lemma room_nonzero : (in_room r =? 0) = false.
Proof using Hroom. apply Z.eqb_neq. lia. Qed.

Lemma battle_sent : sends MessageType.BattleStart (append_u64 [] (in_room r)) (RoomCommandRoute (in_room r) StartBattle (Some BattleStarted) req).
Proof using Hacc Hp Hr Hrp Hroom.
  pose proof room_nonzero as Hr0. unfold sends. change (gateway_tryPost post now d c ?f) with (post_BattleStart post c f). unfold post_BattleStart.
  eapply room_frame_posts; [done|done|done|done|]. cbn [payload request_id]. unfold append_u64. fold (be_bytes 8 (in_room r)).
  pose proof (read_u64_written [] (in_room r) [] ltac:(constructor) ltac:(constructor) ltac:(lia)) as E.
  rewrite app_nil_r in E. cbn [app length] in E. rewrite E. cbn [reading]. rewrite Hr0, Z.eqb_refl. cbn [negb orb]. by apply route_posts.
Qed.

Lemma skill_sent skill sequence : 1 <= skill <= U32_MAX → 1 <= sequence <= U64_MAX →
  sends MessageType.UseSkill (skill_payload (in_room r) skill sequence)
    (RoomCommandRoute (in_room r) (UseSkill player skill sequence) (Some SkillAcknowledged) req).
Proof using Hacc Hp Hr Hrp Hroom.
  intros Hs Hq. pose proof room_nonzero as Hr0. unfold sends. change (gateway_tryPost post now d c ?f) with (post_UseSkill post c f). unfold post_UseSkill.
  destruct (payload_forms (in_room r) skill sequence Stop (mkZonePosition 0 0) 0 0) as (E & _). cbn [payload request_id]. rewrite E.
  eapply room_frame_posts; [done|done|done|by rewrite !length_app, !be_bytes_length|].
  rewrite read_u64_head by first [solve [auto with bounds]|lia]. cbn [reading].
  replace 8%nat with (length (be_bytes 8 (in_room r))) at 2 by apply be_bytes_length.
  rewrite (read_u32_written (be_bytes 8 (in_room r))) by first [solve [auto with bounds]|lia]. cbn [reading].
  replace 12%nat with (length (be_bytes 8 (in_room r) ++ be_bytes 4 skill)) by (by rewrite length_app, !be_bytes_length).
  pose proof (read_u64_written (be_bytes 8 (in_room r) ++ be_bytes 4 skill) sequence [] ltac:(auto with bounds) ltac:(constructor) ltac:(lia)) as E3.
  rewrite app_nil_r, <-app_assoc in E3. rewrite E3. cbn [reading].
  rewrite Hr0, Z.eqb_refl, (proj2 (Z.eqb_neq skill 0)), (proj2 (Z.eqb_neq sequence 0)) by lia. cbn [negb orb]. by apply route_posts.
Qed.

Lemma intent_sent direction sequence : 1 <= sequence <= U64_MAX →
  sends MessageType.SetMoveIntent (intent_payload (in_room r) direction sequence)
    (RoomCommandRoute (in_room r) (SetMoveIntent player direction sequence) (Some MoveAcknowledged) req).
Proof using Hacc Hp Hr Hrp Hroom.
  intros Hq. pose proof room_nonzero as Hr0. unfold sends. change (gateway_tryPost post now d c ?f) with (post_SetMoveIntent post c f). unfold post_SetMoveIntent.
  destruct (payload_forms (in_room r) 0 sequence direction (mkZonePosition 0 0) 0 0) as (_ & E & _). cbn [payload request_id]. rewrite E.
  assert (Hdir : in_u8 (direction_to_u8 direction)) by (destruct direction; simpl; lia).
  assert (Hdok : bytes_ok [direction_to_u8 direction]) by (repeat constructor; lia).
  eapply room_frame_posts; [done|done|done|by rewrite !length_app, !be_bytes_length|].
  rewrite read_u64_head by first [solve [auto with bounds]|lia]. cbn [reading].
  rewrite lookup_app_r, be_bytes_length by (rewrite be_bytes_length; lia). cbn [Nat.sub app lookup list_lookup reading].
  replace 9%nat with (length (be_bytes 8 (in_room r) ++ [direction_to_u8 direction])) by (by rewrite length_app, be_bytes_length).
  pose proof (read_u64_written (be_bytes 8 (in_room r) ++ [direction_to_u8 direction]) sequence [] ltac:(auto with bounds)
                ltac:(constructor) ltac:(lia)) as E3.
  rewrite app_nil_r, <-app_assoc in E3. cbn [app] in E3. rewrite E3. cbn [reading].
  rewrite Hr0, Z.eqb_refl, (proj2 (Z.eqb_neq sequence 0)) by lia.
  assert (isValidMoveDirection (direction_to_u8 direction) = true) as -> by by destruct direction.
  assert (direction_of_u8 (direction_to_u8 direction) = direction) as -> by by destruct direction. cbn [negb orb]. by apply route_posts.
Qed.

Lemma leave_sent : sends MessageType.RoomLeave [] (RoomCommandRoute (in_room r) (LeaveRoom player) None req).
Proof using Hacc Hr Hrp.
  unfold sends. change (gateway_tryPost post now d c ?f) with (post_RoomLeave post now c f). unfold post_RoomLeave.
  match goal with |- context [if ?b then _ else _] => change b with false end. cbv iota.
  unfold posts_first, mbind at 1, M_bind at 1, gets. rewrite Hr, Hrp. cbn [request_id].
  destruct (then_posts post Hacc s c (fun result => _ ← when (bool_decide (result = FrameAccepted)) (startReturn post now c (in_room r)); mret result)
              (RoomCommandRoute (in_room r) (LeaveRoom player) None req)) as (o & x & es & s' & E). rewrite E. by do 4 eexists.
Qed.
End in_room.

Lemma move_sent route position :
  in_transition (coordinator s) c = false → routes (coordinator s) !! c = Some route → i32_position position →
  sends MessageType.Move (move_payload position)
    (ZoneCommandRoute (route_zone route) (MoveInZoneCommand (route_player route) (route_epoch route) position) (Some Moved) req).
Proof using Hacc.
  intros Ht Hroute [Hx Hy]. unfold sends. change (gateway_tryPost post now d c ?f) with (post_Move post c f). unfold post_Move.
  destruct (payload_forms 0 0 0 Stop position 0 0) as (_ & _ & E & _). cbn [payload request_id]. rewrite E.
  unfold zlen. rewrite !length_app, !be_bytes_length.
  match goal with |- context [if ?b then _ else _] => change b with false end. cbv iota. unfold in_transition in Ht. to_prop.
  assert (Hnone : handoffs (coordinator s) !! c = None ∧ room_entries (coordinator s) !! c = None ∧ in_rooms (coordinator s) !! c = None ∧
            room_returns (coordinator s) !! c = None) by (repeat destruct (_ !! c); done).
  destruct Hnone as (N1 & N2 & N3 & N4). unfold unless_moving, posts_first. unfold tryReplyZoneBlockedByRoom, tryReplyTransitionInProgress.
  unfold roomEntryFor, inRoomFor, roomReturnFor, handoffFor, routeFor, moving. unfold mbind, M_bind, gets. rewrite N2, N3, N4. cbn [mret M_ret]. rewrite N1. cbn [mret M_ret].
  rewrite ?N1, ?N2, ?N4. cbn [has_value orb]. rewrite Hroute.
  rewrite read_u32_head by first [solve [auto with bounds]|apply u32_range]. cbn [reading].
  pose proof (read_u32_written (be_bytes 4 (u32 (zone_x position))) (u32 (zone_y position)) [] ltac:(auto with bounds) ltac:(constructor)
                ltac:(apply u32_range)) as E3. rewrite app_nil_r, be_bytes_length in E3. rewrite E3. cbn [reading].
  rewrite !to_i32_u32 by done. destruct position as [x y]. cbn [zone_x zone_y] in *.
  destruct (then_posts post Hacc s c
    (fun result => _ ← when (bool_decide (result = FrameAccepted)) (noteLocation_ c (Some (mkPlayerLocation (route_zone route) (mkZonePosition x y))));
                   mret result)
    (ZoneCommandRoute (route_zone route) (MoveInZoneCommand (route_player route) (route_epoch route) (mkZonePosition x y)) (Some Moved) req))
    as (o & z & es & s' & E4). cbv [mbind M_bind mret M_ret] in E4. rewrite E4. by do 4 eexists.
Qed.

Lemma purchase_sent key product : 1 <= key <= U64_MAX → 1 <= product <= U32_MAX →
  sends MessageType.Purchase (purchase_payload key product)
    (PlayerCommandRoute (PlayerActor player) (PurchaseCommand key product) req None).
Proof using Hacc Hd Hp.
  intros Hk Hpr. unfold sends. apply dispatched_posts; [done|done|right; left; split; [|done]|done|done].
  destruct (payload_forms 0 0 0 Stop (mkZonePosition 0 0) key product) as (_ & _ & _ & E). unfold handle_purchase. cbn [payload]. rewrite E.
  unfold zlen. rewrite !length_app, !be_bytes_length. match goal with |- context [if ?b then _ else _] => change b with false end. cbv iota.
  rewrite take_app_length', drop_app_length' by (by rewrite be_bytes_length). rewrite !fold_bytes_written by (simpl; lia).
  by rewrite (proj2 (Z.eqb_neq key 0)), (proj2 (Z.eqb_neq product 0)) by lia.
Qed.

Lemma equip_sent skill : 1 <= skill <= U32_MAX →
  sends MessageType.EquipSkill (append_u32 [] skill) (PlayerCommandRoute (PlayerActor player) (EquipSkillCommand skill) req None).
Proof using Hacc Hd Hp.
  intros Hs. unfold sends. apply dispatched_posts; [done|done|right; right; split; [|done]|done|done].
  unfold handle_equip_skill. cbn [payload]. unfold append_u32. fold (be_bytes 4 skill).
  unfold zlen. rewrite be_bytes_length, fold_bytes_written by (simpl; lia).
  match goal with |- context [if ?b then _ else _] => change b with false end. cbv iota.
  by rewrite (proj2 (Z.eqb_neq skill 0)) by lia.
Qed.

(** *** Requests that move the player *)

Lemma silent_bind {A B} (m : M A) (k : A → M B) (s1 s2 : Server) x : m s1 = (Ret x, [], s2) → (m ≫= k) s1 = k x s2.
Proof. intros E. unfold mbind, M_bind. rewrite E. by destruct (k x s2) as [[o es] s3]. Qed.

Lemma posts_after {A} (m m' : M A) s1 route : m s = m' s1 → posts_first m' s1 c route → posts_first m s c route.
Proof. intros E (o & r & es & s' & E'). exists o, r, es, s'. by rewrite E. Qed.

(** A connection that is not on the move is not told to wait. *)
Lemma free_replies : in_transition (coordinator s) c = false →
  (∀ kind, tryReplyZoneBlockedByRoom c req kind s = (Ret false, [], s)) ∧
  (∀ kind, tryReplyTransitionInProgress c req kind s = (Ret false, [], s)) ∧
  (∀ kind, tryReplyRoomBusy c req kind s = (Ret false, [], s)) ∧ routeFor (coordinator s) c = routes (coordinator s) !! c.
Proof.
  intros Ht. unfold in_transition in Ht.
  assert (Hnone : handoffs (coordinator s) !! c = None ∧ room_entries (coordinator s) !! c = None ∧ in_rooms (coordinator s) !! c = None ∧
            room_returns (coordinator s) !! c = None) by (repeat destruct (_ !! c); done).
  destruct Hnone as (N1 & N2 & N3 & N4). unfold tryReplyZoneBlockedByRoom, tryReplyTransitionInProgress, tryReplyRoomBusy.
  unfold roomEntryFor, inRoomFor, roomReturnFor, handoffFor, routeFor, moving, mbind, M_bind, gets. rewrite N1, N2, N3, N4. split_and!; try done.
Qed.

Lemma authenticate_sent p :
  1 <= p <= U64_MAX → (tryAttach (sessions s) c p).1 = Attached ∨ (tryAttach (sessions s) c p).1 = AlreadyAttached →
  sends MessageType.Authenticate (append_u64 [] p) (PlayerCommandRoute (PlayerActor p) (AuthenticateCommand p) req None).
Proof using Hacc Hd.
  intros Hv Ha. unfold sends. change (gateway_tryPost post now d c ?f) with (post_dispatched post d c f). unfold post_dispatched, dispatch.
  assert (d !! MessageType.Authenticate = Some handle_authenticate) as Ed by by (injection Hd as <-). cbn [frame_type]. rewrite Ed.
  unfold handle_authenticate. cbn [payload]. unfold append_u64. fold (be_bytes 8 p). unfold zlen. rewrite be_bytes_length, fold_bytes_written by (simpl; lia).
  match goal with |- context [if ?b then _ else _] => change b with false end. cbv iota. rewrite (proj2 (Z.eqb_neq p 0)) by lia. cbn [request_id].
  destruct (tryAttach (sessions s) c p) as [result sessions'] eqn:Et. cbn [fst] in Ha.
  eapply (posts_after _ _ (set_sessions sessions' s)); [apply silent_bind; unfold on_sessions; by rewrite Et|].
  destruct Ha as [-> | ->]; by apply player_posts.
Qed.

Lemma leave_zone_sent route :
  in_transition (coordinator s) c = false → routes (coordinator s) !! c = Some route →
  sends MessageType.LeaveZone []
    (ZoneCommandRoute (route_zone route) (LeaveZoneCommand (route_player route) (route_epoch route)) (Some Left) req).
Proof using Hacc.
  intros Ht Hroute. unfold sends. change (gateway_tryPost post now d c ?f) with (post_LeaveZone post c f). unfold post_LeaveZone.
  match goal with |- context [if ?b then _ else _] => change b with false end. cbv iota. cbn [request_id].
  destruct (free_replies Ht) as (F1 & F2 & _ & F4). unfold unless_moving.
  eapply posts_after; [apply silent_bind, F1|]. cbv iota. eapply posts_after; [apply silent_bind, F2|]. cbv iota.
  eapply posts_after; [by apply silent_bind|]. rewrite F4, Hroute. by apply then_posts.
Qed.

(** Where the player is put: where it stood when it was last in the zone, or
    where it asks to be. *)
Definition entered_at (zone x y : Z) : ZonePosition :=
  match locationFor (sessions s) c with
  | Some l => if loc_zone l =? zone then loc_position l else mkZonePosition x y
  | None => mkZonePosition x y
  end.

Definition enter_payload (zone x y : Z) : bytes := be_bytes 8 zone ++ be_bytes 4 (u32 x) ++ be_bytes 4 (u32 y).

Lemma enter_payload_reads zone x y :
  in_u64 zone →
  zlen (enter_payload zone x y) = 16 ∧ read_u64 (enter_payload zone x y) 0 = Some zone ∧
  read_u32 (enter_payload zone x y) 8 = Some (u32 x) ∧ read_u32 (enter_payload zone x y) 12 = Some (u32 y).
Proof.
  intros Hz. unfold enter_payload. split_and!.
  - unfold zlen. by rewrite !length_app, !be_bytes_length.
  - apply read_u64_head; [auto with bounds|done].
  - replace 8%nat with (length (be_bytes 8 zone)) at 2 by apply be_bytes_length.
    apply read_u32_written; [auto with bounds|auto with bounds|apply u32_range].
  - replace 12%nat with (length (be_bytes 8 zone ++ be_bytes 4 (u32 x))) by (by rewrite length_app, !be_bytes_length).
    pose proof (read_u32_written (be_bytes 8 zone ++ be_bytes 4 (u32 x)) (u32 y) [] ltac:(auto with bounds) ltac:(constructor) ltac:(apply u32_range)) as E.
    by rewrite app_nil_r, <-app_assoc in E.
Qed.

(** What the gateway does with the request once it is read. *)
Lemma enter_read zone x y :
  in_transition (coordinator s) c = false → in_u64 zone → in_i32 x → in_i32 y →
  (∀ source, routes (coordinator s) !! c = Some source → route_zone source ≠ zone →
     gateway_tryPost post now d c (mkFrame MessageType.EnterZone req (enter_payload zone x y)) s
     = Handoff.tryStart post now c req player zone (entered_at zone x y) source s) ∧
  (∀ a rc, tryEnter (coordinator s) c player zone = Ret (Some a, rc) →
     sends MessageType.EnterZone (enter_payload zone x y)
       (ZoneCommandRoute zone (EnterZoneCommand player (route_epoch (admission_route a)) (entered_at zone x y)) (Some Entered) req)).
Proof using Hacc Hp.
  intros Ht Hz Hx Hy. destruct (free_replies Ht) as (F1 & F2 & _ & F4). destruct (enter_payload_reads zone x y Hz) as (R1 & R2 & R3 & R4).
  unfold sends. change (gateway_tryPost post now d c ?f) with (post_EnterZone post now c f). unfold post_EnterZone, with_player. cbn [payload request_id].
  rewrite R1. cbn [Z.eqb negb Pos.eqb]. split.
  - intros source Hs Hne. erewrite silent_bind by done. rewrite Hp. erewrite silent_bind by apply F1. cbv iota. rewrite R2, R3, R4. cbn [reading].
    erewrite silent_bind by done. erewrite silent_bind by apply F2. cbv iota. erewrite silent_bind by done. cbv zeta. rewrite F4, Hs.
    rewrite (proj2 (Z.eqb_neq _ _) Hne). cbn [negb]. unfold entered_at. by rewrite !to_i32_u32.
  - intros a rc He. eapply posts_after; [by apply silent_bind|]. rewrite Hp. eapply posts_after; [by apply silent_bind, F1|]. cbv iota. rewrite R2, R3, R4. cbn [reading].
    eapply posts_after; [by apply silent_bind|]. eapply posts_after; [by apply silent_bind, F2|]. cbv iota. eapply posts_after; [by apply silent_bind|]. cbv zeta.
    rewrite !to_i32_u32 by done. fold (entered_at zone x y). rewrite F4.
    assert (Hsame : ∀ source, routes (coordinator s) !! c = Some source → route_zone source = zone).
    { intros source Hs. unfold tryEnter in He. destruct (zone =? 0); [done|]. rewrite Ht, Hs in He.
      destruct (Z.eqb_spec (route_zone source) zone); [done|]. by rewrite orb_true_r in He. }
    destruct (routes (coordinator s) !! c) as [source|]; [rewrite (Hsame source eq_refl), Z.eqb_refl; cbn [negb]|].
    all: eapply (posts_after _ _ (set_coordinator rc s)); [apply silent_bind; unfold on_routes_throwing; by rewrite He|].
    all: unfold posts_first, rethrowing, post_route, mbind at 1, M_bind at 1, mbind at 1, M_bind at 1, tryPost_.
    all: match goal with |- context [post ?s ?m] => destruct (Hacc s m) as [r ->] end; simpl.
    all: match goal with |- context [(?m ≫= ?k) ?s1] => destruct ((m ≫= k) s1) as [[o es] s'] end; by do 4 eexists.
Qed.

Lemma join_read room :
  in_transition (coordinator s) c = false → 1 <= room <= U64_MAX →
  gateway_tryPost post now d c (mkFrame MessageType.RoomJoin req (append_u64 [] room)) s = entry_tryStart post now c req player room s.
Proof using Hp.
  intros Ht Hroom. destruct (free_replies Ht) as (_ & _ & F3 & _). change (gateway_tryPost post now d c ?f) with (post_RoomJoin post now c f).
  unfold post_RoomJoin, with_player. cbn [payload request_id]. erewrite silent_bind by done. rewrite Hp. unfold append_u64. fold (be_bytes 8 room).
  unfold zlen. rewrite be_bytes_length. match goal with |- context [if negb ?b then _ else _] => change b with true end. cbn [negb].
  pose proof (read_u64_head room [] ltac:(constructor) ltac:(lia)) as E. rewrite app_nil_r in E. rewrite E. cbn [reading].
  rewrite (proj2 (Z.eqb_neq room 0)) by lia. by erewrite silent_bind by apply F3.
Qed.
End encoded.

(** ** Theorems *)

(** C35: a frame the gateway refuses, as malformed or of an unsupported type (the
    server then closes the connection), changes no state and sends nothing: no
    command, reply or released token, whatever its type and payload and in
    whatever state the connection is. *)
Theorem refused_frames_change_nothing post now d c frame s :
  match gateway_tryPost post now d c frame s with
  | (Ret InvalidPayload, es, s') | (Ret UnsupportedMessage, es, s') => es = [] ∧ s' = s
  | _ => True
  end.
Proof.
  pose proof (tryPost_refuses_cleanly post now d c frame s) as H. unfold rejected in H.
  destruct (gateway_tryPost post now d c frame s) as [[[[]|e] es] s']; try done; apply H; auto.
Qed.

(** The gateway never reads outside a payload: whatever bytes a frame
    carries, every read comes after the check of the size it needs. *)
Theorem payload_reads_in_bounds post now d c frame s :
  (∀ s command, post s command ≠ Throw OutOfRange) →
  match gateway_tryPost post now d c frame s with
  | (Throw e, _, _) => e ≠ OutOfRange
  | _ => True
  end.
Proof.
  intros Hpost. pose proof (tryPost_in_bounds post now d Hpost c frame s) as H.
  destruct (gateway_tryPost post now d c frame s) as [[[r|e] es] s']; [done|]. by destruct e.
Qed.

(** What a client encodes is what the actors get.  For a connection that
    serves [player]: the skill, movement and battle commands of a player in a
    room, the moves of a player on a zone route, and purchases, equipment and
    pings are posted exactly as encoded, field by field, under the player and
    the epoch the server knows, and before anything else happens. *)
Theorem frames_reach_actors post now d s c req player :
  (∀ s command, ∃ r, post s command = Ret r) → makeMessageDispatcher = Ret d → playerFor (sessions s) c = Some player →
  let sends := sends post now d s c req in
  (∀ r, inRoomFor (coordinator s) c = Some r → in_room_player r = player → 1 <= in_room r <= U64_MAX →
     let room := in_room r in
     sends MessageType.BattleStart (append_u64 [] room) (RoomCommandRoute room StartBattle (Some BattleStarted) req) ∧
     (∀ skill sequence, 1 <= skill <= U32_MAX → 1 <= sequence <= U64_MAX →
        sends MessageType.UseSkill (skill_payload room skill sequence)
          (RoomCommandRoute room (UseSkill player skill sequence) (Some SkillAcknowledged) req)) ∧
     (∀ direction sequence, 1 <= sequence <= U64_MAX →
        sends MessageType.SetMoveIntent (intent_payload room direction sequence)
          (RoomCommandRoute room (SetMoveIntent player direction sequence) (Some MoveAcknowledged) req)) ∧
     sends MessageType.RoomLeave [] (RoomCommandRoute room (LeaveRoom player) None req)) ∧
  (∀ route position, in_transition (coordinator s) c = false → routes (coordinator s) !! c = Some route → i32_position position →
     sends MessageType.Move (move_payload position)
       (ZoneCommandRoute (route_zone route) (MoveInZoneCommand (route_player route) (route_epoch route) position) (Some Moved) req)) ∧
  (∀ key product, 1 <= key <= U64_MAX → 1 <= product <= U32_MAX →
     sends MessageType.Purchase (purchase_payload key product)
       (PlayerCommandRoute (PlayerActor player) (PurchaseCommand key product) req None)) ∧
  (∀ skill, 1 <= skill <= U32_MAX →
     sends MessageType.EquipSkill (append_u32 [] skill) (PlayerCommandRoute (PlayerActor player) (EquipSkillCommand skill) req None)) ∧
  (∀ bs, sends MessageType.Ping bs (PlayerCommandRoute (PlayerActor player) (PingCommand bs) req None)).
Proof.
  intros Hacc Hd Hp sends0. unfold sends0. split_and!.
  - intros r Hr Hrp Hroom. cbv zeta. split_and!.
    + by eapply battle_sent.
    + intros. by eapply skill_sent.
    + intros. by eapply intent_sent.
    + by eapply leave_sent.
  - intros. by apply move_sent.
  - intros. by apply purchase_sent.
  - intros. by apply equip_sent.
  - intros bs. apply dispatched_posts; [done|done|by left|done|done].
Qed.

(** ** A location that is forgotten *)

(** A player whose connection closes while it is in a room: the location the
    session held, the way back to its zone, is cleared before it is read, so
    that the player's actor is told, as a fact, that there is none, and saves
    that.  ([docs/room-entry-handoff-contract.md] keeps [last_location] as the
    point of return for exactly this case.) *)
Theorem in_room_disconnect_forgets_location accept s c cause r x :
  active (handoff_service s) !! c = None → active_entries (entry_service s) !! c = None → active_returns (entry_service s) !! c = None →
  in_rooms (coordinator s) !! c = Some r → sessions_by_connection (sessions s) !! c = Some x →
  match tryPostConnectionClosed (fun s c => Ret (accept s c)) (mkConnectionClosed c cause false None) s with
  | (Ret _, es, _) => ∃ result, last es = Some (Post (mkRouted c (ConnectionClosedRoute (PlayerActor (session_player x)) cause true None)) result)
  | (Throw _, _, _) => False
  end.
Proof.
  intros Ha He Hr Hi Hx. unfold tryPostConnectionClosed, noteDisconnect, find_active, entry_noteDisconnect, find_entry, find_return,
    inRoomFor, mbind, M_bind, gets. cbn [closed_connection]. rewrite Ha. cbn [mret M_ret]. rewrite He, Hr, Hi. 
  unfold post_leave_room, abandon_, noteLocation_, tryPost_, on_routes, on_sessions, mbind, M_bind. cbn [mret M_ret has_location_snapshot].
  set (s1 := set_sessions _ _).
  assert (E1 : routeFor (coordinator s1) c = None).
  { unfold routeFor. destruct (moving _ _); [done|]. unfold s1, RouteCoordinator.abandon, bump_if. repeat case_match; simpl; apply lookup_delete_eq. }
  assert (E2 : in_rooms (coordinator s1) !! c = None).
  { unfold s1, RouteCoordinator.abandon, bump_if. repeat case_match; simpl; apply lookup_delete_eq. }
  assert (E3 : sessions_by_connection (sessions s1) !! c = Some (mkSession (session_player x) (session_state x) true None)).
  { unfold s1, noteLocation. simpl. rewrite Hx. apply lookup_insert_eq. }
  unfold close_zone, close_room, close_player, inRoomFor, mbind, M_bind, gets. rewrite E1. cbn [mret M_ret]. rewrite E2. cbn [mret M_ret].
  unfold playerFor, locationSnapshotFor, beginClose, on_sessions, rethrowing, tryPost_. cbn [closed_connection]. rewrite E3. simpl.
  change (sessions_by_connection (noteLocation (sessions s) c None) !! c) with (sessions_by_connection (sessions s1) !! c). rewrite E3.
  match goal with |- context [accept ?s2 (mkRouted c (ConnectionClosedRoute _ _ _ _))] => destruct (accept s2 _) end; simpl; by eexists.
Qed.

(** ** Witnesses *)

Definition guest : ConnectionId := mkConnectionId 4 1.

(** Player 7 in room 50, from zone 3. *)
Definition guest_server : Server :=
  mkServer (directory_run empty_directory [DAttach guest 7; DNoteLocation guest (Some (mkPlayerLocation 3 (mkZonePosition 1 2)))])
    (mkCoordinator 4 ∅ ∅ ∅ {[ guest := mkInRoom guest 7 50 3 (mkZonePosition 1 2) ]} ∅ ∅ 1 1 1 (fun _ => 0))
    (mkChannel 2 (makeRing 2) ∅ 1 (fun _ => 0) makeDistribution false)
    (mkRoomChannel (mkChannel 2 (makeRing 2) ∅ 1 (fun _ => 0) makeDistribution false) (makeRing 2) (fun _ => 0))
    (mkHandoffService 1 ∅ makeDistribution (fun _ => 0) false) (mkEntryService 1 ∅ ∅ makeDistribution (fun _ => 0) false).

Definition built_in : MessageDispatcher := match makeMessageDispatcher with Ret d => d | Throw _ => ∅ end.

Definition accept_all : Server → RoutedCommand → outcome PostResult := fun _ _ => Ret Accepted.

(** A skill frame one byte short. *)
Definition short_frame : Frame := mkFrame MessageType.UseSkill 9 (take 19 (skill_payload 50 2 1)).

Lemma payload_reads_in_bounds_witness :
  match gateway_tryPost accept_all 0 built_in guest short_frame guest_server with (Throw e, _, _) => e ≠ OutOfRange | _ => True end ∧
  (gateway_tryPost accept_all 0 built_in guest short_frame guest_server).1.1 = Ret InvalidPayload.
Proof.
  split; [|vm_compute; reflexivity].
  exact (payload_reads_in_bounds accept_all 0 built_in guest short_frame guest_server ltac:(discriminate)).
Defined.

Lemma frames_reach_actors_witness :
  posts_first (gateway_tryPost accept_all 0 built_in guest (mkFrame MessageType.UseSkill 9 (skill_payload 50 2 1))) guest_server guest
    (RoomCommandRoute 50 (UseSkill 7 2 1) (Some SkillAcknowledged) 9).
Proof.
  destruct (frames_reach_actors accept_all 0 built_in guest_server guest 9 7 (fun _ _ => ex_intro _ Accepted eq_refl) eq_refl
              ltac:(vm_compute; reflexivity)) as [H _].
  destruct (H (mkInRoom guest 7 50 3 (mkZonePosition 1 2)) ltac:(vm_compute; reflexivity) eq_refl ltac:(simpl; lia)) as (_ & Hskill & _).
  exact (Hskill 2 1 ltac:(lia) ltac:(lia)).
Defined.
