(* ===== verification/BoundedQueue.v ===== *)
(** * Bounded queue

    [BoundedQueue<T>] of [src/include/snf/runtime/bounded_queue.hpp].  Every
    method runs under the queue's mutex and is one atomic step; a method that
    waits on a condition variable is [None] while its predicate is false.  The
    second half states what a queue promises to its clients as a class, and
    that this one keeps the promise. *)

From S2P Require Import Prelude.

Section queue.
Context {T : Type}.

Record BoundedQueue := mkQueue {
  queue_capacity : Z;
  queue_items : list T;
  queue_high_water_mark : Z;
  queue_closed : bool;
  queue_cancelled : bool
}.

Definition makeBoundedQueue (capacity : Z) : outcome BoundedQueue :=
  throw_if (capacity =? 0) InvalidArgument (Ret (mkQueue capacity [] 0 false false)).

Definition updateHighWaterMark (q : BoundedQueue) : BoundedQueue :=
  if queue_high_water_mark q <? zlen (queue_items q)
  then mkQueue (queue_capacity q) (queue_items q) (zlen (queue_items q)) (queue_closed q) (queue_cancelled q)
  else q.

Definition with_queue_items (items : list T) (q : BoundedQueue) : BoundedQueue :=
  mkQueue (queue_capacity q) items (queue_high_water_mark q) (queue_closed q) (queue_cancelled q).

Definition emplace_back (item : T) (q : BoundedQueue) : BoundedQueue :=
  updateHighWaterMark (with_queue_items (queue_items q ++ [item]) q).

Definition tryPush (q : BoundedQueue) (item : T) : bool * BoundedQueue :=
  if queue_closed q || queue_cancelled q || (zlen (queue_items q) =? queue_capacity q) then (false, q)
  else (true, emplace_back item q).

(** The predicate both [push] overloads wait for. *)
Definition push_ready (q : BoundedQueue) : bool :=
  queue_cancelled q || queue_closed q || (zlen (queue_items q) <? queue_capacity q).

Definition push (q : BoundedQueue) (item : T) : option (bool * BoundedQueue) :=
  if push_ready q then
    Some (if queue_closed q || queue_cancelled q then (false, q) else (true, emplace_back item q))
  else None.

(** [stop] is [stop_token.stop_requested()]; the wait ends by it, too, and
    returns the predicate. *)
Definition push_until (q : BoundedQueue) (item : T) (stop : bool) : option (bool * BoundedQueue) :=
  if push_ready q || stop then
    let can_push := push_ready q in
    Some (if negb can_push || stop || queue_closed q || queue_cancelled q then (false, q)
          else (true, emplace_back item q))
  else None.

Definition pop_front (q : BoundedQueue) : option T * BoundedQueue :=
  if queue_cancelled q then (None, q)
  else match queue_items q with
       | [] => (None, q)
       | item :: rest => (Some item, with_queue_items rest q)
       end.

Definition pop (q : BoundedQueue) : option (option T * BoundedQueue) :=
  if queue_cancelled q || negb (bool_decide (length (queue_items q) = 0%nat)) || queue_closed q
  then Some (pop_front q) else None.

Definition tryPop (q : BoundedQueue) : option T * BoundedQueue := pop_front q.

Definition close (q : BoundedQueue) : BoundedQueue :=
  mkQueue (queue_capacity q) (queue_items q) (queue_high_water_mark q) true (queue_cancelled q).

Definition cancel (q : BoundedQueue) : Z * BoundedQueue :=
  (zlen (queue_items q), mkQueue (queue_capacity q) [] (queue_high_water_mark q) (queue_closed q) true).

(** ** Calls in any order *)

Inductive QueueOp :=
| QTryPush (item : T) | QPush (item : T) | QPushUntil (item : T) (stop : bool)
| QTryPop | QPop | QClose | QCancel.

(** The items a call took in and gave out, and the queue after it; a call that
    waits leaves the queue alone. *)
Definition queue_step (q : BoundedQueue) (op : QueueOp) : list T * list T * BoundedQueue :=
  let pushed item (r : bool * BoundedQueue) := (if r.1 then [item] else [], [], r.2) in
  let popped (r : option T * BoundedQueue) := ([], option_list r.1, r.2) in
  match op with
  | QTryPush item => pushed item (tryPush q item)
  | QPush item => pushed item (default (false, q) (push q item))
  | QPushUntil item stop => pushed item (default (false, q) (push_until q item stop))
  | QTryPop => popped (tryPop q)
  | QPop => popped (default (None, q) (pop q))
  | QClose => ([], [], close q)
  | QCancel => ([], [], (cancel q).2)
  end.

Fixpoint queue_run (q : BoundedQueue) (ops : list QueueOp) : list T * list T * BoundedQueue :=
  match ops with
  | [] => ([], [], q)
  | op :: rest =>
      let '(i, o, q1) := queue_step q op in
      let '(ins, outs, q2) := queue_run q1 rest in (i ++ ins, o ++ outs, q2)
  end.

Record queue_ok (q : BoundedQueue) : Prop := {
  qk_bound : zlen (queue_items q) <= queue_high_water_mark q <= queue_capacity q;
  qk_cancelled : queue_cancelled q = true → queue_items q = []
}.

Lemma emplace_back_items item q : queue_items (emplace_back item q) = queue_items q ++ [item].
Proof. unfold emplace_back, updateHighWaterMark. by split_if. Qed.

Lemma emplace_back_ok item q :
  queue_ok q → queue_cancelled q = false → zlen (queue_items q) < queue_capacity q → queue_ok (emplace_back item q).
Proof.
  intros [Hb _] Hc Hl. unfold emplace_back, updateHighWaterMark.
  assert (Hz : zlen (queue_items q ++ [item]) = zlen (queue_items q) + 1) by (unfold zlen; rewrite length_app; simpl; lia).
  split_if; to_prop; (constructor; [cbn [queue_items queue_high_water_mark queue_capacity with_queue_items] in *; lia|]);
    simpl; congruence.
Qed.

(** One call: what was inside and what came in is what went out and what is
    inside, in this order; a cancelled queue stays cancelled and moves nothing. *)
Record conserves (q : BoundedQueue) (i o : list T) (q' : BoundedQueue) : Prop := {
  cv_ok : queue_ok q';
  cv_capacity : queue_capacity q' = queue_capacity q;
  cv_items : queue_cancelled q' = false → queue_cancelled q = false ∧ queue_items q ++ i = o ++ queue_items q';
  cv_still : queue_cancelled q = true → i = [] ∧ o = [];
  cv_prefix : o `prefix_of` queue_items q ++ i
}.

Lemma conserves_refl q : queue_ok q → conserves q [] [] q.
Proof. intros Hok. constructor; try done; [by rewrite app_nil_r|apply prefix_nil]. Qed.

Lemma conserves_push item q :
  queue_ok q → queue_cancelled q = false → zlen (queue_items q) < queue_capacity q →
  conserves q [item] [] (emplace_back item q).
Proof.
  intros Hok Hc Hl.
  assert (Hsame : queue_capacity (emplace_back item q) = queue_capacity q ∧
                  queue_cancelled (emplace_back item q) = queue_cancelled q).
  { unfold emplace_back, updateHighWaterMark. by split_if. }
  destruct Hsame as [Hcap Hcan]. constructor; rewrite ?Hcan; try congruence; [by apply emplace_back_ok| |apply prefix_nil].
  intros _. by rewrite emplace_back_items.
Qed.

Lemma conserves_pop q : queue_ok q → conserves q [] (option_list (pop_front q).1) (pop_front q).2.
Proof.
  intros Hok. pose proof Hok as [Hb _]. unfold pop_front. destruct (queue_cancelled q) eqn:Ec; [by apply conserves_refl|].
  destruct (queue_items q) as [|x rest] eqn:Ei; [by apply conserves_refl|]. simpl.
  constructor; simpl; try congruence.
  - constructor; simpl; [|congruence]. unfold zlen in *. simpl in Hb. lia.
  - intros _. by rewrite Ei, app_nil_r.
  - rewrite Ei. by exists (rest ++ []).
Qed.

Lemma push_ready_free q :
  push_ready q = true → queue_closed q = false → queue_cancelled q = false →
  zlen (queue_items q) < queue_capacity q.
Proof. unfold push_ready. intros Hr Hc Hx. rewrite Hc, Hx in Hr. simpl in Hr. by to_prop. Qed.

Lemma queue_step_ok q op i o q' : queue_ok q → queue_step q op = (i, o, q') → conserves q i o q'.
Proof.
  intros Hok. pose proof (conserves_refl q Hok) as Hrefl. pose proof (conserves_pop q Hok) as Hpop.
  pose proof Hok as [Hb _].
  destruct op as [item|item|item stop| | | |]; unfold queue_step.
  - unfold tryPush. destruct (_ || _) eqn:E; simpl; intros [= <- <- <-]; [done|].
    to_prop. apply conserves_push; [done|done|lia].
  - unfold push. destruct (push_ready q) eqn:Er; simpl; [|by intros [= <- <- <-]].
    destruct (_ || _) eqn:E; simpl; intros [= <- <- <-]; [done|].
    to_prop. apply conserves_push; [done|done|]. by apply push_ready_free.
  - unfold push_until. destruct (push_ready q) eqn:Er, stop; simpl; try by intros [= <- <- <-].
    destruct (_ || _) eqn:E; simpl; intros [= <- <- <-]; [done|].
    to_prop. apply conserves_push; [done|done|]. by apply push_ready_free.
  - intros [= <- <- <-]. done.
  - unfold pop. destruct (_ || _); simpl; intros [= <- <- <-]; done.
  - intros [= <- <- <-]. destruct Hrefl as [[? ?] ? ? ? ?]. constructor; try done.
  - intros [= <- <- <-]. constructor; simpl; try done; [|apply prefix_nil]. constructor; simpl; [unfold zlen in *; simpl; lia|done].
Qed.

Lemma queue_run_ok ops q i o q' : queue_ok q → queue_run q ops = (i, o, q') → conserves q i o q'.
Proof.
  revert q i o. induction ops as [|op ops IH]; intros q i o Hok; simpl.
  { intros [= <- <- <-]. by apply conserves_refl. }
  destruct (queue_step q op) as [[i1 o1] q1] eqn:Es. destruct (queue_run q1 ops) as [[i2 o2] q2] eqn:Er.
  intros [= <- <- <-]. destruct (queue_step_ok _ _ _ _ _ Hok Es) as [Ok1 Cap1 It1 St1 [r1 Pr1]].
  destruct (IH _ _ _ Ok1 Er) as [Ok2 Cap2 It2 St2 [r2 Pr2]]. constructor; [done|congruence| | |].
  - intros Hc. destruct (It2 Hc) as [Hc1 E2]. destruct (It1 Hc1) as [Hc0 E1]. split; [done|].
    by rewrite app_assoc, E1, <-!app_assoc, E2.
  - intros Hc. destruct (St1 Hc) as [-> ->]. simpl. apply St2.
    destruct (queue_cancelled q1) eqn:E; [done|]. destruct (It1 eq_refl). congruence.
  - destruct (queue_cancelled q1) eqn:E.
    + destruct (St2 eq_refl) as [-> ->]. exists r1. by rewrite !app_nil_r.
    + destruct (It1 eq_refl) as [_ E1]. exists r2. by rewrite app_assoc, E1, <-!app_assoc, Pr2.
Qed.
End queue.

Arguments BoundedQueue : clear implicits.
Arguments QueueOp : clear implicits.

(** ** What a queue promises

    The interface the persistence service relies on.  [queue_contents] is what
    pops will still return; the laws leave open when a push is refused. *)

Class Queue (Q T : Type) := {
  queue_contents : Q → list T;
  queue_try_push : Q → T → bool * Q;
  queue_try_pop : Q → option T * Q;
  queue_close : Q → Q
}.

Class QueueLaws (Q T : Type) `{Queue Q T} := {
  queue_push_accepted q x q' : queue_try_push q x = (true, q') → queue_contents q' = queue_contents q ++ [x];
  queue_push_refused q x q' : queue_try_push q x = (false, q') → queue_contents q' = queue_contents q;
  queue_pop_item q x q' : queue_try_pop q = (Some x, q') → queue_contents q = x :: queue_contents q';
  queue_pop_none q q' : queue_try_pop q = (None, q') → queue_contents q = [] ∧ queue_contents q' = [];
  queue_close_keeps q : queue_contents (queue_close q) = queue_contents q
}.

#[export] Instance BoundedQueue_queue (T : Type) : Queue (BoundedQueue T) T := {|
  queue_contents q := if queue_cancelled q then [] else queue_items q;
  queue_try_push := tryPush;
  queue_try_pop := tryPop;
  queue_close := close
|}.

#[export] Instance BoundedQueue_laws (T : Type) : QueueLaws (BoundedQueue T) T.
Proof.
  split; cbn [queue_contents queue_try_push queue_try_pop queue_close BoundedQueue_queue].
  - intros q x q'. unfold tryPush. destruct (_ || _) eqn:E; [done|]. intros [= <-]. to_prop.
    rewrite emplace_back_items. unfold emplace_back, updateHighWaterMark. split_if; simpl; by destruct (queue_cancelled q).
  - intros q x q'. unfold tryPush. destruct (_ || _); [|done]. by intros [= <-].
  - intros q x q'. unfold tryPop, pop_front. destruct (queue_cancelled q) eqn:Ec; [done|].
    destruct (queue_items q); [done|]. intros [= <- <-]. simpl. by rewrite Ec.
  - intros q q'. unfold tryPop, pop_front. destruct (queue_cancelled q) eqn:Ec; [intros [= <-]; by rewrite Ec|].
    destruct (queue_items q) eqn:Ei; [|done]. intros [= <-]. by rewrite Ec, Ei.
  - done.
Qed.

(** ** Properties *)

(** A bounded queue is a FIFO within its capacity: after any mix of pushes,
    pops, close and cancel the items handed out are, in order, the first of the
    items taken in, the rest is what the queue holds unless it was
    cancelled, the length never exceeds the high-water mark nor that the
    capacity, and a cancelled queue neither takes nor gives anything. *)
Theorem bounded_queue_fifo {T} (capacity : Z) (q0 : BoundedQueue T) (ops more : list (QueueOp T)) :
  0 <= capacity → makeBoundedQueue capacity = Ret q0 →
  let '(pushed, popped, q) := queue_run q0 ops in
  popped `prefix_of` pushed ∧
  (queue_cancelled q = false → pushed = popped ++ queue_items q) ∧
  zlen (queue_items q) <= queue_high_water_mark q <= capacity ∧
  (queue_cancelled q = true → (queue_run q more).1 = ([], [])).
Proof.
  intros Hc Hm. unfold makeBoundedQueue in Hm. apply throw_if_ret in Hm as [_ Hm]. injection Hm as <-.
  assert (Hok : @queue_ok T (mkQueue capacity [] 0 false false)) by (constructor; [unfold zlen; simpl; lia|done]).
  destruct (queue_run _ ops) as [[i o] q] eqn:E. destruct (queue_run_ok _ _ _ _ _ Hok E) as [Hq Hcap Hit _ Hpre].
  simpl in Hcap, Hit, Hpre. split_and!; [done| | | |].
  - intros Hx. by apply Hit.
  - apply Hq.
  - rewrite <-Hcap. apply Hq.
  - intros Hx. destruct (queue_run q more) as [[i' o'] q'] eqn:E'.
    destruct (queue_run_ok _ _ _ _ _ Hq E') as [_ _ _ Hst _]. by destruct (Hst Hx) as [-> ->].
Qed.

Lemma bounded_queue_fifo_witness :
  ∃ q0, makeBoundedQueue 2 = Ret q0 ∧
    (queue_run q0 [QTryPush 1; QTryPush 2; QTryPush 3; QTryPop]).1 = ([1; 2], [1]) ∧
    [1] `prefix_of` [1; 2].
Proof.
  eexists. split; [reflexivity|]. split; [reflexivity|].
  exact (proj1 (bounded_queue_fifo 2 _ [QTryPush 1; QTryPush 2; QTryPush 3; QTryPop] []
                  ltac:(lia) eq_refl)).
Defined.
