(* ===== verification/Persistence.v ===== *)
(** * Player persistence service

    [PlayerPersistenceService] of
    [src/src/server/player_persistence_service.cpp]: accepted snapshots wait in
    a bounded queue, the service thread merges them per player and starts at
    most one save per player, and final saves carry a completion.  A critical
    section of the service's mutex is one step; the thread is a program counter
    ([Worker]) whose steps interleave with the callers and with the repository,
    which answers a save later, at once, or throws.  The snapshot queue is any
    implementation of [Queue]; a failed allocation is not represented, and the
    interval and the condition variables only decide when a step happens. *)

From S2P Require Import Prelude Skills Zone Player BoundedQueue.

Inductive PlayerRepositoryStatus := Success | Unavailable.

Definition saved (result : PlayerRepositoryStatus) : bool :=
  match result with Success => true | Unavailable => false end.

(** A completion callback is a number; [std::function]'s empty state is [None]. *)
Abbreviation Completion := Z (only parsing).

Record FinalRequest := mkFinalRequest { fr_record : PlayerRecord; fr_completion : Completion }.

Record InFlight := mkInFlight { if_record : PlayerRecord; if_final : bool; if_completion : option Completion }.

Record StartSave := mkStartSave { ss_player : PlayerId; ss_record : PlayerRecord; ss_final : bool }.

Record Counters := mkCounters {
  snapshots_accepted : Z;
  snapshots_rejected : Z;
  saves_started : Z;
  saves_succeeded : Z;
  saves_failed : Z;
  background_retries : Z;
  final_saves : Z;
  final_failures : Z
}.

Definition inc (b : bool) (n : Z) : Z := if b then u64 (n + 1) else n.

Section service.
Context {Q : Type} `{!Queue Q PlayerRecord}.

Record PlayerPersistenceService := mkService {
  snapshots : Q;
  pending : gmap Z PlayerRecord;
  final_requests : gmap Z (list FinalRequest);
  in_flight : gmap Z InFlight;
  stopping : bool;
  stopped : bool;
  flush_requested : bool;
  counters : Counters
}.

Definition set_snapshots (q : Q) (s : PlayerPersistenceService) : PlayerPersistenceService :=
  mkService q (pending s) (final_requests s) (in_flight s) (stopping s) (stopped s) (flush_requested s) (counters s).
Definition set_pending (m : gmap Z PlayerRecord) (s : PlayerPersistenceService) : PlayerPersistenceService :=
  mkService (snapshots s) m (final_requests s) (in_flight s) (stopping s) (stopped s) (flush_requested s) (counters s).
Definition set_final_requests (m : gmap Z (list FinalRequest)) (s : PlayerPersistenceService)
    : PlayerPersistenceService :=
  mkService (snapshots s) (pending s) m (in_flight s) (stopping s) (stopped s) (flush_requested s) (counters s).
Definition set_in_flight (m : gmap Z InFlight) (s : PlayerPersistenceService) : PlayerPersistenceService :=
  mkService (snapshots s) (pending s) (final_requests s) m (stopping s) (stopped s) (flush_requested s) (counters s).
Definition set_flags (stop stopd flush : bool) (s : PlayerPersistenceService) : PlayerPersistenceService :=
  mkService (snapshots s) (pending s) (final_requests s) (in_flight s) stop stopd flush (counters s).
Definition set_counters (c : Counters) (s : PlayerPersistenceService) : PlayerPersistenceService :=
  mkService (snapshots s) (pending s) (final_requests s) (in_flight s) (stopping s) (stopped s) (flush_requested s) c.

(** ** The callers' side *)

Definition tryEnqueue (s : PlayerPersistenceService) (record : PlayerRecord) : bool * PlayerPersistenceService :=
  let '(ok, q) := queue_try_push (snapshots s) record in
  let c := counters s in
  (ok, set_counters (mkCounters (inc ok (snapshots_accepted c)) (inc (negb ok) (snapshots_rejected c)) (saves_started c)
                       (saves_succeeded c) (saves_failed c) (background_retries c) (final_saves c) (final_failures c))
         (set_snapshots q s)).

(** The completions called, with their result, and the service. *)
Definition asyncSave (s : PlayerPersistenceService) (record : PlayerRecord) (completion : option Completion)
    : outcome (list (Completion * PlayerRepositoryStatus) * PlayerPersistenceService) :=
  match completion with
  | None => Throw InvalidArgument
  | Some c =>
      if stopping s || stopped s then Ret ([(c, Unavailable)], s)
      else
        let requests := default [] (final_requests s !! rec_player record) in
        Ret ([], set_final_requests
                   (<[rec_player record := requests ++ [mkFinalRequest record c]]> (final_requests s)) s)
  end.

(** The part of [flush] before it waits, and of [stop] before it closes the queue. *)
Definition flush (s : PlayerPersistenceService) : PlayerPersistenceService :=
  if stopped s then s else set_flags (stopping s) (stopped s) true s.

Definition stop (s : PlayerPersistenceService) : PlayerPersistenceService :=
  if stopping s || stopped s then s else set_flags true (stopped s) (flush_requested s) s.

Definition isFlushCompleteLocked (s : PlayerPersistenceService) : bool :=
  bool_decide (length (queue_contents (snapshots s)) = 0%nat) && bool_decide (final_requests s = ∅)
  && bool_decide (in_flight s = ∅).

(** The check that ends a flush, in [run] and at the end of [processOnce]. *)
Definition endFlush (s : PlayerPersistenceService) : PlayerPersistenceService :=
  if flush_requested s && isFlushCompleteLocked s then set_flags (stopping s) (stopped s) false s else s.

(** ** The service thread's operations *)

(** One entry of the first loop of [selectSaves].  Entries are independent of
    each other, so any enumeration of the hash map gives the same service. *)
Definition select_final (acc : list StartSave * PlayerPersistenceService) (entry : PlayerId * list FinalRequest)
    : list StartSave * PlayerPersistenceService :=
  let '(saves, s) := acc in
  let '(player, requests) := entry in
  match requests with
  | [] => (saves, set_final_requests (delete player (final_requests s)) s)
  | request :: rest =>
      if has_value (in_flight s !! player) then acc
      else
        let finals := if bool_decide (length rest = 0%nat) then delete player (final_requests s)
                      else <[player := rest]> (final_requests s) in
        let flight := mkInFlight (fr_record request) true (Some (fr_completion request)) in
        (saves ++ [mkStartSave player (fr_record request) true],
         set_in_flight (<[player := flight]> (in_flight s))
           (set_pending (delete player (pending s)) (set_final_requests finals s)))
  end.

(** One entry of the second loop. *)
Definition select_pending (acc : list StartSave * PlayerPersistenceService) (entry : PlayerId * PlayerRecord)
    : list StartSave * PlayerPersistenceService :=
  let '(saves, s) := acc in
  let '(player, record) := entry in
  if has_value (in_flight s !! player) || has_value (final_requests s !! player) then acc
  else
    (saves ++ [mkStartSave player record false],
     set_in_flight (<[player := mkInFlight record false None]> (in_flight s))
       (set_pending (delete player (pending s)) s)).

Definition selectSaves (s : PlayerPersistenceService) : list StartSave * PlayerPersistenceService :=
  let finals := foldl select_final ([], s) (map_to_list (final_requests s)) in
  foldl select_pending finals (map_to_list (pending finals.2)).

Definition completeSave (s : PlayerPersistenceService) (player : PlayerId) (result : PlayerRepositoryStatus)
    : list (Completion * PlayerRepositoryStatus) * PlayerPersistenceService :=
  match in_flight s !! player with
  | None => ([], s)
  | Some flight =>
      let s1 := set_in_flight (delete player (in_flight s)) s in
      let retry := negb (saved result) && negb (if_final flight) && negb (has_value (final_requests s1 !! player)) in
      let s2 := if retry then set_pending (<[player := if_record flight]> (pending s1)) s1 else s1 in
      let c := counters s2 in
      ((fun completion => (completion, result)) <$> option_list (if_completion flight),
       set_counters (mkCounters (snapshots_accepted c) (snapshots_rejected c) (saves_started c)
                       (inc (saved result) (saves_succeeded c)) (inc (negb (saved result)) (saves_failed c))
                       (inc retry (background_retries c)) (final_saves c)
                       (inc (negb (saved result) && if_final flight) (final_failures c))) s2)
  end.

(** The counting half of [startSave]. *)
Definition countStart (s : PlayerPersistenceService) (save : StartSave) : PlayerPersistenceService :=
  let c := counters s in
  set_counters (mkCounters (snapshots_accepted c) (snapshots_rejected c) (inc true (saves_started c)) (saves_succeeded c)
                  (saves_failed c) (background_retries c) (inc (ss_final save) (final_saves c)) (final_failures c)) s.

(** ** The thread

    [run] and [processOnce]: where the thread is, [draining = true] once it has
    left its first loop to stop. *)
Inductive Worker :=
| LoopHead
| WaitingForWork
| Draining (stop_phase : bool)
| Merging (stop_phase : bool) (record : PlayerRecord)
| Starting (stop_phase : bool) (saves : list StartSave)
| LoopEnd
| StopCheck
| AwaitIdle
| Exiting
| Exited.

(** What the repository does with a call of [asyncSave]. *)
Inductive RepositoryReply := Deferred | Replied (result : PlayerRepositoryStatus) | Thrown.

(** The service, its thread, the repository's calls in progress and, as
    history, the records it reported as saved, the records offered and accepted,
    the final saves asked for and the completions called. *)
Record World := mkWorld {
  service : PlayerPersistenceService;
  worker : Worker;
  calls : list PlayerRecord;
  saved_log : list PlayerRecord;
  enqueued : list PlayerRecord;
  asked : list (Completion * PlayerRecord);
  notified : list (Completion * PlayerRecord * PlayerRepositoryStatus)
}.

Definition with_service (s : PlayerPersistenceService) (p : Worker) (w : World) : World :=
  mkWorld s p (calls w) (saved_log w) (enqueued w) (asked w) (notified w).

(** A repository answer: the record's save is over. *)
Definition answer (record : PlayerRecord) (result : PlayerRepositoryStatus) (w : World) : World :=
  let '(called, s) := completeSave (service w) (rec_player record) result in
  mkWorld s (worker w) (calls w) (if saved result then saved_log w ++ [record] else saved_log w) (enqueued w) (asked w)
    (notified w ++ ((fun c => (c.1, record, c.2)) <$> called)).

Definition startSave (save : StartSave) (reply : RepositoryReply) (w : World) : World :=
  let w1 := with_service (countStart (service w) save) (worker w) w in
  match reply with
  | Deferred => mkWorld (service w1) (worker w1) (calls w1 ++ [ss_record save]) (saved_log w1) (enqueued w1) (asked w1)
                  (notified w1)
  | Replied result => answer (ss_record save) result w1
  | Thrown => answer (ss_record save) Unavailable w1
  end.

Definition worker_step (reply : RepositoryReply) (w : World) : option World :=
  let s := service w in
  let head (s' : PlayerPersistenceService) := if stopping s' then Draining true else WaitingForWork in
  match worker w with
  | LoopHead => Some (with_service s (head s) w)
  | WaitingForWork => Some (with_service s (Draining false) w)
  | Draining phase =>
      match queue_try_pop (snapshots s) with
      | (Some record, q) => Some (with_service (set_snapshots q s) (Merging phase record) w)
      | (None, q) =>
          let '(saves, s1) := selectSaves (set_snapshots q s) in Some (with_service s1 (Starting phase saves) w)
      end
  | Merging phase record =>
      Some (with_service (set_pending (<[rec_player record := record]> (pending s)) s) (Draining phase) w)
  | Starting phase (save :: rest) =>
      Some (startSave save reply (with_service s (Starting phase rest) w))
  | Starting phase [] => Some (with_service (endFlush s) (if phase then StopCheck else LoopEnd) w)
  | LoopEnd => let s1 := endFlush s in Some (with_service s1 (head s1) w)
  | StopCheck =>
      if bool_decide (final_requests s = ∅) && bool_decide (in_flight s = ∅)
      then Some (with_service (set_pending ∅ s) Exiting w)
      else if bool_decide (in_flight s = ∅) then Some (with_service s (Draining true) w)
      else Some (with_service s AwaitIdle w)
  | AwaitIdle => if bool_decide (in_flight s = ∅) then Some (with_service s (Draining true) w) else None
  | Exiting => Some (with_service (set_flags (stopping s) true false s) Exited w)
  | Exited => None
  end.

(** ** Interleavings *)

Inductive Event :=
| Enqueue (record : PlayerRecord)
| SaveFinal (record : PlayerRecord) (completion : Completion)
| Flush
| Stop
| CloseQueue
| Work (reply : RepositoryReply)
| Answer (call : nat) (result : PlayerRepositoryStatus).

Definition world_step (w : World) (e : Event) : option World :=
  match e with
  | Enqueue record =>
      let '(ok, s) := tryEnqueue (service w) record in
      Some (mkWorld s (worker w) (calls w) (saved_log w) (if ok then enqueued w ++ [record] else enqueued w) (asked w)
              (notified w))
  | SaveFinal record completion =>
      match asyncSave (service w) record (Some completion) with
      | Throw _ => None
      | Ret (called, s) =>
          Some (mkWorld s (worker w) (calls w) (saved_log w) (enqueued w) (asked w ++ [(completion, record)])
                  (notified w ++ ((fun c => (c.1, record, c.2)) <$> called)))
      end
  | Flush => Some (with_service (flush (service w)) (worker w) w)
  | Stop => Some (with_service (stop (service w)) (worker w) w)
  | CloseQueue => if stopping (service w)
                  then Some (with_service (set_snapshots (queue_close (snapshots (service w))) (service w)) (worker w) w)
                  else None
  | Work reply => worker_step reply w
  | Answer call result =>
      record ← calls w !! call;
      Some (answer record result
              (mkWorld (service w) (worker w) (delete call (calls w)) (saved_log w) (enqueued w) (asked w) (notified w)))
  end.

Definition world_run (w : World) (es : list Event) : option World :=
  foldl (fun w e => w ≫= fun w => world_step w e) (Some w) es.

(** The default member initialisers, with the thread about to enter [run]. *)
Definition initial_service (q : Q) : PlayerPersistenceService :=
  mkService q ∅ ∅ ∅ false false false (mkCounters 0 0 0 0 0 0 0 0).

Definition initial_world (q : Q) : World := mkWorld (initial_service q) LoopHead [] [] [] [] [].
End service.

Arguments PlayerPersistenceService : clear implicits.
Arguments World : clear implicits.

(** The constructor: the queue member first, then the check of its body. *)
Definition makePlayerPersistenceService (queue_capacity flush_interval : Z)
    : outcome (PlayerPersistenceService (BoundedQueue PlayerRecord)) :=
  let! q := makeBoundedQueue queue_capacity in
  throw_if (flush_interval <=? 0) InvalidArgument (Ret (initial_service q)).
