(* ===== verification/PersistenceSpec.v ===== *)
(** * Player persistence service: invariant and theorems

    The service of [Persistence] over any snapshot queue that keeps the laws of
    [Queue]; the witnesses run it over [BoundedQueue]. *)

From S2P Require Import Prelude Skills Zone Player BoundedQueue Persistence.

(** ** Collecting over a map *)

Definition gather {A B} (g : A → list B) (m : gmap Z A) : list B := map_to_list m ≫= fun x => g x.2.

Section gather.
Context {A B : Type} (g : A → list B).
Implicit Types (m : gmap Z A) (p : Z) (a : A).

Lemma gather_empty : gather g ∅ = [].
Proof. unfold gather. by rewrite map_to_list_empty. Qed.

Lemma gather_insert m p a : m !! p = None → gather g (<[p := a]> m) ≡ₚ g a ++ gather g m.
Proof. intros Hp. unfold gather. by rewrite (map_to_list_insert m p a Hp). Qed.

Lemma gather_delete m p a : m !! p = Some a → gather g m ≡ₚ g a ++ gather g (delete p m).
Proof. intros Hp. unfold gather. by rewrite <-(map_to_list_delete m p a Hp). Qed.

Lemma gather_replace m p a : gather g (<[p := a]> m) ≡ₚ g a ++ gather g (delete p m).
Proof. rewrite <-insert_delete_eq. apply gather_insert. apply lookup_delete_eq. Qed.
End gather.

(** A fold over the entries of a map that only touches the entry it visits. *)
Lemma foldl_entries {A B} (f : B → Z * A → B) (m : B → gmap Z A) (P : B → Prop) entries b :
  NoDup entries.*1 → (∀ p a, (p, a) ∈ entries → m b !! p = Some a) → P b →
  (∀ b p a, P b → m b !! p = Some a → P (f b (p, a)) ∧ ∀ q, q ≠ p → m (f b (p, a)) !! q = m b !! q) →
  P (foldl f b entries).
Proof.
  intros Hnd Hin Hb Hstep. revert b Hin Hb. induction entries as [|[p a] es IH]; intros b Hin Hb; [done|].
  apply NoDup_cons in Hnd as [Hn Hnd]. destruct (Hstep b p a Hb) as [Hb' Hsame]; [apply Hin; by left|].
  simpl. apply IH; [done| |done]. intros q c Hq. rewrite Hsame; [apply Hin; by right|].
  intros ->. apply Hn. apply list_elem_of_fmap. by exists (p, c).
Qed.

Lemma foldl_map {A B} (f : B → Z * A → B) (m : B → gmap Z A) (P : B → Prop) b :
  P b → (∀ b p a, P b → m b !! p = Some a → P (f b (p, a)) ∧ ∀ q, q ≠ p → m (f b (p, a)) !! q = m b !! q) →
  P (foldl f b (map_to_list (m b))).
Proof.
  intros Hb Hstep. apply (foldl_entries f m P); try done.
  - apply NoDup_fst_map_to_list.
  - intros p a. by rewrite elem_of_map_to_list.
Qed.

Section spec.
Context {Q : Type} `{!Queue Q PlayerRecord} `{!QueueLaws Q PlayerRecord}.
Implicit Types (s : PlayerPersistenceService Q) (w : World Q).

(** ** The invariant *)

Definition request_of (f : FinalRequest) : Completion * PlayerRecord := (fr_completion f, fr_record f).

(** The saves in progress or about to be, and the completions still owed. *)
Definition flights s : list PlayerRecord := gather (fun f => [if_record f]) (in_flight s).
Definition owed s : list (Completion * PlayerRecord) :=
  gather (fmap request_of) (final_requests s)
  ++ gather (fun f => (fun c => (c, if_record f)) <$> option_list (if_completion f)) (in_flight s).

Record service_ok s : Prop := {
  sk_pending : map_Forall (fun p r => rec_player r = p) (pending s);
  sk_finals : map_Forall (fun p l => Forall (fun f => rec_player (fr_record f) = p) l) (final_requests s);
  sk_flight : map_Forall (fun p f => rec_player (if_record f) = p) (in_flight s)
}.

Definition to_start w : list StartSave := match worker w with Starting _ saves => saves | _ => [] end.
Definition obligations w : list PlayerRecord := calls w ++ (ss_record <$> to_start w).

Definition finishing (p : Worker) : bool := match p with Exiting | Exited => true | _ => false end.
Definition stop_phase (p : Worker) : bool :=
  match p with
  | Draining b | Merging b _ | Starting b _ => b
  | StopCheck | AwaitIdle | Exiting | Exited => true
  | _ => false
  end.

Record world_ok w : Prop := {
  wk_service : service_ok (service w);
  wk_calls : obligations w ≡ₚ flights (service w);
  wk_owed : asked w ≡ₚ (notified w).*1 ++ owed (service w);
  wk_saved : Forall (fun n => n.2 = Success → n.1.2 ∈ saved_log w) (notified w);
  wk_stopping : stop_phase (worker w) = true → stopping (service w) = true;
  wk_finishing : finishing (worker w) = true → final_requests (service w) = ∅ ∧ in_flight (service w) = ∅
}.

(** ** The operations of the service *)

(** Selecting moves work into flight and loses none. *)
Definition selected s0 (acc : list StartSave * PlayerPersistenceService Q) : Prop :=
  service_ok acc.2 ∧ flights acc.2 ≡ₚ flights s0 ++ (ss_record <$> acc.1) ∧ owed acc.2 ≡ₚ owed s0 ∧
  snapshots acc.2 = snapshots s0 ∧ stopping acc.2 = stopping s0.

Lemma select_final_selected s0 acc p l :
  selected s0 acc → final_requests acc.2 !! p = Some l →
  selected s0 (select_final acc (p, l)) ∧
  ∀ q, q ≠ p → final_requests (select_final acc (p, l)).2 !! q = final_requests acc.2 !! q.
Proof.
  destruct acc as [saves s]. intros ([Hp Hf Hi] & Hfl & How & Hsn & Hst) Hl. simpl in *. unfold owed, flights in *.
  destruct l as [|request rest].
  { split; [|intros q Hq; simpl; by rewrite lookup_delete_ne]. split_and!; simpl; try done.
    - constructor; simpl; [done|by apply map_Forall_delete|done].
    - rewrite <-How. simpl. rewrite (gather_delete _ _ _ _ Hl). done. }
  destruct (in_flight s !! p) as [f|] eqn:Ei; [by split|].
  pose proof (Hf _ _ Hl) as Hl'. apply Forall_cons in Hl' as [Hr Hrest]. simpl.
  split; [|intros q Hq; simpl; case_bool_decide; rewrite ?lookup_delete_ne, ?lookup_insert_ne by done; done].
  split_and!; simpl; try done.
  - constructor; simpl.
    + by apply map_Forall_delete.
    + case_bool_decide; [by apply map_Forall_delete|by apply map_Forall_insert_2].
    + by apply map_Forall_insert_2.
  - unfold flights. simpl. rewrite gather_insert by done. rewrite Hfl, fmap_app. simpl. solve_Permutation.
  - unfold owed. simpl. rewrite <-How. rewrite (gather_delete _ _ _ _ Hl). rewrite (gather_insert _ (in_flight s)) by done.
    simpl. case_bool_decide as Hn.
    + apply nil_length_inv in Hn as ->. simpl. solve_Permutation.
    + rewrite gather_replace. solve_Permutation.
Qed.

Lemma select_pending_selected s0 acc p r :
  selected s0 acc → pending acc.2 !! p = Some r →
  selected s0 (select_pending acc (p, r)) ∧ ∀ q, q ≠ p → pending (select_pending acc (p, r)).2 !! q = pending acc.2 !! q.
Proof.
  destruct acc as [saves s]. intros ([Hp Hf Hi] & Hfl & How & Hsn & Hst) Hr. simpl in *.
  destruct (in_flight s !! p) as [f|] eqn:Ei; [by split|]. simpl.
  destruct (final_requests s !! p); [by split|]. simpl.
  split; [|intros q Hq; by rewrite lookup_delete_ne]. split_and!; simpl; try done.
  - constructor; simpl; [by apply map_Forall_delete|done|]. apply map_Forall_insert_2; [|done]. by apply (Hp _ _ Hr).
  - unfold flights in *. simpl. rewrite gather_insert by done. rewrite Hfl, fmap_app. simpl. solve_Permutation.
  - unfold owed in *. simpl. rewrite (gather_insert _ (in_flight s)) by done. done.
Qed.

Lemma selectSaves_selected s : service_ok s → selected s (selectSaves s).
Proof.
  intros Hs. unfold selectSaves.
  apply (foldl_map select_pending (fun acc => pending acc.2)); [|apply select_pending_selected].
  apply (foldl_map select_final (fun acc => final_requests acc.2) (selected s) ([], s)); [|apply select_final_selected].
  split_and!; try done. simpl. by rewrite app_nil_r.
Qed.

(** A completed save leaves flight; its completion, if any, is paid. *)
Lemma completeSave_ok s p f result called s' :
  service_ok s → in_flight s !! p = Some f → completeSave s p result = (called, s') →
  service_ok s' ∧ flights s ≡ₚ if_record f :: flights s' ∧
  owed s ≡ₚ ((fun c => (c.1, if_record f)) <$> called) ++ owed s' ∧ Forall (fun c => c.2 = result) called ∧
  snapshots s' = snapshots s ∧ stopping s' = stopping s ∧ final_requests s' = final_requests s ∧
  in_flight s' = delete p (in_flight s).
Proof.
  intros [Hp Hf Hi] Ef. unfold completeSave. rewrite Ef. intros [= <- <-]. unfold flights, owed.
  set (retry := _ && _ && _) in *. split_and!.
  - constructor; destruct retry; simpl; try done; try by apply map_Forall_delete.
    apply map_Forall_insert_2; [|done]. by apply (Hi _ _ Ef).
  - destruct retry; simpl; by rewrite (gather_delete _ _ _ _ Ef).
  - assert (Hc : (fun c : Completion * PlayerRepositoryStatus => (c.1, if_record f))
                 <$> ((fun completion => (completion, result)) <$> option_list (if_completion f))
                 = (fun c => (c, if_record f)) <$> option_list (if_completion f)) by by destruct (if_completion f).
    rewrite Hc. destruct retry; simpl; rewrite (gather_delete _ (in_flight s) _ _ Ef); solve_Permutation.
  - by destruct (if_completion f); repeat constructor.
  - by destruct retry.
  - by destruct retry.
  - by destruct retry.
  - by destruct retry.
Qed.

(** The players of the saves in progress or about to be are pairwise distinct. *)
Lemma flights_players s : service_ok s → NoDup (rec_player <$> flights s).
Proof.
  intros [_ _ Hi].
  assert (Hk : rec_player <$> flights s = (map_to_list (in_flight s)).*1).
  { unfold flights, gather.
    assert (Hall : Forall (fun x => rec_player (if_record x.2) = x.1) (map_to_list (in_flight s))).
    { apply Forall_forall. intros [p f] Hx. apply elem_of_map_to_list in Hx. by apply (Hi _ _ Hx). }
    induction Hall as [|[p f] l Hx _ IH]; [done|].
    rewrite bind_cons, fmap_app, IH. simpl in *. by rewrite Hx. }
  rewrite Hk. apply NoDup_fst_map_to_list.
Qed.

Lemma flights_in_flight s r :
  service_ok s → r ∈ flights s → ∃ f, in_flight s !! rec_player r = Some f ∧ if_record f = r.
Proof.
  intros [_ _ Hi] Hr. unfold flights, gather in Hr. apply list_elem_of_bind in Hr as ([p f] & Hr & Hx).
  apply list_elem_of_singleton in Hr as ->. apply elem_of_map_to_list in Hx. exists f.
  simpl. by rewrite (Hi _ _ Hx).
Qed.

(** ** The steps of the world *)

(** The worker moves and nothing is owed more or less. *)
Lemma world_ok_moved w s p :
  world_ok w → service_ok s → calls w ++ (ss_record <$> to_start (with_service s p w)) ≡ₚ flights s →
  owed s ≡ₚ owed (service w) → (stop_phase p = true → stopping s = true) →
  (finishing p = true → final_requests s = ∅ ∧ in_flight s = ∅) → world_ok (with_service s p w).
Proof. intros [Hs Hc Ho Hv Ht Hf] Hs' Hfl Ho' Ht' Hf'. constructor; simpl; try done. by rewrite Ho, Ho'. Qed.

(** An answer for a record in flight, of which the world has dropped the obligation. *)
Lemma answer_ok r result w :
  service_ok (service w) → r :: obligations w ≡ₚ flights (service w) →
  asked w ≡ₚ (notified w).*1 ++ owed (service w) →
  Forall (fun n => n.2 = Success → n.1.2 ∈ saved_log w) (notified w) →
  (stop_phase (worker w) = true → stopping (service w) = true) →
  (finishing (worker w) = true → final_requests (service w) = ∅ ∧ in_flight (service w) = ∅) →
  world_ok (answer r result w).
Proof.
  intros Hs Hfl Ho Hv Ht Hfin.
  destruct (flights_in_flight (service w) r Hs) as (f & Ef & <-); [rewrite <-Hfl; by left|].
  unfold answer. destruct (completeSave _ _ _) as [called s'] eqn:Ec.
  destruct (completeSave_ok _ _ _ _ _ _ Hs Ef Ec) as (Hs' & Hfl' & Ho' & Hc & Hsn & Hst & Hfr & Hif).
  constructor; simpl; try done.
  - unfold obligations, to_start in *. simpl. rewrite Hfl' in Hfl. by apply Permutation.Permutation_cons_inv in Hfl.
  - rewrite Ho, Ho', fmap_app, <-list_fmap_compose. unfold compose. simpl. solve_Permutation.
  - apply Forall_app. split.
    + apply (Forall_impl _ _ _ Hv). intros n Hn Hsucc. specialize (Hn Hsucc). destruct (saved result); [|done].
      apply elem_of_app. by left.
    + apply Forall_fmap, (Forall_impl _ _ _ Hc). intros c Hres Hsucc. simpl in *. rewrite <-Hres, Hsucc. simpl.
      apply elem_of_app. right. by left.
  - by rewrite Hst.
  - intros Hx. destruct (Hfin Hx) as [Hf1 Hf2]. rewrite Hfr, Hif, Hf2. split; [done|apply delete_empty].
Qed.

(** Only the flags, the counters or the queue change. *)
Lemma service_ok_same s s' :
  service_ok s → pending s' = pending s → final_requests s' = final_requests s → in_flight s' = in_flight s →
  service_ok s' ∧ flights s' = flights s ∧ owed s' = owed s.
Proof.
  intros [Hp Hf Hi] E1 E2 E3. unfold flights, owed. rewrite E2, E3. split_and!; try done.
  constructor; by rewrite ?E1, ?E2, ?E3.
Qed.

Lemma endFlush_same s :
  pending (endFlush s) = pending s ∧ final_requests (endFlush s) = final_requests s ∧
  in_flight (endFlush s) = in_flight s ∧ stopping (endFlush s) = stopping s ∧ snapshots (endFlush s) = snapshots s.
Proof. unfold endFlush. by destruct (_ && _). Qed.

Lemma startSave_ok save reply w phase rest :
  world_ok w → worker w = Starting phase (save :: rest) →
  world_ok (startSave save reply (with_service (service w) (Starting phase rest) w)).
Proof.
  intros [Hs Hc Ho Hv Ht Hf] Ew. unfold obligations, to_start in Hc. rewrite Ew in Hc. simpl in Hc.
  assert (Hsame : service_ok (countStart (service w) save) ∧ flights (countStart (service w) save) = flights (service w)).
  { destruct (service_ok_same (service w) (countStart (service w) save) Hs) as (? & ? & _); done. }
  destruct Hsame as (Hs' & Hfl). unfold startSave.
  assert (Hans : ∀ result, world_ok (answer (ss_record save) result
            (with_service (countStart (service w) save) (Starting phase rest) w))).
  { intros result. apply answer_ok; simpl; try done.
    - unfold obligations, to_start. simpl. rewrite Hfl, <-Hc. solve_Permutation.
    - rewrite Ew in Ht. by apply Ht. }
  destruct reply as [|result|]; [|apply Hans|apply Hans].
  constructor; simpl; try done.
  - unfold obligations, to_start. simpl. rewrite Hfl, <-Hc. solve_Permutation.
  - rewrite Ew in Ht. by apply Ht.
Qed.

Lemma worker_step_ok reply w w' : world_ok w → worker_step reply w = Some w' → world_ok w'.
Proof.
  intros Hw. pose proof Hw as [Hs Hc Ho Hv Ht Hf]. unfold worker_step. unfold obligations, to_start in Hc.
  destruct (endFlush_same (service w)) as (E1 & E2 & E3 & E4 & E5).
  destruct (service_ok_same _ _ Hs E1 E2 E3) as (Hse & Hfe & Hoe).
  destruct (worker w) as [| |ph|ph r|ph [|save rest]| | | | |] eqn:Ew; simpl in *.
  - intros [= <-]. apply world_ok_moved; try done; destruct (stopping _) eqn:Es; done.
  - intros [= <-]. by apply world_ok_moved.
  - destruct (queue_try_pop _) as [[r|] q] eqn:Eq.
    + intros [= <-]. apply world_ok_moved; try done. by destruct Hs.
    + assert (Hs1 : service_ok (set_snapshots q (service w))) by by destruct Hs.
      pose proof (selectSaves_selected _ Hs1) as (Hok & Hfl & How & _ & Hst).
      destruct (selectSaves _) as [saves s1]. simpl in *. intros [= <-]. apply world_ok_moved; try done.
      * simpl. rewrite Hfl. rewrite app_nil_r in Hc. by rewrite Hc.
      * simpl. by rewrite Hst.
  - intros [= <-]. apply world_ok_moved; try done. destruct Hs. constructor; simpl; try done.
    by apply map_Forall_insert_2.
  - intros [= <-]. apply world_ok_moved; rewrite ?Hfe, ?Hoe, ?E4; try done; by destruct ph.
  - intros [= <-]. by apply startSave_ok.
  - intros [= <-]. rewrite E4. apply world_ok_moved; rewrite ?Hfe, ?Hoe, ?E4; try done; by destruct (stopping _).
  - case_bool_decide as Hfr; case_bool_decide as Hi; simpl; intros [= <-]; apply world_ok_moved; try done.
    destruct Hs. constructor; simpl; try done.
  - case_bool_decide; [|done]. intros [= <-]. by apply world_ok_moved.
  - intros [= <-]. apply world_ok_moved; try done. by destruct Hs.
  - done.
Qed.

Lemma owed_request s p l r c :
  final_requests s !! p = l → rec_player r = p →
  owed (set_final_requests (<[p := default [] l ++ [mkFinalRequest r c]]> (final_requests s)) s) ≡ₚ (c, r) :: owed s.
Proof.
  intros El Hp. unfold owed. simpl. destruct l as [l|]; simpl.
  - rewrite gather_replace, (gather_delete _ _ _ _ El), fmap_app. simpl. solve_Permutation.
  - by rewrite gather_insert by done.
Qed.

Lemma asyncSave_ok w r c called s :
  world_ok w → asyncSave (service w) r (Some c) = Ret (called, s) →
  world_ok (mkWorld s (worker w) (calls w) (saved_log w) (enqueued w) (asked w ++ [(c, r)])
              (notified w ++ ((fun x => (x.1, r, x.2)) <$> called))).
Proof.
  intros [Hs Hc Ho Hv Ht Hf]. unfold asyncSave. destruct (_ || _) eqn:Est; intros [= <- <-].
  { constructor; simpl; try done.
    - rewrite Ho, fmap_app. simpl. solve_Permutation.
    - apply Forall_app. split; [done|]. by repeat constructor. }
  apply orb_false_elim in Est as [Est _].
  assert (Hfin : finishing (worker w) = false).
  { destruct (finishing (worker w)) eqn:E; [|done]. rewrite Ht in Est; [done|]. by destruct (worker w). }
  constructor; simpl; try done.
  - destruct Hs as [Hp Hfr Hi]. constructor; simpl; try done. apply map_Forall_insert_2; [|done].
    apply Forall_app. split; [|by repeat constructor]. destruct (_ !! _) eqn:E; simpl; [by apply (Hfr _ _ E)|constructor].
  - rewrite app_nil_r, (owed_request _ _ _ _ _ eq_refl eq_refl), Ho. solve_Permutation.
  - by rewrite app_nil_r.
  - congruence.
Qed.

Lemma world_step_ok w e w' : world_ok w → world_step w e = Some w' → world_ok w'.
Proof.
  intros Hw. pose proof Hw as [Hs Hc Ho Hv Ht Hf]. destruct e as [r|r c| | | |reply|i result]; cbn [world_step].
  - unfold tryEnqueue. destruct (queue_try_push _ _) as [ok q]. intros [= <-]. constructor; simpl; try done. by destruct Hs.
  - destruct (asyncSave (service w) r (Some c)) as [[called s]|e] eqn:E; [|done]. intros [= <-]. by apply asyncSave_ok.
  - intros [= <-]. unfold flush. destruct (stopped _); apply world_ok_moved; try done. by destruct Hs.
  - intros [= <-]. unfold stop. destruct (_ || _); apply world_ok_moved; try done. by destruct Hs.
  - destruct (stopping _) eqn:Est; [|done]. intros [= <-]. apply world_ok_moved; try done. by destruct Hs.
  - by apply worker_step_ok.
  - destruct (calls w !! i) as [r|] eqn:Ei; [|done]. simpl. intros [= <-]. apply answer_ok; simpl; try done.
    unfold obligations, to_start in *. simpl. rewrite <-Hc. rewrite app_comm_cons. f_equiv.
    symmetry. by apply delete_Permutation.
Qed.

Lemma world_run_snoc w es e : world_run w (es ++ [e]) = world_run w es ≫= fun w1 => world_step w1 e.
Proof. unfold world_run. by rewrite foldl_app. Qed.

(** Induction over a run. *)
Lemma world_run_ind (P : World Q → Prop) (ok : Event → Prop) w es w' :
  (∀ w e w', P w → ok e → world_step w e = Some w' → P w') → Forall ok es → P w → world_run w es = Some w' → P w'.
Proof.
  intros Hstep. revert w'. induction es as [|e es IH] using rev_ind; intros w' Hes Hw.
  { by intros [= <-]. }
  apply Forall_app in Hes as [Hes He]. apply Forall_cons in He as [He _].
  rewrite world_run_snoc. destruct (world_run w es) as [w1|] eqn:E; [|done]. apply Hstep; [by apply IH|done].
Qed.

Lemma initial_world_ok q : world_ok (initial_world q).
Proof. constructor; simpl; done. Qed.

Lemma world_run_ok q es w : world_run (initial_world q) es = Some w → world_ok w.
Proof.
  intros Hrun. apply (world_run_ind world_ok (fun _ => True) _ _ _ (fun w e w' H _ => world_step_ok w e w' H)
    ltac:(by apply Forall_true) (initial_world_ok q) Hrun).
Qed.

Lemma obligations_players w : world_ok w → NoDup (rec_player <$> obligations w).
Proof. intros [Hs Hc _ _ _ _]. rewrite Hc. by apply flights_players. Qed.

Lemma worker_never_stuck w reply :
  world_ok w → worker w ≠ Exited → is_Some (worker_step reply w) ∨ calls w ≠ [].
Proof.
  intros [_ Hc _ _ _ _] Hw. unfold worker_step, obligations, to_start in *.
  destruct (worker w) as [| |ph|ph r|ph [|save rest]| | | | |]; try by left; eauto.
  - left. destruct (queue_try_pop _) as [[?|] ?]; [by eauto|]. destruct (selectSaves _). by eauto.
  - left. repeat case_bool_decide; simpl; eauto.
  - case_bool_decide as Hi; [by left; eauto|]. right. intros Hn. apply Hi. rewrite Hn in Hc. simpl in Hc.
    symmetry in Hc. apply Permutation_nil_r in Hc. apply map_empty. intros p.
    destruct (in_flight (service w) !! p) as [f|] eqn:E; [|done]. unfold flights in Hc.
    pose proof (gather_delete (fun f => [if_record f]) _ _ _ E) as Hg. rewrite Hc in Hg. by apply Permutation_nil_l in Hg.
Qed.

(** ** The newest snapshot *)

Definition mine (p : PlayerId) (l : list PlayerRecord) : list PlayerRecord := filter (fun r => rec_player r = p) l.

Definition merging w : list PlayerRecord := match worker w with Merging _ r => [r] | _ => [] end.

(** A player's accepted snapshots on their way, from the stored ones to the newest. *)
Definition pipeline (p : PlayerId) w : list PlayerRecord :=
  mine p (saved_log w) ++ mine p (obligations w) ++ option_list (pending (service w) !! p) ++ mine p (merging w)
  ++ mine p (queue_contents (snapshots (service w))).

(** No final saves, and the repository does not fail. *)
Definition untroubled (e : Event) : bool :=
  match e with
  | SaveFinal _ _ | Work (Replied Unavailable) | Work Thrown | Answer _ Unavailable => false
  | _ => true
  end.

Definition fresh w : Prop :=
  final_requests (service w) = ∅ ∧
  (finishing (worker w) = false → ∀ p, last (pipeline p w) = last (mine p (enqueued w))).

Lemma mine_app p l1 l2 : mine p (l1 ++ l2) = mine p l1 ++ mine p l2.
Proof. apply filter_app. Qed.

Lemma mine_one p r : mine p [r] = if decide (rec_player r = p) then [r] else [].
Proof. unfold mine. rewrite filter_cons. by destruct (decide _). Qed.

Lemma mine_absent p l : p ∉ rec_player <$> l → mine p l = [].
Proof.
  intros Hn. destruct (mine p l) as [|r l'] eqn:E; [done|]. exfalso. apply Hn.
  assert (Hr : r ∈ mine p l) by (rewrite E; by left). apply list_elem_of_filter in Hr as [<- Hr].
  apply list_elem_of_fmap. by exists r.
Qed.

(** The one save of a player moves past the stored ones. *)
Lemma mine_saved p l r l1 l2 :
  NoDup (rec_player <$> l1 ++ r :: l2) → mine p (l ++ [r]) ++ mine p (l1 ++ l2) = mine p l ++ mine p (l1 ++ r :: l2).
Proof.
  intros Hnd. change (r :: l2) with ([r] ++ l2) in *. rewrite !mine_app, mine_one.
  destruct (decide (rec_player r = p)) as [<-|]; [|by rewrite app_nil_r].
  rewrite !fmap_app in Hnd. simpl in Hnd. apply NoDup_app in Hnd as (_ & Hd & Hnd). apply NoDup_cons in Hnd as [Hn _].
  rewrite (mine_absent _ l1), (mine_absent _ l2).
  - by rewrite !app_nil_r.
  - done.
  - intros Hin. apply (Hd _ Hin). by left.
Qed.

Lemma selectSaves_pending s :
  service_ok s → final_requests s = ∅ →
  final_requests (selectSaves s).2 = ∅ ∧
  ∀ p, mine p (ss_record <$> (selectSaves s).1) ++ option_list (pending (selectSaves s).2 !! p)
       = option_list (pending s !! p).
Proof.
  intros Hs Hf. unfold selectSaves. rewrite Hf, map_to_list_empty. simpl.
  pose (P := fun acc : list StartSave * PlayerPersistenceService Q =>
    selected s acc ∧ final_requests acc.2 = ∅ ∧
    ∀ p, mine p (ss_record <$> acc.1) ++ option_list (pending acc.2 !! p) = option_list (pending s !! p)).
  enough (HP : P (foldl select_pending ([], s) (map_to_list (pending s)))) by by destruct HP as (_ & ? & ?).
  apply (foldl_map select_pending (fun acc => pending acc.2) P ([], s)).
  { split_and!; try done. simpl. split_and!; try done. by rewrite app_nil_r. }
  intros acc p r (Hsel & Hfin & Hall) Hr. destruct (select_pending_selected s acc p r Hsel Hr) as [Hsel' Hsame].
  split; [|done]. split; [done|]. pose proof (sk_pending _ (proj1 Hsel) _ _ Hr) as Hp. simpl in Hp.
  destruct acc as [saves s1]. simpl in *. rewrite Hfin in *. rewrite lookup_empty in *.
  destruct (in_flight s1 !! p); simpl in *; [done|]. split; [done|]. intros q. rewrite fmap_app, mine_app. simpl.
  rewrite mine_one, lookup_delete, <-(Hall q). rewrite Hp. destruct (decide (p = q)) as [<-|]; [|by rewrite app_nil_r].
  by rewrite Hr, app_nil_r.
Qed.

Lemma completeSave_success s p :
  pending (completeSave s p Success).2 = pending s ∧ final_requests (completeSave s p Success).2 = final_requests s ∧
  snapshots (completeSave s p Success).2 = snapshots s.
Proof. unfold completeSave. by destruct (in_flight s !! p). Qed.

Lemma answer_fresh r w l1 l2 :
  obligations w = l1 ++ l2 → NoDup (rec_player <$> l1 ++ r :: l2) → final_requests (service w) = ∅ →
  (finishing (worker w) = false → ∀ p,
     last (mine p (saved_log w) ++ mine p (l1 ++ r :: l2) ++ option_list (pending (service w) !! p) ++ mine p (merging w)
           ++ mine p (queue_contents (snapshots (service w)))) = last (mine p (enqueued w))) →
  fresh (answer r Success w).
Proof.
  intros Hob Hnd Hf Hl. unfold answer, fresh, pipeline.
  destruct (completeSave_success (service w) (rec_player r)) as (Hp & Hfr & Hsn).
  destruct (completeSave _ _ _) as [called s']. simpl in *. rewrite Hfr. split; [done|]. intros Hfin p.
  rewrite <-(Hl Hfin p), Hp, Hsn. f_equal. rewrite app_assoc, (app_assoc (mine p (saved_log w))). f_equal.
  rewrite <-(mine_saved p (saved_log w) r l1 l2 Hnd). unfold obligations, to_start in *. simpl. by rewrite Hob.
Qed.

(** Steps that leave the pipeline of every player as it is. *)
Lemma fresh_moved w s p :
  fresh w → final_requests s = ∅ → finishing (worker w) = false ∨ finishing p = true →
  (finishing (worker w) = false → finishing p = false → ∀ q, pipeline q (with_service s p w) = pipeline q w) →
  fresh (with_service s p w).
Proof.
  intros [_ Hl] Hs Hfin Hp. split; [done|]. simpl. intros Hn q. destruct Hfin as [Hfin|]; [|congruence].
  rewrite (Hp Hfin Hn). by apply Hl.
Qed.

Lemma last_suffix {A} (l l' t : list A) : last l = last l' → last (l ++ t) = last (l' ++ t).
Proof. intros Hl. rewrite !last_app. by rewrite Hl. Qed.

Lemma last_overwrite {A} (l l' m : list A) x : last (l ++ l' ++ [x] ++ m) = last (l ++ [x] ++ m).
Proof. rewrite !last_app. by destruct (last m). Qed.

Lemma draining_fresh w phase reply w' :
  world_ok w → fresh w → worker w = Draining phase → worker_step reply w = Some w' → fresh w'.
Proof.
  intros Hw Hfr Ew. pose proof Hfr as [Hf Hl]. unfold worker_step. rewrite Ew.
  destruct (queue_try_pop _) as [[r|] q] eqn:Eq.
  - intros [= <-]. apply queue_pop_item in Eq. apply fresh_moved; try done; rewrite ?Ew; [by left|]. intros _ _ p.
    unfold pipeline, obligations, to_start, merging. simpl. rewrite Ew, Eq. change (r :: queue_contents q) with ([r] ++ queue_contents q).
    by rewrite (mine_app p [r]).
  - apply queue_pop_none in Eq as [Eq1 Eq2].
    assert (Hs1 : service_ok (set_snapshots q (service w))) by by destruct (wk_service _ Hw).
    destruct (selectSaves_pending _ Hs1 Hf) as [Hf' Hpend].
    pose proof (selectSaves_selected _ Hs1) as (_ & _ & _ & Hsn & _).
    destruct (selectSaves _) as [saves s1]. simpl in *. intros [= <-].
    apply fresh_moved; try done; rewrite ?Ew; [by left|]. intros _ _ p.
    unfold pipeline, obligations, to_start, merging. simpl. rewrite Ew, Hsn, Eq1, Eq2, <-(Hpend p). simpl.
    rewrite (mine_app p (calls w)), ?app_nil_r, <-!app_assoc. done.
Qed.

Lemma merging_fresh w phase r reply w' :
  fresh w → worker w = Merging phase r → worker_step reply w = Some w' → fresh w'.
Proof.
  intros [Hf Hl] Ew. unfold worker_step. rewrite Ew. intros [= <-]. split; [done|]. simpl. intros _ p.
  rewrite Ew in Hl. rewrite <-(Hl eq_refl p). unfold pipeline, obligations, to_start, merging. simpl. rewrite Ew, mine_one.
  rewrite lookup_insert. destruct (decide (rec_player r = p)) as [<-|]; [|done]. simpl option_list.
  rewrite !(app_assoc (mine _ (saved_log w))). symmetry. apply last_overwrite.
Qed.

Lemma startSave_fresh w phase save rest reply :
  world_ok w → fresh w → worker w = Starting phase (save :: rest) → untroubled (Work reply) = true →
  fresh (startSave save reply (with_service (service w) (Starting phase rest) w)).
Proof.
  intros Hw [Hf Hl] Ew Hu. pose proof (obligations_players w Hw) as Hnd. rewrite Ew in Hl. specialize (Hl eq_refl).
  unfold pipeline, obligations, to_start, merging in Hnd, Hl. rewrite Ew in Hnd, Hl. unfold startSave.
  destruct reply as [|[]|]; try done.
  - split; [done|]. intros _ p. simpl. rewrite <-(Hl p). unfold pipeline, obligations, to_start, merging. simpl.
    by rewrite <-app_assoc.
  - apply (answer_fresh _ _ (calls w) (ss_record <$> rest)); try done.
Qed.

(** Steps that only move the thread or change flags. *)
Lemma fresh_idle w s p :
  fresh w → pending s = pending (service w) → final_requests s = final_requests (service w) →
  snapshots s = snapshots (service w) → to_start (with_service s p w) = to_start w →
  merging (with_service s p w) = merging w → finishing (worker w) = false ∨ finishing p = true →
  fresh (with_service s p w).
Proof.
  intros Hfr Hp Hf Hs Ht Hm Hfin. apply fresh_moved; [done|by rewrite Hf; apply Hfr|done|]. intros _ _ q.
  unfold pipeline, obligations. rewrite Ht, Hm. simpl. by rewrite Hp, Hs.
Qed.

Lemma worker_step_fresh w reply w' :
  world_ok w → fresh w → untroubled (Work reply) = true → worker_step reply w = Some w' → fresh w'.
Proof.
  intros Hw Hfr Hu. destruct (endFlush_same (service w)) as (E1 & E2 & E3 & E4 & E5).
  destruct (worker w) as [| |ph|ph r|ph [|save rest]| | | | |] eqn:Ew;
    [| |by eapply draining_fresh|by eapply merging_fresh| | | | | | |]; unfold worker_step; rewrite Ew.
  - intros [= <-]. apply fresh_idle; unfold to_start, merging; rewrite ?Ew; try done; simpl; try (by left);
      by destruct (stopping (service w)).
  - intros [= <-]. apply fresh_idle; unfold to_start, merging; rewrite ?Ew; try done. by left.
  - intros [= <-]. apply fresh_idle; unfold to_start, merging; rewrite ?Ew; try done; simpl; try (by left); by destruct ph.
  - intros [= <-]. by apply startSave_fresh.
  - intros [= <-]. apply fresh_idle; unfold to_start, merging; rewrite ?Ew; try done; simpl; try (by left);
      by destruct (stopping (endFlush (service w))).
  - case_bool_decide as Hfin; case_bool_decide as Hi; simpl; intros [= <-];
      [|apply fresh_idle; unfold to_start, merging; rewrite ?Ew; try done; by left..].
    apply fresh_moved; try done. by right.
  - case_bool_decide; [|done]. intros [= <-]. apply fresh_idle; unfold to_start, merging; rewrite ?Ew; try done. by left.
  - intros [= <-]. apply fresh_idle; unfold to_start, merging; rewrite ?Ew; try done. by right.
  - done.
Qed.

Lemma world_step_fresh w e w' :
  world_ok w → fresh w → untroubled e = true → world_step w e = Some w' → fresh w'.
Proof.
  intros Hw Hfr Hu. pose proof Hfr as [Hf Hl]. destruct e as [r|r c| | | |reply|i result]; cbn [world_step]; try done.
  - unfold tryEnqueue. destruct (queue_try_push _ _) as [ok q] eqn:Eq. intros [= <-]. split; [done|]. simpl.
    intros Hfin p. specialize (Hl Hfin p). unfold pipeline, obligations, to_start, merging in *. simpl. destruct ok.
    + rewrite (queue_push_accepted _ _ _ Eq), (mine_app p (queue_contents _)), (mine_app p (enqueued w)).
      rewrite <-(last_suffix _ _ (mine p [r]) Hl). f_equal. by rewrite <-!app_assoc.
    + by rewrite (queue_push_refused _ _ _ Eq).
  - intros [= <-]. unfold flush. by destruct (stopped _).
  - intros [= <-]. unfold stop. by destruct (_ || _).
  - destruct (stopping _); [|done]. intros [= <-]. split; [done|]. simpl. intros Hfin p.
    rewrite <-(Hl Hfin p). unfold pipeline. simpl. by rewrite queue_close_keeps.
  - by apply worker_step_fresh.
  - destruct (calls w !! i) as [r|] eqn:Ei; [|done]. simpl. intros [= <-]. destruct result; [|done].
    pose proof (obligations_players w Hw) as Hnd. unfold pipeline, obligations, to_start in *.
    rewrite <-(take_drop_middle _ _ _ Ei), <-app_assoc in Hnd, Hl.
    apply (answer_fresh _ _ (take i (calls w)) (drop (S i) (calls w) ++ (ss_record <$> to_start w))); try done.
    unfold obligations, to_start. simpl. by rewrite delete_take_drop, <-app_assoc.
Qed.

(** ** Properties *)

(** In every interleaving of callers, service thread and repository, each
    final save's completion is called at most once and only if it was asked for,
    and once the thread has exited it was called for every one asked; a
    completion reports success only for a record the repository has saved; the
    repository never has two saves of one player in progress; and the thread
    can always go on, unless it waits for a save that really is in progress. *)
Theorem final_saves_complete_once q es w :
  world_run (initial_world q) es = Some w →
  (notified w).*1 ⊆+ asked w ∧
  (worker w = Exited → (notified w).*1 ≡ₚ asked w) ∧
  (∀ c r, (c, r, Success) ∈ notified w → r ∈ saved_log w) ∧
  NoDup (rec_player <$> calls w) ∧
  (worker w ≠ Exited → is_Some (world_step w (Work Deferred)) ∨ calls w ≠ []).
Proof.
  intros Hrun. pose proof (world_run_ok q es w Hrun) as Hw. pose proof Hw as [Hs Hc Ho Hv Ht Hf]. split_and!.
  - rewrite Ho. apply submseteq_inserts_r. done.
  - intros Hx. rewrite Hx in Hf. destruct (Hf eq_refl) as [Hfr Hi]. rewrite Ho. unfold owed. rewrite Hfr, Hi, !gather_empty.
    by rewrite !app_nil_r.
  - intros c r Hn. rewrite Forall_forall in Hv. by apply (Hv _ Hn).
  - pose proof (obligations_players w Hw) as Hnd. unfold obligations in Hnd. rewrite fmap_app in Hnd.
    by apply NoDup_app in Hnd as [Hnd _].
  - by apply worker_never_stuck.
Qed.

(** C40: write-behind keeps the newest snapshot: as long as the repository does
    not fail and no final save is asked for, and until the thread leaves its
    loop, the newest accepted snapshot of every player is stored or on its way
    behind all older ones, in every interleaving; once nothing is on its way it
    is the last one stored. *)
Theorem writeback_keeps_newest q es w p :
  queue_contents q = [] → Forall (fun e => untroubled e = true) es → world_run (initial_world q) es = Some w →
  finishing (worker w) = false →
  last (pipeline p w) = last (mine p (enqueued w)) ∧
  (obligations w = [] → pending (service w) !! p = None → merging w = [] → queue_contents (snapshots (service w)) = [] →
   last (mine p (saved_log w)) = last (mine p (enqueued w))).
Proof.
  intros Hq Hes Hrun Hfin.
  assert (Hboth : world_ok w ∧ fresh w).
  { apply (world_run_ind (fun w => world_ok w ∧ fresh w) (fun e => untroubled e = true) (initial_world q) es); try done.
    - intros w1 e w2 [H1 H2] He Hstep. split; [by eapply world_step_ok|by eapply world_step_fresh].
    - split; [apply initial_world_ok|]. split; [done|]. intros _ p'. unfold pipeline. simpl. by rewrite Hq. }
  destruct Hboth as [_ [_ Hl]]. specialize (Hl Hfin p). split; [done|]. intros H1 H2 H3 H4. rewrite <-Hl. unfold pipeline.
  rewrite H1, H2, H3, H4. simpl. by rewrite app_nil_r.
Qed.
End spec.

(** ** Concrete runs *)

Definition demo_record (n : Z) : PlayerRecord := mkPlayerRecord 7 n None 1000 0 0 defaultLoadout.
Definition demo_queue : BoundedQueue PlayerRecord := mkQueue 16 [] 0 false false.
Definition works (n : nat) : list Event := replicate n (Work Deferred).

(** The save of the first snapshot is in progress and a second one arrives. *)
Definition second_arrives : list Event := [Enqueue (demo_record 1)] ++ works 6 ++ [Enqueue (demo_record 2)].

Definition saved_after_failure : list Event :=
  second_arrives ++ works 6 ++ [Answer 0 Unavailable] ++ works 4 ++ [Work (Replied Success)].

Definition stopped_early : list Event :=
  second_arrives ++ [Stop; CloseQueue] ++ works 5 ++ [Answer 0 Success] ++ works 3.

(** An accepted snapshot can be lost in two ways.  When a background save
    fails while a newer snapshot of the player is pending, the retry puts the
    failed record over the newer one: afterwards nothing is on its way and the
    older record is the one stored.  And when the save in progress succeeds
    between the last selection and the final check, the exit discards the
    pending snapshot although no save has failed. *)
Theorem newer_snapshot_can_be_lost :
  (∃ w, world_run (initial_world demo_queue) saved_after_failure = Some w ∧
     enqueued w = [demo_record 1; demo_record 2] ∧ saved_log w = [demo_record 1] ∧
     obligations w = [] ∧ pending (service w) = ∅ ∧ merging w = [] ∧ queue_contents (snapshots (service w)) = []) ∧
  (∃ w, world_run (initial_world demo_queue) stopped_early = Some w ∧
     forallb untroubled stopped_early = true ∧ worker w = Exited ∧
     enqueued w = [demo_record 1; demo_record 2] ∧ saved_log w = [demo_record 1]).
Proof. split; (eexists; split; [vm_compute; reflexivity|]); by split_and!. Qed.

Definition final_save_run : list Event :=
  [SaveFinal (demo_record 3) 77; Stop] ++ works 2 ++ [Work (Replied Success)] ++ works 3.

Lemma final_saves_complete_once_witness :
  ∃ w, world_run (initial_world demo_queue) final_save_run = Some w ∧ worker w = Exited ∧
    (notified w).*1 ≡ₚ [(77, demo_record 3)].
Proof.
  destruct (world_run (initial_world demo_queue) final_save_run) as [w|] eqn:E; [|vm_compute in E; discriminate].
  exists w. split; [reflexivity|].
  assert (Hx : worker <$> Some w = Some Exited) by (rewrite <-E; vm_compute; reflexivity).
  assert (Ha : asked <$> Some w = Some [(77, demo_record 3)]) by (rewrite <-E; vm_compute; reflexivity).
  injection Hx as Hx. injection Ha as Ha. split; [exact Hx|]. rewrite <-Ha.
  exact (proj1 (proj2 (final_saves_complete_once _ _ _ E)) Hx).
Defined.

Definition quiet_run : list Event :=
  second_arrives ++ [Answer 0 Success] ++ works 6 ++ [Work (Replied Success)].

Lemma writeback_keeps_newest_witness :
  ∃ w, world_run (initial_world demo_queue) quiet_run = Some w ∧ last (mine 7 (saved_log w)) = Some (demo_record 2).
Proof.
  destruct (world_run (initial_world demo_queue) quiet_run) as [w|] eqn:E; [|vm_compute in E; discriminate].
  exists w. split; [reflexivity|].
  assert (Hw : (fun w => (finishing (worker w), obligations w, pending (service w) !! 7, merging w,
                          queue_contents (snapshots (service w)), last (mine 7 (enqueued w)))) <$> Some w
               = Some (false, [], None, [], [], Some (demo_record 2))) by (rewrite <-E; vm_compute; reflexivity).
  injection Hw as H1 H2 H3 H4 H5 H6. rewrite <-H6.
  assert (Hq : queue_contents demo_queue = []) by reflexivity.
  assert (Hes : Forall (fun e => untroubled e = true) quiet_run) by (repeat constructor).
  exact (proj2 (writeback_keeps_newest demo_queue quiet_run w 7 Hq Hes E H1) H2 H3 H4 H5).
Defined.
