(* ===== verification/Identity.v ===== *)
(** * Worker identities

    Actor keys, generations and placement of the worker runtime
    ([src/include/snf/worker/identity.hpp], [stale.hpp], [poll_token.hpp],
    [progress.hpp]): which worker owns an actor, when an event is stale, and the
    words that pack a poll token and a worker's phase. *)

From S2P Require Import Prelude.

(** The numbers of [ActorKind] enter the placement hash. *)
Inductive ActorKind := KindProvisionalPlayer | KindPlayer | KindZone | KindRoom.

Definition kind_number (k : ActorKind) : Z :=
  match k with KindProvisionalPlayer => 0 | KindPlayer => 1 | KindZone => 2 | KindRoom => 3 end.

#[export] Instance ActorKind_eq_dec : EqDecision ActorKind.
Proof. solve_decision. Defined.

#[export] Instance ActorKind_countable : Countable ActorKind.
Proof.
  refine (inj_countable' kind_number
    (fun z => match z with 0 => KindProvisionalPlayer | 1 => KindPlayer | 2 => KindZone | _ => KindRoom end) _).
  by intros [].
Defined.

(** [WorkerId], [ActorIncarnation], [OperationId], [ConnectionId] and
    [ConnectionGeneration] are structs around one integer. *)
Abbreviation WorkerId := Z (only parsing).
Abbreviation ActorIncarnation := Z (only parsing).
Abbreviation OperationId := Z (only parsing).
Abbreviation ConnectionGeneration := Z (only parsing).

Definition isValid (id : Z) : bool := negb (id =? 0).

Record ActorKey := mkActorKey { key_kind : ActorKind; key_entity : Z }.
Record ActivationRef := mkActivationRef { activation_actor : ActorKey; activation_incarnation : ActorIncarnation }.
Record ConnectionRef := mkConnectionRef { cref_id : Z; cref_generation : ConnectionGeneration; cref_owner : WorkerId }.
Record AwaitKey := mkAwaitKey { await_actor : ActorKey; await_incarnation : ActorIncarnation; await_operation : OperationId }.

#[export] Instance ActorKey_eq_dec : EqDecision ActorKey.
Proof. solve_decision. Defined.
#[export] Instance ActorKey_countable : Countable ActorKey.
Proof.
  refine (inj_countable' (fun k => (key_kind k, key_entity k)) (fun p => mkActorKey p.1 p.2) _). by intros [].
Defined.
#[export] Instance ActivationRef_eq_dec : EqDecision ActivationRef.
Proof. solve_decision. Defined.
#[export] Instance ConnectionRef_eq_dec : EqDecision ConnectionRef.
Proof. solve_decision. Defined.
#[export] Instance AwaitKey_eq_dec : EqDecision AwaitKey.
Proof. solve_decision. Defined.

(** ** Placement *)

Definition stableActorHash (key : ActorKey) (placement_seed : Z) : Z :=
  let value := key_entity key in
  let value := Z.lxor value (u64 (kind_number (key_kind key) * 0x9e3779b97f4a7c15)) in
  let value := Z.lxor value placement_seed in
  let value := Z.lxor value (Z.shiftr value 30) in
  let value := u64 (value * 0xbf58476d1ce4e5b9) in
  let value := Z.lxor value (Z.shiftr value 27) in
  let value := u64 (value * 0x94d049bb133111eb) in
  Z.lxor value (Z.shiftr value 31).

(** [% worker_count] with [worker_count == 0] is undefined; the configuration
    of the worker group refuses it. *)
Definition ownerOf (key : ActorKey) (worker_count placement_seed : Z) : WorkerId :=
  u16 (stableActorHash key placement_seed mod worker_count).

(** [SequenceSource]: a counter whose first identifier is one. *)
Record SequenceSource := mkSequenceSource { sequence_last : Z }.
Definition makeSequenceSource : SequenceSource := mkSequenceSource 0.
Definition sequence_next (s : SequenceSource) : Z * SequenceSource :=
  let next := u64 (sequence_last s + 1) in (next, mkSequenceSource next).

(** ** Stale events *)

Definition acceptsCompletion (arriving blocked : AwaitKey) : bool :=
  isValid (await_incarnation arriving) && isValid (await_operation arriving) && isValid (await_incarnation blocked)
  && isValid (await_operation blocked) && bool_decide (arriving = blocked).

Definition acceptsActivationEvent (event : ActivationRef) (current : ActorIncarnation) : bool :=
  isValid (activation_incarnation event) && isValid current && (activation_incarnation event =? current).

Definition acceptsConnectionAction (target : ConnectionRef) (current : ConnectionGeneration) : bool :=
  isValid (cref_generation target) && isValid current && (cref_generation target =? current).

(** ** Poll tokens *)

Inductive PollTargetKind := PollInvalid | PollWakeup | PollClientConnection | PollDbConnection | PollListener.

#[export] Instance PollTargetKind_eq_dec : EqDecision PollTargetKind.
Proof. solve_decision. Defined.

Definition poll_kind_number (k : PollTargetKind) : Z :=
  match k with PollInvalid => 0 | PollWakeup => 1 | PollClientConnection => 2 | PollDbConnection => 3 | PollListener => 4 end.

(** [static_cast] of a byte to the enumeration; a byte that names no
    enumerator is a value of its own. *)
Definition poll_kind_of (z : Z) : option PollTargetKind :=
  match z with
  | 0 => Some PollInvalid | 1 => Some PollWakeup | 2 => Some PollClientConnection
  | 3 => Some PollDbConnection | 4 => Some PollListener | _ => None
  end.

Notation "'MAX_POLL_INDEX'" := 0xFFFFFF : snf_scope.
Notation "'MAX_POLL_GENERATION'" := 0xFFFFFFFF : snf_scope.

Definition encodePollToken (kind : PollTargetKind) (index generation : Z) : Z :=
  Z.lor (Z.lor (Z.shiftl (poll_kind_number kind) 56) (Z.shiftl index 32)) generation.

(** Kind, index and generation of a raw token. *)
Definition decodePollToken (raw : Z) : option PollTargetKind * Z * Z :=
  (poll_kind_of (Z.land (Z.shiftr raw 56) 0xFF), Z.land (Z.shiftr raw 32) 0xFFFFFF, Z.land raw 0xFFFFFFFF).

(** ** Progress word *)

Inductive WorkerPhase :=
| PhaseStarting | PhasePollWait | PhasePoll | PhaseInbox | PhaseTimers | PhaseDb | PhaseActors | PhaseWrites
| PhaseShutdownA | PhaseShutdownB | PhaseShutdownC | PhaseShutdownD | PhaseStopped.

#[export] Instance WorkerPhase_eq_dec : EqDecision WorkerPhase.
Proof. solve_decision. Defined.

Definition phases : list WorkerPhase :=
  [PhaseStarting; PhasePollWait; PhasePoll; PhaseInbox; PhaseTimers; PhaseDb; PhaseActors; PhaseWrites;
   PhaseShutdownA; PhaseShutdownB; PhaseShutdownC; PhaseShutdownD; PhaseStopped].

Definition phase_number (p : WorkerPhase) : Z :=
  match p with
  | PhaseStarting => 0 | PhasePollWait => 1 | PhasePoll => 2 | PhaseInbox => 3 | PhaseTimers => 4 | PhaseDb => 5
  | PhaseActors => 6 | PhaseWrites => 7 | PhaseShutdownA => 8 | PhaseShutdownB => 9 | PhaseShutdownC => 10
  | PhaseShutdownD => 11 | PhaseStopped => 12
  end.

Notation "'PHASE_SHIFT'" := 60 : snf_scope.
Notation "'TIMESTAMP_MASK'" := 0xFFFFFFFFFFFFFFF : snf_scope.

Definition pack (phase : WorkerPhase) (epoch_micros : Z) : Z :=
  Z.lor (Z.shiftl (phase_number phase) PHASE_SHIFT) (Z.land epoch_micros TIMESTAMP_MASK).
Definition unpackPhase (word : Z) : option WorkerPhase := phases !! Z.to_nat (Z.shiftr word PHASE_SHIFT).
Definition unpackMicros (word : Z) : Z := Z.land word TIMESTAMP_MASK.

(** [publish] keeps whole microseconds of the (non-negative) time since the
    epoch of the steady clock, [sample] gives them back in nanoseconds. *)
Definition publish (phase : WorkerPhase) (entered_at : time_point) : Z := pack phase (entered_at / 1000).
Definition sample (word : Z) : option WorkerPhase * time_point := (unpackPhase word, unpackMicros word * 1000).

(** ** Bit fields *)

Create HintDb bits discriminated.

(** A field of [w] bits read back from a word it was or-ed into at [s], when
    the other fields keep out of its bits. *)
Lemma land_ones_small x w : 0 <= w → 0 <= x < 2 ^ w → Z.land x (Z.ones w) = x.
Proof. intros Hw Hx. rewrite Z.land_ones by done. by apply Z.mod_small. Qed.

Lemma lor_field_add hi lo s : 0 <= s → 0 <= lo < 2 ^ s → Z.lor (Z.shiftl hi s) lo = hi * 2 ^ s + lo.
Proof.
  intros Hs Hlo. rewrite <-(Z.shiftl_mul_pow2 hi s Hs). rewrite <-Z.add_lor_land.
  replace (Z.land (Z.shiftl hi s) lo) with 0; [lia|].
  symmetry. apply Z.bits_inj'. intros n Hn. rewrite Z.land_spec, Z.bits_0, Z.shiftl_spec by done.
  destruct (Z.lt_ge_cases n s) as [Hns|Hns].
  - by rewrite Z.testbit_neg_r by lia.
  - destruct (decide (lo = 0)) as [->|]; [by rewrite Z.bits_0, andb_false_r|].
    rewrite (Z.bits_above_log2 lo), andb_false_r; [done|lia|].
    apply Z.log2_lt_pow2; [lia|]. pose proof (Z.pow_le_mono_r 2 s n). lia.
Qed.

Lemma shiftr_lor_shiftl hi lo s : 0 <= s → 0 <= lo < 2 ^ s → Z.shiftr (Z.lor (Z.shiftl hi s) lo) s = hi.
Proof.
  intros Hs Hlo. rewrite lor_field_add, Z.shiftr_div_pow2 by done.
  rewrite Z.div_add_l by (pose proof (Z.pow_pos_nonneg 2 s); lia). rewrite Z.div_small; lia.
Qed.

Lemma land_lor_shiftl hi lo s : 0 <= s → 0 <= lo < 2 ^ s → Z.land (Z.lor (Z.shiftl hi s) lo) (Z.ones s) = lo.
Proof.
  intros Hs Hlo. rewrite lor_field_add, Z.land_ones by done.
  rewrite Z.add_comm, Z.mod_add by (pose proof (Z.pow_pos_nonneg 2 s); lia). by apply Z.mod_small.
Qed.

(** ** Placement is total and never collides within a kind *)

(** [x ^ (x >> k)] loses nothing. *)
Lemma xorshift_inj k a b :
  0 < k → 0 <= a → 0 <= b → Z.lxor a (Z.shiftr a k) = Z.lxor b (Z.shiftr b k) → a = b.
Proof.
  intros Hk Ha Hb Heq. set (d := Z.lxor a b).
  assert (Hd : d = Z.shiftr d k).
  { unfold d. rewrite Z.shiftr_lxor. apply Z.lxor_eq. apply Z.bits_inj'. intros n Hn.
    apply (f_equal (fun z => Z.testbit z n)) in Heq. rewrite !Z.lxor_spec, Z.bits_0 in *.
    destruct (Z.testbit a n), (Z.testbit b n), (Z.testbit (Z.shiftr a k) n), (Z.testbit (Z.shiftr b k) n); done. }
  assert (0 <= d) by (unfold d; rewrite Z.lxor_nonneg; lia).
  assert (d = 0) as Hz; [|by apply Z.lxor_eq in Hz].
  rewrite Z.shiftr_div_pow2 in Hd by lia. pose proof (Z.pow_gt_1 2 k ltac:(lia)) as [Hp _].
  specialize (Hp Hk). destruct (decide (d = 0)); [done|]. pose proof (Z.div_lt d (2 ^ k)). lia.
Qed.

(** Multiplication by a constant with an inverse modulo [2^64] loses nothing. *)
Lemma mul_u64_inj c c' a b :
  u64 (c * c') = 1 → in_u64 a → in_u64 b → u64 (a * c) = u64 (b * c) → a = b.
Proof.
  intros Hc Ha Hb Heq. rewrite <-(u64_small a Ha), <-(u64_small b Hb).
  assert (Hinv : ∀ z, u64 z = u64 (u64 (z * c) * c')).
  { intros z. unfold u64 in *. rewrite Z.mul_mod_idemp_l by lia. rewrite <-Z.mul_assoc.
    rewrite <-(Z.mul_mod_idemp_r z) by lia. rewrite Hc. by rewrite Z.mul_1_r. }
  rewrite (Hinv a), (Hinv b). by rewrite Heq.
Qed.

Lemma lxor_u64 a b : in_u64 a → in_u64 b → in_u64 (Z.lxor a b).
Proof.
  intros Ha Hb. assert (0 <= Z.lxor a b) by (apply Z.lxor_nonneg; lia). split; [done|].
  destruct (decide (Z.lxor a b = 0)) as [->|]; [lia|].
  apply Z.lt_succ_r. change (Z.succ U64_MAX) with (2 ^ 64). apply Z.log2_lt_pow2; [lia|].
  eapply Z.le_lt_trans; [apply Z.log2_lxor; lia|]. apply Z.max_lub_lt.
  all: match goal with |- Z.log2 ?x < _ => destruct (decide (x = 0)) as [->|]; [done|]; apply Z.log2_lt_pow2; lia end.
Qed.

Lemma shiftr_u64 a k : 0 <= k → in_u64 a → in_u64 (Z.shiftr a k).
Proof.
  intros Hk Ha. rewrite Z.shiftr_div_pow2 by done. pose proof (Z.pow_pos_nonneg 2 k ltac:(lia) Hk).
  split; [apply Z.div_pos; lia|]. pose proof (Z.div_le_upper_bound a (2 ^ k) a). nia.
Qed.

#[export] Hint Resolve lxor_u64 shiftr_u64 : bits.
#[export] Hint Resolve u64_range : bits.
#[export] Hint Extern 1 (_ <= _) => lia : bits.
#[export] Hint Extern 1 (_ ∧ _) => lia : bits.

Lemma lxor_inj_l x a b : Z.lxor a x = Z.lxor b x → a = b.
Proof.
  intros Heq. apply (f_equal (fun z => Z.lxor z x)) in Heq.
  rewrite !Z.lxor_assoc, Z.lxor_nilpotent, !Z.lxor_0_r in Heq. done.
Qed.

Lemma stableActorHash_range key seed : in_u64 (key_entity key) → in_u64 seed → in_u64 (stableActorHash key seed).
Proof. intros. unfold stableActorHash. cbv zeta. auto 8 with bits. Qed.

Lemma stableActorHash_inj kind e e' seed :
  in_u64 e → in_u64 e' → in_u64 seed →
  stableActorHash (mkActorKey kind e) seed = stableActorHash (mkActorKey kind e') seed → e = e'.
Proof.
  intros He He' Hs Heq. unfold stableActorHash in Heq. cbn [key_entity key_kind] in Heq.
  apply xorshift_inj in Heq; [|lia|apply u64_range..].
  apply (mul_u64_inj _ 0x319642b2d24d8ec3) in Heq; [|reflexivity|auto 8 with bits..].
  apply xorshift_inj in Heq; [|lia|apply u64_range..].
  apply (mul_u64_inj _ 0x96de1b173f119089) in Heq; [|reflexivity|auto 8 with bits..].
  apply xorshift_inj in Heq; [|lia|..]; [by apply lxor_inj_l in Heq; apply lxor_inj_l in Heq|..].
  all: apply lxor_u64; auto with bits.
Qed.

(** Placement is total and collision free: with a positive number of workers
    every actor key has an owner among them, the same from every worker, and two
    different entities of one kind never have the same placement hash, whatever
    the seed. *)
Theorem placement_sound (kind : ActorKind) (entity entity' worker_count seed : Z) :
  in_u64 entity → in_u64 entity' → in_u64 seed → 0 < worker_count <= U16_MAX →
  0 <= ownerOf (mkActorKey kind entity) worker_count seed < worker_count
  ∧ (stableActorHash (mkActorKey kind entity) seed = stableActorHash (mkActorKey kind entity') seed ↔ entity = entity').
Proof.
  intros He He' Hs Hw. split; [|split; [by apply stableActorHash_inj|by intros ->]].
  unfold ownerOf. pose proof (Z.mod_pos_bound (stableActorHash (mkActorKey kind entity) seed) worker_count).
  rewrite u16_small; lia.
Qed.

Lemma placement_sound_witness :
  0 <= ownerOf (mkActorKey KindZone 42) 8 0 < 8
  ∧ (stableActorHash (mkActorKey KindZone 42) 0 = stableActorHash (mkActorKey KindZone 43) 0 ↔ 42 = 43).
Proof. apply (placement_sound KindZone 42 43 8 0); lia. Defined.

(** A poll token gives back what was encoded, so a token names one slot and one
    use of it. *)
Theorem poll_token_roundtrip (kind : PollTargetKind) (index generation : Z) :
  0 <= index <= MAX_POLL_INDEX → 0 <= generation <= MAX_POLL_GENERATION →
  decodePollToken (encodePollToken kind index generation) = (Some kind, index, generation).
Proof.
  intros Hi Hg. unfold decodePollToken, encodePollToken.
  assert (Hword : Z.lor (Z.lor (Z.shiftl (poll_kind_number kind) 56) (Z.shiftl index 32)) generation
                  = Z.lor (Z.shiftl (poll_kind_number kind * 2 ^ 24 + index) 32) generation).
  { rewrite <-Z.lor_assoc. rewrite (lor_field_add _ (Z.lor _ _)) by (rewrite ?lor_field_add; lia).
    rewrite !lor_field_add by lia. lia. }
  change 0xFFFFFFFF with (Z.ones 32). change 0xFFFFFF with (Z.ones 24). change 0xFF with (Z.ones 8).
  f_equal; [f_equal|].
  - rewrite <-Z.lor_assoc, shiftr_lor_shiftl by (rewrite ?lor_field_add; lia). by destruct kind.
  - rewrite Hword, shiftr_lor_shiftl, Z.land_ones by lia.
    rewrite Z.add_comm, Z.mod_add by lia. apply Z.mod_small. lia.
  - rewrite Hword. apply land_lor_shiftl; lia.
Qed.

(** The phase and the microsecond a worker publishes are what the watchdog
    samples. *)
Lemma progress_roundtrip phase entered_at :
  0 <= entered_at → entered_at / 1000 <= TIMESTAMP_MASK →
  sample (publish phase entered_at) = (Some phase, entered_at / 1000 * 1000).
Proof.
  intros Ht Hm. unfold sample, publish, pack, unpackPhase, unpackMicros.
  assert (0 <= entered_at / 1000) by (apply Z.div_pos; lia).
  change TIMESTAMP_MASK with (Z.ones 60). rewrite (land_ones_small (entered_at / 1000)) by lia.
  rewrite shiftr_lor_shiftl, land_lor_shiftl by lia. by destruct phase.
Qed.
