(* ===== verification/Lane.v ===== *)
(** * Inbox lane

    The lock-free ring between one producing and one consuming worker
    ([InboxLane] of [src/include/snf/worker/inbox.hpp],
    [src/src/worker/inbox.cpp]).  Both methods are given twice: as functions, and
    cut into their accesses to shared memory, so that producer, consumer and
    [close] interleave at every load and store.  Loads and stores take effect in
    one order (the acquire/release pairs of the source; a relaxed access is
    always to a variable only its own thread writes). *)

From S2P Require Import Prelude.

Notation "'CAPACITY'" := 1024 (only parsing) : snf_scope.

Section lane.
Context {E : Type}.

Record WorkerEnvelope := mkWorkerEnvelope { event : E; charged_bytes : Z }.

Inductive InboxPushResult := PushAccepted | PushFull | PushClosed.

(** A slot is [None] before [construct_at] and after [destroy_at]. *)
Record InboxLane := mkInboxLane {
  lane_max_queued_bytes : Z;
  lane_closed : bool;
  lane_tail : Z;
  lane_produced_bytes : Z;
  lane_head : Z;
  lane_consumed_bytes : Z;
  lane_slots : list (option WorkerEnvelope)
}.
Implicit Types (l : InboxLane) (e : WorkerEnvelope).

Definition makeInboxLane (max_queued_bytes : Z) : InboxLane :=
  mkInboxLane max_queued_bytes false 0 0 0 0 (replicate 1024 None).

Definition slot_index (position : Z) : nat := Z.to_nat (Z.land position (CAPACITY - 1)).

Definition store_slot (i : nat) (o : option WorkerEnvelope) l : InboxLane :=
  mkInboxLane (lane_max_queued_bytes l) (lane_closed l) (lane_tail l) (lane_produced_bytes l) (lane_head l)
    (lane_consumed_bytes l) (<[i := o]> (lane_slots l)).
Definition store_produced (v : Z) l : InboxLane :=
  mkInboxLane (lane_max_queued_bytes l) (lane_closed l) (lane_tail l) v (lane_head l) (lane_consumed_bytes l) (lane_slots l).
Definition store_tail (v : Z) l : InboxLane :=
  mkInboxLane (lane_max_queued_bytes l) (lane_closed l) v (lane_produced_bytes l) (lane_head l) (lane_consumed_bytes l) (lane_slots l).
Definition store_consumed (v : Z) l : InboxLane :=
  mkInboxLane (lane_max_queued_bytes l) (lane_closed l) (lane_tail l) (lane_produced_bytes l) (lane_head l) v (lane_slots l).
Definition store_head (v : Z) l : InboxLane :=
  mkInboxLane (lane_max_queued_bytes l) (lane_closed l) (lane_tail l) (lane_produced_bytes l) v (lane_consumed_bytes l) (lane_slots l).

Definition lane_close l : InboxLane :=
  mkInboxLane (lane_max_queued_bytes l) true (lane_tail l) (lane_produced_bytes l) (lane_head l) (lane_consumed_bytes l) (lane_slots l).

Definition lane_isEmpty l : bool := lane_head l =? lane_tail l.

Definition approximateQueuedBytes l : Z :=
  if lane_consumed_bytes l <=? lane_produced_bytes l then lane_produced_bytes l - lane_consumed_bytes l else 0.

(** [construct_at] over a live object and moving out of a slot that holds none
    are undefined. *)
Definition construct_slot (i : nat) e l : option InboxLane :=
  match lane_slots l !! i with Some None => Some (store_slot i (Some e) l) | _ => None end.
Definition take_slot (i : nat) l : option (WorkerEnvelope * InboxLane) :=
  match lane_slots l !! i with Some (Some e) => Some (e, store_slot i None l) | _ => None end.

(** ** The methods *)

Definition lane_tryPush e l : option (InboxPushResult * InboxLane) :=
  if lane_closed l then Some (PushClosed, l)
  else if CAPACITY <=? u64 (lane_tail l - lane_head l) then Some (PushFull, l)
  else if lane_max_queued_bytes l <? u64 (approximateQueuedBytes l + charged_bytes e) then Some (PushFull, l)
  else
    l1 ← construct_slot (slot_index (lane_tail l)) e l;
    Some (PushAccepted,
          store_tail (u64 (lane_tail l + 1)) (store_produced (u64 (lane_produced_bytes l + charged_bytes e)) l1)).

Definition lane_tryPop l : option (option WorkerEnvelope * InboxLane) :=
  if lane_head l =? lane_tail l then Some (None, l)
  else
    '(e, l1) ← take_slot (slot_index (lane_head l)) l;
    Some (Some e, store_head (u64 (lane_head l + 1)) (store_consumed (u64 (lane_consumed_bytes l + charged_bytes e)) l1)).

(** ** Their accesses

    The program counters name what the thread does next and carry its locals. *)

Inductive PushPc :=
| PushIdle
| PushCalled (e : WorkerEnvelope)                           (** load [_closed] *)
| PushOpen (e : WorkerEnvelope)                             (** load [tail], [head] *)
| PushRoom (e : WorkerEnvelope) (tail : Z)                  (** load [produced_bytes], [consumed_bytes] *)
| PushFits (e : WorkerEnvelope) (tail produced : Z)         (** construct the slot *)
| PushBuilt (e : WorkerEnvelope) (tail produced : Z)        (** store [produced_bytes] *)
| PushCounted (e : WorkerEnvelope) (tail : Z).              (** store [tail] *)

Inductive PopPc :=
| PopIdle
| PopCalled                                                 (** load [head], [tail] *)
| PopSeen (head : Z)                                        (** move the slot out *)
| PopTaken (e : WorkerEnvelope) (head : Z)                  (** store [consumed_bytes] *)
| PopCounted (e : WorkerEnvelope) (head : Z).               (** store [head] *)

(** One access of the producer; the call returns with a result or goes on. *)
Definition push_access (pc : PushPc) l : option (PushPc * option InboxPushResult * InboxLane) :=
  match pc with
  | PushIdle => Some (PushIdle, None, l)
  | PushCalled e => Some (if lane_closed l then (PushIdle, Some PushClosed, l) else (PushOpen e, None, l))
  | PushOpen e =>
      Some (if CAPACITY <=? u64 (lane_tail l - lane_head l) then (PushIdle, Some PushFull, l)
            else (PushRoom e (lane_tail l), None, l))
  | PushRoom e tail =>
      Some (if lane_max_queued_bytes l <? u64 (approximateQueuedBytes l + charged_bytes e)
            then (PushIdle, Some PushFull, l) else (PushFits e tail (lane_produced_bytes l), None, l))
  | PushFits e tail produced =>
      l1 ← construct_slot (slot_index tail) e l; Some (PushBuilt e tail produced, None, l1)
  | PushBuilt e tail produced =>
      Some (PushCounted e tail, None, store_produced (u64 (produced + charged_bytes e)) l)
  | PushCounted e tail => Some (PushIdle, Some PushAccepted, store_tail (u64 (tail + 1)) l)
  end.

(** One access of the consumer; the outer option of the result tells whether
    the call returned. *)
Definition pop_access (pc : PopPc) l : option (PopPc * option (option WorkerEnvelope) * InboxLane) :=
  match pc with
  | PopIdle => Some (PopIdle, None, l)
  | PopCalled =>
      Some (if lane_head l =? lane_tail l then (PopIdle, Some None, l) else (PopSeen (lane_head l), None, l))
  | PopSeen head => '(e, l1) ← take_slot (slot_index head) l; Some (PopTaken e head, None, l1)
  | PopTaken e head =>
      Some (PopCounted e head, None, store_consumed (u64 (lane_consumed_bytes l + charged_bytes e)) l)
  | PopCounted e head => Some (PopIdle, Some (Some e), store_head (u64 (head + 1)) l)
  end.

(** ** One producer, one consumer, any number of closers *)

Record LaneSystem := mkLaneSystem {
  sys_lane : InboxLane;
  sys_push : PushPc;
  sys_pop : PopPc;
  sys_accepted : list WorkerEnvelope;  (** pushes that returned [Accepted], oldest first *)
  sys_taken : list WorkerEnvelope;     (** envelopes moved out of their slot *)
  sys_returned : list WorkerEnvelope   (** envelopes [tryPop] returned *)
}.
Implicit Types s : LaneSystem.

Definition freshLane (max_queued_bytes : Z) : LaneSystem :=
  mkLaneSystem (makeInboxLane max_queued_bytes) PushIdle PopIdle [] [] [].

Inductive LaneOp := CallPush (e : WorkerEnvelope) | RunPush | CallPop | RunPop | CloseLane.

Definition set_lane l s := mkLaneSystem l (sys_push s) (sys_pop s) (sys_accepted s) (sys_taken s) (sys_returned s).
Definition set_push pc s := mkLaneSystem (sys_lane s) pc (sys_pop s) (sys_accepted s) (sys_taken s) (sys_returned s).
Definition set_pop pc s := mkLaneSystem (sys_lane s) (sys_push s) pc (sys_accepted s) (sys_taken s) (sys_returned s).
Definition add_accepted q s := mkLaneSystem (sys_lane s) (sys_push s) (sys_pop s) (sys_accepted s ++ q) (sys_taken s) (sys_returned s).
Definition add_taken q s := mkLaneSystem (sys_lane s) (sys_push s) (sys_pop s) (sys_accepted s) (sys_taken s ++ q) (sys_returned s).
Definition add_returned q s := mkLaneSystem (sys_lane s) (sys_push s) (sys_pop s) (sys_accepted s) (sys_taken s) (sys_returned s ++ q).

(** What a producer access adds to the accepted envelopes, a consumer access
    to the taken and to the returned ones. *)
Definition accepted_by (pc : PushPc) : list WorkerEnvelope := match pc with PushCounted e _ => [e] | _ => [] end.
Definition taken_by (pc pc' : PopPc) : list WorkerEnvelope :=
  match pc, pc' with PopSeen _, PopTaken e _ => [e] | _, _ => [] end.
Definition returned_by (pc : PopPc) : list WorkerEnvelope := match pc with PopCounted e _ => [e] | _ => [] end.

(** A thread calls one method at a time: a call while another is under way is
    not an operation of the system. *)
Definition lane_step s (op : LaneOp) : option LaneSystem :=
  match op with
  | CallPush e => Some (match sys_push s with PushIdle => set_push (PushCalled e) s | _ => s end)
  | RunPush =>
      '(pc, _, l) ← push_access (sys_push s) (sys_lane s);
      Some (set_lane l (set_push pc (add_accepted (accepted_by (sys_push s)) s)))
  | CallPop => Some (match sys_pop s with PopIdle => set_pop PopCalled s | _ => s end)
  | RunPop =>
      '(pc, _, l) ← pop_access (sys_pop s) (sys_lane s);
      Some (set_lane l (set_pop pc (add_returned (returned_by (sys_pop s)) (add_taken (taken_by (sys_pop s) pc) s))))
  | CloseLane => Some (set_lane (lane_close (sys_lane s)) s)
  end.

Definition lane_run (ops : list LaneOp) s : option LaneSystem :=
  foldl (fun acc op => s ← acc; lane_step s op) (Some s) ops.

(** ** Invariant *)

Definition bytes (q : list WorkerEnvelope) : Z := zsum charged_bytes q.

(** The envelope a push is working on, from the moment its slot is claimed,
    written, counted. *)
Definition pushing (pc : PushPc) : list WorkerEnvelope :=
  match pc with
  | PushIdle => []
  | PushCalled e | PushOpen e | PushRoom e _ | PushFits e _ _ | PushBuilt e _ _ | PushCounted e _ => [e]
  end.
Definition claimed (pc : PushPc) : list WorkerEnvelope :=
  match pc with PushRoom e _ | PushFits e _ _ | PushBuilt e _ _ | PushCounted e _ => [e] | _ => [] end.
Definition admitted (pc : PushPc) : list WorkerEnvelope :=
  match pc with PushFits e _ _ | PushBuilt e _ _ | PushCounted e _ => [e] | _ => [] end.
Definition written (pc : PushPc) : option WorkerEnvelope :=
  match pc with PushBuilt e _ _ | PushCounted e _ => Some e | _ => None end.
Definition counted (pc : PushPc) : list WorkerEnvelope := match pc with PushCounted e _ => [e] | _ => [] end.
Definition in_flight (pc : PopPc) : list WorkerEnvelope :=
  match pc with PopTaken e _ | PopCounted e _ => [e] | _ => [] end.

Definition push_locals (pc : PushPc) l : Prop :=
  match pc with
  | PushRoom _ t | PushCounted _ t => t = lane_tail l
  | PushFits _ t p | PushBuilt _ t p => t = lane_tail l ∧ p = lane_produced_bytes l
  | _ => True
  end.
Definition pop_locals (pc : PopPc) s : Prop :=
  match pc with
  | PopSeen h => h = lane_head (sys_lane s) ∧ (length (sys_returned s) < length (sys_accepted s))%nat
  | PopTaken _ h | PopCounted _ h => h = lane_head (sys_lane s)
  | _ => True
  end.

(** What position [i] of the stream of accepted envelopes holds. *)
Definition cell s (i : nat) : option WorkerEnvelope :=
  if decide (length (sys_taken s) ≤ i < length (sys_accepted s))%nat then sys_accepted s !! i
  else if decide (i = length (sys_accepted s)) then written (sys_push s) else None.

Record lane_ok (max : Z) s : Prop := {
  lo_max : lane_max_queued_bytes (sys_lane s) = max;
  lo_tail : lane_tail (sys_lane s) = u64 (zlen (sys_accepted s));
  lo_head : lane_head (sys_lane s) = u64 (zlen (sys_returned s));
  lo_prefix : sys_taken s `prefix_of` sys_accepted s;
  lo_flight : sys_taken s = sys_returned s ++ in_flight (sys_pop s);
  lo_room : (length (sys_accepted s) + length (claimed (sys_push s)) ≤ length (sys_returned s) + 1024)%nat;
  lo_length : length (lane_slots (sys_lane s)) = 1024%nat;
  lo_slots : ∀ i, (length (sys_returned s) ≤ i < length (sys_returned s) + 1024)%nat →
             lane_slots (sys_lane s) !! (i mod 1024)%nat = Some (cell s i);
  lo_produced : lane_produced_bytes (sys_lane s) = bytes (sys_accepted s ++ counted (sys_push s));
  lo_consumed : lane_consumed_bytes (sys_lane s) = bytes (sys_returned s ++ returned_by (sys_pop s));
  lo_push : push_locals (sys_push s) (sys_lane s);
  lo_pop : pop_locals (sys_pop s) s;
  lo_charges : Forall (fun e => 0 <= charged_bytes e) (sys_accepted s ++ pushing (sys_push s));
  lo_total : bytes (sys_accepted s ++ pushing (sys_push s)) <= U64_MAX;
  lo_bytes : 0 <= max ∧ bytes (sys_accepted s ++ admitted (sys_push s)) - bytes (sys_taken s) <= max
}.

(** ** Positions and bytes *)

Lemma slot_index_u64 (n : nat) : slot_index (u64 (Z.of_nat n)) = (n mod 1024)%nat.
Proof.
  unfold slot_index. change (CAPACITY - 1) with (Z.ones 10). rewrite Z.land_ones by lia.
  unfold u64. change (2 ^ 10) with 1024. rewrite Z.mod_mod_divide by (by exists 18014398509481984).
  change 1024 with (Z.of_nat 1024). rewrite <-Nat2Z.inj_mod. apply Nat2Z.id.
Qed.

Lemma window_inj (h i j : nat) :
  (h ≤ i < h + 1024)%nat → (h ≤ j < h + 1024)%nat → (i mod 1024 = j mod 1024)%nat → i = j.
Proof. intros. pose proof (Nat.div_mod_eq i 1024). pose proof (Nat.div_mod_eq j 1024). lia. Qed.

Lemma u64_sub_lengths (a b : nat) : (b ≤ a ≤ b + 1024)%nat → u64 (u64 (Z.of_nat a) - u64 (Z.of_nat b)) = Z.of_nat a - Z.of_nat b.
Proof. intros. unfold u64. rewrite <-Zminus_mod. apply Z.mod_small. lia. Qed.

Lemma u64_lengths_eq (a b : nat) : (b ≤ a ≤ b + 1024)%nat → u64 (Z.of_nat b) = u64 (Z.of_nat a) ↔ a = b.
Proof. intros. unfold u64. split; [|by intros ->]. intros. div_lia. Qed.

Lemma u64_succ_length (a : nat) : u64 (u64 (Z.of_nat a) + 1) = u64 (Z.of_nat (S a)).
Proof. unfold u64. rewrite Zplus_mod_idemp_l. f_equal. lia. Qed.

Lemma bytes_app q q' : bytes (q ++ q') = bytes q + bytes q'.
Proof. apply zsum_app. Qed.

Lemma bytes_single e : bytes [e] = charged_bytes e.
Proof. unfold bytes; simpl; lia. Qed.

Lemma bytes_nonneg q : Forall (fun e => 0 <= charged_bytes e) q → 0 <= bytes q.
Proof. apply zsum_nonneg. Qed.

Lemma bytes_prefix q q' : Forall (fun e => 0 <= charged_bytes e) q' → q `prefix_of` q' → 0 <= bytes q <= bytes q'.
Proof.
  intros Hq [k ->]. apply Forall_app in Hq as [Hq Hk]. rewrite bytes_app.
  pose proof (bytes_nonneg q Hq). pose proof (bytes_nonneg k Hk). lia.
Qed.

(** ** Consequences of the invariant *)

Section invariant.
Context {max : Z} {s : LaneSystem} (Hok : lane_ok max s).

Lemma ok_charges : Forall (fun e => 0 <= charged_bytes e) (sys_accepted s).
Proof. by pose proof (lo_charges _ _ Hok) as [H _]%Forall_app. Qed.

Lemma ok_lengths :
  (length (sys_returned s) ≤ length (sys_taken s) ≤ length (sys_accepted s)
   ∧ length (sys_taken s) = length (sys_returned s) + length (in_flight (sys_pop s)))%nat.
Proof.
  pose proof (prefix_length _ _ (lo_prefix _ _ Hok)) as Hp.
  rewrite (lo_flight _ _ Hok), length_app in *. lia.
Qed.

Lemma ok_distance :
  u64 (lane_tail (sys_lane s) - lane_head (sys_lane s)) = zlen (sys_accepted s) - zlen (sys_returned s).
Proof.
  rewrite (lo_tail _ _ Hok), (lo_head _ _ Hok). apply u64_sub_lengths.
  pose proof ok_lengths. pose proof (lo_room _ _ Hok). lia.
Qed.

Lemma ok_isEmpty : lane_isEmpty (sys_lane s) = true ↔ length (sys_accepted s) = length (sys_returned s).
Proof.
  unfold lane_isEmpty. rewrite Z.eqb_eq, (lo_tail _ _ Hok), (lo_head _ _ Hok). apply u64_lengths_eq.
  pose proof ok_lengths. pose proof (lo_room _ _ Hok). lia.
Qed.

(** The bytes the producer computes are never below those in the lane. *)
Lemma ok_approximate :
  counted (sys_push s) = [] →
  bytes (sys_accepted s) - bytes (sys_taken s) <= approximateQueuedBytes (sys_lane s) <= bytes (sys_accepted s).
Proof.
  intros Hc. unfold approximateQueuedBytes.
  rewrite (lo_produced _ _ Hok), (lo_consumed _ _ Hok), Hc, app_nil_r.
  assert (Hpre : sys_returned s ++ returned_by (sys_pop s) `prefix_of` sys_taken s).
  { rewrite (lo_flight _ _ Hok). apply prefix_app. by destruct (sys_pop s); try apply prefix_nil. }
  assert (Htaken : Forall (fun e => 0 <= charged_bytes e) (sys_taken s)).
  { destruct (lo_prefix _ _ Hok) as [k Hk]. pose proof ok_charges as H. rewrite Hk in H. by apply Forall_app in H as [H _]. }
  pose proof (bytes_prefix _ _ Htaken Hpre). pose proof (bytes_prefix _ _ ok_charges (lo_prefix _ _ Hok)).
  split_if; to_prop; lia.
Qed.
End invariant.

(** ** Preservation *)

Ltac sys_fields :=
  cbn [set_lane set_push set_pop add_accepted add_taken add_returned store_slot store_produced store_tail store_consumed
       store_head sys_lane sys_push sys_pop sys_accepted sys_taken sys_returned lane_max_queued_bytes lane_closed
       lane_tail lane_produced_bytes lane_head lane_consumed_bytes lane_slots pushing claimed admitted written counted
       in_flight returned_by push_locals pop_locals accepted_by taken_by length] in *.

Lemma add_accepted_nil s : add_accepted [] s = s.
Proof. destruct s. unfold add_accepted. simpl. by rewrite app_nil_r. Qed.
Lemma add_taken_nil s : add_taken [] s = s.
Proof. destruct s. unfold add_taken. simpl. by rewrite app_nil_r. Qed.
Lemma add_returned_nil s : add_returned [] s = s.
Proof. destruct s. unfold add_returned. simpl. by rewrite app_nil_r. Qed.
Lemma set_push_same_lane pc s : set_lane (sys_lane s) (set_push pc s) = set_push pc s.
Proof. by destruct s. Qed.
Lemma set_pop_same_lane pc s : set_lane (sys_lane s) (set_pop pc s) = set_pop pc s.
Proof. by destruct s. Qed.

Lemma freshLane_ok max : 0 <= max → lane_ok max (freshLane max).
Proof.
  intros Hmax. constructor; try done; try (apply length_replicate); [cbn; lia|].
  intros i Hi. change (lane_slots (sys_lane (freshLane max))) with (replicate 1024 (None (A:=WorkerEnvelope))).
  rewrite lookup_replicate_2 by (apply Nat.mod_upper_bound; lia). unfold cell. cbn. by repeat case_decide.
Qed.

(** The producer moves on without touching the lane. *)
Lemma ok_set_push max s pc :
  lane_ok max s → written pc = written (sys_push s) → counted pc = counted (sys_push s) →
  (length (sys_accepted s) + length (claimed pc) ≤ length (sys_returned s) + 1024)%nat →
  push_locals pc (sys_lane s) → Forall (fun e => 0 <= charged_bytes e) (pushing pc) →
  bytes (sys_accepted s ++ pushing pc) <= U64_MAX →
  bytes (sys_accepted s ++ admitted pc) - bytes (sys_taken s) <= max → lane_ok max (set_push pc s).
Proof.
  intros Hok Hw Hc Hroom Hloc Hch Htot Hb. pose proof (ok_charges Hok). destruct Hok.
  constructor; sys_fields; try done; [|by rewrite Hc|by apply Forall_app|tauto].
  intros i Hi. rewrite (lo_slots0 i Hi). unfold cell. sys_fields. by rewrite Hw.
Qed.

(** A slot of the window is written; the others keep what they hold. *)
Lemma slots_insert l (h i : nat) (o : option WorkerEnvelope) (f g : nat → option WorkerEnvelope) :
  length (lane_slots l) = 1024%nat → (h ≤ i < h + 1024)%nat →
  (∀ j, (h ≤ j < h + 1024)%nat → lane_slots l !! (j mod 1024)%nat = Some (f j)) →
  g i = o → (∀ j, j ≠ i → g j = f j) →
  ∀ j, (h ≤ j < h + 1024)%nat → <[(i mod 1024)%nat := o]> (lane_slots l) !! (j mod 1024)%nat = Some (g j).
Proof.
  intros Hlen Hi Hf Hgi Hg j Hj. destruct (decide (j = i)) as [->|Hne].
  - rewrite list_lookup_insert_eq; [by rewrite Hgi|]. rewrite Hlen. apply Nat.mod_upper_bound. lia.
  - rewrite list_lookup_insert_ne; [by rewrite Hf, Hg|]. intros Heq. by apply Hne, (window_inj h).
Qed.

(** The three accesses of the producer that write. *)
Lemma ok_construct max s e t p :
  lane_ok max s → sys_push s = PushFits e t p →
  ∃ l, construct_slot (slot_index t) e (sys_lane s) = Some l ∧ lane_ok max (set_lane l (set_push (PushBuilt e t p) s)).
Proof.
  intros Hok Hp. pose proof (ok_lengths Hok) as [Hlen _]. destruct Hok. rewrite Hp in *. sys_fields.
  destruct lo_push0 as [-> ->]. rewrite lo_tail0. unfold zlen. rewrite slot_index_u64. unfold construct_slot.
  rewrite lo_slots0 by lia. unfold cell at 1. rewrite decide_False by lia. rewrite decide_True, Hp by done.
  eexists. split; [done|]. constructor; sys_fields; rewrite ?length_insert; try done.
  apply (slots_insert _ _ _ _ (cell s)); try done; [lia|..].
  - unfold cell. sys_fields. by rewrite decide_False, decide_True by lia.
  - intros j Hj. unfold cell. sys_fields. rewrite Hp. repeat case_decide; done.
Qed.

Lemma ok_count max s e t p :
  lane_ok max s → sys_push s = PushBuilt e t p →
  lane_ok max (set_lane (store_produced (u64 (p + charged_bytes e)) (sys_lane s)) (set_push (PushCounted e t) s)).
Proof.
  intros Hok Hp. pose proof (bytes_nonneg _ (ok_charges Hok)). destruct Hok. rewrite Hp in *. sys_fields. destruct lo_push0 as [-> Hprod].
  assert (0 <= charged_bytes e) by (pose proof lo_charges0 as [_ Hc]%Forall_app; by inversion Hc).
  constructor; sys_fields; try done.
  - intros i Hi. rewrite lo_slots0 by done. unfold cell. sys_fields. by rewrite Hp.
  - rewrite Hprod, lo_produced0. rewrite !bytes_app, ?bytes_single in *. change (bytes []) with 0. rewrite Z.add_0_r.
    rewrite u64_small; [done|]. lia.
Qed.

Lemma ok_publish max s e t :
  lane_ok max s → sys_push s = PushCounted e t →
  lane_ok max (set_lane (store_tail (u64 (t + 1)) (sys_lane s)) (set_push PushIdle (add_accepted [e] s))).
Proof.
  intros Hok Hp. pose proof (ok_lengths Hok) as [Hlen _]. destruct Hok. rewrite Hp in *. sys_fields. subst t.
  constructor; sys_fields; rewrite ?length_app, ?app_nil_r; simpl length; try done; try lia.
  - rewrite lo_tail0. unfold zlen. rewrite u64_succ_length, length_app. simpl. do 2 f_equal. lia.
  - by apply prefix_app_r.
  - intros i Hi. rewrite lo_slots0 by done. unfold cell. sys_fields. rewrite Hp, length_app. simpl length. f_equal.
    repeat case_decide; try lia; try done.
    + by rewrite lookup_app_l by lia.
    + subst i. by rewrite lookup_app_r, Nat.sub_diag by lia.
  - destruct (sys_pop s); sys_fields; try done. rewrite length_app. simpl length. lia.
Qed.

Lemma ok_run_push max s :
  lane_ok max s → ∃ s', lane_step s RunPush = Some s' ∧ lane_ok max s'
    ∧ bytes (sys_accepted s' ++ pushing (sys_push s')) <= bytes (sys_accepted s ++ pushing (sys_push s)).
Proof.
  intros Hok. pose proof (ok_lengths Hok) as [Hlen Hfl]. pose proof (ok_charges Hok) as Hch.
  pose proof (lo_charges _ _ Hok) as [_ Hpc]%Forall_app. pose proof (bytes_nonneg _ Hpc).
  pose proof (lo_total _ _ Hok) as Htot. pose proof (lo_room _ _ Hok) as Hroom.
  pose proof (lo_push _ _ Hok) as Hloc. pose proof (lo_bytes _ _ Hok) as [Hmax Hb].
  assert (Hquiet : ∀ pc, written pc = written (sys_push s) → counted pc = counted (sys_push s) →
    (length (sys_accepted s) + length (claimed pc) ≤ length (sys_returned s) + 1024)%nat → push_locals pc (sys_lane s) →
    pushing pc = pushing (sys_push s) ∨ pushing pc = [] →
    bytes (sys_accepted s ++ admitted pc) - bytes (sys_taken s) <= max → ∃ s', Some (set_push pc s) = Some s' ∧ lane_ok max s'
    ∧ bytes (sys_accepted s' ++ pushing (sys_push s')) <= bytes (sys_accepted s ++ pushing (sys_push s))).
  { intros pc Hw Hc Hr Hl Hp Hbb. eexists. split; [done|]. sys_fields.
    assert (Hle : bytes (sys_accepted s ++ pushing pc) <= bytes (sys_accepted s ++ pushing (sys_push s))).
    { destruct Hp as [-> | ->]; rewrite !bytes_app; [lia|]. change (bytes []) with 0. lia. }
    split; [|done]. apply ok_set_push; try done; [|lia]. by destruct Hp as [-> | ->]. }
  unfold lane_step. destruct (sys_push s) as [|e|e|e t|e t p|e t p|e t] eqn:Hpush; simpl push_access; sys_fields.
  5: { destruct (ok_construct _ _ _ _ _ Hok Hpush) as (l & -> & Hok'). eexists. split; [done|]. rewrite add_accepted_nil. split; [done|]. done. }
  5: { eexists. split; [done|]. rewrite add_accepted_nil. split; [by apply (ok_count _ _ _ _ p)|]. done. }
  5: { eexists. split; [done|]. split; [by apply ok_publish|]. sys_fields. by rewrite app_nil_r. }
  all: rewrite add_accepted_nil, ?app_nil_r in *.
  all: try split_if; cbn [mbind option_bind]; rewrite set_push_same_lane; apply Hquiet; sys_fields; rewrite ?app_nil_r; try done; try lia; auto.
  - rewrite (ok_distance Hok) in *. unfold zlen in *. to_prop. lia.
  - to_prop. rewrite (lo_max _ _ Hok) in *. pose proof (ok_approximate Hok) as Ha. rewrite Hpush in Ha. specialize (Ha eq_refl).
    rewrite bytes_app, bytes_single in *. pose proof (bytes_prefix _ _ Hch (lo_prefix _ _ Hok)). rewrite u64_small in *; lia.
Qed.

(** The consumer moves on without touching the lane. *)
Lemma ok_set_pop max s pc :
  lane_ok max s → in_flight pc = [] → in_flight (sys_pop s) = [] → returned_by pc = returned_by (sys_pop s) →
  pop_locals pc s → lane_ok max (set_pop pc s).
Proof.
  intros Hok Hf Hf' Hr Hl. destruct Hok. constructor; sys_fields; try done; try (by rewrite ?Hf, ?Hf', ?Hr in *).
Qed.

(** The three accesses of the consumer that write. *)
Lemma ok_take max s h :
  lane_ok max s → sys_pop s = PopSeen h →
  ∃ e l, take_slot (slot_index h) (sys_lane s) = Some (e, l)
    ∧ lane_ok max (set_lane l (set_pop (PopTaken e h) (add_taken [e] s))).
Proof.
  intros Hok Hp. pose proof (ok_lengths Hok) as [Hlen _]. pose proof (ok_charges Hok) as Hch. destruct Hok. rewrite Hp in *. sys_fields.
  destruct lo_pop0 as [-> Hlt]. rewrite app_nil_r in lo_flight0. rewrite lo_head0. unfold zlen. rewrite slot_index_u64. unfold take_slot.
  rewrite lo_slots0 by lia. unfold cell at 1. rewrite lo_flight0. rewrite decide_True by lia.
  destruct (lookup_lt_is_Some_2 (sys_accepted s) (length (sys_returned s)) Hlt) as [e He]. rewrite He.
  eexists e, _. split; [done|]. rewrite lo_flight0 in *.
  assert (Hpre : sys_returned s ++ [e] `prefix_of` sys_accepted s).
  { destruct lo_prefix0 as [k Hk]. rewrite Hk in *. rewrite lookup_app_r, Nat.sub_diag in He by lia.
    destruct k as [|x k]; [done|]. simpl in He. injection He as ->. exists k. by rewrite <-app_assoc. }
  assert (0 <= charged_bytes e) by (rewrite Forall_lookup in Hch; by eapply Hch).
  constructor; sys_fields; rewrite ?length_insert, ?lo_flight0; try done.
  - apply (slots_insert _ _ _ _ (cell s)); try done; [lia|..].
    + unfold cell. sys_fields. rewrite lo_flight0, length_app. simpl length. rewrite decide_False, decide_False by lia. done.
    + intros j Hj. unfold cell. sys_fields. rewrite lo_flight0, length_app. simpl length. repeat case_decide; try lia; done.
  - rewrite !bytes_app, bytes_single in *. lia.
Qed.

Lemma ok_consume max s e h :
  lane_ok max s → sys_pop s = PopTaken e h →
  lane_ok max (set_lane (store_consumed (u64 (lane_consumed_bytes (sys_lane s) + charged_bytes e)) (sys_lane s))
                (set_pop (PopCounted e h) s)).
Proof.
  intros Hok Hp. pose proof (ok_charges Hok) as Hch. pose proof (bytes_prefix _ _ Hch (lo_prefix _ _ Hok)) as Hpre.
  pose proof (lo_charges _ _ Hok) as [_ Hpush]%Forall_app. pose proof (bytes_nonneg _ Hpush).
  destruct Hok. rewrite Hp in *. sys_fields.
  assert (0 <= bytes (sys_returned s) ∧ 0 <= charged_bytes e) as [??].
  { rewrite lo_flight0 in lo_prefix0. destruct lo_prefix0 as [k Hk]. rewrite Hk, !Forall_app in Hch.
    destruct Hch as [[Hr He] _]. split; [by apply bytes_nonneg|]. by inversion He. }
  constructor; sys_fields; try done.
  rewrite lo_consumed0, app_nil_r, bytes_app, bytes_single. apply u64_small.
  rewrite lo_flight0, !bytes_app, bytes_single in *. lia.
Qed.

Lemma ok_retire max s e h :
  lane_ok max s → sys_pop s = PopCounted e h →
  lane_ok max (set_lane (store_head (u64 (h + 1)) (sys_lane s)) (set_pop PopIdle (add_returned [e] s))).
Proof.
  intros Hok Hp. pose proof (ok_lengths Hok) as [Hlen Hfl]. destruct Hok. rewrite Hp in *. sys_fields. subst h.
  constructor; sys_fields; rewrite ?length_app, ?app_nil_r; simpl length; try done; try lia.
  - rewrite lo_head0. unfold zlen. rewrite u64_succ_length, length_app. simpl. do 2 f_equal. lia.
  - intros i Hi. change (cell _ i) with (cell s i). destruct (decide (i = length (sys_returned s) + 1024)%nat) as [->|].
    + assert (Hmod : ((length (sys_returned s) + 1024) mod 1024 = length (sys_returned s) mod 1024)%nat).
      { replace (length (sys_returned s) + 1024)%nat with (length (sys_returned s) + 1 * 1024)%nat by lia. by rewrite Nat.Div0.mod_add. }
      rewrite Hmod, lo_slots0 by lia. f_equal. unfold cell. repeat case_decide; try lia; try done.
      destruct (sys_push s); sys_fields; try done; lia.
    + apply lo_slots0. lia.
Qed.

Lemma ok_run_pop max s :
  lane_ok max s → ∃ s', lane_step s RunPop = Some s' ∧ lane_ok max s'
    ∧ sys_accepted s' = sys_accepted s ∧ sys_push s' = sys_push s.
Proof.
  intros Hok. unfold lane_step. destruct (sys_pop s) as [| |h|e h|e h] eqn:Hpop; simpl pop_access; sys_fields.
  - rewrite add_taken_nil, add_returned_nil. cbn [mbind option_bind]. rewrite set_pop_same_lane. eexists. split; [done|].
    split; [|done]. apply ok_set_pop; rewrite ?Hpop; done.
  - rewrite add_returned_nil. split_if; cbn [mbind option_bind]; sys_fields; rewrite add_taken_nil, set_pop_same_lane.
    all: eexists; split; [done|]; split; [|done]; apply ok_set_pop; rewrite ?Hpop; try done.
    split; [done|]. pose proof (ok_isEmpty Hok) as He. unfold lane_isEmpty in He. pose proof (ok_lengths Hok).
    destruct (decide (length (sys_accepted s) = length (sys_returned s))) as [Heq|]; [|lia].
    apply He in Heq. congruence.
  - destruct (ok_take _ _ _ Hok Hpop) as (e & l & -> & Hok'). cbn [mbind option_bind]. eexists. split; [done|].
    rewrite add_returned_nil. by split.
  - rewrite add_returned_nil. cbn [mbind option_bind]. sys_fields. rewrite add_taken_nil. eexists. split; [done|].
    split; [by apply ok_consume|done].
  - cbn [mbind option_bind]. sys_fields. rewrite add_taken_nil. eexists. split; [done|]. split; [by apply ok_retire|done].
Qed.

(** ** Every interleaving *)

(** The bytes of the pushes of a schedule. *)
Definition op_bytes (op : LaneOp) : Z := match op with CallPush e => charged_bytes e | _ => 0 end.
Definition offered (ops : list LaneOp) : Z := zsum op_bytes ops.
Definition charges_ok (op : LaneOp) : Prop :=
  match op with CallPush e => in_u32 (charged_bytes e) | _ => True end.

Definition spent s : Z := bytes (sys_accepted s ++ pushing (sys_push s)).

Lemma ok_step max s op :
  lane_ok max s → charges_ok op → spent s + op_bytes op <= U64_MAX →
  ∃ s', lane_step s op = Some s' ∧ lane_ok max s' ∧ spent s' <= spent s + op_bytes op.
Proof.
  intros Hok Hop Htot. unfold spent in *. destruct op as [e| | | |]; cbn [op_bytes charges_ok] in *.
  - unfold lane_step. eexists. split; [done|]. destruct (sys_push s) eqn:Hp; [|split; [done|rewrite Hp; lia]..].
    rewrite app_nil_r in Htot. split.
    + apply ok_set_push; rewrite ?Hp; try done; sys_fields.
      * pose proof (lo_room _ _ Hok) as H. rewrite Hp in H. exact H.
      * constructor; [lia|done].
      * rewrite bytes_app, bytes_single. lia.
      * pose proof (lo_bytes _ _ Hok) as [_ H]. by rewrite Hp in H.
    + sys_fields. rewrite app_nil_r, bytes_app, bytes_single. lia.
  - destruct (ok_run_push _ _ Hok) as (s' & ? & ? & ?). exists s'. split_and!; [done|done|lia].
  - unfold lane_step. eexists. split; [done|]. destruct (sys_pop s) eqn:Hp; [|split; [done|lia]..].
    split; [apply ok_set_pop; by rewrite ?Hp|sys_fields; lia].
  - destruct (ok_run_pop _ _ Hok) as (s' & ? & ? & Ha & Hp). exists s'. rewrite Ha, Hp. split_and!; [done|done|lia].
  - unfold lane_step. eexists. split; [done|]. split; [|sys_fields; lia]. destruct Hok. by constructor.
Qed.

Lemma lane_run_cons op ops s s' : lane_step s op = Some s' → lane_run (op :: ops) s = lane_run ops s'.
Proof. intros Hs. unfold lane_run. simpl. by rewrite Hs. Qed.

Lemma ok_run max ops s :
  lane_ok max s → Forall charges_ok ops → spent s + offered ops <= U64_MAX →
  ∃ s', lane_run ops s = Some s' ∧ lane_ok max s'.
Proof.
  intros Hok Hops. revert s Hok. induction Hops as [|op ops Hop Hops IH]; intros s Hok Htot; [by exists s|].
  assert (Hnn : 0 <= offered ops).
  { apply zsum_nonneg. eapply Forall_impl; [exact Hops|]. intros []; simpl; intros; lia. }
  change (offered (op :: ops)) with (op_bytes op + offered ops) in Htot.
  destruct (ok_step max s op Hok Hop) as (s1 & Hs1 & Hok1 & Hle1); [lia|].
  rewrite (lane_run_cons _ _ _ _ Hs1). apply IH; [done|lia].
Qed.

(** ** Whole calls

    A lane between calls holds a list of envelopes; the methods as the functions
    above act on that list. *)

Definition lane_repr max l (q : list WorkerEnvelope) : Prop :=
  ∃ done_, lane_ok max (mkLaneSystem l PushIdle PopIdle (done_ ++ q) done_ done_).

Lemma makeInboxLane_repr max : 0 <= max → lane_repr max (makeInboxLane max) [].
Proof. intros Hmax. exists []. by apply freshLane_ok. Qed.

Lemma lane_isEmpty_repr max l q : lane_repr max l q → lane_isEmpty l = bool_decide (q = []).
Proof.
  intros [d Hok]. pose proof (ok_isEmpty Hok) as He. sys_fields. rewrite length_app in He.
  apply eq_bool_prop_intro. rewrite <-!Is_true_true in He. rewrite bool_decide_spec, He. destruct q; simpl; split; (done || lia).
Qed.

Lemma lane_tryPop_repr max l q :
  lane_repr max l q →
  ∃ l', lane_tryPop l = Some (list.head q, l') ∧ lane_repr max l' (list.tail q)
    ∧ lane_closed l' = lane_closed l.
Proof.
  intros Hrep. pose proof (lane_isEmpty_repr _ _ _ Hrep) as He. unfold lane_isEmpty in He. destruct Hrep as [d Hok].
  unfold lane_tryPop. rewrite He. destruct q as [|e q]; [rewrite bool_decide_true by done; exists l; split_and!; [done|by exists d|done]|].
  rewrite bool_decide_false by done.
  assert (Hseen : lane_ok max (set_pop (PopSeen (lane_head l)) (mkLaneSystem l PushIdle PopIdle (d ++ e :: q) d d))).
  { apply ok_set_pop; try done. sys_fields. split; [done|]. rewrite length_app. simpl. lia. }
  destruct (ok_take _ _ _ Hseen eq_refl) as (e' & l1 & Htake & Hok1). cbn [set_pop sys_lane] in Htake. rewrite Htake.
  cbn [mbind option_bind].
  assert (e' = e) as ->.
  { pose proof (lo_prefix _ _ Hok1) as Hp. sys_fields. apply prefix_app_inv in Hp. by apply prefix_cons_inv_1 in Hp. }
  pose proof (ok_retire _ _ _ _ (ok_consume _ _ _ _ Hok1 eq_refl) eq_refl) as Hok2. sys_fields.
  assert (Hl1 : lane_consumed_bytes l1 = lane_consumed_bytes l ∧ lane_closed l1 = lane_closed l).
  { unfold take_slot in Htake. destruct (lane_slots l !! _) as [[?|]|]; try done. by injection Htake as <- <-. }
  destruct Hl1 as [Hc Hcl]. eexists. split; [done|]. split; [|done]. exists (d ++ [e]). rewrite <-app_assoc. rewrite Hc in Hok2. exact Hok2.
Qed.

(** A push is refused exactly when the lane is closed, full or the envelope
    does not fit its bytes. *)
Lemma lane_tryPush_repr max l q e :
  lane_repr max l q → in_u32 (charged_bytes e) → lane_produced_bytes l + charged_bytes e <= U64_MAX →
  if lane_closed l then lane_tryPush e l = Some (PushClosed, l)
  else if (CAPACITY <=? zlen q) || (max <? bytes q + charged_bytes e) then lane_tryPush e l = Some (PushFull, l)
  else ∃ l', lane_tryPush e l = Some (PushAccepted, l') ∧ lane_repr max l' (q ++ [e]) ∧ lane_closed l' = false.
Proof.
  intros [d Hok] He Htot. unfold lane_tryPush. destruct (lane_closed l) eqn:Hcl; [done|].
  pose proof (ok_distance Hok) as Hd. pose proof (lo_room _ _ Hok) as Hroom.
  pose proof (ok_charges Hok) as Hch. pose proof (lo_max _ _ Hok) as Hmax. pose proof (lo_bytes _ _ Hok) as [Hm Hb].
  pose proof (lo_produced _ _ Hok) as Hprod. pose proof (lo_consumed _ _ Hok) as Hcons. sys_fields. rewrite Hmax.
  rewrite !app_nil_r, ?bytes_app, ?length_app in *.
  apply Forall_app in Hch as [Hcd Hcq]. pose proof (bytes_nonneg _ Hcd). pose proof (bytes_nonneg _ Hcq).
  assert (Happ : approximateQueuedBytes l = bytes q) by (unfold approximateQueuedBytes; rewrite Hprod, Hcons; split_if; to_prop; lia).
  rewrite Hd, Happ. unfold zlen in *. rewrite length_app. rewrite u64_small by lia.
  replace (Z.of_nat (length d + length q) - Z.of_nat (length d)) with (Z.of_nat (length q)) by lia.
  destruct (CAPACITY <=? Z.of_nat (length q)) eqn:Hf; [done|]. destruct (max <? _) eqn:Hbb; [done|]. to_prop. simpl orb. cbv iota.
  assert (Hfits : lane_ok max (set_push (PushFits e (lane_tail l) (lane_produced_bytes l)) (mkLaneSystem l PushIdle PopIdle (d ++ q) d d))).
  { apply ok_set_push; try done; sys_fields; rewrite ?length_app, ?bytes_app, ?bytes_single; try lia.
    constructor; [lia|done]. }
  destruct (ok_construct _ _ _ _ _ Hfits eq_refl) as (l1 & Hcs & Hok1). cbn [set_push sys_lane] in Hcs. rewrite Hcs. cbn [mbind option_bind].
  pose proof (ok_publish _ _ _ _ (ok_count _ _ _ _ _ Hok1 eq_refl) eq_refl) as Hok2. sys_fields.
  eexists. split; [done|]. split; [exists d; rewrite app_assoc; exact Hok2|].
  unfold construct_slot in Hcs. destruct (lane_slots l !! _) as [[?|]|]; try done. by injection Hcs as <-.
Qed.
End lane.

Arguments WorkerEnvelope E : clear implicits.
Arguments InboxLane E : clear implicits.
Arguments LaneSystem E : clear implicits.
Arguments LaneOp E : clear implicits.

(** C10: The lane between two workers is a bounded FIFO queue under every
    interleaving of the loads and stores of producer, consumer and closers: no
    slot is written while it holds an envelope or read while it holds none, what
    [tryPop] returns are the accepted envelopes in their order without loss or
    duplicate, at most 1024 envelopes are ahead of the consumer, the envelopes in
    the lane never exceed the byte limit, and with both threads at rest [isEmpty]
    tells exactly whether everything accepted was returned.  (Positions may wrap
    around; the bytes offered over the life of the lane stay below 2^64.) *)
Theorem lane_fifo {E} (max : Z) (ops : list (LaneOp E)) :
  0 <= max → Forall charges_ok ops → offered ops <= U64_MAX →
  ∃ s, lane_run ops (freshLane max) = Some s
    ∧ sys_returned s `prefix_of` sys_taken s ∧ sys_taken s `prefix_of` sys_accepted s
    ∧ zlen (sys_accepted s) <= zlen (sys_returned s) + CAPACITY
    ∧ bytes (sys_accepted s) - bytes (sys_taken s) <= max
    ∧ (sys_pop s = PopIdle → sys_taken s = sys_returned s)
    ∧ (sys_pop s = PopIdle → lane_isEmpty (sys_lane s) = true ↔ sys_returned s = sys_accepted s).
Proof.
  intros Hmax Hops Htot. destruct (ok_run max ops (freshLane max)) as (s & Hrun & Hok); [by apply freshLane_ok|done|done|].
  exists s. split; [done|]. pose proof (ok_lengths Hok) as [Hlen _]. pose proof (lo_flight _ _ Hok) as Hfl.
  assert (Hidle : sys_pop s = PopIdle → sys_taken s = sys_returned s) by (intros Hp; by rewrite Hfl, Hp, app_nil_r).
  split_and!; [rewrite Hfl; by apply prefix_app_r|by apply (lo_prefix _ _ Hok)|..].
  - pose proof (lo_room _ _ Hok). unfold zlen. lia.
  - pose proof (lo_bytes _ _ Hok) as [_ Hb]. pose proof (lo_charges _ _ Hok) as [_ Hc]%Forall_app. rewrite bytes_app in Hb.
    enough (0 <= bytes (admitted (sys_push s))) by lia. apply bytes_nonneg. by destruct (sys_push s).
  - done.
  - intros Hp. rewrite (ok_isEmpty Hok). split; [|by intros ->]. intros Hl. rewrite <-(Hidle Hp).
    apply prefix_length_eq; [apply (lo_prefix _ _ Hok)|]. rewrite (Hidle Hp). lia.
Qed.

(** A push and a pop overlap: the consumer finds the lane empty until the
    producer has stored [tail]. *)
Definition lane_sample : list (LaneOp Z) :=
  [CallPush (mkWorkerEnvelope 7 10); RunPush; RunPush; RunPush; RunPush; CallPop; RunPop; RunPush; CallPop; RunPop;
   RunPush; CallPop; RunPop; RunPop; CloseLane; RunPop; RunPop].

Lemma lane_fifo_witness :
  (0 <= 64 ∧ offered lane_sample <= U64_MAX)
  ∧ ∃ s, lane_run lane_sample (freshLane 64) = Some s
    ∧ sys_returned s `prefix_of` sys_taken s ∧ sys_taken s `prefix_of` sys_accepted s
    ∧ zlen (sys_accepted s) <= zlen (sys_returned s) + CAPACITY
    ∧ bytes (sys_accepted s) - bytes (sys_taken s) <= 64
    ∧ (sys_pop s = PopIdle → sys_taken s = sys_returned s)
    ∧ (sys_pop s = PopIdle → lane_isEmpty (sys_lane s) = true ↔ sys_returned s = sys_accepted s).
Proof.
  split; [vm_compute; split; discriminate|]. apply (lane_fifo 64 lane_sample); [lia| |vm_compute; discriminate].
  repeat constructor; simpl; lia.
Defined.
