(* ===== verification/Barrier.v ===== *)
(** * Quiescence barrier

    The atomic word by which the workers of a group agree that none of them has
    work left ([WorkerQuiescenceBarrier] of [src/include/snf/worker/barrier.hpp],
    [src/src/worker/barrier.cpp]): a bit per worker, a publication epoch, an armed
    and an aborted bit.  Each method is a compare-exchange loop that reads the
    word again when the exchange fails, so it takes effect in one step on the word
    it last read; it is a function on the word here. *)

From S2P Require Import Prelude Identity.

Definition MAX_WORKERS : Z := 32.
Definition MAX_EPOCH : Z := 1073741823.
Definition MASK_BITS : Z := 0xFFFFFFFF.
Definition EPOCH_SHIFT : Z := 32.
Definition EPOCH_MASK : Z := Z.shiftl MAX_EPOCH EPOCH_SHIFT.
Definition ARMED_BIT : Z := Z.shiftl 1 62.
Definition ABORTED_BIT : Z := Z.shiftl 1 63.

(** [_full_mask]; the constructor refuses a count outside one to 32. *)
Definition makeBarrier (worker_count : Z) : outcome Z :=
  throw_if ((worker_count =? 0) || (MAX_WORKERS <? worker_count)) InvalidArgument
    (Ret (if worker_count =? 32 then 0xFFFFFFFF else u32 (Z.shiftl 1 worker_count - 1))).

Definition word_armed (w : Z) : bool := negb (Z.land w ARMED_BIT =? 0).
Definition word_aborted (w : Z) : bool := negb (Z.land w ABORTED_BIT =? 0).
Definition word_epoch (w : Z) : Z := Z.land (Z.shiftr w EPOCH_SHIFT) MAX_EPOCH.

Definition barrier_arm (w : Z) : Z := Z.lor (Z.land w (Z.lor EPOCH_MASK ABORTED_BIT)) ARMED_BIT.

Definition notePublished (target : WorkerId) (w : Z) : Z :=
  if negb (word_armed w) || word_aborted w then w
  else
    let epoch := word_epoch w in
    if MAX_EPOCH <=? epoch then Z.lor w ABORTED_BIT
    else
      let new_mask := Z.land (Z.land w MASK_BITS) (Z.lnot (Z.shiftl 1 target)) in
      Z.lor (Z.lor new_mask (Z.shiftl (epoch + 1) EPOCH_SHIFT)) (Z.land w (Z.lor ARMED_BIT ABORTED_BIT)).

Definition markActive (me : WorkerId) (w : Z) : Z :=
  if negb (word_armed w) || word_aborted w then w
  else if Z.land w (Z.shiftl 1 me) =? 0 then w
  else Z.land w (Z.lnot (Z.shiftl 1 me)).

Definition tryMarkQuiescent (me : WorkerId) (observed_epoch : Z) (w : Z) : bool * Z :=
  if negb (word_armed w) || word_aborted w then (false, w)
  else if negb (word_epoch w =? observed_epoch) then (false, w)
  else (true, Z.lor w (Z.shiftl 1 me)).

Record BarrierSnapshot := mkBarrierSnapshot {
  snap_armed : bool; snap_all_quiescent : bool; snap_aborted : bool; snap_epoch : Z
}.

Definition barrier_snapshot (full_mask w : Z) : BarrierSnapshot :=
  mkBarrierSnapshot (word_armed w)
    (word_armed w && negb (word_aborted w) && (Z.land w MASK_BITS =? full_mask)) (word_aborted w) (word_epoch w).

Definition barrier_abort (w : Z) : Z := Z.lor w ABORTED_BIT.

(** ** The word bit by bit *)

Lemma testbit_pow2 i n : 0 <= i → Z.testbit (Z.shiftl 1 i) n = (i =? n).
Proof. intros Hi. rewrite Z.shiftl_1_l. by apply Z.pow2_bits_eqb. Qed.

Lemma testbit_ones_total k n : 0 <= k → 0 <= n → Z.testbit (Z.ones k) n = (n <? k).
Proof. intros. apply Z.testbit_ones_nonneg; lia. Qed.

Lemma land_pow2_zero w i : 0 <= i → (Z.land w (Z.shiftl 1 i) =? 0) = negb (Z.testbit w i).
Proof.
  intros Hi. destruct (Z.testbit w i) eqn:Hb; simpl.
  - apply Z.eqb_neq. intros H. apply (f_equal (fun z => Z.testbit z i)) in H.
    by rewrite Z.land_spec, testbit_pow2, Z.eqb_refl, Hb, Z.bits_0 in H.
  - apply Z.eqb_eq. apply Z.bits_inj'. intros n Hn. rewrite Z.land_spec, testbit_pow2, Z.bits_0 by done.
    destruct (Z.eqb_spec i n) as [<-|]; [by rewrite Hb|apply andb_false_r].
Qed.

Lemma word_armed_bit w : word_armed w = Z.testbit w 62.
Proof. unfold word_armed, ARMED_BIT. by rewrite land_pow2_zero, negb_involutive by lia. Qed.

Lemma word_aborted_bit w : word_aborted w = Z.testbit w 63.
Proof. unfold word_aborted, ABORTED_BIT. by rewrite land_pow2_zero, negb_involutive by lia. Qed.

Lemma word_epoch_bit w n : 0 <= n → Z.testbit (word_epoch w) n = Z.testbit w (n + 32) && (n <? 30).
Proof.
  intros Hn. unfold word_epoch, EPOCH_SHIFT. change MAX_EPOCH with (Z.ones 30).
  by rewrite Z.land_spec, Z.shiftr_spec, testbit_ones_total by lia.
Qed.

Lemma word_epoch_ext w w' :
  (∀ n, 32 <= n < 62 → Z.testbit w n = Z.testbit w' n) → word_epoch w = word_epoch w'.
Proof.
  intros H. apply Z.bits_inj'. intros n Hn. rewrite !word_epoch_bit by done.
  destruct (Z.ltb_spec n 30); [|by rewrite !andb_false_r]. by rewrite H by lia.
Qed.

Lemma word_epoch_range w : 0 <= word_epoch w <= MAX_EPOCH.
Proof.
  unfold word_epoch. change MAX_EPOCH with (Z.ones 30). rewrite Z.land_ones by lia.
  pose proof (Z.mod_pos_bound (Z.shiftr w EPOCH_SHIFT) (2 ^ 30)). change (Z.ones 30) with (2 ^ 30 - 1). lia.
Qed.

Ltac word_bits :=
  repeat first
    [ rewrite Z.lor_spec | rewrite Z.land_spec | rewrite Z.lnot_spec by lia | rewrite testbit_pow2 by lia
    | rewrite Z.shiftl_spec by lia | rewrite testbit_ones_total by lia ].

Lemma barrier_arm_bit w n :
  0 <= n < 64 → Z.testbit (barrier_arm w) n = if n <? 32 then false else if n =? 62 then true else Z.testbit w n.
Proof.
  intros Hn. unfold barrier_arm, EPOCH_MASK, ABORTED_BIT, ARMED_BIT, EPOCH_SHIFT. change MAX_EPOCH with (Z.ones 30).
  word_bits. destruct (Z.ltb_spec n 32).
  - rewrite (Z.testbit_neg_r (Z.ones 30)) by lia.
    replace (63 =? n) with false by lia. replace (62 =? n) with false by lia. by destruct (Z.testbit w n).
  - rewrite testbit_ones_total by lia. destruct (Z.testbit w n), (Z.ltb_spec (n - 32) 30), (Z.eqb_spec 63 n), (Z.eqb_spec 62 n), (Z.eqb_spec n 62); done || lia.
Qed.

(** What the methods do to the fields. *)

Definition bits_upto (P : Z → Prop) : Prop := ∀ n, 0 <= n < 64 → P n.

Lemma notePublished_live target w n :
  0 <= target < 32 → word_armed w = true → word_aborted w = false → word_epoch w < MAX_EPOCH → 0 <= n < 64 →
  Z.testbit (notePublished target w) n
  = if n <? 32 then Z.testbit w n && negb (n =? target)
    else if n <? 62 then Z.testbit (word_epoch w + 1) (n - 32) else Z.testbit w n.
Proof.
  intros Ht Har Hab He Hn. unfold notePublished. rewrite Har, Hab. cbn [negb orb].
  pose proof (word_epoch_range w). replace (MAX_EPOCH <=? word_epoch w) with false by lia.
  unfold ARMED_BIT, ABORTED_BIT, EPOCH_SHIFT. change MASK_BITS with (Z.ones 32). word_bits.
  destruct (Z.ltb_spec n 32) as [Hlt|Hge].
  - rewrite (Z.testbit_neg_r (_ + 1)) by lia. rewrite (Z.eqb_sym n target).
    replace (62 =? n) with false by lia. replace (63 =? n) with false by lia. destruct (Z.testbit w n), (target =? n); done.
  - destruct (Z.ltb_spec n 62).
    + replace (62 =? n) with false by lia. replace (63 =? n) with false by lia. rewrite !andb_false_r. simpl. by rewrite orb_false_r.
    + replace (Z.testbit (word_epoch w + 1) (n - 32)) with false.
      * rewrite !andb_false_r. destruct (Z.testbit w n), (Z.eqb_spec 62 n), (Z.eqb_spec 63 n), (Z.ltb_spec n 32); done || lia.
      * symmetry. apply Z.bits_above_log2; [lia|]. apply Z.log2_lt_pow2; [lia|].
        pose proof (Z.pow_le_mono_r 2 30 (n - 32)). change MAX_EPOCH with (2 ^ 30 - 1) in *. lia.
Qed.

Lemma notePublished_epoch target w :
  0 <= target < 32 → word_armed w = true → word_aborted w = false → word_epoch w < MAX_EPOCH →
  word_epoch (notePublished target w) = word_epoch w + 1.
Proof.
  intros Ht Har Hab He. pose proof (word_epoch_range w). apply Z.bits_inj'. intros n Hn. rewrite word_epoch_bit by done.
  destruct (Z.ltb_spec n 30).
  - rewrite andb_true_r, notePublished_live by (done || lia). replace (n + 32 <? 32) with false by lia.
    replace (n + 32 <? 62) with true by lia. f_equal. lia.
  - rewrite andb_false_r. symmetry. apply Z.bits_above_log2; [lia|]. apply Z.log2_lt_pow2; [lia|].
    pose proof (Z.pow_le_mono_r 2 30 n). change MAX_EPOCH with (2 ^ 30 - 1) in *. lia.
Qed.

Lemma notePublished_armed target w : 0 <= target < 32 → word_armed (notePublished target w) = word_armed w.
Proof.
  intros Ht. destruct (word_armed w) eqn:Har; [destruct (word_aborted w) eqn:Hab|].
  - unfold notePublished. by rewrite Har, Hab.
  - pose proof (word_epoch_range w). destruct (decide (word_epoch w < MAX_EPOCH)).
    + rewrite word_armed_bit, notePublished_live by (done || lia).
      change (Z.testbit w 62 = true). by rewrite <-word_armed_bit.
    + unfold notePublished. rewrite Har, Hab. cbn [negb orb]. replace (MAX_EPOCH <=? word_epoch w) with true by lia.
      rewrite word_armed_bit in *. unfold ABORTED_BIT. by rewrite Z.lor_spec, Har.
  - unfold notePublished. by rewrite Har.
Qed.

Lemma notePublished_aborted target w :
  0 <= target < 32 → word_aborted w = true → word_aborted (notePublished target w) = true.
Proof. intros Ht Hab. unfold notePublished. rewrite Hab, orb_true_r. done. Qed.

Lemma markActive_bit me w n :
  0 <= me < 32 → word_armed w = true → word_aborted w = false → 0 <= n →
  Z.testbit (markActive me w) n = Z.testbit w n && negb (n =? me).
Proof.
  intros Hm Har Hab Hn. unfold markActive. rewrite Har, Hab. cbn [negb orb]. rewrite land_pow2_zero by lia.
  destruct (Z.testbit w me) eqn:Hb; simpl negb; cbv iota.
  - word_bits. by rewrite (Z.eqb_sym n me).
  - destruct (Z.eqb_spec n me) as [->|]; [by rewrite Hb|by rewrite andb_true_r].
Qed.

Lemma markActive_other me w : negb (word_armed w) || word_aborted w = true → markActive me w = w.
Proof. intros H. unfold markActive. by rewrite H. Qed.

Lemma mark_bit me w n : 0 <= me → Z.testbit (Z.lor w (Z.shiftl 1 me)) n = Z.testbit w n || (n =? me).
Proof. intros. word_bits. by rewrite (Z.eqb_sym n me). Qed.

Lemma abort_bit w n : Z.testbit (barrier_abort w) n = Z.testbit w n || (n =? 63).
Proof. unfold barrier_abort, ABORTED_BIT. by rewrite mark_bit. Qed.

(** The full mask has exactly the bits of the workers. *)
Lemma full_mask_bits worker_count full n :
  makeBarrier worker_count = Ret full → 0 <= worker_count → 0 <= n → Z.testbit full n = (n <? worker_count).
Proof.
  unfold makeBarrier, MAX_WORKERS. intros H Hw Hn. apply throw_if_ret in H as [Hc Hf]. to_prop.
  injection Hf as <-. destruct (Z.eqb_spec worker_count 32) as [->|].
  - change 0xFFFFFFFF with (Z.ones 32). by apply testbit_ones_total.
  - replace (Z.shiftl 1 worker_count - 1) with (Z.ones worker_count) by (unfold Z.ones; lia).
    rewrite u32_small; [by apply testbit_ones_total|]. rewrite Z.ones_equiv.
    pose proof (Z.pow_pos_nonneg 2 worker_count). pose proof (Z.pow_le_mono_r 2 worker_count 32). lia.
Qed.

Lemma all_quiescent_bits worker_count full w :
  makeBarrier worker_count = Ret full → 0 <= worker_count →
  snap_all_quiescent (barrier_snapshot full w) = true →
  word_armed w = true ∧ word_aborted w = false ∧ ∀ i, 0 <= i < worker_count → Z.testbit w i = true.
Proof.
  intros Hf Hw Hq. unfold barrier_snapshot in Hq. cbn [snap_all_quiescent] in Hq. to_prop. split_and!; [done..|].
  intros i Hi. pose proof (full_mask_bits _ _ i Hf Hw ltac:(lia)) as Hb.
  assert (worker_count <= 32) by (unfold makeBarrier, MAX_WORKERS in Hf; apply throw_if_ret in Hf as [Hc _]; to_prop; lia).
  match goal with H : Z.land w MASK_BITS = full |- _ => rewrite <-H in Hb end.
  change MASK_BITS with (Z.ones 32) in Hb. rewrite Z.land_spec, testbit_ones_total in Hb by lia.
  destruct (Z.testbit w i); [done|]. simpl in Hb. lia.
Qed.

Lemma bits_all_quiescent worker_count full w :
  makeBarrier worker_count = Ret full → 0 <= worker_count → word_armed w = true → word_aborted w = false →
  (∀ i, 0 <= i < 32 → Z.testbit w i = (i <? worker_count)) → snap_all_quiescent (barrier_snapshot full w) = true.
Proof.
  intros Hf Hw Har Hab Hb. unfold barrier_snapshot. cbn [snap_all_quiescent]. rewrite Har, Hab. cbn [negb andb]. apply Z.eqb_eq.
  assert (worker_count <= 32) by (unfold makeBarrier, MAX_WORKERS in Hf; apply throw_if_ret in Hf as [Hc _]; to_prop; lia).
  apply Z.bits_inj'. intros n Hn. rewrite (full_mask_bits _ _ n Hf Hw Hn).
  change MASK_BITS with (Z.ones 32). rewrite Z.land_spec, testbit_ones_total by lia.
  destruct (Z.ltb_spec n 32); [by rewrite Hb, andb_true_r by lia|]. rewrite andb_false_r. lia.
Qed.
