(* ===== verification/BarrierSpec.v ===== *)
(** * Group shutdown

    The workers of a group leave their second shutdown phase together
    ([Worker::runShutdownPhaseB] of [src/src/worker/worker.cpp], the branch with a
    barrier; [WorkerGroup::requestStop]).  A worker is where its loop stands, the
    number of events in its inbox and the number of local items it still has to
    finish (ready, blocked and loading actors, application timers, lifecycle
    turns).  Workers interleave at every access to the shared word and to an
    inbox.  Passing the shutdown deadline is not represented: it ends the phase
    without the barrier. *)

From S2P Require Import Prelude Identity Barrier.

(** Where a worker stands: [Serving] before it sees the stop request, [Active]
    and [Waiting] the two states of the loop, the others between two accesses of
    one round. *)
Inductive PhaseB :=
| Serving
| Active
| Publishing (target : nat) (serving : bool)  (** pushed, [notePublished] not yet called *)
| Waiting
| Waking                                      (** about to call [markActive] *)
| Scanning (epoch : Z)                        (** snapshot taken, about to look for work *)
| Marking (epoch : Z)                         (** no work seen, about to call [tryMarkQuiescent] *)
| Marked                                      (** about to take the second snapshot *)
| Verifying (epoch : Z)                       (** about to take the third snapshot *)
| Left                                        (** left the phase by the barrier *)
| Aborted.                                    (** left it because the barrier was aborted *)

#[export] Instance PhaseB_eq_dec : EqDecision PhaseB.
Proof. solve_decision. Defined.

Record WorkerB := mkWorkerB { wb_pc : PhaseB; wb_inbox : nat; wb_work : nat }.
Record Group := mkGroup { group_word : Z; group_workers : list WorkerB }.
Implicit Types (g : Group) (x y : WorkerB).

Definition freshGroup (n : nat) : Group := mkGroup 0 (replicate n (mkWorkerB Serving 0 0)).

Inductive WorkerAct :=
| Enter          (** sees the stop request, which [requestStop] stores after arming the barrier *)
| External       (** a poll event becomes local work *)
| Receive        (** an event is taken from the inbox *)
| Finish         (** a local item is finished *)
| Push (target : nat)
| Note
| Rest           (** no runnable work: [Active] to [Waiting] *)
| PollEvent      (** the poll of [Waiting] returns events *)
| TakeSnapshot
| Scan
| MarkActive
| Mark
| SnapshotAfter
| SnapshotVerify.

Inductive GroupOp := GArm | GAbort | GWorker (i : nat) (a : WorkerAct).

Definition put (i : nat) x g : Group := mkGroup (group_word g) (<[i := x]> (group_workers g)).
Definition set_word (w : Z) g : Group := mkGroup w (group_workers g).
Definition set_pc (pc : PhaseB) x : WorkerB := mkWorkerB pc (wb_inbox x) (wb_work x).

(** A worker runs actors, and so may take events and publish, in its normal loop
    and in the [Active] state. *)
Definition running (pc : PhaseB) : bool := match pc with Serving | Active => true | _ => false end.
Definition resume (serving : bool) : PhaseB := if serving then Serving else Active.

Definition push_event (i t : nat) x g : Group :=
  match group_workers g !! t with
  | Some y =>
      if (i =? t)%nat then g
      else put t (mkWorkerB (wb_pc y) (S (wb_inbox y)) (wb_work y))
             (put i (set_pc (Publishing t (bool_decide (wb_pc x = Serving))) x) g)
  | None => g
  end.

Definition worker_step (full : Z) (i : nat) (a : WorkerAct) x g : Group :=
  let w := group_word g in
  let s := barrier_snapshot full w in
  match a, wb_pc x with
  | Enter, Serving => if word_armed w then put i (set_pc Active x) g else g
  | External, pc => if running pc then put i (mkWorkerB pc (wb_inbox x) (S (wb_work x))) g else g
  | Receive, pc =>
      if running pc then
        match wb_inbox x with
        | S n => put i (mkWorkerB pc n (S (wb_work x))) g
        | O => g
        end
      else g
  | Finish, pc => if running pc then put i (mkWorkerB pc (wb_inbox x) (Nat.pred (wb_work x))) g else g
  | Push t, pc => if running pc then push_event i t x g else g
  | Note, Publishing t serving => set_word (notePublished (Z.of_nat t) w) (put i (set_pc (resume serving) x) g)
  | Rest, Active => put i (set_pc Waiting x) g
  | PollEvent, Waiting => put i (set_pc Waking x) g
  | TakeSnapshot, Waiting =>
      put i (set_pc (if snap_aborted s then Aborted else Scanning (snap_epoch s)) x) g
  | Scan, Scanning e => put i (set_pc (if (wb_inbox x =? 0)%nat && (wb_work x =? 0)%nat then Marking e else Waking) x) g
  | MarkActive, Waking => set_word (markActive (Z.of_nat i) w) (put i (set_pc Active x) g)
  | Mark, Marking e =>
      let (marked, w') := tryMarkQuiescent (Z.of_nat i) e w in
      set_word w' (put i (set_pc (if marked then Marked else Waiting) x) g)
  | SnapshotAfter, Marked =>
      put i (set_pc (if snap_aborted s then Aborted else if snap_all_quiescent s then Verifying (snap_epoch s) else Waiting) x) g
  | SnapshotVerify, Verifying e =>
      put i (set_pc (if snap_all_quiescent s && (snap_epoch s =? e) && negb (snap_aborted s) then Left else Waiting) x) g
  | _, _ => g
  end.

Definition group_step (full : Z) g (op : GroupOp) : Group :=
  match op with
  | GArm => set_word (barrier_arm (group_word g)) g
  | GAbort => set_word (barrier_abort (group_word g)) g
  | GWorker i a => match group_workers g !! i with Some x => worker_step full i a x g | None => g end
  end.

Definition group_run (full : Z) (ops : list GroupOp) g : Group := foldl (group_step full) g ops.

(** ** Invariant *)

Definition published g (i : nat) : Prop :=
  ∃ p y serving, group_workers g !! p = Some y ∧ wb_pc y = Publishing i serving.

(** Nothing to do for worker [i], unless a publication is under way. *)
Definition quiet g (i : nat) x : Prop := wb_work x = 0%nat ∧ (wb_inbox x = 0%nat ∨ published g i).

Definition busy (pc : PhaseB) : bool := match pc with Serving | Active | Publishing _ _ => true | _ => false end.
Definition serving (pc : PhaseB) : bool := match pc with Serving | Publishing _ true => true | _ => false end.

Definition marks g (i : nat) x : Prop :=
  (busy (wb_pc x) = true → Z.testbit (group_word g) (Z.of_nat i) = false)
  ∧ (Z.testbit (group_word g) (Z.of_nat i) = true → quiet g i x)
  ∧ (∀ e, wb_pc x = Marking e → word_epoch (group_word g) = e → quiet g i x).

Record worker_ok g (i : nat) x : Prop := {
  wo_armed : serving (wb_pc x) = false → word_armed (group_word g) = true;
  wo_epoch : ∀ e, wb_pc x = Scanning e ∨ wb_pc x = Marking e → e <= word_epoch (group_word g);
  wo_target : ∀ t s, wb_pc x = Publishing t s → (t < length (group_workers g))%nat ∧ t ≠ i;
  wo_marks : word_aborted (group_word g) = false → marks g i x
}.

Definition group_ok g : Prop := ∀ i x, group_workers g !! i = Some x → worker_ok g i x.

Lemma freshGroup_ok n : group_ok (freshGroup n).
Proof.
  intros i x Hi. apply lookup_replicate in Hi as [-> _].
  constructor; simpl; try done; [by intros ? [|]|]. intros _. split_and!; simpl; [by rewrite Z.bits_0|by rewrite Z.bits_0|done].
Qed.

(** ** Workers change one by one *)

Lemma lookup_put i j x y g :
  group_workers g !! i = Some y →
  group_workers (put i x g) !! j = if decide (i = j) then Some x else group_workers g !! j.
Proof.
  intros Hi. unfold put. simpl. case_decide; [subst|by rewrite list_lookup_insert_ne].
  apply list_lookup_insert_eq. by eapply lookup_lt_Some.
Qed.

Lemma length_put i x g : length (group_workers (put i x g)) = length (group_workers g).
Proof. apply length_insert. Qed.

(** A publication under way is not lost when another worker moves. *)
Lemma published_put i x y g j :
  group_workers g !! i = Some y → (∀ s, wb_pc y = Publishing j s → wb_pc x = Publishing j s) →
  published g j → published (put i x g) j.
Proof.
  intros Hi Hpc (p & z & s & Hp & Hz). destruct (decide (i = p)) as [->|Hne].
  - rewrite Hi in Hp. injection Hp as ->. exists p, x, s. rewrite (lookup_put p p x z), decide_True by done. auto.
  - exists p, z, s. by rewrite (lookup_put i p x y), decide_False.
Qed.

(** Another worker may move when the publications to this one stay. *)
Lemma worker_ok_put i x y g j z :
  group_workers g !! i = Some y → (∀ s, wb_pc y = Publishing j s → wb_pc x = Publishing j s) → worker_ok g j z → worker_ok (put i x g) j z.
Proof.
  intros Hi Hpc Hok. destruct Hok as [H1 H2 H3 H4]. constructor; [done|done| |].
  - intros t s Ht. rewrite length_put. eauto.
  - intros Hab. destruct (H4 Hab) as (Hm1 & Hm2 & Hm3).
    assert (Hq : quiet g j z → quiet (put i x g) j z).
    { intros [Hw Hb]. split; [done|]. destruct Hb; [by left|]. right. by apply (published_put _ _ y). }
    split_and!; [done|auto|eauto].
Qed.

(** One worker moves, not ending a publication: the others keep, it must be
    shown well. *)
Lemma group_ok_put i x y g :
  group_ok g → group_workers g !! i = Some y → (∀ t s, wb_pc y = Publishing t s → wb_pc x = Publishing t s) →
  (worker_ok g i y → worker_ok (put i x g) i x) → group_ok (put i x g).
Proof.
  intros Hok Hi Hpc Hx j z Hj. rewrite (lookup_put i j x y) in Hj by done. case_decide; [subst j|].
  - injection Hj as <-. by apply Hx, Hok.
  - apply (worker_ok_put i x y); [done|eauto|eauto].
Qed.

(** The word moves forward: nothing disarms it, ends an abort or lowers the
    epoch. *)
Record word_le (w w' : Z) : Prop := {
  wl_armed : word_armed w = true → word_armed w' = true;
  wl_aborted : word_aborted w' = false → word_aborted w = false;
  wl_epoch : word_epoch w <= word_epoch w'
}.

Lemma worker_ok_word w g i x :
  word_le (group_word g) w →
  (word_aborted w = false → Z.testbit w (Z.of_nat i) = true → Z.testbit (group_word g) (Z.of_nat i) = true) →
  worker_ok g i x → worker_ok (set_word w g) i x.
Proof.
  intros [Hla Hlb Hle] Hbit [H1 H2 H3 H4]. constructor; simpl; [auto| |done|].
  - intros e He. specialize (H2 e He). lia.
  - intros Hab. destruct (H4 (Hlb Hab)) as (Hm1 & Hm2 & Hm3). split_and!.
    + intros Hb. specialize (Hm1 Hb). simpl. destruct (Z.testbit w _) eqn:E; [|done]. rewrite Hbit in Hm1; done.
    + intros Hb. apply Hm2. by apply Hbit.
    + intros e He Hep. apply (Hm3 e He). specialize (H2 e (or_intror He)). simpl in Hep. lia.
Qed.

Lemma group_ok_word w g :
  group_ok g → (length (group_workers g) ≤ 32)%nat → word_le (group_word g) w →
  (∀ n, 0 <= n < 32 → word_aborted w = false → Z.testbit w n = true → Z.testbit (group_word g) n = true) →
  group_ok (set_word w g).
Proof.
  intros Hok Hn Hle Hbits i x Hi. apply worker_ok_word; [done| |by apply Hok].
  intros Hab. apply Hbits; [|done]. apply lookup_lt_Some in Hi. simpl in Hi. lia.
Qed.

(** A worker changes where it stands, not what it has to do. *)
Lemma group_ok_move i pc x g :
  group_ok g → group_workers g !! i = Some x → (∀ t s, wb_pc x = Publishing t s → pc = Publishing t s) →
  (∀ t s, pc = Publishing t s → (t < length (group_workers g))%nat ∧ t ≠ i) →
  (serving pc = false → word_armed (group_word g) = true) →
  (∀ e, pc = Scanning e ∨ pc = Marking e → e <= word_epoch (group_word g)) →
  (busy pc = true → busy (wb_pc x) = true) → (∀ e, pc = Marking e → quiet g i x) →
  group_ok (put i (set_pc pc x) g).
Proof.
  intros Hok Hi Hpub Htgt Harm Hep Hbusy Hmark. eapply group_ok_put; [done|done|done|]. intros [H1 H2 H3 H4].
  constructor; simpl; [done|done|by rewrite length_insert|]. intros Hab. destruct (H4 Hab) as (Hm1 & Hm2 & Hm3).
  assert (Hq : quiet g i x → quiet (put i (set_pc pc x) g) i (set_pc pc x)).
  { intros [Hw Hb]. split; [done|]. destruct Hb; [by left|]. right. by apply (published_put _ _ x); eauto. }
  split_and!; [by auto|by auto|]. intros e He _. apply Hq. by apply (Hmark e).
Qed.

(** A running worker has not marked itself quiescent, so what it has to do may
    change. *)
Lemma group_ok_work i x a b g :
  group_ok g → group_workers g !! i = Some x → running (wb_pc x) = true → group_ok (put i (mkWorkerB (wb_pc x) a b) g).
Proof.
  intros Hok Hi Hrun. eapply group_ok_put; [done|done|done|]. intros [H1 H2 H3 H4].
  constructor; simpl; [done|done|by rewrite length_insert|]. intros Hab. destruct (H4 Hab) as (Hm1 & Hm2 & Hm3).
  assert (Hb : busy (wb_pc x) = true) by (by destruct (wb_pc x)). specialize (Hm1 Hb).
  split_and!; simpl; [done|congruence|]. intros e He. by rewrite He in Hb.
Qed.

(** An event arrives at a worker to which a publication is under way. *)
Lemma group_ok_arrival i x g :
  group_ok g → group_workers g !! i = Some x → published g i →
  group_ok (put i (mkWorkerB (wb_pc x) (S (wb_inbox x)) (wb_work x)) g).
Proof.
  intros Hok Hi Hpub. eapply group_ok_put; [done|done|done|]. intros [H1 H2 H3 H4].
  constructor; simpl; [done|done|by rewrite length_insert|]. intros Hab. destruct (H4 Hab) as (Hm1 & Hm2 & Hm3).
  assert (Hq : quiet g i x → quiet (put i (mkWorkerB (wb_pc x) (S (wb_inbox x)) (wb_work x)) g) i (mkWorkerB (wb_pc x) (S (wb_inbox x)) (wb_work x))).
  { intros [Hw _]. split; [done|]. right. by apply (published_put _ _ x). }
  split_and!; [done|auto|]. intros e He Hep. apply Hq. by apply (Hm3 e).
Qed.

Lemma push_event_ok i t x g :
  group_ok g → group_workers g !! i = Some x → running (wb_pc x) = true → group_ok (push_event i t x g).
Proof.
  intros Hok Hi Hrun. unfold push_event. destruct (group_workers g !! t) as [y|] eqn:Ht; [|done].
  destruct (Nat.eqb_spec i t) as [|Hne]; [done|].
  set (g1 := put i _ g).
  assert (Hok1 : group_ok g1).
  { apply group_ok_move; try done.
    - intros ?? H. by rewrite H in Hrun.
    - intros ?? [= <- <-]. split; [by eapply lookup_lt_Some|done].
    - intros Hs. apply (wo_armed _ _ _ (Hok _ _ Hi)). by destruct (wb_pc x).
    - by intros ? [|].
    - intros _. by destruct (wb_pc x). }
  assert (Ht1 : group_workers g1 !! t = Some y) by (unfold g1; by rewrite (lookup_put i t _ x), decide_False).
  apply (group_ok_arrival t y g1 Hok1 Ht1). eexists i, _, _. unfold g1. rewrite (lookup_put i i _ x), decide_True by done. done.
Qed.

(** ** The word moves forward *)

Lemma word_le_arm w : word_le w (barrier_arm w).
Proof.
  constructor.
  - intros _. by rewrite word_armed_bit, barrier_arm_bit by lia.
  - by rewrite !word_aborted_bit, barrier_arm_bit by lia.
  - apply Z.eq_le_incl, word_epoch_ext. intros n Hn. rewrite barrier_arm_bit by lia.
    replace (n <? 32) with false by lia. by replace (n =? 62) with false by lia.
Qed.

(** A word that keeps its upper half. *)
Lemma word_le_upper w w' : (∀ n, 32 <= n < 64 → Z.testbit w' n = Z.testbit w n) → word_le w w'.
Proof.
  intros H. constructor; rewrite ?word_armed_bit, ?word_aborted_bit, ?H by lia; [done|done|].
  apply Z.eq_le_incl, word_epoch_ext. intros n Hn. by rewrite H by lia.
Qed.

Lemma word_le_abort w : word_le w (barrier_abort w).
Proof.
  constructor; rewrite ?word_armed_bit, ?word_aborted_bit, ?abort_bit; [by rewrite orb_false_r|by rewrite orb_true_r|].
  apply Z.eq_le_incl, word_epoch_ext. intros n Hn. rewrite abort_bit. replace (n =? 63) with false by lia. by rewrite orb_false_r.
Qed.

Lemma word_le_note t w : 0 <= t < 32 → word_le w (notePublished t w).
Proof.
  intros Ht. constructor.
  - by rewrite notePublished_armed.
  - intros H. destruct (word_aborted w) eqn:E; [|done]. by rewrite notePublished_aborted in H.
  - destruct (negb (word_armed w) || word_aborted w) eqn:E; [unfold notePublished; by rewrite E|]. to_prop.
    pose proof (word_epoch_range w). destruct (decide (word_epoch w < MAX_EPOCH)).
    + rewrite notePublished_epoch by done. lia.
    + unfold notePublished. match goal with H : word_armed w = true, H' : word_aborted w = false |- _ => rewrite H, H' end.
      cbn [negb orb]. replace (MAX_EPOCH <=? word_epoch w) with true by lia. apply (wl_epoch _ _ (word_le_abort w)).
Qed.

Lemma note_bits t w n :
  0 <= t < 32 → 0 <= n < 32 → Z.testbit (notePublished t w) n = true → Z.testbit w n = true.
Proof.
  intros Ht Hn. destruct (negb (word_armed w) || word_aborted w) eqn:E; [unfold notePublished; by rewrite E|]. to_prop.
  destruct (decide (word_epoch w < MAX_EPOCH)).
  - rewrite notePublished_live by (done || lia). replace (n <? 32) with true by lia. by intros [? _]%andb_prop.
  - unfold notePublished. match goal with H : word_armed w = true, H' : word_aborted w = false |- _ => rewrite H, H' end.
    cbn [negb orb]. replace (MAX_EPOCH <=? word_epoch w) with true by lia. change (Z.lor w ABORTED_BIT) with (barrier_abort w).
    rewrite abort_bit. replace (n =? 63) with false by lia. by rewrite orb_false_r.
Qed.

(** After the note, the target can neither be marked nor mark itself with an
    epoch it has seen, unless it does not take part yet or the barrier is
    aborted. *)
Lemma note_unmarks t w :
  0 <= t < 32 → word_armed w = true → word_aborted (notePublished t w) = false →
  Z.testbit (notePublished t w) t = false ∧ word_epoch w < word_epoch (notePublished t w).
Proof.
  intros Ht Har Hab. pose proof (wl_aborted _ _ (word_le_note t w Ht) Hab) as Hab0. pose proof (word_epoch_range w).
  destruct (decide (word_epoch w < MAX_EPOCH)).
  - rewrite notePublished_live, notePublished_epoch by (done || lia). replace (t <? 32) with true by lia.
    rewrite Z.eqb_refl, andb_false_r. split; [done|lia].
  - unfold notePublished in Hab. rewrite Har, Hab0 in Hab. cbn [negb orb] in Hab.
    replace (MAX_EPOCH <=? word_epoch w) with true in Hab by lia. change (Z.lor w ABORTED_BIT) with (barrier_abort w) in Hab.
    by rewrite word_aborted_bit, abort_bit, orb_true_r in Hab.
Qed.

(** ** Preservation *)

Lemma note_step_ok i t b x g :
  group_ok g → (length (group_workers g) ≤ 32)%nat → group_workers g !! i = Some x → wb_pc x = Publishing t b →
  group_ok (set_word (notePublished (Z.of_nat t) (group_word g)) (put i (set_pc (resume b) x) g)).
Proof.
  intros Hok Hn Hi Hpc. pose proof (Hok _ _ Hi) as Hx. destruct (wo_target _ _ _ Hx t b Hpc) as [Ht Hne].
  assert (Ht32 : 0 <= Z.of_nat t < 32) by lia. set (w := notePublished (Z.of_nat t) (group_word g)).
  assert (Hok1 : group_ok (set_word w g)).
  { apply group_ok_word; [done|done|by apply word_le_note|]. intros n Hnn _. by apply note_bits. }
  intros j z Hj. simpl in Hj. change (<[i:=set_pc (resume b) x]> (group_workers g)) with (group_workers (put i (set_pc (resume b) x) (set_word w g))) in Hj.
  rewrite (lookup_put i j _ x) in Hj by done. change (worker_ok (put i (set_pc (resume b) x) (set_word w g)) j z).
  case_decide as Hij; [subst j; injection Hj as <-|destruct (decide (j = t)) as [->|Hjt]].
  - destruct (Hok1 _ _ Hi) as [H1 H2 H3 H4]. rewrite Hpc in *. constructor; cbn [set_pc wb_pc resume].
    + intros Hs. apply H1. by destruct b.
    + intros e [He|He]; by destruct b.
    + intros ?? H. by destruct b.
    + intros Hab. destruct (H4 Hab) as (Hm1 & _). specialize (Hm1 ltac:(by rewrite Hpc)). split_and!; simpl.
      * done.
      * intros Hb. simpl in Hm1. congruence.
      * intros e He. by destruct b.
  - destruct (Hok1 _ _ Hj) as [H1 H2 H3 H4]. constructor; [done|done|intros ?? H; rewrite length_put; eauto|].
    intros Hab. destruct (H4 Hab) as (Hm1 & Hm2 & Hm3). simpl in Hab.
    destruct (word_armed (group_word g)) eqn:Har.
    + destruct (note_unmarks _ _ Ht32 Har Hab) as [Hb He]. split_and!; simpl; [done|fold w in Hb; congruence|].
      intros e Hz Hep. pose proof (wo_epoch _ _ _ (Hok _ _ Hj) e (or_intror Hz)). fold w in He. lia.
    + assert (serving (wb_pc z) = true) as Hsv.
      { destruct (serving (wb_pc z)) eqn:E; [done|]. pose proof (wo_armed _ _ _ (Hok _ _ Hj) E). congruence. }
      assert (Hbz : busy (wb_pc z) = true) by (by destruct (wb_pc z)). specialize (Hm1 Hbz).
      split_and!; simpl; [done|simpl in Hm1; congruence|]. intros e Hz. by rewrite Hz in Hbz.
  - apply (worker_ok_put i _ x); [done| |by apply Hok1]. intros s Hs. rewrite Hpc in Hs. injection Hs as <-. done.
Qed.

Lemma mark_active_step_ok i x g :
  group_ok g → (length (group_workers g) ≤ 32)%nat → group_workers g !! i = Some x → wb_pc x = Waking →
  group_ok (set_word (markActive (Z.of_nat i) (group_word g)) (put i (set_pc Active x) g)).
Proof.
  intros Hok Hn Hi Hpc. pose proof (Hok _ _ Hi) as Hx. pose proof (wo_armed _ _ _ Hx ltac:(by rewrite Hpc)) as Har.
  assert (Hi32 : 0 <= Z.of_nat i < 32) by (apply lookup_lt_Some in Hi; lia).
  set (w := markActive (Z.of_nat i) (group_word g)).
  assert (Hbit : ∀ n, 0 <= n → word_aborted (group_word g) = false → Z.testbit w n = Z.testbit (group_word g) n && negb (n =? Z.of_nat i)).
  { intros n Hnn Hab. by apply markActive_bit. }
  assert (Hle : word_le (group_word g) w).
  { destruct (word_aborted (group_word g)) eqn:Hab; [unfold w; rewrite markActive_other by (by rewrite Hab, orb_true_r); by constructor|].
    apply word_le_upper. intros n Hnn. rewrite Hbit by (done || lia). replace (n =? Z.of_nat i) with false by lia. by rewrite andb_true_r. }
  assert (Hok1 : group_ok (set_word w g)).
  { apply group_ok_word; [done|done|done|]. intros n Hnn Hab. rewrite Hbit; [by intros [? _]%andb_prop|lia|by apply (wl_aborted _ _ Hle)]. }
  change (group_ok (put i (set_pc Active x) (set_word w g))).
  eapply group_ok_put; [done|done|by rewrite Hpc|]. intros [H1 H2 H3 H4]. constructor; cbn [set_pc wb_pc].
  - intros _. by apply (wl_armed _ _ Hle).
  - by intros ? [|].
  - done.
  - intros Hab. assert (Hb : Z.testbit w (Z.of_nat i) = false).
    { rewrite Hbit; [by rewrite Z.eqb_refl, andb_false_r|lia|by apply (wl_aborted _ _ Hle)]. }
    split_and!; simpl; [done|congruence|done].
Qed.

Lemma mark_step_ok i e x g :
  group_ok g → (length (group_workers g) ≤ 32)%nat → group_workers g !! i = Some x → wb_pc x = Marking e →
  group_ok (let (marked, w) := tryMarkQuiescent (Z.of_nat i) e (group_word g) in
            set_word w (put i (set_pc (if marked then Marked else Waiting) x) g)).
Proof.
  intros Hok Hn Hi Hpc. pose proof (Hok _ _ Hi) as Hx. pose proof (wo_armed _ _ _ Hx ltac:(by rewrite Hpc)) as Har.
  assert (Hi32 : 0 <= Z.of_nat i < 32) by (apply lookup_lt_Some in Hi; lia).
  assert (Hstay : ∀ pc, pc = Marked ∨ pc = Waiting → group_ok (put i (set_pc pc x) g)).
  { intros pc Hpc'. apply group_ok_move; try done; [by rewrite Hpc|..]; destruct Hpc' as [-> | ->]; try done; by intros ? [|]. }
  unfold tryMarkQuiescent. destruct (negb (word_armed (group_word g)) || word_aborted (group_word g)) eqn:Hc; [by apply Hstay; right|].
  destruct (negb (word_epoch (group_word g) =? e)) eqn:He; [by apply Hstay; right|]. to_prop.
  set (g1 := put i (set_pc Marked x) g). assert (Hok1 : group_ok g1) by (apply Hstay; by left).
  assert (Hquiet : quiet g1 i (set_pc Marked x)).
  { destruct (wo_marks _ _ _ Hx) as (_ & _ & Hm); [done|]. destruct (Hm e Hpc ltac:(lia)) as [Hw Hb]. split; [done|].
    destruct Hb; [by left|]. right. apply (published_put _ _ x); [done|by rewrite Hpc|done]. }
  set (w := Z.lor _ _).
  assert (Hbit : ∀ n, Z.testbit w n = Z.testbit (group_word g) n || (n =? Z.of_nat i)) by (intros n; apply mark_bit; lia).
  assert (Hle : word_le (group_word g1) w).
  { apply word_le_upper. intros n Hnn. rewrite Hbit. replace (n =? Z.of_nat i) with false by lia. by rewrite orb_false_r. }
  intros j z Hj. change (group_workers g1 !! j = Some z) in Hj. destruct (decide (j = i)) as [->|Hji].
  - unfold g1 in Hj. rewrite (lookup_put i i _ x), decide_True in Hj by done. injection Hj as <-.
    constructor; cbn [set_pc wb_pc]; [intros _; by apply (wl_armed _ _ Hle)|by intros ? [|]|done|].
    intros _. split_and!; [done| |done]. intros _. exact Hquiet.
  - apply worker_ok_word; [done| |by apply Hok1]. intros _. rewrite Hbit. replace (Z.of_nat j =? Z.of_nat i) with false by lia.
    by rewrite orb_false_r.
Qed.

Lemma length_step full g op : length (group_workers (group_step full g op)) = length (group_workers g).
Proof.
  destruct op as [| |i a]; [done..|]. unfold group_step. destruct (group_workers g !! i) as [x|]; [|done].
  unfold worker_step, push_event, put, set_word.
  destruct a, (wb_pc x); cbn [running]; repeat case_match; cbn [group_workers]; by rewrite ?length_insert.
Qed.

Lemma group_step_ok full g op :
  group_ok g → (length (group_workers g) ≤ 32)%nat → group_ok (group_step full g op).
Proof.
  intros Hok Hn. destruct op as [| |i a].
  - apply group_ok_word; [done|done|apply word_le_arm|]. intros n Hnn _. rewrite barrier_arm_bit by lia.
    by replace (n <? 32) with true by lia.
  - apply group_ok_word; [done|done|apply word_le_abort|]. intros n Hnn _. rewrite abort_bit.
    replace (n =? 63) with false by lia. by rewrite orb_false_r.
  - unfold group_step. destruct (group_workers g !! i) as [x|] eqn:Hi; [|done]. pose proof (Hok _ _ Hi) as Hx.
    assert (Hmove : ∀ pc, (∀ t s, wb_pc x ≠ Publishing t s) → busy pc = false → serving (wb_pc x) = false →
      (∀ e, pc = Scanning e ∨ pc = Marking e → e <= word_epoch (group_word g)) → (∀ e, pc = Marking e → quiet g i x) →
      group_ok (put i (set_pc pc x) g)).
    { intros pc Hpub Hb Hsv Hep Hq. apply group_ok_move; try done.
      - intros t s H. by destruct (Hpub t s).
      - intros t s ->. done.
      - intros _. by apply (wo_armed _ _ _ Hx).
      - by rewrite Hb. }
    assert (Hrun : ∀ a b, running (wb_pc x) = true → group_ok (put i (mkWorkerB (wb_pc x) a b) g)) by (intros; by apply group_ok_work).
    unfold worker_step. destruct a, (wb_pc x) as [| |t b| | |e|e| |e| |] eqn:Hpc; try done; cbn [running].
    + split_if; [|done]. apply group_ok_move; rewrite ?Hpc; try done. by intros ? [|].
    + by apply Hrun.
    + by apply Hrun.
    + case_match; [done|by apply Hrun].
    + case_match; [done|by apply Hrun].
    + by apply Hrun.
    + by apply Hrun.
    + apply push_event_ok; by rewrite ?Hpc.
    + apply push_event_ok; by rewrite ?Hpc.
    + by apply note_step_ok.
    + apply Hmove; try done. by intros ? [|].
    + apply Hmove; try done. by intros ? [|].
    + apply Hmove; try done; split_if; try done; [by intros ? [|]|]. intros e [[= <-]|]; [|done]. simpl. lia.
    + apply Hmove; try done; split_if; try done.
      * intros e' [|[= <-]]; [done|]. apply (wo_epoch _ _ _ Hx). rewrite Hpc. by left.
      * by intros ? [|].
      * intros e' _. to_prop. repeat match goal with H : (_ =? _)%nat = true |- _ => apply Nat.eqb_eq in H end. split; [done|by left].
    + by apply mark_active_step_ok.
    + by apply mark_step_ok.
    + apply Hmove; try done; repeat split_if; try done; by intros ? [|].
    + apply Hmove; try done; repeat split_if; try done; by intros ? [|].
Qed.

Lemma group_run_ok full ops g :
  group_ok g → (length (group_workers g) ≤ 32)%nat →
  group_ok (group_run full ops g) ∧ length (group_workers (group_run full ops g)) = length (group_workers g).
Proof.
  revert g. induction ops as [|op ops IH]; intros g Hok Hn; [done|]. simpl.
  rewrite <-(length_step full g op). apply IH; [by apply group_step_ok|by rewrite length_step].
Qed.

Lemma makeBarrier_count n full : makeBarrier (Z.of_nat n) = Ret full → (0 < n ≤ 32)%nat.
Proof. unfold makeBarrier, MAX_WORKERS. intros [H _]%throw_if_ret. to_prop. lia. Qed.

(** A word that says all quiescent speaks the truth. *)
Lemma all_quiescent_sound n full g :
  makeBarrier (Z.of_nat n) = Ret full → group_ok g → length (group_workers g) = n →
  snap_all_quiescent (barrier_snapshot full (group_word g)) = true →
  ∀ i x, group_workers g !! i = Some x → busy (wb_pc x) = false ∧ wb_inbox x = 0%nat ∧ wb_work x = 0%nat.
Proof.
  intros Hf Hok Hn Hq i x Hi. destruct (all_quiescent_bits _ _ _ Hf ltac:(lia) Hq) as (Har & Hab & Hbits).
  assert (Hidle : ∀ j y, group_workers g !! j = Some y → busy (wb_pc y) = false).
  { intros j y Hj. destruct (busy (wb_pc y)) eqn:Hb; [|done]. destruct (wo_marks _ _ _ (Hok _ _ Hj) Hab) as (Hm & _).
    specialize (Hm Hb). rewrite Hbits in Hm; [done|]. apply lookup_lt_Some in Hj. lia. }
  split; [by eapply Hidle|]. destruct (wo_marks _ _ _ (Hok _ _ Hi) Hab) as (_ & Hm & _).
  destruct Hm as [Hw [Hb|(p & y & s & Hp & Hy)]]; [apply Hbits; apply lookup_lt_Some in Hi; lia|done|].
  specialize (Hidle p y Hp). by rewrite Hy in Hidle.
Qed.

(** Whoever is newly [Left] after a worker moved is that worker. *)
Lemma put_newly_left i j x x' y y' g :
  group_workers g !! i = Some x → wb_pc x ≠ Left → group_workers g !! j = Some y →
  group_workers (put j y' g) !! i = Some x' → wb_pc x' = Left → wb_pc y' = Left.
Proof.
  intros Hi Hx Hj Hi' Hx'. rewrite (lookup_put j i y' y) in Hi' by done. case_decide; simplify_eq; done.
Qed.

Lemma push_newly_left i j t x x' y g :
  group_workers g !! i = Some x → wb_pc x ≠ Left → group_workers g !! j = Some y →
  group_workers (push_event j t y g) !! i = Some x' → wb_pc x' = Left → False.
Proof.
  intros Hi Hx Hj Hi' Hx'. unfold push_event in Hi'. destruct (group_workers g !! t) as [z|] eqn:Ht; [|by simplify_eq].
  destruct (Nat.eqb_spec j t) as [|Hne]; [by simplify_eq|]. set (g1 := put j _ g) in Hi'.
  assert (Ht1 : group_workers g1 !! t = Some z) by (unfold g1; by rewrite (lookup_put j t _ y), decide_False).
  rewrite (lookup_put t i _ z) in Hi' by done. case_decide; [subst; by simplify_eq|].
  by apply (put_newly_left i j x x' y) in Hi'.
Qed.

Lemma leaves_only_quiescent full g op i x x' :
  group_workers g !! i = Some x → wb_pc x ≠ Left → group_workers (group_step full g op) !! i = Some x' → wb_pc x' = Left →
  snap_all_quiescent (barrier_snapshot full (group_word g)) = true.
Proof.
  intros Hi Hx Hi' Hx'. destruct op as [| |j a]; [simpl in Hi'; by simplify_eq..|].
  unfold group_step in Hi'. destruct (group_workers g !! j) as [y|] eqn:Hj; [|by simplify_eq].
  assert (Hput : ∀ y', group_workers (put j y' g) !! i = Some x' → wb_pc y' = Left) by (intros y' H; exact (put_newly_left _ _ _ _ _ _ _ Hi Hx Hj H Hx')).
  unfold worker_step, set_word in Hi'.
  destruct a, (wb_pc y) as [| |t b| | |e|e| |e| |] eqn:Hpc; cbn [running] in Hi'; try (by simplify_eq).
  all: try (exfalso; exact (push_newly_left _ _ _ _ _ _ _ Hi Hx Hj Hi' Hx')).
  all: repeat case_match; try (by simplify_eq); try (by apply Hput in Hi').
  - apply Hput in Hi'. by destruct b.
  - by to_prop.
Qed.

(** C11: The shutdown barrier detects quiescence soundly: after any interleaving
    of the workers' accesses, re-arming and aborting included, whenever the word
    says that all are quiescent every worker rests, every inbox is empty and no
    local work or publication is left; and a worker leaves the phase by the
    barrier only in such a state. *)
Theorem quiescence_sound (n : nat) (full : Z) (ops : list GroupOp) :
  makeBarrier (Z.of_nat n) = Ret full →
  let g := group_run full ops (freshGroup n) in
  (snap_all_quiescent (barrier_snapshot full (group_word g)) = true →
   ∀ i x, group_workers g !! i = Some x → busy (wb_pc x) = false ∧ wb_inbox x = 0%nat ∧ wb_work x = 0%nat)
  ∧ (∀ op i x x', group_workers g !! i = Some x → wb_pc x ≠ Left →
     group_workers (group_step full g op) !! i = Some x' → wb_pc x' = Left →
     snap_all_quiescent (barrier_snapshot full (group_word g)) = true).
Proof.
  intros Hf g. pose proof (makeBarrier_count _ _ Hf) as Hn.
  destruct (group_run_ok full ops (freshGroup n)) as [Hok Hlen]; [apply freshGroup_ok|simpl; rewrite length_replicate; lia|].
  fold g in Hok, Hlen. simpl in Hlen. rewrite length_replicate in Hlen. split; [by apply (all_quiescent_sound n)|].
  intros op i x x'. apply leaves_only_quiescent.
Qed.

(** ** A quiet group leaves *)

Definition calm_worker (pc : PhaseB) : WorkerB := mkWorkerB pc 0 0.

(** One round of the [Waiting] branch of the loop. *)
Definition round (i : nat) : list GroupOp :=
  [GWorker i TakeSnapshot; GWorker i Scan; GWorker i Mark; GWorker i SnapshotAfter; GWorker i SnapshotVerify].
Definition rounds (n : nat) : list GroupOp := concat (round <$> seq 0 n).

Lemma group_run_app full ops ops' g : group_run full (ops ++ ops') g = group_run full ops' (group_run full ops g).
Proof. apply foldl_app. Qed.

Lemma group_run_cons full op ops g : group_run full (op :: ops) g = group_run full ops (group_step full g op).
Proof. done. Qed.

Lemma step_at full w ws i x a :
  ws !! i = Some x → group_step full (mkGroup w ws) (GWorker i a) = worker_step full i a x (mkGroup w ws).
Proof. intros Hi. unfold group_step. simpl group_workers. by rewrite Hi. Qed.

Lemma step_at_insert full w ws i x y a :
  ws !! i = Some y →
  group_step full (mkGroup w (<[i := x]> ws)) (GWorker i a) = worker_step full i a x (mkGroup w (<[i := x]> ws)).
Proof. intros Hi. apply step_at. apply list_lookup_insert_eq. by eapply lookup_lt_Some. Qed.

Ltac round_fields := cbv [wb_pc wb_inbox wb_work set_pc calm_worker put set_word group_word group_workers].

(** A waiting worker without work marks itself, and leaves when it was the
    last. *)
Lemma round_effect full w ws i :
  ws !! i = Some (calm_worker Waiting) → word_armed w = true → word_aborted w = false → (i < 32)%nat →
  let w' := Z.lor w (Z.shiftl 1 (Z.of_nat i)) in
  group_run full (round i) (mkGroup w ws)
  = mkGroup w' (<[i := calm_worker (if snap_all_quiescent (barrier_snapshot full w') then Left else Waiting)]> ws).
Proof.
  intros Hi Har Hab Hlt w'. unfold round.
  assert (Hle : word_armed w' = true ∧ word_aborted w' = false).
  { unfold w'. rewrite word_armed_bit, word_aborted_bit, !mark_bit by lia. rewrite <-word_armed_bit, <-word_aborted_bit, Har, Hab.
    split; [done|]. replace (63 =? Z.of_nat i) with false by lia. done. }
  destruct Hle as [Har' Hab'].
  assert (Habs : ∀ v, snap_aborted (barrier_snapshot full v) = word_aborted v) by done.
  assert (Heps : ∀ v, snap_epoch (barrier_snapshot full v) = word_epoch v) by done.
  rewrite group_run_cons, (step_at _ _ _ _ _ _ Hi). unfold worker_step. round_fields. rewrite Habs, Heps, Hab.
  rewrite group_run_cons, (step_at_insert _ _ _ _ _ _ _ Hi). unfold worker_step. round_fields. cbn [Nat.eqb andb].
  rewrite list_insert_insert_eq.
  rewrite group_run_cons, (step_at_insert _ _ _ _ _ _ _ Hi). unfold worker_step, tryMarkQuiescent. round_fields.
  rewrite Har, Hab. cbn [negb orb]. rewrite Z.eqb_refl. cbn [negb]. fold w'. rewrite list_insert_insert_eq.
  rewrite group_run_cons, (step_at_insert _ _ _ _ _ _ _ Hi). unfold worker_step. round_fields.
  rewrite Habs, Heps, Hab', list_insert_insert_eq.
  rewrite group_run_cons, (step_at_insert _ _ _ _ _ _ _ Hi). unfold worker_step.
  destruct (snap_all_quiescent (barrier_snapshot full w')) eqn:Hq; round_fields; [|done].
  rewrite Hq, Habs, Heps, Hab', Z.eqb_refl. cbn [andb negb]. by rewrite list_insert_insert_eq.
Qed.

Lemma round_left full w ws i : ws !! i = Some (calm_worker Left) → group_run full (round i) (mkGroup w ws) = mkGroup w ws.
Proof.
  intros Hi. assert (Hs : ∀ a, group_step full (mkGroup w ws) (GWorker i a) = mkGroup w ws).
  { intros a. rewrite (step_at _ _ _ _ _ _ Hi). by destruct a. }
  unfold round. by rewrite !group_run_cons, !Hs.
Qed.

(** All workers rest without work, and no bit belongs to none of them. *)
Record calm (n : nat) g : Prop := {
  calm_armed : word_armed (group_word g) = true;
  calm_live : word_aborted (group_word g) = false;
  calm_high : ∀ i, Z.of_nat n <= i < 32 → Z.testbit (group_word g) i = false;
  calm_length : length (group_workers g) = n;
  calm_workers : ∀ i x, group_workers g !! i = Some x →
    x = calm_worker Waiting ∨ (x = calm_worker Left ∧ Z.testbit (group_word g) (Z.of_nat i) = true)
}.

Lemma calm_round n full g i :
  makeBarrier (Z.of_nat n) = Ret full → calm n g → (i < n)%nat →
  let g' := group_run full (round i) g in
  calm n g' ∧ Z.testbit (group_word g') (Z.of_nat i) = true
  ∧ (∀ k, Z.testbit (group_word g) k = true → Z.testbit (group_word g') k = true)
  ∧ (∀ j, group_workers g !! j = Some (calm_worker Left) → group_workers g' !! j = Some (calm_worker Left))
  ∧ ((∀ k, (k < n)%nat → Z.testbit (group_word g') (Z.of_nat k) = true) → group_workers g' !! i = Some (calm_worker Left)).
Proof.
  intros Hf Hc Hi g'. pose proof (makeBarrier_count _ _ Hf) as Hn. destruct g as [w ws]. destruct Hc as [Har Hab Hhigh Hlen Hws]. cbn [group_word group_workers] in Har, Hab, Hhigh, Hlen, Hws |- *.
  destruct (lookup_lt_is_Some_2 ws i ltac:(lia)) as [x Hx]. destruct (Hws i x Hx) as [-> | [-> Hb]].
  2: { assert (Hg' : g' = mkGroup w ws) by (by apply round_left). rewrite Hg'. cbn [group_word group_workers]. split_and!; [by constructor|done|done|done|done]. }
  assert (Hg' := round_effect full w ws i Hx Har Hab ltac:(lia)). cbv zeta in Hg'. fold g' in Hg'.
  set (w' := Z.lor w _) in Hg'.
  assert (Hbit : ∀ k, Z.testbit w' k = Z.testbit w k || (k =? Z.of_nat i)) by (intros k; apply mark_bit; lia).
  assert (Hown : Z.testbit w' (Z.of_nat i) = true) by (by rewrite Hbit, Z.eqb_refl, orb_true_r).
  assert (Har' : word_armed w' = true) by (by rewrite word_armed_bit, Hbit, <-word_armed_bit, Har).
  assert (Hab' : word_aborted w' = false).
  { rewrite word_aborted_bit, Hbit, <-word_aborted_bit, Hab. by replace (63 =? Z.of_nat i) with false by lia. }
  assert (Hhigh' : ∀ k, Z.of_nat n <= k < 32 → Z.testbit w' k = false).
  { intros k Hk. rewrite Hbit, Hhigh by lia. by replace (k =? Z.of_nat i) with false by lia. }
  rewrite Hg'. cbn [group_word group_workers]. split_and!; [|done|intros k Hk; by rewrite Hbit, Hk| |].
  - constructor; cbn [group_word group_workers]; [done|done|done|by rewrite length_insert|].
    intros j y Hj. rewrite list_lookup_insert in Hj. case_decide as Hij.
    + destruct Hij as [<- _]. injection Hj as <-. split_if; [right; by split|by left].
    + destruct (Hws j y Hj) as [|[-> Hb]]; [by left|]. right. by rewrite Hbit, Hb.
  - intros j Hj. rewrite list_lookup_insert_ne; [done|]. intros <-. by rewrite Hx in Hj.
  - intros Hall. rewrite list_lookup_insert_eq by lia. erewrite bits_all_quiescent; [done|done|lia|done|done|].
    intros k Hk. destruct (Z.ltb_spec k (Z.of_nat n)).
    + rewrite <-(Z2Nat.id k) by lia. apply Hall. lia.
    + apply Hhigh'. lia.
Qed.

Lemma rounds_S n : rounds (S n) = rounds n ++ round n.
Proof. unfold rounds. by rewrite seq_S, fmap_app, concat_app. Qed.

(** After [k] rounds of a pass the first [k] workers are marked; if all are
    marked before the pass, the first [k] have left. *)
Lemma calm_rounds n full g k :
  makeBarrier (Z.of_nat n) = Ret full → calm n g → (k ≤ n)%nat →
  let g' := group_run full (rounds k) g in
  calm n g' ∧ (∀ j, (j < k)%nat → Z.testbit (group_word g') (Z.of_nat j) = true)
  ∧ (∀ j, Z.testbit (group_word g) j = true → Z.testbit (group_word g') j = true)
  ∧ ((∀ j, (j < n)%nat → Z.testbit (group_word g) (Z.of_nat j) = true) →
     ∀ j, (j < k)%nat → group_workers g' !! j = Some (calm_worker Left)).
Proof.
  intros Hf Hc. induction k as [|k IH]; intros Hk g'.
  - subst g'. change (group_run full (rounds 0) g) with g. split_and!; [done|lia|done|]. intros; lia.
  - unfold g'. clear g'. rewrite rounds_S, group_run_app. destruct (IH ltac:(lia)) as (Hc1 & Hm1 & Hb1 & Hl1). clear IH.
    destruct (calm_round n full (group_run full (rounds k) g) k Hf Hc1 ltac:(lia)) as (Hc2 & Ho2 & Hb2 & Hl2 & Hg2).
    split_and!; [done| | |].
    + intros j Hj. destruct (decide (j = k)) as [->|]; [done|]. apply Hb2, Hm1. lia.
    + intros j Hj. by apply Hb2, Hb1.
    + intros Hall j Hj. destruct (decide (j = k)) as [->|]; [|apply Hl2, Hl1; [done|lia]].
      apply Hg2. intros i Hi. by apply Hb2, Hb1, Hall.
Qed.

(** ** Bits of no worker *)

Definition high_clear g : Prop :=
  ∀ k, Z.of_nat (length (group_workers g)) <= k < 32 → Z.testbit (group_word g) k = false.

Lemma step_high_clear full g op :
  group_ok g → (length (group_workers g) ≤ 32)%nat → high_clear g → high_clear (group_step full g op).
Proof.
  intros Hok Hn Hh k Hk. rewrite length_step in Hk. specialize (Hh k Hk). destruct op as [| |i a].
  - simpl group_word. rewrite barrier_arm_bit by lia. by replace (k <? 32) with true by lia.
  - simpl group_word. rewrite abort_bit, Hh. by replace (k =? 63) with false by lia.
  - unfold group_step. destruct (group_workers g !! i) as [x|] eqn:Hi; [|done].
    pose proof (lookup_lt_Some _ _ _ Hi) as Hlt.
    assert (Hput : ∀ y, group_word (put i y g) = group_word g) by done.
    unfold worker_step. destruct a, (wb_pc x) as [| |t b| | |e|e| |e| |] eqn:Hpc; try done; cbn [running].
    all: unfold push_event, tryMarkQuiescent; repeat case_match; simplify_eq; try done; unfold set_word; cbn [group_word].
    + destruct (Z.testbit (notePublished _ _) k) eqn:E; [|done]. apply note_bits in E; [congruence| |lia].
      destruct (wo_target _ _ _ (Hok _ _ Hi) t b Hpc). lia.
    + destruct (negb (word_armed (group_word g)) || word_aborted (group_word g)) eqn:Hc; [by rewrite markActive_other|].
      to_prop. rewrite markActive_bit by (done || lia). by rewrite Hh.
    + rewrite mark_bit, Hh by lia. by replace (k =? Z.of_nat i) with false by lia.
Qed.

Lemma run_high_clear full ops g :
  group_ok g → (length (group_workers g) ≤ 32)%nat → high_clear g → high_clear (group_run full ops g).
Proof.
  revert g. induction ops as [|op ops IH]; intros g Hok Hn Hh; [done|]. rewrite group_run_cons.
  apply IH; [by apply group_step_ok|by rewrite length_step|by apply step_high_clear].
Qed.

(** The barrier lets a quiet group go: when every worker rests with an empty
    inbox and no local work and the barrier is not aborted, two rounds of each
    worker's loop take all of them out of the phase, whatever happened before. *)
Theorem quiet_group_leaves (n : nat) (full : Z) (ops : list GroupOp) :
  makeBarrier (Z.of_nat n) = Ret full →
  let g := group_run full ops (freshGroup n) in
  group_workers g = replicate n (calm_worker Waiting) → word_aborted (group_word g) = false →
  group_workers (group_run full (rounds n ++ rounds n) g) = replicate n (calm_worker Left).
Proof.
  intros Hf g Hws Hab. pose proof (makeBarrier_count _ _ Hf) as Hn.
  assert (Hlen : (length (group_workers (freshGroup n)) ≤ 32)%nat) by (simpl; rewrite length_replicate; lia).
  destruct (group_run_ok full ops (freshGroup n) (freshGroup_ok n) Hlen) as [Hok Hl]. fold g in Hok, Hl.
  assert (Hh : high_clear g).
  { apply run_high_clear; [apply freshGroup_ok|done|]. intros k _. apply Z.bits_0. }
  assert (Hc : calm n g).
  { constructor; [|done|..].
    - apply (wo_armed _ _ _ (Hok 0%nat (calm_worker Waiting) ltac:(rewrite Hws; apply lookup_replicate_2; lia))). done.
    - intros i Hi. apply Hh. rewrite Hws, length_replicate. lia.
    - by rewrite Hws, length_replicate.
    - intros i x Hi. rewrite Hws in Hi. apply lookup_replicate in Hi as [-> _]. by left. }
  rewrite group_run_app.
  destruct (calm_rounds n full g n Hf Hc (le_n n)) as (Hc1 & Hm1 & _ & _).
  destruct (calm_rounds n full (group_run full (rounds n) g) n Hf Hc1 (le_n n)) as (Hc2 & _ & _ & Hl2).
  apply list_eq. intros i. destruct (decide (i < n)%nat).
  - rewrite (Hl2 Hm1 i) by done. symmetry. by apply lookup_replicate_2.
  - rewrite !lookup_ge_None_2; [done|rewrite length_replicate; lia|rewrite (calm_length _ _ Hc2); lia].
Qed.

(** Two workers stop, one takes an event the other published, and both rest. *)
Definition shutdown_sample : list GroupOp :=
  [GWorker 0 External; GWorker 0 (Push 1); GArm; GWorker 1 Enter; GWorker 1 Rest; GWorker 1 TakeSnapshot; GWorker 1 Scan;
   GWorker 0 Note; GWorker 0 Finish; GWorker 1 MarkActive; GWorker 1 Receive; GWorker 1 Finish; GWorker 1 Rest;
   GWorker 0 Enter; GWorker 0 Rest].

Lemma quiescence_sound_witness :
  makeBarrier 2 = Ret 3 ∧
  let g := group_run 3 (shutdown_sample ++ rounds 2) (freshGroup 2) in
  (snap_all_quiescent (barrier_snapshot 3 (group_word g)) = true →
   ∀ i x, group_workers g !! i = Some x → busy (wb_pc x) = false ∧ wb_inbox x = 0%nat ∧ wb_work x = 0%nat)
  ∧ (∀ op i x x', group_workers g !! i = Some x → wb_pc x ≠ Left →
     group_workers (group_step 3 g op) !! i = Some x' → wb_pc x' = Left →
     snap_all_quiescent (barrier_snapshot 3 (group_word g)) = true).
Proof. split; [reflexivity|]. apply (quiescence_sound 2 3 (shutdown_sample ++ rounds 2)). reflexivity. Defined.

Lemma quiet_group_leaves_witness :
  makeBarrier 2 = Ret 3 ∧
  let g := group_run 3 shutdown_sample (freshGroup 2) in
  group_workers (group_run 3 (rounds 2 ++ rounds 2) g) = replicate 2 (calm_worker Left).
Proof. split; [reflexivity|]. apply (quiet_group_leaves 2 3 shutdown_sample); vm_compute; reflexivity. Defined.

(** ** Arming twice

    [arm] clears the bits of all workers, also of those that have left and will
    not mark themselves again; [WorkerGroup::requestStop] arms on every call. *)

Definition stranded (i : nat) g : Prop :=
  (∃ x, group_workers g !! i = Some x ∧ wb_pc x = Left) ∧ Z.testbit (group_word g) (Z.of_nat i) = false.

(** A worker that left keeps still, whatever the others do. *)
Lemma left_step full g op i x :
  group_workers g !! i = Some x → wb_pc x = Left →
  ∃ x', group_workers (group_step full g op) !! i = Some x' ∧ wb_pc x' = Left.
Proof.
  intros Hi Hx. destruct op as [| |j a]; [by exists x..|]. unfold group_step.
  destruct (group_workers g !! j) as [y|] eqn:Hj; [|by exists x].
  destruct (decide (j = i)) as [->|Hne]; [rewrite Hi in Hj; injection Hj as <-; unfold worker_step; rewrite Hx; by destruct a; exists x|].
  assert (Hput : ∀ y', group_workers (put j y' g) !! i = Some x) by (intros; by rewrite (lookup_put j i _ y), decide_False).
  assert (Hpush : ∀ t, ∃ x', group_workers (push_event j t y g) !! i = Some x' ∧ wb_pc x' = Left).
  { intros t. unfold push_event. destruct (group_workers g !! t) as [z|] eqn:Ht; [|by exists x]. destruct (j =? t)%nat; [by exists x|].
    set (g1 := put j _ g). assert (Ht1 : is_Some (group_workers g1 !! t)).
    { apply lookup_lt_is_Some_2. unfold g1. rewrite length_put. by eapply lookup_lt_Some. }
    destruct Ht1 as [z' Ht1]. rewrite (lookup_put t i _ z') by done. case_decide; [subst|by exists x; split; [apply Hput|]].
    eexists. split; [done|]. simpl. congruence. }
  unfold worker_step, set_word. destruct a, (wb_pc y) as [| |t b| | |e|e| |e| |]; cbn [running]; repeat case_match.
  all: try (by exists x); try (by exists x; split; [apply Hput|]); apply Hpush.
Qed.

Lemma stranded_step full g op i :
  group_ok g → (length (group_workers g) ≤ 32)%nat → stranded i g → stranded i (group_step full g op).
Proof.
  intros Hok Hn [(x & Hi & Hx) Hb]. split; [by apply (left_step _ _ _ _ x)|].
  pose proof (lookup_lt_Some _ _ _ Hi) as Hlt. destruct op as [| |j a].
  - simpl group_word. rewrite barrier_arm_bit by lia. by replace (Z.of_nat i <? 32) with true by lia.
  - simpl group_word. rewrite abort_bit, Hb. by replace (Z.of_nat i =? 63) with false by lia.
  - unfold group_step. destruct (group_workers g !! j) as [y|] eqn:Hj; [|done]. pose proof (lookup_lt_Some _ _ _ Hj).
    unfold worker_step. destruct a, (wb_pc y) as [| |t b| | |e|e| |e| |] eqn:Hpc; try done; cbn [running].
    all: unfold push_event, tryMarkQuiescent; repeat case_match; simplify_eq; try done; unfold set_word; cbn [group_word].
    + destruct (Z.testbit (notePublished _ _) _) eqn:E; [|done]. apply note_bits in E; [congruence| |lia].
      destruct (wo_target _ _ _ (Hok _ _ Hj) t b Hpc). lia.
    + destruct (negb (word_armed (group_word g)) || word_aborted (group_word g)) eqn:Hc; [by rewrite markActive_other|].
      to_prop. rewrite markActive_bit by (done || lia). by rewrite Hb.
    + rewrite mark_bit, Hb by lia. replace (Z.of_nat i =? Z.of_nat j) with false; [done|]. symmetry. apply Z.eqb_neq.
      intros Hij. apply Nat2Z.inj in Hij. subst. congruence.
Qed.

(** Behaviour the code does not intend: when the barrier is armed again after a
    worker has left, the word never says all quiescent again, so no further
    worker leaves by the barrier; each waits for its shutdown deadline. *)
Theorem rearming_strands_workers (n : nat) (full : Z) (ops ops' : list GroupOp) (i : nat) (x : WorkerB) :
  makeBarrier (Z.of_nat n) = Ret full →
  group_workers (group_run full ops (freshGroup n)) !! i = Some x → wb_pc x = Left →
  snap_all_quiescent (barrier_snapshot full (group_word (group_run full (ops ++ GArm :: ops') (freshGroup n)))) = false.
Proof.
  intros Hf Hi Hx. pose proof (makeBarrier_count _ _ Hf) as Hn.
  assert (Hlen : (length (group_workers (freshGroup n)) ≤ 32)%nat) by (simpl; rewrite length_replicate; lia).
  destruct (group_run_ok full ops (freshGroup n) (freshGroup_ok n) Hlen) as [Hok Hl].
  rewrite group_run_app, group_run_cons. set (g := group_run full ops (freshGroup n)) in *.
  assert (Hl1 : length (group_workers g) = n) by (rewrite Hl; apply length_replicate).
  assert (Hs : stranded i (group_step full g GArm)).
  { split; [by exists x|]. simpl group_word. apply lookup_lt_Some in Hi. rewrite barrier_arm_bit by lia.
    by replace (Z.of_nat i <? 32) with true by lia. }
  assert (Hok1 : group_ok (group_step full g GArm)) by (apply group_step_ok; [done|lia]).
  assert (Hl2 : length (group_workers (group_step full g GArm)) = n) by done.
  generalize dependent (group_step full g GArm). clear -Hf Hn. induction ops' as [|op ops' IH]; intros g [(x & Hi & Hx) Hb] Hok Hl.
  - destruct (snap_all_quiescent _) eqn:Hq; [|done]. destruct (all_quiescent_bits _ _ _ Hf ltac:(lia) Hq) as (_ & _ & Hbits).
    apply lookup_lt_Some in Hi. cbn [group_run foldl] in Hbits. rewrite Hbits in Hb; [done|lia].
  - rewrite group_run_cons. apply IH; [apply stranded_step; [done|lia|split; [by exists x|done]]|apply group_step_ok; [done|lia]|].
    by rewrite length_step.
Qed.

(** Worker 1 leaves, the stop is requested a second time, and worker 0 goes
    round without end. *)
Lemma rearming_strands_workers_witness :
  group_workers (group_run 3 (shutdown_sample ++ rounds 2) (freshGroup 2)) !! 1%nat = Some (calm_worker Left)
  ∧ snap_all_quiescent (barrier_snapshot 3 (group_word
      (group_run 3 ((shutdown_sample ++ rounds 2) ++ GArm :: rounds 2 ++ rounds 2) (freshGroup 2)))) = false.
Proof.
  split; [vm_compute; reflexivity|].
  apply (rearming_strands_workers 2 3 (shutdown_sample ++ rounds 2) (rounds 2 ++ rounds 2) 1 (calm_worker Left)); vm_compute; reflexivity.
Defined.
