(* ===== verification/TimerQueue.v ===== *)
(** * Timer queue

    The worker's timers ([src/include/snf/worker/timer_queue.hpp]): a binary heap
    by deadline with a bound on entries, a bound on the bytes of application
    timers, and reservations against both.  The heap algorithms of the standard
    library appear through what it documents of them, as a class with an
    instance. *)

From S2P Require Import Prelude Identity.

(** ** Heap algorithms *)

Section heap.
Context {A : Type} (key : A → Z).

(** [std::is_heap] with the comparison "later deadline": no element is before
    its parent. *)
Definition is_heap (l : list A) : Prop :=
  ∀ i a b, (0 < i)%nat → l !! Nat.div2 (Nat.pred i) = Some a → l !! i = Some b → key a <= key b.

(** [std::push_heap], [std::pop_heap] and [std::make_heap]: which permutation
    they leave is not specified. *)
Class HeapAlgorithms := {
  push_heap : list A → list A;
  pop_heap : list A → list A;
  make_heap : list A → list A;
  push_heap_spec : ∀ l a, is_heap l → push_heap (l ++ [a]) ≡ₚ l ++ [a] ∧ is_heap (push_heap (l ++ [a]));
  pop_heap_spec : ∀ a l, is_heap (a :: l) → ∃ l', pop_heap (a :: l) = l' ++ [a] ∧ l' ≡ₚ l ∧ is_heap l';
  make_heap_spec : ∀ l, make_heap l ≡ₚ l ∧ is_heap (make_heap l)
}.

Lemma is_heap_nil : is_heap [].
Proof. intros i a b _ ?. by rewrite lookup_nil. Qed.

(** The front of a heap is a minimum. *)
Lemma is_heap_front a l : is_heap (a :: l) → Forall (fun b => key a <= key b) (a :: l).
Proof.
  intros Hh. apply Forall_lookup. intros i. induction (lt_wf i) as [i _ IH]. intros b Hb.
  destruct i as [|i]; [by injection Hb as <-|].
  assert (Hlt : (Nat.div2 i < S i)%nat) by (pose proof (Nat.div2_decr i i ltac:(lia)); lia).
  assert (Hlen : (S i < length (a :: l))%nat) by (by eapply lookup_lt_Some).
  destruct (lookup_lt_is_Some_2 (a :: l) (Nat.div2 i)) as [p Hp]; [lia|].
  specialize (IH _ Hlt p Hp). pose proof (Hh (S i) p b ltac:(lia) Hp Hb). lia.
Qed.

(** An ascending vector is a heap, so sorting implements the algorithms. *)
Definition key_le (a b : A) : Prop := key a <= key b.
#[local] Instance key_le_dec a b : Decision (key_le a b).
Proof. unfold key_le. apply _. Defined.
#[local] Instance key_le_total : Total key_le.
Proof. intros a b. unfold key_le. lia. Qed.
#[local] Instance key_le_trans : Transitive key_le.
Proof. intros a b c. unfold key_le. lia. Qed.

Lemma sorted_is_heap l : StronglySorted key_le l → is_heap l.
Proof.
  intros Hs i a b Hi Ha Hb. assert (Hlt : (Nat.div2 (Nat.pred i) < i)%nat) by (pose proof (Nat.div2_decr (Nat.pred i) (Nat.pred i) ltac:(lia)); lia).
  revert Ha Hb Hlt. generalize (Nat.div2 (Nat.pred i)). intros j. clear Hi. revert i j.
  induction Hs as [|c l Hs IH Hc]; intros [|i] [|j] Ha Hb Hlt; simpl in *; try done; try lia.
  - injection Ha as ->. rewrite Forall_forall in Hc. by apply Hc, list_elem_of_lookup_2 with i.
  - eapply IH; [done|done|lia].
Qed.

#[local] Program Instance sorting_heap : HeapAlgorithms := {
  push_heap l := merge_sort key_le l;
  pop_heap l := match l with a :: l' => merge_sort key_le l' ++ [a] | [] => [] end;
  make_heap l := merge_sort key_le l
}.
Next Obligation.
  intros l a _. split; [apply merge_sort_Permutation|]. apply sorted_is_heap, StronglySorted_merge_sort; apply _.
Qed.
Next Obligation.
  intros a l _. eexists. split; [done|]. split; [apply merge_sort_Permutation|].
  apply sorted_is_heap, StronglySorted_merge_sort; apply _.
Qed.
Next Obligation.
  intros l. split; [apply merge_sort_Permutation|]. apply sorted_is_heap, StronglySorted_merge_sort; apply _.
Qed.
End heap.

(** ** Data *)

Section timers.
(** Application messages and the bytes they are charged. *)
Context {M : Type} (chargedBytes : M → Z).

Record ConnectionHandle := mkConnectionHandle { handle_id : Z; handle_generation : Z }.

Inductive TimerPayload :=
| AwaitTimeout (key : AwaitKey)
| ConnectionCloseDeadline (connection : ConnectionHandle)
| ApplicationTimer (target : ActivationRef) (message : M).

Record TimerEntry := mkTimerEntry { entry_deadline : time_point; entry_payload : TimerPayload }.

Context `{Heap : !HeapAlgorithms entry_deadline}.

Notation "'TIMER_CAPACITY'" := 65536 : snf_scope.

Record TimerQueue := mkTimerQueue {
  tq_heap : list TimerEntry;
  tq_reserved_entries : Z;
  tq_reserved_application_timer_entries : Z;
  tq_max_application_timer_bytes : Z;
  tq_application_timer_bytes : Z;
  tq_reserved_application_timer_bytes : Z
}.
Implicit Types q : TimerQueue.

Definition makeTimerQueue (max_application_timer_bytes : Z) : TimerQueue :=
  mkTimerQueue [] 0 0 max_application_timer_bytes 0 0.

Definition set_heap (h : list TimerEntry) q : TimerQueue :=
  mkTimerQueue h (tq_reserved_entries q) (tq_reserved_application_timer_entries q) (tq_max_application_timer_bytes q)
    (tq_application_timer_bytes q) (tq_reserved_application_timer_bytes q).
Definition set_reserved (entries app_entries app_bytes : Z) q : TimerQueue :=
  mkTimerQueue (tq_heap q) entries app_entries (tq_max_application_timer_bytes q) (tq_application_timer_bytes q) app_bytes.
Definition set_app_bytes (bytes : Z) q : TimerQueue :=
  mkTimerQueue (tq_heap q) (tq_reserved_entries q) (tq_reserved_application_timer_entries q) (tq_max_application_timer_bytes q)
    bytes (tq_reserved_application_timer_bytes q).
Definition set_max (max : Z) q : TimerQueue :=
  mkTimerQueue (tq_heap q) (tq_reserved_entries q) (tq_reserved_application_timer_entries q) max
    (tq_application_timer_bytes q) (tq_reserved_application_timer_bytes q).

Definition hasEntryCapacity q : bool :=
  (tq_reserved_entries q <? TIMER_CAPACITY) && (zlen (tq_heap q) <? TIMER_CAPACITY - tq_reserved_entries q).

Definition hasApplicationByteCapacity q (charge : Z) : bool :=
  if tq_max_application_timer_bytes q <? tq_application_timer_bytes q then false
  else
    let after_committed := tq_max_application_timer_bytes q - tq_application_timer_bytes q in
    if after_committed <? tq_reserved_application_timer_bytes q then false
    else charge <=? after_committed - tq_reserved_application_timer_bytes q.

Definition hasCommittedApplicationByteCapacity q (charge : Z) : bool :=
  (tq_application_timer_bytes q <=? tq_max_application_timer_bytes q)
  && (charge <=? tq_max_application_timer_bytes q - tq_application_timer_bytes q).

(** [requireInvariant]: [std::terminate] when the condition fails. *)
Definition requireInvariant {B} (condition : bool) (k : option B) : option B := if condition then k else None.

(** The charge of an application timer; other payloads have none. *)
Definition payload_charge (p : TimerPayload) : option Z :=
  match p with ApplicationTimer _ m => Some (chargedBytes m) | _ => None end.
Definition is_application (e : TimerEntry) : bool := has_value (payload_charge (entry_payload e)).
Definition entry_bytes (e : TimerEntry) : Z := default 0 (payload_charge (entry_payload e)).

Definition push_entry (deadline : time_point) (p : TimerPayload) q : TimerQueue :=
  set_heap (push_heap entry_deadline (tq_heap q ++ [mkTimerEntry deadline p])) q.

(** ** Operations *)

Definition setMaxApplicationTimerBytes (max : Z) q : option TimerQueue :=
  requireInvariant ((tq_application_timer_bytes q <=? max) && (tq_reserved_application_timer_bytes q <=? max - tq_application_timer_bytes q))
    (Some (set_max max q)).

Definition trySchedule (deadline : time_point) (p : TimerPayload) q : bool * TimerQueue :=
  if negb (hasEntryCapacity q) then (false, q)
  else
    match payload_charge p with
    | Some charge =>
        if negb (hasApplicationByteCapacity q charge) then (false, q)
        else (true, push_entry deadline p (set_app_bytes (u64 (tq_application_timer_bytes q + charge)) q))
    | None => (true, push_entry deadline p q)
    end.

Definition tryReserve q : bool * TimerQueue :=
  if negb (hasEntryCapacity q) then (false, q)
  else (true, set_reserved (tq_reserved_entries q + 1) (tq_reserved_application_timer_entries q)
                (tq_reserved_application_timer_bytes q) q).

Definition releaseReservation q : option TimerQueue :=
  requireInvariant (0 <? tq_reserved_entries q)
    (Some (set_reserved (tq_reserved_entries q - 1) (tq_reserved_application_timer_entries q)
             (tq_reserved_application_timer_bytes q) q)).

Definition commitReserved (deadline : time_point) (p : TimerPayload) q : option TimerQueue :=
  q1 ← releaseReservation q;
  match payload_charge p with
  | Some charge =>
      requireInvariant (hasCommittedApplicationByteCapacity q1 charge)
        (Some (push_entry deadline p (set_app_bytes (u64 (tq_application_timer_bytes q1 + charge)) q1)))
  | None => Some (push_entry deadline p q1)
  end.

Definition tryReserveApplicationTimer (charged_bytes : Z) q : bool * TimerQueue :=
  if negb (hasEntryCapacity q) then (false, q)
  else if negb (hasApplicationByteCapacity q charged_bytes) then (false, q)
  else (true, set_reserved (tq_reserved_entries q + 1) (tq_reserved_application_timer_entries q + 1)
                (u64 (tq_reserved_application_timer_bytes q + charged_bytes)) q).

Definition releaseApplicationTimerReservation (charged_bytes : Z) q : option TimerQueue :=
  requireInvariant ((0 <? tq_reserved_entries q) && (0 <? tq_reserved_application_timer_entries q)
                    && (charged_bytes <=? tq_reserved_application_timer_bytes q))
    (Some (set_reserved (tq_reserved_entries q - 1) (tq_reserved_application_timer_entries q - 1)
             (tq_reserved_application_timer_bytes q - charged_bytes) q)).

Definition commitReservedApplicationTimer (deadline : time_point) (target : ActivationRef) (message : M) (charged_bytes : Z) q
    : option TimerQueue :=
  requireInvariant ((0 <? tq_reserved_entries q) && (0 <? tq_reserved_application_timer_entries q)
                    && (charged_bytes <=? tq_reserved_application_timer_bytes q) && (chargedBytes message =? charged_bytes)
                    && hasCommittedApplicationByteCapacity q charged_bytes)
    (Some (push_entry deadline (ApplicationTimer target message)
             (set_app_bytes (u64 (tq_application_timer_bytes q + charged_bytes))
                (set_reserved (tq_reserved_entries q - 1) (tq_reserved_application_timer_entries q - 1)
                   (tq_reserved_application_timer_bytes q - charged_bytes) q)))).

Definition tryScheduleApplicationTimer (deadline : time_point) (target : ActivationRef) (message : M) q : bool * TimerQueue :=
  let charge := chargedBytes message in
  if negb (hasEntryCapacity q) then (false, q)
  else if negb (hasApplicationByteCapacity q charge) then (false, q)
  else (true, push_entry deadline (ApplicationTimer target message) (set_app_bytes (u64 (tq_application_timer_bytes q + charge)) q)).

Definition applicationTimerCount q : Z := Z.of_nat (count_if is_application (tq_heap q)).

(** The predicate of [std::erase_if]: subtract the charge of every application
    timer, terminating when the account does not cover it. *)
Fixpoint discharge (h : list TimerEntry) (bytes : Z) : option Z :=
  match h with
  | [] => Some bytes
  | e :: h' =>
      if is_application e then requireInvariant (entry_bytes e <=? bytes) (discharge h' (bytes - entry_bytes e))
      else discharge h' bytes
  end.

Definition cancelApplicationTimers q : option (Z * TimerQueue) :=
  bytes ← discharge (tq_heap q) (tq_application_timer_bytes q);
  let kept := filter (fun e => is_application e = false) (tq_heap q) in
  let count := zlen (tq_heap q) - zlen kept in
  let q' := set_app_bytes bytes (set_heap (if 0 <? count then make_heap entry_deadline kept else kept) q) in
  requireInvariant (negb (applicationTimerCount q' =? 0) || (tq_application_timer_bytes q' =? 0)) (Some (count, q')).

Definition nextDeadline q : option time_point := entry_deadline <$> list.head (tq_heap q).

Record ExpireResult := mkExpireResult { er_expired : Z; er_due_items_remain : bool; er_budget_exhausted : bool }.

Definition front_due (now : time_point) q : bool :=
  match list.head (tq_heap q) with Some e => entry_deadline e <=? now | None => false end.

(** [pop_heap], the back moved out and erased, its charge given back. *)
Definition pop_due q : option (TimerEntry * TimerQueue) :=
  let h := pop_heap entry_deadline (tq_heap q) in
  e ← last h;
  let q1 := set_heap (take (Nat.pred (length h)) h) q in
  if is_application e then
    requireInvariant (entry_bytes e <=? tq_application_timer_bytes q1)
      (Some (e, set_app_bytes (tq_application_timer_bytes q1 - entry_bytes e) q1))
  else Some (e, q1).

(** The loop of [expire].  The handler acts on the queue and on a state of its
    own, or stops the program; [late n]: the clock has passed the budget when it
    is read after [n] callbacks.  Each round expires one entry and [max_count]
    bounds them, so [S max_count] rounds always end the loop. *)
Section expire.
Context {S : Type} (handler : TimerPayload → TimerQueue * S → option (TimerQueue * S)) (late : Z → bool).

Fixpoint expire_loop (fuel : nat) (now : time_point) (max_count expired : Z) (qs : TimerQueue * S)
    : option (ExpireResult * (TimerQueue * S)) :=
  match fuel with
  | O => None
  | Datatypes.S fuel' =>
      if negb (front_due now qs.1) then Some (mkExpireResult expired false false, qs)
      else if max_count <=? expired then Some (mkExpireResult expired true true, qs)
      else
        '(e, q1) ← pop_due qs.1;
        qs' ← handler (entry_payload e) (q1, qs.2);
        let expired' := expired + 1 in
        if (Z.land expired' 63 =? 0) && late expired'
        then Some (mkExpireResult expired' (front_due now qs'.1) true, qs')
        else expire_loop fuel' now max_count expired' qs'
  end.

(** The trailing test of the source sets [due_items_remain] again. *)
Definition expire (now : time_point) (max_count : Z) (qs : TimerQueue * S) : option (ExpireResult * (TimerQueue * S)) :=
  '(r, qs') ← expire_loop (Datatypes.S (Z.to_nat max_count)) now max_count 0 qs;
  Some (mkExpireResult (er_expired r) (er_due_items_remain r || front_due now qs'.1) (er_budget_exhausted r), qs').
End expire.

(** ** Invariant

    The clients of the queue hold [plain] reservations of an entry and the
    application reservations [tokens], each with the bytes it was taken for. *)

Definition heap_bytes (h : list TimerEntry) : Z := zsum entry_bytes h.

Record timers_ok (plain : nat) (tokens : list Z) q : Prop := {
  to_heap : is_heap entry_deadline (tq_heap q);
  to_entries : tq_reserved_entries q = Z.of_nat plain + zlen tokens;
  to_app_entries : tq_reserved_application_timer_entries q = zlen tokens;
  to_reserved : tq_reserved_application_timer_bytes q = zsum id tokens;
  to_bytes : tq_application_timer_bytes q = heap_bytes (tq_heap q);
  to_capacity : zlen (tq_heap q) + tq_reserved_entries q <= TIMER_CAPACITY;
  to_max : tq_application_timer_bytes q + tq_reserved_application_timer_bytes q <= tq_max_application_timer_bytes q;
  to_width : tq_max_application_timer_bytes q <= U64_MAX;
  to_tokens : Forall (fun c => 0 <= c) tokens;
  to_charges : Forall (fun e => 0 <= entry_bytes e) (tq_heap q)
}.

Hypothesis charge_nonneg : ∀ m, 0 <= chargedBytes m.

Lemma entry_bytes_nonneg e : 0 <= entry_bytes e.
Proof. unfold entry_bytes, payload_charge. destruct (entry_payload e); simpl; [lia|lia|apply charge_nonneg]. Qed.

Lemma makeTimerQueue_ok max : 0 <= max <= U64_MAX → timers_ok 0 [] (makeTimerQueue max).
Proof. intros. constructor; simpl; try done; try lia. Qed.

Lemma heap_bytes_perm h h' : h ≡ₚ h' → heap_bytes h = heap_bytes h'.
Proof. unfold heap_bytes. induction 1; simpl; lia. Qed.

Lemma zlen_perm {B} (h h' : list B) : h ≡ₚ h' → zlen h = zlen h'.
Proof. intros H. unfold zlen. by rewrite (Permutation_length H). Qed.

Lemma tokens_nonneg tokens : Forall (fun c => 0 <= c) tokens → 0 <= zsum id tokens.
Proof. apply zsum_nonneg. Qed.

Section laws.
Context {plain : nat} {tokens : list Z} {q : TimerQueue} (Hok : timers_ok plain tokens q).

Lemma to_bounds : 0 <= tq_application_timer_bytes q ∧ 0 <= tq_reserved_application_timer_bytes q ∧ 0 <= tq_reserved_entries q.
Proof.
  split_and!.
  - rewrite (to_bytes _ _ _ Hok). apply zsum_nonneg, (to_charges _ _ _ Hok).
  - rewrite (to_reserved _ _ _ Hok). apply tokens_nonneg, (to_tokens _ _ _ Hok).
  - rewrite (to_entries _ _ _ Hok). unfold zlen. lia.
Qed.

Lemma hasEntryCapacity_iff : hasEntryCapacity q = true ↔ zlen (tq_heap q) + tq_reserved_entries q < TIMER_CAPACITY.
Proof. unfold hasEntryCapacity. rewrite andb_true_iff, !Z.ltb_lt. pose proof (to_capacity _ _ _ Hok). unfold zlen. lia. Qed.

Lemma hasApplicationByteCapacity_iff c :
  hasApplicationByteCapacity q c = true
  ↔ tq_application_timer_bytes q + tq_reserved_application_timer_bytes q + c <= tq_max_application_timer_bytes q.
Proof.
  unfold hasApplicationByteCapacity. pose proof (to_max _ _ _ Hok). pose proof to_bounds.
  rewrite (proj2 (Z.ltb_ge _ _)), (proj2 (Z.ltb_ge _ _)), Z.leb_le by lia. lia.
Qed.

(** An entry is added where room was checked or reserved. *)
Lemma push_entry_ok plain' tokens' entries app_entries reserved d p :
  entries = Z.of_nat plain' + zlen tokens' → app_entries = zlen tokens' → reserved = zsum id tokens' →
  Forall (fun c => 0 <= c) tokens' → zlen (tq_heap q) + entries < TIMER_CAPACITY →
  tq_application_timer_bytes q + default 0 (payload_charge p) + reserved <= tq_max_application_timer_bytes q →
  timers_ok plain' tokens'
    (push_entry d p (set_app_bytes (u64 (tq_application_timer_bytes q + default 0 (payload_charge p)))
                       (set_reserved entries app_entries reserved q))).
Proof.
  intros He Ha Hr Ht Hcap Hmax. pose proof to_bounds as (Hb1 & Hb2 & Hb3). pose proof (to_width _ _ _ Hok).
  destruct (push_heap_spec entry_deadline (tq_heap q) (mkTimerEntry d p) (to_heap _ _ _ Hok)) as [Hperm Hheap].
  pose proof (entry_bytes_nonneg (mkTimerEntry d p)) as Hnn. unfold entry_bytes in Hnn. simpl in Hnn.
  pose proof (tokens_nonneg _ Ht).
  constructor; simpl; try done; try lia.
  - rewrite u64_small by lia. rewrite (heap_bytes_perm _ _ Hperm). unfold heap_bytes. rewrite zsum_app. simpl.
    change (entry_bytes (mkTimerEntry d p)) with (default 0 (payload_charge p)).
    rewrite (to_bytes _ _ _ Hok). unfold heap_bytes. lia.
  - rewrite (zlen_perm _ _ Hperm). unfold zlen. rewrite length_app. simpl. unfold zlen in Hcap. lia.
  - rewrite u64_small by lia. lia.
  - apply Forall_forall. intros e _. apply entry_bytes_nonneg.
Qed.
End laws.

Lemma set_reserved_same q :
  set_reserved (tq_reserved_entries q) (tq_reserved_application_timer_entries q) (tq_reserved_application_timer_bytes q) q = q.
Proof. by destruct q. Qed.

Lemma set_app_bytes_same q : tq_application_timer_bytes q <= U64_MAX → 0 <= tq_application_timer_bytes q →
  set_app_bytes (u64 (tq_application_timer_bytes q + 0)) q = q.
Proof. intros. rewrite Z.add_0_r, u64_small by lia. by destruct q. Qed.

(** Room for the entry and its bytes is enough to schedule. *)
Lemma trySchedule_ok plain tokens q d p :
  timers_ok plain tokens q → timers_ok plain tokens (trySchedule d p q).2
  ∧ ((trySchedule d p q).1 = true ↔
     zlen (tq_heap q) + tq_reserved_entries q < TIMER_CAPACITY
     ∧ tq_application_timer_bytes q + tq_reserved_application_timer_bytes q + default 0 (payload_charge p)
       <= tq_max_application_timer_bytes q)
  ∧ ((trySchedule d p q).1 = true → tq_heap (trySchedule d p q).2 ≡ₚ mkTimerEntry d p :: tq_heap q).
Proof.
  intros Hok. pose proof (hasEntryCapacity_iff Hok) as Hcap. pose proof (to_bounds Hok) as (Hb1 & Hb2 & Hb3).
  pose proof (to_max _ _ _ Hok) as Hmax. pose proof (to_width _ _ _ Hok) as Hw.
  assert (Hperm : tq_heap (push_entry d p q) ≡ₚ mkTimerEntry d p :: tq_heap q).
  { simpl. rewrite (proj1 (push_heap_spec _ _ _ (to_heap _ _ _ Hok))). by rewrite Permutation_app_comm. }
  unfold trySchedule. destruct (hasEntryCapacity q) eqn:Hc; simpl negb; cbv iota; [|split_and!; [done|naive_solver lia|done]].
  assert (Hroom : zlen (tq_heap q) + tq_reserved_entries q < TIMER_CAPACITY) by (by apply Hcap).
  pose proof (push_entry_ok Hok plain tokens _ _ _ d p (to_entries _ _ _ Hok) (to_app_entries _ _ _ Hok) (to_reserved _ _ _ Hok)
                (to_tokens _ _ _ Hok) Hroom) as Hpush. rewrite set_reserved_same in Hpush.
  destruct (payload_charge p) as [c|] eqn:Hp; cbn [default] in *.
  - pose proof (hasApplicationByteCapacity_iff Hok c) as Hby.
    destruct (hasApplicationByteCapacity q c) eqn:Hcb; simpl negb; cbv iota; cbn [fst snd].
    + split_and!; [apply Hpush; naive_solver lia|naive_solver lia|done].
    + split_and!; [done|naive_solver lia|done].
  - cbn [fst snd]. rewrite set_app_bytes_same in Hpush by lia. split_and!; [apply Hpush; lia|naive_solver lia|done].
Qed.

(** The due entry comes off the queue with its account. *)
Record popped (q : TimerQueue) (e : TimerEntry) (q' : TimerQueue) : Prop := {
  pp_perm : tq_heap q ≡ₚ e :: tq_heap q';
  pp_first : Forall (fun e' => entry_deadline e <= entry_deadline e') (tq_heap q');
  pp_entries : tq_reserved_entries q' = tq_reserved_entries q;
  pp_max : tq_max_application_timer_bytes q' = tq_max_application_timer_bytes q;
  pp_reserved : tq_reserved_application_timer_bytes q' = tq_reserved_application_timer_bytes q;
  pp_bytes : tq_application_timer_bytes q' = tq_application_timer_bytes q - entry_bytes e
}.

Lemma not_application_bytes e : is_application e = false → entry_bytes e = 0.
Proof. unfold is_application, entry_bytes. by destruct (payload_charge _). Qed.

Lemma pop_due_ok plain tokens q e h :
  timers_ok plain tokens q → tq_heap q = e :: h →
  ∃ q', pop_due q = Some (e, q') ∧ timers_ok plain tokens q' ∧ popped q e q'.
Proof.
  intros Hok Hq. pose proof (to_heap _ _ _ Hok) as Hheap. rewrite Hq in Hheap.
  destruct (pop_heap_spec entry_deadline e h Hheap) as (h' & Hpop & Hperm & Hheap').
  apply is_heap_front, Forall_cons in Hheap as [_ Hmin]. rewrite <-Hperm in Hmin.
  pose proof (to_bytes _ _ _ Hok) as Hb. rewrite Hq in Hb. unfold heap_bytes in Hb. simpl in Hb.
  assert (Hnn : 0 <= zsum entry_bytes h) by (apply zsum_nonneg, Forall_forall; intros; apply entry_bytes_nonneg).
  pose proof (entry_bytes_nonneg e). pose proof (heap_bytes_perm _ _ Hperm) as Hhb. unfold heap_bytes in Hhb.
  set (q' := mkTimerQueue h' (tq_reserved_entries q) (tq_reserved_application_timer_entries q) (tq_max_application_timer_bytes q)
               (tq_application_timer_bytes q - entry_bytes e) (tq_reserved_application_timer_bytes q)).
  assert (Hok' : timers_ok plain tokens q').
  { destruct Hok. rewrite Hq in *. unfold zlen in *. simpl in to_capacity0.
    constructor; simpl; try done; try lia; unfold zlen, heap_bytes; [lia|rewrite (Permutation_length Hperm); lia|].
    apply Forall_forall. intros. apply entry_bytes_nonneg. }
  exists q'. split_and!; [|done|constructor; simpl; [by rewrite Hq, Hperm|done..]].
  unfold pop_due. rewrite Hq, Hpop, last_snoc. cbn [mbind option_bind].
  rewrite length_app, Nat.add_1_r. cbn [Nat.pred length]. rewrite take_app_length. destruct (is_application e) eqn:Happ.
  - unfold requireInvariant. rewrite (proj2 (Z.leb_le _ _)); [done|]. simpl. lia.
  - unfold q'. rewrite (not_application_bytes e Happ), Z.sub_0_r. by destruct q.
Qed.

(** The room a due timer leaves is enough to put it back. *)
Lemma requeue_succeeds plain tokens q e q' d :
  timers_ok plain tokens q → timers_ok plain tokens q' → popped q e q' → (trySchedule d (entry_payload e) q').1 = true.
Proof.
  intros Hok Hok' [Hp _ He Hm Hr Hb]. destruct (trySchedule_ok plain tokens q' d (entry_payload e) Hok') as (_ & Hiff & _).
  apply Hiff. pose proof (to_capacity _ _ _ Hok) as Hc. pose proof (to_max _ _ _ Hok). rewrite (zlen_perm _ _ Hp) in Hc.
  unfold zlen in *. simpl in Hc. change (default 0 (payload_charge (entry_payload e))) with (entry_bytes e). lia.
Qed.

(** ** Expiry *)

(** The worker's handler on timers: an application timer whose mailbox is
    saturated goes back to the queue for a later deadline (and a failure there
    stops the program), everything else is delivered. *)
Definition deliver (saturated : TimerPayload → bool) (retry : time_point) (p : TimerPayload) (qs : TimerQueue * list TimerPayload)
    : option (TimerQueue * list TimerPayload) :=
  if has_value (payload_charge p) && saturated p
  then let '(scheduled, q) := trySchedule retry p qs.1 in if scheduled then Some (q, qs.2) else None
  else Some (qs.1, qs.2 ++ [p]).

Lemma front_due_iff plain tokens now q :
  timers_ok plain tokens q → front_due now q = true ↔ Exists (fun e => entry_deadline e <= now) (tq_heap q).
Proof.
  intros Hok. unfold front_due. pose proof (to_heap _ _ _ Hok) as Hh. destruct (tq_heap q) as [|e h]; simpl.
  - split; [done|]. by intros ?%Exists_nil.
  - rewrite Z.leb_le. split; [by left|]. apply is_heap_front in Hh. intros (e' & He' & Hd)%Exists_exists.
    rewrite Forall_forall in Hh. specialize (Hh e' He'). lia.
Qed.

Section expiry.
Context (saturated : TimerPayload → bool) (retry : time_point) (late : Z → bool) (now : time_point) (max_count : Z).

(** Expiry ends, keeps the accounts, never fails to put a saturated timer back,
    respects the count and reports exactly whether due entries are left. *)
Lemma expire_loop_ok plain tokens fuel expired q log :
  timers_ok plain tokens q → 0 <= expired → (Z.to_nat (max_count - expired) < fuel)%nat →
  ∃ r q' log', expire_loop (deliver saturated retry) late fuel now max_count expired (q, log) = Some (r, (q', log'))
    ∧ timers_ok plain tokens q' ∧ expired <= er_expired r <= Z.max expired max_count
    ∧ (er_due_items_remain r = front_due now q') ∧ (er_budget_exhausted r = false → front_due now q' = false).
Proof.
  revert expired q log. induction fuel as [|fuel IH]; intros expired q log Hok Hexp Hfuel; [lia|]. simpl.
  destruct (front_due now q) eqn:Hdue; simpl negb; cbv iota; [|eexists _, q, log; split_and!; try done; simpl; lia].
  destruct (max_count <=? expired) eqn:Hm; [eexists _, q, log; split_and!; try done; simpl; lia|]. to_prop.
  destruct (tq_heap q) as [|e h] eqn:Hq; [by unfold front_due in Hdue; rewrite Hq in Hdue|].
  destruct (pop_due_ok _ _ _ _ _ Hok Hq) as (q1 & -> & Hok1 & Hpop). cbn [mbind option_bind].
  assert (Hdel : ∃ q2 log2, deliver saturated retry (entry_payload e) (q1, log) = Some (q2, log2) ∧ timers_ok plain tokens q2).
  { unfold deliver. cbn [fst snd]. destruct (has_value _ && _); [|eauto].
    pose proof (requeue_succeeds _ _ _ _ _ retry Hok Hok1 Hpop) as Hs.
    pose proof (trySchedule_ok plain tokens q1 retry (entry_payload e) Hok1) as (Hok2 & _).
    destruct (trySchedule retry (entry_payload e) q1) as [b q2]. simpl in *. subst b. eauto. }
  destruct Hdel as (q2 & log2 & -> & Hok2). cbn [mbind option_bind].
  destruct (_ && _).
  - eexists _, q2, log2. split_and!; try done; simpl; lia.
  - destruct (IH (expired + 1) q2 log2) as (r & q' & log' & Heq & Hok' & Hr & Hd & Hb); [done|lia|lia|].
    exists r, q', log'. split_and!; try done; lia.
Qed.

Lemma expire_ok plain tokens q log :
  timers_ok plain tokens q → 0 <= max_count →
  ∃ r q' log', expire (deliver saturated retry) late now max_count (q, log) = Some (r, (q', log'))
    ∧ timers_ok plain tokens q' ∧ 0 <= er_expired r <= max_count
    ∧ (er_due_items_remain r = front_due now q') ∧ (er_budget_exhausted r = false → front_due now q' = false).
Proof.
  intros Hok Hm. destruct (expire_loop_ok plain tokens (S (Z.to_nat max_count)) 0 q log) as (r & q' & log' & Heq & Hok' & Hr & Hd & Hb);
    [done|lia|lia|].
  unfold expire. rewrite Heq. cbn [mbind option_bind]. eexists _, q', log'. split_and!; [done|done|simpl; lia|simpl; lia| |done].
  simpl. rewrite Hd. apply orb_diag.
Qed.
End expiry.

(** ** Reservations *)

Lemma timer_tryReserve_ok plain tokens q :
  timers_ok plain tokens q →
  if (tryReserve q).1 then timers_ok (S plain) tokens (tryReserve q).2 else (tryReserve q).2 = q.
Proof.
  intros Hok. pose proof (hasEntryCapacity_iff Hok) as Hcap. unfold tryReserve.
  destruct (hasEntryCapacity q) eqn:Hc; [|done]. simpl. assert (zlen (tq_heap q) + tq_reserved_entries q < TIMER_CAPACITY) by (by apply Hcap).
  destruct Hok. constructor; simpl; try done; lia.
Qed.

Lemma releaseReservation_ok plain tokens q :
  timers_ok (S plain) tokens q → ∃ q', releaseReservation q = Some q' ∧ timers_ok plain tokens q' ∧ tq_heap q' = tq_heap q
    ∧ zlen (tq_heap q') + tq_reserved_entries q' < TIMER_CAPACITY.
Proof.
  intros Hok. unfold releaseReservation, requireInvariant. pose proof (to_entries _ _ _ Hok). unfold zlen in *.
  rewrite (proj2 (Z.ltb_lt _ _)) by lia. pose proof (to_capacity _ _ _ Hok). unfold zlen in *. eexists. split; [done|].
  split_and!; [|done|simpl; lia]. destruct Hok. constructor; simpl; unfold zlen in *; try done; lia.
Qed.

Lemma commitReserved_ok plain tokens q d p :
  timers_ok (S plain) tokens q → payload_charge p = None →
  ∃ q', commitReserved d p q = Some q' ∧ timers_ok plain tokens q'.
Proof.
  intros Hok Hp. destruct (releaseReservation_ok _ _ _ Hok) as (q1 & Hr & Hok1 & _ & Hroom). unfold commitReserved. rewrite Hr.
  cbn [mbind option_bind]. rewrite Hp. eexists. split; [done|]. pose proof (to_bounds Hok1). pose proof (to_max _ _ _ Hok1). pose proof (to_width _ _ _ Hok1).
  pose proof (push_entry_ok Hok1 plain tokens _ _ _ d p (to_entries _ _ _ Hok1) (to_app_entries _ _ _ Hok1) (to_reserved _ _ _ Hok1)
                (to_tokens _ _ _ Hok1) Hroom) as Hpush.
  rewrite Hp in Hpush. cbn [default] in Hpush. rewrite set_reserved_same, set_app_bytes_same in Hpush by lia. apply Hpush. lia.
Qed.

Lemma tryReserveApplicationTimer_ok plain tokens q c :
  timers_ok plain tokens q → 0 <= c →
  let r := tryReserveApplicationTimer c q in if r.1 then timers_ok plain (c :: tokens) r.2 else r.2 = q.
Proof.
  intros Hok Hc. pose proof (hasEntryCapacity_iff Hok) as Hcap. pose proof (hasApplicationByteCapacity_iff Hok c) as Hby.
  pose proof (to_bounds Hok). pose proof (to_width _ _ _ Hok). unfold tryReserveApplicationTimer.
  destruct (hasEntryCapacity q); [|done]. destruct (hasApplicationByteCapacity q c); [|done]. simpl.
  pose proof (proj1 Hcap eq_refl). pose proof (proj1 Hby eq_refl).
  destruct Hok. constructor; simpl; unfold zlen in *; simpl; try done; try lia; [rewrite u64_small by lia; lia| |by constructor].
  rewrite u64_small by lia. lia.
Qed.

(** Dropping or committing a token takes it off the reserved account. *)
Lemma token_held plain tokens q i c :
  timers_ok plain tokens q → tokens !! i = Some c →
  0 < tq_reserved_entries q ∧ 0 < tq_reserved_application_timer_entries q ∧ 0 <= c <= tq_reserved_application_timer_bytes q
  ∧ Forall (fun c => 0 <= c) (delete i tokens) ∧ zsum id (delete i tokens) = zsum id tokens - c
  ∧ zlen (delete i tokens) = zlen tokens - 1.
Proof.
  intros Hok Hi. pose proof (lookup_lt_Some _ _ _ Hi) as Hlt. pose proof (to_tokens _ _ _ Hok) as Ht.
  rewrite (to_entries _ _ _ Hok), (to_app_entries _ _ _ Hok), (to_reserved _ _ _ Hok). unfold zlen. rewrite length_delete by eauto.
  assert (0 <= c) by (rewrite Forall_lookup in Ht; eauto).
  pose proof (zsum_elem_le id tokens c Ht (list_elem_of_lookup_2 _ _ _ Hi)) as Hle. unfold id in Hle at 1.
  split_and!; try lia; [by apply Forall_delete|by rewrite (zsum_delete _ _ _ _ Hi)].
Qed.

Lemma releaseApplicationTimerReservation_ok plain tokens q i c :
  timers_ok plain tokens q → tokens !! i = Some c →
  ∃ q', releaseApplicationTimerReservation c q = Some q' ∧ timers_ok plain (delete i tokens) q'.
Proof.
  intros Hok Hi. destruct (token_held _ _ _ _ _ Hok Hi) as (He & Ha & Hc & Hf & Hs & Hl).
  unfold releaseApplicationTimerReservation, requireInvariant.
  rewrite (proj2 (Z.ltb_lt _ _)), (proj2 (Z.ltb_lt _ _)), (proj2 (Z.leb_le _ _)) by lia. simpl. eexists. split; [done|].
  destruct Hok. constructor; simpl; try done; lia.
Qed.

Lemma commitReservedApplicationTimer_ok plain tokens q i m d target :
  timers_ok plain tokens q → tokens !! i = Some (chargedBytes m) →
  ∃ q', commitReservedApplicationTimer d target m (chargedBytes m) q = Some q' ∧ timers_ok plain (delete i tokens) q'.
Proof.
  intros Hok Hi. destruct (token_held _ _ _ _ _ Hok Hi) as (He & Ha & Hc & Hf & Hs & Hl).
  pose proof (to_max _ _ _ Hok). pose proof (to_bounds Hok). pose proof (to_capacity _ _ _ Hok).
  pose proof (to_entries _ _ _ Hok). pose proof (to_app_entries _ _ _ Hok). pose proof (to_reserved _ _ _ Hok).
  unfold commitReservedApplicationTimer, requireInvariant, hasCommittedApplicationByteCapacity.
  rewrite Z.eqb_refl, !(proj2 (Z.ltb_lt _ _)), !(proj2 (Z.leb_le _ _)) by lia. simpl. eexists. split; [done|].
  apply (push_entry_ok Hok plain (delete i tokens)); try done; simpl; lia.
Qed.

(** ** Cancellation *)

Lemma discharge_ok h bytes :
  heap_bytes h <= bytes → discharge h bytes = Some (bytes - heap_bytes h).
Proof.
  revert bytes. induction h as [|e h IH]; intros bytes Hb; unfold heap_bytes in *; simpl in *; [f_equal; lia|].
  pose proof (entry_bytes_nonneg e).
  assert (0 <= zsum entry_bytes h) by (apply zsum_nonneg, Forall_forall; intros; apply entry_bytes_nonneg).
  destruct (is_application e) eqn:Happ.
  - unfold requireInvariant. rewrite (proj2 (Z.leb_le _ _)) by lia. rewrite IH by lia. f_equal. lia.
  - rewrite (not_application_bytes e Happ) in *. rewrite IH by lia. f_equal; lia.
Qed.

Lemma kept_not_application h : count_if is_application (filter (fun e => is_application e = false) h) = 0%nat.
Proof. apply count_if_zero. apply Forall_forall. intros e He. by apply list_elem_of_filter in He as [? _]. Qed.

Lemma cancelApplicationTimers_ok plain tokens q :
  timers_ok plain tokens q →
  ∃ q', cancelApplicationTimers q = Some (applicationTimerCount q, q') ∧ timers_ok plain tokens q'
    ∧ applicationTimerCount q' = 0 ∧ tq_heap q' ≡ₚ filter (fun e => is_application e = false) (tq_heap q).
Proof.
  intros Hok. pose proof (to_bounds Hok). unfold cancelApplicationTimers. rewrite discharge_ok by (rewrite (to_bytes _ _ _ Hok); lia).
  rewrite (to_bytes _ _ _ Hok), Z.sub_diag. cbn [mbind option_bind]. 
  set (kept := filter (fun e => is_application e = false) (tq_heap q)).
  set (h := if 0 <? zlen (tq_heap q) - zlen kept then make_heap entry_deadline kept else kept).
  assert (Hcount : zlen (tq_heap q) - zlen kept = applicationTimerCount q).
  { unfold zlen, kept, applicationTimerCount. clear. induction (tq_heap q) as [|e l IH]; [done|]. rewrite filter_cons. simpl length. simpl count_if.
    destruct (is_application e) eqn:E; [rewrite decide_False by done|rewrite decide_True by done]; simpl length; lia. }
  assert (Hh : h ≡ₚ kept ∧ is_heap entry_deadline h).
  { unfold h. rewrite Hcount. destruct (0 <? applicationTimerCount q) eqn:Hz; [apply make_heap_spec|]. split; [done|]. to_prop.
    assert (Hk : kept = tq_heap q); [|rewrite Hk; apply (to_heap _ _ _ Hok)].
    unfold kept. unfold applicationTimerCount in Hz. assert (Hz0 : count_if is_application (tq_heap q) = 0%nat) by lia.
    apply count_if_zero in Hz0. clear -Hz0. induction Hz0 as [|e l He _ IH]; [done|]. by rewrite filter_cons_True, IH. }
  destruct Hh as [Hperm Hheap].
  assert (Happ : count_if is_application h = 0%nat) by (rewrite (count_if_perm _ _ _ Hperm); apply kept_not_application).
  unfold requireInvariant, applicationTimerCount at 1. cbn [set_app_bytes set_heap tq_heap tq_application_timer_bytes]. rewrite Happ.
  change (negb (Z.of_nat 0 =? 0) || (0 =? 0)) with true. cbv iota. rewrite Hcount. eexists. split; [done|].
  split_and!; [|unfold applicationTimerCount; simpl; lia|done].
  assert (Hbytes : heap_bytes h = 0).
  { rewrite (heap_bytes_perm _ _ Hperm). unfold heap_bytes, kept. apply zsum_zero. intros e He. apply list_elem_of_filter in He as [He _]. by apply not_application_bytes. }
  assert (zlen h <= zlen (tq_heap q)) by (rewrite (zlen_perm _ _ Hperm); unfold applicationTimerCount in Hcount; lia).
  destruct Hok. constructor; simpl; try done; try lia. apply Forall_forall. intros. apply entry_bytes_nonneg.
Qed.

(** ** The queue and its clients *)

(** The queue, the reservations its clients hold and the payloads delivered. *)
Record TimerClients := mkTimerClients {
  tc_queue : TimerQueue; tc_plain : nat; tc_tokens : list Z; tc_delivered : list TimerPayload
}.
Implicit Types c : TimerClients.

Inductive TimerOp :=
| OpSchedule (deadline : time_point) (p : TimerPayload)
| OpReserve
| OpRelease
| OpCommit (deadline : time_point) (p : TimerPayload)
| OpReserveApplication (bytes : Z)
| OpReleaseApplication (token : nat)
| OpCommitApplication (token : nat) (deadline : time_point) (target : ActivationRef) (message : M)
| OpScheduleApplication (deadline : time_point) (target : ActivationRef) (message : M)
| OpCancel
| OpExpire (now retry : time_point) (max_count : Z) (late : Z → bool) (saturated : TimerPayload → bool).

Definition set_queue q c : TimerClients := mkTimerClients q (tc_plain c) (tc_tokens c) (tc_delivered c).

(** A client releases and commits only what it holds, commits a plain
    reservation with a timer that is charged no bytes, and an application
    reservation with a message of its bytes (the worker checks both before it
    applies an effect); other calls do not happen.  [None]: the program
    terminates. *)
Definition timer_step c (op : TimerOp) : option TimerClients :=
  let q := tc_queue c in
  match op with
  | OpSchedule d p => Some (set_queue (trySchedule d p q).2 c)
  | OpReserve =>
      let '(b, q') := tryReserve q in
      Some (mkTimerClients q' (if b then S (tc_plain c) else tc_plain c) (tc_tokens c) (tc_delivered c))
  | OpRelease =>
      match tc_plain c with
      | O => Some c
      | S n => q' ← releaseReservation q; Some (mkTimerClients q' n (tc_tokens c) (tc_delivered c))
      end
  | OpCommit d p =>
      match tc_plain c, payload_charge p with
      | S n, None => q' ← commitReserved d p q; Some (mkTimerClients q' n (tc_tokens c) (tc_delivered c))
      | _, _ => Some c
      end
  | OpReserveApplication bytes =>
      let '(b, q') := tryReserveApplicationTimer bytes q in
      Some (mkTimerClients q' (tc_plain c) (if b then bytes :: tc_tokens c else tc_tokens c) (tc_delivered c))
  | OpReleaseApplication i =>
      match tc_tokens c !! i with
      | Some bytes =>
          q' ← releaseApplicationTimerReservation bytes q;
          Some (mkTimerClients q' (tc_plain c) (delete i (tc_tokens c)) (tc_delivered c))
      | None => Some c
      end
  | OpCommitApplication i d target m =>
      match tc_tokens c !! i with
      | Some bytes =>
          if chargedBytes m =? bytes then
            q' ← commitReservedApplicationTimer d target m bytes q;
            Some (mkTimerClients q' (tc_plain c) (delete i (tc_tokens c)) (tc_delivered c))
          else Some c
      | None => Some c
      end
  | OpScheduleApplication d target m => Some (set_queue (tryScheduleApplicationTimer d target m q).2 c)
  | OpCancel => '(_, q') ← cancelApplicationTimers q; Some (set_queue q' c)
  | OpExpire now retry max_count late saturated =>
      '(_, (q', log)) ← expire (deliver saturated retry) late now max_count (q, tc_delivered c);
      Some (mkTimerClients q' (tc_plain c) (tc_tokens c) log)
  end.

Definition timer_run (ops : list TimerOp) c : option TimerClients :=
  foldl (fun acc op => c ← acc; timer_step c op) (Some c) ops.

Definition timer_op_ok (op : TimerOp) : Prop :=
  match op with
  | OpReserveApplication bytes => 0 <= bytes
  | OpExpire _ _ max_count _ _ => 0 <= max_count
  | _ => True
  end.

Definition clients_ok c : Prop := timers_ok (tc_plain c) (tc_tokens c) (tc_queue c).

Lemma timer_step_ok c op : clients_ok c → timer_op_ok op → ∃ c', timer_step c op = Some c' ∧ clients_ok c'.
Proof.
  unfold clients_ok. intros Hok Hop. destruct op as [d p| | |d p|bytes|i|i d target m|d target m| |now retry mc late sat]; cbn [timer_step].
  - eexists. split; [done|]. apply (trySchedule_ok _ _ _ d p Hok).
  - pose proof (timer_tryReserve_ok _ _ _ Hok) as H. destruct (tryReserve _) as [[] q']; simpl in *; eexists; (split; [done|]); [done|by subst].
  - destruct (tc_plain c) as [|n] eqn:Hn; [eexists; split; [done|]; by rewrite Hn|].
    destruct (releaseReservation_ok _ _ _ Hok) as (q' & -> & Hok' & _). by eexists.
  - destruct (tc_plain c) as [|n] eqn:Hn; [eexists; split; [done|]; by rewrite Hn|].
    destruct (payload_charge p) eqn:Hp; [eexists; split; [done|]; by rewrite Hn|].
    destruct (commitReserved_ok _ _ _ d p Hok Hp) as (q' & -> & Hok'). by eexists.
  - pose proof (tryReserveApplicationTimer_ok _ _ _ bytes Hok Hop) as H. cbv zeta in H.
    destruct (tryReserveApplicationTimer _ _) as [[] q']; simpl in *; eexists; (split; [done|]); [done|by subst].
  - destruct (tc_tokens c !! i) as [bytes|] eqn:Hi; [|by eexists].
    destruct (releaseApplicationTimerReservation_ok _ _ _ _ _ Hok Hi) as (q' & -> & Hok'). by eexists.
  - destruct (tc_tokens c !! i) as [bytes|] eqn:Hi; [|by eexists]. destruct (Z.eqb_spec (chargedBytes m) bytes) as [<-|]; [|by eexists].
    destruct (commitReservedApplicationTimer_ok _ _ _ _ _ d target Hok Hi) as (q' & -> & Hok'). by eexists.
  - eexists. split; [done|]. apply (trySchedule_ok _ _ _ d (ApplicationTimer target m) Hok).
  - destruct (cancelApplicationTimers_ok _ _ _ Hok) as (q' & -> & Hok' & _). by eexists.
  - destruct (expire_ok sat retry late now mc _ _ _ (tc_delivered c) Hok Hop) as (r & q' & log & -> & Hok' & _). by eexists.
Qed.

Lemma timer_run_ok ops c : clients_ok c → Forall timer_op_ok ops → ∃ c', timer_run ops c = Some c' ∧ clients_ok c'.
Proof.
  intros Hok Hops. revert c Hok. induction Hops as [|op ops Hop _ IH]; intros c Hok; [by exists c|].
  destruct (timer_step_ok c op Hok Hop) as (c1 & Hc1 & Hok1). unfold timer_run. simpl. rewrite Hc1. by apply IH.
Qed.

(** No operation of a client changes the byte limit. *)
Definition limit q : Z := tq_max_application_timer_bytes q.

Lemma trySchedule_limit d p q : limit (trySchedule d p q).2 = limit q.
Proof. unfold trySchedule. repeat case_match; done. Qed.

Lemma expire_loop_limit saturated retry late now max_count fuel expired q log r q' log' :
  expire_loop (deliver saturated retry) late fuel now max_count expired (q, log) = Some (r, (q', log')) → limit q' = limit q.
Proof.
  revert expired q log. induction fuel as [|fuel IH]; intros expired q log Hexp; simpl in Hexp; [done|].
  case_match; [by simplify_eq|]. case_match; [by simplify_eq|].
  apply bind_Some in Hexp as ([e q1] & Hpop & Hexp). apply bind_Some in Hexp as ([q2 log2] & Hdel & Hexp).
  assert (H1 : limit q1 = limit q).
  { unfold pop_due, requireInvariant in Hpop. apply bind_Some in Hpop as (e' & _ & Hpop). repeat case_match; by simplify_eq. }
  assert (H2 : limit q2 = limit q1).
  { unfold deliver in Hdel. destruct (has_value _ && _); [|by simplify_eq/=]. pose proof (trySchedule_limit retry (entry_payload e) q1) as Hlim.
    simpl in Hdel. destruct (trySchedule retry (entry_payload e) q1) as [[] ?]; by simplify_eq/=. }
  case_match; [simplify_eq; congruence|]. rewrite (IH _ _ _ Hexp). congruence.
Qed.

Lemma timer_step_limit c op c' : timer_step c op = Some c' → limit (tc_queue c') = limit (tc_queue c).
Proof.
  destruct op as [d p| | |d p|bytes|i|i d target m|d target m| |now retry mc late sat]; cbn [timer_step]; intros Hs.
  - injection Hs as <-. apply trySchedule_limit.
  - unfold tryReserve in Hs. repeat case_match; by simplify_eq.
  - unfold releaseReservation, requireInvariant in Hs. repeat case_match; by simplify_eq/=.
  - unfold commitReserved, releaseReservation, requireInvariant in Hs. repeat case_match; simplify_eq/=; repeat case_match; by simplify_eq/=.
  - unfold tryReserveApplicationTimer in Hs. repeat case_match; by simplify_eq.
  - unfold releaseApplicationTimerReservation, requireInvariant in Hs. repeat case_match; by simplify_eq/=.
  - unfold commitReservedApplicationTimer, requireInvariant in Hs. repeat case_match; by simplify_eq/=.
  - injection Hs as <-. apply (trySchedule_limit d (ApplicationTimer target m)).
  - unfold cancelApplicationTimers, requireInvariant in Hs. apply bind_Some in Hs as ([n q'] & Hq & Hs).
    apply bind_Some in Hq as (b & _ & Hq). repeat case_match; by simplify_eq/=.
  - unfold expire in Hs. apply bind_Some in Hs as ([r [q' log]] & Hq & Hs). apply bind_Some in Hq as ([r' [q1 log1]] & Hq & Hr).
    simplify_eq. by apply expire_loop_limit in Hq.
Qed.

Lemma timer_run_limit ops c c' : timer_run ops c = Some c' → limit (tc_queue c') = limit (tc_queue c).
Proof.
  revert c. induction ops as [|op ops IH]; intros c; unfold timer_run; simpl; [by intros [= ->]|].
  destruct (timer_step c op) as [c1|] eqn:H1; [|].
  - intros H. rewrite (IH c1 H). by eapply timer_step_limit.
  - clear. intros H. exfalso. induction ops as [|op ops IH]; [done|]. by apply IH.
Qed.

(** C12: The timer queue never terminates the program and its accounts balance:
    under any calls of clients that release and commit only the reservations they
    hold, every invariant check of the source passes, a reservation can always be
    committed, a due timer whose mailbox is full can always be put back, the
    entries and reservations stay within the capacity, and the bytes counted are
    exactly those of the application timers queued and reserved, within their
    limit. *)
Theorem timers_accounted (max : Z) (ops : list TimerOp) :
  0 <= max <= U64_MAX → Forall timer_op_ok ops →
  ∃ c, timer_run ops (mkTimerClients (makeTimerQueue max) 0 [] []) = Some c
    ∧ tq_application_timer_bytes (tc_queue c) = zsum entry_bytes (tq_heap (tc_queue c))
    ∧ tq_reserved_application_timer_bytes (tc_queue c) = zsum id (tc_tokens c)
    ∧ tq_application_timer_bytes (tc_queue c) + tq_reserved_application_timer_bytes (tc_queue c) <= max
    ∧ zlen (tq_heap (tc_queue c)) + Z.of_nat (tc_plain c) + zlen (tc_tokens c) <= TIMER_CAPACITY
    ∧ ∀ e, e ∈ tq_heap (tc_queue c) → ∃ d, nextDeadline (tc_queue c) = Some d ∧ d <= entry_deadline e.
Proof.
  intros Hmax Hops. destruct (timer_run_ok ops (mkTimerClients (makeTimerQueue max) 0 [] [])) as (c & Hrun & Hok); [by apply makeTimerQueue_ok|done|].
  assert (Hlim : tq_max_application_timer_bytes (tc_queue c) = max) by exact (timer_run_limit _ _ _ Hrun).
  exists c. split; [done|]. destruct Hok. split_and!; [done|done|lia|lia|].
  intros e He. unfold nextDeadline. destruct (tq_heap (tc_queue c)) as [|e0 h]; [by apply elem_of_nil in He|].
  exists (entry_deadline e0). split; [done|]. apply is_heap_front in to_heap0. rewrite Forall_forall in to_heap0. by apply to_heap0.
Qed.

(** ** Order of expiry *)

(** Without saturated mailboxes the loop takes entries off in the order of
    their deadlines. *)
Lemma expire_loop_order plain tokens late now max_count fuel expired q log r q' log' :
  timers_ok plain tokens q →
  expire_loop (deliver (fun _ => false) now) late fuel now max_count expired (q, log) = Some (r, (q', log')) →
  ∃ es, log' = log ++ (entry_payload <$> es) ∧ tq_heap q ≡ₚ es ++ tq_heap q'
    ∧ StronglySorted (fun a b => entry_deadline a <= entry_deadline b) es
    ∧ Forall (fun e => entry_deadline e <= now ∧ Forall (fun e' => entry_deadline e <= entry_deadline e') (tq_heap q')) es
    ∧ er_expired r = expired + zlen es.
Proof.
  revert expired q log. induction fuel as [|fuel IH]; intros expired q log Hok Hexp; simpl in Hexp; [done|].
  assert (Hstop : ∀ r0, Some (r0, (q, log)) = Some (r, (q', log')) → er_expired r0 = expired →
    ∃ es, log' = log ++ (entry_payload <$> es) ∧ tq_heap q ≡ₚ es ++ tq_heap q'
    ∧ StronglySorted (fun a b => entry_deadline a <= entry_deadline b) es
    ∧ Forall (fun e => entry_deadline e <= now ∧ Forall (fun e' => entry_deadline e <= entry_deadline e') (tq_heap q')) es
    ∧ er_expired r = expired + zlen es).
  { intros r0 [= <- <- <-] He. exists []. rewrite app_nil_r. unfold zlen. simpl. split_and!; [done|done|constructor|constructor|lia]. }
  destruct (front_due now q) eqn:Hdue; simpl negb in Hexp; cbv iota in Hexp; [|by eapply Hstop].
  case_match; [by eapply Hstop|]. clear Hstop.
  destruct (tq_heap q) as [|e h] eqn:Hq; [by unfold front_due in Hdue; rewrite Hq in Hdue|].
  destruct (pop_due_ok _ _ _ _ _ Hok Hq) as (q1 & Hpop & Hok1 & Hp). rewrite Hpop in Hexp. cbn [mbind option_bind] in Hexp.
  assert (Hdel : deliver (fun _ => false) now (entry_payload e) (q1, log) = Some (q1, log ++ [entry_payload e]))
    by (unfold deliver; by rewrite andb_false_r).
  rewrite Hdel in Hexp. cbn [fst snd mbind option_bind] in Hexp.
  assert (Hde : entry_deadline e <= now) by (unfold front_due in Hdue; rewrite Hq in Hdue; simpl in Hdue; to_prop; lia).
  destruct Hp as [Hperm Hmin _ _ _ _]. rewrite Hq in Hperm.
  case_match; [injection Hexp as <- <- <-; exists [e]; unfold zlen; simpl; split_and!; [done|done|by repeat constructor|by repeat constructor|lia]|].
  destruct (IH _ _ _ Hok1 Hexp) as (es & -> & Hpe & Hs & Hf & He). exists (e :: es). simpl.
  rewrite Hpe in Hperm, Hmin. apply Forall_app in Hmin as [Hm1 Hm2].
  split_and!; [by rewrite <-app_assoc|by rewrite Hperm|by constructor|by constructor|]. rewrite He. unfold zlen. simpl. lia.
Qed.

(** Due timers fire in the order of their deadlines and none early: an
    expiry pass takes off the earliest due entries, as many as its budget allows,
    leaves every other entry queued, tells exactly whether due entries are left,
    and leaves none when it did not exhaust its budget. *)
Theorem timers_fire_in_order (plain : nat) (tokens : list Z) (late : Z → bool) (now : time_point) (max_count : Z) (q : TimerQueue) :
  timers_ok plain tokens q → 0 <= max_count →
  ∃ r q' es, expire (deliver (fun _ => false) now) late now max_count (q, []) = Some (r, (q', entry_payload <$> es))
    ∧ tq_heap q ≡ₚ es ++ tq_heap q'
    ∧ StronglySorted (fun a b => entry_deadline a <= entry_deadline b) es
    ∧ Forall (fun e => entry_deadline e <= now ∧ Forall (fun e' => entry_deadline e <= entry_deadline e') (tq_heap q')) es
    ∧ er_expired r = zlen es ∧ zlen es <= max_count
    ∧ (er_due_items_remain r = true ↔ Exists (fun e => entry_deadline e <= now) (tq_heap q'))
    ∧ (er_budget_exhausted r = false → Forall (fun e => now < entry_deadline e) (tq_heap q')).
Proof.
  intros Hok Hm. destruct (expire_ok (fun _ => false) now late now max_count plain tokens q [] Hok Hm) as (r & q' & log & Heq & Hok' & Hr & Hd & Hb).
  pose proof Heq as Hloop. unfold expire in Hloop. apply bind_Some in Hloop as ([r0 [q0 log0]] & Hloop & H0). simplify_eq.
  destruct (expire_loop_order plain tokens _ _ _ _ _ _ _ _ _ _ Hok Hloop) as (es & -> & Hp & Hs & Hf & He).
  eexists _, q', es. split; [exact Heq|]. pose proof (front_due_iff _ _ now _ Hok') as Hfd. simpl in *.
  split_and!; [done|done|done|lia|lia|by rewrite Hd|]. intros Hbe. specialize (Hb Hbe). apply Forall_forall. intros e Hin.
  destruct (Z.lt_ge_cases now (entry_deadline e)); [done|]. rewrite (proj2 Hfd) in Hb; [done|]. apply Exists_exists. eauto.
Qed.
End timers.

(** ** Witnesses *)

Definition sample_target : ActivationRef := mkActivationRef (mkActorKey KindRoom 7) 1.
Definition sample_handle : ConnectionHandle := mkConnectionHandle 3 9.
Definition charge_of (m : Z) : Z := Z.max 0 m.
#[local] Instance sample_heap : HeapAlgorithms (entry_deadline (M:=Z)) := sorting_heap entry_deadline.

Definition timer_sample : list (TimerOp (M:=Z)) :=
  [OpReserve; OpReserveApplication 40; OpScheduleApplication 500 sample_target 24;
   OpCommit 300 (ConnectionCloseDeadline sample_handle); OpCommitApplication 0 100 sample_target 40;
   OpReserveApplication 1000; OpExpire 400 900 8 (fun _ => false) (fun p => has_value (payload_charge charge_of p)); OpReleaseApplication 0; OpCancel].

Lemma charge_of_nonneg (m : Z) : 0 <= charge_of m.
Proof. unfold charge_of. lia. Qed.

(** The premises hold and the queue ends without application timers. *)
Lemma timers_accounted_witness :
  (∃ c, timer_run charge_of timer_sample (mkTimerClients (makeTimerQueue 64) 0 [] []) = Some c
        ∧ tc_delivered c = [ConnectionCloseDeadline sample_handle] ∧ tq_heap (tc_queue c) = [])
  ∧ ∃ c, timer_run charge_of timer_sample (mkTimerClients (makeTimerQueue 64) 0 [] []) = Some c
    ∧ tq_application_timer_bytes (tc_queue c) = zsum (entry_bytes charge_of) (tq_heap (tc_queue c))
    ∧ tq_reserved_application_timer_bytes (tc_queue c) = zsum id (tc_tokens c)
    ∧ tq_application_timer_bytes (tc_queue c) + tq_reserved_application_timer_bytes (tc_queue c) <= 64
    ∧ zlen (tq_heap (tc_queue c)) + Z.of_nat (tc_plain c) + zlen (tc_tokens c) <= 65536
    ∧ ∀ e, e ∈ tq_heap (tc_queue c) → ∃ d, nextDeadline (tc_queue c) = Some d ∧ d <= entry_deadline e.
Proof.
  split; [eexists; split_and!; vm_compute; reflexivity|].
  apply (timers_accounted charge_of charge_of_nonneg 64 timer_sample); [lia|]. repeat constructor; simpl; lia.
Defined.

Definition fire_sample : TimerQueue (M:=Z) :=
  (trySchedule charge_of 30 (ConnectionCloseDeadline sample_handle)
    (trySchedule charge_of 20 (ApplicationTimer sample_target 8) (makeTimerQueue 64)).2).2.

Lemma fire_sample_ok : timers_ok charge_of 0 [] fire_sample.
Proof. do 2 apply (trySchedule_ok charge_of charge_of_nonneg). apply makeTimerQueue_ok; lia. Qed.

(** Two timers are due, the budget is one. *)
Lemma timers_fire_in_order_witness :
  length (tq_heap fire_sample) = 2%nat
  ∧ ∃ r q' es, expire charge_of (deliver charge_of (fun _ => false) 50) (fun _ => false) 50 1 (fire_sample, []) = Some (r, (q', entry_payload <$> es))
    ∧ tq_heap fire_sample ≡ₚ es ++ tq_heap q'
    ∧ StronglySorted (fun a b => entry_deadline a <= entry_deadline b) es
    ∧ Forall (fun e => entry_deadline e <= 50 ∧ Forall (fun e' => entry_deadline e <= entry_deadline e') (tq_heap q')) es
    ∧ er_expired r = zlen es ∧ zlen es <= 1
    ∧ (er_due_items_remain r = true ↔ Exists (fun e => entry_deadline e <= 50) (tq_heap q'))
    ∧ (er_budget_exhausted r = false → Forall (fun e => 50 < entry_deadline e) (tq_heap q')).
Proof.
  split; [vm_compute; reflexivity|].
  apply (timers_fire_in_order charge_of charge_of_nonneg 0 [] (fun _ => false) 50 1); [exact fire_sample_ok|lia].
Defined.
