(* ===== verification/HandleRing.v ===== *)
(** * Rings of handles

    The two circular queues of handles a worker keeps: the ready actors
    ([ReadyActorQueue], [src/src/worker/actor_table.cpp]), which throws when it
    is full or empty, and the connections with work to do
    ([ConnectionWorkQueue], [src/src/worker/connection_work_queue.cpp]), which
    answers.  Both are a vector of fixed size, two positions and a count, and
    both are a queue of at most [capacity] handles. *)

From S2P Require Import Prelude Ring.

Section handle_ring.
Context {A : Type}.

Record HandleRing := mkHandleRing {
  hr_buffer : list A;
  hr_head : Z;
  hr_tail : Z;
  hr_size : Z
}.
Implicit Types q : HandleRing.

(** [std::vector<Handle>(capacity)]; the constructors refuse a capacity of
    zero. *)
Definition makeHandleRing (blank : A) (capacity : Z) : outcome HandleRing :=
  throw_if (capacity =? 0) InvalidArgument (Ret (mkHandleRing (replicate (Z.to_nat capacity) blank) 0 0 0)).

Definition hr_capacity q : Z := zlen (hr_buffer q).
Definition hr_empty q : bool := hr_size q =? 0.
Definition hr_full q : bool := hr_size q =? hr_capacity q.

Definition enqueue (a : A) q : HandleRing :=
  mkHandleRing (<[Z.to_nat (hr_tail q) := a]> (hr_buffer q)) (hr_head q) ((hr_tail q + 1) mod hr_capacity q) (hr_size q + 1).

Definition dequeue q : option (A * HandleRing) :=
  a ← hr_buffer q !! Z.to_nat (hr_head q);
  Some (a, mkHandleRing (hr_buffer q) ((hr_head q + 1) mod hr_capacity q) (hr_tail q) (hr_size q - 1)).

(** [ReadyActorQueue::push] and [pop]: [std::logic_error] when full or empty. *)
Definition ready_push (a : A) q : option HandleRing := if hr_full q then None else Some (enqueue a q).
Definition ready_pop q : option (A * HandleRing) := if hr_empty q then None else dequeue q.

(** [ConnectionWorkQueue::tryPush] and [tryPop]. *)
Definition work_tryPush (a : A) q : bool * HandleRing := if hr_full q then (false, q) else (true, enqueue a q).
Definition work_tryPop q : option A * HandleRing :=
  if hr_empty q then (None, q) else match dequeue q with Some (a, q') => (Some a, q') | None => (None, q) end.

Definition hr_clear q : HandleRing := mkHandleRing (hr_buffer q) 0 0 0.

(** ** A queue of handles *)

Record handles_repr (capacity : Z) q (items : list A) : Prop := {
  hrr_capacity : hr_capacity q = capacity;
  hrr_head : 0 <= hr_head q < capacity;
  hrr_size : hr_size q = zlen items;
  hrr_bound : zlen items <= capacity;
  hrr_tail : hr_tail q = (hr_head q + zlen items) mod capacity;
  hrr_items : ∀ i a, items !! i = Some a → hr_buffer q !! Z.to_nat ((hr_head q + Z.of_nat i) mod capacity) = Some a
}.

Lemma makeHandleRing_repr blank capacity :
  0 < capacity → ∃ q, makeHandleRing blank capacity = Ret q ∧ handles_repr capacity q [].
Proof.
  intros Hc. unfold makeHandleRing, throw_if. destruct (Z.eqb_spec capacity 0); [lia|]. eexists. split; [done|].
  constructor; unfold hr_capacity, zlen; cbn [hr_buffer hr_head hr_tail hr_size length]; rewrite ?length_replicate; try lia.
  - rewrite Z.mod_0_l; lia.
  - intros i a. by rewrite lookup_nil.
Qed.

Section laws.
Context {capacity : Z} {q : HandleRing} {items : list A} (Hq : handles_repr capacity q items).

Lemma handles_positive : 0 < capacity.
Proof using Hq. pose proof (hrr_head _ _ _ Hq). lia. Qed.

Lemma handles_empty : hr_empty q = bool_decide (items = []).
Proof using Hq.
  unfold hr_empty. rewrite (hrr_size _ _ _ Hq). unfold zlen. by destruct items.
Qed.

Lemma handles_full : hr_full q = (zlen items =? capacity).
Proof using Hq. unfold hr_full. by rewrite (hrr_size _ _ _ Hq), (hrr_capacity _ _ _ Hq). Qed.

Lemma enqueue_repr a : zlen items < capacity → handles_repr capacity (enqueue a q) (items ++ [a]).
Proof using Hq.
  intros Hlt. destruct Hq as [Hc Hh Hs Hb Ht Hi].
  assert (Hz : zlen (items ++ [a]) = zlen items + 1) by (unfold zlen; rewrite length_app; simpl; lia).
  assert (H0 : 0 <= zlen items) by (unfold zlen; lia).
  pose proof (Z.mod_pos_bound (hr_head q + zlen items) capacity ltac:(lia)) as Htb.
  constructor; unfold enqueue; cbn [hr_buffer hr_head hr_tail hr_size]; try lia.
  - unfold hr_capacity in *. cbn [hr_buffer]. unfold zlen in *. by rewrite length_insert.
  - rewrite Ht, Hz, Hc, Zplus_mod_idemp_l. f_equal. lia.
  - intros i b Hib. unfold hr_capacity, zlen in *. apply lookup_app_Some in Hib as [Hib|[Hle Hib]].
    + pose proof (lookup_lt_Some _ _ _ Hib). rewrite list_lookup_insert_ne; [by apply Hi|]. intros E. rewrite Ht in E.
      pose proof (Z.mod_pos_bound (hr_head q + Z.of_nat i) capacity ltac:(lia)).
      assert (Hm : Z.of_nat (length items) = Z.of_nat i) by (eapply mod_add_inj; [| |apply Z2Nat.inj; [| |exact E]]; lia). lia.
    + destruct (i - length items)%nat eqn:Ei; [|done]. injection Hib as ->.
      replace i with (length items) by lia. rewrite <-Ht. apply list_lookup_insert_eq. rewrite Ht. lia.
Qed.

Lemma ready_push_repr a :
  ready_push a q = if zlen items =? capacity then None else Some (enqueue a q).
Proof using Hq. unfold ready_push. by rewrite handles_full. Qed.
End laws.

Lemma dequeue_repr capacity q a items :
  handles_repr capacity q (a :: items) → ∃ q', dequeue q = Some (a, q') ∧ handles_repr capacity q' items.
Proof.
  intros [Hc Hh Hs Hb Ht Hi]. unfold dequeue.
  assert (Hz : zlen (a :: items) = zlen items + 1) by (unfold zlen; simpl; lia).
  assert (H0 : 0 <= zlen items) by (unfold zlen; lia).
  pose proof (Hi 0%nat a eq_refl) as Hf. rewrite Z.add_0_r, Z.mod_small in Hf by lia. rewrite Hf. simpl.
  eexists. split; [done|]. constructor; cbn [hr_buffer hr_head hr_tail hr_size]; try lia; try done.
  - rewrite Hc. apply Z.mod_pos_bound. lia.
  - rewrite Ht, Hz, Hc, Zplus_mod_idemp_l. f_equal. lia.
  - intros i b Hib. rewrite Hc, Zplus_mod_idemp_l. rewrite <-(Hi (S i) b Hib). do 3 f_equal. lia.
Qed.

Lemma ready_pop_repr capacity q items :
  handles_repr capacity q items →
  match items with
  | [] => ready_pop q = None
  | a :: rest => ∃ q', ready_pop q = Some (a, q') ∧ handles_repr capacity q' rest
  end.
Proof.
  intros Hq. unfold ready_pop. rewrite (handles_empty Hq). destruct items as [|a rest]; [done|].
  rewrite bool_decide_eq_false_2 by done. by apply dequeue_repr.
Qed.

Lemma hr_clear_repr capacity q items : handles_repr capacity q items → handles_repr capacity (hr_clear q) [].
Proof.
  intros [Hc Hh Hs Hb Ht Hi]. constructor; cbn [hr_buffer hr_head hr_tail hr_size hr_clear]; try done; try lia.
  - unfold zlen. simpl. lia.
Qed.

(** The items of a ring, read off its fields. *)
Definition ring_items q : list A :=
  omap (fun i => hr_buffer q !! Z.to_nat ((hr_head q + Z.of_nat i) mod hr_capacity q)) (seq 0 (Z.to_nat (hr_size q))).

Lemma omap_seq_lookup (f : nat → option A) k items :
  (∀ i a, items !! i = Some a → f (k + i)%nat = Some a) → omap f (seq k (length items)) = items.
Proof.
  revert k. induction items as [|a items IH]; intros k Hf; [done|]. simpl. rewrite <-(Nat.add_0_r k) at 1. rewrite (Hf 0%nat a eq_refl).
  f_equal. apply IH. intros i b Hb. rewrite Nat.add_succ_comm. by apply Hf.
Qed.

Lemma ring_items_repr capacity q items : handles_repr capacity q items → ring_items q = items.
Proof.
  intros [Hc _ Hs _ _ Hi]. unfold ring_items. rewrite Hc, Hs. unfold zlen. rewrite Nat2Z.id. apply omap_seq_lookup.
  intros i a Ha. by apply Hi.
Qed.

Definition ring_ok (capacity : Z) q : Prop := handles_repr capacity q (ring_items q).

Lemma repr_ring_ok capacity q items : handles_repr capacity q items → ring_ok capacity q ∧ ring_items q = items.
Proof. intros H. unfold ring_ok. by rewrite (ring_items_repr _ _ _ H). Qed.

Lemma work_tryPush_ring capacity a q :
  ring_ok capacity q →
  if zlen (ring_items q) =? capacity then work_tryPush a q = (false, q)
  else ∃ q', work_tryPush a q = (true, q') ∧ ring_ok capacity q' ∧ ring_items q' = ring_items q ++ [a].
Proof.
  intros Hq. unfold work_tryPush. rewrite (handles_full Hq). destruct (Z.eqb_spec (zlen (ring_items q)) capacity); [done|].
  eexists. split; [done|]. eapply repr_ring_ok, enqueue_repr; [done|]. pose proof (hrr_bound _ _ _ Hq). lia.
Qed.

Lemma work_tryPop_ring capacity q :
  ring_ok capacity q →
  match ring_items q with
  | [] => work_tryPop q = (None, q) ∧ hr_empty q = true
  | a :: rest => ∃ q', work_tryPop q = (Some a, q') ∧ ring_ok capacity q' ∧ ring_items q' = rest ∧ hr_empty q = false
  end.
Proof.
  intros Hq. unfold work_tryPop. pose proof (handles_empty Hq) as He. destruct (ring_items q) as [|a rest] eqn:E.
  - rewrite He. by rewrite bool_decide_eq_true_2.
  - rewrite bool_decide_eq_false_2 in He by done. rewrite He. unfold ring_ok in Hq. rewrite E in Hq.
    destruct (dequeue_repr _ _ _ _ Hq) as (q' & -> & Hq'). exists q'. split; [done|].
    destruct (repr_ring_ok _ _ _ Hq'). done.
Qed.

Lemma ring_size capacity q : ring_ok capacity q → Z.to_nat (hr_size q) = length (ring_items q).
Proof. intros Hq. rewrite (hrr_size _ _ _ Hq). unfold zlen. lia. Qed.

(** ** The work queue is a bounded queue

    Any sequence of calls answers as a list of at most [capacity] handles
    would. *)

Inductive WorkCall := WorkPush (a : A) | WorkPop | WorkClear.
Inductive WorkAnswer := PushAnswer (accepted : bool) | PopAnswer (item : option A) | ClearAnswer.

Definition work_call (c : WorkCall) q : WorkAnswer * HandleRing :=
  match c with
  | WorkPush a => let '(ok, q') := work_tryPush a q in (PushAnswer ok, q')
  | WorkPop => let '(o, q') := work_tryPop q in (PopAnswer o, q')
  | WorkClear => (ClearAnswer, hr_clear q)
  end.

Definition list_call (capacity : Z) (c : WorkCall) (l : list A) : WorkAnswer * list A :=
  match c with
  | WorkPush a => if zlen l =? capacity then (PushAnswer false, l) else (PushAnswer true, l ++ [a])
  | WorkPop => (PopAnswer (list.head l), tail l)
  | WorkClear => (ClearAnswer, [])
  end.

Lemma work_call_repr capacity c q items :
  handles_repr capacity q items →
  (work_call c q).1 = (list_call capacity c items).1 ∧
  handles_repr capacity (work_call c q).2 (list_call capacity c items).2.
Proof.
  intros Hq. destruct c as [a| |]; simpl.
  - unfold work_tryPush. rewrite (handles_full Hq). destruct (Z.eqb_spec (zlen items) capacity); [done|]. split; [done|].
    apply (enqueue_repr Hq). pose proof (hrr_bound _ _ _ Hq). lia.
  - unfold work_tryPop. rewrite (handles_empty Hq). destruct items as [|b rest]; [done|].
    rewrite bool_decide_eq_false_2 by done. destruct (dequeue_repr _ _ _ _ Hq) as (q' & -> & Hq'). done.
  - split; [done|]. by eapply hr_clear_repr.
Qed.

Fixpoint run_with {S : Type} (call : WorkCall → S → WorkAnswer * S) (cs : list WorkCall) (s : S) : list WorkAnswer :=
  match cs with [] => [] | c :: cs' => (call c s).1 :: run_with call cs' (call c s).2 end.

Lemma work_queue_refines blank capacity q cs :
  0 < capacity → makeHandleRing blank capacity = Ret q → run_with work_call cs q = run_with (list_call capacity) cs [].
Proof.
  intros Hc Hm. destruct (makeHandleRing_repr blank capacity Hc) as (q' & Hm' & Hq). rewrite Hm in Hm'. injection Hm' as <-.
  clear Hm. revert q Hq. generalize (@nil A) as l. induction cs as [|c cs IH]; intros l q Hq; [done|].
  destruct (work_call_repr _ c _ _ Hq) as [He Hr]. simpl. rewrite He. f_equal. by apply IH.
Qed.
End handle_ring.
Arguments HandleRing : clear implicits.
Arguments WorkCall : clear implicits.
Arguments WorkAnswer : clear implicits.
