(* ===== verification/SlotTable.v ===== *)
(** * Tables of reserved and committed slots

    The actors, the connections and the poll registrations of a worker live in
    three tables of one shape ([src/src/worker/actor_table.cpp],
    [connection_table.cpp], [poll_registration.cpp]): a vector of slots, each
    free, reserved or committed, two counts, and a source of generations.  A
    reservation is committed or rolled back; a committed slot is found and
    released through a handle that carries its generation.  This file has the
    common part; the tables themselves are in [ActorTable.v] and
    [ConnectionTables.v]. *)

From S2P Require Import Prelude.

(** Replacing one element of a list that is filtered and mapped. *)
Lemma omap_insert_perm {A B} (f : A → option B) l i s :
  l !! i = Some s →
  ∃ rest, omap f l ≡ₚ option_list (f s) ++ rest ∧ ∀ s', omap f (<[i := s']> l) ≡ₚ option_list (f s') ++ rest.
Proof.
  revert i. induction l as [|a l IH]; intros [|i] Hi; simplify_eq/=.
  - exists (omap f l). split; [by destruct (f s)|]. intros s'. by destruct (f s').
  - destruct (IH i Hi) as (rest & H1 & H2). destruct (f a) as [b|].
    + exists (b :: rest). split; [|intros s'; simpl]; rewrite ?H1, ?(H2 _); by rewrite Permutation_middle.
    + by exists rest.
Qed.

Section slot_table.
Context {E : Type} (generation_of : E → Z).

Record Slot := mkSlot { slot_entry : option E; slot_reserved : bool; slot_committed : bool }.

Record SlotTable := mkSlotTable {
  st_slots : list Slot;
  st_reserved_count : Z;
  st_active_count : Z;
  st_last_generation : Z
}.
Implicit Types (t : SlotTable) (s : Slot) (e : E) (i : nat).

Definition free_slot : Slot := mkSlot None false false.
Definition is_free s : bool := negb (slot_reserved s || slot_committed s).
Definition committed_entry s : option E := if slot_committed s then slot_entry s else None.

Definition makeSlotTable (capacity : Z) : SlotTable := mkSlotTable (replicate (Z.to_nat capacity) free_slot) 0 0 0.
Definition st_capacity t : Z := zlen (st_slots t).
Definition hasCapacity t : bool := st_reserved_count t + st_active_count t <? st_capacity t.
Definition availableCount t : Z := st_capacity t - st_reserved_count t - st_active_count t.

Definition set_slots (l : list Slot) t : SlotTable := mkSlotTable l (st_reserved_count t) (st_active_count t) (st_last_generation t).
Definition set_counts (reserved active : Z) t : SlotTable := mkSlotTable (st_slots t) reserved active (st_last_generation t).
Definition set_generation (g : Z) t : SlotTable := mkSlotTable (st_slots t) (st_reserved_count t) (st_active_count t) g.

(** The next generation; [None] stands for [std::overflow_error]. *)
Definition nextGeneration (max : Z) t : option (Z * SlotTable) :=
  if max <=? st_last_generation t then None
  else Some (st_last_generation t + 1, set_generation (st_last_generation t + 1) t).

(** The first slot that is neither reserved nor committed. *)
Definition first_free t : option nat := fst <$> list_find (fun s => is_free s = true) (st_slots t).

Definition occupy i e t : SlotTable :=
  set_counts (st_reserved_count t + 1) (st_active_count t) (set_slots (<[i := mkSlot (Some e) true false]> (st_slots t)) t).

(** The two ends of a [Reservation] that still refers to its table. *)
Definition commit i t : SlotTable :=
  match st_slots t !! i with
  | Some s => set_counts (st_reserved_count t - 1) (st_active_count t + 1)
                (set_slots (<[i := mkSlot (slot_entry s) false true]> (st_slots t)) t)
  | None => t
  end.

Definition rollback i t : SlotTable :=
  match st_slots t !! i with
  | Some s =>
      if negb (slot_reserved s) || slot_committed s then t
      else set_counts (st_reserved_count t - 1) (st_active_count t) (set_slots (<[i := free_slot]> (st_slots t)) t)
  | None => t
  end.

(** The committed entry a handle refers to: an index in range and the current,
    valid generation. *)
Definition find (index generation : Z) t : option E :=
  if (generation =? 0) || (st_capacity t <=? index) then None
  else s ← st_slots t !! Z.to_nat index;
       e ← committed_entry s;
       if generation_of e =? generation then Some e else None.

Definition release (index generation : Z) t : bool * SlotTable :=
  match find index generation t with
  | None => (false, t)
  | Some _ => (true, set_counts (st_reserved_count t) (st_active_count t - 1)
                       (set_slots (<[Z.to_nat index := free_slot]> (st_slots t)) t))
  end.

(** A write through a pointer to the entry of a slot. *)
Definition write i e t : SlotTable :=
  match st_slots t !! i with
  | Some s => set_slots (<[i := mkSlot (Some e) (slot_reserved s) (slot_committed s)]> (st_slots t)) t
  | None => t
  end.

(** [activeHandles] and [activeAt] read these. *)
Definition actives t : list E := omap committed_entry (st_slots t).
Definition active_at i t : option E := st_slots t !! i ≫= committed_entry.

(** ** Reservations

    [_table != nullptr] and [_committed]; moving from a reservation empties it,
    and destroying one rolls it back. *)

Record Reservation := mkReservation { rsv_index : nat; rsv_attached : bool; rsv_committed : bool }.
Implicit Types r : Reservation.

Definition reservation_commit r t : Reservation * SlotTable :=
  if negb (rsv_attached r) || rsv_committed r then (r, t)
  else (mkReservation (rsv_index r) true true, commit (rsv_index r) t).
Definition reservation_rollback r t : Reservation * SlotTable :=
  if negb (rsv_attached r) || rsv_committed r then (r, t)
  else (mkReservation (rsv_index r) false (rsv_committed r), rollback (rsv_index r) t).
Definition reservation_move r : Reservation * Reservation :=
  (r, mkReservation (rsv_index r) false false).

(** ** Invariant *)

Record slot_ok (last : Z) s : Prop := {
  sk_flags : slot_reserved s && slot_committed s = false;
  sk_entry : has_value (slot_entry s) = slot_reserved s || slot_committed s;
  sk_generation : ∀ e, slot_entry s = Some e → 0 < generation_of e <= last
}.

Record slots_ok t : Prop := {
  so_slots : ∀ i s, st_slots t !! i = Some s → slot_ok (st_last_generation t) s;
  so_reserved : st_reserved_count t = Z.of_nat (count_if slot_reserved (st_slots t));
  so_active : st_active_count t = Z.of_nat (count_if slot_committed (st_slots t));
  so_distinct : ∀ i j s s' e e', st_slots t !! i = Some s → st_slots t !! j = Some s' → slot_entry s = Some e →
    slot_entry s' = Some e' → generation_of e = generation_of e' → i = j;
  so_last : 0 <= st_last_generation t
}.

Lemma makeSlotTable_ok capacity : slots_ok (makeSlotTable capacity).
Proof.
  assert (Hz : ∀ p, p free_slot = false → count_if p (replicate (Z.to_nat capacity) free_slot) = 0%nat).
  { intros p Hp. apply count_if_zero. by apply Forall_replicate. }
  constructor; simpl; rewrite ?Hz by done; try done.
  - intros i s [-> _]%lookup_replicate. done.
  - intros i j s s' e e' [-> _]%lookup_replicate _ He. done.
Qed.

(** A slot replaced by one that is well formed and whose entry, if any, keeps
    its generation or has one that no slot had. *)
Lemma slots_ok_replace t i s s' reserved active last :
  slots_ok t → st_slots t !! i = Some s → slot_ok last s' → st_last_generation t <= last →
  (∀ e', slot_entry s' = Some e' →
    (∃ e, slot_entry s = Some e ∧ generation_of e = generation_of e') ∨ st_last_generation t < generation_of e') →
  reserved = st_reserved_count t + Z.b2z (slot_reserved s') - Z.b2z (slot_reserved s) →
  active = st_active_count t + Z.b2z (slot_committed s') - Z.b2z (slot_committed s) →
  slots_ok (mkSlotTable (<[i := s']> (st_slots t)) reserved active last).
Proof.
  intros [Hs Hr Ha Hd Hl] Hi Hs' Hlast Hgen -> ->.
  assert (Hcount : ∀ p, Z.of_nat (count_if p (<[i := s']> (st_slots t))) =
                        Z.of_nat (count_if p (st_slots t)) + Z.b2z (p s') - Z.b2z (p s)).
  { intros p. pose proof (count_if_insert p _ _ _ s' Hi). destruct (p s), (p s'); simpl; lia. }
  assert (Hat : ∀ j x, <[i := s']> (st_slots t) !! j = Some x → (j = i ∧ x = s') ∨ (j ≠ i ∧ st_slots t !! j = Some x)).
  { intros j x. destruct (decide (j = i)) as [->|Hne]; [|rewrite list_lookup_insert_ne by done; auto].
    rewrite list_lookup_insert_eq by (by eapply lookup_lt_Some). intros [= <-]. auto. }
  constructor; cbn [st_slots st_reserved_count st_active_count st_last_generation]; rewrite ?Hcount; try lia.
  - intros j x [[-> ->]|[_ Hx]]%Hat; [done|]. destruct (Hs j x Hx) as [H1 H2 H3]. constructor; [done..|].
    intros e He. specialize (H3 e He). lia.
  - intros j k x y e e' [[-> ->]|[Hj Hx]]%Hat [[-> ->]|[Hk Hy]]%Hat He He' Heq; [done| | |by eapply (Hd j k)].
    + destruct (Hgen _ He) as [(e0 & He0 & Hg0)|Hnew]; [eapply (Hd i k); [done|done|done|done|congruence]|].
      pose proof (sk_generation _ _ (Hs k y Hy) _ He'). lia.
    + destruct (Hgen _ He') as [(e0 & He0 & Hg0)|Hnew]; [eapply (Hd j i); [done|done|done|done|congruence]|].
      pose proof (sk_generation _ _ (Hs j x Hx) _ He). lia.
Qed.

(** ** The operations keep it *)

Lemma occupy_ok t i s e :
  slots_ok t → st_slots t !! i = Some s → is_free s = true → generation_of e = st_last_generation t + 1 →
  slots_ok (occupy i e (set_generation (st_last_generation t + 1) t)).
Proof.
  intros Hok Hi Hf He. unfold occupy, set_counts, set_slots, set_generation. cbn [st_slots st_reserved_count st_active_count st_last_generation].
  unfold is_free in Hf. pose proof (so_last _ Hok).
  apply (slots_ok_replace t i s); [done|done| |lia| |..]; cbn [slot_reserved slot_committed slot_entry].
  - constructor; simpl; [done..|]. intros ? [= <-]. lia.
  - intros ? [= <-]. right. lia.
  - destruct (slot_reserved s); simplify_eq/=. lia.
  - destruct (slot_reserved s), (slot_committed s); simplify_eq/=; lia.
Qed.

Lemma commit_slots_ok t i s : slots_ok t → st_slots t !! i = Some s → slot_reserved s = true → slots_ok (commit i t).
Proof.
  intros Hok Hi Hr. unfold commit, set_counts, set_slots. rewrite Hi. cbn [st_slots st_reserved_count st_active_count st_last_generation].
  destruct (so_slots _ Hok _ _ Hi) as [H1 H2 H3]. rewrite Hr in *. simpl in *.
  apply (slots_ok_replace t i s); [done|done| |lia| |..]; cbn [slot_reserved slot_committed slot_entry]; rewrite ?Hr, ?H1; simpl; try lia.
  - by constructor.
  - eauto.
Qed.

Lemma rollback_ok t i : slots_ok t → slots_ok (rollback i t).
Proof.
  intros Hok. unfold rollback, set_counts, set_slots. destruct (st_slots t !! i) as [s|] eqn:Hi; [|done]. split_if; [done|].
  cbn [st_slots st_reserved_count st_active_count st_last_generation].
  apply (slots_ok_replace t i s); [done|done|done|lia|done|..]; destruct (slot_reserved s), (slot_committed s); simplify_eq/=; lia.
Qed.

Lemma find_Some index generation t e :
  find index generation t = Some e →
  ∃ s, st_slots t !! Z.to_nat index = Some s ∧ slot_committed s = true ∧ slot_entry s = Some e ∧
    generation_of e = generation ∧ generation ≠ 0 ∧ index < st_capacity t.
Proof.
  unfold find. split_if; [done|]. to_prop. intros (s & Hs & He)%bind_Some. apply bind_Some in He as (e' & Hc & He).
  unfold committed_entry in Hc. destruct (slot_committed s) eqn:Hcm; [|done]. destruct (Z.eqb_spec (generation_of e') generation); [|done].
  injection He as ->. eauto 10.
Qed.

Lemma find_complete i t s e :
  slots_ok t → st_slots t !! i = Some s → slot_committed s = true → slot_entry s = Some e →
  find (Z.of_nat i) (generation_of e) t = Some e.
Proof.
  intros Hok Hi Hc He. pose proof (sk_generation _ _ (so_slots _ Hok _ _ Hi) _ He). pose proof (lookup_lt_Some _ _ _ Hi).
  unfold find, st_capacity, zlen. destruct (Z.eqb_spec (generation_of e) 0); [lia|].
  destruct (Z.leb_spec (Z.of_nat (length (st_slots t))) (Z.of_nat i)); [lia|]. cbn [orb]. rewrite Nat2Z.id, Hi. simpl.
  unfold committed_entry. rewrite Hc, He. simpl. by rewrite Z.eqb_refl.
Qed.

Lemma release_ok index generation t : slots_ok t → slots_ok (release index generation t).2.
Proof.
  intros Hok. unfold release, set_counts, set_slots. destruct (find index generation t) as [e|] eqn:Hf; [|done].
  apply find_Some in Hf as (s & Hs & Hc & He & _). simpl.
  destruct (so_slots _ Hok _ _ Hs) as [H1 H2 H3]. rewrite Hc, andb_true_r in H1.
  apply (slots_ok_replace t (Z.to_nat index) s); [done|done|done|lia|done|..]; rewrite ?Hc, ?H1; simpl; lia.
Qed.

Lemma write_ok t i s e e' :
  slots_ok t → st_slots t !! i = Some s → slot_entry s = Some e → generation_of e' = generation_of e → slots_ok (write i e' t).
Proof.
  intros Hok Hi He Hg. unfold write, set_slots. rewrite Hi. destruct (so_slots _ Hok _ _ Hi) as [H1 H2 H3].
  apply (slots_ok_replace t i s); [done|done| |lia| |..]; cbn [slot_reserved slot_committed slot_entry]; try lia.
  - constructor; cbn [slot_reserved slot_committed slot_entry]; [done|by rewrite He in H2|]. intros ? [= <-]. rewrite Hg. auto.
  - intros ? [= <-]. left. exists e. by rewrite Hg.
Qed.

(** ** What the counts mean *)

Lemma occupied_bound t : slots_ok t → 0 <= st_reserved_count t ∧ 0 <= st_active_count t ∧
  st_reserved_count t + st_active_count t <= st_capacity t.
Proof.
  intros [Hs Hr Ha _ _]. split_and!; [lia..|]. rewrite Hr, Ha. unfold st_capacity, zlen. clear Hr Ha.
  assert (Hf : ∀ s, s ∈ st_slots t → slot_reserved s && slot_committed s = false).
  { intros s [i Hi]%list_elem_of_lookup. apply (Hs i s Hi). }
  clear Hs. induction (st_slots t) as [|s l IH]; simpl; [lia|]. pose proof (Hf s ltac:(left)) as Hsf.
  assert (IH' := IH ltac:(intros; apply Hf; by right)). destruct (slot_reserved s), (slot_committed s); simplify_eq/=; lia.
Qed.

Lemma length_actives t : slots_ok t → zlen (actives t) = st_active_count t.
Proof.
  intros [Hs _ Ha _ _]. rewrite Ha. unfold actives, zlen. f_equal.
  assert (Hf : ∀ s, s ∈ st_slots t → slot_committed s = true → is_Some (slot_entry s)).
  { intros s [i Hi]%list_elem_of_lookup Hc. pose proof (sk_entry _ _ (Hs i s Hi)) as He. rewrite Hc, orb_true_r in He.
    by destruct (slot_entry s). }
  clear Hs Ha. induction (st_slots t) as [|s l IH]; [done|]. specialize (IH (fun x Hx => Hf x (list_elem_of_further _ _ _ Hx))).
  pose proof (Hf s ltac:(left)) as Hsf. simpl. unfold committed_entry at 1.
  destruct (slot_committed s); simpl; [|exact IH]. destruct (Hsf eq_refl) as [e ->]. simpl. by f_equal.
Qed.

Lemma hasCapacity_free t : slots_ok t → hasCapacity t = true → is_Some (first_free t).
Proof.
  intros Hok. unfold hasCapacity. rewrite Z.ltb_lt. intros Hlt. unfold first_free.
  destruct (list_find _ (st_slots t)) as [p|] eqn:Hf; [by eexists|]. exfalso. apply list_find_None in Hf.
  destruct Hok as [_ Hr Ha _ _]. rewrite Hr, Ha in Hlt. unfold st_capacity, zlen in Hlt. clear Hr Ha.
  induction Hf as [|s l Hs Hl IH]; simpl in Hlt; [lia|]. apply IH.
  unfold is_free in Hs. destruct (slot_reserved s), (slot_committed s); simpl in *; lia || done.
Qed.

Lemma first_free_spec t i : first_free t = Some i → ∃ s, st_slots t !! i = Some s ∧ is_free s = true.
Proof.
  unfold first_free. destruct (list_find _ (st_slots t)) as [[j s]|] eqn:Hf; [|done]. intros [= <-].
  apply list_find_Some in Hf as (? & ? & _). eauto.
Qed.

(** ** Handles do not come back to life

    A generation that was given out and that no slot holds any more resolves to
    nothing, and no operation brings it back. *)

Definition dead (g : Z) t : Prop :=
  g <= st_last_generation t ∧ ∀ i s e, st_slots t !! i = Some s → slot_entry s = Some e → generation_of e ≠ g.

Lemma dead_find g index t : dead g t → find index g t = None.
Proof.
  intros [_ Hd]. destruct (find index g t) as [e|] eqn:Hf; [|done]. apply find_Some in Hf as (s & Hs & _ & He & Hg & _).
  by destruct (Hd _ _ _ Hs He).
Qed.

Lemma dead_replace g t i s' reserved active last :
  dead g t → st_last_generation t <= last → (∀ e', slot_entry s' = Some e' → generation_of e' ≠ g) →
  dead g (mkSlotTable (<[i := s']> (st_slots t)) reserved active last).
Proof.
  intros [Hl Hd] Hle Hs'. split; simpl; [lia|]. intros j s e Hj He. destruct (decide (j = i)) as [->|Hne].
  - apply list_lookup_insert_Some in Hj as [(_ & <- & _)|(? & _)]; [eauto|done].
  - rewrite list_lookup_insert_ne in Hj by done. eauto.
Qed.

Lemma released_dead index generation t :
  slots_ok t → (release index generation t).1 = true → dead generation (release index generation t).2.
Proof.
  intros Hok. unfold release. destruct (find index generation t) as [e|] eqn:Hf; [|done]. intros _. simpl.
  apply find_Some in Hf as (s & Hs & Hc & He & Hg & _). unfold set_counts, set_slots. split; simpl.
  - pose proof (sk_generation _ _ (so_slots _ Hok _ _ Hs) _ He). lia.
  - intros j s' e' Hj He' Heq. apply list_lookup_insert_Some in Hj as [(_ & <- & _)|(Hne & Hj)]; [done|].
    destruct Hne. eapply (so_distinct _ Hok); [exact Hs|exact Hj|done|done|congruence].
Qed.

(** ** Multisets of committed entries *)

Lemma actives_elem t e : e ∈ actives t ↔ ∃ i s, st_slots t !! i = Some s ∧ slot_committed s = true ∧ slot_entry s = Some e.
Proof.
  unfold actives. rewrite list_elem_of_omap. split.
  - intros (s & Hs & Hc). apply list_elem_of_lookup in Hs as [i Hi]. unfold committed_entry in Hc.
    destruct (slot_committed s) eqn:Hcm; [|done]. eauto.
  - intros (i & s & Hi & Hc & He). exists s. unfold committed_entry. rewrite Hc. split; [by eapply list_elem_of_lookup_2|done].
Qed.

Lemma actives_write t i s e :
  st_slots t !! i = Some s → slot_committed s = true → slot_entry s = Some e →
  ∃ rest, actives t ≡ₚ e :: rest ∧ (∀ e', actives (write i e' t) ≡ₚ e' :: rest) ∧
    ∀ g, Z.to_nat g = i → find g (generation_of e) t = Some e → actives (release g (generation_of e) t).2 ≡ₚ rest.
Proof.
  intros Hi Hc He. destruct (omap_insert_perm committed_entry _ _ _ Hi) as (rest & H1 & H2). exists rest.
  unfold actives. unfold committed_entry at 2 in H1. rewrite Hc, He in H1. split_and!; [done| |].
  - intros e'. unfold write. rewrite Hi, Hc. simpl. by rewrite (H2 (mkSlot (Some e') (slot_reserved s) true)).
  - intros g Hg Hf. unfold release. rewrite Hf. simpl. rewrite Hg. by rewrite (H2 free_slot).
Qed.

Lemma actives_occupy t i s e : st_slots t !! i = Some s → is_free s = true → actives (occupy i e t) ≡ₚ actives t.
Proof.
  intros Hi Hf. destruct (omap_insert_perm committed_entry _ _ _ Hi) as (rest & H1 & H2). unfold actives, occupy. simpl.
  rewrite H1, (H2 (mkSlot (Some e) true false)). unfold is_free in Hf. unfold committed_entry.
  by destruct (slot_reserved s), (slot_committed s).
Qed.

Lemma actives_rollback t i : slots_ok t → actives (rollback i t) ≡ₚ actives t.
Proof.
  intros Hok. unfold rollback. destruct (st_slots t !! i) as [s|] eqn:Hi; [|done]. split_if; [done|].
  destruct (omap_insert_perm committed_entry _ _ _ Hi) as (rest & H1 & H2). unfold actives. simpl.
  rewrite H1, (H2 free_slot). unfold committed_entry. by destruct (slot_reserved s), (slot_committed s).
Qed.

Lemma actives_commit t i s e :
  st_slots t !! i = Some s → slot_committed s = false → slot_entry s = Some e → actives (commit i t) ≡ₚ e :: actives t.
Proof.
  intros Hi Hc He. unfold commit. rewrite Hi. destruct (omap_insert_perm committed_entry _ _ _ Hi) as (rest & H1 & H2).
  unfold actives. simpl. rewrite (H2 (mkSlot (slot_entry s) false true)), H1. unfold committed_entry. by rewrite Hc, He.
Qed.

(** ** Tables with no open reservation *)

Definition holds i e t : Prop := st_slots t !! i = Some (mkSlot (Some e) false true).

Lemma holds_unique i e e' t : holds i e t → holds i e' t → e = e'.
Proof using Type. unfold holds. intros H1 H2. rewrite H1 in H2. by injection H2. Qed.

Lemma holds_lt i e t : holds i e t → (i < length (st_slots t))%nat.
Proof using Type. apply lookup_lt_Some. Qed.

Lemma active_at_holds i e t : slots_ok t → active_at i t = Some e ↔ holds i e t.
Proof.
  intros Hok. unfold active_at, holds. rewrite bind_Some. split.
  - intros (s & Hs & Hc). rewrite Hs. f_equal. destruct (so_slots _ Hok _ _ Hs) as [H1 _ _]. destruct s as [o r c].
    unfold committed_entry in Hc. simpl in *. destruct c; [|done]. rewrite andb_true_r in H1. by subst.
  - intros H. eexists. split; [exact H|done].
Qed.

Lemma find_holds index generation e t :
  slots_ok t → find index generation t = Some e ↔ holds (Z.to_nat index) e t ∧ generation_of e = generation ∧ index < st_capacity t.
Proof.
  intros Hok. split.
  - intros (s & Hs & Hc & He & Hg & _ & Hlt)%find_Some. split_and!; try done. apply active_at_holds; [done|].
    unfold active_at. rewrite Hs. simpl. unfold committed_entry. by rewrite Hc, He.
  - intros (Hh & <- & Hlt). pose proof (sk_generation _ _ (so_slots _ Hok _ _ Hh) e eq_refl) as Hg. unfold find.
    destruct (Z.eqb_spec (generation_of e) 0); [lia|]. destruct (Z.leb_spec (st_capacity t) index); [lia|]. cbn [orb]. rewrite Hh. simpl.
    by rewrite Z.eqb_refl.
Qed.

Lemma holds_distinct i j e e' t : slots_ok t → holds i e t → holds j e' t → generation_of e = generation_of e' → i = j.
Proof. intros Hok Hi Hj. by apply (so_distinct _ Hok _ _ _ _ _ _ Hi Hj). Qed.

Lemma holds_generation i e t : slots_ok t → holds i e t → 0 < generation_of e <= st_last_generation t.
Proof. intros Hok Hi. by apply (sk_generation _ _ (so_slots _ Hok _ _ Hi)). Qed.

Lemma holds_write i e e' t j x : holds i e t → holds j x (write i e' t) ↔ (j = i ∧ x = e') ∨ (j ≠ i ∧ holds j x t).
Proof using Type.
  intros Hi. pose proof (holds_lt _ _ _ Hi). unfold holds, write in *. rewrite Hi. cbn. destruct (decide (j = i)) as [->|Hne].
  - rewrite list_lookup_insert_eq by done. (clear generation_of; naive_solver).
  - rewrite list_lookup_insert_ne by done. (clear generation_of; naive_solver).
Qed.

Lemma holds_cleared i e t j x reserved active :
  holds i e t → holds j x (set_counts reserved active (set_slots (<[i := free_slot]> (st_slots t)) t)) ↔ j ≠ i ∧ holds j x t.
Proof using Type.
  intros Hi. pose proof (holds_lt _ _ _ Hi). unfold holds in *. cbn. destruct (decide (j = i)) as [->|Hne].
  - rewrite list_lookup_insert_eq by done. unfold free_slot. (clear generation_of; naive_solver).
  - rewrite list_lookup_insert_ne by done. (clear generation_of; naive_solver).
Qed.

Lemma is_free_not_holds i s e t : st_slots t !! i = Some s → is_free s = true → ¬ holds i e t.
Proof using Type. unfold holds. intros Hi Hf H. rewrite Hi in H. injection H as ->. done. Qed.

Lemma occupy_at i s e t : st_slots t !! i = Some s → st_slots (occupy i e t) !! i = Some (mkSlot (Some e) true false).
Proof. intros Hi. cbn. apply list_lookup_insert_eq. by eapply lookup_lt_Some. Qed.

Lemma holds_occupied i s e t j x :
  st_slots t !! i = Some s → holds j x (commit i (occupy i e t)) ↔ (j = i ∧ x = e) ∨ (j ≠ i ∧ holds j x t).
Proof using Type.
  intros Hi. pose proof (lookup_lt_Some _ _ _ Hi) as Hlt. unfold holds, commit. rewrite (occupy_at _ _ _ _ Hi). cbn.
  rewrite list_insert_insert_eq. destruct (decide (j = i)) as [->|Hne].
  - rewrite list_lookup_insert_eq by done. (clear generation_of; naive_solver).
  - rewrite list_lookup_insert_ne by done. (clear generation_of; naive_solver).
Qed.

Lemma holds_rolled_back i s e t j x :
  st_slots t !! i = Some s → is_free s = true → holds j x (rollback i (occupy i e t)) ↔ holds j x t.
Proof using Type.
  intros Hi Hf. pose proof (lookup_lt_Some _ _ _ Hi) as Hlt. unfold holds, rollback. rewrite (occupy_at _ _ _ _ Hi). cbn.
  rewrite list_insert_insert_eq. destruct (decide (j = i)) as [->|Hne].
  - rewrite list_lookup_insert_eq by done. rewrite Hi. destruct s as [o [] []]; simplify_eq/=. unfold free_slot. (clear generation_of; naive_solver).
  - by rewrite list_lookup_insert_ne by done.
Qed.

Lemma settled_free t i s : slots_ok t → st_reserved_count t = 0 → st_slots t !! i = Some s → s = free_slot ∨ ∃ e, holds i e t.
Proof.
  intros Hok Hr Hi. destruct (so_slots _ Hok _ _ Hi) as [H1 H2 _]. rewrite (so_reserved _ Hok) in Hr.
  assert (Hz : slot_reserved s = false).
  { assert (Hf : Forall (fun x => slot_reserved x = false) (st_slots t)) by (apply count_if_zero; lia). by eapply Forall_lookup_1 in Hf. }
  destruct s as [o r c]. simpl in *. subst r. destruct c; simpl in *; [|left; by destruct o].
  destruct o as [e|]; [|done]. right. by exists e.
Qed.

(** A slot reserved for [e], and then committed or rolled back. *)
Record reserved_as t i e t1 : Prop := {
  ra_vacant : ∀ x, ¬ holds i x t;
  ra_lt : (i < length (st_slots t))%nat;
  ra_pending : st_slots t1 !! i = Some (mkSlot (Some e) true false);
  ra_commit : slots_ok (commit i t1);
  ra_committed : ∀ j x, holds j x (commit i t1) ↔ (j = i ∧ x = e) ∨ (j ≠ i ∧ holds j x t);
  ra_commit_counts : st_reserved_count (commit i t1) = st_reserved_count t ∧ st_active_count (commit i t1) = st_active_count t + 1 ∧
    st_capacity (commit i t1) = st_capacity t ∧ st_last_generation (commit i t1) = st_last_generation t + 1;
  ra_rollback : slots_ok (rollback i t1);
  ra_rolled : ∀ j x, holds j x (rollback i t1) ↔ holds j x t;
  ra_rollback_counts : st_reserved_count (rollback i t1) = st_reserved_count t ∧ st_active_count (rollback i t1) = st_active_count t ∧
    st_capacity (rollback i t1) = st_capacity t ∧ st_last_generation (rollback i t1) = st_last_generation t + 1
}.

Lemma occupy_reserved t i s e :
  slots_ok t → st_slots t !! i = Some s → is_free s = true → generation_of e = st_last_generation t + 1 →
  reserved_as t i e (occupy i e (set_generation (st_last_generation t + 1) t)).
Proof.
  intros Hok Hi Hf Hg. set (t0 := set_generation (st_last_generation t + 1) t).
  assert (Hs0 : st_slots t0 !! i = Some s) by done.
  pose proof (occupy_ok t i s e Hok Hi Hf Hg) as Hok1. fold t0 in Hok1. pose proof (occupy_at i s e t0 Hs0) as Hp.
  constructor.
  - intros x. by apply (is_free_not_holds i s).
  - by eapply lookup_lt_Some.
  - done.
  - by apply (commit_slots_ok _ i _ Hok1 Hp).
  - intros j x. exact (holds_occupied i s e t0 j x Hs0).
  - unfold commit. rewrite Hp. unfold st_capacity, zlen. cbn. rewrite !length_insert. split_and!; lia.
  - by apply rollback_ok.
  - intros j x. exact (holds_rolled_back i s e t0 j x Hs0 Hf).
  - unfold rollback. rewrite Hp. unfold st_capacity, zlen. cbn. rewrite !length_insert. split_and!; lia.
Qed.

(** A held slot given back. *)
Lemma clear_ok t i e :
  slots_ok t → holds i e t →
  slots_ok (set_counts (st_reserved_count t) (st_active_count t - 1) (set_slots (<[i := free_slot]> (st_slots t)) t)).
Proof.
  intros Hok Hi. apply (slots_ok_replace t i _ free_slot _ _ (st_last_generation t) Hok Hi); cbn; [|lia|done|lia|lia].
  constructor; simpl; done.
Qed.
End slot_table.
Arguments Slot : clear implicits.
Arguments SlotTable : clear implicits.
