(* ===== verification/ActorTable.v ===== *)
(** * Actor table

    The actors of a worker ([ActorTable], [src/src/worker/actor_table.cpp]): the
    slots of [SlotTable.v], a stack of free indices and an index by key.  A
    handle is a slot and an incarnation; incarnations are never reused, so a
    handle resolves to the activation it was made for or to nothing. *)

From S2P Require Import Prelude Identity SlotTable.

Record ActorHandle := mkActorHandle { ah_slot_index : Z; ah_incarnation : ActorIncarnation }.

#[export] Instance ActorHandle_eq_dec : EqDecision ActorHandle.
Proof. solve_decision. Defined.

(** What the table needs of the entries it holds: the members it reads and the
    constructor [ActorSlot(key, incarnation, slot_index)]. *)
Class ActorEntry (E : Type) := {
  entry_key : E → ActorKey;
  entry_incarnation : E → ActorIncarnation;
  entry_index : E → nat;
  entry_fresh : ActorKey → ActorIncarnation → nat → E;
  fresh_key : ∀ k g i, entry_key (entry_fresh k g i) = k;
  fresh_incarnation : ∀ k g i, entry_incarnation (entry_fresh k g i) = g;
  fresh_index : ∀ k g i, entry_index (entry_fresh k g i) = i
}.

Section actor_table.
Context {E : Type} `{Entry : !ActorEntry E}.

(** [ActorSlot::handle]: the index is narrowed to 32 bits. *)
Definition entry_handle (e : E) : ActorHandle := mkActorHandle (u32 (Z.of_nat (entry_index e))) (entry_incarnation e).
Definition entry_activation (e : E) : ActivationRef := mkActivationRef (entry_key e) (entry_incarnation e).

Record ActorTable := mkActorTable {
  at_table : SlotTable E;
  at_free_indices : list nat;
  at_key_to_slot : gmap ActorKey nat
}.
Implicit Types (t : ActorTable) (e : E) (k : ActorKey) (h : ActorHandle).

Definition at_slots t : list (Slot E) := st_slots (at_table t).

(** The free indices are pushed from the last slot to the first, so the first
    slot is taken first: [back()] is the end of the list. *)
Definition makeActorTable (capacity : Z) : outcome ActorTable :=
  throw_if (capacity =? 0) InvalidArgument
    (Ret (mkActorTable (makeSlotTable capacity) (reverse (seq 0 (Z.to_nat capacity))) ∅)).

(** [tryReserve]: [None] is [std::overflow_error]; otherwise the reserved slot,
    if any, and the table. *)
Definition actor_tryReserve k t : option (option nat * ActorTable) :=
  if negb (hasCapacity (at_table t)) then Some (None, t)
  else match last (at_free_indices t) with
       | None => Some (None, t)
       | Some index =>
           if has_value (at_key_to_slot t !! k) then Some (None, t)
           else
             '(incarnation, table) ← nextGeneration U64_MAX (at_table t);
             Some (Some index,
               mkActorTable (occupy index (entry_fresh k incarnation index) table)
                 (removelast (at_free_indices t)) (<[k := index]> (at_key_to_slot t)))
       end.

(** [find]: a committed slot, by key or by handle.  The answer is the index the
    pointer stands for. *)
Definition find_key k t : option nat :=
  index ← at_key_to_slot t !! k;
  _ ← at_slots t !! index ≫= committed_entry;
  Some index.
Definition find_handle h t : option nat :=
  _ ← find entry_incarnation (ah_slot_index h) (ah_incarnation h) (at_table t);
  Some (Z.to_nat (ah_slot_index h)).

Definition actor_release h t : bool * ActorTable :=
  match find entry_incarnation (ah_slot_index h) (ah_incarnation h) (at_table t) with
  | None => (false, t)
  | Some e =>
      (true, mkActorTable (release entry_incarnation (ah_slot_index h) (ah_incarnation h) (at_table t)).2
               (at_free_indices t ++ [Z.to_nat (ah_slot_index h)]) (delete (entry_key e) (at_key_to_slot t)))
  end.

Definition actor_commit (index : nat) t : ActorTable := mkActorTable (commit index (at_table t)) (at_free_indices t) (at_key_to_slot t).

Definition actor_rollback (index : nat) t : ActorTable :=
  match at_slots t !! index with
  | None => t
  | Some s =>
      if negb (slot_reserved s) || slot_committed s then t
      else mkActorTable (rollback index (at_table t)) (at_free_indices t ++ [index])
             (match slot_entry s with Some e => delete (entry_key e) (at_key_to_slot t) | None => at_key_to_slot t end)
  end.

(** Reading and writing the [ActorSlot] a pointer refers to. *)
Definition deref (index : nat) t : option E := at_slots t !! index ≫= slot_entry.
Definition assign (index : nat) e t : ActorTable := mkActorTable (write index e (at_table t)) (at_free_indices t) (at_key_to_slot t).

Definition activeHandles t : list ActorHandle := entry_handle <$> actives (at_table t).
Definition activeAt (index : nat) t : option E := active_at index (at_table t).

(** ** Invariant *)

Record table_ok t : Prop := {
  tk_slots : slots_ok entry_incarnation (at_table t);
  tk_index : ∀ i s e, at_slots t !! i = Some s → slot_entry s = Some e → entry_index e = i;
  tk_free : ∀ i, i ∈ at_free_indices t ↔ ∃ s, at_slots t !! i = Some s ∧ is_free s = true;
  tk_free_nodup : NoDup (at_free_indices t);
  tk_keys : ∀ k i, at_key_to_slot t !! k = Some i ↔ ∃ s e, at_slots t !! i = Some s ∧ slot_entry s = Some e ∧ entry_key e = k;
  tk_width : st_capacity (at_table t) <= 4294967296;
  tk_generation : st_last_generation (at_table t) <= U64_MAX
}.

Lemma free_entry last s : slot_ok entry_incarnation last s → is_free s = true ↔ slot_entry s = None.
Proof.
  intros [H1 H2 _]. unfold is_free. destruct (slot_entry s), (slot_reserved s), (slot_committed s); simplify_eq/=; naive_solver.
Qed.

Lemma makeActorTable_ok capacity :
  0 < capacity <= 4294967296 → ∃ t, makeActorTable capacity = Ret t ∧ table_ok t ∧ st_capacity (at_table t) = capacity ∧
    actives (at_table t) = [] ∧ st_reserved_count (at_table t) = 0.
Proof.
  intros Hc. unfold makeActorTable, throw_if. destruct (Z.eqb_spec capacity 0); [lia|]. eexists. split; [done|].
  assert (Hlen : st_capacity (makeSlotTable (E := E) capacity) = capacity).
  { unfold st_capacity, zlen, makeSlotTable. cbn [st_slots]. rewrite length_replicate. lia. }
  split; [|split; [done|split; [|done]]].
  - assert (Hat : ∀ i, (i < Z.to_nat capacity)%nat ↔ replicate (Z.to_nat capacity) (@free_slot E) !! i = Some free_slot).
    { intros i. rewrite lookup_replicate. tauto. }
    constructor; unfold at_slots; cbn [at_table at_free_indices at_key_to_slot st_slots makeSlotTable]; try lia.
    + apply makeSlotTable_ok.
    + intros i s e [-> _]%lookup_replicate. done.
    + intros i. rewrite elem_of_reverse, elem_of_seq. split.
      * intros Hi. exists free_slot. split; [|done]. apply Hat. lia.
      * intros (s & [-> Hi]%lookup_replicate & _). lia.
    + rewrite reverse_Permutation. apply NoDup_seq.
    + intros k i. rewrite lookup_empty. split; [done|]. intros (s & e & [-> _]%lookup_replicate & He & _). done.
    + done.
  - unfold actives, makeSlotTable. cbn [at_table st_slots]. by induction (Z.to_nat capacity).
Qed.

(** A slot of the table filled or emptied, with the key index and the free
    indices moved along. *)
Lemma keys_replace (l : list (Slot E)) (m : gmap ActorKey nat) i s s' :
  l !! i = Some s →
  (∀ k j, m !! k = Some j ↔ ∃ x e, l !! j = Some x ∧ slot_entry x = Some e ∧ entry_key e = k) →
  entry_key <$> slot_entry s' = entry_key <$> slot_entry s →
  ∀ k j, m !! k = Some j ↔ ∃ x e, <[i := s']> l !! j = Some x ∧ slot_entry x = Some e ∧ entry_key e = k.
Proof.
  intros Hi Hm Hk k j. rewrite Hm. destruct (decide (j = i)) as [->|Hne].
  - rewrite list_lookup_insert_eq by (by eapply lookup_lt_Some). split.
    + intros (x & e & Hx & He & Hke). rewrite Hi in Hx. injection Hx as <-. rewrite He in Hk. simpl in Hk.
      destruct (slot_entry s') as [e'|] eqn:He'; [|done]. injection Hk as Hk. exists s', e'. rewrite Hk. auto.
    + intros (x & e & [= <-] & He & Hke). rewrite He in Hk. simpl in Hk.
      destruct (slot_entry s) as [e'|] eqn:He'; [|done]. injection Hk as Hk. exists s, e'. rewrite <-Hk. auto.
  - by setoid_rewrite list_lookup_insert_ne; [|done].
Qed.

Lemma removelast_snoc {A} (l : list A) x : last l = Some x → l = removelast l ++ [x].
Proof.
  intros Hl. apply last_Some in Hl as [l' ->]. by rewrite removelast_app, app_nil_r by done.
Qed.

Lemma has_value_false {A} (o : option A) : has_value o = false ↔ o = None.
Proof. by destruct o. Qed.

(** ** Reserving *)

Lemma actor_tryReserve_ok k t :
  table_ok t →
  match actor_tryReserve k t with
  | None => st_last_generation (at_table t) = U64_MAX
  | Some (None, t') => t' = t ∧ (hasCapacity (at_table t) = false ∨ is_Some (at_key_to_slot t !! k))
  | Some (Some i, t') =>
      table_ok t' ∧ hasCapacity (at_table t) = true ∧ at_key_to_slot t !! k = None ∧
      actives (at_table t') ≡ₚ actives (at_table t) ∧
      at_slots t' !! i = Some (mkSlot (Some (entry_fresh k (st_last_generation (at_table t) + 1) i)) true false) ∧
      st_capacity (at_table t') = st_capacity (at_table t) ∧
      st_last_generation (at_table t') = st_last_generation (at_table t) + 1
  end.
Proof.
  intros Hok. destruct Hok as [Hs Hx Hf Hnd Hk Hw Hg]. unfold actor_tryReserve.
  destruct (hasCapacity (at_table t)) eqn:Hcap; simpl; [|auto].
  destruct (last (at_free_indices t)) as [i|] eqn:Hl.
  2: { exfalso. apply last_None in Hl. destruct (hasCapacity_free _ _ Hs Hcap) as [i Hi].
       apply first_free_spec in Hi. apply Hf in Hi. rewrite Hl in Hi. by apply elem_of_nil in Hi. }
  pose proof (removelast_snoc _ _ Hl) as Hsnoc.
  assert (Hin : i ∈ at_free_indices t) by (rewrite Hsnoc; set_solver).
  destruct (at_key_to_slot t !! k) as [j|] eqn:Hkey; simpl; [eauto|]. unfold nextGeneration.
  destruct (Z.leb_spec U64_MAX (st_last_generation (at_table t))); simpl; [lia|].
  pose proof Hin as (s & Hi & Hfree)%Hf. pose proof (so_slots _ _ Hs _ _ Hi) as Hsk.
  assert (Hnone : slot_entry s = None) by (by eapply free_entry). unfold at_slots in *.
  assert (Hlen : (i < length (st_slots (at_table t)))%nat) by (by eapply lookup_lt_Some).
  split_and!; try done.
  - constructor; unfold at_slots; cbn [at_table at_free_indices at_key_to_slot]; unfold occupy; simpl; try lia.
    + eapply occupy_ok; [done|done|done|apply fresh_incarnation].
    + intros j x e Hj He. apply list_lookup_insert_Some in Hj as [(<- & <- & _)|(_ & Hj)]; [|by eapply Hx].
      injection He as <-. apply fresh_index.
    + intros j. rewrite Hsnoc, NoDup_app in Hnd. destruct Hnd as (_ & Hdis & _).
      split.
      * intros Hj. assert (j ≠ i) by (intros ->; by eapply Hdis, list_elem_of_singleton).
        rewrite list_lookup_insert_ne by done. apply Hf. rewrite Hsnoc. set_solver.
      * intros (x & Hj & Hfr). apply list_lookup_insert_Some in Hj as [(<- & <- & _)|(Hne & Hj)]; [done|].
        assert (Hj' : j ∈ at_free_indices t) by (apply Hf; eauto). rewrite Hsnoc in Hj'. set_solver.
    + rewrite Hsnoc in Hnd. by apply NoDup_app in Hnd as (? & _).
    + intros k' j. destruct (decide (k' = k)) as [->|Hne].
      * rewrite lookup_insert_eq. split.
        -- intros [= <-]. eexists _, _. rewrite list_lookup_insert_eq by done. split_and!; [done|done|apply fresh_key].
        -- intros (x & e & Hj & He & Hke). apply list_lookup_insert_Some in Hj as [(<- & _)|(_ & Hj)]; [done|].
           assert (at_key_to_slot t !! k = Some j) by (apply Hk; eauto). congruence.
      * rewrite lookup_insert_ne by done. rewrite Hk. split.
        -- intros (x & e & Hj & He & Hke). exists x, e. rewrite list_lookup_insert_ne; [done|]. intros ->. congruence.
        -- intros (x & e & Hj & He & Hke). apply list_lookup_insert_Some in Hj as [(<- & <- & _)|(_ & Hj)]; [|eauto].
           injection He as <-. by rewrite fresh_key in Hke.
    + unfold st_capacity in *. simpl. unfold zlen in *. by rewrite length_insert.
  - apply (actives_occupy (set_generation (st_last_generation (at_table t) + 1) (at_table t)) i s); done.
  - simpl. by rewrite list_lookup_insert_eq.
  - unfold st_capacity, zlen. simpl. by rewrite length_insert.
Qed.

(** ** Committing, rolling back, releasing, writing *)

(** A slot that keeps its entry (or an entry with the same key and index). *)
Lemma table_ok_keep t i s s' table :
  table_ok t → at_slots t !! i = Some s → is_free s' = is_free s →
  entry_key <$> slot_entry s' = entry_key <$> slot_entry s → entry_index <$> slot_entry s' = entry_index <$> slot_entry s →
  slots_ok entry_incarnation table → st_slots table = <[i := s']> (st_slots (at_table t)) →
  st_last_generation table = st_last_generation (at_table t) →
  table_ok (mkActorTable table (at_free_indices t) (at_key_to_slot t)).
Proof.
  intros [Hs Hx Hf Hnd Hk Hw Hg] Hi Hfr Hke Hie Hs' Hl Hlast. unfold at_slots in *.
  constructor; unfold at_slots; cbn [at_table at_free_indices at_key_to_slot]; rewrite ?Hlast; try done.
  - rewrite Hl. intros j x e Hj He. apply list_lookup_insert_Some in Hj as [(<- & <- & _)|(_ & Hj)]; [|by eapply Hx].
    rewrite He in Hie. destruct (slot_entry s) as [e0|] eqn:He0; [|done]. injection Hie as ->. by eapply Hx.
  - intros j. rewrite Hf, Hl. destruct (decide (j = i)) as [->|Hne].
    + rewrite list_lookup_insert_eq, Hi by (by eapply lookup_lt_Some). split; intros (x & [= <-] & ?); eexists; (split; [done|congruence]).
    + by setoid_rewrite list_lookup_insert_ne; [|done].
  - rewrite Hl. by eapply keys_replace.
  - unfold st_capacity, zlen in *. rewrite Hl. by rewrite length_insert.
Qed.

Lemma actor_commit_ok t i e :
  table_ok t → at_slots t !! i = Some (mkSlot (Some e) true false) →
  table_ok (actor_commit i t) ∧ actives (at_table (actor_commit i t)) ≡ₚ e :: actives (at_table t) ∧
  at_slots (actor_commit i t) !! i = Some (mkSlot (Some e) false true) ∧
  st_capacity (at_table (actor_commit i t)) = st_capacity (at_table t).
Proof.
  intros Hok Hi. unfold at_slots in *. split_and!.
  - eapply (table_ok_keep t i _ (mkSlot (Some e) false true));
      [done|exact Hi|done|done|done|by eapply commit_slots_ok; [apply Hok|exact Hi|]|..]; unfold commit; by rewrite Hi.
  - eapply actives_commit; [exact Hi|done|done].
  - unfold actor_commit, commit. cbn [at_table]. rewrite Hi. simpl. apply list_lookup_insert_eq. by eapply lookup_lt_Some.
  - unfold actor_commit, commit. cbn [at_table]. rewrite Hi. unfold st_capacity, zlen. simpl. by rewrite length_insert.
Qed.

Lemma assign_ok t i s e e' :
  table_ok t → at_slots t !! i = Some s → slot_entry s = Some e →
  entry_key e' = entry_key e → entry_incarnation e' = entry_incarnation e → entry_index e' = entry_index e →
  table_ok (assign i e' t) ∧ at_slots (assign i e' t) !! i = Some (mkSlot (Some e') (slot_reserved s) (slot_committed s)) ∧
  st_capacity (at_table (assign i e' t)) = st_capacity (at_table t).
Proof.
  intros Hok Hi He Hk Hg Hx. unfold at_slots in *. split_and!.
  - eapply (table_ok_keep t i s (mkSlot (Some e') (slot_reserved s) (slot_committed s)));
      [done|exact Hi|done|by rewrite He; simpl; rewrite Hk|by rewrite He; simpl; rewrite Hx|by eapply write_ok; [apply Hok|..]|..];
      unfold write; rewrite ?Hi; done.
  - unfold assign, write. cbn [at_table]. rewrite Hi. simpl. apply list_lookup_insert_eq. by eapply lookup_lt_Some.
  - unfold assign, write. cbn [at_table]. rewrite Hi. unfold st_capacity, zlen. simpl. by rewrite length_insert.
Qed.

(** A slot emptied: its key leaves the index and the slot joins the free ones. *)
Lemma table_ok_empty t i s e table :
  table_ok t → at_slots t !! i = Some s → slot_entry s = Some e →
  slots_ok entry_incarnation table → st_slots table = <[i := free_slot]> (st_slots (at_table t)) →
  st_last_generation table = st_last_generation (at_table t) →
  table_ok (mkActorTable table (at_free_indices t ++ [i]) (delete (entry_key e) (at_key_to_slot t))).
Proof.
  intros [Hs Hx Hf Hnd Hk Hw Hg] Hi He Hs' Hl Hlast. unfold at_slots in *.
  assert (Hnf : i ∉ at_free_indices t).
  { rewrite Hf. intros (x & Hx' & Hfr). rewrite Hi in Hx'. injection Hx' as <-.
    apply (free_entry _ _ (so_slots _ _ Hs _ _ Hi)) in Hfr. congruence. }
  assert (Hki : at_key_to_slot t !! entry_key e = Some i) by (apply Hk; eauto).
  constructor; unfold at_slots; cbn [at_table at_free_indices at_key_to_slot]; rewrite ?Hlast; try done.
  - rewrite Hl. intros j x e' Hj He'. apply list_lookup_insert_Some in Hj as [(<- & <- & _)|(_ & Hj)]; [done|by eapply Hx].
  - intros j. rewrite elem_of_app, list_elem_of_singleton, Hf, Hl. split.
    + intros [(x & Hj & Hfr)| ->].
      * exists x. rewrite list_lookup_insert_ne; [done|]. intros ->. apply Hnf, Hf. eauto.
      * exists free_slot. rewrite list_lookup_insert_eq by (by eapply lookup_lt_Some). done.
    + intros (x & Hj & Hfr). apply list_lookup_insert_Some in Hj as [(<- & <- & _)|(_ & Hj)]; eauto.
  - apply NoDup_app. split_and!; [done| |apply NoDup_singleton]. intros j Hj ->%list_elem_of_singleton. done.
  - intros k j. rewrite Hl, lookup_delete_Some, Hk. split.
    + intros (Hne & x & e' & Hj & He' & Hke). exists x, e'. rewrite list_lookup_insert_ne; [done|]. intros ->. congruence.
    + intros (x & e' & Hj & He' & Hke). apply list_lookup_insert_Some in Hj as [(<- & <- & _)|(Hne & Hj)]; [done|].
      split; [|eauto]. intros <-. assert (at_key_to_slot t !! entry_key e = Some j) by (apply Hk; eauto). congruence.
  - unfold st_capacity, zlen in *. rewrite Hl. by rewrite length_insert.
Qed.

Lemma actor_rollback_ok t i e :
  table_ok t → at_slots t !! i = Some (mkSlot (Some e) true false) →
  table_ok (actor_rollback i t) ∧ actives (at_table (actor_rollback i t)) ≡ₚ actives (at_table t) ∧
  at_key_to_slot (actor_rollback i t) = delete (entry_key e) (at_key_to_slot t) ∧
  st_capacity (at_table (actor_rollback i t)) = st_capacity (at_table t).
Proof.
  intros Hok Hi. unfold actor_rollback. rewrite Hi. cbn [slot_reserved slot_committed slot_entry negb orb].
  unfold at_slots in Hi. cbn [at_table at_key_to_slot]. split_and!.
  - eapply table_ok_empty; [done|exact Hi|done|apply rollback_ok, Hok|..]; unfold rollback; by rewrite Hi.
  - apply (actives_rollback entry_incarnation). apply Hok.
  - done.
  - unfold rollback. rewrite Hi. unfold st_capacity, zlen. simpl. by rewrite length_insert.
Qed.

(** A committed entry and the ways to reach it. *)
Lemma committed_found t i s e :
  table_ok t → at_slots t !! i = Some s → slot_committed s = true → slot_entry s = Some e →
  find entry_incarnation (ah_slot_index (entry_handle e)) (ah_incarnation (entry_handle e)) (at_table t) = Some e ∧
  Z.to_nat (ah_slot_index (entry_handle e)) = i ∧ find_handle (entry_handle e) t = Some i ∧ find_key (entry_key e) t = Some i.
Proof.
  intros Hok Hi Hc He. pose proof (tk_index _ Hok _ _ _ Hi He) as Hx. pose proof (lookup_lt_Some _ _ _ Hi) as Hlt.
  pose proof (tk_width _ Hok) as Hw. unfold st_capacity, zlen, at_slots in *.
  assert (Hu : u32 (Z.of_nat (entry_index e)) = Z.of_nat i) by (rewrite u32_small, Hx; [done|lia]).
  unfold find_handle, entry_handle. cbn [ah_slot_index ah_incarnation]. rewrite Hu.
  rewrite (find_complete _ _ _ _ _ (tk_slots _ Hok) Hi Hc He). simpl. rewrite Nat2Z.id. split_and!; try done.
  assert (Hk : at_key_to_slot t !! entry_key e = Some i) by (apply (tk_keys _ Hok); eauto).
  unfold find_key, at_slots. rewrite Hk. simpl. rewrite Hi. simpl. unfold committed_entry. by rewrite Hc, He.
Qed.

Lemma find_key_Some k t i :
  table_ok t → find_key k t = Some i → ∃ s e, at_slots t !! i = Some s ∧ slot_committed s = true ∧ slot_entry s = Some e ∧ entry_key e = k.
Proof.
  intros Hok Hf. unfold find_key in Hf. apply bind_Some in Hf as (j & Hk & Hf). apply bind_Some in Hf as (e & Hc & [= ->]).
  apply bind_Some in Hc as (s & Hs & Hc). unfold committed_entry in Hc. destruct (slot_committed s) eqn:Hcm; [|done].
  exists s, e. split_and!; try done. apply (tk_keys _ Hok) in Hk as (s' & e' & Hs' & He' & <-). congruence.
Qed.

Lemma find_handle_Some h t i :
  table_ok t → find_handle h t = Some i →
  ∃ s e, at_slots t !! i = Some s ∧ slot_committed s = true ∧ slot_entry s = Some e ∧ entry_incarnation e = ah_incarnation h ∧
    (0 <= ah_slot_index h → entry_handle e = h).
Proof.
  intros Hok Hf. unfold find_handle in Hf. apply bind_Some in Hf as (e & Hf & [= <-]).
  apply find_Some in Hf as (s & Hs & Hc & He & Hg & _ & Hlt). exists s, e. split_and!; try done. intros H0.
  pose proof (tk_index _ Hok _ _ _ Hs He) as Hx. pose proof (tk_width _ Hok). unfold entry_handle. rewrite Hx, Hg, Z2Nat.id by done.
  rewrite u32_small by lia. by destruct h.
Qed.

Lemma actor_release_ok t i s e :
  table_ok t → at_slots t !! i = Some s → slot_committed s = true → slot_entry s = Some e →
  let t' := (actor_release (entry_handle e) t).2 in
  (actor_release (entry_handle e) t).1 = true ∧ table_ok t' ∧ actives (at_table t) ≡ₚ e :: actives (at_table t') ∧
  dead entry_incarnation (entry_incarnation e) (at_table t') ∧ st_capacity (at_table t') = st_capacity (at_table t) ∧
  at_slots t' !! i = Some free_slot.
Proof.
  intros Hok Hi Hc He. destruct (committed_found t i s e Hok Hi Hc He) as (Hf & Hx & _). unfold actor_release.
  assert (Hg : ah_incarnation (entry_handle e) = entry_incarnation e) by done.
  revert Hf Hx Hg. generalize (entry_handle e). intros h Hf Hx Hg. rewrite Hf. simpl. rewrite Hx. unfold at_slots in *. split_and!; [done|..].
  - eapply table_ok_empty; [done|exact Hi|done|apply release_ok, Hok|..]; unfold release; rewrite Hf; simpl; by rewrite ?Hx.
  - destruct (actives_write entry_incarnation _ _ _ _ Hi Hc He) as (rest & H1 & _ & H3). rewrite H1.
    rewrite Hg in *. by rewrite (H3 _ Hx Hf).
  - rewrite <-Hg. apply (released_dead entry_incarnation); [apply Hok|]. unfold release. by rewrite Hf.
  - unfold release. rewrite Hf. unfold st_capacity, zlen. simpl. by rewrite length_insert.
  - unfold release. rewrite Hf. simpl. rewrite Hx. apply list_lookup_insert_eq. by eapply lookup_lt_Some.
Qed.

Lemma actives_assign t i s e e' :
  at_slots t !! i = Some s → slot_committed s = true → slot_entry s = Some e →
  ∃ rest, actives (at_table t) ≡ₚ e :: rest ∧ actives (at_table (assign i e' t)) ≡ₚ e' :: rest.
Proof.
  intros Hi Hc He. destruct (actives_write entry_incarnation _ _ _ _ Hi Hc He) as (rest & H1 & H2 & _). exists rest.
  split; [done|apply H2].
Qed.

(** The committed entries have different indices. *)
Lemma actives_indices t : table_ok t → NoDup (entry_index <$> actives (at_table t)).
Proof.
  intros Hok. assert (Hx : ∀ i s e, at_slots t !! i = Some s → committed_entry s = Some e → entry_index e = (0 + i)%nat).
  { intros i s e Hi Hc. unfold committed_entry in Hc. destruct (slot_committed s); [|done]. by eapply (tk_index _ Hok). }
  unfold actives. change (st_slots (at_table t)) with (at_slots t). revert Hx. generalize 0%nat.
  induction (at_slots t) as [|s l IH]; intros n Hx; simpl; [constructor|].
  assert (Hl : NoDup (entry_index <$> omap committed_entry l)).
  { apply (IH (S n)). intros i s' e Hi Hc. rewrite (Hx (S i) s' e Hi Hc). lia. }
  destruct (committed_entry s) as [e|] eqn:Hc; [|done]. simpl. apply NoDup_cons. split; [|done].
  rewrite list_elem_of_fmap. intros (e' & He & (s' & Hs' & Hc')%list_elem_of_omap).
  apply list_elem_of_lookup in Hs' as [i Hi]. rewrite (Hx 0%nat s e eq_refl Hc), (Hx (S i) s' e' Hi Hc') in He. lia.
Qed.

Lemma actives_other t i s e rest :
  table_ok t → at_slots t !! i = Some s → slot_entry s = Some e → actives (at_table t) ≡ₚ e :: rest →
  Forall (fun e' => entry_index e' ≠ i) rest.
Proof.
  intros Hok Hi He Hp. pose proof (actives_indices t Hok) as Hnd. rewrite Hp in Hnd. simpl in Hnd.
  apply NoDup_cons in Hnd as [Hn _]. rewrite (tk_index _ Hok _ _ _ Hi He) in Hn. apply Forall_forall. intros e' He' Heq.
  apply Hn. rewrite <-Heq. by apply list_elem_of_fmap_2.
Qed.
End actor_table.
Arguments ActorTable : clear implicits.
