(* ===== verification/Actor.v ===== *)
(** * Actors as the worker sees them

    The types of [src/include/snf/worker/actor.hpp], [worker_event.hpp] and
    [db_client.hpp] that the worker's scheduler handles: mailboxes, effects,
    blocked tasks, the slot of an actor, and the interface [ActorInstance].

    An actor turn is code of the actor that may call back into the worker for
    timer reservations before it ends; it is a tree of those calls.  A coroutine
    that suspended is a value of an abstract type, and resuming it is a turn. *)

From S2P Require Import Prelude FrameCodec Identity SlotTable ActorTable.

(** ** States and results *)

Inductive ActorState := ActorIdle | ActorQueued | ActorRunning | ActorSuspended | ActorLoading | ActorStopping.

#[export] Instance ActorState_eq_dec : EqDecision ActorState.
Proof. solve_decision. Defined.

Inductive DeliveryResult :=
| DeliveryAccepted | WrongOwner | ActorTableFull | MailboxFull | ConstructionRejected | DeliveryStopping | DeliveryClosed
| ActivationLimit | RemoteInboxFull.

#[export] Instance DeliveryResult_eq_dec : EqDecision DeliveryResult.
Proof. solve_decision. Defined.

Inductive CloseReason :=
| CloseShutdown | CloseProtocolViolation | CloseSlowConsumer | ClosePeerClosed | CloseTimeout | CloseIoError | CloseOverload
| CloseApplication.

Inductive SendResult := SendAccepted | SendSoftLimit | SendHardLimit | SendClosing | SendStale | SendRejected.

#[export] Instance SendResult_eq_dec : EqDecision SendResult.
Proof. solve_decision. Defined.

Inductive ActorConnectionClosedResult := MailboxAccepted | ActorAbsent.

Inductive ActorRemovalReason := RemovedStopped | ActivationRejected | ActivationTimedOut | ActivationCancelled | ShutdownForced.

#[export] Instance ActorRemovalReason_eq_dec : EqDecision ActorRemovalReason.
Proof. solve_decision. Defined.

(** ** Database requests *)

Record SavePlayerRequest := mkSavePlayer {
  save_player_id : Z; save_handled_command_count : Z; save_has_location : bool; save_zone_id : Z;
  save_position_x : Z; save_position_y : Z; save_currency_balance : Z; save_purchased_item_count : Z;
  save_street_experience : Z; save_equipped_skill_id : Z; save_owned_skill_ids : list Z
}.

Inductive DbRequest := LoadPlayerRequest (player_id : Z) | SaveRequest (request : SavePlayerRequest).

Record LoadedPlayerRow := mkLoadedRow {
  row_player_id : Z; row_handled_command_count : Z; row_has_location : bool; row_zone_id : Z;
  row_position_x : Z; row_position_y : Z; row_currency_balance : Z; row_purchased_item_count : Z;
  row_street_experience : Z; row_equipped_skill_id : Z
}.

Record LoadPlayerResult := mkLoadResult { load_found : bool; load_row : LoadedPlayerRow; load_owned_skill_ids : list Z }.

Inductive DbFailureKind := DbOverloaded | DbTimedOut | DbConnectionLost | DbQueryFailed | DbResultTooLarge.

#[export] Instance DbFailureKind_eq_dec : EqDecision DbFailureKind.
Proof. solve_decision. Defined.

Inductive SaveOutcome := Committed | FailedBeforeCommit | CommitOutcomeUnknown.

(** The message of a failure is for the log only and left out. *)
Inductive DbResult :=
| LoadResult (result : LoadPlayerResult)
| SaveResult (outcome : SaveOutcome)
| DbFailed (kind : DbFailureKind) (reached_server : bool).

Inductive DbSubmit := SubmitRejected | SubmitInline (result : DbResult) | SubmitPending.

Inductive SyntheticAwaitOutcome := AwaitCompleted | AwaitRejected | AwaitTimedOut | AwaitCancelled.
Inductive SyntheticActivationOutcome := ActivationReady | ActivationRefused | ActivationExpired | ActivationDropped.

(** ** Timer reservations *)

(** [_admission] is null once the reservation was moved from. *)
Record TimerReservation := mkTimerReservation { tr_admission : option WorkerId; tr_charged_bytes : Z; tr_turn_id : Z }.

#[export] Instance TimerReservation_eq_dec : EqDecision TimerReservation.
Proof. solve_decision. Defined.

Section actor.
(** Messages with the bytes they are charged, the state of an actor, and its
    suspended coroutines. *)
Context {M I T : Type} (chargedBytes : M → Z).

(** ** Mailboxes *)

Record Mailbox := mkMailbox { mb_messages : list M; mb_charged_bytes : Z }.

Definition emptyMailbox : Mailbox := mkMailbox [] 0.
Definition mailbox_size (b : Mailbox) : Z := zlen (mb_messages b).
Definition mailbox_empty (b : Mailbox) : bool := match mb_messages b with [] => true | _ => false end.

(** [None]: [std::overflow_error] and [std::logic_error]. *)
Definition mailbox_push (m : M) (b : Mailbox) : option Mailbox :=
  if U64_MAX - mb_charged_bytes b <? chargedBytes m then None
  else Some (mkMailbox (mb_messages b ++ [m]) (mb_charged_bytes b + chargedBytes m)).
Definition mailbox_pop (b : Mailbox) : option (M * Mailbox) :=
  match mb_messages b with
  | [] => None
  | m :: rest => Some (m, mkMailbox rest (u64 (mb_charged_bytes b - chargedBytes m)))
  end.

(** ** Effects *)

Inductive Effect :=
| SendFrameEffect (connection : ConnectionRef) (frame : Frame) (critical : bool)
| CloseConnectionEffect (connection : ConnectionRef) (reason : CloseReason) (graceful : bool)
| TellActorEffect (target : ActorKey) (message : M)
| StopActorEffect
| ScheduleTimerEffect (deadline : time_point) (message : M) (reservation : option TimerReservation).

Notation "'MAX_EFFECTS'" := 64 : snf_scope.

(** [EffectBatch::tryPush] and [push] ([None]: [std::overflow_error]). *)
Definition effects_tryPush (e : Effect) (batch : list Effect) : bool * list Effect :=
  if MAX_EFFECTS <=? zlen batch then (false, batch) else (true, batch ++ [e]).
Definition effects_push (e : Effect) (batch : list Effect) : option (list Effect) :=
  let '(ok, batch') := effects_tryPush e batch in if ok then Some batch' else None.

Definition is_stop (e : Effect) : bool := match e with StopActorEffect => true | _ => false end.
Definition is_schedule (e : Effect) : bool := match e with ScheduleTimerEffect _ _ _ => true | _ => false end.
Definition effect_reservation (e : Effect) : option TimerReservation :=
  match e with ScheduleTimerEffect _ _ r => r | _ => None end.

(** ** Turns *)

Record TurnContext := mkTurnContext { turn_activation : ActivationRef; turn_now : time_point; turn_id : Z }.

Inductive Turn :=
| TurnThrow
| TurnReserve (charged_bytes turn : Z) (k : option TimerReservation → Turn)
| TurnDrop (r : TimerReservation) (k : Turn)
| TurnComplete (instance : I) (effects : list Effect)
| TurnSuspend (instance : I) (task : T).

(** [ActorInstance] and [ActorTask]. *)
Class ActorBehaviour := {
  dispatch : I → M → TurnContext → Turn;
  lifecycleTurn : I → TurnContext → bool → Turn;
  resumeDb : T → I → DbResult → Turn;
  resumeSynthetic : T → I → SyntheticAwaitOutcome → Turn;
  task_request : T → option DbRequest;
  lifecycleDeadline : I → option time_point;
  needsShutdownTurn : I → bool;
  shutdownPending : I → bool;
  finalizationFailed : I → bool
}.

(** Reservations are move-only objects and their destructor gives them back: a
    turn that holds [held] uses each at most once, and what it does not leave in
    its effects or in its coroutine frame it drops. *)
Fixpoint linear (held : list TimerReservation) (t : Turn) : Prop :=
  match t with
  | TurnThrow => True
  | TurnReserve c _ k => 0 <= c ∧ linear held (k None) ∧ ∀ r, linear (r :: held) (k (Some r))
  | TurnDrop r k => ∃ rest, held ≡ₚ r :: rest ∧ linear rest k
  | TurnComplete _ effects => held ≡ₚ omap effect_reservation effects
  | TurnSuspend _ _ => True
  end.

(** ** Slots *)

Inductive BlockedTask :=
| SyntheticSuspendedCommand (key : AwaitKey) (deadline : time_point) (task : T) (completion : option SyntheticAwaitOutcome)
| SuspendedDbCommand (key : AwaitKey) (deadline : time_point) (task : T) (completion : option DbResult)
| ActivationLoad (key : AwaitKey) (deadline : time_point).

Record ActorSlot := mkActorSlot {
  as_key : ActorKey;
  as_incarnation : ActorIncarnation;
  as_slot_index : nat;
  as_state : ActorState;
  as_lifecycle_armed : bool;
  as_instance : option I;
  as_blocked : option BlockedTask;
  as_mailbox : Mailbox
}.

#[export] Program Instance ActorSlot_entry : ActorEntry ActorSlot := {
  entry_key := as_key;
  entry_incarnation := as_incarnation;
  entry_index := as_slot_index;
  entry_fresh k g i := mkActorSlot k g i ActorIdle false None None emptyMailbox
}.
Solve Obligations with done.

Definition set_state (x : ActorState) (s : ActorSlot) : ActorSlot :=
  mkActorSlot (as_key s) (as_incarnation s) (as_slot_index s) x (as_lifecycle_armed s) (as_instance s) (as_blocked s) (as_mailbox s).
Definition set_armed (x : bool) (s : ActorSlot) : ActorSlot :=
  mkActorSlot (as_key s) (as_incarnation s) (as_slot_index s) (as_state s) x (as_instance s) (as_blocked s) (as_mailbox s).
Definition set_instance (x : option I) (s : ActorSlot) : ActorSlot :=
  mkActorSlot (as_key s) (as_incarnation s) (as_slot_index s) (as_state s) (as_lifecycle_armed s) x (as_blocked s) (as_mailbox s).
Definition set_blocked (x : option BlockedTask) (s : ActorSlot) : ActorSlot :=
  mkActorSlot (as_key s) (as_incarnation s) (as_slot_index s) (as_state s) (as_lifecycle_armed s) (as_instance s) x (as_mailbox s).
Definition set_mailbox (x : Mailbox) (s : ActorSlot) : ActorSlot :=
  mkActorSlot (as_key s) (as_incarnation s) (as_slot_index s) (as_state s) (as_lifecycle_armed s) (as_instance s) (as_blocked s) x.

(** [ActorConstructionResult], or an exception of the factory. *)
Inductive Construction := FactoryThrows | FactoryRejected | FactoryNeedsLoad | FactoryReady (instance : option I).

(** ** Events between workers *)

Inductive WorkerEvent :=
| RemoteConnectionSend (connection : ConnectionRef) (frame : Frame) (critical : bool)
| RemoteConnectionClose (connection : ConnectionRef) (reason : CloseReason) (graceful : bool)
| RemoteActorMessage (target : ActorKey) (message : M)
| RemoteActorConnectionClosed (target : ActorKey) (connection : ConnectionRef) (message : M)
| RemoteActorConnectionClosedReceipt (target : ActorKey) (connection : ConnectionRef) (result : ActorConnectionClosedResult).
End actor.
Arguments Mailbox : clear implicits.
Arguments Effect : clear implicits.
Arguments Turn : clear implicits.
Arguments ActorBehaviour : clear implicits.
Arguments BlockedTask : clear implicits.
Arguments ActorSlot : clear implicits.
Arguments Construction : clear implicits.
Arguments WorkerEvent : clear implicits.

(** ** Configuration *)

Record WorkerActorConfig := mkActorConfig {
  actor_table_capacity : Z;
  max_mailbox_messages_per_actor : Z;
  max_mailbox_bytes_per_actor : Z;
  max_mailbox_messages_total : Z;
  max_mailbox_bytes_total : Z;
  max_turns_per_actor_slice : Z;
  placement_seed : Z;
  worker_shutdown_timeout : milliseconds;
  await_timeout : milliseconds;
  max_concurrent_loading : Z;
  max_application_timer_bytes_total : Z
}.

Definition actor_config_valid (c : WorkerActorConfig) : bool :=
  (0 <? actor_table_capacity c) && (0 <? max_mailbox_messages_per_actor c) && (0 <? max_mailbox_bytes_per_actor c)
  && (max_mailbox_messages_per_actor c <=? max_mailbox_messages_total c)
  && (max_mailbox_bytes_per_actor c <=? max_mailbox_bytes_total c) && (0 <? max_turns_per_actor_slice c)
  && (0 <=? worker_shutdown_timeout c) && (0 <? await_timeout c)
  && (0 <? max_concurrent_loading c) && (0 <? max_application_timer_bytes_total c).
