(* ===== verification/DbClient.v ===== *)
(** * The worker's database client

    [DbClient::Impl] of [src/src/worker/db_client.cpp]: the statements it builds,
    the rows it parses, and what one of its connections does with an operation,
    driver call by driver call; and the admission of [tryStart].  The MySQL driver
    is a parameter, [DbDriver], with no law: it answers each call as it likes.
    What a driver answers that stands before a MySQL server is [server_driver],
    over a server that is itself a parameter, [SqlServer], with what is relied on
    of it stated as [SqlLaws].

    Left out: the registration of descriptors with the poller, the latency
    histograms and high-water marks, and the texts of error messages, which only
    reach a log.  [std::to_string] and [std::from_chars] are modelled for 64-bit
    numbers, of at most 20 digits. *)

From Stdlib Require Import Ascii String.
From stdpp Require Import strings.
From S2P Require Import Prelude Identity Actor.

Abbreviation db_text := string.

(** ** Decimal numbers *)

Definition digit_char (d : Z) : ascii := ascii_of_nat (48 + Z.to_nat d).

Definition digit_of (c : ascii) : option Z :=
  let n := Z.of_nat (nat_of_ascii c) in if (48 <=? n) && (n <=? 57) then Some (n - 48) else None.

Fixpoint decimal (fuel : nat) (z : Z) (rest : db_text) : db_text :=
  match fuel with
  | O => rest
  | S fuel => let text := String (digit_char (z mod 10)) rest in if z <? 10 then text else decimal fuel (z / 10) text
  end.

(** [std::to_string]. *)
Definition to_string (z : Z) : db_text := if z <? 0 then String "-"%char (decimal 20 (- z) EmptyString) else decimal 20 z EmptyString.

Fixpoint parse_digits (s : db_text) (value : Z) : option Z :=
  match s with
  | EmptyString => Some value
  | String c rest => d ← digit_of c; parse_digits rest (value * 10 + d)
  end.

(** The digits of a number, at least one, to the end of the text. *)
Definition parse_number (s : db_text) : option Z := match s with EmptyString => None | _ => parse_digits s 0 end.

Definition parseUnsigned (text : db_text) : option Z := v ← parse_number text; if v <=? U64_MAX then Some v else None.

Definition parseSigned (text : db_text) : option Z :=
  match text with
  | String "-"%char rest => v ← parse_number rest; if v <=? 9223372036854775808 then Some (- v) else None
  | _ => v ← parse_number text; if v <=? 9223372036854775807 then Some v else None
  end.

(** ** Statements *)

Definition PLAYER_ROW_COLUMNS := 8.
Definition MAX_PLAYER_ROWS := 2.
Definition MAX_PLAYER_SKILL_ROWS := 64.

Local Open Scope string_scope.

Definition playerSelect (player_id : Z) : db_text :=
  "SELECT handled_command_count, zone_id, position_x, position_y, " ++
  "currency_balance, purchased_item_count, street_experience, equipped_skill_id " ++
  "FROM snf_players WHERE player_id=" ++ to_string player_id ++ " LIMIT " ++ to_string MAX_PLAYER_ROWS.

Definition playerUpsert (r : SavePlayerRequest) : db_text :=
  let zone := if save_has_location r then to_string (save_zone_id r) else "NULL" in
  let position_x := if save_has_location r then to_string (save_position_x r) else "NULL" in
  let position_y := if save_has_location r then to_string (save_position_y r) else "NULL" in
  "INSERT INTO snf_players (player_id, handled_command_count, zone_id, " ++
  "position_x, position_y, currency_balance, purchased_item_count, street_experience, equipped_skill_id) VALUES (" ++
  to_string (save_player_id r) ++ "," ++ to_string (save_handled_command_count r) ++ "," ++ zone ++ "," ++ position_x ++ "," ++
  position_y ++ "," ++ to_string (save_currency_balance r) ++ "," ++ to_string (save_purchased_item_count r) ++ "," ++
  to_string (save_street_experience r) ++ "," ++ to_string (save_equipped_skill_id r) ++
  ") ON DUPLICATE KEY UPDATE " ++
  "handled_command_count=VALUES(handled_command_count), " ++
  "zone_id=VALUES(zone_id), position_x=VALUES(position_x), " ++
  "position_y=VALUES(position_y), currency_balance=VALUES(currency_balance), " ++
  "purchased_item_count=VALUES(purchased_item_count), " ++
  "street_experience=VALUES(street_experience), equipped_skill_id=VALUES(equipped_skill_id)".

Definition playerSkillDelete (player_id : Z) : db_text := "DELETE FROM snf_player_skills WHERE player_id=" ++ to_string player_id.

(** The loop of [playerSkillInsert]: a comma before each pair but the first. *)
Fixpoint skill_pairs (player_id : Z) (first : bool) (skills : list Z) : db_text :=
  match skills with
  | [] => ""
  | s :: rest => (if first then "" else ",") ++ "(" ++ to_string player_id ++ "," ++ to_string s ++ ")" ++ skill_pairs player_id false rest
  end.

Definition playerSkillInsert (r : SavePlayerRequest) : db_text :=
  "INSERT INTO snf_player_skills (player_id, skill_id) VALUES " ++ skill_pairs (save_player_id r) true (save_owned_skill_ids r).

Definition playerSkillSelect (player_id : Z) : db_text :=
  "SELECT skill_id FROM snf_player_skills WHERE player_id=" ++ to_string player_id ++ " ORDER BY skill_id LIMIT " ++ to_string MAX_PLAYER_SKILL_ROWS.

Local Open Scope list_scope.
Local Open Scope Z_scope.

(** ** Connections and operations *)

Inductive DbSlotState := DbClosed | DbConnecting | DbIdle | DbQuerying | DbFetching | DbFreeingResult.

Inductive DbStage :=
| PlayerRow | PlayerSkills
| SaveIsolation | SaveBegin | SaveUpsert | SaveDeleteSkills | SaveInsertSkills | SaveCommit | SaveRollback.

#[export] Instance DbSlotState_eq_dec : EqDecision DbSlotState.
Proof. solve_decision. Defined.
#[export] Instance DbStage_eq_dec : EqDecision DbStage.
Proof. solve_decision. Defined.

Record DbInFlight := mkDbInFlight {
  dif_key : AwaitKey; dif_request : DbRequest; dif_deadline : time_point; dif_stage : DbStage;
  dif_result : LoadPlayerResult; dif_rows : Z; dif_bytes : Z; dif_commit_dispatched : bool
}.

Record DbQueued := mkDbQueued { dq_key : AwaitKey; dq_request : DbRequest; dq_deadline : time_point; dq_footprint : Z }.

(** [ds_handle]: there is a [MYSQL] handle; [ds_result]: the columns of the open
    [MYSQL_RES]. *)
Record DbSlot := mkDbSlot {
  ds_generation : Z; ds_handle : bool; ds_result : option Z; ds_state : DbSlotState; ds_runnable : bool;
  ds_retry_at : time_point; ds_in_flight : option DbInFlight
}.

Record DbClientConfig := mkDbClientConfig {
  dc_max_queued_operations : Z; dc_max_queued_bytes : Z; dc_reconnect_backoff : milliseconds; dc_max_result_rows : Z; dc_max_result_bytes : Z
}.

(** What a client reports: the statements it hands to the driver, those the
    driver says the server has answered, its counters, and its completions. *)
Inductive DbCounter :=
| OperationsStarted | OperationsCompleted | OperationsFailed | ConnectionsReady | ConnectionsPoisoned | QueuedTimeouts | InFlightTimeouts
| StalePollEvents | SubmitRejections | CommitsAcknowledged | CommitsUnknown | Rollbacks.

Inductive DbEvent :=
| Asked (sql : db_text)
| Acknowledged (sql : db_text)
| DbCounted (counter : DbCounter)
| CompleteDb (key : AwaitKey) (result : DbResult).

(** ** The driver *)

Inductive DbStatus := DbNotReady | DbError | DbComplete.

(** The status of a query; once it is complete, [mysql_field_count] and whether
    [mysql_use_result] gives a result. *)
Inductive DbQueryStatus := QueryNotReady | QueryError | QueryDone (field_count : Z) (use_result : bool).

(** The status of a fetch; once it is complete, the row if there is one more, each
    column a text or NULL, and whether [mysql_fetch_lengths] gives its lengths. *)
Inductive DbFetchStatus := FetchNotReady | FetchError | Fetched (row : option (list (option db_text))) (lengths : bool).

Class DbDriver (E : Type) := {
  dd_connect : E → DbStatus * E;
  dd_query : db_text → E → DbQueryStatus * E;
  dd_fetch : E → DbFetchStatus * E;
  dd_free : E → DbStatus * E
}.

Definition set_ds_runnable (b : bool) (s : DbSlot) : DbSlot :=
  mkDbSlot (ds_generation s) (ds_handle s) (ds_result s) (ds_state s) b (ds_retry_at s) (ds_in_flight s).
Definition set_ds_in_flight (o : option DbInFlight) (s : DbSlot) : DbSlot :=
  mkDbSlot (ds_generation s) (ds_handle s) (ds_result s) (ds_state s) (ds_runnable s) (ds_retry_at s) o.
Definition set_ds_retry_at (t : time_point) (s : DbSlot) : DbSlot :=
  mkDbSlot (ds_generation s) (ds_handle s) (ds_result s) (ds_state s) (ds_runnable s) t (ds_in_flight s).
(** A new state; the slot can go on. *)
Definition go_on (state : DbSlotState) (s : DbSlot) : DbSlot :=
  mkDbSlot (ds_generation s) (ds_handle s) (ds_result s) state true (ds_retry_at s) (ds_in_flight s).
Definition set_ds_result (o : option Z) (s : DbSlot) : DbSlot :=
  mkDbSlot (ds_generation s) (ds_handle s) o (ds_state s) (ds_runnable s) (ds_retry_at s) (ds_in_flight s).

Definition set_dif_stage (stage : DbStage) (v : DbInFlight) : DbInFlight :=
  mkDbInFlight (dif_key v) (dif_request v) (dif_deadline v) stage (dif_result v) (dif_rows v) (dif_bytes v) (dif_commit_dispatched v).
Definition set_dif_rows (rows bytes : Z) (v : DbInFlight) : DbInFlight :=
  mkDbInFlight (dif_key v) (dif_request v) (dif_deadline v) (dif_stage v) (dif_result v) rows bytes (dif_commit_dispatched v).
Definition set_dif_result (result : LoadPlayerResult) (v : DbInFlight) : DbInFlight :=
  mkDbInFlight (dif_key v) (dif_request v) (dif_deadline v) (dif_stage v) result (dif_rows v) (dif_bytes v) (dif_commit_dispatched v).
Definition set_dif_commit (v : DbInFlight) : DbInFlight :=
  mkDbInFlight (dif_key v) (dif_request v) (dif_deadline v) (dif_stage v) (dif_result v) (dif_rows v) (dif_bytes v) true.

(** ** Rows *)

(** One column: absent, a number, or undecodable. *)
Definition parse_column (column : nat) (cell : option db_text) : option (option Z) :=
  match cell with
  | None => Some None
  | Some text => v ← (if (column =? 2)%nat || (column =? 3)%nat then parseSigned text else parseUnsigned text); Some (Some v)
  end.

Definition out_of_i32 (z : Z) : bool := (z <? I32_MIN) || (I32_MAX <? z).

(** The row of a player.  [std::get] of the request is for a load only; a save
    has no result set to fetch from. *)
Definition player_row (v : DbInFlight) (cells : list (option Z)) : option LoadPlayerResult :=
  match cells, dif_request v with
  | [handled; zone; x; y; currency; items; experience; equipped], LoadPlayerRequest player =>
      let has_location := has_value zone && has_value x && has_value y in
      if (has_value zone || has_value x || has_value y) && negb has_location then None
      else if negb (has_value handled) || negb (has_value currency) || negb (has_value items) || negb (has_value experience)
              || negb (has_value equipped) then None
      else if out_of_i32 (default 0 x) || out_of_i32 (default 0 y) || (U32_MAX <? default 0 equipped) then None
      else Some (mkLoadResult true
             (mkLoadedRow player (default 0 handled) has_location (if has_location then default 0 zone else 0)
                (if has_location then default 0 x else 0) (if has_location then default 0 y else 0)
                (default 0 currency) (default 0 items) (default 0 experience) (default 0 equipped))
             (load_owned_skill_ids (dif_result v)))
  | _, _ => None
  end.

(** [consumeRow]: the result with the row in it; [None] is [false]. *)
Definition consumeRow (v : DbInFlight) (lengths : bool) (row : list (option db_text)) (columns : Z) : option LoadPlayerResult :=
  if negb lengths then None
  else if bool_decide (dif_stage v = PlayerSkills) then
    if negb (columns =? 1) then None
    else
      cell ← head row;
      text ← cell;
      skill ← parseUnsigned text;
      if U32_MAX <? skill then None
      else Some (mkLoadResult (load_found (dif_result v)) (load_row (dif_result v)) (load_owned_skill_ids (dif_result v) ++ [skill])%list)
  else if negb (columns =? PLAYER_ROW_COLUMNS) || load_found (dif_result v) then None
  else cells ← mapM id (imap parse_column row); player_row v cells.

Definition row_bytes (lengths : bool) (row : list (option db_text)) : Z :=
  if lengths then foldr (fun cell n => match cell with Some text => Z.of_nat (String.length text) | None => 0 end + n) 0 row else 0.

(** ** What the client does *)

Definition currentSql (v : DbInFlight) : db_text :=
  match dif_request v with
  | LoadPlayerRequest player => if bool_decide (dif_stage v = PlayerRow) then playerSelect player else playerSkillSelect player
  | SaveRequest save =>
      match dif_stage v with
      | SaveIsolation => "SET TRANSACTION ISOLATION LEVEL READ COMMITTED"
      | SaveBegin => "START TRANSACTION"
      | SaveUpsert => playerUpsert save
      | SaveDeleteSkills => playerSkillDelete (save_player_id save)
      | SaveInsertSkills => playerSkillInsert save
      | SaveCommit => "COMMIT"
      | _ => "ROLLBACK"
      end
  end.

Definition stageRowLimit (v : DbInFlight) : Z := if bool_decide (dif_stage v = PlayerRow) then MAX_PLAYER_ROWS else MAX_PLAYER_SKILL_ROWS.

Definition isSaveStage (stage : DbStage) : bool := match stage with PlayerRow | PlayerSkills => false | _ => true end.

Definition is_save_request (request : DbRequest) : bool := match request with SaveRequest _ => true | _ => false end.

Definition failureResultFor (v : DbInFlight) (kind : DbFailureKind) (reached_server : bool) : DbResult :=
  if negb (is_save_request (dif_request v)) then DbFailed kind reached_server
  else SaveResult (if dif_commit_dispatched v then CommitOutcomeUnknown else FailedBeforeCommit).

Definition closeSlot (s : DbSlot) : DbSlot := mkDbSlot (ds_generation s) false None DbClosed false (ds_retry_at s) (ds_in_flight s).

Section client.
Context {E : Type} `{Driver : !DbDriver E} (config : DbClientConfig) (now : time_point).

Definition poisonSlot (s : DbSlot) (kind : DbFailureKind) : list DbEvent * DbSlot :=
  let events :=
    match ds_in_flight s with
    | None => []
    | Some v => [DbCounted OperationsFailed]
                ++ (if is_save_request (dif_request v) && dif_commit_dispatched v then [DbCounted CommitsUnknown] else [])
                ++ [CompleteDb (dif_key v) (failureResultFor v kind true)]
    end%list in
  (DbCounted ConnectionsPoisoned :: events, set_ds_retry_at now (closeSlot (set_ds_in_flight None s))).

Definition failOperation (s : DbSlot) (kind : DbFailureKind) : list DbEvent * DbSlot := poisonSlot s kind.

Definition db_finish (s : DbSlot) (v : DbInFlight) (result : DbResult) : list DbEvent * DbSlot :=
  ([DbCounted OperationsCompleted; CompleteDb (dif_key v) result], go_on DbIdle (set_ds_in_flight None s)).

Definition beginStageQuery (s : DbSlot) : DbSlot := go_on DbQuerying s.

Definition new_in_flight (q : DbQueued) : DbInFlight :=
  mkDbInFlight (dq_key q) (dq_request q) (dq_deadline q) (if is_save_request (dq_request q) then SaveIsolation else PlayerRow)
    (mkLoadResult false (mkLoadedRow 0 0 false 0 0 0 0 0 0 0) []) 0 0 false.

Definition db_assign (s : DbSlot) (q : DbQueued) : list DbEvent * DbSlot :=
  ([DbCounted OperationsStarted], beginStageQuery (set_ds_in_flight (Some (new_in_flight q)) s)).

(** To the next statement. *)
Definition next_stage (s : DbSlot) (v : DbInFlight) (stage : DbStage) : list DbEvent * DbSlot :=
  ([], beginStageQuery (set_ds_in_flight (Some (set_dif_stage stage v)) s)).

Definition advanceStage (s : DbSlot) (v : DbInFlight) : list DbEvent * DbSlot :=
  match dif_stage v with
  | PlayerRow =>
      if negb (load_found (dif_result v)) then db_finish s v (LoadResult (dif_result v))
      else next_stage s (set_dif_rows 0 (dif_bytes v) v) PlayerSkills
  | PlayerSkills => db_finish s v (LoadResult (dif_result v))
  | SaveIsolation => next_stage s v SaveBegin
  | SaveBegin => next_stage s v SaveUpsert
  | SaveUpsert => next_stage s v SaveDeleteSkills
  | SaveDeleteSkills => next_stage s v SaveInsertSkills
  | SaveInsertSkills => next_stage s v SaveCommit
  | SaveCommit => let '(events, s') := db_finish s v (SaveResult Committed) in (DbCounted CommitsAcknowledged :: events, s')
  | SaveRollback => let '(events, s') := db_finish s v (SaveResult FailedBeforeCommit) in (DbCounted Rollbacks :: events, s')
  end.

Definition onSaveStatementFailed (s : DbSlot) (v : DbInFlight) : list DbEvent * DbSlot :=
  let dropped := set_ds_retry_at now (closeSlot (set_ds_in_flight None s)) in
  if dif_commit_dispatched v then
    ([DbCounted CommitsUnknown; DbCounted OperationsFailed; CompleteDb (dif_key v) (SaveResult CommitOutcomeUnknown)], dropped)
  else if bool_decide (dif_stage v = SaveRollback) then
    ([DbCounted OperationsFailed; DbCounted ConnectionsPoisoned; CompleteDb (dif_key v) (SaveResult FailedBeforeCommit)], dropped)
  else next_stage s v SaveRollback.

(** A call of the driver is not complete: the slot waits. *)
Definition wait (s : DbSlot) : DbSlot := set_ds_runnable false s.

(** The result of a step: whether the slot can go on, the rows and bytes it used,
    what it reports. *)
Definition DbStep : Type := bool * Z * Z * list DbEvent * DbSlot * E.

Definition step_connecting (s : DbSlot) (e : E) : DbStep :=
  let '(status, e1) := dd_connect e in
  match status with
  | DbNotReady => (false, 0, 0, [], wait s, e1)
  | DbError => (false, 0, 0, [], set_ds_runnable false (set_ds_retry_at (after now (dc_reconnect_backoff config)) (closeSlot s)), e1)
  | DbComplete => (true, 0, 0, [DbCounted ConnectionsReady], go_on DbIdle s, e1)
  end.

Definition step_querying (s : DbSlot) (v0 : DbInFlight) (e : E) : DbStep :=
  let v := if bool_decide (dif_stage v0 = SaveCommit) then set_dif_commit v0 else v0 in
  let s1 := set_ds_in_flight (Some v) s in
  let sql := currentSql v in
  let '(status, e1) := dd_query sql e in
  match status with
  | QueryNotReady => (false, 0, 0, [Asked sql], wait s1, e1)
  | QueryError =>
      let '(events, s2) := if isSaveStage (dif_stage v) then onSaveStatementFailed s1 v else failOperation s1 DbQueryFailed in
      (false, 0, 0, Asked sql :: events, s2, e1)
  | QueryDone fields use_result =>
      if fields =? 0 then
        let '(events, s2) := advanceStage s1 v in (true, 0, 0, Asked sql :: Acknowledged sql :: events, s2, e1)
      else if negb use_result then
        let '(events, s2) := failOperation s1 DbQueryFailed in (false, 0, 0, Asked sql :: Acknowledged sql :: events, s2, e1)
      else (true, 0, 0, [Asked sql; Acknowledged sql], go_on DbFetching (set_ds_result (Some fields) s1), e1)
  end.

Definition fail_step (rows bytes : Z) (s : DbSlot) (kind : DbFailureKind) (e : E) : DbStep :=
  let '(events, s1) := failOperation s kind in (false, rows, bytes, events, s1, e).

Definition step_fetching (s : DbSlot) (v0 : DbInFlight) (columns : Z) (e : E) : DbStep :=
  let '(status, e1) := dd_fetch e in
  match status with
  | FetchNotReady => (false, 0, 0, [], wait s, e1)
  | FetchError => fail_step 0 0 s DbQueryFailed e1
  | Fetched None _ => (true, 0, 0, [], go_on DbFreeingResult s, e1)
  | Fetched (Some row) lengths =>
      let v1 := set_dif_rows (u64 (dif_rows v0 + 1)) (dif_bytes v0) v0 in
      if (stageRowLimit v1 <? dif_rows v1) || (dc_max_result_rows config <? dif_rows v1)
      then fail_step 1 0 (set_ds_in_flight (Some v1) s) DbResultTooLarge e1
      else
        let bytes := row_bytes lengths row in
        let v2 := set_dif_rows (dif_rows v1) (u64 (dif_bytes v1 + bytes)) v1 in
        if dc_max_result_bytes config <? dif_bytes v2 then fail_step 1 bytes (set_ds_in_flight (Some v2) s) DbResultTooLarge e1
        else
          match consumeRow v2 lengths row columns with
          | None => fail_step 1 bytes (set_ds_in_flight (Some v2) s) DbQueryFailed e1
          | Some result => (true, 1, bytes, [], set_ds_runnable true (set_ds_in_flight (Some (set_dif_result result v2)) s), e1)
          end
  end.

Definition step_freeing (s : DbSlot) (v : DbInFlight) (e : E) : DbStep :=
  let '(status, e1) := dd_free e in
  match status with
  | DbNotReady => (false, 0, 0, [], wait s, e1)
  | DbError => fail_step 0 0 (set_ds_result None s) DbQueryFailed e1
  | DbComplete => let '(events, s1) := advanceStage (set_ds_result None s) v in (true, 0, 0, events, s1, e1)
  end.

(** [step].  A slot that queries, fetches or frees has an operation, and one that
    fetches has a result: otherwise nothing happens. *)
Definition db_step (s : DbSlot) (e : E) : DbStep :=
  match ds_state s, ds_in_flight s with
  | DbClosed, _ => (false, 0, 0, [], set_ds_runnable false s, e)
  | DbConnecting, _ => step_connecting s e
  | DbIdle, Some _ => (true, 0, 0, [], beginStageQuery s, e)
  | DbIdle, None => (false, 0, 0, [], set_ds_runnable false s, e)
  | DbQuerying, Some v => step_querying s v e
  | DbFetching, Some v => match ds_result s with Some columns => step_fetching s v columns e | None => (false, 0, 0, [], s, e) end
  | DbFreeingResult, Some v => step_freeing s v e
  | _, None => (false, 0, 0, [], s, e)
  end.
End client.

(** ** One connection *)

(** What happens to a connection: the client lets it step ([advance] does so while
    it is runnable), the poller reports it ready ([onPollEvent], with a token of
    this generation), or the deadlines are looked at ([expireDeadlines]). *)
Inductive SlotCall := SlotStep (now : time_point) | SlotReady | SlotExpire (now : time_point).

Definition expire_slot (now : time_point) (s : DbSlot) : list DbEvent * DbSlot :=
  match ds_in_flight s with
  | Some v =>
      if now <? dif_deadline v then ([], s)
      else let '(events, s1) := poisonSlot now s DbTimedOut in (DbCounted InFlightTimeouts :: events, s1)
  | None => ([], s)
  end.

Section slot.
Context {E : Type} `{Driver : !DbDriver E} (config : DbClientConfig).

Definition slot_call (call : SlotCall) (st : DbSlot * E) : list DbEvent * (DbSlot * E) :=
  let '(s, e) := st in
  match call with
  | SlotStep now => if ds_runnable s then let '(_, _, _, events, s1, e1) := db_step config now s e in (events, (s1, e1)) else ([], st)
  | SlotReady => ([], (if ds_handle s then set_ds_runnable true s else s, e))
  | SlotExpire now => let '(events, s1) := expire_slot now s in (events, (s1, e))
  end.

Fixpoint slot_calls (calls : list SlotCall) (st : DbSlot * E) : list DbEvent * (DbSlot * E) :=
  match calls with
  | [] => ([], st)
  | call :: rest =>
      let '(events, st1) := slot_call call st in
      let '(more, st2) := slot_calls rest st1 in (events ++ more, st2)
  end.
End slot.

(** ** The client *)

Record DbClient := mkDbClient {
  db_slots : list DbSlot; db_queue : list DbQueued; db_queued_bytes : Z; db_next_generation : Z; db_shutting_down : bool
}.

Definition set_db_slots (slots : list DbSlot) (c : DbClient) : DbClient :=
  mkDbClient slots (db_queue c) (db_queued_bytes c) (db_next_generation c) (db_shutting_down c).
Definition set_db_queue (queue : list DbQueued) (bytes : Z) (c : DbClient) : DbClient :=
  mkDbClient (db_slots c) queue bytes (db_next_generation c) (db_shutting_down c).

(** The skills of a save are none, or more than the rows a load reads. *)
Definition bad_skills (request : DbRequest) : bool :=
  match request with
  | SaveRequest r => (zlen (save_owned_skill_ids r) =? 0) || (MAX_PLAYER_SKILL_ROWS <? zlen (save_owned_skill_ids r))
  | LoadPlayerRequest _ => false
  end.

Definition slot_free (s : DbSlot) : bool := bool_decide (ds_state s = DbIdle) && negb (has_value (ds_in_flight s)).

(** [tryStart]; [footprint] is [queuedFootprint] of the request, which depends on
    the capacity of its vector. *)
Definition db_tryStart (config : DbClientConfig) (q : DbQueued) (c : DbClient) : DbSubmit * list DbEvent * DbClient :=
  let rejected := (SubmitRejected, [DbCounted SubmitRejections], c) in
  if db_shutting_down c then rejected
  else if bad_skills (dq_request q) then rejected
  else
    match list_find (fun s => slot_free s = true) (db_slots c) with
    | Some (i, s) => let '(events, s1) := db_assign s q in (SubmitPending, events, set_db_slots (<[i := s1]> (db_slots c)) c)
    | None =>
        if (dc_max_queued_operations config <=? zlen (db_queue c)) || (dc_max_queued_bytes config <? dq_footprint q)
           || (dc_max_queued_bytes config - dq_footprint q <? db_queued_bytes c)
        then rejected
        else (SubmitPending, [], set_db_queue (db_queue c ++ [q]) (u64 (db_queued_bytes c + dq_footprint q)) c)
    end.

Fixpoint pump (slots : list DbSlot) (queue : list DbQueued) (bytes : Z) : list DbEvent * list DbSlot * list DbQueued * Z :=
  match slots, queue with
  | s :: rest, q :: queue' =>
      if slot_free s then
        let '(events, s1) := db_assign s q in
        let '(more, rest1, queue1, bytes1) := pump rest queue' (u64 (bytes - dq_footprint q)) in (events ++ more, s1 :: rest1, queue1, bytes1)
      else let '(more, rest1, queue1, bytes1) := pump rest queue bytes in (more, s :: rest1, queue1, bytes1)
  | _, _ => ([], slots, queue, bytes)
  end.

Definition pumpQueue (c : DbClient) : list DbEvent * DbClient :=
  let '(events, slots, queue, bytes) := pump (db_slots c) (db_queue c) (db_queued_bytes c) in
  (events, set_db_queue queue bytes (set_db_slots slots c)).

(** [onPollEvent] of a token for a database connection. *)
Definition db_onPollEvent (index : nat) (generation : Z) (c : DbClient) : list DbEvent * DbClient :=
  match db_slots c !! index with
  | None => ([DbCounted StalePollEvents], c)
  | Some s =>
      if negb (u32 (ds_generation s) =? generation) || negb (ds_handle s) then ([DbCounted StalePollEvents], c)
      else ([], set_db_slots (<[index := set_ds_runnable true s]> (db_slots c)) c)
  end.

(** The queue without what has timed out. *)
Fixpoint expire_queue (now : time_point) (queue : list DbQueued) (bytes : Z) : list DbEvent * list DbQueued * Z :=
  match queue with
  | [] => ([], [], bytes)
  | q :: rest =>
      if now <? dq_deadline q then let '(events, rest1, bytes1) := expire_queue now rest bytes in (events, q :: rest1, bytes1)
      else
        let '(events, rest1, bytes1) := expire_queue now rest (u64 (bytes - dq_footprint q)) in
        ([DbCounted QueuedTimeouts; DbCounted OperationsFailed; CompleteDb (dq_key q) (DbFailed DbTimedOut false)] ++ events, rest1, bytes1)
  end.

Fixpoint expire_slots (now : time_point) (slots : list DbSlot) : list DbEvent * list DbSlot :=
  match slots with
  | [] => ([], [])
  | s :: rest => let '(events, s1) := expire_slot now s in let '(more, rest1) := expire_slots now rest in (events ++ more, s1 :: rest1)
  end.

Definition expireDeadlines (now : time_point) (c : DbClient) : list DbEvent * DbClient :=
  let '(events, queue, bytes) := expire_queue now (db_queue c) (db_queued_bytes c) in
  let '(more, slots) := expire_slots now (db_slots c) in
  (events ++ more, set_db_slots slots (set_db_queue queue bytes c)).

(** [openSlot]; that [mysql_init] runs out of memory is left out. *)
Definition openSlot (generation : Z) (s : DbSlot) : DbSlot :=
  mkDbSlot generation true (ds_result s) DbConnecting true (ds_retry_at s) (ds_in_flight s).

Fixpoint reopen_slots (now : time_point) (generation : Z) (slots : list DbSlot) : list DbSlot * Z :=
  match slots with
  | [] => ([], generation)
  | s :: rest =>
      if bool_decide (ds_state s = DbClosed) && (ds_retry_at s <=? now)
      then let '(rest1, g) := reopen_slots now (u64 (generation + 1)) rest in (openSlot generation s :: rest1, g)
      else let '(rest1, g) := reopen_slots now generation rest in (s :: rest1, g)
  end.

Definition maintainConnections (now : time_point) (c : DbClient) : DbClient :=
  if db_shutting_down c then c
  else let '(slots, g) := reopen_slots now (db_next_generation c) (db_slots c) in
       mkDbClient slots (db_queue c) (db_queued_bytes c) g (db_shutting_down c).

Definition db_beginShutdown (c : DbClient) : list DbEvent * DbClient :=
  (q ← db_queue c; [DbCounted OperationsFailed; CompleteDb (dq_key q) (DbFailed DbOverloaded false)],
   mkDbClient (db_slots c) [] (foldl (fun bytes q => u64 (bytes - dq_footprint q)) (db_queued_bytes c) (db_queue c)) (db_next_generation c) true).

(** ** Runs of the client *)

(** [advance] lets the runnable slots step in turn, and pumps the queue after each
    step, until its budget is used: a run has any number of these steps, of any
    slots. *)
Inductive DbCall :=
| DbTryStart (q : DbQueued)
| DbPollEvent (index : nat) (generation : Z)
| DbAdvance (index : nat) (now : time_point)
| DbExpire (now : time_point)
| DbMaintain (now : time_point)
| DbBeginShutdown.

Section runs.
Context {E : Type} `{Driver : !DbDriver E} (config : DbClientConfig).

Definition db_advance (index : nat) (now : time_point) (c : DbClient) (e : E) : list DbEvent * DbClient * E :=
  match db_slots c !! index with
  | Some s =>
      if ds_runnable s then
        let '(_, _, _, events, s1, e1) := db_step config now s e in
        let '(more, c1) := pumpQueue (set_db_slots (<[index := s1]> (db_slots c)) c) in (events ++ more, c1, e1)
      else ([], c, e)
  | None => ([], c, e)
  end.

(** A call: the key it accepts, if it does, and what it reports. *)
Definition db_call (call : DbCall) (c : DbClient) (e : E) : list AwaitKey * list DbEvent * DbClient * E :=
  match call with
  | DbTryStart q => let '(submit, events, c1) := db_tryStart config q c in (match submit with SubmitPending => [dq_key q] | _ => [] end, events, c1, e)
  | DbPollEvent index generation => let '(events, c1) := db_onPollEvent index generation c in ([], events, c1, e)
  | DbAdvance index now => let '(events, c1, e1) := db_advance index now c e in ([], events, c1, e1)
  | DbExpire now => let '(events, c1) := expireDeadlines now c in ([], events, c1, e)
  | DbMaintain now => ([], [], maintainConnections now c, e)
  | DbBeginShutdown => let '(events, c1) := db_beginShutdown c in ([], events, c1, e)
  end.

Fixpoint db_run (calls : list DbCall) (c : DbClient) (e : E) : list AwaitKey * list DbEvent * DbClient * E :=
  match calls with
  | [] => ([], [], c, e)
  | call :: rest =>
      let '(accepted, events, c1, e1) := db_call call c e in
      let '(accepted', events', c2, e2) := db_run rest c1 e1 in (accepted ++ accepted', events ++ events', c2, e2)
  end.
End runs.

Definition completions (events : list DbEvent) : list (AwaitKey * DbResult) :=
  omap (fun e => match e with CompleteDb key result => Some (key, result) | _ => None end) events.
Definition acknowledged (events : list DbEvent) : list db_text := omap (fun e => match e with Acknowledged sql => Some sql | _ => None end) events.
Definition asked (events : list DbEvent) : list db_text := omap (fun e => match e with Asked sql => Some sql | _ => None end) events.

(** ** Every operation completes once *)

Definition reported_keys (events : list DbEvent) : list AwaitKey := (completions events).*1.
Definition slot_key (s : DbSlot) : list AwaitKey := match ds_in_flight s with Some v => [dif_key v] | None => [] end.

(** The operations the client has accepted and not yet reported. *)
Definition held_keys (c : DbClient) : list AwaitKey := (dq_key <$> db_queue c) ++ (db_slots c ≫= slot_key).

(** The books of the queue: [assertQueueAccounting]. *)
Definition footprints (queue : list DbQueued) : Z := foldr (fun q n => dq_footprint q + n) 0 queue.

Record db_queue_ok (config : DbClientConfig) (c : DbClient) : Prop := {
  qo_bytes : db_queued_bytes c = footprints (db_queue c);
  qo_footprints : Forall (fun q => 0 <= dq_footprint q) (db_queue c);
  qo_length : zlen (db_queue c) <= dc_max_queued_operations config;
  qo_limit : footprints (db_queue c) <= dc_max_queued_bytes config
}.

Lemma reported_app events more : reported_keys (events ++ more) = reported_keys events ++ reported_keys more.
Proof. unfold reported_keys, completions. by rewrite omap_app, fmap_app. Qed.

Lemma poison_keys now s kind : let '(events, s') := poisonSlot now s kind in reported_keys events ++ slot_key s' = slot_key s.
Proof. unfold poisonSlot, slot_key. cbn. destruct (ds_in_flight s) as [v|]; [|done]. cbn. by destruct (is_save_request (dif_request v) && dif_commit_dispatched v). Qed.

Lemma advance_keys s v : let '(events, s') := advanceStage (set_ds_in_flight (Some v) s) v in reported_keys events ++ slot_key s' = [dif_key v].
Proof. unfold advanceStage. destruct (dif_stage v); try done. by destruct (negb _). Qed.

Section step_keys.
Context {E : Type} `{Driver : !DbDriver E} (config : DbClientConfig) (now : time_point).

Lemma query_keys s v (e : E) : let '(_, _, _, events, s', _) := step_querying now s v e in reported_keys events ++ slot_key s' = [dif_key v].
Proof.
  unfold step_querying. set (v1 := if bool_decide _ then _ else v). assert (Hk : dif_key v1 = dif_key v) by (unfold v1; by destruct (bool_decide _)).
  rewrite <-Hk. clearbody v1. clear Hk. destruct (dd_query (currentSql v1) e) as [[| |fields use] e1]; [done| |].
  - destruct (isSaveStage _).
    + unfold onSaveStatementFailed. destruct (dif_commit_dispatched v1); [done|]. by destruct (bool_decide (dif_stage v1 = SaveRollback)).
    + pose proof (poison_keys now (set_ds_in_flight (Some v1) s) DbQueryFailed) as Hp. unfold failOperation. destruct (poisonSlot _ _ _). exact Hp.
  - destruct (fields =? 0).
    + pose proof (advance_keys s v1) as Ha. destruct (advanceStage _ v1). exact Ha.
    + destruct (negb use); [|done]. pose proof (poison_keys now (set_ds_in_flight (Some v1) s) DbQueryFailed) as Hp. unfold failOperation. destruct (poisonSlot _ _ _). exact Hp.
Qed.

Lemma fail_keys rows bytes s kind (e : E) : let '(_, _, _, events, s', _) := fail_step now rows bytes s kind e in reported_keys events ++ slot_key s' = slot_key s.
Proof. unfold fail_step, failOperation. pose proof (poison_keys now s kind) as Hp. by destruct (poisonSlot _ _ _). Qed.

Lemma fetch_keys s v columns (e : E) :
  ds_in_flight s = Some v → let '(_, _, _, events, s', _) := step_fetching config now s v columns e in reported_keys events ++ slot_key s' = slot_key s.
Proof.
  intros Hs. unfold step_fetching. destruct (dd_fetch e) as [[| |row lengths] e1]; [done|apply fail_keys|]. destruct row as [row|]; [|done]. cbn zeta.
  assert (Hk : ∀ v', dif_key v' = dif_key v → slot_key (set_ds_in_flight (Some v') s) = slot_key s) by (intros v' E1; unfold slot_key; cbn; by rewrite Hs, E1).
  destruct (_ || _); [|destruct (_ <? _); [|destruct (consumeRow _ _ _ _)]].
  1-2,4: match goal with |- context [fail_step now ?a ?b (set_ds_in_flight (Some ?v') ?s0) ?d ?e0] => pose proof (fail_keys a b (set_ds_in_flight (Some v') s0) d e0) as Hf end.
  1-3: destruct (fail_step _ _ _ _ _ _) as [[[[[? ?] ?] ?] ?] ?]; rewrite Hf; by apply Hk.
  unfold reported_keys, slot_key. cbn. by rewrite Hs.
Qed.

Lemma free_keys s v (e : E) :
  ds_in_flight s = Some v → let '(_, _, _, events, s', _) := step_freeing now s v e in reported_keys events ++ slot_key s' = slot_key s.
Proof.
  intros Hs. unfold step_freeing. destruct (dd_free e) as [[] e1]; [done| |].
  - pose proof (fail_keys 0 0 (set_ds_result None s) DbQueryFailed e1) as Hf. destruct (fail_step _ _ _ _ _ _) as [[[[[? ?] ?] ?] ?] ?]. exact Hf.
  - pose proof (advance_keys (set_ds_result None s) v) as Ha.
    assert (Es : set_ds_in_flight (Some v) (set_ds_result None s) = set_ds_result None s) by (unfold set_ds_in_flight, set_ds_result; cbn; by rewrite Hs). rewrite Es in Ha.
    destruct (advanceStage _ v). unfold slot_key at 2. by rewrite Hs.
Qed.

(** A step keeps its operation, or reports it. *)
Lemma step_keys s (e : E) : let '(_, _, _, events, s', _) := db_step config now s e in reported_keys events ++ slot_key s' = slot_key s.
Proof.
  unfold db_step. destruct (ds_state s) eqn:Est, (ds_in_flight s) as [v|] eqn:Ev; try done.
  1-2: unfold step_connecting; by destruct (dd_connect e) as [[] e1].
  - pose proof (query_keys s v e) as Hq. destruct (step_querying now s v e) as [[[[[? ?] ?] ?] ?] ?]. unfold slot_key at 2. by rewrite Ev.
  - destruct (ds_result s); [|done]. by apply fetch_keys.
  - by apply free_keys.
Qed.
End step_keys.

(** *** The queue *)

Lemma footprints_app a b : footprints (a ++ b) = footprints a + footprints b.
Proof. induction a as [|q a IH]; [done|]. change (footprints ((q :: a) ++ b)) with (dq_footprint q + footprints (a ++ b)). rewrite IH. cbn. fold (footprints a). lia. Qed.

Lemma footprints_pos queue : Forall (fun q => 0 <= dq_footprint q) queue → 0 <= footprints queue.
Proof. induction 1 as [|q queue Hq _ IH]; [done|]. cbn. fold (footprints queue). lia. Qed.

Lemma assign_keys s q : slot_free s = true → slot_key s = [] ∧ slot_key (db_assign s q).2 = [dq_key q] ∧ reported_keys (db_assign s q).1 = [].
Proof.
  unfold slot_free, slot_key. intros [_ Hn]%andb_prop. by destruct (ds_in_flight s).
Qed.

Lemma pump_keys slots queue bytes :
  bytes = footprints queue → Forall (fun q => 0 <= dq_footprint q) queue → footprints queue <= U64_MAX →
  let '(events, slots', queue', bytes') := pump slots queue bytes in
  reported_keys events = [] ∧ (dq_key <$> queue') ++ (slots' ≫= slot_key) ≡ₚ (dq_key <$> queue) ++ (slots ≫= slot_key) ∧
  bytes' = footprints queue' ∧ Forall (fun q => 0 <= dq_footprint q) queue' ∧ (length queue' <= length queue)%nat ∧ footprints queue' <= footprints queue.
Proof.
  revert queue bytes. induction slots as [|s slots IH]; intros [|q queue] bytes Hb Hf Hm; cbn [pump]; try by split_and!.
  destruct (slot_free s) eqn:Ef.
  - apply Forall_cons in Hf as [Hq Hf]. pose proof (footprints_pos queue Hf) as Hp. cbn [footprints foldr] in Hb, Hm. fold (footprints queue) in Hb, Hm.
    destruct (assign_keys s q Ef) as (K1 & K2 & K3). destruct (db_assign s q) as [events s1]. cbn [fst snd] in *.
    specialize (IH queue (u64 (bytes - dq_footprint q)) ltac:(rewrite u64_small; lia) Hf ltac:(lia)).
    destruct (pump slots queue _) as [[[more slots1] queue1] bytes1]. destruct IH as (I1 & I2 & I3 & I4 & I5 & I6). rewrite reported_app, K3, I1.
    split_and!; try done; [|cbn; lia|cbn; fold (footprints queue); lia].
    change ((s1 :: slots1) ≫= slot_key) with (slot_key s1 ++ (slots1 ≫= slot_key)). change ((s :: slots) ≫= slot_key) with (slot_key s ++ (slots ≫= slot_key)).
    rewrite K1, K2. cbn [fmap list_fmap app]. rewrite <-I2. by rewrite Permutation_middle.
  - specialize (IH (q :: queue) bytes Hb Hf Hm). destruct (pump slots (q :: queue) bytes) as [[[more slots1] queue1] bytes1]. destruct IH as (I1 & I2 & I3 & I4 & I5 & I6).
    split_and!; try done. change ((?x :: ?l) ≫= slot_key) with (slot_key x ++ (l ≫= slot_key)).
    rewrite !(Permutation_app_comm (slot_key s)), !app_assoc. by rewrite I2.
Qed.

Lemma expire_queue_keys now queue bytes :
  bytes = footprints queue → Forall (fun q => 0 <= dq_footprint q) queue → footprints queue <= U64_MAX →
  ∀ extra, 0 <= extra → footprints queue + extra <= U64_MAX →
  let '(events, queue', bytes') := expire_queue now queue (bytes + extra) in
  reported_keys events ++ (dq_key <$> queue') ≡ₚ dq_key <$> queue ∧
  bytes' = footprints queue' + extra ∧ Forall (fun q => 0 <= dq_footprint q) queue' ∧ (length queue' <= length queue)%nat ∧ footprints queue' <= footprints queue.
Proof.
  intros -> Hf Hm. clear Hm. induction Hf as [|q queue Hq Hf IH]; intros extra He Hm; cbn [expire_queue]; [by split_and!|].
  pose proof (footprints_pos queue Hf) as Hp. change (footprints (q :: queue)) with (dq_footprint q + footprints queue) in *. destruct (now <? dq_deadline q).
  - specialize (IH (extra + dq_footprint q) ltac:(lia) ltac:(lia)).
    replace (dq_footprint q + footprints queue + extra) with (footprints queue + (extra + dq_footprint q)) by lia.
    destruct (expire_queue now queue _) as [[events queue'] bytes']. destruct IH as (I1 & I2 & I3 & I4 & I5).
    change (footprints (q :: queue')) with (dq_footprint q + footprints queue'). split_and!; [|lia|by constructor|cbn; lia|lia].
    change (dq_key <$> q :: ?l) with (dq_key q :: (dq_key <$> l)). rewrite <-Permutation_middle. by constructor.
  - specialize (IH extra He ltac:(lia)). replace (u64 (dq_footprint q + footprints queue + extra - dq_footprint q)) with (footprints queue + extra) by (rewrite u64_small; lia).
    destruct (expire_queue now queue _) as [[events queue'] bytes']. destruct IH as (I1 & I2 & I3 & I4 & I5). split_and!; [|done|done|cbn; lia|lia].
    rewrite reported_app. change (reported_keys [DbCounted QueuedTimeouts; DbCounted OperationsFailed; CompleteDb (dq_key q) (DbFailed DbTimedOut false)]) with [dq_key q].
    change (dq_key <$> q :: queue) with (dq_key q :: (dq_key <$> queue)). by constructor.
Qed.

Lemma expire_slots_keys now slots : let '(events, slots') := expire_slots now slots in reported_keys events ++ (slots' ≫= slot_key) ≡ₚ slots ≫= slot_key.
Proof.
  induction slots as [|s slots IH]; [apply Permutation_refl|]. cbn [expire_slots].
  assert (Hs : let '(events, s') := expire_slot now s in reported_keys events ++ slot_key s' = slot_key s).
  { unfold expire_slot. destruct (ds_in_flight s) as [v|] eqn:Ev; [|done]. destruct (now <? dif_deadline v); [done|].
    pose proof (poison_keys now s DbTimedOut) as Hp. destruct (poisonSlot now s DbTimedOut). exact Hp. }
  destruct (expire_slot now s) as [events s']. destruct (expire_slots now slots) as [more slots']. rewrite reported_app.
  change ((?x :: ?l) ≫= slot_key) with (slot_key x ++ (l ≫= slot_key)). rewrite <-IH, <-Hs, <-!app_assoc. f_equiv. rewrite !app_assoc. f_equiv. apply Permutation_app_comm.
Qed.

Lemma reopen_keys now g slots : ((reopen_slots now g slots).1 ≫= slot_key) = slots ≫= slot_key.
Proof.
  revert g. induction slots as [|s slots IH]; intros g; [done|]. cbn [reopen_slots]. destruct (_ && _).
  - specialize (IH (u64 (g + 1))). destruct (reopen_slots now _ slots) as [rest g']. cbn in *. by rewrite IH.
  - specialize (IH g). destruct (reopen_slots now g slots) as [rest g']. cbn in *. by rewrite IH.
Qed.

(** Another slot in one place. *)
Lemma replace_slot slots i s s' : slots !! i = Some s → (<[i := s']> slots ≫= slot_key) ++ slot_key s ≡ₚ (slots ≫= slot_key) ++ slot_key s'.
Proof.
  intros Hi. rewrite <-(take_drop_middle slots i s Hi) at 2. rewrite insert_take_drop by (by eapply lookup_lt_Some).
  rewrite !bind_app. change ((?x :: ?l) ≫= slot_key) with (slot_key x ++ (l ≫= slot_key)). rewrite <-!app_assoc. f_equiv.
  generalize (drop (S i) slots ≫= slot_key). intros l. rewrite (Permutation_app_comm (slot_key s') (l ++ _)), (Permutation_app_comm (slot_key s) (l ++ _)).
  rewrite <-!app_assoc. f_equiv. apply Permutation_app_comm.
Qed.

Lemma drained queue : Forall (fun q => 0 <= dq_footprint q) queue → footprints queue <= U64_MAX →
  foldl (fun bytes q => u64 (bytes - dq_footprint q)) (footprints queue) queue = 0.
Proof.
  induction 1 as [|q queue Hq Hf IH]; intros Hm; [done|]. pose proof (footprints_pos queue Hf).
  change (footprints (q :: queue)) with (dq_footprint q + footprints queue) in *. cbn [foldl]. rewrite u64_small by lia.
  replace (dq_footprint q + footprints queue - dq_footprint q) with (footprints queue) by lia. apply IH. lia.
Qed.

Lemma drained_keys queue :
  reported_keys (q ← queue; [DbCounted OperationsFailed; CompleteDb (dq_key q) (DbFailed DbOverloaded false)]) = dq_key <$> queue.
Proof. induction queue as [|q queue IH]; [done|]. cbn. f_equal. exact IH. Qed.

Section ledger.
Context {E : Type} `{Driver : !DbDriver E} (config : DbClientConfig).
Context (Hmax : dc_max_queued_bytes config <= U64_MAX).

Definition call_typed (call : DbCall) : Prop := match call with DbTryStart q => 0 <= dq_footprint q | _ => True end.

Lemma tryStart_keys q c :
  db_queue_ok config c → 0 <= dq_footprint q →
  let '(submit, events, c1) := db_tryStart config q c in
  db_queue_ok config c1 ∧ (match submit with SubmitPending => [dq_key q] | _ => [] end) ++ held_keys c ≡ₚ reported_keys events ++ held_keys c1.
Proof using Hmax.
  intros [Q1 Q2 Q3 Q4] Hq. unfold db_tryStart. destruct (db_shutting_down c); [done|]. destruct (bad_skills _); [done|].
  destruct (list_find _ _) as [[i s]|] eqn:Ef.
  - apply list_find_Some in Ef as (Hi & Hfree & _). destruct (assign_keys s q Hfree) as (K1 & K2 & K3). destruct (db_assign s q) as [events s1]. cbn [fst snd] in *.
    split; [done|]. rewrite K3. unfold held_keys. cbn. pose proof (replace_slot _ _ _ s1 Hi) as Hr. rewrite K1, K2, app_nil_r in Hr. rewrite Hr.
    by rewrite app_assoc, (Permutation_app_comm _ [dq_key q]).
  - destruct (_ || _ || _) eqn:Er; [done|]. apply orb_false_elim in Er as [[E1 E2]%orb_false_elim E3]. apply Z.leb_gt in E1. apply Z.ltb_ge in E2, E3.
    pose proof (footprints_pos _ Q2). split.
    + constructor; cbn; rewrite ?footprints_app; cbn [footprints foldr]; [rewrite u64_small; lia|apply Forall_app; by split; [|constructor]| |lia].
      unfold zlen in *. rewrite length_app. cbn. lia.
    + unfold held_keys. cbn [db_queue db_slots set_db_queue]. rewrite fmap_app, <-app_assoc.
      exact (Permutation_middle (dq_key <$> db_queue c) (db_slots c ≫= slot_key) (dq_key q)).
Qed.

Lemma pumped_keys c : db_queue_ok config c → let '(events, c1) := pumpQueue c in db_queue_ok config c1 ∧ held_keys c ≡ₚ reported_keys events ++ held_keys c1.
Proof using Hmax.
  intros [Q1 Q2 Q3 Q4]. unfold pumpQueue. pose proof (pump_keys (db_slots c) (db_queue c) (db_queued_bytes c) Q1 Q2 ltac:(lia)) as Hp.
  destruct (pump _ _ _) as [[[events slots] queue] bytes]. destruct Hp as (P1 & P2 & P3 & P4 & P5 & P6). rewrite P1. split; [|by unfold held_keys; cbn].
  constructor; cbn [db_queue db_queued_bytes set_db_queue set_db_slots]; try done; [unfold zlen in *; lia|lia].
Qed.

Lemma call_keys call c (e : E) :
  db_queue_ok config c → call_typed call →
  let '(accepted, events, c1, _) := db_call config call c e in db_queue_ok config c1 ∧ accepted ++ held_keys c ≡ₚ reported_keys events ++ held_keys c1.
Proof using Hmax.
  intros Hq Ht. pose proof Hq as [Q1 Q2 Q3 Q4]. pose proof (footprints_pos _ Q2) as Hpos. destruct call as [q|index generation|index now|now|now|]; cbn [db_call].
  - pose proof (tryStart_keys q c Hq Ht) as H. by destruct (db_tryStart config q c) as [[submit events] c1].
  - unfold db_onPollEvent. destruct (db_slots c !! index) as [s|] eqn:Ei; [|done]. destruct (_ || _); [done|]. split; [done|]. unfold held_keys. cbn.
    pose proof (replace_slot _ _ _ (set_ds_runnable true s) Ei) as Hr. change (slot_key (set_ds_runnable true s)) with (slot_key s) in Hr.
    apply Permutation_app_inv_r in Hr. by rewrite Hr.
  - unfold db_advance. destruct (db_slots c !! index) as [s|] eqn:Ei; [|done]. destruct (ds_runnable s); [|done].
    pose proof (step_keys config now s e) as Hs. destruct (db_step config now s e) as [[[[[x y] z] events] s1] e1].
    pose proof (pumped_keys (set_db_slots (<[index:=s1]> (db_slots c)) c) ltac:(by constructor)) as Hp. destruct (pumpQueue _) as [more c1]. destruct Hp as [P1 P2]. split; [done|].
    rewrite reported_app, <-app_assoc, <-P2. unfold held_keys. cbn. pose proof (replace_slot _ _ _ s1 Ei) as Hr. rewrite <-Hs in Hr.
    rewrite app_assoc in Hr. apply Permutation_app_inv_r in Hr. rewrite <-Hr. rewrite (Permutation_app_comm (reported_keys events)), <-!app_assoc. done.
  - unfold expireDeadlines. pose proof (expire_queue_keys now (db_queue c) (db_queued_bytes c) Q1 Q2 ltac:(lia) 0 ltac:(lia) ltac:(lia)) as He.
    rewrite Z.add_0_r in He. destruct (expire_queue now _ _) as [[events queue] bytes]. destruct He as (H1 & H2 & H3 & H4 & H5).
    pose proof (expire_slots_keys now (db_slots c)) as Hs. destruct (expire_slots now _) as [more slots]. split.
    + constructor; cbn [db_queue db_queued_bytes set_db_queue set_db_slots]; try done; [lia|unfold zlen in *; lia|lia].
    + unfold held_keys. cbn. rewrite reported_app, <-H1, <-Hs, <-!app_assoc. f_equiv. rewrite !app_assoc. f_equiv. apply Permutation_app_comm.
  - unfold maintainConnections. destruct (db_shutting_down c); [done|]. pose proof (reopen_keys now (db_next_generation c) (db_slots c)) as Hr.
    destruct (reopen_slots _ _ _) as [slots g]. split; [done|]. unfold held_keys. cbn in *. by rewrite Hr.
  - split.
    + pose proof (Forall_nil_2 (fun q : DbQueued => 0 <= dq_footprint q)). constructor; cbn [db_beginShutdown snd db_queued_bytes db_queue footprints foldr]; [|done|unfold zlen in *; cbn; lia|lia].
      rewrite Q1. apply drained; [done|lia].
    + unfold held_keys. cbn [db_beginShutdown db_queue db_slots fmap list_fmap app]. f_equiv. by rewrite drained_keys.
Qed.

(** Every operation the client has accepted waits in the queue, is with one
    connection, or was reported, and was reported once; the queue's books are
    right and within their limits.  This holds after any calls, and whatever the
    driver answers. *)
Theorem operations_complete_once calls c (e : E) :
  db_queue_ok config c → Forall call_typed calls →
  let '(accepted, events, c', _) := db_run config calls c e in db_queue_ok config c' ∧ accepted ++ held_keys c ≡ₚ reported_keys events ++ held_keys c'.
Proof using Hmax.
  revert c e. induction calls as [|call calls IH]; intros c e Hq Ht; cbn [db_run]; [done|]. apply Forall_cons in Ht as [Ht1 Ht].
  pose proof (call_keys call c e Hq Ht1) as Hc. destruct (db_call config call c e) as [[[accepted events] c1] e1]. destruct Hc as [Hq1 Hp].
  specialize (IH c1 e1 Hq1 Ht). destruct (db_run config calls c1 e1) as [[[accepted' events'] c2] e2]. destruct IH as [Hq2 Hp2]. split; [done|].
  rewrite reported_app, <-!app_assoc, <-Hp2. rewrite (Permutation_app_swap_app accepted), (Permutation_app_swap_app (reported_keys events)). by rewrite Hp.
Qed.
End ledger.

(** ** Saves *)

(** The transaction of a save. *)
Definition save_statements (r : SavePlayerRequest) : list db_text :=
  ["SET TRANSACTION ISOLATION LEVEL READ COMMITTED"; "START TRANSACTION"; playerUpsert r; playerSkillDelete (save_player_id r);
   playerSkillInsert r; "COMMIT"].

(** What each outcome says of the statements. *)
Definition honest (r : SavePlayerRequest) (outcome : SaveOutcome) (events : list DbEvent) : Prop :=
  match outcome with
  | Committed => acknowledged events = save_statements r
  | FailedBeforeCommit => "COMMIT" ∉ asked events
  | CommitOutcomeUnknown => "COMMIT" ∈ asked events ∧ "COMMIT" ∉ acknowledged events
  end.

Definition save_stages : list DbStage := [SaveIsolation; SaveBegin; SaveUpsert; SaveDeleteSkills; SaveInsertSkills; SaveCommit].

(** No statement of the transaction but the last is COMMIT. *)
Lemma not_commit c (rest : db_text) : c ≠ "C"%char → String c rest ≠ "COMMIT".
Proof. by intros Hc [= ->]. Qed.

Lemma commit_last r k : (k < 5)%nat → ∃ sql, save_statements r !! k = Some sql ∧ sql ≠ "COMMIT".
Proof.
  intros Hk. unfold save_statements, playerUpsert, playerSkillDelete, playerSkillInsert.
  destruct k as [|[|[|[|[|]]]]]; [..|lia]; cbn; eexists; (split; [done|]); by apply not_commit.
Qed.

Lemma no_commit_yet r k : (k <= 5)%nat → "COMMIT" ∉ take k (save_statements r).
Proof.
  intros Hk Hin. apply list_elem_of_lookup in Hin as [j Hj]. apply lookup_take_Some in Hj as [Hj Hlt].
  destruct (commit_last r j) as (sql & E & Hn); [lia|]. congruence.
Qed.

(** A statement that selects nothing has no result set: [mysql_field_count] is 0. *)
Definition no_result_set {E} `{Driver : !DbDriver E} (r : SavePlayerRequest) : Prop :=
  ∀ sql (e : E) fields use e', sql ∈ "ROLLBACK" :: save_statements r → dd_query sql e = (QueryDone fields use, e') → fields = 0.

Section saves.
Context {E : Type} `{Driver : !DbDriver E} (config : DbClientConfig) (r : SavePlayerRequest) (key : AwaitKey).

Context (Hquiet : no_result_set r).

(** A save on its way: it has got through [k] statements, or rolls back. *)
Definition save_progress (v : DbInFlight) (events : list DbEvent) : Prop :=
  (∃ k, save_stages !! k = Some (dif_stage v) ∧ acknowledged events = take k (save_statements r) ∧
     (if dif_commit_dispatched v then k = 5%nat ∧ "COMMIT" ∈ asked events else "COMMIT" ∉ asked events)) ∨
  (dif_stage v = SaveRollback ∧ dif_commit_dispatched v = false ∧ "COMMIT" ∉ asked events).

Definition save_inv (events : list DbEvent) (s : DbSlot) : Prop :=
  match ds_in_flight s with
  | Some v => completions events = [] ∧ dif_key v = key ∧ dif_request v = SaveRequest r ∧ ds_state s = DbQuerying ∧ ds_handle s = true ∧
              save_progress v events
  | None => ds_state s ∈ [DbIdle; DbClosed] ∧ ∃ o, completions events = [(key, SaveResult o)] ∧ honest r o events
  end.

Lemma logs_app events more :
  completions (events ++ more) = completions events ++ completions more ∧ acknowledged (events ++ more) = acknowledged events ++ acknowledged more ∧
  asked (events ++ more) = asked events ++ asked more.
Proof. unfold completions, acknowledged, asked. by rewrite !omap_app. Qed.

(** The connection is dropped: what is reported is what is known. *)
Lemma dropped_honest v events more o s :
  completions events = [] → dif_key v = key → save_progress v events → ds_in_flight s = None → ds_state s = DbClosed →
  completions more = [(key, SaveResult o)] → acknowledged more = [] → asked more = [] →
  o = (if dif_commit_dispatched v then CommitOutcomeUnknown else FailedBeforeCommit) → save_inv (events ++ more) s.
Proof.
  intros Hc Hk Hp Hs Hst M1 M2 M3 ->. destruct (logs_app events more) as (L1 & L2 & L3). unfold save_inv. rewrite Hs, Hst. split; [by right; left|].
  eexists. rewrite L1, Hc, M1. split; [done|]. unfold honest. rewrite L2, L3, M2, M3, !app_nil_r. destruct Hp as [(k & Hk1 & Ha & Hd)|(_ & -> & Hn)]; [|done].
  destruct (dif_commit_dispatched v); [|done]. destruct Hd as [-> Hd]. split; [done|]. rewrite Ha. by apply no_commit_yet.
Qed.

(** The statement of a stage, and the stage after it. *)
Lemma stage_sql v k :
  dif_request v = SaveRequest r → save_stages !! k = Some (dif_stage v) →
  save_statements r !! k = Some (currentSql v) ∧ isSaveStage (dif_stage v) = true ∧ (dif_stage v = SaveCommit ↔ k = 5%nat) ∧ (k <= 5)%nat.
Proof.
  intros Hr Hk. unfold currentSql. rewrite Hr. do 6 (destruct k as [|k]; [injection Hk as <-; split_and!; try done; lia|]). done.
Qed.

(** A statement is handed to the driver. *)
Lemma ask_progress v events k :
  dif_request v = SaveRequest r → save_stages !! k = Some (dif_stage v) → acknowledged events = take k (save_statements r) →
  (if dif_commit_dispatched v then k = 5%nat ∧ "COMMIT" ∈ asked events else "COMMIT" ∉ asked events) →
  let v1 := if bool_decide (dif_stage v = SaveCommit) then set_dif_commit v else v in
  if dif_commit_dispatched v1 then k = 5%nat ∧ "COMMIT" ∈ asked events ++ [currentSql v1] else "COMMIT" ∉ asked events ++ [currentSql v1].
Proof.
  intros Hr Hk Ha Hd v1. destruct (stage_sql v k Hr Hk) as (Hsql & _ & Hc & Hle). unfold v1.
  destruct (bool_decide_reflect (dif_stage v = SaveCommit)) as [Es|Es]; cbn [set_dif_commit dif_commit_dispatched].
  - split; [by apply Hc|]. apply elem_of_app. right. unfold currentSql. cbn. rewrite Hr, Es. by left.
  - destruct (dif_commit_dispatched v); [destruct Hd as [-> _]; tauto|]. rewrite elem_of_app, list_elem_of_singleton.
    destruct (commit_last r k) as (sql & Hs & Hn); [destruct (decide (k = 5%nat)); [tauto|lia]|]. intros [|E2]; [done|]. congruence.
Qed.

(** A statement is acknowledged. *)
Lemma done_saves v s events :
  completions events = [] → dif_key v = key → dif_request v = SaveRequest r → ds_handle s = true → save_progress v events →
  let '(more, s') := advanceStage (set_ds_in_flight (Some v) s) v in save_inv (events ++ Acknowledged (currentSql v) :: more) s'.
Proof.
  intros Hc Hk Hr Hh Hp. destruct (logs_app events [Acknowledged (currentSql v)]) as (L1 & L2 & L3). rewrite Hc in L1. cbn in L1, L2, L3. rewrite app_nil_r in L3.
  destruct Hp as [(k & Hst & Ha & Hd)|(Hst & Hf & Hn)].
  - destruct (stage_sql v k Hr Hst) as (Hsql & _ & _ & Hle). assert (Hack : acknowledged (events ++ [Acknowledged (currentSql v)]) = take (S k) (save_statements r)).
    { rewrite L2, Ha. by rewrite (take_S_r _ _ _ Hsql). }
    destruct (decide (k = 5%nat)) as [->|Hk5].
    + injection Hst as Hst. unfold advanceStage. rewrite <-Hst. cbn. rewrite (cons_middle (Acknowledged _)), app_assoc. unfold save_inv. cbn. rewrite Hk. split; [by left|].
      destruct (logs_app (events ++ [Acknowledged (currentSql v)]) [DbCounted CommitsAcknowledged; DbCounted OperationsCompleted; CompleteDb key (SaveResult Committed)])
        as (M1 & M2 & M3). exists Committed. rewrite M1, L1. split; [done|]. unfold honest. rewrite M2, Hack. by rewrite app_nil_r.
    + assert (Hnext : advanceStage (set_ds_in_flight (Some v) s) v
        = ([], beginStageQuery (set_ds_in_flight (Some (set_dif_stage (default SaveRollback (save_stages !! S k)) v)) s)) ∧ is_Some (save_stages !! S k)).
      { unfold advanceStage. do 5 (destruct k as [|k]; [injection Hst as Hst; rewrite <-Hst; by split|]). lia. }
      destruct Hnext as [-> [stage Hs]]. rewrite Hs. unfold save_inv. cbn. rewrite L1. split_and!; try done. left. exists (S k). cbn. split_and!; [done|done|].
      rewrite L3. destruct (dif_commit_dispatched v); [lia|done].
  - unfold advanceStage. rewrite Hst. cbn. rewrite (cons_middle (Acknowledged _)), app_assoc. unfold save_inv. cbn. rewrite Hk. split; [by left|].
    destruct (logs_app (events ++ [Acknowledged (currentSql v)]) [DbCounted Rollbacks; DbCounted OperationsCompleted; CompleteDb key (SaveResult FailedBeforeCommit)])
      as (M1 & M2 & M3). exists FailedBeforeCommit. rewrite M1, L1. split; [done|]. unfold honest. by rewrite M3, L3, app_nil_r.
Qed.

Lemma query_saves now v s e :
  let '(_, _, _, more, s', _) := step_querying now s v e in
  ∀ events, completions events = [] → dif_key v = key → dif_request v = SaveRequest r → ds_handle s = true → ds_state s = DbQuerying → save_progress v events →
  save_inv (events ++ more) s'.
Proof using Hquiet.
  unfold step_querying. set (v1 := if bool_decide _ then _ else v). destruct (dd_query (currentSql v1) e) as [status e1] eqn:Eq.
  assert (Hv : dif_key v1 = dif_key v ∧ dif_request v1 = dif_request v ∧ dif_stage v1 = dif_stage v) by (unfold v1; by destruct (bool_decide _)).
  destruct Hv as (V1 & V2 & V3).
  (* what is known once the statement is handed over *)
  assert (Hask : ∀ events, dif_request v = SaveRequest r → save_progress v events →
    save_progress v1 (events ++ [Asked (currentSql v1)]) ∧ isSaveStage (dif_stage v1) = true ∧ currentSql v1 ∈ "ROLLBACK" :: save_statements r).
  { intros events Hr Hp. destruct (logs_app events [Asked (currentSql v1)]) as (L1 & L2 & L3). unfold save_progress.
    rewrite L2, L3, V3. cbn. rewrite app_nil_r. destruct Hp as [(k & Hk & Ha & Hd)|(Hs & Hf & Hn)].
    - pose proof (ask_progress v events k Hr Hk Ha Hd) as Hd1. fold v1 in Hd1. rewrite <-V3 in Hk. destruct (stage_sql v1 k ltac:(congruence) Hk) as (Hsql & Hst & _).
      rewrite V3 in Hk, Hst. split_and!; [left; by exists k|done|]. right. by apply (list_elem_of_lookup_2 _ k).
    - assert (E1 : v1 = v) by (unfold v1; by rewrite bool_decide_eq_false_2 by congruence). rewrite E1, Hs. unfold currentSql. rewrite Hr, Hs.
      split_and!; [right|done|by left]. split_and!; [done|done|]. rewrite elem_of_app, list_elem_of_singleton. by intros [|]. }
  destruct status as [| |fields use].
  - intros events Hc Hk Hr Hh Hst Hp. destruct (Hask events Hr Hp) as (Hp1 & _). destruct (logs_app events [Asked (currentSql v1)]) as (L1 & _).
    unfold save_inv. cbn. rewrite L1, Hc. split_and!; try done; congruence.
  - destruct (if isSaveStage _ then _ else _) as [more s2] eqn:Ef. intros events Hc Hk Hr Hh Hst Hp. destruct (Hask events Hr Hp) as (Hp1 & Hss & _).
    rewrite Hss in Ef. unfold onSaveStatementFailed in Ef. rewrite (cons_middle (Asked _)), app_assoc.
    destruct (logs_app events [Asked (currentSql v1)]) as (L1 & L2 & L3). rewrite Hc in L1.
    destruct (dif_commit_dispatched v1) eqn:Ed.
    + injection Ef as <- <-. apply (dropped_honest v1 _ _ CommitOutcomeUnknown); try done; [congruence|cbn; by rewrite V1, Hk|by rewrite Ed].
    + destruct (bool_decide_reflect (dif_stage v1 = SaveRollback)) as [Er|Er].
      * injection Ef as <- <-. apply (dropped_honest v1 _ _ FailedBeforeCommit); try done; [congruence|cbn; by rewrite V1, Hk|by rewrite Ed].
      * injection Ef as <- <-. rewrite app_nil_r. unfold save_inv. cbn. rewrite L1. split_and!; try done; [congruence|congruence|]. right.
        split_and!; [done|done|]. destruct Hp1 as [(k & _ & _ & Hd)|(_ & _ & Hn)]; [by rewrite Ed in Hd|done].
  - destruct (Z.eqb_spec fields 0) as [->|Hf].
    2: { destruct (negb use); [destruct (failOperation _ _ _)|]; intros events Hc Hk Hr Hh Hst Hp; destruct (Hask events Hr Hp) as (_ & _ & Hin);
         destruct Hf; by eapply Hquiet. }
    destruct (advanceStage (set_ds_in_flight (Some v1) s) v1) as [more s2] eqn:Ea. intros events Hc Hk Hr Hh Hst Hp.
    destruct (Hask events Hr Hp) as (Hp1 & _ & _). rewrite (cons_middle (Asked _)), app_assoc. pose proof (done_saves v1 s (events ++ [Asked (currentSql v1)])) as Hd. rewrite Ea in Hd.
    apply Hd; try done; try congruence. by rewrite (proj1 (logs_app _ _)), Hc.
Qed.

Lemma save_inv_call call s e events : save_inv events s → save_inv (events ++ (slot_call config call (s, e)).1) (slot_call config call (s, e)).2.1.
Proof using Hquiet.
  intros H. unfold save_inv in H. destruct (ds_in_flight s) as [v|] eqn:Ev.
  - destruct H as (Hc & Hk & Hr & Hst & Hh & Hp). destruct call as [now| |now]; cbn [slot_call].
    + destruct (ds_runnable s); [|cbn; rewrite app_nil_r; unfold save_inv; by rewrite Ev]. unfold db_step. rewrite Hst, Ev.
      pose proof (query_saves now v s e) as Hq. destruct (step_querying now s v e) as [[[[[x1 x2] x3] more] s'] e']. by apply Hq.
    + cbn. rewrite app_nil_r, Hh. unfold save_inv. cbn. rewrite Ev. by split_and!.
    + unfold expire_slot. rewrite Ev. destruct (now <? dif_deadline v); [cbn; rewrite app_nil_r; unfold save_inv; by rewrite Ev|].
      unfold poisonSlot, failureResultFor. rewrite Ev, Hr. cbn [is_save_request negb andb fst snd].
      apply (dropped_honest v _ _ (if dif_commit_dispatched v then CommitOutcomeUnknown else FailedBeforeCommit)); try done; rewrite Hk; by destruct (dif_commit_dispatched v).
  - assert (Hkeep : ∀ s', ds_in_flight s' = None → ds_state s' = ds_state s → save_inv (events ++ []) s').
    { intros s' E1 E2. rewrite app_nil_r. unfold save_inv. by rewrite E1, E2. }
    destruct call as [now| |now]; cbn [slot_call].
    + destruct (ds_runnable s); [|by apply Hkeep]. unfold db_step. rewrite Ev. destruct H as [Hs _]. apply elem_of_cons in Hs as [Hs|Hs].
      * rewrite Hs. by apply Hkeep.
      * apply list_elem_of_singleton in Hs. rewrite Hs. by apply Hkeep.
    + apply Hkeep; by destruct (ds_handle s).
    + unfold expire_slot. rewrite Ev. by apply Hkeep.
Qed.

Lemma save_inv_calls calls s e events : save_inv events s → save_inv (events ++ (slot_calls config calls (s, e)).1) (slot_calls config calls (s, e)).2.1.
Proof using Hquiet.
  revert s e events. induction calls as [|call calls IH]; intros s e events H; cbn [slot_calls]; [by rewrite app_nil_r|].
  pose proof (save_inv_call call s e events H) as H1. destruct (slot_call config call (s, e)) as [more [s1 e1]]. specialize (IH s1 e1 _ H1).
  destruct (slot_calls config calls (s1, e1)) as [rest st]. cbn in *. by rewrite app_assoc.
Qed.

(** A save reports one outcome, if any, and the truth: it is committed only if the
    server has acknowledged the whole transaction, statement by statement; it has
    failed before the commit only if COMMIT was never handed to the driver; and if
    that is not known, COMMIT was, and was not acknowledged.  This holds whatever
    the driver answers, whenever, and whenever the deadline strikes. *)
Theorem save_outcomes_honest q s e calls :
  ds_handle s = true → dq_key q = key → dq_request q = SaveRequest r →
  let events := (slot_calls config calls ((db_assign s q).2, e)).1 in
  completions events = [] ∨ ∃ o, completions events = [(key, SaveResult o)] ∧ honest r o events.
Proof using Hquiet.
  intros Hh Hk Hr events. assert (H0 : save_inv [] (db_assign s q).2).
  { unfold save_inv. cbn. rewrite Hr. split_and!; try done. left. exists 0%nat. cbn. rewrite Hr. split_and!; try done. apply not_elem_of_nil. }
  pose proof (save_inv_calls calls _ e [] H0) as H. cbn [app] in H. fold events in H. unfold save_inv in H. destruct (ds_in_flight _); [left; tauto|right; tauto].
Qed.
End saves.

(** ** Numbers there and back *)

Lemma digit_round d : 0 <= d < 10 → digit_of (digit_char d) = Some d.
Proof.
  intros Hd. assert (d ∈ [0; 1; 2; 3; 4; 5; 6; 7; 8; 9]) as Hin by (rewrite !elem_of_cons; lia).
  rewrite !elem_of_cons in Hin. repeat (destruct Hin as [->|Hin]; [done|]). by apply elem_of_nil in Hin.
Qed.

Lemma parse_decimal fuel z rest : (0 < fuel)%nat → 0 <= z < 10 ^ Z.of_nat fuel → parse_digits (decimal fuel z rest) 0 = parse_digits rest z.
Proof.
  revert z rest. induction fuel as [|fuel IH]; intros z rest Hf Hz; [lia|]. cbn [decimal].
  pose proof (Z.mod_pos_bound z 10 ltac:(lia)) as Hm. pose proof (Z.div_mod z 10 ltac:(lia)) as Hdm. destruct (Z.ltb_spec z 10) as [Hs|Hs].
  - cbn [parse_digits]. rewrite digit_round by done. cbn. rewrite Z.mod_small by lia. done.
  - assert (fuel ≠ 0)%nat by (intros ->; cbn in Hz; lia). rewrite Nat2Z.inj_succ, Z.pow_succ_r in Hz by lia.
    rewrite IH; [|lia|split; [apply Z.div_pos; lia|apply Z.div_lt_upper_bound; lia]]. cbn [parse_digits]. rewrite digit_round by done. cbn. f_equal. lia.
Qed.

Lemma decimal_nonempty fuel z rest : (0 < fuel)%nat → decimal fuel z rest ≠ EmptyString.
Proof.
  revert z rest. assert (Hn : ∀ fuel z c rest, decimal fuel z (String c rest) ≠ EmptyString).
  { induction fuel0 as [|f IH]; intros z c rest; cbn [decimal]; [done|]. destruct (z <? 10); [done|apply IH]. }
  destruct fuel as [|fuel]; intros z rest Hf; [lia|]. cbn [decimal]. destruct (z <? 10); [done|apply Hn].
Qed.

Lemma parse_decimal_number z : 0 <= z < 10 ^ 20 → parse_number (decimal 20 z EmptyString) = Some z.
Proof.
  intros Hz. pose proof (decimal_nonempty 20 z EmptyString ltac:(lia)) as Hn. pose proof (parse_decimal 20 z EmptyString ltac:(lia) Hz) as E.
  unfold parse_number. by destruct (decimal 20 z EmptyString).
Qed.

Lemma parse_unsigned z : in_u64 z → parseUnsigned (to_string z) = Some z.
Proof.
  intros Hz. unfold parseUnsigned, to_string. rewrite (proj2 (Z.ltb_ge _ _)), parse_decimal_number by lia. cbn. by rewrite (proj2 (Z.leb_le _ _)) by lia.
Qed.

Lemma parse_signed z : in_i32 z → parseSigned (to_string z) = Some z.
Proof.
  intros Hz. unfold to_string. destruct (Z.ltb_spec z 0).
  - cbn [parseSigned]. rewrite parse_decimal_number by lia. cbn. rewrite (proj2 (Z.leb_le _ _)) by lia. f_equal. lia.
  - pose proof (parse_decimal_number z ltac:(lia)) as E. unfold parseSigned. destruct (decimal 20 z EmptyString) as [|c rest]; [done|].
    assert (c ≠ "-"%char) by (intros ->; by cbn in E). rewrite E. cbn.
    destruct c as [[] [] [] [] [] [] [] []]; try done; by rewrite (proj2 (Z.leb_le _ _)) by lia.
Qed.

Lemma decimal_length fuel z rest : (String.length (decimal fuel z rest) <= fuel + String.length rest)%nat.
Proof.
  revert z rest. induction fuel as [|fuel IH]; intros z rest; cbn [decimal]; [lia|]. destruct (z <? 10); [cbn; lia|]. specialize (IH (z / 10) (String (digit_char (z mod 10)) rest)).
  cbn [String.length] in IH. lia.
Qed.

Lemma to_string_length z : (String.length (to_string z) <= 21)%nat.
Proof.
  unfold to_string. pose proof (decimal_length 20 (- z) EmptyString). pose proof (decimal_length 20 z EmptyString). cbn [String.length] in *.
  destruct (z <? 0); cbn [String.length]; lia.
Qed.

(** ** The server

    The SQL the client speaks, with the columns, the values and the player left
    open: what is relied on of a MySQL server is stated of these texts, and that
    the client's texts are among them, with the right columns, is proved. *)

Fixpoint join (separator : db_text) (words : list db_text) : db_text :=
  match words with
  | [] => EmptyString
  | [w] => w
  | w :: rest => w +:+ separator +:+ join separator rest
  end.

(** A number, or NULL. *)
Definition literal (o : option Z) : db_text := match o with Some z => to_string z | None => "NULL" end.

Definition insert_text (columns : list db_text) (values : list (option Z)) (updated : list db_text) : db_text :=
  "INSERT INTO snf_players (" +:+ join ", " columns +:+ ") VALUES (" +:+ join "," (literal <$> values) +:+ ") ON DUPLICATE KEY UPDATE " +:+
  join ", " ((fun c => c +:+ "=VALUES(" +:+ c +:+ ")") <$> updated).

Definition select_text (columns : list db_text) (player : Z) : db_text :=
  "SELECT " +:+ join ", " columns +:+ " FROM snf_players WHERE player_id=" +:+ to_string player +:+ " LIMIT 2".

Definition delete_text (player : Z) : db_text := "DELETE FROM snf_player_skills WHERE player_id=" +:+ to_string player.

Definition skills_text (player : Z) (skills : list Z) : db_text :=
  "INSERT INTO snf_player_skills (player_id, skill_id) VALUES " +:+
  join "," ((fun s => "(" +:+ to_string player +:+ "," +:+ to_string s +:+ ")") <$> skills).

Definition skill_select_text (player : Z) : db_text :=
  "SELECT skill_id FROM snf_player_skills WHERE player_id=" +:+ to_string player +:+ " ORDER BY skill_id LIMIT 64".

(** A transaction that replaces a player's row and its skills. *)
Definition transaction (columns : list db_text) (values : list (option Z)) (updated : list db_text) (player : Z) (skills : list Z) : list db_text :=
  ["SET TRANSACTION ISOLATION LEVEL READ COMMITTED"; "START TRANSACTION"; insert_text columns values updated; delete_text player;
   skills_text player skills; "COMMIT"].

(** The columns of [snf_players] and what they hold
    ([src/src/server/mysql_player_repository.cpp], lines 333 to 343). *)
Definition PLAYER_COLUMNS : list db_text :=
  ["player_id"; "handled_command_count"; "zone_id"; "position_x"; "position_y"; "currency_balance"; "purchased_item_count"; "street_experience";
   "equipped_skill_id"].

Definition column_holds (column : db_text) (value : option Z) : Prop :=
  match value with
  | None => column ∈ ["zone_id"; "position_x"; "position_y"]
  | Some z =>
      if bool_decide (column ∈ ["position_x"; "position_y"]) then in_i32 z
      else if bool_decide (column = "equipped_skill_id") then in_u32 z else in_u64 z
  end.

Fixpoint value_of (columns : list db_text) (values : list (option Z)) (column : db_text) : option Z :=
  match columns, values with
  | c :: columns, v :: values => if String.eqb c column then v else value_of columns values column
  | _, _ => None
  end.

Record transaction_ok (columns : list db_text) (values : list (option Z)) (player : Z) (skills : list Z) : Prop := {
  tx_columns : columns ≡ₚ PLAYER_COLUMNS;
  tx_values : Forall2 column_holds columns values;
  tx_player : value_of columns values "player_id" = Some player;
  tx_location : (value_of columns values "zone_id" = None ↔ value_of columns values "position_x" = None) ∧
                (value_of columns values "zone_id" = None ↔ value_of columns values "position_y" = None);
  tx_skills : NoDup skills ∧ Forall (fun s => in_u32 s) skills ∧ (0 < length skills <= 64)%nat
}.

(** How many columns the result of a statement has, 0 if it has none; and what a
    query returns after the statements the server has acknowledged. *)
Class SqlServer := {
  sv_fields : db_text → Z;
  sv_rows : list db_text → db_text → list (list (option db_text))
}.

(** What the client relies on: a statement that selects has as many columns as it
    names, any other none; and after a transaction like a save's, whatever was
    there before, the row of the player holds in each column the transaction
    updates the value it gave, as a decimal number or NULL, and the player's
    skills, in order, are those it inserted. *)
Class SqlLaws `{SqlServer} : Prop := {
  sql_select_fields columns player : columns ≠ [] → columns ⊆ PLAYER_COLUMNS → sv_fields (select_text columns player) = zlen columns;
  sql_skill_fields player : sv_fields (skill_select_text player) = 1;
  sql_player before columns values updated player skills selected :
    transaction_ok columns values player skills → updated ⊆ columns → selected ⊆ updated → selected ≠ [] →
    sv_rows (before ++ transaction columns values updated player skills) (select_text selected player)
    = [(fun c => to_string <$> value_of columns values c) <$> selected];
  sql_skills before columns values updated player skills :
    transaction_ok columns values player skills → updated ⊆ columns →
    sv_rows (before ++ transaction columns values updated player skills) (skill_select_text player)
    = (fun s => [Some (to_string s)]) <$> merge_sort (≤) skills
}.

(** *** The client's statements *)

Lemma append_assoc (a b c : db_text) : (a +:+ b) +:+ c = a +:+ b +:+ c.
Proof. induction a as [|x a IH]; [done|]. exact (f_equal (String x) IH). Qed.

Lemma append_empty (a : db_text) : a +:+ "" = a.
Proof. induction a as [|x a IH]; [done|]. exact (f_equal (String x) IH). Qed.

Lemma append_cons c (a b : db_text) : String c a +:+ b = String c (a +:+ b).
Proof. done. Qed.

Ltac flatten := repeat first [progress cbn [String.append] | rewrite append_assoc].

Definition save_values (r : SavePlayerRequest) : list (option Z) :=
  let here z := if save_has_location r then Some z else None in
  [Some (save_player_id r); Some (save_handled_command_count r); here (save_zone_id r); here (save_position_x r); here (save_position_y r);
   Some (save_currency_balance r); Some (save_purchased_item_count r); Some (save_street_experience r); Some (save_equipped_skill_id r)].

Lemma skill_pairs_form player first skills :
  skill_pairs player first skills = (if first then "" else match skills with [] => "" | _ => "," end) +:+
    join "," ((fun s => "(" +:+ to_string player +:+ "," +:+ to_string s +:+ ")") <$> skills).
Proof.
  revert first. induction skills as [|s skills IH]; intros first; [by destruct first|]. cbn [skill_pairs]. rewrite IH. cbn [fmap list_fmap join].
  destruct skills as [|s2 skills]; cbn [fmap list_fmap join String.append].
  - by destruct first; flatten.
  - by destruct first; flatten.
Qed.

Lemma save_statements_form r :
  save_statements r = transaction PLAYER_COLUMNS (save_values r) (tail PLAYER_COLUMNS) (save_player_id r) (save_owned_skill_ids r).
Proof.
  unfold save_statements, transaction. do 2 f_equal. f_equal; [|f_equal; f_equal].
  - unfold playerUpsert, insert_text, save_values, PLAYER_COLUMNS. cbn [tail fmap list_fmap join literal String.append].
    by destruct (save_has_location r); cbn [literal]; flatten.
  - unfold playerSkillInsert, skills_text. by rewrite skill_pairs_form.
Qed.

Lemma select_form player : playerSelect player = select_text (tail PLAYER_COLUMNS) player ∧ playerSkillSelect player = skill_select_text player.
Proof. done. Qed.

(** ** Loads *)

(** A connection to a server: the statements acknowledged, the rows still to
    fetch, and which of the next driver calls are not ready yet. *)
Record ServerConn := mkServerConn { sc_history : list db_text; sc_rows : list (list (option db_text)); sc_waits : list bool }.

Definition next_wait (e : ServerConn) : bool * ServerConn :=
  match sc_waits e with
  | [] => (false, e)
  | b :: rest => (b, mkServerConn (sc_history e) (sc_rows e) rest)
  end.

#[export] Instance server_driver `{SqlServer} : DbDriver ServerConn := {
  dd_connect e := let '(late, e) := next_wait e in (if late then DbNotReady else DbComplete, e);
  dd_query sql e :=
    let '(late, e) := next_wait e in
    if late then (QueryNotReady, e)
    else if sv_fields sql =? 0 then (QueryDone 0 false, mkServerConn (sc_history e ++ [sql]) (sc_rows e) (sc_waits e))
    else (QueryDone (sv_fields sql) true, mkServerConn (sc_history e) (sv_rows (sc_history e) sql) (sc_waits e));
  dd_fetch e :=
    let '(late, e) := next_wait e in
    if late then (FetchNotReady, e)
    else match sc_rows e with
         | [] => (Fetched None true, e)
         | row :: rest => (Fetched (Some row) true, mkServerConn (sc_history e) rest (sc_waits e))
         end;
  dd_free e := let '(late, e) := next_wait e in (if late then DbNotReady else DbComplete, e)
}.

(** The poller reports the connection ready, and the client lets it step. *)
Definition visits (now : time_point) (n : nat) : list SlotCall := concat (repeat [SlotReady; SlotStep now] n).

(** What a load finds of a save. *)
Definition loaded_of (r : SavePlayerRequest) : LoadPlayerResult :=
  let here z := if save_has_location r then z else 0 in
  mkLoadResult true
    (mkLoadedRow (save_player_id r) (save_handled_command_count r) (save_has_location r) (here (save_zone_id r)) (here (save_position_x r))
       (here (save_position_y r)) (save_currency_balance r) (save_purchased_item_count r) (save_street_experience r) (save_equipped_skill_id r))
    (merge_sort (≤) (save_owned_skill_ids r)).

(** The fields of a request hold what their C++ types can, and the skills are
    such as [tryStart] admits. *)
Record save_typed (r : SavePlayerRequest) : Prop := {
  sy_player : in_u64 (save_player_id r);
  sy_handled : in_u64 (save_handled_command_count r);
  sy_zone : in_u64 (save_zone_id r);
  sy_x : in_i32 (save_position_x r);
  sy_y : in_i32 (save_position_y r);
  sy_currency : in_u64 (save_currency_balance r);
  sy_items : in_u64 (save_purchased_item_count r);
  sy_experience : in_u64 (save_street_experience r);
  sy_equipped : in_u32 (save_equipped_skill_id r);
  sy_skills : NoDup (save_owned_skill_ids r) ∧ Forall (fun s => in_u32 s) (save_owned_skill_ids r) ∧ (0 < length (save_owned_skill_ids r) <= 64)%nat
}.

Lemma save_transaction_ok r : save_typed r → transaction_ok PLAYER_COLUMNS (save_values r) (save_player_id r) (save_owned_skill_ids r).
Proof.
  intros []. constructor; try done.
  - unfold PLAYER_COLUMNS, save_values. destruct (save_has_location r); repeat apply Forall2_cons_2; try apply Forall2_nil_2; cbn; try done; rewrite ?elem_of_cons; tauto.
  - unfold save_values. cbn. by destruct (save_has_location r).
Qed.

Section loads.
Context `{Server : SqlServer} `{Laws : !SqlLaws} (config : DbClientConfig) (now : time_point).
Context (Hrows : 64 <= dc_max_result_rows config) (Hbytes : 2048 <= dc_max_result_bytes config).

(** [st] comes to [st'] in some number of visits, with no completion. *)
Definition reaches (st st' : DbSlot * ServerConn) : Prop :=
  ∃ n events, slot_calls config (visits now n) st = (events, st') ∧ completions events = [].

Lemma slot_calls_app {E} `{!DbDriver E} calls more (st : DbSlot * E) :
  slot_calls config (calls ++ more) st =
    let '(events, st1) := slot_calls config calls st in let '(rest, st2) := slot_calls config more st1 in (events ++ rest, st2).
Proof.
  revert st. induction calls as [|call calls IH]; intros st; cbn [slot_calls app]; [by destruct (slot_calls config more st)|].
  destruct (slot_call config call st) as [events st1]. rewrite IH. destruct (slot_calls config calls st1) as [ev1 st2].
  destruct (slot_calls config more st2) as [ev2 st3]. by rewrite app_assoc.
Qed.

Lemma visits_app n m : visits now (n + m) = visits now n ++ visits now m.
Proof. unfold visits. by rewrite repeat_app, concat_app. Qed.

Lemma reaches_then st st' n events st2 :
  reaches st st' → slot_calls config (visits now n) st' = (events, st2) →
  ∃ m more, slot_calls config (visits now m) st = (more, st2) ∧ completions more = completions events.
Proof.
  intros (k & ev & E1 & C1) E2. exists (k + n)%nat, (ev ++ events). rewrite visits_app, slot_calls_app, E1, E2. split; [done|].
  destruct (logs_app ev events) as (-> & _). by rewrite C1.
Qed.

Lemma reaches_trans st st1 st2 : reaches st st1 → reaches st1 st2 → reaches st st2.
Proof.
  intros H1 (n & events & E2 & C2). destruct (reaches_then _ _ _ _ _ H1 E2) as (m & more & E3 & C3). exists m, more. by rewrite C3.
Qed.

Lemma reaches_refl st : reaches st st.
Proof. by exists 0%nat, []. Qed.

(** The slots of a load on its way. *)
Definition at_work (s : DbSlot) (res : option Z) (state : DbSlotState) (runnable : bool) (v : DbInFlight) : DbSlot :=
  mkDbSlot (ds_generation s) true res state runnable (ds_retry_at s) (Some v).

(** One visit. *)
Lemma visit s res state b v e :
  slot_calls config (visits now 1) (at_work s res state b v, e) =
    let '(_, _, _, events, s', e') := db_step config now (at_work s res state true v) e in (events ++ [], (s', e')).
Proof. cbn. destruct (db_step _ _ _ _) as [[[[[x y] z] ev] s'] e']. by rewrite app_nil_r. Qed.

Lemma visit_reaches s res state b v e x y z events s' e' :
  db_step config now (at_work s res state true v) e = (x, y, z, events, s', e') → completions events = [] → reaches (at_work s res state b v, e) (s', e').
Proof. intros E C. exists 1%nat, (events ++ []). rewrite visit, E, app_nil_r. done. Qed.

Lemma query_reaches s b v h rows w player :
  dif_request v = LoadPlayerRequest player → sv_fields (currentSql v) ≠ 0 → dif_stage v ≠ SaveCommit →
  ∃ w', reaches (at_work s None DbQuerying b v, mkServerConn h rows w)
                (at_work s (Some (sv_fields (currentSql v))) DbFetching true v, mkServerConn h (sv_rows h (currentSql v)) w').
Proof.
  intros Hr Hf Hst. revert b. induction w as [|[] w IH]; intros b.
  2: { destruct (IH false) as [w' Hw]. exists w'. eapply reaches_trans; [|exact Hw].
       eapply visit_reaches; [unfold db_step, at_work, step_querying; cbn; by rewrite bool_decide_eq_false_2 by done|done]. }
  all: eexists; eapply visit_reaches;
       [unfold db_step, at_work, step_querying; cbn; rewrite bool_decide_eq_false_2 by done; rewrite (proj2 (Z.eqb_neq _ _) Hf);
        cbn; by rewrite (proj2 (Z.eqb_neq _ _) Hf)|done].
Qed.

(** A row that fits is taken in. *)
Lemma fetch_reaches s columns b v h row rows w result :
  (stageRowLimit v <? u64 (dif_rows v + 1)) || (dc_max_result_rows config <? u64 (dif_rows v + 1)) = false →
  (dc_max_result_bytes config <? u64 (dif_bytes v + row_bytes true row)) = false →
  let v1 := set_dif_rows (u64 (dif_rows v + 1)) (u64 (dif_bytes v + row_bytes true row)) v in
  consumeRow v1 true row columns = Some result →
  ∃ w', reaches (at_work s (Some columns) DbFetching b v, mkServerConn h (row :: rows) w)
                (at_work s (Some columns) DbFetching true (set_dif_result result v1), mkServerConn h rows w').
Proof.
  intros H1 H2 v1 H3. revert b. induction w as [|[] w IH]; intros b.
  2: { destruct (IH false) as [w' Hw]. exists w'. eapply reaches_trans; [|exact Hw]. eapply visit_reaches; [by unfold db_step, at_work, step_fetching|done]. }
  all: eexists; eapply visit_reaches; [unfold db_step, at_work, step_fetching; cbn -[row_bytes consumeRow stageRowLimit];
         change (stageRowLimit (set_dif_rows _ _ v)) with (stageRowLimit v); rewrite H1; unfold v1 in H3; cbn -[row_bytes consumeRow]; rewrite H2;
         unfold set_dif_rows in *; cbn [dif_key dif_request dif_deadline dif_stage dif_result dif_rows dif_bytes dif_commit_dispatched] in *; rewrite H3; reflexivity|done].
Qed.

(** The last row was fetched: the result is freed, and the next stage begins. *)
Lemma end_reaches s columns b v h w :
  ∃ w', reaches (at_work s (Some columns) DbFetching b v, mkServerConn h [] w) (at_work s (Some columns) DbFreeingResult true v, mkServerConn h [] w').
Proof.
  revert b. induction w as [|[] w IH]; intros b.
  2: { destruct (IH false) as [w' Hw]. exists w'. eapply reaches_trans; [|exact Hw]. eapply visit_reaches; [by unfold db_step, at_work, step_fetching|done]. }
  all: eexists; eapply visit_reaches; [by unfold db_step, at_work, step_fetching|done].
Qed.

Lemma free_ends s columns b v h w :
  let next := advanceStage (at_work s None DbFreeingResult true v) v in
  ∃ n events w', slot_calls config (visits now n) (at_work s (Some columns) DbFreeingResult b v, mkServerConn h [] w)
                 = (events, (next.2, mkServerConn h [] w')) ∧ completions events = completions next.1.
Proof.
  intros next. revert b. induction w as [|[] w IH]; intros b.
  2: { destruct (IH false) as (n & events & w' & E1 & C1).
       destruct (reaches_then (at_work s (Some columns) DbFreeingResult b v, mkServerConn h [] (true :: w)) _ _ _ _
                   ltac:(eapply visit_reaches; [by unfold db_step, at_work, step_freeing|done]) E1) as (m & more & E2 & C2).
       exists m, more, w'. by rewrite C2. }
  all: exists 1%nat, (next.1 ++ []); eexists; rewrite visit; unfold db_step, at_work, step_freeing; cbn -[advanceStage];
       change (set_ds_result None _) with (at_work s None DbFreeingResult true v); fold next; destruct next as [ev s']; cbn; rewrite !app_nil_r; done.
Qed.

(** The player's skills, one row each. *)
Lemma skills_reach s b v h skills w found row acc :
  dif_stage v = PlayerSkills → dif_result v = mkLoadResult found row acc → Forall (fun s => in_u32 s) skills →
  0 <= dif_rows v → dif_rows v + zlen skills <= 64 → 0 <= dif_bytes v → dif_bytes v + 21 * zlen skills <= 2048 →
  ∃ w' b' v', reaches (at_work s (Some 1) DbFetching b v, mkServerConn h ((fun s => [Some (to_string s)]) <$> skills) w)
                   (at_work s (Some 1) DbFetching b' v', mkServerConn h [] w') ∧
    dif_key v' = dif_key v ∧ dif_stage v' = PlayerSkills ∧ dif_result v' = mkLoadResult found row (acc ++ skills).
Proof using Hrows Hbytes.
  revert b v w acc. induction skills as [|k skills IH]; intros b v w acc Hst Hres Hk H1 H2 H3 H4.
  { exists w, b, v. rewrite app_nil_r. split_and!; try done. apply reaches_refl. }
  apply Forall_cons in Hk as [Hk1 Hk]. unfold zlen in *. cbn [length] in H2, H4. pose proof (to_string_length k) as Hlen.
  assert (Hrb : row_bytes true [Some (to_string k)] = Z.of_nat (String.length (to_string k))) by (cbn; lia).
  assert (Hr1 : u64 (dif_rows v + 1) = dif_rows v + 1) by (apply u64_small; lia).
  assert (Hb1 : u64 (dif_bytes v + row_bytes true [Some (to_string k)]) = dif_bytes v + row_bytes true [Some (to_string k)]) by (apply u64_small; lia).
  assert (Hlim : stageRowLimit v = 64) by (unfold stageRowLimit; by rewrite Hst).
  set (v1 := set_dif_rows (u64 (dif_rows v + 1)) (u64 (dif_bytes v + row_bytes true [Some (to_string k)])) v).
  assert (Hc : consumeRow v1 true [Some (to_string k)] 1 = Some (mkLoadResult found row (acc ++ [k]))).
  { unfold consumeRow. cbn [negb]. change (dif_stage v1) with (dif_stage v). change (dif_result v1) with (dif_result v). rewrite Hst, Hres. cbn [bool_decide head].
    rewrite bool_decide_eq_true_2 by done. cbn. rewrite parse_unsigned by lia. cbn. by rewrite (proj2 (Z.ltb_ge _ _)) by lia. }
  destruct (fetch_reaches s 1 b v h [Some (to_string k)] ((fun s => [Some (to_string s)]) <$> skills) w (mkLoadResult found row (acc ++ [k]))) as [w1 R1].
  { rewrite Hr1, Hlim. apply orb_false_intro; apply Z.ltb_ge; lia. }
  { apply Z.ltb_ge. lia. }
  { exact Hc. }
  destruct (IH true (set_dif_result (mkLoadResult found row (acc ++ [k])) v1) w1 (acc ++ [k])) as (w2 & b2 & v2 & R2 & E1 & E2 & E3);
    [done|done|done|unfold v1; cbn [set_dif_result set_dif_rows dif_rows dif_bytes]; rewrite ?Hr1, ?Hb1; lia..|].
  exists w2, b2, v2. split_and!; [by eapply reaches_trans|done|done|]. by rewrite E3, <-app_assoc.
Qed.

(** The row of a save. *)
Definition saved_row (r : SavePlayerRequest) : list (option db_text) :=
  (fun c => to_string <$> value_of PLAYER_COLUMNS (save_values r) c) <$> tail PLAYER_COLUMNS.

Lemma saved_row_bytes r : 0 <= row_bytes true (saved_row r) <= 168.
Proof.
  unfold saved_row, row_bytes. assert (H : ∀ l : list db_text, 0 <= foldr (fun cell n => match cell with Some text => Z.of_nat (String.length text) | None => 0 end + n) 0
    ((fun c => to_string <$> value_of PLAYER_COLUMNS (save_values r) c) <$> l) <= 21 * zlen l); [|apply (H (tail PLAYER_COLUMNS))].
  unfold zlen. induction l as [|c l IH]; [done|]. cbn [fmap list_fmap foldr length]. rewrite Nat2Z.inj_succ.
  destruct (value_of PLAYER_COLUMNS (save_values r) c) as [z|]; cbn [fmap option_fmap option_map]; [pose proof (to_string_length z)|]; lia.
Qed.

Lemma player_consumed v r :
  save_typed r → dif_stage v = PlayerRow → dif_request v = LoadPlayerRequest (save_player_id r) → load_found (dif_result v) = false →
  consumeRow v true (saved_row r) 8 = Some (mkLoadResult true (load_row (loaded_of r)) (load_owned_skill_ids (dif_result v))).
Proof.
  intros [] Hst Hr Hf. unfold consumeRow. rewrite Hst, Hf. cbn [negb bool_decide orb]. rewrite bool_decide_eq_false_2 by done. cbn [Z.eqb PLAYER_ROW_COLUMNS Pos.eqb negb orb].
  unfold saved_row, PLAYER_COLUMNS, save_values. destruct (save_has_location r) eqn:El;
    cbn -[to_string parseUnsigned parseSigned]; rewrite !parse_unsigned, ?parse_signed by lia; cbn;
    unfold player_row; rewrite Hr; cbn; unfold out_of_i32, loaded_of; rewrite El; cbn;
    rewrite ?(proj2 (Z.ltb_ge _ _)) by lia; cbn; done.
Qed.

(** The first statement of a load: the player's row. *)
Lemma row_stage r before q s rows w :
  save_typed r → dq_request q = LoadPlayerRequest (save_player_id r) →
  let h := before ++ save_statements r in
  ∃ v w', reaches (at_work s None DbQuerying true (new_in_flight q), mkServerConn h rows w) (at_work s None DbQuerying true v, mkServerConn h [] w') ∧
    dif_key v = dq_key q ∧ dif_request v = dq_request q ∧ dif_stage v = PlayerSkills ∧ dif_result v = mkLoadResult true (load_row (loaded_of r)) [] ∧
    dif_rows v = 0 ∧ 0 <= dif_bytes v <= 168.
Proof using Hrows Hbytes Laws.
  intros Ht Hq h. pose proof (save_transaction_ok r Ht) as Htx. destruct (select_form (save_player_id r)) as [F1 _]. set (v0 := new_in_flight q).
  assert (V0 : dif_stage v0 = PlayerRow ∧ dif_request v0 = LoadPlayerRequest (save_player_id r)) by (unfold v0, new_in_flight; cbn; by rewrite Hq).
  destruct V0 as [V01 V02]. assert (Sql : currentSql v0 = select_text (tail PLAYER_COLUMNS) (save_player_id r)) by (unfold currentSql; rewrite V02, V01, <-F1; done).
  assert (Fld : sv_fields (currentSql v0) = 8) by (rewrite Sql; by apply sql_select_fields; [|intros c Hc; right]).
  assert (Rows : sv_rows h (currentSql v0) = [saved_row r]).
  { unfold h. rewrite Sql, save_statements_form. by apply sql_player; [|intros c Hc; right|intros c Hc|]. }
  destruct (query_reaches s true v0 h rows w (save_player_id r) V02 ltac:(by rewrite Fld) ltac:(by rewrite V01)) as [w1 R1]. rewrite Fld, Rows in R1.
  pose proof (saved_row_bytes r) as Hb.
  assert (Hbs : u64 (dif_bytes v0 + row_bytes true (saved_row r)) = row_bytes true (saved_row r)) by (change (dif_bytes v0) with 0; rewrite Z.add_0_l; apply u64_small; lia).
  set (v1 := set_dif_rows (u64 (dif_rows v0 + 1)) (u64 (dif_bytes v0 + row_bytes true (saved_row r))) v0).
  set (v2 := set_dif_result (mkLoadResult true (load_row (loaded_of r)) []) v1).
  destruct (fetch_reaches s 8 true v0 h (saved_row r) [] w1 (mkLoadResult true (load_row (loaded_of r)) [])) as [w2 R2].
  { unfold stageRowLimit. rewrite V01. change (u64 (dif_rows v0 + 1)) with 1. 
    apply orb_false_intro; apply Z.ltb_ge; [done|lia]. }
  { rewrite Hbs. apply Z.ltb_ge. lia. }
  { by apply player_consumed. }
  destruct (end_reaches s 8 true v2 h w2) as [w3 R3]. destruct (free_ends s 8 true v2 h w3) as (n & ev & w4 & E4 & C4).
  unfold advanceStage in E4, C4. change (dif_stage v2) with (dif_stage v0) in E4, C4. rewrite V01 in E4, C4. cbn [negb load_found dif_result v2 set_dif_result] in E4, C4.
  exists (set_dif_stage PlayerSkills (set_dif_rows 0 (dif_bytes v2) v2)), w4. split; [eapply reaches_trans; [exact R1|]; eapply reaches_trans; [exact R2|]; eapply reaches_trans; [exact R3|]; by exists n, ev|].
  split_and!; try done; cbn [set_dif_stage set_dif_rows dif_bytes v2 v1 set_dif_result]; rewrite Hbs; lia.
Qed.

(** The second: its skills.  The operation completes. *)
Lemma skills_stage r before v s w :
  save_typed r → dif_request v = LoadPlayerRequest (save_player_id r) → dif_stage v = PlayerSkills →
  dif_result v = mkLoadResult true (load_row (loaded_of r)) [] → dif_rows v = 0 → 0 <= dif_bytes v <= 168 →
  ∃ n, completions (slot_calls config (visits now n) (at_work s None DbQuerying true v, mkServerConn (before ++ save_statements r) [] w)).1
       = [(dif_key v, LoadResult (loaded_of r))].
Proof using Hrows Hbytes Laws.
  intros Ht Hr Hst Hres Hn Hb. set (h := before ++ save_statements r). pose proof (save_transaction_ok r Ht) as Htx.
  destruct (select_form (save_player_id r)) as [_ F2].
  assert (Sql : currentSql v = skill_select_text (save_player_id r)) by (unfold currentSql; rewrite Hr, Hst, <-F2; done).
  assert (Fld : sv_fields (currentSql v) = 1) by (rewrite Sql; apply sql_skill_fields).
  assert (Rows : sv_rows h (currentSql v) = (fun s => [Some (to_string s)]) <$> merge_sort (≤) (save_owned_skill_ids r)).
  { unfold h. rewrite Sql, save_statements_form. by apply sql_skills; [|intros c Hc; right]. }
  destruct (query_reaches s true v h [] w (save_player_id r) Hr ltac:(by rewrite Fld) ltac:(by rewrite Hst)) as [w1 R1]. rewrite Fld, Rows in R1.
  destruct (sy_skills _ Ht) as (_ & Hk & Hlen). pose proof (merge_sort_Permutation (≤) (save_owned_skill_ids r)) as Hperm.
  destruct (skills_reach s true v h (merge_sort (≤) (save_owned_skill_ids r)) w1 true (load_row (loaded_of r)) []) as (w2 & b2 & v2 & R2 & V1 & V2 & V3);
    [done|done|by rewrite Hperm|unfold zlen; rewrite ?Hperm; lia..|].
  destruct (end_reaches s 1 b2 v2 h w2) as [w3 R3]. destruct (free_ends s 1 true v2 h w3) as (n & ev & w4 & E4 & C4).
  destruct (reaches_then _ _ n ev _ (reaches_trans _ _ _ R1 (reaches_trans _ _ _ R2 R3)) E4) as (m & more & E5 & C5).
  exists m. rewrite E5. cbn [fst]. rewrite C5, C4. unfold advanceStage. rewrite V2. cbn. by rewrite V3, V1.
Qed.

(** A load after a committed save: however long the driver is not ready, the
    operation completes, once, with what was saved. *)
Lemma load_returns r before q s rows w :
  save_typed r → dq_request q = LoadPlayerRequest (save_player_id r) → ds_handle s = true → ds_result s = None →
  ∃ n, completions (slot_calls config (visits now n) ((db_assign s q).2, mkServerConn (before ++ save_statements r) rows w)).1
       = [(dq_key q, LoadResult (loaded_of r))].
Proof using Hrows Hbytes Laws.
  intros Ht Hq Hh Hres.
  assert (S0 : (db_assign s q).2 = at_work s None DbQuerying true (new_in_flight q))
    by (unfold db_assign, beginStageQuery, go_on, set_ds_in_flight, at_work; cbn; by rewrite Hh, Hres). rewrite S0.
  destruct (row_stage r before q s rows w Ht Hq) as (v & w1 & R1 & V1 & V2 & V3 & V4 & V5 & V6).
  destruct (skills_stage r before v s w1 Ht ltac:(congruence) V3 V4 V5 V6) as (n & C). destruct (slot_calls config (visits now n) _) as [ev st] eqn:E2 in C.
  destruct (reaches_then _ _ n ev st R1 E2) as (m & more & E3 & C3). exists m. rewrite E3. cbn [fst] in *. by rewrite C3, C, V1.
Qed.
End loads.

(** ** A server that keeps the laws

    It reads the words of the statements: from the last transaction the columns,
    the values and the skills, from the query the columns it selects. *)

Definition is_word (c : ascii) : bool := negb (bool_decide (c ∈ [" "; ","; "("; ")"; "="]%char)).

Definition flushed (word : db_text) : list db_text := if String.eqb word "" then [] else [word].

Fixpoint words_of (word s : db_text) : list db_text :=
  match s with
  | EmptyString => flushed word
  | String c rest => if is_word c then words_of (word +:+ String c EmptyString) rest else flushed word ++ words_of EmptyString rest
  end.

Fixpoint until (w : db_text) (l : list db_text) : list db_text :=
  match l with
  | [] => []
  | x :: rest => if String.eqb x w then [] else x :: until w rest
  end.

Fixpoint text_of (columns texts : list db_text) (column : db_text) : option db_text :=
  match columns, texts with
  | c :: columns, t :: texts => if String.eqb c column then (if String.eqb t "NULL" then None else Some t) else text_of columns texts column
  | _, _ => None
  end.

Fixpoint every_second {A} (l : list A) : list A := match l with _ :: x :: rest => x :: every_second rest | _ => [] end.

#[local] Instance word_server : SqlServer := {
  sv_fields sql := match words_of "" sql with w :: rest => if String.eqb w "SELECT" then zlen (until "FROM" rest) else 0 | [] => 0 end;
  sv_rows history sql :=
    match drop (length history - 6) history with
    | [_; _; insert; _; skills; _] =>
        let query := tail (words_of "" sql) in
        let selected := until "FROM" query in
        if bool_decide (query !! (length selected + 1)%nat = Some "snf_players") then
          let inserted := drop 3 (words_of "" insert) in
          let columns := until "VALUES" inserted in
          [text_of columns (until "ON" (drop (S (length columns)) inserted)) <$> selected]
        else (fun s => [Some (to_string s)]) <$> merge_sort (≤) (omap parse_number (every_second (drop 6 (words_of "" skills))))
    | _ => []
    end
}.

(** *** Words *)

Fixpoint all_word (s : db_text) : bool := match s with EmptyString => true | String c rest => is_word c && all_word rest end.

(** A word that is read as one. *)
Definition plain (s : db_text) : Prop := all_word s = true ∧ s ≠ "".

Lemma words_of_word w a b : all_word a = true → words_of w (a +:+ b) = words_of (w +:+ a) b.
Proof.
  revert w. induction a as [|c a IH]; intros w Ha; cbn [String.append].
  - f_equal. by rewrite append_empty.
  - cbn [all_word] in Ha. apply andb_prop in Ha as [Hc Ha]. rewrite append_cons. cbn [words_of].
    rewrite Hc, IH by done. by rewrite append_assoc.
Qed.

Lemma flush_plain s : plain s → flushed s = [s].
Proof. intros [_ Hn]. unfold flushed. by destruct (String.eqb_spec s ""). Qed.

Lemma words_of_then s c b : plain s → is_word c = false → words_of "" (s +:+ String c b) = s :: words_of "" b.
Proof.
  intros Hs Hc. rewrite words_of_word by apply Hs. cbn [String.append words_of]. by rewrite Hc, flush_plain.
Qed.

Lemma words_of_join space ws c b :
  Forall plain ws → is_word c = false → space ∈ [""; " "] → words_of "" (join (String "," space) ws +:+ String c b) = ws ++ words_of "" b.
Proof.
  intros Hw Hc Hs. assert (Hsp : ∀ t, words_of "" (space +:+ t) = words_of "" t).
  { intros t. apply elem_of_cons in Hs as [->|Hs]; [done|]. by apply list_elem_of_singleton in Hs as ->. }
  induction Hw as [|w ws Hw1 Hws IH]; [change (words_of "" (String c b) = words_of "" b); cbn [words_of]; by rewrite Hc|].
  destruct ws as [|w2 ws].
  - cbn [join app]. by apply words_of_then.
  - change (join (String "," space) (w :: w2 :: ws)) with (w +:+ String "," space +:+ join (String "," space) (w2 :: ws)).
    rewrite !append_assoc, append_cons, words_of_then by done. by rewrite Hsp, IH.
Qed.

Lemma digit_word d : 0 <= d < 10 → is_word (digit_char d) = true.
Proof.
  intros Hd. assert (d ∈ [0; 1; 2; 3; 4; 5; 6; 7; 8; 9]) as Hin by (rewrite !elem_of_cons; lia).
  rewrite !elem_of_cons in Hin. repeat (destruct Hin as [->|Hin]; [done|]). by apply elem_of_nil in Hin.
Qed.

Lemma to_string_plain z : plain (to_string z).
Proof.
  assert (Hd : ∀ fuel z rest, all_word rest = true → all_word (decimal fuel z rest) = true).
  { induction fuel as [|fuel IH]; intros z0 rest Hr; cbn [decimal]; [done|].
    assert (all_word (String (digit_char (z0 mod 10)) rest) = true) by (cbn [all_word]; by rewrite digit_word, Hr by (apply Z.mod_pos_bound; lia)).
    destruct (z0 <? 10); [done|by apply IH]. }
  unfold to_string. destruct (z <? 0); split; [cbn [all_word]; by rewrite Hd|done|by apply Hd|by apply decimal_nonempty; lia].
Qed.

Lemma literal_plain o : plain (literal o).
Proof. destruct o; [apply to_string_plain|done]. Qed.

Lemma to_string_parses z : in_u32 z → parse_number (to_string z) = Some z.
Proof. intros Hz. unfold to_string. rewrite (proj2 (Z.ltb_ge _ _)) by lia. apply parse_decimal_number. lia. Qed.

(** Numbers are no keywords. *)
Lemma literal_not o w : all_word w = true → (∀ z, to_string z ≠ w) → w ≠ "NULL" → literal o ≠ w.
Proof. destruct o; cbn [literal]; auto. Qed.

Lemma to_string_not c w : digit_of c = None → c ≠ "-"%char → ∀ z, to_string z ≠ String c w.
Proof.
  intros Hd Hc z. assert (Hf : ∀ fuel z rest, (0 < fuel)%nat → ∃ d t, decimal fuel z rest = String (digit_char d) t ∧ 0 <= d < 10).
  { induction fuel as [|fuel IH]; intros z0 rest Hf; [lia|]. cbn [decimal]. pose proof (Z.mod_pos_bound z0 10 ltac:(lia)).
    destruct (z0 <? 10); [by eexists _, _|]. destruct fuel as [|fuel]; [by eexists _, _|]. apply IH. lia. }
  unfold to_string. destruct (z <? 0); [by intros [= <- _]|]. destruct (Hf 20%nat z EmptyString ltac:(lia)) as (d & t & -> & Hr).
  intros [= <- _]. by rewrite digit_round in Hd.
Qed.

Lemma until_found w l rest : w ∉ l → until w (l ++ w :: rest) = l.
Proof.
  intros Hn. induction l as [|x l IH]; cbn; [by rewrite String.eqb_refl|]. apply not_elem_of_cons in Hn as [Hx Hn].
  destruct (String.eqb_spec x w); [congruence|]. by rewrite IH.
Qed.

(** *** The laws hold *)

Lemma insert_words columns values updated : Forall plain columns → ∃ rest,
  words_of "" (insert_text columns values updated) = ["INSERT"; "INTO"; "snf_players"] ++ columns ++ "VALUES" :: (literal <$> values) ++ "ON" :: rest.
Proof.
  intros Hc. set (update := join ", " ((fun c => c +:+ "=VALUES(" +:+ c +:+ ")") <$> updated)). exists (words_of "" ("DUPLICATE KEY UPDATE " +:+ update)).
  change (words_of "" (insert_text columns values updated)) with
    (["INSERT"; "INTO"; "snf_players"] ++
     words_of "" (join ", " columns +:+ String ")" (" VALUES (" +:+ join "," (literal <$> values) +:+ String ")" (" ON DUPLICATE KEY UPDATE " +:+ update)))).
  rewrite (words_of_join " ") by first [done|by right; left]. do 2 f_equal.
  change (words_of "" (" VALUES (" +:+ ?t)) with ("VALUES" :: words_of "" t). f_equal.
  by rewrite (words_of_join "") by first [done|by left|apply Forall_fmap, Forall_true; intros; apply literal_plain].
Qed.

Lemma select_words columns player : Forall plain columns → ∃ rest,
  words_of "" (select_text columns player) = "SELECT" :: columns ++ "FROM" :: "snf_players" :: rest.
Proof.
  intros Hc. exists (words_of "" ("WHERE player_id=" +:+ to_string player +:+ " LIMIT 2")).
  change (words_of "" (select_text columns player)) with
    ("SELECT" :: words_of "" (join ", " columns +:+ String " " ("FROM snf_players WHERE player_id=" +:+ to_string player +:+ " LIMIT 2"))).
  by rewrite (words_of_join " ") by first [done|by right; left].
Qed.

Lemma skill_words player skills :
  words_of "" (skills_text player skills) = ["INSERT"; "INTO"; "snf_player_skills"; "player_id"; "skill_id"; "VALUES"]
    ++ concat ((fun s => [to_string player; to_string s]) <$> skills).
Proof.
  change (words_of "" (skills_text player skills)) with (["INSERT"; "INTO"; "snf_player_skills"; "player_id"; "skill_id"; "VALUES"] ++
    words_of "" (join "," ((fun s => "(" +:+ to_string player +:+ "," +:+ to_string s +:+ ")") <$> skills))). f_equal.
  assert (Hpair : ∀ s t, words_of "" (("(" +:+ to_string player +:+ "," +:+ to_string s +:+ ")") +:+ t) = to_string player :: to_string s :: words_of "" t).
  { intros s t. rewrite !append_assoc. change (words_of "" ("(" +:+ ?u)) with (words_of "" u). change ("," +:+ ?u) with (String "," u).
    rewrite words_of_then by first [done|apply to_string_plain]. change (")" +:+ t) with (String ")" t). by rewrite words_of_then by first [done|apply to_string_plain]. }
  induction skills as [|s skills IH]; [done|]. destruct skills as [|s2 skills].
  - cbn [fmap list_fmap join concat app]. rewrite <-(append_empty ("(" +:+ _)). by rewrite Hpair.
  - change (join "," ((fun s => "(" +:+ to_string player +:+ "," +:+ to_string s +:+ ")") <$> s :: s2 :: skills)) with
      (("(" +:+ to_string player +:+ "," +:+ to_string s +:+ ")") +:+ "," +:+
       join "," ((fun s => "(" +:+ to_string player +:+ "," +:+ to_string s +:+ ")") <$> s2 :: skills)).
    rewrite Hpair. change (words_of "" ("," +:+ ?u)) with (words_of "" u). by rewrite IH.
Qed.

Lemma columns_plain columns : columns ⊆ PLAYER_COLUMNS → Forall plain columns ∧ "VALUES" ∉ columns ∧ "FROM" ∉ columns.
Proof.
  intros Hc. assert (Hall : Forall plain PLAYER_COLUMNS) by (repeat constructor; done).
  assert (Hk : "VALUES" ∉ PLAYER_COLUMNS ∧ "FROM" ∉ PLAYER_COLUMNS) by (by split; apply (bool_decide_eq_true_1 _); vm_compute).
  destruct Hk as [K1 K2].
  split_and!; [|intros Hi; by apply K1, Hc|intros Hi; by apply K2, Hc]. apply Forall_forall. intros c Hin. rewrite Forall_forall in Hall. by apply Hall, Hc.
Qed.

Lemma text_of_values columns values column :
  text_of columns (literal <$> values) column = to_string <$> value_of columns values column.
Proof.
  revert values. induction columns as [|c columns IH]; intros [|v values]; cbn [text_of value_of fmap list_fmap]; try done.
  destruct (String.eqb c column); [|apply IH]. destruct v as [z|]; [|done]. cbn [literal].
  destruct (String.eqb_spec (to_string z) "NULL") as [En|]; [|done]. by apply to_string_not in En.
Qed.

Lemma every_second_pairs {A B} (a : B) (f : A → B) (l : list A) : every_second (concat ((fun s => [a; f s]) <$> l)) = f <$> l.
Proof. induction l as [|s l IH]; [done|]. cbn. f_equal. exact IH. Qed.

Lemma last_six {A} (before tx : list A) : length tx = 6%nat → drop (length (before ++ tx) - 6) (before ++ tx) = tx.
Proof. intros Hl. rewrite length_app, Hl, Nat.add_sub. apply drop_app_length. Qed.

#[local] Instance word_laws : SqlLaws.
Proof.
  constructor.
  - intros columns player _ Hc. destruct (columns_plain columns Hc) as (P1 & _ & P3). destruct (select_words columns player P1) as [rest E].
    cbn [sv_fields word_server]. rewrite E. cbn [String.eqb Ascii.eqb Bool.eqb]. by rewrite until_found.
  - intros player. done.
  - intros before columns values updated player skills selected [C1 C2 C3 C4 C5] Hu Hs _.
    assert (Hcol : columns ⊆ PLAYER_COLUMNS) by (intros c; by rewrite C1). destruct (columns_plain columns Hcol) as (P1 & P2 & _).
    destruct (columns_plain selected ltac:(by intros c Hc; apply Hcol, Hu, Hs)) as (Q1 & _ & Q3). destruct (select_words selected player Q1) as [rest E].
    destruct (insert_words columns values updated P1) as [rest2 E2].
    cbn [sv_rows word_server]. rewrite last_six by done. unfold transaction. rewrite E. cbn [tail]. rewrite until_found by done.
    rewrite lookup_app_r, Nat.add_comm, Nat.add_sub by lia. cbn [lookup list_lookup]. rewrite bool_decide_eq_true_2 by done.
    rewrite E2. change (drop 3 (["INSERT"; "INTO"; "snf_players"] ++ ?t)) with t. rewrite until_found by done. rewrite drop_app_ge, Nat.sub_succ_l, Nat.sub_diag by lia.
    change (drop 1 ("VALUES" :: ?t)) with t. rewrite until_found. 2: { intros (o & Ho & _)%list_elem_of_fmap. symmetry in Ho. revert Ho. by apply literal_not; [|apply to_string_not|]. }
    f_equal. apply list_fmap_ext. intros i c _. apply text_of_values.
  - intros before columns values updated player skills [C1 C2 C3 C4 (C5 & C6 & C7)] Hu.
    cbn [sv_rows word_server]. rewrite last_six by done. unfold transaction. 
    change (words_of "" (skill_select_text player)) with ("SELECT" :: "skill_id" :: "FROM" :: "snf_player_skills" :: words_of "" ("WHERE player_id=" +:+ to_string player +:+ " ORDER BY skill_id LIMIT 64")).
    cbn [tail until String.eqb Ascii.eqb Bool.eqb length Nat.add lookup list_lookup]. rewrite bool_decide_eq_false_2 by done.
    rewrite skill_words. change (drop 6 ([?a; ?b; ?c; ?d; ?e; ?f] ++ ?t)) with t. rewrite every_second_pairs. do 2 f_equal. clear C5 C7. induction C6 as [|s l Hs _ IH]; [done|].
    cbn [fmap list_fmap omap list_omap]. rewrite to_string_parses by done. by f_equal.
Qed.

