(* ===== verification/Scheduler.v ===== *)
(** * The actors of a worker

    The part of [src/src/worker/worker.cpp] that owns the actors: delivering
    messages, activating and loading actors, running turns, suspending them on
    the database or on a synthetic await, timers, and the actor side of the
    shutdown.  Every method is a computation over the worker's state that may
    end in a fault: an exception that leaves [Worker::run], or a failed
    assertion.

    Connections, ports to other workers, the barrier, the database client, the
    actor factory and the clock are behind the class [WorkerOutside]. *)

From S2P Require Import Prelude FrameCodec Identity Lane TimerQueue HandleRing SlotTable ActorTable Actor.

(** ** Faults *)

Inductive Fault :=
(* raised by the code of an actor or of the factory *)
| ActorThrew | FactoryThrew | InvalidReady | InlineLoad | UnexpectedSaveResult
| BatchTooLarge | StopWithTimer | ReservationForeign | ReservationCharge | ReservationTurn
| ReservationOutsideTurn | ReservationEscaped
(* identifiers used up *)
| IncarnationsExhausted | TurnIdsExhausted
(* broken bookkeeping of the worker itself *)
| ReadyQueueFull | ReadyQueueEmpty | MailboxOverflow | MailboxUnderflow | BlockedWithoutCompletion | TimerNotRequeued
| TimerAccounting | LoadingUnderflow | NullSlot | TurnScopeBroken | OutOfFuel.

#[export] Instance Fault_eq_dec : EqDecision Fault.
Proof. solve_decision. Defined.

(** The faults that are not the worker's own. *)
Definition excused (f : Fault) : bool :=
  match f with
  | ActorThrew | FactoryThrew | InvalidReady | InlineLoad | UnexpectedSaveResult | BatchTooLarge | StopWithTimer
  | ReservationForeign | ReservationCharge | ReservationTurn | ReservationOutsideTurn | ReservationEscaped
  | IncarnationsExhausted | TurnIdsExhausted => true
  | _ => false
  end.

(** The counters of [WorkerActorMetrics] that the modelled code moves; the
    maximum of the slice durations and the counters per phase are left out. *)
Inductive Counter :=
| actor_turns | suspended_turns | resumed_turns | stale_completions | stale_ready_handles | budget_stops | stopped_actors
| discarded_mailbox_messages | discarded_mailbox_bytes | effect_send_failures | effect_close_failures | effect_tell_failures
| wrong_owner_tells | construction_rejections | activation_loads_started | activation_load_failures | loading_limit_rejections
| stale_activation_completions | stale_await_timeouts | cancelled_blocked_actors | forced_blocked_destructions
| remote_tells_sent | remote_tell_rejections | remote_tells_received | remote_tells_delivered | remote_tell_delivery_failures
| misrouted_actor_events | application_timers_scheduled | application_timers_delivered
| application_timer_delivery_failures | application_timer_delivery_retries | lifecycle_turns | lifecycle_forced_cancellations
| lifecycle_finalization_failures | closed_notifications_sent | closed_rejections | closed_notification_rejections
| closed_mailbox_accepted | closed_actor_absent | closed_receipts_sent | closed_receipt_send_failures | closed_receipts_received
| timer_schedule_failures | stale_application_timers | cancelled_application_timers | total_slice_duration_ns | turn_slice_ns
| network_misrouted_events | timers_fired | forced_actor_removals | forced_ready_queue_drops.

(** ** What surrounds the actors *)

(** The worker's identity and configuration, the charge of a message, and
    [sizeof] of the events that are charged by their size. *)
Class WorkerSetup (M : Type) := {
  chargedBytes : M → Z;
  self : WorkerId;
  worker_count : Z;
  cfg : WorkerActorConfig;
  has_sink : bool;
  sizeof_close : Z;
  sizeof_closed : Z;
  sizeof_receipt : Z
}.

Section scheduler.
Context {M I T Env : Type} `{Setup : !WorkerSetup M}.
Context `{Heap : !HeapAlgorithms (entry_deadline (M := M))} `{Behaviour : !ActorBehaviour M I T}.

Abbreviation Slot := (ActorSlot M I T).
Abbreviation Timers := (TimerQueue (M := M)).
Abbreviation Payload := (TimerPayload (M := M)).

(** A connection that the sink reports closed to an actor:
    [RequestSink::onConnectionClosed] calls [notifyActorConnectionClosed] and
    ignores the answer. *)
Record ClosedNotice := mkClosedNotice { notice_actor : ActorKey; notice_connection : ConnectionRef; notice_message : M }.

(** What the network may do to the timers: schedule close deadlines. *)
Inductive close_deadlines : Timers → Timers → Prop :=
| no_deadline q : close_deadlines q q
| one_deadline q q' d h :
    close_deadlines q q' → close_deadlines q (trySchedule chargedBytes d (ConnectionCloseDeadline h) q').2.

Class WorkerOutside := {
  steady_now : Env → time_point * Env;
  network_enabled : Env → bool;
  send_local : ConnectionRef → Frame → bool → Timers * Env → SendResult * list ClosedNotice * (Timers * Env);
  close_local : ConnectionRef → CloseReason → bool → Timers * Env → bool * list ClosedNotice * (Timers * Env);
  close_expired : ConnectionHandle → Timers * Env → list ClosedNotice * (Timers * Env);
  port_bound : WorkerId → Env → bool;
  port_push : WorkerId → WorkerEvent M → Z → Env → InboxPushResult * Env;
  note_published : WorkerId → Env → Env;
  sink_receipt : ActorKey → ConnectionRef → ActorConnectionClosedResult → Env → Env;
  db_attached : Env → bool;
  db_start : AwaitKey → DbRequest → time_point → Env → DbSubmit * Env;
  construct : ActorKey → Env → Construction I * Env;
  constructLoaded : ActorKey → LoadPlayerResult → Env → Construction I * Env;
  stop_network : Env → Env;
  send_deadlines : ∀ c f b s, close_deadlines s.1 (send_local c f b s).2.1;
  close_local_deadlines : ∀ c r b s, close_deadlines s.1 (close_local c r b s).2.1;
  close_expired_deadlines : ∀ h s, close_deadlines s.1 (close_expired h s).2.1
}.
Context `{Outside : !WorkerOutside}.

(** ** State *)

Record Worker := mkWorker {
  wk_actors : ActorTable Slot;
  wk_ready : HandleRing ActorHandle;
  wk_armed : list ActorHandle;
  wk_timers : Timers;
  wk_messages : Z;
  wk_bytes : Z;
  wk_loading : Z;
  wk_operations : SequenceSource;
  wk_last_turn : Z;
  wk_active_turn : option Z;
  wk_shutting_down : bool;
  wk_network_stopping : bool;
  wk_stop_requested : bool;
  wk_outside : Env;
  wk_metrics : list (Counter * Z)
}.
Implicit Types w : Worker.

Definition with_actors (x : ActorTable Slot) w : Worker :=
  mkWorker x (wk_ready w) (wk_armed w) (wk_timers w) (wk_messages w) (wk_bytes w) (wk_loading w) (wk_operations w) (wk_last_turn w) (wk_active_turn w) (wk_shutting_down w) (wk_network_stopping w) (wk_stop_requested w) (wk_outside w) (wk_metrics w).
Definition with_ready (x : HandleRing ActorHandle) w : Worker :=
  mkWorker (wk_actors w) x (wk_armed w) (wk_timers w) (wk_messages w) (wk_bytes w) (wk_loading w) (wk_operations w) (wk_last_turn w) (wk_active_turn w) (wk_shutting_down w) (wk_network_stopping w) (wk_stop_requested w) (wk_outside w) (wk_metrics w).
Definition with_armed (x : list ActorHandle) w : Worker :=
  mkWorker (wk_actors w) (wk_ready w) x (wk_timers w) (wk_messages w) (wk_bytes w) (wk_loading w) (wk_operations w) (wk_last_turn w) (wk_active_turn w) (wk_shutting_down w) (wk_network_stopping w) (wk_stop_requested w) (wk_outside w) (wk_metrics w).
Definition with_timers (x : Timers) w : Worker :=
  mkWorker (wk_actors w) (wk_ready w) (wk_armed w) x (wk_messages w) (wk_bytes w) (wk_loading w) (wk_operations w) (wk_last_turn w) (wk_active_turn w) (wk_shutting_down w) (wk_network_stopping w) (wk_stop_requested w) (wk_outside w) (wk_metrics w).
Definition with_totals (x : Z) (y : Z) w : Worker :=
  mkWorker (wk_actors w) (wk_ready w) (wk_armed w) (wk_timers w) x y (wk_loading w) (wk_operations w) (wk_last_turn w) (wk_active_turn w) (wk_shutting_down w) (wk_network_stopping w) (wk_stop_requested w) (wk_outside w) (wk_metrics w).
Definition with_loading (x : Z) w : Worker :=
  mkWorker (wk_actors w) (wk_ready w) (wk_armed w) (wk_timers w) (wk_messages w) (wk_bytes w) x (wk_operations w) (wk_last_turn w) (wk_active_turn w) (wk_shutting_down w) (wk_network_stopping w) (wk_stop_requested w) (wk_outside w) (wk_metrics w).
Definition with_operations (x : SequenceSource) w : Worker :=
  mkWorker (wk_actors w) (wk_ready w) (wk_armed w) (wk_timers w) (wk_messages w) (wk_bytes w) (wk_loading w) x (wk_last_turn w) (wk_active_turn w) (wk_shutting_down w) (wk_network_stopping w) (wk_stop_requested w) (wk_outside w) (wk_metrics w).
Definition with_turns (x : Z) (y : option Z) w : Worker :=
  mkWorker (wk_actors w) (wk_ready w) (wk_armed w) (wk_timers w) (wk_messages w) (wk_bytes w) (wk_loading w) (wk_operations w) x y (wk_shutting_down w) (wk_network_stopping w) (wk_stop_requested w) (wk_outside w) (wk_metrics w).
Definition with_flags (x : bool) (y : bool) (z : bool) w : Worker :=
  mkWorker (wk_actors w) (wk_ready w) (wk_armed w) (wk_timers w) (wk_messages w) (wk_bytes w) (wk_loading w) (wk_operations w) (wk_last_turn w) (wk_active_turn w) x y z (wk_outside w) (wk_metrics w).
Definition with_outside (x : Env) w : Worker :=
  mkWorker (wk_actors w) (wk_ready w) (wk_armed w) (wk_timers w) (wk_messages w) (wk_bytes w) (wk_loading w) (wk_operations w) (wk_last_turn w) (wk_active_turn w) (wk_shutting_down w) (wk_network_stopping w) (wk_stop_requested w) x (wk_metrics w).
Definition with_metrics (x : list (Counter * Z)) w : Worker :=
  mkWorker (wk_actors w) (wk_ready w) (wk_armed w) (wk_timers w) (wk_messages w) (wk_bytes w) (wk_loading w) (wk_operations w) (wk_last_turn w) (wk_active_turn w) (wk_shutting_down w) (wk_network_stopping w) (wk_stop_requested w) (wk_outside w) x.

(** ** Computations *)

Inductive Run (A : Type) := Done (a : A) (w : Worker) | Failed (f : Fault).
Arguments Done {A}.
Arguments Failed {A}.

Definition W (A : Type) : Type := Worker → Run A.
#[export] Instance W_ret : MRet W := fun A a w => Done a w.
#[export] Instance W_bind : MBind W := fun A B k m w => match m w with Done a w' => k a w' | Failed f => Failed f end.

Definition gets {A} (f : Worker → A) : W A := fun w => Done (f w) w.
Definition modify (f : Worker → Worker) : W () := fun w => Done () (f w).
Definition fail {A} (f : Fault) : W A := fun _ => Failed f.
Definition require {A} (f : Fault) (o : option A) : W A := match o with Some a => mret a | None => fail f end.

Definition count_by (c : Counter) (n : Z) : W () := modify (fun w => with_metrics ((c, n) :: wk_metrics w) w).
Definition count (c : Counter) : W () := count_by c 1.

Definition now : W time_point := fun w => let '(t, o) := steady_now (wk_outside w) in Done t (with_outside o w).
Definition budget_expired (started_at maximum_duration : Z) : W bool := t ← now; mret (maximum_duration <=? t - started_at).

(** Reading and writing the slot behind a pointer, which must not be empty. *)
Definition slot (i : nat) : W Slot := s ← gets (fun w => deref i (wk_actors w)); require NullSlot s.
Definition put (i : nat) (s : Slot) : W () := modify (fun w => with_actors (assign i s (wk_actors w)) w).
Definition update (i : nat) (f : Slot → Slot) : W () := s ← slot i; put i (f s).
Definition instance_of (s : Slot) : W I := require NullSlot (as_instance s).

Definition push_ready (h : ActorHandle) : W () :=
  q ← gets (fun w => ready_push h (wk_ready w)); q ← require ReadyQueueFull q; modify (with_ready q).

(** [setState(Queued)] and [_ready_queue->push(slot->handle())]. *)
Definition enqueue_actor (i : nat) : W () :=
  update i (set_state ActorQueued);; s ← slot i; push_ready (entry_handle s).

(** A timer operation that may terminate the program, and one that answers. *)
Definition timer_do (f : Timers → option Timers) : W () :=
  q ← gets (fun w => f (wk_timers w)); q ← require TimerAccounting q; modify (with_timers q).
Definition timer_try (f : Timers → bool * Timers) : W bool :=
  fun w => let '(ok, q) := f (wk_timers w) in Done ok (with_timers q w).

Definition next_operation : W OperationId :=
  fun w => let '(id, src) := sequence_next (wk_operations w) in Done id (with_operations src w).

Definition add_loading (n : Z) : W () :=
  w ← gets id; if wk_loading w + n <? 0 then fail LoadingUnderflow else modify (with_loading (wk_loading w + n)).

Definition use_outside {A} (f : Env → A * Env) : W A :=
  fun w => let '(a, o) := f (wk_outside w) in Done a (with_outside o w).
Definition tell_outside (f : Env → Env) : W () := modify (fun w => with_outside (f (wk_outside w)) w).
Definition use_network {A} (f : Timers * Env → A * (Timers * Env)) : W A :=
  fun w => let '(a, (q, o)) := f (wk_timers w, wk_outside w) in Done a (with_outside o (with_timers q w)).

(** ** Mailboxes *)

Definition exceedsByteLimit (current addition limit : Z) : bool := (limit <? addition) || (limit - addition <? current).

(** The totals leave no room for another message of this charge. *)
Definition totals_full (charge : Z) w : bool :=
  (max_mailbox_messages_total cfg <=? wk_messages w) || exceedsByteLimit (wk_bytes w) charge (max_mailbox_bytes_total cfg).
Definition mailbox_full (s : Slot) (charge : Z) w : bool :=
  (max_mailbox_messages_per_actor cfg <=? mailbox_size (as_mailbox s))
  || exceedsByteLimit (mb_charged_bytes (as_mailbox s)) charge (max_mailbox_bytes_per_actor cfg) || totals_full charge w.

(** [mailbox().push] and the totals. *)
Definition push_message (i : nat) (m : M) : W () :=
  s ← slot i;
  b ← require MailboxOverflow (mailbox_push chargedBytes m (as_mailbox s));
  put i (set_mailbox b s);;
  modify (fun w => with_totals (wk_messages w + 1) (u64 (wk_bytes w + chargedBytes m)) w).

(** A message for an actor in the table: pushed, and the actor queued when it
    was idle. *)
Definition accept_message (i : nat) (m : M) : W () :=
  s ← slot i;
  push_message i m;;
  if bool_decide (as_state s = ActorIdle) then enqueue_actor i else mret ().

Definition discardMailbox (i : nat) : W () :=
  s ← slot i;
  let messages := mailbox_size (as_mailbox s) in
  let bytes := mb_charged_bytes (as_mailbox s) in
  modify (fun w => with_totals (wk_messages w - messages) (u64 (wk_bytes w - bytes)) w);;
  count_by discarded_mailbox_messages messages;; count_by discarded_mailbox_bytes bytes;;
  put i (set_mailbox emptyMailbox s).

(** ** Removing an actor *)

Definition erase_armed (h : ActorHandle) : W () :=
  modify (fun w => with_armed (filter (fun x => x ≠ h) (wk_armed w)) w).

Definition removeActor (h : ActorHandle) (reason : ActorRemovalReason) : W () :=
  found ← gets (fun w => find_handle h (wk_actors w));
  match found with
  | None => mret ()
  | Some i =>
      s ← slot i;
      (if has_value (as_blocked s) && bool_decide (reason = ShutdownForced) then count forced_blocked_destructions else mret ());;
      (if bool_decide (as_state s = ActorLoading) then add_loading (-1) else mret ());;
      update i (set_blocked None);;
      stopping ← gets wk_shutting_down;
      match as_instance s with
      | Some a =>
          (if stopping && shutdownPending a then count lifecycle_forced_cancellations else mret ());;
          (if finalizationFailed a then count lifecycle_finalization_failures else mret ())
      | None => mret ()
      end;;
      (if as_lifecycle_armed s then update i (set_armed false);; erase_armed h else mret ());;
      discardMailbox i;;
      update i (set_instance None);;
      modify (fun w => with_actors (actor_release h (wk_actors w)).2 w);;
      if bool_decide (reason = RemovedStopped) || bool_decide (reason = ShutdownForced) then count stopped_actors else mret ()
  end.

(** ** Activation *)

(** [ActorTable::tryReserve] and the rollback of its reservation. *)
Definition reserve_actor (k : ActorKey) : W (option nat) :=
  r ← gets (fun w => actor_tryReserve k (wk_actors w));
  r ← require IncarnationsExhausted r;
  modify (with_actors r.2);; mret r.1.
Definition rollback_actor (i : nat) : W () := modify (fun w => with_actors (actor_rollback i (wk_actors w)) w).
Definition commit_actor (i : nat) : W () := modify (fun w => with_actors (actor_commit i (wk_actors w)) w).

Definition await_key (s : Slot) (op : OperationId) : AwaitKey := mkAwaitKey (as_key s) (as_incarnation s) op.

(** An activation cannot be admitted for its message alone. *)
Definition activation_full (charge : Z) w : bool := (max_mailbox_bytes_per_actor cfg <? charge) || totals_full charge w.

Definition beginActivationLoad (k : ActorKey) (m : M) : W DeliveryResult :=
  w ← gets id;
  if wk_shutting_down w then mret DeliveryClosed
  else if negb (hasCapacity (at_table (wk_actors w))) then mret ActorTableFull
  else if max_concurrent_loading cfg <=? wk_loading w then count loading_limit_rejections;; mret ActivationLimit
  else if activation_full (chargedBytes m) w then mret MailboxFull
  else
    reserved ← timer_try tryReserve;
    if negb reserved then mret ActivationLimit
    else
      r ← reserve_actor k;
      match r with
      | None => timer_do releaseReservation;; mret ActorTableFull
      | Some i =>
          update i (fun s => set_state ActorLoading (set_instance None s));;
          op ← next_operation;
          s ← slot i;
          t ← now;
          let key := await_key s op in
          let deadline := after t (await_timeout cfg) in
          attached ← gets (fun w => db_attached (wk_outside w));
          submitted ← (if attached && bool_decide (key_kind k = KindPlayer)
                       then use_outside (db_start key (LoadPlayerRequest (key_entity k)) deadline) else mret SubmitPending);
          match submitted with
          | SubmitRejected => timer_do releaseReservation;; count loading_limit_rejections;; rollback_actor i;; mret ActivationLimit
          | SubmitInline _ => fail InlineLoad
          | SubmitPending =>
              update i (set_blocked (Some (ActivationLoad key deadline)));;
              push_message i m;;
              commit_actor i;;
              timer_do (commitReserved chargedBytes deadline (AwaitTimeout key));;
              add_loading 1;;
              count activation_loads_started;;
              mret DeliveryAccepted
          end
      end.

(** ** Delivery *)

Definition tryDeliverLocalInternal (k : ActorKey) (m : M) : W DeliveryResult :=
  if negb (ownerOf k worker_count (placement_seed cfg) =? self) then count wrong_owner_tells;; mret WrongOwner
  else
    found ← gets (fun w => find_key k (wk_actors w));
    match found with
    | Some i =>
        s ← slot i;
        if bool_decide (as_state s = ActorStopping) then mret DeliveryStopping
        else
          full ← gets (mailbox_full s (chargedBytes m));
          if full : bool then mret MailboxFull else accept_message i m;; mret DeliveryAccepted
    | None =>
        w ← gets id;
        if negb (hasCapacity (at_table (wk_actors w))) then mret ActorTableFull
        else if activation_full (chargedBytes m) w then mret MailboxFull
        else
          r ← reserve_actor k;
          match r with
          | None => mret ActorTableFull
          | Some i =>
              c ← use_outside (construct k);
              match c with
              | FactoryThrows => fail FactoryThrew
              | FactoryRejected => count construction_rejections;; rollback_actor i;; mret ConstructionRejected
              | FactoryNeedsLoad => rollback_actor i;; beginActivationLoad k m
              | FactoryReady None => fail InvalidReady
              | FactoryReady (Some a) =>
                  update i (set_instance (Some a));;
                  push_message i m;;
                  update i (set_state ActorQueued);;
                  s ← slot i;
                  commit_actor i;;
                  push_ready (entry_handle s);;
                  mret DeliveryAccepted
              end
          end
    end.

Definition tryDeliverLocal (k : ActorKey) (m : M) : W DeliveryResult :=
  w ← gets id;
  if wk_shutting_down w || wk_stop_requested w then mret DeliveryClosed else tryDeliverLocalInternal k m.

Definition tellInternal (k : ActorKey) (m : M) (allow_quiescing : bool) : W DeliveryResult :=
  w ← gets id;
  if wk_shutting_down w && negb allow_quiescing then mret DeliveryClosed
  else
    let owner := ownerOf k worker_count (placement_seed cfg) in
    if owner =? self then tryDeliverLocalInternal k m
    else if (worker_count <=? owner) || negb (port_bound owner (wk_outside w))
    then count remote_tell_rejections;; mret DeliveryClosed
    else if U32_MAX <? chargedBytes m then count remote_tell_rejections;; mret RemoteInboxFull
    else
      pushed ← use_outside (port_push owner (RemoteActorMessage k m) (chargedBytes m));
      match pushed with
      | PushAccepted => count remote_tells_sent;; tell_outside (note_published owner);; mret DeliveryAccepted
      | PushFull => count remote_tell_rejections;; mret RemoteInboxFull
      | PushClosed => count remote_tell_rejections;; mret DeliveryClosed
      end.

Definition tell (k : ActorKey) (m : M) : W DeliveryResult :=
  w ← gets id;
  if wk_shutting_down w || wk_stop_requested w then mret DeliveryClosed else tellInternal k m false.

(** ** Closed connections *)

Definition sendActorConnectionClosedReceipt (k : ActorKey) (c : ConnectionRef) (result : ActorConnectionClosedResult) : W () :=
  o ← gets wk_outside;
  if cref_owner c =? self then
    count closed_receipts_sent;; count closed_receipts_received;;
    if has_sink then tell_outside (sink_receipt k c result) else mret ()
  else if (worker_count <=? cref_owner c) || negb (port_bound (cref_owner c) o) then count closed_receipt_send_failures
  else
    pushed ← use_outside (port_push (cref_owner c) (RemoteActorConnectionClosedReceipt k c result) sizeof_receipt);
    match pushed with
    | PushAccepted => count closed_receipts_sent;; tell_outside (note_published (cref_owner c))
    | _ => count closed_receipt_send_failures
    end.

Definition deliverActorConnectionClosedLocally (k : ActorKey) (c : ConnectionRef) (m : M) : W DeliveryResult :=
  if negb (ownerOf k worker_count (placement_seed cfg) =? self) then
    count closed_rejections;; count misrouted_actor_events;; mret WrongOwner
  else
    found ← gets (fun w => find_key k (wk_actors w));
    match found with
    | None =>
        count closed_actor_absent;; sendActorConnectionClosedReceipt k c ActorAbsent;; mret DeliveryAccepted
    | Some i =>
        s ← slot i;
        if bool_decide (as_state s = ActorStopping) then count closed_rejections;; mret DeliveryStopping
        else
          full ← gets (mailbox_full s (chargedBytes m));
          if full : bool then count closed_rejections;; mret MailboxFull
          else
            accept_message i m;;
            count closed_mailbox_accepted;;
            sendActorConnectionClosedReceipt k c MailboxAccepted;;
            mret DeliveryAccepted
    end.

Definition notifyActorConnectionClosed (k : ActorKey) (c : ConnectionRef) (m : M) : W DeliveryResult :=
  let rejected r := (count closed_rejections;; count closed_notification_rejections;; mret r) in
  w ← gets id;
  if negb (cref_owner c =? self) then rejected WrongOwner
  else if wk_shutting_down w || wk_stop_requested w || negb has_sink then rejected DeliveryClosed
  else
    let owner := ownerOf k worker_count (placement_seed cfg) in
    if owner =? self then
      r ← deliverActorConnectionClosedLocally k c m;
      (if bool_decide (r = DeliveryAccepted) then count closed_notifications_sent else count closed_notification_rejections);;
      mret r
    else if (worker_count <=? owner) || negb (port_bound owner (wk_outside w)) then rejected DeliveryClosed
    else if U32_MAX - sizeof_closed <? chargedBytes m then rejected RemoteInboxFull
    else
      pushed ← use_outside (port_push owner (RemoteActorConnectionClosed k c m) (sizeof_closed + chargedBytes m));
      match pushed with
      | PushAccepted => count closed_notifications_sent;; tell_outside (note_published owner);; mret DeliveryAccepted
      | PushFull => rejected RemoteInboxFull
      | PushClosed => rejected DeliveryClosed
      end.

(** The notifications the sink makes while connections close. *)
Fixpoint notify_all (notices : list ClosedNotice) : W () :=
  match notices with
  | [] => mret ()
  | n :: rest =>
      notifyActorConnectionClosed (notice_actor n) (notice_connection n) (notice_message n);; notify_all rest
  end.

(** ** Sending and closing *)

Definition remoteSendCharge (f : Frame) : Z := u32 (FRAME_LENGTH_FIELD_SIZE + MIN_BODY_SIZE + zlen (payload f)).

Definition sendLocal (c : ConnectionRef) (f : Frame) (critical : bool) : W SendResult :=
  '(r, notices) ← use_network (send_local c f critical);
  notify_all notices;; mret r.

Definition closeLocal (c : ConnectionRef) (reason : CloseReason) (graceful : bool) : W bool :=
  '(r, notices) ← use_network (close_local c reason graceful);
  notify_all notices;; mret r.

Definition send (c : ConnectionRef) (f : Frame) (critical : bool) : W SendResult :=
  o ← gets wk_outside;
  if negb (network_enabled o) || (worker_count <=? cref_owner c) then mret SendRejected
  else if cref_owner c =? self then sendLocal c f critical
  else if MAX_PAYLOAD_SIZE <? zlen (payload f) then mret SendRejected
  else if negb (port_bound (cref_owner c) o) then mret SendRejected
  else
    pushed ← use_outside (port_push (cref_owner c) (RemoteConnectionSend c f critical) (remoteSendCharge f));
    match pushed with
    | PushAccepted => tell_outside (note_published (cref_owner c));; mret SendAccepted
    | PushClosed => mret SendClosing
    | PushFull => mret SendRejected
    end.

Definition closeConnection (c : ConnectionRef) (reason : CloseReason) (graceful : bool) : W bool :=
  o ← gets wk_outside;
  if negb (network_enabled o) || (worker_count <=? cref_owner c) then mret false
  else if negb (cref_owner c =? self) then
    if negb (port_bound (cref_owner c) o) then mret false
    else
      pushed ← use_outside (port_push (cref_owner c) (RemoteConnectionClose c reason graceful) sizeof_close);
      match pushed with
      | PushAccepted => tell_outside (note_published (cref_owner c));; mret true
      | _ => mret false
      end
  else closeLocal c reason graceful.

(** ** Turns *)

(** [Worker::tryReserve] and [releaseReservation], called by an actor through
    its [TimerAdmission]. *)
Definition timer_reserve (charged turn : Z) : W (option TimerReservation) :=
  w ← gets id;
  if negb (bool_decide (wk_active_turn w = Some turn)) || (turn =? 0) then fail ReservationOutsideTurn
  else if wk_shutting_down w || wk_network_stopping w then mret None
  else
    ok ← timer_try (tryReserveApplicationTimer charged);
    mret (if ok : bool then Some (mkTimerReservation (Some self) charged turn) else None).

Definition timer_drop (r : TimerReservation) : W () :=
  match tr_admission r with
  | None => mret ()
  | Some _ => timer_do (releaseApplicationTimerReservation (tr_charged_bytes r))
  end.

(** The code of a turn: how it ends, and the state it leaves the actor in. *)
Fixpoint run_turn (t : Turn M I T) : W (I * (list (Effect M) + T)) :=
  match t with
  | TurnThrow => fail ActorThrew
  | TurnReserve charged turn k => r ← timer_reserve charged turn; run_turn (k r)
  | TurnDrop r k => timer_drop r;; run_turn k
  | TurnComplete a effects => mret (a, inl effects)
  | TurnSuspend a task => mret (a, inr task)
  end.

(** [ActorTurnScope]: one turn at a time, each with a number, and no timer
    reservation outlives it. *)
Definition begin_turn : W Z :=
  w ← gets id;
  if has_value (wk_active_turn w) || negb (tq_reserved_application_timer_entries (wk_timers w) =? 0) then fail TurnScopeBroken
  else if wk_last_turn w =? U64_MAX then fail TurnIdsExhausted
  else modify (with_turns (wk_last_turn w + 1) (Some (wk_last_turn w + 1)));; mret (wk_last_turn w + 1).

Definition end_turn (id : Z) : W () :=
  w ← gets Datatypes.id;
  if negb (bool_decide (wk_active_turn w = Some id)) then fail TurnScopeBroken
  else if negb (tq_reserved_application_timer_entries (wk_timers w) =? 0) then fail ReservationEscaped
  else modify (with_turns (wk_last_turn w) None).

(** ** Effects *)

(** The checks on the reservation of a scheduled timer. *)
Definition check_reservation (turn : Z) (e : Effect M) : option Fault :=
  match e with
  | ScheduleTimerEffect _ m (Some r) =>
      if negb (bool_decide (tr_admission r = Some self)) then Some ReservationForeign
      else if negb (tr_charged_bytes r =? chargedBytes m) then Some ReservationCharge
      else if (turn =? 0) || negb (tr_turn_id r =? turn) then Some ReservationTurn
      else None
  | _ => None
  end.

Fixpoint check_effects (turn : Z) (effects : list (Effect M)) : W () :=
  match effects with
  | [] => mret ()
  | e :: rest => match check_reservation turn e with Some f => fail f | None => check_effects turn rest end
  end.

(** One effect: whether the actor stopped, and whether the batch goes on. *)
Definition apply_effect (i : nat) (e : Effect M) : W (bool * bool) :=
  match e with
  | SendFrameEffect c f critical =>
      r ← send c f critical;
      (if bool_decide (r = SendAccepted) then mret () else count effect_send_failures);; mret (false, true)
  | CloseConnectionEffect c reason graceful =>
      ok ← closeConnection c reason graceful;
      (if ok : bool then mret () else count effect_close_failures);; mret (false, true)
  | TellActorEffect target m =>
      r ← tellInternal target m true;
      (if bool_decide (r = DeliveryAccepted) then mret () else count effect_tell_failures);; mret (false, true)
  | StopActorEffect => update i (set_state ActorStopping);; mret (true, true)
  | ScheduleTimerEffect deadline m (Some r) =>
      s ← slot i;
      timer_do (commitReservedApplicationTimer chargedBytes deadline (entry_activation s) m (tr_charged_bytes r));;
      count application_timers_scheduled;; mret (false, true)
  | ScheduleTimerEffect deadline m None =>
      s ← slot i;
      w ← gets id;
      if wk_shutting_down w || wk_network_stopping w then count timer_schedule_failures;; mret (false, false)
      else
        ok ← timer_try (tryScheduleApplicationTimer chargedBytes deadline (entry_activation s) m);
        if ok : bool then count application_timers_scheduled;; mret (false, true)
        else count timer_schedule_failures;; mret (false, false)
  end.

(** Effects that were not applied are destroyed with the batch. *)
Fixpoint drop_effects (effects : list (Effect M)) : W () :=
  match effects with
  | [] => mret ()
  | e :: rest => match effect_reservation e with Some r => timer_drop r | None => mret () end;; drop_effects rest
  end.

Fixpoint apply_effects (i : nat) (effects : list (Effect M)) (stopped : bool) : W bool :=
  match effects with
  | [] => mret stopped
  | e :: rest =>
      '(stop, go_on) ← apply_effect i e;
      if go_on : bool then apply_effects i rest (stopped || stop) else drop_effects rest;; mret (stopped || stop)
  end.

Definition applyEffectBatch (i : nat) (effects : list (Effect M)) (turn : Z) : W bool :=
  if 64 <? zlen effects then fail BatchTooLarge
  else if existsb is_stop effects && existsb is_schedule effects then fail StopWithTimer
  else check_effects turn effects;; apply_effects i effects false.

(** ** Suspension *)

(** A synthetic await: at once cancelled or rejected, or blocked with a
    timeout. *)
Definition suspend_synthetic (i : nat) (task : T) : W () :=
  op ← next_operation;
  s ← slot i;
  t ← now;
  let key := await_key s op in
  let deadline := after t (await_timeout cfg) in
  stopping ← gets wk_shutting_down;
  if stopping : bool then
    update i (set_blocked (Some (SyntheticSuspendedCommand key deadline task (Some AwaitCancelled))));;
    enqueue_actor i;; count suspended_turns;; count cancelled_blocked_actors
  else
    reserved ← timer_try tryReserve;
    if negb reserved then
      update i (set_blocked (Some (SyntheticSuspendedCommand key deadline task (Some AwaitRejected))));;
      enqueue_actor i;; count suspended_turns
    else
      update i (fun s => set_state ActorSuspended (set_blocked (Some (SyntheticSuspendedCommand key deadline task None)) s));;
      timer_do (commitReserved chargedBytes deadline (AwaitTimeout key));;
      count suspended_turns.

Definition is_save (r : DbRequest) : bool := match r with SaveRequest _ => true | _ => false end.

Definition suspendOnDbRequest (i : nat) (task : T) (final_save : bool) : W bool :=
  match task_request task with
  | None => count activation_load_failures;; mret false
  | Some request =>
      s ← slot i;
      op ← next_operation;
      t ← now;
      let key := await_key s op in
      let deadline := after t (await_timeout cfg) in
      reserved ← timer_try tryReserve;
      if negb reserved then
        update i (set_blocked (Some (SuspendedDbCommand key deadline task (Some (DbFailed DbOverloaded false)))));;
        enqueue_actor i;; mret true
      else
        w ← gets id;
        submitted ← (if negb (db_attached (wk_outside w)) || (wk_shutting_down w && negb (final_save && is_save request))
                     then mret SubmitRejected else use_outside (db_start key request deadline));
        let immediate := match submitted with
                         | SubmitRejected => Some (DbFailed DbOverloaded false)
                         | SubmitInline r => Some r
                         | SubmitPending => None
                         end in
        match immediate with
        | Some r =>
            timer_do releaseReservation;;
            update i (set_blocked (Some (SuspendedDbCommand key deadline task (Some r))));;
            enqueue_actor i;; mret true
        | None =>
            update i (fun s => set_state ActorSuspended (set_blocked (Some (SuspendedDbCommand key deadline task None)) s));;
            timer_do (commitReserved chargedBytes deadline (AwaitTimeout key));;
            mret true
        end
  end.

(** ** Completions *)

Definition tryMarkDbCommandReady (key : AwaitKey) (result : DbResult) : W bool :=
  found ← gets (fun w => find_key (await_actor key) (wk_actors w));
  match found with
  | None => mret false
  | Some i =>
      s ← slot i;
      if negb (bool_decide (as_state s = ActorSuspended)) then mret false
      else match as_blocked s with
           | Some (SuspendedDbCommand k d task completion) =>
               if negb (acceptsCompletion key k) || has_value completion then mret false
               else
                 update i (set_blocked (Some (SuspendedDbCommand k d task (Some result))));;
                 enqueue_actor i;; mret true
           | _ => mret false
           end
  end.

Definition tryMarkSyntheticCommandReady (key : AwaitKey) (outcome : SyntheticAwaitOutcome) : W bool :=
  found ← gets (fun w => find_key (await_actor key) (wk_actors w));
  match found with
  | None => mret false
  | Some i =>
      s ← slot i;
      if negb (bool_decide (as_state s = ActorSuspended)) then mret false
      else match as_blocked s with
           | Some (SyntheticSuspendedCommand k d task completion) =>
               if negb (acceptsCompletion key k) || has_value completion then mret false
               else
                 update i (set_blocked (Some (SyntheticSuspendedCommand k d task (Some outcome))));;
                 enqueue_actor i;; mret true
           | _ => mret false
           end
  end.

(** The actor becomes idle, or runnable when messages wait. *)
Definition settle (i : nat) : W () :=
  s ← slot i;
  if mailbox_empty (as_mailbox s) then update i (set_state ActorIdle) else enqueue_actor i.

Definition finish_activation (i : nat) (a : I) : W () :=
  update i (fun s => set_blocked None (set_instance (Some a) s));;
  add_loading (-1);;
  settle i.

Definition reject_activation (i : nat) (reason : ActorRemovalReason) : W () :=
  s ← slot i;
  count activation_load_failures;; removeActor (entry_handle s) reason.

Definition completeDb (key : AwaitKey) (result : DbResult) : W () :=
  found ← gets (fun w => find_key (await_actor key) (wk_actors w));
  match found with
  | None => count stale_completions
  | Some i =>
      s ← slot i;
      match as_blocked s with
      | None => count stale_completions
      | Some (SuspendedDbCommand _ _ _ _) =>
          ok ← tryMarkDbCommandReady key result;
          if ok : bool then mret () else count stale_completions
      | Some (SyntheticSuspendedCommand _ _ _ _) => count stale_activation_completions
      | Some (ActivationLoad k _) =>
          if negb (bool_decide (as_state s = ActorLoading)) || negb (acceptsCompletion key k) then count stale_activation_completions
          else match result with
               | DbFailed kind _ =>
                   reject_activation i (if bool_decide (kind = DbTimedOut) then ActivationTimedOut else ActivationRejected)
               | SaveResult _ => fail UnexpectedSaveResult
               | LoadResult loaded =>
                   c ← use_outside (constructLoaded (await_actor key) loaded);
                   match c with
                   | FactoryThrows => fail FactoryThrew
                   | FactoryReady (Some a) => finish_activation i a
                   | _ => reject_activation i ActivationRejected
                   end
               end
      end
  end.

Definition completeSyntheticCommand (key : AwaitKey) (outcome : SyntheticAwaitOutcome) : W bool :=
  ok ← tryMarkSyntheticCommandReady key outcome;
  if ok : bool then mret true else count stale_completions;; mret false.

Definition completeSyntheticActivation (key : AwaitKey) (outcome : SyntheticActivationOutcome) : W () :=
  found ← gets (fun w => find_key (await_actor key) (wk_actors w));
  match found with
  | None => count stale_activation_completions
  | Some i =>
      s ← slot i;
      match as_blocked s with
      | Some (ActivationLoad k _) =>
          if negb (bool_decide (as_state s = ActorLoading)) || negb (acceptsCompletion key k) then count stale_activation_completions
          else match outcome with
               | ActivationReady =>
                   c ← use_outside (construct (await_actor key));
                   match c with
                   | FactoryThrows => fail FactoryThrew
                   | FactoryReady None => fail InvalidReady
                   | FactoryReady (Some a) => finish_activation i a
                   | _ => reject_activation i ActivationRejected
                   end
               | ActivationExpired => reject_activation i ActivationTimedOut
               | ActivationDropped => reject_activation i ActivationCancelled
               | ActivationRefused => reject_activation i ActivationRejected
               end
      | _ => count stale_activation_completions
      end
  end.

(** ** Lifecycle index *)

Definition wants_lifecycle (stopping : bool) (a : I) : bool :=
  has_value (lifecycleDeadline a) || (stopping && (needsShutdownTurn a || shutdownPending a)).

Definition refreshLifecycleArm (h : ActorHandle) : W () :=
  found ← gets (fun w => find_handle h (wk_actors w));
  match found with
  | None => mret ()
  | Some i =>
      s ← slot i;
      stopping ← gets wk_shutting_down;
      let armed := match as_instance s with Some a => wants_lifecycle stopping a | None => false end in
      if eqb armed (as_lifecycle_armed s) then mret ()
      else
        put i (set_armed armed s);;
        if armed then modify (fun w => with_armed (wk_armed w ++ [h]) w) else erase_armed h
  end.

Fixpoint refresh_each (indices : list nat) : W () :=
  match indices with
  | [] => mret ()
  | i :: rest =>
      s ← gets (fun w => activeAt i (wk_actors w));
      match s with Some s => refreshLifecycleArm (entry_handle s) | None => mret () end;;
      refresh_each rest
  end.
Definition armLifecycleForShutdown : W () :=
  n ← gets (fun w => length (at_slots (wk_actors w))); refresh_each (seq 0 n).

(** A lifecycle turn is due. *)
Definition lifecycle_due (stopping : bool) (t : time_point) (a : I) : bool :=
  (stopping && needsShutdownTurn a) || match lifecycleDeadline a with Some d => d <=? t | None => false end.

(** The scan over the index before the actors run: an entry that is no longer
    armed is replaced by the last one; a due actor that is idle is queued.
    Every step drops an entry or moves on, so the length bounds the steps. *)
Fixpoint arm_scan (fuel idx : nat) (started_at : time_point) : W () :=
  match fuel with
  | O => mret ()
  | S fuel' =>
      armed ← gets wk_armed;
      match armed !! idx with
      | None => mret ()
      | Some h =>
          found ← gets (fun w => find_handle h (wk_actors w));
          let unarm := modify (with_armed (removelast (<[idx := List.last armed h]> armed))) in
          match found with
          | None => unarm;; arm_scan fuel' idx started_at
          | Some i =>
              s ← slot i;
              if negb (as_lifecycle_armed s) then unarm;; arm_scan fuel' idx started_at
              else
                stopping ← gets wk_shutting_down;
                (if has_value (as_blocked s) || negb (bool_decide (as_state s = ActorIdle)) then mret ()
                 else match as_instance s with
                      | Some a => if lifecycle_due stopping started_at a then enqueue_actor i else mret ()
                      | None => mret ()
                      end);;
                arm_scan fuel' (S idx) started_at
          end
      end
  end.

(** ** Running the ready actors *)

Definition record_slice (started_at : time_point) : W () :=
  t ← now; count_by total_slice_duration_ns (t - started_at);; count_by turn_slice_ns (t - started_at).

Inductive SliceEnd := SliceOver | SliceStopped | SliceSuspended | SliceExhausted.

(** Messages and lifecycle turns of one actor, [fuel] more of them at most. *)
Fixpoint slice_loop (fuel : nat) (i : nat) (started_at max_duration turns : Z) : W (Z * SliceEnd) :=
  match fuel with
  | O => mret (turns, SliceOver)
  | S fuel' =>
      late ← budget_expired started_at max_duration;
      if late : bool then mret (turns, SliceExhausted)
      else
        id ← begin_turn;
        s ← slot i;
        t ← now;
        let context := mkTurnContext (entry_activation s) t id in
        a ← instance_of s;
        stopping ← gets wk_shutting_down;
        let lifecycle := lifecycle_due stopping t a in
        if negb lifecycle && mailbox_empty (as_mailbox s) then end_turn id;; mret (turns, SliceOver)
        else
          turn ← (if lifecycle then count lifecycle_turns;; mret (lifecycleTurn a context stopping)
                  else
                    '(m, b) ← require MailboxUnderflow (mailbox_pop chargedBytes (as_mailbox s));
                    put i (set_mailbox b s);;
                    modify (fun w => with_totals (wk_messages w - 1) (u64 (wk_bytes w - chargedBytes m)) w);;
                    mret (dispatch a m context));
          '(a', result) ← run_turn turn;
          update i (set_instance (Some a'));;
          count actor_turns;;
          match result with
          | inr task =>
              (if has_value (task_request task) then
                 count suspended_turns;;
                 ok ← suspendOnDbRequest i task (lifecycle && stopping);
                 if ok : bool then mret () else removeActor (entry_handle s) ActivationRejected
               else suspend_synthetic i task);;
              end_turn id;; mret (turns + 1, SliceSuspended)
          | inl effects =>
              stopped ← applyEffectBatch i effects id;
              end_turn id;;
              if stopped : bool then mret (turns + 1, SliceStopped) else slice_loop fuel' i started_at max_duration (turns + 1)
          end
  end.

(** A coroutine that waited for the database goes on. *)
Definition resume_db_command (i : nat) (task : T) (completion : DbResult) : W () :=
  update i (fun s => set_state ActorRunning (set_blocked None s));;
  id ← begin_turn;
  started_at ← now;
  count actor_turns;; count resumed_turns;;
  s ← slot i;
  a ← instance_of s;
  '(a', result) ← run_turn (resumeDb task a completion);
  update i (set_instance (Some a'));;
  record_slice started_at;;
  match result with
  | inr task' =>
      ok ← suspendOnDbRequest i task' false;
      (if ok : bool then mret () else removeActor (entry_handle s) ActivationRejected);;
      end_turn id
  | inl effects =>
      stopped ← applyEffectBatch i effects id;
      (if stopped : bool then mret () else settle i);;
      end_turn id
  end.

(** A coroutine that waited for a synthetic completion goes on. *)
Definition resume_synthetic_command (i : nat) (task : T) (outcome : SyntheticAwaitOutcome) : W () :=
  update i (fun s => set_state ActorRunning (set_blocked None s));;
  id ← begin_turn;
  started_at ← now;
  count actor_turns;; count resumed_turns;;
  s ← slot i;
  a ← instance_of s;
  '(a', result) ← run_turn (resumeSynthetic task a outcome);
  update i (set_instance (Some a'));;
  record_slice started_at;;
  match result with
  | inr task' => suspend_synthetic i task';; end_turn id
  | inl effects =>
      stopped ← applyEffectBatch i effects id;
      (if stopped : bool then removeActor (entry_handle s) RemovedStopped else settle i);;
      end_turn id
  end.

(** A slice of messages. *)
Definition run_slice (i : nat) (max_count max_duration started_at turns : Z) : W (Z * bool) :=
  update i (set_state ActorRunning);;
  s ← slot i;
  slice_started ← now;
  '(turns', ended) ← slice_loop (Z.to_nat (Z.min (max_turns_per_actor_slice cfg) (max_count - turns))) i started_at max_duration turns;
  record_slice slice_started;;
  match ended with
  | SliceStopped => removeActor (entry_handle s) RemovedStopped
  | SliceSuspended => mret ()
  | _ => settle i
  end;;
  mret (turns', match ended with SliceExhausted => true | _ => false end).

(** One entry of the ready queue: the turns so far and whether the phase's time
    is used up. *)
Definition run_ready (h : ActorHandle) (max_count max_duration started_at turns : Z) : W (Z * bool) :=
  found ← gets (fun w => find_handle h (wk_actors w));
  match found with
  | None => count stale_ready_handles;; mret (turns, false)
  | Some i =>
      s ← slot i;
      if negb (bool_decide (as_state s = ActorQueued)) then mret (turns, false)
      else
        r ← match as_blocked s with
            | Some (SuspendedDbCommand _ _ task completion) =>
                c ← require BlockedWithoutCompletion completion;
                resume_db_command i task c;; mret (turns + 1, false)
            | Some (SyntheticSuspendedCommand _ _ task completion) =>
                c ← require BlockedWithoutCompletion completion;
                resume_synthetic_command i task c;; mret (turns + 1, false)
            | Some (ActivationLoad _ _) => mret (turns, false)
            | None => run_slice i max_count max_duration started_at turns
            end;
        refreshLifecycleArm h;; mret r
  end.

Definition pop_ready : W ActorHandle :=
  r ← gets (fun w => HandleRing.ready_pop (wk_ready w));
  r ← require ReadyQueueEmpty r;
  modify (with_ready r.2);; mret r.1.

(** The loop; its answer tells whether the budget ended it. *)
Fixpoint ready_loop (fuel : nat) (max_count max_duration started_at turns : Z) : W bool :=
  match fuel with
  | O => fail OutOfFuel
  | S fuel' =>
      empty ← gets (fun w => hr_empty (wk_ready w));
      if empty : bool then mret false
      else
        late ← (if max_count <=? turns then mret true else budget_expired started_at max_duration);
        if late : bool then mret true
        else
          h ← pop_ready;
          '(turns', exhausted) ← run_ready h max_count max_duration started_at turns;
          if exhausted : bool then mret true else ready_loop fuel' max_count max_duration started_at turns'
  end.

(** Every round of the loop takes an entry off the queue, and a round that puts
    entries back has run a turn; so the turns left and the entries bound the
    rounds. *)
Definition ready_fuel (max_count : Z) : nat := Z.to_nat ((max_count + 1) * (actor_table_capacity cfg + 1) + 1).

Definition runReadyActors (max_count max_duration : Z) : W () :=
  started_at ← now;
  n ← gets (fun w => length (wk_armed w));
  arm_scan n 0 started_at;;
  exhausted ← ready_loop (ready_fuel max_count) max_count max_duration started_at 0;
  if exhausted : bool then count budget_stops else mret ().

(** ** Timers *)

(** A due application timer. *)
Definition deliver_timer (target : ActivationRef) (m : M) (t : time_point) : W () :=
  found ← gets (fun w => find_key (activation_actor target) (wk_actors w));
  match found with
  | None => count stale_application_timers
  | Some i =>
      s ← slot i;
      if negb (as_incarnation s =? activation_incarnation target) then count stale_application_timers
      else if bool_decide (as_state s = ActorStopping) then count application_timer_delivery_failures
      else if (max_mailbox_bytes_per_actor cfg <? chargedBytes m) || (max_mailbox_bytes_total cfg <? chargedBytes m)
      then count application_timer_delivery_failures
      else
        w ← gets id;
        let saturated :=
          (max_mailbox_messages_per_actor cfg <=? mailbox_size (as_mailbox s))
          || (max_mailbox_messages_total cfg <=? wk_messages w)
          || (max_mailbox_bytes_per_actor cfg <? mb_charged_bytes (as_mailbox s))
          || (max_mailbox_bytes_per_actor cfg - mb_charged_bytes (as_mailbox s) <? chargedBytes m)
          || (max_mailbox_bytes_total cfg <? wk_bytes w) || (max_mailbox_bytes_total cfg - wk_bytes w <? chargedBytes m) in
        if saturated then
          scheduled ← timer_try (trySchedule chargedBytes (after t 1) (ApplicationTimer target m));
          if scheduled : bool then count application_timer_delivery_retries else fail TimerNotRequeued
        else accept_message i m;; count application_timers_delivered
  end.

Definition onTimer (p : Payload) (t : time_point) : W () :=
  match p with
  | ConnectionCloseDeadline h => notices ← use_network (close_expired h); notify_all notices
  | AwaitTimeout key =>
      found ← gets (fun w => find_key (await_actor key) (wk_actors w));
      match found with
      | None => count stale_await_timeouts
      | Some i =>
          s ← slot i;
          match as_blocked s with
          | None => count stale_await_timeouts
          | Some (SyntheticSuspendedCommand _ _ _ _) =>
              ok ← tryMarkSyntheticCommandReady key AwaitTimedOut;
              if ok : bool then mret () else count stale_await_timeouts
          | Some (SuspendedDbCommand _ _ _ _) =>
              ok ← tryMarkDbCommandReady key (DbFailed DbTimedOut true);
              if ok : bool then mret () else count stale_await_timeouts
          | Some (ActivationLoad k _) =>
              if acceptsCompletion key k then completeSyntheticActivation key ActivationExpired else count stale_await_timeouts
          end
      end
  | ApplicationTimer target m => deliver_timer target m t
  end.

(** [expireTimers]: the queue hands every due entry to [onTimer]; [late] is the
    clock against the phase's budget. *)
Definition timer_handler (t : time_point) (p : Payload) (qw : Timers * Worker) : option (Timers * Worker) :=
  match onTimer p t (with_timers qw.1 qw.2) with Done _ w => Some (wk_timers w, w) | Failed _ => None end.

Definition expireTimers (t : time_point) (max_count : Z) (late : Z → bool) : W bool :=
  fun w =>
    match expire chargedBytes (timer_handler t) late t max_count (wk_timers w, w) with
    | Some (r, (q, w')) => Done (er_due_items_remain r) (with_timers q w')
    | None => Failed TimerAccounting
    end.

(** ** Events from other workers *)

Definition onEvent (e : WorkerEvent M) : W () :=
  match e with
  | RemoteActorMessage target m =>
      count remote_tells_received;;
      if negb (ownerOf target worker_count (placement_seed cfg) =? self) then
        count remote_tell_delivery_failures;; count misrouted_actor_events
      else
        r ← tryDeliverLocalInternal target m;
        if bool_decide (r = DeliveryAccepted) then count remote_tells_delivered else count remote_tell_delivery_failures
  | RemoteActorConnectionClosed target c m => deliverActorConnectionClosedLocally target c m;; mret ()
  | RemoteActorConnectionClosedReceipt target c result =>
      if negb (cref_owner c =? self) then count misrouted_actor_events
      else
        count closed_receipts_received;;
        if has_sink then tell_outside (sink_receipt target c result) else mret ()
  | RemoteConnectionSend c f critical =>
      o ← gets wk_outside;
      if negb (network_enabled o) then mret ()
      else if negb (cref_owner c =? self) then count network_misrouted_events
      else sendLocal c f critical;; mret ()
  | RemoteConnectionClose c reason graceful =>
      o ← gets wk_outside;
      if negb (network_enabled o) then mret ()
      else if negb (cref_owner c =? self) then count network_misrouted_events
      else closeConnection c reason graceful;; mret ()
  end.

(** ** Shutdown *)

Definition beginShutdownPhaseA : W () :=
  modify (fun w => with_flags true true (wk_stop_requested w) w);;
  armLifecycleForShutdown;;
  tell_outside stop_network.

(** The final save a lifecycle turn has started is not cancelled. *)
Definition saving (a : I) : bool := negb (needsShutdownTurn a) && shutdownPending a.

Definition cancel_blocked (h : ActorHandle) : W bool :=
  found ← gets (fun w => find_handle h (wk_actors w));
  match found with
  | None => mret false
  | Some i =>
      s ← slot i;
      if match as_instance s with Some a => saving a | None => false end then mret false
      else match as_blocked s with
           | Some (SyntheticSuspendedCommand k d task None) =>
               update i (set_blocked (Some (SyntheticSuspendedCommand k d task (Some AwaitCancelled))));;
               enqueue_actor i;; count cancelled_blocked_actors;; mret true
           | Some (SuspendedDbCommand k d task None) =>
               update i (set_blocked (Some (SuspendedDbCommand k d task (Some (DbFailed DbConnectionLost true)))));;
               enqueue_actor i;; count cancelled_blocked_actors;; mret true
           | Some (ActivationLoad _ _) => count cancelled_blocked_actors;; removeActor h ActivationCancelled;; mret true
           | _ => mret false
           end
  end.

Fixpoint cancel_each (hs : list ActorHandle) (any : bool) : W bool :=
  match hs with [] => mret any | h :: rest => c ← cancel_blocked h; cancel_each rest (any || c) end.
Definition cancelBlockedActorsForShutdown : W bool :=
  hs ← gets (fun w => activeHandles (wk_actors w)); cancel_each hs false.

(** The entry of phase B. *)
Definition beginShutdownPhaseB : W () :=
  r ← gets (fun w => cancelApplicationTimers chargedBytes (wk_timers w));
  r ← require TimerAccounting r;
  modify (with_timers r.2);;
  count_by cancelled_application_timers r.1;;
  cancelBlockedActorsForShutdown;; mret ().

(** The end of phase B removes the actors that are idle or queued. *)
Definition retire (h : ActorHandle) : W () :=
  found ← gets (fun w => find_handle h (wk_actors w));
  match found with
  | None => mret ()
  | Some i =>
      s ← slot i;
      if bool_decide (as_state s = ActorIdle) || bool_decide (as_state s = ActorQueued)
      then put i (set_state ActorStopping s);; removeActor h RemovedStopped
      else mret ()
  end.
Fixpoint for_handles (f : ActorHandle → W ()) (hs : list ActorHandle) : W () :=
  match hs with [] => mret () | h :: rest => f h;; for_handles f rest end.
Definition endShutdownPhaseB : W () :=
  hs ← gets (fun w => activeHandles (wk_actors w)); for_handles retire hs.

(** The actors' part of phase D. *)
Definition runShutdownPhaseD : W () :=
  hs ← gets (fun w => activeHandles (wk_actors w));
  count_by forced_actor_removals (zlen hs);;
  for_handles (fun h => removeActor h ShutdownForced) hs;;
  w ← gets id;
  count_by forced_ready_queue_drops (hr_size (wk_ready w));;
  modify (fun w => with_ready (hr_clear (wk_ready w)) w).

(** ** The start *)

(** [configureActors]; the timers start with the configured bound. *)
Definition configureActors (o : Env) (metrics : list (Counter * Z)) : outcome Worker :=
  throw_if (negb (actor_config_valid cfg)) InvalidArgument
  (let! actors := makeActorTable (actor_table_capacity cfg) in
   let! ready := makeHandleRing (mkActorHandle 0 0) (actor_table_capacity cfg) in
   Ret (mkWorker actors ready [] (makeTimerQueue (max_application_timer_bytes_total cfg)) 0 0 0 makeSequenceSource 0 None
          false false false o metrics)).
End scheduler.
Arguments Worker : clear implicits.
Arguments Run M I T Env A : clear implicits.
Arguments Done {M I T Env A} a w.
Arguments Failed {M I T Env A} f.
Arguments W M I T Env A : clear implicits.
Arguments WorkerOutside M I Env {Setup Heap}.
