(* ===== verification/SchedulerInv.v ===== *)
(** * Invariant of the worker's actors

    The invariant of [Scheduler.v]: every live actor is in a state that agrees
    with what it is blocked on, the ready queue holds exactly the queued actors,
    the index of armed actors exactly the armed ones, the totals are the sums
    over the mailboxes, and whoever waits for an answer has a timeout in the
    timer queue.  A small program logic carries it through the methods. *)

From S2P Require Import Prelude FrameCodec Identity Lane TimerQueue HandleRing SlotTable ActorTable Actor Scheduler.

Create HintDb sched discriminated.

Section invariant.
Context {M I T Env : Type} `{Setup : !WorkerSetup M}.
Context `{Heap : !HeapAlgorithms (entry_deadline (M := M))} `{Behaviour : !ActorBehaviour M I T}.
Context `{Outside : !WorkerOutside M I Env}.

Abbreviation Slot := (ActorSlot M I T).
Abbreviation Timers := (TimerQueue (M := M)).
Abbreviation Worker := (Worker M I T Env).
Abbreviation W := (W M I T Env).
Implicit Types (w : Worker) (s : Slot) (q : Timers) (L : list Slot) (R A : list ActorHandle).

(** What the worker relies on: charges are unsigned, the configuration is valid
    and its numbers fit the types they have. *)
Record setup_ok : Prop := {
  su_charge : ∀ m : M, 0 <= chargedBytes m;
  su_valid : actor_config_valid cfg = true;
  su_capacity : actor_table_capacity cfg <= 4294967296;
  su_bytes : max_mailbox_bytes_total cfg <= U64_MAX;
  su_timers : max_application_timer_bytes_total cfg <= U64_MAX
}.

(** ** Program logic

    From a state in [P], a computation ends in [Q], or in a fault that is not
    the worker's own. *)

Definition hoare {B} (P : Worker → Prop) (m : W B) (Q : B → Worker → Prop) : Prop :=
  ∀ w, P w → match m w with Done a w' => Q a w' | Failed f => excused f = true end.

Lemma hoare_ret {B} (P : Worker → Prop) (b : B) Q : (∀ w, P w → Q b w) → hoare P (mret b) Q.
Proof. intros H w Hw. by apply H. Qed.

Lemma hoare_bind {B C} P (m : W B) (k : B → W C) Q Q' :
  hoare P m Q → (∀ b, hoare (Q b) (k b) Q') → hoare P (m ≫= k) Q'.
Proof.
  intros Hm Hk w Hw. specialize (Hm w Hw). unfold mbind, W_bind. destruct (m w) as [b w'|f]; [by apply Hk|done].
Qed.

Lemma hoare_weaken {B} (P P' : Worker → Prop) (m : W B) (Q Q' : B → Worker → Prop) :
  hoare P' m Q' → (∀ w, P w → P' w) → (∀ b w, Q' b w → Q b w) → hoare P m Q.
Proof. intros Hm HP HQ w Hw. specialize (Hm w (HP w Hw)). destruct (m w); auto. Qed.

Lemma hoare_from {B} (P P' : Worker → Prop) (m : W B) Q : (∀ w, P w → P' w) → hoare P' m Q → hoare P m Q.
Proof. intros HP Hm w Hw. by apply Hm, HP. Qed.

Lemma hoare_assoc {B C D} P (m : W B) (f : B → W C) (k : C → W D) Q :
  hoare P (m ≫= fun b => f b ≫= k) Q → hoare P ((m ≫= f) ≫= k) Q.
Proof. intros H w Hw. specialize (H w Hw). unfold mbind, W_bind in *. by destruct (m w). Qed.

Lemma hoare_gets {B} P (f : Worker → B) : hoare P (gets f) (fun b w => b = f w ∧ P w).
Proof. by intros w Hw. Qed.

Lemma hoare_modify P (f : Worker → Worker) (Q : () → Worker → Prop) : (∀ w, P w → Q () (f w)) → hoare P (modify f) Q.
Proof. intros H w Hw. by apply H. Qed.

Lemma hoare_fail {B} P f Q : excused f = true → hoare P (fail f : W B) Q.
Proof. by intros H w Hw. Qed.

(** A pure fact about the state before. *)
Lemma hoare_pre {B} (P : Worker → Prop) (m : W B) Q : (∀ w, P w → hoare (eq w) m Q) → hoare P m Q.
Proof. intros H w Hw. by apply (H w Hw). Qed.

Lemma hoare_and {B} (P : Worker → Prop) (φ : Prop) (m : W B) Q : (φ → hoare P m Q) → hoare (fun w => φ ∧ P w) m Q.
Proof. intros H w [Hf Hw]. by apply H. Qed.

Lemma hoare_read {B C} (P : Worker → Prop) (f : Worker → B) (k : B → W C) Q :
  (∀ b, hoare (fun w => f w = b ∧ P w) (k b) Q) → hoare P (gets f ≫= k) Q.
Proof. intros Hk w Hw. by apply (Hk (f w)). Qed.

(** A part of the state that the computation leaves alone. *)
Lemma hoare_frame {B X} (F : Worker → X) x P (m : W B) Q :
  hoare P m Q → (∀ w b w', m w = Done b w' → F w' = F w) → hoare (fun w => F w = x ∧ P w) m (fun b w => F w = x ∧ Q b w).
Proof. intros Hm HF w [Hx Hw]. specialize (Hm w Hw). destruct (m w) eqn:E; [|done]. split; [|done]. by rewrite (HF _ _ _ E). Qed.

(** ** The invariant of one slot *)

Definition armed (s : Slot) : bool := as_lifecycle_armed s.
Definition queued (s : Slot) : bool := bool_decide (as_state s = ActorQueued).
Definition loads (s : Slot) : Z := Z.b2z (bool_decide (as_state s = ActorLoading)).
Definition slot_messages (s : Slot) : Z := mailbox_size (as_mailbox s).
Definition slot_bytes (s : Slot) : Z := mb_charged_bytes (as_mailbox s).

(** What a blocked actor still waits for. *)
Definition awaiting (s : Slot) : option (time_point * AwaitKey) :=
  match as_blocked s with
  | Some (SyntheticSuspendedCommand k d _ None) | Some (SuspendedDbCommand k d _ None) | Some (ActivationLoad k d) => Some (d, k)
  | _ => None
  end.

(** A completion is stored and waits for the actor's turn. *)
Definition answered (b : BlockedTask T) : bool :=
  match b with
  | SyntheticSuspendedCommand _ _ _ c => has_value c
  | SuspendedDbCommand _ _ _ c => has_value c
  | ActivationLoad _ _ => false
  end.
Definition is_load (b : BlockedTask T) : bool := match b with ActivationLoad _ _ => true | _ => false end.

(** State, instance and blocked task agree; an idle actor has no mail. *)
Definition shape (s : Slot) : Prop :=
  match as_state s with
  | ActorIdle => as_blocked s = None ∧ is_Some (as_instance s) ∧ mb_messages (as_mailbox s) = []
  | ActorQueued => is_Some (as_instance s) ∧ (∀ b, as_blocked s = Some b → answered b = true)
  | ActorRunning => as_blocked s = None ∧ is_Some (as_instance s)
  | ActorSuspended => is_Some (as_instance s) ∧ ∃ b, as_blocked s = Some b ∧ answered b = false ∧ is_load b = false
  | ActorLoading => as_instance s = None ∧ ∃ b, as_blocked s = Some b ∧ is_load b = true
  | ActorStopping => as_blocked s = None ∧ is_Some (as_instance s)
  end.

Record mailbox_ok (s : Slot) : Prop := {
  mo_bytes : slot_bytes s = zsum chargedBytes (mb_messages (as_mailbox s));
  mo_messages_max : slot_messages s <= max_mailbox_messages_per_actor cfg;
  mo_bytes_max : slot_bytes s <= max_mailbox_bytes_per_actor cfg
}.

(** Whoever waits has a timeout in the queue.  (The 64-bit counter of operations
    wraps, and a key with operation zero is accepted by nobody.) *)
Definition timeout_pending (s : Slot) (q : Timers) : Prop :=
  ∀ d k, awaiting s = Some (d, k) →
    await_actor k = as_key s ∧ await_incarnation k = as_incarnation s ∧
    (isValid (await_operation k) = true → mkTimerEntry d (AwaitTimeout k) ∈ tq_heap q).

Lemma mailbox_ok_same s s' : mailbox_ok s → as_mailbox s' = as_mailbox s → mailbox_ok s'.
Proof. intros [H1 H2 H3] E. unfold slot_bytes, slot_messages in *. constructor; unfold slot_bytes, slot_messages; by rewrite E. Qed.

Lemma timeout_pending_same s s' q q' :
  timeout_pending s q → as_blocked s' = as_blocked s → as_key s' = as_key s → as_incarnation s' = as_incarnation s →
  (∀ e, e ∈ tq_heap q → e ∈ tq_heap q') → timeout_pending s' q'.
Proof.
  intros H E1 E2 E3 Hq d k Ha. unfold awaiting in Ha. rewrite E1 in Ha. destruct (H d k Ha) as (? & ? & ?). rewrite E2, E3. auto.
Qed.

Lemma timeout_pending_none s q : awaiting s = None → timeout_pending s q.
Proof. intros H d k. by rewrite H. Qed.

(** The actor whose turn it is: its slot, its incarnation and its state, running
    or, once it has asked to stop, stopping. *)
Definition running : Type := option (nat * (ActorIncarnation * ActorState)).
Definition run_state (r : running) (s : Slot) : Prop :=
  match r with
  | Some (i, st) =>
      if decide (as_slot_index s = i)
      then as_state s = st.2 ∧ as_incarnation s = st.1 ∧ (st.2 = ActorRunning ∨ st.2 = ActorStopping) else as_state s ≠ ActorRunning
  | None => as_state s ≠ ActorRunning
  end.

Record slot_good (r : running) (q : Timers) (s : Slot) : Prop := {
  sg_mailbox : mailbox_ok s;
  sg_shape : shape s;
  sg_timeout : timeout_pending s q;
  sg_run : run_state r s
}.

(** ** The invariant of the live slots *)

Definition handles_where (p : Slot → bool) (L : list Slot) : list ActorHandle := entry_handle <$> List.filter p L.

Record good (r : running) (q : Timers) (L : list Slot) (R A : list ActorHandle) (m b l : Z) : Prop := {
  g_slots : Forall (slot_good r q) L;
  g_ready : R ≡ₚ handles_where queued L;
  g_armed : A ≡ₚ handles_where armed L;
  g_messages : m = zsum slot_messages L;
  g_bytes : b = zsum slot_bytes L;
  g_loading : l = zsum loads L
}.

Lemma zsum_perm {B} (f : B → Z) l l' : l ≡ₚ l' → zsum f l = zsum f l'.
Proof. induction 1; simpl; lia. Qed.

Lemma filter_perm {B} (p : B → bool) l l' : l ≡ₚ l' → List.filter p l ≡ₚ List.filter p l'.
Proof.
  induction 1 as [|x l l' H IH|x y l|l l' l'' _ IH _ IH']; simpl; [done| | |by rewrite IH].
  - destruct (p x); by rewrite IH.
  - destruct (p x), (p y); try done. apply perm_swap.
Qed.

Lemma good_perm r q L L' R R' A A' m b l :
  L ≡ₚ L' → R ≡ₚ R' → A ≡ₚ A' → good r q L R A m b l → good r q L' R' A' m b l.
Proof.
  intros HL HR HA [H1 H2 H3 H4 H5 H6]. unfold handles_where in *. constructor.
  - by rewrite <-HL.
  - unfold handles_where. by rewrite <-HR, H2, (filter_perm _ _ _ HL).
  - unfold handles_where. by rewrite <-HA, H3, (filter_perm _ _ _ HL).
  - by rewrite H4, (zsum_perm _ _ _ HL).
  - by rewrite H5, (zsum_perm _ _ _ HL).
  - by rewrite H6, (zsum_perm _ _ _ HL).
Qed.

(** One slot taken apart from the others. *)
Definition here (p : Slot → bool) (s : Slot) : list ActorHandle := if p s then [entry_handle s] else [].

Lemma handles_where_cons p s L : handles_where p (s :: L) = here p s ++ handles_where p L.
Proof. unfold handles_where, here. simpl. by destruct (p s). Qed.

Lemma good_cons r q s L R A m b l :
  slot_good r q s → good r q L R A (m - slot_messages s) (b - slot_bytes s) (l - loads s) →
  good r q (s :: L) (here queued s ++ R) (here armed s ++ A) m b l.
Proof.
  intros Hs [H1 H2 H3 H4 H5 H6]. constructor; rewrite ?handles_where_cons, ?H2, ?H3; simpl; try done; try lia. by constructor.
Qed.

Lemma good_uncons r q s L R A m b l :
  good r q (s :: L) R A m b l →
  slot_good r q s ∧ R ≡ₚ here queued s ++ handles_where queued L ∧ A ≡ₚ here armed s ++ handles_where armed L ∧
  good r q L (handles_where queued L) (handles_where armed L) (m - slot_messages s) (b - slot_bytes s) (l - loads s).
Proof.
  intros [[Hs HL]%Forall_cons H2 H3 H4 H5 H6]. rewrite handles_where_cons in *. simpl in *. split_and!; try done.
  constructor; try done; lia.
Qed.

(** ** The invariant of the worker *)

Record bounds_ok (m b l : Z) : Prop := {
  bo_messages : m <= max_mailbox_messages_total cfg;
  bo_bytes : b <= max_mailbox_bytes_total cfg;
  bo_loading : l <= max_concurrent_loading cfg
}.

Definition committed_at (i : nat) (s : Slot) (w : Worker) : Prop := at_slots (wk_actors w) !! i = Some (mkSlot (Some s) false true).

Record sched_ok (r : running) (turn : option Z) (plain : nat) (tokens : list Z) (w : Worker) : Prop := {
  k_table : table_ok (wk_actors w);
  k_capacity : st_capacity (at_table (wk_actors w)) = actor_table_capacity cfg;
  k_ready : ∃ R, handles_repr (actor_table_capacity cfg) (wk_ready w) R ∧
              good r (wk_timers w) (actives (at_table (wk_actors w))) R (wk_armed w) (wk_messages w) (wk_bytes w) (wk_loading w);
  k_bounds : bounds_ok (wk_messages w) (wk_bytes w) (wk_loading w);
  k_timers : timers_ok chargedBytes plain tokens (wk_timers w);
  k_turn : wk_active_turn w = turn;
  k_current : ∀ i st, r = Some (i, st) → ∃ s, committed_at i s w
}.

(** ** Steps *)

Lemma bind_Done {B C} (m : W B) (k : B → W C) w b w' : m w = Done b w' → (m ≫= k) w = k b w'.
Proof. intros H. unfold mbind, W_bind. by rewrite H. Qed.

(** The slot behind a pointer, reserved or committed. *)
Definition points (i : nat) (s : Slot) (w : Worker) : Prop := deref i (wk_actors w) = Some s.

Lemma committed_points i s w : committed_at i s w → points i s w.
Proof. unfold committed_at, points, deref. by intros ->. Qed.

Lemma slot_eq i s w : points i s w → slot i w = Done s w.
Proof. intros H. unfold slot. rewrite (bind_Done _ _ w (Some s) w); [done|]. unfold gets. by rewrite H. Qed.

Lemma points_assign i s s' w : points i s w → points i s' (with_actors (assign i s' (wk_actors w)) w).
Proof.
  unfold points, deref, assign, at_slots. intros (x & Hx & He)%bind_Some. cbn. unfold write. rewrite Hx. cbn.
  by rewrite list_lookup_insert_eq by (by eapply lookup_lt_Some).
Qed.

Lemma committed_assign i s s' w : committed_at i s w → committed_at i s' (with_actors (assign i s' (wk_actors w)) w).
Proof.
  unfold committed_at, assign, at_slots. intros Hx. cbn. unfold write. rewrite Hx. cbn.
  by rewrite list_lookup_insert_eq by (by eapply lookup_lt_Some).
Qed.

Lemma update_eq i s f w : points i s w → update i f w = Done () (with_actors (assign i (f s) (wk_actors w)) w).
Proof. intros H. unfold update. by rewrite (bind_Done _ _ _ _ _ (slot_eq _ _ _ H)). Qed.

Lemma assign_assign i (s1 s2 : Slot) (t : ActorTable Slot) : assign i s2 (assign i s1 t) = assign i s2 t.
Proof.
  unfold assign, write. cbn. destruct (st_slots (at_table t) !! i) as [x|] eqn:Hx; [|by rewrite Hx].
  cbn. rewrite list_lookup_insert_eq by (by eapply lookup_lt_Some). cbn. by rewrite list_insert_insert_eq.
Qed.

(** States that differ only where the invariant does not look. *)
Record same_actors w w' : Prop := {
  sm_actors : wk_actors w' = wk_actors w;
  sm_ready : wk_ready w' = wk_ready w;
  sm_armed : wk_armed w' = wk_armed w;
  sm_timers : wk_timers w' = wk_timers w;
  sm_messages : wk_messages w' = wk_messages w;
  sm_bytes : wk_bytes w' = wk_bytes w;
  sm_loading : wk_loading w' = wk_loading w;
  sm_turn : wk_active_turn w' = wk_active_turn w
}.

Lemma sched_ok_same r turn plain tokens w w' : same_actors w w' → sched_ok r turn plain tokens w → sched_ok r turn plain tokens w'.
Proof.
  intros [H1 H2 H3 H4 H5 H6 H7 H8] [K1 K2 K3 K4 K5 K6 K7]. constructor; rewrite ?H1, ?H2, ?H3, ?H4, ?H5, ?H6, ?H7, ?H8; try done.
  intros i st Hr. destruct (K7 i st Hr) as [s Hs]. exists s. unfold committed_at in *. by rewrite H1.
Qed.

(** ** One slot changes *)

Definition same_identity (s s' : Slot) : Prop :=
  as_key s' = as_key s ∧ as_incarnation s' = as_incarnation s ∧ as_slot_index s' = as_slot_index s.

Lemma same_handle s s' : same_identity s s' → entry_handle s' = entry_handle s.
Proof. intros (H1 & H2 & H3). unfold entry_handle, entry_index, entry_incarnation, ActorSlot_entry. by rewrite H2, H3. Qed.

Lemma assign_table_ok i s s' (t : ActorTable Slot) :
  table_ok t → at_slots t !! i = Some (mkSlot (Some s) false true) → same_identity s s' →
  table_ok (assign i s' t) ∧ st_capacity (at_table (assign i s' t)) = st_capacity (at_table t).
Proof.
  intros Hok Hi (H1 & H2 & H3). destruct (assign_ok t i _ s s' Hok Hi eq_refl H1 H2 H3) as (Ha & _ & Hc). done.
Qed.

Lemma other_keys (t : ActorTable Slot) i s rest :
  table_ok t → at_slots t !! i = Some (mkSlot (Some s) false true) → actives (at_table t) ≡ₚ s :: rest →
  Forall (fun x => as_key x ≠ as_key s) rest.
Proof.
  intros Hok Hi Hp. pose proof (actives_other _ _ _ _ _ Hok Hi eq_refl Hp) as Ho. rewrite Forall_forall in *. intros x Hx Heq.
  assert (Hin : x ∈ actives (at_table t)) by (rewrite Hp; by right).
  apply actives_elem in Hin as (j & y & Hj & Hc & He). apply (Ho x Hx). rewrite (tk_index _ Hok _ _ _ Hj He).
  assert (H1 : at_key_to_slot t !! as_key s = Some j) by (apply (tk_keys _ Hok); eauto).
  assert (H2 : at_key_to_slot t !! as_key s = Some i) by (apply (tk_keys _ Hok); eauto). congruence.
Qed.

Lemma sched_ok_assign r r' turn turn' plain plain' tokens tokens' w w' i s s' :
  sched_ok r turn plain tokens w → committed_at i s w → same_identity s s' →
  wk_actors w' = assign i s' (wk_actors w) →
  slot_good r' (wk_timers w') s' →
  (∀ x, as_slot_index x ≠ i → as_key x ≠ as_key s → slot_good r (wk_timers w) x → slot_good r' (wk_timers w') x) →
  (∀ R X, handles_repr (actor_table_capacity cfg) (wk_ready w) R → R ≡ₚ here queued s ++ X →
    ∃ R', handles_repr (actor_table_capacity cfg) (wk_ready w') R' ∧ R' ≡ₚ here queued s' ++ X) →
  (∀ X, wk_armed w ≡ₚ here armed s ++ X → wk_armed w' ≡ₚ here armed s' ++ X) →
  wk_messages w' = wk_messages w - slot_messages s + slot_messages s' →
  wk_bytes w' = wk_bytes w - slot_bytes s + slot_bytes s' →
  wk_loading w' = wk_loading w - loads s + loads s' →
  bounds_ok (wk_messages w') (wk_bytes w') (wk_loading w') →
  timers_ok chargedBytes plain' tokens' (wk_timers w') → wk_active_turn w' = turn' →
  (∀ j st, r' = Some (j, st) → j = i ∨ ∃ st0, r = Some (j, st0)) →
  sched_ok r' turn' plain' tokens' w'.
Proof.
  intros Hok Hi Hid Ha Hs' Hrest Hready Harmed Hm Hb Hl Hbo Ht Htu Hr'.
  destruct Hok as [K1 K2 (R & KR & KG) K4 K5 K6 K7]. unfold committed_at in Hi.
  destruct (assign_table_ok i s s' _ K1 Hi Hid) as [T1 T2].
  destruct (actives_assign (wk_actors w) i _ s s' Hi eq_refl eq_refl) as (rest & P1 & P2).
  pose proof (actives_other _ _ _ _ _ K1 Hi eq_refl P1) as Hoth. pose proof (other_keys _ _ _ _ K1 Hi P1) as Hkey.
  apply (good_perm _ _ _ _ R R _ _ _ _ _ P1 (reflexivity _) (reflexivity _)) in KG.
  apply good_uncons in KG as (G1 & G2 & G3 & G4). destruct (Hready R _ KR G2) as (R' & HR' & HRp).
  constructor; rewrite ?Ha; try done; [by rewrite T2| |].
  - exists R'. split; [done|].
    eapply (good_perm _ _ (s' :: rest) _ (here queued s' ++ handles_where queued rest) _ (here armed s' ++ handles_where armed rest)).
    + by rewrite P2.
    + by rewrite HRp.
    + by rewrite (Harmed _ G3).
    + apply good_cons; [done|]. destruct G4 as [Q1 Q2 Q3 Q4 Q5 Q6]. constructor; try done; try lia.
      rewrite Forall_forall in *. intros x Hx. apply Hrest; [by apply Hoth|by apply Hkey|by apply Q1].
  - intros j st Hj. unfold committed_at. rewrite Ha. destruct (decide (j = i)) as [->|Hne].
    + exists s'. pose proof (committed_assign i s s' w Hi) as Hc. unfold committed_at in Hc. exact Hc.
    + destruct (Hr' j st Hj) as [?|[st0 Hst0]]; [done|]. destruct (K7 j st0 Hst0) as [x Hx]. exists x.
      unfold committed_at, assign, at_slots, write in *. cbn. rewrite Hi. cbn. by rewrite list_lookup_insert_ne by done.
Qed.

(** ** Finding slots *)

Lemma flags_committed (t : ActorTable Slot) i x s :
  table_ok t → at_slots t !! i = Some x → slot_committed x = true → slot_entry x = Some s → at_slots t !! i = Some (mkSlot (Some s) false true).
Proof.
  intros Hok Hi Hc He. rewrite Hi. destruct (so_slots _ _ (tk_slots _ Hok) _ _ Hi) as [Hf _ _].
  destruct x as [e [] []]; simplify_eq/=; done.
Qed.

Lemma find_key_committed r turn plain tokens w k i :
  sched_ok r turn plain tokens w → find_key k (wk_actors w) = Some i → ∃ s, committed_at i s w ∧ as_key s = k.
Proof.
  intros Hok Hf. destruct (find_key_Some k _ i (k_table _ _ _ _ _ Hok) Hf) as (x & s & Hx & Hc & He & Hk).
  exists s. split; [|done]. by eapply flags_committed; [apply (k_table _ _ _ _ _ Hok)|..].
Qed.

Lemma find_handle_committed r turn plain tokens w h i :
  sched_ok r turn plain tokens w → find_handle h (wk_actors w) = Some i →
  ∃ s, committed_at i s w ∧ as_incarnation s = ah_incarnation h ∧ (0 <= ah_slot_index h → entry_handle s = h).
Proof.
  intros Hok Hf. destruct (find_handle_Some h _ i (k_table _ _ _ _ _ Hok) Hf) as (x & s & Hx & Hc & He & Hg & Hh).
  exists s. split; [|done]. by eapply flags_committed; [apply (k_table _ _ _ _ _ Hok)|..].
Qed.

Lemma committed_handle r turn plain tokens w i s :
  sched_ok r turn plain tokens w → committed_at i s w → find_handle (entry_handle s) (wk_actors w) = Some i.
Proof. intros Hok Hi. by eapply (committed_found _ _ _ s (k_table _ _ _ _ _ Hok) Hi). Qed.

Lemma committed_index r turn plain tokens w i s : sched_ok r turn plain tokens w → committed_at i s w → as_slot_index s = i.
Proof. intros Hok Hi. exact (tk_index _ (k_table _ _ _ _ _ Hok) _ _ _ Hi eq_refl). Qed.

Lemma committed_unique i s s' w : committed_at i s w → committed_at i s' w → s' = s.
Proof. unfold committed_at. congruence. Qed.

Lemma committed_good r turn plain tokens w i s :
  sched_ok r turn plain tokens w → committed_at i s w → slot_good r (wk_timers w) s.
Proof.
  intros [K1 K2 (R & KR & KG) K4 K5 K6 K7] Hi. pose proof (g_slots _ _ _ _ _ _ _ _ KG) as HF. rewrite Forall_forall in HF.
  apply HF, actives_elem. eexists i, _. split; [exact Hi|done].
Qed.

(** The actor whose turn it is. *)
Lemma current_slot i g st turn plain tokens w :
  sched_ok (Some (i, (g, st))) turn plain tokens w →
  ∃ s, committed_at i s w ∧ entry_handle s = mkActorHandle (u32 (Z.of_nat i)) g ∧ as_state s = st ∧
    (st = ActorRunning ∨ st = ActorStopping) ∧ as_blocked s = None ∧ is_Some (as_instance s).
Proof.
  intros Hok. destruct (k_current _ _ _ _ _ Hok i (g, st) eq_refl) as [s Hs]. exists s.
  pose proof (committed_index _ _ _ _ _ _ _ Hok Hs) as Hx. pose proof (committed_good _ _ _ _ _ _ _ Hok Hs) as [_ Hsh _ Hr].
  unfold run_state in Hr. rewrite decide_True in Hr by done. destruct Hr as (Hst & Hg & Hor). cbn in Hst, Hg, Hor. unfold shape in Hsh.
  rewrite Hst in Hsh. assert (entry_handle s = mkActorHandle (u32 (Z.of_nat i)) g) by (unfold entry_handle; cbn; by rewrite Hx, Hg).
  destruct Hor as [->| ->]; naive_solver.
Qed.

(** ** Room in the ready queue *)

Lemma filter_length_le {B} (p : B → bool) l : (length (List.filter p l) <= length l)%nat.
Proof. induction l as [|x l IH]; simpl; [lia|]. destruct (p x); simpl; lia. Qed.

Lemma ready_room r turn plain tokens w i s R :
  sched_ok r turn plain tokens w → committed_at i s w → queued s = false →
  handles_repr (actor_table_capacity cfg) (wk_ready w) R → R ≡ₚ handles_where queued (actives (at_table (wk_actors w))) →
  zlen R < actor_table_capacity cfg.
Proof.
  intros [K1 K2 _ _ _ _ _] Hi Hq HR HP.
  destruct (actives_assign (wk_actors w) i _ s s Hi eq_refl eq_refl) as (rest & P1 & _).
  pose proof (length_actives _ _ (tk_slots _ K1)) as Hlen. pose proof (occupied_bound _ _ (tk_slots _ K1)) as (Hr0 & _ & Hb).
  unfold handles_where in HP. rewrite (filter_perm _ _ _ P1) in HP. simpl in HP. rewrite Hq in HP.
  apply Permutation_length in HP. rewrite length_fmap in HP. pose proof (filter_length_le queued rest).
  unfold zlen in *. rewrite (Permutation_length P1) in Hlen. simpl in Hlen. lia.
Qed.

Lemma enqueue_actor_eq i s w R :
  points i s w → handles_repr (actor_table_capacity cfg) (wk_ready w) R → zlen R < actor_table_capacity cfg →
  enqueue_actor i w = Done () (with_ready (enqueue (entry_handle s) (wk_ready w))
                                 (with_actors (assign i (set_state ActorQueued s) (wk_actors w)) w)).
Proof.
  intros Hi HR Hlt. unfold enqueue_actor. rewrite (bind_Done _ _ _ _ _ (update_eq _ _ _ _ Hi)).
  rewrite (bind_Done _ _ _ _ _ (slot_eq _ _ _ (points_assign _ _ (set_state ActorQueued s) _ Hi))).
  unfold push_ready, gets, mbind, W_bind. cbn [wk_ready with_actors]. rewrite (ready_push_repr HR).
  destruct (Z.eqb_spec (zlen R) (actor_table_capacity cfg)); [lia|]. done.
Qed.

(** Entering the ready queue, as [sched_ok_assign] asks for it. *)
Lemma ready_enters w (q' : HandleRing ActorHandle) s s' :
  q' = enqueue (entry_handle s') (wk_ready w) → queued s = false → queued s' = true →
  (∀ R, handles_repr (actor_table_capacity cfg) (wk_ready w) R → zlen R < actor_table_capacity cfg) →
  ∀ R X, handles_repr (actor_table_capacity cfg) (wk_ready w) R → R ≡ₚ here queued s ++ X →
    ∃ R', handles_repr (actor_table_capacity cfg) q' R' ∧ R' ≡ₚ here queued s' ++ X.
Proof.
  intros -> Hq Hq' Hroom R X HR HP. exists (R ++ [entry_handle s']). split; [apply (enqueue_repr HR), Hroom, HR|].
  unfold here in *. rewrite Hq in HP. rewrite Hq'. rewrite HP. simpl. by rewrite Permutation_app_comm.
Qed.

Lemma repr_unique {B} c (q : HandleRing B) l l' : handles_repr c q l → handles_repr c q l' → zlen l = zlen l'.
Proof. intros H H'. by rewrite <-(hrr_size _ _ _ H), <-(hrr_size _ _ _ H'). Qed.

Lemma ready_room' r turn plain tokens w i s :
  sched_ok r turn plain tokens w → committed_at i s w → queued s = false →
  ∀ R, handles_repr (actor_table_capacity cfg) (wk_ready w) R → zlen R < actor_table_capacity cfg.
Proof.
  intros Hok Hi Hq R HR. destruct (k_ready _ _ _ _ _ Hok) as (R0 & HR0 & HG). rewrite (repr_unique _ _ _ _ HR HR0).
  eapply ready_room; [done|done|done|done|]. apply (g_ready _ _ _ _ _ _ _ _ HG).
Qed.

Lemma ready_stays w (q' : HandleRing ActorHandle) s s' :
  q' = wk_ready w → queued s' = queued s → entry_handle s' = entry_handle s →
  ∀ R X, handles_repr (actor_table_capacity cfg) (wk_ready w) R → R ≡ₚ here queued s ++ X →
    ∃ R', handles_repr (actor_table_capacity cfg) q' R' ∧ R' ≡ₚ here queued s' ++ X.
Proof. intros -> Hq Hh R X HR HP. exists R. split; [done|]. unfold here in *. by rewrite Hq, Hh. Qed.

(** ** Stages

    While a method works on one slot the invariant may be broken.  A stage says
    what has become of the state it started from: the slot, the queues and the
    accounts. *)

Record Stage := mkStage {
  stg_slot : Slot;
  stg_ready : HandleRing ActorHandle;
  stg_armed : list ActorHandle;
  stg_timers : Timers;
  stg_messages : Z;
  stg_bytes : Z;
  stg_loading : Z;
  stg_turn : option Z
}.
Implicit Types g : Stage.

Definition stage_of (s : Slot) w : Stage :=
  mkStage s (wk_ready w) (wk_armed w) (wk_timers w) (wk_messages w) (wk_bytes w) (wk_loading w) (wk_active_turn w).

Record staged (w0 : Worker) (i : nat) (g : Stage) (w : Worker) : Prop := {
  se_actors : wk_actors w = assign i (stg_slot g) (wk_actors w0);
  se_rest : stage_of (stg_slot g) w = g
}.

Definition to_slot (f : Slot → Slot) g : Stage :=
  mkStage (f (stg_slot g)) (stg_ready g) (stg_armed g) (stg_timers g) (stg_messages g) (stg_bytes g) (stg_loading g) (stg_turn g).

Lemma assign_same i (s : Slot) (t : ActorTable Slot) : deref i t = Some s → assign i s t = t.
Proof.
  destruct t as [[l rc ac g] fr km]. unfold deref, assign, at_slots, write. cbn. intros ([e a b] & Hi & He)%bind_Some. cbn in He. subst e.
  rewrite Hi. cbn. unfold set_slots. cbn. by rewrite list_insert_id.
Qed.

Lemma staged_init w i s : points i s w → staged w i (stage_of s w) w.
Proof. intros Hi. constructor; [|done]. cbn. by rewrite assign_same. Qed.

Section stages.
Context {w0 : Worker} {i : nat} {s0 : Slot} (H0 : points i s0 w0).

Lemma staged_points g w : staged w0 i g w → points i (stg_slot g) w.
Proof using H0.
  intros [E _]. pose proof (points_assign i s0 (stg_slot g) w0 H0) as H. unfold points in *. by rewrite E.
Qed.

Lemma stage_slot {B} g (k : Slot → W B) Q : hoare (staged w0 i g) (k (stg_slot g)) Q → hoare (staged w0 i g) (slot i ≫= k) Q.
Proof using H0.
  intros Hk w Hw. rewrite (bind_Done _ _ _ _ _ (slot_eq _ _ _ (staged_points _ _ Hw))). by apply Hk.
Qed.

Lemma stage_update {B} g f (k : () → W B) Q :
  hoare (staged w0 i (to_slot f g)) (k ()) Q → hoare (staged w0 i g) (update i f ≫= k) Q.
Proof using H0.
  intros Hk w Hw. rewrite (bind_Done _ _ _ _ _ (update_eq _ _ _ _ (staged_points _ _ Hw))). apply Hk.
  destruct Hw as [E1 E2]. constructor; cbn; [|by rewrite <-E2]. by rewrite E1, assign_assign.
Qed.

Lemma stage_put {B} g s (k : () → W B) Q :
  hoare (staged w0 i (to_slot (fun _ => s) g)) (k ()) Q → hoare (staged w0 i g) (put i s ≫= k) Q.
Proof using H0.
  intros Hk w Hw. apply Hk. destruct Hw as [E1 E2]. constructor; cbn; [|by rewrite <-E2]. by rewrite E1, assign_assign.
Qed.

(** A step that touches neither the slot nor the accounts. *)
Lemma stage_skip {B C} g (m : W B) (k : B → W C) Q :
  (∀ w, ∃ b w', m w = Done b w' ∧ same_actors w w') → (∀ b, hoare (staged w0 i g) (k b) Q) → hoare (staged w0 i g) (m ≫= k) Q.
Proof.
  intros Hm Hk w [E1 E2]. destruct (Hm w) as (b & w' & Hb & Hs). rewrite (bind_Done _ _ _ _ _ Hb). apply Hk.
  destruct Hs. constructor; [congruence|].
  etransitivity; [|exact E2]. unfold stage_of. congruence.
Qed.

(** A step on the rest of the state. *)
Lemma stage_modify {B} g g' (f : Worker → Worker) (k : () → W B) Q :
  (∀ w, wk_actors (f w) = wk_actors w) → stg_slot g' = stg_slot g →
  (∀ w, stage_of (stg_slot g) w = g → stage_of (stg_slot g') (f w) = g') →
  hoare (staged w0 i g') (k ()) Q → hoare (staged w0 i g) (modify f ≫= k) Q.
Proof.
  intros Ha Hs Hf Hk w [E1 E2]. apply Hk. constructor; [by rewrite Ha, Hs|]. by apply Hf.
Qed.

Lemma stage_end {B} g (b : B) (Q : B → Worker → Prop) : (∀ w, staged w0 i g w → Q b w) → hoare (staged w0 i g) (mret b) Q.
Proof. apply hoare_ret. Qed.

Lemma stage_loading {B} g n (k : () → W B) Q :
  0 <= stg_loading g + n →
  hoare (staged w0 i (mkStage (stg_slot g) (stg_ready g) (stg_armed g) (stg_timers g) (stg_messages g) (stg_bytes g)
                        (stg_loading g + n) (stg_turn g))) (k ()) Q →
  hoare (staged w0 i g) (add_loading n ≫= k) Q.
Proof.
  intros Hn Hk w [E1 E2]. unfold add_loading, gets, mbind, W_bind. assert (El : wk_loading w = stg_loading g) by (by rewrite <-E2).
  cbn. rewrite El. destruct (Z.ltb_spec (stg_loading g + n) 0); [lia|]. apply Hk. constructor; cbn; [done|].
  unfold stage_of in *. rewrite <-E2. done.
Qed.

Lemma stage_gets {B C} g (f : Worker → B) (k : B → W C) Q :
  (∀ b, hoare (fun w => f w = b ∧ staged w0 i g w) (k b) Q) → hoare (staged w0 i g) (gets f ≫= k) Q.
Proof. intros Hk w Hw. by apply (Hk (f w)). Qed.
End stages.

Lemma stage_find {B} {w0 : Worker} {i : nat} {s0 : Slot} g h (k : option nat → W B) Q :
  committed_at i s0 w0 → table_ok (wk_actors w0) → same_identity s0 (stg_slot g) → entry_handle s0 = h →
  hoare (staged w0 i g) (k (Some i)) Q → hoare (staged w0 i g) (gets (fun w => find_handle h (wk_actors w)) ≫= k) Q.
Proof.
  intros Hc0 Hok Hid <- Hk w Hw. assert (Hf : find_handle (entry_handle s0) (wk_actors w) = Some i).
  { rewrite <-(same_handle _ _ Hid). destruct Hw as [E _]. rewrite E.
    pose proof (committed_assign i s0 (stg_slot g) w0 Hc0) as Hc. destruct (assign_table_ok i s0 _ _ Hok Hc0 Hid) as [T1 _].
    by eapply (committed_found _ _ _ _ T1 Hc). }
  unfold gets, mbind, W_bind. rewrite Hf. by apply Hk.
Qed.

Lemma skip_count_by c n : ∀ w : Worker, ∃ b w', count_by c n w = Done b w' ∧ same_actors w w'.
Proof. intros w. by eexists _, _. Qed.

Lemma skip_count c : ∀ w : Worker, ∃ b w', count c w = Done b w' ∧ same_actors w w'.
Proof. apply skip_count_by. Qed.

Lemma skip_now : ∀ w : Worker, ∃ b w', now w = Done b w' ∧ same_actors w w'.
Proof. intros w. unfold now. destruct (steady_now _) as [t o]. by eexists _, _. Qed.

Lemma skip_operation : ∀ w : Worker, ∃ b w', next_operation w = Done b w' ∧ same_actors w w'.
Proof. intros w. unfold next_operation. destruct (sequence_next _) as [t o]. by eexists _, _. Qed.

Lemma skip_outside {B} (f : Env → B * Env) : ∀ w : Worker, ∃ b w', use_outside f w = Done b w' ∧ same_actors w w'.
Proof. intros w. unfold use_outside. destruct (f _) as [t o]. by eexists _, _. Qed.

Lemma skip_tell (f : Env → Env) : ∀ w : Worker, ∃ b w', tell_outside f w = Done b w' ∧ same_actors w w'.
Proof. intros w. by eexists _, _. Qed.

Lemma skip_gets {B} (f : Worker → B) : ∀ w : Worker, ∃ b w', gets f w = Done b w' ∧ same_actors w w'.
Proof. intros w. by eexists _, _. Qed.

Lemma skip_ret {B} (b : B) : ∀ w : Worker, ∃ c w', (mret b : W B) w = Done c w' ∧ same_actors w w'.
Proof. intros w. by eexists _, _. Qed.

Lemma skip_if {B} (c : bool) (m m' : W B) :
  (∀ w, ∃ b w', m w = Done b w' ∧ same_actors w w') → (∀ w, ∃ b w', m' w = Done b w' ∧ same_actors w w') →
  ∀ w, ∃ b w', (if c then m else m') w = Done b w' ∧ same_actors w w'.
Proof. by destruct c. Qed.

Lemma skip_bind {B C} (m : W B) (k : B → W C) :
  (∀ w, ∃ b w', m w = Done b w' ∧ same_actors w w') → (∀ b w, ∃ c w', k b w = Done c w' ∧ same_actors w w') →
  ∀ w, ∃ c w', (m ≫= k) w = Done c w' ∧ same_actors w w'.
Proof.
  intros Hm Hk w. destruct (Hm w) as (b & w1 & Hb & S1). destruct (Hk b w1) as (c & w2 & Hc & S2). exists c, w2.
  split; [by rewrite (bind_Done _ _ _ _ _ Hb)|]. destruct S1, S2. constructor; congruence.
Qed.
End invariant.

#[export] Hint Resolve skip_count_by skip_count skip_now skip_operation skip_outside skip_tell skip_gets skip_ret : sched.
#[export] Hint Resolve skip_if skip_bind : sched.
