(* ===== verification/SchedulerOps.v ===== *)
(** * The worker's operations keep its invariant

    Delivery, removal and activation of actors ([Scheduler.v]) keep [sched_ok]
    and end without a fault of the worker's own. *)

From S2P Require Import Prelude FrameCodec Identity Lane TimerQueue HandleRing SlotTable ActorTable Actor Scheduler SchedulerInv.

Create HintDb keeps discriminated.

Section operations.
Context {M I T Env : Type} `{Setup : !WorkerSetup M}.
Context `{Heap : !HeapAlgorithms (entry_deadline (M := M))} `{Behaviour : !ActorBehaviour M I T}.
Context `{Outside : !WorkerOutside M I Env}.
Context (Hsu : setup_ok).

Abbreviation Slot := (ActorSlot M I T).
Abbreviation Timers := (TimerQueue (M := M)).
Abbreviation Worker := (Worker M I T Env).
Abbreviation W := (W M I T Env).
Implicit Types (w : Worker) (s : Slot) (q : Timers) (r : running).

(** ** Steps that the invariant does not see *)

Lemma hoare_same {B} (P : Worker → Prop) (m : W B) :
  (∀ w, ∃ b w', m w = Done b w' ∧ same_actors w w') → (∀ w w', same_actors w w' → P w → P w') → hoare P m (fun _ => P).
Proof. intros Hm HP w Hw. destruct (Hm w) as (b & w' & -> & Hs). by eapply HP. Qed.

Section keep.
Context (r : running) (turn : option Z) (plain : nat) (tokens : list Z).
Let Inv : Worker → Prop := sched_ok r turn plain tokens.

Lemma count_by_ok c n : hoare Inv (count_by c n) (fun _ => Inv).
Proof. apply hoare_same; [by intros w; eexists _, _|]. intros w w' Hs. by apply sched_ok_same. Qed.

Lemma count_ok c : hoare Inv (count c) (fun _ => Inv).
Proof. apply count_by_ok. Qed.

Lemma now_ok : hoare Inv now (fun _ => Inv).
Proof.
  apply hoare_same; [|intros w w' Hs; by apply sched_ok_same].
  intros w. unfold now. destruct (steady_now _) as [t o]. by eexists _, _.
Qed.

Lemma next_operation_ok : hoare Inv next_operation (fun _ => Inv).
Proof.
  apply hoare_same; [|intros w w' Hs; by apply sched_ok_same].
  intros w. unfold next_operation. destruct (sequence_next _) as [t o]. by eexists _, _.
Qed.

Lemma use_outside_ok {B} (f : Env → B * Env) : hoare Inv (use_outside f) (fun _ => Inv).
Proof.
  apply hoare_same; [|intros w w' Hs; by apply sched_ok_same].
  intros w. unfold use_outside. destruct (f _) as [t o]. by eexists _, _.
Qed.

Lemma tell_outside_ok (f : Env → Env) : hoare Inv (tell_outside f) (fun _ => Inv).
Proof. apply hoare_same; [by intros w; eexists _, _|]. intros w w' Hs. by apply sched_ok_same. Qed.

Lemma gets_ok {B} (f : Worker → B) : hoare Inv (gets f) (fun _ => Inv).
Proof. eapply hoare_weaken; [apply hoare_gets|done|by intros b w [_ ?]]. Qed.

Lemma ret_ok {B} (b : B) : hoare Inv (mret b) (fun _ => Inv).
Proof. by apply hoare_ret. Qed.

Lemma fail_ok {B} f : excused f = true → hoare Inv (fail f : W B) (fun _ => Inv).
Proof. apply hoare_fail. Qed.

Lemma bind_ok {B C} (m : W B) (k : B → W C) :
  hoare Inv m (fun _ => Inv) → (∀ b, hoare Inv (k b) (fun _ => Inv)) → hoare Inv (m ≫= k) (fun _ => Inv).
Proof. apply hoare_bind. Qed.

Lemma if_ok {B} (c : bool) (m m' : W B) :
  hoare Inv m (fun _ => Inv) → hoare Inv m' (fun _ => Inv) → hoare Inv (if c then m else m') (fun _ => Inv).
Proof. by destruct c. Qed.
End keep.

(** Reading a slot that is known to be there. *)
Lemma hoare_slot {B} (P : Worker → Prop) i s (k : Slot → W B) Q :
  (∀ w, P w → points i s w) → hoare P (k s) Q → hoare P (slot i ≫= k) Q.
Proof. intros HP Hk w Hw. rewrite (bind_Done _ _ _ _ _ (slot_eq _ _ _ (HP w Hw))). by apply Hk. Qed.

(** ** Mailbox arithmetic *)

Lemma limits : 0 < actor_table_capacity cfg ∧ 0 < max_mailbox_messages_per_actor cfg ∧ 0 < max_mailbox_bytes_per_actor cfg ∧
  max_mailbox_messages_per_actor cfg <= max_mailbox_messages_total cfg ∧ max_mailbox_bytes_per_actor cfg <= max_mailbox_bytes_total cfg ∧
  0 < max_turns_per_actor_slice cfg ∧ 0 < max_concurrent_loading cfg ∧ 0 < max_application_timer_bytes_total cfg.
Proof. pose proof (su_valid Hsu) as Hv. unfold actor_config_valid in Hv. to_prop. lia. Qed.

Lemma exceedsByteLimit_false c a l : exceedsByteLimit c a l = false ↔ c + a <= l ∧ a <= l.
Proof. unfold exceedsByteLimit. rewrite orb_false_iff, !Z.ltb_ge. lia. Qed.

Definition pushed (m : M) (s : Slot) : Slot :=
  set_mailbox (mkMailbox (mb_messages (as_mailbox s) ++ [m]) (mb_charged_bytes (as_mailbox s) + chargedBytes m)) s.

Lemma pushed_measures m s : slot_messages (pushed m s) = slot_messages s + 1 ∧ slot_bytes (pushed m s) = slot_bytes s + chargedBytes m.
Proof. unfold slot_messages, mailbox_size, zlen. simpl. rewrite length_app. simpl. split; [lia|done]. Qed.

Lemma push_message_eq i s m w :
  points i s w → slot_bytes s + chargedBytes m <= U64_MAX →
  push_message i m w = Done () (with_totals (wk_messages w + 1) (u64 (wk_bytes w + chargedBytes m))
                                  (with_actors (assign i (pushed m s) (wk_actors w)) w)).
Proof.
  intros Hi Hb. unfold push_message. rewrite (bind_Done _ _ _ _ _ (slot_eq _ _ _ Hi)). unfold mailbox_push, slot_bytes in *.
  destruct (Z.ltb_spec (U64_MAX - mb_charged_bytes (as_mailbox s)) (chargedBytes m)); [lia|]. done.
Qed.

Lemma mailbox_ok_pushed m s :
  mailbox_ok s → slot_messages s + 1 <= max_mailbox_messages_per_actor cfg →
  slot_bytes s + chargedBytes m <= max_mailbox_bytes_per_actor cfg → mailbox_ok (pushed m s).
Proof.
  intros [H1 _ _] Hm Hb. destruct (pushed_measures m s) as [E1 E2]. constructor; rewrite ?E1, ?E2; try done.
  rewrite H1. simpl. rewrite zsum_app. simpl. lia.
Qed.

(** The slot after a message has been admitted. *)
Definition admitted_slot (m : M) (s : Slot) : Slot :=
  if bool_decide (as_state s = ActorIdle) then set_state ActorQueued (pushed m s) else pushed m s.

Lemma admitted_identity m s : same_identity s (admitted_slot m s).
Proof. unfold admitted_slot. by case_bool_decide. Qed.

Lemma admitted_loads m s : loads (admitted_slot m s) = loads s.
Proof.
  unfold admitted_slot. destruct (decide (as_state s = ActorIdle)) as [H|H].
  - rewrite bool_decide_eq_true_2 by done. unfold loads. by rewrite H.
  - by rewrite bool_decide_eq_false_2.
Qed.

Lemma wk_bytes_nonneg r turn plain tokens w : sched_ok r turn plain tokens w → 0 <= wk_bytes w ∧ 0 <= wk_messages w.
Proof.
  intros [K1 K2 (R & KR & KG) K4 K5 K6 K7]. rewrite (g_bytes _ _ _ _ _ _ _ _ KG), (g_messages _ _ _ _ _ _ _ _ KG).
  pose proof (g_slots _ _ _ _ _ _ _ _ KG) as HF. split; apply zsum_nonneg; apply (Forall_impl _ _ _ HF).
  - intros s [[H1 _ _] _ _ _]. rewrite H1. apply zsum_nonneg, Forall_forall. intros m _. apply (su_charge Hsu).
  - intros s _. unfold slot_messages, mailbox_size, zlen. lia.
Qed.

Lemma slot_bytes_nonneg s : mailbox_ok s → 0 <= slot_bytes s.
Proof. intros [H1 _ _]. rewrite H1. apply zsum_nonneg, Forall_forall. intros m _. apply (su_charge Hsu). Qed.

(** ** Admission *)

Lemma admit_eq r turn plain tokens i s m w :
  sched_ok r turn plain tokens w → committed_at i s w → slot_bytes s + chargedBytes m <= U64_MAX →
  ∃ w', accept_message i m w = Done () w' ∧ wk_actors w' = assign i (admitted_slot m s) (wk_actors w) ∧ wk_armed w' = wk_armed w ∧
    wk_timers w' = wk_timers w ∧ wk_messages w' = wk_messages w + 1 ∧ wk_bytes w' = u64 (wk_bytes w + chargedBytes m) ∧
    wk_loading w' = wk_loading w ∧ wk_active_turn w' = wk_active_turn w ∧
    wk_ready w' = if bool_decide (as_state s = ActorIdle) then enqueue (entry_handle s) (wk_ready w) else wk_ready w.
Proof.
  intros Hok Hi Hb. pose proof (committed_points _ _ _ Hi) as Hp. unfold accept_message.
  rewrite (bind_Done _ _ _ _ _ (slot_eq _ _ _ Hp)), (bind_Done _ _ _ _ _ (push_message_eq _ _ _ _ Hp Hb)). unfold admitted_slot.
  case_bool_decide as Hidle; [|by eexists; split_and!].
  destruct (k_ready _ _ _ _ _ Hok) as (R & HR & _).
  assert (Hq : queued s = false) by (unfold queued; by rewrite Hidle).
  erewrite (enqueue_actor_eq i (pushed m s) _ R).
  - eexists. split; [done|]. cbn. by rewrite assign_assign.
  - pose proof (points_assign i s (pushed m s) w Hp) as Hp'. exact Hp'.
  - exact HR.
  - by eapply ready_room'.
Qed.

Lemma admit_ok r turn plain tokens i s m :
  hoare (fun w => sched_ok r turn plain tokens w ∧ committed_at i s w ∧ as_state s ≠ ActorStopping ∧
                  mailbox_full s (chargedBytes m) w = false)
    (accept_message i m) (fun _ => sched_ok r turn plain tokens).
Proof.
  intros w (Hok & Hi & Hst & Hfull). unfold mailbox_full, totals_full in Hfull. to_prop.
  repeat match goal with H : exceedsByteLimit _ _ _ = false |- _ => apply exceedsByteLimit_false in H end.
  pose proof (su_charge Hsu m) as Hc. pose proof limits. pose proof (su_bytes Hsu). pose proof (wk_bytes_nonneg _ _ _ _ _ Hok).
  pose proof (committed_good _ _ _ _ _ _ _ Hok Hi) as [Gm Gs Gt Gr]. pose proof (slot_bytes_nonneg _ Gm).
  fold (slot_bytes s) in *. fold (slot_messages s) in *.
  destruct (admit_eq _ _ _ _ i s m w Hok Hi) as (w' & -> & E1 & E2 & E3 & E4 & E5 & E6 & E7 & E8); [lia|].
  destruct (pushed_measures m s) as [M1 M2].
  assert (Ms : slot_messages (admitted_slot m s) = slot_messages s + 1 ∧ slot_bytes (admitted_slot m s) = slot_bytes s + chargedBytes m)
    by (unfold admitted_slot; by case_bool_decide).
  pose proof (k_bounds _ _ _ _ _ Hok) as [B1 B2 B3]. rewrite u64_small in E5 by lia.
  eapply (sched_ok_assign r r turn turn plain plain tokens tokens w w' i s (admitted_slot m s));
    rewrite ?E2, ?E3, ?E4, ?E5, ?E6, ?E7; try done; try lia.
  - apply admitted_identity.
  - assert (Gp : mailbox_ok (pushed m s)) by (apply mailbox_ok_pushed; [done|lia..]).
    unfold admitted_slot. case_bool_decide as Hidle; constructor; try done.
    + by eapply mailbox_ok_same.
    + unfold shape in *. rewrite Hidle in Gs. cbn. split; [apply Gs|]. intros b Hb. destruct Gs as (Gs & _). congruence.
    + unfold run_state in *. destruct r as [[j st]|]; cbn; [|done]. case_decide; [|done]. destruct Gr as (Gr & _ & [Gr2 | Gr2]); congruence.
    + unfold shape in *. change (as_state (pushed m s)) with (as_state s). by destruct (as_state s) in Gs, Hidle |- *.
  - unfold admitted_slot. case_bool_decide as Hidle.
    + apply (ready_enters w _ s); [done|unfold queued; by rewrite Hidle|done|].
      eapply ready_room'; [done|done|unfold queued; by rewrite Hidle].
    + by apply ready_stays.
  - unfold here, armed. intros X. unfold admitted_slot. by case_bool_decide.
  - rewrite admitted_loads. lia.
  - constructor; lia.
  - apply Hok.
  - apply Hok.
  - intros j st Hj. right. by exists st.
Qed.

(** ** Removal *)

Definition forget (i : nat) (r : running) : running :=
  match r with Some (j, st) => if decide (j = i) then None else r | None => None end.

Lemma forget_run_state i r s : as_slot_index s ≠ i → run_state r s → run_state (forget i r) s.
Proof.
  unfold forget, run_state. destruct r as [[j st]|]; [|done]. intros Hne. repeat case_decide; naive_solver.
Qed.

Lemma other_handles (t : ActorTable Slot) i s rest :
  table_ok t → at_slots t !! i = Some (mkSlot (Some s) false true) → actives (at_table t) ≡ₚ s :: rest →
  Forall (fun x => entry_handle x ≠ entry_handle s) rest.
Proof.
  intros Hok Hi Hp. pose proof (actives_other _ _ _ _ _ Hok Hi eq_refl Hp) as Ho. rewrite Forall_forall in *.
  intros x Hx Heq. assert (Hin : x ∈ actives (at_table t)) by (rewrite Hp; by right).
  apply actives_elem in Hin as (j & y & Hj & Hc & He). apply (Ho x Hx). rewrite (tk_index _ Hok _ _ _ Hj He).
  eapply (so_distinct _ _ (tk_slots _ Hok)); [exact Hj|exact Hi|exact He|done|]. unfold entry_handle in Heq. by injection Heq.
Qed.

Lemma filter_not_in (l : list ActorHandle) h : Forall (fun x => x ≠ h) l → filter (fun x => x ≠ h) l = l.
Proof. induction 1 as [|x l Hx Hl IH]; [done|]. rewrite filter_cons, decide_True by done. by rewrite IH. Qed.

Lemma erase_handle (A X : list ActorHandle) h :
  A ≡ₚ h :: X → Forall (fun x => x ≠ h) X → filter (fun x => x ≠ h) A ≡ₚ X.
Proof. intros HA HX. rewrite HA, filter_cons, decide_False by naive_solver. by rewrite filter_not_in. Qed.

Lemma sched_ok_release r turn plain tokens w w' i s s' :
  sched_ok r turn plain tokens w → committed_at i s w → same_identity s s' → queued s = false →
  wk_actors w' = (actor_release (entry_handle s) (assign i s' (wk_actors w))).2 →
  wk_ready w' = wk_ready w →
  wk_armed w' = (if armed s then filter (fun x => x ≠ entry_handle s) (wk_armed w) else wk_armed w) →
  wk_messages w' = wk_messages w - slot_messages s → wk_bytes w' = wk_bytes w - slot_bytes s →
  wk_loading w' = wk_loading w - loads s → wk_active_turn w' = wk_active_turn w → timers_ok chargedBytes plain tokens (wk_timers w') →
  (∀ x : Slot, as_key x ≠ as_key s → timeout_pending x (wk_timers w) → timeout_pending x (wk_timers w')) →
  sched_ok (forget i r) turn plain tokens w'.
Proof.
  intros Hok Hi Hid Hq Ha Hr Harm Hm Hb Hl Hu Ht Hp. pose proof (committed_good _ _ _ _ _ _ _ Hok Hi) as Hg.
  destruct Hok as [K1 K2 (R & KR & KG) K4 K5 K6 K7]. unfold committed_at in Hi.
  destruct (assign_table_ok i s s' _ K1 Hi Hid) as [T1 T2].
  pose proof (committed_assign i s s' w Hi) as Hi'. unfold committed_at in Hi'. cbn [with_actors wk_actors] in Hi'.
  destruct (actor_release_ok _ i _ s' T1 Hi' eq_refl eq_refl) as (_ & R2 & R3 & _ & R5 & R6).
  rewrite (same_handle _ _ Hid) in *. rewrite <-Ha in *.
  destruct (actives_assign (wk_actors w) i _ s s' Hi eq_refl eq_refl) as (rest & P1 & P2).
  assert (P3 : actives (at_table (wk_actors w')) ≡ₚ rest).
  { apply Permutation_cons_inv with s'. by rewrite <-R3, P2. }
  pose proof (actives_other _ _ _ _ _ K1 Hi eq_refl P1) as Hoth. pose proof (other_handles _ _ _ _ K1 Hi P1) as Hoh.
  pose proof (other_keys _ _ _ _ K1 Hi P1) as Hkey.
  apply (good_perm _ _ _ _ R R _ _ _ _ _ P1 (reflexivity _) (reflexivity _)) in KG.
  apply good_uncons in KG as (G1 & G2 & G3 & G4). unfold here in G2. rewrite Hq in G2. cbn [app] in G2.
  constructor; rewrite ?Hr, ?Hm, ?Hb, ?Hl, ?Hu; try done; [by rewrite R5, T2| | |].
  - exists R. split; [done|]. apply (good_perm _ _ rest _ (handles_where queued rest) _ (handles_where armed rest)); [by rewrite P3|by rewrite G2| |].
    { rewrite Harm. unfold here in G3. destruct (armed s); [|by symmetry]. symmetry. apply erase_handle; [done|].
      apply Forall_forall. intros h' (x & -> & Hx)%list_elem_of_fmap. rewrite Forall_forall in Hoh. apply Hoh.
      apply list_elem_of_In, filter_In in Hx as [Hx _]. by apply list_elem_of_In. }
    destruct G4 as [Q1 Q2 Q3 Q4 Q5 Q6]. constructor; try done. rewrite Forall_forall in *. intros x Hx.
    destruct (Q1 x Hx) as [S1 S2 S3 S4]. constructor; try done; [by apply Hp; [apply Hkey|]|].
    apply forget_run_state; [by apply Hoth|done].
  - destruct K4. pose proof (slot_bytes_nonneg _ (sg_mailbox _ _ _ Hg)).
    constructor; [unfold slot_messages, mailbox_size, zlen; lia|lia|]. unfold loads. destruct (bool_decide _); simpl; lia.
  - intros j st Hj. unfold forget in Hj. destruct r as [[j0 st0]|]; [|done]. case_decide as Hd; [done|]. injection Hj as -> ->.
    destruct (K7 j st eq_refl) as [x Hx]. exists x. unfold committed_at in *. rewrite Ha. unfold actor_release.
    destruct (committed_found _ i _ s' T1 Hi' eq_refl eq_refl) as (Hf & Hx' & _). rewrite (same_handle _ _ Hid) in *. rewrite Hf.
    unfold at_slots, release in *. cbn [snd at_table]. rewrite Hf. cbn [snd set_counts set_slots st_slots]. rewrite Hx'.
    rewrite list_lookup_insert_ne by done. unfold assign, write. cbn [at_table]. rewrite Hi. cbn [st_slots set_slots].
    by rewrite list_lookup_insert_ne by done.
Qed.

(** Removal, also while the actor's own timeout is being handled: the timers may
    lack entries that only this actor waits for. *)
Lemma removeActor_from r turn plain tokens i s reason w0 q :
  sched_ok r turn plain tokens w0 → committed_at i s w0 → queued s = false → timers_ok chargedBytes plain tokens q →
  (∀ x : Slot, as_key x ≠ as_key s → timeout_pending x (wk_timers w0) → timeout_pending x q) →
  hoare (eq (with_timers q w0)) (removeActor (entry_handle s) reason) (fun _ => sched_ok (forget i r) turn plain tokens).
Proof.
  intros Hok Hi Hq Htq Hpend. pose proof (committed_good _ _ _ _ _ _ _ Hok Hi) as Hg.
  pose proof (wk_bytes_nonneg _ _ _ _ _ Hok) as [Hb0 Hm0].
  assert (Hload : 0 <= wk_loading w0 - loads s ∧ slot_bytes s <= wk_bytes w0).
  { destruct Hok as [K1 K2 (R & KR & KG) K4 K5 K6 K7].
    destruct (actives_assign (wk_actors w0) i _ s s Hi eq_refl eq_refl) as (rest & P1 & _).
    rewrite (g_loading _ _ _ _ _ _ _ _ KG), (g_bytes _ _ _ _ _ _ _ _ KG), !(zsum_perm _ _ _ P1). simpl.
    pose proof (g_slots _ _ _ _ _ _ _ _ KG) as HF. rewrite P1 in HF. apply Forall_cons in HF as [_ HF]. split.
    - assert (0 <= zsum loads rest); [|lia]. apply zsum_nonneg, Forall_forall. intros x _. unfold loads. destruct (bool_decide _); done.
    - assert (0 <= zsum slot_bytes rest); [|lia]. apply zsum_nonneg. apply (Forall_impl _ _ _ HF). intros x Hx.
      by apply slot_bytes_nonneg, Hx. }
  pose proof (committed_points _ _ _ Hi) as Hp.
  set (g0 := mkStage s (wk_ready w0) (wk_armed w0) q (wk_messages w0) (wk_bytes w0) (wk_loading w0) (wk_active_turn w0)).
  apply (hoare_from _ (staged w0 i g0)); [intros w <-; constructor; [cbn; by rewrite assign_same|done]|].
  unfold removeActor. eapply (stage_find (s0 := s)); [done|apply Hok|done|done|]. apply (stage_slot Hp). cbn [g0 stg_slot].
  apply stage_skip; [eauto with sched|]. intros _.
  set (g1 := mkStage s (wk_ready w0) (wk_armed w0) q (wk_messages w0) (wk_bytes w0) (wk_loading w0 - loads s) (wk_active_turn w0)).
  enough (Hgo : hoare (staged w0 i g1)
            (update i (set_blocked None);;
             stopping ← gets wk_shutting_down;
             match as_instance s with
             | Some a =>
                 (if stopping && shutdownPending a then count lifecycle_forced_cancellations else mret ());;
                 (if finalizationFailed a then count lifecycle_finalization_failures else mret ())
             | None => mret ()
             end;;
             (if as_lifecycle_armed s then update i (set_armed false);; erase_armed (entry_handle s) else mret ());;
             discardMailbox i;;
             update i (set_instance None);;
             modify (fun w => with_actors (actor_release (entry_handle s) (wk_actors w)).2 w);;
             if bool_decide (reason = RemovedStopped) || bool_decide (reason = ShutdownForced) then count stopped_actors else mret ())
            (fun _ => sched_ok (forget i r) turn plain tokens)).
  { unfold g1, loads in *. destruct (bool_decide (as_state s = ActorLoading)); simpl in *.
    - apply stage_loading; [cbn; lia|]. exact Hgo.
    - rewrite Z.sub_0_r in Hgo. exact Hgo. }
  apply (stage_update Hp). apply stage_skip; [eauto with sched|]. intros stopping.
  apply stage_skip; [destruct (as_instance s); eauto with sched|]. intros _.
  set (g2 := to_slot (fun s => set_armed false (set_blocked None s))
               (mkStage s (wk_ready w0) (if armed s then filter (fun x => x ≠ entry_handle s) (wk_armed w0) else wk_armed w0) q
                  (wk_messages w0) (wk_bytes w0) (wk_loading w0 - loads s) (wk_active_turn w0))).
  enough (Hgo : hoare (staged w0 i g2)
            (discardMailbox i;;
             update i (set_instance None);;
             modify (fun w => with_actors (actor_release (entry_handle s) (wk_actors w)).2 w);;
             if bool_decide (reason = RemovedStopped) || bool_decide (reason = ShutdownForced) then count stopped_actors else mret ())
            (fun _ => sched_ok (forget i r) turn plain tokens)).
  { unfold g2, armed in *. destruct (as_lifecycle_armed s) eqn:Harm.
    - apply hoare_assoc, (stage_update Hp). unfold erase_armed. eapply stage_modify; [done| |intros w Hw|exact Hgo]; [done|].
      unfold stage_of in *. cbn in *. by injection Hw as -> -> -> -> -> -> ->.
    - assert (Hs : set_armed false (set_blocked None s) = set_blocked None s) by (unfold set_armed, set_blocked; cbn; by rewrite Harm).
      assert (Hst : to_slot (fun s => set_armed false (set_blocked None s)) g1 = to_slot (set_blocked None) g1)
        by (unfold to_slot; cbn [stg_slot g1]; by rewrite Hs).
      rewrite <-Hst. exact Hgo. }
  unfold discardMailbox. apply hoare_assoc, (stage_slot Hp). cbn [stg_slot g2 to_slot].
  set (g3 := mkStage (set_armed false (set_blocked None s)) (wk_ready w0) (stg_armed g2) q
               (wk_messages w0 - slot_messages s) (wk_bytes w0 - slot_bytes s) (wk_loading w0 - loads s) (wk_active_turn w0)).
  apply hoare_assoc. apply (stage_modify g2 g3); [done|done| |].
  { intros w Hw. unfold g2, stage_of in *. cbn in *. injection Hw as -> -> -> -> -> -> ->. unfold g3. cbn. f_equal.
    rewrite u64_small; [done|]. pose proof (slot_bytes_nonneg _ (sg_mailbox _ _ _ Hg)).
    destruct (k_bounds _ _ _ _ _ Hok). pose proof (su_bytes Hsu). unfold slot_bytes in *. cbn. lia. }
  apply hoare_assoc, stage_skip; [eauto with sched|]. intros _. apply hoare_assoc, stage_skip; [eauto with sched|]. intros _.
  apply (stage_put Hp), (stage_update Hp).
  apply (hoare_bind _ _ _ (fun _ => sched_ok (forget i r) turn plain tokens)).
  - apply hoare_modify. intros w [E1 E2]. unfold stage_of in E2. cbn in E2. injection E2 as Y1 Y2 Y3 Y4 Y5 Y6 Y7.
    eapply (sched_ok_release r turn plain tokens w0 _ i s (set_instance None (set_mailbox emptyMailbox (set_armed false (set_blocked None s)))));
      cbn; try done; [by rewrite E1|congruence|intros x Hx Hx'; rewrite Y3; by apply Hpend].
  - intros _. apply if_ok; [apply count_ok|apply ret_ok].
Qed.

Lemma removeActor_ok r turn plain tokens i s reason :
  queued s = false →
  hoare (fun w => sched_ok r turn plain tokens w ∧ committed_at i s w) (removeActor (entry_handle s) reason)
    (fun _ => sched_ok (forget i r) turn plain tokens).
Proof.
  intros Hq. apply hoare_pre. intros w0 [Hok Hi].
  apply (hoare_from _ (eq (with_timers (wk_timers w0) w0))); [intros w <-; by destruct w0|].
  apply (removeActor_from r); try done. apply Hok.
Qed.

(** ** Reservations of slots *)

Definition reserved_at (i : nat) (s : Slot) w : Prop := at_slots (wk_actors w) !! i = Some (mkSlot (Some s) true false).

Lemma reserved_points i s w : reserved_at i s w → points i s w.
Proof. unfold reserved_at, points, deref. by intros ->. Qed.

(** The table changes, its committed entries do not. *)
Lemma sched_ok_table r turn plain tokens w t' :
  sched_ok r turn plain tokens w → table_ok t' → st_capacity (at_table t') = st_capacity (at_table (wk_actors w)) →
  actives (at_table t') ≡ₚ actives (at_table (wk_actors w)) →
  (∀ j s, committed_at j s w → at_slots t' !! j = Some (mkSlot (Some s) false true)) →
  sched_ok r turn plain tokens (with_actors t' w).
Proof.
  intros [K1 K2 (R & KR & KG) K4 K5 K6 K7] Ht Hc Ha Hj. constructor; cbn; try done; [by rewrite Hc| |].
  - exists R. split; [done|]. by eapply good_perm; [..|exact KG].
  - intros i st Hr. destruct (K7 i st Hr) as [s Hs]. exists s. by apply Hj.
Qed.

Lemma reserve_actor_ok r turn plain tokens k :
  hoare (sched_ok r turn plain tokens) (reserve_actor k)
    (fun o w => sched_ok r turn plain tokens w ∧
                ∀ i, o = Some i → ∃ g, 0 < g ∧ reserved_at i (entry_fresh k g i) w ∧
                  ∀ s, s ∈ actives (at_table (wk_actors w)) → as_key s ≠ k).
Proof.
  intros w Hok. unfold reserve_actor, gets, mbind, W_bind. pose proof (actor_tryReserve_ok k _ (k_table _ _ _ _ _ Hok)) as Hr.
  unfold actor_tryReserve in *. destruct (negb (hasCapacity _)) eqn:Hcap.
  { cbn. split; [|done]. by destruct w. }
  destruct (last (at_free_indices (wk_actors w))) as [i|] eqn:Hl; [|cbn; split; [by destruct w|done]].
  destruct (has_value (at_key_to_slot (wk_actors w) !! k)) eqn:Hk; [cbn; split; [by destruct w|done]|].
  destruct (nextGeneration U64_MAX (at_table (wk_actors w))) as [[g t1]|] eqn:Hn; [|done]. cbn [mbind option_bind] in Hr |- *.
  destruct Hr as (T1 & T2 & T3 & T4 & T5 & T6 & T7). cbn [require snd fst]. cbn. split.
  - apply sched_ok_table; try done. intros j s Hj. unfold committed_at in Hj.
    destruct (decide (j = i)) as [->|Hne].
    + exfalso. destruct (k_table _ _ _ _ _ Hok) as [_ _ Hf _ _ _ _].
      assert (Hin : i ∈ at_free_indices (wk_actors w)) by (rewrite (removelast_snoc _ _ Hl); set_solver).
      apply Hf in Hin as (x & Hx & Hfr). rewrite Hj in Hx. by injection Hx as <-.
    + unfold at_slots in *. cbn. unfold nextGeneration in Hn. destruct (_ <=? _); [done|]. injection Hn as _ <-. cbn.
      by rewrite list_lookup_insert_ne by done.
  - intros j [= <-]. exists (st_last_generation (at_table (wk_actors w)) + 1). split_and!.
    + pose proof (so_last _ _ (tk_slots _ (k_table _ _ _ _ _ Hok))). lia.
    + exact T5.
    + intros s Hs Heq. change (s ∈ actives (at_table (mkActorTable (occupy i (entry_fresh k g i) t1)
        (removelast (at_free_indices (wk_actors w))) (<[k:=i]> (at_key_to_slot (wk_actors w)))))) in Hs.
      rewrite T4 in Hs. apply actives_elem in Hs as (j & x & Hj & Hc & He).
      assert (Hkj : at_key_to_slot (wk_actors w) !! k = Some j) by (apply (tk_keys _ (k_table _ _ _ _ _ Hok)); eauto). congruence.
Qed.

Lemma rollback_actor_ok r turn plain tokens i s :
  hoare (fun w => sched_ok r turn plain tokens w ∧ reserved_at i s w) (rollback_actor i) (fun _ => sched_ok r turn plain tokens).
Proof.
  intros w [Hok Hi]. unfold rollback_actor, modify. destruct (actor_rollback_ok _ i s (k_table _ _ _ _ _ Hok) Hi) as (T1 & T2 & _ & T4).
  apply sched_ok_table; try done. intros j x Hj. unfold committed_at, reserved_at in *.
  unfold actor_rollback. rewrite Hi. cbn. unfold at_slots, rollback in *. cbn. rewrite Hi. cbn.
  rewrite list_lookup_insert_ne; [done|]. intros ->. congruence.
Qed.

Lemma reserved_current r turn plain tokens w i s :
  sched_ok r turn plain tokens w → reserved_at i s w → ∀ j st, r = Some (j, st) → j ≠ i.
Proof.
  intros Hok Hi j st Hr ->. destruct (k_current _ _ _ _ _ Hok i st Hr) as [x Hx]. unfold committed_at, reserved_at in *. congruence.
Qed.

(** A reserved slot leaves room in the ready queue. *)
Lemma reserved_room r turn plain tokens w i s :
  sched_ok r turn plain tokens w → reserved_at i s w →
  ∀ R, handles_repr (actor_table_capacity cfg) (wk_ready w) R → zlen R < actor_table_capacity cfg.
Proof.
  intros Hok Hi R HR. destruct Hok as [K1 K2 (R0 & HR0 & HG) _ _ _ _]. rewrite (repr_unique _ _ _ _ HR HR0).
  pose proof (length_actives _ _ (tk_slots _ K1)) as Hlen. pose proof (occupied_bound _ _ (tk_slots _ K1)) as (_ & _ & Hb).
  pose proof (so_reserved _ _ (tk_slots _ K1)) as Hres. pose proof (g_ready _ _ _ _ _ _ _ _ HG) as Hp.
  apply Permutation_length in Hp. unfold handles_where in Hp. rewrite length_fmap in Hp.
  pose proof (filter_length_le queued (actives (at_table (wk_actors w)))).
  pose proof (count_if_insert slot_reserved _ i _ free_slot Hi) as Hcnt. cbn in Hcnt. unfold at_slots, zlen in *. lia.
Qed.

Lemma sched_ok_commit r turn plain plain' tokens tokens' w w' i s s' :
  sched_ok r turn plain tokens w → reserved_at i s w → same_identity s s' →
  wk_actors w' = actor_commit i (assign i s' (wk_actors w)) →
  mailbox_ok s' → shape s' → timeout_pending s' (wk_timers w') → as_state s' ≠ ActorRunning → armed s' = false →
  (∀ e, e ∈ tq_heap (wk_timers w) → e ∈ tq_heap (wk_timers w')) →
  (∀ R, handles_repr (actor_table_capacity cfg) (wk_ready w) R →
    ∃ R', handles_repr (actor_table_capacity cfg) (wk_ready w') R' ∧ R' ≡ₚ here queued s' ++ R) →
  wk_armed w' = wk_armed w →
  wk_messages w' = wk_messages w + slot_messages s' → wk_bytes w' = wk_bytes w + slot_bytes s' →
  wk_loading w' = wk_loading w + loads s' →
  bounds_ok (wk_messages w') (wk_bytes w') (wk_loading w') →
  timers_ok chargedBytes plain' tokens' (wk_timers w') → wk_active_turn w' = turn →
  sched_ok r turn plain' tokens' w'.
Proof.
  intros Hok Hi Hid Ha Hm Hs Ht Hst Harm Hheap Hr Har Hme Hby Hlo Hbo Hti Htu.
  pose proof (reserved_current _ _ _ _ _ _ _ Hok Hi) as Hcur.
  destruct Hok as [K1 K2 (R & KR & KG) K4 K5 K6 K7]. unfold reserved_at in Hi. destruct Hid as (I1 & I2 & I3).
  destruct (assign_ok _ i _ s s' K1 Hi eq_refl I1 I2 I3) as (T1 & T2 & T3). cbn in T2.
  destruct (actor_commit_ok _ i s' T1 T2) as (C1 & C2 & C3 & C4).
  assert (Hact : actives (at_table (assign i s' (wk_actors w))) ≡ₚ actives (at_table (wk_actors w))).
  { unfold assign, write, actives. cbn. unfold at_slots in Hi. rewrite Hi. cbn.
    destruct (omap_insert_perm committed_entry _ _ _ Hi) as (rest & P1 & P2). by rewrite P1, (P2 (mkSlot (Some s') true false)). }
  rewrite <-Ha in *. destruct (Hr R KR) as (R' & HR' & HRp).
  assert (Hrun : run_state r s').
  { unfold run_state. destruct r as [[j st]|]; [|done]. rewrite decide_False; [done|]. intros <-. eapply (Hcur _ _ eq_refl).
    rewrite I3. exact (tk_index _ K1 _ _ _ Hi eq_refl). }
  constructor; try done; [congruence| |].
  - exists R'. split; [done|]. apply (good_perm _ _ (s' :: actives (at_table (wk_actors w))) _ (here queued s' ++ R) _ (here armed s' ++ wk_armed w)).
    + by rewrite C2, Hact.
    + by rewrite HRp.
    + unfold here. by rewrite Harm, Har.
    + apply good_cons; [done|]. destruct KG as [Q1 Q2 Q3 Q4 Q5 Q6]. constructor; try done; try lia.
      apply (Forall_impl _ _ _ Q1). intros x [X1 X2 X3 X4]. constructor; try done. by eapply timeout_pending_same.
  - intros j st Hj. destruct (K7 j st Hj) as [x Hx]. exists x. unfold committed_at in *. rewrite Ha. pose proof (Hcur j st Hj).
    unfold actor_commit, commit, assign, write, at_slots in *. cbn. rewrite Hi. cbn.
    rewrite list_lookup_insert_eq by (by eapply lookup_lt_Some). cbn. by rewrite !list_lookup_insert_ne by done.
Qed.

(** ** Timers *)

Definition heap_keeps q q' : Prop := ∀ e, e ∈ tq_heap q → e ∈ tq_heap q'.

Lemma slot_good_heap r q q' s : heap_keeps q q' → slot_good r q s → slot_good r q' s.
Proof. intros Hq [H1 H2 H3 H4]. constructor; try done. by eapply timeout_pending_same. Qed.

Lemma sched_ok_timers r turn plain plain' tokens tokens' w q' :
  sched_ok r turn plain tokens w → timers_ok chargedBytes plain' tokens' q' → heap_keeps (wk_timers w) q' →
  sched_ok r turn plain' tokens' (with_timers q' w).
Proof.
  intros [K1 K2 (R & KR & KG) K4 K5 K6 K7] Ht Hq. constructor; cbn; try done.
  exists R. split; [done|]. destruct KG as [Q1 Q2 Q3 Q4 Q5 Q6]. constructor; try done.
  apply (Forall_impl _ _ _ Q1). intros x. by apply slot_good_heap.
Qed.

Lemma tryReserve_heap q : tq_heap (tryReserve q).2 = tq_heap q.
Proof. unfold tryReserve. by destruct (negb _). Qed.

Lemma timer_reserve_entry r turn plain tokens :
  hoare (sched_ok r turn plain tokens) (timer_try tryReserve)
    (fun ok w => sched_ok (I := I) (T := T) (Env := Env) r turn (if ok : bool then S plain else plain) tokens w).
Proof.
  intros w Hok. unfold timer_try. pose proof (timer_tryReserve_ok chargedBytes _ _ _ (k_timers _ _ _ _ _ Hok)) as Ht.
  pose proof (tryReserve_heap (wk_timers w)) as Hh. destruct (tryReserve (wk_timers w)) as [ok q']. cbn in *.
  eapply sched_ok_timers; [done| |intros e; by rewrite Hh]. destruct ok; [done|]. subst q'. apply Hok.
Qed.

Lemma timer_release_entry r turn plain tokens :
  hoare (sched_ok r turn (S plain) tokens) (timer_do releaseReservation)
    (fun _ w => sched_ok (I := I) (T := T) (Env := Env) r turn plain tokens w).
Proof.
  intros w Hok. unfold timer_do, gets, mbind, W_bind.
  destruct (releaseReservation_ok chargedBytes _ _ _ (k_timers _ _ _ _ _ Hok)) as (q' & -> & Ht & Hh & _). cbn.
  eapply sched_ok_timers; [done|done|]. intros e. by rewrite Hh.
Qed.

Lemma commit_entry plain tokens q d p :
  timers_ok chargedBytes (S plain) tokens q → payload_charge chargedBytes p = None →
  ∃ q', commitReserved chargedBytes d p q = Some q' ∧ timers_ok chargedBytes plain tokens q' ∧ tq_heap q' ≡ₚ mkTimerEntry d p :: tq_heap q.
Proof.
  intros Hok Hp. destruct (commitReserved_ok chargedBytes (su_charge Hsu) _ _ _ d p Hok Hp) as (q' & Hc & Hok'). exists q'.
  split_and!; [done|done|]. unfold commitReserved in Hc.
  destruct (releaseReservation_ok chargedBytes _ _ _ Hok) as (q1 & Hr & Hok1 & Hh & _). rewrite Hr in Hc. cbn in Hc.
  rewrite Hp in Hc. injection Hc as <-. cbn. rewrite (proj1 (push_heap_spec _ _ _ (to_heap _ _ _ _ Hok1))), Hh.
  by rewrite Permutation_app_comm.
Qed.

(** ** Stages that push a message *)

Lemma stage_push {B} {w0 : Worker} {i s0} (H0 : points i s0 w0) g m (k : () → W B) Q :
  slot_bytes (stg_slot g) + chargedBytes m <= U64_MAX → 0 <= stg_bytes g + chargedBytes m <= U64_MAX →
  hoare (staged w0 i (mkStage (pushed m (stg_slot g)) (stg_ready g) (stg_armed g) (stg_timers g) (stg_messages g + 1)
                        (stg_bytes g + chargedBytes m) (stg_loading g) (stg_turn g))) (k ()) Q →
  hoare (staged w0 i g) (push_message i m ≫= k) Q.
Proof.
  intros Hb1 Hb2 Hk w Hw. pose proof (staged_points H0 _ _ Hw) as Hp. rewrite (bind_Done _ _ _ _ _ (push_message_eq _ _ _ _ Hp Hb1)).
  apply Hk. destruct Hw as [E1 E2]. unfold stage_of in E2. assert (wk_bytes w = stg_bytes g) by (by rewrite <-E2).
  constructor; cbn.
  - by rewrite E1, assign_assign.
  - unfold stage_of. cbn. rewrite u64_small by lia. by rewrite <-E2.
Qed.

(** ** Activation *)

Lemma loading_nonneg r turn plain tokens w : sched_ok r turn plain tokens w → 0 <= wk_loading w.
Proof.
  intros [K1 K2 (R & KR & KG) K4 K5 K6 K7]. rewrite (g_loading _ _ _ _ _ _ _ _ KG). apply zsum_nonneg, Forall_forall.
  intros x _. unfold loads. by destruct (bool_decide _).
Qed.

Lemma activation_room m w :
  activation_full (chargedBytes m) w = false →
  chargedBytes m <= max_mailbox_bytes_per_actor cfg ∧ wk_messages w + 1 <= max_mailbox_messages_total cfg ∧
  wk_bytes w + chargedBytes m <= max_mailbox_bytes_total cfg.
Proof.
  unfold activation_full, totals_full. intros Hf. to_prop.
  repeat match goal with H : exceedsByteLimit _ _ _ = false |- _ => apply exceedsByteLimit_false in H end. lia.
Qed.

(** A fresh slot with its first message is a good mailbox. *)
Lemma first_message s m :
  as_mailbox s = emptyMailbox → chargedBytes m <= max_mailbox_bytes_per_actor cfg → mailbox_ok (pushed m s).
Proof.
  intros He Hm. pose proof limits. apply mailbox_ok_pushed; [|unfold slot_messages, slot_bytes, mailbox_size, zlen; rewrite He; cbn; lia..].
  constructor; unfold slot_bytes, slot_messages, mailbox_size, zlen; rewrite He; cbn; lia.
Qed.
End operations.

(** Steps that keep the invariant, one after the other; [keep] takes the lemmas
    of the [keeps] database too. *)
Ltac keep :=
  repeat (intros;
    match goal with
    | |- hoare _ (mbind _ _) _ => apply bind_ok
    | |- hoare _ (if ?b then _ else _) _ => destruct b
    | |- hoare _ (match ?x with _ => _ end) _ => destruct x
    | |- _ => solve [apply ret_ok | apply count_ok | apply count_by_ok | apply now_ok | apply use_outside_ok | apply tell_outside_ok
                    | apply gets_ok | apply next_operation_ok | apply fail_ok; reflexivity | auto with keeps]
    end).
