(* ===== verification/SchedulerDeliver.v ===== *)
(** * Delivery keeps the worker's invariant

    Every way a message or a closed connection reaches an actor
    ([Scheduler.v]): activation with or without a load, local and remote
    delivery, notifications and receipts, and the network calls that notify. *)

From S2P Require Import Prelude FrameCodec Identity Lane TimerQueue HandleRing SlotTable ActorTable Actor Scheduler SchedulerInv SchedulerOps.

Section delivery.
Context {M I T Env : Type} `{Setup : !WorkerSetup M}.
Context `{Heap : !HeapAlgorithms (entry_deadline (M := M))} `{Behaviour : !ActorBehaviour M I T}.
Context `{Outside : !WorkerOutside M I Env}.
Context (Hsu : setup_ok).

Abbreviation Slot := (ActorSlot M I T).
Abbreviation Timers := (TimerQueue (M := M)).
Abbreviation Worker := (Worker M I T Env).
Abbreviation W := (W M I T Env).
Implicit Types (w : Worker) (s : Slot) (q : Timers) (r : running).

Section with_inv.
Context (r : running) (turn : option Z) (plain : nat) (tokens : list Z).
Let Inv : Worker → Prop := sched_ok r turn plain tokens.

(** The last steps of an activation load. *)
Lemma commit_load w0 i s k m key deadline :
  sched_ok r turn (S plain) tokens w0 → reserved_at i s w0 → s = entry_fresh k (as_incarnation s) i →
  await_actor key = k → await_incarnation key = as_incarnation s →
  chargedBytes m <= max_mailbox_bytes_per_actor cfg → wk_messages w0 + 1 <= max_mailbox_messages_total cfg →
  wk_bytes w0 + chargedBytes m <= max_mailbox_bytes_total cfg → wk_loading w0 + 1 <= max_concurrent_loading cfg →
  let loaded := pushed m (set_blocked (Some (ActivationLoad key deadline)) (set_state ActorLoading (set_instance None s))) in
  hoare (staged w0 i (mkStage loaded (wk_ready w0) (wk_armed w0) (wk_timers w0) (wk_messages w0 + 1) (wk_bytes w0 + chargedBytes m)
                        (wk_loading w0) (wk_active_turn w0)))
    (commit_actor i;; timer_do (commitReserved chargedBytes deadline (AwaitTimeout key));; add_loading 1;;
     count activation_loads_started;; mret DeliveryAccepted) (fun _ => Inv).
Proof.
  intros Hok Hres Hs Hk1 Hk2 Hm Hmt Hbt Hl loaded w [E1 E2]. unfold stage_of in E2. cbn in E2. injection E2 as Y1 Y2 Y3 Y4 Y5 Y6 Y7.
  assert (Hmb : as_mailbox s = emptyMailbox) by (by rewrite Hs). pose proof (loading_nonneg _ _ _ _ _ Hok) as Hl0. pose proof (limits Hsu) as Hlim.
  destruct (commit_entry Hsu plain tokens (wk_timers w0) deadline (AwaitTimeout key)) as (q' & Hc & Hq & Hh); [apply Hok|done|].
  unfold commit_actor, timer_do, add_loading, count, count_by, modify, gets, require, mbind, W_bind. cbn. rewrite Y3, Hc. cbn.
  rewrite Y6. destruct (Z.ltb_spec (wk_loading w0 + 1) 0); [lia|].
  eapply (sched_ok_commit r turn (S plain) plain tokens tokens w0 _ i s loaded); cbn; rewrite ?Y1, ?Y2, ?Y4, ?Y5, ?Y7; try done.
  - by rewrite E1.
  - by apply (first_message Hsu).
  - unfold shape, loaded. cbn. eauto.
  - intros d k'. unfold awaiting. cbn. intros [= <- <-]. split_and!; [by rewrite Hk1, Hs|done|]. rewrite Hh. by left.
  - unfold armed, loaded. cbn. by rewrite Hs.
  - intros e He. rewrite Hh. by right.
  - intros R HR. exists R. done.
  - unfold slot_messages, mailbox_size, zlen. cbn. by rewrite Hmb.
  - rewrite Hmb. cbn. lia.
  - exact (k_turn _ _ _ _ _ Hok).
Qed.

(** ** Activation with a load *)

Definition accounts w : Z * Z * Z := (wk_messages w, wk_bytes w, wk_loading w).

Lemma reserve_actor_accounts k w b w' : reserve_actor k w = Done b w' → accounts w' = accounts w.
Proof.
  unfold reserve_actor, gets, require, mbind, W_bind. destruct (actor_tryReserve _ _); cbn; [|done]. by intros [= _ <-].
Qed.

Lemma timer_try_accounts f w b w' : timer_try f w = Done b w' → accounts w' = accounts w.
Proof. unfold timer_try. destruct (f _). by intros [= _ <-]. Qed.

(** A reserved slot changes: no live actor does. *)
Lemma staged_reserved plain' w0 w i s s' :
  sched_ok r turn plain' tokens w0 → reserved_at i s w0 → same_identity s s' →
  staged w0 i (stage_of s' w0) w → sched_ok r turn plain' tokens w ∧ reserved_at i s' w.
Proof.
  intros Hok Hi (I1 & I2 & I3) [E1 E2]. unfold stage_of in E1, E2. cbn in E1, E2. injection E2 as Y1 Y2 Y3 Y4 Y5 Y6 Y7.
  destruct (assign_ok _ i _ s s' (k_table _ _ _ _ _ Hok) Hi eq_refl I1 I2 I3) as (T1 & T2 & T3).
  split; [|unfold reserved_at; by rewrite E1].
  eapply (sched_ok_same _ _ _ _ (with_actors (assign i s' (wk_actors w0)) w0)); [by constructor|].
  apply sched_ok_table; try done.
  - unfold reserved_at, at_slots in Hi. unfold assign, write, actives. cbn. rewrite Hi. cbn.
    destruct (omap_insert_perm committed_entry _ _ _ Hi) as (rest & P1 & P2). by rewrite P1, (P2 (mkSlot (Some s') true false)).
  - intros j x Hj. unfold committed_at, reserved_at, at_slots in *. unfold assign, write. cbn. rewrite Hi. cbn.
    rewrite list_lookup_insert_ne; [done|]. intros ->. congruence.
Qed.

Lemma beginActivationLoad_ok k m : hoare Inv (beginActivationLoad k m) (fun _ => Inv).
Proof.
  unfold beginActivationLoad. apply hoare_read. intros w0. unfold Datatypes.id.
  destruct (wk_shutting_down w0); [by apply hoare_ret; intros w [_ Hw]|]. destruct (negb _); [by apply hoare_ret; intros w [_ Hw]|].
  destruct (Z.leb_spec (max_concurrent_loading cfg) (wk_loading w0)) as [|Hl].
  { apply (hoare_from _ Inv); [by intros w [_ Hw]|]. apply bind_ok; [apply count_ok|intros; apply ret_ok]. }
  destruct (activation_full (chargedBytes m) w0) eqn:Hfull; [by apply hoare_ret; intros w [_ Hw]|].
  apply activation_room in Hfull as (Hm & Hmt & Hbt).
  apply (hoare_from _ (fun w => accounts w = accounts w0 ∧ Inv w)); [by intros w [-> Hw]|].
  eapply hoare_bind; [apply hoare_frame; [apply timer_reserve_entry|apply timer_try_accounts]|]. cbn beta. intros [|]; cbn [negb];
    [|by apply hoare_ret; intros w [_ Hw]].
  eapply hoare_bind; [apply hoare_frame; [apply (reserve_actor_ok Hsu)|apply reserve_actor_accounts]|]. cbn beta. intros [i|].
  2:{ apply (hoare_from _ (sched_ok r turn (S plain) tokens)); [by intros w (_ & Hw & _)|].
      eapply hoare_bind; [apply timer_release_entry|]. intros ?. apply ret_ok. }
  apply hoare_pre. intros w1 (Ha & Hok & Hres). destruct (Hres i eq_refl) as (g & Hg & Hr & Hnew). clear Hres.
  unfold accounts in Ha. injection Ha as A1 A2 A3. set (s := entry_fresh k g i : Slot) in *.
  pose proof (reserved_points _ _ _ Hr) as Hp. pose proof (wk_bytes_nonneg Hsu _ _ _ _ _ Hok) as [Hb0 _].
  pose proof (su_charge Hsu m). pose proof (su_bytes Hsu). pose proof (limits Hsu).
  apply (hoare_from _ (staged w1 i (stage_of s w1))); [intros w <-; by apply staged_init|].
  apply (stage_update Hp). apply stage_skip; [eauto with sched|]. intros op. apply (stage_slot Hp).
  apply stage_skip; [eauto with sched|]. intros t. apply stage_skip; [eauto with sched|]. intros att.
  apply stage_skip; [eauto with sched|]. intros [|res|].
  - apply (hoare_from _ (fun w => sched_ok r turn (S plain) tokens w ∧ reserved_at i (set_state ActorLoading (set_instance None s)) w)).
    { intros w Hw. by eapply staged_reserved. }
    apply (hoare_bind _ _ _ (fun _ w => Inv w ∧ reserved_at i (set_state ActorLoading (set_instance None s)) w)).
    { intros w [Hw Hrw]. pose proof (timer_release_entry _ _ _ _ w Hw) as Ht. unfold timer_do, gets, require, mbind, W_bind in *.
      destruct (releaseReservation _); cbn in *; [|done]. by split. }
    intros _. apply (hoare_bind _ _ _ (fun _ w => Inv w ∧ reserved_at i (set_state ActorLoading (set_instance None s)) w)).
    { intros w [Hw Hrw]. cbn. split; [|done]. exact (count_ok _ _ _ _ loading_limit_rejections w Hw). }
    intros ?. eapply hoare_bind; [apply rollback_actor_ok|]. intros ?. apply ret_ok.
  - by apply hoare_fail.
  - apply (stage_update Hp). apply (stage_push Hp); [cbn; lia..|].
    apply (commit_load w1 i s k m (await_key s op) (after t (await_timeout cfg))); try done; lia.
Qed.

(** ** Delivery *)

(** A message for a live actor. *)
Lemma deliver_live {C} k m i (fin full stop : W C) :
  hoare Inv fin (fun _ => Inv) → hoare Inv full (fun _ => Inv) → hoare Inv stop (fun _ => Inv) →
  hoare (fun w => find_key k (wk_actors w) = Some i ∧ Inv w)
    (s ← slot i;
     if bool_decide (as_state s = ActorStopping) then stop
     else f ← gets (mailbox_full s (chargedBytes m)); if f : bool then full else accept_message i m;; fin) (fun _ => Inv).
Proof.
  intros Hfin Hfull Hstop. apply hoare_pre. intros w [Hf Hok]. destruct (find_key_committed _ _ _ _ _ _ _ Hok Hf) as (s & Hi & Hk).
  eapply hoare_slot; [intros w' <-; by apply committed_points|]. case_bool_decide as Hst; [by apply (hoare_from _ Inv); [intros w' <-|]|].
  apply hoare_read. intros [|]; [by apply (hoare_from _ Inv); [intros w' [_ <-]|]|].
  eapply hoare_bind; [|intros; exact Hfin]. eapply hoare_from; [|apply (admit_ok Hsu _ _ _ _ i s m)]. cbn beta. naive_solver.
Qed.

(** The last steps of an activation without a load. *)
Lemma commit_ready w0 i s m a :
  Inv w0 → reserved_at i s w0 → as_mailbox s = emptyMailbox → as_blocked s = None → as_lifecycle_armed s = false →
  chargedBytes m <= max_mailbox_bytes_per_actor cfg → wk_messages w0 + 1 <= max_mailbox_messages_total cfg →
  wk_bytes w0 + chargedBytes m <= max_mailbox_bytes_total cfg →
  hoare (staged w0 i (mkStage (set_state ActorQueued (pushed m (set_instance (Some a) s))) (wk_ready w0) (wk_armed w0) (wk_timers w0)
                        (wk_messages w0 + 1) (wk_bytes w0 + chargedBytes m) (wk_loading w0) (wk_active_turn w0)))
    (commit_actor i;; push_ready (entry_handle s);; mret DeliveryAccepted) (fun _ => Inv).
Proof.
  intros Hok Hres Hmb Hbl Har Hm Hmt Hbt w [E1 E2]. unfold stage_of in E1, E2. cbn in E1, E2. injection E2 as Y1 Y2 Y3 Y4 Y5 Y6 Y7.
  pose proof (limits Hsu) as Hlim. destruct (k_ready _ _ _ _ _ Hok) as (R & HR & _). pose proof (reserved_room _ _ _ _ _ _ _ Hok Hres) as Hroom.
  unfold commit_actor, push_ready, modify, gets, require, mbind, W_bind. cbn. rewrite Y1, (ready_push_repr HR).
  destruct (Z.eqb_spec (zlen R) (actor_table_capacity cfg)); [specialize (Hroom R HR); lia|]. cbn.
  set (s' := set_state ActorQueued (pushed m (set_instance (Some a) s))) in *.
  assert (Hm' : mailbox_ok s').
  { by apply (mailbox_ok_same (pushed m (set_instance (Some a) s))); [apply (first_message Hsu)|]. }
  eapply (sched_ok_commit r turn plain plain tokens tokens w0 _ i s s'); cbn; rewrite ?Y1, ?Y2, ?Y3, ?Y4, ?Y5, ?Y6, ?Y7; try done.
  - by rewrite E1.
  - unfold shape, s'. cbn. split; [done|]. intros b. by rewrite Hbl.
  - apply timeout_pending_none. unfold awaiting, s'. cbn. by rewrite Hbl.
  - intros R1 HR1. exists (R1 ++ [entry_handle s]). split; [by apply (enqueue_repr HR1), Hroom|].
    unfold here, queued, s'. cbn. by rewrite Permutation_app_comm.
  - unfold slot_messages, mailbox_size, zlen, s'. cbn. by rewrite Hmb.
  - unfold slot_bytes, s'. cbn. by rewrite Hmb.
  - change (loads s') with 0. lia.
  - constructor; [done|done|apply (k_bounds _ _ _ _ _ Hok)].
  - apply Hok.
  - apply (k_turn _ _ _ _ _ Hok).
Qed.

Lemma tryDeliverLocalInternal_ok k m : hoare Inv (tryDeliverLocalInternal k m) (fun _ => Inv).
Proof.
  unfold tryDeliverLocalInternal. destruct (negb _); [keep|]. apply hoare_read. intros [i|].
  { apply deliver_live; apply ret_ok. }
  apply (hoare_from _ Inv); [by intros w [_ Hw]|]. apply hoare_read. intros w0. unfold Datatypes.id.
  destruct (negb _); [by apply hoare_ret; intros w [_ Hw]|].
  destruct (activation_full (chargedBytes m) w0) eqn:Hfull; [by apply hoare_ret; intros w [_ Hw]|].
  apply activation_room in Hfull as (Hm & Hmt & Hbt).
  apply (hoare_from _ (fun w => accounts w = accounts w0 ∧ Inv w)); [by intros w [-> Hw]|].
  eapply hoare_bind; [apply hoare_frame; [apply (reserve_actor_ok Hsu)|apply reserve_actor_accounts]|]. cbn beta. intros [i|].
  2:{ by apply hoare_ret; intros w (_ & Hw & _). }
  apply hoare_pre. intros w1 (Ha & Hok & Hres). destruct (Hres i eq_refl) as (g & Hg & Hr & Hnew). clear Hres.
  unfold accounts in Ha. injection Ha as A1 A2 A3. set (s := entry_fresh k g i : Slot) in *.
  pose proof (reserved_points _ _ _ Hr) as Hp. pose proof (wk_bytes_nonneg Hsu _ _ _ _ _ Hok) as [Hb0 _].
  pose proof (su_charge Hsu m). pose proof (su_bytes Hsu). pose proof (limits Hsu).
  apply (hoare_from _ (staged w1 i (stage_of s w1))); [intros w <-; by apply staged_init|].
  apply stage_skip; [eauto with sched|]. intros c.
  assert (Hback : ∀ w, staged w1 i (stage_of s w1) w → Inv w ∧ reserved_at i s w) by (intros w Hw; by eapply staged_reserved).
  destruct c as [| | |[a|]]; try by apply hoare_fail.
  - apply (hoare_from _ _ _ _ Hback).
    apply (hoare_bind _ _ _ (fun _ w => Inv w ∧ reserved_at i s w)).
    { intros w [Hw Hrw]. cbn. split; [|done]. exact (count_ok _ _ _ _ construction_rejections w Hw). }
    intros ?. eapply hoare_bind; [apply rollback_actor_ok|]. intros ?. apply ret_ok.
  - apply (hoare_from _ _ _ _ Hback). eapply hoare_bind; [apply rollback_actor_ok|]. intros ?. apply beginActivationLoad_ok.
  - apply (stage_update Hp). apply (stage_push Hp); [cbn; lia..|]. apply (stage_update Hp), (stage_slot Hp).
    apply (commit_ready w1 i s m a); try done; lia.
Qed.

Lemma tellInternal_ok k m allow : hoare Inv (tellInternal k m allow) (fun _ => Inv).
Proof. unfold tellInternal. pose proof tryDeliverLocalInternal_ok. keep. Qed.

Lemma tell_ok k m : hoare Inv (tell k m) (fun _ => Inv).
Proof. unfold tell. pose proof tellInternal_ok. keep. Qed.

Lemma tryDeliverLocal_ok k m : hoare Inv (tryDeliverLocal k m) (fun _ => Inv).
Proof. unfold tryDeliverLocal. pose proof tryDeliverLocalInternal_ok. keep. Qed.

Lemma receipt_ok k c result : hoare Inv (sendActorConnectionClosedReceipt k c result) (fun _ => Inv).
Proof. unfold sendActorConnectionClosedReceipt. keep. Qed.

Lemma deliver_closed_ok k c m : hoare Inv (deliverActorConnectionClosedLocally k c m) (fun _ => Inv).
Proof.
  unfold deliverActorConnectionClosedLocally. pose proof receipt_ok as Hr. destruct (negb _); [keep|]. apply hoare_read. intros [i|].
  - apply deliver_live; keep.
  - apply (hoare_from _ Inv); [by intros w [_ Hw]|]. keep.
Qed.

Lemma notify_ok k c m : hoare Inv (notifyActorConnectionClosed k c m) (fun _ => Inv).
Proof. unfold notifyActorConnectionClosed. pose proof deliver_closed_ok. keep. Qed.

Lemma notify_all_ok notices : hoare Inv (notify_all notices) (fun _ => Inv).
Proof. induction notices as [|n rest IH]; cbn [notify_all]; [apply ret_ok|]. apply bind_ok; [apply notify_ok|intros; exact IH]. Qed.

(** ** The network *)

Lemma trySchedule_keeps q d (p : TimerPayload (M := M)) :
  timers_ok chargedBytes plain tokens q →
  timers_ok chargedBytes plain tokens (trySchedule chargedBytes d p q).2 ∧ heap_keeps q (trySchedule chargedBytes d p q).2.
Proof.
  intros Hok. destruct (trySchedule_ok chargedBytes (su_charge Hsu) _ _ _ d p Hok) as (H1 & _ & H2). split; [done|]. intros e He.
  destruct (trySchedule chargedBytes d p q) as [[] q'] eqn:E; cbn in *; [rewrite H2 by done; by right|].
  unfold trySchedule in E. repeat case_match; by simplify_eq.
Qed.

Lemma close_deadlines_ok q q' :
  close_deadlines q q' → timers_ok chargedBytes plain tokens q → timers_ok chargedBytes plain tokens q' ∧ heap_keeps q q'.
Proof.
  induction 1 as [q|q q' d h Hq IH]; [intros Hok; split; [done|by intros e]|]. intros Hok. destruct (IH Hok) as [H1 H2].
  destruct (trySchedule_keeps q' d (ConnectionCloseDeadline h) H1) as [H3 H4]. split; [done|]. intros e He. by apply H4, H2.
Qed.

Lemma use_network_ok {B} (f : Timers * Env → B * (Timers * Env)) :
  (∀ x, close_deadlines x.1 (f x).2.1) → hoare Inv (use_network f) (fun _ => Inv).
Proof.
  intros Hf w Hok. unfold use_network. specialize (Hf (wk_timers w, wk_outside w)).
  destruct (f (wk_timers w, wk_outside w)) as [b [q o]]. cbn in Hf.
  destruct (close_deadlines_ok _ _ Hf (k_timers _ _ _ _ _ Hok)) as [H1 H2].
  apply (sched_ok_same _ _ _ _ (with_timers q w)); [by constructor|]. by eapply sched_ok_timers.
Qed.

Lemma sendLocal_ok c f critical : hoare Inv (sendLocal c f critical) (fun _ => Inv).
Proof.
  unfold sendLocal. pose proof notify_all_ok. pose proof (use_network_ok (send_local c f critical) (send_deadlines c f critical)). keep.
Qed.

Lemma closeLocal_ok c reason graceful : hoare Inv (closeLocal c reason graceful) (fun _ => Inv).
Proof.
  unfold closeLocal. pose proof notify_all_ok.
  pose proof (use_network_ok (close_local c reason graceful) (close_local_deadlines c reason graceful)). keep.
Qed.

Lemma send_ok c f critical : hoare Inv (send c f critical) (fun _ => Inv).
Proof. unfold send. pose proof sendLocal_ok. keep. Qed.

Lemma closeConnection_ok c reason graceful : hoare Inv (closeConnection c reason graceful) (fun _ => Inv).
Proof. unfold closeConnection. pose proof closeLocal_ok. keep. Qed.

Lemma onEvent_ok e : hoare Inv (onEvent e) (fun _ => Inv).
Proof.
  unfold onEvent. pose proof sendLocal_ok. pose proof closeConnection_ok. pose proof deliver_closed_ok.
  pose proof tryDeliverLocalInternal_ok. keep.
Qed.
End with_inv.
End delivery.
