(* ===== verification/SchedulerTurns.v ===== *)
(** * Turns keep the worker's invariant

    A turn from its begin to its end ([Scheduler.v]): the timer reservations the
    actor's code takes, its effects, its suspension, and the actor's way back to
    rest or into the ready queue. *)

From S2P Require Import Prelude FrameCodec Identity Lane TimerQueue HandleRing SlotTable ActorTable Actor Scheduler SchedulerInv SchedulerOps SchedulerDeliver.

Section turns.
Context {M I T Env : Type} `{Setup : !WorkerSetup M}.
Context `{Heap : !HeapAlgorithms (entry_deadline (M := M))} `{Behaviour : !ActorBehaviour M I T}.
Context `{Outside : !WorkerOutside M I Env}.
Context (Hsu : setup_ok).

Abbreviation Slot := (ActorSlot M I T).
Abbreviation Timers := (TimerQueue (M := M)).
Abbreviation Worker := (Worker M I T Env).
Abbreviation W := (W M I T Env).
Implicit Types (w : Worker) (s : Slot) (q : Timers) (r : running) (g : @Stage M I T).

(** ** One actor in focus *)

(** Nobody has the turn, or the actor in slot [i] has it. *)
Definition focus (i : nat) r : Prop := r = None ∨ ∃ st, r = Some (i, st).

Lemma focus_none i : focus i None.
Proof. by left. Qed.

Lemma focus_some i st : focus i (Some (i, st)).
Proof. right. by exists st. Qed.

Lemma focus_others i r r' s : focus i r → focus i r' → as_slot_index s ≠ i → run_state r s → run_state r' s.
Proof. intros [->|[st ->]] [->|[st' ->]] Hne; unfold run_state; by rewrite ?decide_False by done. Qed.

(** What a stage has to satisfy for the invariant to hold again. *)
Lemma stage_close r r' turn plain plain' tokens tokens' w0 w i s g :
  sched_ok r turn plain tokens w0 → committed_at i s w0 → staged w0 i g w → focus i r → focus i r' →
  same_identity s (stg_slot g) → as_mailbox (stg_slot g) = as_mailbox s → armed (stg_slot g) = armed s → queued s = false →
  stg_ready g = (if queued (stg_slot g) then enqueue (entry_handle s) (wk_ready w0) else wk_ready w0) →
  stg_armed g = wk_armed w0 → stg_messages g = wk_messages w0 → stg_bytes g = wk_bytes w0 →
  stg_loading g = wk_loading w0 - loads s + loads (stg_slot g) → loads (stg_slot g) <= loads s →
  shape (stg_slot g) → timeout_pending (stg_slot g) (stg_timers g) → run_state r' (stg_slot g) →
  (∀ x : Slot, as_key x ≠ as_key s → timeout_pending x (wk_timers w0) → timeout_pending x (stg_timers g)) →
  timers_ok chargedBytes plain' tokens' (stg_timers g) → stg_turn g = wk_active_turn w0 →
  sched_ok r' turn plain' tokens' w.
Proof.
  intros Hok Hi [E1 E2] Hf Hf' Hid Hmb Har Hq Hre Hga Hgm Hgb Hgl Hle Hsh Hto Hrs Hoth Hti Htu.
  pose proof (committed_good _ _ _ _ _ _ _ Hok Hi) as [Gm Gs Gt Gr].
  assert (Er : wk_ready w = stg_ready g) by (by rewrite <-E2). assert (Ea : wk_armed w = stg_armed g) by (by rewrite <-E2).
  assert (Et : wk_timers w = stg_timers g) by (by rewrite <-E2). assert (Em : wk_messages w = stg_messages g) by (by rewrite <-E2).
  assert (Eb : wk_bytes w = stg_bytes g) by (by rewrite <-E2). assert (El : wk_loading w = stg_loading g) by (by rewrite <-E2).
  assert (Eu : wk_active_turn w = stg_turn g) by (by rewrite <-E2).
  assert (Hsm : slot_messages (stg_slot g) = slot_messages s) by (unfold slot_messages; by rewrite Hmb).
  assert (Hsb : slot_bytes (stg_slot g) = slot_bytes s) by (unfold slot_bytes; by rewrite Hmb).
  pose proof (k_bounds _ _ _ _ _ Hok) as [B1 B2 B3].
  eapply (sched_ok_assign r r' turn turn plain plain' tokens tokens' w0 w i s (stg_slot g)); try done; try lia.
  - constructor; [by eapply mailbox_ok_same|done|by rewrite Et|done].
  - intros x Hx Hk [X1 X2 X3 X4]. constructor; try done; [rewrite Et; by apply Hoth|exact (focus_others i r r' x Hf Hf' Hx X4)].
  - rewrite Er, Hre. destruct (queued (stg_slot g)) eqn:Hq'.
    + apply (ready_enters w0 _ s); [by rewrite (same_handle _ _ Hid)|done|done|by eapply ready_room'].
    + apply ready_stays; [done|by rewrite Hq, Hq'|by apply same_handle].
  - intros X HX. unfold here in *. rewrite Ea, Hga, Har, (same_handle _ _ Hid). done.
  - constructor; lia.
  - by rewrite Et.
  - rewrite Eu, Htu. apply (k_turn _ _ _ _ _ Hok).
  - intros j st Hj. left. destruct Hf' as [->|[st' ->]]; [done|]. by injection Hj.
Qed.

Lemma hoare_tail {B} (P : Worker → Prop) (m : W B) Q : hoare P (m ≫= mret) Q → hoare P m Q.
Proof. intros H w Hw. specialize (H w Hw). unfold mbind, W_bind in H. by destruct (m w). Qed.

Definition enqueued g : Stage :=
  mkStage (set_state ActorQueued (stg_slot g)) (enqueue (entry_handle (stg_slot g)) (stg_ready g)) (stg_armed g) (stg_timers g)
    (stg_messages g) (stg_bytes g) (stg_loading g) (stg_turn g).

Lemma stage_enqueue {B} r turn plain tokens w0 i s g (k : () → W B) Q :
  sched_ok r turn plain tokens w0 → committed_at i s w0 → queued s = false → stg_ready g = wk_ready w0 →
  hoare (staged w0 i (enqueued g)) (k ()) Q → hoare (staged w0 i g) (enqueue_actor i ≫= k) Q.
Proof.
  intros Hok Hi Hq Hr Hk w Hw. pose proof (committed_points _ _ _ Hi) as Hp. pose proof (staged_points Hp _ _ Hw) as Hpw.
  destruct (k_ready _ _ _ _ _ Hok) as (R & HR & _). destruct Hw as [E1 E2].
  assert (Er : wk_ready w = wk_ready w0) by (rewrite <-Hr; by rewrite <-E2).
  rewrite (bind_Done _ _ _ () _ (enqueue_actor_eq i _ w R Hpw ltac:(by rewrite Er) ltac:(by eapply ready_room'))).
  apply Hk. constructor; cbn; [by rewrite E1, assign_assign|]. unfold stage_of, enqueued. cbn. by rewrite <-E2.
Qed.

Lemma stage_timers {B} w0 i g q' (f : Timers → option Timers) (k : () → W B) Q :
  f (stg_timers g) = Some q' →
  hoare (staged w0 i (mkStage (stg_slot g) (stg_ready g) (stg_armed g) q' (stg_messages g) (stg_bytes g) (stg_loading g) (stg_turn g)))
    (k ()) Q →
  hoare (staged w0 i g) (timer_do f ≫= k) Q.
Proof.
  intros Hf Hk w [E1 E2]. assert (Et : wk_timers w = stg_timers g) by (by rewrite <-E2).
  unfold timer_do, gets, require, mbind, W_bind. rewrite Et, Hf. cbn. apply Hk. constructor; cbn; [done|].
  unfold stage_of. cbn. by rewrite <-E2.
Qed.

(** ** The scope of a turn *)

Lemma sched_ok_turn r turn turn' plain tokens w n :
  sched_ok r turn plain tokens w → sched_ok r turn' plain tokens (with_turns n turn' w).
Proof. intros [K1 K2 K3 K4 K5 K6 K7]. by constructor. Qed.

Lemma begin_turn_ok r plain : hoare (sched_ok r None plain []) begin_turn (fun id (w : Worker) => sched_ok r (Some id) plain [] w).
Proof.
  unfold begin_turn. apply hoare_read. intros w. unfold Datatypes.id. intros w' [-> Hok].
  rewrite (k_turn _ _ _ _ _ Hok), (to_app_entries _ _ _ _ (k_timers _ _ _ _ _ Hok)). cbn.
  destruct (wk_last_turn w =? U64_MAX); [done|]. by eapply sched_ok_turn.
Qed.

Lemma end_turn_ok r id plain tokens : hoare (sched_ok r (Some id) plain tokens) (end_turn id) (fun _ (w : Worker) => sched_ok r None plain [] w).
Proof.
  unfold end_turn. apply hoare_read. intros w. unfold Datatypes.id. intros w' [-> Hok].
  rewrite (k_turn _ _ _ _ _ Hok), (to_app_entries _ _ _ _ (k_timers _ _ _ _ _ Hok)). rewrite bool_decide_eq_true_2 by done. cbn [negb].
  destruct (Z.eqb_spec (zlen tokens) 0) as [Hz|]; [|done]. cbn. destruct tokens; [by eapply sched_ok_turn|].
  unfold zlen in Hz. simpl in Hz. lia.
Qed.

(** ** Timer reservations of an actor *)

Lemma timers_ok_perm plain tokens tokens' q :
  tokens ≡ₚ tokens' → timers_ok chargedBytes plain tokens q → timers_ok chargedBytes plain tokens' q.
Proof.
  intros Hp [H1 H2 H3 H4 H5 H6 H7 H8 H9 H10]. pose proof (Permutation_length Hp) as Hl. unfold zlen in *.
  constructor; unfold zlen; try done; [by rewrite <-Hl|by rewrite <-Hl|by rewrite <-(zsum_perm _ _ _ Hp)|by rewrite <-Hp].
Qed.

Lemma sched_ok_tokens r turn plain tokens tokens' w :
  tokens ≡ₚ tokens' → sched_ok r turn plain tokens w → sched_ok r turn plain tokens' w.
Proof. intros Hp [K1 K2 K3 K4 K5 K6 K7]. constructor; try done. by eapply timers_ok_perm. Qed.

(** The charges of the reservations that are still to be given back. *)
Definition live_charge (r : TimerReservation) : option Z := tr_admission r ≫= fun _ => Some (tr_charged_bytes r).
Definition charges (held : list TimerReservation) : list Z := omap live_charge held.

Lemma timer_reserve_ok r turn plain tokens c n :
  0 <= c →
  hoare (sched_ok r turn plain tokens) (timer_reserve c n)
    (fun o (w : Worker) => sched_ok r turn plain (charges (option_list o) ++ tokens) w).
Proof.
  intros Hc. unfold timer_reserve. apply hoare_read. intros w. destruct (_ || _); [by apply hoare_fail|].
  destruct (_ || _); [by apply hoare_ret; intros w' [_ Hw]|]. intros w' [_ Hok]. unfold timer_try, mbind, W_bind.
  pose proof (tryReserveApplicationTimer_ok chargedBytes _ _ _ c (k_timers _ _ _ _ _ Hok) Hc) as Ht. cbn zeta in Ht.
  assert (Hh : tq_heap (tryReserveApplicationTimer c (wk_timers w')).2 = tq_heap (wk_timers w')).
  { unfold tryReserveApplicationTimer. by repeat case_match. }
  destruct (tryReserveApplicationTimer c (wk_timers w')) as [ok q']. cbn in *.
  eapply sched_ok_timers; [done| |intros e; by rewrite Hh]. destruct ok; [done|]. subst q'. apply Hok.
Qed.

Lemma timer_drop_ok r turn plain tokens tr :
  hoare (sched_ok r turn plain (charges [tr] ++ tokens)) (timer_drop tr)
    (fun _ w => sched_ok (I := I) (T := T) (Env := Env) r turn plain tokens w).
Proof.
  unfold timer_drop, charges. cbn. unfold live_charge. destruct (tr_admission tr); [|by apply hoare_ret].
  intros w Hok. unfold timer_do, gets, mbind, W_bind.
  destruct (releaseApplicationTimerReservation_ok chargedBytes _ _ _ 0 (tr_charged_bytes tr) (k_timers _ _ _ _ _ Hok) eq_refl)
    as (q' & Hq & Ht).
  rewrite Hq. cbn. eapply sched_ok_timers; [done|done|]. intros e. unfold releaseApplicationTimerReservation, requireInvariant in Hq.
  destruct (_ && _); [|done]. by injection Hq as <-.
Qed.

(** What the code of a turn leaves behind. *)
Definition turn_ends r turn plain (res : I * (list (Effect M) + T)) w : Prop :=
  match res.2 with
  | inl effects => sched_ok r turn plain (charges (omap effect_reservation effects)) w
  | inr _ => ∃ tokens, sched_ok r turn plain tokens w
  end.

Lemma run_turn_ok r turn plain (t : Turn M I T) held :
  linear held t → hoare (sched_ok r turn plain (charges held)) (run_turn t) (turn_ends r turn plain).
Proof.
  revert held. induction t as [|c n k IH|tr k IH|a effects|a task]; intros held Hl; cbn [run_turn linear] in *.
  - by apply hoare_fail.
  - destruct Hl as (Hc & Hl0 & Hl1). eapply hoare_bind; [by apply timer_reserve_ok|]. cbn beta. intros [tr|].
    + unfold charges. rewrite <-omap_app. apply (IH _ (tr :: held) (Hl1 tr)).
    + apply (IH _ held Hl0).
  - destruct Hl as (rest & Hp & Hl). apply (hoare_from _ (sched_ok r turn plain (charges [tr] ++ charges rest))).
    { intros w. apply sched_ok_tokens. unfold charges. rewrite Hp, <-omap_app. done. }
    eapply hoare_bind; [apply timer_drop_ok|]. intros ?. by apply IH.
  - apply hoare_ret. intros w. unfold turn_ends. cbn. apply sched_ok_tokens. unfold charges. by rewrite Hl.
  - apply hoare_ret. intros w Hw. by eexists.
Qed.

(** ** The actor that has the turn *)

Lemma hoare_current {B} i inc st turn plain tokens (m : W B) Q :
  (∀ w s, sched_ok (Some (i, (inc, st))) turn plain tokens w → committed_at i s w → as_state s = st → as_blocked s = None →
    is_Some (as_instance s) → entry_handle s = mkActorHandle (u32 (Z.of_nat i)) inc → st = ActorRunning ∨ st = ActorStopping →
    hoare (staged w i (stage_of s w)) m Q) →
  hoare (sched_ok (Some (i, (inc, st))) turn plain tokens) m Q.
Proof.
  intros H w Hok. destruct (current_slot _ _ _ _ _ _ _ Hok) as (s & Hi & Hh & Hst & Hor & Hb & Hin).
  apply (H w s Hok Hi Hst Hb Hin Hh Hor). apply staged_init. by apply committed_points.
Qed.

Lemma not_queued s st : as_state s = st → st ≠ ActorQueued → queued s = false.
Proof. intros <- Hne. unfold queued. by rewrite bool_decide_eq_false_2. Qed.

Lemma not_loading s st : as_state s = st → st ≠ ActorLoading → loads s = 0.
Proof. intros <- Hne. unfold loads. by rewrite bool_decide_eq_false_2. Qed.

Lemma update_current i inc st st' turn plain tokens f :
  (∀ s, as_state s = st → is_Some (as_instance s) →
    same_identity s (f s) ∧ as_mailbox (f s) = as_mailbox s ∧ armed (f s) = armed s ∧ as_blocked (f s) = as_blocked s ∧
    is_Some (as_instance (f s)) ∧ as_state (f s) = st') →
  st' = ActorRunning ∨ st' = ActorStopping →
  hoare (sched_ok (Some (i, (inc, st))) turn plain tokens) (update i f)
    (fun _ (w : Worker) => sched_ok (Some (i, (inc, st'))) turn plain tokens w).
Proof.
  intros Hf Hor'. apply hoare_current. intros w s Hok Hi Hst Hb Hin Hh Hor. destruct (Hf s Hst Hin) as (F1 & F2 & F3 & F4 & F5 & F6).
  apply hoare_tail, (stage_update (committed_points _ _ _ Hi)), hoare_ret. intros w' Hw'.
  assert (Q1 : queued s = false) by (apply (not_queued s st); [done|by destruct Hor as [->| ->]]).
  assert (Q2 : queued (f s) = false) by (apply (not_queued _ st'); [done|by destruct Hor' as [->| ->]]).
  assert (L1 : loads s = 0) by (apply (not_loading s st); [done|by destruct Hor as [->| ->]]).
  assert (L2 : loads (f s) = 0) by (apply (not_loading _ st'); [done|by destruct Hor' as [->| ->]]).
  pose proof (committed_good _ _ _ _ _ _ _ Hok Hi) as [_ _ _ Gr].
  eapply (stage_close _ _ _ _ _ _ _ w w' i s _ Hok Hi Hw'); cbn [stg_slot stg_ready stg_armed stg_messages stg_bytes stg_loading stg_timers stg_turn to_slot stage_of];
    try done; try lia.
  - apply focus_some.
  - apply focus_some.
  - by rewrite Q2.
  - unfold shape. rewrite F6, F4. by destruct Hor' as [->| ->].
  - apply timeout_pending_none. unfold awaiting. by rewrite F4, Hb.
  - unfold run_state in *. destruct F1 as (_ & F1 & F1'). rewrite F1'. rewrite (committed_index _ _ _ _ _ _ _ Hok Hi) in *.
    rewrite decide_True in * by done. rewrite F1. naive_solver.
  - apply Hok.
Qed.

(** ** Effects *)

Lemma commit_timer_ok r turn plain tokens d target m :
  hoare (sched_ok r turn plain (chargedBytes m :: tokens)) (timer_do (commitReservedApplicationTimer chargedBytes d target m (chargedBytes m)))
    (fun _ (w : Worker) => sched_ok r turn plain tokens w).
Proof.
  intros w Hok. unfold timer_do, gets, mbind, W_bind. pose proof (k_timers _ _ _ _ _ Hok) as Hto.
  destruct (commitReservedApplicationTimer_ok chargedBytes (su_charge Hsu) _ _ _ 0 m d target Hto eq_refl) as (q' & Hq & Ht).
  rewrite Hq. cbn. eapply sched_ok_timers; [done|done|]. intros e He. unfold commitReservedApplicationTimer, requireInvariant in Hq.
  destruct (_ && _); [|done]. injection Hq as <-. cbn. rewrite (proj1 (push_heap_spec _ _ _ (to_heap _ _ _ _ Hto))). set_solver.
Qed.

Lemma timer_schedule_ok r turn plain tokens d p :
  hoare (sched_ok r turn plain tokens) (timer_try (trySchedule chargedBytes d p)) (fun _ (w : Worker) => sched_ok r turn plain tokens w).
Proof.
  intros w Hok. unfold timer_try. destruct (trySchedule_keeps Hsu _ _ _ d p (k_timers _ _ _ _ _ Hok)) as [H1 H2].
  destruct (trySchedule chargedBytes d p (wk_timers w)) as [b q']. cbn in *. by eapply sched_ok_timers.
Qed.

Lemma read_current {B} i inc st turn plain tokens (k : Slot → W B) Q :
  (∀ s, entry_handle s = mkActorHandle (u32 (Z.of_nat i)) inc → as_blocked s = None → is_Some (as_instance s) →
    hoare (fun w => committed_at i s w ∧ sched_ok (Some (i, (inc, st))) turn plain tokens w) (k s) Q) →
  hoare (sched_ok (Some (i, (inc, st))) turn plain tokens) (slot i ≫= k) Q.
Proof.
  intros Hk w Hok. destruct (current_slot _ _ _ _ _ _ _ Hok) as (s & Hi & Hh & Hst & Hor & Hb & Hin).
  rewrite (bind_Done _ _ _ _ _ (slot_eq _ _ _ (committed_points _ _ _ Hi))). by apply Hk.
Qed.

Lemma drop_effects_ok r turn plain tokens effects :
  hoare (sched_ok r turn plain (charges (omap effect_reservation effects) ++ tokens)) (drop_effects effects)
    (fun _ (w : Worker) => sched_ok r turn plain tokens w).
Proof.
  induction effects as [|e rest IH]; cbn [drop_effects omap list_omap]; [by apply hoare_ret|].
  apply (hoare_bind _ _ _ (fun _ => sched_ok r turn plain (charges (omap effect_reservation rest) ++ tokens))); [|intros _; exact IH].
  destruct (effect_reservation e) as [tr|]; [|by apply hoare_ret].
  change (tr :: omap effect_reservation rest) with ([tr] ++ omap effect_reservation rest). unfold charges. rewrite omap_app, <-app_assoc.
  apply timer_drop_ok.
Qed.

Lemma check_effects_ok (P : Worker → Prop) n effects :
  hoare P (check_effects n effects) (fun _ w => P w ∧ Forall (fun e => check_reservation n e = None) effects).
Proof.
  induction effects as [|e rest IH]; cbn [check_effects]; [by apply hoare_ret|].
  destruct (check_reservation n e) eqn:He.
  - apply hoare_fail. unfold check_reservation in He. repeat case_match; by simplify_eq.
  - eapply hoare_weaken; [exact IH|done|]. intros _ w [Hw Hf]. split; [done|by constructor].
Qed.

Definition after_effects (stopped : bool) : ActorState := if stopped then ActorStopping else ActorRunning.

Lemma apply_effect_ok i inc turn plain tokens n stopped e :
  check_reservation n e = None →
  hoare (sched_ok (Some (i, (inc, after_effects stopped))) turn plain (charges (option_list (effect_reservation e)) ++ tokens))
    (apply_effect i e)
    (fun res (w : Worker) => sched_ok (Some (i, (inc, after_effects (stopped || res.1)))) turn plain tokens w).
Proof.
  intros Hc. set (P := sched_ok (Some (i, (inc, after_effects stopped))) turn plain tokens : Worker → Prop).
  assert (Hfin : ∀ (m : W ()) (b : bool), hoare P m (fun _ => P) →
            hoare P (m;; mret (false, b))
              (fun res (w : Worker) => sched_ok (Some (i, (inc, after_effects (stopped || res.1)))) turn plain tokens w)).
  { intros m b Hm. eapply hoare_bind; [exact Hm|]. intros ?. apply hoare_ret. intros w. cbn. by rewrite orb_false_r. }
  assert (Hcnt : ∀ c, hoare P (count c) (fun _ => P)) by (intros; apply count_ok).
  destruct e as [c f critical|c reason graceful|target m| |d m [tr|]]; cbn [apply_effect effect_reservation option_list].
  - eapply hoare_bind; [apply (send_ok Hsu)|]. intros res. apply Hfin. keep.
  - eapply hoare_bind; [apply (closeConnection_ok Hsu)|]. intros res. apply Hfin. keep.
  - eapply hoare_bind; [apply (tellInternal_ok Hsu)|]. intros res. apply Hfin. keep.
  - eapply hoare_bind; [apply (update_current i inc _ ActorStopping)|].
    + intros s _ Hin. by split_and!.
    + by right.
    + intros ?. apply hoare_ret. intros w. cbn. by rewrite orb_true_r.
  - cbn in Hc. case_bool_decide as Had; [|done]. cbn [negb] in Hc. destruct (Z.eqb_spec (tr_charged_bytes tr) (chargedBytes m)) as [Hm|]; [|done].
    assert (Hch : charges [tr] = [chargedBytes m]) by (unfold charges; cbn; unfold live_charge; by rewrite Had, Hm).
    change (charges (option_list (Some tr)) ++ tokens) with (charges [tr] ++ tokens). rewrite Hch, Hm. cbn [app]. apply read_current. intros s _ _ _.
    apply (hoare_from _ (sched_ok (Some (i, (inc, after_effects stopped))) turn plain (chargedBytes m :: tokens))); [by intros w [_ Hw]|].
    eapply hoare_bind; [apply commit_timer_ok|]. intros ?. by apply Hfin.
  - apply read_current. intros s _ _ _. apply (hoare_from _ P); [by intros w [_ Hw]|]. apply hoare_read. intros w0.
    apply (hoare_from _ P); [by intros w [_ Hw]|]. destruct (_ || _); [by apply Hfin|].
    eapply hoare_bind; [apply (timer_schedule_ok _ _ _ _ d (ApplicationTimer (entry_activation s) m))|]. intros [|]; by apply Hfin.
Qed.

Lemma apply_effects_ok i inc turn plain n effects stopped :
  Forall (fun e => check_reservation n e = None) effects →
  hoare (sched_ok (Some (i, (inc, after_effects stopped))) turn plain (charges (omap effect_reservation effects)))
    (apply_effects i effects stopped)
    (fun b (w : Worker) => sched_ok (Some (i, (inc, after_effects b))) turn plain [] w).
Proof.
  intros Hf. revert stopped. induction Hf as [|e rest He Hf IH]; intros stopped; cbn [apply_effects]; [by apply hoare_ret|].
  set (tokens := charges (omap effect_reservation rest)).
  apply (hoare_from _ (sched_ok (Some (i, (inc, after_effects stopped))) turn plain (charges (option_list (effect_reservation e)) ++ tokens))).
  { intros w. apply sched_ok_tokens. unfold tokens, charges. rewrite <-omap_app. cbn. by destruct (effect_reservation e). }
  eapply hoare_bind; [by apply (apply_effect_ok i inc turn plain tokens n)|]. intros [stop [|]]; cbn [fst]; [apply IH|].
  apply (hoare_bind _ _ _ (fun _ (w : Worker) => sched_ok (Some (i, (inc, after_effects (stopped || stop)))) turn plain [] w));
    [|intros ?; by apply hoare_ret]. unfold tokens. rewrite <-(app_nil_r (charges _)). apply drop_effects_ok.
Qed.

(** [applyEffectBatch] leaves no reservation behind. *)
Lemma applyEffectBatch_ok i inc turn plain n effects :
  hoare (sched_ok (Some (i, (inc, ActorRunning))) turn plain (charges (omap effect_reservation effects))) (applyEffectBatch i effects n)
    (fun b (w : Worker) => sched_ok (Some (i, (inc, after_effects b))) turn plain [] w).
Proof.
  unfold applyEffectBatch. destruct (_ <? _); [by apply hoare_fail|]. destruct (_ && _); [by apply hoare_fail|].
  eapply hoare_bind; [apply check_effects_ok|]. intros ?. apply hoare_pre. intros w [Hw Hf].
  eapply hoare_from; [by intros w' <-; exact Hw|]. by apply (apply_effects_ok i inc turn plain n effects false).
Qed.

(** ** Where an actor goes after its turn *)

(** The accounts of a stage are those of the state it started from. *)
Record level w0 s g : Prop := {
  lv_ready : stg_ready g = wk_ready w0;
  lv_armed : stg_armed g = wk_armed w0;
  lv_messages : stg_messages g = wk_messages w0;
  lv_bytes : stg_bytes g = wk_bytes w0;
  lv_turn : stg_turn g = wk_active_turn w0;
  lv_identity : same_identity s (stg_slot g);
  lv_mailbox : as_mailbox (stg_slot g) = as_mailbox s;
  lv_arm : armed (stg_slot g) = armed s
}.

(** The timers may lack entries that only this actor waits for. *)
Definition spares s q q' : Prop := ∀ x : Slot, as_key x ≠ as_key s → timeout_pending x q → timeout_pending x q'.

Lemma spares_keeps s q q' : heap_keeps q q' → spares s q q'.
Proof. intros Hq x _ Hx. by eapply timeout_pending_same. Qed.

Lemma spares_same s q : spares s q q.
Proof. by intros x. Qed.

(** Into the ready queue. *)
Lemma stage_ready {B} r turn plain plain' tokens w0 i s g (k : () → W B) Q :
  sched_ok r turn plain tokens w0 → committed_at i s w0 → focus i r → queued s = false → level w0 s g →
  stg_loading g = wk_loading w0 - loads s → is_Some (as_instance (stg_slot g)) →
  (∀ b, as_blocked (stg_slot g) = Some b → answered b = true) →
  timers_ok chargedBytes plain' tokens (stg_timers g) → spares s (wk_timers w0) (stg_timers g) →
  hoare (sched_ok None turn plain' tokens) (k ()) Q → hoare (staged w0 i g) (enqueue_actor i ≫= k) Q.
Proof.
  intros Hok Hi Hf Hq [V1 V2 V3 V4 V5 V6 V7 V8] Hl Hin Hbl Hti Hsp Hk.
  eapply stage_enqueue; [done|done|done|done|]. eapply hoare_from; [|exact Hk]. intros w Hw.
  assert (Hlo : loads (set_state ActorQueued (stg_slot g)) = 0) by (by apply (not_loading _ ActorQueued)).
  assert (0 <= loads s) by (unfold loads; by destruct (bool_decide _)).
  eapply (stage_close r None turn plain plain' tokens tokens w0 w i s _ Hok Hi Hw); cbn [enqueued stg_slot stg_ready stg_armed stg_messages stg_bytes stg_loading stg_timers stg_turn];
    try done; try lia; [apply focus_none| |].
  - change (queued (set_state ActorQueued (stg_slot g))) with true. cbv iota. by rewrite V1, (same_handle _ _ V6).
  - apply timeout_pending_none. unfold awaiting. cbn. destruct (as_blocked (stg_slot g)) as [b|]; [|done]. specialize (Hbl b eq_refl).
    by destruct b as [k' d t [o|]|k' d t [o|]|k' d].
Qed.

(** Waiting for an answer, with a timeout. *)
Lemma stage_wait {B} r turn plain plain' tokens w0 i s g d key b (k : () → W B) Q :
  sched_ok r turn plain tokens w0 → committed_at i s w0 → focus i r → queued s = false → loads s = 0 → level w0 s g →
  stg_loading g = wk_loading w0 → as_state (stg_slot g) = ActorSuspended → is_Some (as_instance (stg_slot g)) →
  as_blocked (stg_slot g) = Some b → answered b = false → is_load b = false → awaiting (stg_slot g) = Some (d, key) →
  await_actor key = as_key s → await_incarnation key = as_incarnation s →
  timers_ok chargedBytes (S plain') tokens (stg_timers g) → heap_keeps (wk_timers w0) (stg_timers g) →
  hoare (sched_ok None turn plain' tokens) (k ()) Q →
  hoare (staged w0 i g) (timer_do (commitReserved chargedBytes d (AwaitTimeout key)) ≫= k) Q.
Proof.
  intros Hok Hi Hf Hq Hlo [V1 V2 V3 V4 V5 V6 V7 V8] Hl Hst Hin Hbl Ha Hnl Haw Hk1 Hk2 Hti Hkp Hk.
  destruct (commit_entry Hsu plain' tokens (stg_timers g) d (AwaitTimeout key)) as (q' & Hc & Hq' & Hh); [done|done|].
  eapply stage_timers; [exact Hc|]. eapply hoare_from; [|exact Hk]. intros w Hw.
  assert (Hl' : loads (stg_slot g) = 0) by (by apply (not_loading _ ActorSuspended)).
  assert (Hqs : queued (stg_slot g) = false) by (by apply (not_queued _ ActorSuspended)).
  eapply (stage_close r None turn plain plain' tokens tokens w0 w i s _ Hok Hi Hw); cbn [stg_slot stg_ready stg_armed stg_messages stg_bytes stg_loading stg_timers stg_turn];
    try done; try lia; [apply focus_none|by rewrite Hqs| | | |].
  - unfold shape. rewrite Hst. eauto.
  - intros d' k' Hd. rewrite Haw in Hd. injection Hd as <- <-. destruct V6 as (V61 & V62 & _). rewrite V61, V62.
    split_and!; [done|done|]. intros _. rewrite Hh. by left.
  - unfold run_state. by rewrite Hst.
  - apply spares_keeps. intros e He. rewrite Hh. right. by apply Hkp.
Qed.

Lemma level_slot w0 s g f :
  level w0 s g → (∀ x, same_identity x (f x) ∧ as_mailbox (f x) = as_mailbox x ∧ armed (f x) = armed x) → level w0 s (to_slot f g).
Proof.
  intros [V1 V2 V3 V4 V5 V6 V7 V8] Hf. destruct (Hf (stg_slot g)) as ((F1 & F2 & F3) & F4 & F5). destruct V6 as (V61 & V62 & V63).
  constructor; cbn; try done; [|congruence|congruence]. unfold same_identity. split_and!; congruence.
Qed.

Lemma level_init w0 s : level w0 s (stage_of s w0).
Proof. by constructor. Qed.

Definition with_stage_timers q g : Stage :=
  mkStage (stg_slot g) (stg_ready g) (stg_armed g) q (stg_messages g) (stg_bytes g) (stg_loading g) (stg_turn g).

Lemma level_timers w0 s g q : level w0 s g → level w0 s (with_stage_timers q g).
Proof. by intros []. Qed.

Lemma stage_try {B} w0 i g (f : Timers → bool * Timers) (k : bool → W B) Q :
  hoare (staged w0 i (with_stage_timers (f (stg_timers g)).2 g)) (k (f (stg_timers g)).1) Q →
  hoare (staged w0 i g) (timer_try f ≫= k) Q.
Proof.
  intros Hk w [E1 E2]. assert (Et : wk_timers w = stg_timers g) by (by rewrite <-E2).
  unfold timer_try, mbind, W_bind. rewrite Et. destruct (f (stg_timers g)) as [b q']. apply Hk. constructor; cbn; [done|].
  unfold stage_of, with_stage_timers. cbn. by rewrite <-E2.
Qed.

Lemma tryReserve_cases plain tokens q :
  timers_ok chargedBytes plain tokens q →
  (tryReserve q).1 = false ∧ (tryReserve q).2 = q ∨
  (tryReserve q).1 = true ∧ timers_ok chargedBytes (S plain) tokens (tryReserve q).2 ∧ tq_heap (tryReserve q).2 = tq_heap q.
Proof.
  intros Hok. pose proof (timer_tryReserve_ok chargedBytes _ _ _ Hok) as H. pose proof (tryReserve_heap q) as Hh.
  destruct (tryReserve q) as [[] q']; cbn in *; [right|left]; done.
Qed.

Ltac blocked_slot := intros b; cbn; intros [= <-]; done.

Lemma suspend_synthetic_ok i inc turn plain tokens task :
  hoare (sched_ok (Some (i, (inc, ActorRunning))) turn plain tokens) (suspend_synthetic i task)
    (fun _ (w : Worker) => sched_ok None turn plain tokens w).
Proof.
  apply hoare_current. intros w s Hok Hi Hst Hb Hin Hh Hor. pose proof (committed_points _ _ _ Hi) as Hp.
  assert (Hq : queued s = false) by (by apply (not_queued _ ActorRunning)). assert (Hl : loads s = 0) by (by apply (not_loading _ ActorRunning)).
  pose proof (k_timers _ _ _ _ _ Hok) as Hti. pose proof (focus_some i (inc, ActorRunning)) as Hf.
  unfold suspend_synthetic. apply stage_skip; [eauto with sched|]. intros op. apply (stage_slot Hp).
  apply stage_skip; [eauto with sched|]. intros t. apply stage_skip; [eauto with sched|]. intros [|].
  - apply (stage_update Hp). eapply (stage_ready _ _ _ plain); [done|done|done|done|by apply level_slot; [apply level_init|]|cbn; lia|done|blocked_slot|done|apply spares_same|].
    keep.
  - apply stage_try. destruct (tryReserve_cases _ _ _ Hti) as [[E1 E2]|(E1 & E2 & E3)]; cbn [stage_of stg_timers]; rewrite E1; cbn [negb].
    + apply (stage_update Hp). eapply (stage_ready _ _ _ plain); [done|done|done|done|by apply level_slot; [apply level_timers, level_init|]|cbn; lia|done|blocked_slot| | |].
      * cbn. by rewrite E2.
      * cbn. rewrite E2. apply spares_same.
      * keep.
    + apply (stage_update Hp).
      eapply (stage_wait _ _ _ plain); try done; [intros e; cbn; by rewrite E3|].
      keep.
Qed.

Lemma suspendOnDbRequest_ok i inc turn plain tokens task final_save :
  hoare (sched_ok (Some (i, (inc, ActorRunning))) turn plain tokens) (suspendOnDbRequest i task final_save)
    (fun ok (w : Worker) => sched_ok (if ok : bool then None else Some (i, (inc, ActorRunning))) turn plain tokens w).
Proof.
  unfold suspendOnDbRequest. destruct (task_request task) as [request|].
  2:{ eapply hoare_bind; [apply count_ok|]. intros ?. by apply hoare_ret. }
  apply hoare_current. intros w s Hok Hi Hst Hb Hin Hh Hor. pose proof (committed_points _ _ _ Hi) as Hp.
  assert (Hq : queued s = false) by (by apply (not_queued _ ActorRunning)). assert (Hl : loads s = 0) by (by apply (not_loading _ ActorRunning)).
  pose proof (k_timers _ _ _ _ _ Hok) as Hti. pose proof (focus_some i (inc, ActorRunning)) as Hf.
  apply (stage_slot Hp). apply stage_skip; [eauto with sched|]. intros op. apply stage_skip; [eauto with sched|]. intros t.
  apply stage_try. destruct (tryReserve_cases _ _ _ Hti) as [[E1 E2]|(E1 & E2 & E3)]; cbn [stage_of stg_timers]; rewrite E1; cbn [negb].
  - apply (stage_update Hp). eapply (stage_ready _ _ _ plain); [done|done|done|done|by apply level_slot; [apply level_timers, level_init|]|cbn; lia|done|blocked_slot| | |].
    + cbn. by rewrite E2.
    + cbn. rewrite E2. apply spares_same.
    + by apply hoare_ret.
  - apply stage_skip; [eauto with sched|]. intros w1. apply stage_skip; [eauto with sched|]. intros submitted.
    set (immediate := match submitted with SubmitRejected => _ | SubmitInline r => Some r | SubmitPending => None end).
    destruct immediate as [res|].
    + destruct (releaseReservation_ok chargedBytes _ _ _ E2) as (q' & Hr & Hq' & Hh' & _).
      eapply stage_timers; [exact Hr|]. apply (stage_update Hp).
      eapply (stage_ready _ _ _ plain); [done|done|done|done| |cbn; lia|done|blocked_slot|done| |by apply hoare_ret].
      * apply level_slot; [|done]. apply (level_timers _ _ (with_stage_timers _ (stage_of s w))), level_timers, level_init.
      * apply spares_keeps. intros e. cbn. by rewrite Hh', E3.
    + apply (stage_update Hp).
      eapply (stage_wait _ _ _ plain); try done; [intros e; cbn; by rewrite E3|].
      by apply hoare_ret.
Qed.

(** A turn that is over: idle or, when messages wait, runnable. *)
Lemma stage_settle {B} r turn plain plain' tokens w0 i s g (k : () → W B) Q :
  sched_ok r turn plain tokens w0 → committed_at i s w0 → focus i r → queued s = false → level w0 s g →
  stg_loading g = wk_loading w0 - loads s → is_Some (as_instance (stg_slot g)) → as_blocked (stg_slot g) = None →
  timers_ok chargedBytes plain' tokens (stg_timers g) → spares s (wk_timers w0) (stg_timers g) →
  hoare (sched_ok None turn plain' tokens) (k ()) Q → hoare (staged w0 i g) (settle i ≫= k) Q.
Proof.
  intros Hok Hi Hf Hq Hv Hl Hin Hb Hti Hsp Hk. pose proof (committed_points _ _ _ Hi) as Hp.
  unfold settle. apply hoare_assoc, (stage_slot Hp). destruct (mailbox_empty (as_mailbox (stg_slot g))) eqn:Hm.
  - apply (stage_update Hp). eapply hoare_from; [|exact Hk]. intros w Hw.
    assert (Hlo : loads (set_state ActorIdle (stg_slot g)) = 0) by (by apply (not_loading _ ActorIdle)).
    assert (0 <= loads s) by (unfold loads; by destruct (bool_decide _)). destruct Hv as [V1 V2 V3 V4 V5 V6 V7 V8].
    eapply (stage_close r None turn plain plain' tokens tokens w0 w i s _ Hok Hi Hw);
      cbn [to_slot stg_slot stg_ready stg_armed stg_messages stg_bytes stg_loading stg_timers stg_turn]; try done; try lia.
    + apply focus_none.
    + unfold shape. cbn. split_and!; [done|done|]. unfold mailbox_empty in Hm. by destruct (mb_messages _).
    + apply timeout_pending_none. unfold awaiting. cbn. by rewrite Hb.
  - eapply (stage_ready _ _ _ plain'); try done. intros b. by rewrite Hb.
Qed.

Lemma settle_actor_ok i inc turn plain tokens :
  hoare (sched_ok (Some (i, (inc, ActorRunning))) turn plain tokens) (settle i) (fun _ (w : Worker) => sched_ok None turn plain tokens w).
Proof.
  apply hoare_current. intros w s Hok Hi Hst Hb Hin Hh Hor. apply hoare_tail.
  eapply (stage_settle _ _ _ plain); [done|done|apply focus_some|by apply (not_queued _ ActorRunning)|apply level_init| |done|done| |apply spares_same|].
  - cbn. rewrite (not_loading _ ActorRunning) by done. lia.
  - apply Hok.
  - by apply hoare_ret.
Qed.

(** The actor that has the turn is removed. *)
Lemma remove_current i inc st turn plain tokens reason h :
  h = mkActorHandle (u32 (Z.of_nat i)) inc →
  hoare (sched_ok (Some (i, (inc, st))) turn plain tokens) (removeActor h reason) (fun _ (w : Worker) => sched_ok None turn plain tokens w).
Proof.
  intros -> w Hok. destruct (current_slot _ _ _ _ _ _ _ Hok) as (s & Hi & <- & Hst & Hor & _).
  assert (Hq : queued s = false) by (apply (not_queued s st); [done|by destruct Hor as [->| ->]]).
  pose proof (removeActor_ok Hsu _ _ _ _ i s reason Hq w (conj Hok Hi)) as H. unfold forget in H. by rewrite decide_True in H.
Qed.
End turns.
