(* ===== verification/SchedulerRun.v ===== *)
(** * Completions, the lifecycle index and the run of the ready actors

    What wakes an actor ([Scheduler.v]): an answer of the database, a synthetic
    completion, a timeout, a lifecycle deadline; and [runReadyActors] and
    [expireTimers], which keep the invariant and end. *)

From S2P Require Import Prelude FrameCodec Identity Lane TimerQueue HandleRing SlotTable ActorTable Actor Scheduler SchedulerInv SchedulerOps SchedulerDeliver SchedulerTurns.

Section run.
Context {M I T Env : Type} `{Setup : !WorkerSetup M}.
Context `{Heap : !HeapAlgorithms (entry_deadline (M := M))} `{Behaviour : !ActorBehaviour M I T}.
Context `{Outside : !WorkerOutside M I Env}.
Context (Hsu : setup_ok).

Abbreviation Slot := (ActorSlot M I T).
Abbreviation Timers := (TimerQueue (M := M)).
Abbreviation Worker := (Worker M I T Env).
Abbreviation W := (W M I T Env).
Implicit Types (w : Worker) (s : Slot) (q : Timers) (r : running).

(** Nobody has the turn and nothing is reserved. *)
Abbreviation calm := (sched_ok (I := I) (T := T) (Env := Env) None None 0 []).

(** ** Completions

    The lemmas start from a calm state whose timers may lack entries that only
    the actor at hand waits for. *)

Lemma staged_timers w0 q i s : points i s w0 → staged w0 i (with_stage_timers q (stage_of s w0)) (with_timers q w0).
Proof. intros Hp. constructor; [cbn; by rewrite assign_same|done]. Qed.

Lemma mark_from {B} w0 q i s b (k : () → W B) Q :
  calm w0 → committed_at i s w0 → as_state s = ActorSuspended → is_Some (as_instance s) → answered b = true →
  timers_ok chargedBytes 0 [] q → spares s (wk_timers w0) q → hoare calm (k ()) Q →
  hoare (eq (with_timers q w0)) (update i (set_blocked (Some b));; enqueue_actor i ≫= k) Q.
Proof.
  intros Hok Hi Hst Hin Hb Hti Hsp Hk. pose proof (committed_points _ _ _ Hi) as Hp.
  eapply hoare_from; [intros w <-; by apply (staged_timers w0 q i s)|]. apply (stage_update Hp).
  eapply (stage_ready _ _ _ 0%nat); [done|done|apply focus_none|by apply (not_queued _ ActorSuspended)| | |done| |done|done|done].
  - by apply level_slot; [apply level_timers, level_init|].
  - cbn. rewrite (not_loading _ ActorSuspended) by done. lia.
  - intros b'. cbn. by intros [= <-].
Qed.

Lemma reject_from w0 q i s reason :
  calm w0 → committed_at i s w0 → queued s = false → timers_ok chargedBytes 0 [] q → spares s (wk_timers w0) q →
  hoare (eq (with_timers q w0)) (reject_activation i reason) (fun _ => calm).
Proof.
  intros Hok Hi Hq Hti Hsp. unfold reject_activation.
  eapply hoare_slot; [intros w <-; apply committed_points; exact Hi|].
  set (w1 := with_metrics ((activation_load_failures, 1) :: wk_metrics w0) w0).
  apply (hoare_bind _ _ _ (fun _ => eq (with_timers q w1))); [by apply hoare_modify; intros w <-|]. intros ?.
  change None with (forget i None) at 1. eapply (removeActor_from Hsu); try done. by apply (sched_ok_same _ _ _ _ w0).
Qed.

Lemma timers_refl w : with_timers (wk_timers w) w = w.
Proof. by destruct w. Qed.

(** From a calm state, a slot found by its key. *)
Lemma calm_found {B} k (m : option nat → W B) Q :
  hoare calm (m None) Q →
  (∀ w0 i s, calm w0 → committed_at i s w0 → as_key s = k → slot_good None (wk_timers w0) s →
    hoare (eq (with_timers (wk_timers w0) w0)) (m (Some i)) Q) →
  hoare calm (gets (fun w => find_key k (wk_actors w)) ≫= m) Q.
Proof.
  intros Hn Hs. apply hoare_read. intros [i|].
  - apply hoare_pre. intros w [Hf Hok]. destruct (find_key_committed _ _ _ _ _ _ _ Hok Hf) as (s & Hi & Hk).
    rewrite <-(timers_refl w) at 1. eapply Hs; try done. by eapply committed_good.
  - eapply hoare_from; [|exact Hn]. by intros w [_ Hw].
Qed.

Lemma calm_back {B} w0 (m : W B) Q : calm w0 → hoare calm m Q → hoare (eq (with_timers (wk_timers w0) w0)) m Q.
Proof. intros Hw Hm. eapply hoare_from; [|exact Hm]. intros w <-. by rewrite timers_refl. Qed.

Lemma tryMarkDb_ok key result : hoare calm (tryMarkDbCommandReady key result) (fun _ => calm).
Proof.
  unfold tryMarkDbCommandReady. apply calm_found; [apply ret_ok|]. intros w0 i s Hok Hi Hk [_ Hsh _ _].
  eapply hoare_slot; [intros w <-; apply committed_points; exact Hi|]. case_bool_decide as Hst; cbn [negb]; [|apply calm_back; [done|apply ret_ok]].
  unfold shape in Hsh. rewrite Hst in Hsh.
  destruct (as_blocked s) as [[| k d task c|]|]; try (apply calm_back; [done|apply ret_ok]).
  destruct (_ || _); [apply calm_back; [done|apply ret_ok]|].
  eapply (mark_from w0 (wk_timers w0) i s); try done; [apply Hsh|apply Hok|apply spares_same|apply ret_ok].
Qed.

Lemma tryMarkSynthetic_ok key outcome : hoare calm (tryMarkSyntheticCommandReady key outcome) (fun _ => calm).
Proof.
  unfold tryMarkSyntheticCommandReady. apply calm_found; [apply ret_ok|]. intros w0 i s Hok Hi Hk [_ Hsh _ _].
  eapply hoare_slot; [intros w <-; apply committed_points; exact Hi|]. case_bool_decide as Hst; cbn [negb]; [|apply calm_back; [done|apply ret_ok]].
  unfold shape in Hsh. rewrite Hst in Hsh.
  destruct (as_blocked s) as [[k d task c| |]|]; try (apply calm_back; [done|apply ret_ok]).
  destruct (_ || _); [apply calm_back; [done|apply ret_ok]|].
  eapply (mark_from w0 (wk_timers w0) i s); try done; [apply Hsh|apply Hok|apply spares_same|apply ret_ok].
Qed.

Lemma finish_activation_ok w0 i s a :
  calm w0 → committed_at i s w0 → as_state s = ActorLoading →
  hoare (eq w0) (finish_activation i a) (fun _ => calm).
Proof.
  intros Hok Hi Hst. pose proof (committed_points _ _ _ Hi) as Hp. assert (Hl : loads s = 1) by (unfold loads; by rewrite Hst).
  assert (Hpos : 0 <= wk_loading w0 - 1).
  { destruct (k_ready _ _ _ _ _ Hok) as (R & HR & HG). rewrite (g_loading _ _ _ _ _ _ _ _ HG).
    assert (Hin : s ∈ actives (at_table (wk_actors w0))) by (apply actives_elem; by eexists i, _).
    assert (Hall : Forall (fun x => 0 <= loads x) (actives (at_table (wk_actors w0)))).
    { apply Forall_forall. intros x _. unfold loads. by destruct (bool_decide _). }
    pose proof (zsum_elem_le loads _ s Hall Hin). lia. }
  unfold finish_activation. apply (hoare_from _ (staged w0 i (stage_of s w0))); [intros w <-; by apply staged_init|].
  apply (stage_update Hp). apply stage_loading; [cbn; lia|]. apply hoare_tail.
  eapply (stage_settle _ _ _ 0%nat); [done|done|apply focus_none|by apply (not_queued _ ActorLoading)| |cbn; lia|done|done|apply Hok|apply spares_same|apply ret_ok].
  by constructor.
Qed.

(** Facts that stay true while other parts of the state change. *)
Lemma calm_outside {B C} w0 i s (f : Env → B * Env) (k : B → W C) Q :
  calm w0 → committed_at i s w0 → (∀ b w1, calm w1 → committed_at i s w1 → hoare (eq w1) (k b) Q) →
  hoare (eq w0) (use_outside f ≫= k) Q.
Proof.
  intros Hok Hi Hk w <-. unfold use_outside, mbind, W_bind. destruct (f (wk_outside w0)) as [b o].
  eapply (Hk b (with_outside o w0)); [by apply (sched_ok_same _ _ _ _ w0)|done|done].
Qed.

Lemma reject_ok w0 i s reason :
  calm w0 → committed_at i s w0 → queued s = false → hoare (eq w0) (reject_activation i reason) (fun _ => calm).
Proof.
  intros Hok Hi Hq. rewrite <-(timers_refl w0) at 1. eapply reject_from; try done; [apply Hok|apply spares_same].
Qed.

Lemma completeDb_ok key result : hoare calm (completeDb key result) (fun _ => calm).
Proof.
  unfold completeDb. apply calm_found; [apply count_ok|]. intros w0 i s Hok Hi Hk _.
  eapply hoare_slot; [intros w <-; apply committed_points; exact Hi|]. destruct (as_blocked s) as [[k d task c|k d task c|k d]|].
  - apply calm_back; [done|apply count_ok].
  - apply calm_back; [done|]. apply bind_ok; [apply tryMarkDb_ok|keep].
  - rewrite timers_refl. case_bool_decide as Hst; cbn [negb orb].
    2:{ eapply hoare_from; [|apply count_ok]. by intros w <-. }
    destruct (negb (acceptsCompletion key k)); [eapply hoare_from; [|apply count_ok]; by intros w <-|].
    assert (Hq : queued s = false) by (by apply (not_queued _ ActorLoading)).
    destruct result as [loaded|outcome|kind reached]; [|by apply hoare_fail|by eapply reject_ok].
    eapply calm_outside; [done|done|]. intros b w1 Hok1 Hi1.
    destruct b as [| | |[a|]]; [by apply hoare_fail|by eapply reject_ok|by eapply reject_ok|by eapply finish_activation_ok|by eapply reject_ok].
  - apply calm_back; [done|apply count_ok].
Qed.

Lemma completeSyntheticCommand_ok key outcome : hoare calm (completeSyntheticCommand key outcome) (fun _ => calm).
Proof. unfold completeSyntheticCommand. pose proof tryMarkSynthetic_ok. keep. Qed.

Lemma completeSyntheticActivation_ok key outcome : hoare calm (completeSyntheticActivation key outcome) (fun _ => calm).
Proof.
  unfold completeSyntheticActivation. apply calm_found; [apply count_ok|]. intros w0 i s Hok Hi Hk _.
  eapply hoare_slot; [intros w <-; apply committed_points; exact Hi|].
  destruct (as_blocked s) as [[k d task c|k d task c|k d]|]; try (apply calm_back; [done|apply count_ok]).
  rewrite timers_refl. case_bool_decide as Hst; cbn [negb orb].
  2:{ eapply hoare_from; [|apply count_ok]. by intros w <-. }
  destruct (negb (acceptsCompletion key k)); [eapply hoare_from; [|apply count_ok]; by intros w <-|].
  assert (Hq : queued s = false) by (by apply (not_queued _ ActorLoading)).
  destruct outcome; [|by eapply reject_ok..].
  eapply calm_outside; [done|done|]. intros b w1 Hok1 Hi1.
  destruct b as [| | |[a|]]; [by apply hoare_fail|by eapply reject_ok|by eapply reject_ok|by eapply finish_activation_ok|by apply hoare_fail].
Qed.

(** ** The lifecycle index *)

Lemma armed_change w0 w i s b :
  calm w0 → committed_at i s w0 → same_actors (with_armed (wk_armed w) (with_actors (assign i (set_armed b s) (wk_actors w0)) w0)) w →
  (∀ X, wk_armed w0 ≡ₚ here armed s ++ X → wk_armed w ≡ₚ here armed (set_armed b s) ++ X) → calm w.
Proof.
  intros Hok Hi [E1 E2 E3 E4 E5 E6 E7 E8] Ha. cbn in *. pose proof (committed_good _ _ _ _ _ _ _ Hok Hi) as [G1 G2 G3 G4].
  eapply (sched_ok_assign None None None None 0 0 [] [] w0 w i s (set_armed b s)); rewrite ?E4, ?E5, ?E6, ?E7, ?E8; try done.
  - constructor; try done. by eapply mailbox_ok_same.
  - apply ready_stays; done.
  - change (slot_messages (set_armed b s)) with (slot_messages s). lia.
  - change (slot_bytes (set_armed b s)) with (slot_bytes s). lia.
  - change (loads (set_armed b s)) with (loads s). lia.
  - apply Hok.
  - apply Hok.
  - apply Hok.
Qed.

Lemma armed_others w0 i s X :
  calm w0 → committed_at i s w0 → wk_armed w0 ≡ₚ here armed s ++ X → Forall (fun h => h ≠ entry_handle s) X.
Proof.
  intros Hok Hi HX. destruct (k_ready _ _ _ _ _ Hok) as (R & HR & HG). pose proof (g_armed _ _ _ _ _ _ _ _ HG) as HA.
  destruct (actives_assign (wk_actors w0) i _ s s Hi eq_refl eq_refl) as (rest & P1 & _).
  pose proof (other_handles _ _ _ _ (k_table _ _ _ _ _ Hok) Hi P1) as Ho. unfold handles_where in HA. rewrite (filter_perm _ _ _ P1) in HA.
  rewrite HX in HA. change (entry_handle <$> List.filter armed (s :: rest)) with (handles_where armed (s :: rest)) in HA.
  rewrite handles_where_cons in HA. apply Permutation_app_inv_l in HA. rewrite HA.
  apply Forall_forall. intros h (x & -> & Hx)%list_elem_of_fmap. rewrite Forall_forall in Ho. apply Ho.
  apply list_elem_of_In, filter_In in Hx as [Hx _]. by apply list_elem_of_In.
Qed.

Lemma refreshLifecycleArm_ok h : 0 <= ah_slot_index h → hoare calm (refreshLifecycleArm h) (fun _ => calm).
Proof.
  intros Hh. unfold refreshLifecycleArm. apply hoare_read. intros [i|]; [|by apply hoare_ret; intros w [_ Hw]].
  apply hoare_pre. intros w0 [Hf Hok]. destruct (find_handle_committed _ _ _ _ _ _ _ Hok Hf) as (s & Hi & _ & Hsh). specialize (Hsh Hh).
  eapply hoare_slot; [intros w <-; apply committed_points; exact Hi|]. apply hoare_read. intros stopping.
  set (b := match as_instance s with Some a => _ | None => false end). intros w [_ <-].
  destruct (eqb b (as_lifecycle_armed s)) eqn:Hb; [done|]. apply eqb_false_iff in Hb. unfold put, erase_armed, modify, mbind, W_bind.
  destruct b; cbn.
  - eapply (armed_change w0 _ i s true Hok Hi); [done|]. intros X HX. cbn. unfold here, armed in *. cbn in *.
    destruct (as_lifecycle_armed s); [done|]. cbn in HX. rewrite HX, Permutation_app_comm. by rewrite <-Hsh.
  - eapply (armed_change w0 _ i s false Hok Hi); [done|]. intros X HX. pose proof (armed_others _ _ _ _ Hok Hi HX) as Ho.
    cbn. unfold here, armed in *. cbn in *. destruct (as_lifecycle_armed s); [|done]. rewrite Hsh in *. by apply erase_handle.
Qed.

Lemma handle_index s : 0 <= ah_slot_index (entry_handle s).
Proof. unfold entry_handle. cbn. apply Z.mod_pos_bound. lia. Qed.

Lemma refresh_each_ok indices : hoare calm (refresh_each indices) (fun _ => calm).
Proof.
  induction indices as [|i rest IH]; cbn [refresh_each]; [apply ret_ok|]. apply bind_ok; [apply gets_ok|]. intros [s|];
    (apply bind_ok; [|intros; exact IH]); [apply refreshLifecycleArm_ok, handle_index|apply ret_ok].
Qed.

Lemma armLifecycleForShutdown_ok : hoare calm armLifecycleForShutdown (fun _ => calm).
Proof. unfold armLifecycleForShutdown. pose proof refresh_each_ok. keep. Qed.

(** An entry of the index is a live, armed actor. *)
Lemma armed_found w h : calm w → h ∈ wk_armed w → ∃ i s, committed_at i s w ∧ find_handle h (wk_actors w) = Some i ∧ as_lifecycle_armed s = true.
Proof.
  intros Hok Hin. destruct (k_ready _ _ _ _ _ Hok) as (R & HR & HG). rewrite (g_armed _ _ _ _ _ _ _ _ HG) in Hin.
  apply list_elem_of_fmap in Hin as (s & -> & Hs). apply list_elem_of_In, filter_In in Hs as [Hs Ha].
  apply list_elem_of_In, actives_elem in Hs as (i & x & Hx & Hc & He). exists i, s.
  assert (Hi : committed_at i s w) by (by eapply flags_committed; [apply (k_table _ _ _ _ _ Hok)|..]).
  split_and!; [done|by eapply committed_handle|done].
Qed.

(** A calm state, a slot to be queued. *)
Lemma wake_ok w0 i s :
  calm w0 → committed_at i s w0 → as_state s = ActorIdle → is_Some (as_instance s) → as_blocked s = None →
  hoare (eq w0) (enqueue_actor i) (fun _ => calm).
Proof.
  intros Hok Hi Hst Hin Hb. apply (hoare_from _ (staged w0 i (stage_of s w0))); [intros w <-; by apply staged_init, committed_points|].
  apply hoare_tail. eapply (stage_ready _ _ _ 0%nat); [done|done|apply focus_none|by apply (not_queued _ ActorIdle)|apply level_init| |done| |apply Hok|apply spares_same|apply ret_ok].
  - cbn. rewrite (not_loading _ ActorIdle) by done. lia.
  - intros b. cbn. by rewrite Hb.
Qed.

Lemma arm_scan_ok fuel idx t : hoare calm (arm_scan fuel idx t) (fun _ => calm).
Proof.
  revert idx. induction fuel as [|fuel IH]; intros idx; cbn [arm_scan]; [apply ret_ok|]. apply hoare_read. intros armed.
  destruct (armed !! idx) as [h|] eqn:Hh; [|by apply hoare_ret; intros w [_ Hw]].
  apply hoare_pre. intros w0 [<- Hok]. destruct (armed_found w0 h Hok) as (i & s & Hi & Hf & Ha); [by eapply list_elem_of_lookup_2|].
  apply hoare_read. intros found. apply hoare_pre. intros w1 [Hf1 <-]. rewrite Hf in Hf1. subst found.
  eapply hoare_slot; [intros w <-; apply committed_points; exact Hi|]. rewrite Ha. cbn [negb]. apply hoare_read. intros stopping.
  eapply hoare_from; [by intros w [_ Hw]; exact Hw|]. eapply hoare_bind; [|intros; apply IH].
  assert (Hret : hoare (eq w0) (mret ()) (fun _ => calm)) by (apply hoare_ret; by intros w <-).
  destruct (as_blocked s) as [b|] eqn:Hb; cbn [has_value orb]; [exact Hret|]. case_bool_decide as Hst; cbn [negb]; [|exact Hret].
  destruct (as_instance s) as [a|] eqn:Hin; [|exact Hret]. destruct (lifecycle_due _ _ _); [|exact Hret]. by eapply wake_ok.
Qed.

(** ** A slice *)

(** The code of every actor uses its reservations linearly. *)
Record turns_linear : Prop := {
  tl_dispatch : ∀ a m c, linear [] (dispatch a m c);
  tl_lifecycle : ∀ a c stopping, linear [] (lifecycleTurn a c stopping);
  tl_db : ∀ t a res, linear [] (resumeDb t a res);
  tl_synthetic : ∀ t a o, linear [] (resumeSynthetic t a o)
}.

Lemma pop_message_ok i inc turn plain tokens w0 s m rest :
  sched_ok (Some (i, (inc, ActorRunning))) turn plain tokens w0 → committed_at i s w0 → mb_messages (as_mailbox s) = m :: rest →
  let b := mkMailbox rest (u64 (mb_charged_bytes (as_mailbox s) - chargedBytes m)) in
  sched_ok (Some (i, (inc, ActorRunning))) turn plain tokens
    (with_totals (wk_messages w0 - 1) (u64 (wk_bytes w0 - chargedBytes m)) (with_actors (assign i (set_mailbox b s) (wk_actors w0)) w0)).
Proof.
  intros Hok Hi Hm b. pose proof (committed_good _ _ _ _ _ _ _ Hok Hi) as [[G1 G2 G3] Gs Gt Gr]. rewrite Hm in G1. cbn in G1.
  pose proof (su_charge Hsu m) as Hc. assert (Hr : 0 <= zsum chargedBytes rest) by (apply zsum_nonneg, Forall_forall; intros; apply (su_charge Hsu)).
  pose proof (su_bytes Hsu). pose proof (limits Hsu). pose proof (k_bounds _ _ _ _ _ Hok) as [B1 B2 B3].
  assert (Hle : slot_bytes s <= wk_bytes w0).
  { destruct (k_ready _ _ _ _ _ Hok) as (R & HR & HG). rewrite (g_bytes _ _ _ _ _ _ _ _ HG).
    apply zsum_elem_le; [|apply actives_elem; by eexists i, _]. apply (Forall_impl _ _ _ (g_slots _ _ _ _ _ _ _ _ HG)).
    intros x Hx. apply (slot_bytes_nonneg Hsu), Hx. }
  assert (Hst : as_state s = ActorRunning).
  { unfold run_state in Gr. rewrite (committed_index _ _ _ _ _ _ _ Hok Hi), decide_True in Gr by done. apply Gr. }
  assert (Hb : slot_bytes (set_mailbox b s) = slot_bytes s - chargedBytes m).
  { unfold slot_bytes in *. cbn. rewrite u64_small; lia. }
  assert (Hms : slot_messages (set_mailbox b s) = slot_messages s - 1).
  { unfold slot_messages, mailbox_size, zlen. cbn. rewrite Hm. simpl. lia. }
  eapply (sched_ok_assign (Some (i, (inc, ActorRunning))) _ turn turn plain plain tokens tokens w0 _ i s (set_mailbox b s)); cbn [with_totals with_actors wk_actors wk_ready wk_armed wk_timers wk_messages wk_bytes wk_loading wk_active_turn];
    try done; try lia.
  - constructor; try done.
    + constructor; [rewrite Hb; cbn; lia|lia|lia].
    + unfold shape in *. cbn. by rewrite Hst in *.
  - apply ready_stays; done.
  - rewrite Hb, u64_small; [lia|]. unfold slot_bytes in *. lia.
  - change (loads (set_mailbox b s)) with (loads s). lia.
  - rewrite u64_small by (unfold slot_bytes in *; lia). constructor; lia.
  - apply Hok.
  - apply Hok.
  - intros j st [= <- _]. by left.
Qed.

(** What begins and ends around a turn does not touch the actors. *)
Definition places w : ActorTable Slot * HandleRing ActorHandle := (wk_actors w, wk_ready w).

Lemma begin_turn_places w n w' : begin_turn w = Done n w' → places w' = places w.
Proof.
  unfold begin_turn, gets, modify, fail, mbind, W_bind. cbn. repeat case_match; try done. intros [= _ <-]. done.
Qed.

Lemma end_turn_places id w n w' : end_turn id w = Done n w' → places w' = places w.
Proof.
  unfold end_turn, gets, modify, fail, mbind, W_bind. cbn. repeat case_match; try done. intros [= _ <-]. done.
Qed.

Lemma places_skip {B} x r turn plain tokens (m : W B) :
  (∀ w, ∃ b w', m w = Done b w' ∧ same_actors w w') →
  hoare (fun w => places w = x ∧ sched_ok r turn plain tokens w) m (fun _ w => places w = x ∧ sched_ok r turn plain tokens w).
Proof.
  intros Hm. apply hoare_same; [done|]. intros w w' Hs [Hx Hw]. split; [|by eapply sched_ok_same]. destruct Hs. unfold places in *. congruence.
Qed.

Context (Hlin : turns_linear).

Abbreviation running_in i inc turn tokens := (sched_ok (I := I) (T := T) (Env := Env) (Some (i, (inc, ActorRunning))) turn 0 tokens).

(** The new instance is stored. *)
Lemma store_instance i inc st turn plain tokens a :
  st = ActorRunning ∨ st = ActorStopping →
  hoare (sched_ok (Some (i, (inc, st))) turn plain tokens) (update i (set_instance (Some a)))
    (fun _ (w : Worker) => sched_ok (Some (i, (inc, st))) turn plain tokens w).
Proof. intros Hst. apply update_current; [|done]. intros s Hs _. split_and!; by try done. Qed.

Definition slice_post i inc (e : SliceEnd) w : Prop :=
  match e with
  | SliceOver | SliceExhausted => running_in i inc None [] w
  | SliceStopped => sched_ok (Some (i, (inc, ActorStopping))) None 0 [] w
  | SliceSuspended => calm w
  end.

(** The turn of a slice is chosen: a lifecycle turn or the next message. *)
Lemma choose_turn_ok i inc id x s (lifecycle : bool) (context : TurnContext) a stopping :
  at_slots x.1 !! i = Some (mkSlot (Some s) false true) → lifecycle || negb (mailbox_empty (as_mailbox s)) = true →
  hoare (fun w => places w = x ∧ running_in i inc (Some id) [] w)
    (if lifecycle then count lifecycle_turns;; mret (lifecycleTurn a context stopping)
     else
       '(m, b) ← require MailboxUnderflow (mailbox_pop chargedBytes (as_mailbox s));
       put i (set_mailbox b s);;
       modify (fun w => with_totals (wk_messages w - 1) (u64 (wk_bytes w - chargedBytes m)) w);;
       mret (dispatch a m context))
    (fun t w => linear [] t ∧ running_in i inc (Some id) [] w).
Proof.
  intros Hs Hdue. destruct lifecycle.
  { apply (hoare_from _ (running_in i inc (Some id) [])); [by intros w [_ Hw]|]. eapply hoare_bind; [apply count_ok|].
    intros ?. apply hoare_ret. intros w Hw. split; [apply (tl_lifecycle Hlin)|done]. }
  cbn [orb] in Hdue. unfold mailbox_empty, mailbox_pop in *. destruct (mb_messages (as_mailbox s)) as [|m rest] eqn:Hm; [done|].
  intros w [Hx Hw]. unfold require, put, modify, mret, W_ret, mbind, W_bind. cbn beta iota zeta. split; [apply (tl_dispatch Hlin)|].
  apply (pop_message_ok i inc (Some id) 0 [] w s m rest Hw); [|done]. unfold committed_at. unfold places in Hx. by rewrite <-Hx in Hs.
Qed.

(** The turn has run and its result is dealt with. *)
Lemma finish_slice_turn i inc id h final turns (res : list (Effect M) + T) tokens fuel started_at max_duration :
  h = mkActorHandle (u32 (Z.of_nat i)) inc →
  (match res with inl effects => tokens = charges (omap effect_reservation effects) | inr _ => True end) →
  (∀ n, hoare (running_in i inc None []) (slice_loop fuel i started_at max_duration n)
         (fun res w => n <= res.1 <= n + Z.of_nat fuel ∧ slice_post i inc res.2 w)) →
  hoare (running_in i inc (Some id) tokens)
    match res with
    | inr task =>
        (if has_value (task_request task) then
           count suspended_turns;;
           ok ← suspendOnDbRequest i task final;
           if ok : bool then mret () else removeActor h ActivationRejected
         else suspend_synthetic i task);;
        end_turn id;; mret (turns + 1, SliceSuspended)
    | inl effects =>
        stopped ← applyEffectBatch i effects id;
        end_turn id;;
        if stopped : bool then mret (turns + 1, SliceStopped) else slice_loop fuel i started_at max_duration (turns + 1)
    end
    (fun res w => turns + 1 <= res.1 <= turns + 1 + Z.of_nat fuel ∧ slice_post i inc res.2 w).
Proof.
  intros Hh Htok IH. destruct res as [effects|task].
  - subst tokens. eapply hoare_bind; [apply (applyEffectBatch_ok Hsu)|]. intros stopped.
    eapply hoare_bind; [apply end_turn_ok|]. intros ?. destruct stopped; [|apply IH]. apply hoare_ret. intros w Hw. split; [cbn; lia|done].
  - apply (hoare_bind _ _ _ (fun _ (w : Worker) => sched_ok None (Some id) 0 tokens w)).
    + destruct (has_value _); [|apply (suspend_synthetic_ok Hsu)]. eapply hoare_bind; [apply count_ok|]. intros ?.
      eapply hoare_bind; [apply (suspendOnDbRequest_ok Hsu)|]. intros [|]; [by apply hoare_ret|]. by apply (remove_current Hsu).
    + intros ?. eapply hoare_bind; [apply end_turn_ok|]. intros ?. apply hoare_ret. intros w Hw. split; [cbn; lia|done].
Qed.

Lemma slice_loop_ok fuel i inc started_at max_duration turns x :
  hoare (fun w => places w = x ∧ running_in i inc None [] w) (slice_loop fuel i started_at max_duration turns)
    (fun res w => (turns <= res.1 <= turns + Z.of_nat fuel ∧ slice_post i inc res.2 w) ∧
      ((fuel ≠ 0)%nat → res.1 = turns → res.2 = SliceExhausted ∨
         res.2 = SliceOver ∧ places w = x ∧ ∃ s, committed_at i s w ∧ mailbox_empty (as_mailbox s) = true)).
Proof.
  revert turns x. induction fuel as [|fuel IH]; intros turns x; cbn [slice_loop].
  { apply hoare_ret. intros w [_ Hw]. split; [|done]. split; [cbn; lia|done]. }
  eapply hoare_bind; [apply places_skip; unfold budget_expired; eauto with sched|]. cbn beta. intros [|].
  { apply hoare_ret. intros w [_ Hw]. split; [|by left]. split; [cbn; lia|done]. }
  eapply hoare_bind; [apply hoare_frame; [apply begin_turn_ok|apply begin_turn_places]|]. cbn beta. intros id.
  apply hoare_pre. intros w0 [Hx0 Hok0]. destruct (current_slot _ _ _ _ _ _ _ Hok0) as (s & Hi & Hh & Hst & _ & Hb & [a Ha]).
  assert (Hs : at_slots x.1 !! i = Some (mkSlot (Some s) false true)) by (by rewrite <-Hx0).
  apply (hoare_from _ (fun w => places w = x ∧ running_in i inc (Some id) [] w)); [by intros w <-|].
  eapply hoare_slot; [intros w [Hx _]; apply (committed_points i s w); unfold committed_at; by rewrite <-Hx in Hs|].
  eapply hoare_bind; [apply places_skip; eauto with sched|]. cbn beta. intros t.
  unfold instance_of. rewrite Ha. apply (hoare_bind _ _ _ (fun b w => b = a ∧ places w = x ∧ running_in i inc (Some id) [] w)); [by apply hoare_ret|].
  cbn beta. intros a'. apply hoare_and. intros ->. eapply hoare_bind; [apply places_skip; eauto with sched|]. cbn beta. intros stopping.
  destruct (negb (lifecycle_due stopping t a) && mailbox_empty (as_mailbox s)) eqn:Hover.
  - eapply hoare_bind; [apply hoare_frame; [apply end_turn_ok|apply end_turn_places]|]. cbn beta. intros ?. apply hoare_ret.
    intros w [Hx Hw]. split; [split; [cbn; lia|done]|]. intros _ _. right. split; [done|]. split; [done|]. exists s. split; [unfold committed_at; by rewrite <-Hx in Hs|].
    by apply andb_true_iff in Hover as [_ ?].
  - eapply hoare_bind; [apply (choose_turn_ok i inc id x s _ _ a stopping Hs)|].
    { by destruct (lifecycle_due stopping t a), (mailbox_empty (as_mailbox s)). }
    cbn beta. intros turn. apply hoare_and. intros Hl.
    eapply hoare_bind; [apply (run_turn_ok _ _ _ turn [] Hl)|]. intros [a' res].
    assert (Hend : ∀ tokens, match res with inl effects => tokens = charges (omap effect_reservation effects) | inr _ => True end →
      hoare (running_in i inc (Some id) tokens)
        (update i (set_instance (Some a'));; count actor_turns;;
         match res with
         | inr task =>
             (if has_value (task_request task) then
                count suspended_turns;;
                ok ← suspendOnDbRequest i task (lifecycle_due stopping t a && stopping);
                if ok : bool then mret () else removeActor (entry_handle s) ActivationRejected
              else suspend_synthetic i task);;
             end_turn id;; mret (turns + 1, SliceSuspended)
         | inl effects =>
             stopped ← applyEffectBatch i effects id;
             end_turn id;;
             if stopped : bool then mret (turns + 1, SliceStopped) else slice_loop fuel i started_at max_duration (turns + 1)
         end)
        (fun res w => turns + 1 <= res.1 <= turns + 1 + Z.of_nat fuel ∧ slice_post i inc res.2 w)).
    { intros tokens Htok. eapply hoare_bind; [apply store_instance; by left|]. intros ?. eapply hoare_bind; [apply count_ok|]. intros ?.
      apply finish_slice_turn; [done|done|]. intros n. intros w Hw. pose proof (IH n (places w) w (conj eq_refl Hw)) as H.
      destruct (slice_loop _ _ _ _ _ _); [apply H|done]. }
    eapply hoare_weaken with (Q' := fun res w => turns + 1 <= res.1 <= turns + 1 + Z.of_nat fuel ∧ slice_post i inc res.2 w).
    2:{ exact (fun w Hw => Hw). }
    + intros w Hw. unfold turn_ends in Hw. cbn [snd] in Hw. destruct res as [effects|task].
      * by apply (Hend _ eq_refl w Hw).
      * destruct Hw as [tokens Hw]. by apply (Hend tokens Logic.I w Hw).
    + intros [n e] w [Hn Hp]. cbn in Hn. split; [split; [cbn; lia|done]|]. cbn. lia.
Qed.

(** ** One entry of the ready queue *)

(** An actor taken off the queue gets its turn. *)
Lemma start_turn w0 (q' : HandleRing ActorHandle) i s f :
  calm w0 → committed_at i s w0 → ready_pop (wk_ready w0) = Some (entry_handle s, q') → queued s = true →
  same_identity s (f s) → as_mailbox (f s) = as_mailbox s → armed (f s) = armed s → is_Some (as_instance (f s)) →
  as_blocked (f s) = None → as_state (f s) = ActorRunning →
  hoare (eq (with_ready q' w0)) (update i f) (fun _ => running_in i (as_incarnation s) None []).
Proof.
  intros Hok Hi Hpop Hq F1 F2 F3 F4 F5 F6 w <-. assert (Hp : points i s (with_ready q' w0)) by exact (committed_points _ _ _ Hi).
  rewrite (update_eq _ _ _ _ Hp). pose proof (committed_good _ _ _ _ _ _ _ Hok Hi) as [G1 G2 G3 G4].
  assert (Hst : as_state s = ActorQueued) by (unfold queued in Hq; by apply bool_decide_eq_true in Hq).
  assert (Hsm : slot_messages (f s) = slot_messages s) by (unfold slot_messages; by rewrite F2).
  assert (Hsb : slot_bytes (f s) = slot_bytes s) by (unfold slot_bytes; by rewrite F2).
  assert (Hl : loads s = 0) by (by apply (not_loading _ ActorQueued)). assert (Hl' : loads (f s) = 0) by (by apply (not_loading _ ActorRunning)).
  assert (Hq' : queued (f s) = false) by (by apply (not_queued _ ActorRunning)).
  eapply (sched_ok_assign None _ None None 0 0 [] [] w0 _ i s (f s)); cbn [with_ready with_actors wk_actors wk_ready wk_armed wk_timers wk_messages wk_bytes wk_loading wk_active_turn];
    try done; try lia.
  - constructor; [by eapply mailbox_ok_same|unfold shape; by rewrite F6|apply timeout_pending_none; unfold awaiting; by rewrite F5|].
    destruct F1 as (_ & F1 & F1'). unfold run_state. rewrite F1', (committed_index _ _ _ _ _ _ _ Hok Hi), decide_True by done.
    cbn. rewrite F1. split_and!; [done|done|by left].
  - intros x Hx _ [X1 X2 X3 X4]. constructor; try done. unfold run_state. by rewrite decide_False.
  - intros R X HR HX. unfold here in *. rewrite Hq in HX. rewrite Hq'. pose proof (ready_pop_repr _ _ _ HR) as Hr.
    destruct R as [|h R']; [by apply Permutation_nil_cons in HX|]. destruct Hr as (q1 & Hr & HR1). rewrite Hpop in Hr. injection Hr as <- <-.
    exists R'. split; [done|]. by apply Permutation_cons_inv in HX.
  - intros X HX. unfold here in *. by rewrite F3, (same_handle _ _ F1).
  - apply Hok.
  - apply Hok.
  - apply Hok.
  - intros j st [= <- _]. by left.
Qed.

Lemma skip_record t : ∀ w : Worker, ∃ b w', record_slice t w = Done b w' ∧ same_actors w w'.
Proof. unfold record_slice. eauto with sched. Qed.

Lemma record_ok r turn plain tokens t :
  hoare (sched_ok r turn plain tokens) (record_slice t) (fun _ (w : Worker) => sched_ok r turn plain tokens w).
Proof. apply hoare_same; [apply skip_record|]. intros w w' Hs. by apply sched_ok_same. Qed.

(** A resumed coroutine ends its turn. *)
Lemma resume_end i inc id (turn : Turn M I T) (tail : list (Effect M) + T → W ()) started_at :
  linear [] turn →
  (∀ tokens res, match res with inl effects => tokens = charges (omap effect_reservation effects) | inr _ => True end →
    hoare (running_in i inc (Some id) tokens) (tail res) (fun _ => calm)) →
  hoare (running_in i inc (Some id) [])
    ('(a', result) ← run_turn turn;
     update i (set_instance (Some a'));; record_slice started_at;; tail result) (fun _ => calm).
Proof.
  intros Hl Htail. eapply hoare_bind; [apply (run_turn_ok _ _ _ turn [] Hl)|]. intros [a' res].
  assert (Hgo : ∀ tokens, match res with inl effects => tokens = charges (omap effect_reservation effects) | inr _ => True end →
    hoare (running_in i inc (Some id) tokens) (update i (set_instance (Some a'));; record_slice started_at;; tail res) (fun _ => calm)).
  { intros tokens Htok. eapply hoare_bind; [apply store_instance; by left|]. intros ?. eapply hoare_bind; [apply record_ok|]. intros ?. by apply Htail. }
  intros w Hw. unfold turn_ends in Hw. cbn [snd] in Hw. destruct res as [effects|task]; [by apply (Hgo _ eq_refl)|].
  destruct Hw as [tokens Hw]. by apply (Hgo tokens Logic.I).
Qed.

(** Once its turn is over, an actor that asked to stop is like any other. *)
Lemma stopping_rests i inc turn plain tokens w :
  sched_ok (Some (i, (inc, ActorStopping))) turn plain tokens w → sched_ok None turn plain tokens w.
Proof.
  intros [K1 K2 (R & KR & KG) K4 K5 K6 K7]. constructor; try done. exists R. split; [done|]. destruct KG as [Q1 Q2 Q3 Q4 Q5 Q6]. constructor; try done.
  apply (Forall_impl _ _ _ Q1). intros x [X1 X2 X3 X4]. constructor; try done. unfold run_state in *. case_decide; [|done].
  destruct X4 as (X4 & _ & _). cbn in X4. by rewrite X4.
Qed.

Lemma resume_db_ok w0 (q' : HandleRing ActorHandle) i s k d task completion :
  calm w0 → committed_at i s w0 → HandleRing.ready_pop (wk_ready w0) = Some (entry_handle s, q') → queued s = true → is_Some (as_instance s) →
  as_blocked s = Some (SuspendedDbCommand k d task (Some completion)) →
  hoare (eq (with_ready q' w0)) (resume_db_command i task completion) (fun _ => calm).
Proof.
  intros Hok Hi Hpop Hq Hin Hb. unfold resume_db_command. eapply hoare_bind; [by eapply (start_turn w0 q' i s)|]. cbn beta. intros ?.
  set (inc := as_incarnation s). eapply hoare_bind; [apply begin_turn_ok|]. cbn beta. intros id. eapply hoare_bind; [apply now_ok|]. intros t.
  eapply hoare_bind; [apply count_ok|]. intros ?. eapply hoare_bind; [apply count_ok|]. intros ?.
  apply read_current. intros s1 Hh Hb1 [a Ha]. apply (hoare_from _ (running_in i inc (Some id) [])); [by intros w [_ Hw]|].
  unfold instance_of. rewrite Ha. apply (hoare_bind _ _ _ (fun b w => b = a ∧ running_in i inc (Some id) [] w)); [by apply hoare_ret|].
  intros a'. apply hoare_and. intros ->.
  apply (resume_end i inc id (resumeDb task a completion) (fun result => match result with inr task' => _ | inl effects => _ end)); [apply (tl_db Hlin)|].
  intros tokens [effects|task'] Htok.
  - subst tokens. eapply hoare_bind; [apply (applyEffectBatch_ok Hsu)|]. cbn beta. intros stopped.
    apply (hoare_bind _ _ _ (fun _ (w : Worker) => sched_ok None (Some id) 0 [] w)); [|intros ?; apply end_turn_ok].
    destruct stopped; [apply hoare_ret; intros w; apply stopping_rests|apply settle_actor_ok].
  - eapply hoare_bind; [apply (suspendOnDbRequest_ok Hsu)|]. cbn beta. intros ok.
    apply (hoare_bind _ _ _ (fun _ (w : Worker) => sched_ok None (Some id) 0 tokens w)); [|intros ?; apply end_turn_ok].
    destruct ok; [by apply hoare_ret|]. by apply (remove_current Hsu).
Qed.

Lemma resume_synthetic_ok w0 (q' : HandleRing ActorHandle) i s k d task outcome :
  calm w0 → committed_at i s w0 → HandleRing.ready_pop (wk_ready w0) = Some (entry_handle s, q') → queued s = true → is_Some (as_instance s) →
  as_blocked s = Some (SyntheticSuspendedCommand k d task (Some outcome)) →
  hoare (eq (with_ready q' w0)) (resume_synthetic_command i task outcome) (fun _ => calm).
Proof.
  intros Hok Hi Hpop Hq Hin Hb. unfold resume_synthetic_command. eapply hoare_bind; [by eapply (start_turn w0 q' i s)|]. cbn beta. intros ?.
  set (inc := as_incarnation s). eapply hoare_bind; [apply begin_turn_ok|]. cbn beta. intros id. eapply hoare_bind; [apply now_ok|]. intros t.
  eapply hoare_bind; [apply count_ok|]. intros ?. eapply hoare_bind; [apply count_ok|]. intros ?.
  apply read_current. intros s1 Hh Hb1 [a Ha]. apply (hoare_from _ (running_in i inc (Some id) [])); [by intros w [_ Hw]|].
  unfold instance_of. rewrite Ha. apply (hoare_bind _ _ _ (fun b w => b = a ∧ running_in i inc (Some id) [] w)); [by apply hoare_ret|].
  intros a'. apply hoare_and. intros ->.
  apply (resume_end i inc id (resumeSynthetic task a outcome) (fun result => match result with inr task' => _ | inl effects => _ end)); [apply (tl_synthetic Hlin)|].
  intros tokens [effects|task'] Htok.
  - subst tokens. eapply hoare_bind; [apply (applyEffectBatch_ok Hsu)|]. cbn beta. intros stopped.
    apply (hoare_bind _ _ _ (fun _ (w : Worker) => sched_ok None (Some id) 0 [] w)); [|intros ?; apply end_turn_ok].
    destruct stopped; [by apply (remove_current Hsu)|apply settle_actor_ok].
  - eapply hoare_bind; [apply (suspend_synthetic_ok Hsu)|]. cbn beta. intros ?. apply end_turn_ok.
Qed.

Lemma settle_empty i s w :
  committed_at i s w → mailbox_empty (as_mailbox s) = true → ∃ w', settle i w = Done () w' ∧ wk_ready w' = wk_ready w.
Proof.
  intros Hi Hm. pose proof (committed_points _ _ _ Hi) as Hp. unfold settle. rewrite (bind_Done _ _ _ _ _ (slot_eq _ _ _ Hp)), Hm.
  rewrite (update_eq _ _ _ _ Hp). by eexists.
Qed.

(** A slice keeps the invariant; one without a turn, and not for lack of time,
    leaves the ready queue as it was. *)
Lemma run_slice_ok w0 (q' : HandleRing ActorHandle) i s max_count max_duration started_at turns :
  calm w0 → committed_at i s w0 → HandleRing.ready_pop (wk_ready w0) = Some (entry_handle s, q') → queued s = true → is_Some (as_instance s) →
  as_blocked s = None → turns < max_count →
  hoare (eq (with_ready q' w0)) (run_slice i max_count max_duration started_at turns)
    (fun res w => calm w ∧ turns <= res.1 <= max_count ∧ (res = (turns, false) → wk_ready w = q')).
Proof.
  intros Hok Hi Hpop Hq Hin Hb Hturns. set (inc := as_incarnation s). unfold run_slice.
  apply (hoare_bind _ _ _ (fun _ w => wk_ready w = q' ∧ running_in i inc None [] w)).
  { intros w <-. assert (Hp : points i s (with_ready q' w0)) by exact (committed_points _ _ _ Hi).
    pose proof (start_turn w0 q' i s (set_state ActorRunning) Hok Hi Hpop Hq) as H. specialize (H ltac:(done) eq_refl eq_refl Hin Hb eq_refl _ eq_refl).
    rewrite (update_eq _ _ _ _ Hp) in H |- *. by split. }
  intros ?. apply hoare_pre. intros w1 [Hr1 Hok1]. destruct (current_slot _ _ _ _ _ _ _ Hok1) as (s1 & Hi1 & Hh1 & _).
  apply (hoare_from _ (fun w => places w = places w1 ∧ running_in i inc None [] w)); [by intros w <-|].
  eapply hoare_slot; [intros w [Hx _]; apply (committed_points i s1 w); unfold committed_at; injection Hx as -> _; exact Hi1|].
  eapply hoare_bind; [apply places_skip; eauto with sched|]. cbn beta. intros t.
  pose proof (limits Hsu) as Hlim. set (fuel := Z.to_nat (Z.min (max_turns_per_actor_slice cfg) (max_count - turns))).
  eapply hoare_bind; [apply slice_loop_ok|]. cbn beta. intros [n ended]. cbn [fst snd].
  set (P := fun w => _). eapply (hoare_bind _ _ _ (fun _ => P)).
  { apply hoare_same; [apply skip_record|]. intros w w' Hs [[Hn Hp] Hover]. split; [split; [done|]|].
    - unfold slice_post in *. destruct ended; by eapply sched_ok_same.
    - intros Hz He. destruct (Hover Hz He) as [?|(Hov & Hpl & s2 & Hi2 & Hm2)]; [by left|]. right. destruct Hs.
      unfold places, committed_at in *. split; [done|]. split; [congruence|]. exists s2. split; [congruence|done]. }
  intros ?. apply hoare_pre. intros w2 [[Hn Hpost] Hover]. 
  assert (Hbound : turns <= n <= max_count) by (unfold fuel in Hn; lia). assert (Hfuel : fuel ≠ 0%nat) by (unfold fuel; lia).
  assert (Hset : hoare (running_in i inc None []) (settle i) (fun _ => calm)) by apply settle_actor_ok.
  assert (Hmore : ∀ m : W (), hoare (eq w2) m (fun _ => calm) → ended ≠ SliceOver → ended ≠ SliceExhausted →
    hoare (eq w2) (m;; mret (n, false)) (fun res w => calm w ∧ turns <= res.1 <= max_count ∧ (res = (turns, false) → wk_ready w = q'))).
  { intros m Hm Hne1 Hne2. eapply hoare_bind; [exact Hm|]. intros ?. apply hoare_ret. intros w Hw. split; [done|]. split; [done|].
    intros [= ->]. by destruct (Hover Hfuel eq_refl) as [?|[? _]]. }
  destruct ended; unfold slice_post in Hpost.
  - intros w <-. unfold mbind, W_bind. pose proof (Hset w2 Hpost) as Hs. destruct (settle i w2) as [u w3|] eqn:E; [|done]. cbn. split; [done|]. split; [done|].
    intros [= ->]. destruct (Hover Hfuel eq_refl) as [?|(_ & Hpl & s2 & Hi2 & Hm2)]; [done|].
    destruct (settle_empty i s2 w2 Hi2 Hm2) as (w4 & E4 & Hr4).
    rewrite E in E4. injection E4 as _ <-. unfold places in Hpl. injection Hpl as _ Hpl. congruence.
  - apply Hmore; [|done|done]. eapply hoare_from; [|by apply (remove_current Hsu i inc ActorStopping)]. by intros w <-.
  - apply Hmore; [|done|done]. apply hoare_ret. by intros w <-.
  - eapply hoare_bind; [eapply hoare_from; [|exact Hset]; by intros w <-|]. intros ?. by apply hoare_ret.
Qed.

Lemma refresh_ready h w b w' : refreshLifecycleArm h w = Done b w' → wk_ready w' = wk_ready w.
Proof.
  unfold refreshLifecycleArm, slot, put, erase_armed, gets, require, modify, fail, mbind, W_bind. cbn.
  destruct (find_handle h (wk_actors w)) as [i|]; [|by intros [= _ <-]]. destruct (deref _ _) as [s|]; cbn; [|done].
  destruct (eqb _ _); [by intros [= _ <-]|]. destruct (match as_instance s with Some a => _ | None => false end); by intros [= _ <-].
Qed.

(** The entry at the front is a live actor that waits for its turn. *)
Lemma front_queued w h (q' : HandleRing ActorHandle) :
  calm w → HandleRing.ready_pop (wk_ready w) = Some (h, q') → ∃ i s, committed_at i s w ∧ entry_handle s = h ∧ queued s = true.
Proof.
  intros Hok Hpop. destruct (k_ready _ _ _ _ _ Hok) as (R & HR & HG). pose proof (ready_pop_repr _ _ _ HR) as Hr.
  destruct R as [|h' R]; [congruence|]. destruct Hr as (q1 & Hr & _). rewrite Hpop in Hr. injection Hr as <- <-.
  assert (Hin : h ∈ handles_where queued (actives (at_table (wk_actors w)))) by (rewrite <-(g_ready _ _ _ _ _ _ _ _ HG); by left).
  apply list_elem_of_fmap in Hin as (s & -> & Hs). apply list_elem_of_In, filter_In in Hs as [Hs Hq].
  apply list_elem_of_In, actives_elem in Hs as (i & x & Hx & Hc & He). exists i, s. split_and!; try done.
  by eapply flags_committed; [apply (k_table _ _ _ _ _ Hok)|..].
Qed.

Lemma run_ready_ok w0 (q' : HandleRing ActorHandle) h max_count max_duration started_at turns :
  calm w0 → HandleRing.ready_pop (wk_ready w0) = Some (h, q') → turns < max_count →
  hoare (eq (with_ready q' w0)) (run_ready h max_count max_duration started_at turns)
    (fun res w => calm w ∧ turns <= res.1 <= max_count ∧ (res = (turns, false) → wk_ready w = q')).
Proof.
  intros Hok Hpop Hturns. destruct (front_queued w0 h q' Hok Hpop) as (i & s & Hi & Hh & Hq). subst h.
  pose proof (committed_handle _ _ _ _ _ _ _ Hok Hi) as Hf. pose proof (committed_good _ _ _ _ _ _ _ Hok Hi) as [_ Hsh _ _].
  assert (Hst : as_state s = ActorQueued) by (unfold queued in Hq; by apply bool_decide_eq_true in Hq).
  unfold shape in Hsh. rewrite Hst in Hsh. destruct Hsh as [Hin Hans]. unfold run_ready. apply hoare_read. intros found.
  apply hoare_pre. intros w1 [Hf1 <-]. cbn [with_ready wk_actors] in Hf1. rewrite Hf in Hf1. subst found.
  eapply hoare_slot; [intros w <-; exact (committed_points i s w0 Hi)|]. rewrite Hst, bool_decide_eq_true_2 by done. cbn [negb].
  eapply hoare_bind with (Q := fun res w => calm w ∧ turns <= res.1 <= max_count ∧ (res = (turns, false) → wk_ready w = q')).
  - assert (Hone : ∀ m : W (), hoare (eq (with_ready q' w0)) m (fun _ => calm) →
      hoare (eq (with_ready q' w0)) (m;; mret (turns + 1, false))
        (fun res w => calm w ∧ turns <= res.1 <= max_count ∧ (res = (turns, false) → wk_ready w = q'))).
    { intros m Hm. eapply hoare_bind; [exact Hm|]. intros ?. apply hoare_ret. intros w Hw. cbn. split_and!; [done|lia|lia|]. intros [= ?]. lia. }
    destruct (as_blocked s) as [b|] eqn:Hb; [|by apply (run_slice_ok w0 q' i s)]. specialize (Hans b eq_refl).
    destruct b as [k d task [c|]|k d task [c|]|k d]; try done; cbn [require].
    + refine (Hone (resume_synthetic_command i task c) _). by eapply resume_synthetic_ok.
    + refine (Hone (resume_db_command i task c) _). by eapply resume_db_ok.
  - intros [n ex]. apply hoare_pre. intros w2 (Hok2 & Hn & Hr). intros w <-. unfold mbind, W_bind.
    pose proof (refreshLifecycleArm_ok (entry_handle s) (handle_index s) w2 Hok2) as Hre.
    destruct (refreshLifecycleArm (entry_handle s) w2) as [u w3|] eqn:E; [|done]. cbn. split_and!; [done|apply Hn|apply Hn|].
    intros Heq. rewrite (refresh_ready _ _ _ _ E). by apply Hr.
Qed.

(** ** The loop *)

Definition measure (max_count turns : Z) w : Z := (max_count - turns) * (actor_table_capacity cfg + 1) + hr_size (wk_ready w).

Lemma ready_size w : calm w → 0 <= hr_size (wk_ready w) <= actor_table_capacity cfg.
Proof.
  intros Hok. destruct (k_ready _ _ _ _ _ Hok) as (R & HR & _). rewrite (hrr_size _ _ _ HR). pose proof (hrr_bound _ _ _ HR). unfold zlen in *. lia.
Qed.

(** Every round that goes on makes the measure smaller. *)
Lemma round_progress w0 w (q' : HandleRing ActorHandle) h max_count turns n ex :
  calm w0 → calm w → HandleRing.ready_pop (wk_ready w0) = Some (h, q') → turns < max_count → turns <= n <= max_count →
  ((n, ex) = (turns, false) → wk_ready w = q') → ex = false → measure max_count n w < measure max_count turns w0.
Proof.
  intros Hok0 Hok Hpop Ht Hn Hr ->. pose proof (limits Hsu). pose proof (ready_size w Hok). pose proof (ready_size w0 Hok0). unfold measure.
  destruct (decide (n = turns)) as [->|Hne]; [|nia]. rewrite Hr by done.
  destruct (k_ready _ _ _ _ _ Hok0) as (R & HR & _). pose proof (ready_pop_repr _ _ _ HR) as Hp.
  destruct R as [|h' R]; [congruence|]. destruct Hp as (q1 & Hp & HR1). rewrite Hpop in Hp. injection Hp as <- <-.
  rewrite (hrr_size _ _ _ HR), (hrr_size _ _ _ HR1). unfold zlen. simpl. lia.
Qed.

Lemma ready_loop_ok fuel max_count max_duration started_at turns :
  turns <= max_count →
  hoare (fun w => calm w ∧ measure max_count turns w < Z.of_nat fuel) (ready_loop fuel max_count max_duration started_at turns) (fun _ => calm).
Proof.
  revert turns. induction fuel as [|fuel IH]; intros turns Ht; cbn [ready_loop].
  { intros w [Hok Hm]. pose proof (ready_size w Hok). pose proof (limits Hsu). unfold measure in Hm. nia. }
  apply hoare_read. intros empty. destruct empty; [by apply hoare_ret; intros w (_ & Hw & _)|].
  set (P := fun w => hr_empty (wk_ready w) = false ∧ calm w ∧ measure max_count turns w < Z.of_nat (S fuel)).
  apply (hoare_bind _ _ _ (fun late w => P w ∧ (late = false → turns < max_count))).
  { destruct (Z.leb_spec max_count turns); [by apply hoare_ret|]. eapply hoare_weaken with (Q' := fun _ => P); [|done|by intros].
    apply hoare_same; [unfold budget_expired; eauto with sched|]. intros w w' Hs (H1 & H2 & H3). split_and!; [|by eapply sched_ok_same|].
    - destruct Hs. congruence.
    - destruct Hs. unfold measure in *. congruence. }
  intros [|]; [apply hoare_ret; by intros w [(_ & Hw & _) _]|]. apply hoare_pre. intros w0 [(He & Hok & Hm) Hlt]. specialize (Hlt eq_refl).
  destruct (k_ready _ _ _ _ _ Hok) as (R & HR & _). pose proof (ready_pop_repr _ _ _ HR) as Hp. rewrite (handles_empty HR) in He.
  destruct R as [|h R]; [done|]. destruct Hp as (q' & Hp & HR').
  apply (hoare_bind _ _ _ (fun h' w => h' = h ∧ with_ready q' w0 = w)).
  { intros w <-. unfold pop_ready, gets, require, modify, mbind, W_bind. rewrite Hp. done. }
  intros h'. apply hoare_and. intros ->. eapply hoare_bind; [by apply (run_ready_ok w0 q' h)|]. intros [n ex].
  destruct ex; [apply hoare_ret; by intros w (Hw & _)|]. cbn [fst]. apply hoare_pre. intros w (Hw & Hn & Hr).
  eapply hoare_from; [|apply IH; cbn in Hn; lia]. intros w' <-. split; [done|].
  pose proof (round_progress w0 w q' h max_count turns n false Hok Hw Hp Hlt Hn Hr eq_refl). lia.
Qed.

Lemma runReadyActors_ok max_count max_duration : 0 <= max_count → hoare calm (runReadyActors max_count max_duration) (fun _ => calm).
Proof.
  intros Hmc. unfold runReadyActors. apply bind_ok; [apply now_ok|]. intros t. apply bind_ok; [apply gets_ok|]. intros n.
  apply bind_ok; [apply arm_scan_ok|]. intros ?. apply bind_ok; [|intros; keep].
  eapply hoare_from; [|by apply ready_loop_ok]. intros w Hw. split; [done|]. pose proof (ready_size w Hw). pose proof (limits Hsu).
  unfold measure, ready_fuel. nia.
Qed.
End run.
