(* ===== verification/SchedulerClock.v ===== *)
(** * Timers and shutdown keep the worker's invariant

    [expireTimers] and its handler [onTimer] never fault, an await timeout that
    fires wakes or drops the actor that waits for it, and the phases of the
    shutdown ([Scheduler.v]) keep the invariant. *)

From S2P Require Import Prelude FrameCodec Identity Lane TimerQueue HandleRing SlotTable ActorTable Actor Scheduler SchedulerInv SchedulerOps SchedulerDeliver SchedulerTurns SchedulerRun.

Section clock.
Context {M I T Env : Type} `{Setup : !WorkerSetup M}.
Context `{Heap : !HeapAlgorithms (entry_deadline (M := M))} `{Behaviour : !ActorBehaviour M I T}.
Context `{Outside : !WorkerOutside M I Env}.
Context (Hsu : setup_ok).

Abbreviation Slot := (ActorSlot M I T).
Abbreviation Timers := (TimerQueue (M := M)).
Abbreviation Worker := (Worker M I T Env).
Abbreviation W := (W M I T Env).
Abbreviation calm := (sched_ok (I := I) (T := T) (Env := Env) None None 0 []).
Implicit Types (w : Worker) (s : Slot) (q : Timers) (r : running).

(** ** Computations that raise no fault of others *)

Definition clean {B} (m : W B) : Prop := ∀ w f, m w = Failed f → excused f = false.

Lemma clean_ret {B} (b : B) : clean (mret b).
Proof. by intros w f. Qed.

Lemma clean_bind {B C} (m : W B) (k : B → W C) : clean m → (∀ b, clean (k b)) → clean (m ≫= k).
Proof. intros Hm Hk w f. unfold mbind, W_bind. destruct (m w) as [b w'|g] eqn:E; [apply Hk|]. intros [= <-]. by eapply Hm. Qed.

Lemma clean_gets {B} (f : Worker → B) : clean (gets f).
Proof. by intros w g. Qed.

Lemma clean_modify f : clean (modify f : W ()).
Proof. by intros w g. Qed.

Lemma clean_fail {B} f : excused f = false → clean (fail f : W B).
Proof. intros H w g. by intros [= <-]. Qed.

Lemma clean_require {B} f (o : option B) : excused f = false → clean (require f o : W B).
Proof. destruct o; [intros; apply clean_ret|apply clean_fail]. Qed.

Lemma clean_skip {B} (m : W B) : (∀ w, ∃ b w', m w = Done b w' ∧ same_actors w w') → clean m.
Proof. intros Hm w f. destruct (Hm w) as (b & w' & -> & _). done. Qed.

Lemma clean_try f : clean (timer_try f : W bool).
Proof. intros w g. unfold timer_try. by destruct (f _). Qed.

Lemma clean_network {B} (f : Timers * Env → B * (Timers * Env)) : clean (use_network f : W B).
Proof. intros w g. unfold use_network. by destruct (f _) as [b [q o]]. Qed.

(** A clean computation that keeps the invariant ends. *)
Lemma clean_done {B} P (m : W B) Q : clean m → hoare P m Q → ∀ w, P w → ∃ b w', m w = Done b w' ∧ Q b w'.
Proof.
  intros Hc Hm w Hw. specialize (Hm w Hw). destruct (m w) as [b w'|f] eqn:E; [by eexists _, _|]. by rewrite (Hc w f E) in Hm.
Qed.

Ltac cleanup :=
  repeat (intros;
    match goal with
    | |- clean (mbind _ _) => apply clean_bind
    | |- clean (match ?x with _ => _ end) => destruct x
    | |- clean (require _ _) => apply clean_require; reflexivity
    | |- clean (fail _) => apply clean_fail; reflexivity
    | |- clean (modify _) => apply clean_modify
    | |- clean (gets _) => apply clean_gets
    | |- clean (timer_try _) => apply clean_try
    | |- clean (use_network _) => apply clean_network
    | |- clean (mret _) => apply clean_ret
    | |- clean (count _) => apply clean_modify
    | |- clean (count_by _ _) => apply clean_modify
    | |- clean (tell_outside _) => apply clean_modify
    | |- clean (put _ _) => apply clean_modify
    | |- clean (use_outside _) => apply clean_skip; eauto with sched
    | |- _ => solve [assumption | eauto]
    end).

Lemma clean_slot i : clean (slot i : W Slot).
Proof. unfold slot. cleanup. Qed.

Lemma clean_update i f : clean (update i f : W ()).
Proof. unfold update. pose proof clean_slot. cleanup. Qed.

Lemma clean_enqueue i : clean (enqueue_actor i : W ()).
Proof. unfold enqueue_actor, push_ready. pose proof clean_slot. pose proof clean_update. cleanup. Qed.

Lemma clean_accept_message i m : clean (accept_message i m : W ()).
Proof. unfold accept_message, push_message. pose proof clean_slot. pose proof clean_enqueue. cleanup. Qed.

Lemma clean_remove h reason : clean (removeActor h reason : W ()).
Proof. unfold removeActor, add_loading, erase_armed, discardMailbox. pose proof clean_slot. pose proof clean_update. cleanup. Qed.

Lemma clean_receipt k c result : clean (sendActorConnectionClosedReceipt k c result : W ()).
Proof. unfold sendActorConnectionClosedReceipt. cleanup. Qed.

Lemma clean_notify k c m : clean (notifyActorConnectionClosed k c m : W DeliveryResult).
Proof.
  unfold notifyActorConnectionClosed, deliverActorConnectionClosedLocally. pose proof clean_slot. pose proof clean_accept_message.
  pose proof clean_receipt. cleanup.
Qed.

Lemma clean_notify_all notices : clean (notify_all notices : W ()).
Proof. pose proof clean_notify. induction notices; cbn [notify_all]; cleanup. Qed.

Lemma clean_timer p t : clean (onTimer p t : W ()).
Proof.
  unfold onTimer, deliver_timer, tryMarkSyntheticCommandReady, tryMarkDbCommandReady, completeSyntheticActivation, reject_activation.
  pose proof clean_slot. pose proof clean_update. pose proof clean_enqueue. pose proof clean_accept_message. pose proof clean_remove.
  pose proof clean_notify_all. cleanup.
Qed.

(** ** A timer fires *)

Lemma calm_timers w q :
  calm w → timers_ok chargedBytes 0 [] q →
  (∀ i s, committed_at i s w → timeout_pending s (wk_timers w) → timeout_pending s q) → calm (with_timers q w).
Proof.
  intros Hok Hti Hp. pose proof Hok as [K1 K2 (R & KR & KG) K4 K5 K6 K7]. constructor; cbn; try done. exists R. split; [done|].
  destruct KG as [Q1 Q2 Q3 Q4 Q5 Q6]. constructor; try done. rewrite Forall_forall in *. intros s Hs. destruct (Q1 s Hs) as [X1 X2 X3 X4].
  constructor; try done. apply actives_elem in Hs as (i & x & Hx & Hc & He). apply (Hp i s); [|done].
  by eapply flags_committed; [apply K1|..].
Qed.

(** An entry that was not an await timeout is missed by nobody. *)
Lemma popped_pending q e q' s :
  popped chargedBytes q e q' →
  (∀ k, awaiting s = Some (entry_deadline e, k) → isValid (await_operation k) = true → entry_payload e ≠ AwaitTimeout k) →
  timeout_pending s q → timeout_pending s q'.
Proof.
  intros [Hp _ _ _ _ _] Hne Hs d k Ha. destruct (Hs d k Ha) as (H1 & H2 & H3). split_and!; [done|done|]. intros Hv. specialize (H3 Hv).
  rewrite Hp in H3. apply elem_of_cons in H3 as [H3|H3]; [|done]. exfalso. subst e. cbn in Hne. by apply (Hne k Ha Hv).
Qed.

(** Who waits is suspended or loading. *)
Lemma waiting_state s d k :
  shape s → awaiting s = Some (d, k) →
  as_state s = ActorSuspended ∧ is_Some (as_instance s) ∧ (∀ k d, as_blocked s ≠ Some (ActivationLoad k d)) ∨
  as_state s = ActorLoading ∧ ∃ k d, as_blocked s = Some (ActivationLoad k d).
Proof.
  unfold shape, awaiting. intros Hsh Ha. destruct (as_blocked s) as [b|]; [|done].
  destruct b as [k' d' task [c|]|k' d' task [c|]|k' d']; try done; destruct (as_state s); naive_solver.
Qed.

Section fired.
Context (w0 : Worker) (e : TimerEntry (M := M)) (q' : Timers).
Context (Hok : calm w0) (Hti : timers_ok chargedBytes 0 [] q') (Hpop : popped chargedBytes (wk_timers w0) e q').

Lemma saturated_full s m w :
  (max_mailbox_bytes_per_actor cfg <? chargedBytes m) || (max_mailbox_bytes_total cfg <? chargedBytes m) = false →
  (max_mailbox_messages_per_actor cfg <=? mailbox_size (as_mailbox s))
    || (max_mailbox_messages_total cfg <=? wk_messages w)
    || (max_mailbox_bytes_per_actor cfg <? mb_charged_bytes (as_mailbox s))
    || (max_mailbox_bytes_per_actor cfg - mb_charged_bytes (as_mailbox s) <? chargedBytes m)
    || (max_mailbox_bytes_total cfg <? wk_bytes w) || (max_mailbox_bytes_total cfg - wk_bytes w <? chargedBytes m) = false →
  mailbox_full s (chargedBytes m) w = false.
Proof. intros H1 H2. to_prop. unfold mailbox_full, totals_full, exceedsByteLimit. rewrite !orb_false_iff, !Z.leb_gt, !Z.ltb_ge. lia. Qed.

Lemma deliver_timer_ok target m t :
  entry_payload e = ApplicationTimer target m → hoare (eq (with_timers q' w0)) (deliver_timer target m t) (fun _ => calm).
Proof.
  intros Hp. set (w1 := with_timers q' w0).
  assert (Hw1 : calm w1) by (apply calm_timers; [done|done|]; intros i s _; apply (popped_pending _ _ _ _ Hpop); by rewrite Hp).
  assert (Hcount : ∀ c, hoare (eq w1) (count c) (fun _ => calm)) by (intros c; apply (hoare_from _ calm); [by intros w <-|apply count_ok]).
  unfold deliver_timer. apply hoare_read. intros [i|]; [|apply (hoare_from _ (eq w1)); [by intros w [_ <-]|apply Hcount]].
  apply hoare_pre. intros w [Hf <-]. destruct (find_key_committed _ _ _ _ _ _ _ Hw1 Hf) as (s & Hi & Hk).
  eapply hoare_slot; [intros w <-; by apply committed_points|]. destruct (negb _); [apply Hcount|]. case_bool_decide as Hst; [apply Hcount|].
  match goal with |- hoare _ (if ?b then _ else _) _ => destruct b eqn:Hbig end; [apply Hcount|]. apply hoare_read. intros w2. apply hoare_pre. intros w3 [E <-]. unfold id in E. subst w2.
  cbv zeta. match goal with |- hoare _ (if ?b then _ else _) _ => destruct b eqn:Hsat end.
  - intros w <-. unfold timer_try, mbind, W_bind.
    pose proof (requeue_succeeds chargedBytes (su_charge Hsu) _ _ _ _ _ (after t 1) (k_timers _ _ _ _ _ Hok) Hti Hpop) as Hs. rewrite Hp in Hs.
    pose proof (timer_schedule_ok Hsu _ _ _ _ (after t 1) (ApplicationTimer target m) w1 Hw1) as Hts. unfold timer_try in Hts.
    change (wk_timers w1) with q' in *. destruct (trySchedule chargedBytes (after t 1) (ApplicationTimer target m) q') as [b q2]. cbn in Hs. subst b.
    apply (count_ok _ _ _ _ application_timer_delivery_retries _ Hts).
  - eapply hoare_bind; [|intros; apply count_ok]. eapply hoare_from; [|apply (admit_ok Hsu _ _ _ _ i s m)]. intros w <-.
    split_and!; [done|done|done|]. by apply saturated_full.
Qed.

Lemma committed_key w i s : calm w → committed_at i s w → find_key (as_key s) (wk_actors w) = Some i.
Proof.
  intros Hw Hi. unfold find_key. assert (Hk : at_key_to_slot (wk_actors w) !! as_key s = Some i).
  { apply (tk_keys _ (k_table _ _ _ _ _ Hw)). eexists _, s. split; [exact Hi|done]. }
  rewrite Hk. cbn. unfold committed_at in Hi. by rewrite Hi.
Qed.

(** When nobody accepts the timeout, nobody misses it. *)
Lemma unclaimed key :
  entry_payload e = AwaitTimeout key →
  (∀ i s d k, committed_at i s w0 → as_key s = await_actor key → awaiting s = Some (d, k) → acceptsCompletion key k = false) →
  calm (with_timers q' w0).
Proof.
  intros Hp Hno. apply calm_timers; [done|done|]. intros i s Hi Hpend. apply (popped_pending _ _ _ _ Hpop); [|done]. intros k Ha Hv.
  rewrite Hp. intros [= ->]. destruct (Hpend _ _ Ha) as (H1 & H2 & _). specialize (Hno i s _ _ Hi (eq_sym H1) Ha).
  destruct (so_slots _ _ (tk_slots _ (k_table _ _ _ _ _ Hok)) i _ Hi) as [_ _ Hgen]. specialize (Hgen s eq_refl).
  unfold acceptsCompletion in Hno. rewrite H2, Hv, bool_decide_eq_true_2 in Hno by done. unfold isValid in Hno. cbn in Hgen.
  destruct (Z.eqb_spec (as_incarnation s) 0); [lia|done].
Qed.

(** The timeout of the actor at hand spares every other. *)
Lemma popped_spares key s : entry_payload e = AwaitTimeout key → as_key s = await_actor key → spares s (wk_timers w0) q'.
Proof.
  intros Hp Hk x Hx Hpend. apply (popped_pending _ _ _ _ Hpop); [|done]. intros k Ha _. rewrite Hp. intros [= ->].
  destruct (Hpend _ _ Ha) as (H1 & _). congruence.
Qed.

Lemma calm_await key t : hoare calm (onTimer (AwaitTimeout key) t) (fun _ => calm).
Proof.
  cbn [onTimer]. apply calm_found; [apply count_ok|]. intros w i s Hw Hi Hk _.
  eapply hoare_slot; [intros w' <-; apply committed_points; exact Hi|]. apply calm_back; [done|].
  pose proof (tryMarkSynthetic_ok (I := I) (T := T) (Env := Env)). pose proof (tryMarkDb_ok (I := I) (T := T) (Env := Env)). pose proof (completeSyntheticActivation_ok Hsu). keep.
Qed.

Lemma await_timeout_ok key t :
  entry_payload e = AwaitTimeout key → hoare (eq (with_timers q' w0)) (onTimer (AwaitTimeout key) t) (fun _ => calm).
Proof.
  intros Hp. destruct (find_key (await_actor key) (wk_actors w0)) as [i|] eqn:Hf.
  2:{ apply (hoare_from _ calm); [|apply calm_await]. intros w <-. apply (unclaimed key Hp). intros i s d k Hi Hk. rewrite <-Hk in Hf.
      by rewrite (committed_key w0 i s Hok Hi) in Hf. }
  destruct (find_key_committed _ _ _ _ _ _ _ Hok Hf) as (s & Hi & Hk). pose proof (popped_spares key s Hp Hk) as Hsp.
  destruct (match awaiting s with Some (_, k) => acceptsCompletion key k | None => false end) eqn:Hacc.
  2:{ apply (hoare_from _ calm); [|apply calm_await]. intros w <-. apply (unclaimed key Hp). intros j s' d k Hj Hk' Ha.
      pose proof (committed_key w0 j s' Hok Hj) as Hf'. rewrite Hk', Hf in Hf'. injection Hf' as ->.
      rewrite (committed_unique _ _ _ _ Hi Hj) in Ha. by rewrite Ha in Hacc. }
  pose proof (committed_good _ _ _ _ _ _ _ Hok Hi) as [_ Hsh _ _].
  assert (Hst : as_state s = ActorSuspended ∧ is_Some (as_instance s) ∧ (∀ k d, as_blocked s ≠ Some (ActivationLoad k d)) ∨
                as_state s = ActorLoading ∧ ∃ k d, as_blocked s = Some (ActivationLoad k d)).
  { destruct (awaiting s) as [[d k]|] eqn:Ha; [|done]. by eapply waiting_state. }
  assert (Hpt : ∀ w, with_timers q' w0 = w → points i s w) by (intros w <-; exact (committed_points i s w0 Hi)).
  cbn [onTimer]. apply hoare_read. intros found. apply hoare_pre. intros w [Hf1 <-]. cbn [with_timers wk_actors] in Hf1. rewrite Hf in Hf1. subst found.
  eapply hoare_slot; [exact Hpt|]. unfold awaiting in Hacc.
  assert (Hfound : ∀ {B} (m : option nat → W B) Q, hoare (eq (with_timers q' w0)) (m (Some i)) Q →
    hoare (eq (with_timers q' w0)) (gets (fun w => find_key (await_actor key) (wk_actors w)) ≫= m) Q).
  { intros B m Q Hm. apply hoare_read. intros found. apply hoare_pre. intros w [Hf1 <-]. cbn [with_timers wk_actors] in Hf1. rewrite Hf in Hf1. by subst found. }
  destruct (as_blocked s) as [b|] eqn:Hb; [|done]. destruct b as [k d task [c|]|k d task [c|]|k d]; try done.
  - destruct Hst as [(Hst & Hin & _)|(_ & ? & ? & ?)]; [|done]. eapply (hoare_bind _ _ _ (fun _ => calm)); [|keep].
    unfold tryMarkSyntheticCommandReady. apply Hfound. eapply hoare_slot; [exact Hpt|].
    rewrite Hst, Hb, bool_decide_eq_true_2, Hacc by done. cbn [negb orb has_value].
    by apply (mark_from w0 q' i s); try done; apply ret_ok.
  - destruct Hst as [(Hst & Hin & _)|(_ & ? & ? & ?)]; [|done]. eapply (hoare_bind _ _ _ (fun _ => calm)); [|keep].
    unfold tryMarkDbCommandReady. apply Hfound. eapply hoare_slot; [exact Hpt|].
    rewrite Hst, Hb, bool_decide_eq_true_2, Hacc by done. cbn [negb orb has_value].
    by apply (mark_from w0 q' i s); try done; apply ret_ok.
  - destruct Hst as [(_ & _ & Hn)|(Hst & _)]; [by destruct (Hn k d)|]. rewrite Hacc. unfold completeSyntheticActivation. apply Hfound.
    eapply hoare_slot; [exact Hpt|]. rewrite Hb, Hst, bool_decide_eq_true_2, Hacc by done. cbn [negb orb].
    apply (reject_from Hsu w0 q' i s); try done. by apply (not_queued _ ActorLoading).
Qed.

Lemma onTimer_ok t : hoare (eq (with_timers q' w0)) (onTimer (entry_payload e) t) (fun _ => calm).
Proof.
  destruct (entry_payload e) as [key|h|target m] eqn:Hp.
  - by apply await_timeout_ok.
  - apply (hoare_from _ calm).
    { intros w <-. apply calm_timers; [done|done|]. intros i s _. apply (popped_pending _ _ _ _ Hpop). intros k _ _. by rewrite Hp. }
    cbn [onTimer]. eapply hoare_bind; [apply (use_network_ok Hsu); apply close_expired_deadlines|]. intros notices. apply (notify_all_ok Hsu).
  - by apply deliver_timer_ok.
Qed.
End fired.

(** ** Expiry *)

Lemma expire_loop_calm late t max_count fuel expired w q :
  calm (with_timers q w) → 0 <= expired → (Z.to_nat (max_count - expired) < fuel)%nat →
  ∃ res q' w', expire_loop chargedBytes (timer_handler t) late fuel t max_count expired (q, w) = Some (res, (q', w')) ∧ calm (with_timers q' w').
Proof.
  revert expired w q. induction fuel as [|fuel IH]; intros expired w q Hok Hexp Hfuel; [lia|]. simpl.
  destruct (front_due t q) eqn:Hdue; simpl negb; cbv iota; [|by eexists _, q, w].
  destruct (max_count <=? expired) eqn:Hm; [by eexists _, q, w|]. to_prop.
  destruct (tq_heap q) as [|e h] eqn:Hq; [by unfold front_due in Hdue; rewrite Hq in Hdue|].
  destruct (pop_due_ok chargedBytes (su_charge Hsu) _ _ _ _ _ (k_timers _ _ _ _ _ Hok) Hq) as (q1 & Hp1 & Hok1 & Hpop).
  cbn [with_timers wk_timers] in Hp1, Hpop. rewrite Hp1. cbn [mbind option_bind].
  destruct (clean_done _ _ _ (clean_timer (entry_payload e) t) (onTimer_ok (with_timers q w) e q1 Hok Hok1 Hpop t) _ eq_refl) as (u & w2 & E & Hw2).
  change (with_timers q1 (with_timers q w)) with (with_timers q1 w) in E.
  assert (Hh : timer_handler t (entry_payload e) (q1, w) = Some (wk_timers w2, w2)) by (unfold timer_handler; cbn [fst snd]; by rewrite E).
  rewrite Hh. cbn [mbind option_bind].
  rewrite <-(timers_refl w2) in Hw2. destruct (_ && _); [by eexists _, _, w2|]. apply IH; [done|lia|lia].
Qed.

(** Expiring timers never faults. *)
Lemma expireTimers_ok late t max_count w :
  0 <= max_count → calm w → ∃ b w', expireTimers t max_count late w = Done b w' ∧ calm w'.
Proof.
  intros Hm Hok. unfold expireTimers, expire.
  destruct (expire_loop_calm late t max_count (S (Z.to_nat max_count)) 0 w (wk_timers w)) as (res & q' & w' & E & Hw'); [by rewrite timers_refl|lia|lia|].
  rewrite E. cbn. eexists _, _. split; [done|done].
Qed.

(** ** Shutdown *)

Lemma beginShutdownPhaseA_ok : hoare calm beginShutdownPhaseA (fun _ => calm).
Proof.
  unfold beginShutdownPhaseA. apply bind_ok.
  { apply hoare_modify. intros w Hw. by apply (sched_ok_same _ _ _ _ w). }
  intros ?. apply bind_ok; [apply armLifecycleForShutdown_ok|]. intros ?. apply tell_outside_ok.
Qed.

Lemma cancel_blocked_ok h : 0 <= ah_slot_index h → hoare calm (cancel_blocked h) (fun _ => calm).
Proof.
  intros Hh. unfold cancel_blocked. apply hoare_read. intros [i|]; [|by apply hoare_ret; intros w [_ Hw]].
  apply hoare_pre. intros w0 [Hf Hok]. destruct (find_handle_committed _ _ _ _ _ _ _ Hok Hf) as (s & Hi & _ & Hsh). specialize (Hsh Hh).
  pose proof (committed_good _ _ _ _ _ _ _ Hok Hi) as [_ Hshape _ _].
  assert (Hret : hoare (eq w0) (mret false) (fun _ => calm)) by (apply hoare_ret; by intros w <-).
  assert (Hmark : ∀ b, as_state s = ActorSuspended → is_Some (as_instance s) → answered b = true →
    hoare (eq w0) (update i (set_blocked (Some b));; enqueue_actor i;; count cancelled_blocked_actors;; mret true) (fun _ => calm)).
  { intros b Hst Hin Hb. rewrite <-(timers_refl w0) at 1. eapply (mark_from w0 (wk_timers w0) i s); try done; [apply Hok|apply spares_same|keep]. }
  eapply hoare_slot; [intros w <-; apply committed_points; exact Hi|]. destruct (match as_instance s with Some a => _ | None => false end); [exact Hret|].
  destruct (as_blocked s) as [b|] eqn:Hb; [|exact Hret].
  destruct b as [k d task [c|]|k d task [c|]|k d]; try exact Hret.
  - destruct (waiting_state s d k Hshape) as [(Hst & Hin & _)|(_ & ? & ? & ?)]; [unfold awaiting; by rewrite Hb| |congruence]. by apply Hmark.
  - destruct (waiting_state s d k Hshape) as [(Hst & Hin & _)|(_ & ? & ? & ?)]; [unfold awaiting; by rewrite Hb| |congruence]. by apply Hmark.
  - destruct (waiting_state s d k Hshape) as [(_ & _ & Hn)|(Hst & _)]; [unfold awaiting; by rewrite Hb|by destruct (Hn k d)|].
    assert (Hq : queued s = false) by (by apply (not_queued _ ActorLoading)). subst h.
    apply (hoare_bind _ _ _ (fun _ w => calm w ∧ committed_at i s w)).
    { intros w <-. cbn. split; [|done]. exact (count_ok _ _ _ _ cancelled_blocked_actors w0 Hok). }
    intros ?. eapply hoare_bind; [exact (removeActor_ok Hsu None None 0 [] i s ActivationCancelled Hq)|]. intros ?. apply ret_ok.
Qed.

Lemma activeHandles_index w : Forall (fun h => 0 <= ah_slot_index h) (activeHandles (wk_actors w)).
Proof. apply Forall_forall. intros h (s & -> & _)%list_elem_of_fmap. apply handle_index. Qed.

Lemma cancelBlockedActors_ok : hoare calm cancelBlockedActorsForShutdown (fun _ => calm).
Proof.
  unfold cancelBlockedActorsForShutdown. apply hoare_pre. intros w Hok. apply hoare_read. intros hs. apply hoare_pre. intros w' [Hhs <-].
  apply (hoare_from _ calm); [by intros w' <-|]. pose proof (activeHandles_index w) as Hall. rewrite Hhs in Hall. clear Hhs Hok.
  generalize false. induction Hall as [|h rest Hh _ IH]; intros any; cbn [cancel_each]; [apply ret_ok|].
  apply bind_ok; [by apply cancel_blocked_ok|]. intros c. apply IH.
Qed.

Lemma beginShutdownPhaseB_ok : hoare calm beginShutdownPhaseB (fun _ => calm).
Proof.
  unfold beginShutdownPhaseB. apply hoare_pre. intros w Hok. apply hoare_read. intros o. apply hoare_pre. intros w' [Ho <-].
  destruct (cancelApplicationTimers_ok chargedBytes (su_charge Hsu) _ _ _ (k_timers _ _ _ _ _ Hok)) as (q' & Hc & Hti & _ & Hperm).
  rewrite Hc in Ho. subst o. cbn [require].
  apply (hoare_bind _ _ _ (fun res w' => res = (applicationTimerCount chargedBytes (wk_timers w), q') ∧ w = w')); [by apply hoare_ret|].
  intros res. apply hoare_and. intros ->. cbn [fst snd]. apply (hoare_bind _ _ _ (fun _ => calm)).
  - apply hoare_modify. intros w' <-. apply calm_timers; [done|done|]. intros i s _ Hs d k Ha. destruct (Hs d k Ha) as (H1 & H2 & H3).
    split_and!; [done|done|]. intros Hv. rewrite Hperm. apply list_elem_of_filter. split; [done|by apply H3].
  - intros ?. apply bind_ok; [apply count_by_ok|]. intros ?. apply bind_ok; [apply cancelBlockedActors_ok|]. intros ?. apply ret_ok.
Qed.
End clock.
