(* ===== verification/SchedulerSpec.v ===== *)
(** * What the worker promises its actors

    Sequences of calls on a worker, as the worker's loop, the network, the
    database client and the adapters make them, and what holds after every such
    sequence: the worker's books are right, nobody's wake-up is lost, a run of
    the ready actors ends, and an answer is taken at most once. *)

From S2P Require Import Prelude FrameCodec Identity Lane TimerQueue HandleRing SlotTable ActorTable Actor Scheduler SchedulerInv SchedulerOps SchedulerDeliver SchedulerTurns SchedulerRun SchedulerClock.

(** ** Calls *)

(** What a worker is called to do from its configuration until the end of phase
    B; the removal of the actors that ends phase B is not among them. *)
Inductive WorkerCall (M : Type) :=
| CallDeliver (k : ActorKey) (m : M)
| CallTell (k : ActorKey) (m : M)
| CallSend (c : ConnectionRef) (f : Frame) (critical : bool)
| CallClose (c : ConnectionRef) (reason : CloseReason) (graceful : bool)
| CallNotify (k : ActorKey) (c : ConnectionRef) (m : M)
| CallEvent (e : WorkerEvent M)
| CallCompleteDb (key : AwaitKey) (result : DbResult)
| CallCompleteCommand (key : AwaitKey) (outcome : SyntheticAwaitOutcome)
| CallCompleteActivation (key : AwaitKey) (outcome : SyntheticActivationOutcome)
| CallRunReady (max_count max_duration : Z)
| CallExpire (t : time_point) (max_count : Z) (late : Z → bool)
| CallPhaseA
| CallPhaseB.
Arguments CallDeliver {M}.
Arguments CallTell {M}.
Arguments CallSend {M}.
Arguments CallClose {M}.
Arguments CallNotify {M}.
Arguments CallEvent {M}.
Arguments CallCompleteDb {M}.
Arguments CallCompleteCommand {M}.
Arguments CallCompleteActivation {M}.
Arguments CallRunReady {M}.
Arguments CallExpire {M}.
Arguments CallPhaseA {M}.
Arguments CallPhaseB {M}.

(** Counts are unsigned. *)
Definition call_ok {M} (c : WorkerCall M) : Prop :=
  match c with CallRunReady n _ | CallExpire _ n _ => 0 <= n | _ => True end.

Lemma NoDup_filter_fmap {A B} (f : A → B) (p : A → bool) l : NoDup (f <$> l) → NoDup (f <$> List.filter p l).
Proof.
  induction l as [|x l IH]; [done|]. cbn. intros [Hx Hl]%NoDup_cons. destruct (p x); [|by apply IH]. cbn. apply NoDup_cons. split; [|by apply IH].
  intros (y & Hy & Hin)%list_elem_of_fmap. apply Hx. apply list_elem_of_fmap. exists y. split; [done|].
  apply list_elem_of_In, filter_In in Hin as [Hin _]. by apply list_elem_of_In.
Qed.

Section spec.
Context {M I T Env : Type} `{Setup : !WorkerSetup M}.
Context `{Heap : !HeapAlgorithms (entry_deadline (M := M))} `{Behaviour : !ActorBehaviour M I T}.
Context `{Outside : !WorkerOutside M I Env}.

Abbreviation Slot := (ActorSlot M I T).
Abbreviation Worker := (Worker M I T Env).
Abbreviation W := (W M I T Env).
Abbreviation calm := (sched_ok (I := I) (T := T) (Env := Env) None None 0 []).
Implicit Types (w : Worker) (s : Slot).

Definition worker_call (c : WorkerCall M) : W () :=
  match c with
  | CallDeliver k m => tryDeliverLocal k m;; mret ()
  | CallTell k m => tell k m;; mret ()
  | CallSend c f critical => send c f critical;; mret ()
  | CallClose c reason graceful => closeConnection c reason graceful;; mret ()
  | CallNotify k c m => notifyActorConnectionClosed k c m;; mret ()
  | CallEvent e => onEvent e
  | CallCompleteDb key result => completeDb key result
  | CallCompleteCommand key outcome => completeSyntheticCommand key outcome;; mret ()
  | CallCompleteActivation key outcome => completeSyntheticActivation key outcome
  | CallRunReady n d => runReadyActors n d
  | CallExpire t n late => expireTimers t n late;; mret ()
  | CallPhaseA => beginShutdownPhaseA
  | CallPhaseB => beginShutdownPhaseB
  end.

Fixpoint worker_run (calls : list (WorkerCall M)) : W () :=
  match calls with [] => mret () | c :: rest => worker_call c;; worker_run rest end.

(** The states a worker can reach before the end of phase B. *)
Definition reachable w : Prop :=
  ∃ o metrics w0 calls, configureActors o metrics = Ret w0 ∧ Forall call_ok calls ∧ worker_run calls w0 = Done () w.

Lemma mail_queued s :
  shape s → as_state s ≠ ActorRunning → mb_messages (as_mailbox s) ≠ [] → as_blocked s = None → as_state s ≠ ActorStopping → as_state s = ActorQueued.
Proof.
  unfold shape. intros Hs Hr Hm Hb Hst. rewrite Hb in Hs. destruct (as_state s); try done.
  - by destruct Hs as (_ & _ & ?).
  - by destruct Hs as (_ & b & ? & _).
  - by destruct Hs as (_ & b & ? & _).
Qed.

Lemma answered_queued s b :
  shape s → as_blocked s = Some b → answered b = true → as_state s = ActorQueued.
Proof.
  unfold shape. intros Hs Hb Ha. rewrite Hb in Hs. destruct (as_state s); try done; try by destruct Hs as (? & _).
  - destruct Hs as (_ & b' & [= <-] & Hs & _). congruence.
  - destruct Hs as (_ & b' & [= <-] & Hs). by destruct b.
Qed.

Section laws.
Context (Hsu : setup_ok) (Hlin : turns_linear).

Lemma configure_calm o metrics w : configureActors o metrics = Ret w → calm w.
Proof.
  unfold configureActors, throw_if. rewrite (su_valid Hsu). cbn [negb]. pose proof (limits Hsu) as Hl.
  destruct (makeActorTable_ok (E := Slot) (actor_table_capacity cfg)) as (t & -> & Ht & Hc & Ha & _); [pose proof (su_capacity Hsu); lia|].
  destruct (makeHandleRing_repr (mkActorHandle 0 0) (actor_table_capacity cfg)) as (q & -> & Hq); [lia|]. cbn. intros [= <-].
  constructor; cbn; try done.
  - exists []. split; [done|]. rewrite Ha. by constructor.
  - constructor; lia.
  - apply makeTimerQueue_ok. pose proof (su_timers Hsu). lia.
Qed.

Lemma worker_call_ok c : call_ok c → hoare calm (worker_call c) (fun _ => calm).
Proof.
  intros Hc. assert (Hret : ∀ {B} (m : W B), hoare calm m (fun _ => calm) → hoare calm (m;; mret ()) (fun _ => calm)).
  { intros B m Hm. apply bind_ok; [done|]. intros ?. apply ret_ok. }
  destruct c; cbn [worker_call call_ok] in *.
  - apply Hret, (tryDeliverLocal_ok Hsu).
  - apply Hret, (tell_ok Hsu).
  - apply Hret, (send_ok Hsu).
  - apply Hret, (closeConnection_ok Hsu).
  - apply Hret, (notify_ok Hsu).
  - apply (onEvent_ok Hsu).
  - apply (completeDb_ok Hsu).
  - apply Hret, completeSyntheticCommand_ok.
  - apply (completeSyntheticActivation_ok Hsu).
  - by apply (runReadyActors_ok Hsu Hlin).
  - apply Hret. intros w Hw. by destruct (expireTimers_ok Hsu late t max_count w Hc Hw) as (b & w' & -> & Hw').
  - apply beginShutdownPhaseA_ok.
  - apply (beginShutdownPhaseB_ok Hsu).
Qed.

Lemma worker_run_ok calls : Forall call_ok calls → hoare calm (worker_run calls) (fun _ => calm).
Proof.
  induction 1 as [|c rest Hc _ IH]; cbn [worker_run]; [apply ret_ok|]. apply bind_ok; [by apply worker_call_ok|]. intros ?. exact IH.
Qed.

Lemma handles_nodup p (t : ActorTable Slot) : table_ok t → NoDup (handles_where p (actives (at_table t))).
Proof.
  intros Hok. unfold handles_where. apply NoDup_filter_fmap.
  assert (Hall : ∀ x, x ∈ actives (at_table t) → ∃ i y, at_slots t !! i = Some y ∧ slot_entry y = Some x).
  { intros x (i & y & Hi & _ & He)%actives_elem. by exists i, y. }
  pose proof (actives_indices t Hok) as Hnd. induction (actives (at_table t)) as [|x l IH]; [constructor|].
  cbn in Hnd. apply NoDup_cons in Hnd as [Hx Hnd]. cbn. apply NoDup_cons. split.
  - intros (y & Hy & Hin)%list_elem_of_fmap. apply Hx. apply list_elem_of_fmap. exists y. split; [|done].
    destruct (Hall x) as (i & sx & Hi & Hex); [by left|]. destruct (Hall y) as (j & sy & Hj & Hey); [by right|].
    pose proof (tk_index _ Hok _ _ _ Hi Hex) as E1. pose proof (tk_index _ Hok _ _ _ Hj Hey) as E2. cbn in E1, E2 |- *. rewrite E1, E2.
    eapply (so_distinct _ _ (tk_slots _ Hok)); [exact Hi|exact Hj|done|done|]. by injection Hy.
  - apply IH; [|done]. intros z Hz. apply Hall. by right.
Qed.

Lemma reachable_calm w : reachable w → calm w.
Proof.
  intros (o & metrics & w0 & calls & H0 & Hc & Hr). pose proof (worker_run_ok calls Hc w0 (configure_calm _ _ _ H0)) as H. by rewrite Hr in H.
Qed.

(** C6: From its configuration until the end of phase B of its shutdown (the
    removal of the actors, [endShutdownPhaseB], and phases C and D after it are
    not among the calls; [retired_handles_fill_queue] shows what can go wrong
    there), whatever calls a worker receives, in whatever order, and whatever its
    actors, the factory, the database and the network do: either every call
    returns and the worker's books are right, or it stopped with an [excused]
    fault.  Those are: an exception of an actor or of the factory; a factory that
    answers Ready without an actor; a database client that answers a load at
    once or with the result of a save; a batch of effects that is too large,
    stops the actor and sets a timer, or misuses a timer reservation; and a
    used-up counter of incarnations or turns.  The books: the ready queue holds
    exactly the queued actors, each once; state, instance and pending command of
    every actor agree; the totals are the sums over the mailboxes and within
    their limits; no timer reservation is left. *)
Theorem worker_books_right o metrics w0 calls :
  configureActors o metrics = Ret w0 → Forall call_ok calls →
  match worker_run calls w0 with Done _ w => calm w | Failed f => excused f = true end.
Proof using Hsu Hlin. intros H0 Hc. apply (worker_run_ok calls Hc). by eapply configure_calm. Qed.

(** C7: No wake-up is lost.  In every state a worker reaches, an actor with
    mail that is neither blocked nor stopping is in the ready queue, so is one
    whose answer has arrived, and one that still waits has its timeout in the
    timer queue. *)
Theorem no_wakeup_lost w i s :
  reachable w → at_slots (wk_actors w) !! i = Some (mkSlot (Some s) false true) →
  ∃ R, handles_repr (actor_table_capacity cfg) (wk_ready w) R ∧ NoDup R ∧
    (mb_messages (as_mailbox s) ≠ [] → as_blocked s = None → as_state s ≠ ActorStopping → entry_handle s ∈ R) ∧
    (∀ b, as_blocked s = Some b → answered b = true → entry_handle s ∈ R) ∧
    (∀ d k, awaiting s = Some (d, k) → isValid (await_operation k) = true → mkTimerEntry d (AwaitTimeout k) ∈ tq_heap (wk_timers w)).
Proof using Hsu Hlin.
  intros Hr Hi. pose proof (reachable_calm w Hr) as Hok. pose proof (committed_good _ _ _ _ _ _ _ Hok Hi) as [Gm Gs Gt Gr].
  destruct (k_ready _ _ _ _ _ Hok) as (R & HR & HG). exists R. split; [done|].
  assert (Hq : as_state s = ActorQueued → entry_handle s ∈ R).
  { intros Hst. rewrite (g_ready _ _ _ _ _ _ _ _ HG). apply list_elem_of_fmap. exists s. split; [done|]. apply list_elem_of_In, filter_In.
    split; [|unfold queued; by rewrite Hst]. apply list_elem_of_In, actives_elem. by eexists i, _. }
  split_and!.
  - rewrite (g_ready _ _ _ _ _ _ _ _ HG). by apply handles_nodup, (k_table _ _ _ _ _ Hok).
  - intros Hm Hb Hst. apply Hq. by apply mail_queued.
  - intros b Hb Ha. apply Hq. by apply (answered_queued s b).
  - intros d k Ha Hv. destruct (Gt d k Ha) as (_ & _ & Hin). by apply Hin.
Qed.

(** C8: No wait outlasts its deadline.  When the worker has expired its timers
    at time [t] and reports that nothing due is left, every actor that still
    waits for an answer waits for a deadline after [t]. *)
Theorem no_overdue_wait w t max_count late w' i s d k :
  reachable w → 0 <= max_count → expireTimers t max_count late w = Done false w' →
  at_slots (wk_actors w') !! i = Some (mkSlot (Some s) false true) → awaiting s = Some (d, k) → isValid (await_operation k) = true →
  t < d.
Proof using Hsu Hlin.
  intros Hr Hm He Hi Ha Hv. pose proof (reachable_calm w Hr) as Hok.
  destruct (expireTimers_ok Hsu late t max_count w Hm Hok) as (b & w2 & E & Hok2). rewrite He in E. injection E as <- <-.
  assert (Hdue : front_due t (wk_timers w') = false).
  { unfold expireTimers, expire in He. destruct (expire_loop _ _ _ _ _ _ _ _) as [[res [q w1]]|]; [|done]. cbn in He.
    injection He as Hb <-. by apply orb_false_iff in Hb as [_ ?]. }
  pose proof (committed_good _ _ _ _ _ _ _ Hok2 Hi) as [_ _ Gt _]. destruct (Gt d k Ha) as (_ & _ & Hin). specialize (Hin Hv).
  destruct (Z.lt_ge_cases t d) as [|Hle]; [done|]. rewrite (proj2 (front_due_iff chargedBytes _ _ t _ (k_timers _ _ _ _ _ Hok2))) in Hdue; [done|].
  apply Exists_exists. by exists (mkTimerEntry d (AwaitTimeout k)).
Qed.

(** More fuel changes nothing once the loop has ended. *)
Lemma ready_loop_more fuel max_count max_duration started_at turns w :
  ready_loop fuel max_count max_duration started_at turns w ≠ Failed OutOfFuel →
  ready_loop (S fuel) max_count max_duration started_at turns w = ready_loop fuel max_count max_duration started_at turns w.
Proof using.
  revert turns w. induction fuel as [|fuel IH]; intros turns w Hne; [done|].
  cbn [ready_loop] in Hne |- *. unfold gets in *. unfold mbind, W_bind in *. destruct (hr_empty (wk_ready w)); [done|].
  destruct ((if max_count <=? turns then mret true else budget_expired started_at max_duration) w) as [[|] w1|f]; [done| |done].
  destruct (pop_ready w1) as [h w2|f]; [|done].
  destruct (run_ready h max_count max_duration started_at turns w2) as [[n [|]] w3|f]; [done| |done]. by apply IH.
Qed.

(** C9: A run of the ready actors ends, although the actors it runs put
    themselves and others back into the queue: from every state a worker
    reaches, the loop needs at most [ready_fuel] rounds, and a larger bound
    changes nothing. *)
Theorem ready_run_terminates w max_count max_duration started_at fuel :
  reachable w → 0 <= max_count → (ready_fuel max_count <= fuel)%nat →
  ready_loop fuel max_count max_duration started_at 0 w = ready_loop (ready_fuel max_count) max_count max_duration started_at 0 w
  ∧ ready_loop fuel max_count max_duration started_at 0 w ≠ Failed OutOfFuel.
Proof using Hsu Hlin.
  intros Hr Hm Hf. pose proof (reachable_calm w Hr) as Hok.
  assert (H0 : ready_loop (ready_fuel max_count) max_count max_duration started_at 0 w ≠ Failed OutOfFuel).
  { assert (Hpre : calm w ∧ measure max_count 0 w < Z.of_nat (ready_fuel max_count)).
    { split; [done|]. pose proof (ready_size w Hok). pose proof (limits Hsu). unfold measure, ready_fuel. nia. }
    pose proof (ready_loop_ok Hsu Hlin (ready_fuel max_count) max_count max_duration started_at 0 Hm w Hpre) as H.
    by intros E; rewrite E in H. }
  assert (Heq : ready_loop fuel max_count max_duration started_at 0 w = ready_loop (ready_fuel max_count) max_count max_duration started_at 0 w).
  { induction Hf as [|n Hn IH]; [done|]. rewrite ready_loop_more; [done|]. by rewrite IH. }
  split; [done|]. by rewrite Heq.
Qed.

(** The first answer wins.  A database answer or a timeout that an actor
    accepts is the only one it takes for that wait: the same key is refused
    afterwards, and a refusal changes nothing. *)
Theorem first_answer_wins w key result ok w1 :
  reachable w → tryMarkDbCommandReady key result w = Done ok w1 →
  if ok then ∀ other, tryMarkDbCommandReady key other w1 = Done false w1 else w1 = w.
Proof using Hsu Hlin.
  intros Hr E. pose proof (reachable_calm w Hr) as Hok. pose proof (tryMarkDb_ok key result w Hok) as Hok1. rewrite E in Hok1.
  unfold tryMarkDbCommandReady in E. rewrite (bind_Done (gets _) _ w (find_key (await_actor key) (wk_actors w)) w eq_refl) in E.
  destruct (find_key (await_actor key) (wk_actors w)) as [i|] eqn:Hf; [|by injection E as <- <-].
  destruct (find_key_committed _ _ _ _ _ _ _ Hok Hf) as (s & Hi & Hk). pose proof (committed_points _ _ _ Hi) as Hp.
  rewrite (bind_Done _ _ _ _ _ (slot_eq _ _ _ Hp)) in E.
  case_bool_decide as Hst; cbn [negb] in E; [|by injection E as <- <-].
  destruct (as_blocked s) as [[?|k d task c|?]|] eqn:Hb; try by injection E as <- <-.
  destruct (negb (acceptsCompletion key k) || has_value c); [by injection E as <- <-|].
  set (s' := set_blocked (Some (SuspendedDbCommand k d task (Some result))) s) in *.
  rewrite (bind_Done _ _ _ _ _ (update_eq _ _ _ _ Hp)) in E. fold s' in E. destruct (k_ready _ _ _ _ _ Hok) as (R & HR & _).
  pose proof (ready_room' _ _ _ _ _ _ _ Hok Hi (not_queued _ _ Hst ltac:(done)) R HR) as Hroom.
  rewrite (bind_Done _ _ _ () _ (enqueue_actor_eq i s' _ R (points_assign i s s' w Hp) HR Hroom)) in E. injection E as <- <-.
  intros other. unfold tryMarkDbCommandReady. set (w1 := with_ready _ _) in *.
  assert (Hi1 : committed_at i (set_state ActorQueued s') w1).
  { pose proof (committed_assign i s (set_state ActorQueued s') w Hi) as H. unfold committed_at, w1 in *. cbn [with_ready with_actors wk_actors] in *.
    by rewrite assign_assign. }
  pose proof (committed_key w1 i _ Hok1 Hi1) as Hf1. change (as_key (set_state ActorQueued s')) with (as_key s) in Hf1. rewrite Hk in Hf1.
  rewrite (bind_Done (gets _) _ w1 (Some i) w1) by (unfold gets; by rewrite Hf1).
  by rewrite (bind_Done _ _ _ _ _ (slot_eq _ _ _ (committed_points _ _ _ Hi1))).
Qed.
End laws.
End spec.

(** ** A small worker

    Messages are codes: one suspends the actor on the database, two stops it,
    three schedules a timer through a reservation, five suspends it and stops it
    once it resumes; anything else is just counted.  Keys above one hundred must
    be loaded first. *)

Definition sample_config : WorkerActorConfig := mkActorConfig 2 4 1000 6 2000 2 7 100 50 1 256.

#[local] Instance sample_setup : WorkerSetup Z := {
  chargedBytes m := 16;
  self := 0;
  worker_count := 1;
  cfg := sample_config;
  has_sink := false;
  sizeof_close := 24;
  sizeof_closed := 40;
  sizeof_receipt := 40
}.

#[local] Instance sample_heap : HeapAlgorithms (entry_deadline (M := Z)) := sorting_heap entry_deadline.

#[local] Instance sample_behaviour : ActorBehaviour Z Z Z := {
  dispatch a m c :=
    if m =? 1 then TurnSuspend (a + 1) 1
    else if m =? 2 then TurnComplete (a + 1) [StopActorEffect]
    else if m =? 3 then
      TurnReserve 16 (turn_id c)
        (fun r => TurnComplete (a + 1) match r with Some r => [ScheduleTimerEffect (turn_now c + 30) 4 (Some r)] | None => [] end)
    else if m =? 5 then TurnSuspend (a + 1) 5
    else if m =? 6 then TurnSuspend (a + 1) 6
    else TurnComplete (a + 1) [];
  lifecycleTurn a c stopping := TurnComplete a [];
  resumeDb t a result := TurnComplete (a + 100) (if t =? 5 then [StopActorEffect] else []);
  resumeSynthetic t a outcome := TurnComplete (a + 1000) [StopActorEffect];
  task_request t := if t =? 6 then None else Some (LoadPlayerRequest t);
  lifecycleDeadline a := None;
  needsShutdownTurn a := false;
  shutdownPending a := false;
  finalizationFailed a := false
}.

(** The outside is a clock that stands still. *)
#[local] Program Instance sample_outside : WorkerOutside Z Z Z := {
  steady_now t := (t, t);
  network_enabled t := false;
  send_local c f b st := (SendRejected, [], st);
  close_local c r b st := (false, [], st);
  close_expired h st := ([], st);
  port_bound w t := false;
  port_push w e n t := (PushClosed, t);
  note_published w t := t;
  sink_receipt k c r t := t;
  db_attached t := true;
  db_start k r d t := (SubmitPending, t);
  construct k t := (if 100 <? key_entity k then FactoryNeedsLoad else FactoryReady (Some 0), t);
  constructLoaded k r t := (FactoryReady (Some 7), t);
  stop_network t := t
}.
Solve Obligations with (intros; apply no_deadline).

Definition sample_key (n : Z) : ActorKey := mkActorKey KindPlayer n.
Definition sample_await (n op : Z) : AwaitKey := mkAwaitKey (sample_key n) 1 op.
Definition sample_loaded : DbResult := LoadResult (mkLoadResult false (mkLoadedRow 0 0 false 0 0 0 0 0 0 0) []).

Definition sample_start : option (Worker Z Z Z Z) := match configureActors (I := Z) (T := Z) 10 [] with Ret w => Some w | _ => None end.
Definition sample_run (calls : list (WorkerCall Z)) : option (Worker Z Z Z Z) :=
  w ← sample_start; match worker_run calls w with Done _ w' => Some w' | Failed _ => None end.

Lemma sample_setup_ok : setup_ok (M := Z).
Proof. constructor; vm_compute; try done; intros; discriminate. Qed.

Lemma sample_linear : turns_linear (M := Z) (I := Z) (T := Z).
Proof.
  constructor; cbn; intros; try done.
  - repeat case_match; simplify_eq/=; done.
  - by case_match.
Qed.

Definition state_of (n : Z) (w : Worker Z Z Z Z) : option (ActorState * option Z) :=
  i ← find_key (sample_key n) (wk_actors w); s ← deref i (wk_actors w); Some (as_state s, as_instance s).

Lemma sample_reachable calls w : Forall call_ok calls → sample_run calls = Some w → reachable w.
Proof.
  intros Hc Hr. unfold sample_run, sample_start in Hr. apply bind_Some in Hr as (w0 & H0 & Hr).
  destruct (configureActors 10 []) as [w1|] eqn:E; try done. injection H0 as ->.
  destruct (worker_run calls w0) as [[] w2|] eqn:E2; [|done]. injection Hr as ->. by exists 10, [], w0, calls.
Qed.

(** A worker that does a bit of everything: the first actor waits for the
    database and has mail, the second was loaded and has a timer. *)
Definition sample_calls : list (WorkerCall Z) :=
  [CallDeliver (sample_key 1) 1; CallRunReady 10 1000; CallDeliver (sample_key 1) 0;
   CallTell (sample_key 101) 3; CallCompleteDb (mkAwaitKey (sample_key 101) 3 2) sample_loaded; CallRunReady 10 1000].

Lemma sample_calls_ok : Forall (call_ok (M := Z)) sample_calls.
Proof. repeat constructor; cbn; lia. Qed.

Lemma worker_books_right_witness :
  ∃ w0, configureActors (I := Z) (T := Z) 10 [] = Ret w0
    ∧ (∃ w, worker_run sample_calls w0 = Done () w ∧ state_of 1 w = Some (ActorSuspended, Some 1) ∧ state_of 101 w = Some (ActorIdle, Some 8)
            ∧ wk_messages w = 1 ∧ length (tq_heap (wk_timers w)) = 3%nat)
    ∧ match worker_run sample_calls w0 with Done _ w => sched_ok None None 0 [] w | Failed f => excused f = true end.
Proof.
  eexists. split; [vm_compute; reflexivity|]. split; [eexists; split_and!; vm_compute; reflexivity|].
  apply (worker_books_right sample_setup_ok sample_linear 10 []); [vm_compute; reflexivity|apply sample_calls_ok].
Defined.

Lemma no_wakeup_lost_witness :
  ∃ w s, sample_run sample_calls = Some w ∧ at_slots (wk_actors w) !! 0%nat = Some (mkSlot (Some s) false true)
    ∧ awaiting s = Some (50000010, sample_await 1 1)
    ∧ ∃ R, handles_repr (actor_table_capacity cfg) (wk_ready w) R ∧ NoDup R ∧
        (mb_messages (as_mailbox s) ≠ [] → as_blocked s = None → as_state s ≠ ActorStopping → entry_handle s ∈ R) ∧
        (∀ b, as_blocked s = Some b → answered b = true → entry_handle s ∈ R) ∧
        (∀ d k, awaiting s = Some (d, k) → isValid (await_operation k) = true → mkTimerEntry d (AwaitTimeout k) ∈ tq_heap (wk_timers w)).
Proof.
  eexists _, _. split; [vm_compute; reflexivity|]. split; [vm_compute; reflexivity|]. split; [vm_compute; reflexivity|].
  eapply (no_wakeup_lost sample_setup_ok sample_linear _ 0%nat);
    [apply (sample_reachable sample_calls); [apply sample_calls_ok|vm_compute; reflexivity]|vm_compute; reflexivity].
Defined.

(** The first actor waits until time 50000010; at 20 its wait is not overdue. *)
Lemma no_overdue_wait_witness :
  ∃ w w' s, sample_run sample_calls = Some w ∧ expireTimers 20 8 (fun _ => false) w = Done false w'
    ∧ at_slots (wk_actors w') !! 0%nat = Some (mkSlot (Some s) false true) ∧ awaiting s = Some (50000010, sample_await 1 1) ∧ 20 < 50000010.
Proof.
  eexists _, _, _. split; [vm_compute; reflexivity|]. split; [vm_compute; reflexivity|]. split; [vm_compute; reflexivity|]. split; [vm_compute; reflexivity|].
  eapply (no_overdue_wait sample_setup_ok sample_linear _ 20 8 (fun _ => false) _ 0%nat _ 50000010 (sample_await 1 1));
    [apply (sample_reachable sample_calls); [apply sample_calls_ok|vm_compute; reflexivity]|lia|vm_compute; reflexivity..].
Defined.

(** A run over two queued actors. *)
Lemma ready_run_terminates_witness :
  ∃ w, sample_run [CallDeliver (sample_key 1) 0; CallDeliver (sample_key 2) 3] = Some w ∧ hr_size (wk_ready w) = 2
    ∧ ready_loop 500 3 1000 10 0 w = ready_loop (ready_fuel 3) 3 1000 10 0 w ∧ ready_loop 500 3 1000 10 0 w ≠ Failed OutOfFuel.
Proof.
  eexists. split; [vm_compute; reflexivity|]. split; [vm_compute; reflexivity|].
  apply (ready_run_terminates sample_setup_ok sample_linear _ 3 1000 10 500);
    [apply (sample_reachable [CallDeliver (sample_key 1) 0; CallDeliver (sample_key 2) 3]); [repeat constructor|vm_compute; reflexivity]|lia|].
  vm_compute. lia.
Defined.

(** The answer arrives, the timeout comes second. *)
Lemma first_answer_wins_witness :
  ∃ w w1, sample_run sample_calls = Some w ∧ tryMarkDbCommandReady (sample_await 1 1) sample_loaded w = Done true w1
    ∧ ∀ other, tryMarkDbCommandReady (sample_await 1 1) other w1 = Done false w1.
Proof.
  eexists _, _. split; [vm_compute; reflexivity|]. split; [vm_compute; reflexivity|].
  eapply (first_answer_wins sample_setup_ok sample_linear _ (sample_await 1 1) sample_loaded true);
    [apply (sample_reachable sample_calls); [apply sample_calls_ok|vm_compute; reflexivity]|vm_compute; reflexivity].
Defined.

(** ** Behaviour that is not intended *)

(** An actor that stops after a database answer is not removed: it stays in the
    table, refuses every message and is not run again.  After a synthetic
    completion, and in an ordinary turn, a stopping actor is removed. *)
Theorem stop_after_db_answer_strands :
  let stop_db := [CallDeliver (sample_key 1) 5; CallRunReady 10 1000; CallCompleteDb (sample_await 1 1) sample_loaded; CallRunReady 10 1000] in
  let stop_synthetic :=
    [CallDeliver (sample_key 1) 6; CallRunReady 10 1000; CallCompleteCommand (sample_await 1 1) AwaitCompleted; CallRunReady 10 1000] in
  let stop_turn := [CallDeliver (sample_key 1) 2; CallRunReady 10 1000] in
  (∃ w, sample_run stop_db = Some w ∧ state_of 1 w = Some (ActorStopping, Some 101)
        ∧ ∃ w', tryDeliverLocal (sample_key 1) 0 w = Done DeliveryStopping w' ∧ hr_size (wk_ready w') = 0)
  ∧ (∃ w, sample_run stop_synthetic = Some w ∧ state_of 1 w = None)
  ∧ ∃ w, sample_run stop_turn = Some w ∧ state_of 1 w = None.
Proof.
  cbv zeta. split_and!.
  - eexists. split; [vm_compute; reflexivity|]. split; [vm_compute; reflexivity|]. eexists. split; vm_compute; reflexivity.
  - eexists. split; vm_compute; reflexivity.
  - eexists. split; vm_compute; reflexivity.
Qed.

(** The end of phase B removes queued actors and leaves their handles in the
    ready queue.  An actor that a message from another worker activates
    afterwards finds the queue full, which stops the worker. *)
Theorem retired_handles_fill_queue :
  ∃ w w', sample_run [CallDeliver (sample_key 1) 0; CallDeliver (sample_key 2) 0; CallPhaseA; CallPhaseB] = Some w
    ∧ endShutdownPhaseB w = Done () w' ∧ activeHandles (wk_actors w') = [] ∧ hr_size (wk_ready w') = actor_table_capacity cfg
    ∧ onEvent (RemoteActorMessage (sample_key 3) 0) w' = Failed ReadyQueueFull.
Proof. eexists _, _. do 4 (split; [vm_compute; reflexivity|]). vm_compute. reflexivity. Qed.
