(* ===== verification/WorkerConnection.v ===== *)
(** * A connection of a worker

    [WriteBuffer] and [ConnectionSlot] of [src/src/worker/connection.cpp]: the
    bytes waiting to be sent, as encoded frames of which the first may be partly
    sent, under a soft and a hard limit; and a connection with its decoder, its
    write buffer and the flags that say which queue it is in. *)

From S2P Require Import Prelude Connection Wire FrameCodec Session Identity TimerQueue SlotTable ActorTable Actor.

(** ** Write buffer

    A [PendingFrame] has the fields of [PendingSend] of [Session.v]. *)

Record WriteBuffer := mkWriteBuffer {
  wb_soft_watermark : Z;
  wb_hard_limit : Z;
  wb_frames : list PendingSend;
  wb_queued_bytes : Z
}.
Implicit Types (b : WriteBuffer) (f : Frame).

Definition makeWriteBuffer (soft_watermark hard_limit : Z) : outcome WriteBuffer :=
  throw_if ((soft_watermark =? 0) || (hard_limit =? 0) || (hard_limit <? soft_watermark)) InvalidArgument
    (Ret (mkWriteBuffer soft_watermark hard_limit [] 0)).

Definition set_frames (frames : list PendingSend) (queued : Z) b : WriteBuffer :=
  mkWriteBuffer (wb_soft_watermark b) (wb_hard_limit b) frames queued.

(** The two exceptions of [encode_frame] are caught. *)
Definition write_append f (critical : bool) b : SendResult * WriteBuffer :=
  match encode_frame f with
  | Throw _ => (SendRejected, b)
  | Ret encoded =>
      if (wb_hard_limit b <? zlen encoded) || (u64 (wb_hard_limit b - zlen encoded) <? wb_queued_bytes b) then (SendHardLimit, b)
      else if negb critical && ((wb_soft_watermark b <? zlen encoded) || (u64 (wb_soft_watermark b - zlen encoded) <? wb_queued_bytes b))
      then (SendSoftLimit, b)
      else (SendAccepted, set_frames (wb_frames b ++ [mkPendingSend encoded 0]) (u64 (wb_queued_bytes b + zlen encoded)) b)
  end.

Definition write_empty b : bool := bool_decide (wb_frames b = []).

Definition frontBytes b : bytes :=
  match wb_frames b with [] => [] | frame :: _ => drop (send_offset frame) (send_bytes frame) end.

Definition write_consume (byte_count : nat) b : outcome (bool * WriteBuffer) :=
  match wb_frames b with
  | [] => Throw OutOfRange
  | frame :: rest =>
      throw_if (length (frontBytes b) <? byte_count)%nat OutOfRange
      (let frame1 := mkPendingSend (send_bytes frame) (send_offset frame + byte_count) in
       let queued := u64 (wb_queued_bytes b - Z.of_nat byte_count) in
       if bool_decide (send_offset frame1 = length (send_bytes frame1))
       then Ret (true, set_frames rest queued b)
       else Ret (false, set_frames (frame1 :: rest) queued b))
  end.

Definition write_clear b : WriteBuffer := set_frames [] 0 b.

(** *** It is a session's queue with a second limit *)

Definition as_session b : Session := mkSession (mkConnectionId 0 0) empty_decoder (wb_frames b) (wb_queued_bytes b) (wb_hard_limit b).
Definition of_session b (s : Session) : WriteBuffer := set_frames (send_queue s) (pending_send_byte_count s) b.
Definition pending b : bytes := outgoing (as_session b).

Record buffer_ok b : Prop := {
  bk_session : session_ok (as_session b);
  bk_soft : 0 < wb_soft_watermark b <= wb_hard_limit b
}.

Definition same_limits b b' : Prop := wb_soft_watermark b' = wb_soft_watermark b ∧ wb_hard_limit b' = wb_hard_limit b.

Lemma makeWriteBuffer_ok soft hard :
  0 < soft <= hard → hard <= SIZE_MAX → ∃ b, makeWriteBuffer soft hard = Ret b ∧ buffer_ok b ∧ pending b = [] ∧
    wb_soft_watermark b = soft ∧ wb_hard_limit b = hard.
Proof.
  intros Hs Hh. unfold makeWriteBuffer, throw_if. destruct (_ || _) eqn:E; to_prop; [lia|]. eexists. split; [done|].
  split; [|done]. constructor; simpl; [|lia]. constructor; simpl; [done|lia|done].
Qed.

Lemma pending_count b : buffer_ok b → wb_queued_bytes b = zlen (pending b) ∧ 0 <= zlen (pending b) <= wb_hard_limit b ∧ wb_hard_limit b <= SIZE_MAX.
Proof.
  intros [[Hc Hb _] _]. simpl in *. unfold pending. rewrite <-Hc. assert (0 <= wb_queued_bytes b) by (rewrite Hc; unfold zlen; lia).
  split; [done|]. lia.
Qed.

(** A frame is taken whole at the end, or the buffer is left as it is: refused
    by the encoder, over the hard limit, or over the watermark and not critical. *)
Lemma write_append_spec f critical b :
  buffer_ok b →
  match write_append f critical b with
  | (SendAccepted, b') => ∃ bs, encode_frame f = Ret bs ∧ buffer_ok b' ∧ same_limits b b' ∧ pending b' = pending b ++ bs ∧ bs ≠ []
  | (SendRejected, b') => b' = b ∧ ∃ e, encode_frame f = Throw e
  | (SendHardLimit, b') => b' = b ∧ ∃ bs, encode_frame f = Ret bs ∧ wb_hard_limit b < zlen (pending b) + zlen bs
  | (SendSoftLimit, b') =>
      b' = b ∧ critical = false ∧ ∃ bs, encode_frame f = Ret bs ∧ wb_soft_watermark b < zlen (pending b) + zlen bs
  | _ => False
  end.
Proof.
  intros Hb. destruct (pending_count _ Hb) as [Hq Hp]. unfold write_append.
  pose proof (encode_frame_total f) as Ht. destruct (encode_frame f) as [bs|e] eqn:Ee; [|eauto]. rewrite Hq.
  assert (Hbs : 0 < zlen bs) by (destruct Ht as (_ & _ & _ & Hl & _); unfold zlen in *; lia).
  destruct (Z.ltb_spec (wb_hard_limit b) (zlen bs)); [split; [done|]; exists bs; split; [done|lia]|]. rewrite orb_false_l.
  rewrite u64_small by lia. destruct (Z.ltb_spec (wb_hard_limit b - zlen bs) (zlen (pending b))); [split; [done|]; exists bs; split; [done|lia]|].
  pose proof (bk_soft _ Hb) as Hs. destruct critical; cbn [negb andb].
  2: destruct (Z.ltb_spec (wb_soft_watermark b) (zlen bs)); [split; [done|]; split; [done|]; exists bs; split; [done|lia]|].
  2: rewrite orb_false_l, u64_small by lia.
  2: destruct (Z.ltb_spec (wb_soft_watermark b - zlen bs) (zlen (pending b))); [split; [done|]; split; [done|]; exists bs; split; [done|lia]|].
  all: rewrite u64_small by lia; exists bs; pose proof (bk_session _ Hb) as [Hc Hl He]; simpl in *;
    assert (Hout : ∀ n, pending (set_frames (wb_frames b ++ [mkPendingSend bs 0]) n b) = pending b ++ bs)
      by (intros n; unfold pending, outgoing; simpl; rewrite bind_app; simpl; by rewrite app_nil_r);
    (split; [done|]); split_and!; try done;
    [|intros ->; unfold zlen in Hbs; simpl in Hbs; lia];
    constructor; [|done]; constructor; simpl;
      [fold (pending (set_frames (wb_frames b ++ [mkPendingSend bs 0]) (zlen (pending b) + zlen bs) b)); rewrite Hout; unfold zlen; rewrite length_app; lia
      |lia|apply Forall_app; split; [done|]; constructor; [|done]; simpl; unfold zlen in Hbs; lia].
Qed.

Lemma write_consume_session n b :
  write_consume n b = match consumeSentBytes (as_session b) n with
                      | Ret (done, s) => Ret (done, of_session b s)
                      | Throw e => Throw e
                      end.
Proof.
  unfold write_consume, consumeSentBytes, frontBytes, getPendingSendBytes, throw_if. simpl. destruct (wb_frames b) as [|p rest]; [done|].
  destruct (_ <? n)%nat; [done|]. by case_bool_decide.
Qed.

Lemma write_empty_pending b : buffer_ok b → write_empty b = bool_decide (pending b = []).
Proof.
  intros [[_ _ He] _]. unfold write_empty, pending, outgoing. simpl in *. destruct (wb_frames b) as [|p rest]; [done|].
  rewrite !bool_decide_eq_false_2; [done| |done]. apply Forall_cons in He as [Hp _]. simpl. intros [Hu _]%app_eq_nil.
  apply (f_equal length) in Hu. unfold unsent in Hu. rewrite length_drop in Hu. simpl in Hu. lia.
Qed.

Lemma frontBytes_pending b : ∃ rest, pending b = frontBytes b ++ rest.
Proof. unfold pending, outgoing, frontBytes. simpl. destruct (wb_frames b) as [|p rest]; by eexists. Qed.

Lemma frontBytes_nonempty b : buffer_ok b → pending b ≠ [] → frontBytes b ≠ [].
Proof.
  intros Hb Hp. pose proof (write_empty_pending _ Hb) as He. rewrite bool_decide_eq_false_2 in He by done.
  unfold write_empty in He. apply bool_decide_eq_false in He. destruct Hb as [[_ _ Hf] _]. simpl in Hf. unfold frontBytes.
  destruct (wb_frames b) as [|p rest]; [done|]. apply Forall_cons in Hf as [Hlt _]. intros Hd. apply (f_equal length) in Hd.
  rewrite length_drop in Hd. simpl in Hd. lia.
Qed.

(** Bytes the kernel took leave from the front, in order. *)
Lemma write_consume_spec n b :
  buffer_ok b → (0 < n <= length (frontBytes b))%nat →
  ∃ finished b', write_consume n b = Ret (finished, b') ∧ buffer_ok b' ∧ same_limits b b' ∧ pending b = take n (frontBytes b) ++ pending b'.
Proof.
  intros Hb Hn. rewrite write_consume_session. pose proof (consumeSentBytes_spec (as_session b) n (bk_session _ Hb)) as Hs.
  change (getPendingSendBytes (as_session b)) with (frontBytes b) in *.
  destruct (consumeSentBytes (as_session b) n) as [[finished s]|e].
  - destruct Hs as (_ & Hok & Hm & _ & Ho & _). exists finished, (of_session b s). split; [done|].
    assert (Hmk : ∀ d c, session_ok s → session_ok (mkSession c d (send_queue s) (pending_send_byte_count s) (wb_hard_limit b))).
    { intros d c [H1 H2 H3]. constructor; simpl; [done| |done]. rewrite Hm in H2. done. }
    split; [|done]. constructor; [by apply Hmk|apply Hb].
  - destruct Hs as [_ [He|Hlt]]; [|lia]. unfold frontBytes in Hn. simpl in He. rewrite He in Hn. simpl in Hn. lia.
Qed.

(** ** Connection slot *)

Inductive ConnectionState := ConnectionOpen | ConnectionClosing.

#[export] Instance ConnectionState_eq_dec : EqDecision ConnectionState.
Proof. solve_decision. Defined.

#[export] Instance ConnectionHandle_eq_dec : EqDecision ConnectionHandle.
Proof. solve_decision. Defined.

Definition handle_valid (h : ConnectionHandle) : bool := isValid (handle_generation h).

Record ConnectionLimits := mkConnectionLimits {
  max_read_buffer_bytes : Z;
  write_soft_watermark_bytes : Z;
  write_hard_limit_bytes : Z;
  close_drain_deadline : milliseconds
}.

Record ConnectionSlot := mkConnectionSlot {
  cs_socket : Z;
  cs_reference : ConnectionRef;
  cs_state : ConnectionState;
  cs_close_deadline : time_point;
  cs_close_reason : CloseReason;
  cs_read_queued : bool;
  cs_write_queued : bool;
  cs_waiting_epollout : bool;
  cs_decoder : FrameDecoder;
  cs_write_buffer : WriteBuffer;
  cs_max_read_buffer_bytes : Z
}.
Implicit Types c : ConnectionSlot.

(** A descriptor is valid when it is not negative; the constructor of the write
    buffer runs first.  A fresh deadline is the epoch and a fresh reason the
    first enumerator. *)
Definition makeConnectionSlot (socket : Z) (reference : ConnectionRef) (limits : ConnectionLimits) : outcome ConnectionSlot :=
  let! b := makeWriteBuffer (write_soft_watermark_bytes limits) (write_hard_limit_bytes limits) in
  throw_if ((socket <? 0) || negb (isValid (cref_generation reference)) || (max_read_buffer_bytes limits =? 0)
            || (close_drain_deadline limits <? 0)) InvalidArgument
    (Ret (mkConnectionSlot socket reference ConnectionOpen 0 CloseShutdown false false false empty_decoder b (max_read_buffer_bytes limits))).

Definition cs_handle c : ConnectionHandle := mkConnectionHandle (cref_id (cs_reference c)) (cref_generation (cs_reference c)).
Definition isOpen c : bool := bool_decide (cs_state c = ConnectionOpen).
Definition isClosing c : bool := bool_decide (cs_state c = ConnectionClosing).

Definition beginClosing (deadline : time_point) (reason : CloseReason) c : ConnectionSlot :=
  mkConnectionSlot (cs_socket c) (cs_reference c) ConnectionClosing deadline reason (cs_read_queued c) (cs_write_queued c)
    (cs_waiting_epollout c) (reset (cs_decoder c)) (cs_write_buffer c) (cs_max_read_buffer_bytes c).
Definition setReadQueued (value : bool) c : ConnectionSlot :=
  mkConnectionSlot (cs_socket c) (cs_reference c) (cs_state c) (cs_close_deadline c) (cs_close_reason c) value (cs_write_queued c)
    (cs_waiting_epollout c) (cs_decoder c) (cs_write_buffer c) (cs_max_read_buffer_bytes c).
Definition setWriteQueued (value : bool) c : ConnectionSlot :=
  mkConnectionSlot (cs_socket c) (cs_reference c) (cs_state c) (cs_close_deadline c) (cs_close_reason c) (cs_read_queued c) value
    (cs_waiting_epollout c) (cs_decoder c) (cs_write_buffer c) (cs_max_read_buffer_bytes c).
Definition setWaitingEpollout (value : bool) c : ConnectionSlot :=
  mkConnectionSlot (cs_socket c) (cs_reference c) (cs_state c) (cs_close_deadline c) (cs_close_reason c) (cs_read_queued c)
    (cs_write_queued c) value (cs_decoder c) (cs_write_buffer c) (cs_max_read_buffer_bytes c).
Definition set_decoder (d : FrameDecoder) c : ConnectionSlot :=
  mkConnectionSlot (cs_socket c) (cs_reference c) (cs_state c) (cs_close_deadline c) (cs_close_reason c) (cs_read_queued c)
    (cs_write_queued c) (cs_waiting_epollout c) d (cs_write_buffer c) (cs_max_read_buffer_bytes c).
Definition set_write_buffer b c : ConnectionSlot :=
  mkConnectionSlot (cs_socket c) (cs_reference c) (cs_state c) (cs_close_deadline c) (cs_close_reason c) (cs_read_queued c)
    (cs_write_queued c) (cs_waiting_epollout c) (cs_decoder c) b (cs_max_read_buffer_bytes c).

Definition bufferedBytes c : Z := Z.of_nat (bufferedByteCount (cs_decoder c)).
Definition resetReadBuffer c : ConnectionSlot := set_decoder (reset (cs_decoder c)) c.

Definition appendFrame f (critical : bool) c : SendResult * ConnectionSlot :=
  if isClosing c then (SendClosing, c)
  else let '(result, b) := write_append f critical (cs_write_buffer c) in (result, set_write_buffer b c).

Definition hasPendingWrite c : bool := negb (write_empty (cs_write_buffer c)).
Definition pendingWriteBytes c : bytes := frontBytes (cs_write_buffer c).
Definition consumeWrittenBytes (byte_count : nat) c : outcome (bool * ConnectionSlot) :=
  let! r := write_consume byte_count (cs_write_buffer c) in Ret (r.1, set_write_buffer r.2 c).

(** What waits to be sent. *)
Definition unsent_bytes c : bytes := pending (cs_write_buffer c).

(** A slot is well formed whatever the network does with it. *)
Record connection_ok (limits : ConnectionLimits) c : Prop := {
  co_buffer : buffer_ok (cs_write_buffer c);
  co_hard : wb_hard_limit (cs_write_buffer c) = write_hard_limit_bytes limits;
  co_decoder : decoder_ok (cs_decoder c);
  co_read_max : cs_max_read_buffer_bytes c = max_read_buffer_bytes limits;
  co_read : bufferedBytes c <= max_read_buffer_bytes limits
}.

Lemma reset_decoder_ok d : decoder_ok (reset d) ∧ unread (reset d) = [].
Proof. split; [constructor; simpl; [lia|constructor]|done]. Qed.

Lemma push_decoder_ok d bs : decoder_ok d → bytes_ok bs → decoder_ok (push d bs) ∧ unread (push d bs) = unread d ++ bs.
Proof.
  intros Hd Hbs. unfold push. rewrite compact_spec by done. simpl. split; [|done].
  constructor; simpl; [lia|]. apply bytes_ok_app. split; [|done]. apply bytes_ok_drop, Hd.
Qed.

Lemma buffered_unread c : decoder_ok (cs_decoder c) → bufferedBytes c = zlen (unread (cs_decoder c)).
Proof. intros Hd. unfold bufferedBytes, zlen. by rewrite unread_length. Qed.

Lemma hasPendingWrite_spec limits c : connection_ok limits c → hasPendingWrite c = bool_decide (unsent_bytes c ≠ []).
Proof.
  intros Hc. unfold hasPendingWrite, unsent_bytes. rewrite (write_empty_pending _ (co_buffer _ _ Hc)). by repeat case_bool_decide.
Qed.
