(* ===== verification/ConnectionTables.v ===== *)
(** * Connections and poll registrations

    [ConnectionTable] ([src/src/worker/connection_table.cpp]),
    [PollRegistrationTable] ([poll_registration.cpp]) and [Poller]
    ([poller.cpp]): the connections a worker owns, the records that tie a poll
    token to a connection, and the interest the kernel was told.  Both tables
    are slot tables of [SlotTable.v] that take the first free slot. *)

From S2P Require Import Prelude Connection Wire FrameCodec Session Identity TimerQueue SlotTable ActorTable Actor WorkerConnection.

(** ** Connection table *)

Abbreviation ConnectionTable := (SlotTable ConnectionSlot).

Record ConnectionTableConfig := mkConnectionTableConfig { table_capacity : Z; table_limits : ConnectionLimits }.

Definition validatedConnectionCapacity (config : ConnectionTableConfig) : outcome Z :=
  let limits := table_limits config in
  throw_if ((table_capacity config =? 0) || (MAX_POLL_INDEX + 1 <? table_capacity config)
            || (max_read_buffer_bytes limits =? 0) || (write_soft_watermark_bytes limits =? 0) || (write_hard_limit_bytes limits =? 0)
            || (write_hard_limit_bytes limits <? write_soft_watermark_bytes limits) || (close_drain_deadline limits <? 0)) InvalidArgument
    (Ret (table_capacity config)).

Definition makeConnectionTable (config : ConnectionTableConfig) : outcome ConnectionTable :=
  let! capacity := validatedConnectionCapacity config in Ret (makeSlotTable capacity).

Definition cs_generation (c : ConnectionSlot) : Z := cref_generation (cs_reference c).

(** [tryReserve]: the slot taken, if any; the table owns the socket from here
    on. *)
Definition conn_tryReserve (limits : ConnectionLimits) (socket : Z) (owner : WorkerId) (t : ConnectionTable)
  : outcome (option nat * ConnectionTable) :=
  throw_if (socket <? 0) InvalidArgument
  (if negb (hasCapacity t) then Ret (None, t)
   else match first_free t with
        | None => Ret (None, t)
        | Some index =>
            match nextGeneration U64_MAX t with
            | None => Throw OverflowError
            | Some (generation, t1) =>
                let! c := makeConnectionSlot socket (mkConnectionRef (u32 (Z.of_nat index)) generation owner) limits in
                Ret (Some index, occupy index c t1)
            end
        end).

(** The committed slot a handle names: the pointer [find] returns is its
    position. *)
Definition conn_find (h : ConnectionHandle) (t : ConnectionTable) : option nat :=
  if negb (handle_valid h) || (st_capacity t <=? handle_id h) then None
  else c ← active_at (Z.to_nat (handle_id h)) t;
       if decide (cs_handle c = h) then Some (Z.to_nat (handle_id h)) else None.

Definition conn_release (h : ConnectionHandle) (t : ConnectionTable) : bool * ConnectionTable :=
  match conn_find h t with
  | None => (false, t)
  | Some i => (true, set_counts (st_reserved_count t) (st_active_count t - 1) (set_slots (<[i := free_slot]> (st_slots t)) t))
  end.

Definition conn_handles (t : ConnectionTable) : list ConnectionHandle := cs_handle <$> actives t.

(** ** Poll registrations *)

Record PollToken := mkPollToken { tok_kind : option PollTargetKind; tok_index : Z; tok_generation : Z }.

#[export] Instance PollToken_eq_dec : EqDecision PollToken.
Proof. solve_decision. Defined.

Record PollRegistrationHandle := mkRegistrationHandle { rh_index : Z; rh_generation : Z }.

#[export] Instance PollRegistrationHandle_eq_dec : EqDecision PollRegistrationHandle.
Proof. solve_decision. Defined.

Record PollRegistration := mkRegistration {
  pr_generation : Z;
  pr_descriptor : Z;
  pr_token : PollToken;
  pr_connection : option ConnectionHandle
}.

Abbreviation PollRegistrationTable := (SlotTable PollRegistration).

Definition makePollRegistrationTable (capacity : Z) : outcome PollRegistrationTable :=
  throw_if ((capacity =? 0) || (MAX_POLL_INDEX + 1 <? capacity)) InvalidArgument (Ret (makeSlotTable capacity)).

Definition reg_tryReserve (descriptor : Z) (kind : PollTargetKind) (connection : option ConnectionHandle) (t : PollRegistrationTable)
  : outcome (option nat * PollRegistrationTable) :=
  throw_if ((descriptor <? 0) || bool_decide (kind = PollInvalid) || bool_decide (kind = PollWakeup)
            || (bool_decide (kind = PollClientConnection) && negb (has_value connection))
            || (bool_decide (kind ≠ PollClientConnection) && has_value connection)) InvalidArgument
  (match first_free t with
   | None => Ret (None, t)
   | Some index =>
       match nextGeneration MAX_POLL_GENERATION t with
       | None => Throw OverflowError
       | Some (generation, t1) =>
           let token := mkPollToken (Some kind) (u32 (Z.of_nat index)) (u32 generation) in
           Ret (Some index, occupy index (mkRegistration generation descriptor token connection) t1)
       end
   end).

(** [PollRegistrationView], without the handle its caller has. *)
Definition reg_lookup_token (token : PollToken) (t : PollRegistrationTable) : option PollRegistration :=
  if bool_decide (tok_kind token = Some PollInvalid) || (st_capacity t <=? tok_index token) then None
  else p ← active_at (Z.to_nat (tok_index token)) t;
       if bool_decide (tok_kind (pr_token p) = tok_kind token) && (tok_generation (pr_token p) =? tok_generation token) then Some p else None.

Definition reg_lookup (h : PollRegistrationHandle) (t : PollRegistrationTable) : option PollRegistration :=
  find pr_generation (rh_index h) (rh_generation h) t.
Definition reg_release (h : PollRegistrationHandle) (t : PollRegistrationTable) : bool * PollRegistrationTable :=
  release pr_generation (rh_index h) (rh_generation h) t.

(** ** Poller

    What the kernel keeps per descriptor: the events asked for and the token. *)

Record PollInterest := mkInterest { want_read : bool; want_write : bool }.

#[export] Instance PollInterest_eq_dec : EqDecision PollInterest.
Proof. solve_decision. Defined.

Notation "'EPOLLIN'" := 1 : snf_scope.
Notation "'EPOLLOUT'" := 4 : snf_scope.
Notation "'EPOLLERR'" := 8 : snf_scope.
Notation "'EPOLLHUP'" := 16 : snf_scope.
Notation "'EPOLLRDHUP'" := 8192 : snf_scope.

Record EpollEvent := mkEpollEvent { ev_events : Z; ev_data : Z }.

Definition epoll_event (token : PollToken) (interest : PollInterest) : EpollEvent :=
  mkEpollEvent
    (Z.lor (if want_read interest then Z.lor EPOLLIN EPOLLRDHUP else 0) (if want_write interest then EPOLLOUT else 0))
    (encodePollToken (default PollInvalid (tok_kind token)) (tok_index token) (tok_generation token)).

Abbreviation Poller := (gmap Z EpollEvent).

(** [epoll_ctl] refuses to add a descriptor twice and to modify one that is
    not there; [None] is [std::system_error]. *)
Definition poller_add (descriptor : Z) (token : PollToken) (interest : PollInterest) (p : Poller) : option Poller :=
  if has_value (p !! descriptor) then None else Some (<[descriptor := epoll_event token interest]> p).
Definition poller_modify (descriptor : Z) (token : PollToken) (interest : PollInterest) (p : Poller) : option Poller :=
  if has_value (p !! descriptor) then Some (<[descriptor := epoll_event token interest]> p) else None.
Definition poller_remove (descriptor : Z) (p : Poller) : Poller := delete descriptor p.

Record PollEvent := mkPollEvent {
  event_token : PollToken;
  event_readable : bool;
  event_writable : bool;
  event_error : bool;
  event_hangup : bool;
  event_fatal_error : bool
}.

Definition has_bits (events bits : Z) : bool := negb (Z.land events bits =? 0).

(** The loop body of [Poller::wait]. *)
Definition poll_event (ev : EpollEvent) : PollEvent :=
  let '(kind, index, generation) := decodePollToken (ev_data ev) in
  mkPollEvent (mkPollToken kind index generation)
    (has_bits (ev_events ev) EPOLLIN) (has_bits (ev_events ev) EPOLLOUT)
    (has_bits (ev_events ev) (Z.lor (Z.lor EPOLLERR EPOLLHUP) EPOLLRDHUP))
    (has_bits (ev_events ev) (Z.lor EPOLLHUP EPOLLRDHUP)) (has_bits (ev_events ev) EPOLLERR).

(** ** A token comes back as it was given *)

(** Tokens the registration table gives out. *)
Definition token_ok (token : PollToken) : Prop :=
  has_value (tok_kind token) = true ∧ 0 <= tok_index token <= MAX_POLL_INDEX ∧ 0 <= tok_generation token <= MAX_POLL_GENERATION.

Lemma poll_event_token token interest events :
  token_ok token → event_token (poll_event (mkEpollEvent events (ev_data (epoll_event token interest)))) = token.
Proof.
  destruct token as [[kind|] index generation]; intros (Hk & Hi & Hg); [|done]. cbn in Hi, Hg. unfold poll_event, epoll_event.
  cbn [ev_data ev_events tok_kind tok_index tok_generation]. change (default PollInvalid (Some kind)) with kind. by rewrite (poll_token_roundtrip kind index generation Hi Hg).
Qed.

Lemma epoll_event_inj token token' interest interest' :
  token_ok token → token_ok token' → epoll_event token interest = epoll_event token' interest' → token = token'.
Proof.
  intros H H' E. rewrite <-(poll_event_token token interest 0 H), <-(poll_event_token token' interest' 0 H'). by rewrite E.
Qed.

(** ** The connection table at rest *)

Record connections_ok (owner : WorkerId) (t : ConnectionTable) : Prop := {
  ct_slots : slots_ok cs_generation t;
  ct_settled : st_reserved_count t = 0;
  ct_reference : ∀ i c, holds i c t → cref_id (cs_reference c) = Z.of_nat i ∧ cref_owner (cs_reference c) = owner;
  ct_capacity : 0 < st_capacity t <= MAX_POLL_INDEX + 1;
  ct_last : st_last_generation t <= U64_MAX
}.

Section connections.
Context {owner : WorkerId} {t : ConnectionTable} (Hok : connections_ok owner t).

Lemma conn_find_holds i h : conn_find h t = Some i ↔ ∃ c, holds i c t ∧ cs_handle c = h.
Proof using Hok.
  unfold conn_find. split.
  - destruct (_ || _); [done|]. intros (c & Hc%(active_at_holds _ _ _ _ (ct_slots _ _ Hok)) & Hd)%bind_Some.
    destruct (decide (cs_handle c = h)); [|done]. injection Hd as <-. eauto.
  - intros (c & Hc & <-). destruct (ct_reference _ _ Hok _ _ Hc) as [Hid _]. pose proof (holds_lt _ _ _ Hc) as Hlt.
    pose proof (holds_generation _ _ _ _ (ct_slots _ _ Hok) Hc) as Hg. unfold cs_generation in Hg.
    change (handle_valid (cs_handle c)) with (negb (cref_generation (cs_reference c) =? 0)).
    change (handle_id (cs_handle c)) with (cref_id (cs_reference c)). rewrite Hid.
    destruct (Z.eqb_spec (cref_generation (cs_reference c)) 0); [lia|]. unfold st_capacity, zlen.
    destruct (Z.leb_spec (Z.of_nat (length (st_slots t))) (Z.of_nat i)); [lia|]. cbn [negb orb]. rewrite Nat2Z.id.
    rewrite (proj2 (active_at_holds _ _ _ _ (ct_slots _ _ Hok)) Hc). simpl. by rewrite decide_True by done.
Qed.

Lemma conn_handle_inj i j c c' : holds i c t → holds j c' t → cs_handle c = cs_handle c' → i = j ∧ c = c'.
Proof using Hok.
  intros Hi Hj E. assert (i = j) as <-; [|split; [done|by eapply holds_unique]].
  apply (holds_distinct cs_generation _ _ c c' t (ct_slots _ _ Hok) Hi Hj). unfold cs_generation. by injection E.
Qed.

Lemma conn_write_ok i c c' : holds i c t → cs_reference c' = cs_reference c → connections_ok owner (write i c' t).
Proof using Hok.
  intros Hi E. constructor.
  - eapply write_ok; [apply Hok|exact Hi|done|]. unfold cs_generation. by rewrite E.
  - unfold write. rewrite Hi. apply Hok.
  - intros j x [[-> ->]|[_ Hx]]%(holds_write _ c); [rewrite E; by apply Hok|by apply Hok|done].
  - unfold write, st_capacity, zlen. rewrite Hi. cbn. rewrite length_insert. apply Hok.
  - unfold write. rewrite Hi. apply Hok.
Qed.

Lemma conn_release_ok i c :
  holds i c t → ∃ t', conn_release (cs_handle c) t = (true, t') ∧ connections_ok owner t' ∧
    (∀ j x, holds j x t' ↔ j ≠ i ∧ holds j x t) ∧ st_active_count t' = st_active_count t - 1 ∧ st_capacity t' = st_capacity t ∧
    st_last_generation t' = st_last_generation t.
Proof using Hok.
  intros Hi. unfold conn_release. rewrite (proj2 (conn_find_holds i (cs_handle c))) by eauto. eexists. split; [done|].
  assert (Hh := fun j x => holds_cleared i c t j x (st_reserved_count t) (st_active_count t - 1) Hi).
  assert (Hc : ∀ r a, st_capacity (set_counts r a (set_slots (<[i:=free_slot]> (st_slots t)) t)) = st_capacity t)
    by (intros; unfold st_capacity, zlen; cbn; by rewrite length_insert).
  split; [|done]. destruct Hok as [H1 H2 H3 H4 H5]. constructor; try done.
  - by eapply clear_ok.
  - intros j x [_ Hx]%Hh. by apply H3.
  - by rewrite Hc.
Qed.

(** A reservation made, and then committed or rolled back. *)
Lemma conn_commit_ok i c t1 :
  reserved_as cs_generation t i c t1 → cref_id (cs_reference c) = Z.of_nat i → cref_owner (cs_reference c) = owner →
  st_last_generation t < U64_MAX → connections_ok owner (commit i t1).
Proof using Hok.
  intros [Hv Hlt Hp Hc Hcom Hn Hr Hrb Hm] Hid Ho Hl. destruct Hok as [H1 H2 H3 H4 H5]. constructor; try done; try lia.
  intros j x [[-> ->]|[_ Hx]]%Hcom; [done|by apply H3].
Qed.

Lemma conn_rollback_ok i c t1 :
  reserved_as cs_generation t i c t1 → st_last_generation t < U64_MAX → connections_ok owner (rollback i t1).
Proof using Hok.
  intros [Hv Hlt Hp Hc Hcom Hn Hr Hrb Hm] Hl. destruct Hok as [H1 H2 H3 H4 H5]. constructor; try done; try lia.
  intros j x Hx%Hrb. by apply H3.
Qed.

Lemma makeConnectionSlot_reference limits socket ref ref' c :
  makeConnectionSlot socket ref limits = Ret c → isValid (cref_generation ref') = true →
  ∃ c', makeConnectionSlot socket ref' limits = Ret c' ∧ cs_reference c' = ref'.
Proof.
  unfold makeConnectionSlot, throw_if. destruct (makeWriteBuffer _ _) as [b|]; [|done]. simpl. intros Hc ->. cbn [negb].
  destruct (socket <? 0), (isValid (cref_generation ref)), (max_read_buffer_bytes limits =? 0), (close_drain_deadline limits <? 0); try done.
  all: by eexists.
Qed.

Lemma conn_tryReserve_ok limits socket c0 :
  0 <= socket → makeConnectionSlot socket (mkConnectionRef 0 1 owner) limits = Ret c0 → hasCapacity t = true →
  conn_tryReserve limits socket owner t = Throw OverflowError ∨
  ∃ i c t1, conn_tryReserve limits socket owner t = Ret (Some i, t1) ∧
    makeConnectionSlot socket (mkConnectionRef (Z.of_nat i) (st_last_generation t + 1) owner) limits = Ret c ∧
    reserved_as cs_generation t i c t1 ∧ connections_ok owner (commit i t1) ∧ connections_ok owner (rollback i t1).
Proof using Hok.
  intros Hs Hmk Hcap. unfold conn_tryReserve, throw_if. destruct (Z.ltb_spec socket 0); [lia|]. rewrite Hcap. cbn [negb].
  destruct (hasCapacity_free _ _ (ct_slots _ _ Hok) Hcap) as [i Hi]. rewrite Hi.
  destruct (first_free_spec _ _ Hi) as (s & Hs' & Hf). unfold nextGeneration.
  destruct (Z.leb_spec U64_MAX (st_last_generation t)) as [|Hlt]; [by left|]. right.
  pose proof (lookup_lt_Some _ _ _ Hs') as Hl. pose proof (ct_capacity _ _ Hok) as Hcp. pose proof (so_last _ _ (ct_slots _ _ Hok)).
  unfold st_capacity, zlen in Hcp. rewrite u32_small by lia.
  set (ref := mkConnectionRef (Z.of_nat i) (st_last_generation t + 1) owner).
  destruct (makeConnectionSlot_reference _ _ _ ref _ Hmk) as (c & Hc & Href).
  { unfold isValid. cbn. by destruct (Z.eqb_spec (st_last_generation t + 1) 0); [lia|]. }
  rewrite Hc. simpl. exists i, c. eexists. split; [done|].
  pose proof (occupy_reserved cs_generation t i s c (ct_slots _ _ Hok) Hs' Hf ltac:(unfold cs_generation; by rewrite Href)) as Hr.
  split_and!; try done.
  - eapply conn_commit_ok; by rewrite ?Href.
  - by eapply conn_rollback_ok.
Qed.
End connections.

(** ** The registration table at rest *)

(** The record of a slot names the slot. *)
Definition registration_ok (i : nat) (p : PollRegistration) : Prop :=
  tok_index (pr_token p) = Z.of_nat i ∧ tok_generation (pr_token p) = pr_generation p ∧ token_ok (pr_token p) ∧
  tok_kind (pr_token p) = Some (if has_value (pr_connection p) then PollClientConnection else PollListener).

Record registrations_ok (t : PollRegistrationTable) : Prop := {
  rt_slots : slots_ok pr_generation t;
  rt_settled : st_reserved_count t = 0;
  rt_records : ∀ i p, holds i p t → registration_ok i p;
  rt_capacity : 0 < st_capacity t <= MAX_POLL_INDEX + 1;
  rt_last : st_last_generation t <= MAX_POLL_GENERATION
}.

Definition registration_handle (i : nat) (p : PollRegistration) : PollRegistrationHandle := mkRegistrationHandle (Z.of_nat i) (pr_generation p).

Section registrations.
Context {t : PollRegistrationTable} (Hok : registrations_ok t).

Lemma reg_lookup_holds i p : holds i p t → reg_lookup (registration_handle i p) t = Some p.
Proof using Hok.
  intros Hi. apply (find_holds pr_generation); [apply Hok|]. cbn. rewrite Nat2Z.id. split_and!; try done.
  pose proof (holds_lt _ _ _ Hi). unfold st_capacity, zlen. lia.
Qed.

Lemma reg_lookup_token_holds token p :
  reg_lookup_token token t = Some p → ∃ i, holds i p t ∧ (0 <= tok_index token → token = pr_token p).
Proof using Hok.
  unfold reg_lookup_token. destruct (_ || _); [done|]. intros (q & Hq & He)%bind_Some.
  apply (active_at_holds _ _ _ _ (rt_slots _ Hok)) in Hq. destruct (_ && _) eqn:E; [|done]. injection He as <-.
  apply andb_prop in E as [E1%bool_decide_eq_true E2%Z.eqb_eq]. eexists. split; [exact Hq|]. intros Hnn.
  destruct (rt_records _ Hok _ _ Hq) as (H1 & H2 & H3 & H4). destruct token as [k i g], (pr_token q) as [k' i' g']. cbn in *. subst.
  f_equal. lia.
Qed.

Lemma reg_release_ok i p :
  holds i p t → ∃ t', reg_release (registration_handle i p) t = (true, t') ∧ registrations_ok t' ∧
    (∀ j x, holds j x t' ↔ j ≠ i ∧ holds j x t) ∧ st_active_count t' = st_active_count t - 1 ∧ st_capacity t' = st_capacity t ∧
    st_last_generation t' = st_last_generation t.
Proof using Hok.
  intros Hi. pose proof (reg_lookup_holds _ _ Hi) as Hl. unfold reg_lookup in Hl. unfold reg_release, release. rewrite Hl.
  cbn [rh_index registration_handle]. rewrite Nat2Z.id. eexists. split; [done|].
  assert (Hh := fun j x => holds_cleared i p t j x (st_reserved_count t) (st_active_count t - 1) Hi).
  assert (Hc : ∀ r a, st_capacity (set_counts r a (set_slots (<[i:=free_slot]> (st_slots t)) t)) = st_capacity t)
    by (intros; unfold st_capacity, zlen; cbn; by rewrite length_insert).
  split; [|done]. destruct Hok as [H1 H2 H3 H4 H5]. constructor; try done.
  - by eapply clear_ok.
  - intros j x [_ Hx]%Hh. by apply H3.
  - by rewrite Hc.
Qed.

Lemma reg_tryReserve_ok descriptor kind connection :
  0 <= descriptor → (kind = PollListener ∧ connection = None) ∨ (kind = PollClientConnection ∧ is_Some connection) → hasCapacity t = true →
  reg_tryReserve descriptor kind connection t = Throw OverflowError ∨
  ∃ i p t1, reg_tryReserve descriptor kind connection t = Ret (Some i, t1) ∧ reserved_as pr_generation t i p t1 ∧
    registrations_ok (commit i t1) ∧ registrations_ok (rollback i t1) ∧ registration_ok i p ∧
    pr_descriptor p = descriptor ∧ pr_connection p = connection ∧ pr_generation p = st_last_generation t + 1.
Proof using Hok.
  intros Hd Hk Hcap. unfold reg_tryReserve, throw_if. destruct (Z.ltb_spec descriptor 0); [lia|].
  rewrite !(bool_decide_eq_false_2 (kind = _)) by (by destruct Hk as [[-> _]|[-> _]]). cbn [orb].
  replace (_ || _) with false by (by destruct Hk as [[-> ->]|[-> [h ->]]]).
  destruct (hasCapacity_free _ _ (rt_slots _ Hok) Hcap) as [i Hi]. rewrite Hi.
  destruct (first_free_spec _ _ Hi) as (s & Hs' & Hf). unfold nextGeneration.
  destruct (Z.leb_spec MAX_POLL_GENERATION (st_last_generation t)) as [|Hlt]; [by left|]. right.
  pose proof (lookup_lt_Some _ _ _ Hs') as Hl. pose proof (rt_capacity _ Hok) as Hcp. pose proof (so_last _ _ (rt_slots _ Hok)).
  unfold st_capacity, zlen in Hcp. rewrite !u32_small by lia.
  set (p := mkRegistration _ _ _ _). exists i, p. eexists. split; [done|].
  pose proof (occupy_reserved pr_generation t i s p (rt_slots _ Hok) Hs' Hf eq_refl) as Hr.
  assert (Hp : registration_ok i p).
  { unfold registration_ok, token_ok. cbn. destruct Hk as [[-> ->]|[-> [h ->]]]; cbn; split_and!; done || lia. }
  split; [done|]. destruct Hok as [H1 H2 H3 H4 H5], Hr as [Hv Hlt' Hpe Hc Hcom Hn Hro Hrb Hm].
  split_and!; try done; constructor; try done; try lia.
  - intros j x [[-> ->]|[_ Hx]]%Hcom; [done|by apply H3].
  - intros j x Hx%Hrb. by apply H3.
Qed.
End registrations.
