(* ===== verification/Network.v ===== *)
(** * The network side of a worker

    The part of [src/src/worker/worker.cpp] that owns the connections: the
    listener, accepting, reading frames and posting them, sending, closing at
    once or after the pending bytes are out, and the network steps of the
    shutdown.  The methods are those of a worker whose network is configured, so
    [networkEnabled()] holds.

    A method is a computation over the state that may end in a fault: an
    exception that leaves [Worker::run].  The kernel, the clock and the request
    sink are behind the classes [NetKernel] and [RequestSink].  The counters of
    [WorkerNetworkMetrics] are a list of increments; high-water marks are left
    out.  A log records the bytes and frames that pass, for the theorems. *)

From S2P Require Import Prelude Connection Wire FrameCodec Session Identity TimerQueue HandleRing SlotTable ActorTable Actor WorkerConnection ConnectionTables.

(** ** Configuration and budgets *)

Record WorkerNetworkConfig := mkNetworkConfig {
  net_table : ConnectionTableConfig;
  poll_registration_capacity : Z;
  max_accepts_per_poll : Z;
  receive_chunk_bytes : Z;
  client_send_buffer_size : option Z
}.

Definition network_config_valid (config : WorkerNetworkConfig) : bool :=
  let table := net_table config in
  let limits := table_limits table in
  (0 <? table_capacity table) && (table_capacity table <=? MAX_POLL_INDEX + 1)
  && (0 <? max_read_buffer_bytes limits) && (0 <? write_soft_watermark_bytes limits)
  && (write_soft_watermark_bytes limits <=? write_hard_limit_bytes limits) && (0 <=? close_drain_deadline limits)
  && (table_capacity table <? poll_registration_capacity config) && (poll_registration_capacity config <=? MAX_POLL_INDEX + 1)
  && (0 <? max_accepts_per_poll config) && (0 <? receive_chunk_bytes config)
  && match client_send_buffer_size config with Some n => 0 <? n | None => true end.

Record IoBudget := mkIoBudget {
  max_poll_events : Z;
  max_accepts : Z;
  max_read_connections : Z;
  max_frames : Z;
  max_read_bytes : Z;
  io_max_duration : Z
}.

Record ByteTimeBudget := mkByteTimeBudget { max_bytes : Z; bytes_max_duration : Z }.

Notation "'MAX_RECEIVE_CHUNK'" := 65536 : snf_scope.

(** ** Faults, counters, log *)

Inductive NetFault :=
(* refused by the kernel, or identifiers used up *)
| EpollRefused | SocketRefused | AcceptFailed | GenerationsExhausted
(* broken bookkeeping of the worker itself *)
| NoRegistration | PollerMismatch | DecoderStuck | ConsumeRange | NullConnection | NetOutOfFuel.

Definition net_excused (f : NetFault) : bool :=
  match f with EpollRefused | SocketRefused | AcceptFailed | GenerationsExhausted => true | _ => false end.

Inductive NetCounter :=
| accepted_connections | closed_connections | received_frames | sent_frames | protocol_errors | rejected_requests
| stale_poll_events | stale_work_items | stale_close_deadlines | soft_limit_sends | hard_limit_sends
| read_budget_stops | write_budget_stops | epollout_waits | epollout_resumes | listener_pauses | listener_resumes
| graceful_closes | immediate_closes | close_deadline_expirations | wakeups_consumed | poll_budget_stops | forced_connection_closes.

(** Generations name connections for good. *)
Inductive NetEvent :=
| Received (generation : Z) (bs : bytes)
| Posted (generation : Z) (f : Frame)
| Queued (generation : Z) (f : Frame)
| Sent (generation : Z) (bs : bytes)
| Closed (generation : Z) (reason : CloseReason)
| DbPolled (token : PollToken).

(** ** The kernel and the sink *)

Inductive AcceptAnswer := AcceptedSocket (descriptor : Z) | AcceptAgain | AcceptInterrupted | AcceptError.
Inductive RecvAnswer := RecvBytes (bs : bytes) | RecvEof | RecvInterrupted | RecvAgain | RecvError.
Inductive SendAnswer := SentBytes (n : nat) | SendInterrupted | SendAgain | SendError.

(** [steady_clock::now], [accept4], the socket options of a new client,
    [recv], [send] and [epoll_ctl], with what their documentation promises: a new
    descriptor is not in use, and no more bytes are read or taken than asked
    for.  A call is interrupted at most [interruptions] times in a row. *)
Class NetKernel (K : Type) := {
  k_now : K → time_point * K;
  k_accept : gset Z → K → AcceptAnswer * K;
  k_configure : Z → option Z → K → bool * K;
  k_recv : Z → Z → K → RecvAnswer * K;
  k_send : Z → bytes → K → SendAnswer * K;
  k_epoll : K → bool * K;
  interruptions : nat;
  patience : K → nat;
  accept_fresh : ∀ used k d k', k_accept used k = (AcceptedSocket d, k') → 0 <= d ∧ d ∉ used;
  recv_bounded : ∀ d size k bs k', k_recv d size k = (RecvBytes bs, k') → 0 < zlen bs <= size ∧ bytes_ok bs;
  send_bounded : ∀ d bs k n k', k_send d bs k = (SentBytes n, k') → (0 < n <= length bs)%nat;
  patience_bounded : ∀ k, (patience k <= interruptions)%nat;
  now_patient : ∀ k, patience (k_now k).2 = patience k;
  accept_patient : ∀ used k k', k_accept used k = (AcceptInterrupted, k') → (patience k' < patience k)%nat;
  recv_patient : ∀ d size k k', k_recv d size k = (RecvInterrupted, k') → (patience k' < patience k)%nat;
  send_patient : ∀ d bs k k', k_send d bs k = (SendInterrupted, k') → (patience k' < patience k)%nat
}.

Inductive RequestPostResult := PostAccepted | PostInvalid | PostRejected.

#[export] Instance RequestPostResult_eq_dec : EqDecision RequestPostResult.
Proof. solve_decision. Defined.

(** [RequestSink]: what a worker hands frames to.  During [tryPost] a sink may
    call [Worker::send] for connections of its worker; it ignores the results,
    so the calls can be listed. *)
Class RequestSink (S : Type) := {
  sink_tryPost : ConnectionRef → Frame → S → RequestPostResult * list (ConnectionRef * Frame * bool) * S;
  sink_onConnectionClosed : ConnectionRef → CloseReason → S → S
}.

(** The worker's identity and configuration, and the charge of a message. *)
Class NetSetup (M : Type) := {
  net_charge : M → Z;
  net_self : WorkerId;
  net_config : WorkerNetworkConfig
}.

Section network.
Context {M S K : Type} `{Setup : !NetSetup M} `{Heap : !HeapAlgorithms (entry_deadline (M := M))}.
Context `{Kernel : !NetKernel K} `{Sink : !RequestSink S}.

Abbreviation limits := (table_limits (net_table net_config)).

(** ** State *)

Record Net := mkNet {
  nt_listener : option Z;
  nt_listener_registration : option PollRegistrationHandle;
  nt_listener_paused : bool;
  nt_stopping : bool;
  nt_connections : ConnectionTable;
  nt_registrations : PollRegistrationTable;
  nt_read_queue : HandleRing ConnectionHandle;
  nt_write_queue : HandleRing ConnectionHandle;
  nt_connection_registrations : list (option PollRegistrationHandle);
  nt_poller : Poller;
  nt_timers : TimerQueue (M := M);
  nt_sink : S;
  nt_kernel : K;
  nt_metrics : list NetCounter;
  nt_log : list NetEvent
}.
Implicit Types n : Net.

Definition set_listener (x : option Z) (y : option PollRegistrationHandle) n : Net :=
  mkNet x y (nt_listener_paused n) (nt_stopping n) (nt_connections n) (nt_registrations n) (nt_read_queue n) (nt_write_queue n) (nt_connection_registrations n) (nt_poller n) (nt_timers n) (nt_sink n) (nt_kernel n) (nt_metrics n) (nt_log n).
Definition set_paused (x : bool) n : Net :=
  mkNet (nt_listener n) (nt_listener_registration n) x (nt_stopping n) (nt_connections n) (nt_registrations n) (nt_read_queue n) (nt_write_queue n) (nt_connection_registrations n) (nt_poller n) (nt_timers n) (nt_sink n) (nt_kernel n) (nt_metrics n) (nt_log n).
Definition set_stopping  n : Net :=
  mkNet (nt_listener n) (nt_listener_registration n) (nt_listener_paused n) true (nt_connections n) (nt_registrations n) (nt_read_queue n) (nt_write_queue n) (nt_connection_registrations n) (nt_poller n) (nt_timers n) (nt_sink n) (nt_kernel n) (nt_metrics n) (nt_log n).
Definition set_connections (x : ConnectionTable) n : Net :=
  mkNet (nt_listener n) (nt_listener_registration n) (nt_listener_paused n) (nt_stopping n) x (nt_registrations n) (nt_read_queue n) (nt_write_queue n) (nt_connection_registrations n) (nt_poller n) (nt_timers n) (nt_sink n) (nt_kernel n) (nt_metrics n) (nt_log n).
Definition set_registrations (x : PollRegistrationTable) n : Net :=
  mkNet (nt_listener n) (nt_listener_registration n) (nt_listener_paused n) (nt_stopping n) (nt_connections n) x (nt_read_queue n) (nt_write_queue n) (nt_connection_registrations n) (nt_poller n) (nt_timers n) (nt_sink n) (nt_kernel n) (nt_metrics n) (nt_log n).
Definition set_read_queue (x : HandleRing ConnectionHandle) n : Net :=
  mkNet (nt_listener n) (nt_listener_registration n) (nt_listener_paused n) (nt_stopping n) (nt_connections n) (nt_registrations n) x (nt_write_queue n) (nt_connection_registrations n) (nt_poller n) (nt_timers n) (nt_sink n) (nt_kernel n) (nt_metrics n) (nt_log n).
Definition set_write_queue (x : HandleRing ConnectionHandle) n : Net :=
  mkNet (nt_listener n) (nt_listener_registration n) (nt_listener_paused n) (nt_stopping n) (nt_connections n) (nt_registrations n) (nt_read_queue n) x (nt_connection_registrations n) (nt_poller n) (nt_timers n) (nt_sink n) (nt_kernel n) (nt_metrics n) (nt_log n).
Definition set_connection_registrations (x : list (option PollRegistrationHandle)) n : Net :=
  mkNet (nt_listener n) (nt_listener_registration n) (nt_listener_paused n) (nt_stopping n) (nt_connections n) (nt_registrations n) (nt_read_queue n) (nt_write_queue n) x (nt_poller n) (nt_timers n) (nt_sink n) (nt_kernel n) (nt_metrics n) (nt_log n).
Definition set_poller (x : Poller) n : Net :=
  mkNet (nt_listener n) (nt_listener_registration n) (nt_listener_paused n) (nt_stopping n) (nt_connections n) (nt_registrations n) (nt_read_queue n) (nt_write_queue n) (nt_connection_registrations n) x (nt_timers n) (nt_sink n) (nt_kernel n) (nt_metrics n) (nt_log n).
Definition set_timers (x : TimerQueue (M := M)) n : Net :=
  mkNet (nt_listener n) (nt_listener_registration n) (nt_listener_paused n) (nt_stopping n) (nt_connections n) (nt_registrations n) (nt_read_queue n) (nt_write_queue n) (nt_connection_registrations n) (nt_poller n) x (nt_sink n) (nt_kernel n) (nt_metrics n) (nt_log n).
Definition set_sink (x : S) n : Net :=
  mkNet (nt_listener n) (nt_listener_registration n) (nt_listener_paused n) (nt_stopping n) (nt_connections n) (nt_registrations n) (nt_read_queue n) (nt_write_queue n) (nt_connection_registrations n) (nt_poller n) (nt_timers n) x (nt_kernel n) (nt_metrics n) (nt_log n).
Definition set_kernel (x : K) n : Net :=
  mkNet (nt_listener n) (nt_listener_registration n) (nt_listener_paused n) (nt_stopping n) (nt_connections n) (nt_registrations n) (nt_read_queue n) (nt_write_queue n) (nt_connection_registrations n) (nt_poller n) (nt_timers n) (nt_sink n) x (nt_metrics n) (nt_log n).
Definition set_metrics (x : list NetCounter) n : Net :=
  mkNet (nt_listener n) (nt_listener_registration n) (nt_listener_paused n) (nt_stopping n) (nt_connections n) (nt_registrations n) (nt_read_queue n) (nt_write_queue n) (nt_connection_registrations n) (nt_poller n) (nt_timers n) (nt_sink n) (nt_kernel n) x (nt_log n).
Definition set_log (x : list NetEvent) n : Net :=
  mkNet (nt_listener n) (nt_listener_registration n) (nt_listener_paused n) (nt_stopping n) (nt_connections n) (nt_registrations n) (nt_read_queue n) (nt_write_queue n) (nt_connection_registrations n) (nt_poller n) (nt_timers n) (nt_sink n) (nt_kernel n) (nt_metrics n) x.

(** ** Computations *)

Inductive NetRun (A : Type) := NDone (a : A) (n : Net) | NFailed (f : NetFault).
#[global] Arguments NDone {A}.
#[global] Arguments NFailed {A}.

Definition N (A : Type) : Type := Net → NetRun A.
#[export] Instance N_ret : MRet N := fun A a n => NDone a n.
#[export] Instance N_bind : MBind N := fun A B k m n => match m n with NDone a n' => k a n' | NFailed f => NFailed f end.

Definition nget {A} (f : Net → A) : N A := fun n => NDone (f n) n.
Definition nmodify (f : Net → Net) : N () := fun n => NDone () (f n).
Definition nfail {A} (f : NetFault) : N A := fun _ => NFailed f.
Definition nrequire {A} (f : NetFault) (o : option A) : N A := match o with Some a => mret a | None => nfail f end.

Fixpoint each {A} (k : A → N ()) (l : list A) : N () :=
  match l with [] => mret () | a :: l' => k a;; each k l' end.

Definition ncount (c : NetCounter) : N () := nmodify (fun n => set_metrics (c :: nt_metrics n) n).
Definition nlog (e : NetEvent) : N () := nmodify (fun n => set_log (nt_log n ++ [e]) n).
Definition kernel {A} (f : K → A * K) : N A := fun n => let '(a, k) := f (nt_kernel n) in NDone a (set_kernel k n).

Definition nnow : N time_point := kernel k_now.
Definition budgetExpired (started_at maximum_duration : Z) : N bool := t ← nnow; mret (maximum_duration <=? t - started_at).

(** ** Slots, queues and the poller *)

Definition find_connection (h : ConnectionHandle) : N (option nat) := nget (fun n => conn_find h (nt_connections n)).
Definition connection (i : nat) : N ConnectionSlot :=
  s ← nget (fun n => st_slots (nt_connections n) !! i ≫= slot_entry); nrequire NullConnection s.
Definition put_connection (i : nat) (c : ConnectionSlot) : N () := nmodify (fun n => set_connections (write i c (nt_connections n)) n).
Definition update_connection (i : nat) (f : ConnectionSlot → ConnectionSlot) : N () := c ← connection i; put_connection i (f c).

Definition enqueueRead (i : nat) : N bool :=
  c ← connection i;
  if cs_read_queued c then mret true
  else
    r ← nget (fun n => work_tryPush (cs_handle c) (nt_read_queue n));
    nmodify (set_read_queue r.2);;
    if r.1 : bool then put_connection i (setReadQueued true c);; mret true else mret false.

Definition enqueueWrite (i : nat) : N bool :=
  c ← connection i;
  if cs_write_queued c then mret true
  else
    r ← nget (fun n => work_tryPush (cs_handle c) (nt_write_queue n));
    nmodify (set_write_queue r.2);;
    if r.1 : bool then put_connection i (setWriteQueued true c);; mret true else mret false.

Definition epoll_modify (descriptor : Z) (token : PollToken) (interest : PollInterest) : N () :=
  ok ← kernel k_epoll;
  if ok : bool then
    p ← nget (fun n => poller_modify descriptor token interest (nt_poller n)); p ← nrequire PollerMismatch p; nmodify (set_poller p)
  else nfail EpollRefused.
Definition epoll_add (descriptor : Z) (token : PollToken) (interest : PollInterest) : N () :=
  ok ← kernel k_epoll;
  if ok : bool then
    p ← nget (fun n => poller_add descriptor token interest (nt_poller n)); p ← nrequire PollerMismatch p; nmodify (set_poller p)
  else nfail EpollRefused.
Definition epoll_remove (descriptor : Z) : N () := nmodify (fun n => set_poller (poller_remove descriptor (nt_poller n)) n).

Definition registrationFor (h : ConnectionHandle) (n : Net) : option PollRegistration :=
  if zlen (nt_connection_registrations n) <=? handle_id h then None
  else
    rh ← mjoin (nt_connection_registrations n !! Z.to_nat (handle_id h));
    p ← reg_lookup rh (nt_registrations n);
    if decide (pr_connection p = Some h) then Some p else None.

Definition updateConnectionInterest (i : nat) : N () :=
  c ← connection i;
  p ← nget (registrationFor (cs_handle c));
  p ← nrequire NoRegistration p;
  epoll_modify (cs_socket c) (pr_token p) (mkInterest (isOpen c) (cs_waiting_epollout c)).

(** ** The listener *)

Definition listener_capacity (n : Net) : bool := hasCapacity (nt_connections n) && hasCapacity (nt_registrations n).

Definition listener_interest (read : bool) (fd : Z) : N () :=
  rh ← nget nt_listener_registration;
  rh ← nrequire NoRegistration rh;
  p ← nget (fun n => reg_lookup rh (nt_registrations n));
  p ← nrequire NoRegistration p;
  epoll_modify fd (pr_token p) (mkInterest read false).

Definition maybeResumeListener : N () :=
  n ← nget id;
  match nt_listener n with
  | None => mret ()
  | Some fd =>
      if negb (nt_listener_paused n) || nt_stopping n || negb (listener_capacity n) then mret ()
      else listener_interest true fd;; nmodify (set_paused false);; ncount listener_resumes
  end.

Definition pauseListener : N () :=
  n ← nget id;
  match nt_listener n with
  | None => mret ()
  | Some fd =>
      if nt_listener_paused n then mret ()
      else listener_interest false fd;; nmodify (set_paused true);; ncount listener_pauses
  end.

(** ** Closing *)

(** A failing [Poller::remove] is caught; the descriptor is closed next, and
    the kernel forgets it. *)
Definition releaseConnectionRegistration (h : ConnectionHandle) : N () :=
  n ← nget id;
  if zlen (nt_connection_registrations n) <=? handle_id h then mret ()
  else
    match nt_connection_registrations n !! Z.to_nat (handle_id h) with
    | Some (Some rh) =>
        match reg_lookup rh (nt_registrations n) with Some p => epoll_remove (pr_descriptor p) | None => mret () end;;
        nmodify (fun n => set_registrations (reg_release rh (nt_registrations n)).2 n);;
        nmodify (fun n => set_connection_registrations (<[Z.to_nat (handle_id h) := None]> (nt_connection_registrations n)) n)
    | _ => mret ()
    end.

(** Releasing the slot destroys the connection and closes its socket. *)
Definition forceClose (h : ConnectionHandle) (reason : CloseReason) : N () :=
  found ← find_connection h;
  match found with
  | None => mret ()
  | Some i =>
      c ← connection i;
      releaseConnectionRegistration h;;
      nmodify (fun n => set_connections (conn_release h (nt_connections n)).2 n);;
      epoll_remove (cs_socket c);;
      ncount closed_connections;;
      (if isOpen c then ncount immediate_closes else mret ());;
      nlog (Closed (cs_generation c) reason);;
      nmodify (fun n => set_sink (sink_onConnectionClosed (cs_reference c) reason (nt_sink n)) n);;
      maybeResumeListener
  end.

Definition schedule_close (deadline : time_point) (h : ConnectionHandle) : N bool :=
  r ← nget (fun n => trySchedule net_charge deadline (ConnectionCloseDeadline h) (nt_timers n));
  nmodify (set_timers r.2);; mret r.1.

Definition beginGracefulClose (h : ConnectionHandle) (reason : CloseReason) (max_deadline : option time_point) : N bool :=
  found ← find_connection h;
  match found with
  | None => mret false
  | Some i =>
      c ← connection i;
      if isClosing c then mret true
      else
        t ← nnow;
        let standard_deadline := after t (close_drain_deadline limits) in
        let deadline := match max_deadline with Some m => Z.min standard_deadline m | None => standard_deadline end in
        put_connection i (beginClosing deadline reason c);;
        ncount graceful_closes;;
        updateConnectionInterest i;;
        c ← connection i;
        if negb (hasPendingWrite c) then forceClose h reason;; mret true
        else
          queued ← (if negb (cs_write_queued c) && negb (cs_waiting_epollout c) then enqueueWrite i else mret true);
          if negb queued then forceClose h CloseSlowConsumer;; mret true
          else
            scheduled ← schedule_close deadline h;
            if scheduled : bool then mret true else forceClose h CloseTimeout;; mret true
  end.

(** The local part of [closeConnection]. *)
Definition closeOwn (ref : ConnectionRef) (reason : CloseReason) (graceful : bool) : N bool :=
  let h := mkConnectionHandle (cref_id ref) (cref_generation ref) in
  found ← find_connection h;
  match found with
  | None => mret false
  | Some _ => if graceful then beginGracefulClose h reason None else forceClose h reason;; mret true
  end.

(** The branch of [onTimer] for a [ConnectionCloseDeadline]. *)
Definition onCloseDeadline (h : ConnectionHandle) : N () :=
  found ← find_connection h;
  match found with
  | None => ncount stale_close_deadlines
  | Some i =>
      c ← connection i;
      if isClosing c then ncount close_deadline_expirations;; forceClose h CloseTimeout else ncount stale_close_deadlines
  end.

(** One round of [TimerQueue::expire] whose timer is a close deadline.  Timers
    of other kinds are the scheduler's. *)
Definition expire_close (now : time_point) : N () :=
  q ← nget nt_timers;
  if front_due now q then
    match pop_due net_charge q with
    | Some (mkTimerEntry _ (ConnectionCloseDeadline h), q') => nmodify (set_timers q');; onCloseDeadline h
    | _ => mret ()
    end
  else mret ().

(** ** Sending *)

Definition sendLocal (ref : ConnectionRef) (f : Frame) (critical : bool) : N SendResult :=
  let h := mkConnectionHandle (cref_id ref) (cref_generation ref) in
  found ← find_connection h;
  match found with
  | None => mret SendStale
  | Some i =>
      c ← connection i;
      if negb (cref_owner (cs_reference c) =? cref_owner ref) then mret SendStale
      else
        let '(result, c1) := appendFrame f critical c in
        put_connection i c1;;
        match result with
        | SendHardLimit => ncount hard_limit_sends;; forceClose h CloseSlowConsumer;; mret SendHardLimit
        | SendSoftLimit => ncount soft_limit_sends;; mret SendSoftLimit
        | SendAccepted =>
            nlog (Queued (cs_generation c) f);;
            queued ← (if negb (cs_write_queued c1) && negb (cs_waiting_epollout c1) then enqueueWrite i else mret true);
            if queued : bool then mret SendAccepted else forceClose h CloseSlowConsumer;; mret SendRejected
        | _ => mret result
        end
  end.

(** ** Reading *)

Definition post (ref : ConnectionRef) (f : Frame) : N RequestPostResult :=
  n ← nget id;
  let '(result, sends, s) := sink_tryPost ref f (nt_sink n) in
  nmodify (set_sink s);;
  each (fun '(to, frame, critical) => _ ← sendLocal to frame critical; mret ()) sends;;
  mret result.

(** [readConnection] answers whether the connection needs another turn; the
    counts it moves and whether the budget ran out are in its record. *)
Record ReadProgress := mkReadProgress { rp_again : bool; rp_bytes : Z; rp_frames : Z; rp_exhausted : bool }.

Definition stop_reading (h : ConnectionHandle) (reason : CloseReason) (bytes_read frames : Z) : N ReadProgress :=
  forceClose h reason;; mret (mkReadProgress false bytes_read frames false).

Fixpoint read_loop (fuel : nat) (h : ConnectionHandle) (b : IoBudget) (started_at bytes_read frames : Z) : N ReadProgress :=
  match fuel with
  | O => nfail NetOutOfFuel
  | Datatypes.S fuel' =>
      found ← find_connection h;
      match found with
      | None => mret (mkReadProgress false bytes_read frames false)
      | Some i =>
          c ← connection i;
          if negb (isOpen c) then mret (mkReadProgress false bytes_read frames false)
          else if max_frames b <=? frames then mret (mkReadProgress true bytes_read frames true)
          else
            late ← budgetExpired started_at (io_max_duration b);
            if late : bool then mret (mkReadProgress true bytes_read frames true)
            else
              next ← nrequire DecoderStuck (tryDecodeNext (cs_decoder c));
              let '(decoded, d) := next in
              let c1 := set_decoder d c in
              put_connection i c1;;
              match next_error decoded, next_frame decoded with
              | Some _, _ => ncount protocol_errors;; stop_reading h CloseProtocolViolation bytes_read frames
              | None, Some f =>
                  ncount received_frames;;
                  nlog (Posted (cs_generation c) f);;
                  answer ← post (cs_reference c) f;
                  match answer with
                  | PostAccepted => read_loop fuel' h b started_at bytes_read (frames + 1)
                  | PostInvalid =>
                      ncount rejected_requests;; ncount protocol_errors;; stop_reading h CloseProtocolViolation bytes_read (frames + 1)
                  | PostRejected => ncount rejected_requests;; stop_reading h CloseOverload bytes_read (frames + 1)
                  end
              | None, None =>
                  if max_read_bytes b <=? bytes_read then mret (mkReadProgress true bytes_read frames true)
                  else if cs_max_read_buffer_bytes c1 <=? bufferedBytes c1
                  then ncount protocol_errors;; stop_reading h CloseProtocolViolation bytes_read frames
                  else
                    let room := cs_max_read_buffer_bytes c1 - bufferedBytes c1 in
                    let remaining := max_read_bytes b - bytes_read in
                    let size := Z.min (Z.min room remaining) (Z.min (receive_chunk_bytes net_config) MAX_RECEIVE_CHUNK) in
                    if size =? 0 then mret (mkReadProgress true bytes_read frames true)
                    else
                      received ← kernel (k_recv (cs_socket c1) size);
                      match received with
                      | RecvBytes bs =>
                          nlog (Received (cs_generation c) bs);;
                          put_connection i (set_decoder (push d bs) c1);;
                          read_loop fuel' h b started_at (bytes_read + zlen bs) frames
                      | RecvEof => stop_reading h ClosePeerClosed bytes_read frames
                      | RecvInterrupted => read_loop fuel' h b started_at bytes_read frames
                      | RecvAgain => mret (mkReadProgress false bytes_read frames false)
                      | RecvError => stop_reading h CloseIoError bytes_read frames
                      end
              end
      end
  end.

(** Rounds that read a frame or a byte are bounded by the budget, and between
    two of them the kernel interrupts [interruptions] times at most. *)
Definition read_fuel (b : IoBudget) (bytes_read frames : Z) : nat :=
  Datatypes.S ((Z.to_nat (max_frames b - frames) + Z.to_nat (max_read_bytes b - bytes_read)) * Datatypes.S interruptions + interruptions).

Definition readConnection (h : ConnectionHandle) (b : IoBudget) (started_at bytes_read frames : Z) : N ReadProgress :=
  read_loop (read_fuel b bytes_read frames) h b started_at bytes_read frames.

(** Back into the queue, if the connection is still there. *)
Definition requeue_read (h : ConnectionHandle) : N () :=
  found ← find_connection h;
  match found with
  | None => mret ()
  | Some i =>
      c ← connection i;
      if isOpen c then queued ← enqueueRead i; if queued : bool then mret () else forceClose h CloseOverload else mret ()
  end.

Definition pop_read : N (option ConnectionHandle) :=
  r ← nget (fun n => work_tryPop (nt_read_queue n)); nmodify (set_read_queue r.2);; mret r.1.
Definition pop_write : N (option ConnectionHandle) :=
  r ← nget (fun n => work_tryPop (nt_write_queue n)); nmodify (set_write_queue r.2);; mret r.1.

(** The answer says whether the budget of the phase ran out. *)
Fixpoint read_queue_loop (fuel : nat) (b : IoBudget) (started_at bytes_read frames processed : Z) : N bool :=
  match fuel with
  | O => nfail NetOutOfFuel
  | Datatypes.S fuel' =>
      q ← nget nt_read_queue;
      if hr_empty q then mret false
      else if (max_read_connections b <=? processed) || (max_frames b <=? frames) || (max_read_bytes b <=? bytes_read) then mret true
      else
        late ← budgetExpired started_at (io_max_duration b);
        if late : bool then mret true
        else
          item ← pop_read;
          match item with
          | None => mret false
          | Some h =>
              found ← find_connection h;
              match found with
              | None => ncount stale_work_items;; read_queue_loop fuel' b started_at bytes_read frames processed
              | Some i =>
                  update_connection i (setReadQueued false);;
                  r ← readConnection h b started_at bytes_read frames;
                  (if rp_again r then requeue_read h else mret ());;
                  if rp_exhausted r then mret true
                  else read_queue_loop fuel' b started_at (rp_bytes r) (rp_frames r) (processed + 1)
              end
          end
  end.

Definition processReadQueue (b : IoBudget) (started_at : time_point) : N () :=
  n ← nget id;
  if nt_stopping n then mret ()
  else
    exhausted ← read_queue_loop (Datatypes.S (2 * Z.to_nat (max_read_connections b) + Z.to_nat (hr_size (nt_read_queue n)))) b started_at 0 0 0;
    if exhausted : bool then ncount read_budget_stops;; ncount poll_budget_stops else mret ().

(** ** Accepting *)

(** One client: the answer is false when the listener was paused instead. *)
Definition admit_client (fd : Z) : N bool :=
  ok ← kernel (k_configure fd (client_send_buffer_size net_config));
  if negb ok then nfail SocketRefused
  else
    r ← nget (fun n => conn_tryReserve limits fd net_self (nt_connections n));
    match r with
    | Throw _ => nfail GenerationsExhausted
    | Ret (None, t) => nmodify (set_connections t);; pauseListener;; mret false
    | Ret (Some i, t) =>
        nmodify (set_connections t);;
        c ← connection i;
        g ← nget (fun n => reg_tryReserve fd PollClientConnection (Some (cs_handle c)) (nt_registrations n));
        match g with
        | Throw _ => nfail GenerationsExhausted
        | Ret (None, t') =>
            nmodify (set_registrations t');; pauseListener;;
            nmodify (fun n => set_connections (rollback i (nt_connections n)) n);; mret false
        | Ret (Some j, t') =>
            nmodify (set_registrations t');;
            p ← nget (fun n => st_slots (nt_registrations n) !! j ≫= slot_entry);
            p ← nrequire NoRegistration p;
            epoll_add fd (pr_token p) (mkInterest true false);;
            nmodify (fun n => set_registrations (commit j (nt_registrations n)) n);;
            nmodify (fun n => set_connections (commit i (nt_connections n)) n);;
            nmodify (fun n => set_connection_registrations
              (<[Z.to_nat (handle_id (cs_handle c)) := Some (registration_handle j p)]> (nt_connection_registrations n)) n);;
            ncount accepted_connections;; mret true
        end
    end.

Fixpoint accept_loop (fuel : nat) (b : IoBudget) (started_at limit accepted : Z) : N Z :=
  match fuel with
  | O => nfail NetOutOfFuel
  | Datatypes.S fuel' =>
      if limit <=? accepted then mret accepted
      else
        late ← budgetExpired started_at (io_max_duration b);
        if late : bool then mret accepted
        else
          n ← nget id;
          if negb (listener_capacity n) then pauseListener;; mret accepted
          else
            answer ← kernel (k_accept (dom (nt_poller n)));
            match answer with
            | AcceptAgain => mret accepted
            | AcceptInterrupted => accept_loop fuel' b started_at limit accepted
            | AcceptError => nfail AcceptFailed
            | AcceptedSocket fd =>
                ok ← admit_client fd;
                if negb ok then mret accepted
                else
                  late ← budgetExpired started_at (io_max_duration b);
                  if late : bool then mret (accepted + 1) else accept_loop fuel' b started_at limit (accepted + 1)
            end
  end.

Definition accept_limit (b : IoBudget) : Z := Z.min (max_accepts_per_poll net_config) (max_accepts b).
Definition accept_fuel (b : IoBudget) (accepted : Z) : nat :=
  Datatypes.S (Z.to_nat (accept_limit b - accepted) * Datatypes.S interruptions + interruptions).

Definition acceptPendingClients (b : IoBudget) (started_at accepted : Z) : N Z :=
  n ← nget id;
  if negb (has_value (nt_listener n)) || nt_stopping n || nt_listener_paused n then mret accepted
  else accept_loop (accept_fuel b accepted) b started_at (accept_limit b) accepted.

(** ** Poll events *)

Definition on_writable (i : nat) (h : ConnectionHandle) : N bool :=
  update_connection i (setWaitingEpollout false);;
  ncount epollout_resumes;;
  updateConnectionInterest i;;
  c ← connection i;
  queued ← (if cs_write_queued c then mret true else enqueueWrite i);
  if queued : bool then mret true else forceClose h CloseSlowConsumer;; mret false.

Definition on_connection_event (e : PollEvent) : N () :=
  p ← nget (fun n => reg_lookup_token (event_token e) (nt_registrations n));
  match p ≫= pr_connection with
  | None => ncount stale_poll_events
  | Some h =>
      found ← find_connection h;
      match found with
      | None => ncount stale_poll_events
      | Some i =>
          c ← connection i;
          if negb (cs_socket c =? default (-1) (pr_descriptor <$> p)) then ncount stale_poll_events
          else if event_error e || event_hangup e
          then forceClose h (if event_fatal_error e then CloseIoError else ClosePeerClosed)
          else
            go_on ← (if event_writable e && cs_waiting_epollout c then on_writable i h else mret true);
            if negb go_on then mret ()
            else
              found ← find_connection h;
              match found with
              | None => mret ()
              | Some i =>
                  n ← nget id;
                  c ← connection i;
                  if negb (nt_stopping n) && isOpen c && event_readable e && negb (cs_read_queued c) then
                    queued ← enqueueRead i;
                    if queued : bool then mret () else forceClose h CloseOverload
                  else mret ()
              end
      end
  end.

(** One event; the count of accepted clients runs through the batch. *)
Definition on_poll_event (b : IoBudget) (started_at accepted : Z) (e : PollEvent) : N Z :=
  match tok_kind (event_token e) with
  | Some PollWakeup => ncount wakeups_consumed;; mret accepted
  | Some PollDbConnection => nlog (DbPolled (event_token e));; mret accepted
  | Some PollListener =>
      n ← nget id;
      if negb (nt_stopping n) && event_readable e then acceptPendingClients b started_at accepted else mret accepted
  | Some PollClientConnection => on_connection_event e;; mret accepted
  | _ => mret accepted
  end.

Fixpoint poll_loop (b : IoBudget) (started_at processed accepted : Z) (events : list PollEvent) : N bool :=
  match events with
  | [] => mret false
  | e :: events' =>
      if max_poll_events b <=? processed then mret true
      else
        late ← budgetExpired started_at (io_max_duration b);
        if late : bool then mret true
        else accepted ← on_poll_event b started_at accepted e; poll_loop b started_at (processed + 1) accepted events'
  end.

Definition processPollEvents (events : list PollEvent) (b : IoBudget) : N () :=
  started_at ← nnow;
  exhausted ← poll_loop b started_at 0 0 events;
  late ← budgetExpired started_at (io_max_duration b);
  (if late : bool then mret () else processReadQueue b started_at);;
  if exhausted || late then ncount poll_budget_stops else mret ().

(** ** Writing *)

Inductive FlushEnd := FlushDrained | FlushBlocked | FlushExhausted | FlushBroken.

#[export] Instance FlushEnd_eq_dec : EqDecision FlushEnd.
Proof. solve_decision. Defined.

(** The inner loop of [flushWrites]: why it ended, and the bytes written. *)
Fixpoint send_loop (fuel : nat) (i : nat) (b : ByteTimeBudget) (started_at written : Z) : N (FlushEnd * Z) :=
  match fuel with
  | O => nfail NetOutOfFuel
  | Datatypes.S fuel' =>
      c ← connection i;
      if negb (hasPendingWrite c) then mret (FlushDrained, written)
      else if max_bytes b <=? written then mret (FlushExhausted, written)
      else
        late ← budgetExpired started_at (bytes_max_duration b);
        if late : bool then mret (FlushExhausted, written)
        else
          let pending := pendingWriteBytes c in
          let send_size := Z.min (max_bytes b - written) (zlen pending) in
          let chunk := take (Z.to_nat send_size) pending in
          sent ← kernel (k_send (cs_socket c) chunk);
          match sent with
          | SentBytes count =>
              match consumeWrittenBytes count c with
              | Throw _ => nfail ConsumeRange
              | Ret (finished, c1) =>
                  nlog (Sent (cs_generation c) (take count chunk));;
                  put_connection i c1;;
                  (if finished : bool then ncount sent_frames else mret ());;
                  send_loop fuel' i b started_at (written + Z.of_nat count)
              end
          | SendInterrupted => send_loop fuel' i b started_at written
          | SendAgain => mret (FlushBlocked, written)
          | SendError => mret (FlushBroken, written)
          end
  end.

Definition send_fuel (b : ByteTimeBudget) (written : Z) : nat :=
  Datatypes.S (Z.to_nat (max_bytes b - written) * Datatypes.S interruptions + interruptions).

(** What follows the inner loop. *)
Definition settle_write (h : ConnectionHandle) (why : FlushEnd) : N () :=
  if decide (why = FlushBroken) then forceClose h CloseIoError
  else
    found ← find_connection h;
    match found with
    | None => ncount stale_work_items
    | Some i =>
        c ← connection i;
        if negb (hasPendingWrite c) then
          if isClosing c then forceClose h (cs_close_reason c) else updateConnectionInterest i
        else
          match why with
          | FlushBlocked => ncount epollout_waits;; put_connection i (setWaitingEpollout true c);; updateConnectionInterest i
          | FlushExhausted => queued ← enqueueWrite i; if queued : bool then mret () else forceClose h CloseSlowConsumer
          | _ => mret ()
          end
    end.

Fixpoint flush_loop (fuel : nat) (b : ByteTimeBudget) (started_at written : Z) : N bool :=
  match fuel with
  | O => nfail NetOutOfFuel
  | Datatypes.S fuel' =>
      q ← nget nt_write_queue;
      if hr_empty q then mret false
      else if max_bytes b <=? written then mret true
      else
        late ← budgetExpired started_at (bytes_max_duration b);
        if late : bool then mret true
        else
          item ← pop_write;
          match item with
          | None => mret false
          | Some h =>
              found ← find_connection h;
              match found with
              | None => ncount stale_work_items;; flush_loop fuel' b started_at written
              | Some i =>
                  update_connection i (fun c => setWaitingEpollout false (setWriteQueued false c));;
                  r ← send_loop (send_fuel b written) i b started_at written;
                  settle_write h r.1;;
                  if decide (r.1 = FlushExhausted) then mret true else flush_loop fuel' b started_at r.2
              end
          end
  end.

Definition flushWrites (b : ByteTimeBudget) : N () :=
  started_at ← nnow;
  n ← nget id;
  exhausted ← flush_loop (Datatypes.S (Z.to_nat (hr_size (nt_write_queue n)))) b started_at 0;
  if exhausted : bool then ncount write_budget_stops else mret ().

(** ** Start and shutdown *)

(** [configureNetwork], for a poller that already serves other descriptors. *)
Definition configureNetwork (poller : Poller) (timers : TimerQueue (M := M)) (sink : S) (k : K) : outcome Net :=
  throw_if (negb (network_config_valid net_config)) InvalidArgument
  (let! connections := makeConnectionTable (net_table net_config) in
   let! registrations := makePollRegistrationTable (poll_registration_capacity net_config) in
   let! reads := makeHandleRing (mkConnectionHandle 0 0) (table_capacity (net_table net_config)) in
   let! writes := makeHandleRing (mkConnectionHandle 0 0) (table_capacity (net_table net_config)) in
   Ret (mkNet None None false false connections registrations reads writes
          (replicate (Z.to_nat (table_capacity (net_table net_config))) None) poller timers sink k [] [])).

(** [attachListener] answers false where the source throws for a listener it
    does not take. *)
Definition attachListener (fd : Z) : N bool :=
  n ← nget id;
  if (fd <? 0) || has_value (nt_listener n) || has_value (nt_listener_registration n) then mret false
  else
    g ← nget (fun n => reg_tryReserve fd PollListener None (nt_registrations n));
    match g with
    | Throw _ => nfail GenerationsExhausted
    | Ret (None, _) => mret false
    | Ret (Some j, t) =>
        nmodify (set_registrations t);;
        p ← nget (fun n => st_slots (nt_registrations n) !! j ≫= slot_entry);
        p ← nrequire NoRegistration p;
        epoll_add fd (pr_token p) (mkInterest true false);;
        nmodify (fun n => set_registrations (commit j (nt_registrations n)) n);;
        nmodify (set_listener (Some fd) (Some (registration_handle j p)));;
        mret true
    end.

(** The network steps of [beginShutdownPhaseA]: the listener goes, reading is
    switched off, the read queue is emptied. *)
Definition detach_listener : N () :=
  n ← nget id;
  match nt_listener_registration n with
  | None => mret ()
  | Some rh =>
      match nt_listener n with Some fd => epoll_remove fd | None => mret () end;;
      nmodify (fun n => set_registrations (reg_release rh (nt_registrations n)).2 n);;
      nmodify (set_listener None None)
  end.

(** A failing [Poller::modify] is caught. *)
Definition mute_connection (h : ConnectionHandle) : N () :=
  found ← find_connection h;
  match found with
  | None => mret ()
  | Some i =>
      c ← connection i;
      p ← nget (registrationFor h);
      match p with
      | None => mret ()
      | Some p =>
          ok ← kernel k_epoll;
          if ok : bool then
            nmodify (fun n => match poller_modify (cs_socket c) (pr_token p) (mkInterest false (cs_waiting_epollout c)) (nt_poller n) with
                              | Some q => set_poller q n | None => n end)
          else mret ()
      end
  end.

Fixpoint drain_reads (fuel : nat) : N () :=
  match fuel with
  | O => nfail NetOutOfFuel
  | Datatypes.S fuel' =>
      item ← pop_read;
      match item with
      | None => mret ()
      | Some h =>
          found ← find_connection h;
          match found with Some i => update_connection i (setReadQueued false) | None => mret () end;;
          drain_reads fuel'
      end
  end.

Definition stopNetwork : N () :=
  nmodify set_stopping;;
  detach_listener;;
  n ← nget id;
  each mute_connection (conn_handles (nt_connections n));;
  drain_reads (Datatypes.S (Z.to_nat (hr_size (nt_read_queue n)))).

(** The start of [runShutdownPhaseC]; the rounds that follow are calls of the
    methods above.  Phase D closes what is left. *)
Definition drainConnections (deadline : time_point) : N () :=
  n ← nget id;
  if st_active_count (nt_connections n) =? 0 then mret ()
  else
    nmodify set_stopping;;
    each (fun h => _ ← beginGracefulClose h CloseShutdown (Some deadline); mret ()) (conn_handles (nt_connections n)).

Definition closeConnections : N () :=
  n ← nget id;
  each (fun h => ncount forced_connection_closes;; forceClose h CloseTimeout) (conn_handles (nt_connections n)).
End network.
Arguments Net : clear implicits.
Arguments N : clear implicits.
