(* ===== verification/NetworkInv.v ===== *)
(** * Invariant of the network side

    The invariant of [Network.v]: every connection has one registration and the
    kernel was told exactly what it waits for; the flags of a connection say in
    which queue it is; bytes to send, complete frames and closing connections are
    never left with nobody to attend to them; the listener is paused only while
    the table is full; and the log is consistent with the buffers. *)

From S2P Require Import Prelude Connection Wire FrameCodec Session Identity TimerQueue HandleRing SlotTable ActorTable Actor WorkerConnection ConnectionTables Network.

Section invariant.
Context {M S K : Type} `{Setup : !NetSetup M} `{Heap : !HeapAlgorithms (entry_deadline (M := M))}.
Context `{Kernel : !NetKernel K} `{Sink : !RequestSink S}.

Abbreviation Net := (Net M S K).
Abbreviation N := (N M S K).
Abbreviation limits := (table_limits (net_table net_config)).
Abbreviation capacity := (table_capacity (net_table net_config)).
Implicit Types (n : Net) (c : ConnectionSlot) (p : PollRegistration) (h : ConnectionHandle) (l : list NetEvent) (i j : nat).

(** The configuration is valid and its sizes fit their types. *)
Record net_setup_ok : Prop := {
  ns_valid : network_config_valid net_config = true;
  ns_hard : write_hard_limit_bytes limits <= SIZE_MAX
}.

(** ** Program logic *)

Definition nhoare {B} (P : Net → Prop) (m : N B) (Q : B → Net → Prop) : Prop :=
  ∀ n, P n → match m n with NDone b n' => Q b n' | NFailed f => net_excused f = true end.

Lemma nhoare_ret {B} (P : Net → Prop) (b : B) (Q : B → Net → Prop) : (∀ n, P n → Q b n) → nhoare P (mret b) Q.
Proof. intros H n Hn. by apply H. Qed.

Lemma nhoare_bind {B C} P (m : N B) (k : B → N C) Q Q' : nhoare P m Q → (∀ b, nhoare (Q b) (k b) Q') → nhoare P (m ≫= k) Q'.
Proof. intros Hm Hk n Hn. specialize (Hm n Hn). unfold mbind, N_bind. destruct (m n) as [b n'|f]; [by apply Hk|done]. Qed.

Lemma nhoare_weaken {B} (P P' : Net → Prop) (m : N B) (Q Q' : B → Net → Prop) :
  nhoare P' m Q' → (∀ n, P n → P' n) → (∀ b n, Q' b n → Q b n) → nhoare P m Q.
Proof. intros Hm HP HQ n Hn. specialize (Hm n (HP n Hn)). destruct (m n); auto. Qed.

Lemma nhoare_read {B C} (P : Net → Prop) (f : Net → B) (k : B → N C) Q :
  (∀ b, nhoare (fun n => f n = b ∧ P n) (k b) Q) → nhoare P (nget f ≫= k) Q.
Proof. intros Hk n Hn. by apply (Hk (f n)). Qed.

Lemma nhoare_modify (P : Net → Prop) (f : Net → Net) (Q : () → Net → Prop) : (∀ n, P n → Q () (f n)) → nhoare P (nmodify f) Q.
Proof. intros H n Hn. by apply H. Qed.

Lemma nhoare_fail {B} P f (Q : B → Net → Prop) : net_excused f = true → nhoare P (nfail f : N B) Q.
Proof. by intros H n Hn. Qed.

Lemma bind_NDone {B C} (m : N B) (k : B → N C) n b n' : m n = NDone b n' → (m ≫= k) n = k b n'.
Proof. intros H. unfold mbind, N_bind. by rewrite H. Qed.

(** Running the primitive computations. *)
Lemma nget_bind {B C} (f : Net → B) (k : B → N C) n : (nget f ≫= k) n = k (f n) n.
Proof. done. Qed.
Lemma nmodify_bind {C} (f : Net → Net) (k : () → N C) n : (nmodify f ≫= k) n = k () (f n).
Proof. done. Qed.
Lemma nrequire_bind {B C} f (b : B) (k : B → N C) n : (nrequire f (Some b) ≫= k) n = k b n.
Proof. done. Qed.
Lemma nret_bind {B C} (b : B) (k : B → N C) n : (mret b ≫= k) n = k b n.
Proof. done. Qed.
Lemma ncount_bind {C} x (k : () → N C) n : (ncount x ≫= k) n = k () (set_metrics (x :: nt_metrics n) n).
Proof. done. Qed.
Lemma nlog_bind {C} e (k : () → N C) n : (nlog e ≫= k) n = k () (set_log (nt_log n ++ [e]) n).
Proof. done. Qed.
Lemma kernel_bind {B C} (f : K → B * K) (k : B → N C) n : (kernel f ≫= k) n = k (f (nt_kernel n)).1 (set_kernel (f (nt_kernel n)).2 n).
Proof. unfold mbind, N_bind, kernel. by destruct (f (nt_kernel n)). Qed.
Lemma nbind_assoc {B C D} (m : N B) (f : B → N C) (k : C → N D) n : ((m ≫= f) ≫= k) n = (m ≫= fun b => f b ≫= k) n.
Proof. unfold mbind, N_bind. by destruct (m n). Qed.

(** ** The log of one connection *)

Definition event_generation (e : NetEvent) : option Z :=
  match e with Received g _ | Posted g _ | Queued g _ | Sent g _ | Closed g _ => Some g | DbPolled _ => None end.

Definition history (g : Z) (l : list NetEvent) : list NetEvent := filter (fun e => event_generation e = Some g) l.

Definition received_of (l : list NetEvent) : bytes := l ≫= fun e => match e with Received _ bs => bs | _ => [] end.
Definition posted_of (l : list NetEvent) : list Frame := omap (fun e => match e with Posted _ f => Some f | _ => None end) l.
Definition queued_of (l : list NetEvent) : list Frame := omap (fun e => match e with Queued _ f => Some f | _ => None end) l.
Definition sent_of (l : list NetEvent) : bytes := l ≫= fun e => match e with Sent _ bs => bs | _ => [] end.
Definition closed_of (l : list NetEvent) : list Z := omap (fun e => match e with Closed g _ => Some g | _ => None end) l.

Definition received_by g l : bytes := received_of (history g l).
Definition posted_by g l : list Frame := posted_of (history g l).
Definition queued_by g l : list Frame := queued_of (history g l).
Definition sent_by g l : bytes := sent_of (history g l).

Definition wire (f : Frame) : bytes := match encode_frame f with Ret bs => bs | Throw _ => [] end.

Lemma history_snoc g l e : history g (l ++ [e]) = history g l ++ (if decide (event_generation e = Some g) then [e] else []).
Proof. unfold history. rewrite filter_app. by f_equal. Qed.

Lemma history_other g l e : event_generation e ≠ Some g → history g (l ++ [e]) = history g l.
Proof. intros H. rewrite history_snoc, decide_False by done. by rewrite app_nil_r. Qed.

Lemma history_same g l e : event_generation e = Some g → history g (l ++ [e]) = history g l ++ [e].
Proof. intros H. by rewrite history_snoc, decide_True. Qed.

(** What was sent and what waits are the frames queued, in order; the frames
    posted are those of the bytes read, and the rest of these is in the decoder
    of an open connection. *)
Record stream_ok (l : list NetEvent) (c : ConnectionSlot) : Prop := {
  sk_sent : sent_by (cs_generation c) l ++ unsent_bytes c = queued_by (cs_generation c) l ≫= wire;
  sk_posted : ∃ read lost, received_by (cs_generation c) l = read ++ unread (cs_decoder c) ++ lost ∧
    parse_stream read = (posted_by (cs_generation c) l, None, []) ∧ (isOpen c = true → lost = [])
}.

Record past_ok (l : list NetEvent) (g : Z) : Prop := {
  pk_sent : sent_by g l `prefix_of` (queued_by g l ≫= wire);
  pk_posted : ∃ read, read `prefix_of` received_by g l ∧ parse_stream read = (posted_by g l, None, [])
}.

Lemma stream_past l c : stream_ok l c → past_ok l (cs_generation c).
Proof.
  intros [H1 (read & lost & H2 & H3 & _)]. constructor.
  - rewrite <-H1. by eexists.
  - exists read. split; [|done]. rewrite H2. by eexists.
Qed.

Lemma past_ok_same l l' g : history g l' = history g l → past_ok l g → past_ok l' g.
Proof. intros E [H1 H2]. constructor; unfold sent_by, queued_by, received_by, posted_by in *; by rewrite E. Qed.

Lemma stream_ok_same l l' c c' :
  history (cs_generation c) l' = history (cs_generation c) l → cs_generation c' = cs_generation c → unsent_bytes c' = unsent_bytes c →
  unread (cs_decoder c') = unread (cs_decoder c) → cs_state c' = cs_state c → stream_ok l c → stream_ok l' c'.
Proof.
  intros E Eg E1 E2 E3 [H1 H2]. constructor; unfold sent_by, queued_by, received_by, posted_by, isOpen in *; by rewrite Eg, E, ?E1, ?E2, ?E3.
Qed.

(** ** One connection *)

Abbreviation close_entry c := (mkTimerEntry (M := M) (cs_close_deadline c) (ConnectionCloseDeadline (cs_handle c))).

(** Its registration, and what the kernel was told. *)
Definition registered n i c : Prop := ∃ j p reads,
  holds j p (nt_registrations n) ∧ nt_connection_registrations n !! i = Some (Some (registration_handle j p)) ∧
  pr_connection p = Some (cs_handle c) ∧ pr_descriptor p = cs_socket c ∧
  nt_poller n !! cs_socket c = Some (epoll_event (pr_token p) (mkInterest reads (cs_waiting_epollout c))) ∧
  (reads = true → isOpen c = true) ∧ (nt_stopping n = false → reads = isOpen c).

Record conn_core n i c : Prop := {
  cc_ok : connection_ok limits c;
  cc_read : cs_read_queued c = bool_decide (cs_handle c ∈ ring_items (nt_read_queue n));
  cc_write : cs_write_queued c = bool_decide (cs_handle c ∈ ring_items (nt_write_queue n));
  cc_registered : registered n i c;
  cc_stream : stream_ok (nt_log n) c
}.

(** Bytes to send are in the queue or wait for the kernel, not both; a closing
    connection has bytes to send and a deadline. *)
Record conn_work n c : Prop := {
  cw_waiting : cs_waiting_epollout c = true → cs_write_queued c = false ∧ unsent_bytes c ≠ [];
  cw_pending : unsent_bytes c ≠ [] → cs_write_queued c = true ∨ cs_waiting_epollout c = true;
  cw_closing : isClosing c = true → unsent_bytes c ≠ [] ∧ close_entry c ∈ tq_heap (nt_timers n)
}.

(** A complete frame in the decoder is in the read queue. *)
Definition conn_frames n c : Prop :=
  isOpen c = true → nt_stopping n = false → cs_read_queued c = true ∨ parse_frame (unread (cs_decoder c)) = NeedMore.

(** Two connections may be excused for the moment: the one being read, from
    [conn_frames], and the one being written or closed, from [conn_work]. *)
Record conn_good (reading writing : option ConnectionHandle) n i c : Prop := {
  cg_core : conn_core n i c;
  cg_work : writing ≠ Some (cs_handle c) → conn_work n c;
  cg_frames : reading ≠ Some (cs_handle c) → conn_frames n c
}.

(** ** The whole network *)

Definition listener_ok n : Prop :=
  match nt_listener n, nt_listener_registration n with
  | Some fd, Some rh => ∃ j p, holds j p (nt_registrations n) ∧ rh = registration_handle j p ∧ pr_connection p = None ∧
      pr_descriptor p = fd ∧ nt_poller n !! fd = Some (epoll_event (pr_token p) (mkInterest (negb (nt_listener_paused n)) false))
  | None, None => True
  | _, _ => False
  end.

(** A queue of handles given out, each at most once. *)
Record queue_ok n (q : HandleRing ConnectionHandle) : Prop := {
  qk_ring : ring_ok capacity q;
  qk_nodup : NoDup (ring_items q);
  qk_given : ∀ h, h ∈ ring_items q → 0 < handle_generation h <= st_last_generation (nt_connections n)
}.

(** Every connection so far is live or was reported closed, once, and then
    nothing more happens to it. *)
Record log_ok n : Prop := {
  lk_given : ∀ e g, e ∈ nt_log n → event_generation e = Some g → 0 < g <= st_last_generation (nt_connections n);
  lk_past : ∀ g, past_ok (nt_log n) g;
  lk_closed : ∀ g, g ∈ closed_of (nt_log n) ↔ 0 < g <= st_last_generation (nt_connections n) ∧ ¬ ∃ i c, holds i c (nt_connections n) ∧ cs_generation c = g;
  lk_once : NoDup (closed_of (nt_log n));
  lk_final : ∀ l1 g reason l2, nt_log n = l1 ++ Closed g reason :: l2 → history g l2 = []
}.

Record net_base (reading writing : option ConnectionHandle) n : Prop := {
  no_connections : connections_ok net_self (nt_connections n);
  no_registrations : registrations_ok (nt_registrations n);
  no_capacity : st_capacity (nt_connections n) = capacity;
  no_room : st_capacity (nt_registrations n) = poll_registration_capacity net_config;
  no_indexed : length (nt_connection_registrations n) = Z.to_nat capacity;
  no_good : ∀ i c, holds i c (nt_connections n) → conn_good reading writing n i c;
  no_vacant : ∀ i, (i < Z.to_nat capacity)%nat → (∀ c, ¬ holds i c (nt_connections n)) → nt_connection_registrations n !! i = Some None;
  no_owners : ∀ j p, holds j p (nt_registrations n) →
    match pr_connection p with
    | Some h => ∃ i c, holds i c (nt_connections n) ∧ cs_handle c = h ∧ nt_connection_registrations n !! i = Some (Some (registration_handle j p))
    | None => nt_listener_registration n = Some (registration_handle j p)
    end;
  no_listener : listener_ok n;
  no_count : st_active_count (nt_registrations n) = st_active_count (nt_connections n) + Z.b2z (has_value (nt_listener n));
  no_reads : queue_ok n (nt_read_queue n);
  no_writes : queue_ok n (nt_write_queue n);
  no_heap : is_heap entry_deadline (tq_heap (nt_timers n));
  no_log : log_ok n
}.

(** The listener is paused only while the table is full. *)
Record net_ok (reading writing : option ConnectionHandle) n : Prop := {
  no_base :> net_base reading writing n;
  no_paused : has_value (nt_listener n) = true → nt_listener_paused n = true → nt_stopping n = true ∨ hasCapacity (nt_connections n) = false
}.
End invariant.
