(* ===== verification/NetworkOps.v ===== *)
(** * Steps on one connection

    A method of [Network.v] works on one connection at a time.  [touched] says
    that a state differs from another only in that connection, its place in the
    queues, the kernel's entry for its socket, its log and added timers; it is
    closed under the primitive steps, and a touched state is good again as soon
    as the connection is. *)

From S2P Require Import Prelude Connection Wire FrameCodec Session Identity TimerQueue HandleRing SlotTable ActorTable Actor WorkerConnection ConnectionTables Network NetworkInv.

Create HintDb touch discriminated.

Section steps.
Context {M S K : Type} `{Setup : !NetSetup M} `{Heap : !HeapAlgorithms (entry_deadline (M := M))}.
Context `{Kernel : !NetKernel K} `{Sink : !RequestSink S}.

Abbreviation Net := (Net M S K).
Abbreviation N := (N M S K).
Abbreviation limits := (table_limits (net_table net_config)).
Abbreviation capacity := (table_capacity (net_table net_config)).
Implicit Types (n : Net) (c : ConnectionSlot) (p : PollRegistration) (h : ConnectionHandle) (l : list NetEvent) (i j : nat).
Implicit Types (r w : option ConnectionHandle).

(** ** Sockets are distinct *)

Lemma registration_unique n r w i j p p' :
  net_base r w n → holds i p (nt_registrations n) → holds j p' (nt_registrations n) → pr_token p = pr_token p' → i = j ∧ p = p'.
Proof.
  intros Hok Hi Hj E. destruct (rt_records _ (no_registrations _ _ _ Hok) _ _ Hi) as (H1 & _).
  destruct (rt_records _ (no_registrations _ _ _ Hok) _ _ Hj) as (H2 & _). rewrite E in H1. assert (i = j) as <- by lia.
  split; [done|]. by eapply holds_unique.
Qed.

Lemma poller_entry_unique n r w i j p p' fd reads writes reads' writes' :
  net_base r w n → holds i p (nt_registrations n) → holds j p' (nt_registrations n) →
  nt_poller n !! fd = Some (epoll_event (pr_token p) (mkInterest reads writes)) →
  nt_poller n !! fd = Some (epoll_event (pr_token p') (mkInterest reads' writes')) → p = p'.
Proof.
  intros Hok Hi Hj E1 E2. rewrite E1 in E2. apply (inj Some) in E2. apply epoll_event_inj in E2;
    [|by apply (rt_records _ (no_registrations _ _ _ Hok) _ _ Hi)|by apply (rt_records _ (no_registrations _ _ _ Hok) _ _ Hj)].
  by eapply registration_unique.
Qed.

Lemma sockets_distinct n r w i j c c' :
  net_base r w n → holds i c (nt_connections n) → holds j c' (nt_connections n) → i ≠ j → cs_socket c' ≠ cs_socket c.
Proof.
  intros Hok Hi Hj Hne E. destruct (cc_registered _ _ _ (cg_core _ _ _ _ _ (no_good _ _ _ Hok _ _ Hi))) as (k & p & reads & H1 & _ & H3 & _ & H5 & _).
  destruct (cc_registered _ _ _ (cg_core _ _ _ _ _ (no_good _ _ _ Hok _ _ Hj))) as (k' & p' & reads' & H1' & _ & H3' & _ & H5' & _).
  rewrite E in H5'. assert (p = p') as <- by (eapply poller_entry_unique; eauto). assert (E' : cs_handle c = cs_handle c') by congruence.
  destruct Hne. by apply (conn_handle_inj (no_connections _ _ _ Hok) i j c c').
Qed.

Lemma listener_distinct n r w i c fd :
  net_base r w n → holds i c (nt_connections n) → nt_listener n = Some fd → cs_socket c ≠ fd.
Proof.
  intros Hok Hi Hl E. destruct (cc_registered _ _ _ (cg_core _ _ _ _ _ (no_good _ _ _ Hok _ _ Hi))) as (k & p & reads & H1 & _ & H3 & _ & H5 & _).
  pose proof (no_listener _ _ _ Hok) as Hlis. unfold listener_ok in Hlis. rewrite Hl in Hlis.
  destruct (nt_listener_registration n) as [rh|]; [|done]. destruct Hlis as (j & p' & Hj & _ & Hn & _ & Hp).
  rewrite E in H5. assert (p = p') as <- by (eapply poller_entry_unique; eauto). congruence.
Qed.

(** ** Touching one connection *)

Record queue_change h (q q' : HandleRing ConnectionHandle) : Prop := {
  qc_ring : ring_ok capacity q';
  qc_nodup : NoDup (ring_items q');
  qc_same : ∀ x, x ≠ h → x ∈ ring_items q' ↔ x ∈ ring_items q
}.

Definition own_event (g : Z) (e : NetEvent) : Prop := event_generation e = Some g ∧ ∀ reason, e ≠ Closed g reason.

Record touched i c c' n n' : Prop := {
  tc_connections : nt_connections n' = write i c' (nt_connections n);
  tc_reference : cs_reference c' = cs_reference c;
  tc_socket : cs_socket c' = cs_socket c;
  tc_registrations : nt_registrations n' = nt_registrations n;
  tc_indexed : nt_connection_registrations n' = nt_connection_registrations n;
  tc_listener : nt_listener n' = nt_listener n;
  tc_listener_registration : nt_listener_registration n' = nt_listener_registration n;
  tc_paused : nt_listener_paused n' = nt_listener_paused n;
  tc_stopping : nt_stopping n' = nt_stopping n;
  tc_poller : ∀ fd, fd ≠ cs_socket c → nt_poller n' !! fd = nt_poller n !! fd;
  tc_listed : is_Some (nt_poller n' !! cs_socket c);
  tc_reads : queue_change (cs_handle c) (nt_read_queue n) (nt_read_queue n');
  tc_writes : queue_change (cs_handle c) (nt_write_queue n) (nt_write_queue n');
  tc_heap : is_heap entry_deadline (tq_heap (nt_timers n')) ∧ ∀ e, e ∈ tq_heap (nt_timers n) → e ∈ tq_heap (nt_timers n');
  tc_log : ∃ es, nt_log n' = nt_log n ++ es ∧ Forall (own_event (cs_generation c)) es
}.

Lemma write_same (t : ConnectionTable) i c : holds i c t → write i c t = t.
Proof.
  intros Hi. unfold write. rewrite Hi. destruct t as [l a b g]. unfold set_slots. cbn. f_equal. by apply list_insert_id.
Qed.

Lemma write_write (t : ConnectionTable) i c c1 c2 : holds i c t → write i c2 (write i c1 t) = write i c2 t.
Proof.
  intros Hi. pose proof (holds_lt _ _ _ Hi). unfold write at 2 3. rewrite Hi. unfold write. cbn.
  rewrite list_lookup_insert_eq by done. unfold set_slots. cbn. by rewrite list_insert_insert_eq.
Qed.

Lemma touched_refl r w n i c : net_base r w n → holds i c (nt_connections n) → touched i c c n n.
Proof.
  intros Hok Hi. constructor; try done.
  - by rewrite write_same.
  - destruct (cc_registered _ _ _ (cg_core _ _ _ _ _ (no_good _ _ _ Hok _ _ Hi))) as (? & ? & ? & _ & _ & _ & _ & -> & _). done.
  - destruct (no_reads _ _ _ Hok). by constructor.
  - destruct (no_writes _ _ _ Hok). by constructor.
  - split; [apply Hok|done].
  - exists []. by rewrite app_nil_r.
Qed.

Section touched.
Context {r w n i c} (Hok : net_base r w n) (Hi : holds i c (nt_connections n)).

Lemma touched_holds c1 n1 : touched i c c1 n n1 → holds i c1 (nt_connections n1).
Proof using Hi. intros Ht. rewrite (tc_connections _ _ _ _ _ Ht). rewrite holds_write by done. by left. Qed.

Lemma touched_handle c1 n1 : touched i c c1 n n1 → cs_handle c1 = cs_handle c.
Proof. intros Ht. unfold cs_handle. by rewrite (tc_reference _ _ _ _ _ Ht). Qed.

Lemma touched_generation c1 n1 : touched i c c1 n n1 → cs_generation c1 = cs_generation c.
Proof. intros Ht. unfold cs_generation. by rewrite (tc_reference _ _ _ _ _ Ht). Qed.

Lemma touched_connection c1 n1 : touched i c c1 n n1 → connection i n1 = NDone c1 n1.
Proof using Hi.
  intros Ht%touched_holds. unfold connection. rewrite (bind_NDone _ _ n1 (Some c1) n1); [done|]. unfold nget. by rewrite Ht.
Qed.

Lemma touched_find c1 n1 : touched i c c1 n n1 → conn_find (cs_handle c) (nt_connections n1) = Some i.
Proof using Hok Hi.
  intros Ht. rewrite (tc_connections _ _ _ _ _ Ht).
  apply (conn_find_holds (conn_write_ok (no_connections _ _ _ Hok) i c c1 Hi (tc_reference _ _ _ _ _ Ht))).
  exists c1. split; [apply holds_write with c; [done|by left]|by eapply touched_handle].
Qed.

(** The primitive steps. *)
Lemma touched_put c1 c2 n1 :
  touched i c c1 n n1 → cs_reference c2 = cs_reference c1 → cs_socket c2 = cs_socket c1 →
  touched i c c2 n (set_connections (write i c2 (nt_connections n1)) n1).
Proof using Hi.
  intros [H1 H2 H3] E1 E2. constructor; try done; cbn; try congruence.
  rewrite H1. by eapply write_write.
Qed.

Lemma touched_metric c1 n1 m : touched i c c1 n n1 → touched i c c1 n (set_metrics m n1).
Proof. by intros []. Qed.
Lemma touched_kernel c1 n1 k : touched i c c1 n n1 → touched i c c1 n (set_kernel k n1).
Proof. by intros []. Qed.

Lemma touched_log c1 n1 e : touched i c c1 n n1 → own_event (cs_generation c) e → touched i c c1 n (set_log (nt_log n1 ++ [e]) n1).
Proof.
  intros [] He. constructor; try done. cbn. destruct tc_log0 as (es & -> & Hes). exists (es ++ [e]). rewrite app_assoc. split; [done|].
  apply Forall_app. by split; [|constructor].
Qed.

Lemma touched_poller c1 n1 e : touched i c c1 n n1 → touched i c c1 n (set_poller (<[cs_socket c := e]> (nt_poller n1)) n1).
Proof.
  intros []. constructor; try done; cbn.
  - intros fd Hfd. rewrite lookup_insert_ne by done. by apply tc_poller0.
  - by rewrite lookup_insert_eq.
Qed.

Lemma touched_read_queue c1 n1 q :
  touched i c c1 n n1 → queue_change (cs_handle c) (nt_read_queue n1) q → touched i c c1 n (set_read_queue q n1).
Proof.
  intros [] [Q1 Q2 Q3]. constructor; try done. cbn. constructor; [done|done|]. intros x Hx. rewrite Q3 by done. by apply tc_reads0.
Qed.

Lemma touched_write_queue c1 n1 q :
  touched i c c1 n n1 → queue_change (cs_handle c) (nt_write_queue n1) q → touched i c c1 n (set_write_queue q n1).
Proof.
  intros [] [Q1 Q2 Q3]. constructor; try done. cbn. constructor; [done|done|]. intros x Hx. rewrite Q3 by done. by apply tc_writes0.
Qed.

Lemma touched_timers c1 n1 q :
  touched i c c1 n n1 → is_heap entry_deadline (tq_heap q) → (∀ e, e ∈ tq_heap (nt_timers n1) → e ∈ tq_heap q) →
  touched i c c1 n (set_timers q n1).
Proof.
  intros [] Hh Hq. constructor; try done. cbn. split; [done|]. intros e He. by apply Hq, tc_heap0.
Qed.
End touched.

(** ** A touched state is good again when the connection is *)

Lemma hist_own g g' es l : Forall (own_event g) es → g' ≠ g → history g' (l ++ es) = history g' l.
Proof.
  intros Hes Hne. unfold history. rewrite filter_app. rewrite <-(app_nil_r (filter _ l)) at 2. f_equal.
  induction Hes as [|e es [He _] Hes IH]; [done|]. rewrite filter_cons, decide_False by congruence. done.
Qed.

Lemma closed_own g es l : Forall (own_event g) es → closed_of (l ++ es) = closed_of l.
Proof.
  intros Hes. unfold closed_of. rewrite omap_app. rewrite <-(app_nil_r (omap _ l)) at 2. f_equal.
  induction Hes as [|e es [He Hc] Hes IH]; [done|]. simpl. destruct e; try done. cbn in He. injection He as ->. by destruct (Hc reason).
Qed.

Lemma write_counts (t : ConnectionTable) i c c' :
  holds i c t → st_capacity (write i c' t) = st_capacity t ∧ st_active_count (write i c' t) = st_active_count t ∧
  st_reserved_count (write i c' t) = st_reserved_count t ∧ st_last_generation (write i c' t) = st_last_generation t.
Proof. intros Hi. unfold write. rewrite Hi. unfold st_capacity, zlen. cbn. by rewrite length_insert. Qed.

Lemma history_app g l l' : history g (l ++ l') = history g l ++ history g l'.
Proof. apply filter_app. Qed.

(** Events of another connection do not reopen a closed one. *)
Lemma final_app (l es : list NetEvent) g :
  Forall (own_event g) es → g ∉ closed_of l →
  (∀ l1 g' reason l2, l = l1 ++ Closed g' reason :: l2 → history g' l2 = []) →
  ∀ l1 g' reason l2, l ++ es = l1 ++ Closed g' reason :: l2 → history g' l2 = [].
Proof.
  intros Hes Hg Hl l1 g' reason l2 E. apply app_eq_app in E as [k [[-> Ek]|[-> ->]]].
  - destruct k as [|e k].
    + cbn in Ek. subst es. apply Forall_cons in Hes as [[He Hc] _]. cbn in He. injection He as ->. by destruct (Hc reason).
    + cbn in Ek. injection Ek as <- ->. rewrite history_app, (Hl l1 g' reason k eq_refl). cbn.
      rewrite <-(app_nil_l es). apply (hist_own g); [done|]. intros ->. apply Hg. unfold closed_of. rewrite omap_app. cbn. set_solver.
  - apply Forall_app in Hes as [_ [[He Hc] _]%Forall_cons]. cbn in He. injection He as ->. by destruct (Hc reason).
Qed.

Lemma live_open n i c : log_ok n → holds i c (nt_connections n) → cs_generation c ∉ closed_of (nt_log n).
Proof. intros Hl Hi Hc. apply (lk_closed _ Hl) in Hc as [_ Hc]. apply Hc. eauto. Qed.

Section good_again.
Context {r w r' w' : option ConnectionHandle} {n n' : Net} {i : nat} {c c' : ConnectionSlot}.
Context (Hok : net_base r w n) (Hi : holds i c (nt_connections n)) (Ht : touched i c c' n n').

Lemma touched_same_holds j x : j ≠ i → holds j x (nt_connections n') ↔ holds j x (nt_connections n).
Proof using Hi Ht.
  intros Hne. rewrite (tc_connections _ _ _ _ _ Ht), holds_write by done. split; [intros [[-> _]|[_ H]]; done|auto].
Qed.

Lemma touched_live g :
  (∃ j x, holds j x (nt_connections n') ∧ cs_generation x = g) ↔ (∃ j x, holds j x (nt_connections n) ∧ cs_generation x = g).
Proof using Hi Ht.
  pose proof (touched_holds Hi _ _ Ht) as Hi'. pose proof (touched_generation _ _ Ht) as Hg.
  split; intros (j & x & Hj & Hx); (destruct (decide (j = i)) as [->|Hne]; [|exists j, x; split; [by apply (touched_same_holds j x Hne)|done]]).
  - rewrite (holds_unique _ _ _ _ Hj Hi') in Hx. exists i, c. split; [done|congruence].
  - rewrite (holds_unique _ _ _ _ Hj Hi) in Hx. exists i, c'. split; [done|congruence].
Qed.

Lemma conn_good_other j x :
  j ≠ i → holds j x (nt_connections n) → (r = Some (cs_handle x) → r' = Some (cs_handle x)) →
  (w = Some (cs_handle x) → w' = Some (cs_handle x)) → conn_good r' w' n' j x.
Proof using Hi Hok Ht.
  intros Hne Hj Hr Hw. destruct (no_good _ _ _ Hok _ _ Hj) as [[C1 C2 C3 C4 C5] Hwork Hframes].
  assert (Hh : cs_handle x ≠ cs_handle c).
  { intros E. apply Hne. by apply (conn_handle_inj (no_connections _ _ _ Hok) j i x c). }
  assert (Hg : cs_generation x ≠ cs_generation c).
  { intros E. apply Hne. by apply (holds_distinct cs_generation _ _ x c _ (ct_slots _ _ (no_connections _ _ _ Hok))). }
  pose proof (sockets_distinct _ _ _ _ _ _ _ Hok Hi Hj ltac:(done)) as Hs. destruct (tc_log _ _ _ _ _ Ht) as (es & El & Hes).
  constructor; [constructor|..].
  - done.
  - rewrite C2. apply bool_decide_ext. symmetry. by apply (tc_reads _ _ _ _ _ Ht).
  - rewrite C3. apply bool_decide_ext. symmetry. by apply (tc_writes _ _ _ _ _ Ht).
  - unfold registered. rewrite (tc_registrations _ _ _ _ _ Ht), (tc_indexed _ _ _ _ _ Ht), (tc_stopping _ _ _ _ _ Ht).
    by rewrite (tc_poller _ _ _ _ _ Ht) by done.
  - apply (stream_ok_same (nt_log n) _ x); try done. rewrite El. by eapply hist_own.
  - intros Hx. destruct Hwork as [W1 W2 W3]; [naive_solver|]. constructor; try done. intros Hcl. destruct (W3 Hcl) as [? ?].
    split; [done|]. by apply (tc_heap _ _ _ _ _ Ht).
  - intros Hx. unfold conn_frames. rewrite (tc_stopping _ _ _ _ _ Ht). apply Hframes. naive_solver.
Qed.

Lemma touched_queue_ok q q' : queue_ok n q → queue_change (cs_handle c) q q' → queue_ok n' q'.
Proof using Hi Hok Ht.
  intros [Q1 Q2 Q3] [R1 R2 R3]. destruct (write_counts _ i c c' Hi) as (_ & _ & _ & Hl). constructor; [done|done|].
  intros x Hx. rewrite (tc_connections _ _ _ _ _ Ht), Hl. destruct (decide (x = cs_handle c)) as [->|Hne].
  - apply (holds_generation cs_generation _ _ _ (ct_slots _ _ (no_connections _ _ _ Hok)) Hi).
  - by apply Q3, R3.
Qed.

Lemma touched_log_ok : stream_ok (nt_log n') c' → log_ok n'.
Proof using Hi Hok Ht.
  intros Hs. destruct (tc_log _ _ _ _ _ Ht) as (es & El & Hes). destruct (no_log _ _ _ Hok) as [L1 L2 L3 L4 L5].
  destruct (write_counts _ i c c' Hi) as (_ & _ & _ & Hl). pose proof (touched_generation _ _ Ht) as Hg.
  constructor.
  - intros e g He Hev. rewrite (tc_connections _ _ _ _ _ Ht), Hl. rewrite El in He. apply elem_of_app in He as [He|He]; [by eapply L1|].
    rewrite Forall_forall in Hes. destruct (Hes e He) as [He' _]. rewrite Hev in He'. injection He' as ->.
    apply (holds_generation cs_generation _ _ _ (ct_slots _ _ (no_connections _ _ _ Hok)) Hi).
  - intros g. destruct (decide (g = cs_generation c)) as [->|Hne]; [rewrite <-Hg; by apply stream_past|].
    apply (past_ok_same (nt_log n)); [|done]. rewrite El. by eapply hist_own.
  - intros g. rewrite El, (closed_own _ _ _ Hes), L3, (tc_connections _ _ _ _ _ Ht) at 1. rewrite Hl.
    by rewrite <-(touched_live g), (tc_connections _ _ _ _ _ Ht).
  - by rewrite El, (closed_own _ _ _ Hes).
  - rewrite El. apply (final_app _ _ (cs_generation c)); [done|by apply (live_open n i c); [apply Hok|]|done].
Qed.

Lemma net_base_touched :
  (∀ h, h ≠ cs_handle c → r = Some h → r' = Some h) → (∀ h, h ≠ cs_handle c → w = Some h → w' = Some h) →
  conn_good r' w' n' i c' → net_base r' w' n'.
Proof using Hi Hok Ht.
  intros Hr Hw Hgood. pose proof (touched_holds Hi _ _ Ht) as Hi'. pose proof (touched_handle _ _ Ht) as Hh.
  destruct (write_counts _ i c c' Hi) as (Hc1 & Hc2 & Hc3 & Hc4). rewrite <-(tc_connections _ _ _ _ _ Ht) in Hc1, Hc2, Hc3, Hc4.
  constructor.
  - rewrite (tc_connections _ _ _ _ _ Ht). eapply conn_write_ok; [apply Hok|done|apply Ht].
  - rewrite (tc_registrations _ _ _ _ _ Ht). apply Hok.
  - rewrite Hc1. apply Hok.
  - rewrite (tc_registrations _ _ _ _ _ Ht). apply Hok.
  - rewrite (tc_indexed _ _ _ _ _ Ht). apply Hok.
  - intros j x Hj. destruct (decide (j = i)) as [->|Hne]; [by rewrite (holds_unique _ _ _ _ Hj Hi')|].
    apply touched_same_holds in Hj; [|done]. assert (cs_handle x ≠ cs_handle c).
    { intros E. apply Hne. by apply (conn_handle_inj (no_connections _ _ _ Hok) j i x c). }
    apply conn_good_other; auto.
  - intros j Hj Hv. rewrite (tc_indexed _ _ _ _ _ Ht). apply (no_vacant _ _ _ Hok); [done|]. intros x Hx.
    destruct (decide (j = i)) as [->|Hne]; [by apply (Hv c')|]. apply (Hv x). by apply touched_same_holds.
  - intros j p Hj. rewrite (tc_registrations _ _ _ _ _ Ht) in Hj. pose proof (no_owners _ _ _ Hok _ _ Hj) as Ho.
    rewrite (tc_listener_registration _ _ _ _ _ Ht), (tc_indexed _ _ _ _ _ Ht). destruct (pr_connection p) as [h|]; [|done].
    destruct Ho as (k & x & Hk & Hx & Hreg). exists k. destruct (decide (k = i)) as [->|Hne].
    + exists c'. rewrite (holds_unique _ _ _ _ Hk Hi) in Hx. split_and!; [done|congruence|done].
    + exists x. split_and!; [by apply touched_same_holds|done|done].
  - pose proof (no_listener _ _ _ Hok) as Hl. unfold listener_ok in *. destruct (nt_listener n) as [fd|] eqn:El.
    + pose proof (listener_distinct _ _ _ _ _ _ Hok Hi El). rewrite (tc_listener _ _ _ _ _ Ht), El.
      rewrite (tc_listener_registration _ _ _ _ _ Ht), (tc_registrations _ _ _ _ _ Ht), (tc_paused _ _ _ _ _ Ht).
      by rewrite (tc_poller _ _ _ _ _ Ht) by done.
    + by rewrite (tc_listener _ _ _ _ _ Ht), El, (tc_listener_registration _ _ _ _ _ Ht).
  - rewrite (tc_registrations _ _ _ _ _ Ht), (tc_listener _ _ _ _ _ Ht), Hc2. apply Hok.
  - eapply touched_queue_ok; [apply (no_reads _ _ _ Hok)|apply Ht].
  - eapply touched_queue_ok; [apply (no_writes _ _ _ Hok)|apply Ht].
  - apply Ht.
  - apply touched_log_ok, Hgood.
Qed.
End good_again.

Lemma net_ok_touched r w r' w' n n' i c c' :
  net_ok r w n → holds i c (nt_connections n) → touched i c c' n n' →
  (∀ h, h ≠ cs_handle c → r = Some h → r' = Some h) → (∀ h, h ≠ cs_handle c → w = Some h → w' = Some h) →
  conn_good r' w' n' i c' → net_ok r' w' n'.
Proof.
  intros Hok Hi Ht Hr Hw Hg. constructor; [by apply (net_base_touched (no_base _ _ _ Hok) Hi Ht)|].
  destruct (write_counts _ i c c' Hi) as (Hc1 & Hc2 & Hc3 & _). rewrite <-(tc_connections _ _ _ _ _ Ht) in Hc1, Hc2, Hc3.
  rewrite (tc_listener _ _ _ _ _ Ht), (tc_paused _ _ _ _ _ Ht), (tc_stopping _ _ _ _ _ Ht). unfold hasCapacity. rewrite Hc1, Hc2, Hc3.
  apply Hok.
Qed.
End steps.
