(* ===== verification/NetworkClose.v ===== *)
(** * Closing connections and the listener

    Preservation of the invariant of [NetworkInv.v] by the methods that close a
    connection, pause and resume the listener, and move a connection between the
    queues. *)

From S2P Require Import Prelude Connection Wire FrameCodec Session Identity TimerQueue HandleRing SlotTable ActorTable Actor WorkerConnection ConnectionTables Network NetworkInv NetworkOps.

Section close.
Context {M S K : Type} `{Setup : !NetSetup M} `{Heap : !HeapAlgorithms (entry_deadline (M := M))}.
Context `{Kernel : !NetKernel K} `{Sink : !RequestSink S}.
Context (Hsetup : net_setup_ok).

Abbreviation Net := (Net M S K).
Abbreviation N := (N M S K).
Abbreviation limits := (table_limits (net_table net_config)).
Abbreviation capacity := (table_capacity (net_table net_config)).
Implicit Types (n : Net) (c : ConnectionSlot) (p : PollRegistration) (h : ConnectionHandle) (l : list NetEvent) (i j : nat).
Implicit Types (r w : option ConnectionHandle).

(** ** Fields the invariant does not look at *)

Lemma net_base_quiet r w n k m s : net_base r w n → net_base r w (set_kernel k (set_metrics m (set_sink s n))).
Proof.
  intros [B1 B2 B3 B4 B5 B6 B7 B8 B9 B10 B11 B12 B13 B14]. constructor; try done.
  - intros i c Hc. destruct (B6 i c Hc) as [[] Hw Hf]. constructor; [by constructor| |done].
    intros Hx. destruct (Hw Hx). by constructor.
  - by destruct B11.
  - by destruct B12.
  - by destruct B14.
Qed.

Lemma net_ok_quiet r w n k m s : net_ok r w n → net_ok r w (set_kernel k (set_metrics m (set_sink s n))).
Proof. intros [Hb Hp]. constructor; [by apply net_base_quiet|done]. Qed.

Lemma set_kernel_quiet k n : set_kernel k n = set_kernel k (set_metrics (nt_metrics n) (set_sink (nt_sink n) n)).
Proof. by destruct n. Qed.
Lemma set_metrics_quiet m n : set_metrics m n = set_kernel (nt_kernel n) (set_metrics m (set_sink (nt_sink n) n)).
Proof. by destruct n. Qed.
Lemma set_sink_quiet s n : set_sink s n = set_kernel (nt_kernel n) (set_metrics (nt_metrics n) (set_sink s n)).
Proof. by destruct n. Qed.

Lemma ncount_ok r w x : nhoare (net_ok r w) (ncount x) (fun _ (n : Net) => net_ok r w n).
Proof. intros n Hn. cbn. rewrite set_metrics_quiet. by apply net_ok_quiet. Qed.

Lemma kernel_ok {A} r w (f : K → A * K) : nhoare (net_ok r w) (kernel f) (fun _ (n : Net) => net_ok r w n).
Proof. intros n Hn. unfold kernel. destruct (f (nt_kernel n)) as [a k]. rewrite set_kernel_quiet. by apply net_ok_quiet. Qed.

Lemma budgetExpired_ok r w a b : nhoare (net_ok r w) (budgetExpired a b) (fun _ (n : Net) => net_ok r w n).
Proof. eapply nhoare_bind; [apply kernel_ok|]. intros t. by apply nhoare_ret. Qed.

(** The excused connections may be named differently, as long as nobody is
    excused any more than before. *)
Lemma net_ok_holes r w r' w' n :
  net_ok r w n → (∀ i c, holds i c (nt_connections n) → r = Some (cs_handle c) → r' = Some (cs_handle c)) →
  (∀ i c, holds i c (nt_connections n) → w = Some (cs_handle c) → w' = Some (cs_handle c)) → net_ok r' w' n.
Proof.
  intros [[B1 B2 B3 B4 B5 B6 B7 B8 B9 B10 B11 B12 B13 B14] Hp] Hr Hw. constructor; [|done]. constructor; try done.
  intros i c Hc. destruct (B6 i c Hc) as [C1 C2 C3]. constructor; [done| |].
  - intros Hx. apply C2. intros E. by apply Hx, (Hw i).
  - intros Hx. apply C3. intros E. by apply Hx, (Hr i).
Qed.

(** ** The listener *)

Lemma registrations_room r w n : net_base r w n → hasCapacity (nt_connections n) = true → hasCapacity (nt_registrations n) = true.
Proof using Hsetup.
  intros Hb. unfold hasCapacity. rewrite !Z.ltb_lt. rewrite (no_count _ _ _ Hb), (no_capacity _ _ _ Hb), (no_room _ _ _ Hb).
  rewrite (ct_settled _ _ (no_connections _ _ _ Hb)), (rt_settled _ (no_registrations _ _ _ Hb)).
  pose proof (ns_valid Hsetup) as Hv. unfold network_config_valid in Hv. repeat (apply andb_prop in Hv as [Hv ?]). to_prop.
  destruct (has_value (nt_listener n)); cbn; lia.
Qed.

(** The listener's interest changed along with [paused]. *)
Lemma net_base_listener r w n fd j p b :
  net_base r w n → nt_listener n = Some fd → holds j p (nt_registrations n) → nt_listener_registration n = Some (registration_handle j p) →
  net_base r w (set_paused b (set_poller (<[fd := epoll_event (pr_token p) (mkInterest (negb b) false)]> (nt_poller n)) n)).
Proof.
  intros Hb Hl Hj Hrh. pose proof Hb as [B1 B2 B3 B4 B5 B6 B7 B8 B9 B10 B11 B12 B13 B14]. constructor; try done.
  - intros i c Hc. pose proof (listener_distinct _ _ _ _ _ _ Hb Hc Hl) as Hne.
    destruct (B6 i c Hc) as [[C1 C2 C3 C4 C5] Hw Hf]. constructor; [constructor; try done| |done].
    + unfold registered in *. cbn. by rewrite lookup_insert_ne.
    + intros Hx. destruct (Hw Hx). by constructor.
  - unfold listener_ok in *. cbn. rewrite Hl, Hrh in *. destruct B9 as (j' & p' & Hj' & E & Hn & Hd & _).
    assert (j = j') as <- by (unfold registration_handle in E; injection E; lia). rewrite (holds_unique _ _ _ _ Hj' Hj) in *.
    exists j, p. by rewrite lookup_insert_eq.
  - by destruct B11.
  - by destruct B12.
  - by destruct B14.
Qed.

Lemma listener_interest_ok r w b n fd :
  net_base r w n → nt_listener n = Some fd →
  match listener_interest (negb b) fd n with
  | NDone _ n' => net_base r w (set_paused b n') ∧ nt_connections n' = nt_connections n ∧ nt_stopping n' = nt_stopping n
  | NFailed f => net_excused f = true
  end.
Proof.
  intros Hb Hl. pose proof (no_listener _ _ _ Hb) as Hlis. unfold listener_ok in Hlis. rewrite Hl in Hlis.
  destruct (nt_listener_registration n) as [rh|] eqn:Erh; [|done]. destruct Hlis as (j & p & Hj & -> & Hn & Hd & Hp).
  unfold listener_interest. rewrite nget_bind, Erh, nrequire_bind, nget_bind.
  rewrite (reg_lookup_holds (no_registrations _ _ _ Hb) _ _ Hj), nrequire_bind. unfold epoll_modify. rewrite kernel_bind.
  destruct (k_epoll (nt_kernel n)) as [[] k]; cbn [fst snd]; [|done]. rewrite nget_bind. unfold poller_modify. cbn [nt_poller set_kernel].
  rewrite Hp. cbn [has_value]. rewrite nrequire_bind. cbn [nmodify]. split; [|done].
  pose proof (net_base_listener r w n fd j p b Hb Hl Hj Erh) as Hb'.
  by apply (net_base_quiet _ _ _ k (nt_metrics n) (nt_sink n)) in Hb'.
Qed.

Lemma maybeResumeListener_ok r w : nhoare (fun n : Net => net_base r w n) maybeResumeListener (fun _ (n : Net) => net_ok r w n).
Proof using Hsetup.
  intros n Hb. unfold maybeResumeListener. rewrite nget_bind. cbn [id]. destruct (nt_listener n) as [fd|] eqn:El.
  2: { cbn. constructor; [done|]. by rewrite El. }
  destruct (negb (nt_listener_paused n) || nt_stopping n || negb (listener_capacity n)) eqn:E.
  - cbn. constructor; [done|]. intros _ Hp. rewrite Hp in E. cbn in E. destruct (nt_stopping n); [by left|right]. cbn in E.
    destruct (hasCapacity (nt_connections n)) eqn:Ec; [|done]. unfold listener_capacity in E.
    by rewrite Ec, (registrations_room _ _ _ Hb Ec) in E.
  - pose proof (listener_interest_ok r w false n fd Hb El) as Hl. unfold mbind at 1, N_bind at 1. cbn [negb] in Hl.
    destruct (listener_interest true fd n) as [[] n1|f]; [|done]. destruct Hl as (Hb1 & _). rewrite nmodify_bind. unfold ncount, nmodify. rewrite set_metrics_quiet.
    apply net_ok_quiet. constructor; [done|]. done.
Qed.

Lemma pauseListener_ok r w :
  nhoare (fun n : Net => net_ok r w n ∧ hasCapacity (nt_connections n) = false) pauseListener (fun _ (n : Net) => net_ok r w n).
Proof.
  intros n [[Hb Hp] Hc]. unfold pauseListener. rewrite nget_bind. cbn [id]. destruct (nt_listener n) as [fd|] eqn:El; [|cbn; constructor; [done|by rewrite El]].
  destruct (nt_listener_paused n) eqn:Epa; [cbn; constructor; [done|rewrite El, Epa; exact Hp]|].
  pose proof (listener_interest_ok r w true n fd Hb El) as Hl. unfold mbind at 1, N_bind at 1. cbn [negb] in Hl.
  destruct (listener_interest false fd n) as [[] n1|f]; [|done]. destruct Hl as (Hb1 & Ec & _). rewrite nmodify_bind. unfold ncount, nmodify. rewrite set_metrics_quiet.
  apply net_ok_quiet. constructor; [done|]. cbn. rewrite Ec. auto.
Qed.

(** ** A connection goes *)

Record departed i c reason n n' : Prop := {
  dp_connections : connections_ok net_self (nt_connections n');
  dp_holds : ∀ j x, holds j x (nt_connections n') ↔ j ≠ i ∧ holds j x (nt_connections n);
  dp_counts : st_active_count (nt_connections n') = st_active_count (nt_connections n) - 1 ∧
    st_capacity (nt_connections n') = st_capacity (nt_connections n) ∧
    st_last_generation (nt_connections n') = st_last_generation (nt_connections n);
  dp_registrations : ∃ k q, holds k q (nt_registrations n) ∧ nt_connection_registrations n !! i = Some (Some (registration_handle k q)) ∧
    pr_connection q = Some (cs_handle c) ∧ registrations_ok (nt_registrations n') ∧
    (∀ j x, holds j x (nt_registrations n') ↔ j ≠ k ∧ holds j x (nt_registrations n)) ∧
    st_active_count (nt_registrations n') = st_active_count (nt_registrations n) - 1 ∧
    st_capacity (nt_registrations n') = st_capacity (nt_registrations n);
  dp_indexed : nt_connection_registrations n' = <[i := None]> (nt_connection_registrations n);
  dp_poller : ∀ fd, fd ≠ cs_socket c → nt_poller n' !! fd = nt_poller n !! fd;
  dp_log : nt_log n' = nt_log n ++ [Closed (cs_generation c) reason];
  dp_listener : nt_listener n' = nt_listener n ∧ nt_listener_registration n' = nt_listener_registration n ∧
    nt_listener_paused n' = nt_listener_paused n;
  dp_rest : nt_stopping n' = nt_stopping n ∧ nt_read_queue n' = nt_read_queue n ∧ nt_write_queue n' = nt_write_queue n ∧
    nt_timers n' = nt_timers n
}.

(** The mark of the closing adds nothing to the streams. *)
Lemma closed_mark l g reason g' :
  received_by g' (l ++ [Closed g reason]) = received_by g' l ∧ posted_by g' (l ++ [Closed g reason]) = posted_by g' l ∧
  queued_by g' (l ++ [Closed g reason]) = queued_by g' l ∧ sent_by g' (l ++ [Closed g reason]) = sent_by g' l.
Proof.
  unfold received_by, posted_by, queued_by, sent_by, received_of, posted_of, queued_of, sent_of. rewrite history_snoc.
  destruct (decide _); rewrite ?bind_app, ?omap_app; cbn; by rewrite ?app_nil_r.
Qed.

Section departed.
Context {r w : option ConnectionHandle} {n n' : Net} {i : nat} {c : ConnectionSlot} {reason : CloseReason}.
Context (Hb : net_base r w n) (Hi : holds i c (nt_connections n)) (Hd : departed i c reason n n').

Lemma departed_good r' w' j x :
  j ≠ i → holds j x (nt_connections n) → (r = Some (cs_handle x) → r' = Some (cs_handle x)) →
  (w = Some (cs_handle x) → w' = Some (cs_handle x)) → conn_good r' w' n' j x.
Proof using Hb Hi Hd.
  clear Hsetup.
  intros Hne Hj Hr Hw. destruct Hd as [D1 D2 D3 (k & q & Hk & Hik & Hqc & D4 & D5 & _) D6 D7 D8 D9 (D10 & D11 & D12 & D13)].
  destruct (no_good _ _ _ Hb _ _ Hj) as [[C1 C2 C3 C4 C5] Hwork Hframes].
  assert (Hg : cs_generation x ≠ cs_generation c).
  { intros E. apply Hne. by apply (holds_distinct cs_generation _ _ x c _ (ct_slots _ _ (no_connections _ _ _ Hb))). }
  assert (Hh : cs_handle x ≠ cs_handle c).
  { intros E. apply Hne. by apply (conn_handle_inj (no_connections _ _ _ Hb) j i x c). }
  pose proof (sockets_distinct _ _ _ _ _ _ _ Hb Hi Hj ltac:(done)) as Hs.
  constructor; [constructor|..].
  - done.
  - by rewrite D11.
  - by rewrite D12.
  - destruct C4 as (k' & q' & reads & E1 & E2 & E3 & E4 & E5 & E6 & E7). exists k', q', reads.
    rewrite D6, D10, (D7 _ Hs), list_lookup_insert_ne by done. split_and!; try done. apply D5. split; [|done]. intros ->.
    assert (q' = q) as -> by (by eapply holds_unique). congruence.
  - apply (stream_ok_same (nt_log n) _ x); try done. rewrite D8. apply history_other. cbn. congruence.
  - intros Hx. destruct Hwork as [W1 W2 W3]; [naive_solver|]. constructor; try done. by rewrite D13.
  - intros Hx. unfold conn_frames. rewrite D10. apply Hframes. naive_solver.
Qed.

Lemma departed_log : log_ok n'.
Proof using Hb Hi Hd.
  clear Hsetup.
  destruct Hd as [D1 D2 (_ & _ & Hl) _ _ _ D8 _ _]. destruct (no_log _ _ _ Hb) as [L1 L2 L3 L4 L5].
  pose proof (live_open n i c (no_log _ _ _ Hb) Hi) as Hlive.
  pose proof (holds_generation cs_generation _ _ _ (ct_slots _ _ (no_connections _ _ _ Hb)) Hi) as Hgen.
  assert (Hcl : closed_of (nt_log n') = closed_of (nt_log n) ++ [cs_generation c]) by (rewrite D8; unfold closed_of; by rewrite omap_app).
  constructor.
  - intros e g He Hev. rewrite Hl. rewrite D8 in He. apply elem_of_app in He as [He|He%list_elem_of_singleton]; [by eapply L1|].
    subst e. cbn in Hev. by injection Hev as <-.
  - intros g. destruct (L2 g) as [P1 P2]. destruct (closed_mark (nt_log n) (cs_generation c) reason g) as (E1 & E2 & E3 & E4).
    rewrite D8. constructor; by rewrite ?E1, ?E2, ?E3, ?E4.
  - intros g. rewrite Hcl, elem_of_app, list_elem_of_singleton, L3, Hl. split.
    + intros [[Hg Hno]| ->]; (split; [done|]).
      * intros (j & x & [_ Hx]%D2 & E). apply Hno. eauto.
      * intros (j & x & [Hne Hx]%D2 & E). apply Hne.
        by apply (holds_distinct cs_generation _ _ x c _ (ct_slots _ _ (no_connections _ _ _ Hb))).
    + intros [Hg Hno]. destruct (decide (g = cs_generation c)) as [->|Hne]; [by right|left]. split; [done|].
      intros (j & x & Hx & E). apply Hno. exists j, x. split; [|done]. apply D2. split; [|done]. intros ->.
      by rewrite (holds_unique _ _ _ _ Hx Hi) in E.
  - rewrite Hcl. apply NoDup_app. split_and!; [done| |apply NoDup_singleton]. intros g Hg ->%list_elem_of_singleton. done.
  - intros l1 g r0 l2 E. rewrite D8 in E. apply app_eq_app in E as [k [[El Ek]|[El Ek]]].
    + destruct k as [|e k]; cbn in Ek; [by simplify_eq|]. injection Ek as <- ->.
      rewrite history_app, (L5 _ _ _ _ El). cbn. rewrite decide_False; [done|]. intros [= E']. apply Hlive. rewrite E', El.
      unfold closed_of. rewrite omap_app. cbn. set_solver.
    + destruct k as [|e k]; cbn in Ek; [by simplify_eq|]. injection Ek as _ Ek. by destruct k.
Qed.

Lemma departed_ok r' w' :
  (∀ h, h ≠ cs_handle c → r = Some h → r' = Some h) → (∀ h, h ≠ cs_handle c → w = Some h → w' = Some h) → net_base r' w' n'.
Proof using Hb Hi Hd.
  clear Hsetup.
  intros Hr Hw. pose proof Hd as [D1 D2 D3 (k & q & Hk & Hik & Hqc & D4 & D5 & D5a & D5c) D6 D7 D8 (D9 & D9a & D9b) (D10 & D11 & D12 & D13)].
  destruct D3 as (Da & Dc & Dl).
  assert (Hqueue : ∀ q0, queue_ok n q0 → queue_ok n' q0) by (intros q0 []; constructor; try done; by rewrite Dl).
  pose proof Hb as [B1 B2 B3 B4 B5 B6 B7 B8 B9 B10 B11 B12 B13 B14]. constructor; try done.
  - by rewrite Dc.
  - by rewrite D5c.
  - by rewrite D6, length_insert.
  - intros j x [Hne Hj]%D2. assert (cs_handle x ≠ cs_handle c).
    { intros E. apply Hne. by apply (conn_handle_inj (no_connections _ _ _ Hb) j i x c). }
    apply departed_good; auto.
  - intros j Hj Hv. rewrite D6. destruct (decide (j = i)) as [->|Hne].
    + apply list_lookup_insert_eq. by eapply lookup_lt_Some.
    + rewrite list_lookup_insert_ne by done. apply B7; [done|]. intros x Hx. by apply (Hv x), D2.
  - intros j p [Hne Hj]%D5. rewrite D9a, D6. pose proof (B8 _ _ Hj) as Ho. destruct (pr_connection p) as [h|]; [|done].
    destruct Ho as (i0 & c0 & Hi0 & Hc0 & Hreg). exists i0, c0. assert (i0 ≠ i).
    { intros ->. rewrite Hik in Hreg. unfold registration_handle in Hreg. injection Hreg. intros _ E. apply Hne. lia. }
    rewrite list_lookup_insert_ne by done. split_and!; try done. by apply D2.
  - unfold listener_ok in *. rewrite D9, D9a, D9b. destruct (nt_listener n) as [fd|] eqn:El; [|done].
    destruct (nt_listener_registration n) as [rh|]; [|done]. destruct B9 as (j & p & Hj & Erh & Hn & Hdesc & Hp).
    exists j, p. rewrite D7 by (pose proof (listener_distinct _ _ _ _ _ _ Hb Hi El); done). split_and!; try done.
    apply D5. split; [|done]. intros ->. rewrite (holds_unique _ _ _ _ Hj Hk) in Hn. congruence.
  - rewrite D9, D5a, Da, B10. lia.
  - rewrite D11. by apply Hqueue.
  - rewrite D12. by apply Hqueue.
  - by rewrite D13.
  - apply departed_log.
Qed.
End departed.

(** [forceClose] up to the listener. *)
Lemma forceClose_run r w n i c h reason :
  net_base r w n → holds i c (nt_connections n) → cs_handle c = h →
  ∃ n1, departed i c reason n n1 ∧ forceClose h reason n = maybeResumeListener n1.
Proof.
  intros Hb Hi <-. destruct (cc_registered _ _ _ (cg_core _ _ _ _ _ (no_good _ _ _ Hb _ _ Hi))) as (k & q & reads & Hk & Hik & Hqc & Hqd & _).
  destruct (ct_reference _ _ (no_connections _ _ _ Hb) _ _ Hi) as [Hid _].
  destruct (conn_release_ok (no_connections _ _ _ Hb) i c Hi) as (t' & Et & Hc' & Hh' & Ha' & Hcap' & Hl').
  destruct (reg_release_ok (no_registrations _ _ _ Hb) k q Hk) as (g' & Eg & Hg' & Hgh' & Hga' & Hgcap' & _).
  pose proof (proj2 (conn_find_holds (no_connections _ _ _ Hb) i (cs_handle c)) ltac:(eauto)) as Hfind.
  pose proof (lookup_lt_Some _ _ _ Hik) as Hlt.
  unfold forceClose, find_connection. rewrite nget_bind, Hfind.
  rewrite (bind_NDone _ _ _ _ _ (touched_connection Hi c n (touched_refl _ _ _ _ _ Hb Hi))).
  unfold releaseConnectionRegistration. rewrite nbind_assoc, nget_bind. cbn [id].
  change (handle_id (cs_handle c)) with (cref_id (cs_reference c)). rewrite Hid. unfold zlen.
  destruct (Z.leb_spec (Z.of_nat (length (nt_connection_registrations n))) (Z.of_nat i)); [lia|]. rewrite Nat2Z.id, Hik.
  rewrite (reg_lookup_holds (no_registrations _ _ _ Hb) _ _ Hk).
  unfold epoll_remove. rewrite nbind_assoc, nmodify_bind, nbind_assoc, !nmodify_bind, ncount_bind.
  set (n0 := set_metrics _ _).
  assert (Hgo : ∀ m, ∃ n1, departed i c reason n n1 ∧
    (nlog (Closed (cs_generation c) reason);;
     nmodify (fun n => set_sink (sink_onConnectionClosed (cs_reference c) reason (nt_sink n)) n);; maybeResumeListener) (set_metrics m n0)
    = maybeResumeListener n1).
  { intros m. rewrite nlog_bind, nmodify_bind. eexists. split; [|reflexivity]. constructor; cbn; rewrite ?Et, ?Eg; cbn; try done.
    - by exists k, q.
    - intros fd Hfd. rewrite Hqd. unfold poller_remove. by rewrite !lookup_delete_ne. }
  destruct (isOpen c).
  - rewrite ncount_bind. apply Hgo.
  - rewrite nret_bind. destruct (Hgo (nt_metrics n0)) as (n1 & Hn1 & E). exists n1. split; [done|]. rewrite <-E. by destruct n0.
Qed.

Lemma forceClose_ok r w r' w' h reason :
  (∀ h', h' ≠ h → r = Some h' → r' = Some h') → (∀ h', h' ≠ h → w = Some h' → w' = Some h') →
  nhoare (net_ok r w) (forceClose h reason) (fun _ (n : Net) => net_ok r' w' n).
Proof using Hsetup.
  intros Hr Hw n Hok. destruct (conn_find h (nt_connections n)) as [i|] eqn:Hf.
  - destruct (proj1 (conn_find_holds (no_connections _ _ _ Hok) i h) Hf) as (c & Hi & Hc).
    destruct (forceClose_run r w n i c h reason Hok Hi Hc) as (n1 & Hd & ->). rewrite <-Hc in Hr, Hw.
    apply maybeResumeListener_ok. by apply (departed_ok Hok Hi Hd).
  - unfold forceClose, find_connection. rewrite nget_bind, Hf. cbn.
    assert (Hno : ∀ i c, holds i c (nt_connections n) → cs_handle c ≠ h).
    { intros i c Hi <-. rewrite (proj2 (conn_find_holds (no_connections _ _ _ Hok) i (cs_handle c))) in Hf; [done|eauto]. }
    apply (net_ok_holes r w); [done|..]; intros i c Hi; auto.
    + apply Hr, (Hno i c Hi).
    + apply Hw, (Hno i c Hi).
Qed.
End close.
