(* ===== verification/NetworkSend.v ===== *)
(** * Sending and graceful closing

    Preservation of the invariant by [sendLocal], [beginGracefulClose] and the
    close deadline, on top of what moving a connection between queues and
    telling the kernel do to one connection. *)

From S2P Require Import Prelude Connection Wire FrameCodec Session Identity TimerQueue HandleRing SlotTable ActorTable Actor WorkerConnection ConnectionTables Network NetworkInv NetworkOps NetworkClose.

Section send.
Context {M S K : Type} `{Setup : !NetSetup M} `{Heap : !HeapAlgorithms (entry_deadline (M := M))}.
Context `{Kernel : !NetKernel K} `{Sink : !RequestSink S}.

Abbreviation Net := (Net M S K).
Abbreviation N := (N M S K).
Abbreviation limits := (table_limits (net_table net_config)).
Abbreviation capacity := (table_capacity (net_table net_config)).
Implicit Types (n : Net) (c : ConnectionSlot) (p : PollRegistration) (h : ConnectionHandle) (l : list NetEvent) (i j : nat).
Implicit Types (r w : option ConnectionHandle).

(** ** Parts of a connection's good state *)

Record conn_books n c : Prop := {
  cb_ok : connection_ok limits c;
  cb_read : cs_read_queued c = bool_decide (cs_handle c ∈ ring_items (nt_read_queue n));
  cb_write : cs_write_queued c = bool_decide (cs_handle c ∈ ring_items (nt_write_queue n));
  cb_stream : stream_ok (nt_log n) c
}.

Lemma core_books n i c : conn_core n i c ↔ conn_books n c ∧ registered n i c.
Proof. split; [intros []; split; [by constructor|done]|intros [[] ?]; by constructor]. Qed.

(** The queues, the log and the timers as they were. *)
Record same_books n n' : Prop := {
  sb_reads : nt_read_queue n' = nt_read_queue n;
  sb_writes : nt_write_queue n' = nt_write_queue n;
  sb_log : nt_log n' = nt_log n;
  sb_timers : nt_timers n' = nt_timers n
}.

Lemma books_same n n' c : same_books n n' → conn_books n c → conn_books n' c.
Proof. intros [E1 E2 E3 _] [B1 B2 B3 B4]. constructor; by rewrite ?E1, ?E2, ?E3. Qed.

(** A connection whose flags, socket and state stay keeps its registration. *)
Lemma registered_same n n' i c c' :
  registered n i c → nt_registrations n' = nt_registrations n → nt_connection_registrations n' = nt_connection_registrations n →
  nt_poller n' = nt_poller n → nt_stopping n' = nt_stopping n → cs_reference c' = cs_reference c → cs_socket c' = cs_socket c →
  cs_waiting_epollout c' = cs_waiting_epollout c → cs_state c' = cs_state c → registered n' i c'.
Proof.
  intros (j & p & reads & H) E1 E2 E3 E4 E5 E6 E7 E8. exists j, p, reads. unfold cs_handle, isOpen in *. by rewrite E1, E2, E3, E4, E5, E6, E7, E8.
Qed.

Lemma put_same n i c : holds i c (nt_connections n) → set_connections (write i c (nt_connections n)) n = n.
Proof. intros Hi. rewrite write_same by done. by destruct n. Qed.

Lemma queue_push h (q q' : HandleRing ConnectionHandle) :
  NoDup (ring_items q) → h ∉ ring_items q → ring_ok capacity q' → ring_items q' = ring_items q ++ [h] → queue_change h q q'.
Proof.
  intros Hn Hh Hr E. constructor; [done|..].
  - rewrite E. apply NoDup_app. split_and!; [done| |apply NoDup_singleton]. by intros x Hx ->%list_elem_of_singleton.
  - intros x Hx. rewrite E, elem_of_app, list_elem_of_singleton. naive_solver.
Qed.

Section one.
Context {r w : option ConnectionHandle} {n : Net} {i : nat} {c : ConnectionSlot}.
Context (Hb : net_base r w n) (Hi : holds i c (nt_connections n)).

Lemma connection_index : Z.to_nat (handle_id (cs_handle c)) = i ∧ (i < length (nt_connection_registrations n))%nat.
Proof using Hb Hi.
  destruct (ct_reference _ _ (no_connections _ _ _ Hb) _ _ Hi) as [Hid _]. cbn. rewrite Hid, Nat2Z.id. split; [done|].
  rewrite (no_indexed _ _ _ Hb). pose proof (holds_lt _ _ _ Hi). pose proof (no_capacity _ _ _ Hb) as Hc. unfold st_capacity, zlen in Hc. lia.
Qed.

Lemma registrationFor_touched c1 n1 :
  touched i c c1 n n1 → ∃ j p, registrationFor (cs_handle c) n1 = Some p ∧ holds j p (nt_registrations n1) ∧
    nt_connection_registrations n1 !! i = Some (Some (registration_handle j p)) ∧ pr_connection p = Some (cs_handle c) ∧
    pr_descriptor p = cs_socket c.
Proof using Hb Hi.
  intros Ht. destruct (cc_registered _ _ _ (cg_core _ _ _ _ _ (no_good _ _ _ Hb _ _ Hi))) as (j & p & reads & H1 & H2 & H3 & H4 & _).
  exists j, p. destruct connection_index as [Hx Hlt]. unfold registrationFor. rewrite (tc_registrations _ _ _ _ _ Ht), (tc_indexed _ _ _ _ _ Ht).
  assert (handle_id (cs_handle c) = Z.of_nat i) as Hz.
  { destruct (ct_reference _ _ (no_connections _ _ _ Hb) _ _ Hi) as [Hid _]. exact Hid. }
  unfold zlen. rewrite Hz. destruct (Z.leb_spec (Z.of_nat (length (nt_connection_registrations n))) (Z.of_nat i)); [lia|].
  rewrite Nat2Z.id, H2. cbn [mjoin option_join mbind option_bind]. rewrite (reg_lookup_holds (no_registrations _ _ _ Hb) _ _ H1).
  cbn [mbind option_bind]. by rewrite decide_True.
Qed.

(** The kernel is told what the connection waits for now. *)
Lemma updateConnectionInterest_run c1 n1 :
  touched i c c1 n n1 →
  match updateConnectionInterest i n1 with
  | NDone _ n2 => touched i c c1 n n2 ∧ registered n2 i c1 ∧ same_books n1 n2
  | NFailed f => net_excused f = true
  end.
Proof using Hb Hi.
  intros Ht. destruct (registrationFor_touched _ _ Ht) as (j & p & Hreg & Hj & Hix & Hpc & Hpd).
  pose proof (touched_handle _ _ Ht) as Hh. pose proof (tc_socket _ _ _ _ _ Ht) as Hs.
  unfold updateConnectionInterest. rewrite (bind_NDone _ _ _ _ _ (touched_connection Hi _ _ Ht)), nget_bind, Hh, Hreg, nrequire_bind.
  unfold epoll_modify. rewrite kernel_bind. destruct (k_epoll (nt_kernel n1)) as [[] k]; cbn [fst snd]; [|done].
  rewrite nget_bind. unfold poller_modify. cbn [nt_poller set_kernel]. rewrite Hs. destruct (tc_listed _ _ _ _ _ Ht) as [e He]. rewrite He.
  cbn [has_value]. rewrite nrequire_bind. cbn [nmodify]. split_and!; [|..].
  - by apply (touched_poller _ (set_kernel k n1)), touched_kernel.
  - exists j, p, (isOpen c1). cbn. rewrite Hs, lookup_insert_eq, Hh. by split_and!.
  - by constructor.
Qed.

(** Into the write queue, if there is room. *)
Lemma enqueueWrite_run c1 n1 :
  touched i c c1 n n1 → conn_core n1 i c1 →
  ∃ b n2, enqueueWrite i n1 = NDone b n2 ∧ (b = false → cs_write_queued c1 = false ∧ n2 = n1) ∧
    touched i c (if b then setWriteQueued true c1 else c1) n n2 ∧ conn_core n2 i (if b then setWriteQueued true c1 else c1) ∧
    nt_log n2 = nt_log n1 ∧ nt_timers n2 = nt_timers n1 ∧ nt_read_queue n2 = nt_read_queue n1.
Proof using Hb Hi.
  intros Ht Hc. pose proof (touched_handle _ _ Ht) as Hh. unfold enqueueWrite. rewrite (bind_NDone _ _ _ _ _ (touched_connection Hi _ _ Ht)).
  destruct (cs_write_queued c1) eqn:Eq.
  { exists true, n1. assert (setWriteQueued true c1 = c1) as -> by (destruct c1; cbn in *; by subst). done. }
  rewrite nget_bind, nmodify_bind. destruct (tc_writes _ _ _ _ _ Ht) as [Q1 Q2 Q3].
  pose proof (work_tryPush_ring capacity (cs_handle c1) _ Q1) as Hp.
  destruct (zlen (ring_items (nt_write_queue n1)) =? capacity).
  - rewrite Hp. cbn [fst snd]. exists false, n1. assert (set_write_queue (nt_write_queue n1) n1 = n1) as -> by (by destruct n1). done.
  - destruct Hp as (q' & -> & R1 & R2). cbn [fst snd]. eexists true, _. split; [unfold put_connection; rewrite nmodify_bind; reflexivity|].
    pose proof (cc_write _ _ _ Hc) as Hw. rewrite Eq in Hw. symmetry in Hw. apply bool_decide_eq_false in Hw. rewrite Hh in *.
    split; [done|]. split; [|split; [|done]].
    + apply touched_put with c1; [done| |done|done]. apply (touched_write_queue c1); [done|]. by eapply queue_push.
    + destruct Hc as [C1 C2 C3 C4 C5]. constructor; cbn.
      * by destruct C1.
      * done.
      * rewrite R2, bool_decide_eq_true_2; [done|]. unfold cs_handle in *. cbn. rewrite Hh. set_solver.
      * by apply (registered_same n1 _ i c1).
      * by apply (stream_ok_same (nt_log n1) _ c1).
Qed.

Lemma enqueueRead_run c1 n1 :
  touched i c c1 n n1 → conn_core n1 i c1 →
  ∃ b n2, enqueueRead i n1 = NDone b n2 ∧ (b = false → cs_read_queued c1 = false ∧ n2 = n1) ∧
    touched i c (if b then setReadQueued true c1 else c1) n n2 ∧ conn_core n2 i (if b then setReadQueued true c1 else c1) ∧
    nt_log n2 = nt_log n1 ∧ nt_timers n2 = nt_timers n1 ∧ nt_write_queue n2 = nt_write_queue n1 ∧
    (length (ring_items (nt_read_queue n2)) <= Datatypes.S (length (ring_items (nt_read_queue n1))))%nat.
Proof using Hb Hi.
  intros Ht Hc. pose proof (touched_handle _ _ Ht) as Hh. unfold enqueueRead. rewrite (bind_NDone _ _ _ _ _ (touched_connection Hi _ _ Ht)).
  destruct (cs_read_queued c1) eqn:Eq.
  { exists true, n1. assert (setReadQueued true c1 = c1) as -> by (destruct c1; cbn in *; by subst). split_and!; done || lia. }
  rewrite nget_bind, nmodify_bind. destruct (tc_reads _ _ _ _ _ Ht) as [Q1 Q2 Q3].
  pose proof (work_tryPush_ring capacity (cs_handle c1) _ Q1) as Hp.
  destruct (zlen (ring_items (nt_read_queue n1)) =? capacity).
  - rewrite Hp. cbn [fst snd]. exists false, n1. assert (set_read_queue (nt_read_queue n1) n1 = n1) as -> by (by destruct n1).
    split_and!; done || lia.
  - destruct Hp as (q' & -> & R1 & R2). cbn [fst snd]. eexists true, _. split; [unfold put_connection; rewrite nmodify_bind; reflexivity|].
    pose proof (cc_read _ _ _ Hc) as Hw. rewrite Eq in Hw. symmetry in Hw. apply bool_decide_eq_false in Hw. rewrite Hh in *.
    split; [done|]. split; [|split; [|split_and!; try done; cbn; rewrite R2, length_app; cbn; lia]].
    + apply touched_put with c1; [done| |done|done]. apply (touched_read_queue c1); [done|]. by eapply queue_push.
    + destruct Hc as [C1 C2 C3 C4 C5]. constructor; cbn.
      * by destruct C1.
      * rewrite R2, bool_decide_eq_true_2; [done|]. unfold cs_handle in *. cbn. rewrite Hh. set_solver.
      * done.
      * by apply (registered_same n1 _ i c1).
      * by apply (stream_ok_same (nt_log n1) _ c1).
Qed.
End one.

Context (Hsetup : net_setup_ok).

(** ** Sending *)

Lemma forceClose_then {B} r w r' w' h reason (b : B) n :
  net_ok r w n → (∀ h', h' ≠ h → r = Some h' → r' = Some h') → (∀ h', h' ≠ h → w = Some h' → w' = Some h') →
  match (forceClose h reason;; mret b) n with NDone _ n' => net_ok r' w' n' | NFailed f => net_excused f = true end.
Proof using Hsetup.
  intros Hok Hr Hw. pose proof (forceClose_ok Hsetup r w r' w' h reason Hr Hw n Hok) as Hc. unfold mbind, N_bind.
  by destruct (forceClose h reason n).
Qed.

Lemma found_connection r w n h i :
  net_ok r w n → conn_find h (nt_connections n) = Some i → ∃ c, holds i c (nt_connections n) ∧ cs_handle c = h.
Proof. intros Hok. apply (conn_find_holds (no_connections _ _ _ Hok)). Qed.

(** The frame goes to the end of what waits. *)
Lemma queued_stream l c b f bs :
  stream_ok l c → encode_frame f = Ret bs → pending b = unsent_bytes c ++ bs →
  stream_ok (l ++ [Queued (cs_generation c) f]) (set_write_buffer b c).
Proof.
  intros [H1 H2] He Hp. assert (Hw : wire f = bs) by (unfold wire; by rewrite He).
  assert (Hh : history (cs_generation c) (l ++ [Queued (cs_generation c) f]) = history (cs_generation c) l ++ [Queued (cs_generation c) f])
    by (by apply history_same).
  constructor; unfold sent_by, queued_by, received_by, posted_by in *; cbn [cs_generation cs_reference set_write_buffer].
  - change (cs_generation (set_write_buffer b c)) with (cs_generation c). rewrite Hh. unfold sent_of, queued_of in *.
    rewrite bind_app, omap_app, bind_app. cbn. rewrite !app_nil_r, Hw, <-H1, <-app_assoc. f_equal. exact Hp.
  - change (cs_generation (set_write_buffer b c)) with (cs_generation c). rewrite Hh. unfold received_of, posted_of in *.
    rewrite bind_app, omap_app. cbn. by rewrite !app_nil_r.
Qed.

Lemma write_buffer_ok c b :
  connection_ok limits c → buffer_ok b → same_limits (cs_write_buffer c) b → connection_ok limits (set_write_buffer b c).
Proof. intros [] Hb [_ E]. constructor; try done. cbn. congruence. Qed.

(** The state after an accepted frame, before the connection is queued. *)
Lemma accepted_run r w n i c f critical b :
  net_ok r w n → holds i c (nt_connections n) → isClosing c = false → write_append f critical (cs_write_buffer c) = (SendAccepted, b) →
  let c1 := set_write_buffer b c in
  let n1 := set_log (nt_log n ++ [Queued (cs_generation c) f]) (set_connections (write i c1 (nt_connections n)) n) in
  touched i c c1 n n1 ∧ conn_core n1 i c1 ∧ unsent_bytes c1 ≠ [].
Proof.
  intros Hok Hi Hcl Hap. pose proof (cg_core _ _ _ _ _ (no_good _ _ _ Hok _ _ Hi)) as [C1 C2 C3 C4 C5].
  pose proof (write_append_spec f critical _ (co_buffer _ _ C1)) as Hs. rewrite Hap in Hs. destruct Hs as (bs & He & Hb & Hl & Hp & Hne).
  cbn zeta. split_and!.
  - apply (touched_log _ (set_connections _ n)); [|done]. apply touched_put with c; [done|exact (touched_refl _ _ _ _ _ Hok Hi)|done|done].
  - constructor; cbn; try done.
    + by apply write_buffer_ok.
    + by apply queued_stream with bs.
  - change (unsent_bytes (set_write_buffer b c)) with (pending b). rewrite Hp. by intros [_ ?]%app_eq_nil.
Qed.

Lemma net_sendLocal_ok r ref f critical : nhoare (net_ok r None) (sendLocal ref f critical) (fun _ (n : Net) => net_ok r None n).
Proof using Hsetup.
  intros n Hok. unfold sendLocal, find_connection. set (h := mkConnectionHandle _ _). rewrite nget_bind.
  destruct (conn_find h (nt_connections n)) as [i|] eqn:Hf; [|done]. destruct (found_connection _ _ _ _ _ Hok Hf) as (c & Hi & Hh).
  rewrite (bind_NDone _ _ _ _ _ (touched_connection Hi c n (touched_refl _ _ _ _ _ Hok Hi))).
  destruct (negb _); [done|]. unfold appendFrame. pose proof (no_good _ _ _ Hok _ _ Hi) as [Hcore Hwork Hframes].
  destruct (isClosing c) eqn:Hcl. { unfold put_connection. rewrite nmodify_bind, put_same by done. done. }
  pose proof (write_append_spec f critical _ (co_buffer _ _ (cc_ok _ _ _ Hcore))) as Hs.
  destruct (write_append f critical (cs_write_buffer c)) as [result b] eqn:Hap. unfold put_connection. rewrite nmodify_bind.
  assert (Hsame : b = cs_write_buffer c → set_connections (write i (set_write_buffer b c) (nt_connections n)) n = n).
  { intros ->. assert (set_write_buffer (cs_write_buffer c) c = c) as -> by (by destruct c). by apply put_same. }
  destruct result; try done.
  - destruct (accepted_run _ _ _ _ _ _ _ _ Hok Hi Hcl Hap) as (Ht & Hc1 & Hne). rewrite nlog_bind. cbn [nt_log set_connections].
    set (c1 := set_write_buffer b c) in *. set (n1 := set_log _ _) in *.
    assert (Hgood : ∀ n2 c2 w2, touched i c c2 n n2 → conn_core n2 i c2 → cs_state c2 = cs_state c1 → cs_decoder c2 = cs_decoder c1 →
      cs_read_queued c2 = cs_read_queued c1 → (w2 ≠ Some h → conn_work n2 c2) → net_ok r w2 n2).
    { intros n2 c2 w2 Ht2 Hc2 E1 E2 E3 Hw2. apply (net_ok_touched r None r w2 n n2 i c c2 Hok Hi Ht2); [done|done|].
      pose proof (touched_handle _ _ Ht2) as E. constructor; [done| |].
      - rewrite E, Hh. done.
      - rewrite E. intros Hx. unfold conn_frames, isOpen in *. rewrite E1, E2, E3, (tc_stopping _ _ _ _ _ Ht2). by apply Hframes. }
    assert (Hnc : isClosing c1 = false) by done.
    destruct (negb (cs_write_queued c1) && negb (cs_waiting_epollout c1)) eqn:Eq.
    + destruct (enqueueWrite_run Hok Hi c1 n1 Ht Hc1) as (bq & n2 & Hrun & Hfull & Ht2 & Hc2 & _).
      rewrite (bind_NDone _ _ _ _ _ Hrun). destruct bq.
      * cbn. apply (Hgood n2 (setWriteQueued true c1)); try done. intros _. apply andb_prop in Eq as [_ Eq%negb_true_iff].
        constructor; [|by left|]; intros Hx; [change (cs_waiting_epollout c1 = true) in Hx; congruence|].
        change (isClosing c1 = true) in Hx. congruence.
      * destruct (Hfull eq_refl) as [_ ->]. apply (forceClose_then r (Some h)); [by apply (Hgood n1 c1)|done|]. by intros h' Hne' [= ->].
    + rewrite nret_bind. cbn. apply (Hgood n1 c1); try done. intros _.
      destruct (Hwork ltac:(done)) as [W1 W2 W3]. apply andb_false_iff in Eq. rewrite !negb_false_iff in Eq.
      constructor; [|done|by rewrite Hnc]. intros Hx. destruct (W1 Hx). done.
  - destruct Hs as [-> _]. rewrite Hsame by done. rewrite ncount_bind, set_metrics_quiet.
    exact (net_ok_quiet _ _ _ _ _ _ Hok).
  - destruct Hs as [-> _]. rewrite Hsame by done. rewrite ncount_bind.
    apply (forceClose_then r None); [|done..]. rewrite set_metrics_quiet. by apply net_ok_quiet.
  - destruct Hs as [-> _]. by rewrite Hsame.
Qed.

(** ** Graceful closing *)

Lemma schedule_close_run d h n :
  is_heap entry_deadline (tq_heap (nt_timers n)) →
  ∃ b q, schedule_close d h n = NDone b (set_timers q n) ∧ is_heap entry_deadline (tq_heap q) ∧
    (∀ e, e ∈ tq_heap (nt_timers n) → e ∈ tq_heap q) ∧ (b = true → mkTimerEntry d (ConnectionCloseDeadline h) ∈ tq_heap q).
Proof.
  intros Hh. unfold schedule_close. rewrite nget_bind, nmodify_bind. unfold trySchedule. cbn [payload_charge].
  destruct (hasEntryCapacity (nt_timers n)); cbn [negb fst snd]; eexists _, _; (split; [reflexivity|]); [|done].
  destruct (push_heap_spec entry_deadline _ (mkTimerEntry d (ConnectionCloseDeadline h)) Hh) as [Hp Hk]. unfold push_entry, set_heap. cbn.
  split_and!; [done| |]; intros; rewrite Hp, elem_of_app; [by left|right; by apply list_elem_of_singleton].
Qed.

(** The decoder of a closing connection is empty: what it held is lost. *)
Lemma closing_books n c d reason : conn_books n c → conn_books n (beginClosing d reason c).
Proof.
  intros [B1 B2 B3 [H1 (read & lost & H2 & H3 & _)]]. constructor; [|done|done|].
  - destruct B1. constructor; try done; [by apply reset_decoder_ok|]. cbn. unfold bufferedBytes in *. cbn. lia.
  - constructor; [done|]. exists read, (unread (cs_decoder c) ++ lost). cbn.
    change (unread (reset (cs_decoder c))) with (@nil Z). by split_and!.
Qed.

Lemma beginGracefulClose_ok r h reason max_deadline :
  nhoare (net_ok r None) (beginGracefulClose h reason max_deadline) (fun _ (n : Net) => net_ok r None n).
Proof using Hsetup.
  intros n Hok. unfold beginGracefulClose, find_connection. rewrite nget_bind.
  destruct (conn_find h (nt_connections n)) as [i|] eqn:Hf; [|done]. destruct (found_connection _ _ _ _ _ Hok Hf) as (c & Hi & Hh).
  rewrite (bind_NDone _ _ _ _ _ (touched_connection Hi c n (touched_refl _ _ _ _ _ Hok Hi))).
  destruct (isClosing c) eqn:Hcl; [done|]. unfold nnow. rewrite kernel_bind. rewrite set_kernel_quiet.
  pose proof (net_ok_quiet _ _ _ (k_now (nt_kernel n)).2 (nt_metrics n) (nt_sink n) Hok) as Hok0.
  set (n0 := set_kernel _ _) in *. assert (Hi0 : holds i c (nt_connections n0)) by done. 
  set (d := match max_deadline with Some _ => _ | None => _ end). clearbody d n0. clear Hok Hi Hf n.
  unfold put_connection. rewrite nmodify_bind, ncount_bind. set (c1 := beginClosing d reason c). set (n1 := set_metrics _ _).
  assert (Ht : touched i c c1 n0 n1).
  { apply touched_metric. apply touched_put with c; [done|exact (touched_refl _ _ _ _ _ Hok0 Hi0)|done|done]. }
  pose proof (no_good _ _ _ Hok0 _ _ Hi0) as [Hcore Hwork Hframes]. apply core_books in Hcore as [Hbooks _].
  apply (closing_books _ _ d reason) in Hbooks. fold c1 in Hbooks.
  pose proof (updateConnectionInterest_run Hok0 Hi0 c1 n1 Ht) as Hint. unfold mbind at 1, N_bind at 1.
  destruct (updateConnectionInterest i n1) as [[] n2|f]; [|done]. destruct Hint as (Ht2 & Hreg2 & Hsame).
  assert (Hc2 : conn_core n2 i c1) by (apply core_books; split; [apply (books_same n1); [done|by destruct Hbooks]|done]).
  (* once excused from its work, the connection can be closed at any point *)
  assert (Hhole : ∀ n3 c3 w3, touched i c c3 n0 n3 → conn_core n3 i c3 → cs_state c3 = ConnectionClosing → (w3 ≠ Some h → conn_work n3 c3) → net_ok r w3 n3).
  { intros n3 c3 w3 Ht3 Hc3 Es Hw3. apply (net_ok_touched r None r w3 n0 n3 i c c3 Hok0 Hi0 Ht3); [done|done|].
    constructor; [done|by rewrite (touched_handle _ _ Ht3), Hh|]. intros _ Ho. unfold isOpen in Ho. by rewrite Es in Ho. }
  assert (Hclose : ∀ n3 c3 x why, touched i c c3 n0 n3 → conn_core n3 i c3 → cs_state c3 = ConnectionClosing →
    match (forceClose h why;; mret (x : bool)) n3 with NDone _ n' => net_ok r None n' | NFailed f => net_excused f = true end).
  { intros n3 c3 x why Ht3 Hc3 Es. apply (forceClose_then r (Some h)); [by apply (Hhole n3 c3)|done|]. by intros h' Hne' [= ->]. }
  rewrite (bind_NDone _ _ _ _ _ (touched_connection Hi0 _ _ Ht2)). rewrite (hasPendingWrite_spec limits c1) by apply Hc2.
  case_bool_decide as Hpend; cbn [negb]; [|by apply (Hclose n2 c1)].
  assert (Hqueued : ∃ b n3, (if negb (cs_write_queued c1) && negb (cs_waiting_epollout c1) then enqueueWrite i else mret true) n2 = NDone b n3 ∧
    ∃ c3, touched i c c3 n0 n3 ∧ conn_core n3 i c3 ∧ cs_state c3 = ConnectionClosing ∧ cs_close_deadline c3 = d ∧
      unsent_bytes c3 = unsent_bytes c1 ∧ cs_waiting_epollout c3 = cs_waiting_epollout c1 ∧
      (b = true → (cs_write_queued c3 = true ∨ cs_waiting_epollout c3 = true) ∧ (cs_waiting_epollout c3 = true → cs_write_queued c3 = false))).
  { destruct (negb (cs_write_queued c1) && negb (cs_waiting_epollout c1)) eqn:Eq.
    - destruct (enqueueWrite_run Hok0 Hi0 c1 n2 Ht2 Hc2) as (b & n3 & Hrun & _ & Ht3 & Hc3 & _). exists b, n3. split; [done|].
      exists (if b then setWriteQueued true c1 else c1). apply andb_prop in Eq as [_ Eq%negb_true_iff].
      destruct b; split_and!; try done; intros _; split; [by left|]. cbn. intros Hx. change (cs_waiting_epollout c1 = true) in Hx. congruence.
    - exists true, n2. split; [done|]. exists c1. split_and!; try done. intros _. apply andb_false_iff in Eq. rewrite !negb_false_iff in Eq.
      split; [done|]. apply (cw_waiting _ _ (Hwork ltac:(done))). }
  destruct Hqueued as (b & n3 & Hrun & c3 & Ht3 & Hc3 & Es3 & Ed3 & Eu3 & _ & Hq3). rewrite (bind_NDone _ _ _ _ _ Hrun).
  destruct b; cbn [negb]; [|by apply (Hclose n3 c3)]. destruct (Hq3 eq_refl) as [Hq3a Hq3b]. rewrite <-Eu3 in Hpend.
  destruct (schedule_close_run d h n3 (proj1 (tc_heap _ _ _ _ _ Ht3))) as (b & q & Hs & Hq1 & Hq2 & Hq4). rewrite (bind_NDone _ _ _ _ _ Hs).
  assert (Ht4 : touched i c c3 n0 (set_timers q n3)) by (by apply touched_timers).
  assert (Hc4 : conn_core (set_timers q n3) i c3) by (by destruct Hc3).
  destruct b; [|by apply (Hclose (set_timers q n3) c3)]. cbn. apply (Hhole (set_timers q n3) c3); try done. intros _.
  constructor; [by intros ?; split; [auto|]|by intros _|]. intros _. split; [done|]. cbn.
  rewrite Ed3, (touched_handle _ _ Ht3), Hh. by apply Hq4.
Qed.
End send.
