(* ===== verification/NetworkRead.v ===== *)
(** * Reading

    [readConnection] and the read queue: the loops end within the bounds given
    to them, keep the invariant, and leave no complete frame behind. *)

From S2P Require Import Prelude Connection Wire FrameCodec Session Identity TimerQueue HandleRing SlotTable ActorTable Actor WorkerConnection ConnectionTables Network NetworkInv NetworkOps NetworkClose NetworkSend.

(** ** What a computation leaves alone *)

Section frame.
Context {M S K : Type} `{Setup : !NetSetup M} `{Heap : !HeapAlgorithms (entry_deadline (M := M))}.
Context `{Kernel : !NetKernel K} `{Sink : !RequestSink S}.
Abbreviation Net := (Net M S K).
Abbreviation N := (N M S K).

Definition keeps {X B} (F : Net → X) (m : N B) : Prop := ∀ n, match m n with NDone _ n' => F n' = F n | NFailed _ => True end.

Section keeps.
Context {X : Type} (F : Net → X).

Lemma keeps_ret {B} (b : B) : keeps F (mret b).
Proof. by intros n. Qed.
Lemma keeps_bind {B C} (m : N B) (k : B → N C) : keeps F m → (∀ b, keeps F (k b)) → keeps F (m ≫= k).
Proof.
  intros Hm Hk n. specialize (Hm n). unfold mbind, N_bind. destruct (m n) as [b n'|]; [|done]. specialize (Hk b n').
  destruct (k b n'); [congruence|done].
Qed.
Lemma keeps_get {B} (f : Net → B) : keeps F (nget f).
Proof. by intros n. Qed.
Lemma keeps_modify (f : Net → Net) : (∀ n, F (f n) = F n) → keeps F (nmodify f).
Proof. intros H n. apply H. Qed.
Lemma keeps_fail {B} f : keeps F (nfail f : N B).
Proof. by intros n. Qed.
Lemma keeps_require {B} f (o : option B) : keeps F (nrequire f o).
Proof. by destruct o; intros n. Qed.
Lemma keeps_each {A} (k : A → N ()) (l : list A) : (∀ a, keeps F (k a)) → keeps F (each k l).
Proof. intros Hk. induction l as [|a l IH]; [apply keeps_ret|]. apply keeps_bind; auto. Qed.
Lemma keeps_kernel {B} (f : K → B * K) : (∀ k n, F (set_kernel k n) = F n) → keeps F (kernel f).
Proof. intros H n. unfold kernel. destruct (f (nt_kernel n)). apply H. Qed.
End keeps.
End frame.

Ltac keeping :=
  repeat first
    [ progress intros | assumption | apply keeps_ret | apply keeps_get | apply keeps_fail | apply keeps_require
    | apply keeps_modify; by intros [] | apply keeps_kernel; by intros ? [] | apply keeps_bind | apply keeps_each | case_match ].

Section read.
Context {M S K : Type} `{Setup : !NetSetup M} `{Heap : !HeapAlgorithms (entry_deadline (M := M))}.
Context `{Kernel : !NetKernel K} `{Sink : !RequestSink S}.

Abbreviation Net := (Net M S K).
Abbreviation N := (N M S K).
Abbreviation limits := (table_limits (net_table net_config)).
Abbreviation reads := (nt_read_queue (M := M) (S := S) (K := K)).
Abbreviation writes := (nt_write_queue (M := M) (S := S) (K := K)).
Abbreviation capacity := (table_capacity (net_table net_config)).
Implicit Types (n : Net) (c : ConnectionSlot) (p : PollRegistration) (h : ConnectionHandle) (l : list NetEvent) (i j : nat).
Implicit Types (r w : option ConnectionHandle).

(** The read queue and the write queue grow only where a connection is put in. *)
Section queues.
Context {X : Type} (F : Net → X).
Context (F_connections : ∀ x n, F (set_connections x n) = F n) (F_registrations : ∀ x n, F (set_registrations x n) = F n)
  (F_indexed : ∀ x n, F (set_connection_registrations x n) = F n) (F_poller : ∀ x n, F (set_poller x n) = F n)
  (F_sink : ∀ x n, F (set_sink x n) = F n) (F_kernel : ∀ x n, F (set_kernel x n) = F n) (F_metrics : ∀ x n, F (set_metrics x n) = F n)
  (F_log : ∀ x n, F (set_log x n) = F n) (F_paused : ∀ x n, F (set_paused x n) = F n).

Ltac keepF :=
  repeat first
    [ progress intros | assumption | apply keeps_ret | apply keeps_get | apply keeps_fail | apply keeps_require
    | apply keeps_modify; intros; first [apply F_connections|apply F_registrations|apply F_indexed|apply F_poller|apply F_sink|apply F_metrics|apply F_log|apply F_paused]
    | apply keeps_kernel; intros; apply F_kernel | apply keeps_bind | apply keeps_each | case_match ].

Lemma keeps_interest i : keeps F (updateConnectionInterest i).
Proof using F_kernel F_poller. unfold updateConnectionInterest, connection, epoll_modify. keepF. Qed.

Lemma keeps_forceClose h reason : keeps F (forceClose h reason).
Proof using All.
  unfold forceClose, find_connection, connection, releaseConnectionRegistration, epoll_remove, ncount, nlog, maybeResumeListener,
    listener_interest, epoll_modify, ncount. keepF.
Qed.
End queues.

Lemma forceClose_reads h reason : keeps reads (forceClose h reason).
Proof. by apply keeps_forceClose. Qed.
Lemma forceClose_writes h reason : keeps writes (forceClose h reason).
Proof. by apply keeps_forceClose. Qed.

Lemma sendLocal_reads ref f critical : keeps reads (sendLocal ref f critical).
Proof.
  pose proof forceClose_reads. unfold sendLocal, find_connection, connection, put_connection, enqueueWrite, connection, put_connection, ncount, nlog.
  keeping; auto.
Qed.

Lemma post_reads ref f : keeps reads (post ref f).
Proof. pose proof sendLocal_reads. unfold post. keeping; auto. Qed.

(** ** Filling the hole *)

Lemma net_ok_read h w n :
  net_ok (Some h) w n → (∀ i c, holds i c (nt_connections n) → cs_handle c = h → conn_frames n c) → net_ok None w n.
Proof.
  intros [[B1 B2 B3 B4 B5 B6 B7 B8 B9 B10 B11 B12 B13 B14] Hp] Hf. constructor; [|done]. constructor; try done.
  intros i c Hc. destruct (B6 i c Hc) as [C1 C2 C3]. constructor; [done|done|]. intros _.
  destruct (decide (cs_handle c = h)) as [E|E]; [by apply (Hf i)|]. apply C3. congruence.
Qed.

Lemma net_ok_wrote h r n :
  net_ok r (Some h) n → (∀ i c, holds i c (nt_connections n) → cs_handle c = h → conn_work n c) → net_ok r None n.
Proof.
  intros [[B1 B2 B3 B4 B5 B6 B7 B8 B9 B10 B11 B12 B13 B14] Hp] Hf. constructor; [|done]. constructor; try done.
  intros i c Hc. destruct (B6 i c Hc) as [C1 C2 C3]. constructor; [done| |done]. intros _.
  destruct (decide (cs_handle c = h)) as [E|E]; [by apply (Hf i)|]. apply C2. congruence.
Qed.

Lemma not_found r w n h i c : net_ok r w n → conn_find h (nt_connections n) = None → holds i c (nt_connections n) → cs_handle c ≠ h.
Proof.
  intros Hok Hf Hi E. rewrite (proj2 (conn_find_holds (no_connections _ _ _ Hok) i h)) in Hf; [done|eauto].
Qed.

(** Closing does not care what the slot holds. *)
Lemma forceClose_write r w n i c c1 reason m :
  net_ok r w n → holds i c (nt_connections n) → cs_reference c1 = cs_reference c → cs_socket c1 = cs_socket c → cs_state c1 = cs_state c →
  forceClose (cs_handle c) reason (set_metrics m (set_connections (write i c1 (nt_connections n)) n)) = forceClose (cs_handle c) reason (set_metrics m n).
Proof.
  intros Hok Hi E1 E2 E3. pose proof (touched_refl _ _ _ _ _ Hok Hi) as Hr.
  pose proof (touched_put Hi c c1 n Hr E1 E2) as Ht. pose proof (touched_holds Hi _ _ Ht) as Hi1. cbn in Hi1.
  pose proof (touched_find Hok Hi _ _ Hr) as Hf. pose proof (touched_find Hok Hi _ _ Ht) as Hf1. cbn in Hf1.
  assert (Hh1 : cs_handle c1 = cs_handle c) by (unfold cs_handle; by rewrite E1).
  assert (Hrel : (conn_release (cs_handle c) (write i c1 (nt_connections n))).2 = (conn_release (cs_handle c) (nt_connections n)).2).
  { unfold conn_release. rewrite Hf, Hf1. cbn. unfold write. rewrite Hi. unfold set_counts, set_slots. cbn. by rewrite list_insert_insert_eq. }
  unfold forceClose, find_connection. rewrite !nget_bind. cbn [nt_connections set_metrics set_connections]. rewrite Hf, Hf1.
  unfold connection. rewrite !nbind_assoc, !nget_bind. cbn [nt_connections set_metrics set_connections]. rewrite Hi, Hi1. cbn [mbind option_bind slot_entry].
  rewrite !nrequire_bind. unfold cs_generation, isOpen. rewrite E1, E2, E3. unfold releaseConnectionRegistration.
  rewrite !nbind_assoc, !nget_bind. cbn [id nt_connection_registrations nt_registrations set_metrics set_connections].
  destruct (_ <=? _). { rewrite !nret_bind, !nmodify_bind. cbn. by rewrite Hrel. }
  destruct (nt_connection_registrations n !! Z.to_nat (handle_id (cs_handle c))) as [[rh|]|]; [|rewrite !nret_bind, !nmodify_bind; cbn; by rewrite Hrel..].
  unfold epoll_remove. destruct (reg_lookup rh (nt_registrations n)) as [p|];
    repeat rewrite ?nbind_assoc, ?nmodify_bind, ?nret_bind; cbn; by rewrite Hrel.
Qed.

(** ** One round of reading *)

Lemma posted_stream l c d f rest :
  stream_ok l c → isOpen c = true → decoder_ok (cs_decoder c) → parse_frame (unread (cs_decoder c)) = Parsed f rest → unread d = rest →
  stream_ok (l ++ [Posted (cs_generation c) f]) (set_decoder d c).
Proof.
  intros [H1 (read & lost & H2 & H3 & H4)] Ho Hd Hp Hr. specialize (H4 Ho). subst lost. rewrite app_nil_r in H2.
  destruct (parse_frame_canonical _ _ _ (bytes_ok_drop _ _ (do_bytes _ Hd)) Hp) as [Hf He]. fold (unread (cs_decoder c)) in He.
  assert (Hh : history (cs_generation c) (l ++ [Posted (cs_generation c) f]) = history (cs_generation c) l ++ [Posted (cs_generation c) f])
    by (by apply history_same).
  constructor; unfold sent_by, queued_by, received_by, posted_by in *; change (cs_generation (set_decoder d c)) with (cs_generation c); rewrite Hh;
    unfold sent_of, queued_of, received_of, posted_of in *; rewrite ?bind_app, ?omap_app; cbn [mbind list_bind omap list_omap app]; rewrite ?app_nil_r; [done|].
  exists (read ++ encoding f), []. split_and!; [|..|done].
  - change (cs_decoder (set_decoder d c)) with d. rewrite app_nil_r, H2, He, Hr. by rewrite app_assoc.
  - rewrite parse_stream_app, H3. cbn [app]. pose proof (parse_stream_encodings [f] [] ltac:(by constructor) eq_refl) as Hs. cbn [fmap list_fmap concat app] in Hs.
    rewrite !app_nil_r in Hs. by rewrite Hs.
Qed.

Lemma received_stream l c d bs :
  stream_ok l c → isOpen c = true → unread d = unread (cs_decoder c) ++ bs → stream_ok (l ++ [Received (cs_generation c) bs]) (set_decoder d c).
Proof.
  intros [H1 (read & lost & H2 & H3 & H4)] Ho Hu. specialize (H4 Ho). subst lost. rewrite app_nil_r in H2.
  assert (Hh : history (cs_generation c) (l ++ [Received (cs_generation c) bs]) = history (cs_generation c) l ++ [Received (cs_generation c) bs])
    by (by apply history_same).
  constructor; unfold sent_by, queued_by, received_by, posted_by in *; change (cs_generation (set_decoder d c)) with (cs_generation c); rewrite Hh;
    unfold sent_of, queued_of, received_of, posted_of in *; rewrite ?bind_app, ?omap_app; cbn [mbind list_bind omap list_omap app]; rewrite ?app_nil_r; [done|].
  exists read, []. split_and!; [|done|done]. change (cs_decoder (set_decoder d c)) with d. by rewrite app_nil_r, H2, Hu, app_assoc.
Qed.

Lemma decoder_connection_ok c d :
  connection_ok limits c → decoder_ok d → zlen (unread d) <= max_read_buffer_bytes limits → connection_ok limits (set_decoder d c).
Proof.
  intros [] Hd Hb. constructor; try done. rewrite buffered_unread by done. done.
Qed.

(** The part of a connection that sending is about. *)
Definition same_writing c c1 : Prop :=
  cs_write_queued c1 = cs_write_queued c ∧ cs_waiting_epollout c1 = cs_waiting_epollout c ∧ cs_write_buffer c1 = cs_write_buffer c ∧
  cs_state c1 = cs_state c ∧ cs_close_deadline c1 = cs_close_deadline c.

Lemma conn_work_same n n1 i c c1 : conn_work n c → touched i c c1 n n1 → same_writing c c1 → conn_work n1 c1.
Proof.
  intros [W1 W2 W3] Ht (E1 & E2 & E3 & E4 & E5). pose proof (touched_handle _ _ Ht) as Eh.
  unfold unsent_bytes, isClosing in *. constructor; unfold unsent_bytes, isClosing; rewrite ?E1, ?E2, ?E3, ?E4, ?E5, ?Eh; [done|done|].
  intros Hx. destruct (W3 Hx). split; [done|]. by apply (tc_heap _ _ _ _ _ Ht).
Qed.

Lemma reading_step n n1 i c c1 :
  net_ok (Some (cs_handle c)) None n → holds i c (nt_connections n) → touched i c c1 n n1 → conn_core n1 i c1 → same_writing c c1 →
  net_ok (Some (cs_handle c)) None n1.
Proof.
  intros Hok Hi Ht Hc Hs. apply (net_ok_touched (Some (cs_handle c)) None (Some (cs_handle c)) None n n1 i c c1 Hok Hi Ht); [done|done|].
  constructor; [done| |by rewrite (touched_handle _ _ Ht)]. intros _. eapply conn_work_same; [|done|done].
  apply (cg_work _ _ _ _ _ (no_good _ _ _ Hok _ _ Hi)). done.
Qed.

(** Decoding the next frame, with the slot updated. *)
Lemma decode_step n i c :
  net_ok (Some (cs_handle c)) None n → holds i c (nt_connections n) → isOpen c = true →
  ∃ res d, tryDecodeNext (cs_decoder c) = Some (res, d) ∧
    match parse_frame (unread (cs_decoder c)) with
    | NeedMore => res = mkDecodeNextResult None None ∧ unread d = unread (cs_decoder c) ∧ decoder_ok d
    | Malformed e => res = mkDecodeNextResult None (Some e)
    | Parsed f rest => res = mkDecodeNextResult (Some f) None ∧ unread d = rest ∧ decoder_ok d
    end.
Proof.
  intros Hok Hi Ho. pose proof (cg_core _ _ _ _ _ (no_good _ _ _ Hok _ _ Hi)) as [C1 _ _ _ _].
  destruct (tryDecodeNext_spec _ (co_decoder _ _ C1)) as (res & d & Hd & Hdok & Hm). exists res, d. split; [done|].
  destruct (parse_frame _); [|by destruct Hm|by destruct Hm]. destruct Hm as [-> ->]. by split_and!.
Qed.

Lemma frame_step n i c d f rest m :
  net_ok (Some (cs_handle c)) None n → holds i c (nt_connections n) → isOpen c = true →
  parse_frame (unread (cs_decoder c)) = Parsed f rest → unread d = rest → decoder_ok d →
  net_ok (Some (cs_handle c)) None
    (set_log (nt_log n ++ [Posted (cs_generation c) f]) (set_metrics m (set_connections (write i (set_decoder d c) (nt_connections n)) n))).
Proof.
  intros Hok Hi Ho Hp Hr Hd. pose proof (cg_core _ _ _ _ _ (no_good _ _ _ Hok _ _ Hi)) as [C1 C2 C3 C4 C5].
  pose proof (parse_frame_bound _ _ _ Hp). pose proof (co_read _ _ C1) as Hb. rewrite buffered_unread in Hb by apply C1.
  eapply (reading_step n _ i c (set_decoder d c)); [done|done| | |done].
  - apply (touched_log _ (set_metrics m (set_connections _ n))); [|done]. apply touched_metric.
    apply touched_put with c; [done|exact (touched_refl _ _ _ _ _ Hok Hi)|done|done].
  - constructor; cbn; try done.
    + apply decoder_connection_ok; [done|done|]. rewrite Hr. unfold zlen in *. lia.
    + apply posted_stream with rest; try done. apply C1.
Qed.

Lemma need_more_step n i c d :
  net_ok (Some (cs_handle c)) None n → holds i c (nt_connections n) → unread d = unread (cs_decoder c) → decoder_ok d →
  net_ok (Some (cs_handle c)) None (set_connections (write i (set_decoder d c) (nt_connections n)) n).
Proof.
  intros Hok Hi Hu Hd. pose proof (cg_core _ _ _ _ _ (no_good _ _ _ Hok _ _ Hi)) as [C1 C2 C3 C4 C5].
  pose proof (co_read _ _ C1) as Hb. rewrite buffered_unread in Hb by apply C1.
  eapply (reading_step n _ i c (set_decoder d c)); [done|done| | |done].
  - apply touched_put with c; [done|exact (touched_refl _ _ _ _ _ Hok Hi)|done|done].
  - constructor; cbn; try done.
    + apply decoder_connection_ok; [done|done|]. by rewrite Hu.
    + by apply (stream_ok_same (nt_log n) _ c).
Qed.

Lemma receive_step n i c d bs :
  net_ok (Some (cs_handle c)) None n → holds i c (nt_connections n) → isOpen c = true → unread d = unread (cs_decoder c) ++ bs → decoder_ok d →
  zlen (unread d) <= max_read_buffer_bytes limits →
  net_ok (Some (cs_handle c)) None
    (set_connections (write i (set_decoder d c) (nt_connections n)) (set_log (nt_log n ++ [Received (cs_generation c) bs]) n)).
Proof.
  intros Hok Hi Ho Hu Hd Hb. pose proof (cg_core _ _ _ _ _ (no_good _ _ _ Hok _ _ Hi)) as [C1 C2 C3 C4 C5].
  eapply (reading_step n _ i c (set_decoder d c)); [done|done| | |done].
  - apply (touched_put Hi c _ (set_log _ n)); [|done|done]. apply (touched_log c n); [exact (touched_refl _ _ _ _ _ Hok Hi)|done].
  - constructor; cbn; try done.
    + by apply decoder_connection_ok.
    + by apply received_stream.
Qed.

(** ** The loop *)

Context (Hsetup : net_setup_ok).

Lemma each_ok {A} (P : Net → Prop) (k : A → N ()) (xs : list A) :
  (∀ a, nhoare P (k a) (fun _ => P)) → nhoare P (each k xs) (fun _ => P).
Proof.
  intros Hk. induction xs as [|a xs IH]; [by apply nhoare_ret|]. eapply nhoare_bind; [apply Hk|]. intros []. exact IH.
Qed.

Lemma post_ok r ref f : nhoare (net_ok r None) (post ref f) (fun _ (n : Net) => net_ok r None n).
Proof using Hsetup.
  intros n Hok. unfold post. rewrite nget_bind. cbn [id]. destruct (sink_tryPost ref f (nt_sink n)) as [[answer sends] s].
  rewrite nmodify_bind, set_sink_quiet. apply (nhoare_bind (net_ok r None) _ _ (fun _ => net_ok r None) (fun _ => net_ok r None));
    [|by intros []; apply nhoare_ret|by apply net_ok_quiet].
  apply each_ok. intros [[to frame] critical]. eapply nhoare_bind; [by apply (net_sendLocal_ok Hsetup)|]. intros ?. by apply nhoare_ret.
Qed.

Lemma stop_reading_ok h reason bytes frames :
  nhoare (net_ok (Some h) None) (stop_reading h reason bytes frames)
    (fun rp (n : Net) => rp_again rp = false ∧ net_ok None None n).
Proof using Hsetup.
  eapply nhoare_bind; [apply (forceClose_ok Hsetup _ _ None None); [|done]|].
  - by intros h' Hne [= ->].
  - intros []. by apply nhoare_ret.
Qed.

(** How much reading is left. *)
Definition read_measure (b : IoBudget) (bytes frames : Z) n : nat :=
  ((Z.to_nat (max_frames b - frames) + Z.to_nat (max_read_bytes b - bytes)) * Datatypes.S interruptions + patience (nt_kernel n))%nat.

Lemma read_measure_frame b bytes frames n n' :
  frames < max_frames b → (read_measure b bytes (frames + 1) n' < read_measure b bytes frames n)%nat.
Proof.
  intros Hf. unfold read_measure. pose proof (patience_bounded (nt_kernel n')).
  replace (Z.to_nat (max_frames b - frames)) with (Datatypes.S (Z.to_nat (max_frames b - (frames + 1)))) by lia. lia.
Qed.

Lemma read_measure_bytes b bytes frames x n n' :
  0 < x → bytes < max_read_bytes b → (read_measure b (bytes + x) frames n' < read_measure b bytes frames n)%nat.
Proof.
  intros Hx Hb. unfold read_measure. pose proof (patience_bounded (nt_kernel n')).
  assert (Z.to_nat (max_read_bytes b - (bytes + x)) < Z.to_nat (max_read_bytes b - bytes))%nat by lia. nia.
Qed.

Definition read_done (h : ConnectionHandle) (rp : ReadProgress) n : Prop :=
  if rp_again rp then net_ok (Some h) None n else net_ok None None n.

Lemma frames_step_ok fuel h b started bytes frames n :
  (∀ frames' n', net_ok (Some h) None n' → (read_measure b bytes frames' n' < fuel)%nat →
    match read_loop fuel h b started bytes frames' n' with NDone rp n2 => read_done h rp n2 | NFailed f => net_excused f = true end) →
  net_ok (Some h) None n → frames < max_frames b → (read_measure b bytes frames n < Datatypes.S fuel)%nat → ∀ ref f,
  match (answer ← post ref f;
         match answer with
         | PostAccepted => read_loop fuel h b started bytes (frames + 1)
         | PostInvalid => ncount rejected_requests;; ncount protocol_errors;; stop_reading h CloseProtocolViolation bytes (frames + 1)
         | PostRejected => ncount rejected_requests;; stop_reading h CloseOverload bytes (frames + 1)
         end) n with
  | NDone rp n2 => read_done h rp n2
  | NFailed f => net_excused f = true
  end.
Proof using Hsetup.
  intros IH Hok Hf Hm ref f. apply (nhoare_bind _ _ _ _ _ (post_ok (Some h) ref f)); [|done]. intros answer.
  assert (Hstop : ∀ reason, nhoare (net_ok (Some h) None) (stop_reading h reason bytes (frames + 1)) (read_done h)).
  { intros reason. eapply nhoare_weaken; [apply stop_reading_ok|done|]. intros rp n' [E Hn]. unfold read_done. by rewrite E. }
  destruct answer.
  - intros n' Hn'. apply IH; [done|]. pose proof (read_measure_frame b bytes frames n n' Hf). lia.
  - do 2 (eapply nhoare_bind; [apply ncount_ok|]; intros []). apply Hstop.
  - eapply nhoare_bind; [apply ncount_ok|]; intros []. apply Hstop.
Qed.

Lemma budgetExpired_bind {B} a b (k : bool → N B) n :
  (budgetExpired a b ≫= k) n = k (b <=? (k_now (nt_kernel n)).1 - a) (set_kernel (k_now (nt_kernel n)).2 n).
Proof. unfold budgetExpired, nnow. by rewrite nbind_assoc, kernel_bind. Qed.

(** Asking for bytes: what is received goes into the decoder. *)
Lemma receive_step_ok fuel h b started bytes frames n i c :
  (∀ bytes' n', net_ok (Some h) None n' → (read_measure b bytes' frames n' < fuel)%nat →
    match read_loop fuel h b started bytes' frames n' with NDone rp n2 => read_done h rp n2 | NFailed f => net_excused f = true end) →
  net_ok (Some h) None n → holds i c (nt_connections n) → cs_handle c = h → isOpen c = true → parse_frame (unread (cs_decoder c)) = NeedMore →
  bytes < max_read_bytes b → (read_measure b bytes frames n < Datatypes.S fuel)%nat →
  ∀ size, 0 < size → size <= cs_max_read_buffer_bytes c - bufferedBytes c →
  match (received ← kernel (k_recv (cs_socket c) size);
         match received with
         | RecvBytes bs =>
             nlog (Received (cs_generation c) bs);; put_connection i (set_decoder (push (cs_decoder c) bs) c);;
             read_loop fuel h b started (bytes + zlen bs) frames
         | RecvEof => stop_reading h ClosePeerClosed bytes frames
         | RecvInterrupted => read_loop fuel h b started bytes frames
         | RecvAgain => mret (mkReadProgress false bytes frames false)
         | RecvError => stop_reading h CloseIoError bytes frames
         end) n with
  | NDone rp n2 => read_done h rp n2
  | NFailed f => net_excused f = true
  end.
Proof using Hsetup.
  intros IH Hok Hi <- Ho Hp Hb Hm size Hpos Hsize. rewrite kernel_bind.
  pose proof (recv_bounded (cs_socket c) size (nt_kernel n)) as Hrecv. pose proof (recv_patient (cs_socket c) size (nt_kernel n)) as Hint.
  destruct (k_recv (cs_socket c) size (nt_kernel n)) as [received k]. cbn [fst snd].
  pose proof (net_ok_quiet _ _ _ k (nt_metrics n) (nt_sink n) Hok) as Hok1. rewrite <-set_kernel_quiet in Hok1.
  set (n1 := set_kernel k n) in *. assert (Hi1 : holds i c (nt_connections n1)) by done.
  pose proof (cg_core _ _ _ _ _ (no_good _ _ _ Hok _ _ Hi)) as [C1 _ _ _ _].
  assert (Hstop : ∀ reason, match stop_reading (cs_handle c) reason bytes frames n1 with
    | NDone rp n2 => read_done (cs_handle c) rp n2 | NFailed f => net_excused f = true end).
  { intros reason. pose proof (stop_reading_ok (cs_handle c) reason bytes frames n1 Hok1) as Hs.
    destruct (stop_reading _ _ _ _ n1) as [rp n2|]; [|done]. destruct Hs as [E Hn]. unfold read_done. by rewrite E. }
  destruct received as [bs| | | |]; [|apply Hstop| | |apply Hstop].
  - destruct (Hrecv bs k eq_refl) as [Hlen Hbs]. rewrite nlog_bind. unfold put_connection. rewrite nmodify_bind.
    destruct (push_decoder_ok (cs_decoder c) bs (co_decoder _ _ C1) Hbs) as [Hd Hu].
    assert (Hfit : zlen (unread (push (cs_decoder c) bs)) <= max_read_buffer_bytes limits).
    { rewrite Hu. rewrite buffered_unread in Hsize by apply C1. rewrite (co_read_max _ _ C1) in Hsize. unfold zlen in *. rewrite length_app. lia. }
    apply IH; [exact (receive_step n1 i c _ bs Hok1 Hi1 Ho Hu Hd Hfit)|].
    pose proof (read_measure_bytes b bytes frames (zlen bs) n n1 ltac:(lia) Hb). unfold read_measure in *. cbn in *. lia.
  - apply IH; [done|]. specialize (Hint k eq_refl). unfold read_measure in *. cbn in *. lia.
  - cbn. unfold read_done. cbn. apply (net_ok_read (cs_handle c)); [done|]. intros j x Hj E.
    destruct (conn_handle_inj (no_connections _ _ _ Hok1) j i x c Hj Hi1 E) as [_ ->]. intros _ _. by right.
Qed.

Lemma read_loop_ok fuel h b started : ∀ bytes frames n,
  net_ok (Some h) None n → (read_measure b bytes frames n < fuel)%nat →
  match read_loop fuel h b started bytes frames n with NDone rp n2 => read_done h rp n2 | NFailed f => net_excused f = true end.
Proof using Hsetup.
  induction fuel as [|fuel IH]; intros bytes frames n Hok Hm; [lia|]. cbn [read_loop]. unfold find_connection. rewrite nget_bind.
  destruct (conn_find h (nt_connections n)) as [i|] eqn:Hf.
  2: { cbn. unfold read_done. cbn. apply (net_ok_read h); [done|]. intros j x Hj E. by destruct (not_found _ _ _ _ _ _ Hok Hf Hj). }
  destruct (found_connection _ _ _ _ _ Hok Hf) as (c & Hi & Hh).
  rewrite (bind_NDone _ _ _ _ _ (touched_connection Hi c n (touched_refl _ _ _ _ _ Hok Hi))).
  destruct (isOpen c) eqn:Ho; cbn [negb].
  2: { cbn. unfold read_done. cbn. apply (net_ok_read h); [done|]. intros j x Hj E. rewrite <-Hh in E.
       destruct (conn_handle_inj (no_connections _ _ _ Hok) j i x c Hj Hi E) as [_ ->]. unfold conn_frames. by rewrite Ho. }
  destruct (Z.leb_spec (max_frames b) frames) as [|Hfr]; [done|].
  rewrite budgetExpired_bind.
  assert (Hm1 : (read_measure b bytes frames (set_kernel (k_now (nt_kernel n)).2 n) < Datatypes.S fuel)%nat)
    by (unfold read_measure in *; cbn; rewrite now_patient; lia).
  pose proof (net_ok_quiet _ _ _ (k_now (nt_kernel n)).2 (nt_metrics n) (nt_sink n) Hok) as Hok1. rewrite <-set_kernel_quiet in Hok1.
  set (n1 := set_kernel _ _) in *. assert (Hi1 : holds i c (nt_connections n1)) by done.
  destruct (_ <=? (k_now (nt_kernel n)).1 - _); [done|]. clearbody n1. clear Hok Hi Hf Hm n. rewrite <-Hh in Hok1. destruct (decode_step n1 i c Hok1 Hi1 Ho) as (res & d & Hd & Hcase). rewrite Hd, nrequire_bind.
  unfold put_connection. rewrite nmodify_bind. destruct (parse_frame (unread (cs_decoder c))) as [|e|f rest] eqn:Ep.
  - destruct Hcase as (-> & Hu & Hdok). cbn [next_error next_frame]. destruct (Z.leb_spec (max_read_bytes b) bytes) as [|Hby].
    { cbn. unfold read_done. cbn. rewrite <-Hh. by apply need_more_step. }
    pose proof (need_more_step n1 i c d Hok1 Hi1 Hu Hdok) as Hok2. set (n2 := set_connections _ n1) in *.
    assert (Hi2 : holds i (set_decoder d c) (nt_connections n2)) by (cbn; apply holds_write with c; [done|by left]).
    destruct (Z.leb_spec (cs_max_read_buffer_bytes (set_decoder d c)) (bufferedBytes (set_decoder d c))) as [|Hroom].
    { rewrite ncount_bind. apply (net_ok_quiet _ _ _ (nt_kernel n2) (protocol_errors :: nt_metrics n2) (nt_sink n2)) in Hok2. rewrite <-set_metrics_quiet in Hok2.
      rewrite Hh in Hok2. pose proof (stop_reading_ok h CloseProtocolViolation bytes frames _ Hok2) as Hs.
      destruct (stop_reading _ _ _ _ _) as [rp n3|]; [|done]. destruct Hs as [E Hn]. unfold read_done. by rewrite E. }
    destruct (_ =? 0) eqn:Esize; [cbn; unfold read_done; cbn; by rewrite <-Hh|]. apply Z.eqb_neq in Esize.
    pose proof (ns_valid Hsetup) as Hv. unfold network_config_valid in Hv. repeat (apply andb_prop in Hv as [Hv ?]). to_prop.
    rewrite <-Hh. apply (receive_step_ok fuel (cs_handle c) b started bytes frames n2 i (set_decoder d c)); try done; try lia.
    + intros bytes' n' Hn' Hm'. rewrite Hh in *. by apply IH.
    + cbn. by rewrite Hu.
  - subst res. cbn [next_error]. rewrite ncount_bind. rewrite <-Hh. unfold stop_reading.
    set (n2 := set_metrics _ _). unfold mbind at 1, N_bind at 1.
    assert (E : forceClose (cs_handle c) CloseProtocolViolation n2 = forceClose (cs_handle c) CloseProtocolViolation (set_metrics (protocol_errors :: nt_metrics n1) n1))
      by (by apply (forceClose_write (Some (cs_handle c)) None n1 i c)).
    rewrite E. rewrite set_metrics_quiet. set (n3 := set_kernel _ _).
    pose proof (forceClose_ok Hsetup (Some (cs_handle c)) None None None (cs_handle c) CloseProtocolViolation ltac:(by intros h' Hne [= <-]) ltac:(done) n3
      (net_ok_quiet _ _ _ _ _ _ Hok1)) as Hc.
    destruct (forceClose (cs_handle c) CloseProtocolViolation n3) as [[] n4|]; done.
  - destruct Hcase as (-> & Hu & Hdok). cbn [next_error next_frame]. rewrite ncount_bind, nlog_bind. subst h.
    apply (frames_step_ok fuel (cs_handle c) b started bytes frames); [|exact (frame_step n1 i c d f rest _ Hok1 Hi1 Ho Ep Hu Hdok)|done|done].
    intros frames' n' Hn' Hm'. by apply IH.
Qed.

(** ** The read queue *)

Lemma read_loop_reads fuel h b started bytes frames : keeps reads (read_loop fuel h b started bytes frames).
Proof.
  pose proof forceClose_reads. pose proof post_reads. revert bytes frames. induction fuel as [|fuel IH]; intros bytes frames; cbn [read_loop]; [keeping|].
  unfold find_connection, connection, budgetExpired, nnow, put_connection, ncount, nlog, stop_reading. keeping; auto.
Qed.

(** A queue without one handle that no live connection has. *)
Lemma net_ok_read_queue r w n q :
  net_ok r w n → ring_ok capacity q → NoDup (ring_items q) → (∀ x, x ∈ ring_items q → x ∈ ring_items (nt_read_queue n)) →
  (∀ i c, holds i c (nt_connections n) → cs_handle c ∈ ring_items (nt_read_queue n) → cs_handle c ∈ ring_items q) →
  net_ok r w (set_read_queue q n).
Proof.
  intros [[B1 B2 B3 B4 B5 B6 B7 B8 B9 B10 B11 B12 B13 B14] Hp] Hq Hn Hsub Hlive. constructor; [|done]. constructor; try done.
  - intros i c Hc. destruct (B6 i c Hc) as [[C1 C2 C3 C4 C5] Hw Hf]. constructor; [constructor; try done| |done].
    + rewrite C2. apply bool_decide_ext. split; [apply (Hlive i c Hc)|apply Hsub].
    + intros Hx. destruct (Hw Hx). by constructor.
  - destruct B11 as [_ _ Q3]. constructor; [done|done|]. intros x Hx. by apply Q3, Hsub.
  - by destruct B12.
  - by destruct B14.
Qed.

(** A handle leaves the queue: nobody's, or a connection's that is read next. *)
Lemma popped_read n h rest q :
  net_ok None None n → ring_items (nt_read_queue n) = h :: rest → ring_ok capacity q → ring_items q = rest →
  match conn_find h (nt_connections n) with
  | None => net_ok None None (set_read_queue q n)
  | Some i => ∃ c, holds i c (nt_connections n) ∧ cs_handle c = h ∧
      net_ok (Some h) None (set_connections (write i (setReadQueued false c) (nt_connections n)) (set_read_queue q n))
  end.
Proof.
  intros Hok El Hq Eq. pose proof (qk_nodup _ _ (no_reads _ _ _ Hok)) as Hn. rewrite El in Hn. apply NoDup_cons in Hn as [Hh Hn].
  destruct (conn_find h (nt_connections n)) as [i|] eqn:Hf.
  - destruct (found_connection _ _ _ _ _ Hok Hf) as (c & Hi & Hc). exists c. split_and!; try done.
    pose proof (no_good _ _ _ Hok _ _ Hi) as [[C1 C2 C3 C4 C5] Hw _].
    assert (Ht : touched i c (setReadQueued false c) n (set_connections (write i (setReadQueued false c) (nt_connections n)) (set_read_queue q n))).
    { apply (touched_put Hi c _ (set_read_queue q n)); [|done|done]. apply touched_read_queue; [exact (touched_refl _ _ _ _ _ Hok Hi)|].
      constructor; [done|by rewrite Eq|]. intros x Hx. rewrite Eq, El, elem_of_cons, Hc in *. naive_solver. }
    apply (net_ok_touched None None (Some h) None n _ i c _ Hok Hi Ht); [done|done|]. constructor; [|intros _|by cbn; rewrite <-Hc].
    + constructor; [by destruct C1| |done|done|by apply (stream_ok_same (nt_log n) _ c)].
      change (false = bool_decide (cs_handle c ∈ ring_items q)). by rewrite Eq, Hc, bool_decide_eq_false_2.
    + by apply (conn_work_same n _ i c); [apply Hw|done|].
  - apply net_ok_read_queue; [done|done|by rewrite Eq|rewrite Eq, El; by right|]. intros i c Hi. rewrite Eq, El, elem_of_cons.
    pose proof (not_found _ _ _ _ _ _ Hok Hf Hi). naive_solver.
Qed.

Lemma requeue_read_ok h n :
  net_ok (Some h) None n →
  match requeue_read h n with
  | NDone _ n' => net_ok None None n' ∧ (length (ring_items (nt_read_queue n')) <= Datatypes.S (length (ring_items (nt_read_queue n))))%nat
  | NFailed f => net_excused f = true
  end.
Proof using Hsetup Heap.
  intros Hok. unfold requeue_read, find_connection. rewrite nget_bind. destruct (conn_find h (nt_connections n)) as [i|] eqn:Hf.
  2: { cbn. split; [|lia]. apply (net_ok_read h); [done|]. intros j x Hj E. by destruct (not_found _ _ _ _ _ _ Hok Hf Hj). }
  destruct (found_connection _ _ _ _ _ Hok Hf) as (c & Hi & Hh). pose proof (touched_refl _ _ _ _ _ Hok Hi) as Hr.
  rewrite (bind_NDone _ _ _ _ _ (touched_connection Hi c n Hr)). pose proof (no_good _ _ _ Hok _ _ Hi) as [Hcore Hwork _].
  destruct (isOpen c) eqn:Ho.
  2: { cbn. split; [|lia]. apply (net_ok_read h); [done|]. intros j x Hj E. rewrite <-Hh in E.
       destruct (conn_handle_inj (no_connections _ _ _ Hok) j i x c Hj Hi E) as [_ ->]. unfold conn_frames. by rewrite Ho. }
  destruct (enqueueRead_run Hok Hi c n Hr Hcore) as (b & n2 & Hrun & Hfull & Ht & Hc2 & _ & _ & _ & Hlen).
  rewrite (bind_NDone _ _ _ _ _ Hrun). destruct b.
  - cbn. split; [|done]. apply (net_ok_touched (Some h) None None None n n2 i c _ Hok Hi Ht); [by rewrite Hh; intros h' Hne [= <-]|done|].
    constructor; [done| |by intros _ _ _; left]. intros _. by apply (conn_work_same n _ i c); [apply Hwork|done|].
  - destruct (Hfull eq_refl) as [_ ->].
    pose proof (forceClose_ok Hsetup (Some h) None None None h CloseOverload ltac:(by intros h' Hne [= <-]) ltac:(done) n Hok) as Hc.
    pose proof (forceClose_reads h CloseOverload n) as Hk. destruct (forceClose h CloseOverload n) as [[] n'|]; [|done]. rewrite Hk. split; [done|lia].
Qed.

Lemma read_queue_loop_ok fuel b started : ∀ bytes frames processed n,
  net_ok None None n → (2 * Z.to_nat (max_read_connections b - processed) + length (ring_items (nt_read_queue n)) < fuel)%nat →
  match read_queue_loop fuel b started bytes frames processed n with NDone _ n' => net_ok None None n' | NFailed f => net_excused f = true end.
Proof using Hsetup Heap.
  induction fuel as [|fuel IH]; intros bytes frames processed n Hok Hm; [lia|]. cbn [read_queue_loop]. rewrite nget_bind.
  destruct (hr_empty (nt_read_queue n)); [done|]. destruct (_ || _ || _) eqn:Ebudget; [done|].
  apply orb_false_iff in Ebudget as [[Econn _]%orb_false_iff _]. apply Z.leb_gt in Econn. rewrite budgetExpired_bind.
  pose proof (net_ok_quiet _ _ _ (k_now (nt_kernel n)).2 (nt_metrics n) (nt_sink n) Hok) as Hok1. rewrite <-set_kernel_quiet in Hok1.
  set (n1 := set_kernel _ _) in *. destruct (_ <=? (k_now (nt_kernel n)).1 - _); [done|].
  change (nt_read_queue n) with (nt_read_queue n1) in Hm. clearbody n1. clear Hok n.
  unfold pop_read. rewrite nbind_assoc, nget_bind, nbind_assoc, nmodify_bind, nret_bind.
  pose proof (work_tryPop_ring _ _ (qk_ring _ _ (no_reads _ _ _ Hok1))) as Hpop.
  destruct (ring_items (nt_read_queue n1)) as [|h rest] eqn:El.
  { destruct Hpop as [-> _]. cbn. by destruct n1. }
  destruct Hpop as (q & -> & Hq & Eq & _). cbn [fst snd]. pose proof (popped_read n1 h rest q Hok1 El Hq Eq) as Hpopped.
  unfold find_connection. rewrite nget_bind. cbn [nt_connections set_read_queue]. cbn in Hm.
  destruct (conn_find h (nt_connections n1)) as [i|] eqn:Hf.
  2: { rewrite ncount_bind. apply IH; [by rewrite set_metrics_quiet; apply net_ok_quiet|]. cbn. rewrite Eq. lia. }
  destruct Hpopped as (c & Hi & Hh & Hok2). unfold update_connection, put_connection. rewrite nbind_assoc.
  assert (Hconn : connection i (set_read_queue q n1) = NDone c (set_read_queue q n1)).
  { unfold connection. rewrite nget_bind. cbn [nt_connections set_read_queue]. by rewrite Hi. }
  rewrite (bind_NDone _ _ _ _ _ Hconn), nmodify_bind. set (n2 := set_connections _ _) in *. unfold readConnection.
  assert (Hfuel : (read_measure b bytes frames n2 < read_fuel b bytes frames)%nat).
  { unfold read_measure, read_fuel. pose proof (patience_bounded (nt_kernel n2)). lia. }
  pose proof (read_loop_ok _ h b started bytes frames n2 Hok2 Hfuel) as Hread.
  pose proof (read_loop_reads (read_fuel b bytes frames) h b started bytes frames n2) as Hkeep. unfold mbind at 1, N_bind at 1.
  destruct (read_loop (read_fuel b bytes frames) h b started bytes frames n2) as [rp n3|]; [|done].
  assert (E3 : length (ring_items (nt_read_queue n3)) = length rest) by (rewrite Hkeep; cbn; by rewrite Eq). clear Hkeep.
  assert (Hnext : match (if rp_again rp then requeue_read h else mret ()) n3 with
    | NDone _ n4 => net_ok None None n4 ∧ (length (ring_items (nt_read_queue n4)) <= Datatypes.S (length rest))%nat
    | NFailed f => net_excused f = true end).
  { unfold read_done in Hread. destruct (rp_again rp); [|split; [done|lia]]. rewrite <-E3. by apply requeue_read_ok. }
  unfold mbind at 1, N_bind at 1. destruct ((if rp_again rp then requeue_read h else mret ()) n3) as [[] n4|]; [|done].
  destruct Hnext as [Hok4 Hlen4]. destruct (rp_exhausted rp); [done|]. apply IH; [done|]. lia.
Qed.

Lemma processReadQueue_ok b started : nhoare (net_ok None None) (processReadQueue b started) (fun _ (n : Net) => net_ok None None n).
Proof using Hsetup Heap.
  intros n Hok. unfold processReadQueue. rewrite nget_bind. cbn [id]. destruct (nt_stopping n); [done|].
  set (fuel := Datatypes.S _). assert (Hf : (2 * Z.to_nat (max_read_connections b - 0) + length (ring_items (nt_read_queue n)) < fuel)%nat).
  { unfold fuel. rewrite (ring_size _ _ (qk_ring _ _ (no_reads _ _ _ Hok))). rewrite Z.sub_0_r. lia. }
  pose proof (read_queue_loop_ok fuel b started 0 0 0 n Hok Hf) as Hl. unfold mbind at 1, N_bind at 1.
  destruct (read_queue_loop fuel b started 0 0 0 n) as [[] n'|]; [|done|done].
  rewrite ncount_bind. apply ncount_ok. rewrite set_metrics_quiet. by apply net_ok_quiet.
Qed.
End read.
