(* ===== verification/NetworkPoll.v ===== *)
(** * Accepting clients and poll events

    A new connection joins both tables, the index and the kernel's list at once;
    [processPollEvents] keeps the invariant whatever events it is given. *)

From S2P Require Import Prelude Connection Wire FrameCodec Session Identity TimerQueue HandleRing SlotTable ActorTable Actor WorkerConnection ConnectionTables Network NetworkInv NetworkOps NetworkClose NetworkSend NetworkRead.

Section poll.
Context {M S K : Type} `{Setup : !NetSetup M} `{Heap : !HeapAlgorithms (entry_deadline (M := M))}.
Context `{Kernel : !NetKernel K} `{Sink : !RequestSink S}.

Abbreviation Net := (Net M S K).
Abbreviation N := (N M S K).
Abbreviation limits := (table_limits (net_table net_config)).
Abbreviation capacity := (table_capacity (net_table net_config)).
Implicit Types (n : Net) (c : ConnectionSlot) (p : PollRegistration) (h : ConnectionHandle) (l : list NetEvent) (i j : nat).
Implicit Types (r w : option ConnectionHandle).

(** ** A connection comes *)

Record arrived i c j p n n' : Prop := {
  av_connections : connections_ok net_self (nt_connections n');
  av_holds : ∀ k x, holds k x (nt_connections n') ↔ (k = i ∧ x = c) ∨ (k ≠ i ∧ holds k x (nt_connections n));
  av_vacant : ∀ x, ¬ holds i x (nt_connections n);
  av_counts : st_active_count (nt_connections n') = st_active_count (nt_connections n) + 1 ∧
    st_capacity (nt_connections n') = st_capacity (nt_connections n) ∧
    st_last_generation (nt_connections n') = st_last_generation (nt_connections n) + 1;
  av_fresh : cs_generation c = st_last_generation (nt_connections n) + 1 ∧ connection_ok limits c ∧ isOpen c = true ∧
    unsent_bytes c = [] ∧ unread (cs_decoder c) = [] ∧ cs_read_queued c = false ∧ cs_write_queued c = false ∧ cs_waiting_epollout c = false;
  av_index : (i < length (nt_connection_registrations n))%nat;
  av_registrations : registrations_ok (nt_registrations n') ∧
    (∀ k x, holds k x (nt_registrations n') ↔ (k = j ∧ x = p) ∨ (k ≠ j ∧ holds k x (nt_registrations n))) ∧
    (∀ x, ¬ holds j x (nt_registrations n)) ∧
    st_active_count (nt_registrations n') = st_active_count (nt_registrations n) + 1 ∧
    st_capacity (nt_registrations n') = st_capacity (nt_registrations n);
  av_registration : pr_connection p = Some (cs_handle c) ∧ pr_descriptor p = cs_socket c;
  av_indexed : nt_connection_registrations n' = <[i := Some (registration_handle j p)]> (nt_connection_registrations n);
  av_unused : nt_poller n !! cs_socket c = None;
  av_poller : nt_poller n' = <[cs_socket c := epoll_event (pr_token p) (mkInterest true false)]> (nt_poller n);
  av_rest : nt_listener n' = nt_listener n ∧ nt_listener_registration n' = nt_listener_registration n ∧
    nt_listener_paused n' = nt_listener_paused n ∧ nt_stopping n' = nt_stopping n ∧ nt_read_queue n' = nt_read_queue n ∧
    nt_write_queue n' = nt_write_queue n ∧ nt_timers n' = nt_timers n ∧ nt_log n' = nt_log n
}.

Lemma history_fresh n g : log_ok n → st_last_generation (nt_connections n) < g → history g (nt_log n) = [].
Proof.
  intros Hl Hg. pose proof (lk_given _ Hl) as Hgiven. unfold history. induction (nt_log n) as [|e l IH]; [done|].
  rewrite filter_cons, decide_False; [apply IH; intros; eapply Hgiven; [by right|done]|].
  intros E. specialize (Hgiven e g ltac:(by left) E). lia.
Qed.

Section arrived.
Context {r w : option ConnectionHandle} {n n' : Net} {i j : nat} {c : ConnectionSlot} {p : PollRegistration}.
Context (Hb : net_base r w n) (Ha : arrived i c j p n n').

Lemma arrived_not_queued (q : HandleRing ConnectionHandle) : queue_ok n q → cs_handle c ∉ ring_items q.
Proof using Ha.
  intros [_ _ Hq] Hx. specialize (Hq _ Hx). destruct (av_fresh _ _ _ _ _ _ Ha) as [Hg _]. unfold cs_generation in Hg. cbn in Hq. lia.
Qed.

Lemma arrived_good : conn_good r w n' i c.
Proof using Hb Ha.
  destruct (av_fresh _ _ _ _ _ _ Ha) as (Hg & Hc & Ho & Hu & Hd & Hrq & Hwq & Hwa).
  destruct (av_rest _ _ _ _ _ _ Ha) as (E1 & E2 & E3 & E4 & E5 & E6 & E7 & E8).
  destruct (av_registrations _ _ _ _ _ _ Ha) as (R1 & R2 & _). destruct (av_registration _ _ _ _ _ _ Ha) as [P1 P2].
  constructor; [constructor; [done|..]|intros _|intros _].
  - rewrite Hrq, E5. symmetry. apply bool_decide_eq_false, arrived_not_queued, Hb.
  - rewrite Hwq, E6. symmetry. apply bool_decide_eq_false, arrived_not_queued, (no_writes _ _ _ Hb).
  - exists j, p, true. rewrite (av_indexed _ _ _ _ _ _ Ha), (av_poller _ _ _ _ _ _ Ha), lookup_insert_eq, Hwa, Ho.
    split_and!; try done; [apply R2; by left|]. apply list_lookup_insert_eq, (av_index _ _ _ _ _ _ Ha).
  - assert (Hh : history (cs_generation c) (nt_log n') = []) by (rewrite E8; apply history_fresh; [apply Hb|lia]).
    constructor; unfold sent_by, queued_by, received_by, posted_by; rewrite Hh; [done|]. exists [], []. by rewrite Hd.
  - constructor; rewrite ?Hu, ?Hwa; try done. unfold isOpen, isClosing in *. by destruct (cs_state c).
  - intros _ _. right. by rewrite Hd.
Qed.

Lemma arrived_other k x : k ≠ i → holds k x (nt_connections n) → conn_good r w n' k x.
Proof using Hb Ha.
  intros Hne Hk. destruct (no_good _ _ _ Hb _ _ Hk) as [[C1 C2 C3 C4 C5] Hw Hf].
  destruct (av_rest _ _ _ _ _ _ Ha) as (E1 & E2 & E3 & E4 & E5 & E6 & E7 & E8).
  destruct (av_registrations _ _ _ _ _ _ Ha) as (R1 & R2 & R3 & _).
  constructor; [constructor; [done|by rewrite E5|by rewrite E6| |by rewrite E8]|..].
  - destruct C4 as (k' & p' & reads & H1 & H2 & H3 & H4 & H5 & H6 & H7). exists k', p', reads.
    rewrite (av_indexed _ _ _ _ _ _ Ha), (av_poller _ _ _ _ _ _ Ha), E4, list_lookup_insert_ne by done.
    rewrite lookup_insert_ne by (intros E; pose proof (av_unused _ _ _ _ _ _ Ha); congruence).
    split_and!; try done. apply R2. right. split; [|done]. intros ->. by destruct (R3 p').
  - intros Hx. destruct (Hw Hx). constructor; try done. by rewrite E7.
  - intros Hx. unfold conn_frames. rewrite E4. by apply Hf.
Qed.

Lemma arrived_log : log_ok n'.
Proof using Hb Ha.
  destruct (no_log _ _ _ Hb) as [L1 L2 L3 L4 L5]. destruct (av_rest _ _ _ _ _ _ Ha) as (_ & _ & _ & _ & _ & _ & _ & E8).
  destruct (av_counts _ _ _ _ _ _ Ha) as (_ & _ & Hl). destruct (av_fresh _ _ _ _ _ _ Ha) as (Hg & _).
  pose proof (av_holds _ _ _ _ _ _ Ha) as Hh. pose proof (so_last _ _ (ct_slots _ _ (no_connections _ _ _ Hb))).
  constructor; rewrite E8; [| done| |done|done].
  - intros e g He Hev. specialize (L1 e g He Hev). lia.
  - intros g. rewrite L3, Hl. split.
    + intros [Hr Hno]. split; [lia|]. intros (k & x & [[-> ->]|[_ Hx]]%Hh & E); [lia|]. apply Hno. eauto.
    + intros [Hr Hno]. destruct (decide (g = cs_generation c)) as [->|Hne]; [destruct Hno; exists i, c; split; [apply Hh; by left|done]|].
      split; [lia|]. intros (k & x & Hx & E). apply Hno. exists k, x. split; [|done]. apply Hh. right. split; [|done]. intros ->.
      by apply (av_vacant _ _ _ _ _ _ Ha x).
Qed.

Lemma arrived_ok : net_base r w n'.
Proof using Hb Ha.
  destruct (av_rest _ _ _ _ _ _ Ha) as (E1 & E2 & E3 & E4 & E5 & E6 & E7 & E8). pose proof (av_holds _ _ _ _ _ _ Ha) as Hh.
  destruct (av_registrations _ _ _ _ _ _ Ha) as (R1 & R2 & R3 & R4 & R5). destruct (av_counts _ _ _ _ _ _ Ha) as (A1 & A2 & A3).
  destruct (av_registration _ _ _ _ _ _ Ha) as [P1 P2].
  assert (Hqueue : ∀ q, queue_ok n q → queue_ok n' q).
  { intros q [Q1 Q2 Q3]. constructor; [done|done|]. intros h Hx. specialize (Q3 h Hx). lia. }
  constructor.
  - apply Ha.
  - done.
  - rewrite A2. apply Hb.
  - rewrite R5. apply Hb.
  - rewrite (av_indexed _ _ _ _ _ _ Ha), length_insert. apply Hb.
  - intros k x [[-> ->]|[Hne Hx]]%Hh; [apply arrived_good|by apply arrived_other].
  - intros k Hk Hv. rewrite (av_indexed _ _ _ _ _ _ Ha). destruct (decide (k = i)) as [->|Hne]; [destruct (Hv c); apply Hh; by left|].
    rewrite list_lookup_insert_ne by done. apply (no_vacant _ _ _ Hb); [done|]. intros x Hx. apply (Hv x), Hh. by right.
  - intros k q [[-> ->]|[Hne Hq]]%R2.
    + rewrite P1. exists i, c. rewrite (av_indexed _ _ _ _ _ _ Ha). split_and!; [apply Hh; by left|done|].
      apply list_lookup_insert_eq, (av_index _ _ _ _ _ _ Ha).
    + pose proof (no_owners _ _ _ Hb _ _ Hq) as Ho. rewrite E2, (av_indexed _ _ _ _ _ _ Ha). destruct (pr_connection q) as [h|]; [|done].
      destruct Ho as (i0 & c0 & Hi0 & Hc0 & Hx). assert (i0 ≠ i) by (intros ->; by destruct (av_vacant _ _ _ _ _ _ Ha c0)).
      exists i0, c0. rewrite list_lookup_insert_ne by done. split_and!; try done. apply Hh. by right.
  - pose proof (no_listener _ _ _ Hb) as Hl. unfold listener_ok in *. rewrite E1, E2, E3. destruct (nt_listener n) as [fd|]; [|done].
    destruct (nt_listener_registration n) as [rh|]; [|done]. destruct Hl as (k & q & Hk & Erh & Hn & Hd & Hp). exists k, q.
    rewrite (av_poller _ _ _ _ _ _ Ha), lookup_insert_ne by (intros E; pose proof (av_unused _ _ _ _ _ _ Ha); congruence).
    split_and!; try done. apply R2. right. split; [|done]. intros ->. by destruct (R3 q).
  - rewrite R4, A1, E1, (no_count _ _ _ Hb). lia.
  - rewrite E5. apply Hqueue, (no_reads _ _ _ Hb).
  - rewrite E6. apply Hqueue, (no_writes _ _ _ Hb).
  - rewrite E7. apply Hb.
  - apply arrived_log.
Qed.
End arrived.

Context (Hsetup : net_setup_ok).

(** ** Accepting *)

Lemma makeConnectionSlot_ok socket ref :
  0 <= socket → isValid (cref_generation ref) = true → ∃ c, makeConnectionSlot socket ref limits = Ret c.
Proof using Hsetup.
  intros Hs Hv. pose proof (ns_valid Hsetup) as Hcfg. pose proof (ns_hard Hsetup). unfold network_config_valid in Hcfg.
  repeat (apply andb_prop in Hcfg as [Hcfg ?]). to_prop.
  destruct (makeWriteBuffer_ok (write_soft_watermark_bytes limits) (write_hard_limit_bytes limits)) as (b & Hb & _); [lia|done|].
  unfold makeConnectionSlot, throw_if. rewrite Hb, Hv. cbn.
  destruct (_ || _) eqn:E; to_prop; [lia|]. eauto.
Qed.

Lemma makeConnectionSlot_fresh socket ref c :
  makeConnectionSlot socket ref limits = Ret c →
  cs_reference c = ref ∧ cs_socket c = socket ∧ connection_ok limits c ∧ isOpen c = true ∧ unsent_bytes c = [] ∧
  unread (cs_decoder c) = [] ∧ cs_read_queued c = false ∧ cs_write_queued c = false ∧ cs_waiting_epollout c = false.
Proof using Hsetup.
  pose proof (ns_valid Hsetup) as Hcfg. pose proof (ns_hard Hsetup). unfold network_config_valid in Hcfg.
  repeat (apply andb_prop in Hcfg as [Hcfg ?]). to_prop.
  destruct (makeWriteBuffer_ok (write_soft_watermark_bytes limits) (write_hard_limit_bytes limits)) as (b & Hb & Hbok & Hp & _ & Hhard); [lia|done|].
  unfold makeConnectionSlot, throw_if. rewrite Hb. cbn. destruct (_ || _); [done|]. intros [= <-]. split_and!; try done.
  constructor; try done; [constructor; simpl; [lia|constructor]|]. unfold bufferedBytes. cbn. lia.
Qed.

(** One client joins, or the worker has used up its generations. *)
Lemma admit_client_ok fd n :
  net_ok None None n → hasCapacity (nt_connections n) = true → 0 <= fd → nt_poller n !! fd = None →
  match admit_client fd n with NDone b n' => b = true ∧ net_ok None None n' | NFailed f => net_excused f = true end.
Proof using Hsetup.
  intros Hok Hcap Hfd Hnew. unfold admit_client. rewrite kernel_bind. destruct (k_configure _ _ (nt_kernel n)) as [ok k]. cbn [fst snd].
  destruct ok; [cbn [negb]|done]. pose proof (net_ok_quiet _ _ _ k (nt_metrics n) (nt_sink n) Hok) as Hok1. rewrite <-set_kernel_quiet in Hok1.
  set (n1 := set_kernel k n) in *. change (hasCapacity (nt_connections n1) = true) in Hcap. change (nt_poller n1 !! fd = None) in Hnew.
  clearbody n1. clear Hok n. rewrite nget_bind.
  destruct (makeConnectionSlot_ok fd (mkConnectionRef 0 1 net_self) Hfd eq_refl) as (c0 & Hc0).
  destruct (conn_tryReserve_ok (no_connections _ _ _ Hok1) limits fd c0 Hfd Hc0 Hcap) as [->|(i & c & t1 & -> & Hc & Hr & Hcom & _)]; [done|].
  destruct (makeConnectionSlot_fresh _ _ _ Hc) as (Href & Hsock & Hfresh). rewrite nmodify_bind.
  assert (Hconn : connection i (set_connections t1 n1) = NDone c (set_connections t1 n1)).
  { unfold connection. rewrite nget_bind. cbn. by rewrite (ra_pending _ _ _ _ _ Hr). }
  rewrite (bind_NDone _ _ _ _ _ Hconn), nget_bind. cbn [nt_registrations set_connections].
  destruct (reg_tryReserve_ok (no_registrations _ _ _ Hok1) fd PollClientConnection (Some (cs_handle c)) Hfd) as
    [->|(j & p & t2 & -> & Hr2 & Hcom2 & _ & Hp & Hpd & Hpc & _)]; [right; eauto|exact (registrations_room Hsetup None None n1 Hok1 Hcap)|done|].
  rewrite nmodify_bind, nget_bind. cbn [nt_registrations set_registrations]. rewrite (ra_pending _ _ _ _ _ Hr2). cbn [mbind option_bind slot_entry].
  rewrite nrequire_bind. unfold epoll_add. rewrite !nbind_assoc, kernel_bind. destruct (k_epoll _) as [[] k']; cbn [fst snd]; [|done].
  rewrite !nbind_assoc, nget_bind. unfold poller_add. cbn [nt_poller set_kernel set_registrations set_connections]. rewrite Hnew. cbn [has_value].
  rewrite !nbind_assoc, nrequire_bind, !nmodify_bind, ncount_bind. cbn [mret N_ret].
  assert (Hid : Z.to_nat (handle_id (cs_handle c)) = i) by (unfold cs_handle; rewrite Href; cbn; lia). rewrite Hid. split; [done|].
  match goal with |- net_ok _ _ ?n2 => assert (Ha : arrived i c j p n1 n2) end.
  { destruct (ra_commit_counts _ _ _ _ _ Hr) as (_ & A1 & A2 & A3). destruct (ra_commit_counts _ _ _ _ _ Hr2) as (_ & A4 & A5 & _).
    constructor; cbn; try done.
    - exact (ra_committed _ _ _ _ _ Hr).
    - exact (ra_vacant _ _ _ _ _ Hr).
    - unfold cs_generation. by rewrite Href.
    - rewrite (no_indexed _ _ _ Hok1). pose proof (ra_lt _ _ _ _ _ Hr). pose proof (no_capacity _ _ _ Hok1) as Hx. unfold st_capacity, zlen in Hx. lia.
    - split_and!; try done; [exact (ra_committed _ _ _ _ _ Hr2)|exact (ra_vacant _ _ _ _ _ Hr2)].
    - by rewrite Hsock.
    - by rewrite Hsock.
    - by rewrite Hsock. }
  constructor; [exact (arrived_ok Hok1 Ha)|]. cbn. intros Hl Hpa. destruct (no_paused _ _ _ Hok1 Hl Hpa); [by left|congruence].
Qed.

Definition accept_measure (limit accepted : Z) n : nat := Z.to_nat (limit - accepted) * Datatypes.S interruptions + patience (nt_kernel n).

(** A client more pays for the interruptions that follow it. *)
Lemma accept_measure_client limit accepted n n' :
  accepted < limit → (accept_measure limit (accepted + 1) n' < accept_measure limit accepted n)%nat.
Proof.
  intros Hl. unfold accept_measure. pose proof (patience_bounded (nt_kernel n')).
  replace (Z.to_nat (limit - accepted)) with (Datatypes.S (Z.to_nat (limit - (accepted + 1)))) by lia. cbn. lia.
Qed.

Lemma accept_loop_ok fuel b started limit : ∀ accepted n,
  net_ok None None n → (accept_measure limit accepted n < fuel)%nat →
  match accept_loop fuel b started limit accepted n with NDone _ n' => net_ok None None n' | NFailed f => net_excused f = true end.
Proof using Hsetup.
  induction fuel as [|fuel IH]; intros accepted n Hok Hm; [lia|]. cbn [accept_loop]. destruct (Z.leb_spec limit accepted) as [|Hlim]; [done|].
  rewrite budgetExpired_bind. pose proof (net_ok_quiet _ _ _ (k_now (nt_kernel n)).2 (nt_metrics n) (nt_sink n) Hok) as Hok1.
  rewrite <-set_kernel_quiet in Hok1.
  assert (Hm1 : (accept_measure limit accepted (set_kernel (k_now (nt_kernel n)).2 n) < Datatypes.S fuel)%nat)
    by (unfold accept_measure in *; cbn; rewrite now_patient; lia).
  set (n1 := set_kernel _ _) in *. destruct (_ <=? (k_now (nt_kernel n)).1 - _); [done|]. clearbody n1. clear Hok Hm n.
  rewrite nget_bind. cbn [id]. destruct (listener_capacity n1) eqn:Hcap; cbn [negb].
  2: { apply (nhoare_bind (fun n => net_ok None None n ∧ hasCapacity (nt_connections n) = false) pauseListener _ (fun _ => net_ok None None) (fun _ => net_ok None None));
       [apply pauseListener_ok|by intros []; apply nhoare_ret|]. split; [done|]. unfold listener_capacity in Hcap.
       destruct (hasCapacity (nt_connections n1)) eqn:Hc; [|done]. by rewrite (registrations_room Hsetup _ _ n1 Hok1 Hc) in Hcap. }
  unfold listener_capacity in Hcap. apply andb_prop in Hcap as [Hcap _]. rewrite kernel_bind.
  pose proof (accept_patient (dom (nt_poller n1)) (nt_kernel n1)) as Hpat. pose proof (accept_fresh (dom (nt_poller n1)) (nt_kernel n1)) as Hfresh.
  destruct (k_accept (dom (nt_poller n1)) (nt_kernel n1)) as [answer k]. cbn [fst snd].
  pose proof (net_ok_quiet _ _ _ k (nt_metrics n1) (nt_sink n1) Hok1) as Hok2. rewrite <-set_kernel_quiet in Hok2.
  destruct answer as [fd| | |]; [|done| |done].
  - destruct (Hfresh fd k eq_refl) as [Hfd Hnew]. apply not_elem_of_dom in Hnew.
    pose proof (admit_client_ok fd (set_kernel k n1) Hok2 Hcap Hfd Hnew) as Ha. unfold mbind at 1, N_bind at 1.
    destruct (admit_client fd (set_kernel k n1)) as [ok n2|]; [|done]. destruct Ha as [-> Hok3]. cbn [negb]. rewrite budgetExpired_bind.
    pose proof (net_ok_quiet _ _ _ (k_now (nt_kernel n2)).2 (nt_metrics n2) (nt_sink n2) Hok3) as Hok4. rewrite <-set_kernel_quiet in Hok4.
    destruct (_ <=? (k_now (nt_kernel n2)).1 - _); [done|]. apply IH; [done|].
    pose proof (accept_measure_client limit accepted n1 (set_kernel (k_now (nt_kernel n2)).2 n2) Hlim). lia.
  - apply IH; [done|]. specialize (Hpat k eq_refl). unfold accept_measure in *. cbn. lia.
Qed.

Lemma acceptPendingClients_ok b started accepted :
  nhoare (net_ok None None) (acceptPendingClients b started accepted) (fun _ (n : Net) => net_ok None None n).
Proof using Hsetup.
  intros n Hok. unfold acceptPendingClients. rewrite nget_bind. cbn [id]. destruct (_ || _ || _); [done|]. apply accept_loop_ok; [done|].
  unfold accept_fuel, accept_measure. pose proof (patience_bounded (nt_kernel n)). lia.
Qed.

(** ** Poll events *)

(** The kernel takes bytes again: from waiting to the write queue. *)
Lemma on_writable_ok n i c :
  net_ok None None n → holds i c (nt_connections n) → cs_waiting_epollout c = true →
  match on_writable i (cs_handle c) n with NDone _ n' => net_ok None None n' | NFailed f => net_excused f = true end.
Proof using Hsetup.
  intros Hok Hi Hwait. pose proof (touched_refl _ _ _ _ _ Hok Hi) as Hr. unfold on_writable, update_connection, put_connection.
  rewrite nbind_assoc, (bind_NDone _ _ _ _ _ (touched_connection Hi c n Hr)), nmodify_bind, ncount_bind.
  set (c1 := setWaitingEpollout false c). set (n1 := set_metrics _ _).
  assert (Ht : touched i c c1 n n1) by (apply touched_metric; by apply (touched_put Hi c c1 n)).
  pose proof (no_good _ _ _ Hok _ _ Hi) as [Hcore Hwork Hframes]. destruct (Hwork ltac:(done)) as [W1 W2 W3].
  destruct (W1 Hwait) as [Hnq Hne]. apply core_books in Hcore as [[K1 K2 K3 K4] _].
  pose proof (updateConnectionInterest_run Hok Hi c1 n1 Ht) as Hint. unfold mbind at 1, N_bind at 1.
  destruct (updateConnectionInterest i n1) as [[] n2|f]; [|done]. destruct Hint as (Ht2 & Hreg2 & Hsame).
  assert (Hc2 : conn_core n2 i c1).
  { apply core_books. split; [|done]. apply (books_same n1); [done|]. constructor; try done; [by destruct K1|]. by apply (stream_ok_same (nt_log n) _ c). }
  rewrite (bind_NDone _ _ _ _ _ (touched_connection Hi _ _ Ht2)). change (cs_write_queued c1) with (cs_write_queued c). rewrite Hnq.
  destruct (enqueueWrite_run Hok Hi c1 n2 Ht2 Hc2) as (b & n3 & Hrun & Hfull & Ht3 & Hc3 & _). rewrite (bind_NDone _ _ _ _ _ Hrun).
  assert (Hgood : ∀ n4 c4 w4, touched i c c4 n n4 → conn_core n4 i c4 → cs_state c4 = cs_state c → cs_decoder c4 = cs_decoder c →
      cs_read_queued c4 = cs_read_queued c → (w4 ≠ Some (cs_handle c) → conn_work n4 c4) → net_ok None w4 n4).
  { intros n4 c4 w4 Ht4 Hc4 E1 E2 E3 Hw4. apply (net_ok_touched None None None w4 n n4 i c c4 Hok Hi Ht4); [done|done|].
    constructor; [done|by rewrite (touched_handle _ _ Ht4)|].
    intros _. unfold conn_frames, isOpen in *. rewrite E1, E2, E3, (tc_stopping _ _ _ _ _ Ht4). by apply Hframes. }
  destruct b.
  - cbn. apply (Hgood n3 (setWriteQueued true c1)); try done. intros _. constructor; [done|by left|]. intros Hx. destruct (W3 Hx) as [Hu Ht'].
    split; [done|]. by apply (tc_heap _ _ _ _ _ Ht3).
  - destruct (Hfull eq_refl) as [_ ->]. apply (forceClose_then Hsetup None (Some (cs_handle c))); [by apply (Hgood n2 c1)|done|]. by intros h' Hne' [= <-].
Qed.

(** A readable open connection joins the read queue. *)
Lemma on_readable_ok n i c :
  net_ok None None n → holds i c (nt_connections n) →
  match (queued ← enqueueRead i; if queued : bool then mret () else forceClose (cs_handle c) CloseOverload) n with
  | NDone _ n' => net_ok None None n' | NFailed f => net_excused f = true
  end.
Proof using Hsetup.
  intros Hok Hi. pose proof (touched_refl _ _ _ _ _ Hok Hi) as Hr. pose proof (no_good _ _ _ Hok _ _ Hi) as [Hcore Hwork _].
  destruct (enqueueRead_run Hok Hi c n Hr Hcore) as (b & n2 & Hrun & Hfull & Ht & Hc2 & _). rewrite (bind_NDone _ _ _ _ _ Hrun). destruct b.
  - cbn. apply (net_ok_touched None None None None n n2 i c _ Hok Hi Ht); [done|done|]. constructor; [done| |by intros _ _ _; left].
    intros _. by apply (conn_work_same n _ i c); [apply Hwork|done|].
  - destruct (Hfull eq_refl) as [_ ->]. by apply (forceClose_ok Hsetup None None None None).
Qed.

Lemma on_connection_event_ok e : nhoare (net_ok None None) (on_connection_event e) (fun _ (n : Net) => net_ok None None n).
Proof using Hsetup.
  intros n Hok. unfold on_connection_event. rewrite nget_bind. destruct (reg_lookup_token _ _ ≫= pr_connection) as [h|]; [|by apply ncount_ok].
  unfold find_connection. rewrite nget_bind. destruct (conn_find h (nt_connections n)) as [i|] eqn:Hf; [|by apply ncount_ok].
  destruct (found_connection _ _ _ _ _ Hok Hf) as (c & Hi & Hh). pose proof (touched_refl _ _ _ _ _ Hok Hi) as Hr.
  rewrite (bind_NDone _ _ _ _ _ (touched_connection Hi c n Hr)). subst h. destruct (negb _); [by apply ncount_ok|].
  destruct (event_error e || event_hangup e); [by apply (forceClose_ok Hsetup None None None None)|].
  assert (Hgo : match (if event_writable e && cs_waiting_epollout c then on_writable i (cs_handle c) else mret true) n with
    | NDone _ n' => net_ok None None n' | NFailed f => net_excused f = true end).
  { destruct (event_writable e && cs_waiting_epollout c) eqn:E; [|done]. apply andb_prop in E as [_ E]. by apply on_writable_ok. }
  unfold mbind at 1, N_bind at 1. destruct ((if event_writable e && cs_waiting_epollout c then on_writable i (cs_handle c) else mret true) n) as [[] n1|]; [|done|done]. cbn [negb].
  rewrite nget_bind. destruct (conn_find (cs_handle c) (nt_connections n1)) as [i1|] eqn:Hf1; [|done].
  destruct (found_connection _ _ _ _ _ Hgo Hf1) as (c1 & Hi1 & Hh1). rewrite nget_bind. cbn [id].
  rewrite (bind_NDone _ _ _ _ _ (touched_connection Hi1 c1 n1 (touched_refl _ _ _ _ _ Hgo Hi1))). rewrite <-Hh1.
  destruct (_ && _ && _ && _); [by apply on_readable_ok|done].
Qed.

(** A note of a database connection is outside the connections' histories. *)
Lemma net_ok_db r w n token : net_ok r w n → net_ok r w (set_log (nt_log n ++ [DbPolled token]) n).
Proof.
  assert (Hh : ∀ g l, history g (l ++ [DbPolled token]) = history g l) by (intros; by apply history_other).
  assert (Hcl : ∀ l, closed_of (l ++ [DbPolled token]) = closed_of l) by (intros; unfold closed_of; rewrite omap_app; apply app_nil_r).
  intros [[B1 B2 B3 B4 B5 B6 B7 B8 B9 B10 B11 B12 B13 [L1 L2 L3 L4 L5]] Hp]. constructor; [|done]. constructor; try done.
  - intros i c Hc. destruct (B6 i c Hc) as [[C1 C2 C3 C4 C5] Hw Hf]. constructor; [constructor; try done| |done].
    + apply (stream_ok_same (nt_log n) _ c); try done. apply Hh.
    + intros Hx. destruct (Hw Hx). by constructor.
  - by destruct B11.
  - by destruct B12.
  - constructor; cbn [nt_log set_log].
    + intros e g [He|He%list_elem_of_singleton]%elem_of_app Hg; [by eapply L1|by subst e].
    + intros g. apply (past_ok_same (nt_log n)); [apply Hh|done].
    + intros g. rewrite Hcl. apply L3.
    + by rewrite Hcl.
    + intros l1 g reason l2 E. apply app_eq_app in E as [k [[E Ek]|[E Ek]]].
      * destruct k as [|x k]; [done|]. injection Ek as <- ->. rewrite Hh. by eapply L5.
      * destruct k as [|x k]; [done|]. injection Ek as _ Ek. by destruct k.
Qed.

Lemma on_poll_event_ok b started accepted e :
  nhoare (net_ok None None) (on_poll_event b started accepted e) (fun _ (n : Net) => net_ok None None n).
Proof using Hsetup.
  unfold on_poll_event. destruct (tok_kind (event_token e)) as [[]|]; try by apply nhoare_ret.
  - eapply nhoare_bind; [apply ncount_ok|]. intros []. by apply nhoare_ret.
  - eapply nhoare_bind; [apply on_connection_event_ok|]. intros []. by apply nhoare_ret.
  - intros n Hok. rewrite nlog_bind. by apply net_ok_db.
  - apply nhoare_read. intros n0 n [_ Hok]. destruct (_ && _); [by apply acceptPendingClients_ok|done].
Qed.

Lemma poll_loop_ok b started events : ∀ processed accepted,
  nhoare (net_ok None None) (poll_loop b started processed accepted events) (fun _ (n : Net) => net_ok None None n).
Proof using Hsetup.
  induction events as [|e events IH]; intros processed accepted; cbn [poll_loop]; [by apply nhoare_ret|].
  destruct (_ <=? _); [by apply nhoare_ret|]. eapply nhoare_bind; [apply budgetExpired_ok|]. intros []; [by apply nhoare_ret|].
  eapply nhoare_bind; [apply on_poll_event_ok|]. intros accepted'. apply IH.
Qed.

Lemma processPollEvents_ok events b : nhoare (net_ok None None) (processPollEvents events b) (fun _ (n : Net) => net_ok None None n).
Proof using Hsetup Heap.
  eapply nhoare_bind; [apply kernel_ok|]. intros started. eapply nhoare_bind; [apply poll_loop_ok|]. intros exhausted.
  eapply nhoare_bind; [apply budgetExpired_ok|]. intros late. apply (nhoare_bind _ _ _ (fun _ => net_ok None None)).
  - destruct late; [by apply nhoare_ret|by apply processReadQueue_ok].
  - intros []. destruct (exhausted || late); [apply ncount_ok|by apply nhoare_ret].
Qed.
End poll.
