(* ===== verification/NetworkWrite.v ===== *)
(** * Writing

    [flushWrites] keeps the invariant: the bytes the kernel takes are the next
    ones of the frames queued, and afterwards the connection is in the queue
    again, waits for the kernel, is idle or is closed. *)

From S2P Require Import Prelude Connection Wire FrameCodec Session Identity TimerQueue HandleRing SlotTable ActorTable Actor WorkerConnection ConnectionTables Network NetworkInv NetworkOps NetworkClose NetworkSend NetworkRead.

Section write.
Context {M S K : Type} `{Setup : !NetSetup M} `{Heap : !HeapAlgorithms (entry_deadline (M := M))}.
Context `{Kernel : !NetKernel K} `{Sink : !RequestSink S}.

Abbreviation Net := (Net M S K).
Abbreviation N := (N M S K).
Abbreviation limits := (table_limits (net_table net_config)).
Abbreviation writes := (nt_write_queue (M := M) (S := S) (K := K)).
Abbreviation capacity := (table_capacity (net_table net_config)).
Implicit Types (n : Net) (c : ConnectionSlot) (p : PollRegistration) (h : ConnectionHandle) (l : list NetEvent) (i j : nat).
Implicit Types (r w : option ConnectionHandle).

(** ** The connection being written *)

(** It is in no queue and waits for nothing; the rest of its duties stand. *)
Record writing_now h i c n : Prop := {
  wn_ok : net_ok None (Some h) n;
  wn_holds : holds i c (nt_connections n);
  wn_handle : cs_handle c = h;
  wn_free : cs_write_queued c = false ∧ cs_waiting_epollout c = false;
  wn_closing : isClosing c = true → mkTimerEntry (M := M) (cs_close_deadline c) (ConnectionCloseDeadline h) ∈ tq_heap (nt_timers n)
}.

Lemma writing_kernel h i c n k : writing_now h i c n → writing_now h i c (set_kernel k n).
Proof. intros [H1 H2 H3 H4 H5]. constructor; try done. rewrite set_kernel_quiet. by apply net_ok_quiet. Qed.

(** A step on the connection that leaves its state and its decoder alone. *)
Lemma writing_step h i c n n1 c1 w :
  writing_now h i c n → touched i c c1 n n1 → conn_core n1 i c1 → cs_state c1 = cs_state c → cs_decoder c1 = cs_decoder c →
  cs_read_queued c1 = cs_read_queued c → (w ≠ Some h → conn_work n1 c1) → net_ok None w n1.
Proof.
  intros [H1 H2 <- H4 H5] Ht Hc E1 E2 E3 Hw. apply (net_ok_touched None (Some (cs_handle c)) None w n n1 i c c1 H1 H2 Ht);
    [done|by intros h' Hne [= <-]|]. constructor; [done|by rewrite (touched_handle _ _ Ht)|].
  intros _. pose proof (cg_frames _ _ _ _ _ (no_good _ _ _ H1 _ _ H2) ltac:(done)) as Hf.
  unfold conn_frames, isOpen in *. by rewrite E1, E2, E3, (tc_stopping _ _ _ _ _ Ht).
Qed.

(** ** Bytes leave *)

Lemma sent_stream l c b bs :
  stream_ok l c → unsent_bytes c = bs ++ pending b → stream_ok (l ++ [Sent (cs_generation c) bs]) (set_write_buffer b c).
Proof.
  intros [H1 H2] Hp.
  assert (Hh : history (cs_generation c) (l ++ [Sent (cs_generation c) bs]) = history (cs_generation c) l ++ [Sent (cs_generation c) bs])
    by (by apply history_same).
  constructor; unfold sent_by, queued_by, received_by, posted_by in *; change (cs_generation (set_write_buffer b c)) with (cs_generation c); rewrite Hh.
  - unfold sent_of, queued_of in *. rewrite bind_app, omap_app. cbn. rewrite !app_nil_r, <-H1, <-app_assoc. f_equal. by rewrite Hp.
  - unfold received_of, posted_of in *. rewrite bind_app, omap_app. cbn. by rewrite !app_nil_r.
Qed.

Lemma sent_step h i c n bs b :
  writing_now h i c n → buffer_ok b → same_limits (cs_write_buffer c) b →
  unsent_bytes c = bs ++ pending b →
  writing_now h i (set_write_buffer b c)
    (set_connections (write i (set_write_buffer b c) (nt_connections n)) (set_log (nt_log n ++ [Sent (cs_generation c) bs]) n)).
Proof.
  intros Hn Hb Hl Hp. pose proof Hn as [H1 H2 H3 H4 H5]. pose proof (touched_refl _ _ _ _ _ H1 H2) as Hr.
  pose proof (cg_core _ _ _ _ _ (no_good _ _ _ H1 _ _ H2)) as [C1 C2 C3 C4 C5].
  set (n1 := set_connections _ _). assert (Ht : touched i c (set_write_buffer b c) n n1).
  { apply (touched_put H2 c _ (set_log (nt_log n ++ [Sent (cs_generation c) bs]) n)); [|done|done]. by apply (touched_log c n). }
  constructor; try done; [|by apply (touched_holds H2 _ _ Ht)].
  apply (writing_step h i c n n1 (set_write_buffer b c)); try done.
  constructor; cbn; try done; [by apply write_buffer_ok|by apply sent_stream].
Qed.

Definition send_measure (b : ByteTimeBudget) (written : Z) n : nat :=
  Z.to_nat (max_bytes b - written) * Datatypes.S interruptions + patience (nt_kernel n).

Lemma send_measure_bytes b written (count : nat) n n' :
  written < max_bytes b → (0 < count)%nat → (send_measure b (written + Z.of_nat count) n' < send_measure b written n)%nat.
Proof.
  intros Hw Hc. unfold send_measure. pose proof (patience_bounded (nt_kernel n')).
  assert (Z.to_nat (max_bytes b - (written + Z.of_nat count)) + 1 <= Z.to_nat (max_bytes b - written))%nat by lia. nia.
Qed.

(** The loop ends with everything sent, or with bytes left and the reason. *)
Definition sent_done h i (r : FlushEnd * Z) n : Prop := ∃ c, writing_now h i c n ∧
  match r.1 with FlushDrained => unsent_bytes c = [] | FlushBroken => True | _ => unsent_bytes c ≠ [] end.

Lemma writing_metrics h i c n m : writing_now h i c n → writing_now h i c (set_metrics m n).
Proof. intros [H1 H2 H3 H4 H5]. constructor; try done. rewrite set_metrics_quiet. by apply net_ok_quiet. Qed.

Lemma send_loop_ok fuel h i b started : ∀ written c n,
  writing_now h i c n → (send_measure b written n < fuel)%nat →
  match send_loop fuel i b started written n with NDone r n' => sent_done h i r n' | NFailed f => net_excused f = true end.
Proof.
  induction fuel as [|fuel IH]; intros written c n Hn Hm; [lia|]. cbn [send_loop]. pose proof Hn as [H1 H2 H3 _ _].
  rewrite (bind_NDone _ _ _ _ _ (touched_connection H2 c n (touched_refl _ _ _ _ _ H1 H2))).
  pose proof (cc_ok _ _ _ (cg_core _ _ _ _ _ (no_good _ _ _ H1 _ _ H2))) as Hc. rewrite (hasPendingWrite_spec limits c Hc).
  case_bool_decide as Hpend; cbn [negb]; [|exists c; split; [done|]; exact Hpend].
  destruct (Z.leb_spec (max_bytes b) written) as [|Hw]; [by exists c|]. rewrite budgetExpired_bind.
  assert (Hm1 : (send_measure b written (set_kernel (k_now (nt_kernel n)).2 n) < Datatypes.S fuel)%nat)
    by (unfold send_measure in *; cbn; rewrite now_patient; lia).
  apply (writing_kernel _ _ _ _ (k_now (nt_kernel n)).2) in Hn. set (n1 := set_kernel _ _) in *.
  destruct (_ <=? (k_now (nt_kernel n)).1 - _); [by exists c|]. clearbody n1. clear H1 H2 Hm n.
  rewrite kernel_bind. set (chunk := take _ _).
  assert (Hchunk : (0 < length chunk <= length (pendingWriteBytes c))%nat ∧ chunk = take (length chunk) (pendingWriteBytes c)).
  { pose proof (frontBytes_nonempty _ (co_buffer _ _ Hc) Hpend) as Hf. unfold chunk. rewrite length_take. fold (pendingWriteBytes c) in Hf.
    assert (0 < length (pendingWriteBytes c))%nat by (destruct (pendingWriteBytes c); [done|cbn; lia]). unfold zlen. split; [lia|].
    rewrite <-(firstn_all (take _ (pendingWriteBytes c))) at 1. rewrite take_take. f_equal. rewrite length_take. lia. }
  destruct Hchunk as [Hlen Hchunk]. pose proof (send_patient (cs_socket c) chunk (nt_kernel n1)) as Hpat.
  pose proof (send_bounded (cs_socket c) chunk (nt_kernel n1)) as Hsend. destruct (k_send _ _ _) as [sent k]. cbn [fst snd].
  apply (writing_kernel _ _ _ _ k) in Hn. destruct sent as [count| | |].
  - specialize (Hsend count k eq_refl). unfold consumeWrittenBytes.
    destruct (write_consume_spec count _ (co_buffer _ _ Hc)) as (finished & b' & -> & Hb' & Hl' & Hp'); [unfold pendingWriteBytes in *; lia|]. cbn [mbind].
    cbn. rewrite nlog_bind. unfold put_connection. rewrite nmodify_bind.
    assert (Hbs : take count chunk = take count (pendingWriteBytes c)) by (rewrite Hchunk, take_take; f_equal; lia). rewrite Hbs.
    pose proof (sent_step h i c _ (take count (pendingWriteBytes c)) b' Hn Hb' Hl' Hp') as Hn2. set (n2 := set_connections _ _) in *.
    destruct finished.
    + rewrite ncount_bind. apply (IH _ (set_write_buffer b' c)); [by apply writing_metrics|].
      pose proof (send_measure_bytes b written count n1 (set_metrics (sent_frames :: nt_metrics n2) n2)). lia.
    + rewrite nret_bind. apply (IH _ (set_write_buffer b' c)); [done|]. pose proof (send_measure_bytes b written count n1 n2). lia.
  - apply (IH _ c); [done|]. specialize (Hpat k eq_refl). unfold send_measure in *. cbn. lia.
  - by exists c.
  - by exists c.
Qed.

(** ** After the loop *)

Context (Hsetup : net_setup_ok).

(** The kernel is told about a connection whose write flags were settled. *)
Lemma settle_interest h i c c1 n n1 :
  writing_now h i c n → touched i c c1 n n1 → conn_books n1 c1 → cs_state c1 = cs_state c → cs_decoder c1 = cs_decoder c →
  cs_read_queued c1 = cs_read_queued c → conn_work n1 c1 →
  match updateConnectionInterest i n1 with NDone _ n' => net_ok None None n' | NFailed f => net_excused f = true end.
Proof.
  intros Hn Ht Hc E1 E2 E3 Hw. pose proof Hn as [H1 H2 H3 _ _]. pose proof (updateConnectionInterest_run H1 H2 c1 n1 Ht) as Hint.
  destruct (updateConnectionInterest i n1) as [[] n2|]; [|done]. destruct Hint as (Ht2 & Hreg & Hs).
  apply (writing_step h i c n n2 c1 None Hn Ht2); try done.
  - apply core_books. split; [by apply (books_same n1)|done].
  - intros _. destruct Hw as [W1 W2 W3]. constructor; try done. by rewrite (sb_timers _ _ Hs).
Qed.

Lemma settle_write_ok h i (r : FlushEnd * Z) n :
  sent_done h i r n → match settle_write h r.1 n with NDone _ n' => net_ok None None n' | NFailed f => net_excused f = true end.
Proof using Hsetup.
  intros (c & Hn & Hend). pose proof Hn as [H1 H2 H3 [Hq Hwt] Hcl]. pose proof (touched_refl _ _ _ _ _ H1 H2) as Hr.
  assert (Hclose : ∀ why, match forceClose h why n with NDone _ n' => net_ok None None n' | NFailed f => net_excused f = true end).
  { intros why. apply (forceClose_ok Hsetup None (Some h) None None); [done| |done]. by intros h' Hne [= ->]. }
  unfold settle_write. destruct (decide (r.1 = FlushBroken)) as [|Hnb]; [apply Hclose|]. unfold find_connection. rewrite nget_bind.
  rewrite (proj2 (conn_find_holds (no_connections _ _ _ H1) i h) ltac:(eauto)), (bind_NDone _ _ _ _ _ (touched_connection H2 c n Hr)).
  pose proof (cg_core _ _ _ _ _ (no_good _ _ _ H1 _ _ H2)) as Hcore. pose proof (proj1 (core_books _ _ _) Hcore) as [Hbooks _].
  rewrite (hasPendingWrite_spec limits c (cc_ok _ _ _ Hcore)). case_bool_decide as Hpend; cbn [negb].
  - destruct r.1; [by rewrite Hend in Hpend| | |done].
    + rewrite ncount_bind. unfold put_connection. rewrite nmodify_bind. set (n1 := set_connections _ _).
      apply (settle_interest h i c (setWaitingEpollout true c) n n1); try done.
      * exact (touched_put H2 c (setWaitingEpollout true c) (set_metrics _ n) (touched_metric _ _ _ Hr) eq_refl eq_refl).
      * destruct Hbooks as [K1 K2 K3 K4]. constructor; try done; [by destruct K1|]. by apply (stream_ok_same (nt_log n) _ c).
      * constructor; [done|by right|]. intros Hx. split; [done|]. cbn. rewrite <-H3 in Hcl. by apply Hcl.
    + destruct (enqueueWrite_run H1 H2 c n Hr Hcore) as (b & n2 & Hrun & Hfull & Ht2 & Hc2 & _). rewrite (bind_NDone _ _ _ _ _ Hrun). destruct b.
      * cbn. apply (writing_step h i c n n2 (setWriteQueued true c) None Hn Ht2); try done. intros _.
        constructor; cbn; [by rewrite Hwt|by left|]. intros Hx. split; [done|]. rewrite <-H3 in Hcl. by apply (tc_heap _ _ _ _ _ Ht2), Hcl.
      * destruct (Hfull eq_refl) as [_ ->]. apply Hclose.
  - destruct (isClosing c) eqn:Ec; [apply Hclose|]. apply (settle_interest h i c c n n); try done.
    constructor; [by rewrite Hwt|done|by rewrite Ec].
Qed.

(** ** The write queue *)

Lemma net_ok_write_queue r w n q :
  net_ok r w n → ring_ok capacity q → NoDup (ring_items q) → (∀ x, x ∈ ring_items q → x ∈ ring_items (nt_write_queue n)) →
  (∀ i c, holds i c (nt_connections n) → cs_handle c ∈ ring_items (nt_write_queue n) → cs_handle c ∈ ring_items q) →
  net_ok r w (set_write_queue q n).
Proof.
  clear Hsetup.
  intros [[B1 B2 B3 B4 B5 B6 B7 B8 B9 B10 B11 B12 B13 B14] Hp] Hq Hn Hsub Hlive. constructor; [|done]. constructor; try done.
  - intros i c Hc. destruct (B6 i c Hc) as [[C1 C2 C3 C4 C5] Hw Hf]. constructor; [constructor; try done| |done].
    + rewrite C3. apply bool_decide_ext. split; [apply (Hlive i c Hc)|apply Hsub].
    + intros Hx. destruct (Hw Hx). by constructor.
  - by destruct B11.
  - destruct B12 as [_ _ Q3]. constructor; [done|done|]. intros x Hx. by apply Q3, Hsub.
  - by destruct B14.
Qed.

(** A handle leaves the queue: nobody's, or a connection's that is written next. *)
Lemma popped_write n h rest q :
  net_ok None None n → ring_items (nt_write_queue n) = h :: rest → ring_ok capacity q → ring_items q = rest →
  match conn_find h (nt_connections n) with
  | None => net_ok None None (set_write_queue q n)
  | Some i => ∃ c, holds i c (nt_connections n) ∧
      let c1 := setWaitingEpollout false (setWriteQueued false c) in
      writing_now h i c1 (set_connections (write i c1 (nt_connections n)) (set_write_queue q n))
  end.
Proof.
  clear Hsetup.
  intros Hok El Hq Eq. pose proof (qk_nodup _ _ (no_writes _ _ _ Hok)) as Hn. rewrite El in Hn. apply NoDup_cons in Hn as [Hh Hn].
  destruct (conn_find h (nt_connections n)) as [i|] eqn:Hf.
  - destruct (found_connection _ _ _ _ _ Hok Hf) as (c & Hi & Hc). exists c. split; [done|].
    pose proof (no_good _ _ _ Hok _ _ Hi) as [[C1 C2 C3 C4 C5] Hw Hfr]. destruct (Hw ltac:(done)) as [W1 W2 W3].
    assert (Hwq : cs_write_queued c = true) by (rewrite C3, El, Hc; apply bool_decide_eq_true; by left).
    assert (Hwt : cs_waiting_epollout c = false) by (destruct (cs_waiting_epollout c); [destruct (W1 eq_refl); congruence|done]).
    set (c1 := setWaitingEpollout false (setWriteQueued false c)). cbn zeta. set (n1 := set_connections _ _).
    assert (Ht : touched i c c1 n n1).
    { apply (touched_put Hi c c1 (set_write_queue q n)); [|done|done]. apply touched_write_queue; [exact (touched_refl _ _ _ _ _ Hok Hi)|].
      constructor; [done|by rewrite Eq|]. intros x Hx. rewrite Eq, El, elem_of_cons, Hc in *. naive_solver. }
    constructor; [|exact (touched_holds Hi _ _ Ht)|done|done|].
    + apply (net_ok_touched None None None (Some h) n n1 i c c1 Hok Hi Ht); [done|done|].
      constructor; [|by change (cs_handle c1) with (cs_handle c); rewrite Hc|by intros _; apply Hfr].
      constructor; [by destruct C1|done| |by apply (registered_same n _ i c)|by apply (stream_ok_same (nt_log n) _ c)].
      change (false = bool_decide (cs_handle c ∈ ring_items q)). by rewrite Eq, Hc, bool_decide_eq_false_2.
    + intros Hx. destruct (W3 Hx) as [_ He]. by rewrite <-Hc.
  - apply net_ok_write_queue; [done|done|by rewrite Eq|rewrite Eq, El; by right|]. intros i c Hi. rewrite Eq, El, elem_of_cons.
    pose proof (not_found _ _ _ _ _ _ Hok Hf Hi). naive_solver.
Qed.

Lemma send_loop_writes fuel i b started written : keeps writes (send_loop fuel i b started written).
Proof.
  clear Hsetup. revert written. induction fuel as [|fuel IH]; intros written; cbn [send_loop]; [keeping|].
  unfold connection, budgetExpired, nnow, put_connection, ncount, nlog. keeping; auto.
Qed.

Lemma settle_write_writes h why : why ≠ FlushExhausted → keeps writes (settle_write h why).
Proof.
  clear Hsetup. intros Hne. pose proof forceClose_writes. assert (∀ i, keeps writes (updateConnectionInterest i)) by (by apply keeps_interest).
  unfold settle_write, find_connection, connection, put_connection, ncount. keeping; auto; done.
Qed.

Lemma flush_loop_ok fuel b started : ∀ written n,
  net_ok None None n → (length (ring_items (nt_write_queue n)) < fuel)%nat →
  match flush_loop fuel b started written n with NDone _ n' => net_ok None None n' | NFailed f => net_excused f = true end.
Proof using Hsetup Heap.
  induction fuel as [|fuel IH]; intros written n Hok Hm; [lia|]. cbn [flush_loop]. rewrite nget_bind.
  destruct (hr_empty (nt_write_queue n)); [done|]. destruct (_ <=? written); [done|]. rewrite budgetExpired_bind.
  pose proof (net_ok_quiet _ _ _ (k_now (nt_kernel n)).2 (nt_metrics n) (nt_sink n) Hok) as Hok1. rewrite <-set_kernel_quiet in Hok1.
  set (n1 := set_kernel _ _) in *. destruct (_ <=? (k_now (nt_kernel n)).1 - _); [done|].
  change (nt_write_queue n) with (nt_write_queue n1) in Hm. clearbody n1. clear Hok n.
  unfold pop_write. rewrite nbind_assoc, nget_bind, nbind_assoc, nmodify_bind, nret_bind.
  pose proof (work_tryPop_ring _ _ (qk_ring _ _ (no_writes _ _ _ Hok1))) as Hpop.
  destruct (ring_items (nt_write_queue n1)) as [|h rest] eqn:El.
  { destruct Hpop as [-> _]. cbn. by destruct n1. }
  destruct Hpop as (q & -> & Hq & Eq & _). cbn [fst snd]. pose proof (popped_write n1 h rest q Hok1 El Hq Eq) as Hpopped.
  unfold find_connection. rewrite nget_bind. cbn [nt_connections set_write_queue]. cbn in Hm.
  destruct (conn_find h (nt_connections n1)) as [i|] eqn:Hf.
  2: { rewrite ncount_bind. apply IH; [by rewrite set_metrics_quiet; apply net_ok_quiet|]. cbn. rewrite Eq. lia. }
  destruct Hpopped as (c & Hi & Hn2). cbn zeta in Hn2. unfold update_connection, put_connection. rewrite nbind_assoc.
  assert (Hconn : connection i (set_write_queue q n1) = NDone c (set_write_queue q n1)).
  { unfold connection. rewrite nget_bind. cbn [nt_connections set_write_queue]. by rewrite Hi. }
  rewrite (bind_NDone _ _ _ _ _ Hconn), nmodify_bind. set (n2 := set_connections _ _) in *.
  assert (Hfuel : (send_measure b written n2 < send_fuel b written)%nat).
  { unfold send_measure, send_fuel. pose proof (patience_bounded (nt_kernel n2)). lia. }
  pose proof (send_loop_ok _ h i b started written _ n2 Hn2 Hfuel) as Hsend.
  pose proof (send_loop_writes (send_fuel b written) i b started written n2) as Hk. unfold mbind at 1, N_bind at 1.
  destruct (send_loop (send_fuel b written) i b started written n2) as [rw n3|]; [|done].
  pose proof (settle_write_ok h i rw n3 Hsend) as Hset. unfold mbind at 1, N_bind at 1.
  destruct (decide (rw.1 = FlushExhausted)) as [|Hne].
  - by destruct (settle_write h rw.1 n3).
  - pose proof (settle_write_writes h rw.1 Hne n3) as Hk2. destruct (settle_write h rw.1 n3) as [[] n4|]; [|done]. apply IH; [done|].
    rewrite Hk2, Hk. cbn. rewrite Eq. lia.
Qed.

Lemma flushWrites_ok b : nhoare (net_ok None None) (flushWrites b) (fun _ (n : Net) => net_ok None None n).
Proof using Hsetup Heap.
  eapply nhoare_bind; [apply kernel_ok|]. intros started n Hok. rewrite nget_bind. cbn [id]. set (fuel := Datatypes.S _).
  assert (Hf : (length (ring_items (nt_write_queue n)) < fuel)%nat) by (unfold fuel; rewrite (ring_size _ _ (qk_ring _ _ (no_writes _ _ _ Hok))); lia).
  pose proof (flush_loop_ok fuel b started 0 n Hok Hf) as Hl. unfold mbind at 1, N_bind at 1.
  destruct (flush_loop fuel b started 0 n) as [[] n'|]; [|done|done]. by apply ncount_ok.
Qed.
End write.
