(* ===== verification/NetworkStop.v ===== *)
(** * Start, deadlines and shutdown

    The first state of a configured worker satisfies the invariant; close
    deadlines and the network steps of the shutdown keep it; phase A leaves the
    read queue empty and phase D leaves no connection. *)

From S2P Require Import Prelude Connection Wire FrameCodec Session Identity TimerQueue HandleRing SlotTable ActorTable Actor WorkerConnection ConnectionTables Network NetworkInv NetworkOps NetworkClose NetworkSend NetworkRead.

Section stop.
Context {M S K : Type} `{Setup : !NetSetup M} `{Heap : !HeapAlgorithms (entry_deadline (M := M))}.
Context `{Kernel : !NetKernel K} `{Sink : !RequestSink S}.

Abbreviation Net := (Net M S K).
Abbreviation N := (N M S K).
Abbreviation limits := (table_limits (net_table net_config)).
Abbreviation capacity := (table_capacity (net_table net_config)).
Implicit Types (n : Net) (c : ConnectionSlot) (p : PollRegistration) (h : ConnectionHandle) (l : list NetEvent) (i j : nat).
Implicit Types (r w : option ConnectionHandle).

(** ** Start *)

Lemma empty_holds {E} (capacity : Z) i (e : E) : ¬ holds i e (makeSlotTable capacity).
Proof. unfold holds. cbn. by intros [? _]%lookup_replicate. Qed.

Lemma empty_capacity {E} (capacity : Z) : 0 <= capacity → st_capacity (makeSlotTable (E := E) capacity) = capacity.
Proof. intros H. unfold st_capacity, zlen. cbn. rewrite length_replicate. lia. Qed.

(** A worker is configured, and nothing is connected. *)
Lemma configureNetwork_ok poller timers sink k :
  net_setup_ok → is_heap entry_deadline (tq_heap timers) →
  ∃ n, configureNetwork poller timers sink k = Ret n ∧ net_ok None None n ∧ nt_listener n = None ∧ nt_listener_paused n = false ∧
    nt_stopping n = false ∧ nt_poller n = poller ∧ nt_log n = [] ∧ nt_timers n = timers.
Proof.
  intros Hs Ht. pose proof (ns_valid Hs) as Hv. unfold configureNetwork, throw_if. rewrite Hv. cbn [negb].
  unfold network_config_valid in Hv. repeat (apply andb_prop in Hv as [Hv ?]). to_prop.
  assert (Hc : makeConnectionTable (net_table net_config) = Ret (makeSlotTable capacity)).
  { unfold makeConnectionTable, validatedConnectionCapacity, throw_if. by destruct (_ || _) eqn:E; to_prop; [lia|]. }
  assert (Hr : makePollRegistrationTable (poll_registration_capacity net_config) = Ret (makeSlotTable (poll_registration_capacity net_config))).
  { unfold makePollRegistrationTable, throw_if. by destruct (_ || _) eqn:E; to_prop; [lia|]. }
  destruct (makeHandleRing_repr (mkConnectionHandle 0 0) capacity) as (q & Hq & Hrepr); [lia|]. apply repr_ring_ok in Hrepr as [Hring Hitems].
  rewrite Hc, Hr, Hq. cbn. eexists. split; [done|]. split; [|done].
  assert (Hqueue : ∀ n, queue_ok n q) by (intros; constructor; rewrite ?Hitems; [done|by apply NoDup_nil|by intros h ?%elem_of_nil]).
  constructor; [|done]. constructor; cbn; try done.
  - constructor; cbn; try done; [apply makeSlotTable_ok| |rewrite empty_capacity; lia]. intros i c Hx. by destruct (empty_holds capacity i c).
  - constructor; cbn; try done; [apply makeSlotTable_ok| |rewrite empty_capacity; lia]. intros i p Hx. by destruct (empty_holds (poll_registration_capacity net_config) i p).
  - apply empty_capacity. lia.
  - apply empty_capacity. lia.
  - by rewrite length_replicate.
  - intros i c Hx. by destruct (empty_holds capacity i c).
  - intros i Hi _. by apply lookup_replicate.
  - intros j p Hx. by destruct (empty_holds (poll_registration_capacity net_config) j p).
  - constructor; cbn; try done.
    + intros e g ?%elem_of_nil. done.
    + intros g. constructor; [done|]. by exists [].
    + intros g. split; [by intros ?%elem_of_nil|]. intros [? _]. lia.
    + by apply NoDup_nil.
    + intros l1 g reason l2 E. by destruct l1.
Qed.

(** The listener joins the registrations and the kernel's list. *)
Lemma attached_ok n n' fd j p :
  net_base None None n → nt_listener n = None → nt_listener_paused n = false → nt_poller n !! fd = None →
  registrations_ok (nt_registrations n') → (∀ x, ¬ holds j x (nt_registrations n)) →
  (∀ k x, holds k x (nt_registrations n') ↔ (k = j ∧ x = p) ∨ (k ≠ j ∧ holds k x (nt_registrations n))) →
  st_active_count (nt_registrations n') = st_active_count (nt_registrations n) + 1 →
  st_capacity (nt_registrations n') = st_capacity (nt_registrations n) → pr_connection p = None → pr_descriptor p = fd →
  nt_poller n' = <[fd := epoll_event (pr_token p) (mkInterest true false)]> (nt_poller n) →
  n' = set_listener (Some fd) (Some (registration_handle j p)) (set_registrations (nt_registrations n') (set_poller (nt_poller n') (set_kernel (nt_kernel n') n))) →
  net_base None None n'.
Proof.
  intros Hb Hl Hp Hnew R1 R2 R3 R4 R5 P1 P2 Epoll ->. pose proof Hb as [B1 B2 B3 B4 B5 B6 B7 B8 B9 B10 B11 B12 B13 B14].
  constructor; cbn; try done.
  - congruence.
  - intros i c Hc. destruct (B6 i c Hc) as [[C1 C2 C3 C4 C5] Hw Hf]. constructor; [constructor; try done| |done].
    + destruct C4 as (k & q & reads & E1 & E2 & E3 & E4 & E5 & E6 & E7). exists k, q, reads. cbn. rewrite Epoll.
      rewrite lookup_insert_ne by congruence. split_and!; try done. apply R3. right. split; [|done]. intros ->. by destruct (R2 q).
    + intros Hx. destruct (Hw Hx). by constructor.
  - intros k q [[-> ->]|[Hne Hq]]%R3; [by rewrite P1|]. specialize (B8 k q Hq). unfold listener_ok in B9. rewrite Hl in B9.
    destruct (pr_connection q) as [h|]; [done|]. rewrite B8 in B9. done.
  - unfold listener_ok. cbn. exists j, p. rewrite Epoll, lookup_insert_eq, Hp. split_and!; try done. apply R3. by left.
  - rewrite R4, B10, Hl. cbn. lia.
  - by destruct B11.
  - by destruct B12.
  - by destruct B14.
Qed.

Lemma actives_bound (t : ConnectionTable) : slots_ok cs_generation t → st_active_count t <= st_capacity t.
Proof.
  intros Ht. rewrite <-(length_actives _ _ Ht). unfold actives, st_capacity, zlen. clear Ht. apply inj_le.
  induction (st_slots t) as [|s l IH]; csimpl; [lia|]. destruct (committed_entry s); csimpl; lia.
Qed.

Lemma attachListener_ok fd n :
  net_setup_ok → net_ok None None n → nt_listener n = None → nt_listener_paused n = false → nt_poller n !! fd = None →
  match attachListener fd n with
  | NDone b n' => net_ok None None n' ∧ (0 <= fd → b = true ∧ nt_listener n' = Some fd) ∧ nt_stopping n' = nt_stopping n ∧ nt_log n' = nt_log n
  | NFailed f => net_excused f = true
  end.
Proof.
  intros Hs [Hb Hpa] Hl Hp Hnew. unfold attachListener. rewrite nget_bind. cbn [id]. rewrite Hl. cbn [has_value].
  assert (Hlr : nt_listener_registration n = None).
  { pose proof (no_listener _ _ _ Hb) as Hx. unfold listener_ok in Hx. rewrite Hl in Hx. by destruct (nt_listener_registration n). }
  rewrite Hlr. cbn [has_value]. destruct (Z.ltb_spec fd 0) as [|Hfd]; cbn [orb]. { split; [by constructor|]. split; [lia|done]. }
  assert (Hcap : hasCapacity (nt_registrations n) = true).
  { unfold hasCapacity. apply Z.ltb_lt. rewrite (rt_settled _ (no_registrations _ _ _ Hb)), (no_count _ _ _ Hb), (no_room _ _ _ Hb), Hl. cbn.
    pose proof (actives_bound _ (ct_slots _ _ (no_connections _ _ _ Hb))) as Ha. rewrite (no_capacity _ _ _ Hb) in Ha.
    pose proof (ns_valid Hs) as Hv. unfold network_config_valid in Hv. repeat (apply andb_prop in Hv as [Hv ?]). to_prop. lia. }
  rewrite nget_bind.
  destruct (reg_tryReserve_ok (no_registrations _ _ _ Hb) fd PollListener None Hfd) as [->|(j & p & t & -> & Hr & Hcom & _ & Hpo & Hpd & Hpc & _)]; [by left|done|done|].
  rewrite nmodify_bind, nget_bind. cbn [nt_registrations set_registrations]. rewrite (ra_pending _ _ _ _ _ Hr). cbn [mbind option_bind slot_entry].
  rewrite nrequire_bind. unfold epoll_add. rewrite !nbind_assoc, kernel_bind. destruct (k_epoll _) as [[] k']; cbn [fst snd]; [|done].
  rewrite !nbind_assoc, nget_bind. unfold poller_add. cbn [nt_poller set_kernel set_registrations]. rewrite Hnew. cbn [has_value].
  rewrite !nbind_assoc, nrequire_bind, !nmodify_bind. cbn [mret N_ret]. split; [|done]. constructor; [|by cbn; rewrite Hp].
  destruct (ra_commit_counts _ _ _ _ _ Hr) as (_ & A4 & A5 & _).
  eapply (attached_ok n _ fd j p); try done; [exact (ra_vacant _ _ _ _ _ Hr)|exact (ra_committed _ _ _ _ _ Hr)].
Qed.

(** ** Timers *)

Lemma net_ok_timers r w n q :
  net_ok r None n → is_heap entry_deadline (tq_heap q) →
  (∀ i c, holds i c (nt_connections n) → isClosing c = true → w ≠ Some (cs_handle c) →
     mkTimerEntry (M := M) (cs_close_deadline c) (ConnectionCloseDeadline (cs_handle c)) ∈ tq_heap q) →
  net_ok r w (set_timers q n).
Proof.
  intros [[B1 B2 B3 B4 B5 B6 B7 B8 B9 B10 B11 B12 B13 B14] Hp] Hh Hq. constructor; [|done]. constructor; try done.
  - intros i c Hc. destruct (B6 i c Hc) as [[] Hw Hf]. constructor; [by constructor| |done].
    intros Hx. destruct (Hw ltac:(done)) as [W1 W2 W3]. constructor; try done. intros Hcl. split; [by apply W3|]. by apply (Hq i c).
  - by destruct B11.
  - by destruct B12.
  - by destruct B14.
Qed.

(** The scheduler may do to the timers whatever keeps the close deadlines. *)
Definition close_timers_kept (q q' : TimerQueue (M := M)) : Prop :=
  is_heap entry_deadline (tq_heap q') ∧
  ∀ d h, mkTimerEntry d (ConnectionCloseDeadline h) ∈ tq_heap q → mkTimerEntry d (ConnectionCloseDeadline h) ∈ tq_heap q'.

Lemma scheduler_timers_ok n q : net_ok None None n → close_timers_kept (nt_timers n) q → net_ok None None (set_timers q n).
Proof.
  intros Hok [Hh Hk]. apply net_ok_timers; [done|done|]. intros i c Hi Hcl _. apply Hk.
  by apply (cw_closing _ _ (cg_work _ _ _ _ _ (no_good _ _ _ Hok _ _ Hi) ltac:(done))).
Qed.

(** What is taken from the heap is the front, and nothing else goes. *)
Lemma pop_due_front q e q' x rest :
  is_heap entry_deadline (tq_heap q) → tq_heap q = x :: rest → pop_due net_charge q = Some (e, q') →
  is_heap entry_deadline (tq_heap q') ∧ tq_heap q ≡ₚ e :: tq_heap q'.
Proof.
  intros Hh Hq Hpop. unfold pop_due in Hpop. rewrite Hq in *. destruct (pop_heap_spec entry_deadline x rest Hh) as (h' & Hp & Hperm & Hheap).
  rewrite Hp, last_snoc in Hpop. cbn [mbind option_bind] in Hpop. rewrite length_app, Nat.add_1_r in Hpop. cbn [Nat.pred length] in Hpop.
  rewrite take_app_length in Hpop. unfold requireInvariant in Hpop.
  assert (e = x ∧ tq_heap q' = h') as [-> ->]; [|split; [done|by rewrite Hperm]].
  destruct (is_application _ x); [destruct (_ <=? _)|]; by simplify_eq.
Qed.

Context (Hsetup : net_setup_ok).

(** A due deadline closes a connection that is still closing. *)
Lemma fired_ok n h d q :
  net_ok None None n → is_heap entry_deadline (tq_heap q) → tq_heap (nt_timers n) ≡ₚ mkTimerEntry d (ConnectionCloseDeadline h) :: tq_heap q →
  match onCloseDeadline h (set_timers q n) with NDone _ n' => net_ok None None n' | NFailed f => net_excused f = true end.
Proof using Hsetup.
  intros Hok Hh Hperm.
  assert (Hkept : ∀ i c, holds i c (nt_connections n) → isClosing c = true → cs_handle c ≠ h →
    mkTimerEntry (M := M) (cs_close_deadline c) (ConnectionCloseDeadline (cs_handle c)) ∈ tq_heap q).
  { intros i c Hi Hcl Hne. destruct (cw_closing _ _ (cg_work _ _ _ _ _ (no_good _ _ _ Hok _ _ Hi) ltac:(done)) Hcl) as [_ He].
    rewrite Hperm, elem_of_cons in He. destruct He as [E|He]; [|done]. by injection E. }
  unfold onCloseDeadline, find_connection. rewrite nget_bind. cbn [nt_connections set_timers].
  destruct (conn_find h (nt_connections n)) as [i|] eqn:Hf.
  - destruct (found_connection _ _ _ _ _ Hok Hf) as (c & Hi & Hc).
    assert (Hconn : connection i (set_timers q n) = NDone c (set_timers q n)).
    { unfold connection. rewrite nget_bind. cbn. by rewrite Hi. }
    rewrite (bind_NDone _ _ _ _ _ Hconn). destruct (isClosing c) eqn:Hcl.
    + rewrite ncount_bind. apply (forceClose_ok Hsetup None (Some h) None None); [done|by intros h' Hne [= ->]|].
      rewrite set_metrics_quiet. apply net_ok_quiet, net_ok_timers; [done|done|]. intros j x Hj Hx Hne. apply (Hkept j x); congruence.
    + apply ncount_ok, net_ok_timers; [done|done|]. intros j x Hj Hx _. apply (Hkept j x); try done. intros E. rewrite <-Hc in E.
      destruct (conn_handle_inj (no_connections _ _ _ Hok) j i x c Hj Hi E) as [_ ->]. congruence.
  - apply ncount_ok, net_ok_timers; [done|done|]. intros j x Hj Hx _. apply (Hkept j x); try done. by apply (not_found _ _ _ _ _ _ Hok Hf Hj).
Qed.

Lemma expire_close_ok now : nhoare (net_ok None None) (expire_close now) (fun _ (n : Net) => net_ok None None n).
Proof using Hsetup.
  intros n Hok. unfold expire_close. rewrite nget_bind. destruct (front_due now (nt_timers n)) eqn:Hd; [|done].
  destruct (pop_due net_charge (nt_timers n)) as [[[d p] q]|] eqn:Hpop; [|done].
  unfold front_due in Hd. destruct (tq_heap (nt_timers n)) as [|x h0] eqn:Hq; [done|].
  pose proof (no_heap _ _ _ Hok) as Hh. destruct (pop_due_front _ _ _ _ _ Hh Hq Hpop) as [Hh' Hperm].
  destruct p as [|h|]; [done| |done]. rewrite nmodify_bind. by apply (fired_ok n h d q).
Qed.

Lemma closeOwn_ok ref reason graceful : nhoare (net_ok None None) (closeOwn ref reason graceful) (fun _ (n : Net) => net_ok None None n).
Proof using Hsetup.
  unfold closeOwn. set (h := mkConnectionHandle _ _). apply nhoare_read. intros [i|] n [_ Hok]; [|done].
  destruct graceful; [by apply (beginGracefulClose_ok Hsetup)|]. by apply (forceClose_then Hsetup None None).
Qed.

(** ** Shutdown *)

Lemma set_stopping_ok r w n : net_ok r w n → net_ok r w (set_stopping n).
Proof.
  clear Hsetup. intros [[B1 B2 B3 B4 B5 B6 B7 B8 B9 B10 B11 B12 B13 B14] Hp]. constructor; [|by intros _ _; left]. constructor; try done.
  - intros i c Hc. destruct (B6 i c Hc) as [[C1 C2 C3 C4 C5] Hw Hf]. constructor; [constructor; try done| |done].
    + destruct C4 as (k & q & reads & E1 & E2 & E3 & E4 & E5 & E6 & E7). by exists k, q, reads.
    + intros Hx. destruct (Hw Hx). by constructor.
  - by destruct B11.
  - by destruct B12.
  - by destruct B14.
Qed.

(** The listener leaves; nobody else notices. *)
Lemma detached_ok n fd j p t :
  net_ok None None n → nt_listener n = Some fd → holds j p (nt_registrations n) → nt_listener_registration n = Some (registration_handle j p) →
  pr_connection p = None → registrations_ok t → (∀ k x, holds k x t ↔ k ≠ j ∧ holds k x (nt_registrations n)) →
  st_active_count t = st_active_count (nt_registrations n) - 1 → st_capacity t = st_capacity (nt_registrations n) →
  net_ok None None (set_listener None None (set_registrations t (set_poller (poller_remove fd (nt_poller n)) n))).
Proof.
  clear Hsetup. intros [Hb Hpa] Hl Hj Hlr Hpc R1 R2 R3 R4. pose proof Hb as [B1 B2 B3 B4 B5 B6 B7 B8 B9 B10 B11 B12 B13 B14].
  constructor; [|done]. constructor; cbn; try done.
  - congruence.
  - intros i c Hc. pose proof (listener_distinct _ _ _ _ _ _ Hb Hc Hl) as Hne.
    destruct (B6 i c Hc) as [[C1 C2 C3 C4 C5] Hw Hf]. constructor; [constructor; try done| |done].
    + destruct C4 as (k & q & reads & E1 & E2 & E3 & E4 & E5 & E6 & E7). exists k, q, reads. cbn. unfold poller_remove. rewrite lookup_delete_ne by done.
      split_and!; try done. apply R2. split; [|done]. intros ->. rewrite (holds_unique _ _ _ _ E1 Hj) in E3. congruence.
    + intros Hx. destruct (Hw Hx). by constructor.
  - intros k q [Hne Hq]%R2. specialize (B8 k q Hq). destruct (pr_connection q) as [h|]; [done|]. exfalso. rewrite Hlr in B8.
    unfold registration_handle in B8. injection B8. lia.
  - rewrite R3, B10, Hl. cbn. lia.
  - by destruct B11.
  - by destruct B12.
  - by destruct B14.
Qed.

Lemma detach_listener_ok n :
  net_ok None None n →
  match detach_listener n with
  | NDone _ n' => net_ok None None n' ∧ nt_listener n' = None ∧ nt_stopping n' = nt_stopping n ∧ nt_read_queue n' = nt_read_queue n
  | NFailed f => net_excused f = true
  end.
Proof.
  clear Hsetup. intros Hok. unfold detach_listener. rewrite nget_bind. cbn [id]. pose proof (no_listener _ _ _ Hok) as Hl. unfold listener_ok in Hl.
  destruct (nt_listener_registration n) as [rh|] eqn:Elr; destruct (nt_listener n) as [fd|] eqn:El; try done.
  destruct Hl as (j & p & Hj & -> & Hpc & Hpd & _). unfold epoll_remove. rewrite !nmodify_bind. cbn [nt_registrations set_poller].
  destruct (reg_release_ok (no_registrations _ _ _ Hok) j p Hj) as (t & Et & R1 & R2 & R3 & R4 & _). rewrite Et. cbn [snd nmodify].
  split; [|done]. by apply (detached_ok n fd j p t).
Qed.

(** Phase A tells the kernel to forget about reading. *)
Lemma mute_connection_ok h n :
  net_ok None None n → nt_stopping n = true →
  match mute_connection h n with
  | NDone _ n' => net_ok None None n' ∧ nt_stopping n' = true ∧ nt_read_queue n' = nt_read_queue n
  | NFailed f => net_excused f = true
  end.
Proof.
  clear Hsetup. intros Hok Hst. unfold mute_connection, find_connection. rewrite nget_bind.
  destruct (conn_find h (nt_connections n)) as [i|] eqn:Hf; [|done]. destruct (found_connection _ _ _ _ _ Hok Hf) as (c & Hi & <-).
  pose proof (touched_refl _ _ _ _ _ Hok Hi) as Hr. rewrite (bind_NDone _ _ _ _ _ (touched_connection Hi c n Hr)), nget_bind.
  destruct (registrationFor_touched Hok Hi c n Hr) as (j & p & -> & Hj & Hix & Hpc & Hpd). rewrite kernel_bind.
  pose proof (net_ok_quiet _ _ _ (k_epoll (nt_kernel n)).2 (nt_metrics n) (nt_sink n) Hok) as Hok1. rewrite <-set_kernel_quiet in Hok1.
  destruct (k_epoll (nt_kernel n)).1; [|done]. unfold poller_modify. destruct (tc_listed _ _ _ _ _ Hr) as [e He].
  cbn [nmodify nt_poller set_kernel]. rewrite He. cbn [has_value]. split; [|done]. set (n1 := set_kernel _ n) in *.
  assert (Hi1 : holds i c (nt_connections n1)) by done.
  assert (Ht : touched i c c n1 (set_poller (<[cs_socket c := epoll_event (pr_token p) (mkInterest false (cs_waiting_epollout c))]> (nt_poller n1)) n1))
    by (apply (touched_poller c n1); exact (touched_refl _ _ _ _ _ Hok1 Hi1)).
  apply (net_ok_touched None None None None n1 _ i c c Hok1 Hi1 Ht); [done|done|].
  destruct (no_good _ _ _ Hok1 _ _ Hi1) as [[C1 C2 C3 C4 C5] Hw Hfr]. constructor; [constructor; try done|by intros Hx; destruct (Hw Hx)|done].
  exists j, p, false. cbn. rewrite lookup_insert_eq. split_and!; try done. by rewrite Hst.
Qed.

Lemma mute_all_ok hs : ∀ n, net_ok None None n → nt_stopping n = true →
  match each mute_connection hs n with
  | NDone _ n' => net_ok None None n' ∧ nt_stopping n' = true ∧ nt_read_queue n' = nt_read_queue n
  | NFailed f => net_excused f = true
  end.
Proof.
  clear Hsetup. induction hs as [|h hs IH]; intros n Hok Hst; [done|]. cbn [each]. pose proof (mute_connection_ok h n Hok Hst) as Hm.
  unfold mbind, N_bind. destruct (mute_connection h n) as [[] n1|]; [|done]. destruct Hm as (Hok1 & Hst1 & Eq). specialize (IH n1 Hok1 Hst1).
  destruct (each mute_connection hs n1) as [[] n2|]; [|done]. destruct IH as (? & ? & E2). split_and!; [done|done|congruence].
Qed.

(** The read queue is emptied; nobody is read any more. *)
Lemma drain_reads_ok fuel : ∀ n, net_ok None None n → nt_stopping n = true → (length (ring_items (nt_read_queue n)) < fuel)%nat →
  match drain_reads fuel n with
  | NDone _ n' => net_ok None None n' ∧ nt_stopping n' = true ∧ ring_items (nt_read_queue n') = []
  | NFailed f => net_excused f = true
  end.
Proof.
  clear Hsetup. induction fuel as [|fuel IH]; intros n Hok Hst Hf; [lia|]. cbn [drain_reads].
  unfold pop_read. rewrite nbind_assoc, nget_bind, nbind_assoc, nmodify_bind, nret_bind.
  pose proof (work_tryPop_ring _ _ (qk_ring _ _ (no_reads _ _ _ Hok))) as Hpop.
  destruct (ring_items (nt_read_queue n)) as [|h rest] eqn:El.
  { destruct Hpop as [-> _]. cbn. assert (set_read_queue (nt_read_queue n) n = n) as -> by (by destruct n). done. }
  destruct Hpop as (q & -> & Hq & Eq & _). cbn [fst snd]. pose proof (popped_read n h rest q Hok El Hq Eq) as Hpopped.
  unfold find_connection. rewrite nget_bind. cbn [nt_connections set_read_queue]. cbn in Hf.
  destruct (conn_find h (nt_connections n)) as [i|] eqn:Hfind.
  - destruct Hpopped as (c & Hi & Hh & Hok2). unfold update_connection, put_connection. rewrite nbind_assoc.
    assert (Hconn : connection i (set_read_queue q n) = NDone c (set_read_queue q n)).
    { unfold connection. rewrite nget_bind. cbn [nt_connections set_read_queue]. by rewrite Hi. }
    rewrite (bind_NDone _ _ _ _ _ Hconn), nmodify_bind. apply IH; [|done|cbn; rewrite Eq; lia].
    apply (net_ok_read h); [done|]. intros j x _ _ _. cbn. by rewrite Hst.
  - rewrite nret_bind. apply IH; [done|done|]. cbn. rewrite Eq. lia.
Qed.

(** Phase A: no listener, nothing to read. *)
Lemma stopNetwork_ok n :
  net_ok None None n →
  match stopNetwork n with
  | NDone _ n' => net_ok None None n' ∧ nt_stopping n' = true ∧ ring_items (nt_read_queue n') = []
  | NFailed f => net_excused f = true
  end.
Proof.
  clear Hsetup. intros Hok. unfold stopNetwork. rewrite nmodify_bind. apply set_stopping_ok in Hok.
  pose proof (detach_listener_ok _ Hok) as Hd. unfold mbind at 1, N_bind at 1. destruct (detach_listener (set_stopping n)) as [[] n1|]; [|done].
  destruct Hd as (Hok1 & _ & Hst & _). cbn in Hst. rewrite nget_bind. cbn [id].
  pose proof (mute_all_ok (conn_handles (nt_connections n1)) n1 Hok1 Hst) as Hm. unfold mbind at 1, N_bind at 1.
  destruct (each mute_connection (conn_handles (nt_connections n1)) n1) as [[] n2|]; [|done]. destruct Hm as (Hok2 & Hst2 & Eq).
  apply drain_reads_ok; [done|done|]. rewrite Eq, (ring_size _ _ (qk_ring _ _ (no_reads _ _ _ Hok1))). lia.
Qed.

Lemma drainConnections_ok deadline : nhoare (net_ok None None) (drainConnections deadline) (fun _ (n : Net) => net_ok None None n).
Proof using Hsetup.
  intros n Hok. unfold drainConnections. rewrite nget_bind. cbn [id]. destruct (_ =? 0); [done|]. rewrite nmodify_bind.
  apply each_ok; [|by apply set_stopping_ok]. intros h. eapply nhoare_bind; [apply (beginGracefulClose_ok Hsetup)|]. intros b. by apply nhoare_ret.
Qed.

(** *** Phase D leaves nobody *)

Lemma resume_connections : keeps (nt_connections (M := M) (S := S) (K := K)) maybeResumeListener.
Proof. clear Hsetup. unfold maybeResumeListener, listener_interest, epoll_modify, ncount. keeping. Qed.

(** [forceClose] takes exactly one connection away. *)
Lemma forceClose_holds h reason n :
  net_ok None None n →
  match forceClose h reason n with
  | NDone _ n' => net_ok None None n' ∧ (∀ i c, holds i c (nt_connections n') ↔ holds i c (nt_connections n) ∧ cs_handle c ≠ h)
  | NFailed f => net_excused f = true
  end.
Proof using Hsetup.
  intros Hok. pose proof (forceClose_ok Hsetup None None None None h reason ltac:(done) ltac:(done) n Hok) as Hc.
  destruct (conn_find h (nt_connections n)) as [i|] eqn:Hf.
  - destruct (found_connection _ _ _ _ _ Hok Hf) as (c & Hi & Hh).
    destruct (forceClose_run None None n i c h reason Hok Hi Hh) as (n1 & Hd & E). rewrite E in *.
    pose proof (resume_connections n1) as Hk. destruct (maybeResumeListener n1) as [[] n2|]; [|done]. split; [done|].
    intros j x. rewrite Hk, (dp_holds _ _ _ _ _ Hd). split.
    + intros [Hne Hx]. split; [done|]. intros E'. rewrite <-Hh in E'. by destruct (conn_handle_inj (no_connections _ _ _ Hok) j i x c Hx Hi E').
    + intros [Hx Hne]. split; [|done]. intros ->. by rewrite (holds_unique _ _ _ _ Hx Hi) in Hne.
  - unfold forceClose, find_connection in *. rewrite nget_bind, Hf in *. cbn in *. split; [done|]. intros j x. split; [|by intros []].
    intros Hx. split; [done|]. by apply (not_found _ _ _ _ _ _ Hok Hf Hx).
Qed.

Lemma close_all_ok hs : ∀ n, net_ok None None n →
  match each (fun h => ncount forced_connection_closes;; forceClose h CloseTimeout) hs n with
  | NDone _ n' => net_ok None None n' ∧ (∀ i c, holds i c (nt_connections n') ↔ holds i c (nt_connections n) ∧ cs_handle c ∉ hs)
  | NFailed f => net_excused f = true
  end.
Proof using Hsetup.
  induction hs as [|h hs IH]; intros n Hok; [split; [done|]; intros i c; set_solver|]. cbn [each]. rewrite nbind_assoc, ncount_bind.
  set (n0 := set_metrics _ n). assert (Hok0 : net_ok None None n0) by (unfold n0; rewrite set_metrics_quiet; by apply net_ok_quiet).
  pose proof (forceClose_holds h CloseTimeout n0 Hok0) as Hc. unfold mbind at 1, N_bind at 1.
  destruct (forceClose h CloseTimeout n0) as [[] n1|]; [|done]. destruct Hc as [Hok1 Hh]. specialize (IH n1 Hok1).
  destruct (each _ hs n1) as [[] n2|]; [|done]. destruct IH as [Hok2 Hh2]. split; [done|]. intros i c. rewrite Hh2, Hh, not_elem_of_cons.
  change (nt_connections n0) with (nt_connections n). tauto.
Qed.

Lemma closeConnections_ok n :
  net_ok None None n →
  match closeConnections n with
  | NDone _ n' => net_ok None None n' ∧ (∀ i c, ¬ holds i c (nt_connections n'))
  | NFailed f => net_excused f = true
  end.
Proof using Hsetup.
  intros Hok. unfold closeConnections. rewrite nget_bind. cbn [id]. pose proof (close_all_ok (conn_handles (nt_connections n)) n Hok) as Hc.
  destruct (each _ _ n) as [[] n'|]; [|done]. destruct Hc as [Hok' Hh]. split; [done|]. intros i c [Hi Hne]%Hh. apply Hne.
  unfold conn_handles. apply list_elem_of_fmap. exists c. split; [done|]. apply (actives_elem (E := ConnectionSlot)).
  exists i, (mkSlot (Some c) false true). done.
Qed.
End stop.
