(* ===== verification/NetworkSpec.v ===== *)
(** * What the network side guarantees

    The methods of [Network.v] as calls in any order, from the state a worker is
    configured in.  The theorems hold after every such sequence: the books are
    right and no call breaks them; nothing that waits is forgotten; bytes and
    frames pass in order; a connection is closed once; the listener comes back;
    old events and handles do nothing; the end of the shutdown leaves nobody. *)

From S2P Require Import Prelude Connection Wire FrameCodec Session Identity TimerQueue HandleRing SlotTable ActorTable Actor WorkerConnection ConnectionTables Network NetworkInv NetworkOps NetworkClose NetworkSend NetworkRead NetworkPoll NetworkWrite NetworkStop.

Section spec.
Context {M S K : Type} `{Setup : !NetSetup M} `{Heap : !HeapAlgorithms (entry_deadline (M := M))}.
Context `{Kernel : !NetKernel K} `{Sink : !RequestSink S}.

Abbreviation Net := (Net M S K).
Abbreviation N := (N M S K).
Abbreviation limits := (table_limits (net_table net_config)).
Abbreviation capacity := (table_capacity (net_table net_config)).
Implicit Types (n : Net) (c : ConnectionSlot) (p : PollRegistration) (h : ConnectionHandle) (i j : nat).

(** ** Calls *)

Inductive NetCall :=
| NetPoll (events : list PollEvent) (b : IoBudget)
| NetFlush (b : ByteTimeBudget)
| NetSend (ref : ConnectionRef) (f : Frame) (critical : bool)
| NetClose (ref : ConnectionRef) (reason : CloseReason) (graceful : bool)
| NetExpire (now : time_point)
| NetTimers (q : TimerQueue (M := M))
| NetPhaseA
| NetPhaseC (deadline : time_point)
| NetPhaseD.

Definition net_call (x : NetCall) : N () :=
  match x with
  | NetPoll events b => processPollEvents events b
  | NetFlush b => flushWrites b
  | NetSend ref f critical => _ ← sendLocal ref f critical; mret ()
  | NetClose ref reason graceful => _ ← closeOwn ref reason graceful; mret ()
  | NetExpire now => expire_close now
  | NetTimers q => nmodify (set_timers q)
  | NetPhaseA => stopNetwork
  | NetPhaseC deadline => drainConnections deadline
  | NetPhaseD => closeConnections
  end.

(** The scheduler shares the timers and leaves the close deadlines alone. *)
Definition net_call_ok n (x : NetCall) : Prop :=
  match x with NetTimers q => close_timers_kept (nt_timers n) q | _ => True end.

Definition net_step n n' : Prop := ∃ x, net_call_ok n x ∧ net_call x n = NDone () n'.

(** A worker is configured and given a listening socket. *)
Definition net_started n : Prop := ∃ poller timers sink k fd n0,
  is_heap entry_deadline (tq_heap timers) ∧ poller !! fd = None ∧
  configureNetwork poller timers sink k = Ret n0 ∧ attachListener fd n0 = NDone true n.

Definition net_reachable n : Prop := ∃ n0, net_started n0 ∧ rtc net_step n0 n.

Context (Hsetup : net_setup_ok).

Lemma net_call_invariant x n :
  net_ok None None n → net_call_ok n x →
  match net_call x n with NDone _ n' => net_ok None None n' | NFailed f => net_excused f = true end.
Proof using Hsetup Heap.
  intros Hok Hx. destruct x; cbn [net_call].
  - by apply processPollEvents_ok.
  - by apply flushWrites_ok.
  - apply (nhoare_bind (net_ok None None) _ _ (fun _ => net_ok None None) (fun _ => net_ok None None)); [by apply net_sendLocal_ok|intros; by apply nhoare_ret|done].
  - apply (nhoare_bind (net_ok None None) _ _ (fun _ => net_ok None None) (fun _ => net_ok None None)); [by apply closeOwn_ok|intros; by apply nhoare_ret|done].
  - by apply expire_close_ok.
  - by apply scheduler_timers_ok.
  - pose proof (stopNetwork_ok n Hok) as Hs. destruct (stopNetwork n); [by destruct Hs|done].
  - by apply drainConnections_ok.
  - pose proof (closeConnections_ok Hsetup n Hok) as Hs. destruct (closeConnections n); [by destruct Hs|done].
Qed.

Lemma net_started_invariant n : net_started n → net_ok None None n.
Proof using Hsetup.
  intros (poller & timers & sink & k & fd & n0 & Hh & Hnew & Hc & Ha).
  destruct (configureNetwork_ok poller timers sink k Hsetup Hh) as (n1 & Hc1 & Hok & Hl & Hp & _ & Hpo & _). rewrite Hc in Hc1. injection Hc1 as <-.
  pose proof (attachListener_ok fd n0 Hsetup Hok Hl Hp) as Hat. rewrite Ha, Hpo in Hat. by apply Hat.
Qed.

Lemma net_reachable_invariant n : net_reachable n → net_ok None None n.
Proof using Hsetup Heap.
  intros (n0 & Hs & Hr). apply net_started_invariant in Hs. induction Hr as [n|n n1 n2 (x & Hx & Hrun) _ IH]; [done|].
  apply IH. pose proof (net_call_invariant x n Hs Hx) as Hi. by rewrite Hrun in Hi.
Qed.

(** ** Theorems *)

(** C13: whatever calls are made in whatever order, with whatever events and
    answers of the kernel (which interrupts a call only a bounded number of times in
    a row, [patience]), a call ends; it fails only where the kernel refuses a call
    or the identifiers are used up.  It never runs out of its loop bounds,
    finds a connection without registration, a descriptor the poller does not
    know, a decoder that is stuck or a count of bytes out of range. *)
Theorem network_never_breaks n x :
  net_reachable n → net_call_ok n x →
  match net_call x n with NDone _ n' => net_reachable n' | NFailed f => net_excused f = true end.
Proof using Hsetup Heap.
  intros Hr Hx. pose proof (net_call_invariant x n (net_reachable_invariant n Hr) Hx) as Hi.
  destruct (net_call x n) as [[] n'|] eqn:E; [|done]. destruct Hr as (n0 & Hs & Hr). exists n0. split; [done|].
  eapply rtc_r; [done|]. by exists x.
Qed.

(** C14: the tables agree.  Each connection has one registration, made for its
    handle and socket, which its index entry names; the kernel holds the token of
    that registration for the socket, asks for output exactly when the connection
    waits for it, and for input exactly when the connection is open, except during
    the shutdown.  Each registration belongs to a connection or to the listener,
    and no two connections share a socket. *)
Theorem connection_books_exact n :
  net_reachable n →
  (∀ i c, holds i c (nt_connections n) → ∃ j p reads,
     holds j p (nt_registrations n) ∧ registrationFor (cs_handle c) n = Some p ∧ pr_descriptor p = cs_socket c ∧
     nt_poller n !! cs_socket c = Some (epoll_event (pr_token p) (mkInterest reads (cs_waiting_epollout c))) ∧
     (reads = true → isOpen c = true) ∧ (nt_stopping n = false → reads = isOpen c)) ∧
  (∀ j p, holds j p (nt_registrations n) →
     match pr_connection p with
     | Some h => ∃ i c, holds i c (nt_connections n) ∧ cs_handle c = h
     | None => nt_listener_registration n = Some (registration_handle j p)
     end) ∧
  (∀ i j c c', holds i c (nt_connections n) → holds j c' (nt_connections n) → cs_socket c = cs_socket c' → i = j) ∧
  st_active_count (nt_registrations n) = st_active_count (nt_connections n) + Z.b2z (has_value (nt_listener n)).
Proof using Hsetup Heap.
  intros Hr%net_reachable_invariant. split_and!.
  - intros i c Hi. destruct (registrationFor_touched Hr Hi c n (touched_refl _ _ _ _ _ Hr Hi)) as (j & p & H1 & H2 & H3 & H4 & H5).
    destruct (cc_registered _ _ _ (cg_core _ _ _ _ _ (no_good _ _ _ Hr _ _ Hi))) as (j' & p' & reads & E1 & E2 & _ & _ & E5 & E6 & E7).
    rewrite H3 in E2. unfold registration_handle in E2. injection E2 as Ej Eg. apply Nat2Z.inj in Ej. subst j'.
    rewrite (holds_unique _ _ _ _ E1 H2) in E5. exists j, p, reads. by split_and!.
  - intros j p Hj. pose proof (no_owners _ _ _ Hr _ _ Hj) as Ho. destruct (pr_connection p) as [h|]; [|done].
    destruct Ho as (i & c & H1 & H2 & _). eauto.
  - intros i j c c' Hi Hj E. destruct (decide (i = j)) as [|Hne]; [done|]. by destruct (sockets_distinct _ _ _ _ _ _ _ Hr Hi Hj Hne).
  - apply Hr.
Qed.

(** C15: nothing that waits is forgotten.  A connection with bytes to send is in
    the write queue or the kernel is asked to report when it takes more; a
    complete frame received on an open connection is in the read queue, and the
    kernel is asked to report more; a connection that is closing has bytes to send
    and a timer at its deadline. *)
Theorem no_connection_forgotten n i c :
  net_reachable n → holds i c (nt_connections n) →
  (unsent_bytes c ≠ [] →
     cs_handle c ∈ ring_items (nt_write_queue n) ∨
     ∃ token reads, nt_poller n !! cs_socket c = Some (epoll_event token (mkInterest reads true))) ∧
  (isOpen c = true → nt_stopping n = false →
     (parse_frame (unread (cs_decoder c)) ≠ NeedMore → cs_handle c ∈ ring_items (nt_read_queue n)) ∧
     ∃ token writes, nt_poller n !! cs_socket c = Some (epoll_event token (mkInterest true writes))) ∧
  (isClosing c = true →
     unsent_bytes c ≠ [] ∧ mkTimerEntry (M := M) (cs_close_deadline c) (ConnectionCloseDeadline (cs_handle c)) ∈ tq_heap (nt_timers n)).
Proof using Hsetup Heap.
  intros Hr%net_reachable_invariant Hi. destruct (no_good _ _ _ Hr _ _ Hi) as [[C1 C2 C3 C4 C5] Hw Hf].
  destruct (Hw ltac:(done)) as [W1 W2 W3]. destruct C4 as (j & p & reads & _ & _ & _ & _ & E5 & E6 & E7). split_and!; [| |done].
  - intros Hu. destruct (W2 Hu) as [Hq|Hq]; [left|right; exists (pr_token p), reads; congruence].
    rewrite C3 in Hq. by apply bool_decide_eq_true in Hq.
  - intros Ho Hst. split.
    + intros Hp. destruct (Hf ltac:(done) Ho Hst) as [Hq|]; [|done]. rewrite C2 in Hq. by apply bool_decide_eq_true in Hq.
    + exists (pr_token p), (cs_waiting_epollout c). rewrite E7, Ho in E5 by done. done.
Qed.

(** C16: bytes and frames pass in order.  Of every connection there ever was, the
    bytes given to the kernel are a prefix of the encodings of the frames accepted
    for it, in the order of acceptance, and the frames handed to the sink are
    those that a prefix of the bytes read spells, in order.  While it lives, the
    bytes sent and the bytes in its buffer are exactly those encodings, and while
    it is open the bytes read are those of the frames handed over and those in its
    decoder. *)
Theorem streams_in_order n :
  net_reachable n →
  (∀ g, sent_by g (nt_log n) `prefix_of` (queued_by g (nt_log n) ≫= wire) ∧
        ∃ read, read `prefix_of` received_by g (nt_log n) ∧ parse_stream read = (posted_by g (nt_log n), None, [])) ∧
  (∀ i c, holds i c (nt_connections n) →
     sent_by (cs_generation c) (nt_log n) ++ unsent_bytes c = queued_by (cs_generation c) (nt_log n) ≫= wire ∧
     (isOpen c = true → ∃ read, received_by (cs_generation c) (nt_log n) = read ++ unread (cs_decoder c) ∧
        parse_stream read = (posted_by (cs_generation c) (nt_log n), None, []))).
Proof using Hsetup Heap.
  intros Hr%net_reachable_invariant. split.
  - intros g. by destruct (lk_past _ (no_log _ _ _ Hr) g).
  - intros i c Hi. destruct (cc_stream _ _ _ (cg_core _ _ _ _ _ (no_good _ _ _ Hr _ _ Hi))) as [H1 (read & lost & H2 & H3 & H4)].
    split; [done|]. intros Ho. exists read. rewrite (H4 Ho), app_nil_r in H2. done.
Qed.

(** C17: a connection is closed once, and it is over then.  Of the connections
    accepted so far, told apart by their generations, those not in the table are
    those reported closed, each once; after the report nothing is read, handed
    over, queued or sent for it. *)
Theorem closed_once_and_for_all n :
  net_reachable n →
  NoDup (closed_of (nt_log n)) ∧
  (∀ g, g ∈ closed_of (nt_log n) ↔
        0 < g <= st_last_generation (nt_connections n) ∧ ¬ ∃ i c, holds i c (nt_connections n) ∧ cs_generation c = g) ∧
  (∀ l1 g reason l2, nt_log n = l1 ++ Closed g reason :: l2 → history g l2 = []).
Proof using Hsetup Heap. intros Hr%net_reachable_invariant. by destruct (no_log _ _ _ Hr) as [_ _ H1 H2 H3]. Qed.

(** The listener is never left paused.  Outside the shutdown it is paused
    only while the table is full, and otherwise the kernel reports new clients. *)
Theorem listener_comes_back n fd :
  net_reachable n → nt_listener n = Some fd → nt_stopping n = false → hasCapacity (nt_connections n) = true →
  nt_listener_paused n = false ∧ ∃ j p, holds j p (nt_registrations n) ∧ pr_descriptor p = fd ∧
    nt_poller n !! fd = Some (epoll_event (pr_token p) (mkInterest true false)).
Proof using Hsetup Heap.
  intros Hr%net_reachable_invariant Hl Hst Hcap. pose proof (no_paused _ _ _ Hr) as Hp. rewrite Hl in Hp.
  assert (Hnp : nt_listener_paused n = false) by (destruct (nt_listener_paused n); [destruct (Hp eq_refl eq_refl); congruence|done]).
  split; [done|]. pose proof (no_listener _ _ _ Hr) as Hlis. unfold listener_ok in Hlis. rewrite Hl, Hnp in Hlis.
  destruct (nt_listener_registration n) as [rh|]; [|done]. destruct Hlis as (j & p & H1 & _ & _ & H2 & H3). eauto.
Qed.

(** Old names do nothing.  An event whose token is no live registration's is
    counted and nothing else; a send, a close and a close deadline for a
    connection that is gone leave the state as it is, up to a counter. *)
Theorem old_names_do_nothing n :
  net_reachable n →
  (∀ e, 0 <= tok_index (event_token e) → (∀ j p, holds j p (nt_registrations n) → pr_token p ≠ event_token e) →
     on_connection_event e n = NDone () (set_metrics (stale_poll_events :: nt_metrics n) n)) ∧
  (∀ ref, (∀ i c, holds i c (nt_connections n) → cs_handle c ≠ mkConnectionHandle (cref_id ref) (cref_generation ref)) →
     (∀ f critical, sendLocal ref f critical n = NDone SendStale n) ∧
     (∀ reason graceful, closeOwn ref reason graceful n = NDone false n) ∧
     onCloseDeadline (mkConnectionHandle (cref_id ref) (cref_generation ref)) n
       = NDone () (set_metrics (stale_close_deadlines :: nt_metrics n) n)).
Proof using Hsetup Heap.
  intros Hr%net_reachable_invariant. split.
  - intros e Hix He. unfold on_connection_event. rewrite nget_bind.
    destruct (reg_lookup_token (event_token e) (nt_registrations n)) as [p|] eqn:El; [|done].
    apply (reg_lookup_token_holds (no_registrations _ _ _ Hr)) in El as (j & Hj & Ht). by destruct (He j p Hj (eq_sym (Ht Hix))).
  - intros ref Href. assert (Hf : conn_find (mkConnectionHandle (cref_id ref) (cref_generation ref)) (nt_connections n) = None).
    { destruct (conn_find _ _) as [i|] eqn:E; [|done]. destruct (found_connection _ _ _ _ _ Hr E) as (c & Hi & Hc). by destruct (Href i c Hi). }
    split_and!; intros; unfold sendLocal, closeOwn, onCloseDeadline, find_connection; rewrite nget_bind; by rewrite Hf.
Qed.

(** The end of the shutdown leaves nobody: the table is empty, only the
    listener may still be registered, and every connection there ever was has been
    reported closed. *)
Theorem shutdown_leaves_nobody n n' :
  net_reachable n → closeConnections n = NDone () n' →
  (∀ i c, ¬ holds i c (nt_connections n')) ∧ st_active_count (nt_registrations n') = Z.b2z (has_value (nt_listener n')) ∧
  ∀ g, 0 < g <= st_last_generation (nt_connections n') → g ∈ closed_of (nt_log n').
Proof using Hsetup Heap.
  intros Hr%net_reachable_invariant Hrun. pose proof (closeConnections_ok Hsetup n Hr) as Hc. rewrite Hrun in Hc. destruct Hc as [Hok Hno].
  split_and!; [done| |].
  - rewrite (no_count _ _ _ Hok). cut (st_active_count (nt_connections n') = 0); [lia|].
    rewrite <-(length_actives _ _ (ct_slots _ _ (no_connections _ _ _ Hok))).
    destruct (actives (nt_connections n')) as [|c l] eqn:E; [done|]. exfalso.
    assert (Hc : c ∈ actives (nt_connections n')) by (rewrite E; by left). apply actives_elem in Hc as (i & s & Hi & Hs & He).
    apply (Hno i c). destruct (settled_free cs_generation _ _ _ (ct_slots _ _ (no_connections _ _ _ Hok)) (ct_settled _ _ (no_connections _ _ _ Hok)) Hi) as
      [->|[x Hx]]; [done|]. unfold holds in *. rewrite Hx in Hi. injection Hi as <-. cbn in He. congruence.
  - intros g Hg. apply (lk_closed _ (no_log _ _ _ Hok)). split; [done|]. intros (i & c & Hi & _). by apply (Hno i c).
Qed.
End spec.

(** ** A worker with an echo server

    Two connections at most; the sink answers each frame with the same frame.
    The clock stands still; the script of the kernel says who connects, what is
    read and whether a send blocks. *)

Record Script := mkScript { sc_clients : list Z; sc_input : list bytes; sc_blocks : list bool }.

#[local] Instance echo_setup : NetSetup Z := {
  net_charge m := m;
  net_self := 3;
  net_config := mkNetworkConfig (mkConnectionTableConfig 2 (mkConnectionLimits 64 64 128 1000)) 3 8 32 None
}.

#[local] Instance echo_heap : HeapAlgorithms (entry_deadline (M := Z)) := sorting_heap entry_deadline.

#[local] Program Instance echo_kernel : NetKernel Script := {
  k_now k := (100, k);
  k_accept used k :=
    match sc_clients k with
    | [] => (AcceptAgain, k)
    | d :: rest => (if decide (0 <= d ∧ d ∉ used) then AcceptedSocket d else AcceptAgain, mkScript rest (sc_input k) (sc_blocks k))
    end;
  k_configure d size k := (true, k);
  k_recv d size k :=
    match sc_input k with
    | [] => (RecvAgain, k)
    | bs :: rest => (if decide (0 < zlen bs <= size ∧ bytes_ok bs) then RecvBytes bs else RecvEof, mkScript (sc_clients k) rest (sc_blocks k))
    end;
  k_send d bs k :=
    match sc_blocks k with
    | true :: rest => (SendAgain, mkScript (sc_clients k) (sc_input k) rest)
    | _ => (if decide (0 < length bs)%nat then SentBytes (length bs) else SendAgain, mkScript (sc_clients k) (sc_input k) (tail (sc_blocks k)))
    end;
  k_epoll k := (true, k);
  interruptions := 0%nat;
  patience k := 0%nat
}.
Solve Obligations with (cbn; intros; repeat case_match; simplify_eq; done || lia).

#[local] Instance echo_sink : RequestSink (list ConnectionRef) := {
  sink_tryPost ref f s := (PostAccepted, [(ref, f, true)], s);
  sink_onConnectionClosed ref reason s := s ++ [ref]
}.

Lemma echo_setup_ok : net_setup_ok.
Proof. constructor; vm_compute; [reflexivity|intros [=]]. Qed.

Abbreviation EchoNet := (Net Z (list ConnectionRef) Script).

Definition echo_start (script : Script) : option EchoNet :=
  match configureNetwork ∅ (makeTimerQueue 1000) [] script with
  | Ret n => match attachListener 5 n with NDone true n' => Some n' | _ => None end
  | Throw _ => None
  end.

Fixpoint echo_calls (calls : list (NetCall (M := Z))) (n : EchoNet) : option EchoNet :=
  match calls with
  | [] => Some n
  | x :: rest => match net_call x n with NDone _ n' => echo_calls rest n' | NFailed _ => None end
  end.

Definition echo_run (script : Script) (calls : list (NetCall (M := Z))) : option EchoNet := n ← echo_start script; echo_calls calls n.

Definition timerless (x : NetCall (M := Z)) : bool := match x with NetTimers _ => false | _ => true end.

Lemma echo_reachable script calls n : forallb timerless calls = true → echo_run script calls = Some n → net_reachable n.
Proof.
  intros Hc Hr. unfold echo_run in Hr. apply bind_Some in Hr as (n0 & H0 & Hr). exists n0. split.
  - unfold echo_start in H0. destruct (configureNetwork ∅ (makeTimerQueue 1000) [] script) as [n1|] eqn:E1; [|done].
    destruct (attachListener 5 n1) as [[] n2|] eqn:E2; [|done|done]. injection H0 as ->.
    exists ∅, (makeTimerQueue 1000), [], script, 5, n1. split_and!; [apply is_heap_nil|apply lookup_empty|done|done].
  - clear H0. revert n0 Hr. induction calls as [|x calls IH]; intros n0 Hr; [injection Hr as ->; apply rtc_refl|]. cbn in Hc, Hr.
    apply andb_prop in Hc as [Hx Hc]. destruct (net_call x n0) as [[] n1|] eqn:E; [|done]. eapply rtc_l; [|by apply IH].
    exists x. split; [|done]. by destruct x.
Qed.

Definition new_client : PollEvent := mkPollEvent (mkPollToken (Some PollListener) 0 1) true false false false false.
Definition input_on (index generation : Z) : PollEvent :=
  mkPollEvent (mkPollToken (Some PollClientConnection) index generation) true false false false false.
Definition large_budget : IoBudget := mkIoBudget 10 10 10 10 1000 1000.
Definition large_writes : ByteTimeBudget := mkByteTimeBudget 1000 1000.
Definition ping : Frame := mkFrame MessageType.Ping 9 [1; 2; 3].
Definition two_pings : list bytes := [take 5 (wire ping); drop 5 (wire ping) ++ wire ping].
Definition echo_session : list (NetCall (M := Z)) :=
  [NetPoll [new_client] large_budget; NetPoll [input_on 1 2] large_budget; NetFlush large_writes].

Definition echo_script : Script := mkScript [7; 8] two_pings [true].

(** The first send blocks, so the two answers wait for the kernel. *)
Definition echo_state : option EchoNet := echo_run echo_script echo_session.

Lemma echo_state_reachable n : echo_state = Some n → net_reachable n.
Proof. by apply echo_reachable. Qed.

Lemma network_never_breaks_witness :
  ∃ n, echo_state = Some n ∧
    match net_call (NetFlush large_writes) n with NDone _ n' => net_reachable n' | NFailed f => net_excused f = true end.
Proof.
  eexists. split; [vm_compute; reflexivity|]. apply (network_never_breaks echo_setup_ok); [|exact I].
  apply echo_state_reachable. vm_compute. reflexivity.
Defined.

Definition first_connection (n : EchoNet) : option ConnectionSlot := st_slots (nt_connections n) !! 0%nat ≫= slot_entry.

Lemma connection_books_exact_witness :
  ∃ n c, echo_state = Some n ∧ holds 0 c (nt_connections n) ∧ cs_socket c = 7 ∧ cs_waiting_epollout c = true ∧
    st_active_count (nt_registrations n) = 3 ∧
    ∃ j p reads, holds j p (nt_registrations n) ∧ registrationFor (cs_handle c) n = Some p ∧ pr_descriptor p = cs_socket c ∧
      nt_poller n !! cs_socket c = Some (epoll_event (pr_token p) (mkInterest reads (cs_waiting_epollout c))) ∧
      (reads = true → isOpen c = true) ∧ (nt_stopping n = false → reads = isOpen c).
Proof.
  eexists _, _. do 5 (split; [vm_compute; reflexivity|]).
  refine (proj1 (connection_books_exact echo_setup_ok _ _) 0%nat _ _); [apply echo_state_reachable; vm_compute; reflexivity|vm_compute; reflexivity].
Defined.

Lemma no_connection_forgotten_witness :
  ∃ n c, echo_state = Some n ∧ holds 0 c (nt_connections n) ∧ unsent_bytes c = wire ping ++ wire ping ∧ ring_items (nt_write_queue n) = [] ∧
    (unsent_bytes c ≠ [] →
       cs_handle c ∈ ring_items (nt_write_queue n) ∨
       ∃ token reads, nt_poller n !! cs_socket c = Some (epoll_event token (mkInterest reads true))).
Proof.
  eexists _, _. do 4 (split; [vm_compute; reflexivity|]).
  eapply (no_connection_forgotten echo_setup_ok _ 0%nat); [apply echo_state_reachable; vm_compute; reflexivity|vm_compute; reflexivity].
Defined.

Lemma streams_in_order_witness :
  ∃ n, echo_run (mkScript [7; 8] two_pings []) echo_session = Some n ∧ sent_by 1 (nt_log n) = wire ping ++ wire ping ∧
    posted_by 1 (nt_log n) = [ping; ping] ∧ received_by 1 (nt_log n) = wire ping ++ wire ping ∧
    sent_by 1 (nt_log n) `prefix_of` (queued_by 1 (nt_log n) ≫= wire).
Proof.
  eexists. do 4 (split; [vm_compute; reflexivity|]).
  eapply (streams_in_order echo_setup_ok). apply (echo_reachable (mkScript [7; 8] two_pings []) echo_session); [reflexivity|vm_compute; reflexivity].
Defined.

(** The peer of the first connection hangs up. *)
Definition hangup : PollEvent := mkPollEvent (mkPollToken (Some PollClientConnection) 1 2) true false false true false.

Lemma closed_once_and_for_all_witness :
  ∃ n, echo_run echo_script (echo_session ++ [NetPoll [hangup] large_budget]) = Some n ∧ closed_of (nt_log n) = [1] ∧
    st_active_count (nt_connections n) = 1 ∧ NoDup (closed_of (nt_log n)).
Proof.
  eexists. do 3 (split; [vm_compute; reflexivity|]).
  eapply (closed_once_and_for_all echo_setup_ok).
  apply (echo_reachable echo_script (echo_session ++ [NetPoll [hangup] large_budget])); [reflexivity|vm_compute; reflexivity].
Defined.

(** Full with two clients, the listener was paused; it is back. *)
Lemma listener_comes_back_witness :
  ∃ n n', echo_state = Some n ∧ nt_listener_paused n = true ∧
    echo_run echo_script (echo_session ++ [NetPoll [hangup] large_budget]) = Some n' ∧ nt_listener_paused n' = false.
Proof.
  eexists _, _. do 3 (split; [vm_compute; reflexivity|]).
  eapply (listener_comes_back echo_setup_ok _ 5);
    [apply (echo_reachable echo_script (echo_session ++ [NetPoll [hangup] large_budget])); [reflexivity|vm_compute; reflexivity]|vm_compute; reflexivity..].
Defined.

(** The event of the connection that hung up comes again. *)
Lemma old_names_do_nothing_witness :
  ∃ n, echo_run echo_script (echo_session ++ [NetPoll [hangup] large_budget]) = Some n ∧
    (∀ f critical, sendLocal (mkConnectionRef 0 1 3) f critical n = NDone SendStale n).
Proof.
  eexists. split; [vm_compute; reflexivity|].
  refine (proj1 (proj2 (old_names_do_nothing echo_setup_ok _ _) (mkConnectionRef 0 1 3) _));
    [apply (echo_reachable echo_script (echo_session ++ [NetPoll [hangup] large_budget])); [reflexivity|vm_compute; reflexivity]|].
  intros i c Hi. destruct i as [|[|i]]; vm_compute in Hi; [discriminate Hi|injection Hi as <-; vm_compute; intros [=]|].
  discriminate Hi.
Defined.

Lemma shutdown_leaves_nobody_witness :
  ∃ n n', echo_state = Some n ∧ closeConnections n = NDone () n' ∧ closed_of (nt_log n') = [1; 2] ∧ ∀ i c, ¬ holds i c (nt_connections n').
Proof.
  eexists _, _. do 3 (split; [vm_compute; reflexivity|]).
  eapply (shutdown_leaves_nobody echo_setup_ok); [apply echo_state_reachable; vm_compute; reflexivity|vm_compute; reflexivity].
Defined.

(** ** Behaviour that is not intended *)

(** Phase A of the shutdown tells the kernel to stop reporting input, and
    the next flush of a connection tells it to report input again.  Reading stays
    switched off, so the event of a peer that sends is delivered, changes nothing
    but the clock's state, and comes again at once. *)
Theorem flush_after_stop_reads_again :
  ∃ n1 n2 n3 : EchoNet,
    echo_run (mkScript [7] [] []) [NetPoll [new_client] large_budget; NetPhaseA] = Some n1 ∧
    nt_stopping n1 = true ∧ ev_events <$> nt_poller n1 !! 7 = Some 0 ∧
    echo_calls [NetSend (mkConnectionRef 0 1 3) ping true; NetFlush large_writes] n1 = Some n2 ∧
    nt_stopping n2 = true ∧ ev_events <$> nt_poller n2 !! 7 = Some (Z.lor EPOLLIN EPOLLRDHUP) ∧
    net_call (NetPoll [input_on 1 2] large_budget) n2 = NDone () n3 ∧ n3 = n2.
Proof. eexists _, _, _. do 7 (split; [vm_compute; reflexivity|]). vm_compute. reflexivity. Qed.
