(* ===== verification/Encoder.v ===== *)
(** * The protocol encoder

    [src/src/adapter/protocol_encoder.cpp]: the frames the server answers and
    notifies its clients with, over the enumerations of [room_result.hpp],
    [zone_result.hpp], [purchase.hpp], [equip_skill.hpp] and [enemy.hpp].  The
    encoder never fails; a battle digest that does not fit in a payload is not
    encoded.  Every frame that is encoded is one [encode_frame] accepts. *)

From S2P Require Import Prelude Wire FrameCodec Arena Skills Zone RoomTypes Player.

(** ** Enumerators on the wire *)

Definition room_status_code (s : RoomCommandStatus) : Z :=
  match s with
  | Applied => 0 | AlreadyJoined => 1 | RoomFull => 2 | WrongPhase => 3 | NotJoined => 4 | EntryFailed => 5
  | DuplicateRequest => 6 | SkillOnCooldown => 7 | UnknownSkill => 8 | BattleExpired => 9 | ParticipantDead => 10
  | RuntimeOverloaded => 11 | ProjectileCapacityExceeded => 12 | SkillNotEquipped => 13
  end.

Definition room_phase_code (p : RoomPhase) : Z :=
  match p with Waiting => 0 | Running => 1 | Cleared => 2 | Failed => 3 end.

Definition failure_reason_code (r : BattleFailureReason) : Z := match r with Deadline => 0 | ParticipantsDefeated => 1 end.

Definition enemy_kind_code (k : EnemyKind) : Z := match k with Minion => 0 | Boss => 1 end.

Definition removal_reason_code (r : ProjectileRemovalReason) : Z := match r with Hit => 0 | TargetLost => 1 | Expired => 2 end.

Definition zone_status_code (s : ZoneCommandStatus) : Z :=
  match s with
  | ZoneApplied => 0 | AlreadyPresent => 1 | PlayerMissing => 2 | StaleRoute => 3 | TransitionInProgress => 4
  | TransferFailed => 5 | InRoom => 6
  end.

Definition purchase_status_code (s : PurchaseStatus) : Z :=
  match s with
  | Committed => 0 | InsufficientFunds => 1 | ProductNotFound => 2 | InventoryCapacityExceeded => 3
  | IdempotencyConflict => 4 | IdempotencyCapacityExceeded => 5 | Unavailable => 6 | ProductAlreadyOwned => 7
  end.

Definition equip_status_code (s : EquipSkillStatus) : Z :=
  match s with
  | EquipStatusEquipped => 0 | EquipStatusAlreadyEquipped => 1 | EquipStatusNotOwned => 2 | EquipStatusUnknown => 3
  end.

(** [BattleEventKind]. *)
Definition event_kind (e : BattleEvent) : Z :=
  match e with
  | EnemySpawned _ _ _ => 0
  | EnemyDamaged _ _ _ _ _ => 1
  | EnemyDied _ => 2
  | SkillWhiffed _ _ => 3
  | ArenaStarted _ _ => 4
  | ParticipantSpawned _ _ _ => 5
  | ParticipantMoved _ _ => 6
  | EnemyPositioned _ _ => 7
  | ParticipantDamaged _ _ _ _ => 8
  | ParticipantDied _ => 9
  | ParticipantLeft _ => 10
  | ProjectileSpawned _ _ _ _ _ => 11
  | ProjectileMoved _ _ => 12
  | ProjectileRemoved _ _ => 13
  end.

(** [static_cast<std::byte>(flag ? 1 : 0)]. *)
Definition flag_byte (b : bool) : Z := if b then 1 else 0.

Definition push_back (payload : bytes) (b : Z) : bytes := payload ++ [b].

(** ** Battle events *)

Definition DIGEST_HEADER_SIZE : Z := 8 + 1 + 2.

Definition encoded_event_size (event : BattleEvent) : Z :=
  match event with
  | EnemySpawned _ _ _ => 1 + 4 + 1 + 8
  | EnemyDamaged _ _ _ _ _ => 1 + 4 + 8 + 4 + 8 + 8
  | EnemyDied _ => 1 + 4
  | SkillWhiffed _ _ => 1 + 8 + 4
  | ArenaStarted _ _ => 1 + 4 + 4
  | ParticipantSpawned _ _ _ => 1 + 8 + 4 + 4 + 8
  | ParticipantMoved _ _ => 1 + 8 + 4 + 4
  | EnemyPositioned _ _ => 1 + 4 + 4 + 4
  | ParticipantDamaged _ _ _ _ => 1 + 8 + 4 + 8 + 8
  | ParticipantDied _ | ParticipantLeft _ => 1 + 8
  | ProjectileSpawned _ _ _ _ _ => 1 + 4 + 8 + 4 + 4 + 4 + 4
  | ProjectileMoved _ _ => 1 + 4 + 4 + 4
  | ProjectileRemoved _ _ => 1 + 4 + 1
  end.

Definition append_event (payload : bytes) (event : BattleEvent) : bytes :=
  let p := push_back payload (event_kind event) in
  match event with
  | EnemySpawned id kind health => append_u64 (push_back (append_u32 p id) (enemy_kind_code kind)) health
  | EnemyDamaged target actor skill amount health =>
      append_u64 (append_u64 (append_u32 (append_u64 (append_u32 p target) actor) skill) amount) health
  | EnemyDied id => append_u32 p id
  | SkillWhiffed actor skill => append_u32 (append_u64 p actor) skill
  | ArenaStarted width height => append_u32 (append_u32 p width) height
  | ParticipantSpawned player pos health =>
      append_u64 (append_u32 (append_u32 (append_u64 p player) (pos_x pos)) (pos_y pos)) health
  | ParticipantMoved player pos => append_u32 (append_u32 (append_u64 p player) (pos_x pos)) (pos_y pos)
  | EnemyPositioned enemy pos => append_u32 (append_u32 (append_u32 p enemy) (pos_x pos)) (pos_y pos)
  | ParticipantDamaged target attacker amount health =>
      append_u64 (append_u64 (append_u32 (append_u64 p target) attacker) amount) health
  | ParticipantDied player => append_u64 p player
  | ParticipantLeft player => append_u64 p player
  | ProjectileSpawned projectile owner skill target pos =>
      append_u32 (append_u32 (append_u32 (append_u32 (append_u64 (append_u32 p projectile) owner) skill) target)
        (pos_x pos)) (pos_y pos)
  | ProjectileMoved projectile pos => append_u32 (append_u32 (append_u32 p projectile) (pos_x pos)) (pos_y pos)
  | ProjectileRemoved projectile reason => push_back (append_u32 p projectile) (removal_reason_code reason)
  end.

(** ** Player responses *)

(** The loop of the [Authenticated] payload: the bytes from the last to the
    first, [index] of them left to fill. *)
Fixpoint fill_big_endian (index : nat) (remaining : Z) (filled : bytes) : bytes :=
  match index with
  | O => filled
  | S n => fill_big_endian n (Z.shiftr remaining 8) (Z.land remaining 255 :: filled)
  end.

Definition encodePlayerResponse (response : PlayerResponse) (request_id : Z) : Frame :=
  match response with
  | PongResponse payload => mkFrame MessageType.Pong request_id payload
  | AuthenticatedResponse player => mkFrame MessageType.Authenticated request_id (fill_big_endian 8 player [])
  | PurchaseResponse result =>
      let p := push_back (push_back [] (purchase_status_code (pt_status result))) (flag_byte (pt_replayed result)) in
      mkFrame MessageType.PurchaseResult request_id
        (append_u64 (append_u64 (append_u32 (append_u64 p (pt_idempotency_key result)) (pt_product result))
           (pt_currency_balance result)) (pt_purchased_item_count result))
  | EquipSkillResponse status equipped =>
      mkFrame MessageType.EquipSkillResult request_id (append_u32 (push_back [] (equip_status_code status)) equipped)
  end.

(** ** Zone replies *)

Inductive ZoneReplyFrameKind := ZoneReplyEntered | ZoneReplyMoved | ZoneReplyLeft.

Definition zone_reply_type (kind : ZoneReplyFrameKind) : Z :=
  match kind with
  | ZoneReplyEntered => MessageType.ZoneEntered
  | ZoneReplyMoved => MessageType.Moved
  | ZoneReplyLeft => MessageType.ZoneLeft
  end.

Definition FIXED_PAYLOAD_SIZE : Z := 1 + 8 + 8 + 4 + 4 + 2.
Definition MAX_VISIBLE_BY_PAYLOAD : Z := (MAX_PAYLOAD_SIZE - FIXED_PAYLOAD_SIZE) / 8.

Definition visible_count (result : ZoneResult) : Z :=
  Z.min (zlen (zr_visible_players result)) (Z.min U16_MAX MAX_VISIBLE_BY_PAYLOAD).

Definition encodeZoneReply (kind : ZoneReplyFrameKind) (zone : ZoneId) (result : ZoneResult) (request_id : Z) : Frame :=
  let x := match zr_position result with Some position => zone_x position | None => 0 end in
  let y := match zr_position result with Some position => zone_y position | None => 0 end in
  let p1 := append_u64 (append_u64 (push_back [] (zone_status_code (zr_status result))) zone) (zr_route_epoch result) in
  let p2 := append_u16 (append_u32 (append_u32 p1 (u32 x)) (u32 y)) (u16 (visible_count result)) in
  mkFrame (zone_reply_type kind) request_id
    (foldl append_u64 p2 (take (Z.to_nat (visible_count result)) (zr_visible_players result))).

(** ** Room replies and notifications *)

Inductive RoomReplyFrameKind := RoomReplyJoined | RoomReplyBattleStarted | RoomReplySkillAcknowledged | RoomReplyMoveAcknowledged.

#[export] Instance RoomReplyFrameKind_eq_dec : EqDecision RoomReplyFrameKind.
Proof. solve_decision. Defined.

Definition encodeRoomReply (kind : RoomReplyFrameKind) (room : RoomId) (result : RoomResult) (request_id : Z) : Frame :=
  if bool_decide (kind = RoomReplySkillAcknowledged) || bool_decide (kind = RoomReplyMoveAcknowledged)
  then mkFrame (if bool_decide (kind = RoomReplySkillAcknowledged) then MessageType.SkillAcknowledged else MessageType.MoveAcknowledged)
         request_id [room_status_code (rr_status result); room_phase_code (rr_phase result)]
  else mkFrame (if bool_decide (kind = RoomReplyJoined) then MessageType.RoomJoined else MessageType.BattleStarted) request_id
         (append_u64 (push_back (push_back [] (room_status_code (rr_status result))) (room_phase_code (rr_phase result))) room).

(** The loop that sums the sizes of the events; [None]: too large. *)
Fixpoint digest_size (size : Z) (events : list BattleEvent) : option Z :=
  match events with
  | [] => Some size
  | event :: rest =>
      let event_size := encoded_event_size event in
      if (MAX_PAYLOAD_SIZE <? size) || (MAX_PAYLOAD_SIZE - size <? event_size) then None
      else digest_size (size + event_size) rest
  end.

Definition encodeBattleDigest (result : RoomResult) (request_id : Z) : option Frame :=
  digest ← rr_digest result;
  if U16_MAX <? zlen (events digest) then None
  else
    _ ← digest_size DIGEST_HEADER_SIZE (events digest);
    let header := append_u16 (push_back (append_u64 [] (sequence digest)) (room_phase_code (rr_phase result)))
                    (u16 (zlen (events digest))) in
    Some (mkFrame MessageType.BattleDigest request_id (foldl append_event header (events digest))).

Definition encodeBattleCleared (experience request_id : Z) : Frame :=
  mkFrame MessageType.BattleCleared request_id (append_u64 [] experience).

Definition encodeBattleFailure (result : RoomResult) (request_id : Z) : Frame :=
  mkFrame MessageType.BattleFailed request_id
    (push_back (push_back (append_u64 [] (rr_boss_health result)) (flag_byte (rr_boss_spawned result)))
       (failure_reason_code (default Deadline (rr_failure_reason result)))).

Definition encodeReturnedToZone (zone : ZoneId) (position : ZonePosition) (request_id : Z) : Frame :=
  mkFrame MessageType.ReturnedToZone request_id
    (append_u32 (append_u32 (append_u64 [] zone) (u32 (zone_x position))) (u32 (zone_y position))).

Definition UNSOLICITED_REQUEST_ID : Z := 0.
