(* ===== verification/ClientWire.v ===== *)
(** * The game client's view of the wire

    [src/game-client/snf_wire.py], the client side of the protocol: its frame
    encoder and [FrameDecoder], the payloads of its requests and the parsers of
    the server's answers.  It shares no code with the server, so that the wire
    format is stated twice in the repository, here and in the C++ sources.

    A Python function that may raise returns [py].  The formats of the [struct]
    module that the client uses are parsed from their strings: [>] and the codes
    [B], [H], [I], [Q] (unsigned, 1, 2, 4 and 8 bytes) and [i] (signed, 4
    bytes).  A [dict] is the list of its entries, in order of insertion. *)

From Stdlib Require Import Ascii String.
From S2P Require Import Prelude Wire FrameCodec Arena.

(** ** Python *)

Inductive PyError := ValueError | StructError | IndexError.

Inductive py (A : Type) :=
| Value (a : A)
| Raise (e : PyError).
Arguments Value {A} a.
Arguments Raise {A} e.

#[export] Instance py_bind : MBind py := fun _ _ k m => match m with Value a => k a | Raise e => Raise e end.
#[export] Instance py_ret : MRet py := fun _ a => Value a.

(** [if c: raise e], followed by [k]. *)
Definition raise_if {A} (c : bool) (e : PyError) (k : py A) : py A := if c then Raise e else k.

(** [payload[offset]]. *)
Definition py_index (bs : bytes) (offset : nat) : py Z :=
  match bs !! offset with Some b => Value b | None => Raise IndexError end.

(** *** The [struct] module *)

Inductive StructCode := CodeB | CodeH | CodeI | CodeQ | Codei.

Definition code_of (c : ascii) : py StructCode :=
  match c with
  | "B"%char => Value CodeB
  | "H"%char => Value CodeH
  | "I"%char => Value CodeI
  | "Q"%char => Value CodeQ
  | "i"%char => Value Codei
  | _ => Raise StructError
  end.

Fixpoint codes_of (s : string) : py (list StructCode) :=
  match s with
  | EmptyString => Value []
  | String c rest => code ← code_of c; codes ← codes_of rest; mret (code :: codes)
  end.

(** Only the big-endian formats, without padding, are used. *)
Definition format (s : string) : py (list StructCode) :=
  match s with String ">"%char rest => codes_of rest | _ => Raise StructError end.

Definition code_size (c : StructCode) : nat := match c with CodeB => 1 | CodeH => 2 | CodeI | Codei => 4 | CodeQ => 8 end.

Definition calcsize (codes : list StructCode) : nat := sum_list (code_size <$> codes).

Definition signed32 (z : Z) : Z := if z <? 2 ^ 31 then z else z - 2 ^ 32.

Definition unpack_one (c : StructCode) (bs : bytes) : Z :=
  let v := be_value bs in match c with Codei => signed32 v | _ => v end.

Fixpoint unpack_values (codes : list StructCode) (bs : bytes) : list Z :=
  match codes with
  | [] => []
  | c :: rest => unpack_one c (take (code_size c) bs) :: unpack_values rest (drop (code_size c) bs)
  end.

(** [struct.unpack_from(fmt, buffer, offset)] asks for enough bytes,
    [struct.unpack] for exactly enough. *)
Definition unpack_codes_from (codes : list StructCode) (bs : bytes) (offset : nat) : py (list Z) :=
  if (length bs - offset <? calcsize codes)%nat then Raise StructError
  else Value (unpack_values codes (drop offset bs)).

Definition unpack_from (fmt : string) (bs : bytes) (offset : nat) : py (list Z) :=
  codes ← format fmt; unpack_codes_from codes bs offset.

Definition unpack (fmt : string) (bs : bytes) : py (list Z) :=
  codes ← format fmt; raise_if (negb (length bs =? calcsize codes)%nat) StructError (Value (unpack_values codes bs)).

Definition code_holds (c : StructCode) (v : Z) : bool :=
  match c with
  | CodeB => (0 <=? v) && (v <=? U8_MAX)
  | CodeH => (0 <=? v) && (v <=? U16_MAX)
  | CodeI => (0 <=? v) && (v <=? U32_MAX)
  | CodeQ => (0 <=? v) && (v <=? U64_MAX)
  | Codei => (- 2 ^ 31 <=? v) && (v <=? I32_MAX)
  end.

Fixpoint pack_values (codes : list StructCode) (vs : list Z) : py bytes :=
  match codes, vs with
  | [], [] => Value []
  | c :: codes', v :: vs' =>
      raise_if (negb (code_holds c v)) StructError (bs ← pack_values codes' vs'; mret (be_bytes (code_size c) v ++ bs))
  | _, _ => Raise StructError
  end.

Definition pack (fmt : string) (vs : list Z) : py bytes := codes ← format fmt; pack_values codes vs.

(** ** Enumerations

    An [IntEnum] of the client is the number; calling the class on a number that
    is no member raises [ValueError]. *)

Definition IntEnum (members : list Z) (v : Z) : py Z := if existsb (Z.eqb v) members then Value v else Raise ValueError.

Definition py_MessageType : Z → py Z :=
  IntEnum [1; 2; 3; 4; 5; 6; 7; 8; 9; 10; 11; 12; 17; 18; 19; 20; 21; 22; 23; 24; 25; 26; 27; 28; 29; 30; 31; 32; 33].
Definition py_RoomStatus : Z → py Z := IntEnum [0; 1; 2; 3; 4; 5; 6; 7; 8; 9; 10; 11; 12; 13].
Definition py_PurchaseStatus : Z → py Z := IntEnum [0; 1; 2; 3; 4; 5; 6; 7].
Definition py_EquipSkillStatus : Z → py Z := IntEnum [0; 1; 2; 3].
Definition py_RoomPhase : Z → py Z := IntEnum [0; 1; 2; 3].
Definition py_BattleFailureReason : Z → py Z := IntEnum [0; 1].
Definition py_EventTag : Z → py Z := IntEnum [0; 1; 2; 3; 4; 5; 6; 7; 8; 9; 10; 11; 12; 13].

(** [int(Direction.NorthWest)]. *)
Definition DIRECTION_NORTH_WEST : Z := 8.

(** The keys are the members of [EventTag]. *)
Definition EVENT_SPECS : list (Z * (string * list string)) :=
  [(0, (">IBQ", ["id"; "kind"; "hp"]));
   (1, (">IQIQQ", ["target"; "actor"; "skill_id"; "amount"; "hp"]));
   (2, (">I", ["id"]));
   (3, (">QI", ["actor"; "skill_id"]));
   (4, (">II", ["width"; "height"]));
   (5, (">QIIQ", ["player"; "x"; "y"; "hp"]));
   (6, (">QII", ["player"; "x"; "y"]));
   (7, (">III", ["enemy"; "x"; "y"]));
   (8, (">QIQQ", ["target"; "attacker"; "amount"; "hp"]));
   (9, (">Q", ["player"]));
   (10, (">Q", ["player"]));
   (11, (">IQIIII", ["projectile"; "owner"; "skill_id"; "target"; "x"; "y"]));
   (12, (">III", ["projectile"; "x"; "y"]));
   (13, (">IB", ["projectile"; "reason"]))]%string.

(** ** Frames *)

Definition PY_MIN_BODY_SIZE : Z := 6.
Definition PY_MAX_BODY_SIZE : Z := 64 * 1024.

Definition py_encode (msg_type request_id : Z) (payload : bytes) : py bytes :=
  let body_len := PY_MIN_BODY_SIZE + zlen payload in
  raise_if (PY_MAX_BODY_SIZE <? body_len) ValueError
  (header ← pack ">IHI" [body_len; msg_type; request_id]; mret (header ++ payload)).

Record PyFrameDecoder := mkPyDecoder { py_buf : bytes; py_offset : nat }.

Definition py_new : PyFrameDecoder := mkPyDecoder [] 0.

(** [del self._buf[: self._offset]] when there is something to delete. *)
Definition py_compact (d : PyFrameDecoder) : PyFrameDecoder :=
  if (0 <? py_offset d)%nat then mkPyDecoder (drop (py_offset d) (py_buf d)) 0 else d.

Definition py_feed (d : PyFrameDecoder) (data : bytes) : PyFrameDecoder :=
  let d1 := py_compact d in mkPyDecoder (py_buf d1 ++ data) (py_offset d1).

(** One round of the [while True] of [frames]: stop, or the frame to yield. *)
Definition py_next (d : PyFrameDecoder) : py (option Frame * PyFrameDecoder) :=
  let remaining := Z.of_nat (length (py_buf d)) - Z.of_nat (py_offset d) in
  if remaining <? 4 then mret (None, d)
  else
    lens ← unpack_from ">I" (py_buf d) (py_offset d);
    match lens with
    | [body_len] =>
        if (body_len <? PY_MIN_BODY_SIZE) || (PY_MAX_BODY_SIZE <? body_len) then Raise ValueError
        else
          let total_len := 4 + body_len in
          if remaining <? total_len then mret (None, d)
          else
            heads ← unpack_from ">HI" (py_buf d) (py_offset d + 4);
            match heads with
            | [raw_type; request_id] =>
                let payload_start := (py_offset d + 10)%nat in
                let payload_end := (py_offset d + Z.to_nat total_len)%nat in
                let payload := take (payload_end - payload_start) (drop payload_start (py_buf d)) in
                let d1 := mkPyDecoder (py_buf d) payload_end in
                msg_type ← py_MessageType raw_type;
                mret (Some (mkFrame msg_type request_id payload), d1)
            | _ => Raise ValueError
            end
    | _ => Raise ValueError
    end.

(** The generator run to its end: the frames it yields, the exception that
    ends it if one does, and otherwise the decoder it leaves.  A frame takes at
    least ten bytes. *)
Fixpoint py_frames_loop (fuel : nat) (d : PyFrameDecoder) : option (list Frame * py PyFrameDecoder) :=
  match fuel with
  | O => None
  | S n =>
      match py_next d with
      | Raise e => Some ([], Raise e)
      | Value (None, d1) => Some ([], Value (py_compact d1))
      | Value (Some f, d1) => '(fs, r) ← py_frames_loop n d1; Some (f :: fs, r)
      end
  end.

Definition py_frames (d : PyFrameDecoder) : option (list Frame * py PyFrameDecoder) :=
  py_frames_loop (S (length (py_buf d))) d.

(** ** The payloads of requests *)

Definition authenticate (player_id : Z) : py bytes :=
  raise_if (player_id =? 0) ValueError (pack ">Q" [player_id]).

Definition purchase (idempotency_key product_id : Z) : py bytes :=
  raise_if (idempotency_key =? 0) ValueError
  (raise_if (product_id =? 0) ValueError (pack ">QI" [idempotency_key; product_id])).

Definition equip_skill (skill_id : Z) : py bytes := raise_if (skill_id =? 0) ValueError (pack ">I" [skill_id]).

Definition enter_zone (zone_id x y : Z) : py bytes := pack ">Qii" [zone_id; x; y].

Definition room_join (room_id : Z) : py bytes := raise_if (room_id =? 0) ValueError (pack ">Q" [room_id]).

Definition battle_start (room_id : Z) : py bytes := raise_if (room_id =? 0) ValueError (pack ">Q" [room_id]).

Definition set_move_intent (room_id direction seq : Z) : py bytes :=
  raise_if (room_id =? 0) ValueError
  (raise_if (seq =? 0) ValueError
  (raise_if ((direction <? 0) || (DIRECTION_NORTH_WEST <? direction)) ValueError
  (pack ">QBQ" [room_id; direction; seq]))).

Definition use_skill (room_id skill_id seq : Z) : py bytes :=
  raise_if (room_id =? 0) ValueError
  (raise_if (skill_id =? 0) ValueError
  (raise_if (seq =? 0) ValueError (pack ">QIQ" [room_id; skill_id; seq]))).

Definition move_in_zone (x y : Z) : py bytes := pack ">ii" [x; y].

Definition leave_zone : bytes := [].
Definition room_leave : bytes := [].

(** ** The parsers of answers

    Unpacking a sequence of the wrong length raises [ValueError]. *)

Definition parse_authenticated (payload : bytes) : py Z :=
  raise_if (negb (zlen payload =? 8)) ValueError
  (vs ← unpack ">Q" payload; match vs with v :: _ => mret v | [] => Raise IndexError end).

Record PurchaseReply := mkPurchaseReply {
  pr_status : Z; pr_replayed : bool; pr_idempotency_key : Z; pr_product_id : Z; pr_currency_balance : Z; pr_purchased_item_count : Z
}.

Definition parse_purchase_result (payload : bytes) : py PurchaseReply :=
  raise_if (negb (zlen payload =? 30)) ValueError
  (vs ← unpack ">BBQIQQ" payload;
   match vs with
   | [status; replayed; idempotency_key; product_id; currency_balance; purchased_item_count] =>
       status' ← py_PurchaseStatus status;
       mret (mkPurchaseReply status' (negb (replayed =? 0)) idempotency_key product_id currency_balance purchased_item_count)
   | _ => Raise ValueError
   end).

Definition parse_equip_skill_result (payload : bytes) : py (Z * Z) :=
  raise_if (negb (zlen payload =? 5)) ValueError
  (vs ← unpack ">BI" payload;
   match vs with
   | [status; equipped_skill_id] => status' ← py_EquipSkillStatus status; mret (status', equipped_skill_id)
   | _ => Raise ValueError
   end).

Record ZoneReply := mkZoneReply {
  zy_status : Z; zy_zone_id : Z; zy_epoch : Z; zy_x : Z; zy_y : Z; zy_visible_players : list Z
}.

Definition parse_zone_entered (payload : bytes) : py ZoneReply :=
  raise_if (zlen payload <? 27) ValueError
  (vs ← unpack_from ">BQQiiH" payload 0;
   match vs with
   | [status; zone_id; epoch; x; y; visible_count] =>
       let expected_len := 27 + visible_count * 8 in
       raise_if (negb (zlen payload =? expected_len)) ValueError
       (visible_players ←
          (if 0 <? visible_count then unpack_codes_from (replicate (Z.to_nat visible_count) CodeQ) payload 27 else mret []);
        mret (mkZoneReply status zone_id epoch x y visible_players))
   | _ => Raise ValueError
   end).

Definition parse_moved (payload : bytes) : py ZoneReply := parse_zone_entered payload.

Definition parse_room_reply (payload : bytes) : py (Z * Z * Z) :=
  raise_if (negb (zlen payload =? 10)) ValueError
  (vs ← unpack ">BBQ" payload;
   match vs with
   | [status_raw; phase_raw; room_id] => status ← py_RoomStatus status_raw; phase ← py_RoomPhase phase_raw; mret (status, phase, room_id)
   | _ => Raise ValueError
   end).

Definition parse_ack (payload : bytes) : py (Z * Z) :=
  raise_if (negb (zlen payload =? 2)) ValueError
  (vs ← unpack ">BB" payload;
   match vs with
   | [status_raw; phase_raw] => status ← py_RoomStatus status_raw; phase ← py_RoomPhase phase_raw; mret (status, phase)
   | _ => Raise ValueError
   end).

Definition parse_cleared (payload : bytes) : py Z :=
  raise_if (negb (zlen payload =? 8)) ValueError
  (vs ← unpack ">Q" payload; match vs with v :: _ => mret v | [] => Raise IndexError end).

Definition parse_failed (payload : bytes) : py (Z * bool * Z) :=
  raise_if (negb (zlen payload =? 10)) ValueError
  (vs ← unpack ">QBB" payload;
   match vs with
   | [boss_hp; boss_spawned; reason] => reason' ← py_BattleFailureReason reason; mret (boss_hp, negb (boss_spawned =? 0), reason')
   | _ => Raise ValueError
   end).

Definition parse_returned (payload : bytes) : py (Z * Z * Z) :=
  raise_if (negb (zlen payload =? 16)) ValueError
  (vs ← unpack ">Qii" payload; match vs with [zone_id; x; y] => mret (zone_id, x, y) | _ => Raise ValueError end).

(** *** Digests *)

Abbreviation ClientEvent := (Z * list (string * Z))%type.

(** [_EVENT_SPECS[tag]]. *)
Definition event_spec (tag : Z) : option (string * list string) := snd <$> find_first (fun entry => entry.1 =? tag) EVENT_SPECS.

(** One round of the loop over the events. *)
Definition parse_event (payload : bytes) (offset : nat) : py (ClientEvent * nat) :=
  raise_if (Z.of_nat (length payload) <=? Z.of_nat offset) ValueError
  (tag_val ← py_index payload offset;
   let offset1 := (offset + 1)%nat in
   tag ← py_EventTag tag_val;
   match event_spec tag with
   | None => Raise ValueError
   | Some (fmt, fields) =>
       codes ← format fmt;
       let size := calcsize codes in
       raise_if (Z.of_nat (length payload) <? Z.of_nat (offset1 + size)) ValueError
       (vals ← unpack_from fmt payload offset1; mret ((tag, zip fields vals), (offset1 + size)%nat))
   end).

Fixpoint parse_events (count : nat) (payload : bytes) (offset : nat) : py (list ClientEvent * nat) :=
  match count with
  | O => mret ([], offset)
  | S n =>
      '(event, offset1) ← parse_event payload offset;
      '(events, offset2) ← parse_events n payload offset1;
      mret (event :: events, offset2)
  end.

Definition parse_digest (payload : bytes) : py (Z * Z * list ClientEvent) :=
  raise_if (zlen payload <? 11) ValueError
  (vs ← unpack_from ">QBH" payload 0;
   match vs with
   | [seq; phase_raw; count] =>
       phase ← py_RoomPhase phase_raw;
       '(events, offset) ← parse_events (Z.to_nat count) payload 11;
       raise_if (negb (offset =? length payload)%nat) ValueError (mret (seq, phase, events))
   | _ => Raise ValueError
   end).
