(* ===== verification/ClientSpec.v ===== *)
(** * Server and client speak the same language

    The encoder of the server and the parsers of the game client against each
    other, the client's requests against the gateway, and the two frame codecs
    against the byte stream format: what either side writes is what the other
    reads. *)

From Stdlib Require Import Ascii String.
From S2P Require Import Prelude Arena Zone Player RoomTypes Connection Wire FrameCodec SessionDirectory RouteCoordinator Distribution Ring TransitionChannel Server Handoff RoomEntry Gateway GatewaySpec Encoder ClientWire.

(** ** Packed values *)

Fixpoint packed (codes : list StructCode) (vs : list Z) : bytes :=
  match codes, vs with
  | c :: codes', v :: vs' => be_bytes (code_size c) v ++ packed codes' vs'
  | _, _ => []
  end.

Definition holds_all (codes : list StructCode) (vs : list Z) : Prop := Forall2 (fun c v => code_holds c v = true) codes vs.

Lemma packed_length codes vs : holds_all codes vs → length (packed codes vs) = calcsize codes.
Proof. induction 1; [done|]. unfold calcsize in *. cbn. by rewrite length_app, be_bytes_length, IHForall2. Qed.

Lemma packed_ok codes vs : bytes_ok (packed codes vs).
Proof.
  revert vs. induction codes as [|c codes IH]; intros [|v vs]; try (by constructor). cbn. apply bytes_ok_app. split; [apply be_bytes_ok|done].
Qed.

Lemma unpack_one_packed c v : code_holds c v = true → unpack_one c (be_bytes (code_size c) v) = v.
Proof.
  unfold unpack_one. rewrite be_value_bytes. destruct c; cbn; intros H; apply andb_prop in H as [H1 H2]; to_prop; try (apply Z.mod_small; lia).
  unfold signed32. destruct (decide (0 <= v)).
  - rewrite Z.mod_small by lia. by rewrite (proj2 (Z.ltb_lt _ _)) by lia.
  - rewrite <-(Z.mod_add v 1), Z.mod_small by lia. rewrite (proj2 (Z.ltb_ge _ _)) by lia. lia.
Qed.

Lemma unpack_packed codes vs tail : holds_all codes vs → unpack_values codes (packed codes vs ++ tail) = vs.
Proof.
  induction 1 as [|c v codes vs Hv Hvs IH]; [done|]. cbn.
  rewrite <-app_assoc, take_app_length', drop_app_length' by (by rewrite be_bytes_length). by rewrite unpack_one_packed, IH.
Qed.

Lemma pack_packed codes vs bs : pack_values codes vs = Value bs → holds_all codes vs ∧ bs = packed codes vs.
Proof.
  revert vs bs. induction codes as [|c codes IH]; intros [|v vs] bs; cbn; try done.
  - intros [= <-]. split; [constructor|done].
  - unfold raise_if. destruct (code_holds c v) eqn:Hv; cbn; [|done]. destruct (pack_values codes vs) as [bs'|] eqn:E; [|done].
    destruct (IH _ _ E) as [Ha ->]. intros [= <-]. split; [by constructor|done].
Qed.

Lemma unpack_from_packed codes vs pre tail :
  holds_all codes vs → unpack_codes_from codes (pre ++ packed codes vs ++ tail) (length pre) = Value vs.
Proof.
  intros H. unfold unpack_codes_from. rewrite !length_app, packed_length by done.
  destruct (Nat.ltb_spec (length pre + (calcsize codes + length tail) - length pre) (calcsize codes)); [lia|].
  by rewrite drop_app_length, unpack_packed.
Qed.

Lemma unpack_exact fmt codes vs : format fmt = Value codes → holds_all codes vs → unpack fmt (packed codes vs) = Value vs.
Proof.
  intros Hf H. unfold unpack. rewrite Hf. cbn. rewrite packed_length by done. rewrite Nat.eqb_refl. cbn.
  by rewrite <-(app_nil_r (packed codes vs)), unpack_packed.
Qed.

Lemma unpack_head fmt codes vs tail :
  format fmt = Value codes → holds_all codes vs → unpack_from fmt (packed codes vs ++ tail) 0 = Value vs.
Proof. intros Hf H. unfold unpack_from. rewrite Hf. cbn. by apply (unpack_from_packed codes vs []). Qed.

Lemma byte_packed b : in_u8 b → [b] = be_bytes 1 b.
Proof. intros Hb. rewrite be_bytes_S. cbn. f_equal. rewrite Z.div_1_r. symmetry. apply Z.mod_small. lia. Qed.

Lemma word_packed v : be_bytes 4 (u32 v) = be_bytes 4 v.
Proof. unfold u32. apply (be_bytes_mod 4). Qed.

Lemma half_packed v : be_bytes 2 (u16 v) = be_bytes 2 v.
Proof. unfold u16. apply (be_bytes_mod 2). Qed.

(** ** The server's bytes *)

Definition event_values (e : BattleEvent) : list Z :=
  match e with
  | EnemySpawned id kind health => [id; enemy_kind_code kind; health]
  | EnemyDamaged target actor skill amount health => [target; actor; skill; amount; health]
  | EnemyDied id => [id]
  | SkillWhiffed actor skill => [actor; skill]
  | ArenaStarted width height => [width; height]
  | ParticipantSpawned player pos health => [player; pos_x pos; pos_y pos; health]
  | ParticipantMoved player pos => [player; pos_x pos; pos_y pos]
  | EnemyPositioned enemy pos => [enemy; pos_x pos; pos_y pos]
  | ParticipantDamaged target attacker amount health => [target; attacker; amount; health]
  | ParticipantDied player | ParticipantLeft player => [player]
  | ProjectileSpawned projectile owner skill target pos => [projectile; owner; skill; target; pos_x pos; pos_y pos]
  | ProjectileMoved projectile pos => [projectile; pos_x pos; pos_y pos]
  | ProjectileRemoved projectile reason => [projectile; removal_reason_code reason]
  end.

(** The widths the client expects of each kind of event. *)
Definition event_codes (e : BattleEvent) : list StructCode :=
  match e with
  | EnemySpawned _ _ _ => [CodeI; CodeB; CodeQ]
  | EnemyDamaged _ _ _ _ _ => [CodeI; CodeQ; CodeI; CodeQ; CodeQ]
  | EnemyDied _ => [CodeI]
  | SkillWhiffed _ _ => [CodeQ; CodeI]
  | ArenaStarted _ _ => [CodeI; CodeI]
  | ParticipantSpawned _ _ _ => [CodeQ; CodeI; CodeI; CodeQ]
  | ParticipantMoved _ _ => [CodeQ; CodeI; CodeI]
  | EnemyPositioned _ _ => [CodeI; CodeI; CodeI]
  | ParticipantDamaged _ _ _ _ => [CodeQ; CodeI; CodeQ; CodeQ]
  | ParticipantDied _ | ParticipantLeft _ => [CodeQ]
  | ProjectileSpawned _ _ _ _ _ => [CodeI; CodeQ; CodeI; CodeI; CodeI; CodeI]
  | ProjectileMoved _ _ => [CodeI; CodeI; CodeI]
  | ProjectileRemoved _ _ => [CodeI; CodeB]
  end.

(** The integers of an event have the widths of their C++ types. *)
Definition event_typed (e : BattleEvent) : Prop := holds_all (event_codes e) (event_values e).

Ltac as_packed :=
  unfold append_u16, append_u32, append_u64, push_back; rewrite ?append_big_endian_app; cbn [app]; rewrite <-?app_assoc; cbn [packed code_size app].

Lemma code_bytes :
  (∀ k, [enemy_kind_code k] = be_bytes 1 (enemy_kind_code k)) ∧ (∀ r, [removal_reason_code r] = be_bytes 1 (removal_reason_code r)).
Proof. by split; intros []. Qed.

Lemma append_event_packed p e : append_event p e = p ++ event_kind e :: packed (event_codes e) (event_values e).
Proof.
  destruct code_bytes as [Hk Hr].
  destruct e; cbn [append_event event_kind event_codes event_values]; as_packed; rewrite ?app_nil_r; try done.
  - cbn [app]. by rewrite <-Hk.
  - by rewrite <-Hr.
Qed.

Lemma append_event_size p e : zlen (append_event p e) = zlen p + encoded_event_size e.
Proof.
  rewrite append_event_packed. unfold zlen. rewrite length_app. cbn [length].
  destruct e; cbn [event_codes event_values packed code_size encoded_event_size]; rewrite ?length_app, ?be_bytes_length; cbn [length]; lia.
Qed.

Definition events_size (evs : list BattleEvent) : Z := foldr (fun e n => encoded_event_size e + n) 0 evs.

Lemma encoded_event_size_pos e : 5 <= encoded_event_size e <= 33.
Proof. destruct e; cbn; lia. Qed.

Lemma events_size_nonneg evs : 0 <= events_size evs.
Proof.
  induction evs as [|e evs IH]; [done|]. cbn [events_size foldr]. fold (events_size evs). pose proof (encoded_event_size_pos e). lia.
Qed.

Lemma digest_size_spec size evs :
  size <= MAX_PAYLOAD_SIZE →
  digest_size size evs = if size + events_size evs <=? MAX_PAYLOAD_SIZE then Some (size + events_size evs) else None.
Proof.
  revert size. induction evs as [|e evs IH]; intros size Hs; cbn [digest_size events_size foldr].
  { rewrite Z.add_0_r. by rewrite (proj2 (Z.leb_le _ _)). }
  fold (events_size evs). pose proof (events_size_nonneg evs). rewrite (proj2 (Z.ltb_ge _ _)) by done. cbn [orb].
  destruct (MAX_PAYLOAD_SIZE - size <? encoded_event_size e) eqn:E; to_prop.
  - by rewrite (proj2 (Z.leb_gt _ _)) by lia.
  - rewrite IH by lia. by rewrite Z.add_assoc.
Qed.

Lemma append_events_packed p evs :
  foldl append_event p evs = p ++ concat ((fun e => event_kind e :: packed (event_codes e) (event_values e)) <$> evs).
Proof.
  revert p. induction evs as [|e evs IH]; intros p; [by rewrite app_nil_r|]. cbn. by rewrite IH, append_event_packed, <-app_assoc.
Qed.

Lemma append_events_size p evs : zlen (foldl append_event p evs) = zlen p + events_size evs.
Proof.
  revert p. induction evs as [|e evs IH]; intros p; [cbn; lia|]. cbn [foldl events_size foldr]. fold (events_size evs).
  rewrite IH, append_event_size. lia.
Qed.

(** ** What the client makes of an event *)

Definition client_event (e : BattleEvent) : ClientEvent :=
  (event_kind e,
   match e with
   | EnemySpawned id kind health => [("id", id); ("kind", enemy_kind_code kind); ("hp", health)]
   | EnemyDamaged target actor skill amount health =>
       [("target", target); ("actor", actor); ("skill_id", skill); ("amount", amount); ("hp", health)]
   | EnemyDied id => [("id", id)]
   | SkillWhiffed actor skill => [("actor", actor); ("skill_id", skill)]
   | ArenaStarted width height => [("width", width); ("height", height)]
   | ParticipantSpawned player pos health => [("player", player); ("x", pos_x pos); ("y", pos_y pos); ("hp", health)]
   | ParticipantMoved player pos => [("player", player); ("x", pos_x pos); ("y", pos_y pos)]
   | EnemyPositioned enemy pos => [("enemy", enemy); ("x", pos_x pos); ("y", pos_y pos)]
   | ParticipantDamaged target attacker amount health =>
       [("target", target); ("attacker", attacker); ("amount", amount); ("hp", health)]
   | ParticipantDied player | ParticipantLeft player => [("player", player)]
   | ProjectileSpawned projectile owner skill target pos =>
       [("projectile", projectile); ("owner", owner); ("skill_id", skill); ("target", target); ("x", pos_x pos); ("y", pos_y pos)]
   | ProjectileMoved projectile pos => [("projectile", projectile); ("x", pos_x pos); ("y", pos_y pos)]
   | ProjectileRemoved projectile reason => [("projectile", projectile); ("reason", removal_reason_code reason)]
   end)%string.

Lemma event_spec_codes e :
  ∃ fmt fields, event_spec (event_kind e) = Some (fmt, fields) ∧ format fmt = Value (event_codes e) ∧
    py_EventTag (event_kind e) = Value (event_kind e) ∧ client_event e = (event_kind e, zip fields (event_values e)).
Proof. destruct e; do 2 eexists; (split; [reflexivity|split_and!; reflexivity]). Qed.

Lemma parse_event_packed pre e tail :
  event_typed e →
  parse_event (pre ++ (event_kind e :: packed (event_codes e) (event_values e)) ++ tail) (length pre)
  = Value (client_event e, (length pre + (1 + calcsize (event_codes e)))%nat).
Proof.
  intros Ht. destruct (event_spec_codes e) as (fmt & fields & Hs & Hf & Hk & Hc). unfold parse_event, raise_if.
  rewrite !length_app. cbn [length]. rewrite packed_length by done. rewrite (proj2 (Z.leb_gt _ _)) by lia.
  unfold py_index. change ((event_kind e :: packed (event_codes e) (event_values e)) ++ tail)
    with (event_kind e :: (packed (event_codes e) (event_values e) ++ tail)).
  rewrite list_lookup_middle by done. cbn [mbind py_bind]. rewrite Hk. cbn [mbind py_bind]. rewrite Hs, Hf. cbn [mbind py_bind].
  rewrite (proj2 (Z.ltb_ge _ _)) by lia. unfold unpack_from. rewrite Hf. cbn [mbind py_bind].
  replace (length pre + 1)%nat with (length (pre ++ [event_kind e])) by (rewrite length_app; cbn; lia).
  replace (pre ++ event_kind e :: packed (event_codes e) (event_values e) ++ tail)
    with ((pre ++ [event_kind e]) ++ packed (event_codes e) (event_values e) ++ tail) by (by rewrite <-app_assoc).
  rewrite unpack_from_packed by done. cbn [mbind py_bind mret py_ret]. rewrite Hc, length_app. cbn [length]. do 2 f_equal. lia.
Qed.

Lemma parse_events_packed pre evs tail :
  Forall event_typed evs →
  let bs := concat ((fun e => event_kind e :: packed (event_codes e) (event_values e)) <$> evs) in
  parse_events (length evs) (pre ++ bs ++ tail) (length pre) = Value (client_event <$> evs, (length pre + length bs)%nat).
Proof.
  intros Hev. revert pre. induction Hev as [|e evs He Hevs IH]; intros pre bs; [cbn; by rewrite Nat.add_0_r|].
  unfold bs. cbn [length parse_events fmap list_fmap concat]. rewrite <-app_assoc, parse_event_packed by done.
  set (b := event_kind e :: packed _ _). cbn [mbind py_bind]. 
  replace (length pre + (1 + calcsize (event_codes e)))%nat with (length (pre ++ b)) by (unfold b; rewrite length_app; cbn; by rewrite packed_length).
  rewrite (app_assoc pre b), IH. cbn [mbind py_bind mret py_ret]. do 2 f_equal. rewrite !length_app. lia.
Qed.

(** ** Digests *)

Ltac checks := unfold holds_all; repeat constructor; cbn; apply andb_true_intro; split; apply Z.leb_le; lia.

Lemma room_phase_range p : 0 <= room_phase_code p <= 3 ∧ py_RoomPhase (room_phase_code p) = Value (room_phase_code p).
Proof. destruct p; cbn; (split; [lia|done]). Qed.

Lemma room_status_range s : 0 <= room_status_code s <= 13 ∧ py_RoomStatus (room_status_code s) = Value (room_status_code s).
Proof. destruct s; cbn; (split; [lia|done]). Qed.

Definition digest_header (d : BattleDigest) (p : RoomPhase) : bytes :=
  packed [CodeQ; CodeB; CodeH] [sequence d; room_phase_code p; zlen (events d)].

Lemma encodeBattleDigest_spec result d req :
  rr_digest result = Some d →
  encodeBattleDigest result req
  = if (U16_MAX <? zlen (events d)) || (MAX_PAYLOAD_SIZE <? DIGEST_HEADER_SIZE + events_size (events d)) then None
    else Some (mkFrame MessageType.BattleDigest req (foldl append_event (digest_header d (rr_phase result)) (events d))).
Proof.
  intros Hd. unfold encodeBattleDigest. rewrite Hd. cbn [mbind option_bind]. destruct (U16_MAX <? zlen (events d)) eqn:E; [done|]. cbn [orb].
  rewrite digest_size_spec by (by vm_compute). rewrite Z.leb_antisym. destruct (MAX_PAYLOAD_SIZE <? _); cbn [negb mbind option_bind]; [done|].
  pose proof (room_phase_range (rr_phase result)). unfold digest_header. as_packed. rewrite half_packed, <-(byte_packed (room_phase_code _)) by lia. done.
Qed.

Lemma parse_digest_packed d p :
  in_u64 (sequence d) → zlen (events d) <= U16_MAX → Forall event_typed (events d) →
  parse_digest (foldl append_event (digest_header d p) (events d)) = Value (sequence d, room_phase_code p, client_event <$> events d).
Proof.
  intros Hs Hn He. rewrite append_events_packed. unfold parse_digest, raise_if, digest_header.
  pose proof (room_phase_range p) as [Hp Hph]. set (vs := [sequence d; _; _]).
  assert (Hh : holds_all [CodeQ; CodeB; CodeH] vs) by (unfold vs; unfold zlen in *; checks).
  pose proof (packed_length _ _ Hh) as Hlen. set (header := packed _ vs) in *. change (calcsize _) with 11%nat in Hlen.
  set (bs := concat _). rewrite (proj2 (Z.ltb_ge _ _)) by (unfold zlen; rewrite length_app; lia).
  unfold header. rewrite (unpack_head _ [CodeQ; CodeB; CodeH]) by done. cbn [mbind py_bind vs]. rewrite Hph. cbn [mbind py_bind].
  fold header. pose proof (parse_events_packed header (events d) [] He) as Hev. cbv zeta in Hev. fold bs in Hev. rewrite app_nil_r, Hlen in Hev.
  unfold zlen. rewrite Nat2Z.id, Hev. cbn [mbind py_bind]. rewrite length_app, Hlen, Nat.eqb_refl. done.
Qed.

(** ** Replies *)

Lemma append_u64s_packed p vs : foldl append_u64 p vs = p ++ packed (replicate (length vs) CodeQ) vs.
Proof.
  revert p. induction vs as [|v vs IH]; intros p; [by rewrite app_nil_r|]. cbn [foldl]. rewrite IH. unfold append_u64 at 1.
  rewrite append_big_endian_app, <-app_assoc. done.
Qed.

Lemma quads_hold vs : Forall (fun v => in_u64 v) vs → holds_all (replicate (length vs) CodeQ) vs.
Proof. induction 1; constructor; [|done]. cbn. apply andb_true_intro. split; apply Z.leb_le; lia. Qed.

Lemma calcsize_quads n : calcsize (replicate n CodeQ) = (8 * n)%nat.
Proof. unfold calcsize. rewrite fmap_replicate, sum_list_replicate. cbn [code_size]. lia. Qed.

Definition reply_x (result : ZoneResult) : Z := match zr_position result with Some p => zone_x p | None => 0 end.
Definition reply_y (result : ZoneResult) : Z := match zr_position result with Some p => zone_y p | None => 0 end.
Definition reply_visible (result : ZoneResult) : list Z := take (Z.to_nat (visible_count result)) (zr_visible_players result).

Record zone_result_typed (result : ZoneResult) : Prop := {
  zt_epoch : in_u64 (zr_route_epoch result);
  zt_position : ∀ p, zr_position result = Some p → i32_position p;
  zt_visible : Forall (fun v => in_u64 v) (zr_visible_players result)
}.

Lemma visible_count_range result :
  0 <= visible_count result <= 8188 ∧ length (reply_visible result) = Z.to_nat (visible_count result).
Proof.
  unfold reply_visible. rewrite length_take. unfold visible_count.
  change (Z.min U16_MAX MAX_VISIBLE_BY_PAYLOAD) with 8187. unfold zlen. lia.
Qed.

Lemma zone_reply_packed kind zone result req :
  payload (encodeZoneReply kind zone result req)
  = packed [CodeB; CodeQ; CodeQ; Codei; Codei; CodeH]
      [zone_status_code (zr_status result); zone; zr_route_epoch result; reply_x result; reply_y result; visible_count result]
    ++ packed (replicate (length (reply_visible result)) CodeQ) (reply_visible result).
Proof.
  unfold encodeZoneReply. cbn [payload]. rewrite append_u64s_packed. fold (reply_visible result). f_equal. as_packed.
  rewrite half_packed, !word_packed, <-(byte_packed (zone_status_code _)); [|destruct (zr_status result); cbn; lia]. done.
Qed.

Lemma zone_reply_holds zone result :
  in_u64 zone → zone_result_typed result →
  holds_all [CodeB; CodeQ; CodeQ; Codei; Codei; CodeH]
    [zone_status_code (zr_status result); zone; zr_route_epoch result; reply_x result; reply_y result; visible_count result].
Proof.
  intros Hz [He Hp Hv]. pose proof (visible_count_range result) as [Hc _].
  assert (0 <= zone_status_code (zr_status result) <= 6) by (destruct (zr_status result); cbn; lia).
  assert (in_i32 (reply_x result) ∧ in_i32 (reply_y result)) as [Hx Hy].
  { unfold reply_x, reply_y. destruct (zr_position result) as [p|]; [by apply Hp|lia]. }
  checks.
Qed.

Lemma parse_zone_reply kind zone result req :
  in_u64 zone → zone_result_typed result →
  parse_zone_entered (payload (encodeZoneReply kind zone result req))
  = Value (mkZoneReply (zone_status_code (zr_status result)) zone (zr_route_epoch result) (reply_x result) (reply_y result) (reply_visible result)).
Proof.
  intros Hz Ht. rewrite zone_reply_packed. pose proof (zone_reply_holds zone result Hz Ht) as Hh. destruct Ht as [He Hp Hv].
  pose proof (visible_count_range result) as [Hc Hl]. set (vs := [zone_status_code _; _; _; _; _; _]) in *. pose proof (packed_length _ _ Hh) as Hlen.
  change (calcsize _) with 27%nat in Hlen. assert (Hq : Forall (fun v => in_u64 v) (reply_visible result)) by by apply Forall_take.
  apply quads_hold in Hq. pose proof (packed_length _ _ Hq) as Hql. set (qs := packed (replicate _ _) _) in *.
  assert (Hn : length qs = (8 * Z.to_nat (visible_count result))%nat).
  { by rewrite Hql, Hl, calcsize_quads. }
  unfold parse_zone_entered, raise_if, zlen. rewrite length_app, Hlen, Hn. rewrite (proj2 (Z.ltb_ge _ _)) by lia.
  rewrite (unpack_head _ [CodeB; CodeQ; CodeQ; Codei; Codei; CodeH]) by done. cbn [mbind py_bind vs].
  rewrite (proj2 (Z.eqb_eq _ _)) by lia. cbn [negb].
  destruct (0 <? visible_count result) eqn:E; to_prop.
  - pose proof (unpack_from_packed (replicate (length (reply_visible result)) CodeQ) (reply_visible result) (packed [CodeB; CodeQ; CodeQ; Codei; Codei; CodeH] vs) [] Hq) as Hu.
    fold qs in Hu. rewrite app_nil_r, Hlen, Hl in Hu. rewrite Hu. done.
  - assert (visible_count result = 0) as E0 by lia. unfold reply_visible. by rewrite E0.
Qed.

(** The frame goes on the wire, and the client reads [a] out of it. *)
Definition understood {A} (f : Frame) (type req : Z) (parse : bytes → py A) (a : A) : Prop :=
  frame_ok f ∧ frame_type f = type ∧ request_id f = req ∧ parse (payload f) = Value a.

Lemma packed_length_le codes vs : (length (packed codes vs) <= calcsize codes)%nat.
Proof.
  revert vs. induction codes as [|c codes IH]; intros [|v vs]; cbn [packed length]; try lia. rewrite length_app, be_bytes_length.
  specialize (IH vs). unfold calcsize in *. cbn. lia.
Qed.

Lemma packed_frame_ok type req codes vs :
  is_known_message_type type = true → in_u32 req → Z.of_nat (calcsize codes) <= MAX_PAYLOAD_SIZE → frame_ok (mkFrame type req (packed codes vs)).
Proof.
  intros Ht Hr Hs. constructor; cbn; [done|done| |apply packed_ok]. pose proof (packed_length_le codes vs). unfold zlen. lia.
Qed.

(** An exact-size reply whose parser is [fmt] unpacked and then looked at by [k]. *)
Lemma packed_understood {A} type req fmt codes vs size (k : list Z → py A) a bs :
  is_known_message_type type = true → in_u32 req → format fmt = Value codes → size = Z.of_nat (calcsize codes) → size <= MAX_PAYLOAD_SIZE →
  bs = packed codes vs → holds_all codes vs → k vs = Value a →
  understood (mkFrame type req bs) type req
    (fun payload => raise_if (negb (zlen payload =? size)) ValueError (vs ← unpack fmt payload; k vs)) a.
Proof.
  intros Ht Hr Hf -> Hm -> Hh Hk. split; [by apply packed_frame_ok|]. split_and!; [done|done|]. cbn [payload]. unfold raise_if, zlen.
  rewrite packed_length, Z.eqb_refl by done. cbn [negb]. rewrite (unpack_exact fmt codes vs) by done. done.
Qed.

(** The integers of a purchase result have their C++ widths. *)
Record purchase_typed (r : PurchaseTransactionResult) : Prop := {
  pu_key : in_u64 (pt_idempotency_key r);
  pu_product : in_u32 (pt_product r);
  pu_balance : in_u64 (pt_currency_balance r);
  pu_items : in_u64 (pt_purchased_item_count r)
}.

Section replies.
Context (req : Z) (Hreq : in_u32 req).

Lemma authenticated_understood player :
  in_u64 player →
  understood (encodePlayerResponse (AuthenticatedResponse player) req) MessageType.Authenticated req parse_authenticated player.
Proof using Hreq.
  intros Hp. apply (packed_understood _ _ ">Q" [CodeQ] [player]); try done. checks.
Qed.

Lemma purchase_understood r :
  purchase_typed r →
  understood (encodePlayerResponse (PurchaseResponse r) req) MessageType.PurchaseResult req parse_purchase_result
    (mkPurchaseReply (purchase_status_code (pt_status r)) (pt_replayed r) (pt_idempotency_key r) (pt_product r) (pt_currency_balance r)
       (pt_purchased_item_count r)).
Proof using Hreq.
  intros [Hk Hp Hb Hi]. assert (Hs : 0 <= purchase_status_code (pt_status r) <= 7) by (destruct (pt_status r); cbn; lia).
  assert (Hf : 0 <= flag_byte (pt_replayed r) <= 1) by (destruct (pt_replayed r); cbn; lia).
  apply (packed_understood _ _ ">BBQIQQ" [CodeB; CodeB; CodeQ; CodeI; CodeQ; CodeQ]
    [purchase_status_code (pt_status r); flag_byte (pt_replayed r); pt_idempotency_key r; pt_product r; pt_currency_balance r;
     pt_purchased_item_count r]); try done.
  - as_packed. by rewrite <-(byte_packed (purchase_status_code _)), <-(byte_packed (flag_byte _)), app_nil_r by lia.
  - checks.
  - destruct (pt_status r), (pt_replayed r); done.
Qed.

Lemma equip_understood status equipped :
  in_u32 equipped →
  understood (encodePlayerResponse (EquipSkillResponse status equipped) req) MessageType.EquipSkillResult req parse_equip_skill_result
    (equip_status_code status, equipped).
Proof using Hreq.
  intros He. assert (Hs : 0 <= equip_status_code status <= 3) by (destruct status; cbn; lia).
  apply (packed_understood _ _ ">BI" [CodeB; CodeI] [equip_status_code status; equipped]); try done.
  - as_packed. by rewrite <-(byte_packed (equip_status_code _)), app_nil_r by lia.
  - checks.
  - by destruct status.
Qed.

Lemma zone_understood kind zone result :
  in_u64 zone → zone_result_typed result →
  understood (encodeZoneReply kind zone result req) (zone_reply_type kind) req parse_zone_entered
    (mkZoneReply (zone_status_code (zr_status result)) zone (zr_route_epoch result) (reply_x result) (reply_y result) (reply_visible result)).
Proof using Hreq.
  intros Hz Ht. split; [|split_and!; [done|done|by apply parse_zone_reply]]. constructor; [by destruct kind|done| |]; rewrite zone_reply_packed.
  - unfold zlen. rewrite length_app. pose proof (packed_length_le (replicate (length (reply_visible result)) CodeQ) (reply_visible result)) as H1.
    rewrite calcsize_quads in H1. pose proof (visible_count_range result) as [Hc Hl]. rewrite Hl in H1 at 2.
    match goal with |- Z.of_nat (length ?h + _) <= _ => assert (length h <= 27)%nat by apply packed_length_le end.
    pose proof (Z.le_min_r (zlen (zr_visible_players result)) (Z.min U16_MAX MAX_VISIBLE_BY_PAYLOAD)) as Hmin.
    change (visible_count result <= 8187) in Hmin. change MAX_PAYLOAD_SIZE with 65530. lia.
  - apply bytes_ok_app. split; apply packed_ok.
Qed.

Lemma room_understood kind room result :
  in_u64 room →
  let status := room_status_code (rr_status result) in
  let phase := room_phase_code (rr_phase result) in
  match kind with
  | RoomReplyJoined =>
      understood (encodeRoomReply kind room result req) MessageType.RoomJoined req parse_room_reply (status, phase, room)
  | RoomReplyBattleStarted =>
      understood (encodeRoomReply kind room result req) MessageType.BattleStarted req parse_room_reply (status, phase, room)
  | RoomReplySkillAcknowledged =>
      understood (encodeRoomReply kind room result req) MessageType.SkillAcknowledged req parse_ack (status, phase)
  | RoomReplyMoveAcknowledged =>
      understood (encodeRoomReply kind room result req) MessageType.MoveAcknowledged req parse_ack (status, phase)
  end.
Proof using Hreq.
  intros Hr status phase. pose proof (room_status_range (rr_status result)) as [Hs Es]. pose proof (room_phase_range (rr_phase result)) as [Hp Ep].
  assert (Hlong : append_u64 (push_back (push_back [] status) phase) room = packed [CodeB; CodeB; CodeQ] [status; phase; room]).
  { as_packed. by rewrite <-(byte_packed status), <-(byte_packed phase), app_nil_r by (unfold status, phase; lia). }
  assert (Hshort : [status; phase] = packed [CodeB; CodeB] [status; phase]).
  { cbn [packed code_size]. by rewrite <-(byte_packed status), <-(byte_packed phase) by (unfold status, phase; lia). }
  destruct kind.
  1, 2: eapply (packed_understood _ _ ">BBQ" [CodeB; CodeB; CodeQ] [status; phase; room]); try done;
        [unfold status, phase; checks|unfold status, phase; rewrite Es; cbn [mbind py_bind]; by rewrite Ep].
  all: eapply (packed_understood _ _ ">BB" [CodeB; CodeB] [status; phase]); try done;
       [unfold status, phase; checks|unfold status, phase; rewrite Es; cbn [mbind py_bind]; by rewrite Ep].
Qed.

Lemma cleared_understood experience :
  in_u64 experience → understood (encodeBattleCleared experience req) MessageType.BattleCleared req parse_cleared experience.
Proof using Hreq. intros He. apply (packed_understood _ _ ">Q" [CodeQ] [experience]); try done. checks. Qed.

Lemma failed_understood result :
  in_u64 (rr_boss_health result) →
  understood (encodeBattleFailure result req) MessageType.BattleFailed req parse_failed
    (rr_boss_health result, rr_boss_spawned result, failure_reason_code (default Deadline (rr_failure_reason result))).
Proof using Hreq.
  intros Hh. set (reason := default Deadline _). assert (Hr : 0 <= failure_reason_code reason <= 1) by (destruct reason; cbn; lia).
  assert (Hf : 0 <= flag_byte (rr_boss_spawned result) <= 1) by (destruct (rr_boss_spawned result); cbn; lia).
  apply (packed_understood _ _ ">QBB" [CodeQ; CodeB; CodeB] [rr_boss_health result; flag_byte (rr_boss_spawned result); failure_reason_code reason]);
    try done.
  - as_packed. by rewrite <-(byte_packed (flag_byte _)), <-(byte_packed (failure_reason_code _)) by lia.
  - checks.
  - by destruct reason, (rr_boss_spawned result).
Qed.

Lemma returned_understood zone position :
  in_u64 zone → i32_position position →
  understood (encodeReturnedToZone zone position req) MessageType.ReturnedToZone req parse_returned (zone, zone_x position, zone_y position).
Proof using Hreq.
  intros Hz [Hx Hy]. apply (packed_understood _ _ ">Qii" [CodeQ; Codei; Codei] [zone; zone_x position; zone_y position]); try done.
  - as_packed. by rewrite !word_packed, app_nil_r.
  - checks.
Qed.

Lemma digest_understood result d f :
  rr_digest result = Some d → in_u64 (sequence d) → Forall event_typed (events d) → encodeBattleDigest result req = Some f →
  understood f MessageType.BattleDigest req parse_digest (sequence d, room_phase_code (rr_phase result), client_event <$> events d).
Proof using Hreq.
  intros Hd Hs He. rewrite (encodeBattleDigest_spec result d) by done. destruct (_ || _) eqn:E; [done|]. intros [= <-].
  apply orb_false_iff in E as [E1 E2]. to_prop. split; [|split_and!; [done|done|by apply parse_digest_packed]]. constructor; cbn [frame_type request_id payload]; [done|done| |].
  - rewrite append_events_size. unfold digest_header, zlen at 1.
    pose proof (packed_length_le [CodeQ; CodeB; CodeH] [sequence d; room_phase_code (rr_phase result); zlen (events d)]) as Hl.
    change (calcsize _) with 11%nat in Hl. change DIGEST_HEADER_SIZE with 11 in E2. lia.
  - rewrite append_events_packed. apply bytes_ok_app. split; [apply packed_ok|]. clear. induction (events d) as [|e evs IH]; [constructor|].
    cbn. constructor; [destruct e; cbn; lia|]. apply bytes_ok_app. split; [apply packed_ok|done].
Qed.
End replies.

(** ** The client's frame decoder *)

Definition py_unread (d : PyFrameDecoder) : bytes := drop (py_offset d) (py_buf d).

Record py_decoder_ok (d : PyFrameDecoder) : Prop := {
  pd_offset : (py_offset d <= length (py_buf d))%nat;
  pd_bytes : bytes_ok (py_buf d)
}.

Lemma py_compact_spec d : py_compact d = mkPyDecoder (py_unread d) 0.
Proof. unfold py_compact, py_unread. destruct d as [buf [|n]]; done. Qed.

Lemma known_types raw : py_MessageType raw = if is_known_message_type raw then Value raw else Raise ValueError.
Proof. done. Qed.

Lemma unpack_u32_from bs offset :
  (offset + 4 <= length bs)%nat → unpack_from ">I" bs offset = Value [be_value (take 4 (drop offset bs))].
Proof.
  intros H. unfold unpack_from. change (format ">I") with (Value [CodeI]). cbn [mbind py_bind]. unfold unpack_codes_from.
  change (calcsize [CodeI]) with 4%nat. by destruct (Nat.ltb_spec (length bs - offset) 4); [lia|].
Qed.

Lemma unpack_head_from bs offset :
  (offset + 6 <= length bs)%nat →
  unpack_from ">HI" bs offset = Value [be_value (take 2 (drop offset bs)); be_value (take 4 (drop (offset + 2) bs))].
Proof.
  intros H. unfold unpack_from. change (format ">HI") with (Value [CodeH; CodeI]). cbn [mbind py_bind]. unfold unpack_codes_from.
  change (calcsize [CodeH; CodeI]) with 6%nat. destruct (Nat.ltb_spec (length bs - offset) 6); [lia|].
  cbn [unpack_values code_size]. by rewrite drop_drop.
Qed.

Lemma py_next_spec d :
  py_decoder_ok d →
  match parse_frame (py_unread d) with
  | NeedMore => py_next d = Value (None, d)
  | Malformed _ => py_next d = Raise ValueError
  | Parsed f rest => ∃ d', py_next d = Value (Some f, d') ∧ py_decoder_ok d' ∧ py_unread d' = rest
  end.
Proof.
  intros [Ho Hb]. assert (Hlen : Z.of_nat (length (py_buf d)) - Z.of_nat (py_offset d) = zlen (py_unread d)).
  { unfold zlen, py_unread. rewrite length_drop. lia. }
  assert (Hdrop : ∀ k, drop (py_offset d + k) (py_buf d) = drop k (py_unread d)) by (intros k; unfold py_unread; by rewrite drop_drop).
  unfold py_next, parse_frame. rewrite Hlen. unfold zlen in *. set (bs := py_unread d) in *.
  destruct (Nat.ltb_spec (length bs) 4) as [Hs|Hs]; [by rewrite (proj2 (Z.ltb_lt _ _)) by lia|].
  rewrite (proj2 (Z.ltb_ge (Z.of_nat (length bs)) 4)) by lia. rewrite unpack_u32_from by lia. fold (py_unread d). fold bs. cbn [mbind py_bind].
  set (size := be_value (take 4 bs)). change PY_MIN_BODY_SIZE with 6. change PY_MAX_BODY_SIZE with 65536.
  destruct (size <? 6) eqn:E1; [done|]. destruct (65536 <? size) eqn:E2; [done|]. cbn [orb]. to_prop.
  destruct (Z.of_nat (length bs) <? 4 + size) eqn:E3; [done|]. to_prop.
  rewrite unpack_head_from by lia. rewrite Hdrop. replace (py_offset d + 4 + 2)%nat with (py_offset d + 6)%nat by lia. rewrite !Hdrop.
  cbn [mbind py_bind]. rewrite known_types. rewrite take_take, Nat.min_l by lia.
  destruct (is_known_message_type (be_value (take 2 (drop 4 bs)))); [|done]. cbn [negb mbind py_bind mret py_ret].
  eexists. split; [|split].
  - do 4 f_equal.
    + rewrite skipn_firstn_comm, drop_drop, take_take. f_equal. f_equal. lia.
    + rewrite skipn_firstn_comm, drop_drop. f_equal. lia.
  - constructor; cbn; [|done]. unfold bs, py_unread in *. rewrite length_drop in *. lia.
  - unfold py_unread at 1. cbn. rewrite Hdrop. f_equal. lia.
Qed.

(** What the generator leaves behind, against what the stream still holds. *)
Definition py_left (e : option DecodeError) (tail : bytes) : py PyFrameDecoder :=
  match e with None => Value (mkPyDecoder tail 0) | Some _ => Raise ValueError end.

Lemma py_frames_loop_spec fuel d fs e tail :
  py_decoder_ok d → (length (py_unread d) < fuel)%nat → parse_loop fuel (py_unread d) = (fs, e, tail) →
  py_frames_loop fuel d = Some (fs, py_left e tail).
Proof.
  revert d fs e tail. induction fuel as [|n IH]; intros d fs e tail Hd Hf; [lia|]. cbn [parse_loop py_frames_loop].
  pose proof (py_next_spec d Hd) as Hm. destruct (parse_frame (py_unread d)) as [|err|f rest] eqn:Ep.
  - rewrite Hm, py_compact_spec. by intros [= <- <- <-].
  - rewrite Hm. by intros [= <- <- <-].
  - destruct Hm as (d' & -> & Hd' & <-). apply parse_frame_bound in Ep.
    destruct (parse_loop n (py_unread d')) as [[fs' e'] tail'] eqn:El. intros [= <- <- <-].
    by rewrite (IH d' fs' e' tail') by (done || lia).
Qed.

Lemma py_frames_spec d data fs e tail :
  py_decoder_ok d → bytes_ok data → parse_stream (py_unread d ++ data) = (fs, e, tail) →
  py_frames (py_feed d data) = Some (fs, py_left e tail).
Proof.
  intros Hd Hdata Hp. unfold py_feed. rewrite py_compact_spec. cbn [py_buf py_offset]. apply py_frames_loop_spec.
  - constructor; cbn; [lia|]. apply bytes_ok_app. split; [apply bytes_ok_drop, Hd|done].
  - change (length (py_unread d ++ data) < S (length (py_unread d ++ data)))%nat. lia.
  - exact Hp.
Qed.

(** The loop of [snf_session.py]'s reader: feed what was received, queue the
    frames, end on the first exception. *)
Fixpoint py_read_loop (d : PyFrameDecoder) (chunks : list bytes) : option (list Frame * py PyFrameDecoder) :=
  match chunks with
  | [] => Some ([], Value d)
  | data :: rest =>
      '(fs, r) ← py_frames (py_feed d data);
      match r with
      | Raise e => Some (fs, Raise e)
      | Value d1 => '(fs', r') ← py_read_loop d1 rest; Some (fs ++ fs', r')
      end
  end.

Lemma py_read_loop_spec buf chunks fs e tail :
  bytes_ok buf → parse_frame buf = NeedMore → Forall bytes_ok chunks → parse_stream (buf ++ concat chunks) = (fs, e, tail) →
  py_read_loop (mkPyDecoder buf 0) chunks = Some (fs, py_left e tail).
Proof.
  intros Hb Hn Hcs. revert buf fs e tail Hb Hn. induction Hcs as [|bs cs Hbs Hcs IH]; intros buf fs e tail Hb Hn Hp; cbn [py_read_loop concat] in *.
  { rewrite app_nil_r, parse_stream_unfold, Hn in Hp. by injection Hp as <- <- <-. }
  destruct (parse_stream (buf ++ bs)) as [[fs1 e1] tail1] eqn:E1.
  rewrite (py_frames_spec (mkPyDecoder buf 0) bs fs1 e1 tail1); [|constructor; cbn; [lia|done]|done|done]. cbn [mbind option_bind].
  rewrite app_assoc, parse_stream_app, E1 in Hp. destruct e1 as [e1|]; [by injection Hp as <- <- <-|]. cbn [py_left].
  destruct (parse_stream (tail1 ++ concat cs)) as [[fs2 e2] tail2] eqn:E2. injection Hp as <- <- <-.
  destruct (parse_stream_tail (buf ++ bs) fs1 tail1) as (Hok & Hneed & _); [by apply bytes_ok_app|done|].
  by rewrite (IH tail1 fs2 e2 tail2).
Qed.

(** ** The client's requests *)

Lemma pack_inv fmt codes vs bs : pack fmt vs = Value bs → format fmt = Value codes → holds_all codes vs ∧ bs = packed codes vs.
Proof. unfold pack. intros H Hf. rewrite Hf in H. by apply pack_packed. Qed.

Lemma code_holds_range c v :
  code_holds c v = true →
  match c with CodeB => in_u8 v | CodeH => in_u16 v | CodeI => in_u32 v | CodeQ => in_u64 v | Codei => in_i32 v end.
Proof. destruct c; cbn; intros H; apply andb_prop in H as [H1 H2]; to_prop; lia. Qed.

(** Take apart a request that the client did not refuse. *)
Ltac not_refused H :=
  unfold authenticate, enter_zone, room_join, battle_start, use_skill, set_move_intent, move_in_zone, purchase, equip_skill, raise_if in H;
  repeat match type of H with (if ?b then _ else _) = _ => destruct b eqn:?; [done|] end;
  destruct (pack_inv _ _ _ _ H eq_refl) as [?Hargs ->]; clear H; unfold holds_all in *;
  repeat match goal with
  | H : Forall2 _ (_ :: _) (_ :: _) |- _ => apply Forall2_cons in H as [?H%code_holds_range H]
  end; to_prop.

Lemma py_encode_ok f : frame_ok f → py_encode (frame_type f) (request_id f) (payload f) = Value (encoding f).
Proof.
  intros [Ht Hi Hs Hp]. pose proof (known_type_range _ Ht). unfold py_encode, raise_if. change PY_MIN_BODY_SIZE with 6.
  change PY_MAX_BODY_SIZE with 65536. change MAX_PAYLOAD_SIZE with 65530 in Hs. rewrite (proj2 (Z.ltb_ge _ _)) by lia.
  unfold pack. change (format ">IHI") with (Value [CodeI; CodeH; CodeI]). cbn [mbind py_bind pack_values code_holds].
  assert (0 <= zlen (payload f)) by (unfold zlen; lia).
  rewrite !(proj2 (Z.leb_le _ _)) by lia. cbn [negb andb raise_if mbind py_bind mret py_ret code_size]. unfold encoding.
  by rewrite app_nil_r, <-!app_assoc.
Qed.

Lemma decoded_alone f chunks :
  frame_ok f → concat chunks = encoding f →
  feed empty_decoder chunks = Some (mkDecodeResult [f] None, empty_decoder) ∧ py_read_loop py_new chunks = Some ([f], Value py_new).
Proof.
  intros Hf Hc. assert (Hok : Forall bytes_ok chunks) by (apply concat_bytes_ok; rewrite Hc; by apply encoding_ok).
  assert (Hp : parse_stream ([] ++ concat chunks) = ([f], None, [])).
  { pose proof (parse_stream_encodings [f] [] (proj2 (Forall_singleton frame_ok f) Hf) eq_refl) as E. rewrite Hc. cbn [app].
    change (concat (encoding <$> [f])) with (encoding f ++ []) in E. by rewrite !app_nil_r in E. }
  split.
  - by apply feed_spec; [exact empty_decoder_ok| | | |].
  - by apply (py_read_loop_spec [] chunks [f] None []); [constructor| | |].
Qed.

Section requests.
Context (post : Server → RoutedCommand → outcome PostResult) (now : time_point) (d : MessageDispatcher) (s : Server) (c : ConnectionId) (req : Z).

(** Unless the client refuses to build the request [m], its bytes, however cut,
    are one frame for the server, of which [P] holds. *)
Definition client_sends (type : Z) (m : py bytes) (P : Frame → Prop) : Prop :=
  ∀ bs, m = Value bs →
    ∃ wire, py_encode type req bs = Value wire ∧
      (∀ chunks, concat chunks = wire → feed empty_decoder chunks = Some (mkDecodeResult [mkFrame type req bs] None, empty_decoder)) ∧
      P (mkFrame type req bs).

(** The gateway posts the frame as [route], before anything else. *)
Definition client_posts (type : Z) (m : py bytes) (route : CommandRoute) : Prop :=
  client_sends type m (fun f => posts_first (gateway_tryPost post now d c f) s c route).

(** The gateway does with the frame exactly what [act] does. *)
Definition client_starts (type : Z) (m : py bytes) (act : M FramePostResult) : Prop :=
  client_sends type m (fun f => gateway_tryPost post now d c f s = act s).

Lemma request_sent type bs (P : Frame → Prop) :
  is_known_message_type type = true → in_u32 req → zlen bs <= MAX_PAYLOAD_SIZE → bytes_ok bs → P (mkFrame type req bs) →
  client_sends type (Value bs) P.
Proof.
  intros Ht Hr Hs Hb Hp bs' [= <-]. assert (Hf : frame_ok (mkFrame type req bs)) by done.
  exists (encoding (mkFrame type req bs)). split; [by apply (py_encode_ok (mkFrame type req bs))|]. split; [|done].
  intros chunks Hc. by apply decoded_alone.
Qed.

Lemma packed_sent type m codes vs (P : Frame → Prop) :
  is_known_message_type type = true → in_u32 req → Z.of_nat (calcsize codes) <= MAX_PAYLOAD_SIZE →
  (∀ bs, m = Value bs → bs = packed codes vs ∧ P (mkFrame type req bs)) → client_sends type m P.
Proof.
  intros Ht Hr Hs Hm bs Hbs. destruct (Hm bs Hbs) as [-> Hp]. apply (request_sent type (packed codes vs) P); try done.
  - pose proof (packed_length_le codes vs). unfold zlen. lia.
  - apply packed_ok.
Qed.
End requests.

(** ** Theorems *)

(** C28: The two ends of a connection agree on what a byte stream means.  However
    the bytes are cut into reads, the reader of the game client queues exactly
    the frames that the server's decoder would find in them, and it stops with
    an exception exactly when the server's decoder reports an error; without
    one, both keep the same unread bytes back. *)
Theorem codecs_agree chunks :
  Forall bytes_ok chunks →
  ∃ fs e tail,
    feed empty_decoder chunks = Some (mkDecodeResult fs e, mkFrameDecoder tail 0) ∧
    py_read_loop py_new chunks = Some (fs, match e with None => Value (mkPyDecoder tail 0) | Some _ => Raise ValueError end).
Proof.
  intros Hcs. destruct (parse_stream (concat chunks)) as [[fs e] tail] eqn:E. exists fs, e, tail. split.
  - by apply feed_spec; [exact empty_decoder_ok| | | |].
  - by apply (py_read_loop_spec [] chunks fs e tail); [constructor| | |].
Qed.

(** C29: A battle digest arrives as the room wrote it.  The server leaves a digest
    out exactly when its events are too many for the count or too large for a
    payload; every other digest is a frame that the server can send and that
    reaches the client alone and whole however it is cut, and the client's
    parser gives back the sequence number, the phase, and each event with all
    its fields, in order. *)
Theorem digests_arrive result dg req :
  rr_digest result = Some dg → in_u64 (sequence dg) → Forall event_typed (events dg) → in_u32 req →
  (encodeBattleDigest result req = None ↔
     U16_MAX < zlen (events dg) ∨ MAX_PAYLOAD_SIZE < DIGEST_HEADER_SIZE + events_size (events dg)) ∧
  ∀ f, encodeBattleDigest result req = Some f →
    ∃ wire, encode_frame f = Ret wire ∧
      (∀ chunks, concat chunks = wire → py_read_loop py_new chunks = Some ([f], Value py_new)) ∧
      frame_type f = MessageType.BattleDigest ∧ request_id f = req ∧
      parse_digest (payload f) = Value (sequence dg, room_phase_code (rr_phase result), client_event <$> events dg).
Proof.
  intros Hd Hs He Hr. split.
  - rewrite (encodeBattleDigest_spec result dg) by done. destruct (_ || _) eqn:E.
    + split; [intros _|done]. apply orb_prop in E as [E|E]; to_prop; auto.
    + apply orb_false_iff in E as [E1 E2]. to_prop. split; [done|lia].
  - intros f Hf. destruct (digest_understood req Hr result dg f Hd Hs He Hf) as (Hok & Ht & Hq & Hp).
    exists (encoding f). split; [by apply encode_frame_encoding|]. split; [|done]. intros chunks Hc. by apply decoded_alone.
Qed.

(** C30: The client understands every answer.  Authentications, purchases,
    equipment, zone and room replies, the end of a battle and the return to a
    zone: each is a frame the server can send, of the type and for the request
    it answers, from which the client's parser reads exactly what the server
    put into it (signed coordinates included, and as many of the visible
    players as fit). *)
Theorem answers_understood req :
  in_u32 req →
  (∀ player, in_u64 player →
     understood (encodePlayerResponse (AuthenticatedResponse player) req) MessageType.Authenticated req parse_authenticated player) ∧
  (∀ r, purchase_typed r →
     understood (encodePlayerResponse (PurchaseResponse r) req) MessageType.PurchaseResult req parse_purchase_result
       (mkPurchaseReply (purchase_status_code (pt_status r)) (pt_replayed r) (pt_idempotency_key r) (pt_product r) (pt_currency_balance r)
          (pt_purchased_item_count r))) ∧
  (∀ status equipped, in_u32 equipped →
     understood (encodePlayerResponse (EquipSkillResponse status equipped) req) MessageType.EquipSkillResult req parse_equip_skill_result
       (equip_status_code status, equipped)) ∧
  (∀ kind zone result, in_u64 zone → zone_result_typed result →
     understood (encodeZoneReply kind zone result req) (zone_reply_type kind) req parse_zone_entered
       (mkZoneReply (zone_status_code (zr_status result)) zone (zr_route_epoch result) (reply_x result) (reply_y result)
          (reply_visible result))) ∧
  (∀ room result, in_u64 room →
     let status := room_status_code (rr_status result) in
     let phase := room_phase_code (rr_phase result) in
     understood (encodeRoomReply RoomReplyJoined room result req) MessageType.RoomJoined req parse_room_reply (status, phase, room) ∧
     understood (encodeRoomReply RoomReplyBattleStarted room result req) MessageType.BattleStarted req parse_room_reply (status, phase, room) ∧
     understood (encodeRoomReply RoomReplySkillAcknowledged room result req) MessageType.SkillAcknowledged req parse_ack (status, phase) ∧
     understood (encodeRoomReply RoomReplyMoveAcknowledged room result req) MessageType.MoveAcknowledged req parse_ack (status, phase)) ∧
  (∀ experience, in_u64 experience →
     understood (encodeBattleCleared experience req) MessageType.BattleCleared req parse_cleared experience) ∧
  (∀ result, in_u64 (rr_boss_health result) →
     understood (encodeBattleFailure result req) MessageType.BattleFailed req parse_failed
       (rr_boss_health result, rr_boss_spawned result, failure_reason_code (default Deadline (rr_failure_reason result)))) ∧
  (∀ zone position, in_u64 zone → i32_position position →
     understood (encodeReturnedToZone zone position req) MessageType.ReturnedToZone req parse_returned
       (zone, zone_x position, zone_y position)).
Proof.
  intros Hr. split_and!.
  - by apply authenticated_understood.
  - by apply purchase_understood.
  - intros. by apply equip_understood.
  - intros. by apply zone_understood.
  - intros room result Hroom. split_and!.
    + by apply (room_understood req Hr RoomReplyJoined).
    + by apply (room_understood req Hr RoomReplyBattleStarted).
    + by apply (room_understood req Hr RoomReplySkillAcknowledged).
    + by apply (room_understood req Hr RoomReplyMoveAcknowledged).
  - by apply cleared_understood.
  - by apply failed_understood.
  - intros. by apply returned_understood.
Qed.

(** C31: What a player asks for is what the actors are told.  Every request the
    game client can build (its twelve kinds) and does not refuse is one frame
    for the server, however its bytes are cut, and if the connection is in the
    state the request is meant for, the gateway does exactly this with it:
    - a request to authenticate, from a connection that may be given the player
      or has it, is posted to that player's actor;
    - for a connection that serves a player: purchases, equipment and pings are
      posted to the player's actor; battle commands and the leave of a player in
      a room to that room; moves and the leave of a player on a zone route (and
      not on the way elsewhere) to that zone, under the route's epoch;
    - a request to enter a zone, when the player has no other route and is not on
      the way, is posted to that zone with the player, the epoch the coordinator
      admits, and the position asked for, or the one the player last had there;
      to enter another zone than the one the route names starts a transfer to it
      with these arguments; and a request to join a room, when the player is not
      on the way, starts the entry of the player into that room.
    Posted means: as exactly that command, before anything else is sent. *)
Theorem requests_reach_actors post now d s c req :
  (∀ s command, ∃ r, post s command = Ret r) → makeMessageDispatcher = Ret d → in_u32 req →
  let posts := client_posts post now d s c req in
  let starts := client_starts post now d s c req in
  let free := in_transition (coordinator s) c = false in
  (∀ p, (tryAttach (sessions s) c p).1 = Attached ∨ (tryAttach (sessions s) c p).1 = AlreadyAttached →
     posts MessageType.Authenticate (authenticate p) (PlayerCommandRoute (PlayerActor p) (AuthenticateCommand p) req None)) ∧
  ∀ player, playerFor (sessions s) c = Some player →
  (∀ zone x y, free →
     (∀ a rc, tryEnter (coordinator s) c player zone = Ret (Some a, rc) →
        posts MessageType.EnterZone (enter_zone zone x y)
          (ZoneCommandRoute zone (EnterZoneCommand player (route_epoch (admission_route a)) (entered_at s c zone x y)) (Some Entered) req)) ∧
     (∀ source, routes (coordinator s) !! c = Some source → route_zone source ≠ zone →
        starts MessageType.EnterZone (enter_zone zone x y) (Handoff.tryStart post now c req player zone (entered_at s c zone x y) source))) ∧
  (∀ route, free → routes (coordinator s) !! c = Some route →
     posts MessageType.LeaveZone (Value leave_zone)
       (ZoneCommandRoute (route_zone route) (LeaveZoneCommand (route_player route) (route_epoch route)) (Some Left) req)) ∧
  (∀ room, free → starts MessageType.RoomJoin (room_join room) (entry_tryStart post now c req player room)) ∧
  (∀ r, inRoomFor (coordinator s) c = Some r → in_room_player r = player →
     let room := in_room r in
     posts MessageType.BattleStart (battle_start room) (RoomCommandRoute room StartBattle (Some BattleStarted) req) ∧
     (∀ skill seq, posts MessageType.UseSkill (use_skill room skill seq)
        (RoomCommandRoute room (UseSkill player skill seq) (Some SkillAcknowledged) req)) ∧
     (∀ direction seq, posts MessageType.SetMoveIntent (set_move_intent room (direction_to_u8 direction) seq)
        (RoomCommandRoute room (SetMoveIntent player direction seq) (Some MoveAcknowledged) req)) ∧
     posts MessageType.RoomLeave (Value room_leave) (RoomCommandRoute room (LeaveRoom player) None req)) ∧
  (∀ route x y, free → routes (coordinator s) !! c = Some route →
     posts MessageType.Move (move_in_zone x y)
       (ZoneCommandRoute (route_zone route) (MoveInZoneCommand (route_player route) (route_epoch route) (mkZonePosition x y)) (Some Moved) req)) ∧
  (∀ key product, posts MessageType.Purchase (purchase key product)
     (PlayerCommandRoute (PlayerActor player) (PurchaseCommand key product) req None)) ∧
  (∀ skill, posts MessageType.EquipSkill (equip_skill skill) (PlayerCommandRoute (PlayerActor player) (EquipSkillCommand skill) req None)) ∧
  (∀ bs, bytes_ok bs → zlen bs <= MAX_PAYLOAD_SIZE →
     posts MessageType.Ping (Value bs) (PlayerCommandRoute (PlayerActor player) (PingCommand bs) req None)).
Proof.
  intros Hacc Hd Hreq posts starts free. unfold posts, starts, free. split.
  { intros p Ha. apply (packed_sent _ _ _ [CodeQ] [p]); try done. intros bs H. not_refused H. split; [done|].
    apply (authenticate_sent post now d Hacc Hd s c req p); [lia|done]. }
  intros player Hp. split_and!.
  - intros zone x y Ht.
    assert (Hread : ∀ bs, enter_zone zone x y = Value bs →
      bs = packed [CodeQ; Codei; Codei] [zone; x; y] ∧ bs = enter_payload zone x y ∧ in_u64 zone ∧ in_i32 x ∧ in_i32 y).
    { intros bs H. not_refused H. split; [done|]. split; [|done]. unfold enter_payload. cbn [packed code_size]. by rewrite app_nil_r, !word_packed. }
    split.
    + intros a rc He. apply (packed_sent _ _ _ [CodeQ; Codei; Codei] [zone; x; y]); try done. intros bs H.
      destruct (Hread bs H) as (E1 & -> & Hz & Hx & Hy). split; [done|].
      destruct (enter_read post now d Hacc s c req player Hp zone x y Ht Hz Hx Hy) as [_ Hgo]. by apply (Hgo a rc).
    + intros source Hs Hne. apply (packed_sent _ _ _ [CodeQ; Codei; Codei] [zone; x; y]); try done. intros bs H.
      destruct (Hread bs H) as (E1 & -> & Hz & Hx & Hy). split; [done|].
      destruct (enter_read post now d Hacc s c req player Hp zone x y Ht Hz Hx Hy) as [Hgo _]. by apply Hgo.
  - intros route Ht Hroute. apply request_sent; try done; [constructor|]. by apply (leave_zone_sent post now d Hacc s c req).
  - intros room Ht. apply (packed_sent _ _ _ [CodeQ] [room]); try done. intros bs H. not_refused H. split; [done|].
    apply (join_read post now d s c req player Hp room Ht). lia.
  - intros r Hr Hrp. set (room := in_room r). split_and!.
    + apply (packed_sent _ _ _ [CodeQ] [room]); try done. intros bs H. not_refused H. split; [done|].
      apply (battle_sent post now d Hacc s c req player Hp r Hr Hrp). lia.
    + intros skill seq. apply (packed_sent _ _ _ [CodeQ; CodeI; CodeQ] [room; skill; seq]); try done. intros bs H. not_refused H.
      split; [done|]. pose proof (payload_forms room skill seq Stop (mkZonePosition 0 0) 0 0) as (E & _). cbn [packed code_size].
      rewrite app_nil_r, <-E. apply (skill_sent post now d Hacc s c req player Hp r Hr Hrp); lia.
    + intros direction seq. set (dir := direction_to_u8 direction).
      apply (packed_sent _ _ _ [CodeQ; CodeB; CodeQ] [room; dir; seq]); try done.
      intros bs H. not_refused H.
      split; [done|]. pose proof (payload_forms room 0 seq direction (mkZonePosition 0 0) 0 0) as (_ & E & _). cbn [packed code_size].
      rewrite app_nil_r, <-(byte_packed dir) by lia. fold dir in E. rewrite <-E.
      apply (intent_sent post now d Hacc s c req player Hp r Hr Hrp); lia.
    + apply request_sent; try done; [constructor|]. by apply (leave_sent post now d Hacc s c req player r Hr Hrp).
  - intros route x y Ht Hroute. apply (packed_sent _ _ _ [Codei; Codei] [x; y]); try done. intros bs H. not_refused H. split; [done|].
    pose proof (payload_forms 0 0 0 Stop (mkZonePosition x y) 0 0) as (_ & _ & E & _). cbn [packed code_size zone_x zone_y] in *.
    rewrite !word_packed in E. rewrite app_nil_r, <-E. by apply move_sent.
  - intros key product. apply (packed_sent _ _ _ [CodeQ; CodeI] [key; product]); try done. intros bs H. not_refused H. split; [done|].
    pose proof (payload_forms 0 0 0 Stop (mkZonePosition 0 0) key product) as (_ & _ & _ & E). cbn [packed code_size].
    rewrite app_nil_r, <-E. apply purchase_sent; try done; lia.
  - intros skill. apply (packed_sent _ _ _ [CodeI] [skill]); try done. intros bs H. not_refused H. split; [done|].
    apply equip_sent; try done; lia.
  - intros bs Hb Hs. apply request_sent; try done. apply dispatched_posts; [done|done|by left|done|done].
Qed.

(** ** Witnesses *)

Lemma codecs_agree_witness :
  ∃ fs e tail,
    feed empty_decoder demo_chunks = Some (mkDecodeResult fs e, mkFrameDecoder tail 0) ∧
    py_read_loop py_new demo_chunks = Some (fs, match e with None => Value (mkPyDecoder tail 0) | Some _ => Raise ValueError end).
Proof. exact (codecs_agree demo_chunks demo_chunks_ok). Defined.

(** One event of each kind. *)
Definition every_event : list BattleEvent :=
  let here := mkArenaPosition 50 49 in
  [EnemySpawned 3 Boss 500; EnemyDamaged 3 7 1 40 460; EnemyDied 2; SkillWhiffed 7 2; ArenaStarted 100 100; ParticipantSpawned 7 here 130;
   ParticipantMoved 7 here; EnemyPositioned 3 here; ParticipantDamaged 7 3 10 120; ParticipantDied 8; ParticipantLeft 9;
   ProjectileSpawned 1 7 2 3 here; ProjectileMoved 1 here; ProjectileRemoved 1 Expired].

Definition every_event_result : RoomResult :=
  mkRoomResult Applied Running None None (Some 100) 460 true (Some (mkBattleDigest 12 every_event)) None None [7; 8] [].

Lemma every_event_typed : Forall event_typed every_event.
Proof. repeat constructor. Qed.

Definition every_event_frame : Frame := default (mkFrame 0 0 []) (encodeBattleDigest every_event_result 0).

Lemma digests_arrive_witness :
  parse_digest (payload every_event_frame) = Value (12, 1, client_event <$> every_event) ∧ zlen (payload every_event_frame) = 235.
Proof.
  split; [|vm_compute; reflexivity].
  destruct (digests_arrive every_event_result (mkBattleDigest 12 every_event) 0 eq_refl ltac:(cbn; lia) every_event_typed ltac:(lia)) as [_ H].
  destruct (H every_event_frame ltac:(vm_compute; reflexivity)) as (wire & _ & _ & _ & _ & Hp). exact Hp.
Defined.

Lemma answers_understood_witness :
  understood (encodeReturnedToZone 3 (mkZonePosition (-5) 7) 9) MessageType.ReturnedToZone 9 parse_returned (3, -5, 7).
Proof.
  destruct (answers_understood 9 ltac:(lia)) as (_ & _ & _ & _ & _ & _ & _ & H).
  exact (H 3 (mkZonePosition (-5) 7) ltac:(lia) ltac:(split; cbn; lia)).
Defined.

Lemma requests_reach_actors_witness :
  ∃ bs wire, use_skill 50 2 1 = Value bs ∧ py_encode MessageType.UseSkill 9 bs = Value wire ∧ zlen wire = 30 ∧
    sends accept_all 0 built_in guest_server guest 9 MessageType.UseSkill bs (RoomCommandRoute 50 (UseSkill 7 2 1) (Some SkillAcknowledged) 9).
Proof.
  destruct (requests_reach_actors accept_all 0 built_in guest_server guest 9 (fun _ _ => ex_intro _ Accepted eq_refl) eq_refl ltac:(lia)) as [_ Hserved].
  destruct (Hserved 7 ltac:(vm_compute; reflexivity)) as (_ & _ & _ & H & _).
  destruct (H (mkInRoom guest 7 50 3 (mkZonePosition 1 2)) ltac:(vm_compute; reflexivity) eq_refl) as (_ & Hskill & _).
  destruct (Hskill 2 1 (match use_skill 50 2 1 with Value bs => bs | Raise _ => [] end) ltac:(vm_compute; reflexivity)) as (wire & Hw & _ & Hs).
  eexists _, wire. split; [|split; [exact Hw|split; [|exact Hs]]].
  - vm_compute. reflexivity.
  - assert (Hv : py_encode 25 9 (match use_skill 50 2 1 with Value bs => bs | Raise _ => [] end) = Value wire) by exact Hw.
    vm_compute in Hv. injection Hv as <-. reflexivity.
Defined.
