(* ===== verification/ResultSinks.v ===== *)
(** * Result sinks: how results become frames

    [src/src/server/protocol_room_result_sink.cpp],
    [protocol_zone_result_sink.cpp], [protocol_player_response_sink.cpp] and
    [protocol_response_mapper.cpp]: what the actors of the server decide is
    encoded and queued on the outbound channel, and a frame that cannot be
    queued is reported so that its connection is closed.

    The sinks share the channel; a sink's method is a function on the channel
    and the sink's counters that may throw.  The clock the channel reads at each
    commit is the parameter [clock], by the number of the send. *)

From S2P Require Import Prelude Wire FrameCodec Connection Zone RoomTypes Player SessionDirectory Server Outbound OutboundSpec Encoder.

(** ** State *)

Record SinkStats := mkSinkStats {
  oversized_battle_digests : Z;
  battle_digest_frames : Z;
  battle_digest_fanout_bytes : Z
}.

Record Sink := mkSink { sink_out : OutboundChannel; sink_readings : nat; sink_stats : SinkStats }.

Definition set_out (ch : OutboundChannel) (s : Sink) : Sink := mkSink ch (sink_readings s) (sink_stats s).
Definition set_stats (x : SinkStats) (s : Sink) : Sink := mkSink (sink_out s) (sink_readings s) x.

Definition SinkM (A : Type) : Type := Sink → outcome (A * Sink).

#[export] Instance SinkM_ret : MRet SinkM := fun _ a s => Ret (a, s).
#[export] Instance SinkM_bind : MBind SinkM := fun _ _ k m s => let! (a, s') := m s in k a s'.

Definition modify_stats (f : SinkStats → SinkStats) : SinkM () := fun s => Ret (tt, set_stats (f (sink_stats s)) s).

Fixpoint for_each {A} (f : A → SinkM ()) (l : list A) : SinkM () :=
  match l with [] => mret () | a :: rest => _ ← f a; for_each f rest end.

Section sinks.
Context (clock : nat → time_point) (sessions : PlayerSessionDirectory).

(** [send]: [send_one_frame] on the channel. *)
Definition sink_send (c : ConnectionId) (f : Frame) : SinkM bool := fun s =>
  let! (ok, ch) := send_one_frame (sink_out s) c f (clock (sink_readings s)) in
  Ret (ok, mkSink ch (S (sink_readings s)) (sink_stats s)).

Definition sink_reportAdmissionFailure (c : ConnectionId) : SinkM () := fun s =>
  Ret (tt, set_out (reportAdmissionFailure (sink_out s) c) s).

(** ** Rooms *)

Definition ENCODED_FRAME_OVERHEAD : Z := FRAME_LENGTH_FIELD_SIZE + MIN_BODY_SIZE.

Definition room_frame_kind (kind : RoomReplyKind) : RoomReplyFrameKind :=
  match kind with
  | Joined => RoomReplyJoined
  | BattleStarted => RoomReplyBattleStarted
  | SkillAcknowledged => RoomReplySkillAcknowledged
  | MoveAcknowledged => RoomReplyMoveAcknowledged
  end.

Definition publishReply (command : RoomInboundCommand) (result : RoomResult) : SinkM () :=
  match inbound_room_reply command with
  | None => mret ()
  | Some reply =>
      _ ← sink_send (room_reply_connection reply)
            (encodeRoomReply (room_frame_kind (room_reply_kind reply)) (inbound_room command) result (room_reply_request_id reply));
      mret ()
  end.

(** The body of a loop over players for those a session serves. *)
Definition for_session {A} (player : A → PlayerId) (body : A → ConnectionId → SinkM ()) (a : A) : SinkM () :=
  match connectionFor sessions (player a) with Some c => body a c | None => mret () end.

Definition note_oversized (x : SinkStats) : SinkStats :=
  mkSinkStats (u64 (oversized_battle_digests x + 1)) (battle_digest_frames x) (battle_digest_fanout_bytes x).
Definition note_digest_sent (frame : Frame) (x : SinkStats) : SinkStats :=
  mkSinkStats (oversized_battle_digests x) (u64 (battle_digest_frames x + 1))
    (u64 (battle_digest_fanout_bytes x + (ENCODED_FRAME_OVERHEAD + zlen (payload frame)))).

Definition publishDigest (result : RoomResult) : SinkM () :=
  if negb (has_value (rr_digest result)) then mret ()
  else
    match encodeBattleDigest result UNSOLICITED_REQUEST_ID with
    | None =>
        _ ← modify_stats note_oversized;
        for_each (for_session id (fun _ c => sink_reportAdmissionFailure c)) (rr_audience result)
    | Some frame =>
        for_each (for_session id (fun _ c =>
          sent ← sink_send c frame;
          if sent : bool then modify_stats (note_digest_sent frame) else mret ())) (rr_audience result)
    end.

Definition publishClear (result : RoomResult) : SinkM () :=
  match rr_outcome result with
  | Some OutcomeCleared =>
      for_each (for_session grant_player (fun grant c =>
        _ ← sink_send c (encodeBattleCleared (grant_experience grant) UNSOLICITED_REQUEST_ID); mret ())) (rr_grants result)
  | _ => mret ()
  end.

Definition publishFailure (result : RoomResult) : SinkM () :=
  match rr_outcome result with
  | Some OutcomeFailed =>
      let frame := encodeBattleFailure result UNSOLICITED_REQUEST_ID in
      for_each (for_session id (fun _ c => _ ← sink_send c frame; mret ())) (rr_audience result)
  | _ => mret ()
  end.

(** [ProtocolRoomResultSink::accept]. *)
Definition room_accept (command : RoomInboundCommand) (result : RoomResult) : SinkM () :=
  _ ← publishReply command result;
  _ ← publishDigest result;
  _ ← publishClear result;
  publishFailure result.

(** The default member initialisers of [RoomResult]. *)
Definition room_reply_result (status : RoomCommandStatus) (phase : RoomPhase) : RoomResult :=
  mkRoomResult status phase None None None 0 false None None None [] [].

Definition replyJoined (c : ConnectionId) (request_id : Z) (room : RoomId) (status : RoomCommandStatus) (phase : RoomPhase) : SinkM () :=
  _ ← sink_send c (encodeRoomReply RoomReplyJoined room (room_reply_result status phase) request_id); mret ().

Definition replyReturnedToZone (c : ConnectionId) (zone : ZoneId) (position : ZonePosition) : SinkM () :=
  let payload := append_u32 (append_u32 (append_u64 [] zone) (u32 (zone_x position))) (u32 (zone_y position)) in
  _ ← sink_send c (mkFrame MessageType.ReturnedToZone UNSOLICITED_REQUEST_ID payload); mret ().

(** ** Zones *)

Definition zone_frame_kind (kind : ZoneReplyKind) : ZoneReplyFrameKind :=
  match kind with Entered => ZoneReplyEntered | Moved => ZoneReplyMoved | Left => ZoneReplyLeft end.

(** [ProtocolZoneResultSink::map] and [accept]. *)
Definition zone_map (zone : ZoneId) (reply : ZoneReplyContext) (result : ZoneResult) : Frame :=
  encodeZoneReply (zone_frame_kind (zone_reply_kind reply)) zone result (zone_reply_request_id reply).

Definition zone_accept (command : ZoneInboundCommand) (result : ZoneResult) : SinkM () :=
  match inbound_zone_reply command with
  | None => mret ()
  | Some reply => _ ← sink_send (zone_reply_connection reply) (zone_map (inbound_zone command) reply result); mret ()
  end.

Definition replyStatus (c : ConnectionId) (player : PlayerId) (zone : ZoneId) (epoch : Z) (position : ZonePosition) (request_id : Z)
    (kind : ZoneReplyKind) (status : ZoneCommandStatus) : SinkM () :=
  zone_accept (mkZoneInbound zone (EnterZoneCommand player epoch position) (Some (mkZoneReply c request_id kind)) None None)
    (mkZoneResult status (Some player) (Some position) epoch 0 [] None).

(** ** Players *)

Definition requiredSlots (result : PlayerResult) : Z := zlen (responses result).

(** [ProtocolResponseMapper::map]. *)
Definition map_response (response : PlayerResponse) (request_id : Z) : Frame := encodePlayerResponse response request_id.

(** [applyResponses]: commits through the caller's reservation, one slot per
    response, until one is refused. *)
Fixpoint commit_responses (c : ConnectionId) (request_id : Z) (rs : list PlayerResponse) (r : OutboundReservation) (s : Sink)
    : outcome (bool * OutboundReservation * Sink) :=
  match rs with
  | [] => Ret (true, r, s)
  | response :: rest =>
      let! (emitted, r1, ch) := commit (sink_out s) r (SendFrame c (map_response response request_id)) (clock (sink_readings s)) in
      let s1 := mkSink ch (S (sink_readings s)) (sink_stats s) in
      if emitted : bool then commit_responses c request_id rest r1 s1 else Ret (false, r1, s1)
  end.

Definition applyResponses (c : ConnectionId) (request_id : Z) (result : PlayerResult) (r : OutboundReservation) (s : Sink)
    : outcome (bool * OutboundReservation * Sink) :=
  commit_responses c request_id (responses result) r s.
End sinks.

(** ** Nothing is lost silently *)

(** The connection will be closed by the network thread. *)
Definition reported (c : ConnectionId) (ch : OutboundChannel) : Prop := c ∈ admission_failures ch ∨ admission_failure_overflowed ch = true.

Definition queued_actions (ch : OutboundChannel) : list OutboundAction := (fun q => action (queued_posted q)) <$> items ch.

Abbreviation Attempt := (ConnectionId * Frame)%type.

Definition attempt_action (a : Attempt) : OutboundAction := SendFrame a.1 a.2.

(** The attempts that were taken. *)
Fixpoint taken (flags : list bool) (attempts : list Attempt) : list Attempt :=
  match flags, attempts with
  | b :: flags', a :: attempts' => if b : bool then a :: taken flags' attempts' else taken flags' attempts'
  | _, _ => []
  end.

(** [attempts] were made in order, each of which was queued or reported, nothing
    else was done to the queue, and the connections [costs] were reported. *)
Record published (held : list OutboundReservation) (ch : OutboundChannel) (attempts : list Attempt) (costs : list ConnectionId)
    (ch' : OutboundChannel) : Prop := {
  pb_ok : channel_ok ch' held;
  pb_costs : ∀ c, c ∈ costs → reported c ch';
  pb_kept : ∀ c, reported c ch → reported c ch';
  pb_sent : ∃ flags, length flags = length attempts ∧ queued_actions ch' = queued_actions ch ++ (attempt_action <$> taken flags attempts) ∧
      ∀ i a, attempts !! i = Some a → flags !! i = Some true ∨ reported a.1 ch'
}.

Lemma reportAdmissionFailure_reported ch c :
  reported c (reportAdmissionFailure ch c) ∧ ∀ c', reported c' ch → reported c' (reportAdmissionFailure ch c).
Proof.
  unfold reportAdmissionFailure, reported. case_bool_decide; [auto|]. destruct (_ =? _); cbn; [auto|].
  split; [set_solver|]. intros c' [?|?]; [set_solver|auto].
Qed.

Lemma published_refl held ch : channel_ok ch held → published held ch [] [] ch.
Proof. intros Hok. constructor; [done|by intros c ?%not_elem_of_nil|done|]. exists []. cbn. rewrite app_nil_r. done. Qed.

Lemma taken_app flags flags' l l' : length flags = length l → taken (flags ++ flags') (l ++ l') = taken flags l ++ taken flags' l'.
Proof.
  revert l. induction flags as [|b flags IH]; intros [|a l] Hl; try done. cbn in *. rewrite IH by lia. by destruct b.
Qed.

Lemma published_trans held ch l k ch1 l' k' ch2 :
  published held ch l k ch1 → published held ch1 l' k' ch2 → published held ch (l ++ l') (k ++ k') ch2.
Proof.
  intros [Hok Hc Hk (fs & Hl & Hq & Hr)] [Hok' Hc' Hk' (fs' & Hl' & Hq' & Hr')].
  constructor; [done|intros c [?|?]%elem_of_app; auto|auto|]. exists (fs ++ fs'). split_and!.
  - rewrite !length_app. lia.
  - by rewrite Hq', Hq, taken_app, fmap_app, app_assoc.
  - intros i a Hi. destruct (decide (i < length l)%nat).
    + rewrite lookup_app_l in Hi by done. rewrite lookup_app_l by lia. destruct (Hr i a Hi); auto.
    + rewrite lookup_app_r in Hi by lia. rewrite lookup_app_r by lia. rewrite Hl. auto.
Qed.

Lemma report_published held ch c : channel_ok ch held → published held ch [] [c] (reportAdmissionFailure ch c).
Proof.
  intros Hok. constructor.
  - by apply reportAdmissionFailure_ok.
  - intros c' ->%list_elem_of_singleton. apply (proj1 (reportAdmissionFailure_reported ch c)).
  - apply reportAdmissionFailure_reported.
  - exists []. cbn. unfold queued_actions. destruct (reportAdmissionFailure_queue ch c) as [-> _]. by rewrite app_nil_r.
Qed.

(** Operations that keep the books of failures. *)
Lemma eraseUsageIfIdle_failures ch c :
  admission_failures (eraseUsageIfIdle ch c) = admission_failures ch ∧
  admission_failure_overflowed (eraseUsageIfIdle ch c) = admission_failure_overflowed ch.
Proof. unfold eraseUsageIfIdle. repeat case_match; done. Qed.

Lemma tryReserve_failures ch c n :
  admission_failures (tryReserve ch c n).2 = admission_failures ch ∧
  admission_failure_overflowed (tryReserve ch c n).2 = admission_failure_overflowed ch.
Proof.
  unfold tryReserve. repeat (split_if; [done|]). split_if; [|done]. cbn [snd]. by destruct (eraseUsageIfIdle_failures (set_usage c (usage_of ch c) ch) c).
Qed.

Lemma commit_failures ch r a now ok r' ch' :
  commit ch r a now = Ret (ok, r', ch') →
  admission_failures ch' = admission_failures ch ∧ admission_failure_overflowed ch' = admission_failure_overflowed ch.
Proof.
  unfold commit, throw_if. repeat (case_match; try done); intros [= <- <- <-]; try done; cbn; by split_if.
Qed.

Lemma returned_failures ch r :
  admission_failures (returnRemainingSlots ch r).2 = admission_failures ch ∧
  admission_failure_overflowed (returnRemainingSlots ch r).2 = admission_failure_overflowed ch.
Proof.
  unfold returnRemainingSlots, returnSlots. cbn. repeat (case_match; try done).
  all: match goal with |- context [eraseUsageIfIdle ?x ?y] => destruct (eraseUsageIfIdle_failures x y) as [-> ->] end;
    unfold markGrantable; by split_if.
Qed.

Lemma send_one_frame_published ch held c f now :
  channel_ok ch held → ∃ ok ch', send_one_frame ch c f now = Ret (ok, ch') ∧ published held ch [(c, f)] [] ch'.
Proof.
  intros Hok. unfold send_one_frame. destruct (tryReserve ch c 1) as [o ch1] eqn:Er.
  pose proof (tryReserve_ok ch held c 1 o ch1 Hok ltac:(lia) Er) as Hr. pose proof (tryReserve_queue ch c 1) as [Hq1 _].
  pose proof (tryReserve_failures ch c 1) as [Hf1 Ho1]. rewrite Er in *. cbn [snd] in *. destruct o as [r|].
  2:{ do 2 eexists. split; [done|]. destruct (reportAdmissionFailure_reported ch1 c) as [H1 H2]. constructor.
      - by apply reportAdmissionFailure_ok.
      - by intros c' ?%not_elem_of_nil.
      - intros c' Hc. apply H2. unfold reported in *. by rewrite Hf1, Ho1.
      - exists [false]. split; [done|]. split.
        + unfold queued_actions. destruct (reportAdmissionFailure_queue ch1 c) as [-> _]. cbn. by rewrite Hq1, app_nil_r.
        + intros [|i] a; cbn; [|done]. intros [= <-]. auto. }
  destruct Hr as [-> Hok1]. pose proof (commit_ok ch1 _ 0 (mkReservation true c 1) (SendFrame c f) now Hok1 eq_refl) as Hc.
  destruct (commit ch1 (mkReservation true c 1) (SendFrame c f) now) as [[[ok r'] ch2]|e] eqn:Ec; [|destruct Hc as [_ Hc]; cbn in Hc; lia].
  destruct Hc as (Hok2 & _ & Hcan & _ & _ & Hm). pose proof (commit_failures _ _ _ _ _ _ _ Ec) as [Hf2 Ho2]. cbn [outcome_bind].
  set (ch3 := if ok then ch2 else reportAdmissionFailure ch2 c). do 2 eexists. split; [done|].
  assert (Hok3 : channel_ok ch3 (<[0%nat := r']> (mkReservation true c 1 :: held))).
  { unfold ch3. destruct ok; [done|]. by apply reportAdmissionFailure_ok. }
  pose proof (returnRemainingSlots_ok ch3 _ 0 r' Hok3 eq_refl) as Hok4. cbn [delete list_delete insert list_insert] in Hok4.
  assert (Hrep : ∀ x, reported x (returnRemainingSlots ch3 r').2 = reported x ch3).
  { intros x. unfold reported. by destruct (returned_failures ch3 r') as [-> ->]. }
  constructor; [done|by intros c' ?%not_elem_of_nil| |].
  - intros c' Hc'. rewrite Hrep. unfold ch3. destruct ok; [unfold reported in *; by rewrite Hf2, Ho2, Hf1, Ho1|].
    unfold reported in Hc'. apply (proj2 (reportAdmissionFailure_reported ch2 c)). unfold reported. by rewrite Hf2, Ho2, Hf1, Ho1.
  - assert (Hq4 : items (returnRemainingSlots ch3 r').2 = items ch3).
    { unfold returnRemainingSlots. cbn. split_if; [|done]. apply returnSlots_queue. }
    exists [ok]. split; [done|]. unfold queued_actions. rewrite Hq4. unfold ch3 at 1. destruct ok.
    + destruct Hm as (_ & _ & ->). split; [by rewrite fmap_app, Hq1|]. intros [|i] a; cbn; [|done]. intros _. by left.
    + destruct Hm as [_ ->]. destruct (reportAdmissionFailure_queue ch1 c) as [-> _]. cbn. split; [by rewrite Hq1, app_nil_r|].
      intros [|i] a; cbn; [|done]. intros [= <-]. right. rewrite Hrep. apply (proj1 (reportAdmissionFailure_reported ch1 c)).
Qed.

(** ** What a room's sink sends *)

Definition served {A} (sessions : PlayerSessionDirectory) (player : A → PlayerId) (frame : A → Frame) (l : list A) : list Attempt :=
  omap (fun a => (fun c => (c, frame a)) <$> connectionFor sessions (player a)) l.

(** The frames a result is owed as, in order. *)
Definition room_attempts (sessions : PlayerSessionDirectory) (command : RoomInboundCommand) (result : RoomResult) : list Attempt :=
  match inbound_room_reply command with
  | None => []
  | Some reply =>
      [(room_reply_connection reply,
        encodeRoomReply (room_frame_kind (room_reply_kind reply)) (inbound_room command) result (room_reply_request_id reply))]
  end ++
  match encodeBattleDigest result UNSOLICITED_REQUEST_ID with
  | Some frame => served sessions id (fun _ => frame) (rr_audience result)
  | None => []
  end ++
  match rr_outcome result with
  | Some OutcomeCleared =>
      served sessions grant_player (fun grant => encodeBattleCleared (grant_experience grant) UNSOLICITED_REQUEST_ID) (rr_grants result)
  | Some OutcomeFailed => served sessions id (fun _ => encodeBattleFailure result UNSOLICITED_REQUEST_ID) (rr_audience result)
  | None => []
  end.

(** The connections an oversized digest costs. *)
Definition room_costs (sessions : PlayerSessionDirectory) (result : RoomResult) : list ConnectionId :=
  if has_value (rr_digest result) && negb (has_value (encodeBattleDigest result UNSOLICITED_REQUEST_ID))
  then omap (connectionFor sessions) (rr_audience result) else [].

Section published.
Context (clock : nat → time_point) (sessions : PlayerSessionDirectory) (held : list OutboundReservation).

(** [m] ends, publishes [attempts] and reports [costs]. *)
Definition publishes {A} (m : SinkM A) (attempts : list Attempt) (costs : list ConnectionId) : Prop :=
  ∀ s, channel_ok (sink_out s) held → ∃ a s', m s = Ret (a, s') ∧ published held (sink_out s) attempts costs (sink_out s').

Lemma publishes_ret {A} (a : A) : publishes (mret a) [] [].
Proof. intros s Hok. exists a, s. split; [done|]. by apply published_refl. Qed.

Lemma publishes_bind {A B} (m : SinkM A) (k : A → SinkM B) l l' x x' :
  publishes m l x → (∀ a, publishes (k a) l' x') → publishes (m ≫= k) (l ++ l') (x ++ x').
Proof.
  intros Hm Hk s Hok. destruct (Hm s Hok) as (a & s1 & E1 & P1). destruct (Hk a s1 (pb_ok _ _ _ _ _ P1)) as (b & s2 & E2 & P2).
  exists b, s2. split; [unfold mbind, SinkM_bind; by rewrite E1|]. by eapply published_trans.
Qed.

Lemma publishes_then {A B} (m : SinkM A) (k : A → SinkM B) l x : publishes m l x → (∀ a, publishes (k a) [] []) → publishes (m ≫= k) l x.
Proof. intros Hm Hk. rewrite <-(app_nil_r l), <-(app_nil_r x). by apply publishes_bind. Qed.

Lemma publishes_send c f : publishes (sink_send clock c f) [(c, f)] [].
Proof.
  intros s Hok. unfold sink_send. destruct (send_one_frame_published (sink_out s) held c f (clock (sink_readings s)) Hok) as (ok & ch & -> & P).
  cbn. by do 2 eexists.
Qed.

Lemma publishes_stats f : publishes (modify_stats f) [] [].
Proof. intros s Hok. do 2 eexists. split; [done|]. by apply published_refl. Qed.

Lemma publishes_report c : publishes (sink_reportAdmissionFailure c) [] [c].
Proof. intros s Hok. do 2 eexists. split; [done|]. by apply report_published. Qed.

Lemma publishes_session {A} (player : A → PlayerId) (frame : A → Frame) body (a : A) :
  (∀ c, publishes (body a c) [(c, frame a)] []) → publishes (for_session sessions player body a) (served sessions player frame [a]) [].
Proof.
  intros Hb. unfold for_session, served. cbn. destruct (connectionFor sessions (player a)); [apply Hb|apply publishes_ret].
Qed.

Lemma publishes_served {A} (player : A → PlayerId) (frame : A → Frame) body (l : list A) :
  (∀ a c, publishes (body a c) [(c, frame a)] []) → publishes (for_each (for_session sessions player body) l) (served sessions player frame l) [].
Proof.
  intros Hb. induction l as [|a l IH]; [apply publishes_ret|]. cbn [for_each].
  replace (served sessions player frame (a :: l)) with (served sessions player frame [a] ++ served sessions player frame l)
    by (unfold served; cbn; by destruct (connectionFor sessions (player a))).
  apply (publishes_bind _ _ _ _ [] []); [|done]. by apply publishes_session.
Qed.

Lemma publishes_reports (l : list PlayerId) :
  publishes (for_each (for_session sessions id (fun _ c => sink_reportAdmissionFailure c)) l) [] (omap (connectionFor sessions) l).
Proof.
  induction l as [|a l IH]; [apply publishes_ret|]. cbn [for_each].
  replace (omap (connectionFor sessions) (a :: l)) with (omap (connectionFor sessions) [a] ++ omap (connectionFor sessions) l)
    by (cbn; by destruct (connectionFor sessions a)).
  apply (publishes_bind _ _ [] []); [|done]. unfold for_session, id. cbn. destruct (connectionFor _ _); [apply publishes_report|apply publishes_ret].
Qed.

Lemma room_accept_publishes command result :
  publishes (room_accept clock sessions command result) (room_attempts sessions command result) (room_costs sessions result).
Proof.
  unfold room_accept, room_attempts. change (room_costs sessions result) with ([] ++ room_costs sessions result).
  rewrite <-(app_nil_r (room_costs sessions result)). apply publishes_bind; [|intros _; apply publishes_bind; [|intros _]]; unfold room_costs.
  - unfold publishReply. destruct (inbound_room_reply command) as [reply|]; [|apply publishes_ret].
    apply publishes_then; [apply publishes_send|]. intros _. apply publishes_ret.
  - unfold publishDigest. destruct (rr_digest result) as [d|] eqn:Ed; cbn [has_value negb].
    2:{ unfold encodeBattleDigest. rewrite Ed. apply publishes_ret. }
    cbn [andb].
    destruct (encodeBattleDigest result UNSOLICITED_REQUEST_ID) as [frame|].
    + apply publishes_served. intros a c. apply publishes_then; [apply publishes_send|]. intros []; [apply publishes_stats|apply publishes_ret].
    + apply (publishes_bind _ _ [] [] [] (omap (connectionFor sessions) (rr_audience result))); [apply publishes_stats|]. intros _. apply publishes_reports.
  - unfold publishClear, publishFailure. destruct (rr_outcome result) as [[]|].
    + apply publishes_then; [|intros _; apply publishes_ret]. apply publishes_served. intros a c. apply publishes_then; [apply publishes_send|].
      intros _. apply publishes_ret.
    + apply (publishes_bind _ _ [] _ [] []); [apply publishes_ret|intros _]. apply publishes_served. intros a c.
      apply publishes_then; [apply publishes_send|]. intros _. apply publishes_ret.
    + apply (publishes_bind _ _ [] [] [] []); [apply publishes_ret|intros _; apply publishes_ret].
Qed.

End published.

(** ** What a player's sink sends *)

Lemma commit_responses_ok clock c req rs r s held i :
  channel_ok (sink_out s) held → held !! i = Some r → connection r = c → zlen rs <= remainingSlots r → cancelled (sink_out s) = false →
  ∃ r' s', commit_responses clock c req rs r s = Ret (true, r', s') ∧ channel_ok (sink_out s') (<[i := r']> held) ∧
    connection r' = c ∧ remainingSlots r' = remainingSlots r - zlen rs ∧ cancelled (sink_out s') = false ∧
    queued_actions (sink_out s') = queued_actions (sink_out s) ++ ((fun x => SendFrame c (encodePlayerResponse x req)) <$> rs).
Proof.
  revert r s held. induction rs as [|x rs IH]; intros r s held Hok Hi Hc Hn Hcan.
  { exists r, s. cbn. rewrite list_insert_id, app_nil_r by done. split_and!; try done. unfold zlen. cbn. lia. }
  unfold zlen in *. cbn [length commit_responses] in *.
  pose proof (commit_ok (sink_out s) held i r (SendFrame c (map_response x req)) (clock (sink_readings s)) Hok Hi) as Hm.
  destruct (commit _ _ _ _) as [[[ok r1] ch1]|e]; [|lia]. destruct Hm as (Hok1 & _ & -> & Hcan1 & _ & Hm). cbn [outcome_bind].
  rewrite Hcan in Hm |- *. cbn [negb] in Hm |- *. destruct Hm as (Hr1 & Hc1 & Hq1). rewrite Hcan in Hcan1.
  destruct (IH r1 (mkSink ch1 (S (sink_readings s)) (sink_stats s)) (<[i := r1]> held)) as (r' & s' & E & Hok' & Hc' & Hr' & Hcan' & Hq');
    try done; [apply list_lookup_insert_eq; by eapply lookup_lt_Some|congruence|cbn; lia|].
  exists r', s'. rewrite E. rewrite list_insert_insert_eq in Hok'. split_and!; try done; [lia|]. rewrite Hq'. unfold queued_actions. cbn [sink_out].
  by rewrite Hq1, fmap_app, <-app_assoc.
Qed.

(** ** Theorems *)

(** C32: No player loses a battle without being told.  When a room's result is
    handed to its sink, the command's reply, the digest for everyone in the
    audience, and the outcome for everyone it concerns are put in the outbound
    queue in this order and for the connections that then serve those players;
    whatever could not be queued, and a digest that could not be encoded, is
    reported, so that the connection that missed it is closed.  Nothing else
    is queued, the channel's books stay right, and nothing throws. *)
Theorem room_results_published clock sessions command result s held :
  channel_ok (sink_out s) held →
  let attempts := room_attempts sessions command result in
  ∃ s' flags, room_accept clock sessions command result s = Ret (tt, s') ∧ channel_ok (sink_out s') held ∧
    length flags = length attempts ∧
    queued_actions (sink_out s') = queued_actions (sink_out s) ++ (attempt_action <$> taken flags attempts) ∧
    (∀ i c f, attempts !! i = Some (c, f) → flags !! i = Some true ∨ reported c (sink_out s')) ∧
    (∀ c, c ∈ room_costs sessions result → reported c (sink_out s')).
Proof.
  intros Hok attempts. destruct (room_accept_publishes clock sessions held command result s Hok) as ([] & s' & E & [Hok' Hc Hk (flags & Hl & Hq & Hr)]).
  exists s', flags. split_and!; try done. intros i c f Hi. by apply (Hr i (c, f)).
Qed.

(** A player's responses go out together.  With a reservation of as many
    slots as the sink asks for, either every response is queued, in order, as
    its frame and the reservation is used up, or the channel was cancelled. *)
Theorem player_responses_go_out clock c req result r s held i :
  channel_ok (sink_out s) held → held !! i = Some r → connection r = c → remainingSlots r = requiredSlots result →
  cancelled (sink_out s) = false →
  ∃ r' s', applyResponses clock c req result r s = Ret (true, r', s') ∧ channel_ok (sink_out s') (<[i := r']> held) ∧
    remainingSlots r' = 0 ∧
    queued_actions (sink_out s') = queued_actions (sink_out s) ++ ((fun x => SendFrame c (encodePlayerResponse x req)) <$> responses result).
Proof.
  unfold requiredSlots, applyResponses. intros Hok Hi Hc Hr Hcan.
  destruct (commit_responses_ok clock c req (responses result) r s held i) as (r' & s' & E & Hok' & _ & Hr' & _ & Hq); try done; [lia|].
  exists r', s'. split_and!; try done. lia.
Qed.

(** ** Witnesses *)

Definition demo_sink : Sink := mkSink demo_channel 0 (mkSinkStats 0 0 0).

Lemma demo_channel_ok : channel_ok demo_channel [].
Proof. apply (makeOutboundChannel_ok demo_channel_config 3); [vm_compute; reflexivity|simpl; lia..]. Qed.

Definition demo_sessions : PlayerSessionDirectory := directory_run empty_directory [DAttach (conn 1) 7; DAttach (conn 2) 8].

(** A battle of players 7, 8 and 9, the last of whom is gone, fails at a command
    of player 7. *)
Definition lost_battle : RoomResult :=
  mkRoomResult Applied Failed (Some 7) None None 120 true (Some (mkBattleDigest 4 [ParticipantDied 8])) (Some OutcomeFailed)
    (Some ParticipantsDefeated) [7; 8; 9] [].
Definition lost_command : RoomInboundCommand :=
  mkRoomInbound 50 (UseSkill 7 1 3) (Some (mkRoomReply (conn 1) 21 SkillAcknowledged)) None.

(** Connection 1 may hold two frames: the third, the outcome, is reported. *)
Definition lost_sink : Sink :=
  match room_accept Z.of_nat demo_sessions lost_command lost_battle demo_sink with Ret (_, s) => s | Throw _ => demo_sink end.

Lemma room_results_published_witness :
  channel_ok (sink_out lost_sink) [] ∧ length (room_attempts demo_sessions lost_command lost_battle) = 5%nat ∧
  length (queued_actions (sink_out lost_sink)) = 4%nat ∧
  ∃ flags : list bool, length flags = 5%nat ∧ (flags !! 3%nat = Some true ∨ reported (conn 1) (sink_out lost_sink)).
Proof.
  destruct (room_results_published Z.of_nat demo_sessions lost_command lost_battle demo_sink [] demo_channel_ok)
    as (s' & flags & E & Hok & Hl & _ & Hr & _).
  assert (Hs : lost_sink = s') by (unfold lost_sink; by rewrite E). rewrite <-Hs in Hok, Hr. split; [exact Hok|].
  split; [vm_compute; reflexivity|]. split; [vm_compute; reflexivity|]. exists flags. split; [exact Hl|].
  exact (Hr 3%nat (conn 1) (encodeBattleFailure lost_battle 0) ltac:(vm_compute; reflexivity)).
Defined.

Definition two_responses : PlayerResult := mkPlayerResult [AuthenticatedResponse 7; PongResponse [1; 2]] None.

Definition reserved_sink : Sink := set_out (tryReserve demo_channel (conn 1) 2).2 demo_sink.

Lemma reserved_sink_ok : channel_ok (sink_out reserved_sink) [mkReservation true (conn 1) 2].
Proof.
  destruct (tryReserve_ok demo_channel [] (conn 1) 2 (Some (mkReservation true (conn 1) 2)) (sink_out reserved_sink) demo_channel_ok) as [_ H];
    [lia|vm_compute; reflexivity|exact H].
Qed.

Lemma player_responses_go_out_witness :
  ∃ r' s', applyResponses Z.of_nat (conn 1) 3 two_responses (mkReservation true (conn 1) 2) reserved_sink = Ret (true, r', s') ∧
    remainingSlots r' = 0 ∧
    queued_actions (sink_out s') = (fun x => SendFrame (conn 1) (encodePlayerResponse x 3)) <$> responses two_responses.
Proof.
  destruct (player_responses_go_out Z.of_nat (conn 1) 3 two_responses (mkReservation true (conn 1) 2) reserved_sink
              [mkReservation true (conn 1) 2] 0 reserved_sink_ok eq_refl eq_refl eq_refl eq_refl) as (r' & s' & E & _ & Hr & Hq).
  exists r', s'. split; [exact E|]. split; [exact Hr|exact Hq].
Defined.
