(* ===== verification/GameMessages.v ===== *)
(** * Messages of the game's actors, and results as effects

    [src/include/snf/adapter/game_payloads.hpp]: what the player, zone and room
    actors of a worker tell each other, and [src/src/adapter/to_effects.cpp]:
    what the worker is asked to do for the result of a turn.  An [ActorEnvelope]
    is the message; the bytes it is charged, which depend on the sizes of the
    C++ types, stay a parameter of the worker ([chargedBytes]).

    [EffectBatch::push] throws when a batch is full, so that a batch is built in
    the option monad. *)

From S2P Require Import Prelude FrameCodec Identity Skills Arena Zone RoomTypes Player Actor Encoder.

(** ** Messages *)

Inductive WorkflowStep :=
| StepNone | ZoneEnter | ZoneMove | ZoneLeave | RoomJoinStep1_JoinRoom | RoomJoinStep2_LeaveZone | RoomReturnStep1_ZoneEnter
| RoomTerminalNotification | CrossZoneLeaveSource | CrossZoneEnterTarget | CrossZoneRestoreSource | CleanupZone | CleanupRoom.

#[export] Instance WorkflowStep_eq_dec : EqDecision WorkflowStep.
Proof. solve_decision. Defined.

Record RoomMembership := mkMembership { membership_incarnation : ActorIncarnation; membership_sequence : Z }.

#[export] Instance RoomMembership_eq_dec : EqDecision RoomMembership.
Proof. solve_decision. Defined.

Record WorkflowReplyTo := mkReplyTo {
  rt_player : PlayerId;
  rt_generation : ConnectionGeneration;
  rt_correlation : Z;
  rt_step : WorkflowStep;
  rt_route_epoch : Z;
  rt_request_id : Z
}.

Inductive ZoneRequest := EnterZoneRequest (zone : ZoneId) (position : ZonePosition) | MoveRequest (position : ZonePosition) | LeaveRequest.

Inductive RoomRequest :=
| RoomJoinRequest (room : RoomId)
| BattleStartRequest (room : RoomId)
| RoomLeaveRequest
| UseSkillRequest (room : RoomId) (skill : SkillId) (request_sequence : Z)
| SetMoveIntentRequest (room : RoomId) (direction : MoveDirection) (request_sequence : Z).

Record ZoneOutcome := mkZoneOutcome {
  zo_player : PlayerId;
  zo_generation : ConnectionGeneration;
  zo_correlation : Z;
  zo_step : WorkflowStep;
  zo_zone : ZoneId;
  zo_route_epoch : Z;
  zo_request_id : Z;
  zo_result : ZoneResult
}.

Record RoomOutcome := mkRoomOutcome {
  ro_player : PlayerId;
  ro_generation : ConnectionGeneration;
  ro_correlation : Z;
  ro_step : WorkflowStep;
  ro_room : RoomId;
  ro_request_id : Z;
  ro_result : RoomResult;
  ro_membership : option RoomMembership
}.

Inductive GameMessage :=
| PlayerCommandMessage (connection : option ConnectionRef) (request_id : Z) (command : PlayerCommand)
| ExperienceGrantMessage (grant : StreetExperienceGrant)
| ZoneCommandMessage (connection : option ConnectionRef) (request_id : Z) (command : ZoneCommand) (reply_to : option WorkflowReplyTo)
| ZoneTickMessage (tick : Z)
| RoomCommandMessage (connection : option ConnectionRef) (request_id : Z) (command : RoomCommand) (reply_to : option WorkflowReplyTo)
    (membership : option RoomMembership)
| RoomDeadlineMessage (room : RoomId) (sequence : Z)
| RoomTickMessage (room : RoomId) (tick : Z)
| PingMessage (connection : ConnectionRef) (request_id : Z) (payload : list Z)
| PlayerSaveMessage (player : PlayerId)
| PlayerConnectionClosedMessage (connection : ConnectionRef)
| PlayerZoneRequestMessage (connection : ConnectionRef) (request_id : Z) (request : ZoneRequest)
| ZoneOutcomeMessage (outcome : ZoneOutcome)
| RoomOutcomeMessage (outcome : RoomOutcome)
| PlayerWorkflowTimeoutMessage (correlation_id : Z) (step : WorkflowStep)
| PlayerRoomRequestMessage (connection : ConnectionRef) (request_id : Z) (request : RoomRequest).

Abbreviation GameEffect := (Effect GameMessage).
Abbreviation Batch := (list GameEffect).

Definition player_key (p : PlayerId) : ActorKey := mkActorKey KindPlayer p.
Definition zone_key (z : ZoneId) : ActorKey := mkActorKey KindZone z.
Definition room_key (r : RoomId) : ActorKey := mkActorKey KindRoom r.

(** [batch.push] of each effect in turn. *)
Fixpoint push_all (es : list GameEffect) (batch : Batch) : option Batch :=
  match es with [] => Some batch | e :: rest => batch' ← effects_push e batch; push_all rest batch' end.

(** ** Contexts *)

(** The time of a player's turn is not used. *)
Record PlayerTurnContext := mkPlayerTurn {
  pt_connection : option ConnectionRef;
  pt_request_id : Z;
  pt_player_id : option PlayerId
}.

Record ZoneTurnContext := mkZoneTurn {
  zt_connection : option ConnectionRef;
  zt_request_id : Z;
  zt_zone : ZoneId;
  zt_reply_kind : option ZoneReplyFrameKind;
  zt_now : time_point;
  zt_zone_empty : bool;
  zt_reply_to : option WorkflowReplyTo
}.

Record PreparedRoomTimer := mkPreparedTimer {
  prepared_deadline : time_point;
  prepared_message : GameMessage;
  prepared_reservation : TimerReservation
}.

Record RoomAudienceRoute := mkAudienceRoute {
  route_of : PlayerId;
  route_connection : option ConnectionRef;
  route_membership : option RoomMembership
}.

Record RoomTurnContext := mkRoomTurn {
  rt_connection : option ConnectionRef;
  rt_turn_request_id : Z;
  rt_room : RoomId;
  rt_reply_kind : option RoomReplyFrameKind;
  rt_now : time_point;
  rt_routes : list RoomAudienceRoute;
  rt_reply_to : option WorkflowReplyTo;
  rt_membership : option RoomMembership
}.

(** ** Effects of results *)

Definition toEffects_player (context : PlayerTurnContext) (result : PlayerResult) : option Batch :=
  let join :=
    match room_join result with
    | Some request =>
        [TellActorEffect (room_key (rj_room request))
           (RoomCommandMessage (pt_connection context) (pt_request_id context)
              (JoinRoom (default 0 (pt_player_id context)) (rj_stats request) (rj_equipped_skill_id request)) None None)]
    | None => []
    end in
  let answers :=
    match pt_connection context with
    | Some connection =>
        (fun response => SendFrameEffect connection (encodePlayerResponse response (pt_request_id context)) false) <$> responses result
    | None => []
    end in
  push_all (join ++ answers) [].

Definition zone_outcome (context : ZoneTurnContext) (reply : WorkflowReplyTo) (result : ZoneResult) : ZoneOutcome :=
  mkZoneOutcome (rt_player reply) (rt_generation reply) (rt_correlation reply) (rt_step reply) (zt_zone context) (rt_route_epoch reply)
    (zt_request_id context) result.

Definition toEffects_zone (context : ZoneTurnContext) (result : ZoneResult) : option Batch :=
  let reply :=
    match zt_reply_to context with
    | Some reply => [TellActorEffect (player_key (rt_player reply)) (ZoneOutcomeMessage (zone_outcome context reply result))]
    | None =>
        match zt_connection context, zt_reply_kind context with
        | Some connection, Some kind =>
            [SendFrameEffect connection (encodeZoneReply kind (zt_zone context) result (zt_request_id context)) false]
        | _, _ => []
        end
    end in
  let next :=
    if zt_zone_empty context then [StopActorEffect]
    else match zr_tick_after result with
         | Some tick_after => [ScheduleTimerEffect (after (zt_now context) tick_after) (ZoneTickMessage (u64 (zr_tick result + 1))) None]
         | None => []
         end in
  push_all (reply ++ next) [].

(** [connectionFor]: the first route of the player. *)
Fixpoint routeConnectionFor (routes : list RoomAudienceRoute) (player : PlayerId) : option ConnectionRef :=
  match routes with
  | [] => None
  | route :: rest => if route_of route =? player then route_connection route else routeConnectionFor rest player
  end.

(** The loop that looks for a membership runs to the end: the last route of the
    player counts. *)
Fixpoint membershipFor (routes : list RoomAudienceRoute) (player : PlayerId) (found : option RoomMembership) : option RoomMembership :=
  match routes with
  | [] => found
  | route :: rest => membershipFor rest player (if route_of route =? player then route_membership route else found)
  end.

(** One effect for each of the players that has a connection. *)
Definition for_connected {A} (context : RoomTurnContext) (player : A → PlayerId) (effect : A → ConnectionRef → GameEffect) (l : list A)
    : list GameEffect :=
  omap (fun a => effect a <$> routeConnectionFor (rt_routes context) (player a)) l.

Definition room_outcome (context : RoomTurnContext) (reply : WorkflowReplyTo) (result : RoomResult) : RoomOutcome :=
  mkRoomOutcome (rt_player reply) (rt_generation reply) (rt_correlation reply) (rt_step reply) (rt_room context)
    (rt_turn_request_id context) result (rt_membership context).

Definition terminal_outcome (context : RoomTurnContext) (result : RoomResult) (player : PlayerId) : RoomOutcome :=
  mkRoomOutcome player 0 0 RoomTerminalNotification (rt_room context) 0 result (membershipFor (rt_routes context) player None).

Definition timer_effects (prepared : option PreparedRoomTimer) : list GameEffect :=
  match prepared with
  | Some timer => [ScheduleTimerEffect (prepared_deadline timer) (prepared_message timer) (Some (prepared_reservation timer))]
  | None => []
  end.

Definition room_reply_effects (context : RoomTurnContext) (result : RoomResult) : list GameEffect :=
  match rt_reply_to context with
  | Some reply => [TellActorEffect (player_key (rt_player reply)) (RoomOutcomeMessage (room_outcome context reply result))]
  | None =>
      match rt_connection context, rt_reply_kind context with
      | Some connection, Some kind =>
          [SendFrameEffect connection (encodeRoomReply kind (rt_room context) result (rt_turn_request_id context)) false]
      | _, _ => []
      end
  end.

Definition digest_effects (context : RoomTurnContext) (result : RoomResult) : list GameEffect :=
  if negb (has_value (rr_digest result)) then []
  else
    match encodeBattleDigest result UNSOLICITED_REQUEST_ID with
    | None => for_connected context id (fun _ connection => CloseConnectionEffect connection CloseSlowConsumer false) (rr_audience result)
    | Some frame => for_connected context id (fun _ connection => SendFrameEffect connection frame false) (rr_audience result)
    end.

Definition outcome_frames (context : RoomTurnContext) (result : RoomResult) (outcome : BattleOutcome) : list GameEffect :=
  match outcome with
  | OutcomeCleared =>
      for_connected context grant_player
        (fun grant connection => SendFrameEffect connection (encodeBattleCleared (grant_experience grant) UNSOLICITED_REQUEST_ID) false)
        (rr_grants result)
  | OutcomeFailed =>
      let frame := encodeBattleFailure result UNSOLICITED_REQUEST_ID in
      for_connected context id (fun _ connection => SendFrameEffect connection frame false) (rr_audience result)
  end.

Definition ending_effects (context : RoomTurnContext) (result : RoomResult) : list GameEffect :=
  match rr_outcome result with
  | Some outcome =>
      outcome_frames context result outcome
      ++ ((fun grant => TellActorEffect (player_key (grant_player grant)) (ExperienceGrantMessage grant)) <$> rr_grants result)
      ++ ((fun player => TellActorEffect (player_key player) (RoomOutcomeMessage (terminal_outcome context result player)))
            <$> rr_audience result)
      ++ [StopActorEffect]
  | None =>
      match rr_tick_after result with
      | Some tick_after => [ScheduleTimerEffect (after (rt_now context) tick_after) (RoomTickMessage (rt_room context) 1) None]
      | None => []
      end
  end.

Definition toEffects_room (context : RoomTurnContext) (result : RoomResult) (prepared : option PreparedRoomTimer) : option Batch :=
  push_all (timer_effects prepared ++ room_reply_effects context result ++ digest_effects context result ++ ending_effects context result) [].

(** ** Batches that fit *)

Lemma push_all_app es batch : zlen batch + zlen es <= 64 → push_all es batch = Some (batch ++ es).
Proof.
  revert batch. induction es as [|e es IH]; intros batch Hl; [by rewrite app_nil_r|]. unfold zlen in *. cbn [push_all length] in *.
  unfold effects_push, effects_tryPush. rewrite (proj2 (Z.leb_gt _ _)) by (unfold zlen; lia). cbn [mbind option_bind].
  rewrite IH by (rewrite length_app; cbn; lia). by rewrite <-app_assoc.
Qed.

Lemma push_all_spec es batch : zlen batch <= 64 → push_all es batch = if zlen batch + zlen es <=? 64 then Some (batch ++ es) else None.
Proof.
  intros Hb. destruct (Z.leb_spec (zlen batch + zlen es) 64); [by apply push_all_app|].
  revert batch Hb H. induction es as [|e es IH]; intros batch Hb Hl; unfold zlen in *; cbn [push_all length] in *; [lia|].
  unfold effects_push, effects_tryPush, zlen. destruct (64 <=? Z.of_nat (length batch)) eqn:E; [done|]. cbn [mbind option_bind]. to_prop.
  apply IH; rewrite length_app; cbn; lia.
Qed.

Lemma omap_length_le {A B} (f : A → option B) l : (length (omap f l) <= length l)%nat.
Proof. induction l as [|a l IH]; [done|]. cbn. destruct (f a); cbn; lia. Qed.

(** How many effects a room's turn has. *)
Lemma room_effects_bound context result prepared n :
  (length (rr_audience result) <= n)%nat → (length (rr_grants result) <= n)%nat →
  (length (timer_effects prepared ++ room_reply_effects context result ++ digest_effects context result ++ ending_effects context result)
   <= 3 + 4 * n)%nat.
Proof.
  intros Ha Hg. rewrite !length_app.
  assert (length (timer_effects prepared) <= 1)%nat by (destruct prepared; cbn; lia).
  assert (length (room_reply_effects context result) <= 1)%nat by (unfold room_reply_effects; repeat case_match; cbn; lia).
  assert (length (digest_effects context result) <= n)%nat.
  { unfold digest_effects, for_connected. repeat case_match; cbn; try lia; (etrans; [apply omap_length_le|lia]). }
  assert (length (ending_effects context result) <= 1 + 3 * n)%nat.
  { unfold ending_effects. destruct (rr_outcome result) as [o|]; [|case_match; cbn; lia]. rewrite !length_app, !length_fmap. cbn [length].
    assert (length (outcome_frames context result o) <= n)%nat; [|lia].
    unfold outcome_frames, for_connected. destruct o; (etrans; [apply omap_length_le|lia]). }
  lia.
Qed.
