(* ===== verification/ActorAdapters.v ===== *)
(** * Zone and room actors

    [src/src/adapter/zone_actor_adapter.cpp] and [room_actor_adapter.cpp]: a
    zone or a room as an actor of a worker.  A dispatch is a [Turn]: the room
    asks the worker for the timer of a battle's deadline before it starts the
    battle.

    [std::unordered_map] is a [gmap]; the order in which [routesOf] lists the
    routes is unspecified, and since a player has one route it does not matter. *)

From S2P Require Import Prelude FrameCodec Identity Skills Arena Zone RoomTypes Room Player Actor Encoder GameMessages.

(** The end of a turn: [CompletedTurn], or the exception of a full batch. *)
Definition completed {I T} (instance : I) (effects : option Batch) : Turn GameMessage I T :=
  match effects with Some es => TurnComplete instance es | None => TurnThrow end.

(** ** Zones *)

Definition zone_replyKind (command : ZoneCommand) : option ZoneReplyFrameKind :=
  match command with
  | EnterZoneCommand _ _ _ => Some ZoneReplyEntered
  | MoveInZoneCommand _ _ _ => Some ZoneReplyMoved
  | LeaveZoneCommand _ _ => Some ZoneReplyLeft
  | ZoneSimulationTick => None
  end.

(** [ZoneActorAdapter::dispatch]: the zone after the turn, and its effects. *)
Definition zone_dispatch (z : Zone) (m : GameMessage) (context : TurnContext) : Zone * option Batch :=
  match m with
  | ZoneCommandMessage connection request_id command reply_to =>
      let '(result, z') := zone_handle z command in
      (z', toEffects_zone
             (mkZoneTurn connection request_id (zone_id z') (zone_replyKind command) (turn_now context) (playerCount z' =? 0) reply_to) result)
  | ZoneTickMessage _ =>
      let '(result, z') := zone_handle z ZoneSimulationTick in
      (z', toEffects_zone (mkZoneTurn None 0 (zone_id z') None (turn_now context) (playerCount z' =? 0) None) result)
  | _ => (z, Some [])
  end.

(** The default [ZoneConfig]. *)
Definition default_zone_config : ZoneConfig := mkZoneConfig 1000 100.

(** ** Rooms *)

Notation "'MAX_ROOM_PARTICIPANTS'" := 4 : snf_scope.
Notation "'MAX_ROOM_EFFECTS'" := 17 : snf_scope.

Record RoomActorAdapter := mkRoomAdapter {
  ra_room : Room;
  ra_admission : bool;
  ra_connections : gmap PlayerId ConnectionRef;
  ra_memberships : gmap PlayerId RoomMembership
}.

Definition set_ra_room (r : Room) (a : RoomActorAdapter) : RoomActorAdapter :=
  mkRoomAdapter r (ra_admission a) (ra_connections a) (ra_memberships a).
Definition set_ra_connections (m : gmap PlayerId ConnectionRef) (a : RoomActorAdapter) : RoomActorAdapter :=
  mkRoomAdapter (ra_room a) (ra_admission a) m (ra_memberships a).
Definition set_ra_memberships (m : gmap PlayerId RoomMembership) (a : RoomActorAdapter) : RoomActorAdapter :=
  mkRoomAdapter (ra_room a) (ra_admission a) (ra_connections a) m.

(** [RoomActorAdapter::RoomActorAdapter] with [validatedConfig]; [admission]
    tells whether the pointer to the worker's timers is not null. *)
Definition makeRoomAdapter (room : RoomId) (admission : bool) (config : RoomConfig) : outcome RoomActorAdapter :=
  throw_if (MAX_ROOM_PARTICIPANTS <? max_participants config) InvalidArgument
  (let! r := makeRoom room config in Ret (mkRoomAdapter r admission ∅ ∅)).

Definition room_replyKind (command : RoomCommand) : option RoomReplyFrameKind :=
  match command with
  | JoinRoom _ _ _ => Some RoomReplyJoined
  | StartBattle => Some RoomReplyBattleStarted
  | UseSkill _ _ _ => Some RoomReplySkillAcknowledged
  | SetMoveIntent _ _ _ => Some RoomReplyMoveAcknowledged
  | _ => None
  end.

Definition routesOf (connections : gmap PlayerId ConnectionRef) (memberships : gmap PlayerId RoomMembership) : list RoomAudienceRoute :=
  ((fun '(player, connection) => mkAudienceRoute player (Some connection) (memberships !! player)) <$> map_to_list connections)
  ++ ((fun '(player, membership) => mkAudienceRoute player None (Some membership))
        <$> filter (fun entry => connections !! entry.1 = None) (map_to_list memberships)).

Definition is_start (command : RoomCommand) : bool := match command with StartBattle => true | _ => false end.

(** A leave that is not for the seat the player has now: a delayed cleanup of an
    old membership, or one without a membership for a seat that has one. *)
Definition stale_leave (a : RoomActorAdapter) (player : PlayerId) (membership : option RoomMembership) : bool :=
  match membership, ra_memberships a !! player with
  | Some given, Some found => negb (bool_decide (found = given))
  | Some _, None => true
  | None, Some _ => true
  | None, None => false
  end.

(** What a handled command changes in the adapter's tables. *)
Definition note_command (command : RoomCommand) (connection : option ConnectionRef) (membership : option RoomMembership) (result : RoomResult)
    (a : RoomActorAdapter) : RoomActorAdapter :=
  match command with
  | JoinRoom player _ _ =>
      let a1 := match membership with
                | Some given => if bool_decide (rr_status result = Applied)
                                then set_ra_memberships (<[player := given]> (ra_memberships a)) a else a
                | None => a
                end in
      match connection with
      | Some given => if bool_decide (rr_status result = Applied) || bool_decide (rr_status result = AlreadyJoined)
                      then set_ra_connections (<[player := given]> (ra_connections a1)) a1 else a1
      | None => a1
      end
  | LeaveRoom player =>
      if bool_decide (rr_status result = Applied)
      then set_ra_memberships (delete player (ra_memberships a)) (set_ra_connections (delete player (ra_connections a)) a) else a
  | _ => a
  end.

(** [RoomResult] with the default member initialisers. *)
Definition plain_room_result (status : RoomCommandStatus) (phase : RoomPhase) (player : option PlayerId) : RoomResult :=
  mkRoomResult status phase player None None 0 false None None None [] [].

Section room.
Context {T : Type} (chargedBytes : GameMessage → Z).

Abbreviation RoomTurn := (Turn GameMessage RoomActorAdapter T).

Definition room_context (a : RoomActorAdapter) (connection : option ConnectionRef) (request_id : Z) (kind : option RoomReplyFrameKind)
    (now : time_point) (reply_to : option WorkflowReplyTo) (membership : option RoomMembership) : RoomTurnContext :=
  mkRoomTurn connection request_id (room_id (ra_room a)) kind now (routesOf (ra_connections a) (ra_memberships a)) reply_to membership.

(** The turn that starts a battle: only with a reservation for its deadline. *)
Definition start_battle (a : RoomActorAdapter) (connection : option ConnectionRef) (request_id : Z) (reply_to : option WorkflowReplyTo)
    (membership : option RoomMembership) (context : TurnContext) : RoomTurn :=
  let deadline_msg := RoomDeadlineMessage (room_id (ra_room a)) 1 in
  let turn_context := room_context a connection request_id (Some RoomReplyBattleStarted) (turn_now context) reply_to membership in
  let go (reservation : option TimerReservation) : RoomTurn :=
    match reservation with
    | None => completed a (toEffects_room turn_context (plain_room_result RuntimeOverloaded (phase (ra_room a)) None) None)
    | Some r =>
        let '(result, room') := room_handle (ra_room a) StartBattle (turn_now context) in
        match rr_deadline_after result with
        | None => TurnThrow
        | Some deadline_after =>
            completed (set_ra_room room' a)
              (toEffects_room turn_context result (Some (mkPreparedTimer (after (turn_now context) deadline_after) deadline_msg r)))
        end
    end in
  if ra_admission a then TurnReserve (chargedBytes deadline_msg) (turn_id context) go else go None.

(** A command that needs no timer reserved first. *)
Definition plain_command (a : RoomActorAdapter) (connection : option ConnectionRef) (request_id : Z) (command : RoomCommand)
    (reply_to : option WorkflowReplyTo) (membership : option RoomMembership) (context : TurnContext) : RoomTurn :=
  let '(result, room') := room_handle (ra_room a) command (turn_now context) in
  let a' := note_command command connection membership result (set_ra_room room' a) in
  completed a'
    (toEffects_room (room_context a' connection request_id (room_replyKind command) (turn_now context) reply_to membership) result None).

(** A turn of a timer. *)
Definition timer_turn (a : RoomActorAdapter) (room : RoomId) (command : RoomCommand) (context : TurnContext) : RoomTurn :=
  if negb (room =? room_id (ra_room a)) then TurnThrow
  else
    let turn_context := room_context a None 0 None (turn_now context) None None in
    let '(result, room') := room_handle (ra_room a) command (turn_now context) in
    completed (set_ra_room room' a) (toEffects_room turn_context result None).

(** [RoomActorAdapter::dispatch]. *)
Definition room_dispatch (a : RoomActorAdapter) (m : GameMessage) (context : TurnContext) : RoomTurn :=
  match m with
  | RoomCommandMessage connection request_id command reply_to membership =>
      match command with
      | LeaveRoom player =>
          if stale_leave a player membership then
            completed a
              (toEffects_room (mkRoomTurn None request_id (room_id (ra_room a)) None (turn_now context) [] reply_to membership)
                 (plain_room_result NotJoined (phase (ra_room a)) (Some player)) None)
          else plain_command a connection request_id command reply_to membership context
      | _ =>
          if is_start command && canStartBattle (ra_room a) then start_battle a connection request_id reply_to membership context
          else plain_command a connection request_id command reply_to membership context
      end
  | RoomDeadlineMessage room _ => timer_turn a room BattleDeadline context
  | RoomTickMessage room _ => timer_turn a room RoomSimulationTick context
  | _ => TurnComplete a []
  end.
End room.
