(* ===== verification/PlayerAdapter.v ===== *)
(** * Player actors

    [src/src/adapter/player_actor_adapter.cpp] and [player_actor_adapter.hpp]: a
    player as an actor of a worker.  The adapter routes its player between zones
    and battle rooms, which are other actors, perhaps of other workers: every
    move is a sequence of messages whose answers may be late or lost, guarded by
    timers, and whatever the player may have left behind is cleaned up until the
    other actor confirms it.

    A turn of the adapter is a [Script]: it may throw and it may ask the worker
    for timer reservations, which are given back when the object that holds them
    is destroyed.  The script threads the adapter and the batch of effects built
    so far.  The bytes a message is charged are a parameter, as for the worker.

    [_cleanups] is the array of optionals as a list of [MAX_CLEANUPS] options. *)

From S2P Require Import Prelude FrameCodec Identity Skills Arena Zone RoomTypes Room Player Actor Encoder GameMessages ActorAdapters.

(** ** Routes *)

Record EnteringRoute := mkEntering {
  en_target_room : RoomId;
  en_source_zone : ZoneId;
  en_source_epoch : Z;
  en_return_position : ZonePosition;
  en_request_id : Z;
  en_correlation_id : Z;
  en_step : WorkflowStep
}.

Record InRoomRoute := mkInRoom { ir_room : RoomId; ir_return_zone : ZoneId; ir_return_position : ZonePosition }.

Record ReturningRoute := mkReturning {
  re_source_room : RoomId;
  re_return_zone : ZoneId;
  re_return_position : ZonePosition;
  re_return_epoch : Z;
  re_request_id : Z;
  re_correlation_id : Z;
  re_step : WorkflowStep
}.

Record TransferringRoute := mkTransferring {
  xf_source_zone : ZoneId;
  xf_source_epoch : Z;
  xf_source_position : ZonePosition;
  xf_target_zone : ZoneId;
  xf_target_epoch : Z;
  xf_target_position : ZonePosition;
  xf_restore_epoch : Z;
  xf_request_id : Z;
  xf_correlation_id : Z;
  xf_step : WorkflowStep
}.

Inductive WorkflowState :=
| StableRoute (zone : option ZoneId)
| Entering (route : EnteringRoute)
| RouteInRoom (route : InRoomRoute)
| Returning (route : ReturningRoute)
| Transferring (route : TransferringRoute).

Record PendingZoneOperation := mkPendingOp {
  op_correlation_id : Z;
  op_step : WorkflowStep;
  op_target_zone : ZoneId;
  op_target_epoch : Z;
  op_request_id : Z
}.

Record Cleanup := mkCleanup {
  cl_target : ActorKey;
  cl_epoch : Z;
  cl_correlation : Z;
  cl_generation : ConnectionGeneration;
  cl_membership : option RoomMembership
}.

Definition WORKFLOW_TIMEOUT : milliseconds := 1000.
Definition CLEANUP_RETRY : milliseconds := 10.
Definition DEFAULT_SAVE_INTERVAL : milliseconds := 5000.
Definition MAX_CLEANUPS : nat := 19.
Definition MAX_PENDING_ZONE_OPS : Z := 16.

(** ** The adapter *)

Record PlayerActorAdapter := mkPlayerAdapter {
  pa_player : Player;
  pa_admission : bool;
  pa_bound : option ConnectionRef;
  pa_closing : bool;
  pa_workflow : WorkflowState;
  pa_route_epoch : Z;
  pa_correlation : Z;
  pa_pending : list PendingZoneOperation;
  pa_conflicts : Z;
  pa_save_interval : milliseconds;
  pa_save_scheduled : bool;
  pa_committed_saves : Z;
  pa_unknown_commits : Z;
  pa_cleanups : list (option Cleanup);
  pa_cleanup_count : Z;
  pa_cleanup_sequence : Z;
  pa_cleanup_deadline : option time_point;
  pa_membership : option RoomMembership;
  pa_deferred : option ZoneOutcome;
  pa_shutdown : bool;
  pa_final_started : bool;
  pa_final_finished : bool;
  pa_final_failed : bool
}.

Definition set_pa_player (x : Player) (a : PlayerActorAdapter) : PlayerActorAdapter :=
  mkPlayerAdapter x (pa_admission a) (pa_bound a) (pa_closing a) (pa_workflow a) (pa_route_epoch a) (pa_correlation a) (pa_pending a)
    (pa_conflicts a) (pa_save_interval a) (pa_save_scheduled a) (pa_committed_saves a) (pa_unknown_commits a) (pa_cleanups a)
    (pa_cleanup_count a) (pa_cleanup_sequence a) (pa_cleanup_deadline a) (pa_membership a) (pa_deferred a) (pa_shutdown a)
    (pa_final_started a) (pa_final_finished a) (pa_final_failed a).
Definition set_pa_bound (x : option ConnectionRef) (a : PlayerActorAdapter) : PlayerActorAdapter :=
  mkPlayerAdapter (pa_player a) (pa_admission a) x (pa_closing a) (pa_workflow a) (pa_route_epoch a) (pa_correlation a) (pa_pending a)
    (pa_conflicts a) (pa_save_interval a) (pa_save_scheduled a) (pa_committed_saves a) (pa_unknown_commits a) (pa_cleanups a)
    (pa_cleanup_count a) (pa_cleanup_sequence a) (pa_cleanup_deadline a) (pa_membership a) (pa_deferred a) (pa_shutdown a)
    (pa_final_started a) (pa_final_finished a) (pa_final_failed a).
Definition set_pa_closing (x : bool) (a : PlayerActorAdapter) : PlayerActorAdapter :=
  mkPlayerAdapter (pa_player a) (pa_admission a) (pa_bound a) x (pa_workflow a) (pa_route_epoch a) (pa_correlation a) (pa_pending a)
    (pa_conflicts a) (pa_save_interval a) (pa_save_scheduled a) (pa_committed_saves a) (pa_unknown_commits a) (pa_cleanups a)
    (pa_cleanup_count a) (pa_cleanup_sequence a) (pa_cleanup_deadline a) (pa_membership a) (pa_deferred a) (pa_shutdown a)
    (pa_final_started a) (pa_final_finished a) (pa_final_failed a).
Definition set_pa_workflow (x : WorkflowState) (a : PlayerActorAdapter) : PlayerActorAdapter :=
  mkPlayerAdapter (pa_player a) (pa_admission a) (pa_bound a) (pa_closing a) x (pa_route_epoch a) (pa_correlation a) (pa_pending a)
    (pa_conflicts a) (pa_save_interval a) (pa_save_scheduled a) (pa_committed_saves a) (pa_unknown_commits a) (pa_cleanups a)
    (pa_cleanup_count a) (pa_cleanup_sequence a) (pa_cleanup_deadline a) (pa_membership a) (pa_deferred a) (pa_shutdown a)
    (pa_final_started a) (pa_final_finished a) (pa_final_failed a).
Definition set_pa_route_epoch (x : Z) (a : PlayerActorAdapter) : PlayerActorAdapter :=
  mkPlayerAdapter (pa_player a) (pa_admission a) (pa_bound a) (pa_closing a) (pa_workflow a) x (pa_correlation a) (pa_pending a)
    (pa_conflicts a) (pa_save_interval a) (pa_save_scheduled a) (pa_committed_saves a) (pa_unknown_commits a) (pa_cleanups a)
    (pa_cleanup_count a) (pa_cleanup_sequence a) (pa_cleanup_deadline a) (pa_membership a) (pa_deferred a) (pa_shutdown a)
    (pa_final_started a) (pa_final_finished a) (pa_final_failed a).
Definition set_pa_correlation (x : Z) (a : PlayerActorAdapter) : PlayerActorAdapter :=
  mkPlayerAdapter (pa_player a) (pa_admission a) (pa_bound a) (pa_closing a) (pa_workflow a) (pa_route_epoch a) x (pa_pending a)
    (pa_conflicts a) (pa_save_interval a) (pa_save_scheduled a) (pa_committed_saves a) (pa_unknown_commits a) (pa_cleanups a)
    (pa_cleanup_count a) (pa_cleanup_sequence a) (pa_cleanup_deadline a) (pa_membership a) (pa_deferred a) (pa_shutdown a)
    (pa_final_started a) (pa_final_finished a) (pa_final_failed a).
Definition set_pa_pending (x : list PendingZoneOperation) (a : PlayerActorAdapter) : PlayerActorAdapter :=
  mkPlayerAdapter (pa_player a) (pa_admission a) (pa_bound a) (pa_closing a) (pa_workflow a) (pa_route_epoch a) (pa_correlation a) x
    (pa_conflicts a) (pa_save_interval a) (pa_save_scheduled a) (pa_committed_saves a) (pa_unknown_commits a) (pa_cleanups a)
    (pa_cleanup_count a) (pa_cleanup_sequence a) (pa_cleanup_deadline a) (pa_membership a) (pa_deferred a) (pa_shutdown a)
    (pa_final_started a) (pa_final_finished a) (pa_final_failed a).
Definition set_pa_conflicts (x : Z) (a : PlayerActorAdapter) : PlayerActorAdapter :=
  mkPlayerAdapter (pa_player a) (pa_admission a) (pa_bound a) (pa_closing a) (pa_workflow a) (pa_route_epoch a) (pa_correlation a)
    (pa_pending a) x (pa_save_interval a) (pa_save_scheduled a) (pa_committed_saves a) (pa_unknown_commits a) (pa_cleanups a)
    (pa_cleanup_count a) (pa_cleanup_sequence a) (pa_cleanup_deadline a) (pa_membership a) (pa_deferred a) (pa_shutdown a)
    (pa_final_started a) (pa_final_finished a) (pa_final_failed a).
Definition set_pa_save_interval (x : milliseconds) (a : PlayerActorAdapter) : PlayerActorAdapter :=
  mkPlayerAdapter (pa_player a) (pa_admission a) (pa_bound a) (pa_closing a) (pa_workflow a) (pa_route_epoch a) (pa_correlation a)
    (pa_pending a) (pa_conflicts a) x (pa_save_scheduled a) (pa_committed_saves a) (pa_unknown_commits a) (pa_cleanups a)
    (pa_cleanup_count a) (pa_cleanup_sequence a) (pa_cleanup_deadline a) (pa_membership a) (pa_deferred a) (pa_shutdown a)
    (pa_final_started a) (pa_final_finished a) (pa_final_failed a).
Definition set_pa_save_scheduled (x : bool) (a : PlayerActorAdapter) : PlayerActorAdapter :=
  mkPlayerAdapter (pa_player a) (pa_admission a) (pa_bound a) (pa_closing a) (pa_workflow a) (pa_route_epoch a) (pa_correlation a)
    (pa_pending a) (pa_conflicts a) (pa_save_interval a) x (pa_committed_saves a) (pa_unknown_commits a) (pa_cleanups a)
    (pa_cleanup_count a) (pa_cleanup_sequence a) (pa_cleanup_deadline a) (pa_membership a) (pa_deferred a) (pa_shutdown a)
    (pa_final_started a) (pa_final_finished a) (pa_final_failed a).
Definition set_pa_committed_saves (x : Z) (a : PlayerActorAdapter) : PlayerActorAdapter :=
  mkPlayerAdapter (pa_player a) (pa_admission a) (pa_bound a) (pa_closing a) (pa_workflow a) (pa_route_epoch a) (pa_correlation a)
    (pa_pending a) (pa_conflicts a) (pa_save_interval a) (pa_save_scheduled a) x (pa_unknown_commits a) (pa_cleanups a)
    (pa_cleanup_count a) (pa_cleanup_sequence a) (pa_cleanup_deadline a) (pa_membership a) (pa_deferred a) (pa_shutdown a)
    (pa_final_started a) (pa_final_finished a) (pa_final_failed a).
Definition set_pa_unknown_commits (x : Z) (a : PlayerActorAdapter) : PlayerActorAdapter :=
  mkPlayerAdapter (pa_player a) (pa_admission a) (pa_bound a) (pa_closing a) (pa_workflow a) (pa_route_epoch a) (pa_correlation a)
    (pa_pending a) (pa_conflicts a) (pa_save_interval a) (pa_save_scheduled a) (pa_committed_saves a) x (pa_cleanups a)
    (pa_cleanup_count a) (pa_cleanup_sequence a) (pa_cleanup_deadline a) (pa_membership a) (pa_deferred a) (pa_shutdown a)
    (pa_final_started a) (pa_final_finished a) (pa_final_failed a).
Definition set_pa_cleanups (x : list (option Cleanup)) (a : PlayerActorAdapter) : PlayerActorAdapter :=
  mkPlayerAdapter (pa_player a) (pa_admission a) (pa_bound a) (pa_closing a) (pa_workflow a) (pa_route_epoch a) (pa_correlation a)
    (pa_pending a) (pa_conflicts a) (pa_save_interval a) (pa_save_scheduled a) (pa_committed_saves a) (pa_unknown_commits a) x
    (pa_cleanup_count a) (pa_cleanup_sequence a) (pa_cleanup_deadline a) (pa_membership a) (pa_deferred a) (pa_shutdown a)
    (pa_final_started a) (pa_final_finished a) (pa_final_failed a).
Definition set_pa_cleanup_count (x : Z) (a : PlayerActorAdapter) : PlayerActorAdapter :=
  mkPlayerAdapter (pa_player a) (pa_admission a) (pa_bound a) (pa_closing a) (pa_workflow a) (pa_route_epoch a) (pa_correlation a)
    (pa_pending a) (pa_conflicts a) (pa_save_interval a) (pa_save_scheduled a) (pa_committed_saves a) (pa_unknown_commits a)
    (pa_cleanups a) x (pa_cleanup_sequence a) (pa_cleanup_deadline a) (pa_membership a) (pa_deferred a) (pa_shutdown a)
    (pa_final_started a) (pa_final_finished a) (pa_final_failed a).
Definition set_pa_cleanup_sequence (x : Z) (a : PlayerActorAdapter) : PlayerActorAdapter :=
  mkPlayerAdapter (pa_player a) (pa_admission a) (pa_bound a) (pa_closing a) (pa_workflow a) (pa_route_epoch a) (pa_correlation a)
    (pa_pending a) (pa_conflicts a) (pa_save_interval a) (pa_save_scheduled a) (pa_committed_saves a) (pa_unknown_commits a)
    (pa_cleanups a) (pa_cleanup_count a) x (pa_cleanup_deadline a) (pa_membership a) (pa_deferred a) (pa_shutdown a)
    (pa_final_started a) (pa_final_finished a) (pa_final_failed a).
Definition set_pa_cleanup_deadline (x : option time_point) (a : PlayerActorAdapter) : PlayerActorAdapter :=
  mkPlayerAdapter (pa_player a) (pa_admission a) (pa_bound a) (pa_closing a) (pa_workflow a) (pa_route_epoch a) (pa_correlation a)
    (pa_pending a) (pa_conflicts a) (pa_save_interval a) (pa_save_scheduled a) (pa_committed_saves a) (pa_unknown_commits a)
    (pa_cleanups a) (pa_cleanup_count a) (pa_cleanup_sequence a) x (pa_membership a) (pa_deferred a) (pa_shutdown a)
    (pa_final_started a) (pa_final_finished a) (pa_final_failed a).
Definition set_pa_membership (x : option RoomMembership) (a : PlayerActorAdapter) : PlayerActorAdapter :=
  mkPlayerAdapter (pa_player a) (pa_admission a) (pa_bound a) (pa_closing a) (pa_workflow a) (pa_route_epoch a) (pa_correlation a)
    (pa_pending a) (pa_conflicts a) (pa_save_interval a) (pa_save_scheduled a) (pa_committed_saves a) (pa_unknown_commits a)
    (pa_cleanups a) (pa_cleanup_count a) (pa_cleanup_sequence a) (pa_cleanup_deadline a) x (pa_deferred a) (pa_shutdown a)
    (pa_final_started a) (pa_final_finished a) (pa_final_failed a).
Definition set_pa_deferred (x : option ZoneOutcome) (a : PlayerActorAdapter) : PlayerActorAdapter :=
  mkPlayerAdapter (pa_player a) (pa_admission a) (pa_bound a) (pa_closing a) (pa_workflow a) (pa_route_epoch a) (pa_correlation a)
    (pa_pending a) (pa_conflicts a) (pa_save_interval a) (pa_save_scheduled a) (pa_committed_saves a) (pa_unknown_commits a)
    (pa_cleanups a) (pa_cleanup_count a) (pa_cleanup_sequence a) (pa_cleanup_deadline a) (pa_membership a) x (pa_shutdown a)
    (pa_final_started a) (pa_final_finished a) (pa_final_failed a).
Definition set_pa_shutdown (x : bool) (a : PlayerActorAdapter) : PlayerActorAdapter :=
  mkPlayerAdapter (pa_player a) (pa_admission a) (pa_bound a) (pa_closing a) (pa_workflow a) (pa_route_epoch a) (pa_correlation a)
    (pa_pending a) (pa_conflicts a) (pa_save_interval a) (pa_save_scheduled a) (pa_committed_saves a) (pa_unknown_commits a)
    (pa_cleanups a) (pa_cleanup_count a) (pa_cleanup_sequence a) (pa_cleanup_deadline a) (pa_membership a) (pa_deferred a) x
    (pa_final_started a) (pa_final_finished a) (pa_final_failed a).
Definition set_pa_final_started (x : bool) (a : PlayerActorAdapter) : PlayerActorAdapter :=
  mkPlayerAdapter (pa_player a) (pa_admission a) (pa_bound a) (pa_closing a) (pa_workflow a) (pa_route_epoch a) (pa_correlation a)
    (pa_pending a) (pa_conflicts a) (pa_save_interval a) (pa_save_scheduled a) (pa_committed_saves a) (pa_unknown_commits a)
    (pa_cleanups a) (pa_cleanup_count a) (pa_cleanup_sequence a) (pa_cleanup_deadline a) (pa_membership a) (pa_deferred a)
    (pa_shutdown a) x (pa_final_finished a) (pa_final_failed a).
Definition set_pa_final_finished (x : bool) (a : PlayerActorAdapter) : PlayerActorAdapter :=
  mkPlayerAdapter (pa_player a) (pa_admission a) (pa_bound a) (pa_closing a) (pa_workflow a) (pa_route_epoch a) (pa_correlation a)
    (pa_pending a) (pa_conflicts a) (pa_save_interval a) (pa_save_scheduled a) (pa_committed_saves a) (pa_unknown_commits a)
    (pa_cleanups a) (pa_cleanup_count a) (pa_cleanup_sequence a) (pa_cleanup_deadline a) (pa_membership a) (pa_deferred a)
    (pa_shutdown a) (pa_final_started a) x (pa_final_failed a).
Definition set_pa_final_failed (x : bool) (a : PlayerActorAdapter) : PlayerActorAdapter :=
  mkPlayerAdapter (pa_player a) (pa_admission a) (pa_bound a) (pa_closing a) (pa_workflow a) (pa_route_epoch a) (pa_correlation a)
    (pa_pending a) (pa_conflicts a) (pa_save_interval a) (pa_save_scheduled a) (pa_committed_saves a) (pa_unknown_commits a)
    (pa_cleanups a) (pa_cleanup_count a) (pa_cleanup_sequence a) (pa_cleanup_deadline a) (pa_membership a) (pa_deferred a)
    (pa_shutdown a) (pa_final_started a) (pa_final_finished a) x.

Definition player_identity (a : PlayerActorAdapter) : option PlayerId := identity (session (state (pa_player a))).
Definition lastLocation (a : PlayerActorAdapter) : option PlayerLocation := last_location (session (state (pa_player a))).

(** The constructors: a fresh player, and one built from its record. *)
Definition fresh_adapter (p : Player) (admission : bool) : PlayerActorAdapter :=
  mkPlayerAdapter p admission None false (StableRoute None) 0 0 [] 0 DEFAULT_SAVE_INTERVAL false 0 0 (repeat None MAX_CLEANUPS) 0 0 None None
    None false false false false.

Definition makePlayerAdapter (player : option PlayerId) (admission : bool) : outcome PlayerActorAdapter :=
  let! p := makePlayer player DEFAULT_PURCHASE_IDEMPOTENCY_CAPACITY in Ret (fresh_adapter p admission).

Definition loadPlayerAdapter (player : PlayerId) (record : PlayerRecord) (admission : bool) : outcome PlayerActorAdapter :=
  let! p := makePlayer (Some player) DEFAULT_PURCHASE_IDEMPOTENCY_CAPACITY in
  let! p' := restore p record in Ret (fresh_adapter p' admission).

Definition currentZone (a : PlayerActorAdapter) : option ZoneId :=
  match pa_workflow a with StableRoute zone => zone | _ => None end.
Definition isInRoom (a : PlayerActorAdapter) : bool := match pa_workflow a with RouteInRoom _ => true | _ => false end.

Definition isClosingConnection (a : PlayerActorAdapter) (connection : ConnectionRef) : bool :=
  pa_closing a && bool_decide (pa_bound a = Some connection).
Definition isClosingOptional (a : PlayerActorAdapter) (connection : option ConnectionRef) : bool :=
  match connection with Some c => isClosingConnection a c | None => false end.

(** ** Scripts *)

Inductive Script (A : Type) :=
| SThrow
| SRet (x : A)
| SReserve (charged_bytes turn : Z) (k : option TimerReservation → Script A)
| SDrop (r : TimerReservation) (k : Script A).
Arguments SThrow {A}.
Arguments SRet {A} x.
Arguments SReserve {A} charged_bytes turn k.
Arguments SDrop {A} r k.

Fixpoint script_bind {A B} (f : A → Script B) (s : Script A) : Script B :=
  match s with
  | SThrow => SThrow
  | SRet x => f x
  | SReserve c t k => SReserve c t (fun r => script_bind f (k r))
  | SDrop r k => SDrop r (script_bind f k)
  end.

Definition PM (A : Type) : Type := PlayerActorAdapter → Batch → Script (A * PlayerActorAdapter * Batch).

#[export] Instance PM_ret : MRet PM := fun _ x a es => SRet (x, a, es).
#[export] Instance PM_bind : MBind PM := fun _ _ f m a es => script_bind (fun '(x, a', es') => f x a' es') (m a es).

Definition this : PM PlayerActorAdapter := fun a es => SRet (a, a, es).
Definition update (f : PlayerActorAdapter → PlayerActorAdapter) : PM () := fun a es => SRet (tt, f a, es).
Definition push_effect (e : GameEffect) : PM () := fun a es =>
  match effects_push e es with Some es' => SRet (tt, a, es') | None => SThrow end.
Definition lift {A} (o : outcome A) : PM A := fun a es => match o with Ret x => SRet (x, a, es) | Throw _ => SThrow end.
Definition reserve_timer (charge turn : Z) : PM (option TimerReservation) := fun a es => SReserve charge turn (fun r => SRet (r, a, es)).

(** The effects made so far, taken out of the result; and their destruction. *)
Definition take_effects : PM Batch := fun a es => SRet (es, a, []).
Fixpoint drop_all (rs : list TimerReservation) (k : Script (() * PlayerActorAdapter * Batch)) : Script (() * PlayerActorAdapter * Batch) :=
  match rs with [] => k | r :: rest => SDrop r (drop_all rest k) end.
Definition destroy_effects (old : Batch) : PM () := fun a es => drop_all (omap effect_reservation old) (SRet (tt, a, es)).

Fixpoint push_each (es : list GameEffect) : PM () :=
  match es with [] => mret () | e :: rest => push_effect e;; push_each rest end.

(** The coroutine of a save, suspended on its request. *)
Record SaveTask := mkSaveTask { save_request : SavePlayerRequest; save_cleared : Z }.

Inductive TurnEnd := Completed | Suspended (task : SaveTask).

Fixpoint toTurn (s : Script (TurnEnd * PlayerActorAdapter * Batch)) : Turn GameMessage PlayerActorAdapter SaveTask :=
  match s with
  | SThrow => TurnThrow
  | SRet (Completed, a, es) => TurnComplete a es
  | SRet (Suspended task, a, _) => TurnSuspend a task
  | SReserve c t k => TurnReserve c t (fun r => toTurn (k r))
  | SDrop r k => TurnDrop r (toTurn k)
  end.

(** ** Saves *)

Definition toSaveRequest (r : PlayerRecord) : SavePlayerRequest :=
  let location (f : PlayerLocation → Z) := match rec_last_location r with Some l => f l | None => 0 end in
  mkSavePlayer (rec_player r) (rec_handled_command_count r) (has_value (rec_last_location r)) (location loc_zone)
    (location (fun l => zone_x (loc_position l))) (location (fun l => zone_y (loc_position l)))
    (rec_currency_balance r) (rec_purchased_item_count r) (rec_street_experience r)
    (equipped_skill_id (rec_skill_loadout r)) (owned_skill_ids (rec_skill_loadout r)).

Definition scheduleSaveIfDirty (now : time_point) : PM () :=
  a ← this;
  match player_identity a with
  | Some player =>
      if pa_shutdown a || pa_save_scheduled a || negb (hasFlushableDirtyState (pa_player a)) then mret ()
      else update (set_pa_save_scheduled true);; push_effect (ScheduleTimerEffect (after now (pa_save_interval a)) (PlayerSaveMessage player) None)
  | None => mret ()
  end.

Definition committed (result : DbResult) : bool := match result with SaveResult Committed => true | _ => false end.

Definition onSaveCompleted (a : PlayerActorAdapter) (result : DbResult) (cleared : Z) : PlayerActorAdapter :=
  let a1 := set_pa_save_scheduled false a in
  let a2 := if pa_final_started a1 then set_pa_final_failed (negb (committed result)) (set_pa_final_finished true a1) else a1 in
  match result with
  | SaveResult Committed => set_pa_committed_saves (u64 (pa_committed_saves a2 + 1)) a2
  | SaveResult FailedBeforeCommit => set_pa_player (restoreDirtyComponents (pa_player a2) cleared) a2
  | SaveResult CommitOutcomeUnknown => set_pa_unknown_commits (u64 (pa_unknown_commits a2 + 1)) a2
  | _ => set_pa_player (restoreDirtyComponents (pa_player a2) cleared) a2
  end.

(** ** Common replies *)

Definition close_connection (c : ConnectionRef) : PM () := push_effect (CloseConnectionEffect c CloseApplication true).

Definition send_frame (c : ConnectionRef) (f : Frame) : PM () := push_effect (SendFrameEffect c f false).

(** The answer the adapter gives itself to a request about a zone. *)
Definition zone_answer (a : PlayerActorAdapter) (status : ZoneCommandStatus) : ZoneResult :=
  mkZoneResult status (player_identity a) None (pa_route_epoch a) 0 [] None.

Definition answer_zone (c : ConnectionRef) (kind : ZoneReplyFrameKind) (zone : ZoneId) (status : ZoneCommandStatus) (request_id : Z) : PM TurnEnd :=
  a ← this; send_frame c (encodeZoneReply kind zone (zone_answer a status) request_id);; mret Completed.

Definition answer_join (c : ConnectionRef) (room : RoomId) (status : RoomCommandStatus) (request_id : Z) : PM () :=
  send_frame c (encodeRoomReply RoomReplyJoined room (plain_room_result status Waiting None) request_id).

Definition tell_leave_zone (player : PlayerId) (zone : ZoneId) (epoch : Z) : GameEffect :=
  TellActorEffect (zone_key zone) (ZoneCommandMessage None 0 (LeaveZoneCommand player epoch) None).
Definition tell_leave_room (player : PlayerId) (room : RoomId) : GameEffect :=
  TellActorEffect (room_key room) (RoomCommandMessage None 0 (LeaveRoom player) None None).

(** A command to a zone whose outcome this actor awaits. *)
Definition ask_zone (zone : ZoneId) (command : ZoneCommand) (reply : WorkflowReplyTo) : GameEffect :=
  TellActorEffect (zone_key zone) (ZoneCommandMessage None (rt_request_id reply) command (Some reply)).

Section player.
Context (chargedBytes : GameMessage → Z).

(** A step guarded by a timer: with [_timer_admission] the timer is reserved
    first, and without a reservation the step is not taken. *)
Definition with_timer {A} (timeout : GameMessage) (context : TurnContext) (refused : PM A) (go : option TimerReservation → PM A) : PM A :=
  a ← this;
  if pa_admission a then
    reservation ← reserve_timer (chargedBytes timeout) (turn_id context);
    match reservation with Some r => go (Some r) | None => refused end
  else go None.

Definition schedule_timeout (timeout : GameMessage) (context : TurnContext) (reservation : option TimerReservation) : PM () :=
  match reservation with
  | Some r => push_effect (ScheduleTimerEffect (after (turn_now context) WORKFLOW_TIMEOUT) timeout (Some r))
  | None => mret ()
  end.

(** [++_correlation_sequence]. *)
Definition next_correlation : PM Z :=
  update (fun a => set_pa_correlation (u64 (pa_correlation a + 1)) a);; a ← this; mret (pa_correlation a).

(** ** Cleanups *)

Definition cleanupMessage (player : PlayerId) (c : Cleanup) : GameMessage :=
  match key_kind (cl_target c) with
  | KindZone =>
      ZoneCommandMessage None 0 (LeaveZoneCommand player (cl_epoch c))
        (Some (mkReplyTo player (cl_generation c) (cl_correlation c) CleanupZone (cl_epoch c) 0))
  | _ =>
      RoomCommandMessage None 0 (LeaveRoom player)
        (Some (mkReplyTo player (cl_generation c) (cl_correlation c) CleanupRoom (cl_epoch c) 0)) (cl_membership c)
  end.

(** The same debt: the correlation and the generation aside. *)
Definition same_debt (c d : Cleanup) : bool :=
  bool_decide (cl_target c = cl_target d) && (cl_epoch c =? cl_epoch d) && bool_decide (cl_membership c = cl_membership d).

Fixpoint last_match (p : Cleanup → bool) (i : nat) (slots : list (option Cleanup)) (selected : option nat) : option nat :=
  match slots with
  | [] => selected
  | slot :: rest => last_match p (S i) rest (match slot with Some c => if p c then Some i else selected | None => selected end)
  end.

Fixpoint first_free (i : nat) (slots : list (option Cleanup)) : option nat :=
  match slots with
  | [] => None
  | None :: _ => Some i
  | Some _ :: rest => first_free (S i) rest
  end.

(** What a message leaves to clean up: a leave nobody answers to. *)
Definition debt_of (a : PlayerActorAdapter) (target : ActorKey) (m : GameMessage) : option Cleanup :=
  match m with
  | ZoneCommandMessage _ _ (LeaveZoneCommand _ epoch) None => Some (mkCleanup target epoch 0 0 None)
  | RoomCommandMessage _ _ (LeaveRoom _) None _ => Some (mkCleanup target 0 0 0 (pa_membership a))
  | _ => None
  end.

(** A join whose outcome is awaited starts a membership. *)
Definition note_membership (context : TurnContext) (a : PlayerActorAdapter) (m : GameMessage) : PlayerActorAdapter * GameMessage :=
  match m with
  | RoomCommandMessage connection request_id (JoinRoom p st sk) (Some reply) _ =>
      let membership := Some (mkMembership (activation_incarnation (turn_activation context)) (rt_correlation reply)) in
      (set_pa_membership membership a, RoomCommandMessage connection request_id (JoinRoom p st sk) (Some reply) membership)
  | _ => (a, m)
  end.

(** The slot of a debt: the one that has it already, or the first free one,
    which it takes.  [None]: [std::logic_error], no free slot. *)
Definition take_slot (a : PlayerActorAdapter) (debt : Cleanup) : option (PlayerActorAdapter * nat) :=
  match last_match (same_debt debt) 0 (pa_cleanups a) None with
  | Some i => Some (a, i)
  | None =>
      i ← first_free 0 (pa_cleanups a);
      let sequence := u64 (pa_cleanup_sequence a + 1) in
      let generation := match pa_bound a with Some c => cref_generation c | None => 0 end in
      let c := mkCleanup (cl_target debt) (cl_epoch debt) sequence generation (cl_membership debt) in
      Some (set_pa_cleanup_count (u64 (pa_cleanup_count a + 1))
              (set_pa_cleanup_sequence sequence (set_pa_cleanups (<[i := Some c]> (pa_cleanups a)) a)), i)
  end.

Definition arm_cleanup (now : time_point) (a : PlayerActorAdapter) : PlayerActorAdapter :=
  match pa_cleanup_deadline a with
  | None => set_pa_cleanup_deadline (Some (after now CLEANUP_RETRY)) a
  | Some _ => a
  end.

Definition prepare_effect (context : TurnContext) (player : PlayerId) (a : PlayerActorAdapter) (e : GameEffect)
    : option (PlayerActorAdapter * GameEffect) :=
  match e with
  | TellActorEffect target m =>
      let '(a1, m1) := note_membership context a m in
      match debt_of a1 target m1 with
      | None => Some (a1, TellActorEffect target m1)
      | Some debt =>
          '(a2, i) ← take_slot a1 debt;
          c ← mjoin (pa_cleanups a2 !! i);
          Some (arm_cleanup (turn_now context) a2, TellActorEffect target (cleanupMessage player c))
      end
  | _ => Some (a, e)
  end.

Fixpoint prepare_loop (context : TurnContext) (player : PlayerId) (a : PlayerActorAdapter) (es : Batch) : option (PlayerActorAdapter * Batch) :=
  match es with
  | [] => Some (a, [])
  | e :: rest =>
      '(a1, e1) ← prepare_effect context player a e;
      '(a2, rest2) ← prepare_loop context player a1 rest;
      Some (a2, e1 :: rest2)
  end.

(** [prepareLifecycleEffects]. *)
Definition prepareLifecycleEffects (context : TurnContext) : PM () := fun a es =>
  match player_identity a with
  | None => SRet (tt, a, es)
  | Some player => match prepare_loop context player a es with Some (a', es') => SRet (tt, a', es') | None => SThrow end
  end.

Definition releaseCleanup (i : nat) (a : PlayerActorAdapter) : PlayerActorAdapter :=
  let a1 := set_pa_cleanup_count (u64 (pa_cleanup_count a - 1)) (set_pa_cleanups (<[i := None]> (pa_cleanups a)) a) in
  if pa_cleanup_count a1 =? 0 then set_pa_cleanup_deadline None a1 else a1.

(** The first cleanup an outcome is about. *)
Fixpoint first_match (p : Cleanup → bool) (i : nat) (slots : list (option Cleanup)) : option nat :=
  match slots with
  | [] => None
  | Some c :: rest => if p c then Some i else first_match p (S i) rest
  | None :: rest => first_match p (S i) rest
  end.

(** The player an outcome names is this one, or it names none. *)
Definition names_player (a : PlayerActorAdapter) (player : option PlayerId) : bool :=
  match player with Some p => bool_decide (player_identity a = Some p) | None => true end.

Definition zone_confirms (a : PlayerActorAdapter) (o : ZoneOutcome) (c : Cleanup) : bool :=
  bool_decide (cl_target c = zone_key (zo_zone o)) && (cl_correlation c =? zo_correlation o) && (cl_epoch c =? zo_route_epoch o)
  && (cl_generation c =? zo_generation o) && (zo_request_id o =? 0) && bool_decide (player_identity a = Some (zo_player o))
  && names_player a (zr_player (zo_result o)).

Definition absent_from_zone (status : ZoneCommandStatus) : bool :=
  match status with ZoneApplied | PlayerMissing | StaleRoute => true | _ => false end.

Definition handleZoneCleanup (o : ZoneOutcome) : PM TurnEnd :=
  update (fun a =>
    match first_match (zone_confirms a o) 0 (pa_cleanups a) with
    | Some i => if absent_from_zone (zr_status (zo_result o)) then releaseCleanup i a else a
    | None => a
    end);; mret Completed.

Definition room_confirms (a : PlayerActorAdapter) (o : RoomOutcome) (c : Cleanup) : bool :=
  bool_decide (cl_target c = room_key (ro_room o)) && (cl_correlation c =? ro_correlation o)
  && bool_decide (cl_membership c = ro_membership o) && (cl_generation c =? ro_generation o) && (ro_request_id o =? 0)
  && bool_decide (player_identity a = Some (ro_player o)) && names_player a (rr_player (ro_result o)).

Definition absent_from_room (r : RoomResult) : bool :=
  match rr_status r with
  | Applied | NotJoined => true
  | WrongPhase => match rr_phase r with Cleared | Failed => true | _ => false end
  | _ => false
  end.

Definition handleRoomCleanup (o : RoomOutcome) : PM TurnEnd :=
  update (fun a =>
    match first_match (room_confirms a o) 0 (pa_cleanups a) with
    | Some i => if absent_from_room (ro_result o) then releaseCleanup i a else a
    | None => a
    end);; mret Completed.

(** ** Failed transfers *)

Definition appendCrossZoneCleanup (transfer : TransferringRoute) : PM () :=
  a ← this;
  match player_identity a with
  | None => mret ()
  | Some player =>
      let source_cleanup_epoch :=
        if bool_decide (xf_step transfer = CrossZoneRestoreSource) && negb (xf_restore_epoch transfer =? 0)
        then xf_restore_epoch transfer else xf_source_epoch transfer in
      push_effect (tell_leave_zone player (xf_source_zone transfer) source_cleanup_epoch);;
      push_effect (tell_leave_zone player (xf_target_zone transfer) (xf_target_epoch transfer))
  end.

Definition set_location (location : option PlayerLocation) (a : PlayerActorAdapter) : PlayerActorAdapter :=
  set_pa_player (setLastLocation (pa_player a) location) a.

Definition failCrossZoneKnownNone (transfer : TransferringRoute) (close : bool) : PM () :=
  appendCrossZoneCleanup transfer;;
  update (fun a => set_pa_workflow (StableRoute None) (set_location None (set_pa_pending [] a)));;
  a ← this;
  match pa_bound a with
  | Some c => if close then update (set_pa_closing true);; close_connection c else mret ()
  | None => mret ()
  end.

Definition fail_transfer (transfer : TransferringRoute) (context : TurnContext) : PM TurnEnd :=
  failCrossZoneKnownNone transfer true;; scheduleSaveIfDirty (turn_now context);; mret Completed.

(** ** Requests about zones *)

Definition zone_request_kind (r : ZoneRequest) : ZoneReplyFrameKind :=
  match r with EnterZoneRequest _ _ => ZoneReplyEntered | MoveRequest _ => ZoneReplyMoved | LeaveRequest => ZoneReplyLeft end.

Definition stable_zone_id (a : PlayerActorAdapter) : ZoneId := default 0 (currentZone a).

(** The zone named to a player that asks while its route changes. *)
Definition transition_zone (a : PlayerActorAdapter) : ZoneId :=
  match pa_workflow a with Transferring t => xf_target_zone t | _ => stable_zone_id a end.

Definition in_transition (a : PlayerActorAdapter) : bool :=
  match pa_workflow a with Entering _ | Returning _ | Transferring _ => true | _ => false end.

Definition not_move (op : PendingZoneOperation) : bool := negb (bool_decide (op_step op = ZoneMove)).
Definition is_boundary (op : PendingZoneOperation) : bool :=
  bool_decide (op_step op = ZoneEnter) || bool_decide (op_step op = ZoneLeave).

(** The saved position in the zone, or a default. *)
Definition saved_position (a : PlayerActorAdapter) (zone : ZoneId) (position : ZonePosition) : ZonePosition :=
  match lastLocation a with
  | Some l => if loc_zone l =? zone then loc_position l else position
  | None => position
  end.

(** A player in one zone asks for another one. *)
Definition cross_zone_request (player : PlayerId) (c : ConnectionRef) (request_id : Z) (active : ZoneId) (zone : ZoneId) (position : ZonePosition)
    (context : TurnContext) : PM TurnEnd :=
  a ← this;
  if existsb not_move (pa_pending a) then answer_zone c ZoneReplyEntered zone TransitionInProgress request_id
  else
    correlation ← next_correlation;
    let timeout := PlayerWorkflowTimeoutMessage correlation CrossZoneLeaveSource in
    with_timer timeout context
      (answer_zone c ZoneReplyEntered active TransferFailed request_id)
      (fun reservation =>
         a ← this;
         let source_epoch := pa_route_epoch a in
         let target_epoch := u64 (pa_route_epoch a + 1) in
         let source_position := saved_position a active (mkZonePosition 0 0) in
         update (fun a => set_pa_workflow (Transferring (mkTransferring active source_epoch source_position zone target_epoch position 0
                                                           request_id correlation CrossZoneLeaveSource))
                            (set_pa_route_epoch target_epoch a));;
         push_effect (ask_zone active (LeaveZoneCommand player source_epoch)
                        (mkReplyTo player (cref_generation c) correlation CrossZoneLeaveSource source_epoch request_id));;
         schedule_timeout timeout context reservation;;
         mret Completed).

(** An operation on a zone that waits for its outcome. *)
Definition pend_operation (player : PlayerId) (c : ConnectionRef) (request_id : Z) (kind : ZoneReplyFrameKind) (step : WorkflowStep) (zone : ZoneId)
    (epoch : Z) (command : ZoneCommand) (context : TurnContext) : PM TurnEnd :=
  correlation ← next_correlation;
  let timeout := PlayerWorkflowTimeoutMessage correlation step in
  with_timer timeout context
    (answer_zone c kind zone TransferFailed request_id)
    (fun reservation =>
       update (fun a => set_pa_pending (pa_pending a ++ [mkPendingOp correlation step zone epoch request_id]) a);;
       a ← this;
       let generation := match pa_bound a with Some b => cref_generation b | None => 0 end in
       push_effect (ask_zone zone command (mkReplyTo player generation correlation step epoch request_id));;
       schedule_timeout timeout context reservation;;
       scheduleSaveIfDirty (turn_now context);;
       mret Completed).

Definition enter_request (player : PlayerId) (c : ConnectionRef) (request_id : Z) (zone : ZoneId) (position : ZonePosition) (context : TurnContext)
    : PM TurnEnd :=
  a ← this;
  if zone =? 0 then close_connection c;; mret Completed
  else if isInRoom a then answer_zone c ZoneReplyEntered zone InRoom request_id
  else if in_transition a then answer_zone c ZoneReplyEntered zone TransitionInProgress request_id
  else
    let pend epoch :=
      if negb (bool_decide (pa_pending a = [])) then answer_zone c ZoneReplyEntered zone TransferFailed request_id
      else pend_operation player c request_id ZoneReplyEntered ZoneEnter zone epoch
             (EnterZoneCommand player epoch (saved_position a zone position)) context in
    match currentZone a with
    | Some active => if negb (active =? zone) then cross_zone_request player c request_id active zone position context else pend (pa_route_epoch a)
    | None => pend (u64 (pa_route_epoch a + 1))
    end.

Definition move_request (player : PlayerId) (c : ConnectionRef) (request_id : Z) (position : ZonePosition) (context : TurnContext) : PM TurnEnd :=
  a ← this;
  if isInRoom a then answer_zone c ZoneReplyMoved (stable_zone_id a) InRoom request_id
  else if in_transition a then answer_zone c ZoneReplyMoved (transition_zone a) TransitionInProgress request_id
  else
    match currentZone a with
    | None => close_connection c;; mret Completed
    | Some active =>
        if existsb is_boundary (pa_pending a) then answer_zone c ZoneReplyMoved (stable_zone_id a) TransitionInProgress request_id
        else if MAX_PENDING_ZONE_OPS <=? zlen (pa_pending a) then answer_zone c ZoneReplyMoved active TransferFailed request_id
        else pend_operation player c request_id ZoneReplyMoved ZoneMove active (pa_route_epoch a)
               (MoveInZoneCommand player (pa_route_epoch a) position) context
    end.

Definition leave_request (player : PlayerId) (c : ConnectionRef) (request_id : Z) (context : TurnContext) : PM TurnEnd :=
  a ← this;
  if isInRoom a then answer_zone c ZoneReplyLeft (stable_zone_id a) InRoom request_id
  else if in_transition a then answer_zone c ZoneReplyLeft (transition_zone a) TransitionInProgress request_id
  else
    match currentZone a with
    | None => close_connection c;; mret Completed
    | Some active =>
        if negb (bool_decide (pa_pending a = [])) then answer_zone c ZoneReplyLeft active TransitionInProgress request_id
        else pend_operation player c request_id ZoneReplyLeft ZoneLeave active (pa_route_epoch a)
               (LeaveZoneCommand player (pa_route_epoch a)) context
    end.

Definition handleZoneRequest (c : ConnectionRef) (request_id : Z) (request : ZoneRequest) (context : TurnContext) : PM TurnEnd :=
  a ← this;
  if negb (pa_cleanup_count a =? 0) && negb (pa_closing a) && bool_decide (pa_bound a = Some c) then
    answer_zone c (zone_request_kind request)
      (match request with EnterZoneRequest zone _ => zone | _ => stable_zone_id a end) TransitionInProgress request_id
  else if isClosingConnection a c then mret Completed
  else
    match player_identity a with
    | Some player =>
        if bool_decide (pa_bound a = Some c) then
          match request with
          | EnterZoneRequest zone position => enter_request player c request_id zone position context
          | MoveRequest position => move_request player c request_id position context
          | LeaveRequest => leave_request player c request_id context
          end
        else close_connection c;; mret Completed
    | None => close_connection c;; mret Completed
    end.

(** ** Requests about rooms *)

Definition join_request (player : PlayerId) (c : ConnectionRef) (request_id : Z) (room : RoomId) (context : TurnContext) : PM TurnEnd :=
  a ← this;
  if room =? 0 then close_connection c;; mret Completed
  else if isInRoom a then answer_join c room AlreadyJoined request_id;; mret Completed
  else
    match pa_workflow a with
    | StableRoute (Some source_zone) =>
        if negb (pa_cleanup_count a =? 0) || negb (bool_decide (pa_pending a = [])) then answer_join c room EntryFailed request_id;; mret Completed
        else
          correlation ← next_correlation;
          let timeout := PlayerWorkflowTimeoutMessage correlation RoomJoinStep1_JoinRoom in
          with_timer timeout context
            (answer_join c room RuntimeOverloaded request_id;; mret Completed)
            (fun reservation =>
               a ← this;
               let return_position := match lastLocation a with Some l => loc_position l | None => mkZonePosition 0 0 end in
               let s := state (pa_player a) in
               update (set_pa_workflow (Entering (mkEntering room source_zone (pa_route_epoch a) return_position request_id correlation
                                                    RoomJoinStep1_JoinRoom)));;
               push_effect (TellActorEffect (room_key room)
                 (RoomCommandMessage (Some c) request_id
                    (JoinRoom player (combatStats (streetLevel (street_experience s))) (equipped_skill_id (skill_loadout s)))
                    (Some (mkReplyTo player (cref_generation c) correlation RoomJoinStep1_JoinRoom 0 request_id)) None));;
               schedule_timeout timeout context reservation;;
               scheduleSaveIfDirty (turn_now context);;
               mret Completed)
    | _ => answer_join c room EntryFailed request_id;; mret Completed
    end.

(** A command of a player for the room it is in. *)
Definition command_room (c : ConnectionRef) (request_id : Z) (room : RoomId) (command : RoomCommand) : PM TurnEnd :=
  a ← this;
  match pa_workflow a with
  | RouteInRoom r =>
      if ir_room r =? room
      then push_effect (TellActorEffect (room_key (ir_room r)) (RoomCommandMessage (Some c) request_id command None None));; mret Completed
      else close_connection c;; mret Completed
  | _ => close_connection c;; mret Completed
  end.

(** The way back from a room into the zone the player came from. *)
Definition return_to_zone (player : PlayerId) (route : InRoomRoute) (generation : ConnectionGeneration) (request_id : Z) (leave : list GameEffect)
    (timeout : GameMessage) (reservation : option TimerReservation) (context : TurnContext) : PM TurnEnd :=
  update (fun a => set_pa_route_epoch (u64 (pa_route_epoch a + 1)) a);;
  correlation ← next_correlation;
  a ← this;
  update (set_pa_workflow (Returning (mkReturning (ir_room route) (ir_return_zone route) (ir_return_position route) (pa_route_epoch a) request_id
                                        correlation RoomReturnStep1_ZoneEnter)));;
  push_each leave;;
  push_effect (ask_zone (ir_return_zone route) (EnterZoneCommand player (pa_route_epoch a) (ir_return_position route))
                 (mkReplyTo player generation correlation RoomReturnStep1_ZoneEnter (pa_route_epoch a) 0));;
  schedule_timeout timeout context reservation;;
  scheduleSaveIfDirty (turn_now context);;
  mret Completed.

Definition leave_room_request (player : PlayerId) (c : ConnectionRef) (request_id : Z) (context : TurnContext) : PM TurnEnd :=
  a ← this;
  match pa_workflow a with
  | RouteInRoom route =>
      let timeout := PlayerWorkflowTimeoutMessage (u64 (pa_correlation a + 1)) RoomReturnStep1_ZoneEnter in
      with_timer timeout context (close_connection c;; mret Completed)
        (fun reservation =>
           return_to_zone player route (cref_generation c) request_id [tell_leave_room player (ir_room route)] timeout reservation context)
  | _ => close_connection c;; mret Completed
  end.

Definition handleRoomRequest (c : ConnectionRef) (request_id : Z) (request : RoomRequest) (context : TurnContext) : PM TurnEnd :=
  a ← this;
  if isClosingConnection a c then mret Completed
  else
    match player_identity a with
    | Some player =>
        if bool_decide (pa_bound a = Some c) then
          match request with
          | RoomJoinRequest room => join_request player c request_id room context
          | BattleStartRequest room => command_room c request_id room StartBattle
          | UseSkillRequest room skill sequence => command_room c request_id room (UseSkill player skill sequence)
          | SetMoveIntentRequest room direction sequence => command_room c request_id room (SetMoveIntent player direction sequence)
          | RoomLeaveRequest => leave_room_request player c request_id context
          end
        else mret Completed
    | None => mret Completed
    end.

(** ** Outcomes of zones *)

Definition set_xf_step (step : WorkflowStep) (t : TransferringRoute) : TransferringRoute :=
  mkTransferring (xf_source_zone t) (xf_source_epoch t) (xf_source_position t) (xf_target_zone t) (xf_target_epoch t) (xf_target_position t)
    (xf_restore_epoch t) (xf_request_id t) (xf_correlation_id t) step.
Definition set_xf_source_position (p : ZonePosition) (t : TransferringRoute) : TransferringRoute :=
  mkTransferring (xf_source_zone t) (xf_source_epoch t) p (xf_target_zone t) (xf_target_epoch t) (xf_target_position t)
    (xf_restore_epoch t) (xf_request_id t) (xf_correlation_id t) (xf_step t).
Definition set_xf_epochs (source target restore : Z) (t : TransferringRoute) : TransferringRoute :=
  mkTransferring (xf_source_zone t) source (xf_source_position t) (xf_target_zone t) target (xf_target_position t)
    restore (xf_request_id t) (xf_correlation_id t) (xf_step t).

Definition expected_zone (t : TransferringRoute) : ZoneId :=
  match xf_step t with CrossZoneEnterTarget => xf_target_zone t | _ => xf_source_zone t end.
Definition expected_epoch (t : TransferringRoute) : Z :=
  match xf_step t with
  | CrossZoneLeaveSource => xf_source_epoch t
  | CrossZoneEnterTarget => xf_target_epoch t
  | _ => xf_restore_epoch t
  end.

(** The epoch a zone that refused a route has seen. *)
Definition observe_epoch (epoch : Z) (t : TransferringRoute) : TransferringRoute :=
  match xf_step t with
  | CrossZoneLeaveSource => set_xf_epochs epoch (xf_target_epoch t) (xf_restore_epoch t) t
  | CrossZoneEnterTarget => set_xf_epochs (xf_source_epoch t) epoch (xf_restore_epoch t) t
  | _ => set_xf_epochs (xf_source_epoch t) (xf_target_epoch t) epoch t
  end.

Definition zone_present (status : ZoneCommandStatus) : bool :=
  match status with ZoneApplied | AlreadyPresent => true | _ => false end.

(** The next stage of a transfer: enter a zone, and wait. *)
Definition enter_stage (player : PlayerId) (c : ConnectionRef) (t : TransferringRoute) (zone : ZoneId) (epoch : Z) (position : ZonePosition)
    (timeout : GameMessage) (reservation : option TimerReservation) (context : TurnContext) : PM TurnEnd :=
  update (set_pa_workflow (Transferring t));;
  push_effect (ask_zone zone (EnterZoneCommand player epoch position)
                 (mkReplyTo player (cref_generation c) (xf_correlation_id t) (xf_step t) epoch (xf_request_id t)));;
  schedule_timeout timeout context reservation;;
  mret Completed.

(** The transfer ends in a zone. *)
Definition settle_in (c : ConnectionRef) (zone : ZoneId) (epoch : Z) (position : ZonePosition) (result : ZoneResult) (request_id : Z)
    (context : TurnContext) : PM TurnEnd :=
  update (fun a => set_location (Some (mkPlayerLocation zone position)) (set_pa_route_epoch epoch (set_pa_workflow (StableRoute (Some zone)) a)));;
  send_frame c (encodeZoneReply ZoneReplyEntered zone result request_id);;
  scheduleSaveIfDirty (turn_now context);;
  mret Completed.

Definition left_source (player : PlayerId) (c : ConnectionRef) (t : TransferringRoute) (result : ZoneResult) (context : TurnContext) : PM TurnEnd :=
  match zr_status result, zr_position result with
  | ZoneApplied, Some position =>
      let timeout := PlayerWorkflowTimeoutMessage (xf_correlation_id t) CrossZoneEnterTarget in
      with_timer timeout context (fail_transfer t context)
        (fun reservation =>
           let t' := set_xf_step CrossZoneEnterTarget (set_xf_source_position position t) in
           enter_stage player c t' (xf_target_zone t') (xf_target_epoch t') (xf_target_position t') timeout reservation context)
  | _, _ => fail_transfer t context
  end.

Definition entered_target (player : PlayerId) (c : ConnectionRef) (t : TransferringRoute) (result : ZoneResult) (context : TurnContext) : PM TurnEnd :=
  let restore :=
    a ← this;
    let restore_epoch := u64 (pa_route_epoch a + 1) in
    let timeout := PlayerWorkflowTimeoutMessage (xf_correlation_id t) CrossZoneRestoreSource in
    with_timer timeout context (fail_transfer t context)
      (fun reservation =>
         update (set_pa_route_epoch restore_epoch);;
         let t' := set_xf_step CrossZoneRestoreSource (set_xf_epochs (xf_source_epoch t) (xf_target_epoch t) restore_epoch t) in
         enter_stage player c t' (xf_source_zone t') (xf_restore_epoch t') (xf_source_position t') timeout reservation context) in
  match zone_present (zr_status result), zr_position result with
  | true, Some position => settle_in c (xf_target_zone t) (xf_target_epoch t) position result (xf_request_id t) context
  | _, _ => restore
  end.

Definition restored_source (player : PlayerId) (c : ConnectionRef) (t : TransferringRoute) (result : ZoneResult) (context : TurnContext) : PM TurnEnd :=
  match zone_present (zr_status result), zr_position result with
  | true, Some position =>
      settle_in c (xf_source_zone t) (xf_restore_epoch t) position
        (mkZoneResult TransferFailed (Some player) (Some position) (xf_restore_epoch t) (zr_tick result) (zr_visible_players result) None)
        (xf_request_id t) context
  | _, _ => fail_transfer t context
  end.

Definition transfer_outcome (player : PlayerId) (c : ConnectionRef) (o : ZoneOutcome) (context : TurnContext) : PM TurnEnd :=
  a ← this;
  match pa_workflow a with
  | Transferring t =>
      if negb (zo_correlation o =? xf_correlation_id t) || negb (bool_decide (zo_step o = xf_step t)) || negb (zo_zone o =? expected_zone t)
         || negb (zo_route_epoch o =? expected_epoch t) || negb (zo_request_id o =? xf_request_id t)
         || negb (names_player a (zr_player (zo_result o)))
      then mret Completed
      else if bool_decide (zr_status (zo_result o) = StaleRoute) then
        update (fun a => set_pa_route_epoch (Z.max (pa_route_epoch a) (zr_route_epoch (zo_result o))) a);;
        fail_transfer (observe_epoch (zr_route_epoch (zo_result o)) t) context
      else
        match xf_step t with
        | CrossZoneLeaveSource => left_source player c t (zo_result o) context
        | CrossZoneEnterTarget => entered_target player c t (zo_result o) context
        | _ => restored_source player c t (zo_result o) context
        end
  | _ => mret Completed
  end.

(** The player, already in the room, has left its zone, or has not. *)
Definition join_left_zone (player : PlayerId) (c : ConnectionRef) (o : ZoneOutcome) (context : TurnContext) : PM TurnEnd :=
  a ← this;
  match pa_workflow a with
  | Entering en =>
      if (en_correlation_id en =? zo_correlation o) && bool_decide (en_step en = zo_step o) && (en_source_zone en =? zo_zone o)
         && (en_source_epoch en =? zo_route_epoch o) && (en_request_id en =? zo_request_id o) && names_player a (zr_player (zo_result o))
      then
        let result := zo_result o in
        (if bool_decide (zr_status result = ZoneApplied) then
           update (set_pa_workflow (RouteInRoom (mkInRoom (en_target_room en) (en_source_zone en)
                                                   (default (en_return_position en) (zr_position result)))));;
           answer_join c (en_target_room en) Applied (en_request_id en)
         else
           let epoch := if bool_decide (zr_status result = StaleRoute) then zr_route_epoch result else en_source_epoch en in
           let lost_source := bool_decide (zr_status result = PlayerMissing) || bool_decide (zr_status result = StaleRoute) in
           update (set_pa_workflow (StableRoute (if lost_source then None else Some (en_source_zone en))));;
           push_effect (tell_leave_room player (en_target_room en));;
           answer_join c (en_target_room en) EntryFailed (en_request_id en);;
           if lost_source then
             update (fun a => set_location None (set_pa_route_epoch (Z.max (pa_route_epoch a) epoch) a));;
             push_effect (tell_leave_zone player (en_source_zone en) epoch);;
             close_connection c
           else mret ());;
        scheduleSaveIfDirty (turn_now context);;
        mret Completed
      else mret Completed
  | _ => mret Completed
  end.

(** The player is back in its zone, or is not.  While a cleanup is open the
    good news waits. *)
Definition return_entered (player : PlayerId) (c : ConnectionRef) (o : ZoneOutcome) (context : TurnContext) : PM TurnEnd :=
  a ← this;
  match pa_workflow a with
  | Returning re =>
      if (re_correlation_id re =? zo_correlation o) && bool_decide (re_step re = zo_step o) && (re_return_zone re =? zo_zone o)
         && (re_return_epoch re =? zo_route_epoch o) && (zo_request_id o =? UNSOLICITED_REQUEST_ID) && names_player a (zr_player (zo_result o))
      then
        let result := zo_result o in
        if negb (pa_cleanup_count a =? 0) && zone_present (zr_status result) then
          update (set_pa_deferred (Some o));; mret Completed
        else
          (if zone_present (zr_status result) then
             let position := default (re_return_position re) (zr_position result) in
             update (fun a => set_location (Some (mkPlayerLocation (re_return_zone re) position))
                                (set_pa_route_epoch (re_return_epoch re) (set_pa_workflow (StableRoute (Some (re_return_zone re))) a)));;
             send_frame c (encodeReturnedToZone (re_return_zone re) position UNSOLICITED_REQUEST_ID)
           else
             let epoch := if bool_decide (zr_status result = StaleRoute) then zr_route_epoch result else re_return_epoch re in
             update (fun a => set_pa_route_epoch (Z.max (pa_route_epoch a) epoch) a);;
             push_effect (tell_leave_zone player (re_return_zone re) epoch);;
             update (fun a => set_pa_workflow (StableRoute None) (set_location None a));;
             close_connection c);;
          scheduleSaveIfDirty (turn_now context);;
          mret Completed
      else mret Completed
  | _ => mret Completed
  end.

Definition is_op (correlation : Z) (step : WorkflowStep) (op : PendingZoneOperation) : bool :=
  (op_correlation_id op =? correlation) && bool_decide (op_step op = step).

(** [std::find_if], and the operations without the one found. *)
Fixpoint find_op (p : PendingZoneOperation → bool) (ops : list PendingZoneOperation) : option (PendingZoneOperation * list PendingZoneOperation) :=
  match ops with
  | [] => None
  | op :: rest => if p op then Some (op, rest) else '(found, others) ← find_op p rest; Some (found, op :: others)
  end.

(** What the outcome of a pending operation changes, and the kind of the reply. *)
Definition settle_operation (op : PendingZoneOperation) (o : ZoneOutcome) (a : PlayerActorAdapter) : PlayerActorAdapter * option ZoneReplyFrameKind :=
  let result := zo_result o in
  let located a := match zr_position result with
                   | Some position => set_location (Some (mkPlayerLocation (zo_zone o) position)) a
                   | None => a
                   end in
  match op_step op with
  | ZoneEnter =>
      (match zr_status result with
       | ZoneApplied => located (set_pa_route_epoch (zo_route_epoch o) (set_pa_workflow (StableRoute (Some (zo_zone o))) a))
       | AlreadyPresent => set_pa_route_epoch (zo_route_epoch o) (set_pa_workflow (StableRoute (Some (zo_zone o))) a)
       | _ => a
       end, Some ZoneReplyEntered)
  | ZoneMove => (match zr_status result with ZoneApplied => located a | _ => a end, Some ZoneReplyMoved)
  | ZoneLeave =>
      (match zr_status result with ZoneApplied => set_location None (set_pa_workflow (StableRoute None) a) | _ => a end, Some ZoneReplyLeft)
  | _ => (a, None)
  end.

Definition pending_outcome (c : ConnectionRef) (o : ZoneOutcome) (context : TurnContext) : PM TurnEnd :=
  a ← this;
  match find_op (is_op (zo_correlation o) (zo_step o)) (pa_pending a) with
  | None => mret Completed
  | Some (op, others) =>
      if negb (zo_zone o =? op_target_zone op) || negb (zo_route_epoch o =? op_target_epoch op) || negb (zo_request_id o =? op_request_id op)
         || negb (names_player a (zr_player (zo_result o)))
      then mret Completed
      else
        let '(a', kind) := settle_operation op o (set_pa_pending others a) in
        update (fun _ => a');;
        (match kind with
         | Some k => send_frame c (encodeZoneReply k (zo_zone o) (zo_result o) (op_request_id op))
         | None => mret ()
         end);;
        scheduleSaveIfDirty (turn_now context);;
        mret Completed
  end.

Definition handleZoneOutcome (o : ZoneOutcome) (context : TurnContext) : PM TurnEnd :=
  a ← this;
  if pa_closing a then mret Completed
  else
    match player_identity a, pa_bound a with
    | Some player, Some c =>
        if negb (zo_player o =? player) || negb (cref_generation c =? zo_generation o) then mret Completed
        else
          match zo_step o with
          | CrossZoneLeaveSource | CrossZoneEnterTarget | CrossZoneRestoreSource => transfer_outcome player c o context
          | RoomJoinStep2_LeaveZone => join_left_zone player c o context
          | RoomReturnStep1_ZoneEnter => return_entered player c o context
          | _ => pending_outcome c o context
          end
    | _, _ => mret Completed
    end.

(** ** Outcomes of rooms *)

(** The battle is over: the way back. *)
Definition terminal_notification (player : PlayerId) (o : RoomOutcome) (context : TurnContext) : PM TurnEnd :=
  a ← this;
  if negb (bool_decide (pa_membership a = ro_membership o)) then mret Completed
  else
    match pa_workflow a with
    | RouteInRoom route =>
        if ir_room route =? ro_room o then
          let timeout := PlayerWorkflowTimeoutMessage (u64 (pa_correlation a + 1)) RoomReturnStep1_ZoneEnter in
          with_timer timeout context
            (update (fun a => set_pa_workflow (StableRoute None) (set_location None a));;
             (match pa_bound a with Some c => close_connection c | None => mret () end);;
             scheduleSaveIfDirty (turn_now context);;
             mret Completed)
            (fun reservation =>
               return_to_zone player route (match pa_bound a with Some c => cref_generation c | None => 0 end) 0 [] timeout reservation context)
        else mret Completed
    | _ => mret Completed
    end.

(** The room has answered the join. *)
Definition join_outcome (player : PlayerId) (c : ConnectionRef) (o : RoomOutcome) (context : TurnContext) : PM TurnEnd :=
  a ← this;
  match pa_workflow a with
  | Entering en =>
      if bool_decide (en_step en = RoomJoinStep1_JoinRoom) && (en_correlation_id en =? ro_correlation o) && bool_decide (en_step en = ro_step o)
         && (en_target_room en =? ro_room o) && (en_request_id en =? ro_request_id o) && names_player a (rr_player (ro_result o))
      then
        if bool_decide (rr_status (ro_result o) = Applied) then
          let timeout := PlayerWorkflowTimeoutMessage (en_correlation_id en) RoomJoinStep2_LeaveZone in
          with_timer timeout context
            (update (set_pa_workflow (StableRoute (Some (en_source_zone en))));;
             push_effect (tell_leave_room player (en_target_room en));;
             answer_join c (en_target_room en) EntryFailed (en_request_id en);;
             scheduleSaveIfDirty (turn_now context);;
             mret Completed)
            (fun reservation =>
               update (set_pa_workflow (Entering (mkEntering (en_target_room en) (en_source_zone en) (en_source_epoch en) (en_return_position en)
                                                    (en_request_id en) (en_correlation_id en) RoomJoinStep2_LeaveZone)));;
               push_effect (ask_zone (en_source_zone en) (LeaveZoneCommand player (en_source_epoch en))
                              (mkReplyTo player (cref_generation c) (en_correlation_id en) RoomJoinStep2_LeaveZone (en_source_epoch en)
                                 (en_request_id en)));;
               schedule_timeout timeout context reservation;;
               scheduleSaveIfDirty (turn_now context);;
               mret Completed)
        else
          update (set_pa_workflow (StableRoute (Some (en_source_zone en))));;
          send_frame c (encodeRoomReply RoomReplyJoined (en_target_room en) (ro_result o) (en_request_id en));;
          scheduleSaveIfDirty (turn_now context);;
          mret Completed
      else mret Completed
  | _ => mret Completed
  end.

Definition handleRoomOutcome (o : RoomOutcome) (context : TurnContext) : PM TurnEnd :=
  a ← this;
  if pa_closing a then mret Completed
  else
    match player_identity a with
    | Some player =>
        if negb (ro_player o =? player) then mret Completed
        else if bool_decide (ro_step o = RoomTerminalNotification) then terminal_notification player o context
        else
          match pa_bound a with
          | Some c => if cref_generation c =? ro_generation o then join_outcome player c o context else mret Completed
          | None => mret Completed
          end
    | None => mret Completed
    end.

(** ** Timeouts *)

(** [f] with the player's identity, which an actor that acts has. *)
Definition when_identified (f : PlayerId → PM ()) : PM () :=
  a ← this; match player_identity a with Some player => f player | None => mret () end.

Definition operation_timeout (c : ConnectionRef) (op : PendingZoneOperation) : PM () :=
  a ← this;
  match op_step op with
  | ZoneEnter =>
      when_identified (fun player => push_effect (tell_leave_zone player (op_target_zone op) (op_target_epoch op)));;
      send_frame c (encodeZoneReply ZoneReplyEntered (op_target_zone op) (zone_answer a TransferFailed) (op_request_id op))
  | ZoneMove => send_frame c (encodeZoneReply ZoneReplyMoved (op_target_zone op) (zone_answer a TransferFailed) (op_request_id op))
  | ZoneLeave =>
      when_identified (fun player => push_effect (tell_leave_zone player (op_target_zone op) (op_target_epoch op)));;
      update (fun a => set_location None (set_pa_workflow (StableRoute None) a));;
      send_frame c (encodeZoneReply ZoneReplyLeft (op_target_zone op) (zone_answer a TransferFailed) (op_request_id op));;
      close_connection c
  | _ => mret ()
  end.

Definition entering_timeout (en : EnteringRoute) (context : TurnContext) : PM TurnEnd :=
  a ← this;
  (match en_step en with
   | RoomJoinStep2_LeaveZone =>
       when_identified (fun player =>
         push_effect (tell_leave_room player (en_target_room en));;
         push_effect (tell_leave_zone player (en_source_zone en) (en_source_epoch en)));;
       update (fun a => set_location None (set_pa_workflow (StableRoute None) a));;
       match pa_bound a with
       | Some c => answer_join c (en_target_room en) EntryFailed (en_request_id en);; close_connection c
       | None => mret ()
       end
   | _ =>
       when_identified (fun player => push_effect (tell_leave_room player (en_target_room en)));;
       update (set_pa_workflow (StableRoute (Some (en_source_zone en))));;
       match pa_bound a with
       | Some c => answer_join c (en_target_room en) EntryFailed (en_request_id en)
       | None => mret ()
       end
   end);;
  scheduleSaveIfDirty (turn_now context);;
  mret Completed.

Definition returning_timeout (re : ReturningRoute) (context : TurnContext) : PM TurnEnd :=
  a ← this;
  when_identified (fun player => push_effect (tell_leave_zone player (re_return_zone re) (re_return_epoch re)));;
  update (fun a => set_pa_workflow (StableRoute None) (set_location None a));;
  (match pa_bound a with Some c => close_connection c | None => mret () end);;
  scheduleSaveIfDirty (turn_now context);;
  mret Completed.

Definition handleWorkflowTimeout (correlation : Z) (step : WorkflowStep) (context : TurnContext) : PM TurnEnd :=
  a ← this;
  if pa_closing a then mret Completed
  else
    match find_op (is_op correlation step) (pa_pending a) with
    | Some (op, others) =>
        update (set_pa_pending others);;
        (match pa_bound a with Some c => operation_timeout c op | None => mret () end);;
        scheduleSaveIfDirty (turn_now context);;
        mret Completed
    | None =>
        match pa_workflow a with
        | Transferring t =>
            if (xf_correlation_id t =? correlation) && bool_decide (xf_step t = step) then fail_transfer t context else mret Completed
        | Entering en =>
            if (en_correlation_id en =? correlation) && bool_decide (en_step en = step) then entering_timeout en context else mret Completed
        | Returning re =>
            if (re_correlation_id re =? correlation) && bool_decide (re_step re = step) then returning_timeout re context else mret Completed
        | _ => mret Completed
        end
    end.

(** ** Messages *)

Definition save_turn : PM TurnEnd :=
  update (set_pa_save_scheduled false);;
  a ← this;
  '(record, cleared, p) ← lift (takeDirtySnapshot (pa_player a));
  update (set_pa_player p);;
  match record with
  | None => mret Completed
  | Some r => update (set_pa_save_scheduled true);; mret (Suspended (mkSaveTask (toSaveRequest r) cleared))
  end.

(** [Player::handle] and what its result asks of the worker. *)
Definition run_command (connection : option ConnectionRef) (request_id : Z) (command : PlayerCommand) (context : TurnContext) : PM TurnEnd :=
  a ← this;
  '(result, p) ← lift (handle (pa_player a) command);
  update (set_pa_player p);;
  a ← this;
  (fun a es => match toEffects_player (mkPlayerTurn connection request_id (player_identity a)) result with
               | Some es' => SRet (tt, a, es') | None => SThrow end);;
  scheduleSaveIfDirty (turn_now context);;
  mret Completed.

Definition is_authenticate (command : PlayerCommand) : bool := match command with AuthenticateCommand _ => true | _ => false end.

(** [rejectConflictingAuthentication]: another connection has the player. *)
Definition conflicting (a : PlayerActorAdapter) (connection : option ConnectionRef) : option ConnectionRef :=
  match connection, pa_bound a with
  | Some c, Some bound => if bool_decide (bound = c) then None else Some c
  | _, _ => None
  end.

Definition command_turn (connection : option ConnectionRef) (request_id : Z) (command : PlayerCommand) (context : TurnContext) : PM TurnEnd :=
  a ← this;
  if isClosingOptional a connection then mret Completed
  else if is_authenticate command then
    match (if pa_cleanup_count a =? 0 then None else connection), conflicting a connection with
    | Some c, _ => close_connection c;; mret Completed
    | None, Some c => update (fun a => set_pa_conflicts (u64 (pa_conflicts a + 1)) a);; close_connection c;; mret Completed
    | None, None =>
        update (fun a => set_pa_closing false (set_pa_bound connection a));;
        run_command connection request_id command context
    end
  else run_command connection request_id command context.

(** What a closed connection leaves behind. *)
Definition leaves_of (player : PlayerId) (a : PlayerActorAdapter) : list GameEffect :=
  ((fun op => tell_leave_zone player (op_target_zone op) (op_target_epoch op))
     <$> filter (fun op => op_step op = ZoneEnter) (pa_pending a))
  ++ match pa_workflow a with
     | StableRoute (Some zone) => [tell_leave_zone player zone (pa_route_epoch a)]
     | StableRoute None => []
     | Entering en => [tell_leave_room player (en_target_room en); tell_leave_zone player (en_source_zone en) (en_source_epoch en)]
     | RouteInRoom r => [tell_leave_room player (ir_room r)]
     | Returning re => [tell_leave_room player (re_source_room re); tell_leave_zone player (re_return_zone re) (re_return_epoch re)]
     | Transferring _ => []
     end.

Definition closed_turn (connection : ConnectionRef) (context : TurnContext) : PM TurnEnd :=
  a ← this;
  if bool_decide (pa_bound a = Some connection) then
    (match pa_workflow a with
     | Transferring t => failCrossZoneKnownNone t false
     | _ => match player_identity a with Some player => push_each (leaves_of player a) | None => mret () end
     end);;
    update (fun a => set_pa_workflow (StableRoute None) (set_pa_pending [] (set_pa_closing false (set_pa_bound None a))));;
    scheduleSaveIfDirty (turn_now context);;
    mret Completed
  else mret Completed.

Definition grant_turn (grant : StreetExperienceGrant) (context : TurnContext) : PM TurnEnd :=
  update (fun a =>
    let a1 := set_pa_player (grantStreetExperience (pa_player a) (grant_experience grant)) a in
    if pa_shutdown a1 && pa_final_finished a1 && negb (pa_final_failed a1)
    then set_pa_final_finished false (set_pa_final_started false a1) else a1);;
  scheduleSaveIfDirty (turn_now context);;
  mret Completed.

(** Input that a player that shuts down does not take any more. *)
Definition refused_at_shutdown (m : GameMessage) : bool :=
  match m with
  | PlayerCommandMessage _ _ _ | PlayerZoneRequestMessage _ _ _ | PlayerRoomRequestMessage _ _ _ | PingMessage _ _ _ | PlayerSaveMessage _ => true
  | _ => false
  end.

Definition dispatchMessage (m : GameMessage) (context : TurnContext) : PM TurnEnd :=
  a ← this;
  if pa_shutdown a && refused_at_shutdown m then mret Completed
  else
    match m with
    | PlayerSaveMessage _ => save_turn
    | PlayerCommandMessage connection request_id command => command_turn connection request_id command context
    | PlayerConnectionClosedMessage connection => closed_turn connection context
    | PlayerZoneRequestMessage c request_id request => handleZoneRequest c request_id request context
    | PlayerRoomRequestMessage c request_id request => handleRoomRequest c request_id request context
    | ZoneOutcomeMessage o => if bool_decide (zo_step o = CleanupZone) then handleZoneCleanup o else handleZoneOutcome o context
    | RoomOutcomeMessage o => if bool_decide (ro_step o = CleanupRoom) then handleRoomCleanup o else handleRoomOutcome o context
    | PlayerWorkflowTimeoutMessage correlation step => handleWorkflowTimeout correlation step context
    | PingMessage c request_id payload =>
        if isClosingConnection a c then mret Completed else run_command (Some c) request_id (PingCommand payload) context
    | ExperienceGrantMessage grant => grant_turn grant context
    | _ => mret Completed
    end.

(** An effect that closes the player's own connection. *)
Definition closes (bound : option ConnectionRef) (e : GameEffect) : bool :=
  match e with CloseConnectionEffect c _ _ => bool_decide (bound = Some c) | _ => false end.

Definition note_closing : PM () := fun a es =>
  SRet (tt, if existsb (closes (pa_bound a)) es then set_pa_closing true a else a, es).

(** A return that waited for the last cleanup takes the place of the result. *)
Definition resume_deferred (t : TurnEnd) (context : TurnContext) : PM TurnEnd :=
  a ← this;
  match pa_deferred a with
  | Some o =>
      if (pa_cleanup_count a =? 0) && negb (pa_closing a) && negb (pa_shutdown a) then
        old ← take_effects;
        update (set_pa_deferred None);;
        t' ← handleZoneOutcome o context;
        destroy_effects old;;
        mret t'
      else mret t
  | None => mret t
  end.

Definition player_dispatch (m : GameMessage) (context : TurnContext) : PM TurnEnd :=
  t ← dispatchMessage m context;
  t ← resume_deferred t context;
  match t with
  | Completed => prepareLifecycleEffects context;; note_closing;; mret Completed
  | Suspended task => mret (Suspended task)
  end.

(** ** Lifecycle *)

Definition player_lifecycleDeadline (a : PlayerActorAdapter) : option time_point :=
  if pa_shutdown a && (pa_cleanup_count a =? 0) && negb (pa_final_started a) then Some 0 else pa_cleanup_deadline a.
Definition player_needsShutdownTurn (a : PlayerActorAdapter) : bool := negb (pa_shutdown a).
Definition player_shutdownPending (a : PlayerActorAdapter) : bool :=
  negb (pa_shutdown a) || negb (pa_cleanup_count a =? 0) || negb (pa_final_finished a).

(** Each cleanup is asked for again. *)
Definition retry_cleanups (context : TurnContext) : PM TurnEnd :=
  a ← this;
  push_each ((fun c => TellActorEffect (cl_target c) (cleanupMessage (default 0 (player_identity a)) c)) <$> omap id (pa_cleanups a));;
  update (set_pa_cleanup_deadline (Some (after (turn_now context) CLEANUP_RETRY)));;
  mret Completed.

Definition final_save : PM TurnEnd :=
  update (set_pa_final_started true);;
  a ← this;
  match player_identity a with
  | None => update (set_pa_final_finished true);; mret Completed
  | Some _ => record ← lift (snapshot (pa_player a)); mret (Suspended (mkSaveTask (toSaveRequest record) 0))
  end.

Definition idle_lifecycle (context : TurnContext) : PM TurnEnd :=
  a ← this;
  if negb (pa_cleanup_count a =? 0) then retry_cleanups context
  else if pa_shutdown a && negb (pa_final_started a) then final_save
  else mret Completed.

Definition player_lifecycleTurn (context : TurnContext) (shutdown : bool) : PM TurnEnd :=
  a ← this;
  if shutdown && negb (pa_shutdown a) then
    update (fun a => set_pa_save_scheduled false (set_pa_deferred None (set_pa_shutdown true a)));;
    match pa_bound a with
    | Some c => player_dispatch (PlayerConnectionClosedMessage c) context
    | None => idle_lifecycle context
    end
  else idle_lifecycle context.

(** [cancelLifecycle]: the worker gives up. *)
Definition cancelLifecycle (a : PlayerActorAdapter) : PlayerActorAdapter :=
  set_pa_closing false (set_pa_workflow (StableRoute None) (set_pa_bound None (set_pa_deferred None (set_pa_pending []
    (set_pa_cleanup_deadline None (set_pa_cleanup_count 0 (set_pa_cleanups (repeat None MAX_CLEANUPS) a))))))).

(** A turn of the actor, from an empty batch. *)
Definition player_turn (m : PM TurnEnd) (a : PlayerActorAdapter) : Turn GameMessage PlayerActorAdapter SaveTask := toTurn (m a []).
End player.
