(* ===== verification/PlayerAdapterInv.v ===== *)
(** * What a player actor owes: the logic of its scripts

    The rules by which the turns of [PlayerAdapter] are verified, the ledger of
    the places a player may be in, and the invariant of the actor.

    - [wp]: a script ends, whatever timer reservations it is given, without an
      exception, and the reservations it holds are accounted for.
    - [zone_claims] and [room_claims]: the zones (with the route epoch) and the
      room the routing state still has to leave; [zone_debts], [room_debts]:
      those a cleanup is open for.
    - [player_inv]: the shape of the routing state, and a bound on the cleanups
      that are open and that may still become necessary. *)

From S2P Require Import Prelude FrameCodec Identity Skills Arena Zone RoomTypes Room Player Actor Encoder GameMessages ActorAdapters PlayerAdapter.

(** ** Scripts that end *)

(** [held]: the reservations the script holds, outside its effects and in them. *)
Fixpoint ends {A} (held : list TimerReservation) (Q : list TimerReservation → A → Prop) (s : Script A) : Prop :=
  match s with
  | SThrow => False
  | SRet x => Q held x
  | SReserve c _ k => 0 <= c ∧ ends held Q (k None) ∧ ∀ r, ends (r :: held) Q (k (Some r))
  | SDrop r k => ∃ rest, held ≡ₚ r :: rest ∧ ends rest Q k
  end.

Lemma ends_bind {A B} held (Q : list TimerReservation → B → Prop) (f : A → Script B) s :
  ends held (fun h x => ends h Q (f x)) s → ends held Q (script_bind f s).
Proof.
  revert held. induction s as [|x|c t k IH|r k IH]; intros held; cbn [ends script_bind]; try done.
  - intros (Hc & HN & HS). split_and!; [done|by apply IH|]. intros r. by apply IH.
  - intros (rest & Hp & Hk). exists rest. split; [done|by apply IH].
Qed.

Lemma ends_mono {A} held (Q R : list TimerReservation → A → Prop) s : (∀ h x, Q h x → R h x) → ends held Q s → ends held R s.
Proof.
  intros HQ. revert held. induction s as [|x|c t k IH|r k IH]; intros held; cbn [ends]; try done.
  - apply HQ.
  - intros (Hc & HN & HS). split_and!; [done|by apply IH|]. intros r. by apply IH.
  - intros (rest & Hp & Hk). exists rest. split; [done|by apply IH].
Qed.

Definition wp {A} (m : PM A) (Q : A → PlayerActorAdapter → Batch → list TimerReservation → Prop) (a : PlayerActorAdapter) (es : Batch)
    (held : list TimerReservation) : Prop :=
  ends held (fun h '(x, a', es') => Q x a' es' h) (m a es).

Section rules.
Context {A B : Type}.
Implicit Types (Q : A → PlayerActorAdapter → Batch → list TimerReservation → Prop).

Lemma wp_mono (m : PM A) Q R a es held : (∀ x a' es' h, Q x a' es' h → R x a' es' h) → wp m Q a es held → wp m R a es held.
Proof. intros HQ. apply ends_mono. intros h [[x a'] es']. apply HQ. Qed.

Lemma wp_ret (x : A) Q a es held : Q x a es held → wp (mret x) Q a es held.
Proof. done. Qed.

Lemma wp_bind (m : PM B) (f : B → PM A) Q a es held : wp m (fun x => wp (f x) Q) a es held → wp (m ≫= f) Q a es held.
Proof. intros H. apply ends_bind. revert H. apply ends_mono. by intros h [[x a'] es']. Qed.
End rules.

Lemma wp_this Q a es held : Q a a es held → wp this Q a es held.
Proof. done. Qed.

Lemma wp_update f Q a es held : Q tt (f a) es held → wp (update f) Q a es held.
Proof. done. Qed.

Lemma wp_push e Q a es held : zlen es < 64 → Q tt a (es ++ [e]) held → wp (push_effect e) Q a es held.
Proof. intros Hl H. unfold wp, push_effect, effects_push, effects_tryPush. by rewrite (proj2 (Z.leb_gt _ _)) by done. Qed.

Lemma wp_push_each l Q a es held : zlen es + zlen l <= 64 → Q tt a (es ++ l) held → wp (push_each l) Q a es held.
Proof.
  revert es. induction l as [|e l IH]; intros es Hl H; unfold zlen in *; cbn [push_each length] in *; [by rewrite app_nil_r in H|].
  apply wp_bind, wp_push; [unfold zlen; lia|]. apply IH; [rewrite length_app; cbn; lia|]. by rewrite <-app_assoc.
Qed.

Lemma wp_lift {A} (o : outcome A) x Q a es held : o = Ret x → Q x a es held → wp (lift o) Q a es held.
Proof. by intros ->. Qed.

Section guarded.
Context (chargedBytes : GameMessage → Z) (Hcharge : ∀ m, 0 <= chargedBytes m).

Lemma wp_with_timer {A} timeout context (refused : PM A) go Q a es held :
  wp refused Q a es held → wp (go None) Q a es held → (∀ r, wp (go (Some r)) Q a es (r :: held)) →
  wp (with_timer chargedBytes timeout context refused go) Q a es held.
Proof.
  intros HN HG HS. unfold with_timer. apply wp_bind, wp_this. destruct (pa_admission a); [|done]. apply wp_bind. split_and!; [apply Hcharge|done|].
  apply HS.
Qed.
End guarded.

Lemma wp_schedule timeout context reservation Q a es held :
  zlen es < 64 →
  Q tt a (es ++ match reservation with
                | Some r => [ScheduleTimerEffect (after (turn_now context) WORKFLOW_TIMEOUT) timeout (Some r)]
                | None => []
                end) held →
  wp (schedule_timeout timeout context reservation) Q a es held.
Proof. intros Hl. destruct reservation as [r|]; cbn [schedule_timeout]; [by apply wp_push|]. by rewrite app_nil_r. Qed.

(** ** Saves do not matter to routing *)

Definition is_save (e : GameEffect) : Prop := ∃ deadline player, e = ScheduleTimerEffect deadline (PlayerSaveMessage player) None.

(** A save timer may have been added. *)
Definition saving (a : PlayerActorAdapter) (es : Batch) (a' : PlayerActorAdapter) (es' : Batch) : Prop :=
  (a' = a ∧ es' = es) ∨ (a' = set_pa_save_scheduled true a ∧ ∃ e, is_save e ∧ es' = es ++ [e]).

Lemma wp_save now Q a es held :
  zlen es < 64 → (∀ a' es', saving a es a' es' → Q tt a' es' held) → wp (scheduleSaveIfDirty now) Q a es held.
Proof.
  intros Hl H. unfold scheduleSaveIfDirty. apply wp_bind, wp_this. destruct (player_identity a) as [p|]; [|by apply wp_ret, H; left].
  split_if; [by apply wp_ret, H; left|]. apply wp_bind, wp_update, wp_push; [done|]. apply H. right. split; [done|]. eexists.
  split; [by eexists _, _|done].
Qed.

(** ** The ledger *)

(** Zones with the epoch of the entry, rooms with the membership. *)
Abbreviation ZonePlace := (ZoneId * Z)%type.
Abbreviation RoomPlace := (RoomId * option RoomMembership)%type.

Definition op_claims (ops : list PendingZoneOperation) : list ZonePlace :=
  omap (fun op => if bool_decide (op_step op = ZoneEnter) then Some (op_target_zone op, op_target_epoch op) else None) ops.

Definition route_claims (w : WorkflowState) (epoch : Z) : list ZonePlace :=
  match w with
  | StableRoute (Some zone) => [(zone, epoch)]
  | StableRoute None | RouteInRoom _ => []
  | Entering en => [(en_source_zone en, en_source_epoch en)]
  | Returning re => [(re_return_zone re, re_return_epoch re)]
  | Transferring t => [(expected_zone t, expected_epoch t)]
  end.

Definition zone_claims (a : PlayerActorAdapter) : list ZonePlace :=
  op_claims (pa_pending a) ++ route_claims (pa_workflow a) (pa_route_epoch a).

Definition room_claims (a : PlayerActorAdapter) : list RoomPlace :=
  match pa_workflow a with
  | Entering en => [(en_target_room en, pa_membership a)]
  | RouteInRoom r => [(ir_room r, pa_membership a)]
  | _ => []
  end.

Definition zone_debt (c : Cleanup) : option ZonePlace :=
  match key_kind (cl_target c) with KindZone => Some (key_entity (cl_target c), cl_epoch c) | _ => None end.
Definition room_debt (c : Cleanup) : option RoomPlace :=
  match key_kind (cl_target c) with KindRoom => Some (key_entity (cl_target c), cl_membership c) | _ => None end.

Definition open_cleanups (a : PlayerActorAdapter) : list Cleanup := omap id (pa_cleanups a).
Definition zone_debts (a : PlayerActorAdapter) : list ZonePlace := omap zone_debt (open_cleanups a).
Definition room_debts (a : PlayerActorAdapter) : list RoomPlace := omap room_debt (open_cleanups a).

(** What the effects of a turn tell the other actors. *)
Definition zone_leave_of (e : GameEffect) : option ZonePlace :=
  match e with
  | TellActorEffect (mkActorKey KindZone zone) (ZoneCommandMessage _ _ (LeaveZoneCommand _ epoch) None) => Some (zone, epoch)
  | _ => None
  end.
Definition room_leave_of (e : GameEffect) : option RoomId :=
  match e with
  | TellActorEffect (mkActorKey KindRoom room) (RoomCommandMessage _ _ (LeaveRoom _) None _) => Some room
  | _ => None
  end.
Definition zone_enter_of (e : GameEffect) : option ZonePlace :=
  match e with
  | TellActorEffect (mkActorKey KindZone zone) (ZoneCommandMessage _ _ (EnterZoneCommand _ epoch _) _) => Some (zone, epoch)
  | _ => None
  end.
Definition room_join_of (e : GameEffect) : option RoomId :=
  match e with
  | TellActorEffect (mkActorKey _ room) (RoomCommandMessage _ _ (JoinRoom _ _ _) (Some _) _) => Some room
  | _ => None
  end.

(** A leave that nobody answers to becomes a cleanup. *)
Definition owes (e : GameEffect) : bool :=
  match e with
  | TellActorEffect _ (ZoneCommandMessage _ _ (LeaveZoneCommand _ _) None) => true
  | TellActorEffect _ (RoomCommandMessage _ _ (LeaveRoom _) None _) => true
  | _ => false
  end.
Definition owed (es : Batch) : nat := count_if owes es.

(** An outcome that says the player is not (or no longer) in the zone under the
    epoch. *)
Definition zone_evidence (m : GameMessage) (x : ZonePlace) : Prop :=
  ∃ o, m = ZoneOutcomeMessage o ∧ x = (zo_zone o, zo_route_epoch o) ∧
    match zo_step o with
    | ZoneEnter | RoomReturnStep1_ZoneEnter | CrossZoneEnterTarget | CrossZoneRestoreSource =>
        zone_present (zr_status (zo_result o)) = false ∨ zr_position (zo_result o) = None
    | ZoneLeave | RoomJoinStep2_LeaveZone | CrossZoneLeaveSource | CleanupZone => absent_from_zone (zr_status (zo_result o)) = true
    | _ => False
    end.

(** An outcome that says the player has no seat in the room under the
    membership: the join was refused, the battle is over, the leave is done. *)
Definition room_evidence (m : GameMessage) (x : RoomPlace) : Prop :=
  ∃ o, m = RoomOutcomeMessage o ∧ x.1 = ro_room o ∧
    match ro_step o with
    | RoomJoinStep1_JoinRoom => rr_status (ro_result o) ≠ Applied
    | RoomTerminalNotification => x.2 = ro_membership o
    | CleanupRoom => x.2 = ro_membership o ∧ absent_from_room (ro_result o) = true
    | _ => False
    end.

(** ** The invariant *)

Definition move_op (op : PendingZoneOperation) : Prop := op_step op = ZoneMove.

(** At most one operation that enters or leaves is pending, and then alone. *)
Definition pending_ok (w : WorkflowState) (epoch : Z) (ops : list PendingZoneOperation) : Prop :=
  match w with
  | StableRoute zone =>
      (Forall move_op ops ∧ zlen ops <= MAX_PENDING_ZONE_OPS) ∨
      (∃ op, ops = [op] ∧
         ((op_step op = ZoneEnter ∧ (zone = None ∨ (zone = Some (op_target_zone op) ∧ op_target_epoch op = epoch))) ∨
          (op_step op = ZoneLeave ∧ zone = Some (op_target_zone op) ∧ op_target_epoch op = epoch)))
  | Transferring _ => Forall move_op ops ∧ zlen ops <= MAX_PENDING_ZONE_OPS
  | _ => ops = []
  end.

Definition route_ok (w : WorkflowState) (epoch : Z) : Prop :=
  match w with
  | Entering en => (en_step en = RoomJoinStep1_JoinRoom ∨ en_step en = RoomJoinStep2_LeaveZone) ∧ en_source_epoch en = epoch
  | Returning re => re_step re = RoomReturnStep1_ZoneEnter
  | Transferring t =>
      xf_step t = CrossZoneLeaveSource ∨ xf_step t = CrossZoneEnterTarget ∨ (xf_step t = CrossZoneRestoreSource ∧ xf_restore_epoch t ≠ 0)
  | _ => True
  end.

Record routes_ok (a : PlayerActorAdapter) : Prop := {
  ro_pending : pending_ok (pa_workflow a) (pa_route_epoch a) (pa_pending a);
  ro_route : route_ok (pa_workflow a) (pa_route_epoch a);
  ro_deferred : ∀ o, pa_deferred a = Some o → zo_step o = RoomReturnStep1_ZoneEnter ∧ zone_present (zr_status (zo_result o)) = true
}.

Record table_ok (a : PlayerActorAdapter) : Prop := {
  tb_slots : length (pa_cleanups a) = MAX_CLEANUPS;
  tb_count : pa_cleanup_count a = zlen (open_cleanups a);
  tb_armed : pa_cleanup_deadline a = None ↔ pa_cleanup_count a = 0
}.

(** How many cleanups the route and the pending operations may still need. *)
Definition route_weight (w : WorkflowState) : Z :=
  match w with
  | StableRoute None => 0
  | StableRoute (Some _) => 1
  | Returning _ | Transferring _ => 2
  | Entering _ | RouteInRoom _ => 3
  end.
Definition ops_weight (ops : list PendingZoneOperation) : Z := Z.of_nat (count_if not_move ops).
Definition weight (a : PlayerActorAdapter) : Z := route_weight (pa_workflow a) + ops_weight (pa_pending a).

Definition MOST_CLEANUPS : Z := 4.

Record player_inv (p : PlayerId) (a : PlayerActorAdapter) : Prop := {
  pi_identity : player_identity a = Some p;
  pi_routes : routes_ok a;
  pi_table : table_ok a;
  pi_bound : pa_cleanup_count a + weight a <= MOST_CLEANUPS;
  pi_unbound : pa_bound a = None → pa_pending a = [] ∧ pa_workflow a = StableRoute None ∧ pa_closing a = false;
  pi_deferred : pa_deferred a ≠ None → pa_cleanup_count a ≠ 0 ∨ pa_closing a = true ∨ pa_shutdown a = true
}.

(** ** What a handler keeps *)

Definition table (a : PlayerActorAdapter) : list (option Cleanup) * Z * Z * option time_point :=
  (pa_cleanups a, pa_cleanup_count a, pa_cleanup_sequence a, pa_cleanup_deadline a).

(** The player's own connection has closed. *)
Definition ends_connection (a : PlayerActorAdapter) (m : GameMessage) : Prop :=
  ∃ c, m = PlayerConnectionClosedMessage c ∧ pa_bound a = Some c.

(** From the adapter [a0] at the beginning of the turn for [m] to [a], with the
    effects [es]: nothing claimed is forgotten, nothing is entered unclaimed. *)
Record kept (p : PlayerId) (a0 : PlayerActorAdapter) (m : GameMessage) (a : PlayerActorAdapter) (es : Batch) (held : list TimerReservation)
    : Prop := {
  k_identity : player_identity a = Some p;
  k_routes : routes_ok a;
  k_table : table a = table a0;
  k_membership : pa_membership a = pa_membership a0;
  k_bound : pa_cleanup_count a0 + weight a + Z.of_nat (owed es) <= MOST_CLEANUPS;
  k_zones : ∀ x, x ∈ zone_claims a0 → x ∈ zone_claims a ∨ x ∈ omap zone_leave_of es ∨ zone_evidence m x;
  k_rooms : ∀ x, x ∈ room_claims a0 → x ∈ room_claims a ∨ x.1 ∈ omap room_leave_of es ∨ room_evidence m x;
  k_joins : omap room_join_of es = [] ∨ room_claims a0 = [];
  k_enters : ∀ x, x ∈ omap zone_enter_of es → x ∈ zone_claims a;
  k_held : held ≡ₚ omap effect_reservation es;
  k_unbound : pa_bound a = None → pa_pending a = [] ∧ pa_workflow a = StableRoute None ∧ pa_closing a = false;
  k_closing : pa_closing a0 = true → pa_closing a = true ∨ ends_connection a0 m;
  k_deferred : pa_deferred a = pa_deferred a0 ∨ pa_cleanup_count a0 ≠ 0;
  k_shutdown : pa_shutdown a = pa_shutdown a0;
  k_joined : ∀ r, r ∈ omap room_join_of es → r ∈ (room_claims a).*1
}.

Definition post (p : PlayerId) (a0 : PlayerActorAdapter) (m : GameMessage) (t : TurnEnd) (a : PlayerActorAdapter) (es : Batch)
    (held : list TimerReservation) : Prop :=
  t = Completed ∧ kept p a0 m a es held ∧ zlen es <= 20.

(** Frames, closed connections and commands in a battle leave the ledger alone. *)
Definition quiet (e : GameEffect) : Prop :=
  match e with
  | SendFrameEffect _ _ _ | CloseConnectionEffect _ _ _ => True
  | ScheduleTimerEffect _ _ r => r = None
  | TellActorEffect _ (RoomCommandMessage _ _ (LeaveRoom _) _ _) => False
  | TellActorEffect _ (RoomCommandMessage _ _ _ None _) => True
  | _ => False
  end.

Lemma quiet_nothing {A} (f : GameEffect → option A) es : Forall quiet es → (∀ e, quiet e → f e = None) → omap f es = [].
Proof. intros He Hf. induction He as [|e es Hq _ IH]; [done|]. csimpl. by rewrite Hf. Qed.

Lemma owed_app es es' : owed (es ++ es') = (owed es + owed es')%nat.
Proof. apply count_if_app. Qed.

Lemma quiet_owed es : Forall quiet es → owed es = 0%nat.
Proof. unfold owed. induction 1 as [|e es Hq _ IH]; [done|]. cbn [count_if]. rewrite IH. destruct e as [| |? []| |]; cbn in *; by repeat case_match. Qed.

(** The part of an adapter the ledger depends on. *)
Definition routing (a : PlayerActorAdapter) :=
  (player_identity a, pa_workflow a, pa_route_epoch a, pa_pending a, pa_deferred a, table a, pa_membership a, pa_bound a, pa_closing a, pa_shutdown a).

Lemma kept_app p a0 m a a' es es' held :
  kept p a0 m a es held → routing a' = routing a → Forall quiet es' → kept p a0 m a' (es ++ es') held.
Proof.
  intros [H1 [R1 R2 R3] H3 H4 H5 H6 H7 H8 H9 H10 H11 H12 H13 H14 H15] Hr Hq.
  injection Hr as Ei Ew Ee Ep Ed C1 C2 C3 C4 Em Eb Ec Es.
  assert (Hz : omap zone_leave_of es' = [] ∧ omap room_leave_of es' = [] ∧ omap zone_enter_of es' = [] ∧ omap room_join_of es' = []
               ∧ omap effect_reservation es' = []).
  { split_and!; (apply quiet_nothing; [done|]); intros e He; destruct e as [| |[[] ?] []| |]; cbn in *; by repeat case_match. }
  destruct Hz as (Z1 & Z2 & Z3 & Z4 & Z5). assert (Ez : zone_claims a' = zone_claims a) by (unfold zone_claims; congruence).
  assert (Er : room_claims a' = room_claims a) by (unfold room_claims; by rewrite Ew, Em).
  assert (Eg : weight a' = weight a) by (unfold weight; congruence).
  constructor; rewrite ?Eb, ?Ec, ?Ed, ?Es, ?Ew, ?Ep, ?Ez, ?Er, ?Eg, ?omap_app, ?owed_app, ?(quiet_owed es' Hq), ?Nat.add_0_r, ?Z1, ?Z2, ?Z3, ?Z4, ?Z5, ?app_nil_r by done;
    try done; try (unfold table in *; congruence).
  constructor; rewrite ?Ew, ?Ee, ?Ep, ?Ed; done.
Qed.

(** At the beginning of a turn. *)
Lemma kept_start p a m : player_inv p a → kept p a m a [] [].
Proof.
  intros [H1 H2 H3 H4 H5 H6]. constructor; try done; cbn; try tauto; [unfold owed; cbn; lia|..]; intros x Hx; by apply elem_of_nil in Hx.
Qed.

Lemma kept_same p a0 m a es : player_inv p a0 → routing a = routing a0 → Forall quiet es → kept p a0 m a es [].
Proof. intros Hi Hr Hq. apply (kept_app p a0 m a0 a [] es []); [by apply kept_start|done|done]. Qed.

(** The end of a handler. *)
Lemma wp_completed p a0 m a es held : kept p a0 m a es held → zlen es <= 20 → wp (mret Completed) (post p a0 m) a es held.
Proof. intros. by apply wp_ret. Qed.

Lemma wp_finish p a0 m now a es held :
  kept p a0 m a es held → zlen es <= 19 → wp (scheduleSaveIfDirty now;; mret Completed) (post p a0 m) a es held.
Proof.
  intros Hk Hl. apply wp_bind, wp_save; [lia|]. intros a' es' [[-> ->]|(-> & e & (d & q & ->) & ->)]; apply wp_completed; try done; try lia.
  - eapply kept_app; [done|done|]. by constructor.
  - unfold zlen in *. rewrite length_app. cbn. lia.
Qed.

(** The end of a turn that lets its connection go. *)
Definition closed_post (p : PlayerId) (a0 : PlayerActorAdapter) (m : GameMessage) (t : TurnEnd) (a : PlayerActorAdapter) (es : Batch)
    (held : list TimerReservation) : Prop :=
  post p a0 m t a es held ∧ (ends_connection a0 m → pa_bound a = None).

Lemma wp_closed p a0 m now a es held :
  kept p a0 m a es held → pa_bound a = None → zlen es <= 19 →
  wp (scheduleSaveIfDirty now;; mret Completed) (closed_post p a0 m) a es held.
Proof.
  intros Hk Hb Hl. apply wp_bind, wp_save; [lia|]. intros a' es' Hs. apply wp_ret. split; [|by destruct Hs as [[-> _]|[-> _]]].
  destruct Hs as [[-> ->]|(-> & e & (d & q & ->) & ->)]; split_and!; try done; try lia.
  - eapply kept_app; [done|done|]. by constructor.
  - unfold zlen in *. rewrite length_app. cbn. lia.
Qed.
