(* ===== verification/PlayerAdapterTurns.v ===== *)
(** * The turns of a player actor keep its ledger

    Every handler of [PlayerAdapter] verified with the rules of
    [PlayerAdapterInv]: it ends without an exception and with its timer
    reservations accounted for, it keeps the invariant, and what it stops
    claiming it either leaves or has been told is gone. *)

From S2P Require Import Prelude FrameCodec Identity Skills Arena Zone RoomTypes Room Player Actor Encoder GameMessages ActorAdapters PlayerAdapter PlayerAdapterInv.

(** Batches of a known length fit. *)
Ltac fits := unfold zlen; rewrite ?length_app; cbn [length app]; lia.

(** One step of a script. *)
Ltac step :=
  lazymatch goal with
  | |- wp (mbind (fun _ => mret Completed) (scheduleSaveIfDirty _)) (post _ _ _) _ _ _ => apply wp_finish; [|fits]
  | |- wp (mbind (fun _ => mret Completed) (scheduleSaveIfDirty _)) (closed_post _ _ _) _ _ _ => apply wp_closed; [|done|fits]
  | |- wp (mret Completed) (post _ _ _) _ _ _ => apply wp_completed; [|fits]
  | |- wp (mbind _ _) _ _ _ _ => apply wp_bind
  | |- wp this _ _ _ _ => apply wp_this
  | |- wp (update _) _ _ _ _ => apply wp_update
  | |- wp (push_effect _) _ _ _ _ => apply wp_push; [fits|]
  | |- wp (schedule_timeout _ _ _) _ _ _ _ => apply wp_schedule; [fits|]
  | |- wp (mret _) _ _ _ _ => apply wp_ret
  end.
Ltac steps := repeat (cbn beta iota; step).

#[local] Arguments op_claims : simpl never.
#[local] Arguments ops_weight : simpl never.

(** The parts of [kept], computed. *)
Ltac ledger :=
  constructor;
  [ try (cbn; done)
  | constructor; cbn; try done
  | try (cbn; done)
  | try (cbn; done)
  | unfold weight, MOST_CLEANUPS in *; cbn in *; try lia
  | let x := fresh "x" in let Hx := fresh "Hx" in intros x Hx; unfold zone_claims in *; cbn in *
  | let x := fresh "x" in let Hx := fresh "Hx" in intros x Hx; unfold room_claims in *; cbn in *
  | unfold room_claims in *; cbn in *; auto
  | let x := fresh "x" in let Hx := fresh "Hx" in intros x Hx; unfold zone_claims in *; cbn in *
  | try (cbn; done)
  | let Hb := fresh "Hb" in cbn; intros Hb;
    try match goal with I : pa_bound _ = None → _ |- _ => destruct (I Hb) as (? & ? & ?); done || congruence end
  | try (cbn; tauto)
  | try (cbn; tauto)
  | try (cbn; done)
  | let r := fresh "r" in let Hr := fresh "Hr" in intros r Hr; unfold room_claims in *; cbn in * ].

(** Nothing is pending in a stable route. *)
Ltac nothing_pending := left; split; [by constructor|vm_compute; congruence].

Ltac sums := change (ops_weight []) with 0 in *; change (op_claims []) with (@nil ZonePlace) in *; lia.

(** Decided comparisons. *)
Ltac decided := repeat first [rewrite bool_decide_eq_true_2 by done | rewrite bool_decide_eq_false_2 by done]; cbn [orb andb negb].

(** Membership in lists that are known. *)
Ltac claims :=
  repeat match goal with
  | H : _ ∈ [] |- _ => by apply elem_of_nil in H
  | H : _ ∈ _ ++ _ |- _ => apply elem_of_app in H as [H|H]
  | H : _ ∈ _ :: _ |- _ => apply elem_of_cons in H as [->|H]
  end;
  rewrite ?elem_of_app, ?elem_of_cons; try tauto.

Section turns.
Context (chargedBytes : GameMessage → Z) (Hcharge : ∀ m, 0 <= chargedBytes m).
Context (p : PlayerId).

(** ** Answers *)

Lemma close_ok a0 m a c : player_inv p a0 → routing a = routing a0 → wp (close_connection c;; mret Completed) (post p a0 m) a [] [].
Proof. intros Hi Hr. unfold close_connection. steps. apply kept_same; [done|done|]. by repeat constructor. Qed.

Lemma idle_ok a0 m a : player_inv p a0 → routing a = routing a0 → wp (mret Completed) (post p a0 m) a [] [].
Proof. intros Hi Hr. steps. by apply kept_same. Qed.

Lemma answer_zone_ok a0 m a c kind zone status request_id :
  player_inv p a0 → routing a = routing a0 → wp (answer_zone c kind zone status request_id) (post p a0 m) a [] [].
Proof. intros Hi Hr. unfold answer_zone, send_frame. steps. apply kept_same; [done|done|]. by repeat constructor. Qed.

Lemma answer_join_ok a0 m a c room status request_id :
  player_inv p a0 → routing a = routing a0 → wp (answer_join c room status request_id;; mret Completed) (post p a0 m) a [] [].
Proof. intros Hi Hr. unfold answer_join, send_frame. steps. apply kept_same; [done|done|]. by repeat constructor. Qed.

(** ** Requests about zones *)

Lemma pending_moves ops : Forall move_op ops → ops_weight ops = 0 ∧ op_claims ops = [].
Proof.
  unfold ops_weight, op_claims. induction 1 as [|op ops Hop _ [IH1 IH2]]; [done|]. unfold move_op in Hop. csimpl. unfold not_move. rewrite Hop. cbn.
  split; [exact IH1|exact IH2].
Qed.

Lemma not_move_Forall ops : existsb not_move ops = false → Forall move_op ops.
Proof.
  induction ops as [|op ops IH]; [done|]. cbn [existsb]. intros H. to_prop. constructor; [|by apply IH]. unfold not_move in *. to_prop.
  by apply bool_decide_eq_true in H.
Qed.

Lemma cross_zone_ok a0 m c request_id active zone position context :
  player_inv p a0 → pa_cleanup_count a0 = 0 → pa_workflow a0 = StableRoute (Some active) →
  wp (cross_zone_request chargedBytes p c request_id active zone position context) (post p a0 m) a0 [] [].
Proof.
  intros Hi Hc Hw. unfold cross_zone_request, next_correlation. steps. destruct (existsb not_move (pa_pending a0)) eqn:Em; [by apply answer_zone_ok|].
  steps. apply wp_with_timer; [done|by apply answer_zone_ok|..]; [|intros r]; steps.
  all: apply not_move_Forall in Em; destruct (pending_moves _ Em) as [W C].
  all: destruct Hi as [I1 [R1 R2 R3] I3 I4 I5 I6]; rewrite Hw in R1; cbn in R1.
  all: ledger; rewrite ?Hw, ?C in *; cbn in *; claims; try lia.
  all: destruct R1 as [|(op & E & _)]; [done|]; rewrite E in *; done.
Qed.

(** A command that asks a zone in is for the operation that claims it. *)
Definition enters_as (step : WorkflowStep) (epoch : Z) (command : ZoneCommand) : Prop :=
  match command with EnterZoneCommand _ e _ => step = ZoneEnter ∧ e = epoch | _ => True end.

Lemma op_claims_app ops ops' : op_claims (ops ++ ops') = op_claims ops ++ op_claims ops'.
Proof. apply omap_app. Qed.
Lemma ops_weight_app ops ops' : ops_weight (ops ++ ops') = ops_weight ops + ops_weight ops'.
Proof. unfold ops_weight. rewrite count_if_app. lia. Qed.

Lemma ops_weight_one op : 0 <= ops_weight [op] <= 1.
Proof. unfold ops_weight. cbn. destruct (not_move op); lia. Qed.

Lemma stable_weight zone : 0 <= route_weight (StableRoute zone) <= 1.
Proof. destruct zone; cbn; lia. Qed.

Lemma pend_operation_ok a0 m c request_id kind step zone epoch command context here :
  player_inv p a0 → pa_cleanup_count a0 = 0 → pa_workflow a0 = StableRoute here → ops_weight (pa_pending a0) = 0 → enters_as step epoch command → pa_bound a0 ≠ None →
  (∀ correlation,
     pending_ok (StableRoute here) (pa_route_epoch a0) (pa_pending a0 ++ [mkPendingOp correlation step zone epoch request_id])) →
  wp (pend_operation chargedBytes p c request_id kind step zone epoch command context) (post p a0 m) a0 [] [].
Proof.
  intros Hi Hc Hw Hn He Hbound Hp. unfold pend_operation, next_correlation. steps.
  apply wp_with_timer; [done|by apply answer_zone_ok|..]; [|intros r]; steps.
  all: destruct Hi as [I1 [R1 R2 R3] I3 I4 I5 I6]; destruct command; ledger; rewrite ?Hw, ?op_claims_app, ?ops_weight_app in *; cbn in *; claims.
  all: try apply Hp.
  all: try (pose proof (ops_weight_one (mkPendingOp (u64 (pa_correlation a0 + 1)) step zone epoch request_id)); pose proof (stable_weight here);
            cbn in *; lia).
  all: destruct He as [-> ->]; left; right; unfold op_claims; csimpl; by left.
Qed.

(** Only moves are pending while nothing is entered or left. *)
Lemma boundary_free w epoch ops :
  pending_ok w epoch ops → existsb is_boundary ops = false → Forall move_op ops ∧ zlen ops <= MAX_PENDING_ZONE_OPS.
Proof.
  intros H Hb. destruct w as [zone| | | |]; cbn in H; [|by rewrite H..|done].
  destruct H as [|(op & -> & H)]; [done|]. cbn in Hb. unfold is_boundary in Hb. destruct H as [[E _]|[E _]]; rewrite E in Hb; done.
Qed.

Lemma no_pending a0 : pa_pending a0 = [] → ops_weight (pa_pending a0) = 0.
Proof. by intros ->. Qed.

Lemma enter_ok a0 m c request_id zone position context :
  player_inv p a0 → pa_cleanup_count a0 = 0 → pa_bound a0 ≠ None → wp (enter_request chargedBytes p c request_id zone position context) (post p a0 m) a0 [] [].
Proof.
  intros Hi Hc Hbound. unfold enter_request. steps. destruct (zone =? 0); [by apply close_ok|]. unfold isInRoom, in_transition, currentZone.
  destruct (pa_workflow a0) as [here| | | |] eqn:Hw; try by apply answer_zone_ok.
  assert (Hpend : ∀ epoch, here = None ∨ (here = Some zone ∧ epoch = pa_route_epoch a0) →
    wp (if negb (bool_decide (pa_pending a0 = [])) then answer_zone c ZoneReplyEntered zone TransferFailed request_id
        else pend_operation chargedBytes p c request_id ZoneReplyEntered ZoneEnter zone epoch
               (EnterZoneCommand p epoch (saved_position a0 zone position)) context) (post p a0 m) a0 [] []).
  { intros epoch Hh. destruct (bool_decide_reflect (pa_pending a0 = [])) as [E|]; cbn [negb]; [|by apply answer_zone_ok].
    eapply pend_operation_ok; try done; [by apply no_pending|]. intros correlation. rewrite E. right. eexists. split; [done|]. left. cbn.
    split; [done|]. naive_solver. }
  destruct here as [active|]; [|apply Hpend; by left]. destruct (Z.eqb_spec active zone) as [->|]; cbn [negb]; [|by apply cross_zone_ok].
  apply Hpend. by right.
Qed.

Lemma move_ok a0 m c request_id position context :
  player_inv p a0 → pa_cleanup_count a0 = 0 → pa_bound a0 ≠ None → wp (move_request chargedBytes p c request_id position context) (post p a0 m) a0 [] [].
Proof.
  intros Hi Hc Hbound. unfold move_request. steps. unfold isInRoom, in_transition, currentZone.
  destruct (pa_workflow a0) as [here| | | |] eqn:Hw; try by apply answer_zone_ok.
  destruct here as [active|]; [|by apply close_ok]. destruct (existsb is_boundary (pa_pending a0)) eqn:Eb; [by apply answer_zone_ok|].
  destruct (Z.leb_spec MAX_PENDING_ZONE_OPS (zlen (pa_pending a0))); [by apply answer_zone_ok|].
  pose proof (ro_pending _ (pi_routes _ _ Hi)) as Hp. destruct (boundary_free _ _ _ Hp Eb) as [Hm Hl].
  eapply pend_operation_ok; try done; [by apply pending_moves|]. intros correlation. left. split.
  - apply Forall_app. by repeat constructor.
  - unfold zlen, MAX_PENDING_ZONE_OPS in *. rewrite length_app. cbn. lia.
Qed.

Lemma leave_ok a0 m c request_id context :
  player_inv p a0 → pa_cleanup_count a0 = 0 → pa_bound a0 ≠ None → wp (leave_request chargedBytes p c request_id context) (post p a0 m) a0 [] [].
Proof.
  intros Hi Hc Hbound. unfold leave_request. steps. unfold isInRoom, in_transition, currentZone.
  destruct (pa_workflow a0) as [here| | | |] eqn:Hw; try by apply answer_zone_ok.
  destruct here as [active|]; [|by apply close_ok]. destruct (bool_decide_reflect (pa_pending a0 = [])) as [E|]; cbn [negb]; [|by apply answer_zone_ok].
  eapply pend_operation_ok; try done; [by apply no_pending|]. intros correlation. rewrite E. right. eexists. split; [done|]. by right.
Qed.

Lemma handleZoneRequest_ok a0 m c request_id request context :
  player_inv p a0 → wp (handleZoneRequest chargedBytes c request_id request context) (post p a0 m) a0 [] [].
Proof.
  intros Hi. unfold handleZoneRequest, isClosingConnection. steps.
  destruct (negb (pa_cleanup_count a0 =? 0) && negb (pa_closing a0) && bool_decide (pa_bound a0 = Some c)) eqn:E1; [by apply answer_zone_ok|].
  destruct (pa_closing a0 && bool_decide (pa_bound a0 = Some c)) eqn:E2; [by apply idle_ok|]. rewrite (pi_identity _ _ Hi).
  destruct (bool_decide (pa_bound a0 = Some c)) eqn:E3; [|by apply close_ok].
  assert (Hbound : pa_bound a0 ≠ None) by (apply bool_decide_eq_true in E3; congruence).
  assert (Hc : pa_cleanup_count a0 = 0). { rewrite !andb_true_r in *. rewrite E2 in E1. cbn in E1. rewrite andb_true_r in E1. by to_prop. }
  destruct request; [by apply enter_ok|by apply move_ok|by apply leave_ok].
Qed.

(** ** Requests about rooms *)

Lemma join_ok a0 m c request_id room context :
  player_inv p a0 → wp (join_request chargedBytes p c request_id room context) (post p a0 m) a0 [] [].
Proof.
  intros Hi. unfold join_request. steps. destruct (room =? 0); [by apply close_ok|]. unfold isInRoom.
  destruct (pa_workflow a0) as [[source|]| | | |] eqn:Hw; try by apply answer_join_ok.
  destruct (Z.eqb_spec (pa_cleanup_count a0) 0) as [Hc|]; cbn [negb orb]; [|by apply answer_join_ok].
  destruct (bool_decide_reflect (pa_pending a0 = [])) as [E|]; cbn [negb]; [|by apply answer_join_ok].
  unfold next_correlation. steps. apply wp_with_timer; [done|by apply answer_join_ok|..]; [|intros r]; steps.
  all: destruct Hi as [I1 [R1 R2 R3] I3 I4 I5 I6]; ledger; rewrite ?Hw, ?E in *; cbn in *; claims; try sums.
Qed.

Definition battle_command (command : RoomCommand) : Prop := match command with JoinRoom _ _ _ | LeaveRoom _ => False | _ => True end.

Lemma command_room_ok a0 m c request_id room command :
  player_inv p a0 → battle_command command → wp (command_room c request_id room command) (post p a0 m) a0 [] [].
Proof.
  intros Hi Hb. unfold command_room. steps. destruct (pa_workflow a0) as [|?|route|?|?] eqn:Hw; try by apply close_ok.
  destruct (ir_room route =? room); [|by apply close_ok]. steps.
  pose proof (kept_start p a0 m Hi) as [K1 K2 K3 K4 K5 K6 K7 K8 K9 K10 K11 K12 K13 K14 K15]. by destruct command; constructor.
Qed.

Definition held_of (reservation : option TimerReservation) : list TimerReservation :=
  match reservation with Some r => [r] | None => [] end.

(** The way back: the room is left, or known to be over. *)
Lemma return_to_zone_ok a0 m route generation request_id leave timeout reservation context :
  player_inv p a0 → pa_workflow a0 = RouteInRoom route →
  (leave = [tell_leave_room p (ir_room route)] ∨ (leave = [] ∧ room_evidence m (ir_room route, pa_membership a0))) →
  wp (return_to_zone p route generation request_id leave timeout reservation context) (post p a0 m) a0 [] (held_of reservation).
Proof.
  intros Hi Hw Hleave. unfold return_to_zone, next_correlation. steps. apply wp_push_each; [destruct Hleave as [->|[-> _]]; fits|].
  destruct Hleave as [->|[-> He]]; destruct reservation as [r|]; steps.
  all: destruct Hi as [I1 [R1 R2 R3] I3 I4 I5 I6]; rewrite Hw in R1; cbn in R1; ledger; rewrite ?Hw, ?R1 in *; cbn in *; claims; try sums.
Qed.

Lemma leave_room_ok a0 m c request_id context :
  player_inv p a0 → wp (leave_room_request chargedBytes p c request_id context) (post p a0 m) a0 [] [].
Proof.
  intros Hi. unfold leave_room_request. steps. destruct (pa_workflow a0) as [|?|route|?|?] eqn:Hw; try by apply close_ok.
  apply wp_with_timer; [done|by apply close_ok|..]; [|intros r].
  - apply (return_to_zone_ok a0 m route _ _ _ _ None); auto.
  - apply (return_to_zone_ok a0 m route _ _ _ _ (Some r)); auto.
Qed.

Lemma handleRoomRequest_ok a0 m c request_id request context :
  player_inv p a0 → wp (handleRoomRequest chargedBytes c request_id request context) (post p a0 m) a0 [] [].
Proof.
  intros Hi. unfold handleRoomRequest. steps. destruct (isClosingConnection a0 c); [by apply idle_ok|]. rewrite (pi_identity _ _ Hi).
  destruct (bool_decide (pa_bound a0 = Some c)); [|by apply idle_ok].
  destruct request; [by apply join_ok|by apply command_room_ok|by apply leave_room_ok|by apply command_room_ok..].
Qed.

(** ** Outcomes of zones *)

Definition source_cleanup_epoch (t : TransferringRoute) : Z :=
  if bool_decide (xf_step t = CrossZoneRestoreSource) && negb (xf_restore_epoch t =? 0) then xf_restore_epoch t else xf_source_epoch t.

(** A transfer that fails: both zones are left, whatever they know. *)
Lemma fail_transfer_ok a0 m a t t' context :
  player_inv p a0 → pa_workflow a0 = Transferring t → (a = a0 ∨ ∃ epoch, a = set_pa_route_epoch epoch a0) →
  (expected_zone t, expected_epoch t) ∈ [(xf_source_zone t', source_cleanup_epoch t'); (xf_target_zone t', xf_target_epoch t')] ∨
    zone_evidence m (expected_zone t, expected_epoch t) →
  wp (fail_transfer t' context) (post p a0 m) a [] [].
Proof.
  intros Hi Hw Ha Hx. pose proof (pi_identity _ _ Hi) as Hp. unfold fail_transfer, failCrossZoneKnownNone, appendCrossZoneCleanup. steps.
  assert (player_identity a = Some p ∧ pa_bound a = pa_bound a0) as [-> Hb] by (by destruct Ha as [->|[? ->]]). fold (source_cleanup_epoch t'). steps.
  change (pa_bound (set_pa_workflow _ _)) with (pa_bound a). rewrite Hb. destruct (pa_bound a0) as [c|] eqn:Eb; unfold close_connection; steps.
  all: destruct Hi as [I1 [R1 R2 R3] I3 I4 I5 I6]; rewrite Hw in R1; cbn in R1.
  all: assert (C : op_claims (pa_pending a0) = [] ∧ ops_weight (pa_pending a0) = 0) by (destruct R1; split; by apply pending_moves).
  all: destruct C as [C W]; destruct Ha as [->|[epoch ->]]; ledger; rewrite ?Hw, ?C, ?W in *; cbn in *; claims; try sums; try nothing_pending.
  all: try (rewrite !elem_of_cons in Hx; tauto).
  all: try congruence.
  all: split_and!; try done; by apply I5.
Qed.

(** The expected place is one of those a failed transfer leaves. *)
Lemma transfer_left t w epoch :
  route_ok w epoch → w = Transferring t →
  (expected_zone t, expected_epoch t) ∈ [(xf_source_zone t, source_cleanup_epoch t); (xf_target_zone t, xf_target_epoch t)].
Proof.
  intros H ->. cbn in H. unfold expected_zone, expected_epoch, source_cleanup_epoch. destruct H as [E|[E|[E Hn]]]; rewrite E; cbn; claims.
  rewrite (proj2 (Z.eqb_neq _ _)) by done. cbn. tauto.
Qed.

Section transfer.
Context (a0 : PlayerActorAdapter) (Hi : player_inv p a0) (t : TransferringRoute) (Hw : pa_workflow a0 = Transferring t).

Lemma transfer_moves : Forall move_op (pa_pending a0) ∧ zlen (pa_pending a0) <= MAX_PENDING_ZONE_OPS.
Proof. pose proof (ro_pending _ (pi_routes _ _ Hi)) as H. by rewrite Hw in H. Qed.

Lemma fail_here m context : wp (fail_transfer t context) (post p a0 m) a0 [] [].
Proof. eapply fail_transfer_ok; [done|done|by left|]. left. eapply transfer_left; [apply (ro_route _ (pi_routes _ _ Hi))|done]. Qed.

Lemma settle_in_ok m c zone epoch position result request_id context :
  (expected_zone t, expected_epoch t) = (zone, epoch) → wp (settle_in c zone epoch position result request_id context) (post p a0 m) a0 [] [].
Proof.
  intros Hx. unfold settle_in, send_frame. steps. destruct transfer_moves as [M1 M2]. destruct (pending_moves _ M1) as [W C].
  destruct Hi as [I1 [R1 R2 R3] I3 I4 I5 I6]. ledger; rewrite ?Hw, ?C, ?W in *; cbn in *; claims; try sums.
Qed.

(** The next stage, when the last place is known to be left. *)
Lemma enter_stage_ok m c a t' zone epoch position timeout reservation context :
  a = a0 ∨ a = set_pa_route_epoch epoch a0 →
  zone_evidence m (expected_zone t, expected_epoch t) → route_ok (Transferring t') epoch → (expected_zone t', expected_epoch t') = (zone, epoch) →
  wp (enter_stage p c t' zone epoch position timeout reservation context) (post p a0 m) a [] (held_of reservation).
Proof.
  intros Ha He Hr Hx. unfold enter_stage. destruct transfer_moves as [M1 M2]. destruct (pending_moves _ M1) as [W C].
  destruct Hi as [I1 [R1 R2 R3] I3 I4 I5 I6].
  destruct Ha as [-> | ->]; destruct reservation as [r|]; steps; ledger; rewrite ?Hw, ?C, ?W in *; cbn in *; claims; try sums; by left.
Qed.

Lemma left_source_ok c o context :
  xf_step t = CrossZoneLeaveSource → zo_step o = xf_step t → zo_zone o = expected_zone t → zo_route_epoch o = expected_epoch t →
  wp (left_source chargedBytes p c t (zo_result o) context) (post p a0 (ZoneOutcomeMessage o)) a0 [] [].
Proof.
  intros Hs Ho Hz He. unfold left_source. destruct (zr_status (zo_result o)) eqn:Est; try apply fail_here.
  destruct (zr_position (zo_result o)) as [position|] eqn:Ep; [|apply fail_here].
  assert (Hev : zone_evidence (ZoneOutcomeMessage o) (expected_zone t, expected_epoch t)).
  { exists o. rewrite Hz, He, Ho, Hs, Est. done. }
  apply wp_with_timer; [done|apply fail_here|..]; [|intros r].
  - apply (enter_stage_ok _ c _ _ _ _ _ _ None); try done; [by left|]. cbn. tauto.
  - apply (enter_stage_ok _ c _ _ _ _ _ _ (Some r)); try done; [by left|]. cbn. tauto.
Qed.

Lemma entered_target_ok c o context :
  0 <= pa_route_epoch a0 < U64_MAX →
  xf_step t = CrossZoneEnterTarget → zo_step o = xf_step t → zo_zone o = expected_zone t → zo_route_epoch o = expected_epoch t →
  wp (entered_target chargedBytes p c t (zo_result o) context) (post p a0 (ZoneOutcomeMessage o)) a0 [] [].
Proof.
  intros Hepoch Hs Ho Hz He. unfold entered_target. set (restore := this ≫= _).
  assert (Hr : zone_present (zr_status (zo_result o)) = false ∨ zr_position (zo_result o) = None →
               wp restore (post p a0 (ZoneOutcomeMessage o)) a0 [] []).
  { intros Hgone. assert (Hev : zone_evidence (ZoneOutcomeMessage o) (expected_zone t, expected_epoch t)).
    { exists o. rewrite Hz, He, Ho, Hs. done. }
    assert (Hu : u64 (pa_route_epoch a0 + 1) ≠ 0) by (rewrite u64_small; lia).
    unfold restore. steps. apply wp_with_timer; [done|apply fail_here|..]; [|intros r]; steps.
    - apply (enter_stage_ok _ c _ _ _ _ _ _ None); try done; [by right|]. cbn. tauto.
    - apply (enter_stage_ok _ c _ _ _ _ _ _ (Some r)); try done; [by right|]. cbn. tauto. }
  destruct (zone_present (zr_status (zo_result o))) eqn:Est; [|apply Hr; by left].
  destruct (zr_position (zo_result o)) as [position|] eqn:Ep; [|apply Hr; by right].
  apply settle_in_ok. unfold expected_zone, expected_epoch. by rewrite Hs.
Qed.

Lemma restored_source_ok c o context :
  xf_step t = CrossZoneRestoreSource → wp (restored_source p c t (zo_result o) context) (post p a0 (ZoneOutcomeMessage o)) a0 [] [].
Proof.
  intros Hs. unfold restored_source. destruct (zone_present _); [|apply fail_here]. destruct (zr_position _) as [position|]; [|apply fail_here].
  apply settle_in_ok. unfold expected_zone, expected_epoch. by rewrite Hs.
Qed.
End transfer.

Lemma transfer_outcome_ok a0 c o context :
  player_inv p a0 → 0 <= pa_route_epoch a0 < U64_MAX → zo_step o ∈ [CrossZoneLeaveSource; CrossZoneEnterTarget; CrossZoneRestoreSource] →
  wp (transfer_outcome chargedBytes p c o context) (post p a0 (ZoneOutcomeMessage o)) a0 [] [].
Proof.
  intros Hi Hepoch Hstep. unfold transfer_outcome. steps. destruct (pa_workflow a0) as [| | | |t] eqn:Hw; try by apply idle_ok.
  split_if; [by apply idle_ok|]. to_prop. repeat match goal with H : bool_decide _ = true |- _ => apply bool_decide_eq_true in H end.
  destruct (bool_decide_reflect (zr_status (zo_result o) = StaleRoute)) as [Est|Est].
  - steps. eapply fail_transfer_ok; [done|done|right; by eexists|]. right. exists o. split; [done|]. split; [congruence|]. rewrite Est.
    rewrite !elem_of_cons in Hstep. destruct Hstep as [E|[E|[E|E%elem_of_nil]]]; [..|done]; rewrite E; cbn; tauto.
  - pose proof (ro_route _ (pi_routes _ _ Hi)) as Hr. rewrite Hw in Hr. cbn in Hr. destruct (xf_step t) eqn:Es; try (by destruct Hr as [?|[?|[? _]]]).
    + apply left_source_ok; congruence.
    + apply entered_target_ok; congruence.
    + by apply restored_source_ok.
Qed.

(** Joining: the zone has been left, or the room is left again. *)
Lemma join_left_zone_ok a0 c o context :
  player_inv p a0 → zo_step o = RoomJoinStep2_LeaveZone → wp (join_left_zone p c o context) (post p a0 (ZoneOutcomeMessage o)) a0 [] [].
Proof.
  intros Hi Hstep. unfold join_left_zone. steps. destruct (pa_workflow a0) as [|en| | |] eqn:Hw; try by apply idle_ok.
  split_if; [|by apply idle_ok]. to_prop. repeat match goal with H : bool_decide _ = true |- _ => apply bool_decide_eq_true in H end.
  pose proof Hi as [I1 [R1 R2 R3] I3 I4 I5 I6]. rewrite Hw in R1, R2. cbn in R1, R2. destruct R2 as [_ R2].
  assert (Hev : absent_from_zone (zr_status (zo_result o)) = true → zone_evidence (ZoneOutcomeMessage o) (en_source_zone en, en_source_epoch en)).
  { intros. exists o. rewrite Hstep. split_and!; [done|congruence|done]. }
  destruct (zr_status (zo_result o)) eqn:Est; decided; unfold answer_join, send_frame, close_connection; steps.
  all: ledger; rewrite ?Hw, ?R1 in *; cbn in *; claims; try sums.
  all: try (specialize (Hev eq_refl); tauto).
  all: try nothing_pending.
  all: rewrite R2; tauto.
Qed.

(** Returning: back in the zone, or the zone is left for good. *)
Lemma return_entered_ok a0 c o context :
  player_inv p a0 → zo_step o = RoomReturnStep1_ZoneEnter → wp (return_entered p c o context) (post p a0 (ZoneOutcomeMessage o)) a0 [] [].
Proof.
  intros Hi Hstep. unfold return_entered. steps. destruct (pa_workflow a0) as [| | |re|] eqn:Hw; try by apply idle_ok.
  split_if; [|by apply idle_ok]. to_prop. repeat match goal with H : bool_decide _ = true |- _ => apply bool_decide_eq_true in H end.
  pose proof Hi as [I1 [R1 R2 R3] I3 I4 I5 I6]. rewrite Hw in R1. cbn in R1.
  destruct (zone_present (zr_status (zo_result o))) eqn:Ep.
  - destruct (Z.eqb_spec (pa_cleanup_count a0) 0); cbn [andb negb]; unfold send_frame; steps.
    all: ledger; rewrite ?Hw, ?R1 in *; cbn in *; claims; try sums; try nothing_pending; try (by left); try (by right).
    by intros ? [= <-].
  - rewrite andb_false_r. unfold close_connection. steps.
    ledger; rewrite ?Hw, ?R1 in *; cbn in *; claims; try sums; try nothing_pending.
    right. right. exists o. rewrite Hstep, Ep. split_and!; [done|congruence|by left].
Qed.

Lemma find_op_spec f ops op others :
  find_op f ops = Some (op, others) → f op = true ∧ ops ≡ₚ op :: others.
Proof.
  revert others. induction ops as [|o ops IH]; intros others; [done|]. cbn [find_op]. destruct (f o) eqn:E; [by intros [= -> ->]|].
  destruct (find_op f ops) as [[q l]|]; [|done]. cbn. intros [= -> <-]. destruct (IH _ eq_refl) as [Hf Hp]. split; [done|].
  rewrite Hp. apply perm_swap.
Qed.

(** The operation found is a move among moves, or the only one. *)
Lemma found_op w epoch ops f op others :
  pending_ok w epoch ops → find_op f ops = Some (op, others) →
  (move_op op ∧ Forall move_op others ∧ zlen others <= MAX_PENDING_ZONE_OPS ∧ pending_ok w epoch others ∧ op_claims ops = [] ∧
     op_claims others = [] ∧ ops_weight ops = 0 ∧ ops_weight others = 0) ∨
  (others = [] ∧ ops = [op] ∧ ∃ zone, w = StableRoute zone ∧
     ((op_step op = ZoneEnter ∧ (zone = None ∨ (zone = Some (op_target_zone op) ∧ op_target_epoch op = epoch))) ∨
      (op_step op = ZoneLeave ∧ zone = Some (op_target_zone op) ∧ op_target_epoch op = epoch))).
Proof.
  intros Hp [_ Hperm]%find_op_spec.
  assert (Hmoves : Forall move_op ops ∧ zlen ops <= MAX_PENDING_ZONE_OPS → (∀ l, Forall move_op l ∧ zlen l <= MAX_PENDING_ZONE_OPS → pending_ok w epoch l) →
    move_op op ∧ Forall move_op others ∧ zlen others <= MAX_PENDING_ZONE_OPS ∧ pending_ok w epoch others ∧ op_claims ops = [] ∧
      op_claims others = [] ∧ ops_weight ops = 0 ∧ ops_weight others = 0).
  { intros [Hm Hl] Hw. pose proof Hm as Hm'. rewrite Hperm in Hm'. apply Forall_cons in Hm' as [H1 H2].
    assert (zlen others <= MAX_PENDING_ZONE_OPS). { apply Permutation_length in Hperm. unfold zlen in *. cbn in Hperm. lia. }
    split_and!; try done; [by apply Hw|by apply pending_moves..]. }
  destruct w as [zone| | | |]; cbn in Hp; try (rewrite Hp in Hperm; by apply Permutation_nil_cons in Hperm).
  - destruct Hp as [Hm|(q & -> & Hq)]; [left; apply Hmoves; [done|]; intros l Hl; by left|].
    apply Permutation_singleton_l in Hperm. injection Hperm as -> ->. right. split_and!; [done|done|]. by exists zone.
  - left. by apply Hmoves.
Qed.

Lemma pending_outcome_ok a0 c o context :
  player_inv p a0 → wp (pending_outcome c o context) (post p a0 (ZoneOutcomeMessage o)) a0 [] [].
Proof.
  intros Hi. unfold pending_outcome. steps. destruct (find_op _ (pa_pending a0)) as [[op others]|] eqn:Ef; [|by apply idle_ok].
  split_if; [by apply idle_ok|]. to_prop.
  pose proof Hi as [I1 [R1 R2 R3] I3 I4 I5 I6]. assert (Hbound : pa_bound a0 ≠ None) by (intros Hb; destruct (I5 Hb) as [E _]; by rewrite E in Ef).
  pose proof (proj1 (find_op_spec _ _ _ _ Ef)) as Hop. unfold is_op in Hop. to_prop.
  apply bool_decide_eq_true in H4. destruct (found_op _ _ _ _ _ _ R1 Ef) as [(M1 & M2 & M3 & M4 & C1 & C2 & W1 & W2)|(-> & Eo & here & Hw & Hcase)].
  - unfold settle_operation. unfold move_op in M1. rewrite M1. steps. unfold send_frame.
    destruct (zr_status (zo_result o)); [destruct (zr_position (zo_result o))| | | | | |]; steps.
    all: ledger; rewrite ?C1, ?C2, ?W1, ?W2 in *; cbn in *; claims; try sums.
  - assert (Ex : (zo_zone o, zo_route_epoch o) = (op_target_zone op, op_target_epoch op)) by congruence.
    assert (W : ops_weight [op] = 1) by (unfold ops_weight, not_move; cbn; destruct Hcase as [[-> _]|[-> _]]; done).
    unfold settle_operation, send_frame. destruct Hcase as [[Es Hh]|(Es & -> & Hh)]; rewrite Es; steps.
    + assert (C : op_claims [op] = [(op_target_zone op, op_target_epoch op)]) by (unfold op_claims; csimpl; by rewrite Es).
      assert (Hev : zone_present (zr_status (zo_result o)) = false → zone_evidence (ZoneOutcomeMessage o) (op_target_zone op, op_target_epoch op)).
      { intros. exists o. rewrite Ex, <-H4, Es. auto. }
      destruct (zr_status (zo_result o)) eqn:Est; [destruct (zr_position (zo_result o))| | | | | |]; steps; destruct Hh as [->|[-> Hh]].
      all: ledger; rewrite ?Hw, ?Eo, ?C, ?W in *; cbn in *; claims; try sums; try nothing_pending; try by left; rewrite ?Ex, <-?Hh in *; try tauto.
    + assert (C : op_claims [op] = []) by (unfold op_claims; csimpl; by rewrite Es).
      destruct (zr_status (zo_result o)) eqn:Est; steps.
      all: ledger; rewrite ?Hw, ?Eo, ?C, ?W in *; cbn in *; claims; try sums; try nothing_pending.
      right. right. exists o. rewrite Ex, <-H4, Es, Est. split_and!; [done|congruence|done].
Qed.

Lemma handleZoneOutcome_ok a0 o context :
  player_inv p a0 → 0 <= pa_route_epoch a0 < U64_MAX →
  wp (handleZoneOutcome chargedBytes o context) (post p a0 (ZoneOutcomeMessage o)) a0 [] [].
Proof.
  intros Hi He. unfold handleZoneOutcome. steps. destruct (pa_closing a0); [by apply idle_ok|]. rewrite (pi_identity _ _ Hi).
  destruct (pa_bound a0) as [c|]; [|by apply idle_ok]. split_if; [by apply idle_ok|].
  destruct (zo_step o) eqn:Es; try by apply pending_outcome_ok.
  - by apply join_left_zone_ok.
  - by apply return_entered_ok.
  - apply transfer_outcome_ok; [done|done|]. rewrite Es. by left.
  - apply transfer_outcome_ok; [done|done|]. rewrite Es. by right; left.
  - apply transfer_outcome_ok; [done|done|]. rewrite Es. by right; right; left.
Qed.

(** ** Outcomes of rooms *)

Lemma terminal_ok a0 o context :
  player_inv p a0 → ro_step o = RoomTerminalNotification →
  wp (terminal_notification chargedBytes p o context) (post p a0 (RoomOutcomeMessage o)) a0 [] [].
Proof.
  intros Hi Hstep. unfold terminal_notification. steps. destruct (bool_decide_reflect (pa_membership a0 = ro_membership o)) as [Em|]; cbn [negb];
    [|by apply idle_ok].
  destruct (pa_workflow a0) as [| |route| |] eqn:Hw; try by apply idle_ok. destruct (Z.eqb_spec (ir_room route) (ro_room o)) as [Er|]; [|by apply idle_ok].
  assert (Hev : room_evidence (RoomOutcomeMessage o) (ir_room route, pa_membership a0)).
  { exists o. rewrite Hstep. cbn. split_and!; done. }
  apply wp_with_timer; [done|..]; [|apply (return_to_zone_ok a0 _ route _ _ _ _ None); auto
                                   |intros r; apply (return_to_zone_ok a0 _ route _ _ _ _ (Some r)); auto].
  steps. pose proof Hi as [I1 [R1 R2 R3] I3 I4 I5 I6]. rewrite Hw in R1. cbn in R1.
  destruct (pa_bound a0) as [c|] eqn:Eb; [|destruct (I5 eq_refl) as (_ & ? & _); congruence]. unfold close_connection. steps.
  ledger; rewrite ?Hw, ?R1 in *; cbn in *; claims; try sums; try nothing_pending; congruence.
Qed.

Lemma join_outcome_ok a0 c o context :
  player_inv p a0 → wp (join_outcome chargedBytes p c o context) (post p a0 (RoomOutcomeMessage o)) a0 [] [].
Proof.
  intros Hi. unfold join_outcome. steps. destruct (pa_workflow a0) as [|en| | |] eqn:Hw; try by apply idle_ok.
  split_if; [|by apply idle_ok]. to_prop. repeat match goal with H : bool_decide _ = true |- _ => apply bool_decide_eq_true in H end.
  pose proof Hi as [I1 [R1 R2 R3] I3 I4 I5 I6]. rewrite Hw in R1, R2. cbn in R1, R2. destruct R2 as [_ R2].
  unfold answer_join, send_frame. destruct (bool_decide_reflect (rr_status (ro_result o) = Applied)) as [Ea|Ea].
  - apply wp_with_timer; [done|..]; [|intros; steps..]; steps.
    all: ledger; rewrite ?Hw, ?R1 in *; cbn in *; claims; try sums; try nothing_pending; rewrite ?R2 in *; try tauto.
  - steps. ledger; rewrite ?Hw, ?R1 in *; cbn in *; claims; try sums; try nothing_pending; rewrite ?R2 in *; try tauto.
    right. right. exists o. replace (ro_step o) with RoomJoinStep1_JoinRoom by congruence. cbn. split_and!; [done|congruence|done].
Qed.

Lemma handleRoomOutcome_ok a0 o context :
  player_inv p a0 → wp (handleRoomOutcome chargedBytes o context) (post p a0 (RoomOutcomeMessage o)) a0 [] [].
Proof.
  intros Hi. unfold handleRoomOutcome. steps. destruct (pa_closing a0); [by apply idle_ok|]. rewrite (pi_identity _ _ Hi).
  split_if; [by apply idle_ok|]. destruct (bool_decide_reflect (ro_step o = RoomTerminalNotification)); [by apply terminal_ok|].
  destruct (pa_bound a0) as [c|]; [|by apply idle_ok]. split_if; [by apply join_outcome_ok|by apply idle_ok].
Qed.

(** ** Timeouts *)

Lemma entering_timeout_ok a0 m en context :
  player_inv p a0 → pa_workflow a0 = Entering en → wp (entering_timeout en context) (post p a0 m) a0 [] [].
Proof.
  intros Hi Hw. pose proof Hi as [I1 [R1 R2 R3] I3 I4 I5 I6]. rewrite Hw in R1, R2. cbn in R1, R2. destruct R2 as [Hs R2].
  assert (Hbound : pa_bound a0 ≠ None) by (intros Hb; destruct (I5 Hb) as (_ & ? & _); congruence).
  unfold entering_timeout, when_identified, answer_join, send_frame, close_connection. steps. destruct (pa_bound a0) as [c|] eqn:Eb; [|done].
  destruct Hs as [E|E]; rewrite E; steps; rewrite I1; steps.
  all: ledger; rewrite ?Hw, ?R1 in *; cbn in *; claims; try sums; try nothing_pending; rewrite ?R2; try tauto; congruence.
Qed.

Lemma returning_timeout_ok a0 m re context :
  player_inv p a0 → pa_workflow a0 = Returning re → wp (returning_timeout re context) (post p a0 m) a0 [] [].
Proof.
  intros Hi Hw. pose proof Hi as [I1 [R1 R2 R3] I3 I4 I5 I6]. rewrite Hw in R1. cbn in R1.
  assert (Hbound : pa_bound a0 ≠ None) by (intros Hb; destruct (I5 Hb) as (_ & ? & _); congruence).
  unfold returning_timeout, when_identified, close_connection. steps. rewrite I1. destruct (pa_bound a0) as [c|] eqn:Eb; [|done]. steps.
  ledger; rewrite ?Hw, ?R1 in *; cbn in *; claims; try sums; try nothing_pending; congruence.
Qed.

Lemma handleWorkflowTimeout_ok a0 m correlation step context :
  player_inv p a0 → wp (handleWorkflowTimeout correlation step context) (post p a0 m) a0 [] [].
Proof.
  intros Hi. unfold handleWorkflowTimeout. steps. destruct (pa_closing a0); [by apply idle_ok|].
  pose proof Hi as [I1 [R1 R2 R3] I3 I4 I5 I6]. destruct (find_op _ (pa_pending a0)) as [[op others]|] eqn:Ef.
  - assert (Hbound : pa_bound a0 ≠ None) by (intros Hb; destruct (I5 Hb) as [E _]; by rewrite E in Ef).
    unfold operation_timeout, when_identified, send_frame, close_connection. destruct (pa_bound a0) as [c|] eqn:Eb; [|done]. steps.
    destruct (found_op _ _ _ _ _ _ R1 Ef) as [(M1 & M2 & M3 & M4 & C1 & C2 & W1 & W2)|(-> & Eo & here & Hw & Hcase)].
    + unfold move_op in M1. rewrite M1. steps. ledger; rewrite ?C1, ?C2, ?W1, ?W2 in *; cbn in *; claims; try sums; congruence.
    + assert (W : ops_weight [op] = 1) by (unfold ops_weight, not_move; cbn; destruct Hcase as [[-> _]|[-> _]]; done).
      change (player_identity (set_pa_pending [] a0)) with (player_identity a0).
      destruct Hcase as [[Es Hh]|(Es & -> & Hh)]; rewrite Es; steps; change (player_identity (set_pa_pending [] a0)) with (player_identity a0);
        rewrite I1; steps.
      * assert (C : op_claims [op] = [(op_target_zone op, op_target_epoch op)]) by (unfold op_claims; csimpl; by rewrite Es).
        destruct Hh as [->|[-> Hh]]; ledger; rewrite ?Hw, ?Eo, ?C, ?W in *; cbn in *; claims; try sums; try nothing_pending; congruence.
      * assert (C : op_claims [op] = []) by (unfold op_claims; csimpl; by rewrite Es).
        ledger; rewrite ?Hw, ?Eo, ?C, ?W in *; cbn in *; claims; try sums; try nothing_pending; try congruence. rewrite Hh. tauto.
  - destruct (pa_workflow a0) as [|en| |re|t] eqn:Hw; try (by apply idle_ok); (split_if; [|by apply idle_ok]);
      [by apply entering_timeout_ok|by apply returning_timeout_ok|by apply fail_here].
Qed.

(** ** Commands *)

(** The messages a player's actor is sent: it authenticates as that player, and
    over a connection. *)
Definition message_ok (m : GameMessage) : Prop :=
  match m with
  | PlayerCommandMessage connection _ (AuthenticateCommand q) => q = p ∧ has_value connection = true
  | _ => True
  end.

Lemma handle_total (q : Player) command :
  identity (session (state q)) = Some p → (∀ r, command = AuthenticateCommand r → r = p) →
  ∃ result q', handle q command = Ret (result, q') ∧ identity (session (state q')) = Some p ∧
    ((∃ r, result = mkPlayerResult [r] None) ∨ (∃ j, result = mkPlayerResult [] (Some j))).
Proof.
  intros Hid Hauth. assert (∃ result q', handleCommand q command = Ret (result, q') ∧ identity (session (state q')) = Some p ∧
    ((∃ r, result = mkPlayerResult [r] None) ∨ (∃ j, result = mkPlayerResult [] (Some j)))) as (result & q' & E & Hq & Hr).
  { destruct command as [payload|r|key product|room|skill]; cbn [handleCommand].
    - eexists _, _. split; [done|]. split; [done|]. left. by eexists.
    - rewrite (Hauth r eq_refl). unfold handleAuthenticate. rewrite Hid, bool_decide_eq_true_2 by done. eexists _, _. split; [done|].
      split; [done|]. left. by eexists.
    - unfold handlePurchase. rewrite Hid. repeat case_match; (eexists _, _; split; [done|]; split; [|left; by eexists]); try done.
      cbn. by rewrite commitPurchase_session.
    - unfold handleJoinRoom. rewrite Hid. eexists _, _. split; [done|]. split; [done|]. right. by eexists.
    - unfold handleEquipSkill. rewrite Hid. cbn. destruct (equipSkillId _ _) as [[] l]; (eexists _, _; split; [done|]; split; [done|]; left; by eexists). }
  exists result, (with_state q' (count_command (state q'))). split; [|done]. apply handle_ret. by exists q'.
Qed.

Lemma run_command_ok a0 m a connection request_id command context :
  kept p a0 m a [] [] → (∀ r, command = AuthenticateCommand r → r = p) →
  wp (run_command connection request_id command context) (post p a0 m) a [] [].
Proof.
  intros Hk Hc. unfold run_command. steps. pose proof (k_identity _ _ _ _ _ _ Hk) as Hid.
  destruct (handle_total (pa_player a) command Hid Hc) as (result & q & Eh & Hq & Hr). eapply wp_lift; [done|]. steps.
  assert (∃ es, toEffects_player (mkPlayerTurn connection request_id (player_identity (set_pa_player q a))) result = Some es ∧ Forall quiet es ∧
                zlen es <= 1) as (es & Ees & Hes & Hl).
  { unfold toEffects_player, push_all. destruct Hr as [[r ->]|[j ->]]; destruct connection as [c|]; cbn; eexists; split; try done;
      (split; [by repeat constructor|done]). }
  unfold wp at 1. cbn beta. rewrite Ees. cbn [ends]. change (wp (scheduleSaveIfDirty (turn_now context);; mret Completed) (post p a0 m) (set_pa_player q a) es []).
  apply wp_finish; [|lia]. apply (kept_app p a0 m a (set_pa_player q a) [] es []); [done| |done].
  unfold routing, player_identity in *. cbn. by rewrite Hq, Hid.
Qed.

(** A connection that is not closing may take the player that no other has. *)
Lemma rebinds_open a0 c : player_inv p a0 → isClosingConnection a0 c = false → conflicting a0 (Some c) = None → pa_closing a0 = false.
Proof.
  intros Hi. unfold isClosingConnection, conflicting. pose proof (pi_unbound _ _ Hi) as Hu. destruct (pa_bound a0) as [bound|]; [|by intros; apply Hu].
  destruct (bool_decide_reflect (bound = c)) as [->|]; [|done]. rewrite bool_decide_eq_true_2 by done. by rewrite andb_true_r.
Qed.

Lemma kept_rebound a0 m a es held c :
  pa_closing a0 = false → kept p a0 m a es held → kept p a0 m (set_pa_closing false (set_pa_bound (Some c) a)) es held.
Proof. intros Hc [K1 [R1 R2 R3] K3 K4 K5 K6 K7 K8 K9 K10 K11 K12 K13 K14 K15]. constructor; try done. by rewrite Hc. Qed.

Lemma command_turn_ok a0 m connection request_id command context :
  player_inv p a0 → message_ok (PlayerCommandMessage connection request_id command) →
  wp (command_turn connection request_id command context) (post p a0 m) a0 [] [].
Proof.
  intros Hi Hm. unfold command_turn. steps. destruct (isClosingOptional a0 connection) eqn:Ec; [by apply idle_ok|].
  destruct command as [payload|q|key product|room|skill]; cbn [is_authenticate];
    try (apply run_command_ok; [by apply kept_start|done]).
  destruct Hm as [-> Hc]. destruct connection as [c|]; [|done].
  destruct (pa_cleanup_count a0 =? 0); [|by apply close_ok]. destruct (conflicting a0 (Some c)) as [c'|] eqn:En.
  - steps. apply close_ok; done.
  - steps. apply run_command_ok; [|naive_solver]. apply kept_rebound; [by apply (rebinds_open a0 c)|by apply kept_start].
Qed.

Lemma grant_turn_ok a0 m grant context : player_inv p a0 → wp (grant_turn grant context) (post p a0 m) a0 [] [].
Proof.
  intros Hi. unfold grant_turn. steps. apply kept_same; [done| |done].
  destruct (pa_shutdown _ && _ && _); reflexivity.
Qed.

(** ** Closed connections *)

Lemma leaves_of_ops ops :
  let es := (fun op => tell_leave_zone p (op_target_zone op) (op_target_epoch op)) <$> filter (fun op => op_step op = ZoneEnter) ops in
  omap zone_leave_of es = op_claims ops ∧ omap room_leave_of es = [] ∧ omap zone_enter_of es = [] ∧ omap room_join_of es = [] ∧
  omap effect_reservation es = [] ∧ Z.of_nat (owed es) <= ops_weight ops ∧ zlen es <= zlen ops.
Proof.
  unfold op_claims, ops_weight, zlen, owed. induction ops as [|op ops (I1 & I2 & I3 & I4 & I5 & I6 & I7)]; [done|]. cbn zeta in *.
  rewrite filter_cons. csimpl. unfold not_move at 1. destruct (decide (op_step op = ZoneEnter)) as [E|E].
  - rewrite E. csimpl. rewrite I1, I2, I3, I4, I5. split_and!; try done; lia.
  - rewrite bool_decide_eq_false_2 by done. csimpl. split_and!; try done; [|lia]. destruct (bool_decide _); cbn; lia.
Qed.

(** What a route leaves when its connection closes. *)
Record leaves_route (a : PlayerActorAdapter) (es : Batch) : Prop := {
  lr_zones : ∀ x, x ∈ route_claims (pa_workflow a) (pa_route_epoch a) → x ∈ omap zone_leave_of es;
  lr_rooms : ∀ x, x ∈ room_claims a → x.1 ∈ omap room_leave_of es;
  lr_enters : omap zone_enter_of es = [];
  lr_joins : omap room_join_of es = [];
  lr_reservations : omap effect_reservation es = [];
  lr_owed : Z.of_nat (owed es) <= route_weight (pa_workflow a);
  lr_length : zlen es <= 2
}.

Definition unbind (a : PlayerActorAdapter) : PlayerActorAdapter :=
  set_pa_workflow (StableRoute None) (set_pa_pending [] (set_pa_closing false (set_pa_bound None a))).

Lemma closed_leaves_ok a0 m tail context :
  player_inv p a0 → leaves_route a0 tail → ends_connection a0 m →
  wp (push_each (((fun op => tell_leave_zone p (op_target_zone op) (op_target_epoch op))
                    <$> filter (fun op => op_step op = ZoneEnter) (pa_pending a0)) ++ tail);;
      update unbind;; scheduleSaveIfDirty (turn_now context);; mret Completed) (closed_post p a0 m) a0 [] [].
Proof.
  intros Hi [T1 T2 T3 T4 T5 T6 T7] Hend. pose proof Hi as [I1 [R1 R2 R3] I3 I4 I5 I6].
  destruct (leaves_of_ops (pa_pending a0)) as (L1 & L2 & L3 & L4 & L5 & L6 & L7). set (ops := _ <$> _) in *.
  assert (Hl : zlen (pa_pending a0) <= 16).
  { destruct (pa_workflow a0) as [zone| | | |]; cbn in R1; try (by rewrite R1); [|by destruct R1].
    destruct R1 as [[_ ?]|(op & -> & _)]; done. }
  unfold zlen in *. apply wp_bind, wp_push_each; [unfold zlen; rewrite length_app; cbn; lia|]. apply wp_bind, wp_update. cbn [app].
  apply wp_closed; [|done|unfold zlen; rewrite length_app; lia].
  constructor; rewrite ?omap_app, ?owed_app, ?L1, ?L2, ?L3, ?L4, ?L5, ?T3, ?T4, ?T5, ?app_nil_l; cbn; try done.
  - constructor; cbn; try done. nothing_pending.
  - unfold weight in *. cbn. sums.
  - intros x. unfold zone_claims. rewrite !elem_of_app. cbn. intros [?|Hx]; [tauto|]. right. left. right. by apply T1.
  - intros x Hx. right. left. by apply T2.
  - by left.
  - tauto.
  - tauto.
Qed.

Lemma closed_turn_ok a0 connection context :
  player_inv p a0 → wp (closed_turn connection context) (closed_post p a0 (PlayerConnectionClosedMessage connection)) a0 [] [].
Proof.
  intros Hi. unfold closed_turn. steps. destruct (bool_decide_reflect (pa_bound a0 = Some connection)) as [Eb|Hb].
  2: { apply wp_ret. split; [|by intros (c & [= <-] & ?)]. split_and!; try done. by apply kept_start. }
  assert (Hend : ends_connection a0 (PlayerConnectionClosedMessage connection)) by by exists connection.
  fold unbind. rewrite (pi_identity _ _ Hi). destruct (pa_workflow a0) as [zone|en|route|re|t] eqn:Hw; unfold leaves_of; rewrite ?Hw.
  1-4: apply closed_leaves_ok; [done| |done]; try destruct zone; constructor; unfold room_claims; rewrite ?Hw; cbn; try done;
       intros x Hx; claims.
  unfold failCrossZoneKnownNone, appendCrossZoneCleanup. steps. rewrite (pi_identity _ _ Hi). fold (source_cleanup_epoch t). steps.
  change (pa_bound (set_pa_workflow _ _)) with (pa_bound a0). destruct (transfer_moves a0 Hi t Hw) as [M1 M2].
  destruct (pending_moves _ M1) as [W C]. pose proof (transfer_left t _ _ (ro_route _ (pi_routes _ _ Hi)) Hw) as Hx.
  pose proof Hi as [I1 [R1 R2 R3] I3 I4 I5 I6]. rewrite !elem_of_cons in Hx.
  destruct (pa_bound a0); steps; ledger; rewrite ?Hw, ?C, ?W in *; cbn in *; claims; try sums; try nothing_pending.
Qed.
End turns.
