(* ===== verification/PlayerAdapterSpec.v ===== *)
(** * A player is never forgotten in a zone or a room

    What the turns of a player actor promise together: a turn ends without an
    exception whatever timers it is refused, its batch fits, the invariant
    [player_inv] holds again, and each zone and each room the player may be in
    is still claimed, or owed to the table of cleanups, or was said to be left
    by the message itself.  The cleanups are told again until the zone or the
    room confirms.

    Two defects of the code are shown here as well: a turn whose result is
    overwritten by a return that had waited, and a re-entry that times out. *)

From S2P Require Import Prelude FrameCodec Identity Skills Arena Zone RoomTypes Room Player Actor Encoder GameMessages ActorAdapters PlayerAdapter PlayerAdapterInv PlayerAdapterTurns.

(** ** The table of cleanups

    Leaving effects become entries of it ([prepareLifecycleEffects]), entries are
    told again until they are confirmed, and a confirmation takes out exactly its
    own entry. *)

Lemma last_match_spec f i slots selected k :
  last_match f i slots selected = Some k →
  selected = Some k ∨ ∃ j c, k = (i + j)%nat ∧ slots !! j = Some (Some c) ∧ f c = true.
Proof.
  revert i selected. induction slots as [|slot slots IH]; intros i selected; cbn [last_match]; [tauto|].
  intros [H|(j & c & -> & Hj & Hc)]%IH.
  - destruct slot as [c|]; [|tauto]. destruct (f c) eqn:E; [|tauto]. injection H as <-. right. exists 0%nat, c. split_and!; [lia|done|done].
  - right. exists (S j), c. split_and!; [lia|done|done].
Qed.

Lemma free_cleanup_spec i slots k : first_free i slots = Some k → ∃ j, k = (i + j)%nat ∧ slots !! j = Some None.
Proof.
  revert i. induction slots as [|[c|] slots IH]; intros i; cbn [first_free]; [done| |].
  - intros (j & -> & Hj)%IH. exists (S j). split; [lia|done].
  - intros [= ->]. exists 0%nat. split; [lia|done].
Qed.

Lemma first_free_full i slots : first_free i slots = None → length (omap id slots) = length slots.
Proof. revert i. induction slots as [|[c|] slots IH]; intros i; cbn [first_free]; [done| |done]. intros H%IH. csimpl. by rewrite H. Qed.

Lemma first_match_spec f i slots k :
  first_match f i slots = Some k → ∃ j c, k = (i + j)%nat ∧ slots !! j = Some (Some c) ∧ f c = true.
Proof.
  revert i. induction slots as [|[c|] slots IH]; intros i; cbn [first_match]; [done| |].
  - destruct (f c) eqn:E; [intros [= ->]; exists 0%nat, c; split_and!; [lia|done|done]|].
    intros (j & d & -> & Hj & Hd)%IH. exists (S j), d. split_and!; [lia|done|done].
  - intros (j & d & -> & Hj & Hd)%IH. exists (S j), d. split_and!; [lia|done|done].
Qed.

(** A slot taken, and a slot given back. *)
Lemma slots_take (slots : list (option Cleanup)) i c : slots !! i = Some None → omap id (<[i := Some c]> slots) ≡ₚ c :: omap id slots.
Proof.
  revert i. induction slots as [|slot slots IH]; intros [|i] Hi; cbn in Hi; [done|done|by injection Hi as ->|].
  cbn [insert list_insert]. specialize (IH _ Hi). destruct slot as [d|]; csimpl; [|exact IH]. rewrite IH. apply perm_swap.
Qed.

Lemma slots_release (slots : list (option Cleanup)) i c : slots !! i = Some (Some c) → omap id slots ≡ₚ c :: omap id (<[i := None]> slots).
Proof.
  revert i. induction slots as [|slot slots IH]; intros [|i] Hi; cbn in Hi; [done|done|by injection Hi as ->|].
  cbn [insert list_insert]. specialize (IH _ Hi). destruct slot as [d|]; csimpl; [|exact IH]. rewrite IH. apply perm_swap.
Qed.

Lemma open_lookup (slots : list (option Cleanup)) i c : slots !! i = Some (Some c) → c ∈ omap id slots.
Proof. intros Hi. apply list_elem_of_omap. exists (Some c). split; [|done]. by eapply list_elem_of_lookup_2. Qed.

(** ** Taking a slot *)

(** What taking slots leaves alone. *)
Definition untouched (a : PlayerActorAdapter) :=
  (pa_player a, pa_bound a, pa_closing a, pa_workflow a, pa_route_epoch a, pa_pending a, pa_deferred a, pa_shutdown a).

(** Slots were taken, at most [n] of them. *)
Record extended (n : nat) (a a' : PlayerActorAdapter) : Prop := {
  ex_frame : untouched a' = untouched a;
  ex_slots : length (pa_cleanups a') = MAX_CLEANUPS;
  ex_count : pa_cleanup_count a' = zlen (open_cleanups a');
  ex_more : open_cleanups a ⊆ open_cleanups a';
  ex_bound : (length (open_cleanups a) <= length (open_cleanups a') <= length (open_cleanups a) + n)%nat
}.

Lemma take_slot_ok a debt :
  length (pa_cleanups a) = MAX_CLEANUPS → pa_cleanup_count a = zlen (open_cleanups a) → (length (open_cleanups a) < MAX_CLEANUPS)%nat →
  ∃ a' i c, take_slot a debt = Some (a', i) ∧ extended 1 a a' ∧ pa_cleanups a' !! i = Some (Some c) ∧ pa_membership a' = pa_membership a ∧
    pa_cleanup_deadline a' = pa_cleanup_deadline a ∧
    cl_target c = cl_target debt ∧ cl_epoch c = cl_epoch debt ∧ cl_membership c = cl_membership debt.
Proof.
  intros Hs Hc Hl. unfold take_slot. destruct (last_match (same_debt debt) 0 (pa_cleanups a) None) as [k|] eqn:El.
  - apply last_match_spec in El as [|(j & c & -> & Hj & Hd)]; [done|]. exists a, j, c. unfold same_debt in Hd. to_prop.
    repeat match goal with H : bool_decide _ = true |- _ => apply bool_decide_eq_true in H end.
    split_and!; try done. constructor; try done. lia.
  - destruct (first_free 0 (pa_cleanups a)) as [k|] eqn:Ef; [|apply first_free_full in Ef; unfold open_cleanups in *; lia].
    apply free_cleanup_spec in Ef as (j & -> & Hj). cbn. set (c := mkCleanup _ _ _ _ _).
    pose proof (slots_take _ _ c Hj) as Ht. eexists _, j, c. split_and!; try done.
    + constructor; unfold open_cleanups; cbn; try done.
      * by rewrite length_insert.
      * pose proof (Permutation_length Ht) as HL. rewrite Hc. unfold zlen, open_cleanups in *. cbn in HL. rewrite HL, u64_small; [lia|].
        unfold MAX_CLEANUPS in Hl. lia.
      * intros x Hx. rewrite Ht. by right.
      * rewrite Ht. cbn. unfold open_cleanups. lia.
    + cbn. apply list_lookup_insert_eq. by eapply lookup_lt_Some.
Qed.

Lemma extended_refl n a : length (pa_cleanups a) = MAX_CLEANUPS → pa_cleanup_count a = zlen (open_cleanups a) → extended n a a.
Proof. intros. constructor; try done. lia. Qed.

Lemma extended_trans n k a a1 a2 : extended n a a1 → extended k a1 a2 → extended (n + k) a a2.
Proof.
  intros [E1 E2 E3 E4 E5] [F1 F2 F3 F4 F5]. constructor; [congruence|done|done|set_solver|lia].
Qed.

Lemma debts_more n a a' :
  extended n a a' → (∀ x, x ∈ zone_debts a → x ∈ zone_debts a') ∧ (∀ x, x ∈ room_debts a → x ∈ room_debts a').
Proof.
  intros He. pose proof (ex_more _ _ _ He) as Hm. unfold zone_debts, room_debts. split; intros x; rewrite !list_elem_of_omap; intros (c & Hc & Hx);
    exists c; split; auto.
Qed.

(** ** Preparing the effects *)

Definition owes_n (e : GameEffect) : nat := if owes e then 1 else 0.

(** What preparing one effect does: what it leaves is in the table now. *)
Record prepares (a : PlayerActorAdapter) (e : GameEffect) (a' : PlayerActorAdapter) (e' : GameEffect) : Prop := {
  pr_table : extended (owes_n e) a a';
  pr_armed : (pa_cleanup_deadline a = None ↔ pa_cleanup_count a = 0) → (pa_cleanup_deadline a' = None ↔ pa_cleanup_count a' = 0);
  pr_zone : ∀ x, zone_leave_of e = Some x → x ∈ zone_debts a';
  pr_room : ∀ r, room_leave_of e = Some r → (r, pa_membership a) ∈ room_debts a';
  pr_membership : room_join_of e = None → pa_membership a' = pa_membership a;
  pr_reservation : effect_reservation e' = effect_reservation e;
  pr_enter : zone_enter_of e' = zone_enter_of e;
  pr_joins : room_join_of e' = room_join_of e;
  pr_closes : ∀ bound, closes bound e' = closes bound e
}.

Lemma note_membership_frame context a m :
  let '(a1, m1) := note_membership context a m in
  untouched a1 = untouched a ∧ pa_cleanups a1 = pa_cleanups a ∧ pa_cleanup_count a1 = pa_cleanup_count a ∧
  pa_cleanup_deadline a1 = pa_cleanup_deadline a.
Proof. by destruct m as [| | | |? ? [] [] ?| | | | | | | | | |]. Qed.

Lemma note_membership_quiet context a target m :
  room_join_of (TellActorEffect target m) = None → note_membership context a m = (a, m).
Proof. destruct target. by destruct m as [| | | |? ? [] [] ?| | | | | | | | | |]. Qed.

(** A message that leaves something behind, and the debt. *)
Lemma debt_spec a target m debt :
  debt_of a target m = Some debt →
  owes (TellActorEffect target m) = true ∧ room_join_of (TellActorEffect target m) = None ∧ zone_enter_of (TellActorEffect target m) = None ∧
  cl_target debt = target ∧
  (∀ x, zone_leave_of (TellActorEffect target m) = Some x → key_kind target = KindZone ∧ x = (key_entity target, cl_epoch debt)) ∧
  (∀ r, room_leave_of (TellActorEffect target m) = Some r → key_kind target = KindRoom ∧ r = key_entity target ∧ cl_membership debt = pa_membership a).
Proof.
  destruct target as [[] entity]; destruct m as [| |? ? [] []| |? ? [] [] ?| | | | | | | | | |]; try done;
    intros [= <-]; cbn; split_and!; try done; intros ? [= <-]; done.
Qed.

Lemma no_debt a target m :
  debt_of a target m = None →
  owes (TellActorEffect target m) = false ∧ zone_leave_of (TellActorEffect target m) = None ∧ room_leave_of (TellActorEffect target m) = None.
Proof.
  by destruct target as [[] entity]; destruct m as [| |? ? [] []| |? ? [] [] ?| | | | | | | | | |].
Qed.

Lemma extended_frame n a a1 a' :
  untouched a1 = untouched a → pa_cleanups a1 = pa_cleanups a → extended n a1 a' → extended n a a'.
Proof. intros Hu Hc [E1 E2 E3 E4 E5]. unfold open_cleanups in *. rewrite Hc in *. constructor; try done. congruence. Qed.

Lemma arm_extended now n a a' : extended n a a' → extended n a (arm_cleanup now a').
Proof. intros [E1 E2 E3 E4 E5]. unfold arm_cleanup. by destruct (pa_cleanup_deadline a'); constructor. Qed.

Lemma arm_armed now a : pa_cleanup_count a ≠ 0 → pa_cleanup_deadline (arm_cleanup now a) = None ↔ pa_cleanup_count (arm_cleanup now a) = 0.
Proof. intros Hn. unfold arm_cleanup. destruct (pa_cleanup_deadline a) eqn:E; cbn; [rewrite E|]; done. Qed.

Lemma zone_debt_in a i c :
  pa_cleanups a !! i = Some (Some c) → key_kind (cl_target c) = KindZone → (key_entity (cl_target c), cl_epoch c) ∈ zone_debts a.
Proof. intros Hi Hk. apply list_elem_of_omap. exists c. split; [by eapply open_lookup|]. unfold zone_debt. by rewrite Hk. Qed.

Lemma room_debt_in a i c :
  pa_cleanups a !! i = Some (Some c) → key_kind (cl_target c) = KindRoom → (key_entity (cl_target c), cl_membership c) ∈ room_debts a.
Proof. intros Hi Hk. apply list_elem_of_omap. exists c. split; [by eapply open_lookup|]. unfold room_debt. by rewrite Hk. Qed.

Lemma cleanupMessage_enter player c target : zone_enter_of (TellActorEffect target (cleanupMessage player c)) = None.
Proof. unfold cleanupMessage. destruct target as [[] ?]; by destruct (key_kind (cl_target c)). Qed.
Lemma cleanupMessage_join player c target : room_join_of (TellActorEffect target (cleanupMessage player c)) = None.
Proof. unfold cleanupMessage. destruct target as [k e]; by destruct (key_kind (cl_target c)). Qed.

Lemma prepare_effect_ok context player a e :
  length (pa_cleanups a) = MAX_CLEANUPS → pa_cleanup_count a = zlen (open_cleanups a) →
  (length (open_cleanups a) + owes_n e <= MAX_CLEANUPS)%nat →
  ∃ a' e', prepare_effect context player a e = Some (a', e') ∧ prepares a e a' e'.
Proof.
  intros Hs Hc Hl. destruct e as [| |target m| |];
    try (exists a; eexists; split; [done|]; constructor; try done; by apply extended_refl).
  cbn [prepare_effect]. pose proof (note_membership_frame context a m) as Hf. pose proof (note_membership_quiet context a target m) as Hq.
  destruct (note_membership context a m) as [a1 m1] eqn:En. destruct Hf as (F1 & F2 & F3 & F4).
  assert (Hm : debt_of a1 target m1 = debt_of a1 target m ∧ zone_enter_of (TellActorEffect target m1) = zone_enter_of (TellActorEffect target m)
               ∧ room_join_of (TellActorEffect target m1) = room_join_of (TellActorEffect target m)).
  { unfold note_membership in En. destruct m as [| | | |? ? [] [] ?| | | | | | | | | |]; injection En as <- <-; by destruct target as [[] ?]. }
  destruct Hm as (Hm & Hz & Hj). rewrite Hm. destruct (debt_of a1 target m) as [debt|] eqn:Ed.
  - destruct (debt_spec _ _ _ _ Ed) as (D1 & D2 & D3 & D4 & D5 & D6). specialize (Hq D2). injection Hq as -> ->.
    unfold owes_n in *. rewrite D1 in Hl.
    destruct (take_slot_ok a debt) as (a2 & i & c & E2 & X2 & Hi & Mm & Md & C1 & C2 & C3); [done|done|lia|].
    rewrite E2. cbn. rewrite Hi. cbn. eexists _, _. split; [done|]. rewrite <-C1 in D4.
    assert (Hsl : pa_cleanups (arm_cleanup (turn_now context) a2) !! i = Some (Some c)) by (unfold arm_cleanup; by destruct (pa_cleanup_deadline a2)).
    constructor; unfold owes_n; rewrite ?D1.
    + by apply arm_extended.
    + intros _. apply arm_armed. rewrite (ex_count _ _ _ X2). unfold zlen. pose proof (open_lookup _ _ _ Hi) as Hin.
      unfold open_cleanups. destruct (omap id (pa_cleanups a2)); [by apply elem_of_nil in Hin|cbn; lia].
    + intros x Hx. destruct (D5 x Hx) as [Hk ->]. rewrite <-C2, <-D4. eapply zone_debt_in; [done|by rewrite D4].
    + intros r Hr. destruct (D6 r Hr) as (Hk & -> & Hmm). rewrite <-Hmm, <-C3, <-D4. eapply room_debt_in; [done|by rewrite D4].
    + intros _. rewrite <-Mm. unfold arm_cleanup. by destruct (pa_cleanup_deadline a2).
    + done.
    + by rewrite cleanupMessage_enter.
    + by rewrite cleanupMessage_join.
    + done.
  - destruct (no_debt _ _ _ Ed) as (D1 & D2 & D3). eexists _, _. split; [done|]. constructor; unfold owes_n; rewrite ?D1, ?D2, ?D3; try done.
    + eapply extended_frame; [done|done|]. apply extended_refl; [by rewrite F2|]. unfold open_cleanups. by rewrite F2, F3.
    + by rewrite F3, F4.
    + intros Hn. specialize (Hq Hn). by injection Hq as -> _.
Qed.

(** ** All effects of a turn *)

Record prepared (a : PlayerActorAdapter) (es : Batch) (a' : PlayerActorAdapter) (es' : Batch) : Prop := {
  pd_table : extended (owed es) a a';
  pd_armed : (pa_cleanup_deadline a = None ↔ pa_cleanup_count a = 0) → (pa_cleanup_deadline a' = None ↔ pa_cleanup_count a' = 0);
  pd_zones : ∀ x, x ∈ omap zone_leave_of es → x ∈ zone_debts a';
  pd_rooms : omap room_join_of es = [] → ∀ r, r ∈ omap room_leave_of es → (r, pa_membership a) ∈ room_debts a';
  pd_membership : omap room_join_of es = [] → pa_membership a' = pa_membership a;
  pd_reservations : omap effect_reservation es' = omap effect_reservation es;
  pd_enters : omap zone_enter_of es' = omap zone_enter_of es;
  pd_joins : omap room_join_of es' = omap room_join_of es;
  pd_length : length es' = length es
}.

Lemma prepare_loop_ok context player a es :
  length (pa_cleanups a) = MAX_CLEANUPS → pa_cleanup_count a = zlen (open_cleanups a) →
  (length (open_cleanups a) + owed es <= MAX_CLEANUPS)%nat →
  ∃ a' es', prepare_loop context player a es = Some (a', es') ∧ prepared a es a' es'.
Proof.
  revert a. induction es as [|e es IH]; intros a Hs Hc Hl.
  { exists a, []. split; [done|]. constructor; try done; [by apply extended_refl|set_solver|set_solver]. }
  assert (Ho : owed (e :: es) = (owes_n e + owed es)%nat) by done. rewrite Ho in Hl.
  destruct (prepare_effect_ok context player a e) as (a1 & e1 & E1 & [P1 P2 P3 P4 P5 P6 P7 P8 P9]); [done|done|lia|].
  destruct (IH a1) as (a2 & es2 & E2 & [Q1 Q2 Q3 Q4 Q5 Q6 Q7 Q8 Q9]); [apply P1|apply P1|pose proof (ex_bound _ _ _ P1); lia|].
  exists a2, (e1 :: es2). cbn. rewrite E1. cbn. rewrite E2. split; [done|]. destruct (debts_more _ _ _ Q1) as [Hz Hr].
  constructor.
  - rewrite Ho. by eapply extended_trans.
  - auto.
  - intros x. csimpl. destruct (zone_leave_of e) eqn:Ez; [|auto]. intros [->|Hx]%elem_of_cons; auto.
  - csimpl. destruct (room_join_of e) eqn:Ej; [done|]. intros Hj r. rewrite <-(P5 eq_refl). destruct (room_leave_of e) eqn:Er; [|auto].
    intros [->|Hx]%elem_of_cons; [|auto]. rewrite (P5 eq_refl). auto.
  - csimpl. destruct (room_join_of e) eqn:Ej; [done|]. intros Hj. rewrite Q5, P5; done.
  - csimpl. by rewrite P6, Q6.
  - csimpl. by rewrite P7, Q7.
  - csimpl. by rewrite P8, Q8.
  - cbn. by rewrite Q9.
Qed.

(** ** Confirmed cleanups *)

(** The routing state, the table aside. *)
Definition places (a : PlayerActorAdapter) :=
  (player_identity a, pa_workflow a, pa_route_epoch a, pa_pending a, pa_membership a, pa_bound a, pa_closing a, pa_shutdown a).

(** From [a0] to [a] the message [m] took some cleanups out of the table. *)
Record released (p : PlayerId) (a0 : PlayerActorAdapter) (m : GameMessage) (a : PlayerActorAdapter) : Prop := {
  rl_places : places a = places a0;
  rl_deferred : pa_deferred a = pa_deferred a0;
  rl_table : table_ok a;
  rl_count : pa_cleanup_count a <= pa_cleanup_count a0;
  rl_zones : ∀ x, x ∈ zone_debts a0 → x ∈ zone_debts a ∨ zone_evidence m x;
  rl_rooms : ∀ x, x ∈ room_debts a0 → x ∈ room_debts a ∨ room_evidence m x
}.

Lemma released_same p a0 m : player_inv p a0 → released p a0 m a0.
Proof. intros Hi. constructor; try done; [apply Hi|tauto|tauto]. Qed.

Lemma releaseCleanup_ok p a0 m i c :
  player_inv p a0 → pa_cleanups a0 !! i = Some (Some c) →
  (∀ x, zone_debt c = Some x → zone_evidence m x) → (∀ x, room_debt c = Some x → room_evidence m x) →
  released p a0 m (releaseCleanup i a0).
Proof.
  intros Hi Hc Hz Hr. destruct (pi_table _ _ Hi) as [T1 T2 T3]. pose proof (slots_release _ _ _ Hc) as Hp.
  assert (Hl : zlen (open_cleanups a0) = zlen (omap id (<[i := None]> (pa_cleanups a0))) + 1).
  { unfold open_cleanups, zlen. rewrite Hp. cbn. lia. }
  assert (H0 : 0 <= zlen (omap id (<[i := None]> (pa_cleanups a0)))) by (unfold zlen; lia).
  assert (Hw : 0 <= weight a0).
  { unfold weight, ops_weight. destruct (pa_workflow a0) as [[]| | | |]; cbn; lia. }
  pose proof (pi_bound _ _ Hi) as Hb. unfold MOST_CLEANUPS in Hb.
  assert (Hn : u64 (pa_cleanup_count a0 - 1) = zlen (omap id (<[i := None]> (pa_cleanups a0)))) by (rewrite u64_small; lia).
  assert (Ho : open_cleanups (releaseCleanup i a0) = omap id (<[i := None]> (pa_cleanups a0))).
  { unfold releaseCleanup, open_cleanups. by destruct (_ =? 0). }
  constructor; try (unfold releaseCleanup; by destruct (_ =? 0)).
  - constructor; rewrite ?Ho; unfold releaseCleanup; cbn; rewrite ?Hn.
    + destruct (_ =? 0); cbn; by rewrite length_insert.
    + destruct (_ =? 0); cbn; lia.
    + destruct (Z.eqb_spec (zlen (omap id (<[i:=None]> (pa_cleanups a0)))) 0) as [E|E]; cbn; rewrite ?Hn; [by rewrite E|].
      rewrite T3, T2. lia.
  - unfold releaseCleanup. cbn. rewrite Hn. destruct (_ =? 0); cbn; lia.
  - intros x. unfold zone_debts. rewrite Ho. unfold open_cleanups. rewrite Hp, !list_elem_of_omap. intros (d & [->|Hd]%elem_of_cons & Hx); eauto.
  - intros x. unfold room_debts. rewrite Ho. unfold open_cleanups. rewrite Hp, !list_elem_of_omap. intros (d & [->|Hd]%elem_of_cons & Hx); eauto.
Qed.

(** An outcome takes out only what it confirms. *)
Lemma zone_cleanup_ok p a0 o :
  player_inv p a0 → zo_step o = CleanupZone →
  wp (handleZoneCleanup o) (fun t a es held => t = Completed ∧ released p a0 (ZoneOutcomeMessage o) a ∧ es = [] ∧ held = []) a0 [] [].
Proof.
  intros Hi Hs. unfold handleZoneCleanup. steps. split_and!; try done.
  destruct (first_match (zone_confirms a0 o) 0 (pa_cleanups a0)) as [i|] eqn:Ef; [|by apply released_same].
  destruct (absent_from_zone (zr_status (zo_result o))) eqn:Ea; [|by apply released_same].
  apply first_match_spec in Ef as (j & c & -> & Hj & Hc). unfold zone_confirms in Hc. to_prop.
  repeat match goal with H : bool_decide _ = true |- _ => apply bool_decide_eq_true in H end.
  apply (releaseCleanup_ok p a0 _ j c); [done|done|..]; unfold zone_debt, room_debt;
    (match goal with H : cl_target c = _ |- _ => rewrite H end); cbn; [|done].
  intros x [= <-]. exists o. rewrite Hs. split_and!; [done|congruence|done].
Qed.

Lemma room_cleanup_ok p a0 o :
  player_inv p a0 → ro_step o = CleanupRoom →
  wp (handleRoomCleanup o) (fun t a es held => t = Completed ∧ released p a0 (RoomOutcomeMessage o) a ∧ es = [] ∧ held = []) a0 [] [].
Proof.
  intros Hi Hs. unfold handleRoomCleanup. steps. split_and!; try done.
  destruct (first_match (room_confirms a0 o) 0 (pa_cleanups a0)) as [i|] eqn:Ef; [|by apply released_same].
  destruct (absent_from_room (ro_result o)) eqn:Ea; [|by apply released_same].
  apply first_match_spec in Ef as (j & c & -> & Hj & Hc). unfold room_confirms in Hc. to_prop.
  repeat match goal with H : bool_decide _ = true |- _ => apply bool_decide_eq_true in H end.
  apply (releaseCleanup_ok p a0 _ j c); [done|done|..]; unfold zone_debt, room_debt;
    (match goal with H : cl_target c = _ |- _ => rewrite H end); cbn; [done|].
  intros x [= <-]. exists o. rewrite Hs. split_and!; [done|done|cbn; congruence|done].
Qed.

(** ** A turn before its leaves are written down *)

(** The turn's own result is lost: its connection closes while a return waits
    that nothing holds up any more but this connection. *)
Definition loses_result (a : PlayerActorAdapter) (m : GameMessage) : Prop :=
  ends_connection a m ∧ pa_deferred a ≠ None ∧ pa_cleanup_count a = 0 ∧ pa_shutdown a = false.

#[local] Instance loses_result_dec a m : Decision (loses_result a m).
Proof.
  unfold loses_result. assert (Decision (ends_connection a m)).
  { unfold ends_connection. destruct m; try (right; by intros (c & ? & _)). destruct (decide (pa_bound a = Some connection)) as [E|E].
    - left. by exists connection.
    - right. intros (c & [= ->] & ?). done. }
  apply _.
Defined.

(** The messages a turn for [m] takes account of: [m], and the return that
    waited, if it is not for a closed connection. *)
Definition considers (a : PlayerActorAdapter) (m m' : GameMessage) : Prop :=
  m' = m ∨ ∃ o, pa_deferred a = Some o ∧ m' = ZoneOutcomeMessage o ∧ ∀ c, m ≠ PlayerConnectionClosedMessage c.

Definition dispatched (p : PlayerId) (a0 : PlayerActorAdapter) (m : GameMessage) (t : TurnEnd) (a : PlayerActorAdapter) (es : Batch)
    (held : list TimerReservation) : Prop :=
  (kept p a0 m a es held ∧ zlen es <= 20 ∧ (t ≠ Completed → es = []) ∧ (ends_connection a0 m → pa_bound a = None)) ∨
  (t = Completed ∧ released p a0 m a ∧ es = [] ∧ held = [] ∧ ∀ c, m ≠ PlayerConnectionClosedMessage c).

(** [a1], [m1]: where the last handler of the turn began, and for what. *)
Record settles (p : PlayerId) (a0 : PlayerActorAdapter) (m : GameMessage) (a1 : PlayerActorAdapter) (m1 : GameMessage) : Prop := {
  st_considers : considers a0 m m1;
  st_inv : player_inv p a1;
  st_places : places a1 = places a0;
  st_zones : ∀ x, x ∈ zone_debts a0 → x ∈ zone_debts a1 ∨ zone_evidence m x;
  st_rooms : ∀ x, x ∈ room_debts a0 → x ∈ room_debts a1 ∨ room_evidence m x;
  st_ends : ¬ loses_result a1 m1
}.

Definition settled (p : PlayerId) (a0 : PlayerActorAdapter) (m : GameMessage) (t : TurnEnd) (a : PlayerActorAdapter) (es : Batch)
    (held : list TimerReservation) : Prop :=
  ∃ a1 m1, settles p a0 m a1 m1 ∧ kept p a1 m1 a es held ∧ zlen es <= 20 ∧ (t ≠ Completed → es = []) ∧
    (ends_connection a0 m → pa_bound a = None).

Section dispatch.
Context (chargedBytes : GameMessage → Z) (Hcharge : ∀ m, 0 <= chargedBytes m).
Context (p : PlayerId).

Lemma post_dispatched a0 m mm : ¬ ends_connection a0 m → wp mm (post p a0 m) a0 [] [] → wp mm (dispatched p a0 m) a0 [] [].
Proof. intros Hm. apply wp_mono. intros t a es held (-> & Hk & Hl). left. by split_and!. Qed.

Lemma closed_dispatched a0 m mm : wp mm (closed_post p a0 m) a0 [] [] → wp mm (dispatched p a0 m) a0 [] [].
Proof. apply wp_mono. intros t a es held ((-> & Hk & Hl) & Hb). left. by split_and!. Qed.

(** A snapshot needs the identity, which the player has. *)
Lemma snapshot_total (q : Player) : identity (session (state q)) = Some p → ∃ r, snapshot q = Ret r.
Proof. intros H. unfold snapshot. rewrite H. by eexists. Qed.

Lemma save_turn_ok a0 m : player_inv p a0 → ¬ ends_connection a0 m → wp save_turn (dispatched p a0 m) a0 [] [].
Proof.
  intros Hi Hm. unfold save_turn. steps. pose proof (pi_identity _ _ Hi) as Hid.
  assert (∃ record cleared q, takeDirtySnapshot (pa_player a0) = Ret (record, cleared, q) ∧ identity (session (state q)) = Some p)
    as (record & cleared & q & Eq & Hq).
  { unfold takeDirtySnapshot. destruct (snapshot_total _ Hid) as [r Er]. repeat case_match; try (by eexists _, _, _).
    all: rewrite ?Er; cbn; by eexists _, _, _. }
  eapply wp_lift; [exact Eq|]. steps. destruct record as [r|]; steps; left; split_and!; try done; (apply kept_same; [done| |by constructor]).
  all: unfold routing, player_identity in *; cbn; by rewrite Hq, Hid.
Qed.

Lemma dispatchMessage_ok a0 m context :
  player_inv p a0 → message_ok p m → 0 <= pa_route_epoch a0 < U64_MAX →
  wp (dispatchMessage chargedBytes m context) (dispatched p a0 m) a0 [] [].
Proof.
  intros Hi Hm He. unfold dispatchMessage. steps.
  split_if; [apply post_dispatched; [intros (c & -> & _); by rewrite andb_false_r in *|by apply idle_ok]|].
  destruct m as [| | | | | | | | | | |o|o| |]; try (by apply closed_dispatched, closed_turn_ok).
  all: match goal with |- wp _ (dispatched _ ?b ?m) _ _ _ => assert (Hc : ¬ ends_connection b m) by (by intros (c & ? & _)) end.
  all: try (by apply post_dispatched, idle_ok); try (by apply save_turn_ok).
  all: lazymatch goal with |- wp (if bool_decide _ then _ else _) _ _ _ _ => idtac | _ => apply post_dispatched; [done|] end.
  all: try (by apply command_turn_ok); try (by apply handleZoneRequest_ok); try (by apply handleRoomRequest_ok).
  all: try (by apply handleWorkflowTimeout_ok); try (by apply grant_turn_ok).
  - destruct (isClosingConnection a0 connection); [by apply idle_ok|]. apply run_command_ok; [by apply kept_start|done].
  - destruct (bool_decide_reflect (zo_step o = CleanupZone)); [|by apply post_dispatched, handleZoneOutcome_ok].
    eapply wp_mono; [|by apply zone_cleanup_ok]. intros t a es held (-> & Hr & -> & ->). right. by split_and!.
  - destruct (bool_decide_reflect (ro_step o = CleanupRoom)); [|by apply post_dispatched, handleRoomOutcome_ok].
    eapply wp_mono; [|by apply room_cleanup_ok]. intros t a es held (-> & Hr & -> & ->). right. by split_and!.
Qed.

(** ** The return that waited *)

(** Whether a return that waited is taken up now. *)
Definition resumes (a : PlayerActorAdapter) : bool := (pa_cleanup_count a =? 0) && negb (pa_closing a) && negb (pa_shutdown a).

Lemma released_inv a0 m a d :
  player_inv p a0 → released p a0 m a → d = None ∨ (d = pa_deferred a ∧ resumes a = false) → player_inv p (set_pa_deferred d a).
Proof.
  intros [I1 [R1 R2 R3] I3 I4 I5 I6] [L1 L2 [T1 T2 T3] L4 L5 L6] Hd. injection L1 as E1 E2 E3 E4 E5 E6 E7 E8.
  constructor; [exact (eq_trans E1 I1)|..|]; cbn.
  - constructor; cbn; rewrite ?E2, ?E3, ?E4; try done. intros o Ho. apply R3. destruct Hd as [->|[-> _]]; congruence.
  - by constructor.
  - unfold weight in *. cbn. rewrite E2, E4. lia.
  - rewrite E2, E4, E6, E7. done.
  - intros Hn. destruct Hd as [->|[-> Hr]]; [done|]. unfold resumes in Hr. destruct (Z.eqb_spec (pa_cleanup_count a) 0); [|tauto].
    destruct (pa_closing a); [tauto|]. destruct (pa_shutdown a); [tauto|done].
Qed.

Lemma same_deferred a : set_pa_deferred (pa_deferred a) a = a.
Proof. by destruct a. Qed.

(** A handler that keeps the ledger never lets a return interfere. *)
Lemma kept_resumes a0 m a es held :
  player_inv p a0 → kept p a0 m a es held → ¬ loses_result a0 m → pa_deferred a ≠ None → resumes a = false.
Proof.
  intros Hi [_ _ K3 _ _ _ _ _ _ _ _ K12 K13 K14 _] Hl Hn. unfold resumes. injection K3 as T1 T2 T3 T4. rewrite T2, K14.
  destruct (Z.eqb_spec (pa_cleanup_count a0) 0) as [E|]; [|done]. destruct K13 as [K13|]; [|done]. rewrite K13 in Hn.
  destruct (pa_shutdown a0) eqn:Es; [by rewrite andb_false_r|]. destruct (pi_deferred _ _ Hi Hn) as [|[Hc|]]; [done| |congruence].
  destruct (K12 Hc) as [->|He]; [done|]. by destruct Hl.
Qed.

Lemma resume_ok a0 m context t a es held :
  player_inv p a0 → 0 <= pa_route_epoch a0 < U64_MAX → ¬ loses_result a0 m → dispatched p a0 m t a es held →
  wp (resume_deferred chargedBytes t context) (settled p a0 m) a es held.
Proof.
  intros Hi He Hl [(Hk & Hf & Hs & Hb)|(-> & Hr & -> & -> & Hm)]; unfold resume_deferred; steps; fold (resumes a).
  - pose proof (kept_resumes _ _ _ _ _ Hi Hk Hl) as Hn. destruct (pa_deferred a) as [o|]; [rewrite (Hn ltac:(done))|]; steps.
    all: exists a0, m; split_and!; try done; constructor; try done; try tauto; by left.
  - pose proof (rl_deferred _ _ _ _ Hr) as Ed. pose proof (rl_places _ _ _ _ Hr) as Hp.
    assert (Hdone : pa_deferred a = None ∨ (pa_deferred a = pa_deferred a ∧ resumes a = false) → settled p a0 m Completed a [] []).
    { intros Hc. pose proof (released_inv a0 m a _ Hi Hr Hc) as Hi'. rewrite same_deferred in Hi'. exists a, m.
      split_and!; [|by apply kept_start|done|done|by intros (c & -> & _); destruct (Hm c)]. constructor; try done; [by left|apply Hr|apply Hr|].
      intros ((c & -> & _) & _). by apply (Hm c). }
    destruct (pa_deferred a) as [o|] eqn:Eo; [|steps; apply Hdone; by left]. destruct (resumes a) eqn:Er; [|steps; apply Hdone; by right].
    apply wp_bind. change (wp take_effects ?Q a [] []) with (Q [] a [] []). cbn beta. steps.
    injection Hp as E1 E2 E3 E4 E5 E6 E7 E8. eapply wp_mono; [|apply handleZoneOutcome_ok].
    + intros t a' es held (-> & Hk & Hf). apply wp_bind. change (wp (destroy_effects []) ?Q a' es held) with (Q tt a' es held). cbn beta. steps.
      exists (set_pa_deferred None a), (ZoneOutcomeMessage o). split_and!; try done; [|by intros (c & -> & _); destruct (Hm c)]. constructor; try done.
      * right. exists o. rewrite <-Ed. by split_and!.
      * apply (released_inv a0 m a None Hi Hr). by left.
      * unfold places, player_identity in *. cbn. congruence.
      * apply Hr.
      * apply Hr.
      * intros ((c & ? & _) & _). done.
    + done.
    + apply (released_inv a0 m a None Hi Hr). by left.
    + cbn. by rewrite E3.
Qed.

(** ** The whole turn *)

(** Where the player may be, and where it is owed to be taken from. *)
Definition zones_at (a : PlayerActorAdapter) : list ZonePlace := zone_claims a ++ zone_debts a.
Definition rooms_at (a : PlayerActorAdapter) : list RoomPlace := room_claims a ++ room_debts a.

(** From [a0] to [a] by a turn that takes account of the messages [told], with
    the effects [es]. *)
Record accounted (a0 : PlayerActorAdapter) (told : GameMessage → Prop) (a : PlayerActorAdapter) (es : Batch) : Prop := {
  ac_inv : player_inv p a;
  ac_zones : ∀ x, x ∈ zones_at a0 → x ∈ zones_at a ∨ ∃ m', told m' ∧ zone_evidence m' x;
  ac_rooms : ∀ x, x ∈ rooms_at a0 → x ∈ rooms_at a ∨ ∃ m', told m' ∧ room_evidence m' x;
  ac_enters : ∀ x, x ∈ omap zone_enter_of es → x ∈ zone_claims a;
  ac_joins : ∀ r, r ∈ omap room_join_of es → r ∈ (room_claims a).*1;
  ac_fits : zlen es <= 20
}.

Definition ends_well (a0 : PlayerActorAdapter) (told : GameMessage → Prop) (t : TurnEnd) (a : PlayerActorAdapter) (es : Batch)
    (held : list TimerReservation) : Prop :=
  accounted a0 told a es ∧ held ≡ₚ omap effect_reservation es ∧ (t ≠ Completed → es = []).

(** The claims do not depend on the table. *)
Lemma untouched_claims a a' : untouched a' = untouched a →
  zone_claims a' = zone_claims a ∧ weight a' = weight a ∧ (room_claims a').*1 = (room_claims a).*1 ∧
  (pa_membership a' = pa_membership a → room_claims a' = room_claims a).
Proof.
  intros H. injection H as E1 E2 E3 E4 E5 E6 E7 E8. unfold zone_claims, weight, room_claims. rewrite E4, E5, E6. split_and!; try done.
  - by destruct (pa_workflow a).
  - by intros ->.
Qed.

Lemma places_claims a a' : places a' = places a → zone_claims a' = zone_claims a ∧ room_claims a' = room_claims a.
Proof. intros H. injection H as E1 E2 E3 E4 E5 E6 E7 E8. unfold zone_claims, room_claims. by rewrite E2, E3, E4, E5. Qed.

(** Writing the leaves down re-establishes the invariant. *)
Lemma prepared_inv a1 m1 a es held a' es' :
  player_inv p a1 → ¬ loses_result a1 m1 → kept p a1 m1 a es held → prepared a es a' es' → player_inv p a'.
Proof.
  intros Hi Hl [K1 [R1 R2 R3] K3 K4 K5 _ _ _ _ _ K11 K12 K13 K14 _] [P1 P2 _ _ _ _ _ _ _]. destruct (pi_table _ _ Hi) as [T1 T2 T3].
  injection K3 as C1 C2 C3 C4. destruct P1 as [X1 X2 X3 X4 X5]. destruct (untouched_claims _ _ X1) as (_ & Hw & _ & _).
  injection X1 as E1 E2 E3 E4 E5 E6 E7 E8.
  assert (Hc : 0 <= pa_cleanup_count a1 <= pa_cleanup_count a' ∧ pa_cleanup_count a' <= pa_cleanup_count a1 + Z.of_nat (owed es)).
  { rewrite X3, T2. unfold open_cleanups, zlen in *. rewrite C1 in X5. lia. }
  constructor.
  - unfold player_identity in *. congruence.
  - constructor; rewrite ?E4, ?E5, ?E6, ?E7; done.
  - constructor; [done|done|]. apply P2. by rewrite C2, C4.
  - rewrite Hw. lia.
  - rewrite E2, E3, E4, E6. done.
  - rewrite E3, E7, E8, K14. intros Hn. destruct (Z.eq_dec (pa_cleanup_count a1) 0) as [Ez|]; [|left; lia]. destruct K13 as [K13|]; [|done].
    rewrite K13 in Hn. destruct (pi_deferred _ _ Hi Hn) as [|[Hcl|]]; [done| |tauto]. destruct (K12 Hcl) as [->|He]; [tauto|].
    destruct (pa_shutdown a1) eqn:Es; [tauto|]. by destruct Hl.
Qed.

Lemma prepared_accounts a0 m a1 m1 a es held a' es' :
  settles p a0 m a1 m1 → kept p a1 m1 a es held → zlen es <= 20 → prepared a es a' es' → accounted a0 (considers a0 m) a' es'.
Proof.
  intros [S1 S2 S3 S4 S5 S6] Hk Hf Hp. pose proof (prepared_inv _ _ _ _ _ _ _ S2 S6 Hk Hp) as Hi.
  destruct Hk as [_ _ K3 K4 _ K6 K7 K8 K9 _ _ _ _ _ K15]. destruct Hp as [P1 _ P3 P4 P5 _ P7 P8 P9].
  destruct (debts_more _ _ _ P1) as [Dz Dr]. destruct (untouched_claims _ _ (ex_frame _ _ _ P1)) as (U1 & _ & U3 & U4).
  destruct (places_claims _ _ S3) as [C1 C2]. injection K3 as T1 T2 T3 T4.
  assert (Ed : zone_debts a = zone_debts a1 ∧ room_debts a = room_debts a1) by (unfold zone_debts, room_debts, open_cleanups; by rewrite T1).
  destruct Ed as [Ez Er]. rewrite Ez in Dz. rewrite Er in Dr. constructor; rewrite ?P7, ?P8, ?U1, ?U3; try done.
  - intros x. unfold zones_at. rewrite !elem_of_app, U1. intros [Hx|Hx].
    + rewrite <-C1 in Hx. destruct (K6 x Hx) as [|[|]]; [tauto| |right; by eexists]. left. right. by apply P3.
    + destruct (S4 x Hx); [left; right; by apply Dz|]. right. exists m. split; [by left|done].
  - intros x. unfold rooms_at. rewrite !elem_of_app. intros [Hx|Hx].
    + rewrite <-C2 in Hx. destruct K8 as [Hj|Hn]; [|by rewrite Hn in Hx; apply elem_of_nil in Hx].
      rewrite (U4 (P5 Hj)). destruct (K7 x Hx) as [|[Hl|]]; [tauto| |right; by eexists]. left. right. pose proof (P4 Hj _ Hl) as Hd.
      rewrite K4 in Hd. assert (x.2 = pa_membership a1) as Hm.
      { unfold room_claims in Hx. destruct (pa_workflow a1); try (by apply elem_of_nil in Hx); apply list_elem_of_singleton in Hx; by subst. }
      rewrite <-Hm in Hd. by destruct x.
    + destruct (S5 x Hx); [left; right; by apply Dr|]. right. exists m. split; [by left|done].
  - unfold zlen in *. by rewrite P9.
Qed.

Lemma prepared_nothing a1 m1 a held : player_inv p a1 → kept p a1 m1 a [] held → prepared a [] a [].
Proof.
  intros Hi Hk. destruct (pi_table _ _ Hi) as [T1 T2 T3]. pose proof (k_table _ _ _ _ _ _ Hk) as K3. injection K3 as C1 C2 C3 C4.
  constructor; try done; try (intros ? H; by apply elem_of_nil in H); try (intros _ ? H; by apply elem_of_nil in H).
  apply extended_refl; unfold open_cleanups in *; rewrite ?C1, ?C2; done.
Qed.

(** Whether the connection is closing does not matter to the ledger. *)
Lemma accounted_closing a0 told a es : accounted a0 told a es → pa_bound a ≠ None → accounted a0 told (set_pa_closing true a) es.
Proof.
  intros [[I1 [R1 R2 R3] [T1 T2 T3] I4 I5 I6] A2 A3 A4 A5 A6] Hb. constructor; try done. constructor; try done; cbn; tauto.
Qed.

(** The turn for [m] ends well, and lets its connection go if that closed. *)
Definition turn_ends (a0 : PlayerActorAdapter) (m : GameMessage) (t : TurnEnd) (a : PlayerActorAdapter) (es : Batch)
    (held : list TimerReservation) : Prop :=
  ends_well a0 (considers a0 m) t a es held ∧ (ends_connection a0 m → pa_bound a = None).

Lemma finish_ok a0 m a1 m1 context a es held :
  settles p a0 m a1 m1 → kept p a1 m1 a es held → zlen es <= 20 → (ends_connection a0 m → pa_bound a = None) →
  wp (prepareLifecycleEffects context;; note_closing;; mret Completed) (turn_ends a0 m) a es held.
Proof.
  intros Hs Hk Hf Hend. pose proof (k_table _ _ _ _ _ _ Hk) as K3. injection K3 as C1 C2 C3 C4.
  destruct (pi_table _ _ (st_inv _ _ _ _ _ Hs)) as [T1 T2 T3]. pose proof (k_bound _ _ _ _ _ _ Hk) as Kb. unfold MOST_CLEANUPS in Kb.
  assert (Hw : 0 <= weight a) by (unfold weight, ops_weight; destruct (pa_workflow a) as [[]| | | |]; cbn; lia).
  assert (Hl : (length (open_cleanups a) + owed es <= MAX_CLEANUPS)%nat).
  { unfold open_cleanups, zlen in *. rewrite C1. unfold MAX_CLEANUPS. lia. }
  destruct (prepare_loop_ok context p a es) as (a' & es' & E & Hp); [by rewrite C1|unfold open_cleanups in *; by rewrite C1, C2|done|].
  apply wp_bind. unfold wp at 1, prepareLifecycleEffects. rewrite (k_identity _ _ _ _ _ _ Hk), E. cbn [ends].
  apply wp_bind. unfold wp at 1, note_closing. cbn [ends]. apply wp_ret.
  pose proof (prepared_accounts _ _ _ _ _ _ _ _ _ Hs Hk Hf Hp) as Ha. pose proof (ex_frame _ _ _ (pd_table _ _ _ _ Hp)) as Hu.
  injection Hu as _ Eb _ _ _ _ _ _. split; [|intros Hc; destruct (existsb _ _); cbn; rewrite Eb; auto]. split_and!; [|by rewrite (pd_reservations _ _ _ _ Hp); apply Hk|done].
  destruct (existsb (closes (pa_bound a')) es') eqn:Ec; [|done]. apply accounted_closing; [done|]. intros Hb. rewrite Hb in Ec.
  apply existsb_exists in Ec as (e & _ & He). by destruct e.
Qed.

Lemma dispatch_ok a0 m context :
  player_inv p a0 → message_ok p m → 0 <= pa_route_epoch a0 < U64_MAX → ¬ loses_result a0 m →
  wp (player_dispatch chargedBytes m context) (turn_ends a0 m) a0 [] [].
Proof.
  intros Hi Hm He Hl. unfold player_dispatch. apply wp_bind. eapply wp_mono; [|by apply dispatchMessage_ok]. intros t a es held Hd.
  apply wp_bind. eapply wp_mono; [|by eapply resume_ok]. clear t a es held Hd. intros t a es held (a1 & m1 & Hs & Hk & Hf & Hsus & Hb).
  destruct t as [|task]; [by eapply finish_ok|]. apply wp_ret. rewrite (Hsus ltac:(done)) in *. split; [|done]. split_and!; [|apply Hk|done].
  eapply prepared_accounts; [done|done|done|]. eapply prepared_nothing; [apply Hs|done].
Qed.

(** *** The turn that is lost *)

(** The player is nowhere, as far as its actor knows, and nobody was told. *)
Definition forgotten (a : PlayerActorAdapter) (es : Batch) : Prop := es = [] ∧ pa_bound a = None ∧ zones_at a = [] ∧ rooms_at a = [].

Lemma wp_destroy old (Q : () → PlayerActorAdapter → Batch → list TimerReservation → Prop) a es held :
  held ≡ₚ omap effect_reservation old → Q tt a es [] → wp (destroy_effects old) Q a es held.
Proof.
  unfold wp, destroy_effects. revert held. induction (omap effect_reservation old) as [|r rs IH]; intros held Hh HQ; cbn [drop_all ends].
  - by apply Permutation_nil_r in Hh as ->.
  - exists rs. split; [done|]. by apply IH.
Qed.

(** Without a connection an outcome of a zone is dropped. *)
Lemma unbound_outcome o context (Q : TurnEnd → PlayerActorAdapter → Batch → list TimerReservation → Prop) a es held :
  pa_bound a = None → Q Completed a es held → wp (handleZoneOutcome chargedBytes o context) Q a es held.
Proof.
  intros Hb HQ. unfold handleZoneOutcome. steps. destruct (pa_closing a); [by apply wp_ret|]. destruct (player_identity a); rewrite ?Hb; by apply wp_ret.
Qed.

(** What is left of the adapter after such a turn. *)
Lemma lost_state a0 m a es held :
  player_inv p a0 → loses_result a0 m → kept p a0 m a es held → pa_bound a = None → player_inv p (set_pa_deferred None a).
Proof.
  intros Hi (_ & _ & Hc & _) [K1 [R1 R2 R3] K3 _ K5 _ _ _ _ _ K11 _ _ K14 _] Hb.
  destruct (pi_table _ _ Hi) as [T1 T2 T3]. injection K3 as C1 C2 C3 C4. constructor; try done.
  - constructor; unfold open_cleanups in *; cbn; rewrite ?C1, ?C2, ?C4; done.
  - unfold weight in *. cbn. lia.
Qed.

Lemma lost_ok a0 m context :
  player_inv p a0 → loses_result a0 m →
  wp (player_dispatch chargedBytes m context) (fun t a es held => t = Completed ∧ player_inv p a ∧ forgotten a es ∧ held = []) a0 [] [].
Proof.
  intros Hi Hl. pose proof Hl as ((c & -> & Hb) & Hd & Hc & Hs). unfold player_dispatch. apply wp_bind. unfold dispatchMessage. steps.
  rewrite Hs. cbn [andb]. eapply wp_mono; [|by apply closed_turn_ok]. intros t a es held [(-> & Hk & _) Hend].
  assert (Hb' : pa_bound a = None) by (apply Hend; by exists c). destruct (k_unbound _ _ _ _ _ _ Hk Hb') as (Hp & Hw & Hcl).
  pose proof (k_table _ _ _ _ _ _ Hk) as K3. injection K3 as C1 C2 C3 C4. destruct (k_deferred _ _ _ _ _ _ Hk) as [Ed|]; [|done].
  apply wp_bind. unfold resume_deferred. steps. destruct (pa_deferred a) as [o|] eqn:Eo; [|congruence].
  rewrite C2, Hc, Hcl, (k_shutdown _ _ _ _ _ _ Hk), Hs. cbn [Z.eqb negb andb].
  apply wp_bind. change (wp take_effects ?Q a es held) with (Q es a [] held). cbn beta. steps.
  apply unbound_outcome; [done|]. steps. apply wp_destroy; [apply Hk|]. steps.
  pose proof (lost_state a0 _ a es held Hi Hl Hk Hb') as Hi'.
  unfold wp at 1, prepareLifecycleEffects. rewrite (pi_identity _ _ Hi'). cbn [prepare_loop ends].
  apply wp_bind. unfold wp at 1, note_closing. cbn [ends existsb]. apply wp_ret. split_and!; try done.
  destruct (pi_table _ _ Hi) as [_ T2 _]. assert (Ho : open_cleanups a = []).
  { unfold open_cleanups in *. rewrite C1. apply length_zero_iff_nil. unfold zlen in T2. lia. }
  unfold forgotten, zones_at, rooms_at, zone_claims, room_claims, zone_debts, room_debts.
  change (open_cleanups (set_pa_deferred None a)) with (open_cleanups a). rewrite Ho. cbn. by rewrite Hp, Hw.
Qed.

(** ** Turns of the lifecycle *)

(** The open cleanups, told again. *)
Definition reminders (a : PlayerActorAdapter) : Batch := (fun c => TellActorEffect (cl_target c) (cleanupMessage p c)) <$> open_cleanups a.

Lemma reminders_quiet a :
  omap zone_enter_of (reminders a) = [] ∧ omap room_join_of (reminders a) = [] ∧ omap effect_reservation (reminders a) = [].
Proof.
  unfold reminders. induction (open_cleanups a) as [|c l (I1 & I2 & I3)]; [done|].
  cbn [fmap list_fmap omap list_omap]. by rewrite cleanupMessage_enter, cleanupMessage_join.
Qed.

Lemma open_bound a : player_inv p a → 0 <= zlen (open_cleanups a) <= 4.
Proof.
  intros [_ _ [T1 T2 T3] I4 _ _]. rewrite <-T2. unfold MOST_CLEANUPS, weight, ops_weight in I4.
  assert (0 <= pa_cleanup_count a) by (rewrite T2; unfold zlen; lia). destruct (pa_workflow a) as [[]| | | |]; cbn in I4; lia.
Qed.

Lemma retry_ok a told context :
  player_inv p a → pa_cleanup_count a ≠ 0 → wp (retry_cleanups context) (fun t a' es held => t = Completed ∧ es = reminders a ∧
    a' = set_pa_cleanup_deadline (Some (after (turn_now context) CLEANUP_RETRY)) a ∧ ends_well a told t a' es held) a [] [].
Proof.
  intros Hi Hn. unfold retry_cleanups. steps. rewrite (pi_identity _ _ Hi). 
  lazymatch goal with |- wp (push_each ?l) _ _ _ _ => change l with (reminders a) end.
  pose proof (open_bound a Hi) as Hb. assert (Hz : zlen (reminders a) = zlen (open_cleanups a)) by (unfold reminders, zlen; by rewrite length_fmap).
  apply wp_push_each; [rewrite Hz; change (zlen []) with 0; lia|]. steps. split_and!; try done. cbn [app]. destruct (reminders_quiet a) as (Q1 & Q2 & Q3).
  split_and!; [|by rewrite Q3|done]. destruct Hi as [I1 [R1 R2 R3] [T1 T2 T3] I4 I5 I6].
  constructor; rewrite ?Q1, ?Q2; try (intros ? H; by apply elem_of_nil in H).
  - by constructor.
  - intros x Hx. by left.
  - intros x Hx. by left.
  - lia.
Qed.

(** A change that leaves the ledger alone and keeps the invariant. *)
Lemma unchanged_accounts a0 told a : routing a = routing a0 → player_inv p a0 → player_inv p a ∧ accounted a0 told a [].
Proof.
  intros Hr Hi. injection Hr as E1 E2 E3 E4 E5 C1 C2 C3 C4 E6 E7 E8 E9. pose proof Hi as [I1 [R1 R2 R3] [T1 T2 T3] I4 I5 I6].
  assert (Hi' : player_inv p a).
  { constructor; rewrite ?E1, ?E2, ?E4, ?E5, ?E7, ?E8, ?E9, ?C2; try done.
    - constructor; rewrite ?E2, ?E3, ?E4, ?E5; done.
    - constructor; unfold open_cleanups in *; rewrite ?C1, ?C2, ?C4; done.
    - unfold weight in *. by rewrite E2, E4. }
  split; [done|]. constructor; try done; try (intros ? H; by apply elem_of_nil in H); unfold zones_at, rooms_at, zone_claims, room_claims, zone_debts, room_debts, open_cleanups;
    rewrite ?E2, ?E3, ?E4, ?E6, ?C1; intros x Hx; by left.
Qed.

Lemma idle_lifecycle_ok a told context : player_inv p a → wp (idle_lifecycle context) (ends_well a told) a [] [].
Proof.
  intros Hi. unfold idle_lifecycle. steps. destruct (Z.eqb_spec (pa_cleanup_count a) 0) as [|Hn]; cbn [negb].
  - assert (Hdone : ∀ t a', routing a' = routing a → ends_well a told t a' [] []).
    { intros t a' Hr. split_and!; try done. by apply unchanged_accounts. }
    split_if; [|steps; by apply Hdone]. unfold final_save. steps. change (player_identity (set_pa_final_started true a)) with (player_identity a).
    rewrite (pi_identity _ _ Hi). destruct (snapshot_total _ (pi_identity _ _ Hi)) as [r Er]. apply wp_bind. eapply wp_lift; [exact Er|]. steps. by apply Hdone.
  - eapply wp_mono; [|by eapply (retry_ok a told)]. by intros t a' es held (_ & _ & _ & ?).
Qed.

Lemma lifecycle_ok a context stopping :
  player_inv p a → 0 <= pa_route_epoch a < U64_MAX →
  wp (player_lifecycleTurn chargedBytes context stopping) (ends_well a (fun _ => False)) a [] [].
Proof.
  intros Hi He. unfold player_lifecycleTurn. steps. split_if; [|by apply idle_lifecycle_ok]. steps.
  set (a1 := set_pa_save_scheduled false (set_pa_deferred None (set_pa_shutdown true a))).
  assert (Hi1 : player_inv p a1).
  { destruct Hi as [I1 [R1 R2 R3] [T1 T2 T3] I4 I5 I6]. constructor; try done; by constructor. }
  destruct (pa_bound a) as [c|]; [|eapply wp_mono; [|by apply (idle_lifecycle_ok a1 (fun _ => False))]].
  - eapply wp_mono; [|by apply dispatch_ok; try done; intros (_ & Hn & _)]. intros t a' es held [([A1 A2 A3 A4 A5 A6] & Hh & Ht) _].
    split_and!; try done. constructor; try done.
    + intros x Hx. destruct (A2 x Hx) as [|(m' & [->|(o & ? & _)] & Hv)]; [by left| |done]. by destruct Hv as (? & ? & _).
    + intros x Hx. destruct (A3 x Hx) as [|(m' & [->|(o & ? & _)] & Hv)]; [by left| |done]. by destruct Hv as (? & ? & _).
  - intros t a' es held ([A1 A2 A3 A4 A5 A6] & Hh & Ht). by split_and!.
Qed.
End dispatch.

(** ** Runs *)

(** The worker answers the reservations of a turn in order; without an answer
    they are refused. *)
Fixpoint answered {A} (answers : list (option TimerReservation)) (s : Script A) : option A :=
  match s with
  | SThrow => None
  | SRet x => Some x
  | SReserve _ _ k => answered (tail answers) (k (default None (head answers)))
  | SDrop _ k => answered answers k
  end.

Lemma ends_answered {A} held (Q : list TimerReservation → A → Prop) answers s :
  ends held Q s → ∃ x h, answered answers s = Some x ∧ Q h x.
Proof.
  revert held answers. induction s as [|x|c t k IH|r k IH]; intros held answers; cbn [ends answered]; [done|by eauto| |].
  - intros (_ & HN & HS). destruct answers as [|[r|] answers]; cbn; eauto.
  - intros (rest & _ & Hk). eauto.
Qed.

Lemma wp_answered {A} (m : PM A) Q answers a es held :
  wp m Q a es held → ∃ x a' es' h, answered answers (m a es) = Some (x, a', es') ∧ Q x a' es' h.
Proof. intros H. destruct (ends_answered _ _ answers _ H) as ([[x a'] es'] & h & E & HQ). by exists x, a', es', h. Qed.

Section runs.
Context (chargedBytes : GameMessage → Z) (Hcharge : ∀ m, 0 <= chargedBytes m).
Context (p : PlayerId).

(** One turn: of a message, or of the lifecycle. *)
Definition turn_of (answers : list (option TimerReservation)) (m : GameMessage) (context : TurnContext) (a : PlayerActorAdapter) :=
  answered answers (player_dispatch chargedBytes m context a []).
Definition lifecycle_of (answers : list (option TimerReservation)) (context : TurnContext) (stopping : bool) (a : PlayerActorAdapter) :=
  answered answers (player_lifecycleTurn chargedBytes context stopping a []).

(** The epochs of entries do not wrap. *)
Definition epochs_left (a : PlayerActorAdapter) : Prop := 0 <= pa_route_epoch a < U64_MAX.

(** The states of the actor of player [p]. *)
Inductive reachable : PlayerActorAdapter → Prop :=
| r_fresh admission a : makePlayerAdapter (Some p) admission = Ret a → reachable a
| r_loaded record admission a : loadPlayerAdapter p record admission = Ret a → reachable a
| r_turn answers m context a t a' es :
    reachable a → message_ok p m → epochs_left a → turn_of answers m context a = Some (t, a', es) → reachable a'
| r_lifecycle answers context stopping a t a' es :
    reachable a → epochs_left a → lifecycle_of answers context stopping a = Some (t, a', es) → reachable a'
| r_saved a result cleared : reachable a → reachable (onSaveCompleted a result cleared)
| r_cancelled a : reachable a → reachable (cancelLifecycle a).

Lemma fresh_inv q admission : identity (session (state q)) = Some p → player_inv p (fresh_adapter q admission).
Proof. intros Hq. constructor; try done. constructor; try done. cbn. nothing_pending. Qed.

Lemma saved_routing a result cleared : routing (onSaveCompleted a result cleared) = routing a.
Proof. unfold onSaveCompleted. by repeat case_match. Qed.

Lemma cancelled_inv a : player_inv p a → player_inv p (cancelLifecycle a).
Proof. intros Hi. constructor; try done; [apply Hi|]. constructor; try done. cbn. nothing_pending. Qed.

(** A turn, lost or not. *)
Lemma turn_total a m context answers :
  player_inv p a → message_ok p m → epochs_left a →
  ∃ t a' es, turn_of answers m context a = Some (t, a', es) ∧ player_inv p a' ∧
    (¬ loses_result a m → accounted p a (considers a m) a' es ∧ (ends_connection a m → pa_bound a' = None)) ∧ (loses_result a m → forgotten a' es).
Proof.
  intros Hi Hm He. destruct (decide (loses_result a m)) as [Hl|Hl].
  - destruct (wp_answered _ _ answers _ _ _ (lost_ok chargedBytes p a m context Hi Hl)) as (t & a' & es & h & E & _ & Hi' & Hf & _).
    exists t, a', es. by split_and!.
  - destruct (wp_answered _ _ answers _ _ _ (dispatch_ok chargedBytes Hcharge p a m context Hi Hm He Hl)) as (t & a' & es & h & E & [(Ha & _) Hend]).
    exists t, a', es. split_and!; [done|apply Ha|done|done].
Qed.

Lemma reachable_inv a : reachable a → player_inv p a.
Proof.
  induction 1 as [admission a E|record admission a E|answers m context a t a' es _ IH Hm He E|answers context stopping a t a' es _ IH He E
                 |a result cleared _ IH|a _ IH].
  - injection E as <-. by apply fresh_inv.
  - unfold loadPlayerAdapter in E. destruct (makePlayer (Some p) _) as [q|] eqn:Eq; [|done]. injection Eq as <-. cbn in E.
    unfold restore, throw_if in E. destruct (negb _); [done|]. injection E as <-. by apply fresh_inv.
  - destruct (turn_total a m context answers IH Hm He) as (t1 & a1 & es1 & E1 & Hi1 & _). rewrite E in E1. by injection E1 as <- <- <-.
  - destruct (wp_answered _ _ answers _ _ _ (lifecycle_ok chargedBytes Hcharge p a context stopping IH He)) as (t1 & a1 & es1 & h & E1 & (Ha & _)).
    unfold lifecycle_of in E. rewrite E1 in E. injection E as <- <- <-. apply Ha.
  - by apply (unchanged_accounts p a (fun _ => False)); [apply saved_routing|].
  - by apply cancelled_inv.
Qed.

(** C18: whatever a player's actor is told (a request to authenticate aside that
    is not for its own player), and whichever timers it is refused, its turn ends
    without an exception as long as the epoch of its routes is below the largest
    64-bit number.  With one exception, the turn has at most 20 effects, every
    zone and every room the player may be in is still known to be one it is in,
    or is owed a cleanup, or the message itself (or the return that had waited)
    said that the player is not there; and the turn asks no zone and no room in
    that it does not know of.  The exception is [loses_result]: the player's own
    connection closes while a return waits, no cleanup is open and the actor does
    not shut down.  That turn has no effects and forgets every zone and every
    room; the actor's state is sound afterwards. *)
Theorem places_accounted a m context answers :
  reachable a → message_ok p m → epochs_left a →
  ∃ t a' es, turn_of answers m context a = Some (t, a', es) ∧ reachable a' ∧
    (¬ loses_result a m → accounted p a (considers a m) a' es) ∧ (loses_result a m → forgotten a' es).
Proof.
  intros Hr Hm He. destruct (turn_total a m context answers (reachable_inv a Hr) Hm He) as (t & a' & es & E & _ & H1 & H2).
  exists t, a', es. split_and!; [done|by eapply r_turn|intros Hl; by apply H1|done].
Qed.

(** Reminders are due while the table is not empty. *)
Lemma armed a : player_inv p a → open_cleanups a ≠ [] → pa_cleanup_deadline a ≠ None ∧ pa_cleanup_count a ≠ 0.
Proof.
  intros Hi Ho. destruct (pi_table _ _ Hi) as [_ T2 T3]. rewrite T3, T2. unfold zlen. split; intros H; apply Ho, length_zero_iff_nil; lia.
Qed.

(** Everything is owed to the table, and a reminder is due if that is anything. *)
Definition all_owed (a a' : PlayerActorAdapter) : Prop :=
  pa_bound a' = None ∧ zone_claims a' = [] ∧ room_claims a' = [] ∧
  (∀ x, x ∈ zones_at a → x ∈ zone_debts a' ∧ pa_cleanup_deadline a' ≠ None) ∧
  (∀ x, x ∈ rooms_at a → x ∈ room_debts a' ∧ pa_cleanup_deadline a' ≠ None).

Lemma unbound_owes a a' es : pa_bound a' = None → accounted p a (fun _ => False) a' es → all_owed a a'.
Proof.
  intros Hb [A1 A2 A3 _ _ _]. destruct (pi_unbound _ _ A1 Hb) as (Hp & Hw & _).
  assert (Hz : zone_claims a' = []) by (unfold zone_claims; by rewrite Hp, Hw). assert (Hc : room_claims a' = []) by (unfold room_claims; by rewrite Hw).
  split_and!; try done; intros x Hx.
  - destruct (A2 x Hx) as [Hin|(m' & [] & _)]. unfold zones_at in Hin. rewrite Hz in Hin. split; [done|]. apply armed; [done|].
    intros Hn. unfold zone_debts in Hin. rewrite Hn in Hin. by apply elem_of_nil in Hin.
  - destruct (A3 x Hx) as [Hin|(m' & [] & _)]. unfold rooms_at in Hin. rewrite Hc in Hin. split; [done|]. apply armed; [done|].
    intros Hn. unfold room_debts in Hin. rewrite Hn in Hin. by apply elem_of_nil in Hin.
Qed.

(** A closed connection says nothing of zones and rooms. *)
Lemma closed_accounts a b c a' es :
  accounted p a (considers b (PlayerConnectionClosedMessage c)) a' es → accounted p a (fun _ => False) a' es.
Proof.
  intros [A1 A2 A3 A4 A5 A6]. constructor; try done; intros x Hx.
  - destruct (A2 x Hx) as [|(m' & [->|(o & _ & _ & Hn)] & Hv)]; [by left|by destruct Hv as (? & ? & _)|by destruct (Hn c)].
  - destruct (A3 x Hx) as [|(m' & [->|(o & _ & _ & Hn)] & Hv)]; [by left|by destruct Hv as (? & ? & _)|by destruct (Hn c)].
Qed.

(** C19: when the connection of a player closes (and the epoch of its routes is
    below the largest 64-bit number), the actor lets go of every zone and every
    room it was in, was entering, or was leaving: all of them are in the table of
    cleanups afterwards, and a reminder is due if there are any.  This fails in
    one case, [loses_result]: a return waits, no cleanup is open and the actor
    does not shut down.  Then the actor tells nobody and forgets all of them. *)
Theorem disconnect_leaves_all a c context answers :
  reachable a → pa_bound a = Some c → epochs_left a →
  ∃ t a' es, turn_of answers (PlayerConnectionClosedMessage c) context a = Some (t, a', es) ∧
    (pa_deferred a = None ∨ pa_cleanup_count a ≠ 0 ∨ pa_shutdown a = true → all_owed a a') ∧
    (pa_deferred a ≠ None ∧ pa_cleanup_count a = 0 ∧ pa_shutdown a = false → forgotten a' es).
Proof.
  intros Hr Hb He. assert (Hend : ends_connection a (PlayerConnectionClosedMessage c)) by by exists c.
  destruct (turn_total a (PlayerConnectionClosedMessage c) context answers (reachable_inv a Hr) I He) as (t & a' & es & E & _ & H1 & H2).
  exists t, a', es. split_and!; [done| |intros Hl; by apply H2].
  intros Hl. destruct H1 as [Ha Hb']; [intros (_ & L1 & L2 & L3); destruct Hl as [|[|]]; congruence|].
  eapply unbound_owes; [by apply Hb'|by eapply closed_accounts].
Qed.

(** The state in which an actor begins to shut down. *)
Definition shutting (a : PlayerActorAdapter) : PlayerActorAdapter := set_pa_save_scheduled false (set_pa_deferred None (set_pa_shutdown true a)).

Lemma shutting_inv a : player_inv p a → player_inv p (shutting a).
Proof. intros [I1 [R1 R2 R3] [T1 T2 T3] I4 I5 I6]. constructor; try done; by constructor. Qed.

(** The lifecycle's turn tells the open cleanups again. *)
Definition reminded (answers : list (option TimerReservation)) (context : TurnContext) (stopping : bool) (a b : PlayerActorAdapter) : Prop :=
  ∃ a', lifecycle_of answers context stopping a = Some (Completed, a', reminders p a) ∧
    a' = set_pa_cleanup_deadline (Some (after (turn_now context) CLEANUP_RETRY)) b ∧
    player_lifecycleDeadline a' = Some (after (turn_now context) CLEANUP_RETRY).

Lemma idle_reminds answers context stopping a b :
  player_inv p b → pa_cleanup_count b ≠ 0 → pa_cleanups b = pa_cleanups a →
  lifecycle_of answers context stopping a = answered answers (idle_lifecycle context b []) → reminded answers context stopping a b.
Proof.
  intros Hi Hn Hc E. destruct (wp_answered _ _ answers _ _ _ (retry_ok p b (fun _ => False) context Hi Hn)) as (t & a' & es & h & E1 & -> & -> & -> & _).
  assert (Hrem : reminders p b = reminders p a) by (unfold reminders, open_cleanups; by rewrite Hc).
  eexists. split_and!; [|done|].
  - rewrite E, <-Hrem. unfold idle_lifecycle, mbind, PM_bind, this. cbn [script_bind]. rewrite (proj2 (Z.eqb_neq _ _) Hn). exact E1.
  - unfold player_lifecycleDeadline. cbn. by rewrite (proj2 (Z.eqb_neq _ _) Hn), andb_false_r.
Qed.

(** C20: while a cleanup is open a turn of the lifecycle is due.  Such a turn tells
    every open cleanup again, exactly these (at most four), changes nothing else,
    and sets the next reminder [CLEANUP_RETRY] (10 ms) after itself.  The first
    turn of a shutdown does so too if the player has no connection, and marks the
    actor as shutting down; if it has one, that turn closes the connection
    instead (and the epoch of its routes must be below the largest 64-bit
    number): every zone and every room the player was in, or was owed to leave, is
    in the table then, and a reminder is due if there are any. *)
Theorem cleanups_told_again a context stopping answers :
  reachable a → pa_cleanup_count a ≠ 0 →
  player_lifecycleDeadline a ≠ None ∧ 0 < zlen (reminders p a) <= 4 ∧
  (stopping = false ∨ pa_shutdown a = true → reminded answers context stopping a a) ∧
  (stopping = true → pa_shutdown a = false → pa_bound a = None → reminded answers context stopping a (shutting a)) ∧
  (stopping = true → pa_shutdown a = false → pa_bound a ≠ None → epochs_left a →
     ∃ t a' es, lifecycle_of answers context stopping a = Some (t, a', es) ∧ all_owed a a').
Proof.
  intros Hr Hn. pose proof (reachable_inv a Hr) as Hi. destruct (pi_table _ _ Hi) as [_ T2 T3].
  assert (Hz : zlen (reminders p a) = pa_cleanup_count a) by (rewrite T2; unfold reminders, zlen; by rewrite length_fmap).
  pose proof (open_bound p a Hi) as Hb. split_and!; [|rewrite Hz; lia|rewrite Hz; lia| | |].
  - unfold player_lifecycleDeadline. rewrite (proj2 (Z.eqb_neq _ _) Hn), andb_false_r. cbn. by rewrite T3.
  - intros Hs. apply idle_reminds; try done. unfold lifecycle_of, player_lifecycleTurn, mbind, PM_bind, this. cbn [script_bind].
    by replace (stopping && negb (pa_shutdown a)) with false by (destruct Hs as [-> | ->]; [done|by rewrite andb_false_r]).
  - intros -> Hs Hu. apply idle_reminds; [by apply shutting_inv|done|done|].
    unfold lifecycle_of, player_lifecycleTurn, mbind, PM_bind, this, update. cbn [script_bind]. rewrite Hs. cbn [andb negb]. cbn [script_bind]. by rewrite Hu.
  - intros -> Hs Hu He. destruct (pa_bound a) as [c|] eqn:Eb; [|done].
    destruct (turn_total (shutting a) (PlayerConnectionClosedMessage c) context answers (shutting_inv a Hi) I He) as (t & a' & es & E & Hi' & H1 & _).
    destruct H1 as [Ha Hb']; [by intros (_ & ? & _)|].
    assert (Ha' : accounted p a (fun _ => False) a' es) by (destruct (closed_accounts _ _ _ _ _ Ha) as [A1 A2 A3 A4 A5 A6]; by constructor).
    pose proof (ltac:(apply Hb'; by exists c) : pa_bound a' = None) as Hu'.
    exists t, a', es. split; [|by eapply unbound_owes].
    unfold lifecycle_of, player_lifecycleTurn, mbind, PM_bind, this, update. cbn [script_bind]. rewrite Hs. cbn [andb negb]. cbn [script_bind]. by rewrite Eb.
Qed.
End runs.

(** ** Concrete runs *)

Section played.
Context (chargedBytes : GameMessage → Z) (Hcharge : ∀ m, 0 <= chargedBytes m).
Context (p : PlayerId) (context : TurnContext) (answers : list (option TimerReservation)).

(** A message a run may take. *)
Definition fine (a : PlayerActorAdapter) (m : GameMessage) : bool :=
  (0 <=? pa_route_epoch a) && (pa_route_epoch a <? U64_MAX)
  && match m with
     | PlayerCommandMessage connection _ (AuthenticateCommand q) => (q =? p) && has_value connection
     | _ => true
     end.

Fixpoint played (ms : list GameMessage) (a : PlayerActorAdapter) : option PlayerActorAdapter :=
  match ms with
  | [] => Some a
  | m :: rest => if fine a m then '(_, a', _) ← turn_of chargedBytes answers m context a; played rest a' else None
  end.

Lemma fine_ok a m : fine a m = true → message_ok p m ∧ epochs_left a.
Proof.
  unfold fine. intros H. to_prop. split_and!.
  - destruct m as [? ? []| | | | | | | | | | | | | |]; try done. cbn in *. to_prop. by split.
  - unfold epochs_left. lia.
Qed.

Lemma played_reachable ms a a' : reachable chargedBytes p a → played ms a = Some a' → reachable chargedBytes p a'.
Proof.
  revert a. induction ms as [|m ms IH]; intros a Hr; cbn [played]; [by intros [= <-]|].
  destruct (fine a m) eqn:Ef; [|done]. destruct (fine_ok a m Ef) as [F1 F2].
  destruct (turn_of chargedBytes answers m context a) as [[[t a1] es]|] eqn:Et; [|done]. cbn. intros H. eapply IH; [|exact H]. by eapply r_turn.
Qed.
End played.

(** A player, 7, that enters zone 11, joins room 21 and leaves it again. *)
Definition demo_context : TurnContext := mkTurnContext (mkActivationRef (player_key 7) 1) 1000 1.
Definition demo_connection : ConnectionRef := mkConnectionRef 3 5 0.
Definition demo_charge (m : GameMessage) : Z := 64.
Definition demo_answers : list (option TimerReservation) := [Some (mkTimerReservation (Some 0) 64 1)].
Definition demo_position : ZonePosition := mkZonePosition 1 1.
Definition demo_result (status : ZoneCommandStatus) : ZoneResult := mkZoneResult status (Some 7) (Some demo_position) 0 0 [] None.
Definition demo_start : PlayerActorAdapter := match makePlayerAdapter (Some 7) true with Ret a => a | Throw _ => fresh_adapter demo_player true end.

Definition demo_entered : list GameMessage :=
  [PlayerCommandMessage (Some demo_connection) 1 (AuthenticateCommand 7);
   PlayerZoneRequestMessage demo_connection 2 (EnterZoneRequest 11 demo_position);
   ZoneOutcomeMessage (mkZoneOutcome 7 5 1 ZoneEnter 11 1 2 (demo_result ZoneApplied))].

Definition demo_joined : list GameMessage :=
  [PlayerRoomRequestMessage demo_connection 3 (RoomJoinRequest 21);
   RoomOutcomeMessage (mkRoomOutcome 7 5 2 RoomJoinStep1_JoinRoom 21 3 (plain_room_result Applied Waiting (Some 7)) (Some (mkMembership 1 2)));
   ZoneOutcomeMessage (mkZoneOutcome 7 5 2 RoomJoinStep2_LeaveZone 11 1 3 (demo_result ZoneApplied))].

(** The zone confirms the return before the room confirms the leave. *)
Definition demo_returning : list GameMessage :=
  [PlayerRoomRequestMessage demo_connection 4 RoomLeaveRequest;
   ZoneOutcomeMessage (mkZoneOutcome 7 5 3 RoomReturnStep1_ZoneEnter 11 2 0 (demo_result ZoneApplied))].

(** A command for a battle the player is not in closes the connection; then the
    room confirms. *)
Definition demo_closing : list GameMessage :=
  [PlayerRoomRequestMessage demo_connection 5 (UseSkillRequest 21 1 1);
   RoomOutcomeMessage (mkRoomOutcome 7 5 1 CleanupRoom 21 0 (plain_room_result Applied Waiting (Some 7)) (Some (mkMembership 1 2)))].

Definition demo_run (ms : list GameMessage) : option PlayerActorAdapter := played demo_charge 7 demo_context demo_answers ms demo_start.

Lemma demo_reachable ms a : demo_run ms = Some a → reachable demo_charge 7 a.
Proof. apply played_reachable. by apply (r_fresh _ _ true). Qed.

Lemma places_accounted_witness :
  ∃ a t a' es, demo_run (demo_entered ++ demo_joined) = Some a ∧ rooms_at a = [(21, Some (mkMembership 1 2))] ∧
    turn_of demo_charge demo_answers (PlayerRoomRequestMessage demo_connection 4 RoomLeaveRequest) demo_context a = Some (t, a', es) ∧
    accounted 7 a (considers a (PlayerRoomRequestMessage demo_connection 4 RoomLeaveRequest)) a' es ∧ zone_claims a' = [(11, 2)].
Proof.
  destruct (demo_run (demo_entered ++ demo_joined)) as [a|] eqn:E; [|by vm_compute in E].
  assert (Hr : reachable demo_charge 7 a) by (by eapply demo_reachable). vm_compute in E. injection E as <-.
  match type of Hr with reachable _ _ ?a => set (b := a) in * end.
  destruct (places_accounted demo_charge ltac:(done) 7 b (PlayerRoomRequestMessage demo_connection 4 RoomLeaveRequest) demo_context demo_answers)
    as (t & a' & es & Et & _ & Ha & _); [done|done|done|].
  exists b, t, a', es. split_and!; try done; [apply Ha; by intros ((c & ? & _) & _)|]. vm_compute in Et. by injection Et as <- <- <-.
Defined.

Lemma disconnect_leaves_all_witness :
  ∃ a t a' es, demo_run (demo_entered ++ demo_joined ++ demo_returning) = Some a ∧
    turn_of demo_charge demo_answers (PlayerConnectionClosedMessage demo_connection) demo_context a = Some (t, a', es) ∧
    (11, 2) ∈ zone_debts a' ∧ (21, Some (mkMembership 1 2)) ∈ room_debts a'.
Proof.
  destruct (demo_run (demo_entered ++ demo_joined ++ demo_returning)) as [a|] eqn:E; [|by vm_compute in E].
  assert (Hr : reachable demo_charge 7 a) by (by eapply demo_reachable). vm_compute in E. injection E as <-.
  match type of Hr with reachable _ _ ?a => set (b := a) in * end.
  destruct (disconnect_leaves_all demo_charge ltac:(done) 7 b demo_connection demo_context demo_answers) as (t & a' & es & Et & Ho & _);
    [done|done|done|]. destruct Ho as (_ & _ & _ & Hz & Hm); [by right; left|].
  exists b, t, a', es. split_and!; try done; [apply Hz|apply Hm]; cbn; by left.
Defined.

Lemma cleanups_told_again_witness :
  ∃ a a', demo_run (demo_entered ++ demo_joined ++ demo_returning) = Some a ∧
    lifecycle_of demo_charge demo_answers demo_context false a = Some (Completed, a', reminders 7 a) ∧ zlen (reminders 7 a) = 1.
Proof.
  destruct (demo_run (demo_entered ++ demo_joined ++ demo_returning)) as [a|] eqn:E; [|by vm_compute in E].
  assert (Hr : reachable demo_charge 7 a) by (by eapply demo_reachable). vm_compute in E. injection E as <-.
  match type of Hr with reachable _ _ ?a => set (b := a) in * end.
  destruct (cleanups_told_again demo_charge ltac:(done) 7 b demo_context false demo_answers) as (_ & _ & Hrem & _); [done|done|].
  destruct Hrem as (a' & Et & _); [by left|]. exists b, a'. by split_and!.
Defined.

(** ** Where the code loses track *)

(** A return that waited is taken up in place of the turn that lets its
    connection go, and that turn's effects are destroyed.  A player enters a
    zone, joins a room and leaves it; the zone confirms the return before the
    room confirms the leave, so the confirmation waits; an illegal command marks
    the connection as closing; the room confirms.  When the connection now
    closes, the actor tells nobody and forgets the zone the player stands in. *)
Theorem closed_turn_lost :
  ∃ a a', demo_run (demo_entered ++ demo_joined ++ demo_returning ++ demo_closing) = Some a ∧ reachable demo_charge 7 a ∧
    pa_bound a = Some demo_connection ∧ zone_claims a = [(11, 2)] ∧
    turn_of demo_charge demo_answers (PlayerConnectionClosedMessage demo_connection) demo_context a = Some (Completed, a', []) ∧
    zones_at a' = [] ∧ pa_bound a' = None.
Proof.
  destruct (demo_run (demo_entered ++ demo_joined ++ demo_returning ++ demo_closing)) as [a|] eqn:E; [|by vm_compute in E].
  assert (Hr : reachable demo_charge 7 a) by (by eapply demo_reachable). vm_compute in E. injection E as <-.
  match type of Hr with reachable _ _ ?a => exists a end. eexists. split; [done|]. split; [exact Hr|]. by vm_compute.
Qed.

(** The player asks for the zone it is in already, and the zone is slow. *)
Definition demo_reentering : list GameMessage :=
  [PlayerZoneRequestMessage demo_connection 3 (EnterZoneRequest 11 demo_position); PlayerWorkflowTimeoutMessage 2 ZoneEnter].

(** The zone has let the player go. *)
Definition demo_left : ZoneOutcome := mkZoneOutcome 7 5 1 CleanupZone 11 1 0 (demo_result ZoneApplied).

(** A request to enter the zone the player is in already carries the epoch of
    the stay.  When it times out, the actor has the zone remove the player, under
    that epoch, but goes on taking it for the place the player is in: after the
    zone has confirmed that the player is gone, the actor still claims it. *)
Theorem reentry_timeout_desyncs :
  ∃ a a' es, demo_run (demo_entered ++ demo_reentering) = Some a ∧ (11, 1) ∈ zone_claims a ∧ (11, 1) ∈ zone_debts a ∧
    turn_of demo_charge demo_answers (ZoneOutcomeMessage demo_left) demo_context a = Some (Completed, a', es) ∧
    zone_evidence (ZoneOutcomeMessage demo_left) (11, 1) ∧ pa_workflow a' = StableRoute (Some 11) ∧ zones_at a' = [(11, 1)] ∧ zone_debts a' = [].
Proof.
  destruct (demo_run (demo_entered ++ demo_reentering)) as [a|] eqn:E; [|by vm_compute in E]. vm_compute in E. injection E as <-.
  eexists _, _, _. split; [done|]. split; [by left|]. split; [by left|]. split; [by vm_compute|]. split; [by exists demo_left|]. by vm_compute.
Qed.
