(* ===== verification/GameActors.v ===== *)
(** * The actors of the game

    [src/src/adapter/game_actor_factory.cpp]: which actor a key names, and how a
    player is built from the row the database has.  The three adapters together
    are the actors the scheduler of a worker runs: an instance of its interface
    [ActorBehaviour], whose law, that a turn uses its timer reservations
    linearly, is proved here for every state of every adapter. *)

From S2P Require Import Prelude FrameCodec Identity Skills Arena Zone RoomTypes Room Player Actor Encoder GameMessages ActorAdapters PlayerAdapter.

(** ** Actors *)

Inductive GameActor :=
| ZoneActor (zone : Zone)
| RoomActor (room : RoomActorAdapter)
| PlayerActor (player : PlayerActorAdapter).

Fixpoint turn_map {M I J T} (f : I → J) (t : Turn M I T) : Turn M J T :=
  match t with
  | TurnThrow => TurnThrow
  | TurnReserve c n k => TurnReserve c n (fun r => turn_map f (k r))
  | TurnDrop r k => TurnDrop r (turn_map f k)
  | TurnComplete instance effects => TurnComplete (f instance) effects
  | TurnSuspend instance task => TurnSuspend (f instance) task
  end.

Section actors.
Context (chargedBytes : GameMessage → Z).

Definition game_dispatch (a : GameActor) (m : GameMessage) (context : TurnContext) : Turn GameMessage GameActor SaveTask :=
  match a with
  | ZoneActor z => let '(z', effects) := zone_dispatch z m context in completed (ZoneActor z') effects
  | RoomActor r => turn_map RoomActor (room_dispatch chargedBytes r m context)
  | PlayerActor p => turn_map PlayerActor (player_turn (player_dispatch chargedBytes m context) p)
  end.

(** Zones and rooms have the lifecycle of [ActorInstance]: none. *)
Definition game_lifecycleTurn (a : GameActor) (context : TurnContext) (shutdown : bool) : Turn GameMessage GameActor SaveTask :=
  match a with
  | PlayerActor p => turn_map PlayerActor (player_turn (player_lifecycleTurn chargedBytes context shutdown) p)
  | _ => TurnComplete a []
  end.

(** [makeSaveTask] after its [co_await]. *)
Definition game_resumeDb (task : SaveTask) (a : GameActor) (result : DbResult) : Turn GameMessage GameActor SaveTask :=
  match a with
  | PlayerActor p => TurnComplete (PlayerActor (onSaveCompleted p result (save_cleared task))) []
  | _ => TurnThrow
  end.

(** A coroutine that awaits the database throws when it is resumed without its
    result. *)
Definition game_behaviour : ActorBehaviour GameMessage GameActor SaveTask := {|
  dispatch := game_dispatch;
  lifecycleTurn := game_lifecycleTurn;
  resumeDb := game_resumeDb;
  resumeSynthetic := fun _ _ _ => TurnThrow;
  task_request := fun task => Some (SaveRequest (save_request task));
  lifecycleDeadline := fun a => match a with PlayerActor p => player_lifecycleDeadline p | _ => None end;
  needsShutdownTurn := fun a => match a with PlayerActor p => player_needsShutdownTurn p | _ => false end;
  shutdownPending := fun a => match a with PlayerActor p => player_shutdownPending p | _ => false end;
  finalizationFailed := fun a => match a with PlayerActor p => pa_final_failed p | _ => false end
|}.
End actors.

(** ** The factory *)

Record GameActorFactory := mkFactory {
  gf_timer_admission : bool;
  gf_player_load_enabled : bool;
  gf_player_save_interval : milliseconds;
  gf_room_config : RoomConfig
}.

Definition built {A} (f : A → GameActor) (o : outcome A) : Construction GameActor :=
  match o with Ret x => FactoryReady (Some (f x)) | Throw _ => FactoryThrows end.

(** [GameActorFactory::construct]. *)
Definition game_construct (f : GameActorFactory) (key : ActorKey) : Construction GameActor :=
  match key_kind key with
  | KindPlayer =>
      if gf_player_load_enabled f then FactoryNeedsLoad
      else built PlayerActor (makePlayerAdapter (Some (key_entity key)) (gf_timer_admission f))
  | KindZone => built ZoneActor (makeZone (key_entity key) default_zone_config)
  | KindRoom => built RoomActor (makeRoomAdapter (key_entity key) (gf_timer_admission f) (gf_room_config f))
  | KindProvisionalPlayer => FactoryRejected
  end.

(** The record of a row. *)
Definition record_of (player : PlayerId) (loaded : LoadPlayerResult) : outcome PlayerRecord :=
  let row := load_row loaded in
  let! loadout := makeLoadout (load_owned_skill_ids loaded) (row_equipped_skill_id row) in
  Ret (mkPlayerRecord player (row_handled_command_count row)
         (if row_has_location row
          then Some (mkPlayerLocation (row_zone_id row) (mkZonePosition (row_position_x row) (row_position_y row))) else None)
         (row_currency_balance row) (row_purchased_item_count row) (row_street_experience row) loadout).

(** [GameActorFactory::constructLoaded]. *)
Definition game_constructLoaded (f : GameActorFactory) (key : ActorKey) (loaded : LoadPlayerResult) : Construction GameActor :=
  match key_kind key with
  | KindPlayer =>
      let player := key_entity key in
      built (fun a => PlayerActor (set_pa_save_interval (gf_player_save_interval f) a))
        (if negb (load_found loaded) then makePlayerAdapter (Some player) (gf_timer_admission f)
         else let! record := record_of player loaded in loadPlayerAdapter player record (gf_timer_admission f))
  | _ => FactoryRejected
  end.

(** ** Reservations are used linearly *)

(** [tidy]: as the script ends, if it does, [Q] holds of the reservations it
    holds. *)
Fixpoint tidy {A} (held : list TimerReservation) (Q : list TimerReservation → A → Prop) (s : Script A) : Prop :=
  match s with
  | SThrow => True
  | SRet x => Q held x
  | SReserve c _ k => 0 <= c ∧ tidy held Q (k None) ∧ ∀ r, tidy (r :: held) Q (k (Some r))
  | SDrop r k => ∃ rest, held ≡ₚ r :: rest ∧ tidy rest Q k
  end.

Lemma tidy_bind {A B} held (Q : list TimerReservation → B → Prop) (f : A → Script B) s :
  tidy held (fun h x => tidy h Q (f x)) s → tidy held Q (script_bind f s).
Proof.
  revert held. induction s as [|x|c t k IH|r k IH]; intros held; cbn [tidy script_bind]; try done.
  - intros (Hc & HN & HS). split_and!; [done|by apply IH|]. intros r. by apply IH.
  - intros (rest & Hp & Hk). exists rest. split; [done|by apply IH].
Qed.

Lemma tidy_mono {A} held (Q R : list TimerReservation → A → Prop) s : (∀ h x, Q h x → R h x) → tidy held Q s → tidy held R s.
Proof.
  intros HQ. revert held. induction s as [|x|c t k IH|r k IH]; intros held; cbn [tidy]; try done.
  - apply HQ.
  - intros (Hc & HN & HS). split_and!; [done|by apply IH|]. intros r. by apply IH.
  - intros (rest & Hp & Hk). exists rest. split; [done|by apply IH].
Qed.

Abbreviation resv := (omap effect_reservation).

(** From the reservations [e] outside the effects to [e']. *)
Definition keeps {A} (m : PM A) (e e' : list TimerReservation) : Prop :=
  ∀ a es held, held ≡ₚ e ++ resv es → tidy held (fun h '(_, _, es') => h ≡ₚ e' ++ resv es') (m a es).

Section keeps_rules.
Context {A B : Type}.

Lemma resv_keeps_ret (x : A) e : keeps (mret x) e e.
Proof. by intros a es held H. Qed.

Lemma resv_keeps_bind (m : PM A) (f : A → PM B) e e1 e2 : keeps m e e1 → (∀ x, keeps (f x) e1 e2) → keeps (m ≫= f) e e2.
Proof. intros Hm Hf a es held H. apply tidy_bind. eapply tidy_mono; [|by apply Hm]. intros h [[x a'] es'] Hh. by apply Hf. Qed.

Lemma keeps_lift (o : outcome A) e : keeps (lift o) e e.
Proof. intros a es held H. by destruct o. Qed.
End keeps_rules.

Lemma keeps_this e : keeps this e e.
Proof. by intros a es held H. Qed.
Lemma keeps_update f e : keeps (update f) e e.
Proof. by intros a es held H. Qed.

Lemma keeps_push x e e' : e ≡ₚ e' ++ option_list (effect_reservation x) → keeps (push_effect x) e e'.
Proof.
  intros He a es held H. unfold push_effect, effects_push, effects_tryPush. destruct (_ <=? _); cbn; [done|].
  rewrite H, omap_app, He. csimpl. destruct (effect_reservation x) as [r|]; cbn; rewrite ?app_nil_r; [|done].
  rewrite <-app_assoc. f_equiv. apply (Permutation_app_comm [r]).
Qed.

Lemma keeps_quiet x e : effect_reservation x = None → keeps (push_effect x) e e.
Proof. intros Hx. apply keeps_push. rewrite Hx. cbn. by rewrite app_nil_r. Qed.

Lemma keeps_push_each l e : resv l = [] → keeps (push_each l) e e.
Proof.
  induction l as [|x l IH]; intros Hl; cbn [push_each]; [apply resv_keeps_ret|]. csimpl in Hl. destruct (effect_reservation x) eqn:Ex; [done|].
  eapply resv_keeps_bind; [by apply keeps_quiet|]. intros _. by apply IH.
Qed.

Definition held_reservation (reservation : option TimerReservation) : list TimerReservation := option_list reservation.

Lemma keeps_schedule timeout context reservation : keeps (schedule_timeout timeout context reservation) (held_reservation reservation) [].
Proof. destruct reservation as [r|]; [by apply keeps_push|apply resv_keeps_ret]. Qed.

Lemma keeps_save now e : keeps (scheduleSaveIfDirty now) e e.
Proof.
  unfold scheduleSaveIfDirty. eapply resv_keeps_bind; [apply keeps_this|]. intros a. destruct (player_identity a); [|apply resv_keeps_ret].
  destruct (_ || _ || _); [apply resv_keeps_ret|]. eapply resv_keeps_bind; [apply keeps_update|]. intros _. by apply keeps_quiet.
Qed.

Lemma keeps_timer {A} chargedBytes (Hcharge : ∀ m, 0 <= chargedBytes m) timeout context (refused : PM A) go e e' :
  keeps refused e e' → keeps (go None) e e' → (∀ r, keeps (go (Some r)) (r :: e) e') →
  keeps (with_timer chargedBytes timeout context refused go) e e'.
Proof.
  intros HR HN HS. unfold with_timer. eapply resv_keeps_bind; [apply keeps_this|]. intros a. destruct (pa_admission a); [|done].
  intros a' es held H. apply tidy_bind. cbn. split_and!; [apply Hcharge|by apply HR|]. intros r. apply HS. cbn. by rewrite H.
Qed.

(** One step: the shape of the script decides. *)
Ltac keep :=
  lazymatch goal with
  | |- keeps (mbind _ _) _ _ => eapply resv_keeps_bind; [|intros ?]
  | |- keeps (mret _) _ _ => apply resv_keeps_ret
  | |- keeps this _ _ => apply keeps_this
  | |- keeps (update _) _ _ => apply keeps_update
  | |- keeps (lift _) _ _ => apply keeps_lift
  | |- keeps (push_effect _) _ _ => apply keeps_quiet; done
  | |- keeps (schedule_timeout _ _ ?r) _ _ => apply (keeps_schedule _ _ r)
  | |- keeps (scheduleSaveIfDirty _) _ _ => apply keeps_save
  | |- keeps (with_timer _ _ _ _ _) _ _ => eapply keeps_timer; [eassumption|..|intros ?]
  | |- keeps (if ?b then _ else _) _ _ => destruct b
  | |- keeps (match ?x with _ => _ end) _ _ => destruct x
  end.
Ltac keeping := repeat (cbn beta iota zeta; keep).

Section linear.
Context (chargedBytes : GameMessage → Z) (Hcharge : ∀ m, 0 <= chargedBytes m).

Lemma keeps_zone_request c request_id request context : keeps (handleZoneRequest chargedBytes c request_id request context) [] [].
Proof.
  unfold handleZoneRequest, enter_request, move_request, leave_request, cross_zone_request, pend_operation, answer_zone, send_frame, close_connection,
    next_correlation.
  keeping.
Qed.

Lemma keeps_return player route generation request_id leave timeout reservation context :
  resv leave = [] → keeps (return_to_zone player route generation request_id leave timeout reservation context) (held_reservation reservation) [].
Proof.
  intros Hl. unfold return_to_zone, next_correlation. keeping; by apply keeps_push_each.
Qed.

Lemma keeps_room_request c request_id request context : keeps (handleRoomRequest chargedBytes c request_id request context) [] [].
Proof.
  unfold handleRoomRequest, join_request, command_room, leave_room_request, answer_join, send_frame, close_connection, next_correlation. keeping.
  all: lazymatch goal with |- keeps (return_to_zone _ _ _ _ _ _ ?r _) _ _ => by apply (keeps_return _ _ _ _ _ _ r) end.
Qed.

Lemma keeps_identified f e : (∀ p, keeps (f p) e e) → keeps (when_identified f) e e.
Proof. intros Hf. unfold when_identified. keeping. apply Hf. Qed.

Lemma keeps_known_none t close e : keeps (failCrossZoneKnownNone t close) e e.
Proof. unfold failCrossZoneKnownNone, appendCrossZoneCleanup, close_connection. keeping. Qed.

Lemma keeps_zone_outcome o context : keeps (handleZoneOutcome chargedBytes o context) [] [].
Proof.
  unfold handleZoneOutcome, transfer_outcome, left_source, entered_target, restored_source, enter_stage, settle_in, join_left_zone, return_entered,
    pending_outcome, fail_transfer, answer_join, send_frame, close_connection.
  keeping; apply keeps_known_none.
Qed.

Lemma keeps_room_outcome o context : keeps (handleRoomOutcome chargedBytes o context) [] [].
Proof.
  unfold handleRoomOutcome, terminal_notification, join_outcome, answer_join, send_frame, close_connection. keeping.
  all: lazymatch goal with |- keeps (return_to_zone _ _ _ _ _ _ ?r _) _ _ => by apply (keeps_return _ _ _ _ _ _ r) end.
Qed.

Lemma keeps_timeout correlation step context : keeps (handleWorkflowTimeout correlation step context) [] [].
Proof.
  unfold handleWorkflowTimeout, operation_timeout, entering_timeout, returning_timeout, fail_transfer, answer_join, send_frame, close_connection.
  keeping; try apply keeps_known_none; apply keeps_identified; intros ?; keeping.
Qed.

(** *** Whole turns *)

Definition settles_held (h : list TimerReservation) (r : TurnEnd * PlayerActorAdapter * Batch) : Prop := let '(_, _, es) := r in h ≡ₚ resv es.
Definition tidies (m : PM TurnEnd) : Prop := ∀ a, tidy [] settles_held (m a []).

Lemma keeps_tidies m : keeps m [] [] → tidies m.
Proof. intros H a. eapply tidy_mono; [|by apply H]. by intros h [[t a'] es']. Qed.

(** Effects that reserve nothing. *)
Definition free (es : Batch) : Prop := Forall (fun e => effect_reservation e = None) es.

Lemma free_resv es : free es → resv es = [].
Proof. induction 1 as [|e es He _ IH]; [done|]. csimpl. by rewrite He. Qed.

Lemma push_all_out es batch out : push_all es batch = Some out → out = batch ++ es.
Proof.
  revert batch. induction es as [|e es IH]; intros batch; cbn [push_all]; [intros [= <-]; by rewrite app_nil_r|].
  unfold effects_push, effects_tryPush. destruct (_ <=? _); [done|]. cbn. intros ->%IH. by rewrite <-app_assoc.
Qed.

Lemma free_player context result es : toEffects_player context result = Some es → free es.
Proof.
  intros ->%push_all_out. cbn. apply Forall_app. split; [by destruct (room_join result); repeat constructor|].
  destruct (pt_connection context); [|constructor]. apply Forall_fmap. by apply Forall_true.
Qed.

Lemma tidies_this f : (∀ a, tidy [] settles_held (f a a [])) → tidies (this ≫= f).
Proof. intros H a. exact (H a). Qed.

Lemma tidies_ret a : tidy [] settles_held (mret (M := PM) Completed a []).
Proof. exact (Permutation_refl []). Qed.

Lemma tidies_run connection request_id command context : tidies (run_command connection request_id command context).
Proof.
  intros a. unfold run_command. apply tidy_bind. cbn [tidy this]. apply tidy_bind. unfold lift.
  destruct (handle (pa_player a) command) as [[result q]|]; [|done]. cbn [tidy]. apply tidy_bind. cbn [tidy update]. apply tidy_bind. cbn [tidy this].
  apply tidy_bind. set (turn := mkPlayerTurn _ _ _).
  destruct (toEffects_player turn result) as [es|] eqn:Ees; [|done]. apply free_player, free_resv in Ees. cbn [tidy].
  eapply tidy_mono; [|apply (resv_keeps_bind _ _ [] [] [] (keeps_save (turn_now context) []) (fun _ => resv_keeps_ret Completed [])); by rewrite Ees].
  by intros h [[t a'] es'].
Qed.

Lemma tidies_command connection request_id command context : tidies (command_turn connection request_id command context).
Proof.
  unfold command_turn, close_connection. apply tidies_this. intros a. destruct (isClosingOptional a connection); [apply tidies_ret|].
  destruct (is_authenticate command); [|apply tidies_run].
  destruct (if pa_cleanup_count a =? 0 then None else connection); [apply keeps_tidies; keeping|].
  destruct (conflicting a connection); [apply keeps_tidies; keeping|]. apply tidy_bind. apply tidies_run.
Qed.

Lemma leaves_free p a : free (leaves_of p a).
Proof.
  unfold leaves_of. apply Forall_app. split; [apply Forall_fmap; by apply Forall_true|]. destruct (pa_workflow a) as [[]| | | |]; by repeat constructor.
Qed.

Lemma keeps_closed connection context : keeps (closed_turn connection context) [] [].
Proof.
  unfold closed_turn. keeping; try apply keeps_known_none; apply keeps_push_each, free_resv, leaves_free.
Qed.

Lemma tidies_message m context : tidies (dispatchMessage chargedBytes m context).
Proof.
  unfold dispatchMessage. apply tidies_this. intros a. destruct (_ && _); [apply tidies_ret|].
  destruct m as [| | | | | | | | | | |o|o| |]; try apply tidies_ret; try apply tidies_command.
  all: try (apply keeps_tidies; first [apply keeps_closed|apply keeps_zone_request|apply keeps_room_request|apply keeps_timeout]).
  - apply keeps_tidies. unfold grant_turn. keeping.
  - destruct (isClosingConnection a connection); [apply tidies_ret|apply tidies_run].
  - apply keeps_tidies. unfold save_turn. keeping.
  - destruct (bool_decide _); apply keeps_tidies; [unfold handleZoneCleanup; keeping|apply keeps_zone_outcome].
  - destruct (bool_decide _); apply keeps_tidies; [unfold handleRoomCleanup; keeping|apply keeps_room_outcome].
Qed.

(** A reservation held aside stays aside. *)
Lemma tidy_frame {A} e held h0 (Q : list TimerReservation → A → Prop) s :
  (∀ h h' x, h ≡ₚ h' → Q h x → Q h' x) → tidy held Q s → h0 ≡ₚ e ++ held → tidy h0 (fun h x => ∃ h', h ≡ₚ e ++ h' ∧ Q h' x) s.
Proof.
  intros HQ. revert held h0. induction s as [|x|c t k IH|r k IH]; intros held h0; cbn [tidy]; try done.
  - intros H Hp. by exists held.
  - intros (Hc & HN & HS) Hp. split_and!; [done|by eapply IH|]. intros r. eapply IH; [apply HS|]. rewrite Hp. apply Permutation_middle.
  - intros (rest & Hh & Hk) Hp. exists (e ++ rest). split; [rewrite Hp, Hh; symmetry; apply Permutation_middle|]. by eapply IH.
Qed.

Lemma keeps_frame {A} (m : PM A) e : keeps m [] [] → keeps m e e.
Proof.
  intros H a es held Hh. eapply tidy_mono; [|eapply (tidy_frame e (resv es)); [|by apply H|exact Hh]].
  - intros h [[x a'] es'] (h' & E & Hq). cbn in Hq. by rewrite E, Hq.
  - intros h h' [[x a'] es'] E Hq. cbn in *. by rewrite <-E.
Qed.

Lemma tidy_drop_all (rs e h : list TimerReservation) a (es : Batch) :
  h ≡ₚ rs ++ e ++ resv es → tidy h (fun h '(_, _, es') => h ≡ₚ e ++ resv es') (drop_all rs (SRet (tt, a, es))).
Proof.
  revert h. induction rs as [|r rs IH]; intros h Hh; cbn [drop_all tidy]; [done|]. exists (rs ++ e ++ resv es). split; [done|]. by apply IH.
Qed.

Lemma keeps_resume t context : keeps (resume_deferred chargedBytes t context) [] [].
Proof.
  unfold resume_deferred. eapply resv_keeps_bind; [apply keeps_this|]. intros a. destruct (pa_deferred a) as [o|]; [|apply resv_keeps_ret].
  destruct (_ && _ && _); [|apply resv_keeps_ret]. intros a' es held Hh. apply tidy_bind. cbn [tidy take_effects].
  refine (resv_keeps_bind _ _ (resv es) (resv es) [] (keeps_update _ _) (fun _ => _) a' [] held _); [|by rewrite Hh; cbn; rewrite app_nil_r].
  eapply resv_keeps_bind; [apply keeps_frame, keeps_zone_outcome|]. intros t'. eapply resv_keeps_bind; [|intros _; apply resv_keeps_ret].
  intros a2 es2 held2 Hh2. by apply (tidy_drop_all (resv es) []).
Qed.

Lemma prepare_effect_resv context player a e a' e' :
  prepare_effect context player a e = Some (a', e') → effect_reservation e' = effect_reservation e.
Proof.
  destruct e as [| |target m| |]; cbn [prepare_effect]; try (by intros [= <- <-]). destruct (note_membership context a m) as [a1 m1].
  destruct (debt_of a1 target m1); [|by intros [= <- <-]]. destruct (take_slot a1 _) as [[a2 i]|]; [|done]. cbn.
  destruct (mjoin (pa_cleanups a2 !! i)); [|done]. by intros [= <- <-].
Qed.

Lemma prepare_loop_resv context player a es a' es' : prepare_loop context player a es = Some (a', es') → resv es' = resv es.
Proof.
  revert a es'. induction es as [|e es IH]; intros a es'; cbn [prepare_loop]; [by intros [= <- <-]|].
  destruct (prepare_effect context player a e) as [[a1 e1]|] eqn:E1; [|done]. cbn. destruct (prepare_loop context player a1 es) as [[a2 es2]|] eqn:E2; [|done].
  cbn. intros [= <- <-]. csimpl. by rewrite (prepare_effect_resv _ _ _ _ _ _ E1), (IH _ _ E2).
Qed.

Lemma keeps_prepare context e : keeps (prepareLifecycleEffects context) e e.
Proof.
  intros a es held Hh. unfold prepareLifecycleEffects. destruct (player_identity a); [|done].
  destruct (prepare_loop context _ a es) as [[a' es']|] eqn:E; [|done]. cbn. by rewrite (prepare_loop_resv _ _ _ _ _ _ E).
Qed.

Lemma tidies_dispatch m context : tidies (player_dispatch chargedBytes m context).
Proof.
  intros a. unfold player_dispatch. apply tidy_bind. eapply tidy_mono; [|apply tidies_message]. intros h [[t a'] es] Hh.
  eapply tidy_mono; [|refine (resv_keeps_bind _ _ [] [] [] (keeps_resume t context) _ a' es h Hh)].
  - by intros h' [[t' a2] es2].
  - intros [|task]; [|apply resv_keeps_ret]. eapply resv_keeps_bind; [apply keeps_prepare|]. intros _. eapply resv_keeps_bind; [|intros _; apply resv_keeps_ret].
    by intros a2 es2 held2 Hh2.
Qed.

Lemma tidies_lifecycle context stopping : tidies (player_lifecycleTurn chargedBytes context stopping).
Proof.
  assert (Hidle : tidies (idle_lifecycle context)).
  { apply keeps_tidies. unfold idle_lifecycle, retry_cleanups, final_save. keeping. apply keeps_push_each, free_resv, Forall_fmap, Forall_true. done. }
  unfold player_lifecycleTurn. apply tidies_this. intros a. destruct (_ && _); [|apply Hidle]. apply tidy_bind.
  destruct (pa_bound a); [apply tidies_dispatch|apply Hidle].
Qed.

(** *** Turns of the other actors *)

Lemma tidy_linear h s : tidy h settles_held s → linear h (toTurn s).
Proof.
  revert h. induction s as [|[[t a] es]|c n k IH|r k IH]; intros h; cbn [tidy toTurn linear]; try done.
  - by destruct t.
  - intros (Hc & HN & HS). split_and!; auto.
  - intros (rest & Hh & Hk). exists rest. auto.
Qed.

Lemma linear_map {M I J T} (f : I → J) h (t : Turn M I T) : linear h t → linear h (turn_map f t).
Proof.
  revert h. induction t as [|c n k IH|r k IH|i es|i task]; intros h; cbn [linear turn_map]; try done.
  - intros (Hc & HN & HS). split_and!; auto.
  - intros (rest & Hh & Hk). exists rest. auto.
Qed.

Lemma linear_completed {I T} (a : I) es h : (∀ l, es = Some l → h ≡ₚ resv l) → linear h (completed (T := T) a es).
Proof. destruct es as [l|]; [|done]. intros H. by apply H. Qed.

Lemma free_zone context result es : toEffects_zone context result = Some es → free es.
Proof.
  unfold toEffects_zone. intros ->%push_all_out. cbn. apply Forall_app. split; repeat case_match; by repeat constructor.
Qed.

Lemma free_connected {A} context player (effect : A → ConnectionRef → GameEffect) l :
  (∀ x c, effect_reservation (effect x c) = None) → free (for_connected context player effect l).
Proof.
  intros He. apply Forall_forall. intros e. unfold for_connected. rewrite list_elem_of_omap. intros (x & _ & Hx).
  destruct (routeConnectionFor _ _); [|done]. injection Hx as <-. apply He.
Qed.

Lemma room_resv context result prepared es :
  toEffects_room context result prepared = Some es → resv es = match prepared with Some timer => [prepared_reservation timer] | None => [] end.
Proof.
  intros ->%push_all_out. rewrite app_nil_l, omap_app. rewrite (free_resv (room_reply_effects _ _ ++ _)); [by destruct prepared|].
  unfold free. rewrite !Forall_app. split_and!.
  - unfold room_reply_effects. repeat case_match; by repeat constructor.
  - unfold digest_effects. repeat case_match; [constructor|by apply free_connected..].
  - unfold ending_effects. destruct (rr_outcome result) as [o|]; [|case_match; by repeat constructor]. rewrite !Forall_app. split_and!.
    + unfold outcome_frames. destruct o; by apply free_connected.
    + apply Forall_fmap. by apply Forall_true.
    + apply Forall_fmap. by apply Forall_true.
    + by repeat constructor.
Qed.

Lemma room_linear a m context : linear [] (room_dispatch (T := SaveTask) chargedBytes a m context).
Proof.
  assert (Hplain : ∀ c r cmd rt mb, linear [] (plain_command (T := SaveTask) a c r cmd rt mb context)).
  { intros. unfold plain_command. destruct (room_handle _ _ _). apply linear_completed. by intros l ->%room_resv. }
  assert (Htimer : ∀ room cmd, linear [] (timer_turn (T := SaveTask) a room cmd context)).
  { intros. unfold timer_turn. destruct (negb _); [done|]. destruct (room_handle _ _ _). apply linear_completed. by intros l ->%room_resv. }
  assert (Hstart : ∀ c r rt mb, linear [] (start_battle (T := SaveTask) chargedBytes a c r rt mb context)).
  { intros. unfold start_battle. destruct (ra_admission a).
    - cbn [linear]. split_and!; [apply Hcharge|apply linear_completed; by intros l ->%room_resv|]. intros r0.
      destruct (room_handle _ _ _) as [result room']. destruct (rr_deadline_after result); [|done]. apply linear_completed. by intros l ->%room_resv.
    - apply linear_completed. by intros l ->%room_resv. }
  destruct m as [| | | |c r cmd rt mb| | | | | | | | | |]; try exact (Permutation_refl []); cbn [room_dispatch]; try apply Htimer.
  destruct cmd; try (destruct (_ && _); [apply Hstart|apply Hplain]). destruct (stale_leave _ _ _); [|apply Hplain].
  apply linear_completed. by intros l ->%room_resv.
Qed.

Lemma game_dispatch_linear a m context : linear [] (game_dispatch chargedBytes a m context).
Proof.
  destruct a as [z|r|q]; cbn [game_dispatch].
  - destruct (zone_dispatch z m context) as [z' es] eqn:E. apply linear_completed. intros l ->. unfold zone_dispatch in E.
    destruct m; try (injection E as <- <-; done); destruct (zone_handle z _) as [result z2]; injection E as _ E; by rewrite (free_resv _ (free_zone _ _ _ E)).
  - apply linear_map, room_linear.
  - apply linear_map, tidy_linear, tidies_dispatch.
Qed.
End linear.
