(* ===== verification/GameSink.v ===== *)
(** * Frames to actors

    [GameRequestSink] of [src/src/adapter/game_request_sink.cpp]: what a worker
    does with a decoded frame, and with a connection that closed.  It keeps the
    session of each connection, and tells the player's actor that the connection
    closed until the actor's worker confirms.

    The worker it calls is the class [SinkWorker].  During a call it may call the
    sink back: [send] may close the connection, a notification may be confirmed
    at once; the calls back are the lists these methods answer with.  The map of
    sessions, a [std::unordered_map], is a [gmap]; the mirrors [_live_sessions]
    and [_pending_closes_atomic] that other threads read are the fields
    themselves.  The assertions on the owner thread are left out. *)

From S2P Require Import Prelude Wire FrameCodec Identity Skills Arena Zone RoomTypes Player Actor GameMessages Network.

(** ** Payloads *)

(** [decodeBigEndian<Value>]: [value = (value << 8U) | byte], in [width] bits, over
    [size] bytes from [offset]. *)
Definition decodeBigEndian (width : Z) (bs : bytes) (offset size : nat) : Z :=
  foldl (fun value byte => Z.lor (Z.shiftl value 8 mod 2 ^ width) byte) 0 (take size (drop offset bs)).

(** [static_cast<std::int32_t>]. *)
Definition as_i32 (z : Z) : Z := if z <=? I32_MAX then z else z - 2 ^ 32.

Definition decodePlayerId (bs : bytes) : option PlayerId :=
  if negb (zlen bs =? 8) then None
  else let value := decodeBigEndian 64 bs 0 8 in if value =? 0 then None else Some value.

Definition decodePurchase (bs : bytes) : option PlayerCommand :=
  if negb (zlen bs =? 12) then None
  else
    let key := decodeBigEndian 64 bs 0 8 in
    let product := decodeBigEndian 32 bs 8 4 in
    if (key =? 0) || (product =? 0) then None else Some (PurchaseCommand key product).

Definition decodeEquipSkill (bs : bytes) : option PlayerCommand :=
  if negb (zlen bs =? 4) then None
  else let skill := decodeBigEndian 32 bs 0 4 in if skill =? 0 then None else Some (EquipSkillCommand skill).

Definition decodeEnterZone (bs : bytes) : option ZoneRequest :=
  if negb (zlen bs =? 16) then None
  else Some (EnterZoneRequest (decodeBigEndian 64 bs 0 8)
               (mkZonePosition (as_i32 (decodeBigEndian 32 bs 8 4)) (as_i32 (decodeBigEndian 32 bs 12 4)))).

Definition decodeMove (bs : bytes) : option ZoneRequest :=
  if negb (zlen bs =? 8) then None
  else Some (MoveRequest (mkZonePosition (as_i32 (decodeBigEndian 32 bs 0 4)) (as_i32 (decodeBigEndian 32 bs 4 4)))).

Definition decodeLeave (bs : bytes) : option ZoneRequest := if negb (bool_decide (bs = [])) then None else Some LeaveRequest.

Definition decodeRoomJoin (bs : bytes) : option RoomRequest :=
  if negb (zlen bs =? 8) then None else Some (RoomJoinRequest (decodeBigEndian 64 bs 0 8)).

Definition decodeBattleStart (bs : bytes) : option RoomRequest :=
  if negb (zlen bs =? 8) then None else Some (BattleStartRequest (decodeBigEndian 64 bs 0 8)).

Definition decodeRoomLeave (bs : bytes) : option RoomRequest := if negb (bool_decide (bs = [])) then None else Some RoomLeaveRequest.

Definition decodeUseSkill (bs : bytes) : option RoomRequest :=
  if negb (zlen bs =? 20) then None
  else
    let room := decodeBigEndian 64 bs 0 8 in
    let skill := decodeBigEndian 32 bs 8 4 in
    let seq := decodeBigEndian 64 bs 12 8 in
    if (skill =? 0) || (seq =? 0) then None else Some (UseSkillRequest room skill seq).

(** [payload[8]], in a payload of 17 bytes. *)
Definition decodeSetMoveIntent (bs : bytes) : option RoomRequest :=
  if negb (zlen bs =? 17) then None
  else
    let room := decodeBigEndian 64 bs 0 8 in
    let dir_byte := default 0 (bs !! 8%nat) in
    let seq := decodeBigEndian 64 bs 9 8 in
    if negb (isValidMoveDirection dir_byte) || (seq =? 0) then None
    else Some (SetMoveIntentRequest room (direction_of_u8 dir_byte) seq).

(** ** State *)

Definition MAX_TRACKED_SESSIONS : nat := 1024.
Definition CLOSE_RETRY : milliseconds := 10.

Inductive SessionRecordState := RecordFree | RecordTracked | RecordClosing.

#[export] Instance SessionRecordState_eq_dec : EqDecision SessionRecordState.
Proof. solve_decision. Defined.

Record SessionRecord := mkRecord { sr_state : SessionRecordState; sr_connection : ConnectionRef; sr_player : PlayerId }.

Definition free_record : SessionRecord := mkRecord RecordFree (mkConnectionRef 0 0 0) 0.

Record GameSession := mkGameSession { gs_generation : ConnectionGeneration; gs_player : PlayerId; gs_record_index : nat }.

Record GameRequestSink := mkSink {
  sk_sessions : gmap Z GameSession;
  sk_live_sessions : Z;
  sk_records : list SessionRecord;
  sk_pending_closes : Z;
  sk_cancelled_closes : Z;
  sk_next_retry : option time_point;
  sk_retry_cursor : nat
}.

Definition makeSink : GameRequestSink := mkSink ∅ 0 (repeat free_record MAX_TRACKED_SESSIONS) 0 0 None 0.

Definition set_sk_records (x : list SessionRecord) (s : GameRequestSink) : GameRequestSink :=
  mkSink (sk_sessions s) (sk_live_sessions s) x (sk_pending_closes s) (sk_cancelled_closes s) (sk_next_retry s) (sk_retry_cursor s).
Definition set_sk_sessions (x : gmap Z GameSession) (live : Z) (s : GameRequestSink) : GameRequestSink :=
  mkSink x live (sk_records s) (sk_pending_closes s) (sk_cancelled_closes s) (sk_next_retry s) (sk_retry_cursor s).
Definition set_sk_pending (x : Z) (s : GameRequestSink) : GameRequestSink :=
  mkSink (sk_sessions s) (sk_live_sessions s) (sk_records s) x (sk_cancelled_closes s) (sk_next_retry s) (sk_retry_cursor s).
Definition set_sk_next_retry (x : option time_point) (s : GameRequestSink) : GameRequestSink :=
  mkSink (sk_sessions s) (sk_live_sessions s) (sk_records s) (sk_pending_closes s) (sk_cancelled_closes s) x (sk_retry_cursor s).
Definition set_sk_cursor (x : nat) (s : GameRequestSink) : GameRequestSink :=
  mkSink (sk_sessions s) (sk_live_sessions s) (sk_records s) (sk_pending_closes s) (sk_cancelled_closes s) (sk_next_retry s) x.

Definition cancelConnectionCloseRetries (s : GameRequestSink) : GameRequestSink :=
  mkSink ∅ 0 (repeat free_record MAX_TRACKED_SESSIONS) 0 (u64 (sk_cancelled_closes s + sk_pending_closes s)) None 0.

(** [playerFor]. *)
Definition session_player (s : GameRequestSink) (c : ConnectionRef) : option PlayerId :=
  match sk_sessions s !! cref_id c with
  | Some session => if gs_generation session =? cref_generation c then Some (gs_player session) else None
  | None => None
  end.

(** The first record that satisfies [p]. *)
Fixpoint find_record (p : SessionRecord → bool) (i : nat) (records : list SessionRecord) : option nat :=
  match records with [] => None | r :: rest => if p r then Some i else find_record p (S i) rest end.

Definition is_free (r : SessionRecord) : bool := bool_decide (sr_state r = RecordFree).
Definition is_closing (r : SessionRecord) : bool := bool_decide (sr_state r = RecordClosing).

(** ** The worker *)

Class SinkWorker (E : Type) := {
  sw_id : WorkerId;
  sw_now : E → time_point * E;
  sw_tell : ActorKey → GameMessage → E → bool * E;
  sw_send : ConnectionRef → Frame → bool → E → list ConnectionRef * E;
  sw_notify : ActorKey → ConnectionRef → GameMessage → E → list (ActorKey * ConnectionRef * ActorConnectionClosedResult) * E
}.

Section sink.
Context {E : Type} `{Worker : !SinkWorker E}.

Definition accepted (answer : bool * E) : RequestPostResult * E := (if answer.1 then PostAccepted else PostRejected, answer.2).

(** ** Closed connections *)

Definition confirms (key : ActorKey) (connection : ConnectionRef) (r : SessionRecord) : bool :=
  is_closing r && bool_decide (sr_connection r = connection) && bool_decide (player_key (sr_player r) = key).

(** [onActorConnectionClosedReceipt]; both results acknowledge. *)
Definition onActorConnectionClosedReceipt (key : ActorKey) (connection : ConnectionRef) (result : ActorConnectionClosedResult)
    (s : GameRequestSink) : GameRequestSink :=
  if negb (cref_owner connection =? sw_id) then s
  else
    match find_record (confirms key connection) 0 (sk_records s) with
    | Some i =>
        let s1 := set_sk_pending (u64 (sk_pending_closes s - 1)) (set_sk_records (<[i := free_record]> (sk_records s)) s) in
        if sk_pending_closes s1 =? 0 then set_sk_next_retry None s1 else s1
    | None => s
    end.

Definition receive (s : GameRequestSink) (receipt : ActorKey * ConnectionRef * ActorConnectionClosedResult) : GameRequestSink :=
  let '(key, connection, result) := receipt in onActorConnectionClosedReceipt key connection result s.

(** [notifyActorConnectionClosed], and what is confirmed at once. *)
Definition notify (r : SessionRecord) (s : GameRequestSink) (e : E) : GameRequestSink * E :=
  let '(receipts, e') := sw_notify (player_key (sr_player r)) (sr_connection r) (PlayerConnectionClosedMessage (sr_connection r)) e in
  (foldl receive s receipts, e').

Definition sooner (deadline : option time_point) (t : time_point) : time_point :=
  match deadline with Some d => Z.min d t | None => t end.

Definition onConnectionClosed (connection : ConnectionRef) (s : GameRequestSink) (e : E) : GameRequestSink * E :=
  if negb (cref_owner connection =? sw_id) then (s, e)
  else
    match sk_sessions s !! cref_id connection with
    | None => (s, e)
    | Some session =>
        if negb (gs_generation session =? cref_generation connection) then (s, e)
        else
          match sk_records s !! gs_record_index session with
          | None => (s, e)
          | Some r =>
              if negb (bool_decide (sr_state r = RecordTracked)) || negb (bool_decide (sr_connection r = connection))
                 || negb (sr_player r =? gs_player session) then (s, e)
              else
                let s1 := set_sk_pending (u64 (sk_pending_closes s + 1))
                            (set_sk_records (<[gs_record_index session := mkRecord RecordClosing (sr_connection r) (sr_player r)]> (sk_records s)) s) in
                let '(now, e1) := sw_now e in
                let s2 := set_sk_next_retry (Some (sooner (sk_next_retry s1) (after now CLOSE_RETRY))) s1 in
                let s3 := set_sk_sessions (delete (cref_id connection) (sk_sessions s2)) (u64 (sk_live_sessions s2 - 1)) s2 in
                notify r s3 e1
          end
    end.

(** ** Posting *)

Definition authenticate_message (connection : ConnectionRef) (frame : Frame) (player : PlayerId) : GameMessage :=
  PlayerCommandMessage (Some connection) (request_id frame) (AuthenticateCommand player).

Definition postAuthenticate (connection : ConnectionRef) (frame : Frame) (s : GameRequestSink) (e : E) : RequestPostResult * GameRequestSink * E :=
  match decodePlayerId (payload frame) with
  | None => (PostInvalid, s, e)
  | Some player =>
      match sk_sessions s !! cref_id connection with
      | Some session =>
          if negb (gs_generation session =? cref_generation connection) then (PostInvalid, s, e)
          else if negb (gs_player session =? player) then (PostInvalid, s, e)
          else let '(r, e') := accepted (sw_tell (player_key player) (authenticate_message connection frame player) e) in (r, s, e')
      | None =>
          if existsb (fun r => is_closing r && bool_decide (sr_connection r = connection)) (sk_records s) then (PostInvalid, s, e)
          else
            match find_record is_free 0 (sk_records s) with
            | None => (PostRejected, s, e)
            | Some i =>
                let s1 := set_sk_sessions (<[cref_id connection := mkGameSession (cref_generation connection) player i]> (sk_sessions s))
                            (u64 (sk_live_sessions s + 1))
                            (set_sk_records (<[i := mkRecord RecordTracked connection player]> (sk_records s)) s) in
                let '(ok, e') := sw_tell (player_key player) (authenticate_message connection frame player) e in
                if ok then (PostAccepted, s1, e')
                else
                  (PostRejected,
                   set_sk_sessions (delete (cref_id connection) (sk_sessions s1)) (u64 (sk_live_sessions s1 - 1))
                     (set_sk_records (<[i := free_record]> (sk_records s1)) s1), e')
            end
      end
  end.

(** The connections a [send] closed. *)
Fixpoint close_each (closed : list ConnectionRef) (s : GameRequestSink) (e : E) : GameRequestSink * E :=
  match closed with
  | [] => (s, e)
  | c :: rest => let '(s1, e1) := onConnectionClosed c s e in close_each rest s1 e1
  end.

Definition postPing (connection : ConnectionRef) (frame : Frame) (s : GameRequestSink) (e : E) : RequestPostResult * GameRequestSink * E :=
  match session_player s connection with
  | None =>
      let '(closed, e1) := sw_send connection (mkFrame MessageType.Pong (request_id frame) (payload frame)) false e in
      let '(s1, e2) := close_each closed s e1 in (PostAccepted, s1, e2)
  | Some player =>
      let '(r, e') := accepted (sw_tell (player_key player) (PingMessage connection (request_id frame) (payload frame)) e) in (r, s, e')
  end.

(** [postPlayerCommand], [postZoneRequest], [postRoomRequest]: the same code for
    three kinds of messages. *)
Definition post_decoded {A} (decoder : bytes → option A) (message : A → GameMessage) (connection : ConnectionRef) (frame : Frame)
    (s : GameRequestSink) (e : E) : RequestPostResult * GameRequestSink * E :=
  match session_player s connection with
  | None => (PostInvalid, s, e)
  | Some player =>
      match decoder (payload frame) with
      | None => (PostInvalid, s, e)
      | Some x => let '(r, e') := accepted (sw_tell (player_key player) (message x) e) in (r, s, e')
      end
  end.

Definition postPlayerCommand (decoder : bytes → option PlayerCommand) (connection : ConnectionRef) (frame : Frame) :=
  post_decoded decoder (PlayerCommandMessage (Some connection) (request_id frame)) connection frame.
Definition postZoneRequest (decoder : bytes → option ZoneRequest) (connection : ConnectionRef) (frame : Frame) :=
  post_decoded decoder (PlayerZoneRequestMessage connection (request_id frame)) connection frame.
Definition postRoomRequest (decoder : bytes → option RoomRequest) (connection : ConnectionRef) (frame : Frame) :=
  post_decoded decoder (PlayerRoomRequestMessage connection (request_id frame)) connection frame.

(** [GameRequestSink::tryPost]. *)
Definition game_tryPost (connection : ConnectionRef) (frame : Frame) (s : GameRequestSink) (e : E) : RequestPostResult * GameRequestSink * E :=
  let t := frame_type frame in
  if t =? MessageType.Authenticate then postAuthenticate connection frame s e
  else if t =? MessageType.Ping then postPing connection frame s e
  else if t =? MessageType.Purchase then postPlayerCommand decodePurchase connection frame s e
  else if t =? MessageType.EquipSkill then postPlayerCommand decodeEquipSkill connection frame s e
  else if t =? MessageType.EnterZone then postZoneRequest decodeEnterZone connection frame s e
  else if t =? MessageType.Move then postZoneRequest decodeMove connection frame s e
  else if t =? MessageType.LeaveZone then postZoneRequest decodeLeave connection frame s e
  else if t =? MessageType.RoomJoin then postRoomRequest decodeRoomJoin connection frame s e
  else if t =? MessageType.BattleStart then postRoomRequest decodeBattleStart connection frame s e
  else if t =? MessageType.RoomLeave then postRoomRequest decodeRoomLeave connection frame s e
  else if t =? MessageType.UseSkill then postRoomRequest decodeUseSkill connection frame s e
  else if t =? MessageType.SetMoveIntent then postRoomRequest decodeSetMoveIntent connection frame s e
  else (PostInvalid, s, e).

(** ** Retries *)

Definition nextActorConnectionCloseRetryDeadline (s : GameRequestSink) : option time_point :=
  if sk_pending_closes s =? 0 then None else sk_next_retry s.

(** One record under the cursor. *)
Definition retry_one (s : GameRequestSink) (e : E) : GameRequestSink * E :=
  let idx := sk_retry_cursor s in
  let s1 := set_sk_cursor ((sk_retry_cursor s + 1) mod MAX_TRACKED_SESSIONS)%nat s in
  match sk_records s1 !! idx with
  | Some r => if is_closing r then notify r s1 e else (s1, e)
  | None => (s1, e)
  end.

(** The scan: [limit] records at most, while something is pending and the time
    lasts; the clock is read before every record but the first. *)
Fixpoint retry_loop (limit : nat) (first : bool) (start : time_point) (max_duration : Z) (s : GameRequestSink) (e : E) : GameRequestSink * E :=
  match limit with
  | O => (s, e)
  | S n =>
      if sk_pending_closes s =? 0 then (s, e)
      else
        let '(late, e1) := if first then (false, e) else let '(t, e1) := sw_now e in (max_duration <=? t - start, e1) in
        if late then (s, e1) else let '(s2, e2) := retry_one s e1 in retry_loop n false start max_duration s2 e2
  end.

Definition retryActorConnectionClosed (now : time_point) (max_count : nat) (max_duration : Z) (s : GameRequestSink) (e : E) : GameRequestSink * E :=
  if (sk_pending_closes s =? 0) || negb (match sk_next_retry s with Some d => d <=? now | None => false end) then (s, e)
  else
    let '(start, e1) := sw_now e in
    let '(s2, e2) := if (0 <? max_count)%nat && (0 <? max_duration) then retry_loop (Nat.min max_count MAX_TRACKED_SESSIONS) true start max_duration s e1
                     else (s, e1) in
    let '(finished, e3) := sw_now e2 in
    (set_sk_next_retry (if sk_pending_closes s2 =? 0 then None else Some (after (Z.max now finished) CLOSE_RETRY)) s2, e3).
End sink.
