(* ===== verification/GameSinkSpec.v ===== *)
(** * Sessions of a worker

    What the request sink of a worker promises: its sessions and its records of
    closing connections agree at all times; a frame reaches only the actor of the
    player its connection is bound to, and before that only a request to
    authenticate does; a connection that closes is told to the player's actor
    again and again until the actor's worker confirms. *)

From S2P Require Import Prelude Wire FrameCodec Identity Skills Arena Zone RoomTypes Player Actor GameMessages PlayerAdapter PlayerAdapterInv PlayerAdapterTurns Network GameSink.

(** ** Records *)

Lemma find_record_spec p i rs k :
  find_record p i rs = Some k → ∃ j r, k = (i + j)%nat ∧ rs !! j = Some r ∧ p r = true ∧ ∀ j' r', (j' < j)%nat → rs !! j' = Some r' → p r' = false.
Proof.
  revert i. induction rs as [|r rs IH]; intros i; cbn [find_record]; [done|]. destruct (p r) eqn:E.
  - intros [= ->]. exists 0%nat, r. split_and!; [lia|done|done|]. lia.
  - intros (j & r' & -> & Hj & Hp & Hmin)%IH. exists (S j), r'. split_and!; [lia|done|done|]. intros [|j'] r2 Hlt; cbn; [congruence|].
    intros Hr2. eapply Hmin; [|exact Hr2]. lia.
Qed.

Lemma find_record_none p i rs : find_record p i rs = None → ∀ j r, rs !! j = Some r → p r = false.
Proof.
  revert i. induction rs as [|r rs IH]; intros i; cbn [find_record]; [done|]. destruct (p r) eqn:E; [done|]. intros H [|j] r' Hj; cbn in Hj; [congruence|].
  by eapply IH.
Qed.

Lemma count_insert {A} (p : A → bool) (l : list A) i x y :
  l !! i = Some x → Z.of_nat (count_if p (<[i := y]> l)) = Z.of_nat (count_if p l) - (if p x then 1 else 0) + (if p y then 1 else 0).
Proof. intros Hi. pose proof (count_if_insert p l i x y Hi) as H. destruct (p x), (p y); lia. Qed.

Lemma max_sessions : Z.of_nat MAX_TRACKED_SESSIONS = 1024.
Proof. by vm_compute. Qed.

#[local] Opaque MAX_TRACKED_SESSIONS.

Section sink.
Context {E : Type} `{Worker : !SinkWorker E}.

(** ** The invariant *)

Record sink_ok (s : GameRequestSink) : Prop := {
  ok_length : length (sk_records s) = MAX_TRACKED_SESSIONS;
  ok_session : ∀ id x, sk_sessions s !! id = Some x →
    ∃ c, sk_records s !! gs_record_index x = Some (mkRecord RecordTracked c (gs_player x)) ∧ cref_id c = id ∧ cref_generation c = gs_generation x;
  ok_record : ∀ i c p, sk_records s !! i = Some (mkRecord RecordTracked c p) →
    sk_sessions s !! cref_id c = Some (mkGameSession (cref_generation c) p i);
  ok_owner : ∀ i r, sk_records s !! i = Some r → sr_state r ≠ RecordFree → cref_owner (sr_connection r) = sw_id;
  ok_live : sk_live_sessions s = Z.of_nat (size (sk_sessions s));
  ok_pending : sk_pending_closes s = Z.of_nat (count_if is_closing (sk_records s));
  ok_retry : sk_next_retry s = None ↔ sk_pending_closes s = 0;
  ok_cursor : (sk_retry_cursor s < MAX_TRACKED_SESSIONS)%nat
}.

Lemma count_if_le {A} (p : A → bool) l : (count_if p l <= length l)%nat.
Proof. induction l as [|a l IH]; cbn; [lia|]. destruct (p a); lia. Qed.

Lemma pending_bound s : sink_ok s → 0 <= sk_pending_closes s <= 1024.
Proof.
  intros H. rewrite (ok_pending _ H). pose proof (count_if_le is_closing (sk_records s)). rewrite (ok_length _ H) in *.
  pose proof max_sessions. lia.
Qed.

(** The records of the sessions are different ones. *)
Lemma live_bound s : sink_ok s → 0 <= sk_live_sessions s <= 1024.
Proof.
  intros H. rewrite (ok_live _ H). split; [lia|].
  set (l := map_to_list (sk_sessions s)). assert (Hn : NoDup ((fun e => gs_record_index e.2) <$> l)).
  { apply NoDup_fmap_2_strong; [|apply NoDup_map_to_list]. intros [k x] [k' y] Hx Hy Heq. cbn in Heq. apply elem_of_map_to_list in Hx, Hy.
    destruct (ok_session _ H _ _ Hx) as (c & Hc & <- & Hg). destruct (ok_session _ H _ _ Hy) as (c' & Hc' & <- & Hg').
    rewrite Heq, Hc' in Hc. injection Hc as -> Ep. rewrite Hx in Hy. by injection Hy as ->. }
  assert (Hle : (length ((fun e => gs_record_index e.2) <$> l) <= MAX_TRACKED_SESSIONS)%nat).
  { rewrite <-(length_seq MAX_TRACKED_SESSIONS 0). apply submseteq_length, NoDup_submseteq; [done|]. intros i (e & -> & He)%list_elem_of_fmap. destruct e as [k x].
    apply elem_of_map_to_list in He. destruct (ok_session _ H _ _ He) as (c & Hc & _). apply lookup_lt_Some in Hc. rewrite (ok_length _ H) in Hc.
    apply elem_of_seq. cbn [snd]. lia. }
  rewrite length_fmap in Hle. unfold l in Hle. rewrite length_map_to_list in Hle. pose proof max_sessions. lia.
Qed.

Lemma makeSink_ok : sink_ok makeSink.
Proof.
  assert (Hf : ∀ i r, repeat free_record MAX_TRACKED_SESSIONS !! i = Some r → r = free_record).
  { intros i r Hi. apply list_elem_of_lookup_2 in Hi. apply list_elem_of_In, repeat_spec in Hi. done. }
  constructor; cbn [makeSink sk_records sk_sessions sk_live_sessions sk_pending_closes sk_next_retry sk_retry_cursor].
  - apply repeat_length.
  - intros id x. by rewrite lookup_empty.
  - intros i c p Hi%Hf. done.
  - intros i r ->%Hf. done.
  - by rewrite map_size_empty.
  - generalize MAX_TRACKED_SESSIONS as n. induction n as [|n IH]; [done|]. exact IH.
  - done.
  - pose proof max_sessions. lia.
Qed.

Lemma sink_cancel_ok s : sink_ok s → sink_ok (cancelConnectionCloseRetries s).
Proof. intros _. destruct makeSink_ok. by constructor. Qed.
(** ** Every operation keeps the books *)

Lemma same_index (rs : list SessionRecord) (i j : nat) x y : rs !! i = Some x → <[i := y]> rs !! j = (if decide (j = i) then Some y else rs !! j).
Proof.
  intros Hi. destruct (decide (j = i)) as [->|Hn]; [|by apply list_lookup_insert_ne].
  apply list_lookup_insert_eq. by eapply lookup_lt_Some.
Qed.

Lemma sink_receipt_ok key c result s : sink_ok s → sink_ok (onActorConnectionClosedReceipt key c result s).
Proof.
  intros H. unfold onActorConnectionClosedReceipt. destruct (negb _); [done|].
  destruct (find_record (confirms key c) 0 (sk_records s)) as [k|] eqn:Ef; [|done].
  apply find_record_spec in Ef as (i & r & -> & Hi & Hc & _). cbn [Nat.add]. unfold confirms in Hc. apply andb_prop in Hc as [[Hc _]%andb_prop _].
  pose proof (pending_bound s H) as Hb. destruct H as [K1 K2 K3 K4 K5 K6 K7 K8].
  pose proof (count_insert is_closing _ i r free_record Hi) as Hn. rewrite Hc in Hn.
  change (is_closing free_record) with false in Hn.
  assert (Hp : 1 <= sk_pending_closes s). { rewrite K6. lia. }
  assert (Hu : u64 (sk_pending_closes s - 1) = sk_pending_closes s - 1) by (apply u64_small; lia).
  unfold is_closing in Hc. apply bool_decide_eq_true in Hc.
  assert (Hok : ∀ next, (next = None ↔ sk_pending_closes s - 1 = 0) →
    sink_ok (set_sk_next_retry next (set_sk_pending (u64 (sk_pending_closes s - 1)) (set_sk_records (<[i := free_record]> (sk_records s)) s)))).
  { intros next Hnext. constructor; cbn; try done.
    - by rewrite length_insert.
    - intros id x Hx. destruct (K2 id x Hx) as (c0 & Hr & E1 & E2). exists c0. split_and!; try done. rewrite (same_index _ _ _ _ _ Hi).
      destruct (decide _) as [Ei|]; [|done]. rewrite Ei, Hi in Hr. injection Hr as ->. done.
    - intros j c0 p0. rewrite (same_index _ _ _ _ _ Hi). destruct (decide _); [done|]. apply K3.
    - intros j r0. rewrite (same_index _ _ _ _ _ Hi). destruct (decide _); [by intros [= <-]|]. apply K4.
    - rewrite Hu, Hn, K6. lia.
    - by rewrite Hu. }
  cbn. rewrite Hu. destruct (Z.eqb_spec (sk_pending_closes s - 1) 0) as [E0|E0].
  - rewrite <-Hu. by apply Hok.
  - rewrite <-Hu. apply (Hok (sk_next_retry s)). rewrite K7. lia.
Qed.

Lemma receipts_ok l s : sink_ok s → sink_ok (foldl receive s l).
Proof. revert s. induction l as [|[[key c] result] l IH]; intros s H; cbn; [done|]. by apply IH, sink_receipt_ok. Qed.

Lemma sink_notify_ok r s e : sink_ok s → sink_ok (notify r s e).1.
Proof. intros H. unfold notify. destruct (sw_notify _ _ _ e). by apply receipts_ok. Qed.

(** The record of a session that ends. *)
Lemma closed_ok c s e : sink_ok s → sink_ok (onConnectionClosed c s e).1.
Proof.
  intros H. unfold onConnectionClosed. destruct (negb _) eqn:Eo; [done|]. destruct (sk_sessions s !! cref_id c) as [x|] eqn:Es; [|done].
  destruct (Z.eqb_spec (gs_generation x) (cref_generation c)) as [Eg|]; cbn [negb]; [|done].
  destruct (sk_records s !! gs_record_index x) as [r|] eqn:Er; [|done]. destruct (_ || _ || _) eqn:Ec; [done|].
  apply orb_false_elim in Ec as [[Ec1 Ec2]%orb_false_elim Ec3]. to_prop. apply bool_decide_eq_true in Ec1, Ec2.
  pose proof (pending_bound s H) as Hb. pose proof (live_bound s H) as Hlb. pose proof H as [K1 K2 K3 K4 K5 K6 K7 K8].
  destruct r as [st c0 p0]. cbn in Ec1, Ec2, Ec3. subst st c0 p0. destruct (sw_now e) as [now e1]. apply sink_notify_ok.
  pose proof (count_insert is_closing _ _ _ (mkRecord RecordClosing c (gs_player x)) Er) as Hn.
  change (is_closing (mkRecord RecordTracked c (gs_player x))) with false in Hn.
  change (is_closing (mkRecord RecordClosing c (gs_player x))) with true in Hn.
  assert (Hu : u64 (sk_pending_closes s + 1) = sk_pending_closes s + 1) by (apply u64_small; lia).
  assert (Hsize : Z.of_nat (size (delete (cref_id c) (sk_sessions s))) = sk_live_sessions s - 1 ∧ 1 <= sk_live_sessions s).
  { rewrite K5, map_size_delete, Es. pose proof (map_size_ne_0_lookup_2 _ _ (mk_is_Some _ _ Es)). lia. }
  constructor; cbn; try done.
  - by rewrite length_insert.
  - intros id y. rewrite lookup_delete_Some. intros [Hne Hy]. destruct (K2 id y Hy) as (c1 & Hr & E1 & E2). exists c1. split_and!; try done.
    rewrite (same_index _ _ _ _ _ Er). destruct (decide _) as [Ei|]; [|done]. rewrite Ei, Er in Hr. injection Hr as <- _. congruence.
  - intros j c1 p1. rewrite (same_index _ _ _ _ _ Er). destruct (decide _) as [|Hj]; [done|]. intros Hr. pose proof (K3 _ _ _ Hr) as Hx.
    rewrite lookup_delete_ne; [done|]. intros Ei. rewrite <-Ei, Es in Hx. injection Hx as ->. done.
  - intros j r0. rewrite (same_index _ _ _ _ _ Er). destruct (decide _); [|apply K4]. intros [= <-] _. cbn. by apply (K4 _ _ Er).
  - rewrite u64_small; lia.
  - rewrite Hu, K6. lia.
  - rewrite Hu. split; [done|lia].
Qed.

Lemma close_each_ok l s e : sink_ok s → sink_ok (close_each l s e).1.
Proof.
  revert s e. induction l as [|c l IH]; intros s e H; cbn [close_each]; [done|]. pose proof (closed_ok c s e H) as Hc.
  destruct (onConnectionClosed c s e) as [s1 e1]. by apply IH.
Qed.

(** A free record and a new session. *)
Lemma track_ok c p i s :
  sink_ok s → cref_owner c = sw_id → sk_sessions s !! cref_id c = None → find_record is_free 0 (sk_records s) = Some i →
  sink_ok (set_sk_sessions (<[cref_id c := mkGameSession (cref_generation c) p i]> (sk_sessions s)) (u64 (sk_live_sessions s + 1))
             (set_sk_records (<[i := mkRecord RecordTracked c p]> (sk_records s)) s)).
Proof.
  intros H Ho Hs Hf. apply find_record_spec in Hf as (j & r & -> & Hj & Hfree & _). cbn [Nat.add].
  unfold is_free in Hfree. apply bool_decide_eq_true in Hfree. pose proof (live_bound s H) as Hlb. destruct H as [K1 K2 K3 K4 K5 K6 K7 K8].
  pose proof (count_insert is_closing _ _ _ (mkRecord RecordTracked c p) Hj) as Hn.
  change (is_closing (mkRecord RecordTracked c p)) with false in Hn.
  assert (Hr : is_closing r = false) by (unfold is_closing; rewrite Hfree; done). rewrite Hr in Hn.
  constructor; cbn; try done.
  - by rewrite length_insert.
  - intros id x. rewrite lookup_insert_Some. intros [[<- <-]|[Hne Hx]].
    + exists c. cbn. split_and!; try done. by rewrite (same_index _ _ _ _ _ Hj), decide_True.
    + destruct (K2 id x Hx) as (c1 & H1 & H2 & H3). exists c1. split_and!; try done. rewrite (same_index _ _ _ _ _ Hj).
      destruct (decide _) as [Ei|]; [|done]. rewrite Ei, Hj in H1. by injection H1 as ->.
  - intros k c1 p1. rewrite (same_index _ _ _ _ _ Hj). destruct (decide _) as [->|]; [intros [= <- <-]; by rewrite lookup_insert_eq|].
    intros Hk%K3. rewrite lookup_insert_ne; [done|]. intros Ei. by rewrite <-Ei, Hs in Hk.
  - intros k r0. rewrite (same_index _ _ _ _ _ Hj). destruct (decide _); [by intros [= <-]|apply K4].
  - rewrite map_size_insert, Hs, K5. cbn. rewrite u64_small; lia.
  - rewrite K6. lia.
Qed.

(** The session is given up again. *)
Lemma sink_rollback_ok c p i s :
  sink_ok s → sk_sessions s !! cref_id c = None → find_record is_free 0 (sk_records s) = Some i →
  sink_ok (set_sk_sessions (delete (cref_id c) (<[cref_id c := mkGameSession (cref_generation c) p i]> (sk_sessions s)))
             (u64 (u64 (sk_live_sessions s + 1) - 1))
             (set_sk_records (<[i := free_record]> (<[i := mkRecord RecordTracked c p]> (sk_records s))) s)).
Proof.
  intros H Hs Hf. apply find_record_spec in Hf as (j & r & -> & Hj & Hfree & _). cbn [Nat.add].
  unfold is_free in Hfree. apply bool_decide_eq_true in Hfree. pose proof (live_bound s H) as Hlb. destruct H as [K1 K2 K3 K4 K5 K6 K7 K8].
  rewrite list_insert_insert_eq, delete_insert_id by done. pose proof (count_insert is_closing _ _ _ free_record Hj) as Hn.
  change (is_closing free_record) with false in Hn. assert (Hr : is_closing r = false) by (unfold is_closing; rewrite Hfree; done). rewrite Hr in Hn.
  constructor; cbn; try done.
  - by rewrite length_insert.
  - intros id x Hx. destruct (K2 id x Hx) as (c1 & H1 & H2 & H3). exists c1. split_and!; try done. rewrite (same_index _ _ _ _ _ Hj).
    destruct (decide _) as [Ei|]; [|done]. rewrite Ei, Hj in H1. by injection H1 as ->.
  - intros k c1 p1. rewrite (same_index _ _ _ _ _ Hj). destruct (decide _); [done|apply K3].
  - intros k r0. rewrite (same_index _ _ _ _ _ Hj). destruct (decide _); [by intros [= <-]|apply K4].
  - rewrite (u64_small (sk_live_sessions s + 1)), u64_small; lia.
  - rewrite K6. lia.
Qed.

Lemma authenticate_ok c f s e : sink_ok s → cref_owner c = sw_id → sink_ok (postAuthenticate c f s e).1.2.
Proof.
  intros H Ho. unfold postAuthenticate. destruct (decodePlayerId _) as [p|]; [|done]. destruct (sk_sessions s !! cref_id c) as [x|] eqn:Es.
  - destruct (negb _); [done|]. destruct (negb _); [done|]. by destruct (accepted _).
  - destruct (existsb _ _); [done|]. destruct (find_record is_free 0 (sk_records s)) as [i|] eqn:Ef; [|done].
    destruct (sw_tell _ _ e) as [[] e']; [by apply track_ok|exact (sink_rollback_ok c p i s H Es Ef)].
Qed.

Lemma post_decoded_same {A} decoder (message : A → GameMessage) c f s e : (post_decoded decoder message c f s e).1.2 = s.
Proof. unfold post_decoded. destruct (session_player s c); [|done]. destruct (decoder _); [|done]. by destruct (accepted _). Qed.

Lemma tryPost_ok c f s e : sink_ok s → cref_owner c = sw_id → sink_ok (game_tryPost c f s e).1.2.
Proof.
  intros H Ho. unfold game_tryPost, postPlayerCommand, postZoneRequest, postRoomRequest. destruct (_ =? _); [by apply authenticate_ok|].
  destruct (_ =? _).
  { unfold postPing. destruct (session_player s c); [by destruct (accepted _)|]. destruct (sw_send _ _ _ e) as [closed e1].
    pose proof (close_each_ok closed s e1 H) as Hc. by destruct (close_each closed s e1). }
  repeat (destruct (_ =? _); [by rewrite post_decoded_same|]). done.
Qed.

Lemma cursor_ok s : sink_ok s → sink_ok (set_sk_cursor ((sk_retry_cursor s + 1) mod MAX_TRACKED_SESSIONS)%nat s).
Proof. intros [K1 K2 K3 K4 K5 K6 K7 K8]. constructor; try done. cbn. apply Nat.mod_upper_bound. lia. Qed.

Lemma retry_one_ok s e : sink_ok s → sink_ok (retry_one s e).1.
Proof.
  intros H. unfold retry_one. pose proof (cursor_ok s H) as Hc. set (s1 := set_sk_cursor _ s) in *. destruct (sk_records s1 !! _) as [r|]; [|done].
  destruct (is_closing r); [by apply sink_notify_ok|done].
Qed.

Lemma retry_loop_ok n first start d s e : sink_ok s → sink_ok (retry_loop n first start d s e).1.
Proof.
  revert first s e. induction n as [|n IH]; intros first s e H; cbn [retry_loop]; [done|]. destruct (_ =? 0); [done|].
  destruct (if first then _ else _) as [late e1]. destruct late; [done|]. pose proof (retry_one_ok s e1 H) as H1. destruct (retry_one s e1). by apply IH.
Qed.

Lemma retries_ok now n d s e : sink_ok s → sink_ok (retryActorConnectionClosed now n d s e).1.
Proof.
  intros H. unfold retryActorConnectionClosed. destruct (_ || _); [done|]. destruct (sw_now e) as [start e1].
  assert (Hl : ∀ b : bool, sink_ok (if b then retry_loop (Nat.min n MAX_TRACKED_SESSIONS) true start d s e1 else (s, e1)).1).
  { intros []; [by apply retry_loop_ok|done]. }
  specialize (Hl ((0 <? n)%nat && (0 <? d))). destruct (if _ && _ then _ else _) as [s2 e2]. cbn in Hl. destruct (sw_now e2) as [finished e3].
  destruct Hl as [K1 K2 K3 K4 K5 K6 K7 K8]. constructor; try done. cbn. by destruct (Z.eqb_spec (sk_pending_closes s2) 0).
Qed.

(** ** Runs *)

Inductive SinkOp :=
| OpPost (c : ConnectionRef) (f : Frame)
| OpClosed (c : ConnectionRef)
| OpReceipt (key : ActorKey) (c : ConnectionRef) (result : ActorConnectionClosedResult)
| OpRetry (now : time_point) (max_count : nat) (max_duration : Z)
| OpCancel.

Definition sink_step (st : GameRequestSink * E) (op : SinkOp) : GameRequestSink * E :=
  let '(s, e) := st in
  match op with
  | OpPost c f => let '(_, s', e') := game_tryPost c f s e in (s', e')
  | OpClosed c => onConnectionClosed c s e
  | OpReceipt key c result => (onActorConnectionClosedReceipt key c result s, e)
  | OpRetry now n d => retryActorConnectionClosed now n d s e
  | OpCancel => (cancelConnectionCloseRetries s, e)
  end.

(** A worker posts frames of its own connections. *)
Definition op_ok (op : SinkOp) : Prop := match op with OpPost c _ => cref_owner c = sw_id | _ => True end.

Lemma sink_step_ok st op : sink_ok st.1 → op_ok op → sink_ok (sink_step st op).1.
Proof.
  destruct st as [s e]. intros H Ho. destruct op as [c f|c|key c result|now n d|]; cbn in *.
  - pose proof (tryPost_ok c f s e H Ho) as H1. by destruct (game_tryPost c f s e) as [[r s'] e'].
  - by apply closed_ok.
  - by apply sink_receipt_ok.
  - by apply retries_ok.
  - by apply (sink_cancel_ok s).
Qed.

Lemma sink_run_ok ops st : sink_ok st.1 → Forall op_ok ops → sink_ok (foldl sink_step st ops).1.
Proof. revert st. induction ops as [|op ops IH]; intros st H Ho; [done|]. apply Forall_cons in Ho as [H1 H2]. apply IH; [by apply sink_step_ok|done]. Qed.
End sink.

(** ** What the worker is asked *)

(** The calls a worker has received, in order, and the receipts it gave. *)
Class SinkLog (E : Type) `{SinkWorker E} := {
  told : E → list (ActorKey * GameMessage);
  notified : E → list (ActorKey * ConnectionRef);
  confirmed : E → list (ActorKey * ConnectionRef);
  now_log : ∀ e, told (sw_now e).2 = told e ∧ notified (sw_now e).2 = notified e ∧ confirmed (sw_now e).2 = confirmed e;
  tell_log : ∀ k m e, told (sw_tell k m e).2 = told e ++ [(k, m)] ∧ notified (sw_tell k m e).2 = notified e ∧
    confirmed (sw_tell k m e).2 = confirmed e;
  send_log : ∀ c f b e, told (sw_send c f b e).2 = told e ∧ notified (sw_send c f b e).2 = notified e ∧
    confirmed (sw_send c f b e).2 = confirmed e ∧ ∀ x, x ∈ (sw_send c f b e).1 → x = c;
  notify_log : ∀ k c m e, told (sw_notify k c m e).2 = told e ∧ notified (sw_notify k c m e).2 = notified e ++ [(k, c)] ∧
    confirmed (sw_notify k c m e).2 = confirmed e ++ (fst <$> (sw_notify k c m e).1)
}.

Section pursued.
Context {E : Type} `{Worker : !SinkWorker E} `{Log : !SinkLog E}.

(** The logs only grow. *)
Definition log_grows (e e' : E) : Prop := ∃ l1 l2, notified e' = notified e ++ l1 ∧ confirmed e' = confirmed e ++ l2.

(** What was logged between [e] and [e']. *)
Definition notified_since (e e' : E) : list (ActorKey * ConnectionRef) := drop (length (notified e)) (notified e').
Definition confirmed_since (e e' : E) : list (ActorKey * ConnectionRef) := drop (length (confirmed e)) (confirmed e').

(** Between [e] and [e'] the actor of the record's player was told of the close,
    or confirmed it. *)
Definition pursued (r : SessionRecord) (e e' : E) : Prop :=
  (player_key (sr_player r), sr_connection r) ∈ notified_since e e' ∨ (player_key (sr_player r), sr_connection r) ∈ confirmed_since e e'.

Lemma log_grows_refl (e : E) : log_grows e e.
Proof. exists [], []. by rewrite !app_nil_r. Qed.

Lemma log_grows_trans (e1 e2 e3 : E) : log_grows e1 e2 → log_grows e2 e3 → log_grows e1 e3.
Proof.
  intros (a1 & b1 & A1 & B1) (a2 & b2 & A2 & B2). exists (a1 ++ a2), (b1 ++ b2). by rewrite A2, A1, B2, B1, !app_assoc.
Qed.

Lemma now_grows (e : E) : log_grows e (sw_now e).2.
Proof. pose proof (now_log e) as (_ & L2 & L3). exists [], []. by rewrite L2, L3, !app_nil_r. Qed.

Lemma pursued_later r e1 e2 e3 : log_grows e1 e2 → log_grows e2 e3 → pursued r e1 e2 → pursued r e1 e3.
Proof.
  intros (a1 & b1 & A1 & B1) (a2 & b2 & A2 & B2) [H|H]; [left|right]; unfold notified_since, confirmed_since in *.
  - rewrite A2, A1, <-app_assoc, drop_app_length. rewrite A1, drop_app_length in H. apply elem_of_app. by left.
  - rewrite B2, B1, <-app_assoc, drop_app_length. rewrite B1, drop_app_length in H. apply elem_of_app. by left.
Qed.

Lemma pursued_sooner r e1 e2 e3 : log_grows e1 e2 → log_grows e2 e3 → pursued r e2 e3 → pursued r e1 e3.
Proof.
  intros (a1 & b1 & A1 & B1) (a2 & b2 & A2 & B2) [H|H]; [left|right]; unfold notified_since, confirmed_since in *.
  - rewrite A2, A1, <-app_assoc, drop_app_length. rewrite A2, drop_app_length in H. apply elem_of_app. by right.
  - rewrite B2, B1, <-app_assoc, drop_app_length. rewrite B2, drop_app_length in H. apply elem_of_app. by right.
Qed.

Lemma receipt_keeps key c result s i r :
  sk_records s !! i = Some r → is_closing r = true →
  sk_records (onActorConnectionClosedReceipt key c result s) !! i = Some r ∨ (key, c) = (player_key (sr_player r), sr_connection r).
Proof.
  intros Hi Hr. unfold onActorConnectionClosedReceipt. destruct (negb _); [by left|].
  destruct (find_record (confirms key c) 0 (sk_records s)) as [k|] eqn:Ef; [|by left].
  apply find_record_spec in Ef as (j & r' & -> & Hj & Hc & _). cbn [Nat.add].
  assert (Hrec : sk_records (if u64 (sk_pending_closes s - 1) =? 0 then set_sk_next_retry None (set_sk_pending (u64 (sk_pending_closes s - 1))
    (set_sk_records (<[j := free_record]> (sk_records s)) s)) else set_sk_pending (u64 (sk_pending_closes s - 1)) (set_sk_records (<[j := free_record]> (sk_records s)) s))
    = <[j := free_record]> (sk_records s)) by (by destruct (_ =? 0)).
  cbn. rewrite Hrec. destruct (decide (i = j)) as [->|Hn]; [|left; by rewrite list_lookup_insert_ne].
  right. rewrite Hi in Hj. injection Hj as <-. unfold confirms in Hc. apply andb_prop in Hc as [[_ Hc1]%andb_prop Hc2].
  apply bool_decide_eq_true in Hc1, Hc2. congruence.
Qed.

Lemma receipts_keep l s i r :
  sk_records s !! i = Some r → is_closing r = true →
  sk_records (foldl receive s l) !! i = Some r ∨ (player_key (sr_player r), sr_connection r) ∈ fst <$> l.
Proof.
  revert s. induction l as [|[[key c] result] l IH]; intros s Hi Hr; cbn; [by left|].
  destruct (receipt_keeps key c result s i r Hi Hr) as [H1|H1]; [|right; rewrite <-H1; by left].
  destruct (IH _ H1 Hr) as [|]; [by left|]. right. by right.
Qed.

Lemma receipt_cursor key c result s : sk_retry_cursor (onActorConnectionClosedReceipt key c result s) = sk_retry_cursor s.
Proof.
  unfold onActorConnectionClosedReceipt. destruct (negb _); [done|]. destruct (find_record _ _ _); [|done]. cbn. by destruct (_ =? 0).
Qed.

Lemma receive_cursor l s : sk_retry_cursor (foldl receive s l) = sk_retry_cursor s.
Proof. revert s. induction l as [|[[key c] result] l IH]; intros s; cbn; [done|]. by rewrite IH, receipt_cursor. Qed.

(** From [(s, e)] to [st] the close on record [i] stays on record, or its actor
    was told or confirmed; the cursor moved by [k]. *)
Definition keeps_close (i : nat) (r : SessionRecord) (k : nat) (s : GameRequestSink) (e : E) (st : GameRequestSink * E) : Prop :=
  log_grows e st.2 ∧ sk_retry_cursor st.1 = ((sk_retry_cursor s + k) mod MAX_TRACKED_SESSIONS)%nat ∧
  (sk_records st.1 !! i = Some r ∨ pursued r e st.2).

Lemma keeps_close_same i r s e e' :
  sink_ok s → sk_records s !! i = Some r → log_grows e e' → keeps_close i r 0 s e (s, e').
Proof.
  intros H Hi He. split_and!; [done| |by left]. cbn. rewrite Nat.add_0_r, Nat.mod_small; [done|apply H].
Qed.

Lemma keeps_close_trans i r k1 k2 s1 e1 s2 e2 st :
  keeps_close i r k1 s1 e1 (s2, e2) → (sk_records s2 !! i = Some r → keeps_close i r k2 s2 e2 st) →
  log_grows e2 st.2 → sk_retry_cursor st.1 = ((sk_retry_cursor s2 + k2) mod MAX_TRACKED_SESSIONS)%nat → keeps_close i r (k1 + k2) s1 e1 st.
Proof.
  intros (G1 & C1 & R1) H2 G2 C2. cbn in *. split_and!; [by eapply log_grows_trans| |].
  - rewrite C2, C1, Nat.Div0.add_mod_idemp_l. f_equal. lia.
  - destruct R1 as [R1|R1]; [|right; by eapply pursued_later]. destruct (H2 R1) as (_ & _ & [R2|R2]); [by left|right; by eapply pursued_sooner].
Qed.

Lemma notify_grows r s e : log_grows e (notify r s e).2 ∧ sk_retry_cursor (notify r s e).1 = sk_retry_cursor s.
Proof.
  unfold notify. pose proof (notify_log (player_key (sr_player r)) (sr_connection r) (PlayerConnectionClosedMessage (sr_connection r)) e) as (_ & L2 & L3).
  destruct (sw_notify _ _ _ e) as [l e']. split; [by eexists _, _|apply receive_cursor].
Qed.

Lemma notify_tells r s e : pursued r e (notify r s e).2.
Proof.
  unfold notify. pose proof (notify_log (player_key (sr_player r)) (sr_connection r) (PlayerConnectionClosedMessage (sr_connection r)) e) as (_ & L2 & _).
  destruct (sw_notify _ _ _ e) as [l e']. left. unfold notified_since. cbn in *. rewrite L2, drop_app_length. by left.
Qed.

Lemma notify_keeps r0 s e i r :
  (sk_retry_cursor s < MAX_TRACKED_SESSIONS)%nat → sk_records s !! i = Some r → is_closing r = true → keeps_close i r 0 s e (notify r0 s e).
Proof.
  intros H Hi Hr. destruct (notify_grows r0 s e) as [G C]. split_and!; [done|by rewrite C, Nat.add_0_r, Nat.mod_small|].
  unfold notify. pose proof (notify_log (player_key (sr_player r0)) (sr_connection r0) (PlayerConnectionClosedMessage (sr_connection r0)) e) as (_ & _ & L3).
  destruct (sw_notify _ _ _ e) as [l e']. cbn in *. destruct (receipts_keep l s i r Hi Hr) as [|Hin]; [by left|]. right. right.
  unfold confirmed_since. by rewrite L3, drop_app_length.
Qed.

(** ** A pass *)

Lemma nothing_closing s i r : sink_ok s → sk_pending_closes s = 0 → sk_records s !! i = Some r → is_closing r = false.
Proof.
  intros H Hp Hi. rewrite (ok_pending _ H) in Hp. assert (Hz : count_if is_closing (sk_records s) = 0%nat) by lia.
  apply count_if_zero in Hz. rewrite Forall_lookup in Hz. by apply Hz in Hi.
Qed.

Lemma retry_one_grows s e :
  log_grows e (retry_one s e).2 ∧ sk_retry_cursor (retry_one s e).1 = ((sk_retry_cursor s + 1) mod MAX_TRACKED_SESSIONS)%nat.
Proof.
  unfold retry_one. destruct (sk_records _ !! _) as [r0|]; [|split; [apply log_grows_refl|done]].
  destruct (is_closing r0); [|split; [apply log_grows_refl|done]]. destruct (notify_grows r0 (set_sk_cursor ((sk_retry_cursor s + 1) mod MAX_TRACKED_SESSIONS)%nat s) e) as [G C].
  by split; [|rewrite C].
Qed.

Lemma retry_one_tells s e r :
  sk_records s !! sk_retry_cursor s = Some r → is_closing r = true → pursued r e (retry_one s e).2.
Proof. intros Hi Hr. unfold retry_one. cbn [sk_records set_sk_cursor]. rewrite Hi, Hr. apply notify_tells. Qed.

Lemma retry_one_keeps s e i r :
  sink_ok s → sk_records s !! i = Some r → is_closing r = true → keeps_close i r 1 s e (retry_one s e).
Proof.
  intros H Hi Hr. destruct (retry_one_grows s e) as [G C]. split_and!; [done|done|]. unfold retry_one.
  set (s1 := set_sk_cursor _ s). change (sk_records s1) with (sk_records s). destruct (sk_records s !! sk_retry_cursor s) as [r0|]; [|by left].
  destruct (is_closing r0); [|by left]. apply (notify_keeps r0 s1 e i r (ok_cursor _ (cursor_ok s H)) Hi Hr).
Qed.

(** The scan covers [k] records from the cursor on; it ends early only when no
    close is pending or the clock has reached the end of the budget. *)
Definition scanned (k n : nat) (start : time_point) (d : Z) (s : GameRequestSink) (e : E) (st : GameRequestSink * E) : Prop :=
  (k <= n)%nat ∧ log_grows e st.2 ∧ sk_retry_cursor st.1 = ((sk_retry_cursor s + k) mod MAX_TRACKED_SESSIONS)%nat ∧
  (k = n ∨ sk_pending_closes st.1 = 0 ∨ ∃ e1 : E, d <= (sw_now e1).1 - start) ∧
  (∀ i r, sk_records s !! i = Some r → is_closing r = true → keeps_close i r k s e st) ∧
  (∀ j r, (j < k)%nat → sk_records s !! ((sk_retry_cursor s + j) mod MAX_TRACKED_SESSIONS)%nat = Some r → is_closing r = true → pursued r e st.2).

Lemma scanned_none n start d s e e' :
  sink_ok s → log_grows e e' → n = 0%nat ∨ sk_pending_closes s = 0 ∨ (∃ e1 : E, d <= (sw_now e1).1 - start) → scanned 0 n start d s e (s, e').
Proof.
  intros H He Hend. split_and!; [lia|done| |cbn; intuition lia| |lia].
  - cbn. rewrite Nat.add_0_r, Nat.mod_small; [done|apply H].
  - intros i r Hi Hr. by apply keeps_close_same.
Qed.

Lemma retry_loop_scans n first start d s e :
  sink_ok s → ∃ k, scanned k n start d s e (retry_loop n first start d s e) ∧ (first = true → (0 < n)%nat → sk_pending_closes s ≠ 0 → (0 < k)%nat).
Proof.
  revert first s e. induction n as [|n IH]; intros first s e H; cbn [retry_loop].
  { exists 0%nat. split; [|lia]. apply scanned_none; [done|apply log_grows_refl|by left]. }
  destruct (Z.eqb_spec (sk_pending_closes s) 0) as [Hz|Hz].
  { exists 0%nat. split; [|done]. apply scanned_none; [done|apply log_grows_refl|right; by left]. }
  assert (Hlate : ∃ late e1, (if first then (false, e) else let '(t, e1) := sw_now e in (d <=? t - start, e1)) = (late, e1) ∧ log_grows e e1 ∧
            (late = true → first = false ∧ ∃ e2 : E, d <= (sw_now e2).1 - start)).
  { destruct first; [exists false, e; split_and!; [done|apply log_grows_refl|done]|]. pose proof (now_grows e) as G.
    destruct (sw_now e) as [t e1] eqn:En. exists (d <=? t - start), e1. split_and!; [done|done|]. intros Ht. split; [done|]. exists e. rewrite En. to_prop. cbn. lia. }
  destruct Hlate as (late & e1 & -> & G1 & Hl). destruct late.
  { destruct (Hl eq_refl) as [-> He2]. exists 0%nat. split; [|done]. apply scanned_none; [done|done|right; by right]. }
  destruct (retry_one_grows s e1) as [G2 C2]. pose proof (retry_one_ok s e1 H) as Hok. pose proof (fun i r => retry_one_keeps s e1 i r H) as Hkeep.
  pose proof (fun r => retry_one_tells s e1 r) as Htell. destruct (retry_one s e1) as [s2 e2]. cbn in G2, C2, Hok, Htell.
  destruct (IH false s2 e2 Hok) as (k & (Hk & G3 & C3 & Hend & Hall & Hcov) & _). exists (S k). split; [|lia].
  assert (G02 : log_grows e e2) by (by eapply log_grows_trans). set (st := retry_loop n false start d s2 e2) in *.
  assert (Hfirst : ∀ i r, sk_records s !! i = Some r → is_closing r = true → keeps_close i r 1 s e (s2, e2)).
  { intros i r Hi Hr. destruct (Hkeep i r Hi Hr) as (_ & K2 & K3). split_and!; [done|done|]. destruct K3 as [|K3]; [by left|]. right.
    exact (pursued_sooner r e e1 e2 G1 G2 K3). }
  split_and!.
  - lia.
  - by eapply log_grows_trans.
  - rewrite C3, C2, Nat.Div0.add_mod_idemp_l. f_equal. lia.
  - destruct Hend as [->|Hend]; [by left|by right].
  - intros i r Hi Hr. apply (keeps_close_trans i r 1 k s e s2 e2 st); [by apply Hfirst|intros Hi2; by apply Hall|done|done].
  - intros [|j] r Hj Hi Hr.
    + rewrite Nat.add_0_r, Nat.mod_small in Hi by apply H. eapply pursued_later; [exact G02|exact G3|]. eapply pursued_sooner; [exact G1|exact G2|by apply Htell].
    + destruct (Hfirst _ r Hi Hr) as (_ & _ & [Hi2|Hp]); [|by eapply pursued_later]. eapply pursued_sooner; [exact G02|exact G3|].
      apply (Hcov j r); [lia| |done]. cbn in Hi2. rewrite C2, Nat.Div0.add_mod_idemp_l. by replace (sk_retry_cursor s + 1 + j)%nat with (sk_retry_cursor s + S j)%nat by lia.
Qed.

(** A pass that scans: it is due, something is pending, and its budget is not
    empty. *)
Definition due (now : time_point) (n : nat) (d : Z) (s : GameRequestSink) : bool :=
  (0 <? n)%nat && (0 <? d) && negb (sk_pending_closes s =? 0) && match sk_next_retry s with Some t => t <=? now | None => false end.

Lemma due_pass_scans now n d s e :
  sink_ok s → due now n d s = true →
  ∃ k, (0 < k)%nat ∧ scanned k (Nat.min n MAX_TRACKED_SESSIONS) (sw_now e).1 d s e (retryActorConnectionClosed now n d s e).
Proof.
  intros H Hdue. unfold due in Hdue. apply andb_prop in Hdue as [[[Hn Hd]%andb_prop Hp]%andb_prop Ht]. unfold retryActorConnectionClosed.
  rewrite Ht, Hn, Hd. to_prop. rewrite (proj2 (Z.eqb_neq _ _) Hp). cbn [negb orb andb]. pose proof (now_grows e) as G0.
  destruct (sw_now e) as [start e1]. cbn [fst snd] in *.
  destruct (retry_loop_scans (Nat.min n MAX_TRACKED_SESSIONS) true start d s e1 H) as (k & (K1 & K2 & K3 & K4 & K5 & K6) & Hpos).
  destruct (retry_loop _ true start d s e1) as [s2 e2]. cbn [fst snd] in *. pose proof (now_grows e2) as G2. destruct (sw_now e2) as [finished e3]. cbn [snd] in G2.
  exists k. split; [apply Hpos; [done| |done]; pose proof max_sessions; apply Nat.ltb_lt in Hn; lia|].
  assert (G : log_grows e e3) by (eapply log_grows_trans; [exact G0|]; by eapply log_grows_trans).
  split_and!; [done|done|done|done| |].
  - intros i r Hi Hr. destruct (K5 i r Hi Hr) as (L1 & L2 & L3). split_and!; [done|done|]. cbn in *. destruct L3 as [|L3]; [by left|]. right.
    exact (pursued_later r e e2 e3 (log_grows_trans e e1 e2 G0 K2) G2 (pursued_sooner r e e1 e2 G0 K2 L3)).
  - intros j r Hj Hi Hr.
    exact (pursued_later r e e2 e3 (log_grows_trans e e1 e2 G0 K2) G2 (pursued_sooner r e e1 e2 G0 K2 (K6 j r Hj Hi Hr))).
Qed.

(** ** Other calls *)

Lemma closed_keeps c s e i r :
  sink_ok s → sk_records s !! i = Some r → is_closing r = true → keeps_close i r 0 s e (onConnectionClosed c s e).
Proof.
  intros H Hi Hr. assert (Hsame : keeps_close i r 0 s e (s, e)) by (apply keeps_close_same; [done|done|apply log_grows_refl]).
  unfold onConnectionClosed. destruct (negb _); [done|].
  destruct (sk_sessions s !! cref_id c) as [x|]; [|done]. destruct (negb (gs_generation x =? _)); [done|].
  destruct (sk_records s !! gs_record_index x) as [r0|] eqn:Er; [|done]. destruct (_ || _ || _) eqn:Ec; [done|].
  apply orb_false_elim in Ec as [[Ec1 _]%orb_false_elim _]. to_prop. apply bool_decide_eq_true in Ec1.
  pose proof (now_grows e) as G. destruct (sw_now e) as [now e1]. cbn [snd] in G. cbn zeta. set (s3 := set_sk_sessions _ _ _) in *.
  assert (Hi3 : sk_records s3 !! i = Some r).
  { cbn. rewrite list_lookup_insert_ne; [done|]. intros Ei. rewrite Ei, Hi in Er. injection Er as <-. unfold is_closing in Hr. by rewrite Ec1 in Hr. }
  destruct (notify_keeps r0 s3 e1 i r (ok_cursor _ H) Hi3 Hr) as (K1 & K2 & K3).
  split_and!; [by eapply log_grows_trans|exact K2|]. destruct K3 as [|K3]; [by left|]. right. by eapply pursued_sooner.
Qed.

(** Every call only adds to the logs. *)
Lemma closed_grows c s e : log_grows e (onConnectionClosed c s e).2 ∧ sk_retry_cursor (onConnectionClosed c s e).1 = sk_retry_cursor s.
Proof.
  unfold onConnectionClosed. destruct (negb _); [split; [apply log_grows_refl|done]|]. destruct (sk_sessions s !! cref_id c) as [x|]; [|split; [apply log_grows_refl|done]].
  destruct (negb _); [split; [apply log_grows_refl|done]|]. destruct (sk_records s !! _) as [r|]; [|split; [apply log_grows_refl|done]].
  destruct (_ || _ || _); [split; [apply log_grows_refl|done]|]. pose proof (now_grows e) as G. destruct (sw_now e) as [now e1]. cbn zeta.
  set (s3 := set_sk_sessions _ _ _). destruct (notify_grows r s3 e1) as [G1 C1]. split; [by eapply log_grows_trans|exact C1].
Qed.

Lemma close_each_grows l s e : log_grows e (close_each l s e).2 ∧ sk_retry_cursor (close_each l s e).1 = sk_retry_cursor s.
Proof.
  revert s e. induction l as [|c l IH]; intros s e; cbn [close_each]; [split; [apply log_grows_refl|done]|]. destruct (closed_grows c s e) as [G C].
  destruct (onConnectionClosed c s e) as [s1 e1]. destruct (IH s1 e1) as [G1 C1]. split; [by eapply log_grows_trans|by rewrite C1].
Qed.

Lemma retry_loop_grows n first start d s e : log_grows e (retry_loop n first start d s e).2.
Proof.
  revert first s e. induction n as [|n IH]; intros first s e; cbn [retry_loop]; [apply log_grows_refl|]. destruct (_ =? 0); [apply log_grows_refl|].
  assert (G : ∀ late e1, (if first then (false, e) else let '(t, e1) := sw_now e in (d <=? t - start, e1)) = (late, e1) → log_grows e e1).
  { intros late e1. pose proof (now_grows e) as G. destruct first; [intros [= _ <-]; apply log_grows_refl|]. destruct (sw_now e). by intros [= _ <-]. }
  destruct (if first then _ else _) as [late e1]. specialize (G late e1 eq_refl). destruct late; [done|]. destruct (retry_one_grows s e1) as [G1 _].
  destruct (retry_one s e1) as [s2 e2]. eapply log_grows_trans; [done|]. by eapply log_grows_trans.
Qed.

Lemma retry_grows now n d s e : log_grows e (retryActorConnectionClosed now n d s e).2.
Proof.
  unfold retryActorConnectionClosed. destruct (_ || _); [apply log_grows_refl|]. pose proof (now_grows e) as G0. destruct (sw_now e) as [start e1].
  assert (Hl : ∀ b : bool, log_grows e1 (if b then retry_loop (Nat.min n MAX_TRACKED_SESSIONS) true start d s e1 else (s, e1)).2).
  { intros []; [apply retry_loop_grows|apply log_grows_refl]. }
  specialize (Hl ((0 <? n)%nat && (0 <? d))). destruct (if _ && _ then _ else _) as [s2 e2]. pose proof (now_grows e2) as G2. destruct (sw_now e2) as [f e3].
  eapply log_grows_trans; [done|]. by eapply log_grows_trans.
Qed.

Lemma tell_grows k m (e : E) : log_grows e (sw_tell k m e).2.
Proof. pose proof (tell_log k m e) as (_ & L2 & L3). exists [], []. by rewrite L2, L3, !app_nil_r. Qed.

Lemma post_grows c f s e : log_grows e (game_tryPost c f s e).2.
Proof.
  assert (Hdec : ∀ {A} decoder (message : A → GameMessage), log_grows e (post_decoded decoder message c f s e).2).
  { intros A decoder message. unfold post_decoded. destruct (session_player s c) as [p|]; [|apply log_grows_refl]. destruct (decoder _) as [x|]; [|apply log_grows_refl].
    pose proof (tell_grows (player_key p) (message x) e). unfold accepted. by destruct (sw_tell _ _ e). }
  unfold game_tryPost, postPlayerCommand, postZoneRequest, postRoomRequest. destruct (_ =? _).
  { unfold postAuthenticate. destruct (decodePlayerId _) as [p|]; [|apply log_grows_refl]. pose proof (tell_grows (player_key p) (authenticate_message c f p) e) as G.
    destruct (sk_sessions s !! cref_id c).
    - do 2 (destruct (negb _); [apply log_grows_refl|]). unfold accepted. by destruct (sw_tell _ _ e).
    - destruct (existsb _ _); [apply log_grows_refl|]. destruct (find_record _ _ _); [|apply log_grows_refl]. by destruct (sw_tell _ _ e) as [[] e']. }
  destruct (_ =? _).
  { unfold postPing. destruct (session_player s c) as [p|].
    - pose proof (tell_grows (player_key p) (PingMessage c (request_id f) (payload f)) e). unfold accepted. by destruct (sw_tell _ _ e).
    - pose proof (send_log c (mkFrame MessageType.Pong (request_id f) (payload f)) false e) as (_ & L2 & L3 & _). destruct (sw_send _ _ _ e) as [closed e1].
      cbn in L2, L3. destruct (close_each_grows closed s e1) as [G _]. destruct (close_each closed s e1) as [s2 e2]. eapply log_grows_trans; [|exact G].
      exists [], []. by rewrite L2, L3, !app_nil_r. }
  repeat (destruct (_ =? _); [apply Hdec|]). apply log_grows_refl.
Qed.

Lemma run_grows ops st : log_grows st.2 (foldl sink_step st ops).2.
Proof.
  revert st. induction ops as [|op ops IH]; intros [s e]; cbn [foldl]; [apply log_grows_refl|].
  assert (G : log_grows e (sink_step (s, e) op).2).
  { destruct op as [c f|c|key c result|now n d|]; cbn [sink_step]; [|apply closed_grows|apply log_grows_refl|apply retry_grows|apply log_grows_refl].
    pose proof (post_grows c f s e) as G. by destruct (game_tryPost c f s e) as [[x s'] e']. }
  eapply log_grows_trans; [exact G|apply IH].
Qed.

Lemma close_each_keeps l s e i r :
  sink_ok s → sk_records s !! i = Some r → is_closing r = true → keeps_close i r 0 s e (close_each l s e).
Proof.
  revert s e. induction l as [|c l IH]; intros s e H Hi Hr; cbn [close_each]; [apply keeps_close_same; [done|done|apply log_grows_refl]|].
  pose proof (closed_ok c s e H) as H1. pose proof (closed_keeps c s e i r H Hi Hr) as K1. 
  destruct (onConnectionClosed c s e) as [s1 e1]. destruct (close_each_grows l s1 e1) as [G C].
  apply (keeps_close_trans i r 0 0 s e s1 e1); [done|intros Hi1; by apply IH|done|]. rewrite C, Nat.add_0_r, Nat.mod_small; [done|apply H1].
Qed.

Lemma authenticate_keeps c f s e i r :
  sink_ok s → sk_records s !! i = Some r → is_closing r = true → let '(_, s', e') := postAuthenticate c f s e in keeps_close i r 0 s e (s', e').
Proof.
  intros H Hi Hr. unfold postAuthenticate. assert (Hsame : ∀ e', log_grows e e' → keeps_close i r 0 s e (s, e')) by (intros; by apply keeps_close_same).
  destruct (decodePlayerId _) as [p|]; [|apply Hsame, log_grows_refl].
  pose proof (tell_grows (player_key p) (authenticate_message c f p) e) as G.
  destruct (sk_sessions s !! cref_id c).
  - destruct (negb _); [apply Hsame, log_grows_refl|]. destruct (negb _); [apply Hsame, log_grows_refl|]. unfold accepted. by destruct (sw_tell _ _ e); apply Hsame.
  - destruct (existsb _ _); [apply Hsame, log_grows_refl|]. destruct (find_record is_free 0 (sk_records s)) as [k|] eqn:Ef; [|apply Hsame, log_grows_refl].
    apply find_record_spec in Ef as (j & r' & -> & Hj & Hfree & _). cbn [Nat.add].
    assert (Hij : i ≠ j). { intros ->. rewrite Hi in Hj. injection Hj as <-. unfold is_free, is_closing in *. apply bool_decide_eq_true in Hfree, Hr. congruence. }
    destruct (sw_tell _ _ e) as [[] e']; (split_and!; [done|cbn; rewrite Nat.add_0_r, Nat.mod_small; [done|apply H]|left; cbn]);
      rewrite ?list_insert_insert_eq; by rewrite list_lookup_insert_ne.
Qed.

Lemma post_keeps c f s e i r :
  sink_ok s → sk_records s !! i = Some r → is_closing r = true → let '(_, s', e') := game_tryPost c f s e in keeps_close i r 0 s e (s', e').
Proof.
  intros H Hi Hr. assert (Hdec : ∀ {A} decoder (message : A → GameMessage), let '(_, s', e') := post_decoded decoder message c f s e in keeps_close i r 0 s e (s', e')).
  { intros A decoder message. unfold post_decoded. destruct (session_player s c) as [p|]; [|apply keeps_close_same; [done|done|apply log_grows_refl]].
    destruct (decoder _) as [x|]; [|apply keeps_close_same; [done|done|apply log_grows_refl]].
    pose proof (tell_grows (player_key p) (message x) e) as G. unfold accepted. destruct (sw_tell _ _ e) as [ok e']. by apply keeps_close_same. }
  unfold game_tryPost, postPlayerCommand, postZoneRequest, postRoomRequest. destruct (_ =? _); [by apply authenticate_keeps|]. destruct (_ =? _).
  { unfold postPing. destruct (session_player s c) as [p|].
    - pose proof (tell_grows (player_key p) (PingMessage c (request_id f) (payload f)) e) as G. unfold accepted. destruct (sw_tell _ _ e) as [ok e'].
      by apply keeps_close_same.
    - pose proof (send_log c (mkFrame MessageType.Pong (request_id f) (payload f)) false e) as (_ & L2 & L3 & _). destruct (sw_send _ _ _ e) as [closed e1].
      cbn in L2, L3. assert (G : log_grows e e1) by (exists [], []; by rewrite L2, L3, !app_nil_r).
      destruct (close_each_keeps closed s e1 i r H Hi Hr) as (K1 & K2 & K3). destruct (close_each closed s e1) as [s2 e2]. cbn in *.
      split_and!; [by eapply log_grows_trans|done|]. destruct K3 as [|K3]; [by left|]. right. by eapply pursued_sooner. }
  repeat (destruct (_ =? _); [apply Hdec|]). apply keeps_close_same; [done|done|apply log_grows_refl].
Qed.

(** ** Runs *)

(** The passes of a run that scan. *)
Definition is_pass (s : GameRequestSink) (op : SinkOp) : bool := match op with OpRetry now n d => due now n d s | _ => false end.

Fixpoint passes (st : GameRequestSink * E) (ops : list SinkOp) : nat :=
  match ops with
  | [] => 0
  | op :: rest => (if is_pass st.1 op then 1 else 0) + passes (sink_step st op) rest
  end.

(** The close of [r] is confirmed from outside. *)
Definition confirms_close (r : SessionRecord) (op : SinkOp) : Prop :=
  ∃ result, op = OpReceipt (player_key (sr_player r)) (sr_connection r) result.

Lemma idle_retry now n d s e : sink_ok s → due now n d s = false →
  ∃ s' e', retryActorConnectionClosed now n d s e = (s', e') ∧ log_grows e e' ∧ sk_records s' = sk_records s ∧ sk_retry_cursor s' = sk_retry_cursor s.
Proof.
  intros H Hdue. unfold retryActorConnectionClosed, due in *. destruct ((sk_pending_closes s =? 0) || _) eqn:Ei; [eexists _, _; split_and!; try done; apply log_grows_refl|].
  apply orb_false_elim in Ei as [E1 E2]. to_prop. rewrite E2, (proj2 (Z.eqb_neq _ _) E1) in Hdue. cbn [negb andb] in Hdue. rewrite !andb_true_r in Hdue.
  pose proof (now_grows e) as G. destruct (sw_now e) as [start e1]. rewrite Hdue. pose proof (now_grows e1) as G1. destruct (sw_now e1) as [finished e2].
  eexists _, _. split_and!; [done|by eapply log_grows_trans|done|done].
Qed.

(** How far the cursor is from a record. *)
Definition distance (i : nat) (s : GameRequestSink) : nat := ((i + MAX_TRACKED_SESSIONS - sk_retry_cursor s) mod MAX_TRACKED_SESSIONS)%nat.

Lemma distance_spec i s : (i < MAX_TRACKED_SESSIONS)%nat → (sk_retry_cursor s < MAX_TRACKED_SESSIONS)%nat →
  (distance i s < MAX_TRACKED_SESSIONS)%nat ∧ ((sk_retry_cursor s + distance i s) mod MAX_TRACKED_SESSIONS = i)%nat.
Proof.
  intros Hi Hc. unfold distance. split; [apply Nat.mod_upper_bound; lia|]. rewrite Nat.Div0.add_mod_idemp_r.
  replace (sk_retry_cursor s + (i + MAX_TRACKED_SESSIONS - sk_retry_cursor s))%nat with (i + 1 * MAX_TRACKED_SESSIONS)%nat by lia.
  rewrite Nat.Div0.mod_add. by apply Nat.mod_small.
Qed.

Lemma distance_moves i s s' k :
  (i < MAX_TRACKED_SESSIONS)%nat → (sk_retry_cursor s < MAX_TRACKED_SESSIONS)%nat → (k <= distance i s)%nat →
  sk_retry_cursor s' = ((sk_retry_cursor s + k) mod MAX_TRACKED_SESSIONS)%nat → (distance i s' + k = distance i s)%nat.
Proof.
  intros Hi Hc Hk Hs'. assert (Hc' : (sk_retry_cursor s' < MAX_TRACKED_SESSIONS)%nat) by (rewrite Hs'; apply Nat.mod_upper_bound; lia).
  destruct (distance_spec i s Hi Hc) as [D1 D2]. destruct (distance_spec i s' Hi Hc') as [D3 D4].
  assert (D5 : ((sk_retry_cursor s' + (distance i s - k)) mod MAX_TRACKED_SESSIONS = i)%nat).
  { rewrite Hs', Nat.Div0.add_mod_idemp_l. by replace (sk_retry_cursor s + k + (distance i s - k))%nat with (sk_retry_cursor s + distance i s)%nat by lia. }
  remember (distance i s - k)%nat as x eqn:Hx. remember (distance i s') as y eqn:Hy.
  assert (B1 : (x < MAX_TRACKED_SESSIONS)%nat) by lia. cut (x = y); [lia|].
  rewrite <-D4 in D5. clear D2 D4 Hs' Hx Hy. destruct (Nat.lt_ge_cases (sk_retry_cursor s' + x) MAX_TRACKED_SESSIONS) as [L1|L1], (Nat.lt_ge_cases (sk_retry_cursor s' + y) MAX_TRACKED_SESSIONS) as [L2|L2].
  - rewrite !Nat.mod_small in D5 by lia. lia.
  - rewrite (Nat.mod_small (sk_retry_cursor s' + x)), (Nat.Div0.mod_eq (sk_retry_cursor s' + y)) in D5 by lia.
    rewrite <-(Nat.div_unique (sk_retry_cursor s' + y) MAX_TRACKED_SESSIONS 1 (sk_retry_cursor s' + y - MAX_TRACKED_SESSIONS)) in D5 by lia. lia.
  - rewrite (Nat.mod_small (sk_retry_cursor s' + y)), (Nat.Div0.mod_eq (sk_retry_cursor s' + x)) in D5 by lia.
    rewrite <-(Nat.div_unique (sk_retry_cursor s' + x) MAX_TRACKED_SESSIONS 1 (sk_retry_cursor s' + x - MAX_TRACKED_SESSIONS)) in D5 by lia. lia.
  - rewrite !Nat.Div0.mod_eq in D5.
    rewrite <-(Nat.div_unique (sk_retry_cursor s' + x) MAX_TRACKED_SESSIONS 1 (sk_retry_cursor s' + x - MAX_TRACKED_SESSIONS)) in D5 by lia.
    rewrite <-(Nat.div_unique (sk_retry_cursor s' + y) MAX_TRACKED_SESSIONS 1 (sk_retry_cursor s' + y - MAX_TRACKED_SESSIONS)) in D5 by lia. lia.
Qed.

(** One call: the close stays on record, nearer to the cursor after a pass, or
    its actor was told, or it was confirmed. *)
Lemma step_pursues s e op i r :
  sink_ok s → op_ok op → op ≠ OpCancel → sk_records s !! i = Some r → is_closing r = true →
  let st := sink_step (s, e) op in
  log_grows e st.2 ∧
  (pursued r e st.2 ∨ confirms_close r op ∨
   (sk_records st.1 !! i = Some r ∧ (distance i st.1 + (if is_pass s op then 1 else 0) <= distance i s)%nat)).
Proof.
  intros H Ho Hc Hi Hr. pose proof (lookup_lt_Some _ _ _ Hi) as Hlt. rewrite (ok_length _ H) in Hlt.
  assert (Hquiet : ∀ st, is_pass s op = false → keeps_close i r 0 s e st → log_grows e st.2 ∧ (pursued r e st.2 ∨ confirms_close r op ∨
    (sk_records st.1 !! i = Some r ∧ (distance i st.1 + (if is_pass s op then 1 else 0) <= distance i s)%nat))).
  { intros st -> (K1 & K2 & K3). split; [done|]. destruct K3 as [K3|K3]; [|by left]. right. right. split; [done|].
    pose proof (distance_moves i s st.1 0 Hlt (ok_cursor _ H) ltac:(lia) K2). lia. }
  destruct op as [c f|c|key c result|now n d|]; [| | | |done]; cbn [sink_step].
  - pose proof (post_keeps c f s e i r H Hi Hr) as K. destruct (game_tryPost c f s e) as [[x s'] e']. by apply Hquiet.
  - apply Hquiet; [done|]. by apply closed_keeps.
  - destruct (receipt_keeps key c result s i r Hi Hr) as [K|K].
    + apply Hquiet; [done|]. split_and!; [apply log_grows_refl| |by left]. cbn [fst]. rewrite receipt_cursor, Nat.add_0_r, Nat.mod_small; [done|apply H].
    + split; [apply log_grows_refl|]. right. left. exists result. by injection K as -> ->.
  - cbn [is_pass]. destruct (due now n d s) eqn:Ed.
    + destruct (due_pass_scans now n d s e H Ed) as (k & Hpos & _ & K2 & K3 & _ & K5 & K6). destruct (retryActorConnectionClosed now n d s e) as [s' e'].
      cbn [fst snd] in *. split; [done|]. destruct (distance_spec i s Hlt (ok_cursor _ H)) as [D1 D2]. destruct (Nat.lt_ge_cases (distance i s) k) as [L|L].
      * left. apply (K6 (distance i s) r L); [by rewrite D2|done].
      * destruct (K5 i r Hi Hr) as (_ & _ & [K|K]); [|by left]. right. right. split; [done|].
        pose proof (distance_moves i s s' k Hlt (ok_cursor _ H) L K3). lia.
    + destruct (idle_retry now n d s e H Ed) as (s' & e' & -> & G & Er & Ec). cbn [fst snd]. split; [done|]. right. right. rewrite Er. split; [done|].
      unfold distance. rewrite Ec. lia.
Qed.

Lemma run_pursues ops s e i r :
  sink_ok s → Forall op_ok ops → OpCancel ∉ ops → sk_records s !! i = Some r → is_closing r = true → (distance i s < passes (s, e) ops)%nat →
  log_grows e (foldl sink_step (s, e) ops).2 ∧ (pursued r e (foldl sink_step (s, e) ops).2 ∨ Exists (confirms_close r) ops).
Proof.
  revert s e. induction ops as [|op ops IH]; intros s e H Ho Hc Hi Hr Hp; cbn [passes foldl] in *; [lia|].
  apply Forall_cons in Ho as [Ho1 Ho2]. apply not_elem_of_cons in Hc as [Hc1 Hc2].
  destruct (step_pursues s e op i r H Ho1 ltac:(congruence) Hi Hr) as [G Hst]. pose proof (sink_step_ok (s, e) op H Ho1) as H1.
  pose proof (run_grows ops (sink_step (s, e) op)) as G2. destruct (sink_step (s, e) op) as [s1 e1]. cbn [fst snd] in *.
  split; [by eapply log_grows_trans|]. destruct Hst as [Hst|[Hst|[Hi1 Hd]]]; [left; by eapply pursued_later|right; by constructor|].
  destruct (IH s1 e1 H1 Ho2 Hc2 Hi1 Hr ltac:(lia)) as [_ [K|K]]; [left; by eapply pursued_sooner|right; by constructor].
Qed.
End pursued.

(** ** Theorems *)

Section theorems.
Context {E : Type} `{Worker : !SinkWorker E} `{Log : !SinkLog E}.

(** C24: whatever frames, closed connections, receipts and retries a worker's sink
    is called with, and however the worker answers: every session has its record
    and every tracked record its session, both counters are exact, at most 1024
    sessions and closes are open, and a retry is due exactly while a close is
    pending. *)
Theorem sink_books_right e ops :
  Forall op_ok ops →
  let s := (foldl sink_step (makeSink, e) ops).1 in
  sink_ok s ∧ 0 <= sk_live_sessions s <= 1024 ∧ 0 <= sk_pending_closes s <= 1024 ∧
  (nextActorConnectionCloseRetryDeadline s = None ↔ sk_pending_closes s = 0).
Proof.
  intros Ho s. assert (H : sink_ok s) by (by apply sink_run_ok; [apply makeSink_ok|]).
  split; [done|]. split; [by apply live_bound|]. split; [by apply pending_bound|].
  unfold nextActorConnectionCloseRetryDeadline. destruct (Z.eqb_spec (sk_pending_closes s) 0); [done|]. by apply H.
Qed.

(** The connection a message speaks for. *)
Definition speaks_for (m : GameMessage) : option ConnectionRef :=
  match m with
  | PlayerCommandMessage c _ _ => c
  | PingMessage c _ _ | PlayerZoneRequestMessage c _ _ | PlayerRoomRequestMessage c _ _ => Some c
  | _ => None
  end.

Definition is_authentication (m : GameMessage) : bool := match m with PlayerCommandMessage _ _ (AuthenticateCommand _) => true | _ => false end.

(** One message was told for the connection [c]. *)
Definition told_one (c : ConnectionRef) (s : GameRequestSink) (e : E) (r : RequestPostResult) (s' : GameRequestSink) (e' : E) : Prop :=
  ∃ p m, told e' = told e ++ [(player_key p, m)] ∧ speaks_for m = Some c ∧ message_ok p m ∧ r ≠ PostInvalid ∧
    (session_player s c = Some p ∨ (session_player s c = None ∧ is_authentication m = true)) ∧
    (r = PostAccepted → session_player s' c = Some p).

Definition told_nothing (s : GameRequestSink) (c : ConnectionRef) (f : Frame) (e : E) (r : RequestPostResult) (e' : E) : Prop :=
  told e' = told e ∧ (r = PostAccepted → frame_type f = MessageType.Ping ∧ session_player s c = None).

Lemma session_of s c x : sk_sessions s !! cref_id c = Some x → gs_generation x = cref_generation c → session_player s c = Some (gs_player x).
Proof. intros Hx Hg. unfold session_player. by rewrite Hx, Hg, Z.eqb_refl. Qed.

Lemma accepted_result (ok : bool * E) : (accepted ok).1 ≠ PostInvalid.
Proof. unfold accepted. by destruct ok as [[] ?]. Qed.

Lemma authenticate_tells c f s e r s' e' :
  frame_type f ≠ MessageType.Ping → postAuthenticate c f s e = (r, s', e') → told_nothing s c f e r e' ∨ told_one c s e r s' e'.
Proof.
  intros Hf. unfold postAuthenticate. destruct (decodePlayerId (payload f)) as [p|]; [|intros [= <- <- <-]; by left].
  pose proof (tell_log (player_key p) (authenticate_message c f p) e) as (L & _). destruct (sk_sessions s !! cref_id c) as [x|] eqn:Es.
  - destruct (Z.eqb_spec (gs_generation x) (cref_generation c)) as [Eg|]; cbn [negb]; [|intros [= <- <- <-]; by left].
    destruct (Z.eqb_spec (gs_player x) p) as [Ep|]; cbn [negb]; [|intros [= <- <- <-]; by left].
    pose proof (session_of s c x Es Eg) as Hs. rewrite Ep in Hs. unfold accepted. destruct (sw_tell _ _ e) as [ok e1]. cbn in *.
    intros [= <- <- <-]. right. exists p, (authenticate_message c f p). split_and!; try done; [by destruct ok|by left].
  - destruct (existsb _ _); [intros [= <- <- <-]; by left|]. destruct (find_record is_free 0 (sk_records s)) as [i|]; [|intros [= <- <- <-]; by left].
    destruct (sw_tell _ _ e) as [ok e1]. cbn in L. assert (Hn : session_player s c = None) by (unfold session_player; by rewrite Es).
    destruct ok; intros [= <- <- <-]; right; exists p, (authenticate_message c f p); split_and!; try done; try (by right).
    intros _. unfold session_player. cbn. by rewrite lookup_insert_eq, Z.eqb_refl.
Qed.

Lemma decoded_tells {A} decoder (message : A → GameMessage) c f s e r s' e' :
  (∀ x p, decoder (payload f) = Some x → speaks_for (message x) = Some c ∧ message_ok p (message x)) →
  post_decoded decoder message c f s e = (r, s', e') → (told e' = told e ∧ r = PostInvalid) ∨ told_one c s e r s' e'.
Proof.
  intros Hm. unfold post_decoded. destruct (session_player s c) as [p|] eqn:Es; [|intros [= <- <- <-]; by left].
  destruct (decoder (payload f)) as [x|]; [|intros [= <- <- <-]; by left].
  pose proof (tell_log (player_key p) (message x) e) as (L & _). destruct (Hm x p eq_refl) as [M1 M2].
  unfold accepted. destruct (sw_tell _ _ e) as [ok e1]. cbn in *. intros [= <- <- <-]. right. exists p, (message x).
  split_and!; try done; [by destruct ok|by left].
Qed.

(** A connection without a session closes without a trace. *)
Lemma close_unbound c s (e : E) : session_player s c = None → onConnectionClosed c s e = (s, e).
Proof.
  intros Hs. unfold onConnectionClosed. destruct (negb _); [done|]. unfold session_player in Hs. destruct (sk_sessions s !! cref_id c) as [x|]; [|done].
  by destruct (gs_generation x =? cref_generation c).
Qed.

Lemma ping_tells c f s e r s' e' :
  frame_type f = MessageType.Ping → postPing c f s e = (r, s', e') → (told_nothing s c f e r e' ∧ s' = s) ∨ (told_one c s e r s' e' ∧ s' = s).
Proof.
  intros Hf. unfold postPing. destruct (session_player s c) as [p|] eqn:Es.
  - pose proof (tell_log (player_key p) (PingMessage c (request_id f) (payload f)) e) as (L & _). unfold accepted.
    destruct (sw_tell _ _ e) as [ok e1]. cbn in *. intros [= <- <- <-]. right. split; [|done]. eexists _, _. split_and!; try done; [by destruct ok|by left].
  - pose proof (send_log c (mkFrame MessageType.Pong (request_id f) (payload f)) false e) as (L & _ & _ & Hx).
    destruct (sw_send _ _ _ e) as [closed e1]. cbn in L, Hx. assert (Hc : close_each closed s e1 = (s, e1)).
    { clear L. induction closed as [|d closed IH]; [done|]. cbn [close_each]. rewrite (Hx d) by by left. rewrite (close_unbound c s e1 Es).
      apply IH. intros x Hin. apply Hx. by right. }
    rewrite Hc. intros [= <- <- <-]. left. by split_and!.
Qed.

Lemma decoded_posts {A} decoder (message : A → GameMessage) c f s e r s' e' :
  (∀ x p, decoder (payload f) = Some x → speaks_for (message x) = Some c ∧ message_ok p (message x)) →
  post_decoded decoder message c f s e = (r, s', e') → (told_nothing s c f e r e' ∨ told_one c s e r s' e') ∧ s' = s.
Proof.
  intros Hm H. pose proof (post_decoded_same decoder message c f s e) as Hs. rewrite H in Hs. cbn in Hs. split; [|done].
  destruct (decoded_tells decoder message c f s e r s' e' Hm H) as [[H1 ->]|H1]; [by left|by right].
Qed.

Lemma purchase_not_auth bs x : decodePurchase bs = Some x → ∃ k q, x = PurchaseCommand k q.
Proof. unfold decodePurchase. destruct (negb _); [done|]. destruct (_ || _); [done|]. intros [= <-]. by eexists _, _. Qed.
Lemma equip_not_auth bs x : decodeEquipSkill bs = Some x → ∃ k, x = EquipSkillCommand k.
Proof. unfold decodeEquipSkill. destruct (negb _); [done|]. destruct (_ =? 0); [done|]. intros [= <-]. by eexists. Qed.

Lemma authenticate_others c f s e r s' e' d :
  postAuthenticate c f s e = (r, s', e') → cref_id d ≠ cref_id c → session_player s' d = session_player s d.
Proof.
  intros H Hd. unfold postAuthenticate in H. destruct (decodePlayerId _); [|by injection H as <- <- <-].
  destruct (sk_sessions s !! cref_id c).
  - destruct (negb _); [by injection H as <- <- <-|]. destruct (negb _); [by injection H as <- <- <-|]. destruct (accepted _). by injection H as <- <- <-.
  - destruct (existsb _ _); [by injection H as <- <- <-|]. destruct (find_record _ _ _); [|by injection H as <- <- <-].
    destruct (sw_tell _ _ e) as [[] e1]; injection H as <- <- <-; unfold session_player; cbn; by rewrite ?lookup_delete_ne, ?lookup_insert_ne by done.
Qed.

Lemma authenticate_refused c f s e r s' e' : postAuthenticate c f s e = (r, s', e') → r ≠ PostAccepted → sk_sessions s' = sk_sessions s.
Proof.
  unfold postAuthenticate. intros H Hr. destruct (decodePlayerId _); [|by injection H as <- <- <-].
  destruct (sk_sessions s !! cref_id c) eqn:Es.
  - destruct (negb _); [by injection H as <- <- <-|]. destruct (negb _); [by injection H as <- <- <-|]. destruct (accepted _). by injection H as <- <- <-.
  - destruct (existsb _ _); [by injection H as <- <- <-|]. destruct (find_record _ _ _); [|by injection H as <- <- <-].
    destruct (sw_tell _ _ e) as [[] e1]; injection H as <- <- <-; [done|]. cbn. by rewrite delete_insert_id.
Qed.

(** C25: a frame reaches an actor only as one message, to the actor of the player
    the frame's connection is bound to, and in that connection's name; from a
    connection without a session nothing but a request to authenticate does, and
    it asks the actor it is sent to for that actor's own player.  If that was
    accepted, the connection has the session of this player.  A frame that was
    not accepted leaves all sessions as they were, so that a connection whose
    authentication was refused has none.  Sessions of other connections stay as
    they are in any case. *)
Theorem frames_stay_in_session c f s e r s' e' :
  game_tryPost c f s e = (r, s', e') →
  (told_nothing s c f e r e' ∨ told_one c s e r s' e') ∧
  (r ≠ PostAccepted → sk_sessions s' = sk_sessions s) ∧
  (∀ d, cref_id d ≠ cref_id c → session_player s' d = session_player s d).
Proof.
  unfold game_tryPost, postPlayerCommand, postZoneRequest, postRoomRequest. cbn zeta.
  destruct (Z.eqb_spec (frame_type f) MessageType.Authenticate) as [Ea|_].
  { intros H. split; [|split; [by eapply authenticate_refused|intros d Hd; by eapply authenticate_others]]. eapply authenticate_tells; [|exact H]. by rewrite Ea. }
  destruct (Z.eqb_spec (frame_type f) MessageType.Ping) as [Ep|_].
  { intros H. destruct (ping_tells _ _ _ _ _ _ _ Ep H) as [[H1 ->]|[H1 ->]]; (split; [|done]); [by left|by right]. }
  repeat (destruct (_ =? _); [intros H; apply decoded_posts in H as [H ->]; [by split|]; intros x p Hx; split; [done|]|]).
  3-10: exact I.
  - by apply purchase_not_auth in Hx as (k & q & ->).
  - by apply equip_not_auth in Hx as (k & ->).
  - intros [= <- <- <-]. split; [left|]; done.
Qed.

Lemma notify_result r s e :
  let '(s', e') := notify r s e in
  ∃ l, s' = foldl receive s l ∧ notified e' = notified e ++ [(player_key (sr_player r), sr_connection r)] ∧ confirmed e' = confirmed e ++ (fst <$> l).
Proof.
  unfold notify. pose proof (notify_log (player_key (sr_player r)) (sr_connection r) (PlayerConnectionClosedMessage (sr_connection r)) e) as (_ & L2 & L3).
  destruct (sw_notify _ _ _ e) as [l e']. by exists l.
Qed.

Lemma receipts_sessions l s : sk_sessions (foldl receive s l) = sk_sessions s.
Proof.
  revert s. induction l as [|[[key c] result] l IH]; intros s; cbn; [done|]. rewrite IH. unfold onActorConnectionClosedReceipt.
  destruct (negb _); [done|]. destruct (find_record _ _ _); [|done]. cbn. by destruct (_ =? 0).
Qed.

(** When the connection of a session closes, the session is gone, the player's
    actor is told at once, and the close stays on record, with a retry due, until
    a receipt for exactly this connection and this player arrives. *)
Theorem close_is_recorded c p s e s' e' :
  sink_ok s → cref_owner c = sw_id → session_player s c = Some p → onConnectionClosed c s e = (s', e') →
  session_player s' c = None ∧ notified e' = notified e ++ [(player_key p, c)] ∧
  ((∃ i, sk_records s' !! i = Some (mkRecord RecordClosing c p) ∧ nextActorConnectionCloseRetryDeadline s' ≠ None) ∨
   (player_key p, c) ∈ drop (length (confirmed e)) (confirmed e')).
Proof.
  intros H Ho Hs Hc. pose proof (closed_ok c s e H) as H'. rewrite Hc in H'. cbn in H'. unfold session_player in Hs.
  destruct (sk_sessions s !! cref_id c) as [x|] eqn:Es; [|done]. destruct (Z.eqb_spec (gs_generation x) (cref_generation c)) as [Eg|]; [|done].
  injection Hs as Hp. destruct (ok_session _ H _ _ Es) as (c0 & Hr & Hid & Hgen). pose proof (ok_owner _ H _ _ Hr ltac:(done)) as Howner. cbn in Howner.
  assert (c0 = c) as -> by (destruct c0, c; cbn in *; congruence).
  unfold onConnectionClosed in Hc. rewrite Ho, Z.eqb_refl, Es, Eg, Z.eqb_refl, Hr in Hc. cbn [negb sr_state sr_connection sr_player] in Hc.
  rewrite !bool_decide_eq_true_2, Z.eqb_refl in Hc by done. cbn [negb orb] in Hc. pose proof (now_log e) as (_ & N2 & N3).
  destruct (sw_now e) as [now e1]. cbn [snd] in N2, N3. rewrite Hp in Hc.
  match type of Hc with notify ?r ?s3 _ = _ => set (s2 := s3) in Hc; pose proof (notify_result r s3 e1) as Hn end. fold s2 in Hn. rewrite Hc in Hn.
  destruct Hn as (l & -> & L2 & L3). cbn [sr_player sr_connection] in L2, L3. split; [|split].
  - unfold session_player. rewrite receipts_sessions. cbn. by rewrite lookup_delete_eq.
  - by rewrite L2, N2.
  - assert (Hi : sk_records s2 !! gs_record_index x = Some (mkRecord RecordClosing c p)).
    { cbn. apply list_lookup_insert_eq. by eapply lookup_lt_Some. }
    destruct (receipts_keep l s2 _ _ Hi eq_refl) as [Hk|Hk].
    + left. exists (gs_record_index x). split; [done|]. unfold nextActorConnectionCloseRetryDeadline.
      destruct (Z.eqb_spec (sk_pending_closes (foldl receive s2 l)) 0) as [Hz|Hz]; [|rewrite (ok_retry _ H'); done].
      by pose proof (nothing_closing _ _ _ H' Hz Hk) as Hf.
    + right. by rewrite L3, N3, drop_app_length.
Qed.

(** C26: closes are told again until they are confirmed.  A retry pass that is due,
    with a budget of [n > 0] records and a positive time, scans at least one
    record from the cursor on, and [n] (at most 1024) unless no close is pending
    any more or a reading of the clock has used the time up; during the pass the
    actor of every close on a scanned record is told of it, or confirms it.  So in
    any run of calls (short of the cancellation at shutdown) with at least 1024
    such passes, every close that is on record at its beginning is told to its
    actor during the run, or confirmed. *)
Theorem retries_pursue_all s e :
  sink_ok s →
  (∀ now n d, due now n d s = true → ∃ k, (0 < k)%nat ∧ scanned k (Nat.min n MAX_TRACKED_SESSIONS) (sw_now e).1 d s e (retryActorConnectionClosed now n d s e)) ∧
  (∀ ops i r, Forall op_ok ops → OpCancel ∉ ops → (MAX_TRACKED_SESSIONS <= passes (s, e) ops)%nat →
     sk_records s !! i = Some r → is_closing r = true →
     pursued r e (foldl sink_step (s, e) ops).2 ∨ Exists (confirms_close r) ops).
Proof.
  intros H. split; [intros now n d Hd; by apply due_pass_scans|]. intros ops i r Ho Hc Hp Hi Hr. pose proof (lookup_lt_Some _ _ _ Hi) as Hlt.
  rewrite (ok_length _ H) in Hlt. destruct (distance_spec i s Hlt (ok_cursor _ H)) as [Hd _]. apply (run_pursues ops s e i r H Ho Hc Hi Hr). lia.
Qed.
End theorems.

(** ** A worker that accepts everything and confirms nothing yet *)

Record DemoWorker := mkDemoWorker {
  demo_told : list (ActorKey * GameMessage);
  demo_notified : list (ActorKey * ConnectionRef)
}.

#[local] Instance demo_sink_worker : SinkWorker DemoWorker := {
  sw_id := 0;
  sw_now e := (1000, e);
  sw_tell k m e := (true, mkDemoWorker (demo_told e ++ [(k, m)]) (demo_notified e));
  sw_send c f b e := ([], e);
  sw_notify k c m e := ([], mkDemoWorker (demo_told e) (demo_notified e ++ [(k, c)]))
}.

#[local] Program Instance demo_sink_log : SinkLog DemoWorker := {
  told := demo_told;
  notified := demo_notified;
  confirmed e := []
}.
Next Obligation. done. Qed.
Next Obligation. done. Qed.
Next Obligation. intros. split_and!; try done. by intros x Hx%elem_of_nil. Qed.
Next Obligation. done. Qed.

Definition demo_sink_connection : ConnectionRef := mkConnectionRef 3 5 0.
Definition demo_authenticate : Frame := mkFrame MessageType.Authenticate 1 [0; 0; 0; 0; 0; 0; 0; 7].
Definition demo_empty : DemoWorker := mkDemoWorker [] [].
Definition demo_bound : GameRequestSink := (game_tryPost demo_sink_connection demo_authenticate makeSink demo_empty).1.2.
Definition demo_closed : GameRequestSink := (onConnectionClosed demo_sink_connection demo_bound demo_empty).1.

Lemma demo_bound_ok : sink_ok demo_bound.
Proof. apply tryPost_ok; [apply makeSink_ok|done]. Qed.

Lemma sink_books_right_witness :
  let s := (foldl sink_step (makeSink, demo_empty) [OpPost demo_sink_connection demo_authenticate; OpClosed demo_sink_connection]).1 in
  sk_live_sessions s = 0 ∧ sk_pending_closes s = 1 ∧ sink_ok s ∧ nextActorConnectionCloseRetryDeadline s ≠ None.
Proof.
  destruct (sink_books_right demo_empty [OpPost demo_sink_connection demo_authenticate; OpClosed demo_sink_connection]) as (H1 & _ & _ & H2);
    [by repeat constructor|]. intros s. split; [by vm_compute|]. split; [by vm_compute|]. split; [exact H1|]. by vm_compute.
Defined.

Lemma frames_stay_in_session_witness :
  ∃ r s e, game_tryPost demo_sink_connection demo_authenticate makeSink demo_empty = (r, s, e) ∧ session_player s demo_sink_connection = Some 7 ∧
    told_one demo_sink_connection makeSink demo_empty r s e.
Proof.
  destruct (game_tryPost demo_sink_connection demo_authenticate makeSink demo_empty) as [[r s] e] eqn:H. exists r, s, e. split; [done|].
  destruct (frames_stay_in_session _ _ _ _ _ _ _ H) as [Ht _]. vm_compute in H. injection H as <- <- <-. split; [by vm_compute|].
  destruct Ht as [[Ht _]|Ht]; [done|exact Ht].
Defined.

Lemma close_is_recorded_witness :
  session_player demo_bound demo_sink_connection = Some 7 ∧
  notified (onConnectionClosed demo_sink_connection demo_bound demo_empty).2 = [(player_key 7, demo_sink_connection)].
Proof.
  split; [by vm_compute|].
  destruct (onConnectionClosed demo_sink_connection demo_bound demo_empty) as [s e] eqn:H.
  destruct (close_is_recorded demo_sink_connection 7 demo_bound demo_empty s e) as (_ & Hn & _);
    [apply demo_bound_ok|done|by vm_compute|done|]. exact Hn.
Defined.

(** One pass, with a clock that stands still, scans all 16 records it may: the
    close on the first of them is told again. *)
Lemma retries_pursue_all_witness :
  due 20000000 16 1000 demo_closed = true ∧
  pursued (mkRecord RecordClosing demo_sink_connection 7) demo_empty (retryActorConnectionClosed 20000000 16 1000 demo_closed demo_empty).2 ∧
  sk_retry_cursor (retryActorConnectionClosed 20000000 16 1000 demo_closed demo_empty).1 = 16%nat.
Proof.
  assert (Hd : due 20000000 16 1000 demo_closed = true) by (by vm_compute). split; [exact Hd|].
  destruct (retries_pursue_all demo_closed demo_empty (closed_ok _ _ _ demo_bound_ok)) as [H _].
  destruct (H 20000000 16%nat 1000 Hd) as (k & Hk & _ & _ & _ & _ & _ & Hcov). split; [|by vm_compute].
  apply (Hcov 0%nat); [exact Hk| |done]. by vm_compute.
Defined.
