(* ===== verification/SinkClientSpec.v ===== *)
(** * The game client and a worker

    Every request the game client builds, against the decoders of a worker's
    request sink: what a player asks for is what the player's actor is told. *)

From Stdlib Require Import Ascii String.
From S2P Require Import Prelude Arena Zone Player RoomTypes Connection Wire FrameCodec Gateway GatewaySpec ClientWire ClientSpec Identity Actor GameMessages Network GameSink GameSinkSpec.

(** ** Fields *)

Lemma field_decoded width pre n v post off :
  length pre = off → 8 * Z.of_nat n <= width → decodeBigEndian width (pre ++ be_bytes n v ++ post) off n = v mod 256 ^ Z.of_nat n.
Proof.
  intros Hp Hw. change (fold_bytes width (take n (drop off (pre ++ be_bytes n v ++ post))) = v mod 256 ^ Z.of_nat n).
  rewrite drop_app_length', take_app_length' by (done || by rewrite be_bytes_length).
  rewrite fold_bytes_value by (rewrite ?be_bytes_length; auto with bounds). apply be_value_bytes.
Qed.

Lemma u64_field pre v post off : length pre = off → in_u64 v → decodeBigEndian 64 (pre ++ be_bytes 8 v ++ post) off 8 = v.
Proof. intros Hp Hv. rewrite field_decoded by (done || lia). apply Z.mod_small. change (256 ^ Z.of_nat 8) with 18446744073709551616. lia. Qed.

Lemma u32_field pre v post off : length pre = off → in_u32 v → decodeBigEndian 32 (pre ++ be_bytes 4 v ++ post) off 4 = v.
Proof. intros Hp Hv. rewrite field_decoded by (done || lia). apply Z.mod_small. change (256 ^ Z.of_nat 4) with 4294967296. lia. Qed.

Lemma i32_field pre v post off : length pre = off → in_i32 v → as_i32 (decodeBigEndian 32 (pre ++ be_bytes 4 v ++ post) off 4) = v.
Proof. intros Hp Hv. rewrite field_decoded by (done || lia). by apply (to_i32_u32 v). Qed.

Lemma u64_head v post : in_u64 v → decodeBigEndian 64 (be_bytes 8 v ++ post) 0 8 = v.
Proof. exact (u64_field [] v post 0 eq_refl). Qed.
Lemma u32_head v post : in_u32 v → decodeBigEndian 32 (be_bytes 4 v ++ post) 0 4 = v.
Proof. exact (u32_field [] v post 0 eq_refl). Qed.
Lemma i32_head v post : in_i32 v → as_i32 (decodeBigEndian 32 (be_bytes 4 v ++ post) 0 4) = v.
Proof. exact (i32_field [] v post 0 eq_refl). Qed.

(** ** Requests *)

Ltac request_fields H :=
  unfold authenticate, enter_zone, room_join in H; not_refused H; cbn [packed code_size] in *; rewrite ?app_nil_r in *.

Lemma sized (bs : bytes) (n : nat) : length bs = n → negb (zlen bs =? Z.of_nat n) = false.
Proof. intros H. unfold zlen. by rewrite H, Z.eqb_refl. Qed.

Lemma nonzero v : v ≠ 0 → (v =? 0) = false.
Proof. by apply Z.eqb_neq. Qed.

Lemma authenticate_decoded p bs : authenticate p = Value bs → decodePlayerId bs = Some p.
Proof.
  intros H. request_fields H. unfold decodePlayerId. rewrite (sized _ 8) by apply be_bytes_length.
  pose proof (u64_head p [] ltac:(lia)) as E. rewrite app_nil_r in E. rewrite E. by rewrite nonzero.
Qed.

Lemma purchase_decoded key product bs : purchase key product = Value bs → decodePurchase bs = Some (PurchaseCommand key product).
Proof.
  intros H. request_fields H. unfold decodePurchase. rewrite (sized _ 12) by (rewrite length_app, !be_bytes_length; done).
  rewrite (u64_head key) by lia. pose proof (u32_field (be_bytes 8 key) product [] 8 (be_bytes_length 8 key) ltac:(lia)) as E.
  rewrite app_nil_r in E. rewrite E. by rewrite !nonzero.
Qed.

Lemma equip_decoded skill bs : equip_skill skill = Value bs → decodeEquipSkill bs = Some (EquipSkillCommand skill).
Proof.
  intros H. request_fields H. unfold decodeEquipSkill. rewrite (sized _ 4) by apply be_bytes_length.
  pose proof (u32_head skill [] ltac:(lia)) as E. rewrite app_nil_r in E. rewrite E. by rewrite nonzero.
Qed.

Lemma enter_decoded zone x y bs : enter_zone zone x y = Value bs → decodeEnterZone bs = Some (EnterZoneRequest zone (mkZonePosition x y)).
Proof.
  intros H. request_fields H. unfold decodeEnterZone. rewrite (sized _ 16) by (rewrite !length_app, !be_bytes_length; done).
  rewrite (u64_head zone) by lia. rewrite (i32_field (be_bytes 8 zone) x) by (apply be_bytes_length || lia).
  pose proof (i32_field (be_bytes 8 zone ++ be_bytes 4 x) y [] 12 ltac:(rewrite length_app, !be_bytes_length; done) ltac:(lia)) as E.
  rewrite app_nil_r, <-app_assoc in E. by rewrite E.
Qed.

Lemma move_decoded x y bs : move_in_zone x y = Value bs → decodeMove bs = Some (MoveRequest (mkZonePosition x y)).
Proof.
  intros H. request_fields H. unfold decodeMove. rewrite (sized _ 8) by (rewrite length_app, !be_bytes_length; done).
  rewrite (i32_head x) by lia. pose proof (i32_field (be_bytes 4 x) y [] 4 (be_bytes_length 4 x) ltac:(lia)) as E.
  rewrite app_nil_r in E. by rewrite E.
Qed.

Lemma join_decoded room bs : room_join room = Value bs → decodeRoomJoin bs = Some (RoomJoinRequest room).
Proof.
  intros H. request_fields H. unfold decodeRoomJoin. rewrite (sized _ 8) by apply be_bytes_length.
  pose proof (u64_head room [] ltac:(lia)) as E. rewrite app_nil_r in E. by rewrite E.
Qed.

Lemma battle_decoded room bs : battle_start room = Value bs → decodeBattleStart bs = Some (BattleStartRequest room).
Proof.
  intros H. request_fields H. unfold decodeBattleStart. rewrite (sized _ 8) by apply be_bytes_length.
  pose proof (u64_head room [] ltac:(lia)) as E. rewrite app_nil_r in E. by rewrite E.
Qed.

Lemma skill_decoded room skill seq bs : use_skill room skill seq = Value bs → decodeUseSkill bs = Some (UseSkillRequest room skill seq).
Proof.
  intros H. request_fields H. unfold decodeUseSkill. rewrite (sized _ 20) by (rewrite !length_app, !be_bytes_length; done).
  rewrite (u64_head room) by lia. rewrite (u32_field (be_bytes 8 room) skill) by (apply be_bytes_length || lia).
  pose proof (u64_field (be_bytes 8 room ++ be_bytes 4 skill) seq [] 12 ltac:(rewrite length_app, !be_bytes_length; done) ltac:(lia)) as E.
  rewrite app_nil_r, <-app_assoc in E. rewrite E. by rewrite !nonzero.
Qed.

Lemma intent_decoded room direction seq bs :
  ClientWire.set_move_intent room (direction_to_u8 direction) seq = Value bs → decodeSetMoveIntent bs = Some (SetMoveIntentRequest room direction seq).
Proof.
  set (dir := direction_to_u8 direction). intros H. request_fields H. unfold decodeSetMoveIntent.
  rewrite (sized _ 17) by (rewrite !length_app, !be_bytes_length; done). rewrite (u64_head room) by lia.
  pose proof (u64_field (be_bytes 8 room ++ be_bytes 1 dir) seq [] 9 ltac:(rewrite length_app, !be_bytes_length; done) ltac:(lia)) as E.
  rewrite app_nil_r, <-app_assoc in E. rewrite E. rewrite lookup_app_r, be_bytes_length by (rewrite be_bytes_length; lia).
  rewrite <-(byte_packed dir) by lia. change (([dir] ++ be_bytes 8 seq) !! (8 - 8)%nat) with (Some dir). change (default 0 (Some dir)) with dir.
  assert (isValidMoveDirection dir = true) as -> by by destruct direction. assert (direction_of_u8 dir = direction) as -> by by destruct direction.
  by rewrite nonzero.
Qed.

(** ** From the client to the actor *)

Section told.
Context {E : Type} `{Worker : !SinkWorker E} `{Log : !SinkLog E}.

(** Unless the client refuses to build the request [m], its bytes, however cut,
    are one frame for the server, which the sink [s] tells as [message] to the
    actor [key] before anything else. *)
Definition client_tells (c : ConnectionRef) (req : Z) (s : GameRequestSink) (e : E) (type : Z) (m : py bytes) (key : ActorKey) (message : GameMessage)
    : Prop :=
  ∀ bs, m = Value bs →
    ∃ wire, py_encode type req bs = Value wire ∧
      (∀ chunks, concat chunks = wire → feed empty_decoder chunks = Some (mkDecodeResult [mkFrame type req bs] None, empty_decoder)) ∧
      told (game_tryPost c (mkFrame type req bs) s e).2 = told e ++ [(key, message)].

Lemma decoded_told {A} decoder (message : A → GameMessage) c f s e p x :
  session_player s c = Some p → decoder (payload f) = Some x → told (post_decoded decoder message c f s e).2 = told e ++ [(player_key p, message x)].
Proof.
  intros Hs Hx. unfold post_decoded. rewrite Hs, Hx. unfold accepted. pose proof (tell_log (player_key p) (message x) e) as (L & _).
  by destruct (sw_tell (player_key p) (message x) e).
Qed.

Lemma built_ok {m : py bytes} fmt codes vs bs : m = Value bs → (m = ClientWire.pack fmt vs ∨ ∃ x, m = Raise x) → format fmt = Value codes →
  Z.of_nat (calcsize codes) <= MAX_PAYLOAD_SIZE → bytes_ok bs ∧ zlen bs <= MAX_PAYLOAD_SIZE.
Proof.
  intros -> [Hm|[x Hm]] Hf Hs; [|done]. destruct (pack_inv _ _ _ _ (eq_sym Hm) Hf) as [_ ->].
  split; [apply packed_ok|]. pose proof (packed_length_le codes vs). unfold zlen. lia.
Qed.

Lemma tells_framed c req s e type m key message :
  is_known_message_type type = true → in_u32 req →
  (∀ bs, m = Value bs → bytes_ok bs ∧ zlen bs <= MAX_PAYLOAD_SIZE) →
  (∀ bs, m = Value bs → told (game_tryPost c (mkFrame type req bs) s e).2 = told e ++ [(key, message)]) →
  client_tells c req s e type m key message.
Proof.
  intros Ht Hr Hb Hm bs Hbs. destruct (Hb bs Hbs) as [B1 B2]. assert (Hf : frame_ok (mkFrame type req bs)) by done.
  exists (encoding (mkFrame type req bs)). split; [by apply (py_encode_ok (mkFrame type req bs))|]. split; [|by apply Hm].
  intros chunks Hc. by apply decoded_alone.
Qed.

(** What the client builds has the size of its format. *)
Ltac framed fmt codes vs :=
  let H := fresh "H" in
  intros ? H;
  refine (built_ok fmt codes vs _ H _ eq_refl _);
  [unfold authenticate, purchase, equip_skill, enter_zone, move_in_zone, room_join, battle_start, use_skill, ClientWire.set_move_intent, raise_if;
   repeat match goal with |- context [if ?b then _ else _] => destruct b end; (by left) || (right; by eexists)
  |by vm_compute].

End told.

#[local] Existing Instances demo_sink_worker demo_sink_log.

