(* ===== verification/GameActorSpec.v ===== *)
(** * What the game's actors promise

    - The turns of every actor, in every state, use their timer reservations
      linearly: the law the scheduler asks of the actors it runs, so that the
      theorems of [SchedulerSpec] hold of a worker that runs the game.
    - A player that is saved and loaded again is the same player.
    - The turns of a room end without an exception and fit the batch, a battle
      begins only with the timer of its deadline, and the room stops exactly when
      its battle is decided. *)

From S2P Require Import Prelude FrameCodec Identity Lane TimerQueue HandleRing SlotTable ActorTable Skills Arena Zone RoomTypes Room RoomInv RoomSpec Player Actor DbClient Encoder GameMessages ActorAdapters PlayerAdapter GameActors Scheduler SchedulerInv SchedulerRun SchedulerSpec.

(** ** The turns of a room *)

(** The turn ends, whatever reservation it is given, in [Q]. *)
Fixpoint turn_always {I T} (Q : I → Batch → Prop) (t : Turn GameMessage I T) : Prop :=
  match t with
  | TurnThrow => False
  | TurnReserve _ _ k => turn_always Q (k None) ∧ ∀ r, turn_always Q (k (Some r))
  | TurnDrop _ k => turn_always Q k
  | TurnComplete a es => Q a es
  | TurnSuspend _ _ => False
  end.

Lemma room_handle_audience r command now res r' :
  room_handle r command now = (res, r') → rr_audience res = [] ∨ rr_audience res = audience r'.
Proof.
  destruct command as [player st eq|player| |player skill seq| | |player dir seq]; simpl.
  - unfold Room.handleJoinRoom. repeat (split_if || case_match); intros [= <- <-]; by left.
  - unfold handleLeaveRoom, failBattle, takeDigest. repeat (split_if || case_match); simplify_eq/=; intros; simplify_eq/=; auto.
  - unfold handleStartBattle, takeDigest. repeat (split_if || case_match); simplify_eq/=; intros; simplify_eq/=; auto.
  - unfold handleUseSkill, applyAreaAttack, spawnHomingProjectile, clearBattle, failBattle, finishSkillUse, takeDigest.
    repeat (split_if || case_match); simplify_eq/=; intros; simplify_eq/=; auto.
  - unfold handleBattleDeadline, failBattle, takeDigest. repeat (split_if || case_match); simplify_eq/=; intros; simplify_eq/=; auto.
  - unfold handleRoomSimulationTick, clearBattle, failBattle, takeDigest. repeat (split_if || case_match); simplify_eq/=; intros; simplify_eq/=; auto.
  - unfold handleSetMoveIntent, failBattle, takeDigest. repeat (split_if || case_match); simplify_eq/=; intros; simplify_eq/=; auto.
Qed.

(** Only [StartBattle] starts a battle, and it names the deadline. *)
Lemma waiting_stays r command now : phase r = Waiting → command ≠ StartBattle → phase (room_handle r command now).2 = Waiting.
Proof.
  intros Hw Hc. destruct command as [player st eq|player| |player skill seq| | |player dir seq]; simpl; try done.
  - unfold Room.handleJoinRoom. repeat (split_if || case_match); done.
  - unfold handleLeaveRoom. rewrite Hw. repeat (split_if || case_match); done.
  - unfold handleUseSkill. rewrite Hw. done.
  - unfold handleBattleDeadline. rewrite Hw. done.
  - unfold handleRoomSimulationTick. rewrite Hw. done.
  - unfold handleSetMoveIntent. rewrite Hw. done.
Qed.

Lemma start_names_deadline r now : canStartBattle r = true → is_Some (rr_deadline_after (room_handle r StartBattle now).1).
Proof.
  intros Hc. simpl. unfold handleStartBattle. rewrite Hc. cbn [negb]. destruct (takeDigest _) as [d r3]. destruct (has_value d); by eexists.
Qed.

Lemma no_start r now : canStartBattle r = false → (room_handle r StartBattle now).2 = r.
Proof. intros Hc. simpl. unfold handleStartBattle. by rewrite Hc. Qed.

(** The effects of a result for at most four participants. *)
Lemma room_batch context result prepared :
  zlen (rr_audience result) <= 4 → zlen (rr_grants result) <= 4 →
  ∃ es, toEffects_room context result prepared = Some es ∧ zlen es <= 19 ∧ (StopActorEffect ∈ es ↔ rr_outcome result ≠ None) ∧
    timer_effects prepared ⊆ es.
Proof.
  unfold zlen. intros Ha Hg. pose proof (room_effects_bound context result prepared 4 ltac:(lia) ltac:(lia)) as Hb.
  unfold toEffects_room. rewrite push_all_app by (unfold zlen; cbn; lia). eexists. split; [done|]. split; [cbn; lia|]. rewrite app_nil_l.
  split; [|intros x Hx; by apply elem_of_app; left]. rewrite !elem_of_app.
  assert (H1 : StopActorEffect ∉ timer_effects prepared) by (destruct prepared; [by intros ?%list_elem_of_singleton|apply not_elem_of_nil]).
  assert (H2 : StopActorEffect ∉ room_reply_effects context result).
  { unfold room_reply_effects. repeat case_match; (apply not_elem_of_nil || by intros ?%list_elem_of_singleton). }
  assert (Hf : ∀ A (g : A → PlayerId) (f : A → ConnectionRef → GameEffect) l, (∀ x c, f x c ≠ StopActorEffect) → StopActorEffect ∉ for_connected context g f l).
  { intros A g f l Hn. unfold for_connected. rewrite list_elem_of_omap. intros (x & _ & Hx). destruct (routeConnectionFor _ _); [|done].
    injection Hx as Hx. by apply (Hn x c). }
  assert (H3 : StopActorEffect ∉ digest_effects context result).
  { unfold digest_effects. destruct (negb _); [by apply not_elem_of_nil|]. destruct (encodeBattleDigest _ _); by apply Hf. }
  unfold ending_effects. destruct (rr_outcome result) as [o|].
  - split; [done|]. intros _. right. right. right. rewrite !elem_of_app. right. right. right. by left.
  - split; [|done]. destruct (rr_tick_after result); [|intros [?|[?|[?|Hx]]]; try done; by apply elem_of_nil in Hx].
    intros [?|[?|[?|Hx]]]; try done. by apply list_elem_of_singleton in Hx.
Qed.

(** The messages of a room: commands with the numbers a session can send, and
    the room's own timers. *)
Definition room_message_ok (a : RoomActorAdapter) (m : GameMessage) : Prop :=
  match m with
  | RoomCommandMessage _ _ command _ _ => command_ok command
  | RoomDeadlineMessage room _ | RoomTickMessage room _ => room = room_id (ra_room a)
  | _ => True
  end.

(** A room whose seats the adapter accepts. *)
Definition seated (a : RoomActorAdapter) : Prop := room_ok (ra_room a) ∧ max_participants (config (ra_room a)) <= MAX_ROOM_PARTICIPANTS.

Definition undecided (ph : RoomPhase) : bool := match ph with Cleared | RoomTypes.Failed => false | _ => true end.

(** From the room [a] to [a'] with the effects [es]. *)
Record room_turn_ok (a a' : RoomActorAdapter) (es : Batch) : Prop := {
  rt_seated : seated a';
  rt_fits : zlen es <= 19;
  rt_stops : StopActorEffect ∈ es ↔ undecided (phase (ra_room a)) = true ∧ undecided (phase (ra_room a')) = false;
  rt_starts : phase (ra_room a) = Waiting → phase (ra_room a') = Running →
    ∃ deadline room sequence r, ScheduleTimerEffect deadline (RoomDeadlineMessage room sequence) (Some r) ∈ es
}.

(** A result of the room itself. *)
Lemma handled_turn a command context prepared now a' :
  seated a → command_ok command → ra_room a' = (room_handle (ra_room a) command now).2 →
  (phase (ra_room a) = Waiting → phase (ra_room a') = Running →
   ∃ deadline room sequence r, prepared = Some (mkPreparedTimer deadline (RoomDeadlineMessage room sequence) r)) →
  ∃ es, toEffects_room context (room_handle (ra_room a) command now).1 prepared = Some es ∧ room_turn_ok a a' es.
Proof.
  intros [Hr Hm] Hc Ea Hs. destruct (room_handle (ra_room a) command now) as [res r'] eqn:E. cbn in *.
  pose proof (room_handle_ok (ra_room a) command now Hr Hc) as Hr'. rewrite E in Hr'. cbn in Hr'.
  destruct (room_handle_numbered _ _ _ _ _ E) as [Hcfg _]. pose proof (room_handle_reported _ _ _ _ _ Hr E) as Hrep.
  assert (Hseats : ∀ r, room_ok r → config r = config (ra_room a) → zlen (participants r) <= 4).
  { intros r [Hcr _] Hcf. pose proof (po_seats _ _ (cr_party _ Hcr)) as Hp. rewrite Hcf in Hp. lia. }
  assert (Hau : zlen (rr_audience res) <= 4).
  { destruct (room_handle_audience _ _ _ _ _ E) as [-> | ->]; [done|]. unfold audience, zlen. rewrite length_fmap. by apply Hseats. }
  assert (Hgr : zlen (rr_grants res) <= 4).
  { unfold reported in Hrep. destruct (rr_outcome res) as [[]|]; [destruct Hrep as (_ & _ & _ & _ & _ & _ & _ & ->)
      |destruct Hrep as (_ & _ & -> & _)|destruct Hrep as (-> & _)]; try done. unfold zlen. rewrite length_fmap. by apply Hseats. }
  destruct (room_batch context res prepared Hau Hgr) as (es & Ees & Hl & Hst & Htm). exists es. split; [done|]. constructor.
  - split; rewrite Ea; [done|]. by rewrite Hcfg.
  - done.
  - rewrite Hst, Ea. unfold reported in Hrep. destruct (rr_outcome res) as [[]|].
    + destruct Hrep as (-> & -> & _). by split.
    + destruct Hrep as (-> & -> & _). by split.
    + destruct Hrep as (_ & _ & [->|[-> ->]]); [split; [done|]; by intros [-> ?]|]. split; [done|]. by intros [_ ?].
  - intros Hw Hrun. destruct (Hs Hw Hrun) as (d & room & sq & r & ->). exists d, room, sq, r. apply Htm. by left.
Qed.

(** An answer the adapter gives in the room's stead. *)
Lemma refused_turn a context status player :
  seated a → ∃ es, toEffects_room context (plain_room_result status (phase (ra_room a)) player) None = Some es ∧ room_turn_ok a a es.
Proof.
  intros Hs. destruct (room_batch context (plain_room_result status (phase (ra_room a)) player) None) as (es & E & Hl & Hst & _); [done|done|].
  exists es. split; [done|]. constructor; [done|done| |congruence]. rewrite Hst. split; [done|]. by intros [-> ?].
Qed.

Lemma note_command_room command connection membership result a : ra_room (note_command command connection membership result a) = ra_room a.
Proof. unfold note_command. by repeat case_match. Qed.

Section turns.
Context {T : Type} (chargedBytes : GameMessage → Z) (a : RoomActorAdapter) (context : TurnContext) (Hs : seated a).
Abbreviation RoomTurn := (Turn GameMessage RoomActorAdapter T).

Lemma idle_turn_ends : room_turn_ok a a [].
Proof using Hs. constructor; [done|done| |congruence]. split; [by intros ?%elem_of_nil|]. by intros [-> ?]. Qed.

Lemma plain_turn_ends c r cmd rt mb :
  command_ok cmd → cmd ≠ StartBattle ∨ (cmd = StartBattle ∧ canStartBattle (ra_room a) = false) →
  turn_always (room_turn_ok a) (plain_command a c r cmd rt mb context : RoomTurn).
Proof using Hs.
  intros Hc Hcmd. unfold plain_command. destruct (room_handle (ra_room a) cmd (turn_now context)) as [res r'] eqn:E.
  set (a' := note_command _ _ _ _ _). assert (Ea : ra_room a' = (room_handle (ra_room a) cmd (turn_now context)).2).
  { unfold a'. rewrite note_command_room. by rewrite E. }
  destruct (handled_turn a cmd (room_context a' c r (room_replyKind cmd) (turn_now context) rt mb) None (turn_now context) a' Hs Hc Ea)
    as (es & Ees & Hok).
  { intros Hw Hrun. rewrite Ea in Hrun. destruct Hcmd as [Hn|[-> Hn]]; [by rewrite (waiting_stays _ _ _ Hw Hn) in Hrun|].
    by rewrite (no_start _ _ Hn), Hw in Hrun. }
  rewrite E in Ees. cbn [fst] in Ees. by rewrite Ees.
Qed.

Lemma timer_turn_ends cmd :
  command_ok cmd → cmd ≠ StartBattle → turn_always (room_turn_ok a) (timer_turn a (room_id (ra_room a)) cmd context : RoomTurn).
Proof using Hs.
  intros Hc Hn. unfold timer_turn. rewrite Z.eqb_refl. cbn [negb].
  destruct (room_handle (ra_room a) cmd (turn_now context)) as [res r'] eqn:E.
  destruct (handled_turn a cmd (room_context a None 0 None (turn_now context) None None) None (turn_now context) (set_ra_room r' a) Hs Hc)
    as (es & Ees & Hok); [by rewrite E| |].
  { intros Hw Hrun. pose proof (waiting_stays _ _ (turn_now context) Hw Hn) as H. rewrite E in H. cbn in *. congruence. }
  rewrite E in Ees. cbn [fst] in Ees. by rewrite Ees.
Qed.

Lemma start_turn_ends c r rt mb :
  canStartBattle (ra_room a) = true → turn_always (room_turn_ok a) (start_battle chargedBytes a c r rt mb context : RoomTurn).
Proof using Hs.
  intros Ec. unfold start_battle. set (tc := room_context a c r _ _ rt mb).
  destruct (refused_turn a tc RuntimeOverloaded None Hs) as (es & Ees & Hok).
  destruct (ra_admission a); [|by rewrite Ees]. cbn [turn_always]. split; [by rewrite Ees|]. intros reservation.
  destruct (start_names_deadline (ra_room a) (turn_now context) Ec) as [d Ed].
  destruct (room_handle (ra_room a) StartBattle (turn_now context)) as [res r'] eqn:E. cbn in Ed. rewrite Ed.
  destruct (handled_turn a StartBattle tc (Some (mkPreparedTimer (after (turn_now context) d) (RoomDeadlineMessage (room_id (ra_room a)) 1) reservation))
              (turn_now context) (set_ra_room r' a) Hs I) as (es' & Ees' & Hok'); [by rewrite E|by intros _ _; eexists _, _, _, _|].
  rewrite E in Ees'. cbn [fst] in Ees'. by rewrite Ees'.
Qed.
End turns.


(** A room with one player, about to start. *)
Definition demo_room_adapter : RoomActorAdapter := mkRoomAdapter (room_handle demo_room (JoinRoom 7 demo_stats 1) 0).2 true ∅ ∅.
Definition demo_start_message : GameMessage := RoomCommandMessage None 0 StartBattle None None.

Lemma demo_seated : seated demo_room_adapter.
Proof.
  split; [|vm_compute; congruence]. apply room_handle_ok; [|vm_compute; done].
  apply (makeRoom_ok 1 default_config); [exact default_config_typed|exact demo_room_made].
Qed.


(** ** The scheduler's law *)

Section worker.
Context {Env : Type} `{Setup : !WorkerSetup GameMessage}.
Context `{Heap : !HeapAlgorithms (entry_deadline (M := GameMessage))} `{Outside : !WorkerOutside GameMessage GameActor Env}.

#[local] Instance game_actors : ActorBehaviour GameMessage GameActor SaveTask := game_behaviour chargedBytes.

Lemma game_lifecycle_linear (Hcharge : ∀ m, 0 <= chargedBytes m) a context stopping : linear [] (game_lifecycleTurn chargedBytes a context stopping).
Proof.
  destruct a as [z|r|q]; cbn [game_lifecycleTurn]; [by cbn|by cbn|]. by apply linear_map, tidy_linear, tidies_lifecycle.
Qed.

(** In every state of every actor, and for every message, every turn of its
    lifecycle and every answer of the database: the timer reservations the turn
    is granted are, each once, in its effects or given back. *)
Lemma game_actors_linear : (∀ m, 0 <= chargedBytes m) → turns_linear (M := GameMessage) (I := GameActor) (T := SaveTask).
Proof.
  intros Hcharge. constructor; cbn.
  - intros a m c. by apply game_dispatch_linear.
  - intros a c stopping. by apply game_lifecycle_linear.
  - intros t a res. destruct a; by cbn.
  - done.
Qed.

(** C22: a worker that runs the game's actors, with any factory, network, database
    and clock around it, and whatever it is called to do from its configuration
    until the end of phase B of its shutdown (the removal of the actors and phases
    C and D are not among the calls): either every call returns and its books are
    right (the ready queue holds exactly the queued actors, each once, the totals
    are the sums over the mailboxes, no timer reservation is left over), or it
    stopped with an [excused] fault: an exception of an actor or of the factory,
    an unusable answer of the factory or the database, an illegal batch of
    effects, or a used-up counter. *)
Theorem game_worker_books o metrics w0 calls :
  setup_ok → configureActors (I := GameActor) (T := SaveTask) o metrics = Ret w0 → Forall call_ok calls →
  match worker_run calls w0 with Done _ w => sched_ok None None 0 [] w | Failed f => excused f = true end.
Proof.
  intros Hsu H0 Hc. pose proof (game_actors_linear (su_charge Hsu)) as Hlin. apply (worker_run_ok Hsu Hlin calls Hc). by eapply configure_calm.
Qed.
End worker.

(** ** Saved and loaded *)

Lemma loadout_made l : loadout_ok l → makeLoadout (owned_skill_ids l) (equipped_skill_id l) = Ret l.
Proof.
  intros Hl. pose proof Hl as [Hs Hk He]. apply makeLoadout_accepts. split_and!; try done.
  - intros E. rewrite E in He. by apply elem_of_nil in He.
  - by apply sorted_NoDup in Hs.
Qed.

(** The fields of a record hold what their C++ types can. *)
Definition record_typed (r : PlayerRecord) : Prop :=
  in_u64 (rec_player r) ∧ in_u64 (rec_handled_command_count r) ∧
  match rec_last_location r with
  | Some l => in_u64 (loc_zone l) ∧ in_i32 (zone_x (loc_position l)) ∧ in_i32 (zone_y (loc_position l))
  | None => True
  end.

(** There are two skills to know. *)
Lemma known_skills l : loadout_ok l →
  NoDup (owned_skill_ids l) ∧ Forall (fun s => in_u32 s) (owned_skill_ids l) ∧ (0 < length (owned_skill_ids l) <= 64)%nat ∧ in_u32 (equipped_skill_id l) ∧
  merge_sort (≤) (owned_skill_ids l) = owned_skill_ids l.
Proof.
  intros [Hs Hk He]. assert (Hin : owned_skill_ids l ⊆ [SLASH; ARCANE_BOLT]).
  { intros s Hi. rewrite Forall_forall in Hk. specialize (Hk s Hi). unfold is_known, findSkill, findDefinition in Hk.
    destruct (Z.eqb_spec s SLASH) as [E1|_]; [rewrite E1; by left|]. destruct (Z.eqb_spec s ARCANE_BOLT) as [E1|_]; [rewrite E1; by right; left|done]. }
  assert (Hr : ∀ s, s ∈ owned_skill_ids l → in_u32 s).
  { intros s Hi. apply Hin in Hi. rewrite !elem_of_cons in Hi. destruct Hi as [->|[->|Hi]]; [done|done|by apply elem_of_nil in Hi]. }
  pose proof (sorted_NoDup _ Hs) as Hnd. split_and!; [done|by apply Forall_forall| | |by apply Hr..|].
  - destruct (owned_skill_ids l); [by apply elem_of_nil in He|cbn; lia].
  - pose proof (submseteq_length _ _ (NoDup_submseteq _ _ Hnd Hin)) as Hlen. cbn in Hlen. lia.
  - symmetry. apply (StronglySorted_unique (≤)); [|apply (StronglySorted_merge_sort (≤))|by rewrite merge_sort_Permutation].
    eapply StronglySorted_weaken; [|apply Hs]. simpl; intros; lia.
Qed.

Lemma player_save_typed q r : player_ok q → snapshot q = Ret r → record_typed r → save_typed (toSaveRequest r).
Proof.
  intros Hq Hr (T1 & T2 & T3). unfold snapshot in Hr. destruct (identity (session (state q))) as [p|]; [|done]. injection Hr as <-. cbn in *.
  destruct (known_skills _ (ok_loadout _ Hq)) as (K1 & K2 & K3 & K4 & _).
  constructor; cbn; try done; try apply Hq; destruct (last_location (session (state q))) as [[zone [x y]]|]; cbn in *; lia.
Qed.

(** What the factory makes of a saved player. *)
Lemma saved_constructs f q r :
  player_ok q → snapshot q = Ret r →
  ∃ a, game_constructLoaded f (player_key (rec_player r)) (loaded_of (toSaveRequest r)) = FactoryReady (Some (PlayerActor a)) ∧
    snapshot (pa_player a) = Ret r ∧ hasFlushableDirtyState (pa_player a) = false ∧
    pa_workflow a = StableRoute None ∧ pa_save_interval a = gf_player_save_interval f.
Proof.
  intros Hq Hr. unfold snapshot in Hr. destruct (identity (session (state q))) as [p|] eqn:Ei; [|done]. injection Hr as <-.
  destruct (known_skills _ (ok_loadout _ Hq)) as (_ & _ & _ & _ & K5).
  unfold game_constructLoaded, record_of, toSaveRequest, loaded_of. cbn. rewrite K5, loadout_made by apply Hq. cbn.
  unfold loadPlayerAdapter. cbn. unfold restore, throw_if. cbn. rewrite bool_decide_eq_true_2 by done. cbn. eexists. split; [done|]. cbn.
  split_and!; try done. unfold snapshot. cbn. destruct (last_location (session (state q))) as [[zone [x y]]|]; done.
Qed.


Definition demo_record : PlayerRecord := mkPlayerRecord 42 0 None 1000 0 0 defaultLoadout.
Definition demo_load : DbQueued := mkDbQueued (mkAwaitKey (player_key 42) 1 1) (LoadPlayerRequest 42) 2000 64.
Definition idle_slot : DbSlot := mkDbSlot 1 true None DbIdle true 0 None.
Definition db_config : DbClientConfig := mkDbClientConfig 256 1048576 250 4096 4194304.


(** ** A worker with a player and a zone *)

Definition game_config : WorkerActorConfig := mkActorConfig 4 8 4000 16 8000 4 7 100 50 1 1024.

#[local] Instance game_setup : WorkerSetup GameMessage := {
  chargedBytes m := 64;
  self := 0;
  worker_count := 1;
  cfg := game_config;
  has_sink := false;
  sizeof_close := 24;
  sizeof_closed := 40;
  sizeof_receipt := 40
}.

#[local] Instance game_heap : HeapAlgorithms (entry_deadline (M := GameMessage)) := sorting_heap entry_deadline.
#[local] Instance game_demo_actors : ActorBehaviour GameMessage GameActor SaveTask := game_behaviour chargedBytes.

Definition game_factory : GameActorFactory := mkFactory true false 5000 default_config.

#[local] Program Instance game_outside : WorkerOutside GameMessage GameActor Z := {
  steady_now t := (t, t);
  network_enabled t := false;
  send_local c f b st := (SendRejected, [], st);
  close_local c r b st := (false, [], st);
  close_expired h st := ([], st);
  port_bound w t := false;
  port_push w e n t := (PushClosed, t);
  note_published w t := t;
  sink_receipt k c r t := t;
  db_attached t := false;
  db_start k r d t := (SubmitRejected, t);
  construct k t := (game_construct game_factory k, t);
  constructLoaded k r t := (game_constructLoaded game_factory k r, t);
  stop_network t := t
}.
Solve Obligations with (intros; apply no_deadline).

Lemma game_setup_ok : setup_ok (M := GameMessage).
Proof. constructor; vm_compute; try done; intros; discriminate. Qed.

(** The player authenticates and asks for zone 11; three rounds of turns. *)
Definition game_calls : list (WorkerCall GameMessage) :=
  [CallDeliver (player_key 7) (PlayerCommandMessage (Some (mkConnectionRef 3 5 0)) 1 (AuthenticateCommand 7));
   CallDeliver (player_key 7) (PlayerZoneRequestMessage (mkConnectionRef 3 5 0) 2 (EnterZoneRequest 11 (mkZonePosition 1 1)));
   CallRunReady 10 1000; CallRunReady 10 1000; CallRunReady 10 1000].

Definition actor_at (k : ActorKey) (w : Worker GameMessage GameActor SaveTask Z) : option GameActor :=
  i ← find_key k (wk_actors w); s ← deref i (wk_actors w); as_instance s.

Lemma game_worker_books_witness :
  ∃ w0, configureActors (I := GameActor) (T := SaveTask) 10 [] = Ret w0
    ∧ (∃ w p z, worker_run game_calls w0 = Done () w ∧ actor_at (player_key 7) w = Some (PlayerActor p) ∧ actor_at (zone_key 11) w = Some (ZoneActor z)
         ∧ pa_workflow p = StableRoute (Some 11) ∧ playerCount z = 1)
    ∧ match worker_run game_calls w0 with Done _ w => sched_ok None None 0 [] w | Failed f => excused f = true end.
Proof.
  eexists. split; [vm_compute; reflexivity|]. split; [eexists _, _, _; split_and!; vm_compute; reflexivity|].
  apply (game_worker_books 10 []); [apply game_setup_ok|vm_compute; reflexivity|repeat constructor; cbn; lia].
Defined.
